(* ===== verification/_CoqProject ===== *)
-Q . S2P
Prelude.v
DList.v
Bitmap.v
Buddy.v
BuddyInv.v
Kern.v
Sched.v
SchedInv.v
SchedPolicies.v
Timers.v
Wait.v
Sem.v
SemInv.v
Event.v
Mbox.v
Pipe.v
PipeInv.v
File.v
FileInv.v
CString.v
CStringInv.v
Printfmt.v
PrintfmtInv.v
Vmm.v
VmmInv.v
Rb.v
RbPure.v
RbInv.v
RbDel.v
RbSpec.v
Swap.v
Pmm.v
PmmInv.v
PmmMap.v
PmmSpec.v
Shmem.v
Pgfault.v
PgfaultInv.v
PgfaultSpec.v
Kswapd.v
KswapdSpec.v
Slab.v
SlabInv.v
SlabSpec.v
Proc.v
ProcTable.v
ProcInv.v
ProcReap.v
ProcFork.v
ProcClone.v
ProcSys.v
ProcSpec.v
SfsDisk.v
Sfs.v
SfsDir.v
SfsInv.v
SfsBmap.v
SfsMake.v
SfsFile.v
SfsWrite.v
SfsIo.v
SfsFree.v
SfsSize.v
SfsNode.v
SfsEntry.v
SfsLink.v
SfsTotal.v
SfsSpec.v
Vfs.v
Inode.v
SfsRef.v
PipeFs.v
Devs.v
Stdin.v
VfsRef.v
VfsKern.v
VfsSpec.v
UMalloc.v
UMallocInv.v
UMallocSpec.v
