(* ===== verification/Prelude.v ===== *)
(** * A verification of the ucore kernel

    ucore is a small teaching kernel for the i386 (src/code).  This library models
    its core data structures and services as executable functions and proves what
    makes them correct.  Definitions keep the names of the C code; each module's
    header says how its state corresponds to the code's.

    ** The program and its model

    - Intrusive lists (libs/list.h): [DList], a heap of [prev] and [next] pointers
      with explicit aliasing.  The other components use lists of addresses where
      the code uses these links; [DList] shows that the pointer operations
      implement the list operations.
    - Library routines (libs/string.c, x86.h, printfmt.c, hash.c, rand.c):
      [CString], [CStringInv], [Printfmt], [PrintfmtInv].
    - Physical memory (kern/mm/buddy_pmm.c): [Buddy], the two-zone buddy allocator
      over page descriptors; [BuddyInv], its invariant and correctness.
    - Kernel memory (kern/mm/slab.c): [Slab], caches, slabs and [kmalloc] over the
      page allocator; [SlabInv], [SlabSpec].
    - Address spaces (kern/mm/vmm.c): [Vmm], areas in list, tree and cache, mapping
      and unmapping, checks of user pointers; [VmmInv].  The red-black tree of
      areas is the interface [RbTree].
    - Red-black trees (kern/libs/rb_tree.c): [Rb], the code on linked nodes;
      [RbPure], trees as values; [RbInv] and [RbDel], the code computes the
      functions on values; [RbSpec], the theorems, and that it is an [RbTree].
    - Page tables and swapping (kern/mm/pmm.c, swap.c, kern/fs/swap): [Swap], the
      swap cache and its lists; [Pmm], walks and the operations on pages and
      ranges; [PmmInv], [PmmMap], [PmmSpec].  Shared memory (shmem.c): [Shmem].
      Page faults ([do_pgfault] of vmm.c): [Pgfault], [PgfaultInv], [PgfaultSpec].
      The paging daemon ([kswapd_main] of swap.c): [Kswapd] with [KswapdInv], and
      [KswapdSpec].
    - Kernel objects (proc.h, sched.h, wait.h, sem.h): [Kern], one store of
      processes, run queues, timers, wait queues and semaphores.
    - Scheduling (kern/schedule): [Sched], the core and the policies RR and MLFQ;
      [SchedInv] proves the core against the interface [SchedPolicy];
      [SchedPolicies] shows that both policies and the class the kernel installs
      satisfy it; [Timers] is about the timer list.
    - Sleeping and waking (kern/sync/wait.c, ipc.h): [Wait], with [WaitInv].
      Semaphores (sem.c): [Sem], [SemInv].  Events (event.c): [Event].  Mailboxes
      (mbox.c): [Mbox], with [MboxInv].
    - Processes (kern/process/proc.c): [Proc], the process table, birth, exit,
      waiting and killing; [ProcTable] and [ProcInv], its invariant; [ProcReap],
      [ProcFork], [ProcClone], the routines; [ProcSys], all of them as one
      transition system; [ProcSpec], the theorems.
    - Pipe buffers and transfer descriptors (kern/fs/pipe/pipe_state.c, iobuf.c):
      [Pipe], [PipeInv].  Open files (file.c, fs.c, part of sysfile.c): [File],
      [FileInv]; what lies below is the class [Vfs] of that file.
    - The simple file system (kern/fs/sfs): [Bitmap], free blocks; [SfsDisk], the
      disk; [Sfs], inodes, their blocks, reading and writing; [SfsDir],
      directories, paths, the life of an inode, mounting; the other [Sfs...] files
      are its lemmas, from blocks in use ([SfsInv]) to the theorems ([SfsSpec]).
    - The virtual file system (kern/fs/vfs): [Vfs], the device list, mounting,
      current directories, paths and the calls on paths, over the class [InodeOps]
      that stands for struct inode_ops and struct fs; [Inode], the counts of
      inode.c; [PipeFs], the pipe file system (kern/fs/pipe); [Devs] and [Stdin],
      the devices (kern/fs/devs) and the sector transfers of ide.c; [SfsRef], the
      references SFS takes and gives back; [VfsRef], the same of every call;
      [VfsKern], the operation tables of the kernel as an instance of [InodeOps]
      and the kernel's start-up of its file systems; [VfsSpec], the theorems.
    - The allocator of user programs (user/libs/malloc.c): [UMalloc], with [do_brk]
      of the kernel; [UMallocInv], [UMallocSpec].

    Sleeping code calls the scheduler, timers wake sleepers through wait queues,
    semaphores and pipes are built on wait queues, processes on all of these;
    files sit on the virtual file system, and that on inodes of SFS, pipes and
    devices: the files are listed so that each part follows those it calls.

    ** How code is modelled

    A routine is a function from a state to an outcome ([M] below): it returns a
    value and a new state, stops the machine ([assert], [panic], an access to an
    address that holds nothing), or runs out of fuel.  A routine that calls
    [schedule()] is a sequence of segments ([R] below), between which the rest of
    the system may change the state.  Interrupts are masked in every such routine,
    so a segment is atomic.  Pointers are integers, NULL is 0; integers are [Z]
    reduced to their width wherever the code's arithmetic can leave it.  What
    [kmalloc] and [alloc_page] answer is part of the state, so that every pattern
    of failures is covered.

    Loops over a list or a counter recurse on it.  Where the code's loop has no
    such bound, the model has fuel, and a theorem that the routine returns shows
    the fuel is enough: the length of the list or ring walked ([DList], [Vmm],
    three times it plus five for [UMalloc]), the number of nodes of the heap for
    loops on trees ([Rb]), one round per page for ranges ([Pmm], [Kswapd]), per slot
    for the search of one ([Swap]) and per block for transfers ([Devs]), a constant for the allocators that call each other
    ([Slab]), twice the number of pids ([Proc]), the length of the path ([SfsDir]),
    the size of memory plus one for a loop that reads one more address each time
    round ([CString], [Printfmt]), 65 rounds for the digits of a 64-bit number.
    Loops that sleep ([Sem], [Pipe], [Mbox], [Stdin]) bound the number of times
    they go back to sleep.

    ** What is proved

    - Lists, memory and strings: the pointer operations of lists
      ([list_insert_refines], [list_del_init_refines]); the buddy allocator as a
      set of free pages ([buddy_alloc_pages_spec], [buddy_free_pages_spec]) that
      fails only when no aligned block is free ([buddy_alloc_no_fragmentation]);
      [kmalloc] and [kfree] hand out objects that never overlap and lose no page
      ([kmalloc_spec], [kfree_spec]), and any series of them gives back every page
      once its objects are freed ([slab_no_leak]); block moves, [vsnprintf] as a
      stream cut to its buffer, numbers through [vsnprintf] and [strtol].
    - Red-black trees keep their shape and order under insertion and deletion
      ([rb_insert_spec], [rb_delete_spec]), the code's own checker accepts them.
    - Address spaces: areas as a map from addresses to flags ([mm_map_spec],
      [mm_unmap_spec]); page tables, with exact reference counts of frames and swap
      slots, and pages freed with their last reference ([page_insert_spec],
      [unmap_range_spec], [copy_range_spec]); demand
      paging and copy on write ([do_pgfault_spec]); a round of the paging daemon
      changes what no entry stands for, whether its page is swapped out, written to
      the disk or freed ([kswapd_spec]).
    - Scheduling and synchronisation under every interleaving: [schedule_spec] and
      the MLFQ properties; no permit of a kernel semaphore is lost or made up
      ([ksem_conservation]); timers as deadlines; mailboxes, events.
    - Processes: a parent in [do_wait] never misses the end of a child
      ([wait_never_misses]), whatever forks, of any clone flags and in parts between
      which others run, happen meanwhile; [do_exit_spec], [do_wait_spec], [do_fork_spec],
      [get_pid_spec] on a table whose hash lists, families and thread groups stay
      consistent.
    - Files: a pipe is a queue of bytes ([pipe_stream_fifo]); a file is not freed
      while in use and closed once ([file_lifecycle]); SFS reads and writes the
      contents of files ([sfs_read_spec], [sfs_write_spec], [sfs_truncfile_spec]),
      keeps files apart ([sfs_files_apart]), directories are maps
      ([sfs_link_spec]) and a path is followed through them component by component
      ([sfs_lookup_spec]), the end of an inode frees its blocks and no other
      ([sfs_reclaim_spec]), inodes survive the disk ([sfs_fsync_load]).
    - The virtual file system: over any sequence of calls and failures the counts
      of every inode follow its holders ([vfs_references]); the device list is a
      map ([vfs_devices_spec]); paths ([vfs_path_spec]); the ends of named pipes
      meet ([pipe_named_ends]); blocks written to the disk device are read back
      ([disk0_roundtrip]); the keyboard's queue ([stdin_queue_spec]).
    - The user allocator: blocks in use never overlap, no memory is lost, free
      neighbours are joined ([umalloc_spec], [ufree_spec]).
    - Defects of the code, as theorems: among them a user path that stops the
      kernel ([open_pipe_stops]), [shmem_malloc] handing out a block twice
      ([shmem_double_allocation]), a directory renamed into itself
      ([sfs_rename_into_itself]), a thread that becomes its own child
      ([thread_waits_for_itself]), a post on a user semaphore whose waiter has just
      timed out, pipes whose 32-bit positions wrap, shared areas cut in two.

    ** What is assumed

    - SFS and the disk device: the theorems are for a device whose transfers succeed
      ([SfsInv.fs_ok], [Devs.DevsSpec.disk_ok]); the model has the failures.  Offsets on
      the disk device are not reduced to the 32 bits of [off_t].
    - Copies of a fork that is not a thread, and the release of resources at an exit,
      leave the process tables alone ([ProcSys.aside]); [vfs_close] of a descriptor does
      not sleep ([FileInv]).
    - Reference counts of pages do not reach 2^31.  Fields [alloc_proc] does not set are
      0, and the name of a process is left out.

    ** What is not modelled

    - The semaphores around SFS, the device list, the pipe list, the disk and an
      address space: the routines they protect are modelled one at a time.
    - Hardware access: console, clock and interrupt controller, the waiting of the
      disk driver, traps, segment descriptors and the TLB, the boot loader.
    - Waiting for the paging daemon ([try_free_pages]) and the set-up of swapping
      ([swap_init]); loading of programs ([load_icode]), [copy_string]; the dispatch
      table of system calls.
    - The kernel debugger, the host tools (mksfs, sign, vector), user programs and
      system call stubs; the self-tests ([check_...]) of the kernel, whose
      statements the theorems subsume. *)

From Stdlib Require Export ZArith Lia.
From stdpp Require Export base tactics gmap list.

#[export] Set Default Goal Selector "!".

Declare Scope kern_scope.
Delimit Scope kern_scope with kern.
Open Scope kern_scope.
Open Scope Z_scope.

(** ** Outcomes of C code

    A kernel routine either returns, stops the machine ([assert] failing,
    [panic], or a dereference of an address that holds no object), or, for a loop
    modelled with a fuel argument, runs out of it.  Theorems that say a routine
    returns exclude the last two. *)

Inductive outcome (A : Type) : Type :=
| Ret (a : A)
| Panic
| OutOfFuel.
Arguments Ret {A} a.
Arguments Panic {A}.
Arguments OutOfFuel {A}.

(** State passing with outcomes: what the code threads through its calls. *)
Definition M (S A : Type) : Type := S -> outcome (A * S).

Definition ret {S A} (a : A) : M S A := fun s => Ret (a, s).

Definition bind {S A B} (m : M S A) (k : A -> M S B) : M S B :=
  fun s =>
    match m s with
    | Ret (a, s') => k a s'
    | Panic => Panic
    | OutOfFuel => OutOfFuel
    end.

Definition get {S} : M S S := fun s => Ret (s, s).
Definition gets {S A} (f : S -> A) : M S A := fun s => Ret (f s, s).
Definition put {S} (s : S) : M S unit := fun _ => Ret (tt, s).
Definition modify {S} (f : S -> S) : M S unit := fun s => Ret (tt, f s).
Definition panic {S A} : M S A := fun _ => Panic.
Definition out_of_fuel {S A} : M S A := fun _ => OutOfFuel.

(** [assert(b)] of kern/debug/assert.h: [panic] when the condition is false. *)
Definition assert {S} (b : bool) : M S unit := if b then ret tt else panic.

(** A read through a pointer that may hold no object. *)
Definition deref {S A} (o : option A) : M S A :=
  match o with Some a => ret a | None => panic end.

Notation "x <- m ;; k" := (bind m (fun x => k))
  (at level 100, m at next level, k at level 200, right associativity) : kern_scope.
Notation "' p <- m ;; k" := (bind m (fun x => match x with p => k end))
  (at level 20, p pattern, m at level 99, k at level 200) : kern_scope.
Notation "m ;; k" := (bind m (fun _ => k))
  (at level 100, k at level 200, right associativity) : kern_scope.

Section MonadLaws.
Context {S : Type}.

Lemma bind_Ret {A B} (m : M S A) (k : A -> M S B) s r :
  bind m k s = Ret r <-> exists a s', m s = Ret (a, s') /\ k a s' = Ret r.
Proof.
  unfold bind. split.
  - destruct (m s) as [[a s']| |] eqn:E; naive_solver.
  - intros (a & s' & -> & H). exact H.
Qed.

Lemma bind_step {A B} (m : M S A) (k : A -> M S B) s a s' :
  m s = Ret (a, s') -> bind m k s = k a s'.
Proof. unfold bind. intros ->. reflexivity. Qed.

Lemma bind_get {B} (k : S -> M S B) s : bind get k s = k s s.
Proof. reflexivity. Qed.

Lemma bind_modify {B} (f : S -> S) (k : unit -> M S B) s : bind (modify f) k s = k tt (f s).
Proof. reflexivity. Qed.

Lemma bind_ret {A B} (a : A) (k : A -> M S B) s : bind (ret a) k s = k a s.
Proof. reflexivity. Qed.

Lemma bind_deref {A B} (o : option A) a (k : A -> M S B) s :
  o = Some a -> bind (deref o) k s = k a s.
Proof. by intros ->. Qed.

(** Run the first two calls of a sequence together. *)
Lemma bind_step2 {A B C} (m : M S A) (f : A -> M S B) (g : B -> M S C) s b s' :
  bind m f s = Ret (b, s') -> bind m (fun x => bind (f x) g) s = g b s'.
Proof. unfold bind. destruct (m s) as [[a t]| |]; [|done|done]. by intros ->. Qed.

Lemma bind_step2_keep {A B C} (m : M S A) (f : A -> M S B) (k : A -> M S C) s a s' :
  bind m (fun x => bind (f x) (fun _ => ret x)) s = Ret (a, s') ->
  bind m (fun x => bind (f x) (fun _ => k x)) s = k a s'.
Proof.
  unfold bind, ret. destruct (m s) as [[x t]| |]; [|done|done].
  destruct (f x t) as [[? ?]| |]; [|done|done]. by intros [= -> ->].
Qed.

Lemma assert_true {B} (k : unit -> M S B) b s :
  b = true -> bind (assert b) k s = k tt s.
Proof. intros ->. reflexivity. Qed.

Lemma assert_Ret b (s : S) r : assert b s = Ret r <-> b = true /\ r = (tt, s).
Proof.
  unfold assert, ret, panic.
  destruct b; (split; [by intros [= <-] | by intros [? ->]]).
Qed.
End MonadLaws.

(** ** Code that sleeps

    A routine that calls [schedule()] runs in segments: it gives the CPU up in
    some state and goes on, when its process is next chosen, in whatever state the
    kernel has reached.  [Sleep s k] is a routine that has called [schedule()] in
    state [s] and whose rest is [k]. *)

Inductive res (S A : Type) : Type :=
| Ok (a : A) (s : S)
| Stop
| NoFuel
| Sleep (s : S) (k : S -> res S A).
Arguments Ok {S A} a s.
Arguments Stop {S A}.
Arguments NoFuel {S A}.
Arguments Sleep {S A} s k.

Definition R (S A : Type) : Type := S -> res S A.

Definition rret {S A} (a : A) : R S A := fun s => Ok a s.

Fixpoint rthen {S A B} (r : res S A) (k : A -> R S B) : res S B :=
  match r with
  | Ok a s => k a s
  | Stop => Stop
  | NoFuel => NoFuel
  | Sleep s f => Sleep s (fun s' => rthen (f s') k)
  end.

Definition rbind {S A B} (m : R S A) (k : A -> R S B) : R S B := fun s => rthen (m s) k.

(** A segment that does not sleep. *)
Definition lift {S A} (m : M S A) : R S A := fun s =>
  match m s with Ret (a, s') => Ok a s' | Panic => Stop | OutOfFuel => NoFuel end.

(** The call [schedule()]. *)
Definition sleep {S} : R S unit := fun s => Sleep s (fun s' => Ok tt s').

Notation "x <~ m ;; k" := (rbind m (fun x => k))
  (at level 100, m at next level, k at level 200, right associativity) : kern_scope.
Notation "m ;;~ k" := (rbind m (fun _ => k))
  (at level 100, k at level 200, right associativity) : kern_scope.

Section Segments.
Context {S : Type}.

Lemma rbind_lift {A B} (m : M S A) (k : A -> R S B) s a s' :
  m s = Ret (a, s') -> rbind (lift m) k s = k a s'.
Proof. unfold rbind, lift. by intros ->. Qed.

Lemma rbind_sleep {B} (k : unit -> R S B) s : rbind sleep k s = Sleep s (k tt).
Proof. reflexivity. Qed.

Lemma rbind_rret {A B} (a : A) (k : A -> R S B) s : rbind (rret a) k s = k a s.
Proof. reflexivity. Qed.

Lemma lift_Ret {A} (m : M S A) s a s' : m s = Ret (a, s') -> lift m s = Ok a s'.
Proof. unfold lift. by intros ->. Qed.
End Segments.

(** ** Machine integers

    A [w]-bit unsigned value is a [Z] in [0, 2^w); arithmetic on it is followed
    by [u32] (or [u64]), and [s32] reads a 32-bit pattern as a signed [int]. *)

Definition u32 (x : Z) : Z := x mod 2 ^ 32.
Definition u64 (x : Z) : Z := x mod 2 ^ 64.
Definition s32 (x : Z) : Z := (x + 2 ^ 31) mod 2 ^ 32 - 2 ^ 31.

Definition is_u32 (x : Z) : Prop := 0 <= x < 2 ^ 32.
Definition is_s32 (x : Z) : Prop := - 2 ^ 31 <= x < 2 ^ 31.

Lemma u32_small x : is_u32 x -> u32 x = x.
Proof. unfold is_u32, u32. intros. now apply Z.mod_small. Qed.

Lemma u32_range x : is_u32 (u32 x).
Proof. unfold is_u32, u32. apply Z.mod_pos_bound. lia. Qed.

Lemma s32_small x : is_s32 x -> s32 x = x.
Proof. unfold is_s32, s32. intros. rewrite Z.mod_small; lia. Qed.

Lemma s32_range x : is_s32 (s32 x).
Proof.
  unfold is_s32, s32.
  pose proof (Z.mod_pos_bound (x + 2 ^ 31) (2 ^ 32) ltac:(lia)). lia.
Qed.

(** ** Arrays

    A C array of [n] elements, indexed from 0, as a finite map. *)

Definition array {A} (n : Z) (f : Z -> A) : gmap Z A :=
  list_to_map ((fun i => (i, f i)) <$> seqZ 0 n).

Lemma array_lookup {A} n (f : Z -> A) i a :
  array n f !! i = Some a <-> 0 <= i < n /\ a = f i.
Proof.
  unfold array. split.
  - intros H%elem_of_list_to_map_2. apply list_elem_of_fmap in H as (j & [= -> ->] & Hj).
    apply elem_of_seqZ in Hj. split; [lia|done].
  - intros [Hi ->]. apply elem_of_list_to_map_1.
    + rewrite <- list_fmap_compose. apply NoDup_fmap_2; [apply _|apply NoDup_seqZ].
    + apply list_elem_of_fmap. exists i. split; [done|]. apply elem_of_seqZ. lia.
Qed.

(** ** Byte memory: what [memcpy] and [memmove] read and write *)

Definition read_bytes (m : gmap Z Z) (a n : Z) : list Z := (fun i => default 0 (m !! i)) <$> seqZ a n.

Fixpoint write_bytes (m : gmap Z Z) (a : Z) (l : list Z) : gmap Z Z :=
  match l with [] => m | x :: l => write_bytes (<[a := x]> m) (a + 1) l end.

Lemma read_bytes_app m a n1 n2 :
  0 <= n1 -> 0 <= n2 -> read_bytes m a (n1 + n2) = read_bytes m a n1 ++ read_bytes m (a + n1) n2.
Proof. intros. unfold read_bytes. by rewrite seqZ_app, fmap_app by lia. Qed.

Lemma length_read_bytes m a n : 0 <= n -> Z.of_nat (length (read_bytes m a n)) = n.
Proof. intros. unfold read_bytes. rewrite length_fmap, length_seqZ. lia. Qed.

Lemma write_bytes_app m a l1 l2 :
  write_bytes m a (l1 ++ l2) = write_bytes (write_bytes m a l1) (a + Z.of_nat (length l1)) l2.
Proof.
  revert m a. induction l1 as [|x l1 IH]; intros m a; cbn [app write_bytes].
  - by rewrite Z.add_0_r.
  - rewrite IH. f_equal. cbn [length]. lia.
Qed.

(** ** Error codes (libs/error.h) *)
Definition E_UNSPECIFIED : Z := 1.
Definition E_BAD_PROC : Z := 2.
Definition E_INVAL : Z := 3.
Definition E_NO_MEM : Z := 4.
Definition E_NO_FREE_PROC : Z := 5.
Definition E_FAULT : Z := 6.
Definition E_SWAP_FAULT : Z := 7.
Definition E_INVAL_ELF : Z := 8.
Definition E_KILLED : Z := 9.
Definition E_PANIC : Z := 10.
Definition E_TIMEOUT : Z := 11.
Definition E_TOO_BIG : Z := 12.
Definition E_NO_DEV : Z := 13.
Definition E_NA_DEV : Z := 14.
Definition E_BUSY : Z := 15.
Definition E_NOENT : Z := 16.
Definition E_ISDIR : Z := 17.
Definition E_NOTDIR : Z := 18.
Definition E_XDEV : Z := 19.
Definition E_UNIMP : Z := 20.
Definition E_SEEK : Z := 21.
Definition E_MAX_OPEN : Z := 22.
Definition E_EXISTS : Z := 23.
Definition E_NOTEMPTY : Z := 24.

(** ** Automation *)

(** Split every boolean test, comparison and match in sight. *)
Ltac case_bool :=
  match goal with
  | H : context [Z.eqb ?a ?b] |- _ => destruct (Z.eqb_spec a b)
  | |- context [Z.eqb ?a ?b] => destruct (Z.eqb_spec a b)
  | H : context [Z.ltb ?a ?b] |- _ => destruct (Z.ltb_spec a b)
  | |- context [Z.ltb ?a ?b] => destruct (Z.ltb_spec a b)
  | H : context [Z.leb ?a ?b] |- _ => destruct (Z.leb_spec a b)
  | |- context [Z.leb ?a ?b] => destruct (Z.leb_spec a b)
  end.

(** Linear arithmetic with [/] and [mod] by constants. *)
Ltac dlia := Z.to_euclidean_division_equations; lia.

(** Run a monadic computation symbolically as far as its tests are decided. *)
Ltac mrun :=
  repeat (progress cbn [bind ret get gets put modify panic out_of_fuel deref
                        assert fst snd] in *
          || unfold bind, ret, get, gets, put, modify, panic, out_of_fuel, deref,
             assert in *).

(** Run the first call of a sequence with a lemma that says what it returns. *)
Tactic Notation "mstep" uconstr(lem) := (erewrite bind_step; [|eapply lem]); cbv beta iota.

(** The same in a routine that sleeps. *)
Tactic Notation "rstep" uconstr(lem) := (erewrite rbind_lift; [|eapply lem]); cbv beta iota.

(** Case analysis on a hypothesis that a literal finite map holds a binding. *)
Ltac enum_map H :=
  apply elem_of_list_to_map_2 in H;
  repeat (apply elem_of_cons in H as [H|H]; [injection H as ? ?; subst|]);
  try (by apply not_elem_of_nil in H).

(** The same for membership in a literal list. *)
Ltac enum_list H :=
  repeat (apply elem_of_cons in H as [H|H]; [subst|]);
  try (by apply not_elem_of_nil in H).

Create HintDb kern discriminated.
#[export] Hint Resolve u32_range s32_range : kern.
