(* ===== verification/DList.v ===== *)
(** * Intrusive doubly linked lists (src/code/libs/list.h) *)

From S2P Require Import Prelude.
Open Scope Z_scope.

(** ** The heap of [struct list_entry]

    An address maps to the [prev] and [next] pointers stored there.  Every
    routine runs on the shared heap, so aliasing between entries is explicit. *)

Module DList.

Record list_entry := mk_entry { prev : Z; next : Z }.

Abbreviation heap := (gmap Z list_entry).

(** [p->next], [p->prev], [p->next = v], [p->prev = v]; an access to an address
    that holds no entry stops the machine. *)
Definition load_next (p : Z) : M heap Z := h <- get ;; e <- deref (h !! p) ;; ret (next e).
Definition load_prev (p : Z) : M heap Z := h <- get ;; e <- deref (h !! p) ;; ret (prev e).

Definition store_next (p v : Z) : M heap unit :=
  h <- get ;; e <- deref (h !! p) ;; put (<[p := mk_entry (prev e) v]> h).

Definition store_prev (p v : Z) : M heap unit :=
  h <- get ;; e <- deref (h !! p) ;; put (<[p := mk_entry v (next e)]> h).

(** ** The operations *)

Definition list_init (elm : Z) : M heap unit :=
  store_next elm elm ;; store_prev elm elm.

Definition __list_add (elm prev next : Z) : M heap unit :=
  store_prev next elm ;; store_next prev elm ;;
  store_next elm next ;; store_prev elm prev.

Definition __list_del (prev next : Z) : M heap unit :=
  store_next prev next ;; store_prev next prev.

Definition list_add_before (listelm elm : Z) : M heap unit :=
  p <- load_prev listelm ;; __list_add elm p listelm.

Definition list_add_after (listelm elm : Z) : M heap unit :=
  n <- load_next listelm ;; __list_add elm listelm n.

Definition list_add (listelm elm : Z) : M heap unit := list_add_after listelm elm.

Definition list_del (listelm : Z) : M heap unit :=
  p <- load_prev listelm ;; n <- load_next listelm ;; __list_del p n.

Definition list_del_init (listelm : Z) : M heap unit :=
  list_del listelm ;; list_init listelm.

Definition list_empty (l : Z) : M heap bool := n <- load_next l ;; ret (n =? l).

Definition list_next (listelm : Z) : M heap Z := load_next listelm.

Definition list_prev (listelm : Z) : M heap Z := load_prev listelm.

(** The idiom [le = list; while ((le = list_next(le)) != list) ...] found in
    every client: the entries it visits, in order. *)
Fixpoint list_walk (fuel : nat) (head le : Z) : M heap (list Z) :=
  match fuel with
  | O => out_of_fuel
  | S fuel =>
      le <- list_next le ;;
      if le =? head then ret []
      else (tl <- list_walk fuel head le ;; ret (le :: tl))
  end.

(** ** Rings: the abstract view

    [nx] and [pv] read one pointer; [path h l] says that each entry of [l] points
    forward to the one after it, which points back; a list with head [hd] and
    contents [xs] is the path from [hd] through [xs] back to [hd], without
    repetition. *)

Definition nx (h : heap) (p : Z) : option Z := next <$> h !! p.
Definition pv (h : heap) (p : Z) : option Z := prev <$> h !! p.

Definition linked (h : heap) (a b : Z) : Prop := nx h a = Some b /\ pv h b = Some a.

Fixpoint path (h : heap) (l : list Z) : Prop :=
  match l with
  | a :: (b :: _) as l' => linked h a b /\ path h l'
  | _ => True
  end.

Definition dlist (h : heap) (hd : Z) (xs : list Z) : Prop :=
  NoDup (hd :: xs) /\ path h (hd :: xs ++ [hd]).

(** An entry outside every list: its own ring. *)
Definition isolated (h : heap) (e : Z) : Prop := dlist h e [].

(** ** Pointer reads and writes *)

Lemma load_next_ok h p v : nx h p = Some v -> load_next p h = Ret (v, h).
Proof. unfold nx, load_next. mrun. destruct (h !! p); naive_solver. Qed.

Lemma load_prev_ok h p v : pv h p = Some v -> load_prev p h = Ret (v, h).
Proof. unfold pv, load_prev. mrun. destruct (h !! p); naive_solver. Qed.

(** The heap a store produces, as a function of the heap it starts from. *)
Definition set_next (p v : Z) (h : heap) : heap := alter (fun e => mk_entry (prev e) v) p h.
Definition set_prev (p v : Z) (h : heap) : heap := alter (fun e => mk_entry v (next e)) p h.

Lemma store_next_ok h p v : is_Some (h !! p) -> store_next p v h = Ret (tt, set_next p v h).
Proof.
  intros [e He]. unfold store_next, set_next. mrun. rewrite He.
  do 2 f_equal. apply map_eq. intros k. rewrite lookup_insert, lookup_alter.
  case_decide; subst; [by rewrite He | done].
Qed.

Lemma store_prev_ok h p v : is_Some (h !! p) -> store_prev p v h = Ret (tt, set_prev p v h).
Proof.
  intros [e He]. unfold store_prev, set_prev. mrun. rewrite He.
  do 2 f_equal. apply map_eq. intros k. rewrite lookup_insert, lookup_alter.
  case_decide; subst; [by rewrite He | done].
Qed.

Lemma nx_set_next h p v q :
  nx (set_next p v h) q = if decide (p = q) then (fun _ => v) <$> nx h q else nx h q.
Proof.
  unfold nx, set_next. rewrite lookup_alter. case_decide; [subst|done].
  by destruct (h !! q).
Qed.

Lemma pv_set_next h p v q : pv (set_next p v h) q = pv h q.
Proof.
  unfold pv, set_next. rewrite lookup_alter. case_decide; [subst|done].
  by destruct (h !! q).
Qed.

Lemma pv_set_prev h p v q :
  pv (set_prev p v h) q = if decide (p = q) then (fun _ => v) <$> pv h q else pv h q.
Proof.
  unfold pv, set_prev. rewrite lookup_alter. case_decide; [subst|done].
  by destruct (h !! q).
Qed.

Lemma nx_set_prev h p v q : nx (set_prev p v h) q = nx h q.
Proof.
  unfold nx, set_prev. rewrite lookup_alter. case_decide; [subst|done].
  by destruct (h !! q).
Qed.

Lemma set_next_frame h p v q : p <> q -> set_next p v h !! q = h !! q.
Proof. intros. by apply lookup_alter_ne. Qed.

Lemma set_prev_frame h p v q : p <> q -> set_prev p v h !! q = h !! q.
Proof. intros. by apply lookup_alter_ne. Qed.

Lemma set_next_mapped h p v q : is_Some (set_next p v h !! q) <-> is_Some (h !! q).
Proof. apply lookup_alter_is_Some. Qed.

Lemma set_prev_mapped h p v q : is_Some (set_prev p v h !! q) <-> is_Some (h !! q).
Proof. apply lookup_alter_is_Some. Qed.

Lemma nx_mapped h p v : nx h p = Some v -> is_Some (h !! p).
Proof. unfold nx. destruct (h !! p); naive_solver. Qed.

Lemma pv_mapped h p v : pv h p = Some v -> is_Some (h !! p).
Proof. unfold pv. destruct (h !! p); naive_solver. Qed.

Lemma mapped_nx h p : is_Some (h !! p) -> is_Some (nx h p).
Proof. unfold nx. intros [e ->]. by eexists. Qed.

Lemma mapped_pv h p : is_Some (h !! p) -> is_Some (pv h p).
Proof. unfold pv. intros [e ->]. by eexists. Qed.

Create Rewrite HintDb dlist_reads.
#[local] Hint Rewrite nx_set_next pv_set_next nx_set_prev pv_set_prev : dlist_reads.
#[local] Hint Rewrite set_next_mapped set_prev_mapped : dlist_reads.
#[local] Hint Resolve nx_mapped pv_mapped : kern.

(** ** Paths *)

Lemma path_app h l1 p n l2 :
  path h (l1 ++ p :: n :: l2) <-> path h (l1 ++ [p]) /\ linked h p n /\ path h (n :: l2).
Proof.
  induction l1 as [|a l1 IH]; [cbn; tauto|].
  destruct l1 as [|b l1]; cbn in *; tauto.
Qed.

Lemma path_frame h h' l :
  (forall y, y ∈ removelast l -> nx h' y = nx h y) ->
  (forall y, y ∈ tail l -> pv h' y = pv h y) ->
  path h l -> path h' l.
Proof.
  induction l as [|a l IH]; intros Hn Hp H; [done|].
  destruct l as [|b l]; [done|].
  destruct H as [[H1 H2] H]. split.
  - split; [rewrite Hn; [done|set_solver] | rewrite Hp; [done|set_solver]].
  - apply IH; [..|done]; intros y Hy; [apply Hn|apply Hp]; cbn in *; set_solver.
Qed.

Lemma elem_of_removelast (l : list Z) y : y ∈ removelast l -> y ∈ l.
Proof. induction l as [|a [|b l] IH]; cbn in *; set_solver. Qed.

Lemma removelast_nodup (l : list Z) (x : Z) y :
  NoDup (l ++ [x]) -> y ∈ removelast (l ++ [x]) -> y <> x.
Proof.
  rewrite removelast_last. intros H%NoDup_app Hy ->. destruct H as (_ & H & _).
  specialize (H x Hy). set_solver.
Qed.

(** ** Insertion and removal between two neighbours *)

(** The neighbours of the gap between [l1] and [l2] in a list with head [hd]. *)
Definition left_of (hd : Z) (l1 : list Z) : Z := List.last l1 hd.
Definition right_of (hd : Z) (l2 : list Z) : Z := List.hd hd l2.

Lemma left_of_split hd l1 : exists L, hd :: l1 = L ++ [left_of hd l1].
Proof.
  unfold left_of. destruct l1 as [|x l1 _] using rev_ind; [by exists []|].
  exists (hd :: l1). by rewrite List.last_last.
Qed.

Lemma right_of_split hd l2 : exists R, l2 ++ [hd] = right_of hd l2 :: R.
Proof. unfold right_of. destruct l2 as [|x l2]; cbn; eauto. Qed.

Lemma gap_path h hd l1 l2 :
  path h (hd :: (l1 ++ l2) ++ [hd]) <->
  path h (hd :: l1) /\ linked h (left_of hd l1) (right_of hd l2) /\ path h (l2 ++ [hd]).
Proof.
  destruct (left_of_split hd l1) as [L HL], (right_of_split hd l2) as [R HR].
  rewrite <- app_assoc, app_comm_cons, HL, HR, <- app_assoc. cbn.
  apply path_app.
Qed.

Lemma gap_linked h hd l1 l2 :
  dlist h hd (l1 ++ l2) -> linked h (left_of hd l1) (right_of hd l2).
Proof. intros [_ H]. apply gap_path in H. tauto. Qed.

Lemma left_of_elem hd l1 : left_of hd l1 ∈ hd :: l1.
Proof. destruct (left_of_split hd l1) as [L ->]. set_solver. Qed.

Lemma right_of_elem hd l2 : right_of hd l2 ∈ hd :: l2.
Proof. unfold right_of. destruct l2; set_solver. Qed.

(** The heap [__list_add] leaves, and the one [__list_del] leaves. *)
Definition add_heap (e p n : Z) (h : heap) : heap :=
  set_prev e p (set_next e n (set_next p e (set_prev n e h))).
Definition del_heap (p n : Z) (h : heap) : heap := set_prev n p (set_next p n h).

Lemma __list_add_ok h e p n :
  is_Some (h !! e) -> is_Some (h !! p) -> is_Some (h !! n) ->
  __list_add e p n h = Ret (tt, add_heap e p n h).
Proof.
  intros. unfold __list_add, add_heap.
  mstep store_prev_ok; [|done].
  mstep store_next_ok; [|by autorewrite with dlist_reads].
  mstep store_next_ok; [|by autorewrite with dlist_reads].
  apply store_prev_ok. by autorewrite with dlist_reads.
Qed.

Lemma __list_del_ok h p n :
  is_Some (h !! p) -> is_Some (h !! n) -> __list_del p n h = Ret (tt, del_heap p n h).
Proof.
  intros. unfold __list_del, del_heap.
  mstep store_next_ok; [|done].
  apply store_prev_ok. by autorewrite with dlist_reads.
Qed.

Lemma add_heap_frame h e p n q : q <> e -> q <> p -> q <> n -> add_heap e p n h !! q = h !! q.
Proof. intros. unfold add_heap. by rewrite set_prev_frame, !set_next_frame, set_prev_frame. Qed.

Lemma del_heap_frame h p n q : q <> p -> q <> n -> del_heap p n h !! q = h !! q.
Proof. intros. unfold del_heap. by rewrite set_prev_frame, set_next_frame. Qed.

Lemma nodup_middle (hd : Z) l1 x l2 :
  NoDup (hd :: l1 ++ x :: l2) <-> (x ∉ hd :: l1 ++ l2) /\ NoDup (hd :: l1 ++ l2).
Proof.
  assert (hd :: l1 ++ x :: l2 ≡ₚ x :: hd :: l1 ++ l2) as ->
    by (rewrite <- Permutation_middle; constructor).
  apply NoDup_cons.
Qed.

(** Facts about the two sides of a gap in a list without repetition. *)
Lemma gap_nodup hd l1 l2 :
  NoDup (hd :: l1 ++ l2) ->
  (forall y, y ∈ removelast (hd :: l1) -> y <> left_of hd l1) /\
  (forall y, y ∈ l1 -> y <> right_of hd l2) /\
  (forall y, y ∈ l2 -> y <> left_of hd l1) /\
  (forall y, y ∈ tail (l2 ++ [hd]) -> y <> right_of hd l2).
Proof.
  intros Hnd. rewrite app_comm_cons in Hnd.
  apply NoDup_app in Hnd as (Hnd1 & Hdis & Hnd2).
  pose proof (left_of_elem hd l1) as HL. pose proof (right_of_elem hd l2) as HR.
  split_and!.
  - destruct (left_of_split hd l1) as [L HL']. rewrite HL' in Hnd1 |- *.
    intros y Hy. eapply removelast_nodup; eauto.
  - intros y Hy ->. apply NoDup_cons in Hnd1 as [Hhd _].
    apply elem_of_cons in HR as [E|HR]; [congruence|].
    apply (Hdis (right_of hd l2)); [by right|done].
  - intros y Hy ->. by apply (Hdis (left_of hd l1)).
  - unfold right_of. destruct l2 as [|x l2]; cbn; [set_solver|].
    apply NoDup_cons in Hnd2 as [Hx _].
    intros y [Hy| ->%list_elem_of_singleton]%elem_of_app ->; [done|].
    apply (Hdis x); set_solver.
Qed.

(** Inserting [e] into a gap: the ring grows by [e], there and nowhere else. *)
Lemma add_gap h hd l1 l2 e :
  dlist h hd (l1 ++ l2) -> is_Some (h !! e) -> e ∉ hd :: l1 ++ l2 ->
  dlist (add_heap e (left_of hd l1) (right_of hd l2) h) hd (l1 ++ e :: l2).
Proof.
  intros [Hnd Hp] He Hne. pose proof (gap_nodup _ _ _ Hnd) as (N1 & N2 & N3 & N4).
  pose proof (left_of_elem hd l1) as HL. pose proof (right_of_elem hd l2) as HR.
  apply mapped_nx in He as Hen. apply mapped_pv in He as Hep.
  destruct Hen as [en Hen], Hep as [ep Hep].
  apply gap_path in Hp as (Hp1 & [Hl1 Hl2] & Hp2). split.
  { by apply nodup_middle. }
  assert (e <> left_of hd l1 /\ e <> right_of hd l2) as [Hel Her] by set_solver.
  assert (forall y, y ∈ hd :: l1 ++ l2 -> e <> y) as He' by set_solver.
  apply gap_path; cbn [right_of List.hd]. split_and!.
  - apply (path_frame h); [..|done]; intros y Hy; unfold add_heap; autorewrite with dlist_reads.
    + rewrite (decide_False (P := left_of hd l1 = y)); [|apply not_eq_sym, N1, Hy].
      rewrite decide_False; [done|]. apply He'.
      apply (elem_of_removelast) in Hy. set_solver.
    + cbn in Hy. rewrite !decide_False; [done|..]; [apply not_eq_sym, N2, Hy|].
      apply He'. set_solver.
  - unfold linked, add_heap. autorewrite with dlist_reads.
    rewrite decide_False, decide_True, Hl1, decide_True, decide_False, Hep by congruence. done.
  - change ((e :: l2) ++ [hd]) with (e :: (l2 ++ [hd])).
    destruct (right_of_split hd l2) as [R ER]. rewrite ER in *. cbn [tail] in N4. split.
    { unfold linked, add_heap. autorewrite with dlist_reads.
      rewrite decide_True, decide_False, Hen, decide_False, decide_True, Hl2 by congruence. done. }
    apply (path_frame h); [..|done]; intros y Hy; unfold add_heap; autorewrite with dlist_reads.
    + rewrite <- ER, removelast_last in Hy.
      rewrite !decide_False; [done|..]; [apply not_eq_sym, N3, Hy|apply He'; set_solver].
    + cbn in Hy. rewrite !decide_False; [done|..]; [apply not_eq_sym, N4, Hy|].
      apply He'. assert (y ∈ l2 ++ [hd]) by (rewrite ER; by right). set_solver.
Qed.

(** Bridging over [x]: the ring loses [x] and keeps its order. *)
Lemma del_gap h hd l1 x l2 :
  dlist h hd (l1 ++ x :: l2) ->
  dlist (del_heap (left_of hd l1) (right_of hd l2) h) hd (l1 ++ l2).
Proof.
  intros [Hnd Hp]. apply gap_path in Hp as (Hp1 & [Hl1 _] & Hp2).
  apply nodup_middle in Hnd as [_ Hnd'].
  pose proof (gap_nodup _ _ _ Hnd') as (N1 & N2 & N3 & N4).
  change ((x :: l2) ++ [hd]) with (x :: (l2 ++ [hd])) in Hp2.
  split; [done|]. apply gap_path.
  destruct (right_of_split hd l2) as [R ER]. rewrite ER in *. cbn [tail] in N4.
  destruct Hp2 as [[_ Hl2] Hp2]. split_and!.
  - apply (path_frame h); [..|done]; intros y Hy; unfold del_heap; autorewrite with dlist_reads.
    + rewrite decide_False; [done|]. apply not_eq_sym, N1, Hy.
    + cbn in Hy. rewrite decide_False; [done|]. apply not_eq_sym, N2, Hy.
  - unfold linked, del_heap. autorewrite with dlist_reads.
    by rewrite !decide_True, Hl1, Hl2.
  - apply (path_frame h); [..|done]; intros y Hy; unfold del_heap; autorewrite with dlist_reads.
    + rewrite <- ER, removelast_last in Hy. rewrite decide_False; [done|].
      apply not_eq_sym, N3, Hy.
    + rewrite decide_False; [done|]. apply not_eq_sym, N4, Hy.
Qed.

Lemma dlist_mapped h hd xs x : dlist h hd xs -> x ∈ hd :: xs -> is_Some (h !! x).
Proof.
  intros Hd [->|Hx]%elem_of_cons.
  - apply (gap_linked h hd [] xs) in Hd as [H _]. cbn in H. eauto with kern.
  - apply list_elem_of_split in Hx as (l1 & l2 & ->).
    apply (gap_linked h hd l1 (x :: l2)) in Hd as [_ H]. cbn in H. eauto with kern.
Qed.

(** A list is untouched by writes elsewhere: lists that share no entry are
    independent. *)
Lemma dlist_frame h h' hd xs :
  (forall y, y ∈ hd :: xs -> h' !! y = h !! y) -> dlist h hd xs -> dlist h' hd xs.
Proof.
  intros Heq [Hnd Hp]. split; [done|].
  apply (path_frame h); [..|done]; intros y Hy; unfold nx, pv; rewrite Heq; try done.
  - apply elem_of_removelast in Hy. set_solver.
  - cbn in Hy. set_solver.
Qed.

(** ** What the operations do to a list *)

(** Inserting a fresh entry next to any member of a list.  [list_add_after]
    on the entry to the left of a gap and [list_add_before] on the entry to its
    right are the same operation, neither touches an invalid pointer, the result
    is the ring with the entry in that gap, and no entry of another list changes. *)
Theorem list_insert_refines h hd l1 l2 e :
  dlist h hd (l1 ++ l2) -> is_Some (h !! e) -> e ∉ hd :: l1 ++ l2 ->
  exists h',
    list_add_after (left_of hd l1) e h = Ret (tt, h') /\
    list_add_before (right_of hd l2) e h = Ret (tt, h') /\
    dlist h' hd (l1 ++ e :: l2) /\
    (forall q, q ∉ e :: hd :: l1 ++ l2 -> h' !! q = h !! q).
Proof.
  intros Hd He Hne. exists (add_heap e (left_of hd l1) (right_of hd l2) h).
  pose proof (gap_linked _ _ _ _ Hd) as [Hn Hp].
  pose proof (left_of_elem hd l1). pose proof (right_of_elem hd l2). split_and!.
  - unfold list_add_after. mstep load_next_ok; [|done].
    apply __list_add_ok; eauto with kern.
  - unfold list_add_before. mstep load_prev_ok; [|done].
    apply __list_add_ok; eauto with kern.
  - by apply add_gap.
  - intros q Hq. apply add_heap_frame; set_solver.
Qed.

(** [list_init] turns any entry into a ring of its own. *)
Definition init_heap (e : Z) (h : heap) : heap := set_prev e e (set_next e e h).

Lemma list_init_ok h e : is_Some (h !! e) -> list_init e h = Ret (tt, init_heap e h).
Proof.
  intros. unfold list_init. mstep store_next_ok; [|done].
  apply store_prev_ok. by autorewrite with dlist_reads.
Qed.

Lemma init_heap_isolated h e : is_Some (h !! e) -> isolated (init_heap e h) e.
Proof.
  intros He. split; [apply NoDup_singleton|]. cbn. unfold linked, init_heap.
  autorewrite with dlist_reads. rewrite !decide_True by done.
  apply mapped_nx in He as Hn. apply mapped_pv in He as Hp.
  destruct Hn as [? ->], Hp as [? ->]. done.
Qed.

Lemma init_heap_frame h e q : q <> e -> init_heap e h !! q = h !! q.
Proof. intros. unfold init_heap. by rewrite set_prev_frame, set_next_frame. Qed.

(** [list_empty] decides whether a ring has no entry besides its head. *)
Lemma list_empty_ok h hd xs :
  dlist h hd xs -> list_empty hd h = Ret (bool_decide (xs = []), h).
Proof.
  intros Hd. unfold list_empty.
  pose proof (gap_linked h hd [] xs Hd) as [Hn _]. cbn in Hn.
  mstep load_next_ok; [|exact Hn]. unfold ret. do 2 f_equal.
  destruct Hd as [Hnd _]. apply NoDup_cons in Hnd as [Hhd _].
  destruct xs as [|x xs]; cbn; [by rewrite Z.eqb_refl|].
  case_bool; [set_solver|done].
Qed.

Lemma list_del_ok h hd l1 x l2 :
  dlist h hd (l1 ++ x :: l2) ->
  list_del x h = Ret (tt, del_heap (left_of hd l1) (right_of hd l2) h).
Proof.
  intros Hd.
  pose proof (gap_linked h hd l1 (x :: l2) Hd) as [_ Hpx].
  pose proof (gap_linked h hd (l1 ++ [x]) l2) as Hnx.
  rewrite <- app_assoc in Hnx. specialize (Hnx Hd) as [Hnx _].
  unfold left_of in Hnx. rewrite List.last_last in Hnx.
  pose proof (left_of_elem hd l1) as HL. pose proof (right_of_elem hd l2) as HR.
  unfold list_del. mstep load_prev_ok; [|exact Hpx]. mstep load_next_ok; [|exact Hnx].
  apply __list_del_ok; eapply dlist_mapped; try done; set_solver.
Qed.

(** [list_del_init] on a member removes exactly it, keeps the order of the
    rest, leaves the removed entry as a ring of its own (so [list_empty] holds of
    it), and no entry of another list changes. *)
Theorem list_del_init_refines h hd l1 x l2 :
  dlist h hd (l1 ++ x :: l2) ->
  exists h',
    list_del_init x h = Ret (tt, h') /\
    dlist h' hd (l1 ++ l2) /\ isolated h' x /\ list_empty x h' = Ret (true, h') /\
    (forall q, q ∉ hd :: l1 ++ x :: l2 -> h' !! q = h !! q).
Proof.
  intros Hd. pose proof (left_of_elem hd l1) as HL. pose proof (right_of_elem hd l2) as HR.
  set (h1 := del_heap (left_of hd l1) (right_of hd l2) h).
  assert (is_Some (h1 !! x)) as Hx1.
  { unfold h1, del_heap. autorewrite with dlist_reads. eapply dlist_mapped; [done|]. set_solver. }
  assert (x ∉ hd :: l1 ++ l2) as Hx by (destruct Hd as [Hnd _]; apply nodup_middle in Hnd; tauto).
  exists (init_heap x h1). pose proof (init_heap_isolated h1 x Hx1) as Hiso. split_and!.
  - unfold list_del_init. mstep list_del_ok; [|exact Hd]. by apply list_init_ok.
  - apply (dlist_frame h1); [|by apply (del_gap h hd l1 x l2)].
    intros y Hy. apply init_heap_frame. intros ->. done.
  - done.
  - by rewrite (list_empty_ok _ _ [] Hiso).
  - intros q Hq. rewrite init_heap_frame by set_solver. apply del_heap_frame; set_solver.
Qed.

Lemma list_walk_from h hd l1 l2 fuel :
  dlist h hd (l1 ++ l2) -> (length l2 < fuel)%nat ->
  list_walk fuel hd (left_of hd l1) h = Ret (l2, h).
Proof.
  revert l1 fuel. induction l2 as [|x l2 IH]; intros l1 [|fuel] Hd Hf; try (cbn in Hf; lia);
    pose proof (gap_linked _ _ _ _ Hd) as [Hn _]; cbn in Hn; cbn [list_walk];
    (mstep load_next_ok; [|exact Hn]).
  - by rewrite Z.eqb_refl.
  - destruct (Z.eqb_spec x hd) as [->|].
    { destruct Hd as [Hnd _]. apply NoDup_cons in Hnd as [Hhd _]. set_solver. }
    assert (left_of hd (l1 ++ [x]) = x) as Hx by (unfold left_of; apply List.last_last).
    erewrite bind_step; [reflexivity|]. rewrite <- Hx at 1.
    apply IH; [by rewrite <- app_assoc|cbn in Hf; lia].
Qed.

(** The traversal idiom [le = list; while ((le = list_next(le)) != list)]
    terminates on every list, visits its entries once each and in order, and
    [list_empty] is true exactly when there is none. *)
Theorem list_walk_complete h hd xs :
  dlist h hd xs ->
  list_walk (S (length xs)) hd hd h = Ret (xs, h) /\
  list_empty hd h = Ret (bool_decide (xs = []), h).
Proof.
  intros Hd. split; [|by apply list_empty_ok].
  apply (list_walk_from h hd [] xs); [done|lia].
Qed.

(** ** A concrete heap: head 1, entries 2 and 3, and a spare entry 9. *)
Definition heap_ex : heap :=
  list_to_map [(1, mk_entry 3 2); (2, mk_entry 1 3); (3, mk_entry 2 1); (9, mk_entry 0 0)].

Lemma heap_ex_dlist : dlist heap_ex 1 [2; 3].
Proof. split; [by apply (bool_decide_unpack _) | cbn; repeat split]. Qed.

Lemma list_insert_refines_witness :
  exists h', list_add_after 2 9 heap_ex = Ret (tt, h') /\ dlist h' 1 [2; 9; 3].
Proof.
  destruct (list_insert_refines heap_ex 1 [2] [3] 9) as (h' & H1 & _ & H2 & _).
  - apply heap_ex_dlist.
  - vm_compute. eauto.
  - set_solver.
  - exists h'. split; [exact H1 | exact H2].
Defined.

Lemma list_del_init_refines_witness :
  exists h', list_del_init 2 heap_ex = Ret (tt, h') /\ dlist h' 1 [3].
Proof.
  destruct (list_del_init_refines heap_ex 1 [] 2 [3] heap_ex_dlist) as (h' & H1 & H2 & _).
  exists h'. split; [exact H1 | exact H2].
Defined.

Lemma list_walk_complete_witness : list_walk 3 1 1 heap_ex = Ret ([2; 3], heap_ex).
Proof. exact (proj1 (list_walk_complete heap_ex 1 [2; 3] heap_ex_dlist)). Defined.

End DList.
