(* ===== verification/Bitmap.v ===== *)
(** * Block bitmaps (src/code/kern/fs/sfs/bitmap.c)

    A bitmap records which of [nbits] blocks are free: bit [i] set means block [i]
    is free.  The state is the [struct bitmap]; the abstract view is the predicate
    [is_free b i]. *)

From S2P Require Import Prelude.
Open Scope Z_scope.

Module Bitmap.

Definition WORD_BITS : Z := 32.

Record bitmap := mk_bitmap { nbits : Z; nwords : Z; map : list Z }.

(** [ROUNDUP_DIV(a, n)] of libs/types.h on 32-bit operands. *)
Definition ROUNDUP_DIV (a n : Z) : Z := u32 (u32 (a + n) - 1) / n.

(** [1 << k] stored in a [WORD_TYPE]. *)
Definition mask_of (k : Z) : Z := u32 (Z.shiftl 1 k).

Definition set_word (b : bitmap) (ix : Z) (w : Z) : bitmap :=
  mk_bitmap (nbits b) (nwords b) (<[Z.to_nat ix := w]> (map b)).

(** [map[ix]]; a read past the array stops the machine. *)
Definition get_word (ix : Z) : M bitmap Z :=
  b <- get ;; deref (if ix <? 0 then None else map b !! Z.to_nat ix).

(** [for (; overbits < WORD_BITS; overbits ++) map[ix] ^= (1 << overbits)],
    [n] iterations being left. *)
Fixpoint clear_over (n : nat) (overbits w : Z) : Z :=
  match n with
  | O => w
  | S n => clear_over n (overbits + 1) (Z.lxor w (mask_of overbits))
  end.

(** The two booleans are the outcomes of the two [kmalloc] calls. *)
Definition bitmap_create (kmalloc1 kmalloc2 : bool) (nbits : Z) : outcome (option bitmap) :=
  if negb (negb (nbits =? 0) && (nbits <? u32 (nbits + WORD_BITS))) then Panic
  else if negb kmalloc1 then Ret None
  else
    let nwords := ROUNDUP_DIV nbits WORD_BITS in
    if negb kmalloc2 then Ret None
    else
      let map := replicate (Z.to_nat nwords) (Z.ones 32) in
      if negb (nbits =? u32 (nwords * WORD_BITS)) then
        let ix := u32 (nwords - 1) in
        let overbits := u32 (nbits - u32 (ix * WORD_BITS)) in
        if negb (nbits / WORD_BITS =? ix) then Panic
        else if negb ((0 <? overbits) && (overbits <? WORD_BITS)) then Panic
        else
          match map !! Z.to_nat ix with
          | None => Panic
          | Some w =>
              Ret (Some (mk_bitmap nbits nwords
                (<[Z.to_nat ix := clear_over (Z.to_nat (WORD_BITS - overbits)) overbits w]> map)))
          end
      else Ret (Some (mk_bitmap nbits nwords map)).

(** The inner loop of [bitmap_alloc]: the first offset whose bit is set. *)
Fixpoint scan_word (n : nat) (offset w : Z) : option Z :=
  match n with
  | O => None
  | S n => if negb (Z.land w (mask_of offset) =? 0) then Some offset
           else scan_word n (offset + 1) w
  end.

(** The outer loop, from word [ix], [n] iterations being left.  Returns the code
    and what is stored through [index_store]. *)
Fixpoint alloc_loop (n : nat) (ix : Z) : M bitmap (Z * option Z) :=
  match n with
  | O => ret (- E_NO_MEM, None)
  | S n =>
      w <- get_word ix ;;
      if negb (w =? 0) then
        match scan_word (Z.to_nat WORD_BITS) 0 w with
        | Some offset =>
            modify (fun b => set_word b ix (Z.lxor w (mask_of offset))) ;;
            ret (0, Some (u32 (ix * WORD_BITS + offset)))
        | None => panic
        end
      else alloc_loop n (ix + 1)
  end.

Definition bitmap_alloc : M bitmap (Z * option Z) :=
  b <- get ;; alloc_loop (Z.to_nat (nwords b)) 0.

(** Returns the word's index in [map] and the mask. *)
Definition bitmap_translate (index : Z) : M bitmap (Z * Z) :=
  b <- get ;;
  assert (index <? nbits b) ;;
  ret (index / WORD_BITS, mask_of (index mod WORD_BITS)).

Definition bitmap_test (index : Z) : M bitmap bool :=
  '(ix, mask) <- bitmap_translate index ;;
  w <- get_word ix ;;
  ret (negb (Z.land w mask =? 0)).

Definition bitmap_free (index : Z) : M bitmap unit :=
  '(ix, mask) <- bitmap_translate index ;;
  w <- get_word ix ;;
  assert (Z.land w mask =? 0) ;;
  modify (fun b => set_word b ix (Z.lor w mask)).

(** [bitmap_getdata]: the words and [*len_store]. *)
Definition bitmap_getdata (b : bitmap) : list Z * Z := (map b, u32 (4 * nwords b)).

(** ** Abstract view *)

Definition bit (b : bitmap) (i : Z) : bool :=
  match map b !! Z.to_nat (i / WORD_BITS) with
  | Some w => Z.testbit w (i mod WORD_BITS)
  | None => false
  end.

Definition is_free (b : bitmap) (i : Z) : Prop := 0 <= i /\ bit b i = true.

Record wf (b : bitmap) : Prop := {
  wf_nbits : 0 < nbits b < 2 ^ 32 - 32;
  wf_nwords : nwords b = (nbits b + 31) / 32;
  wf_length : Z.of_nat (length (map b)) = nwords b;
  wf_words : Forall is_u32 (map b);
  wf_over : forall i, is_free b i -> i < nbits b
}.

(** ** Bits of words *)

Lemma mask_of_pow k : 0 <= k < 32 -> mask_of k = 2 ^ k.
Proof.
  intros. unfold mask_of. rewrite Z.shiftl_1_l. apply u32_small. split; [lia|].
  apply Z.pow_lt_mono_r; lia.
Qed.

Lemma land_mask w k : 0 <= k < 32 -> (Z.land w (mask_of k) =? 0) = negb (Z.testbit w k).
Proof.
  intros Hk. rewrite mask_of_pow by lia.
  destruct (Z.testbit w k) eqn:E; cbn; case_bool; try done; exfalso.
  - assert (Z.testbit (Z.land w (2 ^ k)) k = false) as H by (rewrite e; apply Z.bits_0).
    rewrite Z.land_spec, E, Z.pow2_bits_true in H by lia. done.
  - apply n. apply Z.bits_inj'. intros j Hj. rewrite Z.land_spec, Z.bits_0.
    rewrite Z.pow2_bits_eqb by lia. case_bool; subst; [by rewrite E|by rewrite andb_false_r].
Qed.

Lemma lxor_mask w k j : 0 <= k < 32 -> Z.testbit (Z.lxor w (mask_of k)) j = xorb (Z.testbit w j) (k =? j).
Proof. intros. by rewrite mask_of_pow, Z.lxor_spec, Z.pow2_bits_eqb by lia. Qed.

Lemma u32_high_bits w j : is_u32 w -> 32 <= j -> Z.testbit w j = false.
Proof.
  unfold is_u32. intros Hw Hj. rewrite <- (Z.mod_small w (2 ^ 32)) by lia.
  by apply Z.mod_pow2_bits_high.
Qed.

Lemma u32_of_bits w : 0 <= w -> (forall j, 32 <= j -> Z.testbit w j = false) -> is_u32 w.
Proof.
  intros H0 H. split; [done|].
  assert (w = w mod 2 ^ 32) as ->; [|apply Z.mod_pos_bound; lia].
  apply Z.bits_inj'. intros j Hj. destruct (Z.lt_ge_cases j 32).
  - by rewrite Z.mod_pow2_bits_low.
  - by rewrite Z.mod_pow2_bits_high, H by lia.
Qed.

Lemma lxor_mask_u32 w k : 0 <= k < 32 -> is_u32 w -> is_u32 (Z.lxor w (mask_of k)).
Proof.
  intros Hk Hw. apply u32_of_bits.
  - apply Z.lxor_nonneg. rewrite mask_of_pow by lia. unfold is_u32 in Hw. lia.
  - intros j Hj. rewrite lxor_mask, u32_high_bits by (done || lia). case_bool; [lia|done].
Qed.

(** ** The loops *)

Lemma scan_word_spec w n o :
  0 <= o -> o + Z.of_nat n <= 32 ->
  match scan_word n o w with
  | Some k => o <= k < o + Z.of_nat n /\ Z.testbit w k = true /\
              forall j, o <= j < k -> Z.testbit w j = false
  | None => forall j, o <= j < o + Z.of_nat n -> Z.testbit w j = false
  end.
Proof.
  revert o. induction n as [|n IH]; intros o Ho Hn; cbn [scan_word]; [lia|].
  rewrite land_mask by lia. destruct (Z.testbit w o) eqn:E; cbn.
  - split_and!; [lia|lia|done|]. lia.
  - specialize (IH (o + 1) ltac:(lia) ltac:(lia)).
    assert (forall j, j = o \/ j <> o) as D by lia.
    destruct (scan_word n (o + 1) w) as [k|].
    + destruct IH as (? & ? & IH). split_and!; [lia|lia|done|].
      intros j Hj. destruct (D j) as [->|]; [done|]. apply IH. lia.
    + intros j Hj. destruct (D j) as [->|]; [done|]. apply IH. lia.
Qed.

Lemma clear_over_spec n o w j :
  0 <= o -> o + Z.of_nat n <= 32 ->
  Z.testbit (clear_over n o w) j =
  xorb (Z.testbit w j) ((o <=? j) && (j <? o + Z.of_nat n)).
Proof.
  revert o w. induction n as [|n IH]; intros o w Ho Hn; cbn [clear_over].
  - replace ((o <=? j) && (j <? o + Z.of_nat 0)) with false; [by rewrite xorb_false_r|].
    symmetry. apply andb_false_iff. repeat case_bool; auto; lia.
  - rewrite IH, lxor_mask, xorb_assoc by lia. f_equal.
    repeat case_bool; cbn; auto; lia.
Qed.

Lemma nonzero_word_has_bit w :
  is_u32 w -> w <> 0 -> exists j, 0 <= j < 32 /\ Z.testbit w j = true.
Proof.
  intros Hw Hnz. pose proof (scan_word_spec w 32 0 ltac:(lia) ltac:(lia)) as H.
  destruct (scan_word 32 0 w) as [k|]; [exists k; split; [lia|tauto]|].
  exfalso. apply Hnz. apply Z.bits_inj'. intros j Hj. rewrite Z.bits_0.
  destruct (Z.lt_ge_cases j 32); [apply H; lia|by apply u32_high_bits].
Qed.

(** ** Flipping one bit: what [bitmap_alloc] and [bitmap_free] do to the words *)

Definition flip (b : bitmap) (i : Z) : bitmap :=
  mk_bitmap (nbits b) (nwords b)
    (alter (fun w => Z.lxor w (mask_of (i mod WORD_BITS))) (Z.to_nat (i / WORD_BITS)) (map b)).

Lemma div_mod_inj i j : 0 <= i -> 0 <= j -> i / 32 = j / 32 -> i mod 32 = j mod 32 -> i = j.
Proof. dlia. Qed.

Lemma bit_flip b i j :
  0 <= i -> 0 <= j -> (Z.to_nat (i / 32) < length (map b))%nat ->
  bit (flip b i) j = xorb (bit b j) (i =? j).
Proof.
  intros Hi Hj Hlen. unfold bit, flip, WORD_BITS. cbn [map].
  pose proof (Z.mod_pos_bound i 32 ltac:(lia)).
  destruct (decide (i / 32 = j / 32)) as [E|E].
  - rewrite E, list_lookup_alter_eq.
    apply lookup_lt_is_Some_2 in Hlen as [w Hw]. rewrite E in Hw. rewrite Hw. cbn.
    rewrite lxor_mask by lia. f_equal. repeat case_bool; subst; try done.
    exfalso. apply n. by apply div_mod_inj.
  - rewrite list_lookup_alter_ne.
    2:{ intros E'. apply E. apply Z2Nat.inj in E'; [done| |]; apply Z.div_pos; lia. }
    case_bool; [subst; done|]. by rewrite xorb_false_r.
Qed.

Lemma bit_in_range b i : wf b -> 0 <= i < nbits b -> (Z.to_nat (i / 32) < length (map b))%nat.
Proof.
  intros Hwf Hi. pose proof (wf_length b Hwf). pose proof (wf_nwords b Hwf).
  dlia.
Qed.

Lemma flip_wf b i : wf b -> 0 <= i < nbits b -> wf (flip b i).
Proof.
  intros Hwf Hi. pose proof (bit_in_range b i Hwf Hi). destruct Hwf as [W1 W2 W3 W4 W5].
  constructor; cbn [flip nbits nwords map]; [done|done|by rewrite length_alter| |].
  - apply Forall_alter; [done|]. intros w Hw _.
    apply lxor_mask_u32; [apply Z.mod_pos_bound; unfold WORD_BITS; lia|].
    eapply Forall_lookup_1; eauto.
  - intros j [Hj Hb]. rewrite bit_flip in Hb by lia.
    destruct (Z.eqb_spec i j); [lia|]. rewrite xorb_false_r in Hb. by apply W5.
Qed.

Lemma flip_flip b i : wf b -> flip (flip b i) i = b.
Proof.
  intros _. destruct b as [n m l]. unfold flip. cbn [nbits nwords map]. f_equal.
  apply list_eq. intros k. destruct (decide (Z.to_nat (i / WORD_BITS) = k)) as [->|].
  - rewrite !list_lookup_alter_eq. destruct (l !! k) as [w|]; [|done]. cbn.
    by rewrite Z.lxor_assoc, Z.lxor_nilpotent, Z.lxor_0_r.
  - by rewrite !list_lookup_alter_ne.
Qed.

Lemma get_word_ok b ix w :
  0 <= ix -> map b !! Z.to_nat ix = Some w -> get_word ix b = Ret (w, b).
Proof. intros Hix Hw. unfold get_word. mrun. case_bool; [lia|]. by rewrite Hw. Qed.

Lemma set_word_flip b i w :
  map b !! Z.to_nat (i / 32) = Some w ->
  set_word b (i / 32) (Z.lxor w (mask_of (i mod 32))) = flip b i.
Proof.
  intros Hw. unfold set_word, flip, WORD_BITS. f_equal.
  apply list_eq. intros k. destruct (decide (Z.to_nat (i / 32) = k)) as [<-|].
  - rewrite list_lookup_alter_eq, list_lookup_insert_eq, Hw; [done|]. by eapply lookup_lt_Some.
  - by rewrite list_lookup_alter_ne, list_lookup_insert_ne.
Qed.

Lemma bitmap_alloc_loop_spec b n ix :
  wf b -> 0 <= ix -> ix + Z.of_nat n = nwords b ->
  (forall i, is_free b i -> ix <= i / 32) ->
  (exists i, alloc_loop n ix b = Ret ((0, Some i), flip b i) /\
     is_free b i /\ forall j, is_free b j -> i <= j) \/
  (alloc_loop n ix b = Ret ((- E_NO_MEM, None), b) /\ forall j, ~ is_free b j).
Proof.
  intros Hwf. pose proof (wf_length b Hwf) as Hlen. pose proof (wf_nwords b Hwf) as Hnw.
  pose proof (wf_nbits b Hwf) as Hnb. revert ix.
  induction n as [|n IH]; intros ix Hix Hn Hlow; cbn [alloc_loop].
  { right. split; [done|]. intros j Hj. pose proof (Hlow j Hj). pose proof (wf_over b Hwf j Hj).
    destruct Hj. dlia. }
  assert (Z.to_nat ix < length (map b))%nat as [w Hw]%lookup_lt_is_Some_2 by lia.
  mstep get_word_ok; [|lia|exact Hw].
  assert (is_u32 w) as Hu by (eapply Forall_lookup_1; [apply (wf_words b Hwf)|exact Hw]).
  assert (forall j, 0 <= j -> j / 32 = ix -> bit b j = Z.testbit w (j mod 32)) as Hbit.
  { intros j _ <-. unfold bit, WORD_BITS. by rewrite Hw. }
  destruct (Z.eqb_spec w 0) as [->|Hnz]; cbn [negb].
  - apply IH; [lia|lia|]. intros i Hi. pose proof (Hlow i Hi).
    destruct (decide (i / 32 = ix)); [|lia].
    destruct Hi as [Hi0 Hi]. rewrite Hbit, Z.bits_0 in Hi by lia. done.
  - pose proof (scan_word_spec w 32 0 ltac:(lia) ltac:(lia)) as Hs.
    change (Z.to_nat WORD_BITS) with 32%nat.
    destruct (scan_word 32 0 w) as [o|].
    2:{ destruct (nonzero_word_has_bit w Hu Hnz) as (j & Hj & Hj').
        rewrite Hs in Hj' by lia. done. }
    destruct Hs as (Ho & Hob & Hmin). left. exists (ix * 32 + o).
    assert ((ix * 32 + o) / 32 = ix /\ (ix * 32 + o) mod 32 = o) as [Hd Hm] by dlia.
    assert (is_free b (ix * 32 + o)) as Hfree.
    { split; [lia|]. rewrite Hbit, Hm by lia. done. }
    pose proof (wf_over b Hwf _ Hfree) as Hover. split_and!; [|done|].
    + unfold modify, ret, bind, WORD_BITS. rewrite u32_small by (unfold is_u32; lia).
      do 2 f_equal. rewrite <- (set_word_flip b (ix * 32 + o) w) by (by rewrite Hd).
      by rewrite Hd, Hm.
    + intros j Hj. pose proof (Hlow j Hj).
      destruct (decide (j / 32 = ix)) as [E|E]; [|dlia].
      destruct Hj as [Hj0 Hj]. rewrite (Hbit j Hj0 E) in Hj.
      destruct (Z.lt_ge_cases (j mod 32) o) as [Hlt|Hge]; [|dlia].
      rewrite Hmin in Hj by dlia. done.
Qed.

(** [bitmap_alloc] hands out the lowest free block: the index is below
    [nbits], it was free and every lower block was in use, afterwards exactly that
    block has become used and the bitmap is well formed; when no block is free it
    returns [-E_NO_MEM] and changes nothing. *)
Theorem bitmap_alloc_spec b :
  wf b ->
  (exists i b', bitmap_alloc b = Ret ((0, Some i), b') /\ wf b' /\
     0 <= i < nbits b /\ is_free b i /\ (forall j, is_free b j -> i <= j) /\
     (forall j, 0 <= j -> bit b' j = bit b j && negb (i =? j))) \/
  (bitmap_alloc b = Ret ((- E_NO_MEM, None), b) /\ forall j, ~ is_free b j).
Proof.
  intros Hwf. unfold bitmap_alloc. mrun.
  pose proof (wf_nbits b Hwf). pose proof (wf_nwords b Hwf).
  destruct (bitmap_alloc_loop_spec b (Z.to_nat (nwords b)) 0 Hwf) as [(i & -> & Hf & Hmin)|H'].
  - lia.
  - rewrite Z2Nat.id; dlia.
  - intros i [Hi _]. dlia.
  - left. exists i, (flip b i). pose proof (wf_over b Hwf i Hf). destruct Hf as [Hi Hb].
    split_and!; try done; [apply flip_wf; [done|lia]|].
    intros j Hj. rewrite bit_flip by (auto using bit_in_range || lia).
    case_bool; subst; [by rewrite Hb|]. by rewrite xorb_false_r, andb_true_r.
  - by right.
Qed.

Lemma bitmap_translate_ok b i :
  i < nbits b -> bitmap_translate i b = Ret ((i / 32, mask_of (i mod 32)), b).
Proof. intros. unfold bitmap_translate. mrun. case_bool; [done|lia]. Qed.

Lemma lor_lxor_mask w k :
  0 <= k < 32 -> Z.testbit w k = false -> Z.lor w (mask_of k) = Z.lxor w (mask_of k).
Proof.
  intros Hk Hb. symmetry. rewrite mask_of_pow by lia. apply Z.lxor_lor.
  apply Z.bits_inj'. intros j Hj. rewrite Z.land_spec, Z.bits_0, Z.pow2_bits_eqb by lia.
  case_bool; subst; [by rewrite Hb|by rewrite andb_false_r].
Qed.

Lemma bitmap_free_ok b i :
  wf b -> 0 <= i < nbits b ->
  bitmap_free i b = if bit b i then Panic else Ret (tt, flip b i).
Proof.
  intros Hwf Hi. pose proof (bit_in_range b i Hwf Hi) as Hr.
  apply lookup_lt_is_Some_2 in Hr as [w Hw].
  unfold bitmap_free. mstep bitmap_translate_ok; [|lia].
  mstep get_word_ok; [|apply Z.div_pos; lia|exact Hw].
  unfold bit, WORD_BITS. rewrite Hw, land_mask by (apply Z.mod_pos_bound; lia).
  destruct (Z.testbit w (i mod 32)) eqn:E; [done|]. cbn [negb].
  rewrite assert_true by done. unfold modify. do 2 f_equal.
  rewrite lor_lxor_mask by (done || apply Z.mod_pos_bound; lia).
  by apply set_word_flip.
Qed.

Lemma bitmap_test_ok b i : wf b -> 0 <= i < nbits b -> bitmap_test i b = Ret (bit b i, b).
Proof.
  intros Hwf Hi. pose proof (bit_in_range b i Hwf Hi) as Hr.
  apply lookup_lt_is_Some_2 in Hr as [w Hw].
  unfold bitmap_test. mstep bitmap_translate_ok; [|lia].
  mstep get_word_ok; [|apply Z.div_pos; lia|exact Hw].
  unfold bit, WORD_BITS, ret. rewrite Hw, land_mask by (apply Z.mod_pos_bound; lia).
  by rewrite negb_involutive.
Qed.

(** [bitmap_free] is the exact inverse of allocation, and nothing else: on a
    block in use it makes that block (and only it) free, so that [bitmap_test]
    says so; on a block already free, or an index past the end, it stops the
    kernel; and freeing what [bitmap_alloc] returned restores the bitmap. *)
Theorem bitmap_free_spec b i :
  wf b -> 0 <= i ->
  (nbits b <= i -> bitmap_free i b = Panic) /\
  (i < nbits b -> bit b i = true -> bitmap_free i b = Panic) /\
  (i < nbits b -> bit b i = false ->
     exists b', bitmap_free i b = Ret (tt, b') /\ wf b' /\
       (forall j, 0 <= j -> bit b' j = bit b j || (i =? j)) /\
       bitmap_test i b' = Ret (true, b')) /\
  (forall b', bitmap_alloc b = Ret ((0, Some i), b') -> bitmap_free i b' = Ret (tt, b)).
Proof.
  intros Hwf Hi. split_and!.
  - intros Hb. unfold bitmap_free, bitmap_translate. mrun. case_bool; [lia|done].
  - intros Hlt Hb. rewrite bitmap_free_ok by (done || lia). by rewrite Hb.
  - intros Hlt Hb. exists (flip b i).
    assert (forall j, 0 <= j -> bit (flip b i) j = bit b j || (i =? j)) as Hbits.
    { intros j Hj. rewrite bit_flip by (auto using bit_in_range || lia).
      case_bool; subst; [by rewrite Hb|]. by rewrite xorb_false_r, orb_false_r. }
    pose proof (flip_wf b i Hwf ltac:(lia)) as Hwf'. split_and!; [|done|done|].
    + rewrite bitmap_free_ok by (done || lia). by rewrite Hb.
    + rewrite bitmap_test_ok by (done || cbn; lia).
      by rewrite Hbits, Z.eqb_refl, orb_true_r by lia.
  - intros b'. unfold bitmap_alloc. mrun. intros Ha.
    pose proof (wf_nbits b Hwf). pose proof (wf_nwords b Hwf).
    destruct (bitmap_alloc_loop_spec b (Z.to_nat (nwords b)) 0 Hwf) as [(k & Hk & Hf & _)|[H' _]];
      [lia|rewrite Z2Nat.id; dlia|intros k [? _]; dlia| |congruence].
    assert (k = i /\ flip b k = b') as [-> <-] by (split; congruence).
    pose proof (wf_over b Hwf i Hf). destruct Hf as [_ Hf].
    rewrite bitmap_free_ok by (cbn; lia || (apply flip_wf; [done|lia])).
    rewrite bit_flip, Hf, Z.eqb_refl by (auto using bit_in_range || lia). cbn.
    by rewrite flip_flip.
Qed.

Lemma ones_bit j : 0 <= j < 32 -> Z.testbit (Z.ones 32) j = true.
Proof. intros. apply Z.ones_spec_low. lia. Qed.

Lemma is_u32_ones : is_u32 (Z.ones 32).
Proof. by unfold is_u32. Qed.

(** The last word once the bits past [nbits] are cleared. *)
Lemma clear_over_last o :
  0 < o < 32 ->
  let w := clear_over (Z.to_nat (32 - o)) o (Z.ones 32) in
  is_u32 w /\ forall j, 0 <= j < 32 -> Z.testbit w j = (j <? o).
Proof.
  intros Ho w.
  assert (forall j, Z.testbit w j = xorb (Z.testbit (Z.ones 32) j) ((o <=? j) && (j <? 32))) as Hw.
  { intros j. unfold w. rewrite clear_over_spec by lia. do 3 f_equal. lia. }
  split.
  - apply u32_of_bits.
    + apply Z.bits_iff_nonneg_ex. exists 32. intros j Hj.
      rewrite Hw, Z.ones_spec_high by lia. repeat case_bool; done || lia.
    + intros j Hj. rewrite Hw, Z.ones_spec_high by lia. repeat case_bool; done || lia.
  - intros j Hj. rewrite Hw, ones_bit by lia. repeat case_bool; done || lia.
Qed.

Lemma bit_replicate n m k i :
  0 <= i -> i / 32 < Z.of_nat k -> bit (mk_bitmap n m (replicate k (Z.ones 32))) i = true.
Proof.
  intros Hi Hk. unfold bit, WORD_BITS. cbn [map].
  rewrite lookup_replicate_2 by dlia. apply ones_bit. dlia.
Qed.

(** Both shapes the map takes: [k] full words, the last one possibly cut at [o]. *)
Lemma create_wf n k (l : list Z) :
  0 < n < 2 ^ 32 - 32 -> k = (n + 31) / 32 -> Z.of_nat (length l) = k -> Forall is_u32 l ->
  (forall i, 0 <= i < k * 32 -> bit (mk_bitmap n k l) i = (i <? n)) ->
  wf (mk_bitmap n k l) /\ (forall i, 0 <= i < n -> is_free (mk_bitmap n k l) i).
Proof.
  intros Hn Hk Hl Hw Hb. split.
  - constructor; cbn [nbits nwords map]; try done.
    intros i [Hi Hbit]. destruct (Z.lt_ge_cases i (k * 32)) as [Hlt|Hge].
    + rewrite Hb in Hbit by lia. by apply Z.ltb_lt.
    + unfold bit, WORD_BITS in Hbit. cbn [map] in Hbit.
      rewrite lookup_ge_None_2 in Hbit by dlia. done.
  - intros i Hi. split; [lia|]. rewrite Hb by dlia. apply Z.ltb_lt. lia.
Qed.

(** [bitmap_create] on a size that does not overflow when rounded up returns
    a well-formed bitmap in which exactly the blocks [0 .. nbits-1] are free (the
    bits past the end of the last word are in use), or [NULL] when an allocation
    fails; sizes it rejects stop the kernel. *)
Theorem bitmap_create_spec n :
  is_u32 n ->
  (0 < n < 2 ^ 32 - 32 ->
     (exists b, bitmap_create true true n = Ret (Some b) /\ wf b /\ nbits b = n /\
        forall i, is_free b i <-> 0 <= i < n) /\
     bitmap_create false true n = Ret None /\ bitmap_create true false n = Ret None) /\
  (n = 0 \/ 2 ^ 32 - 32 <= n -> forall k1 k2, bitmap_create k1 k2 n = Panic).
Proof.
  intros Hu. unfold is_u32 in Hu. split.
  2:{ intros Hbad k1 k2. unfold bitmap_create, WORD_BITS.
      destruct (Z.eqb_spec n 0); [done|]. destruct (Z.ltb_spec n (u32 (n + 32))) as [Hlt|]; [|done].
      exfalso. unfold u32 in Hlt. destruct Hbad; [lia|].
      rewrite <- (Z.mod_add _ (-1)), Z.mod_small in Hlt by lia. lia. }
  intros Hn. unfold bitmap_create, ROUNDUP_DIV, WORD_BITS.
  rewrite (u32_small (n + 32)), (u32_small (n + 32 - 1)) by (unfold is_u32; lia).
  replace (n + 32 - 1) with (n + 31) by lia.
  rewrite (proj2 (Z.eqb_neq n 0)), (proj2 (Z.ltb_lt n (n + 32))) by lia. cbn [andb negb].
  split; [|done]. set (k := (n + 31) / 32).
  assert (0 < k /\ k * 32 < 2 ^ 32 /\ n <= k * 32 /\ (k - 1) * 32 < n) as (Hk & Hk32 & Hnk & Hkn)
    by (unfold k; dlia).
  rewrite (u32_small (k * 32)) by (unfold is_u32; lia).
  enough (exists l, (if negb (n =? k * 32) then _ else _) = Ret (Some (mk_bitmap n k l)) /\
    Z.of_nat (length l) = k /\ Forall is_u32 l /\
    forall i, 0 <= i < k * 32 -> bit (mk_bitmap n k l) i = (i <? n)) as (l & -> & Hl & Hw & Hb).
  { exists (mk_bitmap n k l). destruct (create_wf n k l) as [Hwf Hfree]; try done.
    split_and!; try done. intros i. split; [|apply Hfree].
    intros Hi. pose proof (wf_over _ Hwf i Hi) as Hlt. destruct Hi. cbn in Hlt. lia. }
  destruct (Z.eqb_spec n (k * 32)) as [E|E]; cbn [negb].
  - exists (replicate (Z.to_nat k) (Z.ones 32)). split_and!; [done|..].
    + rewrite length_replicate. lia.
    + apply Forall_replicate, is_u32_ones.
    + intros i Hi. rewrite bit_replicate by dlia. symmetry. apply Z.ltb_lt. lia.
  - rewrite (u32_small (k - 1)), (u32_small ((k - 1) * 32)), (u32_small (n - (k - 1) * 32))
      by (unfold is_u32; lia).
    rewrite (proj2 (Z.eqb_eq (n / 32) (k - 1))) by dlia. cbn [negb].
    rewrite (proj2 (Z.ltb_lt 0 (n - (k - 1) * 32))), (proj2 (Z.ltb_lt (n - (k - 1) * 32) 32)) by lia.
    cbn [negb andb]. rewrite lookup_replicate_2 by lia.
    destruct (clear_over_last (n - (k - 1) * 32)) as [Hu' Hbits]; [lia|].
    eexists. split_and!; [reflexivity|..].
    + rewrite length_insert, length_replicate. lia.
    + apply Forall_insert; [apply Forall_replicate, is_u32_ones|exact Hu'].
    + intros i Hi. unfold bit, WORD_BITS. cbn [map].
      destruct (decide (i / 32 = k - 1)) as [Ei|Ei].
      * rewrite Ei, list_lookup_insert_eq by (rewrite length_replicate; lia).
        rewrite Hbits by dlia. case_bool; case_bool; try done; dlia.
      * rewrite list_lookup_insert_ne, lookup_replicate_2, ones_bit by dlia.
        symmetry. apply Z.ltb_lt. dlia.
Qed.

(** ** Witnesses on a 40-block bitmap with blocks 0 and 1 in use *)
Definition bitmap_ex : bitmap := mk_bitmap 40 2 [Z.ones 32 - 3; 255].

Lemma bitmap_ex_wf : wf bitmap_ex.
Proof.
  constructor; [done|done|done|repeat constructor; done|].
  intros i [Hi Hb]. destruct (Z.lt_ge_cases i 40) as [|Hge]; [done|exfalso].
  unfold bit, WORD_BITS in Hb. cbn [map bitmap_ex] in Hb.
  destruct (decide (i / 32 = 1)) as [E|E].
  - rewrite E in Hb. change (Z.to_nat 1) with 1%nat in Hb. cbn [lookup list_lookup] in Hb.
    change 255 with (Z.ones 8) in Hb. rewrite Z.ones_spec_high in Hb by dlia. done.
  - rewrite lookup_ge_None_2 in Hb; [done|]. cbn. dlia.
Qed.

Lemma bitmap_create_spec_witness :
  exists b, bitmap_create true true 40 = Ret (Some b) /\ wf b.
Proof.
  destruct (bitmap_create_spec 40) as [H _]; [unfold is_u32; lia|].
  destruct H as [(b & H1 & H2 & _) _]; [lia|]. exists b. split; [exact H1|exact H2].
Defined.

Lemma bitmap_alloc_spec_witness :
  exists b', bitmap_alloc bitmap_ex = Ret ((0, Some 2), b') /\ wf b'.
Proof.
  destruct (bitmap_alloc_spec bitmap_ex bitmap_ex_wf) as [(i & b' & H1 & H2 & _)|[H _]].
  - exists b'. assert (i = 2) as -> by (vm_compute in H1; congruence).
    split; [exact H1|exact H2].
  - vm_compute in H. discriminate H.
Defined.

Lemma bitmap_free_spec_witness :
  exists b', bitmap_free 1 bitmap_ex = Ret (tt, b') /\ bitmap_test 1 b' = Ret (true, b').
Proof.
  destruct (bitmap_free_spec bitmap_ex 1 bitmap_ex_wf) as (_ & _ & H & _); [lia|].
  destruct H as (b' & H1 & _ & _ & H2); [cbn; lia|reflexivity|].
  exists b'. split; [exact H1|exact H2].
Defined.

End Bitmap.
