(* ===== verification/Buddy.v ===== *)
(** * The buddy page allocator (src/code/kern/mm/buddy_pmm.c)

    A [struct Page *] is the index of its descriptor in [pages]; a free list is
    the list of the pages on it, head first (a list of libs/list.h, see
    [DList]).  [list_add] puts a page at the front, [list_del] takes it out of
    whichever free list it is on. *)

From S2P Require Import Prelude.
Open Scope Z_scope.

Module Buddy.

(** ** State *)

(** The fields of [struct Page] (kern/mm/memlayout.h) the allocator uses. *)
Record page := mk_page { ref : Z; flags : Z; property : Z; zone_num : Z }.

Definition PG_reserved : Z := 0.
Definition PG_property : Z := 1.

Definition PageReserved (pg : page) : bool := Z.testbit (flags pg) PG_reserved.
Definition PageProperty (pg : page) : bool := Z.testbit (flags pg) PG_property.

Definition with_flags (f : Z) (pg : page) : page := mk_page (ref pg) f (property pg) (zone_num pg).
Definition with_property (o : Z) (pg : page) : page := mk_page (ref pg) (flags pg) o (zone_num pg).

Record free_area_t := mk_area { free_list : list Z; nr_free : Z }.

Definition MAX_ORDER : Z := 10.
Definition MAX_ZONE_NUM : Z := 10.

(** The allocator's globals: the page descriptors and their number, the free
    areas by order, the zones' [mem_base] and [buddy_init_memmap]'s [zone_num]. *)
Record state := mk_state {
  pages : gmap Z page;
  npage : Z;
  free_area : gmap Z free_area_t;
  zones : gmap Z Z;
  next_zone : Z
}.

Definition with_pages (f : gmap Z page -> gmap Z page) (s : state) : state :=
  mk_state (f (pages s)) (npage s) (free_area s) (zones s) (next_zone s).
Definition with_areas (f : gmap Z free_area_t -> gmap Z free_area_t) (s : state) : state :=
  mk_state (pages s) (npage s) (f (free_area s)) (zones s) (next_zone s).

(** ** Accessors *)

Definition get_page (p : Z) : M state page := s <- get ;; deref (pages s !! p).

Definition update_page (f : page -> page) (p : Z) : M state unit :=
  _ <- get_page p ;; modify (with_pages (alter f p)).

Definition SetPageProperty (p : Z) : M state unit :=
  update_page (fun pg => with_flags (Z.setbit (flags pg) PG_property) pg) p.

Definition ClearPageProperty (p : Z) : M state unit :=
  update_page (fun pg => with_flags (Z.clearbit (flags pg) PG_property) pg) p.

Definition set_property (o p : Z) : M state unit := update_page (with_property o) p.

Definition get_area (o : Z) : M state free_area_t := s <- get ;; deref (free_area s !! o).

(** [nr_free(o) ++], [nr_free(o) --] on an [unsigned int]. *)
Definition nr_free_add (d o : Z) : M state unit :=
  _ <- get_area o ;;
  modify (with_areas (alter (fun fa => mk_area (free_list fa) (u32 (nr_free fa + d))) o)).

(** [list_add(&free_list(o), &(p->page_link))]. *)
Definition free_list_add (o p : Z) : M state unit :=
  _ <- get_area o ;;
  modify (with_areas (alter (fun fa => mk_area (p :: free_list fa) (nr_free fa)) o)).

(** [list_del(&(p->page_link))]. *)
Definition unlink (p : Z) (fa : free_area_t) : free_area_t :=
  mk_area (base.filter (fun q => q <> p) (free_list fa)) (nr_free fa).
Definition list_del (p : Z) : M state unit := modify (with_areas (fmap (unlink p))).

(** ** Initialisation *)

Definition buddy_init : M state unit :=
  modify (with_areas (fun _ => array (MAX_ORDER + 1) (fun _ => mk_area [] 0))).

(** [for (; p != base + n; p ++)] over the descriptors, [n] iterations left. *)
Fixpoint memmap_pages (n : nat) (p z : Z) : M state unit :=
  match n with
  | O => ret tt
  | S n =>
      pg <- get_page p ;;
      assert (PageReserved pg) ;;
      update_page (fun _ => mk_page 0 0 0 z) p ;;
      memmap_pages n (p + 1) z
  end.

(** The inner [while (n >= order_size)]: returns what is left of [p] and [n]. *)
Fixpoint memmap_order (fuel : nat) (order p n : Z) : M state (Z * Z) :=
  if negb (2 ^ order <=? n) then ret (p, n)
  else
    match fuel with
    | O => out_of_fuel
    | S fuel =>
        set_property order p ;;
        SetPageProperty p ;;
        free_list_add order p ;;
        nr_free_add 1 order ;;
        memmap_order fuel order (p + 2 ^ order) (n - 2 ^ order)
    end.

(** The outer [while (n != 0)], from order [order] down. *)
Fixpoint memmap_blocks (order : nat) (p n : Z) : M state unit :=
  if n =? 0 then ret tt
  else
    '(p, n) <- memmap_order (Z.to_nat n) (Z.of_nat order) p n ;;
    match order with
    | O => if n =? 0 then ret tt else out_of_fuel
    | S order => memmap_blocks order p n
    end.

Definition buddy_init_memmap (base n : Z) : M state unit :=
  s <- get ;;
  let zone_num := next_zone s in
  assert ((0 <? n) && (zone_num <? MAX_ZONE_NUM)) ;;
  memmap_pages (Z.to_nat n) base zone_num ;;
  modify (fun s => mk_state (pages s) (npage s) (free_area s)
                     (<[zone_num := base]> (zones s)) (zone_num + 1)) ;;
  memmap_blocks (Z.to_nat MAX_ORDER) base n.

(** ** Allocation *)

(** [for (order = 0, order_size = 1; order <= MAX_ORDER; ...)], [k] orders left;
    falling out of the loop is the [panic]. *)
Fixpoint getorder_loop (k : nat) (order order_size n : Z) : M state Z :=
  match k with
  | O => panic
  | S k => if n <=? order_size then ret order
           else getorder_loop k (order + 1) (order_size * 2) n
  end.

Definition getorder (n : Z) : M state Z :=
  getorder_loop (Z.to_nat (MAX_ORDER + 1)) 0 1 n.

(** [while (cur_order > order)]: give the upper halves back, [k] splits left. *)
Fixpoint split_loop (k : nat) (cur_order page : Z) : M state unit :=
  match k with
  | O => ret tt
  | S k =>
      let cur_order := cur_order - 1 in
      let buddy := page + 2 ^ cur_order in
      set_property cur_order buddy ;;
      SetPageProperty buddy ;;
      nr_free_add 1 cur_order ;;
      free_list_add cur_order buddy ;;
      split_loop k cur_order page
  end.

(** [for (cur_order = order; cur_order <= MAX_ORDER; cur_order ++)], [k] orders
    left; [None] is [NULL]. *)
Fixpoint alloc_loop (k : nat) (order cur_order : Z) : M state (option Z) :=
  match k with
  | O => ret None
  | S k =>
      fa <- get_area cur_order ;;
      match free_list fa with
      | [] => alloc_loop k order (cur_order + 1)
      | page :: _ =>
          nr_free_add (-1) cur_order ;;
          list_del page ;;
          split_loop (Z.to_nat (cur_order - order)) cur_order page ;;
          ClearPageProperty page ;;
          ret (Some page)
      end
  end.

Definition buddy_alloc_pages_sub (order : Z) : M state (option Z) :=
  assert (order <=? MAX_ORDER) ;;
  alloc_loop (Z.to_nat (MAX_ORDER + 1 - order)) order order.

(** ** Release *)

Definition page_is_buddy (s : state) (page order zone : Z) : option bool :=
  if page <? npage s then
    pg ← pages s !! page;
    Some (if zone_num pg =? zone
          then negb (PageReserved pg) && PageProperty pg && (property pg =? order)
          else false)
  else Some false.

Definition page2idx (page : Z) : M state Z :=
  pg <- get_page page ;;
  s <- get ;;
  mem_base <- deref (zones s !! zone_num pg) ;;
  ret (u32 (page - mem_base)).

Definition idx2page (zone idx : Z) : M state Z :=
  s <- get ;; mem_base <- deref (zones s !! zone) ;; ret (mem_base + idx).

(** [for (; p != base + (1 << order); p ++)], [n] iterations left. *)
Fixpoint free_reset (n : nat) (p : Z) : M state unit :=
  match n with
  | O => ret tt
  | S n =>
      pg <- get_page p ;;
      assert (negb (PageReserved pg) && negb (PageProperty pg)) ;;
      update_page (fun pg => mk_page 0 0 (property pg) (zone_num pg)) p ;;
      free_reset n (p + 1)
  end.

(** [while (order < MAX_ORDER)], [k] orders left: merge with free buddies; the
    resulting [page_idx] and [order]. *)
Fixpoint merge_loop (k : nat) (zone page_idx order : Z) : M state (Z * Z) :=
  match k with
  | O => ret (page_idx, order)
  | S k =>
      let buddy_idx := Z.lxor page_idx (2 ^ order) in
      buddy <- idx2page zone buddy_idx ;;
      s <- get ;;
      b <- deref (page_is_buddy s buddy order zone) ;;
      if negb b then ret (page_idx, order)
      else
        nr_free_add (-1) order ;;
        list_del buddy ;;
        ClearPageProperty buddy ;;
        merge_loop k zone (Z.land page_idx buddy_idx) (order + 1)
  end.

Definition buddy_free_pages_sub (base order : Z) : M state unit :=
  page_idx <- page2idx base ;;
  assert (Z.land page_idx (2 ^ order - 1) =? 0) ;;
  free_reset (Z.to_nat (2 ^ order)) base ;;
  pg <- get_page base ;;
  let zone := zone_num pg in
  '(page_idx, order) <- merge_loop (Z.to_nat (MAX_ORDER - order)) zone page_idx order ;;
  page <- idx2page zone page_idx ;;
  set_property order page ;;
  SetPageProperty page ;;
  nr_free_add 1 order ;;
  free_list_add order page.

(** The first loop of [buddy_free_pages]: release the blocks the alignment of
    [base] asks for, smallest first. *)
Fixpoint free_up (fuel : nat) (base n order : Z) : M state (Z * Z * Z) :=
  if negb (2 ^ order <=? n) then ret (base, n, order)
  else
    match fuel with
    | O => out_of_fuel
    | S fuel =>
        assert (order <=? MAX_ORDER) ;;
        idx <- page2idx base ;;
        if negb (Z.land idx (2 ^ order) =? 0) then
          buddy_free_pages_sub base order ;;
          free_up fuel (base + 2 ^ order) (n - 2 ^ order) (order + 1)
        else free_up fuel base n (order + 1)
    end.

(** [while (n < order_size) { order --; order_size >>= 1; }]. *)
Fixpoint shrink_order (fuel : nat) (n order : Z) : Z :=
  match fuel with
  | O => order
  | S fuel => if n <? 2 ^ order then shrink_order fuel n (order - 1) else order
  end.

(** The second loop: release the rest, largest blocks first. *)
Fixpoint free_down (fuel : nat) (base n order : Z) : M state unit :=
  if n =? 0 then ret tt
  else
    match fuel with
    | O => out_of_fuel
    | S fuel =>
        let order := shrink_order (Z.to_nat order) n order in
        buddy_free_pages_sub base order ;;
        free_down fuel (base + 2 ^ order) (n - 2 ^ order) order
    end.

Definition buddy_free_pages (base n : Z) : M state unit :=
  assert (0 <? n) ;;
  if n =? 1 then buddy_free_pages_sub base 0
  else
    '(base, n, order) <- free_up 32 base n 0 ;;
    free_down (Z.to_nat n) base n order.

Definition buddy_alloc_pages (n : Z) : M state (option Z) :=
  assert (0 <? n) ;;
  order <- getorder n ;;
  page <- buddy_alloc_pages_sub order ;;
  match page with
  | Some page =>
      if negb (n =? 2 ^ order) then
        buddy_free_pages (page + n) (2 ^ order - n) ;; ret (Some page)
      else ret (Some page)
  | None => ret None
  end.

(** ** The count of free pages *)

Definition nr_free_at (s : state) (o : Z) : Z :=
  match free_area s !! o with Some fa => nr_free fa | None => 0 end.

(** [for (; order <= MAX_ORDER; order ++) ret += nr_free(order) * (1 << order)]. *)
Definition buddy_nr_free_pages (s : state) : Z :=
  foldl (fun acc o => u32 (acc + nr_free_at s o * 2 ^ o)) 0 (seqZ 0 (MAX_ORDER + 1)).

End Buddy.
