(* ===== verification/BuddyInv.v ===== *)
(** * The buddy allocator: invariant and correctness

    The abstract state is the set of free pages, [is_free].  The invariant [inv]
    says that the free lists describe it as disjoint, aligned blocks of one zone
    each, that the descriptors' [PG_property] flag marks exactly the heads of
    those blocks, that [nr_free] counts them and that no two free buddies are left
    unmerged. *)

From S2P Require Import Prelude Buddy.
Import Buddy.
Open Scope Z_scope.

Module BuddyInv.

#[local] Arguments PageReserved : simpl never.
#[local] Arguments PageProperty : simpl never.
#[local] Arguments Z.pow : simpl never.

(** ** Powers of two and buddies *)

Lemma pow2_pos o : 0 <= o -> 0 < 2 ^ o.
Proof. intros. lia. Qed.

Lemma pow2_succ o : 0 <= o -> 2 ^ (o + 1) = 2 * 2 ^ o.
Proof. intros. rewrite Z.pow_add_r by lia. lia. Qed.

Lemma land_pow2_zero x o : 0 <= o -> (Z.land x (2 ^ o) =? 0) = negb (Z.testbit x o).
Proof.
  intros Ho. destruct (Z.testbit x o) eqn:E; cbn; case_bool; try done; exfalso.
  - assert (Z.testbit (Z.land x (2 ^ o)) o = false) as H by (rewrite e; apply Z.bits_0).
    rewrite Z.land_spec, E, Z.pow2_bits_true in H by lia. done.
  - apply n. apply Z.bits_inj'. intros j Hj. rewrite Z.land_spec, Z.bits_0.
    rewrite Z.pow2_bits_eqb by lia. case_bool; subst; [by rewrite E|by rewrite andb_false_r].
Qed.

Lemma land_low_mask x o : 0 <= o -> Z.land x (2 ^ o - 1) = x mod 2 ^ o.
Proof. intros. rewrite Z.sub_1_r, <- Z.ones_equiv. by apply Z.land_ones. Qed.

Lemma bit_clear_xor x o :
  0 <= o -> Z.testbit x o = false ->
  Z.lxor x (2 ^ o) = x + 2 ^ o /\ Z.land x (Z.lxor x (2 ^ o)) = x.
Proof.
  intros Ho Hb. split.
  - symmetry. apply Z.add_nocarry_lxor. apply Z.eqb_eq. by rewrite land_pow2_zero, Hb.
  - apply Z.bits_inj'. intros j Hj. rewrite Z.land_spec, Z.lxor_spec, Z.pow2_bits_eqb by lia.
    case_bool; subst; [by rewrite Hb|by destruct (Z.testbit x j)].
Qed.

(** The buddy of an aligned block: its upper neighbour, or its lower one, and
    the lower of the two is aligned one order up. *)
Lemma buddy_cases x o :
  0 <= o -> 0 <= x -> x mod 2 ^ o = 0 ->
  (Z.lxor x (2 ^ o) = x + 2 ^ o /\ Z.land x (Z.lxor x (2 ^ o)) = x /\ x mod 2 ^ (o + 1) = 0) \/
  (Z.lxor x (2 ^ o) = x - 2 ^ o /\ Z.land x (Z.lxor x (2 ^ o)) = x - 2 ^ o /\
     (x - 2 ^ o) mod 2 ^ (o + 1) = 0 /\ 0 <= x - 2 ^ o).
Proof.
  intros Ho Hx Hm. pose proof (pow2_pos o Ho).
  apply Z.mod_divide in Hm as [k ->]; [|lia].
  destruct (Z.Even_or_Odd k) as [[m ->]|[m ->]].
  - left. assert (Z.testbit (2 * m * 2 ^ o) o = false) as Hb.
    { apply Z.testbit_false; [done|]. rewrite Z.div_mul by lia. dlia. }
    destruct (bit_clear_xor _ o Ho Hb). split_and!; try done.
    rewrite pow2_succ by lia. replace (2 * m * 2 ^ o) with (m * (2 * 2 ^ o)) by ring.
    apply Z.mod_mul. lia.
  - right. replace ((2 * m + 1) * 2 ^ o) with (2 * m * 2 ^ o + 2 ^ o) by ring.
    assert (Z.testbit (2 * m * 2 ^ o) o = false) as Hb.
    { apply Z.testbit_false; [done|]. rewrite Z.div_mul by lia. dlia. }
    destruct (bit_clear_xor _ o Ho Hb) as [H1 H2]. rewrite <- H1.
    rewrite Z.lxor_assoc, Z.lxor_nilpotent, Z.lxor_0_r.
    replace (Z.lxor (2 * m * 2 ^ o) (2 ^ o) - 2 ^ o) with (2 * m * 2 ^ o) by lia.
    assert (0 <= m) by (destruct (Z.lt_ge_cases m 0); [nia|done]).
    split_and!; [done|by rewrite Z.land_comm| |nia].
    rewrite pow2_succ by lia. replace (2 * m * 2 ^ o) with (m * (2 * 2 ^ o)) by ring.
    apply Z.mod_mul. lia.
Qed.

Lemma buddy_sym b p p' y : p' = b + Z.lxor (p - b) y -> p = b + Z.lxor (p' - b) y.
Proof.
  intros ->. replace (b + Z.lxor (p - b) y - b) with (Z.lxor (p - b) y) by lia.
  rewrite Z.lxor_assoc, Z.lxor_nilpotent, Z.lxor_0_r. lia.
Qed.

Lemma buddy_neq b p o : 0 <= o -> p <> b + Z.lxor (p - b) (2 ^ o).
Proof.
  intros Ho E. assert (Z.lxor (p - b) (2 ^ o) = p - b) as E' by lia.
  apply (f_equal (fun x => Z.testbit x o)) in E'.
  rewrite Z.lxor_spec, Z.pow2_bits_true in E' by lia. by destruct (Z.testbit (p - b) o).
Qed.

Lemma mod_pow2_le x a b : 0 <= a <= b -> x mod 2 ^ b = 0 -> x mod 2 ^ a = 0.
Proof.
  intros Hab Hm. apply Z.mod_divide in Hm as [k ->]; [|lia].
  replace b with (a + (b - a)) by lia. rewrite Z.pow_add_r by lia.
  replace (k * (2 ^ a * 2 ^ (b - a))) with (k * 2 ^ (b - a) * 2 ^ a) by ring.
  apply Z.mod_mul. lia.
Qed.

(** ** Blocks and the invariant *)

Definition covers (o p q : Z) : Prop := p <= q < p + 2 ^ o.

Definition in_list (s : state) (o p : Z) : Prop :=
  exists fa, free_area s !! o = Some fa /\ p ∈ free_list fa.

Definition is_free (s : state) (q : Z) : Prop :=
  exists o p, in_list s o p /\ covers o p q.

(** The page [q] exists, belongs to zone [z] and is not reserved. *)
Definition usable (s : state) (z q : Z) : Prop :=
  exists pg, pages s !! q = Some pg /\ zone_num pg = z /\ PageReserved pg = false.

(** A range that can be a block: aligned in its zone, every page usable. *)
Definition fits (s : state) (o p : Z) : Prop :=
  0 <= o <= MAX_ORDER /\
  exists z b, zones s !! z = Some b /\ b <= p /\ (p - b) mod 2 ^ o = 0 /\
    forall q, covers o p q -> usable s z q.

(** [inv e s]: [e] is a page whose flag is still set although it has left the
    free lists ([None] between operations). *)
Record inv (e : option Z) (s : state) : Prop := {
  i_npage : 0 <= npage s < 2 ^ 32;
  i_array : forall q, is_Some (pages s !! q) <-> 0 <= q < npage s;
  i_zones : forall z b, zones s !! z = Some b -> 0 <= b /\ 0 <= z < next_zone s;
  i_areas : forall o, 0 <= o <= MAX_ORDER <-> is_Some (free_area s !! o);
  i_count : forall o fa, free_area s !! o = Some fa ->
      NoDup (free_list fa) /\ nr_free fa = Z.of_nat (length (free_list fa));
  i_block : forall o p, in_list s o p -> fits s o p;
  i_head : forall o p, in_list s o p ->
      exists pg, pages s !! p = Some pg /\ PageProperty pg = true /\ property pg = o;
  i_flag : forall p pg, pages s !! p = Some pg -> PageReserved pg = false ->
      PageProperty pg = true -> e <> Some p -> in_list s (property pg) p;
  i_disj : forall o p o' p' q, in_list s o p -> in_list s o' p' ->
      covers o p q -> covers o' p' q -> o = o' /\ p = p';
  i_merged : forall o p p' z b, in_list s o p -> in_list s o p' -> o < MAX_ORDER ->
      zones s !! z = Some b -> usable s z p -> usable s z p' ->
      p' <> b + Z.lxor (p - b) (2 ^ o)
}.

Lemma i_pages e s : inv e s -> forall q pg, pages s !! q = Some pg -> 0 <= q < npage s.
Proof. intros I q pg H. apply (i_array _ _ I). by eexists. Qed.

Lemma covers_self o p : 0 <= o -> covers o p p.
Proof. intros. unfold covers. lia. Qed.

Lemma fits_covers_self s o p : fits s o p -> covers o p p.
Proof. intros [? _]. apply covers_self. lia. Qed.

Lemma usable_fun s z z' q : usable s z q -> usable s z' q -> z = z'.
Proof. intros (pg & H1 & H2 & _) (pg' & H1' & H2' & _). congruence. Qed.

Section Inv.
Context {e : option Z} {s : state} (I : inv e s).

Lemma in_list_order o p : in_list s o p -> 0 <= o <= MAX_ORDER.
Proof using I. intros H. by destruct (i_block _ _ I _ _ H). Qed.

Lemma in_list_free o p : in_list s o p -> is_free s p.
Proof using I.
  intros H. exists o, p. split; [done|]. apply covers_self. apply in_list_order in H. lia.
Qed.

Lemma in_list_range o p : in_list s o p -> 0 <= p < npage s.
Proof using I.
  intros (pg & H & _)%(i_head _ _ I). by apply (i_pages _ _ I) in H.
Qed.

Lemma in_list_unique o o' p : in_list s o p -> in_list s o' p -> o = o'.
Proof using I.
  intros H H'. apply (i_disj _ _ I o p o' p p); try done;
    apply covers_self; [apply in_list_order in H|apply in_list_order in H']; lia.
Qed.

Lemma is_free_usable q : is_free s q -> exists z, usable s z q.
Proof using I.
  intros (o & p & (_ & z & _ & _ & _ & _ & Hq)%(i_block _ _ I) & Hc). eauto.
Qed.

End Inv.

(** ** State updates *)

(** Put the block [(o, p)] on the free lists. *)
Definition push_page (o : Z) (pg : page) : page :=
  mk_page (ref pg) (Z.setbit (flags pg) PG_property) o (zone_num pg).
Definition push_area (p : Z) (fa : free_area_t) : free_area_t :=
  mk_area (p :: free_list fa) (u32 (nr_free fa + 1)).
Definition push (o p : Z) (s : state) : state :=
  with_areas (alter (push_area p) o) (with_pages (alter (push_page o) p) s).

(** Take the block [(o, p)] off the free lists. *)
Definition pop_area (p : Z) (fa : free_area_t) : free_area_t :=
  mk_area (base.filter (fun q => q <> p) (free_list fa)) (u32 (nr_free fa - 1)).
Definition pop (o p : Z) (s : state) : state := with_areas (alter (pop_area p) o) s.

(** Change one descriptor. *)
Definition touch (f : page -> page) (p : Z) (s : state) : state := with_pages (alter f p) s.

Lemma get_page_ok s p pg : pages s !! p = Some pg -> get_page p s = Ret (pg, s).
Proof. intros H. unfold get_page. mrun. by rewrite H. Qed.

Lemma update_page_ok s p f :
  is_Some (pages s !! p) -> update_page f p s = Ret (tt, touch f p s).
Proof. intros [pg H]. unfold update_page. mstep get_page_ok; [|exact H]. done. Qed.

Lemma get_area_ok s o fa : free_area s !! o = Some fa -> get_area o s = Ret (fa, s).
Proof. intros H. unfold get_area. mrun. by rewrite H. Qed.

Lemma nr_free_add_ok s d o :
  is_Some (free_area s !! o) ->
  nr_free_add d o s =
  Ret (tt, with_areas (alter (fun fa => mk_area (free_list fa) (u32 (nr_free fa + d))) o) s).
Proof. intros [fa H]. unfold nr_free_add. mstep get_area_ok; [|exact H]. done. Qed.

Lemma free_list_add_ok s o p :
  is_Some (free_area s !! o) ->
  free_list_add o p s =
  Ret (tt, with_areas (alter (fun fa => mk_area (p :: free_list fa) (nr_free fa)) o) s).
Proof. intros [fa H]. unfold free_list_add. mstep get_area_ok; [|exact H]. done. Qed.

(** Both orders in which the code pushes a block. *)
Lemma push_ok {A} s o p (k : M state A) :
  is_Some (pages s !! p) -> is_Some (free_area s !! o) ->
  (set_property o p ;; SetPageProperty p ;; nr_free_add 1 o ;; free_list_add o p ;; k) s
  = k (push o p s) /\
  (set_property o p ;; SetPageProperty p ;; free_list_add o p ;; nr_free_add 1 o ;; k) s
  = k (push o p s).
Proof.
  intros Hp Ho. unfold set_property, SetPageProperty.
  split; (mstep update_page_ok; [|done]);
    (mstep update_page_ok; [|by apply lookup_alter_is_Some]).
  - mstep nr_free_add_ok; [|done].
    mstep free_list_add_ok; [|by apply lookup_alter_is_Some].
    f_equal. unfold push, touch, with_areas, with_pages. cbn. by rewrite !alter_alter_eq.
  - mstep free_list_add_ok; [|done].
    mstep nr_free_add_ok; [|by apply lookup_alter_is_Some].
    f_equal. unfold push, touch, with_areas, with_pages. cbn. by rewrite !alter_alter_eq.
Qed.

Lemma push_last_ok s o p :
  is_Some (pages s !! p) -> is_Some (free_area s !! o) ->
  (set_property o p ;; SetPageProperty p ;; nr_free_add 1 o ;; free_list_add o p) s
  = Ret (tt, push o p s).
Proof.
  intros Hp Ho. unfold set_property, SetPageProperty.
  mstep update_page_ok; [|done]. mstep update_page_ok; [|by apply lookup_alter_is_Some].
  mstep nr_free_add_ok; [|done].
  rewrite free_list_add_ok by (by apply lookup_alter_is_Some).
  do 2 f_equal. unfold push, touch, with_areas, with_pages. cbn. by rewrite !alter_alter_eq.
Qed.

Lemma filter_id_notin (l : list Z) p : p ∉ l -> base.filter (fun q => q <> p) l = l.
Proof.
  induction l as [|x l IH]; intros H; [done|].
  rewrite filter_cons_True, IH by set_solver. done.
Qed.

Lemma pop_ok {A} e s o p (k : M state A) :
  inv e s -> in_list s o p ->
  (nr_free_add (-1) o ;; list_del p ;; k) s = k (pop o p s).
Proof.
  intros I Hin. pose proof Hin as (fa & Hfa & Hp).
  mstep nr_free_add_ok; [|by rewrite Hfa]. unfold list_del, modify, bind. f_equal.
  unfold pop, with_areas. cbn. f_equal. apply map_eq. intros o'.
  rewrite lookup_fmap, !lookup_alter. case_decide as Ho; subst.
  - rewrite Hfa. cbn. unfold unlink, pop_area. cbn. done.
  - destruct (free_area s !! o') as [fa'|] eqn:E; [|done]. cbn. f_equal.
    destruct fa' as [l n]. unfold unlink. cbn. f_equal. apply filter_id_notin.
    intros Hp'. apply Ho. eapply (in_list_unique I); [exact Hin|].
    exists (mk_area l n). done.
Qed.

(** ** What the updates do to the abstract state *)

Lemma in_list_push s o p o' p' :
  is_Some (free_area s !! o) ->
  in_list (push o p s) o' p' <-> in_list s o' p' \/ (o' = o /\ p' = p).
Proof.
  intros [fa Hfa]. unfold in_list, push. cbn. rewrite lookup_alter. case_decide; subst.
  - rewrite Hfa. cbn. split.
    + intros (fa' & [= <-] & Hp). cbn in Hp. apply elem_of_cons in Hp as [->|]; eauto.
    + intros [(fa' & [= <-] & Hp)|[_ ->]]; eexists; (split; [done|]); cbn; set_solver.
  - naive_solver.
Qed.

Lemma in_list_pop e s o p o' p' :
  inv e s -> in_list s o p ->
  in_list (pop o p s) o' p' <-> in_list s o' p' /\ p' <> p.
Proof.
  intros I Hin. pose proof Hin as (fa & Hfa & Hp).
  unfold in_list at 1, pop. cbn. rewrite lookup_alter. case_decide as Hd; subst.
  - rewrite Hfa. cbn. split.
    + intros (fa' & [= <-] & Hp'). cbn in Hp'. apply list_elem_of_filter in Hp' as [? ?].
      split; [|done]. exists fa. done.
    + intros [(fa' & Hfa' & Hp') Hne]. eexists. split; [done|]. cbn.
      apply list_elem_of_filter. split; [done|]. congruence.
  - split.
    + intros Hl. split; [exact Hl|]. intros ->. by apply Hd, (in_list_unique I _ _ p).
    + intros [Hl _]. exact Hl.
Qed.

Lemma usable_touch f p s z q :
  (forall pg, pages s !! p = Some pg ->
     zone_num (f pg) = zone_num pg /\ PageReserved (f pg) = PageReserved pg) ->
  usable (touch f p s) z q <-> usable s z q.
Proof.
  intros Hf. unfold usable, touch. cbn. rewrite lookup_alter. case_decide; [subst|done].
  destruct (pages s !! q) as [pg|] eqn:E; cbn.
  - destruct (Hf pg eq_refl) as [Hz Hr].
    split; intros (pg' & [= <-] & H1 & H2); eexists; (split_and!; [done|congruence..]).
  - split; intros (? & ? & _); done.
Qed.

Lemma push_page_attrs o pg :
  zone_num (push_page o pg) = zone_num pg /\
  PageReserved (push_page o pg) = PageReserved pg /\
  PageProperty (push_page o pg) = true /\ property (push_page o pg) = o.
Proof.
  unfold PageReserved, PageProperty, push_page. cbn [flags property zone_num]. split_and!; try done.
  - apply Z.setbit_neq; unfold PG_property, PG_reserved; lia.
  - apply Z.setbit_eq. unfold PG_property. lia.
Qed.

Lemma usable_push o p s z q : usable (push o p s) z q <-> usable s z q.
Proof.
  apply (usable_touch (push_page o) p s z q). intros pg _.
  destruct (push_page_attrs o pg) as (? & ? & _). done.
Qed.

Lemma fits_mono s s' o p :
  zones s' = zones s -> (forall z q, usable s z q -> usable s' z q) -> fits s o p -> fits s' o p.
Proof.
  intros Hz Hu (Ho & z & b & Hb & Hle & Hm & Hq). split; [done|].
  exists z, b. rewrite Hz. split_and!; auto.
Qed.

Lemma nodup_bound (l : list Z) n : NoDup l -> (forall x, x ∈ l -> 0 <= x < n) -> Z.of_nat (length l) <= Z.max 0 n.
Proof.
  intros Hnd Hr. assert (length l <= length (seqZ 0 n))%nat as Hle.
  { apply submseteq_length, NoDup_submseteq; [done|].
    intros x Hx. apply elem_of_seqZ. pose proof (Hr x Hx). lia. }
  rewrite length_seqZ in Hle. lia.
Qed.

(** ** The updates preserve the invariant *)

Section Preserve.
Context {e : option Z} {s : state} (I : inv e s).

Lemma push_is_free o p q :
  is_Some (free_area s !! o) ->
  is_free (push o p s) q <-> is_free s q \/ covers o p q.
Proof using Type.
  intros Ha. unfold is_free. setoid_rewrite (in_list_push s o p _ _ Ha). naive_solver.
Qed.

Lemma push_inv o p :
  fits s o p -> (forall q, covers o p q -> ~ is_free s q) ->
  (o < MAX_ORDER -> forall z b, zones s !! z = Some b -> usable s z p ->
     usable s z (b + Z.lxor (p - b) (2 ^ o)) -> ~ in_list s o (b + Z.lxor (p - b) (2 ^ o))) ->
  inv e (push o p s).
Proof using I.
  intros Hfit Hfree Hbud. pose proof Hfit as (Ho & z0 & b0 & Hz0 & Hle0 & Hm0 & Hu0).
  assert (is_Some (free_area s !! o)) as Ha by (by apply (i_areas _ _ I)).
  pose proof (fits_covers_self _ _ _ Hfit) as Hself.
  assert (forall o' p', in_list (push o p s) o' p' -> fits s o' p') as Hfits.
  { intros o' p' [H|[-> ->]]%in_list_push; [by apply (i_block _ _ I)|done|done]. }
  assert (forall o' p', in_list (push o p s) o' p' -> exists pg,
     pages (push o p s) !! p' = Some pg /\ PageProperty pg = true /\ property pg = o') as Hhead.
  { intros o' p' Hin. unfold push. cbn. rewrite lookup_alter.
    apply in_list_push in Hin as [Hin|[-> ->]]; [| |done].
    - rewrite decide_False; [by apply (i_head _ _ I)|].
      intros <-. apply (Hfree p Hself). by apply (in_list_free I o').
    - rewrite decide_True by done. destruct (Hu0 p Hself) as (pg & -> & _). cbn.
      destruct (push_page_attrs o pg) as (_ & _ & ? & ?). eauto. }
  constructor.
  - apply (i_npage _ _ I).
  - intros q. unfold push. cbn. rewrite lookup_alter_is_Some. apply (i_array _ _ I).
  - apply (i_zones _ _ I).
  - intros o'. unfold push. cbn. rewrite lookup_alter_is_Some. apply (i_areas _ _ I).
  - intros o' fa'. unfold push. cbn. rewrite lookup_alter.
    case_decide; [subst|apply (i_count _ _ I)]. destruct Ha as [fa Hfa]. rewrite Hfa. cbn.
    intros [= <-]. cbn. destruct (i_count _ _ I _ _ Hfa) as [Hnd Hn].
    assert (NoDup (p :: free_list fa)) as Hnd'.
    { apply NoDup_cons. split; [|done]. intros Hp. apply (Hfree p Hself).
      apply (in_list_free I o'). by exists fa. }
    split; [done|]. pose proof (nodup_bound _ (npage s) Hnd') as Hb. cbn [length] in Hb.
    pose proof (i_npage _ _ I). rewrite u32_small; [lia|]. unfold is_u32.
    enough (Z.of_nat (S (length (free_list fa))) <= Z.max 0 (npage s)) by lia. apply Hb.
    intros x [->|Hx]%elem_of_cons.
    + destruct (Hu0 p Hself) as (pg & Hpg & _). by apply (i_pages _ _ I) in Hpg.
    + apply (in_list_range I o'). by exists fa.
  - intros o' p' Hin. apply (fits_mono s); [done| |by apply Hfits].
    intros z q. apply usable_push.
  - done.
  - intros p' pg. unfold push. cbn. rewrite lookup_alter. case_decide; [subst|].
    + destruct (pages s !! p') as [pg0|] eqn:E; [|done]. cbn. intros [= <-] _ _ _.
      apply in_list_push; [done|]. right. split; [|done]. by destruct (push_page_attrs o pg0).
    + intros Hpg Hr Hf He. apply in_list_push; [done|]. left. by apply (i_flag _ _ I).
  - intros o1 p1 o2 p2 q H1 H2 C1 C2.
    apply in_list_push in H1 as [H1|[-> ->]]; [| |done];
      apply in_list_push in H2 as [H2|[-> ->]]; try done.
    + by apply (i_disj _ _ I o1 p1 o2 p2 q).
    + exfalso. apply (Hfree q C2). by exists o1, p1.
    + exfalso. apply (Hfree q C1). by exists o2, p2.
  - intros o1 p1 p2 z b H1 H2 Hlt Hz U1 U2. rewrite usable_push in U1, U2. cbn in Hz.
    apply in_list_push in H1 as [H1|[-> ->]]; [| |done];
      apply in_list_push in H2 as [H2|[E ->]]; try done; try subst o1.
    + by apply (i_merged _ _ I o1 p1 p2 z b).
    + intros E. apply buddy_sym in E. subst p1. by apply (Hbud Hlt z b).
    + intros ->. by apply (Hbud Hlt z b).
    + apply buddy_neq. lia.
Qed.

Lemma pop_inv o p : e = None -> in_list s o p -> inv (Some p) (pop o p s).
Proof using I.
  intros -> Hin. pose proof Hin as (fa & Hfa & Hp).
  assert (forall o' p', in_list (pop o p s) o' p' -> in_list s o' p' /\ p' <> p) as Hsub.
  { intros o' p'. by apply (in_list_pop None). }
  constructor.
  - apply (i_npage _ _ I).
  - apply (i_array _ _ I).
  - apply (i_zones _ _ I).
  - intros o'. unfold pop. cbn. rewrite lookup_alter_is_Some. apply (i_areas _ _ I).
  - intros o' fa'. unfold pop. cbn. rewrite lookup_alter.
    case_decide; [subst|apply (i_count _ _ I)]. rewrite Hfa. cbn. intros [= <-]. cbn.
    destruct (i_count _ _ I _ _ Hfa) as [Hnd Hn]. split; [by apply NoDup_filter|].
    assert (free_list fa ≡ₚ p :: base.filter (fun q => q <> p) (free_list fa)) as Hperm.
    { apply NoDup_Permutation; [done|..].
      - apply NoDup_cons. split; [|by apply NoDup_filter].
        intros [? _]%list_elem_of_filter. done.
      - intros x. rewrite elem_of_cons, list_elem_of_filter.
        destruct (decide (x = p)); naive_solver. }
    apply Permutation_length in Hperm. cbn in Hperm.
    pose proof (nodup_bound _ (npage s) Hnd) as Hb. pose proof (i_npage _ _ I).
    rewrite u32_small; [lia|]. unfold is_u32.
    enough (Z.of_nat (length (free_list fa)) <= Z.max 0 (npage s)) by lia. apply Hb.
    intros x Hx. apply (in_list_range I o'). by exists fa.
  - intros o' p' [H _]%Hsub. by apply (i_block _ _ I).
  - intros o' p' [H _]%Hsub. by apply (i_head _ _ I).
  - intros p' pg Hpg Hr Hf He. apply (in_list_pop None); [done..|].
    split; [|congruence]. apply (i_flag _ _ I); try done.
  - intros o1 p1 o2 p2 q [H1 _]%Hsub [H2 _]%Hsub. by apply (i_disj _ _ I).
  - intros o1 p1 p2 z b [H1 _]%Hsub [H2 _]%Hsub. by apply (i_merged _ _ I).
Qed.

Lemma pop_is_free o p q :
  in_list s o p ->
  (is_free s q <-> is_free (pop o p s) q \/ covers o p q) /\
  (covers o p q -> ~ is_free (pop o p s) q).
Proof using I.
  intros Hin. split; [split|].
  - intros (o' & p' & H & C). destruct (decide (p' = p)) as [->|].
    + right. by rewrite (in_list_unique I o o' p Hin H).
    + left. exists o', p'. split; [|done]. by apply (in_list_pop e).
  - intros [(o' & p' & [H _]%(in_list_pop e) & C)|C]; [by exists o', p'|done|done|by exists o, p].
  - intros C (o' & p' & [H Hne]%(in_list_pop e) & C'); [|done..].
    by destruct (i_disj _ _ I o p o' p' q Hin H C C') as [_ ->].
Qed.

(** A descriptor that heads no free block may be changed, as long as it stays in
    its zone, unreserved if it was, and its flag is clear. *)
Lemma touch_inv f p :
  (e = None \/ e = Some p) -> (forall o, ~ in_list s o p) ->
  (forall pg, pages s !! p = Some pg -> zone_num (f pg) = zone_num pg /\
     PageReserved (f pg) = PageReserved pg /\ PageProperty (f pg) = false) ->
  inv None (touch f p s).
Proof using I.
  intros He Hnl Hf.
  assert (forall z q, usable (touch f p s) z q <-> usable s z q) as Hu.
  { intros z q. apply usable_touch. intros pg Hpg. by destruct (Hf pg Hpg) as (? & ? & _). }
  constructor.
  - apply (i_npage _ _ I).
  - intros q. unfold touch. cbn. rewrite lookup_alter_is_Some. apply (i_array _ _ I).
  - apply (i_zones _ _ I).
  - apply (i_areas _ _ I).
  - apply (i_count _ _ I).
  - intros o q Hq. apply (fits_mono s); [done| |by apply (i_block _ _ I)]. intros ??. apply Hu.
  - intros o q Hq. unfold touch. cbn. rewrite lookup_alter_ne; [by apply (i_head _ _ I)|].
    intros ->. by apply (Hnl o).
  - intros q pg. unfold touch. cbn. rewrite lookup_alter. case_decide; [subst|].
    + destruct (pages s !! q) as [pg'|] eqn:E; [|done]. cbn. intros [= <-] _ Hp.
      destruct (Hf pg' eq_refl) as (_ & _ & ?). congruence.
    + intros Hpg Hr Hp _. apply (i_flag _ _ I q pg Hpg Hr Hp). destruct He; congruence.
  - apply (i_disj _ _ I).
  - intros o p1 p2 z b H1 H2 Hlt Hz U1 U2. rewrite Hu in U1, U2.
    by apply (i_merged _ _ I o p1 p2 z b).
Qed.

End Preserve.

(** ** What no operation changes: the memory map *)

Record frame (s s' : state) : Prop := {
  f_npage : npage s' = npage s;
  f_zones : zones s' = zones s;
  f_next : next_zone s' = next_zone s;
  f_usable : forall z q, usable s' z q <-> usable s z q
}.

#[export] Instance frame_preorder : PreOrder frame.
Proof.
  split.
  - intros s. by constructor.
  - intros s1 s2 s3 [A1 A2 A3 A4] [B1 B2 B3 B4]. constructor; try congruence.
    intros z q. by rewrite B4, A4.
Qed.

Lemma frame_fits s s' o p : frame s s' -> fits s o p -> fits s' o p.
Proof. intros F. apply fits_mono; [by apply F|]. intros z q. by apply F. Qed.

Lemma frame_push o p s : frame s (push o p s).
Proof. constructor; try done. intros. apply usable_push. Qed.

Lemma frame_pop o p s : frame s (pop o p s).
Proof. by constructor. Qed.

Lemma frame_touch f p s :
  (forall pg, pages s !! p = Some pg ->
     zone_num (f pg) = zone_num pg /\ PageReserved (f pg) = PageReserved pg) ->
  frame s (touch f p s).
Proof. intros. constructor; try done. intros. by apply usable_touch. Qed.

(** The zone and base of a block are those of any of its pages. *)
Lemma fits_zone s o p z b :
  fits s o p -> zones s !! z = Some b -> usable s z p ->
  b <= p /\ (p - b) mod 2 ^ o = 0 /\ forall q, covers o p q -> usable s z q.
Proof.
  intros Hfit Hz Hu. pose proof (fits_covers_self _ _ _ Hfit) as Hself.
  destruct Hfit as (_ & z' & b' & Hz' & Hle & Hm & Hq).
  pose proof (usable_fun _ _ _ _ Hu (Hq p Hself)) as ->.
  assert (b = b') as -> by congruence. done.
Qed.

(** ** Splitting *)

Lemma split_fits s o p : 0 < o -> fits s o p -> fits s (o - 1) p /\ fits s (o - 1) (p + 2 ^ (o - 1)).
Proof.
  intros Ho (Hr & z & b & Hz & Hle & Hm & Hu).
  assert (2 ^ o = 2 * 2 ^ (o - 1)) as E by (rewrite <- pow2_succ by lia; f_equal; lia).
  assert ((p - b) mod 2 ^ (o - 1) = 0) as Hm' by (apply (mod_pow2_le _ _ o); [lia|done]).
  unfold covers in Hu. split; (split; [lia|]); exists z, b; (split_and!; [done|lia| |]).
  - done.
  - intros q Hq. apply Hu. unfold covers in Hq. lia.
  - replace (p + 2 ^ (o - 1) - b) with (p - b + 1 * 2 ^ (o - 1)) by lia.
    rewrite Z.mod_add by lia. done.
  - intros q Hq. apply Hu. unfold covers in Hq. lia.
Qed.

(** The lower half is the buddy of the upper half. *)
Lemma upper_half_buddy b p o :
  0 < o -> b <= p -> (p - b) mod 2 ^ o = 0 ->
  b + Z.lxor (p + 2 ^ (o - 1) - b) (2 ^ (o - 1)) = p.
Proof.
  intros Ho Hle Hm. symmetry. apply buddy_sym.
  assert (Z.testbit (p - b) (o - 1) = false) as Hbit.
  { apply Z.testbit_false; [lia|]. apply Z.mod_divide in Hm as [k ->]; [|lia].
    replace o with (o - 1 + 1) at 1 by lia. rewrite pow2_succ by lia.
    replace (k * (2 * 2 ^ (o - 1))) with (k * 2 * 2 ^ (o - 1)) by ring.
    rewrite Z.div_mul by lia. dlia. }
  destruct (bit_clear_xor (p - b) (o - 1)) as [-> _]; [lia|done|lia].
Qed.

Lemma split_step e s o p :
  inv e s -> 0 < o -> fits s o p -> (forall q, covers o p q -> ~ is_free s q) ->
  inv e (push (o - 1) (p + 2 ^ (o - 1)) s).
Proof.
  intros I Ho Hfit Hnf. destruct (split_fits s o p Ho Hfit) as [Hlo Hhi].
  assert (2 ^ o = 2 * 2 ^ (o - 1)) as E by (rewrite <- pow2_succ by lia; f_equal; lia).
  apply push_inv; [done|done| |].
  - intros q Hq. apply Hnf. unfold covers in *. lia.
  - intros _ z b Hz Hu _ Hin.
    destruct (fits_zone _ _ _ _ _ Hhi Hz Hu) as (_ & _ & _).
    pose proof Hfit as (Ho' & z' & b' & Hz' & Hle & Hm & Hu').
    assert (z = z') as -> by (eapply usable_fun; [done|]; apply Hu'; unfold covers; lia).
    assert (b = b') as -> by congruence.
    rewrite upper_half_buddy in Hin by done.
    apply (Hnf p); [apply covers_self; lia|]. by eapply (in_list_free I).
Qed.

Lemma split_loop_spec k s cur p :
  inv (Some p) s -> 0 <= cur - Z.of_nat k -> fits s cur p ->
  (forall q, covers cur p q -> ~ is_free s q) ->
  exists s', split_loop k cur p s = Ret (tt, s') /\ inv (Some p) s' /\ frame s s' /\
    fits s' (cur - Z.of_nat k) p /\
    forall q, is_free s' q <->
      is_free s q \/ (covers cur p q /\ ~ covers (cur - Z.of_nat k) p q).
Proof.
  revert s cur. induction k as [|k IH]; intros s cur I Hk Hfit Hnf; cbn [split_loop].
  { exists s. replace (cur - Z.of_nat 0) with cur by lia. split_and!; try done; tauto. }
  destruct (split_fits s cur p) as [Hlo Hhi]; [lia|done|].
  assert (2 ^ cur = 2 * 2 ^ (cur - 1)) as E by (rewrite <- pow2_succ by lia; f_equal; lia).
  assert (is_Some (free_area s !! (cur - 1))) as Ha by (apply (i_areas _ _ I); by destruct Hlo).
  assert (is_Some (pages s !! (p + 2 ^ (cur - 1)))) as Hpg.
  { pose proof (fits_covers_self _ _ _ Hhi). destruct Hhi as (_ & z & b & _ & _ & _ & Hu).
    destruct (Hu _ H) as (pg & -> & _). done. }
  rewrite (proj1 (push_ok s (cur - 1) (p + 2 ^ (cur - 1)) _ Hpg Ha)).
  set (s1 := push (cur - 1) (p + 2 ^ (cur - 1)) s).
  destruct (IH s1 (cur - 1)) as (s' & Hrun & I' & F' & Hfit' & Hfree').
  - apply split_step; try done. lia.
  - lia.
  - apply (frame_fits s); [apply frame_push|done].
  - intros q Hq Hf. apply push_is_free in Hf as [Hf|Hf]; [|unfold covers in *; lia|done].
    apply (Hnf q); [unfold covers in *; lia|done].
  - exists s'. replace (cur - Z.of_nat (S k)) with (cur - 1 - Z.of_nat k) by lia.
    split_and!; try done; [by transitivity s1; [apply frame_push|]|].
    assert (2 ^ (cur - 1 - Z.of_nat k) <= 2 ^ (cur - 1)) by (apply Z.pow_le_mono_r; lia).
    intros q. rewrite Hfree'. unfold s1. rewrite push_is_free by done. unfold covers.
    destruct (Z.lt_ge_cases q (p + 2 ^ (cur - 1))); intuition lia.
Qed.

(** ** Allocation of one block *)

Lemma clear_attrs pg :
  let pg' := with_flags (Z.clearbit (flags pg) PG_property) pg in
  zone_num pg' = zone_num pg /\ PageReserved pg' = PageReserved pg /\ PageProperty pg' = false.
Proof.
  unfold PageReserved, PageProperty, with_flags. cbn [flags zone_num]. split_and!; try done.
  - apply Z.clearbit_neq. unfold PG_property, PG_reserved. lia.
  - apply Z.clearbit_eq.
Qed.

Lemma clear_page_spec s p :
  inv (Some p) s -> ~ is_free s p -> is_Some (pages s !! p) ->
  exists s', ClearPageProperty p s = Ret (tt, s') /\ inv None s' /\ frame s s' /\
    (forall o q, in_list s' o q <-> in_list s o q).
Proof.
  intros I Hnf Hpg. eexists. split_and!; [by apply update_page_ok|..].
  - apply (touch_inv I); [by right| |].
    + intros o Hin. apply Hnf. by apply (in_list_free I o).
    + intros pg _. apply clear_attrs.
  - apply frame_touch. intros pg _. by destruct (clear_attrs pg) as (? & ? & _).
  - done.
Qed.

(** What a successful [buddy_alloc_pages_sub] does: the result is a block of the
    order asked for, cut out of the free pages. *)
Definition allocated (s s' : state) (order p : Z) : Prop :=
  inv None s' /\ frame s s' /\ fits s' order p /\
  (forall q, is_free s q <-> is_free s' q \/ covers order p q) /\
  (forall q, covers order p q -> ~ is_free s' q).

Lemma alloc_found s order cur p k :
  inv None s -> 0 <= order -> Z.of_nat k = cur - order -> in_list s cur p ->
  exists s', (nr_free_add (-1) cur ;; list_del p ;; split_loop k cur p ;;
              ClearPageProperty p ;; ret (Some p)) s = Ret (Some p, s') /\
             allocated s s' order p.
Proof.
  intros I Ho Hk Hin. rewrite (pop_ok None) by done.
  pose proof (i_block _ _ I _ _ Hin) as Hfit.
  pose proof (fun q => pop_is_free I cur p q Hin) as Hpop.
  destruct (split_loop_spec k (pop cur p s) cur p) as (s1 & Hrun & I1 & F1 & Hfit1 & Hfree1).
  - by apply (pop_inv I).
  - lia.
  - apply (frame_fits s); [apply frame_pop|done].
  - intros q Hq. by apply Hpop.
  - replace (cur - Z.of_nat k) with order in * by lia.
    assert (2 ^ order <= 2 ^ cur) as Hle by (apply Z.pow_le_mono_r; lia).
    assert (forall q, covers order p q -> covers cur p q) as Hcov by (unfold covers; lia).
    assert (forall q, covers order p q -> ~ is_free s1 q) as Hnf1.
    { intros q Hq Hf. apply Hfree1 in Hf as [Hf|[_ Hf]]; [|done].
      by apply (proj2 (Hpop q) (Hcov q Hq)). }
    pose proof (fits_covers_self _ _ _ Hfit1) as Hself.
    destruct (clear_page_spec s1 p) as (s2 & Hclr & I2 & F2 & Hl2).
    { done. } { by apply Hnf1. }
    { destruct Hfit1 as (_ & z & b & _ & _ & _ & Hu). destruct (Hu p Hself) as (pg & -> & _). done. }
    exists s2. split.
    { unfold bind at 1. rewrite Hrun. unfold bind at 1. by rewrite Hclr. }
    assert (forall q, is_free s2 q <-> is_free s1 q) as Hf2.
    { intros q. unfold is_free. by setoid_rewrite Hl2. }
    split_and!; [done| |by apply (frame_fits s1)| |intros q Hq; rewrite Hf2; by apply Hnf1].
    + transitivity s1; [|done]. transitivity (pop cur p s); [apply frame_pop|done].
    + intros q. rewrite Hf2, Hfree1, (proj1 (Hpop q)). pose proof (Hcov q).
      destruct (decide (p <= q < p + 2 ^ order)) as [D|D]; unfold covers in *; tauto.
Qed.

Lemma alloc_loop_spec k s order cur :
  inv None s -> 0 <= order <= cur -> cur + Z.of_nat k = MAX_ORDER + 1 ->
  (forall o p, order <= o < cur -> ~ in_list s o p) ->
  (exists p s', alloc_loop k order cur s = Ret (Some p, s') /\ allocated s s' order p) \/
  (alloc_loop k order cur s = Ret (None, s) /\ forall o p, order <= o -> ~ in_list s o p).
Proof.
  intros I. revert cur. induction k as [|k IH]; intros cur Ho Hk Hno; cbn [alloc_loop].
  { right. split; [done|]. intros o p Hle Hin. pose proof (in_list_order I o p Hin).
    apply (Hno o p); [lia|done]. }
  assert (is_Some (free_area s !! cur)) as [fa Hfa] by (apply (i_areas _ _ I); lia).
  mstep get_area_ok; [|exact Hfa].
  destruct (free_list fa) as [|p l] eqn:El.
  - apply IH; [lia|lia|]. intros o p Hr Hin. destruct (decide (o = cur)) as [->|].
    + destruct Hin as (fa' & Hfa' & Hp). assert (fa' = fa) as -> by congruence.
      rewrite El in Hp. by apply elem_of_nil in Hp.
    + apply (Hno o p); [lia|done].
  - left. destruct (alloc_found s order cur p (Z.to_nat (cur - order))) as (s' & Hrun & Hal).
    + done.
    + lia.
    + lia.
    + exists fa. split; [done|]. rewrite El. set_solver.
    + exists p, s'. done.
Qed.

Lemma alloc_sub_spec s order :
  inv None s -> 0 <= order <= MAX_ORDER ->
  (exists p s', buddy_alloc_pages_sub order s = Ret (Some p, s') /\ allocated s s' order p) \/
  (buddy_alloc_pages_sub order s = Ret (None, s) /\ forall o p, order <= o -> ~ in_list s o p).
Proof.
  intros I Ho. unfold buddy_alloc_pages_sub. rewrite assert_true by (apply Z.leb_le; lia).
  apply alloc_loop_spec; [done|lia|lia|]. intros; lia.
Qed.

(** ** Release of one block *)

(** A set of free pages grown by a range. *)
Definition released (s s' : state) (base n : Z) : Prop :=
  inv None s' /\ frame s s' /\
  forall q, is_free s' q <-> is_free s q \/ base <= q < base + n.

Lemma free_reset_spec n s p z :
  inv None s ->
  (forall q, p <= q < p + Z.of_nat n -> usable s z q /\ ~ is_free s q) ->
  exists s', free_reset n p s = Ret (tt, s') /\ inv None s' /\ frame s s' /\
    (forall o q, in_list s' o q <-> in_list s o q).
Proof.
  revert s p. induction n as [|n IH]; intros s p I Hq; cbn [free_reset].
  { exists s. by split_and!. }
  destruct (Hq p ltac:(lia)) as [(pg & Hpg & Hz & Hr) Hnf].
  assert (PageProperty pg = false) as Hp.
  { destruct (PageProperty pg) eqn:E; [|done]. exfalso. apply Hnf.
    apply (in_list_free I (property pg)). by apply (i_flag _ _ I). }
  mstep get_page_ok; [|exact Hpg]. rewrite Hr, Hp. rewrite assert_true by done.
  set (f := fun pg => mk_page 0 0 (property pg) (zone_num pg)).
  mstep update_page_ok; [|by rewrite Hpg].
  assert (frame s (touch f p s)) as F.
  { apply frame_touch. intros pg'. rewrite Hpg. intros [= <-]. done. }
  destruct (IH (touch f p s) (p + 1)) as (s' & Hrun & I' & F' & Hl).
  - apply (touch_inv I); [by left| |].
    + intros o Hin. apply Hnf. by apply (in_list_free I o).
    + intros pg'. rewrite Hpg. intros [= <-]. done.
  - intros q Hrange. rewrite (f_usable _ _ F). apply (Hq q). lia.
  - exists s'. split_and!; [done|done|by transitivity (touch f p s)|done].
Qed.

Lemma page_is_buddy_spec s p o z :
  inv None s ->
  match page_is_buddy s p o z with
  | Some true => in_list s o p /\ usable s z p
  | Some false => usable s z p -> ~ in_list s o p
  | None => p < 0
  end.
Proof.
  intros I. unfold page_is_buddy. case_bool.
  - destruct (pages s !! p) as [pg|] eqn:E; cbn.
    2:{ destruct (Z.lt_ge_cases p 0); [done|].
        assert (is_Some (pages s !! p)) as [? ?] by (apply (i_array _ _ I); lia). congruence. }
    case_bool; [|intros (pg' & ? & ? & _); congruence].
    destruct (PageReserved pg) eqn:Er; cbn.
    { intros (pg' & ? & _ & ?); congruence. }
    destruct (PageProperty pg) eqn:Ep; cbn.
    + case_bool.
      * split; [subst o; by apply (i_flag _ _ I)|]. by exists pg.
      * intros _ (pg' & ? & _ & ?)%(i_head _ _ I). congruence.
    + intros _ (pg' & ? & ? & _)%(i_head _ _ I). congruence.
  - intros _ (pg & Hpg & _)%(i_head _ _ I). apply (i_pages _ _ I) in Hpg. lia.
Qed.

(** A range of zone [z] that is held: usable and not free. *)
Definition held (s : state) (z p n : Z) : Prop :=
  forall q, p <= q < p + n -> usable s z q /\ ~ is_free s q.

(** Taking a free buddy off its list turns it into held pages. *)
Lemma take_buddy s z o p :
  inv None s -> in_list s o p -> usable s z p -> zones s !! z <> None ->
  exists s', (forall A (k : M state A),
      (nr_free_add (-1) o ;; list_del p ;; ClearPageProperty p ;; k) s = k s') /\
    inv None s' /\ frame s s' /\ held s' z p (2 ^ o) /\
    forall q, is_free s q <-> is_free s' q \/ covers o p q.
Proof.
  intros I Hin Hu Hz. pose proof (i_block _ _ I _ _ Hin) as Hfit.
  pose proof (fits_covers_self _ _ _ Hfit) as Hself.
  pose proof (fun q => pop_is_free I o p q Hin) as Hpop.
  destruct (zones s !! z) as [b|] eqn:Hb; [|done].
  destruct (fits_zone _ _ _ _ _ Hfit Hb Hu) as (_ & _ & Hall).
  destruct (clear_page_spec (pop o p s) p) as (s' & Hrun & I' & F' & Hl).
  - by apply (pop_inv I).
  - by apply Hpop.
  - destruct Hu as (pg & Hpg & _). by exists pg.
  - exists s'. split_and!; [|done| |..].
    + intros A k. rewrite (pop_ok None) by done. unfold bind. by rewrite Hrun.
    + transitivity (pop o p s); [apply frame_pop|done].
    + intros q Hq. split; [by apply F', Hall|].
      intros Hf. apply (proj2 (Hpop q) Hq). unfold is_free in *. by setoid_rewrite <- Hl.
    + intros q. rewrite (proj1 (Hpop q)). unfold is_free. by setoid_rewrite Hl.
Qed.

(** What the merging loop establishes: the block [(order', b + idx')] is held,
    the pages free or in the block are the same as before, and its buddy is not a
    free block. *)
Record merged (s s' : state) (z b idx order idx' order' : Z) : Prop := {
  m_inv : inv None s';
  m_frame : frame s s';
  m_order : order <= order' <= MAX_ORDER;
  m_idx : 0 <= idx' /\ idx' mod 2 ^ order' = 0;
  m_held : held s' z (b + idx') (2 ^ order');
  m_free : forall q, is_free s q \/ covers order (b + idx) q <->
                     is_free s' q \/ covers order' (b + idx') q;
  m_buddy : order' < MAX_ORDER -> usable s' z (b + Z.lxor idx' (2 ^ order')) ->
            ~ in_list s' order' (b + Z.lxor idx' (2 ^ order'))
}.

Lemma merge_loop_spec k s z b idx order :
  inv None s -> zones s !! z = Some b -> 0 <= order -> order + Z.of_nat k = MAX_ORDER ->
  0 <= idx -> idx mod 2 ^ order = 0 -> held s z (b + idx) (2 ^ order) ->
  exists s' idx' order',
    merge_loop k z idx order s = Ret ((idx', order'), s') /\ merged s s' z b idx order idx' order'.
Proof.
  revert s idx order. induction k as [|k IH]; intros s idx order I Hz Ho Hk Hi Hm Hh;
    cbn [merge_loop].
  { exists s, idx, order. split; [done|]. constructor; try done; lia. }
  set (y := Z.lxor idx (2 ^ order)).
  assert (idx2page z y s = Ret (b + y, s)) as Hidx by (unfold idx2page; mrun; by rewrite Hz).
  mstep Hidx. unfold get. rewrite (bind_step _ _ s s s eq_refl).
  pose proof (buddy_cases idx order Ho Hi Hm) as Hcases. fold y in Hcases.
  pose proof (pow2_pos order Ho) as Hpos. pose proof (pow2_succ order Ho) as Hsucc.
  destruct (i_zones _ _ I _ _ Hz) as [Hb0 _].
  pose proof (page_is_buddy_spec s (b + y) order z I) as Hbud.
  destruct (page_is_buddy s (b + y) order z) as [[|]|]; cbn [deref]; [..|lia];
    unfold ret; rewrite (bind_step _ _ s _ s eq_refl); cbn [negb].
  2:{ exists s, idx, order. split; [done|]. constructor; try done; lia. }
  destruct Hbud as [Hin Hu].
  destruct (take_buddy s z order (b + y)) as (s1 & Hrun & I1 & F1 & Hh1 & Hf1); try done.
  { by rewrite Hz. }
  rewrite Hrun.
  assert (forall q, covers (order + 1) (b + Z.land idx y) q <->
     covers order (b + idx) q \/ covers order (b + y) q) as Hcov.
  { intros q. unfold covers. rewrite Hsucc.
    destruct Hcases as [(-> & -> & _)|(-> & -> & _)]; lia. }
  destruct (IH s1 (Z.land idx y) (order + 1)) as (s' & idx' & order' & Hrun' & Hm').
  - done.
  - by rewrite (f_zones _ _ F1).
  - lia.
  - lia.
  - destruct Hcases as [(_ & -> & _)|(_ & -> & _ & ?)]; lia.
  - destruct Hcases as [(_ & -> & ?)|(_ & -> & ? & _)]; done.
  - intros q Hq. apply Hcov in Hq as [Hq|Hq]; [|by apply Hh1].
    destruct (Hh q Hq) as [Hu' Hnf]. split; [by apply F1|].
    intros Hf. apply Hnf, Hf1. by left.
  - exists s', idx', order'. split; [done|]. destruct Hm'. constructor; try done; [|lia|].
    + by transitivity s1.
    + intros q. rewrite <- m_free0, Hcov, Hf1. tauto.
Qed.

Lemma page2idx_ok e s p z b :
  inv e s -> zones s !! z = Some b -> usable s z p -> b <= p -> page2idx p s = Ret (p - b, s).
Proof.
  intros I Hz (pg & Hpg & Hzn & _) Hle. unfold page2idx. mstep get_page_ok; [|exact Hpg].
  mrun. rewrite Hzn, Hz. rewrite u32_small; [done|].
  pose proof (i_pages _ _ I _ _ Hpg). pose proof (i_npage _ _ I).
  destruct (i_zones _ _ I _ _ Hz). unfold is_u32. lia.
Qed.

(** [buddy_free_pages_sub] on a held, aligned block frees exactly that block. *)
Lemma free_sub_spec s z b base order :
  inv None s -> zones s !! z = Some b -> b <= base -> 0 <= order <= MAX_ORDER ->
  (base - b) mod 2 ^ order = 0 -> held s z base (2 ^ order) ->
  exists s', buddy_free_pages_sub base order s = Ret (tt, s') /\ released s s' base (2 ^ order).
Proof.
  intros I Hz Hle Ho Hm Hh. pose proof (pow2_pos order ltac:(lia)) as Hpos.
  destruct (Hh base ltac:(lia)) as [Hu _]. unfold buddy_free_pages_sub.
  mstep (page2idx_ok None); [|done..].
  rewrite land_low_mask, Hm by lia. rewrite assert_true by done.
  destruct (free_reset_spec (Z.to_nat (2 ^ order)) s base z I) as (s1 & Hrun1 & I1 & F1 & Hl1).
  { intros q Hq. apply Hh. lia. }
  mstep Hrun1. assert (zones s1 !! z = Some b) as Hz1 by (by rewrite (f_zones _ _ F1)).
  assert (usable s1 z base) as (pg & Hpg & Hzn & _) by (by apply F1).
  mstep get_page_ok; [|exact Hpg]. rewrite Hzn.
  assert (forall q, is_free s1 q <-> is_free s q) as Hf1.
  { intros q. unfold is_free. by setoid_rewrite Hl1. }
  destruct (merge_loop_spec (Z.to_nat (MAX_ORDER - order)) s1 z b (base - b) order)
    as (s2 & idx & o2 & Hrun2 & [I2 F2 Ho2 [Hi2 Hm2] Hh2 Hfree2 Hbud2]); try done; try lia.
  { replace (b + (base - b)) with base by lia. intros q Hq. rewrite Hf1.
    destruct (Hh q Hq). split; [by apply F1|done]. }
  mstep Hrun2. assert (zones s2 !! z = Some b) as Hz2 by (by rewrite (f_zones _ _ F2)).
  assert (idx2page z idx s2 = Ret (b + idx, s2)) as Hidx by (unfold idx2page; mrun; by rewrite Hz2).
  mstep Hidx. pose proof (pow2_pos o2 ltac:(lia)) as Hpos2.
  assert (is_Some (free_area s2 !! o2)) as Ha by (apply (i_areas _ _ I2); lia).
  assert (fits s2 o2 (b + idx)) as Hfit.
  { split; [lia|]. exists z, b. split_and!; [done|lia| |intros q Hq; by apply Hh2].
    by replace (b + idx - b) with idx by lia. }
  destruct (Hh2 (b + idx) ltac:(lia)) as [Hu2 _].
  rewrite push_last_ok; [|by destruct Hu2 as (? & -> & _)|done].
  eexists. split; [done|]. split_and!.
  - apply (push_inv I2); [done| |].
    + intros q Hq. by apply Hh2.
    + intros Hlt z' b' Hz' Hu' Hb'.
      assert (z' = z) as -> by exact (usable_fun _ _ _ _ Hu' Hu2).
      assert (b' = b) as -> by congruence.
      replace (b + idx - b) with idx in * by lia. by apply Hbud2.
  - transitivity s2; [|apply frame_push]. by transitivity s1.
  - intros q. rewrite push_is_free, <- Hfree2, Hf1 by done.
    replace (b + (base - b)) with base by lia. done.
Qed.

(** ** Release of a range *)

Lemma released_trans s s1 s2 base a c :
  0 <= a -> 0 <= c -> released s s1 base a -> released s1 s2 (base + a) c ->
  released s s2 base (a + c).
Proof.
  intros Ha Hc (_ & F1 & H1) (I2 & F2 & H2). split_and!; [done|by transitivity s1|].
  intros q. rewrite H2, H1. destruct (Z.lt_ge_cases q (base + a)); intuition lia.
Qed.

Lemma held_rest s s' z base m n :
  0 <= m -> held s z base n -> released s s' base m -> held s' z (base + m) (n - m).
Proof.
  intros Hm Hh (_ & F & Hf) q Hq. destruct (Hh q) as [Hu Hnf]; [lia|].
  split; [by apply F|]. intros [Hfq|Hfq]%Hf; [done|lia].
Qed.

Lemma held_prefix s z base m n : m <= n -> held s z base n -> held s z base m.
Proof. intros Hm Hh q Hq. apply Hh. lia. Qed.

Lemma released_none s base : inv None s -> released s s base 0.
Proof. intros I. split_and!; [done|done|]. intros q. intuition lia. Qed.

Lemma aligned_next x o :
  0 <= o -> x mod 2 ^ o = 0 ->
  if Z.testbit x o then (x + 2 ^ o) mod 2 ^ (o + 1) = 0 else x mod 2 ^ (o + 1) = 0.
Proof.
  intros Ho Hm. pose proof (pow2_pos o Ho). apply Z.mod_divide in Hm as [k ->]; [|lia].
  rewrite pow2_succ by lia.
  destruct (Z.testbit (k * 2 ^ o) o) eqn:E.
  - apply Z.testbit_true in E; [|done]. rewrite Z.div_mul in E by lia.
    replace (k * 2 ^ o + 2 ^ o) with ((k / 2 + 1) * (2 * 2 ^ o)); [apply Z.mod_mul; lia|].
    replace k with (2 * (k / 2) + 1) at 2 by dlia. ring.
  - apply Z.testbit_false in E; [|done]. rewrite Z.div_mul in E by lia.
    replace (k * 2 ^ o) with ((k / 2) * (2 * 2 ^ o)); [apply Z.mod_mul; lia|].
    replace k with (2 * (k / 2)) at 2 by dlia. ring.
Qed.

Lemma order_lt_11 o n : 0 <= o -> 2 ^ o <= n -> n < 2 ^ 11 -> o <= MAX_ORDER.
Proof.
  intros Ho H1 H2. unfold MAX_ORDER. destruct (Z.lt_ge_cases o 11); [lia|].
  assert (2 ^ 11 <= 2 ^ o) by (apply Z.pow_le_mono_r; lia). lia.
Qed.

Lemma free_up_spec fuel s z b base n order :
  inv None s -> zones s !! z = Some b -> b <= base -> 0 <= n < 2 ^ 11 ->
  0 <= order <= 11 -> 11 - order <= Z.of_nat fuel -> (base - b) mod 2 ^ order = 0 ->
  held s z base n ->
  exists s' m order',
    free_up fuel base n order s = Ret ((base + m, n - m, order'), s') /\
    released s s' base m /\ 0 <= m <= n /\ n - m < 2 ^ order' /\ 0 <= order' <= 11 /\
    (base + m - b) mod 2 ^ order' = 0.
Proof.
  revert s base n order. induction fuel as [|fuel IH];
    intros s base n order I Hz Hle Hn Ho Hfuel Hm Hh; cbn [free_up];
    destruct (Z.leb_spec (2 ^ order) n) as [Hge|Hlt]; cbn [negb].
  1:{ assert (order = 11) as -> by lia. lia. }
  1, 3: exists s, 0, order; replace (base + 0) with base by lia; replace (n - 0) with n by lia;
    split_and!; try done; try lia; by apply released_none.
  assert (order <= MAX_ORDER) as Ho' by (apply (order_lt_11 order n); lia).
  unfold MAX_ORDER in Ho'. pose proof (pow2_pos order ltac:(lia)).
  rewrite assert_true by (apply Z.leb_le; unfold MAX_ORDER; lia).
  mstep (page2idx_ok None); [|done|done|apply Hh; lia|done].
  rewrite land_pow2_zero by lia. rewrite negb_involutive.
  pose proof (aligned_next (base - b) order ltac:(lia) Hm) as Hal.
  destruct (Z.testbit (base - b) order).
  - destruct (free_sub_spec s z b base order) as (s1 & Hrun & Hrel);
      [done..|unfold MAX_ORDER; lia|done|by apply (held_prefix _ _ _ _ n)|].
    mstep Hrun. pose proof Hrel as (I1 & F1 & _).
    destruct (IH s1 (base + 2 ^ order) (n - 2 ^ order) (order + 1))
      as (s2 & m & o' & -> & Hrel2 & Hm2 & Hlt2 & Ho2 & Hal2).
    + done.
    + by rewrite (f_zones _ _ F1).
    + lia.
    + lia.
    + lia.
    + lia.
    + by replace (base + 2 ^ order - b) with (base - b + 2 ^ order) by lia.
    + apply (held_rest s); [lia|done..].
    + exists s2, (2 ^ order + m), o'. rewrite !Z.add_assoc, <- Z.sub_add_distr.
      split_and!; try done; try lia. by apply (released_trans s s1); [lia..| |].
  - by apply IH; try lia.
Qed.

Lemma shrink_order_spec fuel n order :
  0 <= order <= Z.of_nat fuel -> 1 <= n < 2 ^ (order + 1) ->
  let o := shrink_order fuel n order in 0 <= o <= order /\ 2 ^ o <= n < 2 ^ (o + 1).
Proof.
  revert order. induction fuel as [|fuel IH]; intros order Ho Hn; cbn [shrink_order].
  - assert (order = 0) as -> by lia. lia.
  - case_bool; [|lia].
    destruct (decide (order = 0)) as [->|]; [lia|].
    destruct (IH (order - 1)) as [? ?]; [lia| |cbn; lia].
    replace (order - 1 + 1) with order by lia. lia.
Qed.

Lemma free_down_spec fuel s z b base n order :
  inv None s -> zones s !! z = Some b -> b <= base -> 0 <= n < 2 ^ 11 ->
  n <= Z.of_nat fuel -> 0 <= order -> n < 2 ^ (order + 1) ->
  (base - b) mod 2 ^ order = 0 -> held s z base n ->
  exists s', free_down fuel base n order s = Ret (tt, s') /\ released s s' base n.
Proof.
  revert s base n order. induction fuel as [|fuel IH];
    intros s base n order I Hz Hle Hn Hfuel Ho Hlt Hm Hh; cbn [free_down];
    destruct (Z.eqb_spec n 0) as [->|Hnz]; try lia.
  1, 2: exists s; split; [done|by apply released_none].
  destruct (shrink_order_spec (Z.to_nat order) n order) as [Ho' Hr]; [lia|lia|].
  set (o := shrink_order (Z.to_nat order) n order) in *.
  assert (o <= MAX_ORDER) as HoM by (apply (order_lt_11 o n); lia).
  pose proof (pow2_pos o ltac:(lia)).
  assert ((base - b) mod 2 ^ o = 0) as Hmo by (apply (mod_pow2_le _ o order); [lia|done]).
  destruct (free_sub_spec s z b base o) as (s1 & Hrun & Hrel);
    [done..|lia|done|apply (held_prefix _ _ _ _ n); [lia|done]|].
  mstep Hrun. pose proof Hrel as (I1 & F1 & _). rewrite pow2_succ in Hr by lia.
  destruct (IH s1 (base + 2 ^ o) (n - 2 ^ o) o) as (s2 & -> & Hrel2).
  - done.
  - by rewrite (f_zones _ _ F1).
  - lia.
  - lia.
  - lia.
  - lia.
  - rewrite pow2_succ by lia. lia.
  - replace (base + 2 ^ o - b) with (base - b + 1 * 2 ^ o) by lia. by rewrite Z.mod_add by lia.
  - apply (held_rest s); [lia|done..].
  - exists s2. split; [done|]. replace n with (2 ^ o + (n - 2 ^ o)) by lia.
    by apply (released_trans s s1); [lia..| |].
Qed.

Lemma free_pages_ok s z b base n :
  inv None s -> zones s !! z = Some b -> b <= base -> 1 <= n < 2 ^ 11 -> held s z base n ->
  exists s', buddy_free_pages base n s = Ret (tt, s') /\ released s s' base n.
Proof.
  intros I Hz Hle Hn Hh. unfold buddy_free_pages.
  rewrite assert_true by (apply Z.ltb_lt; lia).
  destruct (Z.eqb_spec n 1) as [->|].
  - apply (free_sub_spec s z b); try done. apply Z.mod_1_r.
  - destruct (free_up_spec 32 s z b base n 0) as (s1 & m & o & Hrun & Hrel & Hm & Hlt & Ho & Hal);
      try done; try lia; [apply Z.mod_1_r|].
    mstep Hrun. pose proof Hrel as (I1 & F1 & _).
    destruct (free_down_spec (Z.to_nat (n - m)) s1 z b (base + m) (n - m) o) as (s2 & Hrun2 & Hrel2).
    + done.
    + by rewrite (f_zones _ _ F1).
    + lia.
    + lia.
    + lia.
    + lia.
    + rewrite pow2_succ by lia. pose proof (pow2_pos o ltac:(lia)). lia.
    + done.
    + apply (held_rest s); [lia|done..].
    + exists s2. split; [done|]. replace n with (m + (n - m)) by lia.
      by apply (released_trans s s1); [lia..| |].
Qed.

(** ** The number of free pages *)

Definition list_at (s : state) (o : Z) : list Z :=
  match free_area s !! o with Some fa => free_list fa | None => [] end.

Definition free_pages_list (s : state) : list Z :=
  seqZ 0 (MAX_ORDER + 1) ≫= fun o => list_at s o ≫= fun p => seqZ p (2 ^ o).

Lemma elem_list_at s o p : p ∈ list_at s o <-> in_list s o p.
Proof.
  unfold list_at, in_list. split.
  - destruct (free_area s !! o) as [fa|]; [eauto|by intros ?%elem_of_nil].
  - intros (fa & -> & H). done.
Qed.

Lemma elem_free_pages_list e s q : inv e s -> q ∈ free_pages_list s <-> is_free s q.
Proof.
  intros I. unfold free_pages_list, is_free. rewrite list_elem_of_bind.
  setoid_rewrite list_elem_of_bind. setoid_rewrite elem_list_at.
  setoid_rewrite elem_of_seqZ. split.
  - intros (o & (p & Hq & Hin) & _). by exists o, p.
  - intros (o & p & Hin & Hq). exists o. split; [by exists p|].
    apply (in_list_order I) in Hin. lia.
Qed.

Lemma nodup_free_pages_list e s : inv e s -> NoDup (free_pages_list s).
Proof.
  intros I. apply NoDup_bind; [|intros o Ho|apply NoDup_seqZ].
  - intros o o' q _ _. rewrite !list_elem_of_bind.
    intros (p & Hq & Hin%elem_list_at) (p' & Hq' & Hin'%elem_list_at).
    rewrite elem_of_seqZ in Hq, Hq'.
    by destruct (i_disj _ _ I o p o' p' q Hin Hin' Hq Hq') as [-> _].
  - apply NoDup_bind; [|intros; apply NoDup_seqZ|].
    + intros p p' q Hin%elem_list_at Hin'%elem_list_at Hq Hq'.
      rewrite elem_of_seqZ in Hq, Hq'.
      by destruct (i_disj _ _ I o p o p' q Hin Hin' Hq Hq') as [_ ->].
    + unfold list_at. destruct (free_area s !! o) as [fa|] eqn:E; [|constructor].
      by destruct (i_count _ _ I _ _ E).
Qed.

Lemma length_blocks o l :
  0 <= o -> Z.of_nat (length (l ≫= fun p => seqZ p (2 ^ o))) = Z.of_nat (length l) * 2 ^ o.
Proof.
  intros Ho. induction l as [|p l IH]; [done|].
  rewrite bind_cons, length_app, length_seqZ, Nat2Z.inj_add, IH. cbn [length]. lia.
Qed.

(** The fold of [buddy_nr_free_pages] never wraps: its partial sums are lengths
    of prefixes of [free_pages_list]. *)
Lemma nr_fold e s os acc :
  inv e s -> (forall o, o ∈ os -> 0 <= o <= MAX_ORDER) ->
  0 <= acc ->
  acc + Z.of_nat (length (os ≫= fun o => list_at s o ≫= fun p => seqZ p (2 ^ o))) < 2 ^ 32 ->
  foldl (fun acc o => u32 (acc + nr_free_at s o * 2 ^ o)) acc os =
  acc + Z.of_nat (length (os ≫= fun o => list_at s o ≫= fun p => seqZ p (2 ^ o))).
Proof.
  intros I. revert acc. induction os as [|o os IH]; intros acc Hos Hacc Hlt; [cbn; lia|].
  rewrite bind_cons, length_app, Nat2Z.inj_add in Hlt |- *. cbn [foldl].
  assert (0 <= o <= MAX_ORDER) as Ho by (apply Hos; set_solver).
  rewrite length_blocks in Hlt |- * by lia.
  assert (nr_free_at s o = Z.of_nat (length (list_at s o))) as ->.
  { unfold nr_free_at, list_at. destruct (free_area s !! o) as [fa|] eqn:E; [|done].
    by destruct (i_count _ _ I _ _ E). }
  rewrite u32_small by (unfold is_u32; nia).
  rewrite IH; [lia|intros; apply Hos; set_solver|nia|lia].
Qed.

Lemma nr_free_pages_length e s :
  inv e s -> buddy_nr_free_pages s = Z.of_nat (length (free_pages_list s)).
Proof.
  intros I. unfold buddy_nr_free_pages. rewrite (nr_fold e); try done.
  - intros o Ho%elem_of_seqZ. lia.
  - pose proof (i_npage _ _ I).
    enough (Z.of_nat (length (free_pages_list s)) <= Z.max 0 (npage s))
      by (unfold free_pages_list in *; lia).
    apply nodup_bound; [by apply (nodup_free_pages_list e)|].
    intros q Hq%(elem_free_pages_list e); [|done].
    destruct (is_free_usable I q Hq) as (z & pg & Hpg & _). by apply (i_pages _ _ I) in Hpg.
Qed.

(** Adding a range of non-free pages adds its length to the count. *)
Lemma nr_free_grow e e' s s' base n :
  inv e s -> inv e' s' -> 0 <= n ->
  (forall q, is_free s' q <-> is_free s q \/ base <= q < base + n) ->
  (forall q, base <= q < base + n -> ~ is_free s q) ->
  buddy_nr_free_pages s' = buddy_nr_free_pages s + n.
Proof.
  intros I I' Hn Hf Hnf.
  rewrite (nr_free_pages_length e s), (nr_free_pages_length e' s') by done.
  assert (free_pages_list s' ≡ₚ free_pages_list s ++ seqZ base n) as ->.
  { apply NoDup_Permutation; [by apply (nodup_free_pages_list e')|..].
    - apply NoDup_app. split_and!; [by apply (nodup_free_pages_list e)| |apply NoDup_seqZ].
      intros q Hq%(elem_free_pages_list e) Hq'%elem_of_seqZ; [|done]. by apply (Hnf q).
    - intros q. rewrite elem_of_app, elem_of_seqZ, (elem_free_pages_list e s),
        (elem_free_pages_list e' s') by done. apply Hf. }
  rewrite length_app, length_seqZ. lia.
Qed.

(** ** Main theorems *)

(** The number [buddy_nr_free_pages] reports is the number of free pages. *)
Theorem buddy_nr_free_pages_count s :
  inv None s ->
  exists l, NoDup l /\ (forall q, q ∈ l <-> is_free s q) /\
    buddy_nr_free_pages s = Z.of_nat (length l).
Proof.
  intros I. exists (free_pages_list s). split_and!.
  - by apply (nodup_free_pages_list None).
  - intros q. by apply (elem_free_pages_list None).
  - by apply (nr_free_pages_length None).
Qed.

(** C31: [buddy_free_pages] on [n] held pages of one zone, [1 <= n < 2048]: it
    returns, the invariant holds again (all free buddies merged), exactly those
    pages have become free and the count grows by [n]. *)
Theorem buddy_free_pages_spec s z b base n :
  inv None s -> zones s !! z = Some b -> b <= base -> 1 <= n < 2 ^ 11 -> held s z base n ->
  exists s', buddy_free_pages base n s = Ret (tt, s') /\ inv None s' /\
    (forall q, is_free s' q <-> is_free s q \/ base <= q < base + n) /\
    buddy_nr_free_pages s' = buddy_nr_free_pages s + n.
Proof.
  intros I Hz Hle Hn Hh. destruct (free_pages_ok s z b base n) as (s' & Hrun & I' & F & Hf); try done.
  exists s'. split_and!; try done.
  apply (nr_free_grow None None _ _ base); try done; [lia|]. intros q Hq. by apply Hh.
Qed.

Lemma getorder_loop_spec k s order n :
  0 <= order -> order + Z.of_nat k = MAX_ORDER + 1 ->
  (order = 0 \/ 2 ^ (order - 1) < n) -> 1 <= n <= 2 ^ MAX_ORDER ->
  exists o, getorder_loop k order (2 ^ order) n s = Ret (o, s) /\ 0 <= o <= MAX_ORDER /\
    n <= 2 ^ o /\ (o = 0 \/ 2 ^ (o - 1) < n).
Proof.
  revert order. induction k as [|k IH]; intros order Ho Hk Hlow Hn; cbn [getorder_loop].
  - exfalso. assert (order = MAX_ORDER + 1) as -> by lia. unfold MAX_ORDER in *. lia.
  - case_bool.
    + exists order. split_and!; try done; lia.
    + replace (2 ^ order * 2) with (2 ^ (order + 1)) by (rewrite pow2_succ by lia; lia).
      apply IH; [lia|lia| |done]. right. by replace (order + 1 - 1) with order by lia.
Qed.

Lemma getorder_spec s n :
  1 <= n <= 2 ^ MAX_ORDER ->
  exists o, getorder n s = Ret (o, s) /\ 0 <= o <= MAX_ORDER /\
    n <= 2 ^ o /\ (o = 0 \/ 2 ^ (o - 1) < n).
Proof.
  intros Hn. apply (getorder_loop_spec (Z.to_nat (MAX_ORDER + 1)) s 0 n); try lia. done.
Qed.

(** C32: [buddy_alloc_pages] for [1 <= n <= 1024].  On success the [n] pages from
    the one returned were free and no longer are, every other free page stays
    free (the part of the block past [n] is given back), the first page is aligned
    in its zone to the smallest power of two that is at least [n], the invariant
    holds and the count drops by [n].  It fails only when no free block is that
    large, and then changes nothing. *)
Theorem buddy_alloc_pages_spec s n :
  inv None s -> 1 <= n <= 2 ^ MAX_ORDER ->
  exists order, 0 <= order <= MAX_ORDER /\ n <= 2 ^ order /\ (order = 0 \/ 2 ^ (order - 1) < n) /\
  ((exists p s' z b, buddy_alloc_pages n s = Ret (Some p, s') /\ inv None s' /\
      zones s' !! z = Some b /\ b <= p /\ (p - b) mod 2 ^ order = 0 /\ held s' z p n /\
      (forall q, is_free s q <-> is_free s' q \/ p <= q < p + n) /\
      buddy_nr_free_pages s' = buddy_nr_free_pages s - n) \/
   (buddy_alloc_pages n s = Ret (None, s) /\ forall o p, order <= o -> ~ in_list s o p)).
Proof.
  intros I Hn. destruct (getorder_spec s n Hn) as (order & Hget & Ho & Hle & Hmin).
  exists order. split_and!; try done; try lia. unfold buddy_alloc_pages.
  rewrite assert_true by (apply Z.ltb_lt; lia). mstep Hget.
  destruct (alloc_sub_spec s order I Ho) as [(p & s1 & Hrun & Hal)|[Hrun Hnone]].
  2:{ right. mstep Hrun. done. }
  left. mstep Hrun. destruct Hal as (I1 & F1 & Hfit & Hfree & Hnf).
  pose proof (fits_covers_self _ _ _ Hfit) as Hself.
  pose proof Hfit as (_ & z & b & Hz & Hb & Hm & Hu). unfold covers in *.
  assert (held s1 z p (2 ^ order)) as Hh by (intros q Hq; split; [by apply Hu|by apply Hnf]).
  assert (exists s2, (if negb (n =? 2 ^ order)
      then buddy_free_pages (p + n) (2 ^ order - n) ;; ret (Some p) else ret (Some p)) s1
      = Ret (Some p, s2) /\ released s1 s2 (p + n) (2 ^ order - n)) as (s2 & Hrun2 & I2 & F2 & Hfree2).
  { destruct (Z.eqb_spec n (2 ^ order)) as [->|]; cbn [negb].
    - exists s1. split; [done|]. rewrite Z.sub_diag. by apply released_none.
    - destruct (free_pages_ok s1 z b (p + n) (2 ^ order - n)) as (s2 & Hr2 & Hrel2).
      + done.
      + done.
      + lia.
      + assert (2 ^ order <= 2 ^ 10) by (apply Z.pow_le_mono_r; unfold MAX_ORDER in *; lia). lia.
      + intros q Hq. apply Hh. lia.
      + exists s2. split; [by mstep Hr2|done]. }
  assert (forall q, is_free s q <-> is_free s2 q \/ p <= q < p + n) as Hset.
  { intros q. rewrite Hfree, Hfree2. destruct (Z.lt_ge_cases q (p + n)); intuition lia. }
  assert (held s2 z p n) as Hh2.
  { intros q Hq. split; [apply F2, Hu; lia|].
    intros [Hx|Hx]%Hfree2; [apply (Hnf q); [lia|done]|lia]. }
  exists p, s2, z, b. rewrite (f_zones _ _ F2). split_and!; try done.
  enough (buddy_nr_free_pages s = buddy_nr_free_pages s2 + n) by lia.
  apply (nr_free_grow None None _ _ p); try done; [lia|]. intros q Hq. by apply Hh2.
Qed.

(** ** No fragmentation *)

Lemma aligned_contains x o x1 o1 y :
  0 <= o <= o1 -> x mod 2 ^ o = 0 -> x1 mod 2 ^ o1 = 0 ->
  x <= y < x + 2 ^ o -> x1 <= y < x1 + 2 ^ o1 -> x1 <= x /\ x + 2 ^ o <= x1 + 2 ^ o1.
Proof.
  intros Ho Hx Hx1 Hy Hy1. apply (mod_pow2_le x1 o o1 Ho) in Hx1.
  assert ((2 ^ o1) mod 2 ^ o = 0) as Hp.
  { replace o1 with (o + (o1 - o)) by lia. rewrite Z.pow_add_r, Z.mul_comm by lia.
    apply Z.mod_mul. lia. }
  pose proof (pow2_pos o ltac:(lia)).
  apply Z.mod_divide in Hx as [a ->]; [|lia]. apply Z.mod_divide in Hx1 as [c ->]; [|lia].
  apply Z.mod_divide in Hp as [d Hd]; [|lia]. rewrite Hd in *.
  assert (c <= a) by (destruct (Z.lt_ge_cases a c); [nia|lia]).
  assert (a + 1 <= c + d).
  { destruct (Z.lt_ge_cases (c + d) (a + 1)) as [Hlt|]; [|done].
    pose proof (Z.mul_le_mono_nonneg_r (c + d) a (2 ^ o) ltac:(lia) ltac:(lia)). lia. }
  pose proof (Z.mul_le_mono_nonneg_r (a + 1) (c + d) (2 ^ o) ltac:(lia) ltac:(lia)).
  pose proof (Z.mul_le_mono_nonneg_r c a (2 ^ o) ltac:(lia) ltac:(lia)). lia.
Qed.

(** In an aligned, fully free range the blocks have been merged into one. *)
Lemma whole_block s (k : nat) p :
  inv None s -> fits s (Z.of_nat k) p -> (forall q, covers (Z.of_nat k) p q -> is_free s q) ->
  exists o' p', Z.of_nat k <= o' /\ in_list s o' p' /\
    forall q, covers (Z.of_nat k) p q -> covers o' p' q.
Proof.
  intros I. revert p. induction k as [|k IH]; intros p Hfit Hfree.
  { destruct (Hfree p) as (o & p' & Hin & Hc); [by apply covers_self|].
    exists o, p'. split_and!; [apply (in_list_order I) in Hin; lia|done|].
    intros q Hq. unfold covers in *. assert (q = p) as -> by lia. done. }
  assert (Z.of_nat (S k) - 1 = Z.of_nat k) as Ek by lia.
  destruct (split_fits s (Z.of_nat (S k)) p) as [Hlo Hhi]; [lia|done|]. rewrite Ek in *.
  assert (2 ^ Z.of_nat (S k) = 2 * 2 ^ Z.of_nat k) as E2
    by (rewrite <- pow2_succ by lia; f_equal; lia).
  pose proof (pow2_pos (Z.of_nat k) ltac:(lia)) as Hpos.
  pose proof Hfit as (_ & z & b & Hz & Hb & Hm & Hu).
  destruct (IH p Hlo) as (o1 & p1 & Ho1 & Hin1 & Hc1).
  { intros q Hq. apply Hfree. unfold covers in *. lia. }
  destruct (IH (p + 2 ^ Z.of_nat k) Hhi) as (o2 & p2 & Ho2 & Hin2 & Hc2).
  { intros q Hq. apply Hfree. unfold covers in *. lia. }
  set (h := p + 2 ^ Z.of_nat k) in *.
  assert (covers o1 p1 p /\ covers o2 p2 h) as [C1 C2]
    by (split; [apply Hc1|apply Hc2]; unfold covers; lia).
  assert (forall o' p' y, in_list s o' p' -> covers o' p' y -> covers (Z.of_nat (S k)) p y ->
     b <= p' /\ (p' - b) mod 2 ^ o' = 0 /\ usable s z p') as Hblk.
  { intros o' p' y Hin Hcy Hy. pose proof (i_block _ _ I _ _ Hin) as Hf'.
    pose proof (fits_covers_self _ _ _ Hf') as Hs'.
    destruct Hf' as (_ & z' & b' & Hz' & Hle' & Hm' & Hu').
    assert (z' = z) as -> by (eapply usable_fun; [by apply (Hu' y)|by apply Hu]).
    assert (b' = b) as -> by congruence. eauto. }
  destruct (Hblk o1 p1 p Hin1 C1) as (Hb1 & Hm1 & Hu1); [unfold covers; lia|].
  destruct (Hblk o2 p2 h Hin2 C2) as (Hb2 & Hm2 & Hu2); [unfold covers, h; lia|].
  destruct (decide (Z.of_nat (S k) <= o1)) as [Hge|].
  { exists o1, p1. split_and!; [done|done|]. unfold covers in *.
    destruct (aligned_contains (p - b) (Z.of_nat (S k)) (p1 - b) o1 (p - b)); try done; lia. }
  destruct (decide (Z.of_nat (S k) <= o2)) as [Hge|].
  { exists o2, p2. split_and!; [done|done|]. unfold covers, h in *.
    destruct (aligned_contains (p - b) (Z.of_nat (S k)) (p2 - b) o2 (h - b)); unfold h; try done; lia. }
  exfalso. assert (o1 = Z.of_nat k) as -> by lia. assert (o2 = Z.of_nat k) as -> by lia.
  assert (p1 = p) as -> by (pose proof (Hc1 p); pose proof (Hc1 (p + 2 ^ Z.of_nat k - 1)); unfold covers in *; lia).
  assert (p2 = h) as -> by (pose proof (Hc2 h); pose proof (Hc2 (h + 2 ^ Z.of_nat k - 1)); unfold covers in *; lia).
  apply (i_merged _ _ I (Z.of_nat k) p h z b); try done.
  - destruct Hfit as [? _]. lia.
  - apply buddy_sym. symmetry. rewrite <- Ek. unfold h. rewrite <- Ek.
    apply upper_half_buddy; [lia|done|done].
Qed.

(** C37: Merging leaves no fragmentation: if some aligned range of [2^o] pages of
    a zone is entirely free, then every request of at most [2^o] pages succeeds. *)
Theorem buddy_alloc_no_fragmentation s o p n :
  inv None s -> fits s o p -> (forall q, covers o p q -> is_free s q) -> 1 <= n <= 2 ^ o ->
  exists p' s', buddy_alloc_pages n s = Ret (Some p', s').
Proof.
  intros I Hfit Hfree Hn. pose proof Hfit as [Ho _].
  assert (2 ^ o <= 2 ^ MAX_ORDER) by (apply Z.pow_le_mono_r; lia).
  destruct (getorder_spec s n) as (order & Hget & Hor & Hle & Hmin); [lia|].
  destruct (whole_block s (Z.to_nat o) p) as (o' & p' & Ho' & Hin & _);
    rewrite ?Z2Nat.id by lia; try done.
  assert (order <= o).
  { destruct Hmin; [lia|]. destruct (Z.le_gt_cases order o); [done|].
    assert (2 ^ o <= 2 ^ (order - 1)) by (apply Z.pow_le_mono_r; lia). lia. }
  unfold buddy_alloc_pages. rewrite assert_true by (apply Z.ltb_lt; lia). mstep Hget.
  destruct (alloc_sub_spec s order I Hor) as [(q & s1 & Hrun & Hal)|[_ Hnone]].
  2:{ exfalso. apply (Hnone o' p'); [lia|done]. }
  mstep Hrun. destruct (Z.eqb_spec n (2 ^ order)); cbn [negb]; [by do 2 eexists|].
  destruct Hal as (I1 & F1 & Hfit1 & _ & Hnf).
  pose proof Hfit1 as (_ & z & b & Hz & Hb & _ & Hu). unfold covers in *.
  destruct (free_pages_ok s1 z b (q + n) (2 ^ order - n)) as (s2 & Hr2 & _).
  - done.
  - done.
  - lia.
  - assert (2 ^ order <= 2 ^ 10) by (apply Z.pow_le_mono_r; unfold MAX_ORDER in *; lia). lia.
  - intros x Hx. split; [apply Hu|apply Hnf]; lia.
  - mstep Hr2. by do 2 eexists.
Qed.

(** ** Initialisation *)

(** [buddy_init_memmap]'s first loop: reserved descriptors become usable pages of
    zone [z]; nothing that was usable changes. *)
Record opened (s s' : state) (z p n : Z) : Prop := {
  o_inv : inv None s';
  o_rest : npage s' = npage s /\ zones s' = zones s /\ next_zone s' = next_zone s /\
           free_area s' = free_area s;
  o_usable : forall z' q, usable s' z' q <-> usable s z' q \/ (z' = z /\ p <= q < p + n)
}.

Lemma open_page s z p pg :
  inv None s -> pages s !! p = Some pg -> PageReserved pg = true ->
  opened s (touch (fun _ => mk_page 0 0 0 z) p s) z p 1.
Proof.
  intros I Hpg Hr. set (f := fun _ : page => mk_page 0 0 0 z).
  assert (forall z' q, usable (touch f p s) z' q <-> usable s z' q \/ (z' = z /\ p <= q < p + 1)) as Hu.
  { intros z' q. unfold usable, touch. cbn. rewrite lookup_alter. case_decide; subst.
    - rewrite Hpg. cbn. split.
      + intros (pg' & [= <-] & <- & _). right. cbn. lia.
      + intros [(pg' & [= <-] & _ & ?)|[-> _]]; [congruence|]. eexists. by split_and!.
    - split; [by left|]. intros [?|[_ ?]]; [done|lia]. }
  assert (forall o, ~ in_list s o p) as Hnl.
  { intros o Hin. pose proof (i_block _ _ I _ _ Hin) as Hfit.
    pose proof (fits_covers_self _ _ _ Hfit) as Hself. destruct Hfit as (_ & z' & b & _ & _ & _ & Hq).
    destruct (Hq p Hself) as (pg' & ? & _ & ?). congruence. }
  constructor; [|done|done]. constructor.
  - apply (i_npage _ _ I).
  - intros q. unfold touch. cbn. rewrite lookup_alter_is_Some. apply (i_array _ _ I).
  - apply (i_zones _ _ I).
  - apply (i_areas _ _ I).
  - apply (i_count _ _ I).
  - intros o q Hq. apply (fits_mono s); [done| |by apply (i_block _ _ I)].
    intros z' q' Hq'. apply Hu. by left.
  - intros o q Hq. unfold touch. cbn. rewrite lookup_alter_ne; [by apply (i_head _ _ I)|].
    intros ->. by apply (Hnl o).
  - intros q pg'. unfold touch. cbn. rewrite lookup_alter. case_decide; [subst|by apply (i_flag _ _ I)].
    rewrite Hpg. cbn. by intros [= <-].
  - apply (i_disj _ _ I).
  - intros o p1 p2 z' b H1 H2 Hlt Hz U1 U2.
    assert (forall q, in_list s o q -> usable (touch f p s) z' q -> usable s z' q) as Hold.
    { intros q Hin [?|[_ ?]]%Hu; [done|]. exfalso. apply (Hnl o). by replace p with q by lia. }
    apply (i_merged _ _ I o p1 p2 z' b); auto.
Qed.

Lemma memmap_pages_spec n s z p :
  inv None s ->
  (forall q, p <= q < p + Z.of_nat n -> exists pg, pages s !! q = Some pg /\ PageReserved pg = true) ->
  exists s', memmap_pages n p z s = Ret (tt, s') /\ opened s s' z p (Z.of_nat n).
Proof.
  revert s p. induction n as [|n IH]; intros s p I Hq; cbn [memmap_pages].
  { exists s. split; [done|]. constructor; try done. intros z' q. intuition lia. }
  destruct (Hq p) as (pg & Hpg & Hr); [lia|].
  mstep get_page_ok; [|exact Hpg]. rewrite Hr. rewrite assert_true by done.
  mstep update_page_ok; [|by rewrite Hpg].
  pose proof (open_page s z p pg I Hpg Hr) as [I1 (R1 & R2 & R3 & R4) U1].
  set (s1 := touch (fun _ => mk_page 0 0 0 z) p s) in *.
  destruct (IH s1 (p + 1)) as (s2 & -> & [I2 (S1 & S2 & S3 & S4) U2]).
  - done.
  - intros q Hrange. unfold s1, touch. cbn. rewrite lookup_alter_ne by lia. apply Hq. lia.
  - exists s2. split; [done|]. constructor; [done|split_and!; congruence|].
    intros z' q. rewrite U2, U1. intuition lia.
Qed.

Definition add_zone (z base : Z) (s : state) : state :=
  mk_state (pages s) (npage s) (free_area s) (<[z := base]> (zones s)) (z + 1).

Lemma add_zone_inv s base :
  inv None s -> 0 <= base -> 0 <= next_zone s -> inv None (add_zone (next_zone s) base s).
Proof.
  intros I Hb Hz.
  assert (zones s !! next_zone s = None) as Hnone.
  { destruct (zones s !! next_zone s) as [b|] eqn:E; [|done].
    destruct (i_zones _ _ I _ _ E). lia. }
  assert (forall o p, in_list s o p -> usable s (next_zone s) p -> False) as Hnew.
  { intros o p Hin Hu. pose proof (i_block _ _ I _ _ Hin) as Hfit.
    pose proof (fits_covers_self _ _ _ Hfit) as Hself.
    destruct Hfit as (_ & z & b & Hzb & _ & _ & Hq).
    pose proof (usable_fun _ _ _ _ (Hq p Hself) Hu). congruence. }
  constructor; try apply I.
  - intros z b. cbn. rewrite lookup_insert. case_decide; [intros [= <-]; lia|].
    intros H'. destruct (i_zones _ _ I _ _ H'). lia.
  - intros o p Hin. destruct (i_block _ _ I _ _ Hin) as (Ho & z & b & Hzb & Hle & Hm & Hq).
    split; [done|]. exists z, b. cbn. split_and!; try done.
    rewrite lookup_insert_ne; [done|]. congruence.
  - intros o p p' z b Hin Hin'. cbn. rewrite lookup_insert. case_decide; [subst|].
    + intros _ _ Hu. exfalso. by apply (Hnew o p).
    + by apply (i_merged _ _ I).
Qed.

(** The pages of zone [z] from [p] up are not free yet. *)
Definition fresh_above (s : state) (z p : Z) : Prop :=
  forall q, p <= q -> usable s z q -> ~ is_free s q.

Lemma fresh_above_released s s' z p m :
  0 <= m -> fresh_above s z p -> released s s' p m -> fresh_above s' z (p + m).
Proof.
  intros Hm Hab (_ & F & Hf) q Hq Hu [Hfq|Hfq]%Hf; [|lia].
  apply F in Hu. apply (Hab q); [lia|done|done].
Qed.

Lemma memmap_order_spec fuel s z base o p n :
  inv None s -> zones s !! z = Some base -> base <= p -> 0 <= o <= MAX_ORDER ->
  0 <= n <= Z.of_nat fuel -> (p - base) mod 2 ^ o = 0 ->
  (o < MAX_ORDER -> 2 ^ o <= n -> (p - base) mod 2 ^ (o + 1) = 0 /\ n < 2 ^ (o + 1)) ->
  (forall q, p <= q < p + n -> usable s z q) -> fresh_above s z p ->
  exists s' m, memmap_order fuel o p n s = Ret ((p + m, n - m), s') /\ released s s' p m /\
    0 <= m <= n /\ n - m < 2 ^ o /\ (p + m - base) mod 2 ^ o = 0.
Proof.
  revert s p n. induction fuel as [|fuel IH]; intros s p n I Hz Hb Ho Hn Hm Hnext Hu Hab;
    cbn [memmap_order]; pose proof (pow2_pos o ltac:(lia)) as Hpos;
    destruct (Z.leb_spec (2 ^ o) n) as [Hge|Hlt]; cbn [negb]; try lia.
  1, 3: exists s, 0; replace (p + 0) with p by lia; replace (n - 0) with n by lia;
    split_and!; try done; try lia; by apply released_none.
  assert (fits s o p) as Hfit.
  { split; [done|]. exists z, base. split_and!; try done. intros q Hq. apply Hu. unfold covers in Hq. lia. }
  assert (is_Some (free_area s !! o)) as Ha by (by apply (i_areas _ _ I)).
  destruct (Hu p ltac:(lia)) as (pg & Hpg & Hzn & Hr).
  rewrite (proj2 (push_ok s o p _ ltac:(by rewrite Hpg) Ha)).
  assert (inv None (push o p s)) as I1.
  { apply (push_inv I); [done| |].
    - intros q [Hq1 Hq2]. apply Hab; [done|]. apply Hu. lia.
    - intros Hlt z' b' Hz' Hu' Hub Hin.
      assert (z' = z) as -> by (apply (usable_fun s _ _ p); [done|apply Hu; lia]).
      assert (b' = base) as -> by congruence.
      destruct (Hnext Hlt Hge) as [Hm1 _].
      destruct (buddy_cases (p - base) o) as [(E & _ & _)|(E & _ & E1 & _)];
        [lia|lia|done| |].
      + rewrite E in Hin, Hub. apply (Hab (base + (p - base + 2 ^ o))); [lia|done|].
        by apply (in_list_free I o).
      + rewrite pow2_succ in Hm1, E1 by lia.
        apply Z.mod_divide in Hm1 as [k1 Hk1]; [|lia]. apply Z.mod_divide in E1 as [k2 Hk2]; [|lia].
        assert (2 ^ o * (2 * (k1 - k2) - 1) = 0) as E0 by lia.
        apply Z.mul_eq_0 in E0. lia. }
  assert (released s (push o p s) p (2 ^ o)) as Hrel.
  { split_and!; [done|apply frame_push|]. intros q. by apply push_is_free. }
  destruct (IH (push o p s) (p + 2 ^ o) (n - 2 ^ o)) as (s' & m & -> & Hrel' & Hm' & Hlt' & Hal').
  - done.
  - done.
  - lia.
  - done.
  - lia.
  - replace (p + 2 ^ o - base) with (p - base + 1 * 2 ^ o) by lia. by rewrite Z.mod_add by lia.
  - intros Hlt Hge2. destruct (Hnext Hlt Hge) as [_ Hn2]. rewrite pow2_succ in Hn2 by lia. lia.
  - intros q Hq. apply usable_push, Hu. lia.
  - by apply (fresh_above_released s); [lia| |].
  - exists s', (2 ^ o + m). rewrite !Z.add_assoc, <- Z.sub_add_distr.
    split_and!; try done; try lia. by apply (released_trans s (push o p s)); [lia..| |].
Qed.

Lemma memmap_blocks_spec k s z base p n :
  inv None s -> zones s !! z = Some base -> base <= p -> Z.of_nat k <= MAX_ORDER -> 0 <= n ->
  (p - base) mod 2 ^ Z.of_nat k = 0 ->
  (Z.of_nat k < MAX_ORDER -> (p - base) mod 2 ^ (Z.of_nat k + 1) = 0 /\ n < 2 ^ (Z.of_nat k + 1)) ->
  (forall q, p <= q < p + n -> usable s z q) -> fresh_above s z p ->
  exists s', memmap_blocks k p n s = Ret (tt, s') /\ released s s' p n.
Proof.
  revert s p n. induction k as [|k IH]; intros s p n I Hz Hb Hk Hn Hm Hnext Hu Hab;
    cbn [memmap_blocks]; (destruct (Z.eqb_spec n 0) as [->|Hnz];
    [exists s; split; [done|by apply released_none]|]).
  - destruct (memmap_order_spec (Z.to_nat n) s z base 0 p n) as (s1 & m & Hrun & Hrel & Hm1 & Hlt & _);
      try done; try lia.
    mstep Hrun. change (2 ^ 0) with 1 in Hlt. assert (n - m = 0) as -> by lia.
    exists s1. split; [done|]. by replace n with m by lia.
  - destruct (memmap_order_spec (Z.to_nat n) s z base (Z.of_nat (S k)) p n)
      as (s1 & m & Hrun & Hrel & Hm1 & Hlt & Hal); try done; try lia.
    mstep Hrun. pose proof Hrel as (I1 & F1 & _).
    assert (Z.of_nat k + 1 = Z.of_nat (S k)) as Ek by lia.
    destruct (IH s1 (p + m) (n - m)) as (s2 & Hrun2 & Hrel2).
    + done.
    + by rewrite (f_zones _ _ F1).
    + lia.
    + lia.
    + lia.
    + apply (mod_pow2_le _ _ (Z.of_nat (S k))); [lia|done].
    + intros _. by rewrite Ek.
    + intros q Hq. apply F1, Hu. lia.
    + by apply (fresh_above_released s); [lia| |].
    + exists s2. split; [done|]. replace n with (m + (n - m)) by lia.
      by apply (released_trans s s1); [lia..| |].
Qed.

Lemma init_memmap_ok s base n :
  inv None s -> 0 < n -> 0 <= next_zone s < MAX_ZONE_NUM ->
  (forall z' q, usable s z' q -> z' < next_zone s) ->
  (forall q, base <= q < base + n -> exists pg, pages s !! q = Some pg /\ PageReserved pg = true) ->
  exists s', buddy_init_memmap base n s = Ret (tt, s') /\ inv None s' /\
    zones s' !! next_zone s = Some base /\ next_zone s' = next_zone s + 1 /\
    (forall q, is_free s' q <-> is_free s q \/ base <= q < base + n).
Proof.
  intros I Hn Hz Hfresh Hpages. unfold buddy_init_memmap, get.
  rewrite (bind_step _ _ s s s eq_refl).
  rewrite assert_true by (apply andb_true_iff; split; apply Z.ltb_lt; lia).
  destruct (memmap_pages_spec (Z.to_nat n) s (next_zone s) base I) as (s1 & Hrun1 & [I1 (R1 & R2 & R3 & R4) U1]).
  { intros q Hq. apply Hpages. lia. }
  rewrite Z2Nat.id in U1 by lia. mstep Hrun1. unfold modify. rewrite (bind_step _ _ s1 tt _ eq_refl).
  assert (0 <= base) as Hb.
  { destruct (Hpages base) as (pg & Hpg & _); [lia|]. apply (i_pages _ _ I) in Hpg. lia. }
  assert (forall q, is_free s1 q <-> is_free s q) as Hf1 by (intros q; unfold is_free, in_list; by rewrite R4).
  pose proof (add_zone_inv s1 base I1 Hb ltac:(lia)) as I2. rewrite R3 in I2.
  destruct (memmap_blocks_spec (Z.to_nat MAX_ORDER) (add_zone (next_zone s) base s1) (next_zone s) base base n)
    as (s3 & Hrun3 & I3 & F3 & Hf3).
  - done.
  - apply lookup_insert_eq.
  - lia.
  - done.
  - lia.
  - rewrite Z.sub_diag. apply Z.mod_0_l. done.
  - done.
  - intros q Hq. apply (U1 (next_zone s) q). by right.
  - intros q Hq Hu Hfq. change (is_free s1 q) in Hfq. apply Hf1 in Hfq.
    destruct (is_free_usable I q Hfq) as (z & Hzq). pose proof (Hfresh z q Hzq).
    enough (z = next_zone s) by lia.
    apply (usable_fun s1 _ _ q); [apply U1; by left|done].
  - exists s3. split_and!; [exact Hrun3|done| | |].
    + rewrite (f_zones _ _ F3). apply lookup_insert_eq.
    + by rewrite (f_next _ _ F3).
    + intros q. rewrite Hf3. change (is_free (add_zone (next_zone s) base s1) q) with (is_free s1 q).
      by rewrite Hf1.
Qed.

(** [buddy_init_memmap] on [n] reserved pages, with a zone left and none of
    the zone's number handed out before: it returns, the invariant holds, a new
    zone starts at [base], exactly those [n] pages have become free and the count
    of free pages grows by [n]. *)
Theorem buddy_init_memmap_spec s base n :
  inv None s -> 0 < n -> 0 <= next_zone s < MAX_ZONE_NUM ->
  (forall z' q, usable s z' q -> z' < next_zone s) ->
  (forall q, base <= q < base + n -> exists pg, pages s !! q = Some pg /\ PageReserved pg = true) ->
  exists s', buddy_init_memmap base n s = Ret (tt, s') /\ inv None s' /\
    zones s' !! next_zone s = Some base /\ next_zone s' = next_zone s + 1 /\
    (forall q, is_free s' q <-> is_free s q \/ base <= q < base + n) /\
    buddy_nr_free_pages s' = buddy_nr_free_pages s + n.
Proof.
  intros I Hn Hz Hfresh Hpages.
  destruct (init_memmap_ok s base n I Hn Hz Hfresh Hpages) as (s' & Hrun & I' & Hz' & Hn' & Hf).
  exists s'. split_and!; try done.
  apply (nr_free_grow None None _ _ base); try done; [lia|].
  intros q Hq Hfq. destruct (is_free_usable I q Hfq) as (z & pg & Hpg & _ & Hr).
  destruct (Hpages q Hq) as (pg' & Hpg' & Hr'). congruence.
Qed.

(** Before any zone exists, [buddy_init] establishes the invariant. *)
Lemma buddy_init_inv s s' :
  0 <= npage s < 2 ^ 32 -> (forall q, is_Some (pages s !! q) <-> 0 <= q < npage s) ->
  (forall q pg, pages s !! q = Some pg -> PageReserved pg = true) -> zones s = ∅ ->
  buddy_init s = Ret (tt, s') -> inv None s' /\ forall q, ~ is_free s' q.
Proof.
  intros Hn Ha Hr Hz [= <-].
  set (s' := with_areas _ s).
  assert (forall o p, ~ in_list s' o p) as Hnil.
  { intros o p (fa & [_ ->]%array_lookup & H). by apply elem_of_nil in H. }
  split; [|by intros q (o & p & ?%Hnil & _)].
  constructor; try done; try (intros o p ?%Hnil; done);
    try (intros o p o' p' q ?%Hnil; done).
  - intros z b. cbn. by rewrite Hz, lookup_empty.
  - intros o. cbn [free_area with_areas s']. split.
    + intros Ho. eexists. apply array_lookup. split; [lia|done].
    + intros [fa [Ho _]%array_lookup]. lia.
  - intros o fa [_ ->]%array_lookup. cbn. split; [constructor|done].
  - intros p pg Hpg Hr'. cbn in Hpg. apply Hr in Hpg. congruence.
Qed.

(** ** Witnesses: 20 pages, of which 3 to 19 become a zone *)

Definition ex0 : state := mk_state (array 20 (fun _ => mk_page 0 1 0 0)) 20 ∅ ∅ 0.

Definition run_state {A} (m : M state A) (s : state) : state :=
  match m s with Ret (_, s') => s' | _ => s end.

Definition ex1 : state := run_state buddy_init ex0.
Definition ex2 : state := run_state (buddy_init_memmap 3 17) ex1.
Definition ex3 : state := run_state (buddy_alloc_pages_sub 3) ex2.

Lemma ex1_inv : inv None ex1 /\ forall q, ~ is_free ex1 q.
Proof.
  apply (buddy_init_inv ex0); [done| | |done|done].
  - intros q. split; [by intros [pg [? _]%array_lookup]|].
    intros Hq. eexists. by apply array_lookup.
  - intros q pg [_ ->]%array_lookup. done.
Qed.

Lemma ex1_unusable z q : ~ usable ex1 z q.
Proof. by intros (pg & [_ ->]%array_lookup & _ & Hr). Qed.

Lemma ex1_reserved q : 3 <= q < 3 + 17 -> exists pg, pages ex1 !! q = Some pg /\ PageReserved pg = true.
Proof. intros Hq. eexists. split; [apply array_lookup; split; [lia|done]|done]. Qed.

Lemma ex2_ok :
  buddy_init_memmap 3 17 ex1 = Ret (tt, ex2) /\ inv None ex2 /\ zones ex2 !! 0 = Some 3 /\
  forall q, is_free ex2 q <-> 3 <= q < 20.
Proof.
  destruct ex1_inv as [I Hnf].
  destruct (init_memmap_ok ex1 3 17 I) as (s' & Hrun & I' & Hz & _ & Hf); [lia|done| | |].
  - intros z q Hu. by apply ex1_unusable in Hu.
  - apply ex1_reserved.
  - assert (ex2 = s') as -> by (unfold ex2, run_state; by rewrite Hrun).
    split_and!; try done. intros q. rewrite Hf. pose proof (Hnf q). intuition lia.
Qed.

Lemma ex3_ok : inv None ex3 /\ zones ex3 !! 0 = Some 3 /\ held ex3 0 3 8.
Proof.
  destruct ex2_ok as (_ & I2 & Hz & _).
  destruct (alloc_sub_spec ex2 3 I2) as [(p & s' & Hrun & I3 & F & Hfit & _ & Hnf)|[Hrun _]]; [done| |].
  - assert (p = 3 /\ ex3 = s') as [-> ->].
    { unfold ex3, run_state. rewrite Hrun. split; [|done].
      apply (f_equal (fun r => match r with Ret (a, _) => a | _ => None end)) in Hrun.
      vm_compute in Hrun. congruence. }
    assert (zones s' !! 0 = Some 3) as Hz' by (by rewrite (f_zones _ _ F)).
    split_and!; [done|done|]. intros q Hq. split; [|by apply Hnf].
    destruct Hfit as (_ & z & b & Hzb & _ & _ & Hu).
    assert (z = 0) as <-; [|by apply Hu].
    assert (usable ex2 z 3) as (pg & Hpg & Hzn & _) by (apply F, Hu; unfold covers; lia).
    assert (pages ex2 !! 3 = Some (mk_page 0 2 4 0)) as E by (by vm_compute).
    assert (pg = mk_page 0 2 4 0) as -> by congruence. by rewrite <- Hzn.
  - apply (f_equal (fun r => match r with Ret (a, _) => a | _ => None end)) in Hrun.
    vm_compute in Hrun. done.
Qed.

Lemma buddy_nr_free_pages_count_witness :
  exists l, (forall q, q ∈ l <-> is_free ex2 q) /\ Z.of_nat (length l) = 17.
Proof.
  destruct ex2_ok as (_ & I & _).
  destruct (buddy_nr_free_pages_count ex2 I) as (l & _ & Hl & Hc).
  exists l. split; [exact Hl|]. rewrite <- Hc. vm_compute. reflexivity.
Defined.

Lemma buddy_free_pages_spec_witness :
  exists s', buddy_free_pages 3 8 ex3 = Ret (tt, s') /\ buddy_nr_free_pages s' = 17.
Proof.
  destruct ex3_ok as (I & Hz & Hh).
  destruct (buddy_free_pages_spec ex3 0 3 3 8 I Hz) as (s' & H1 & _ & _ & H2); [lia|lia|exact Hh|].
  exists s'. split; [exact H1|]. rewrite H2. vm_compute. reflexivity.
Defined.

Lemma buddy_alloc_pages_spec_witness :
  exists order, 6 <= 2 ^ order /\
    (exists s', buddy_alloc_pages 6 ex2 = Ret (Some 3, s') /\ buddy_nr_free_pages s' = 11).
Proof.
  destruct ex2_ok as (_ & I & _).
  destruct (buddy_alloc_pages_spec ex2 6 I) as (o & _ & Hle & _ & [H|[H _]]).
  - split; [lia|]. vm_compute. discriminate.
  - exists o. split; [exact Hle|]. destruct H as (p & s' & z & b & Hrun & _ & _ & _ & _ & _ & _ & Hc).
    exists s'. assert (p = 3) as ->.
    { apply (f_equal (fun r => match r with Ret (a, _) => a | _ => None end)) in Hrun.
      vm_compute in Hrun. congruence. }
    split; [exact Hrun|]. rewrite Hc. vm_compute. reflexivity.
  - apply (f_equal (fun r => match r with Ret (a, _) => a | _ => None end)) in H.
    vm_compute in H. discriminate H.
Defined.

Lemma ex2_usable q : 3 <= q < 20 -> usable ex2 0 q.
Proof.
  intros Hq. assert (q ∈ seqZ 3 17) as Hin by (apply elem_of_seqZ; lia).
  revert q Hin Hq. apply (Forall_forall (fun q => 3 <= q < 20 -> usable ex2 0 q)).
  repeat constructor; intros _; eexists; (split; [vm_compute; reflexivity|done]).
Qed.

Lemma buddy_alloc_no_fragmentation_witness :
  exists p' s', buddy_alloc_pages 16 ex2 = Ret (Some p', s').
Proof.
  destruct ex2_ok as (_ & I & Hz & Hf).
  apply (buddy_alloc_no_fragmentation ex2 4 3 16 I).
  - split; [unfold MAX_ORDER; lia|]. exists 0, 3.
    split; [exact Hz|]. split; [lia|]. split; [reflexivity|].
    intros q Hq. apply ex2_usable. unfold covers in Hq. lia.
  - intros q Hq. apply Hf. unfold covers in Hq. lia.
  - lia.
Defined.

Lemma buddy_init_memmap_spec_witness :
  exists s', buddy_init_memmap 3 17 ex1 = Ret (tt, s') /\ buddy_nr_free_pages s' = 17.
Proof.
  destruct ex1_inv as [I _].
  destruct (buddy_init_memmap_spec ex1 3 17 I) as (s' & Hrun & _ & _ & _ & _ & Hc).
  - lia.
  - unfold MAX_ZONE_NUM. cbn. lia.
  - intros z q Hu. destruct (ex1_unusable z q Hu).
  - apply ex1_reserved.
  - exists s'. split; [exact Hrun|]. rewrite Hc. vm_compute. reflexivity.
Defined.

End BuddyInv.
