(* ===== verification/Kern.v ===== *)
(** * Kernel objects shared by the scheduler and the synchronisation code

    One state record holds what the code of kern/schedule and kern/sync reaches
    through pointers: processes, run queues, timers and wait queues, each named by
    its address.  The intrusive links ([run_link], [timer_link], [wait_link]) are
    membership in the corresponding lists (see [DList]): [list_empty(&x->link)]
    holds when [x] is on none, and [list_del_init] takes it off the one it is on. *)

From S2P Require Import Prelude.
Open Scope Z_scope.

Module Kern.

(** [enum proc_state] of kern/process/proc.h. *)
Inductive proc_state := PROC_UNINIT | PROC_SLEEPING | PROC_RUNNABLE | PROC_ZOMBIE.

#[export] Instance proc_state_eq_dec : EqDecision proc_state.
Proof. solve_decision. Defined.

Definition is_state (a b : proc_state) : bool := bool_decide (a = b).

(** The fields of [struct proc_struct] the scheduler and kern/sync use. *)
Record proc := mk_proc {
  pstate : proc_state;
  pid : Z;
  runs : Z;
  need_resched : bool;
  wait_state : Z;
  prq : option Z;
  time_slice : Z;
  event : Z;
  psem_queue : option Z
}.

Definition set_pstate (x : proc_state) (p : proc) : proc :=
  mk_proc x (pid p) (runs p) (need_resched p) (wait_state p) (prq p) (time_slice p) (event p) (psem_queue p).
Definition set_runs (x : Z) (p : proc) : proc :=
  mk_proc (pstate p) (pid p) x (need_resched p) (wait_state p) (prq p) (time_slice p) (event p) (psem_queue p).
Definition set_need_resched (x : bool) (p : proc) : proc :=
  mk_proc (pstate p) (pid p) (runs p) x (wait_state p) (prq p) (time_slice p) (event p) (psem_queue p).
Definition set_wait_state (x : Z) (p : proc) : proc :=
  mk_proc (pstate p) (pid p) (runs p) (need_resched p) x (prq p) (time_slice p) (event p) (psem_queue p).
Definition set_prq (x : option Z) (p : proc) : proc :=
  mk_proc (pstate p) (pid p) (runs p) (need_resched p) (wait_state p) x (time_slice p) (event p) (psem_queue p).
Definition set_time_slice (x : Z) (p : proc) : proc :=
  mk_proc (pstate p) (pid p) (runs p) (need_resched p) (wait_state p) (prq p) x (event p) (psem_queue p).
Definition set_event (x : Z) (p : proc) : proc :=
  mk_proc (pstate p) (pid p) (runs p) (need_resched p) (wait_state p) (prq p) (time_slice p) x (psem_queue p).

(** [struct run_queue]. *)
Record run_queue := mk_rq { run_list : list Z; proc_num : Z; max_time_slice : Z }.

(** [timer_t]. *)
Record timer := mk_timer { expires : Z; tproc : option Z }.

(** The address of a [wait_queue_t], which is always a field of another object:
    which field, and the object's address. *)
Definition wq : Type := Z * Z.
Definition sem_wait_queue (sem : Z) : wq := (0, sem).
Definition event_wait_queue (proc : Z) : wq := (1, proc).
Definition mbox_senders (mbox : Z) : wq := (2, mbox).
Definition mbox_receivers (mbox : Z) : wq := (3, mbox).

(** [wait_t]: the process that waits, why it was woken, and the queue. *)
Record wait := mk_wait { wproc : option Z; wakeup_flags : Z; wait_queue : option wq }.

(** [semaphore_t]; [sem_undo_t]; [sem_queue_t], whose first field, the semaphore
    that guards it, has the same address. *)
Record semaphore := mk_sem { value : Z; valid : bool; count : Z }.
Record sem_undo := mk_semu { sem : Z }.
Record sem_queue := mk_semq { sq_count : Z; semu_list : list Z }.

(** The semaphores and their undo lists, with the answers [kmalloc] will give to
    the calls to come (none left: [NULL]). *)
Record ipc_state := mk_ipc {
  sems : gmap Z semaphore;
  semus : gmap Z sem_undo;
  semqs : gmap Z sem_queue;
  kmallocs : list (option Z)
}.

(** The wait states of kern/process/proc.h. *)
Definition WT_INTERRUPTED : Z := 0x80000000.
Definition WT_CHILD : Z := Z.lor 0x00000001 WT_INTERRUPTED.
Definition WT_TIMER : Z := Z.lor 0x00000002 WT_INTERRUPTED.
Definition WT_KSWAPD : Z := 0x00000003.
Definition WT_KBD : Z := Z.lor 0x00000004 WT_INTERRUPTED.
Definition WT_KSEM : Z := 0x00000100.
Definition WT_USEM : Z := Z.lor 0x00000101 WT_INTERRUPTED.
Definition WT_EVENT_SEND : Z := Z.lor 0x00000110 WT_INTERRUPTED.
Definition WT_EVENT_RECV : Z := Z.lor 0x00000111 WT_INTERRUPTED.
Definition WT_MBOX_SEND : Z := Z.lor 0x00000120 WT_INTERRUPTED.
Definition WT_MBOX_RECV : Z := Z.lor 0x00000121 WT_INTERRUPTED.
Definition WT_PIPE : Z := Z.lor 0x00000200 WT_INTERRUPTED.

Record kstate := mk_kstate {
  procs : gmap Z proc;
  current : Z;
  idleproc : Z;
  rqs : gmap Z run_queue;
  rq_ring : list Z;
  timers : gmap Z timer;
  timer_list : list Z;
  waits : gmap Z wait;
  wqueues : gmap wq (list Z);
  ticks : Z;
  ipc : ipc_state
}.

Definition upd_procs (f : gmap Z proc -> gmap Z proc) (s : kstate) : kstate :=
  mk_kstate (f (procs s)) (current s) (idleproc s) (rqs s) (rq_ring s) (timers s)
    (timer_list s) (waits s) (wqueues s) (ticks s) (ipc s).
Definition upd_current (c : Z) (s : kstate) : kstate :=
  mk_kstate (procs s) c (idleproc s) (rqs s) (rq_ring s) (timers s)
    (timer_list s) (waits s) (wqueues s) (ticks s) (ipc s).
Definition upd_rqs (f : gmap Z run_queue -> gmap Z run_queue) (s : kstate) : kstate :=
  mk_kstate (procs s) (current s) (idleproc s) (f (rqs s)) (rq_ring s) (timers s)
    (timer_list s) (waits s) (wqueues s) (ticks s) (ipc s).
Definition upd_ring (f : list Z -> list Z) (s : kstate) : kstate :=
  mk_kstate (procs s) (current s) (idleproc s) (rqs s) (f (rq_ring s)) (timers s)
    (timer_list s) (waits s) (wqueues s) (ticks s) (ipc s).
Definition upd_timers (f : gmap Z timer -> gmap Z timer) (s : kstate) : kstate :=
  mk_kstate (procs s) (current s) (idleproc s) (rqs s) (rq_ring s) (f (timers s))
    (timer_list s) (waits s) (wqueues s) (ticks s) (ipc s).
Definition upd_timer_list (f : list Z -> list Z) (s : kstate) : kstate :=
  mk_kstate (procs s) (current s) (idleproc s) (rqs s) (rq_ring s) (timers s)
    (f (timer_list s)) (waits s) (wqueues s) (ticks s) (ipc s).
Definition upd_waits (f : gmap Z wait -> gmap Z wait) (s : kstate) : kstate :=
  mk_kstate (procs s) (current s) (idleproc s) (rqs s) (rq_ring s) (timers s)
    (timer_list s) (f (waits s)) (wqueues s) (ticks s) (ipc s).
Definition upd_wqueues (f : gmap wq (list Z) -> gmap wq (list Z)) (s : kstate) : kstate :=
  mk_kstate (procs s) (current s) (idleproc s) (rqs s) (rq_ring s) (timers s)
    (timer_list s) (waits s) (f (wqueues s)) (ticks s) (ipc s).

Definition upd_ipc (f : ipc_state -> ipc_state) (s : kstate) : kstate :=
  mk_kstate (procs s) (current s) (idleproc s) (rqs s) (rq_ring s) (timers s)
    (timer_list s) (waits s) (wqueues s) (ticks s) (f (ipc s)).

Definition upd_sems (f : gmap Z semaphore -> gmap Z semaphore) : kstate -> kstate :=
  upd_ipc (fun x => mk_ipc (f (sems x)) (semus x) (semqs x) (kmallocs x)).
Definition upd_semus (f : gmap Z sem_undo -> gmap Z sem_undo) : kstate -> kstate :=
  upd_ipc (fun x => mk_ipc (sems x) (f (semus x)) (semqs x) (kmallocs x)).
Definition upd_semqs (f : gmap Z sem_queue -> gmap Z sem_queue) : kstate -> kstate :=
  upd_ipc (fun x => mk_ipc (sems x) (semus x) (f (semqs x)) (kmallocs x)).

(** ** Field access *)

Definition get_proc (p : Z) : M kstate proc := s <- get ;; deref (procs s !! p).
Definition update_proc (f : proc -> proc) (p : Z) : M kstate unit :=
  _ <- get_proc p ;; modify (upd_procs (alter f p)).

Definition get_rq (q : Z) : M kstate run_queue := s <- get ;; deref (rqs s !! q).
Definition update_rq (f : run_queue -> run_queue) (q : Z) : M kstate unit :=
  _ <- get_rq q ;; modify (upd_rqs (alter f q)).

Definition get_timer (t : Z) : M kstate timer := s <- get ;; deref (timers s !! t).
Definition update_timer (f : timer -> timer) (t : Z) : M kstate unit :=
  _ <- get_timer t ;; modify (upd_timers (alter f t)).

Definition get_wait (w : Z) : M kstate wait := s <- get ;; deref (waits s !! w).
Definition update_wait (f : wait -> wait) (w : Z) : M kstate unit :=
  _ <- get_wait w ;; modify (upd_waits (alter f w)).

Definition get_sem (a : Z) : M kstate semaphore := s <- get ;; deref (sems (ipc s) !! a).
Definition update_sem (f : semaphore -> semaphore) (a : Z) : M kstate unit :=
  _ <- get_sem a ;; modify (upd_sems (alter f a)).

Definition get_semu (a : Z) : M kstate sem_undo := s <- get ;; deref (semus (ipc s) !! a).
Definition get_semq (a : Z) : M kstate sem_queue := s <- get ;; deref (semqs (ipc s) !! a).
Definition update_semq (f : sem_queue -> sem_queue) (a : Z) : M kstate unit :=
  _ <- get_semq a ;; modify (upd_semqs (alter f a)).

(** [kmalloc]: the next answer of the allocator. *)
Definition kmalloc : M kstate (option Z) :=
  s <- get ;;
  modify (upd_ipc (fun x => mk_ipc (sems x) (semus x) (semqs x) (tail (kmallocs x)))) ;;
  ret (default None (List.head (kmallocs (ipc s)))).

Definition get_wqueue (q : wq) : M kstate (list Z) := s <- get ;; deref (wqueues s !! q).
Definition update_wqueue (f : list Z -> list Z) (q : wq) : M kstate unit :=
  _ <- get_wqueue q ;; modify (upd_wqueues (alter f q)).

(** The entry after [q] in a ring, and whether a name is on one of the lists. *)
Fixpoint next_in (l : list Z) (first q : Z) : option Z :=
  match l with
  | [] => None
  | x :: l' => if x =? q then Some (List.hd first l') else next_in l' first q
  end.

Definition ring_next (l : list Z) (q : Z) : option Z :=
  match l with [] => None | first :: _ => next_in l first q end.

(** [list_next(link)] and [list_prev(link)] when they are not the list's head. *)
Fixpoint entry_after (l : list Z) (x : Z) : option Z :=
  match l with
  | [] => None
  | y :: l' => if y =? x then List.head l' else entry_after l' x
  end.

Definition entry_before (l : list Z) (x : Z) : option Z := entry_after (rev l) x.

Definition remove (x : Z) (l : list Z) : list Z := base.filter (fun y => y <> x) l.

(** Facts about [remove]. *)
Lemma elem_of_remove x y l : y ∈ remove x l <-> y <> x /\ y ∈ l.
Proof. unfold remove. by rewrite list_elem_of_filter. Qed.

Lemma remove_notin x l : x ∉ l -> remove x l = l.
Proof.
  unfold remove. induction l as [|y l IH]; intros H; [done|].
  rewrite filter_cons_True, IH by set_solver. done.
Qed.

Lemma remove_app x l1 l2 : remove x (l1 ++ l2) = remove x l1 ++ remove x l2.
Proof. apply filter_app. Qed.

Lemma remove_middle x l1 l2 : x ∉ l1 -> x ∉ l2 -> remove x (l1 ++ x :: l2) = l1 ++ l2.
Proof.
  intros H1 H2. rewrite remove_app, (remove_notin x l1) by done. f_equal.
  unfold remove. rewrite filter_cons_False by tauto. by apply remove_notin.
Qed.

(** ** What the accessors do *)

Lemma get_proc_ok s p x : procs s !! p = Some x -> get_proc p s = Ret (x, s).
Proof. intros H. unfold get_proc. mrun. by rewrite H. Qed.

Lemma update_proc_ok s p f :
  is_Some (procs s !! p) -> update_proc f p s = Ret (tt, upd_procs (alter f p) s).
Proof. intros [x H]. unfold update_proc. mstep get_proc_ok; [|exact H]. done. Qed.

Lemma get_rq_ok s q x : rqs s !! q = Some x -> get_rq q s = Ret (x, s).
Proof. intros H. unfold get_rq. mrun. by rewrite H. Qed.

Lemma update_rq_ok s q f :
  is_Some (rqs s !! q) -> update_rq f q s = Ret (tt, upd_rqs (alter f q) s).
Proof. intros [x H]. unfold update_rq. mstep get_rq_ok; [|exact H]. done. Qed.

Lemma get_timer_ok s t x : timers s !! t = Some x -> get_timer t s = Ret (x, s).
Proof. intros H. unfold get_timer. mrun. by rewrite H. Qed.

Lemma update_timer_ok s t f :
  is_Some (timers s !! t) -> update_timer f t s = Ret (tt, upd_timers (alter f t) s).
Proof. intros [x H]. unfold update_timer. mstep get_timer_ok; [|exact H]. done. Qed.

Lemma get_wait_ok s w x : waits s !! w = Some x -> get_wait w s = Ret (x, s).
Proof. intros H. unfold get_wait. mrun. by rewrite H. Qed.

Lemma update_wait_ok s w f :
  is_Some (waits s !! w) -> update_wait f w s = Ret (tt, upd_waits (alter f w) s).
Proof. intros [x H]. unfold update_wait. mstep get_wait_ok; [|exact H]. done. Qed.

Lemma get_sem_ok s a x : sems (ipc s) !! a = Some x -> get_sem a s = Ret (x, s).
Proof. intros H. unfold get_sem. mrun. by rewrite H. Qed.

Lemma update_sem_ok s a f :
  is_Some (sems (ipc s) !! a) -> update_sem f a s = Ret (tt, upd_sems (alter f a) s).
Proof. intros [x H]. unfold update_sem. mstep get_sem_ok; [|exact H]. done. Qed.

Lemma get_semu_ok s a x : semus (ipc s) !! a = Some x -> get_semu a s = Ret (x, s).
Proof. intros H. unfold get_semu. mrun. by rewrite H. Qed.

Lemma get_semq_ok s a x : semqs (ipc s) !! a = Some x -> get_semq a s = Ret (x, s).
Proof. intros H. unfold get_semq. mrun. by rewrite H. Qed.

Lemma update_semq_ok s a f :
  is_Some (semqs (ipc s) !! a) -> update_semq f a s = Ret (tt, upd_semqs (alter f a) s).
Proof. intros [x H]. unfold update_semq. mstep get_semq_ok; [|exact H]. done. Qed.

Lemma get_wqueue_ok s q x : wqueues s !! q = Some x -> get_wqueue q s = Ret (x, s).
Proof. intros H. unfold get_wqueue. mrun. by rewrite H. Qed.

Lemma update_wqueue_ok s q f :
  is_Some (wqueues s !! q) -> update_wqueue f q s = Ret (tt, upd_wqueues (alter f q) s).
Proof. intros [x H]. unfold update_wqueue. mstep get_wqueue_ok; [|exact H]. done. Qed.

End Kern.
