(* ===== verification/Sched.v ===== *)
(** * The scheduler (src/code/kern/schedule)

    [sched_class] is the record of function pointers of sched.h; [RR_sched_class]
    and [MLFQ_sched_class] are the two policies; the core of sched.c calls the
    policy it is given.  [warn] only prints and is the identity here; interrupt
    masking makes every routine atomic. *)

From S2P Require Import Prelude Kern.
Import Kern.
Open Scope Z_scope.

Module Sched.

(** Is the process on some run queue: [!list_empty(&(proc->run_link))]. *)
Definition queued (s : kstate) (p : Z) : bool :=
  existsb (fun q => bool_decide (p ∈ run_list q.2)) (map_to_list (rqs s)).

(** ** The scheduling classes *)

Record sched_class := mk_class {
  sc_init : Z -> M kstate unit;
  sc_enqueue : Z -> Z -> M kstate unit;
  sc_dequeue : Z -> Z -> M kstate unit;
  sc_pick_next : Z -> M kstate (option Z);
  sc_proc_tick : Z -> Z -> M kstate unit
}.

(** *** Round robin (sched_RR.c) *)

Definition RR_init (rq : Z) : M kstate unit :=
  update_rq (fun q => mk_rq [] 0 (max_time_slice q)) rq.

Definition RR_enqueue (rq p : Z) : M kstate unit :=
  s <- get ;;
  assert (negb (queued s p)) ;;
  update_rq (fun q => mk_rq (run_list q ++ [p]) (proc_num q) (max_time_slice q)) rq ;;
  q <- get_rq rq ;;
  pr <- get_proc p ;;
  (if (time_slice pr =? 0) || (max_time_slice q <? time_slice pr)
   then update_proc (set_time_slice (max_time_slice q)) p else ret tt) ;;
  update_proc (set_prq (Some rq)) p ;;
  update_rq (fun q => mk_rq (run_list q) (u32 (proc_num q + 1)) (max_time_slice q)) rq.

Definition RR_dequeue (rq p : Z) : M kstate unit :=
  s <- get ;;
  pr <- get_proc p ;;
  assert (queued s p && bool_decide (prq pr = Some rq)) ;;
  modify (upd_rqs (fmap (fun q => mk_rq (remove p (run_list q)) (proc_num q) (max_time_slice q)))) ;;
  update_rq (fun q => mk_rq (run_list q) (u32 (proc_num q - 1)) (max_time_slice q)) rq.

Definition RR_pick_next (rq : Z) : M kstate (option Z) :=
  q <- get_rq rq ;; ret (List.head (run_list q)).

Definition RR_proc_tick (rq p : Z) : M kstate unit :=
  pr <- get_proc p ;;
  (if 0 <? time_slice pr then update_proc (set_time_slice (time_slice pr - 1)) p else ret tt) ;;
  pr <- get_proc p ;;
  if time_slice pr =? 0 then update_proc (set_need_resched true) p else ret tt.

Definition RR_sched_class : sched_class :=
  mk_class RR_init RR_enqueue RR_dequeue RR_pick_next RR_proc_tick.

(** *** Multi-level feedback queues (sched_MLFQ.c): RR on each queue of the ring *)

(** [do { init(le); le = list_next(le); } while (le != list)]. *)
Fixpoint MLFQ_init_loop (fuel : nat) (list le : Z) : M kstate unit :=
  match fuel with
  | O => out_of_fuel
  | S fuel =>
      sc_init RR_sched_class le ;;
      s <- get ;;
      le <- deref (ring_next (rq_ring s) le) ;;
      if le =? list then ret tt else MLFQ_init_loop fuel list le
  end.

Definition MLFQ_init (rq : Z) : M kstate unit :=
  s <- get ;; MLFQ_init_loop (length (rq_ring s)) rq rq.

Definition MLFQ_enqueue (rq p : Z) : M kstate unit :=
  s <- get ;;
  assert (negb (queued s p)) ;;
  pr <- get_proc p ;;
  nrq <- match prq pr with
         | Some prq =>
             if time_slice pr =? 0 then
               nrq <- deref (ring_next (rq_ring s) prq) ;;
               ret (if nrq =? rq then prq else nrq)
             else ret rq
         | None => ret rq
         end ;;
  sc_enqueue RR_sched_class nrq p.

Definition MLFQ_dequeue (rq p : Z) : M kstate unit :=
  s <- get ;;
  assert (queued s p) ;;
  pr <- get_proc p ;;
  prq <- deref (prq pr) ;;
  sc_dequeue RR_sched_class prq p.

Fixpoint MLFQ_pick_loop (fuel : nat) (list le : Z) : M kstate (option Z) :=
  match fuel with
  | O => out_of_fuel
  | S fuel =>
      next <- sc_pick_next RR_sched_class le ;;
      match next with
      | Some p => ret (Some p)
      | None =>
          s <- get ;;
          le <- deref (ring_next (rq_ring s) le) ;;
          if le =? list then ret None else MLFQ_pick_loop fuel list le
      end
  end.

Definition MLFQ_pick_next (rq : Z) : M kstate (option Z) :=
  s <- get ;; MLFQ_pick_loop (length (rq_ring s)) rq rq.

(** [RR_proc_tick] ignores its queue, so the [proc->rq] passed, possibly [NULL],
    is not dereferenced. *)
Definition MLFQ_proc_tick (rq p : Z) : M kstate unit :=
  pr <- get_proc p ;; sc_proc_tick RR_sched_class (default 0 (prq pr)) p.

Definition MLFQ_sched_class : sched_class :=
  mk_class MLFQ_init MLFQ_enqueue MLFQ_dequeue MLFQ_pick_next MLFQ_proc_tick.

(** ** The core (sched.c), for the run queue [rq = &__rq[0]] *)

Definition rq0 : Z := 0.

Section Core.
Variable sched_class : sched_class.

Definition sched_class_enqueue (p : Z) : M kstate unit :=
  s <- get ;; if negb (p =? idleproc s) then sc_enqueue sched_class rq0 p else ret tt.

Definition sched_class_dequeue (p : Z) : M kstate unit := sc_dequeue sched_class rq0 p.

Definition sched_class_pick_next : M kstate (option Z) := sc_pick_next sched_class rq0.

Definition sched_class_proc_tick (p : Z) : M kstate unit :=
  s <- get ;;
  if negb (p =? idleproc s) then sc_proc_tick sched_class rq0 p
  else update_proc (set_need_resched true) p.

Definition wakeup_proc (p : Z) : M kstate unit :=
  pr <- get_proc p ;;
  assert (negb (is_state (pstate pr) PROC_ZOMBIE)) ;;
  if negb (is_state (pstate pr) PROC_RUNNABLE) then
    update_proc (set_pstate PROC_RUNNABLE) p ;;
    update_proc (set_wait_state 0) p ;;
    s <- get ;;
    if negb (p =? current s) then sched_class_enqueue p else ret tt
  else ret tt.

(** [proc_run] (kern/process/proc.c): the switch of stacks and page tables is the
    change of [current]. *)
Definition proc_run (p : Z) : M kstate unit :=
  s <- get ;; if negb (p =? current s) then modify (upd_current p) else ret tt.

Definition schedule : M kstate unit :=
  s <- get ;;
  update_proc (set_need_resched false) (current s) ;;
  pr <- get_proc (current s) ;;
  (if is_state (pstate pr) PROC_RUNNABLE then sched_class_enqueue (current s) else ret tt) ;;
  next <- sched_class_pick_next ;;
  (match next with Some n => sched_class_dequeue n | None => ret tt end) ;;
  let next := match next with Some n => n | None => idleproc s end in
  pr <- get_proc next ;;
  update_proc (set_runs (s32 (runs pr + 1))) next ;;
  if negb (next =? current s) then proc_run next else ret tt.

(** *** Timers: a delta list *)

(** [list_init] on the link of a pending timer would corrupt the list: no code
    does it, and the model stops there. *)
Definition timer_init (t p expires : Z) : M kstate unit :=
  s <- get ;;
  assert (bool_decide (t ∉ timer_list s)) ;;
  modify (upd_timers (<[t := mk_timer (u32 expires) (Some p)]>)).

(** [while (le != &timer_list)] of [add_timer]: the entries already passed,
    the ones to come; the new timer goes between them. *)
Fixpoint add_timer_loop (t : Z) (before after : list Z) : M kstate unit :=
  match after with
  | [] => modify (upd_timer_list (fun _ => before ++ [t]))
  | le :: rest =>
      tm <- get_timer t ;;
      next <- get_timer le ;;
      if expires tm <? expires next then
        update_timer (fun n => mk_timer (u32 (expires n - expires tm)) (tproc n)) le ;;
        modify (upd_timer_list (fun _ => before ++ t :: le :: rest))
      else
        update_timer (fun m => mk_timer (u32 (expires m - expires next)) (tproc m)) t ;;
        add_timer_loop t (before ++ [le]) rest
  end.

Definition add_timer (t : Z) : M kstate unit :=
  tm <- get_timer t ;;
  assert ((0 <? expires tm) && bool_decide (tproc tm <> None)) ;;
  s <- get ;;
  assert (bool_decide (t ∉ timer_list s)) ;;
  add_timer_loop t [] (timer_list s).

Definition del_timer (t : Z) : M kstate unit :=
  s <- get ;;
  if bool_decide (t ∈ timer_list s) then
    tm <- get_timer t ;;
    (if negb (expires tm =? 0) then
       match entry_after (timer_list s) t with
       | Some next =>
           update_timer (fun n => mk_timer (u32 (expires n + expires tm)) (tproc n)) next
       | None => ret tt
       end
     else ret tt) ;;
    modify (upd_timer_list (remove t))
  else ret tt.

(** [while (timer->expires == 0)]: [timer] is [t]. *)
Fixpoint run_timer_loop (fuel : nat) (t : Z) : M kstate unit :=
  tm <- get_timer t ;;
  if expires tm =? 0 then
    match fuel with
    | O => out_of_fuel
    | S fuel =>
        s <- get ;;
        let le := entry_after (timer_list s) t in
        p <- deref (tproc tm) ;;
        pr <- get_proc p ;;
        (if negb (wait_state pr =? 0)
         then assert (negb (Z.land (wait_state pr) WT_INTERRUPTED =? 0)) else ret tt) ;;
        wakeup_proc p ;;
        del_timer t ;;
        match le with None => ret tt | Some t' => run_timer_loop fuel t' end
    end
  else ret tt.

Definition run_timer_list : M kstate unit :=
  s <- get ;;
  (match timer_list s with
   | [] => ret tt
   | t :: _ =>
       tm <- get_timer t ;;
       assert (negb (expires tm =? 0)) ;;
       update_timer (fun m => mk_timer (u32 (expires m - 1)) (tproc m)) t ;;
       run_timer_loop (length (timer_list s)) t
   end) ;;
  s <- get ;;
  sched_class_proc_tick (current s).

End Core.

(** [sched_init]: four queues of doubling time slices, linked in a ring, all
    empty, and no timer. *)
Definition sched_init : M kstate unit :=
  modify (upd_timer_list (fun _ => [])) ;;
  modify (upd_ring (fun _ => [rq0])) ;;
  update_rq (fun q => mk_rq (run_list q) (proc_num q) 8) rq0 ;;
  q0 <- get_rq rq0 ;;
  foldr (fun i k =>
      modify (upd_ring (fun r => r ++ [i])) ;;
      update_rq (fun q => mk_rq (run_list q) (proc_num q) (max_time_slice q0 * 2 ^ i)) i ;; k)
    (sc_init MLFQ_sched_class rq0) [1; 2; 3].

End Sched.
