(* ===== verification/SchedInv.v ===== *)
(** * The scheduler core against an abstract policy

    [SchedPolicy] states what sched.c relies on from a [sched_class]; the theorems
    of this file hold for every policy that satisfies it, and [SchedPolicies] shows that
    the one the kernel installs does. *)

From S2P Require Import Prelude Kern Sched.
Import Kern Sched.
Open Scope Z_scope.

Module SchedInv.

(** ** What a policy may touch *)

(** The part of a process a policy leaves alone. *)
Definition core_of (p : proc) : proc_state * Z * Z * Z * Z * option Z :=
  (pstate p, pid p, runs p, wait_state p, event p, psem_queue p).

(** The part of a process only the policy touches. *)
Definition slot_of (p : proc) : option Z * Z := (prq p, time_slice p).

(** Everything but the processes and the run queues. *)
Record rest_same (s s' : kstate) : Prop := {
  rs_current : current s' = current s;
  rs_idle : idleproc s' = idleproc s;
  rs_ring : rq_ring s' = rq_ring s;
  rs_timers : timers s' = timers s;
  rs_tlist : timer_list s' = timer_list s;
  rs_waits : waits s' = waits s;
  rs_wqueues : wqueues s' = wqueues s;
  rs_ticks : ticks s' = ticks s;
  rs_ipc : ipc s' = ipc s
}.

#[export] Instance rest_same_preorder : PreOrder rest_same.
Proof.
  split; [by constructor|]. intros s1 s2 s3 [] []. constructor; congruence.
Qed.

Record same_core (s s' : kstate) : Prop := {
  sc_rest : rest_same s s';
  sc_procs : forall q, core_of <$> procs s' !! q = core_of <$> procs s !! q
}.

#[export] Instance same_core_preorder : PreOrder same_core.
Proof.
  split; [by constructor|]. intros s1 s2 s3 [R1 P1] [R2 P2].
  constructor; [by transitivity s2|]. intros q. by rewrite P2.
Qed.

(** Run queues and slots are untouched. *)
Record same_queues (s s' : kstate) : Prop := {
  sq_rqs : rqs s' = rqs s;
  sq_ring : rq_ring s' = rq_ring s;
  sq_procs : forall q, slot_of <$> procs s' !! q = slot_of <$> procs s !! q
}.

Lemma same_queues_queued s s' q : same_queues s s' -> queued s' q = queued s q.
Proof. intros []. unfold queued. by rewrite sq_rqs0. Qed.

Lemma queued_true s p :
  queued s p = true <-> exists i q, rqs s !! i = Some q /\ p ∈ run_list q.
Proof.
  unfold queued. rewrite existsb_exists. split.
  - intros ([i q] & Hin%list_elem_of_In & Hp%bool_decide_eq_true).
    apply elem_of_map_to_list in Hin. eauto.
  - intros (i & q & Hq & Hp). exists (i, q). split; [|by apply bool_decide_eq_true].
    by apply list_elem_of_In, elem_of_map_to_list.
Qed.

(** ** The interface *)

Class SchedPolicy (sc : sched_class) (I : kstate -> Prop) : Prop := {
  sp_stable : forall s s', same_queues s s' -> I s -> I s';
  sp_enqueue : forall s p, I s -> is_Some (procs s !! p) -> queued s p = false ->
    exists s', sc_enqueue sc rq0 p s = Ret (tt, s') /\ I s' /\ same_core s s' /\
      forall q, queued s' q = queued s q || (q =? p);
  sp_dequeue : forall s p, I s -> queued s p = true ->
    exists s', sc_dequeue sc rq0 p s = Ret (tt, s') /\ I s' /\ same_core s s' /\
      forall q, queued s' q = queued s q && negb (q =? p);
  sp_pick_next : forall s, I s ->
    exists o, sc_pick_next sc rq0 s = Ret (o, s) /\
      match o with Some p => queued s p = true | None => forall q, queued s q = false end;
  sp_proc_tick : forall s p, I s -> is_Some (procs s !! p) -> queued s p = false ->
    exists s', sc_proc_tick sc rq0 p s = Ret (tt, s') /\ I s' /\ same_core s s' /\
      forall q, queued s' q = queued s q;
  (** a process on no queue may come, go, or have its time slice changed *)
  sp_slot : forall s p o, I s -> queued s p = false ->
    (forall x, o = Some x -> 0 <= time_slice x /\ (prq x = None \/ prq <$> procs s !! p = Some (prq x))) ->
    I (upd_procs (partial_alter (fun _ => o) p) s);
  sp_slice : forall s p x, I s -> procs s !! p = Some x -> 0 <= time_slice x
}.

(** ** The scheduler's invariant *)

Definition proc_is (s : kstate) (p : Z) (st : proc_state) : Prop :=
  pstate <$> procs s !! p = Some st.

(** Every runnable process other than the running one and the idle one is on a
    run queue, and nothing else is: no runnable process is ever lost. *)
Record sched_inv (I : kstate -> Prop) (s : kstate) : Prop := {
  si_policy : I s;
  si_current : is_Some (procs s !! current s);
  si_idle : is_Some (procs s !! idleproc s);
  si_queued : forall p, queued s p = true ->
      proc_is s p PROC_RUNNABLE /\ p <> current s /\ p <> idleproc s;
  si_runnable : forall p, proc_is s p PROC_RUNNABLE -> p <> current s -> p <> idleproc s ->
      queued s p = true
}.

Lemma core_eq_pstate (o o' : option proc) :
  core_of <$> o' = core_of <$> o -> pstate <$> o' = pstate <$> o.
Proof. unfold core_of. destruct o, o'; cbn; congruence. Qed.

Lemma core_pstate s s' p st : same_core s s' -> proc_is s' p st <-> proc_is s p st.
Proof.
  intros C. unfold proc_is. by rewrite (core_eq_pstate _ _ (sc_procs _ _ C p)).
Qed.

Lemma core_known s s' p : same_core s s' -> is_Some (procs s' !! p) <-> is_Some (procs s !! p).
Proof.
  intros C. rewrite <- (fmap_is_Some core_of), (sc_procs _ _ C p), fmap_is_Some. done.
Qed.

(** A change of process fields other than the policy's. *)
Lemma slots_alter f p s :
  (forall x, slot_of (f x) = slot_of x) -> same_queues s (upd_procs (alter f p) s).
Proof.
  intros Hf. constructor; try done. intros q. cbn. rewrite lookup_alter.
  case_decide; [subst|done]. destruct (procs s !! q); cbn; [by rewrite Hf|done].
Qed.

Lemma proc_is_alter f p s q st :
  proc_is (upd_procs (alter f p) s) q st <->
  if decide (p = q) then exists x, procs s !! q = Some x /\ pstate (f x) = st else proc_is s q st.
Proof.
  unfold proc_is. cbn. rewrite lookup_alter. case_decide; [subst|done].
  destruct (procs s !! q); cbn; naive_solver.
Qed.

Lemma known_alter f p s q : is_Some (procs (upd_procs (alter f p) s) !! q) <-> is_Some (procs s !! q).
Proof. apply lookup_alter_is_Some. Qed.

Lemma proc_is_known s p st : proc_is s p st -> is_Some (procs s !! p).
Proof. unfold proc_is. by destruct (procs s !! p). Qed.

(** [update_proc] on a known process, in the middle of a routine. *)
Lemma rest_alter f p s : rest_same s (upd_procs (alter f p) s).
Proof. by constructor. Qed.

Lemma core_alter f p s :
  (forall x, core_of (f x) = core_of x) -> same_core s (upd_procs (alter f p) s).
Proof.
  intros Hf. constructor; [apply rest_alter|]. intros q. cbn. rewrite lookup_alter.
  case_decide; [subst|done]. destruct (procs s !! q); cbn; [by rewrite Hf|done].
Qed.

Lemma core_fmap {A} (f : proc_state * Z * Z * Z * Z * option Z -> A) s s' q :
  same_core s s' ->
  (fun x => f (core_of x)) <$> procs s' !! q = (fun x => f (core_of x)) <$> procs s !! q.
Proof. intros C. rewrite !(option_fmap_compose core_of f), (sc_procs _ _ C). done. Qed.

Section Policy.
Context {sc : sched_class} {I : kstate -> Prop} {Hsp : SchedPolicy sc I}.

(** The processes' abstract states, all but [p]'s, are the same. *)
Definition same_but (p : Z) (s s' : kstate) : Prop :=
  rest_same s s' /\ forall q, q <> p -> core_of <$> procs s' !! q = core_of <$> procs s !! q.

Lemma queued_not_runnable s p :
  sched_inv I s -> ~ proc_is s p PROC_RUNNABLE -> queued s p = false.
Proof using Type.
  intros Hi Hn. destruct (queued s p) eqn:E; [|done]. by apply (si_queued _ _ Hi) in E as [? _].
Qed.

Lemma known_same_but p s s' q :
  same_but p s s' -> q <> p -> is_Some (procs s' !! q) <-> is_Some (procs s !! q).
Proof using Type.
  intros [_ H] Hq. rewrite <- (fmap_is_Some core_of), H, fmap_is_Some by done. done.
Qed.

Lemma sched_enqueue_ok s p :
  I s -> is_Some (procs s !! p) -> queued s p = false ->
  exists s', sched_class_enqueue sc p s = Ret (tt, s') /\ I s' /\ same_core s s' /\
    forall q, queued s' q = queued s q || ((q =? p) && negb (p =? idleproc s)).
Proof using Hsp.
  intros HI Hp Hq. unfold sched_class_enqueue, get. rewrite (bind_step _ _ s s s eq_refl).
  destruct (Z.eqb_spec p (idleproc s)); cbn [negb].
  - exists s. split_and!; try done. intros q. by rewrite andb_false_r, orb_false_r.
  - destruct (sp_enqueue s p HI Hp Hq) as (s' & Hrun & HI' & C & Hq').
    exists s'. split_and!; try done. intros q. by rewrite Hq', andb_true_r.
Qed.

(** Waking [p] up: the invariant after its state became runnable and, unless it
    is running or idle, it was queued. *)
Lemma wake_inv s s' p :
  sched_inv I s -> I s' -> rest_same s s' ->
  (forall q, is_Some (procs s !! q) -> is_Some (procs s' !! q)) ->
  (forall q, proc_is s' q PROC_RUNNABLE <-> q = p \/ proc_is s q PROC_RUNNABLE) ->
  (forall q, queued s' q = queued s q ||
     ((q =? p) && negb (p =? current s) && negb (p =? idleproc s))) ->
  sched_inv I s'.
Proof using Type.
  intros Hi HI R Hk Hst Hq. constructor; [done|..].
  - rewrite (rs_current _ _ R). apply Hk, Hi.
  - rewrite (rs_idle _ _ R). apply Hk, Hi.
  - intros q. rewrite Hq, (rs_current _ _ R), (rs_idle _ _ R), Hst.
    destruct (queued s q) eqn:E; cbn [orb].
    + apply (si_queued _ _ Hi) in E. tauto.
    + repeat case_bool; cbn; try done. subst. tauto.
  - intros q. rewrite Hq, (rs_current _ _ R), (rs_idle _ _ R), Hst. intros [->|H] Hc Hid.
    + repeat case_bool; cbn; try done. apply orb_true_r.
    + by rewrite (si_runnable _ _ Hi).
Qed.

(** The state after the first two assignments of [wakeup_proc]. *)
Definition awake (p : Z) (s : kstate) : kstate :=
  upd_procs (alter (fun x => set_wait_state 0 (set_pstate PROC_RUNNABLE x)) p) s.

Lemma wake_enqueue_ok s p :
  sched_inv I s -> is_Some (procs s !! p) -> queued s p = false ->
  exists s', (if negb (p =? current s) then sched_class_enqueue sc p else ret tt) (awake p s)
      = Ret (tt, s') /\ I s' /\ same_core (awake p s) s' /\
    forall q, queued s' q = queued s q ||
      ((q =? p) && negb (p =? current s) && negb (p =? idleproc s)).
Proof using Hsp.
  intros Hi Hp Hnq.
  assert (same_queues s (awake p s)) as Q by (by apply slots_alter).
  assert (I (awake p s)) as HI by (apply (sp_stable s); [done|apply Hi]).
  destruct (Z.eqb_spec p (current s)); cbn [negb].
  - exists (awake p s). split_and!; try done. intros q.
    by rewrite (same_queues_queued s _ q Q), andb_false_r, orb_false_r.
  - destruct (sched_enqueue_ok (awake p s) p) as (s' & Hrun & HI' & C & Hq'); [done|..].
    + by apply known_alter.
    + by rewrite (same_queues_queued s _ _ Q).
    + exists s'. split_and!; try done. intros q.
      by rewrite Hq', (same_queues_queued s _ q Q), andb_true_r.
Qed.

(** What [wakeup_proc] does to a process that is neither a zombie nor runnable. *)
Lemma wakeup_proc_asleep s p pr :
  sched_inv I s -> procs s !! p = Some pr -> pstate pr <> PROC_ZOMBIE ->
  pstate pr <> PROC_RUNNABLE ->
  exists s', wakeup_proc sc p s = Ret (tt, s') /\ sched_inv I s' /\ same_core (awake p s) s'.
Proof using Hsp.
  intros Hi Hp Hz Hr. unfold wakeup_proc. mstep get_proc_ok; [|exact Hp].
  rewrite assert_true by (unfold is_state; by rewrite bool_decide_eq_false_2).
  unfold is_state. rewrite bool_decide_eq_false_2 by done. cbn [negb].
  mstep update_proc_ok; [|by rewrite Hp]. mstep update_proc_ok; [|apply known_alter; by rewrite Hp].
  replace (upd_procs _ (upd_procs _ s)) with (awake p s)
    by (unfold awake, upd_procs; cbn; by rewrite alter_alter_eq).
  unfold get. rewrite (bind_step _ _ _ (awake p s) (awake p s) eq_refl).
  change (current (awake p s)) with (current s).
  destruct (wake_enqueue_ok s p) as (s' & Hrun & HI & C & Hq); try done.
  { apply queued_not_runnable; [done|]. unfold proc_is. rewrite Hp. cbn. congruence. }
  exists s'. split_and!; try done. apply (wake_inv s s' p); try done.
  - transitivity (awake p s); [apply rest_alter|apply C].
  - intros q H. by apply (core_known _ _ q C), known_alter.
  - intros q. rewrite (core_pstate _ _ _ _ C). unfold awake. rewrite proc_is_alter.
    case_decide; [subst|naive_solver]. split; [by left|]. intros _. by exists pr.
Qed.

(** What wake-ups may do to a process. *)
Definition wake_step (x x' : proc) : Prop :=
  pid x' = pid x /\ event x' = event x /\ psem_queue x' = psem_queue x /\
  (pstate x' = pstate x /\ wait_state x' = wait_state x \/
   pstate x <> PROC_ZOMBIE /\ pstate x' = PROC_RUNNABLE /\ wait_state x' = 0).

#[export] Instance wake_step_preorder : PreOrder wake_step.
Proof using Type.
  split; [intros x; unfold wake_step; tauto|].
  intros x y z (A1 & A2 & A3 & A4) (B1 & B2 & B3 & B4). unfold wake_step. rewrite B1, B2, B3. split_and!; try done.
  destruct A4 as [[C1 C2]|(C1 & C2 & C3)], B4 as [[D1 D2]|(D1 & D2 & D3)]; [left|right|right|right]; (split_and!; congruence).
Qed.

Lemma core_wake_step s s' q x :
  core_of <$> procs s' !! q = core_of <$> procs s !! q -> procs s !! q = Some x ->
  exists x', procs s' !! q = Some x' /\ wake_step x x'.
Proof using Type.
  intros E Hx. rewrite Hx in E. apply fmap_Some in E as (x' & Hx' & E). exists x'. split; [done|].
  unfold core_of in E. injection E as ? ? ? ? ? ?. unfold wake_step. split_and!; try congruence. left. split; congruence.
Qed.

(** What a wake-up leaves alone, and what it keeps. *)
Record woken (p : Z) (s s' : kstate) : Prop := {
  wk_rest : rest_same s s';
  wk_other : forall q, q <> p -> core_of <$> procs s' !! q = core_of <$> procs s !! q;
  wk_self : proc_is s' p PROC_RUNNABLE;
  wk_wait : forall x, procs s !! p = Some x -> exists x', procs s' !! p = Some x' /\
      (wait_state x' = 0 \/ wait_state x' = wait_state x);
  wk_step : forall q x, procs s !! q = Some x -> exists x', procs s' !! q = Some x' /\ wake_step x x'
}.

Lemma wakeup_proc_woken s p x :
  sched_inv I s -> procs s !! p = Some x -> pstate x <> PROC_ZOMBIE ->
  exists s', wakeup_proc sc p s = Ret (tt, s') /\ sched_inv I s' /\ woken p s s'.
Proof using Hsp.
  intros Hi Hp Hz. destruct (decide (pstate x = PROC_RUNNABLE)) as [Hr|Hr].
  - exists s. split_and!; try done.
    + unfold wakeup_proc. mstep get_proc_ok; [|exact Hp]. unfold is_state. by rewrite Hr.
    + constructor; try done; [unfold proc_is; by rewrite Hp, <- Hr|eauto|].
      intros q y Hy. by exists y.
  - destruct (wakeup_proc_asleep s p x) as (s' & Hrun & Hi' & [R C]); try done.
    exists s'. split_and!; try done. constructor.
    + etransitivity; [apply rest_alter|exact R].
    + intros q Hq. rewrite C. cbn. by rewrite lookup_alter_ne.
    + apply (core_pstate _ _ _ _ (Build_same_core _ _ R C)), proc_is_alter.
      rewrite decide_True by done. by exists x.
    + intros y Hy. specialize (C p). cbn in C. rewrite lookup_alter_eq, Hp in C. cbn in C.
      apply fmap_Some in C as (x' & Hx' & C). exists x'. split; [done|]. left. by injection C.
    + intros q y Hy. destruct (decide (q = p)) as [->|Hq].
      * specialize (C p). cbn in C. rewrite lookup_alter_eq, Hy in C. cbn in C.
        apply fmap_Some in C as (x' & Hx' & C). exists x'. split; [done|]. rewrite Hp in Hy. injection Hy as <-.
        unfold core_of in C. cbn in C. injection C as ? ? ? ? ? ?. unfold wake_step. split_and!; try done. by right.
      * apply (core_wake_step s s' q y); [|done]. rewrite C. cbn. by rewrite lookup_alter_ne.
Qed.

(** [wakeup_proc] on a process that is not a zombie returns, makes exactly
    it runnable (leaving its time slice to the policy and clearing its wait state
    if it slept), keeps every other process as it was, and keeps the scheduler's
    invariant: the woken process is on a run queue unless it is the running or the
    idle one, so the wake-up is not lost. *)
Theorem wakeup_proc_spec s p pr :
  sched_inv I s -> procs s !! p = Some pr -> pstate pr <> PROC_ZOMBIE ->
  exists s', wakeup_proc sc p s = Ret (tt, s') /\ sched_inv I s' /\ same_but p s s' /\
    core_of <$> procs s' !! p =
      Some (PROC_RUNNABLE, pid pr, runs pr,
            if decide (pstate pr = PROC_RUNNABLE) then wait_state pr else 0, event pr, psem_queue pr).
Proof using Hsp.
  intros Hi Hp Hz. case_decide as Hr.
  - exists s. split_and!; try done; [|by rewrite Hp; unfold core_of; cbn; rewrite Hr].
    unfold wakeup_proc. mstep get_proc_ok; [|exact Hp]. unfold is_state. by rewrite Hr.
  - destruct (wakeup_proc_asleep s p pr) as (s' & Hrun & Hi' & [R C]); try done.
    exists s'. split_and!; try done.
    + split; [etransitivity; [apply rest_alter|exact R]|].
      intros q Hq. rewrite C. cbn. by rewrite lookup_alter_ne.
    + rewrite C. cbn. by rewrite lookup_alter_eq, Hp.
Qed.

(** The running process gives the CPU up: it is queued if it can still run. *)
Lemma yield_ok s :
  I s -> is_Some (procs s !! current s) -> queued s (current s) = false ->
  exists s', (pr <- get_proc (current s) ;;
      if is_state (pstate pr) PROC_RUNNABLE then sched_class_enqueue sc (current s) else ret tt) s
      = Ret (tt, s') /\ I s' /\ same_core s s' /\
    forall q, queued s' q = true <-> queued s q = true \/
      (q = current s /\ proc_is s q PROC_RUNNABLE /\ q <> idleproc s).
Proof using Hsp.
  intros HI [pr Hp] Hnq. mstep get_proc_ok; [|exact Hp].
  unfold is_state. case_bool_decide as Hr.
  - destruct (sched_enqueue_ok s (current s)) as (s' & Hrun & HI' & C & Hq); try done.
    exists s'. split_and!; try done. intros q. rewrite Hq, orb_true_iff, andb_true_iff, Z.eqb_eq.
    rewrite negb_true_iff, Z.eqb_neq. split; [|naive_solver].
    intros [?|[-> ?]]; [by left|]. right. split_and!; try done. unfold proc_is. by rewrite Hp, <- Hr.
  - exists s. split_and!; try done. intros q. split; [by left|]. intros [?|(-> & H & _)]; [done|].
    unfold proc_is in H. rewrite Hp in H. cbn in H. congruence.
Qed.

(** The next process is chosen and taken off its queue. *)
Lemma choose_ok s :
  I s ->
  exists o s', (next <- sched_class_pick_next sc ;;
      (match next with Some n => sched_class_dequeue sc n | None => ret tt end) ;; ret next) s
      = Ret (o, s') /\ I s' /\ same_core s s' /\
    (forall q, queued s' q = true <-> queued s q = true /\ Some q <> o) /\
    match o with Some p => queued s p = true | None => forall q, queued s q = false end.
Proof using Hsp.
  intros HI. destruct (sp_pick_next s HI) as (o & Hrun & Ho).
  unfold sched_class_pick_next. rewrite (bind_step _ _ _ _ _ Hrun). destruct o as [n|].
  - destruct (sp_dequeue s n HI Ho) as (s' & Hd & HI' & C & Hq).
    unfold sched_class_dequeue. rewrite (bind_step _ _ _ _ _ Hd).
    exists (Some n), s'. split_and!; try done. intros q.
    rewrite Hq, andb_true_iff, negb_true_iff, Z.eqb_neq. naive_solver congruence.
  - exists None, s. split_and!; try done. intros q. split; [|by intros [? _]]. by split.
Qed.

(** The invariant after a switch from [current s] to [n]. *)
Lemma switch_inv s s' n :
  sched_inv I s -> I s' -> current s' = n -> idleproc s' = idleproc s ->
  (forall q, pstate <$> procs s' !! q = pstate <$> procs s !! q) ->
  (forall q, queued s' q = true <-> q <> n /\ (queued s q = true \/
     (q = current s /\ proc_is s q PROC_RUNNABLE /\ q <> idleproc s))) ->
  is_Some (procs s !! n) ->
  sched_inv I s'.
Proof using Type.
  intros Hi HI Hc Hid Hst Hq Hn.
  assert (forall q, is_Some (procs s !! q) -> is_Some (procs s' !! q)) as Hk.
  { intros q H. rewrite <- (fmap_is_Some pstate), Hst, fmap_is_Some. done. }
  constructor; [done|..].
  - rewrite Hc. by apply Hk.
  - rewrite Hid. apply Hk, Hi.
  - intros q. rewrite Hq, Hc, Hid. unfold proc_is. rewrite Hst.
    intros [? [H|(? & ? & ?)]]; [|done]. apply (si_queued _ _ Hi) in H. naive_solver.
  - intros q. rewrite Hq, Hc, Hid. unfold proc_is. rewrite Hst. intros ? ? ?. split; [done|].
    destruct (decide (q = current s)); [by right|]. left. by apply (si_runnable _ _ Hi).
Qed.

(** One more run, in what a policy leaves alone. *)
Definition ran (c : proc_state * Z * Z * Z * Z * option Z) : proc_state * Z * Z * Z * Z * option Z :=
  match c with (st, i, r, ws, ev, q) => (st, i, s32 (r + 1), ws, ev, q) end.

(** A switch to [n]: one more run for it, and [current]. *)
Record switched (n : Z) (s s' : kstate) : Prop := {
  sw_rest : rest_same (upd_current n s) s';
  sw_procs : forall q, core_of <$> procs s' !! q =
      (fun x => if q =? n then ran (core_of x) else core_of x) <$> procs s !! q
}.

Lemma switched_fmap {A} (f : proc_state * Z * Z * Z * Z * option Z -> A) n s s' q :
  (forall c, f (ran c) = f c) -> switched n s s' ->
  (fun x => f (core_of x)) <$> procs s' !! q = (fun x => f (core_of x)) <$> procs s !! q.
Proof using Type.
  intros Hf Sw. rewrite (option_fmap_compose core_of f), (sw_procs _ _ _ Sw), <- option_fmap_compose.
  destruct (procs s !! q) as [x|]; [|done]. cbn. f_equal.
  unfold compose. destruct (q =? n); [apply (Hf (core_of x))|done].
Qed.

Lemma switched_pstate n s s' q st : switched n s s' -> proc_is s' q st <-> proc_is s q st.
Proof using Type.
  intros Sw. unfold proc_is. assert (pstate <$> procs s' !! q = pstate <$> procs s !! q) as ->; [|done].
  apply (switched_fmap (fun c => c.1.1.1.1.1) n); [by intros [[[[[] ?] ?] ?] ?]|done].
Qed.

(** The tail of [schedule]: count the run and switch. *)
Lemma dispatch_ok s n :
  is_Some (procs s !! n) ->
  exists s', (pr <- get_proc n ;; update_proc (set_runs (s32 (runs pr + 1))) n ;;
      if negb (n =? current s) then proc_run n else ret tt) s = Ret (tt, s') /\
    switched n s s' /\ same_queues s s'.
Proof using Type.
  intros [pr Hp]. mstep get_proc_ok; [|exact Hp]. mstep update_proc_ok; [|by rewrite Hp].
  set (s1 := upd_procs _ s).
  assert (forall q, core_of <$> procs s1 !! q =
      (fun x => if q =? n then ran (core_of x) else core_of x) <$> procs s !! q) as H1.
  { intros q. cbn. destruct (Z.eqb_spec q n) as [->|].
    - by rewrite lookup_alter_eq, Hp.
    - by rewrite lookup_alter_ne. }
  assert (same_queues s s1) as [? ? ?] by (by apply slots_alter).
  destruct (Z.eqb_spec n (current s)); cbn [negb].
  - subst n. exists s1. by split_and!.
  - exists (upd_current n s1). split_and!; try done.
    unfold proc_run, get. rewrite (bind_step _ _ s1 s1 s1 eq_refl).
    change (current s1) with (current s). by rewrite (proj2 (Z.eqb_neq _ _)).
Qed.

(** All that [schedule] does. *)
Lemma schedule_ok s :
  sched_inv I s ->
  exists s', schedule sc s = Ret (tt, s') /\ sched_inv I s' /\ switched (current s') s s' /\
    (current s' <> idleproc s -> proc_is s (current s') PROC_RUNNABLE) /\
    (current s' = idleproc s -> forall q, proc_is s q PROC_RUNNABLE -> q = idleproc s).
Proof using Hsp.
  intros Hi. unfold schedule, get at 1. rewrite (bind_step _ _ s s s eq_refl).
  mstep update_proc_ok; [|apply Hi]. set (s1 := upd_procs _ s).
  assert (same_core s s1) as C1 by (by apply core_alter).
  assert (same_queues s s1) as Q1 by (by apply slots_alter).
  destruct (yield_ok s1) as (s2 & Hrun2 & HI2 & C2 & Hq2).
  { apply (sp_stable s); [done|apply Hi]. }
  { apply known_alter, Hi. }
  { rewrite (same_queues_queued s _ _ Q1). destruct (queued s (current s1)) eqn:E; [|done].
    by apply (si_queued _ _ Hi) in E as (_ & ? & _). }
  erewrite bind_step2; [|exact Hrun2]. clear Hrun2.
  destruct (choose_ok s2 HI2) as (o & s3 & Hrun3 & HI3 & C3 & Hq3 & Ho).
  erewrite bind_step2_keep; [|exact Hrun3]. clear Hrun3.
  assert (same_core s s3) as C by (etransitivity; [etransitivity|]; eassumption).
  set (n := match o with Some n => n | None => idleproc s end).
  assert (forall q, queued s2 q = true <-> queued s q = true \/
    (q = current s /\ proc_is s q PROC_RUNNABLE /\ q <> idleproc s)) as Hq.
  { intros q. rewrite Hq2, (same_queues_queued s _ _ Q1), (core_pstate _ _ _ _ C1). done. }
  clear Hq2 C1 C2 Q1.
  assert (is_Some (procs s !! n)) as Hn.
  { destruct o as [m|]; [|apply Hi]. apply Hq in Ho as [H|(-> & H & _)]; [|by eapply proc_is_known].
    apply (si_queued _ _ Hi) in H as [H _]. by eapply proc_is_known. }
  destruct (dispatch_ok s3 n) as (s' & Hrun & Sw3 & Q).
  { by apply (core_known _ _ _ C). }
  pose proof (sc_rest _ _ C) as R. rewrite (rs_current _ _ R) in Hrun.
  assert (switched n s s') as Sw.
  { destruct Sw3 as [R3 P3]. split; [transitivity (upd_current n s3); [by destruct R|done]|].
    intros q. rewrite P3. apply (core_fmap (fun c => if q =? n then ran c else c)), C. }
  assert (current s' = n) as Hc by apply (sw_rest _ _ _ Sw).
  assert (forall q, queued s' q = true <-> queued s2 q = true /\ Some q <> o) as Hq'
    by (intros q; by rewrite (same_queues_queued _ _ _ Q)).
  assert (forall q, queued s2 q = true -> proc_is s q PROC_RUNNABLE /\ q <> idleproc s) as Hrdy.
  { intros q [H|H]%Hq; [|tauto]. apply (si_queued _ _ Hi) in H. tauto. }
  exists s'. rewrite Hc. split_and!; try done.
  - apply (switch_inv s s' n); try done.
    + by apply (sp_stable s3).
    + apply (sw_rest _ _ _ Sw).
    + intros q. apply (switched_fmap (fun c => c.1.1.1.1.1) n); [by intros [[[[[] ?] ?] ?] ?]|done].
    + intros q. rewrite Hq', Hq. destruct o as [m|]; [naive_solver congruence|].
      split; [|intros [_ ?]; by split].
      intros [H _]. by rewrite <- Hq, Ho in H.
  - destruct o as [m|]; [|done]. intros _. by apply Hrdy.
  - destruct o as [m|]; [by apply Hrdy in Ho as [_ ?]|]. intros _ q Hr.
    destruct (decide (q = idleproc s)); [done|]. assert (queued s2 q = true); [|by rewrite Ho in *].
    apply Hq. destruct (decide (q = current s)); [by right|]. left. by apply (si_runnable _ _ Hi).
Qed.

(** [schedule] always returns, keeps the scheduler's invariant and no
    process changes state; the process it switches to could run, the idle
    process runs only when no other process is runnable, and only the chosen
    process's run count moves. *)
Theorem schedule_spec s :
  sched_inv I s ->
  exists s', schedule sc s = Ret (tt, s') /\ sched_inv I s' /\
    (current s' <> idleproc s -> proc_is s (current s') PROC_RUNNABLE) /\
    (current s' = idleproc s -> forall q, proc_is s q PROC_RUNNABLE -> q = idleproc s) /\
    (forall q, pstate <$> procs s' !! q = pstate <$> procs s !! q) /\
    (forall q, runs <$> procs s' !! q =
       (fun x => if q =? current s' then s32 (runs x + 1) else runs x) <$> procs s !! q).
Proof using Hsp.
  intros Hi. destruct (schedule_ok s Hi) as (s' & Hrun & Hi' & Sw & Hr & Hidle).
  exists s'. split_and!; try done; intros q.
  - apply (switched_fmap (fun c => c.1.1.1.1.1) (current s')); [by intros [[[[[] ?] ?] ?] ?]|done].
  - pose proof (f_equal (fmap (fun c : proc_state * Z * Z * Z * Z * option Z => c.1.1.1.2))
      (sw_procs _ _ _ Sw q)) as E.
    rewrite <- !option_fmap_compose in E. etransitivity; [exact E|].
    destruct (procs s !! q); [|done]. cbn. by case_bool.
Qed.

End Policy.

End SchedInv.
