(* ===== verification/SchedPolicies.v ===== *)
(** * The scheduling policies keep their queues well formed

    [queues_ok ring s] is the invariant of a set of run queues linked in the ring
    [ring]; the round-robin class keeps it on a ring of one queue, the multi-level
    class on any ring, and both satisfy the interface [SchedPolicy]. *)

From S2P Require Import Prelude Kern Sched SchedInv.
Import Kern Sched SchedInv.
Open Scope Z_scope.

Module SchedPolicies.

Record queues_ok (ring : list Z) (s : kstate) : Prop := {
  qo_ring : rq_ring s = ring;
  qo_dom : forall i, is_Some (rqs s !! i) <-> i ∈ ring;
  qo_nodup : forall i q, rqs s !! i = Some q -> NoDup (run_list q);
  qo_num : forall i q, rqs s !! i = Some q -> proc_num q = u32 (Z.of_nat (length (run_list q)));
  qo_max : forall i q, rqs s !! i = Some q -> 0 < max_time_slice q;
  qo_member : forall i q p, rqs s !! i = Some q -> p ∈ run_list q ->
      exists pr, procs s !! p = Some pr /\ prq pr = Some i /\
        0 < time_slice pr <= max_time_slice q;
  qo_procs : forall p pr, procs s !! p = Some pr ->
      0 <= time_slice pr /\ forall i, prq pr = Some i -> i ∈ ring
}.

Lemma slot_fmap {A} (f : option Z * Z -> A) s s' q :
  same_queues s s' ->
  (fun x => f (slot_of x)) <$> procs s' !! q = (fun x => f (slot_of x)) <$> procs s !! q.
Proof. intros C. rewrite !(option_fmap_compose slot_of f), (sq_procs _ _ C). done. Qed.

Lemma slot_lookup s s' q x :
  same_queues s s' -> procs s' !! q = Some x ->
  exists y, procs s !! q = Some y /\ prq y = prq x /\ time_slice y = time_slice x.
Proof.
  intros C H. pose proof (sq_procs _ _ C q) as E. rewrite H in E. unfold slot_of in E.
  destruct (procs s !! q) as [y|]; cbn in E; [|done]. exists y. split; [done|]. by injection E.
Qed.

Lemma same_queues_sym s s' : same_queues s s' -> same_queues s' s.
Proof. intros []. by constructor. Qed.

Lemma queues_ok_stable ring s s' : same_queues s s' -> queues_ok ring s -> queues_ok ring s'.
Proof.
  intros C [Hr Hd Hn Hnum Hm Hmem Hp]. pose proof C as [Eq Er _].
  constructor; rewrite ?Eq, ?Er; try done.
  - intros i q p Hq Hin. destruct (Hmem i q p Hq Hin) as (pr & H1 & H2 & H3).
    apply (slot_lookup s' s) in H1 as (y & ? & E1 & E2); [|by apply same_queues_sym].
    exists y. by rewrite E1, E2.
  - intros p pr H. apply (slot_lookup s s') in H as (y & H & <- & <-); [|done]. by apply (Hp p).
Qed.

Lemma queued_in_ring ring s p :
  queues_ok ring s -> queued s p = true ->
  exists i q pr, i ∈ ring /\ rqs s !! i = Some q /\ p ∈ run_list q /\
    procs s !! p = Some pr /\ prq pr = Some i.
Proof.
  intros Ho (i & q & Hq & Hp)%queued_true.
  destruct (qo_member _ _ Ho i q p Hq Hp) as (pr & ? & ? & _).
  exists i, q, pr. split_and!; try done. apply (qo_dom _ _ Ho). by rewrite Hq.
Qed.

Lemma u32_succ n : u32 (u32 n + 1) = u32 (n + 1).
Proof. unfold u32. by rewrite Zplus_mod_idemp_l. Qed.

Lemma u32_pred n : u32 (u32 n - 1) = u32 (n - 1).
Proof. unfold u32. by rewrite Zminus_mod_idemp_l. Qed.

Lemma length_remove x l :
  NoDup l -> x ∈ l -> Z.of_nat (length (remove x l)) = Z.of_nat (length l) - 1.
Proof.
  intros Hn (l1 & l2 & ->)%list_elem_of_split.
  apply NoDup_app in Hn as (_ & H1 & [H2 _]%NoDup_cons). rewrite remove_middle.
  - rewrite !length_app. cbn. lia.
  - intros Hx. apply (H1 x Hx). left.
  - done.
Qed.

(** ** Enqueueing on queue [i] *)

(** The slice a process gets on a queue of maximum [m]. *)
Definition slice_on (m ts : Z) : Z := if (ts =? 0) || (m <? ts) then m else ts.

Definition push (p : Z) (q : run_queue) : run_queue :=
  mk_rq (run_list q ++ [p]) (u32 (proc_num q + 1)) (max_time_slice q).

Definition seat (i m : Z) (x : proc) : proc :=
  set_prq (Some i) (set_time_slice (slice_on m (time_slice x)) x).

Definition enqueued (i p m : Z) (s : kstate) : kstate :=
  upd_procs (alter (seat i m) p) (upd_rqs (alter (push p) i) s).

Lemma alter_procs_id p s : upd_procs (alter id p) s = s.
Proof. destruct s. unfold upd_procs. cbn. by rewrite alter_id. Qed.

Lemma RR_enqueue_run s i p q pr :
  rqs s !! i = Some q -> procs s !! p = Some pr -> queued s p = false ->
  RR_enqueue i p s = Ret (tt, enqueued i p (max_time_slice q) s).
Proof.
  intros Hq Hp Hnq. unfold RR_enqueue, get at 1. rewrite (bind_step _ _ s s s eq_refl).
  rewrite assert_true by (by rewrite Hnq).
  mstep update_rq_ok; [|by rewrite Hq].
  mstep get_rq_ok; [|cbn; by rewrite lookup_alter_eq, Hq]. cbn [max_time_slice].
  mstep get_proc_ok; [|exact Hp].
  set (s1 := upd_rqs _ s).
  assert (exists f, (if (time_slice pr =? 0) || (max_time_slice q <? time_slice pr)
     then update_proc (set_time_slice (max_time_slice q)) p else ret tt) s1
     = Ret (tt, upd_procs (alter f p) s1) /\
     f pr = set_time_slice (slice_on (max_time_slice q) (time_slice pr)) pr) as (f & Hrun & Hf).
  { unfold slice_on. destruct (_ || _).
    - exists (set_time_slice (max_time_slice q)). split; [|done]. apply update_proc_ok. change (is_Some (procs s !! p)); by rewrite Hp.
    - exists id. split; [|by destruct pr]. unfold ret. by rewrite alter_procs_id. }
  rewrite (bind_step _ _ _ _ _ Hrun). mstep update_proc_ok; [|apply known_alter; cbn; by rewrite Hp].
  rewrite update_rq_ok by (cbn; rewrite lookup_alter_eq, Hq; done).
  unfold enqueued, upd_procs, upd_rqs. cbn. rewrite !alter_alter_eq. do 3 f_equal.
  apply alter_ext. intros x Hx. rewrite Hp in Hx. injection Hx as <-. cbn. by rewrite Hf.
Qed.

Lemma enqueued_rqs i p m s j :
  rqs (enqueued i p m s) !! j = (if decide (i = j) then push p else id) <$> rqs s !! j.
Proof.
  cbn. rewrite lookup_alter. case_decide; [by subst|]. by rewrite option_fmap_id.
Qed.

Lemma enqueued_queued i p m s r :
  is_Some (rqs s !! i) -> queued (enqueued i p m s) r = queued s r || (r =? p).
Proof.
  intros [q Hq]. apply Bool.eq_true_iff_eq. rewrite orb_true_iff, !queued_true, Z.eqb_eq.
  setoid_rewrite enqueued_rqs. split.
  - intros (j & x & Hx & Hr). apply fmap_Some in Hx as (y & Hy & ->). case_decide; cbn in *.
    + apply elem_of_app in Hr as [?|Hr%list_elem_of_singleton]; [|by right]. left. eauto.
    + left. eauto.
  - intros [(j & x & Hx & Hr)| ->].
    + exists j. rewrite Hx. cbn. eexists. split; [done|]. case_decide; cbn; [set_solver|done].
    + exists i. rewrite Hq, decide_True by done. cbn. eexists. split; [done|]. cbn. set_solver.
Qed.

Lemma slice_on_range m ts : 0 < m -> 0 <= ts -> 0 < slice_on m ts <= m.
Proof. unfold slice_on. intros. repeat case_bool; cbn; lia. Qed.

Lemma enqueued_ok ring i p s q :
  queues_ok ring s -> rqs s !! i = Some q -> is_Some (procs s !! p) -> queued s p = false ->
  queues_ok ring (enqueued i p (max_time_slice q) s).
Proof.
  intros Ho Hq [pr Hp] Hnq.
  assert (forall j x, rqs s !! j = Some x -> p ∉ run_list x) as Hnin.
  { intros j x Hx Hin. assert (queued s p = true); [|congruence]. apply queued_true. eauto. }
  constructor.
  - apply Ho.
  - intros j. rewrite enqueued_rqs, fmap_is_Some. apply Ho.
  - intros j x. rewrite enqueued_rqs. intros (y & Hy & ->)%fmap_Some. pose proof (qo_nodup _ _ Ho j y Hy).
    case_decide; [|done]. cbn. apply NoDup_app. split_and!; [done| |apply NoDup_singleton].
    intros z Hz Hzp%list_elem_of_singleton. subst. by eapply Hnin.
  - intros j x. rewrite enqueued_rqs. intros (y & Hy & ->)%fmap_Some. pose proof (qo_num _ _ Ho j y Hy) as E.
    case_decide; [|done]. cbn. rewrite E, u32_succ, length_app. cbn. f_equal. lia.
  - intros j x. rewrite enqueued_rqs. intros (y & Hy & ->)%fmap_Some. pose proof (qo_max _ _ Ho j y Hy).
    by case_decide.
  - intros j x r. rewrite enqueued_rqs. intros (y & Hy & ->)%fmap_Some Hr. cbn.
    destruct (decide (p = r)) as [<-|Hne].
    + rewrite lookup_alter_eq, Hp. cbn. eexists. split; [done|]. cbn.
      case_decide; [subst j|by apply (Hnin j y Hy) in Hr]. split; [done|]. cbn.
      replace y with q by congruence. apply slice_on_range; [by eapply Ho|by eapply Ho].
    + rewrite lookup_alter_ne by done.
      assert (r ∈ run_list y) as Hin by (case_decide; cbn in Hr; set_solver).
      destruct (qo_member _ _ Ho j y r Hy Hin) as (z & ? & ? & ?). exists z. split_and!; try done; case_decide; cbn; lia.
  - intros r x. cbn. rewrite lookup_alter. case_decide; [subst r|by apply Ho].
    rewrite Hp. cbn. intros [= <-]. cbn. split.
    + apply Z.lt_le_incl, slice_on_range; by eapply Ho.
    + intros ? [= <-]. apply (qo_dom _ _ Ho). by rewrite Hq.
Qed.

Lemma enqueued_core i p m s : same_core s (enqueued i p m s).
Proof. transitivity (upd_rqs (alter (push p) i) s); [by repeat constructor|by apply core_alter]. Qed.

(** ** Dequeueing from queue [i] *)

Definition unqueue (p : Z) (q : run_queue) : run_queue :=
  mk_rq (remove p (run_list q)) (proc_num q) (max_time_slice q).

Definition dequeued (i p : Z) (s : kstate) : kstate :=
  upd_rqs (fun m => alter (fun q => mk_rq (run_list q) (u32 (proc_num q - 1)) (max_time_slice q)) i
             (unqueue p <$> m)) s.

Lemma RR_dequeue_run s i p q pr :
  rqs s !! i = Some q -> procs s !! p = Some pr -> prq pr = Some i -> queued s p = true ->
  RR_dequeue i p s = Ret (tt, dequeued i p s).
Proof.
  intros Hq Hp Hpi Hqd. unfold RR_dequeue, get at 1. rewrite (bind_step _ _ s s s eq_refl).
  mstep get_proc_ok; [|exact Hp]. rewrite assert_true by (by rewrite Hqd, Hpi, bool_decide_eq_true_2).
  unfold modify. rewrite (bind_step _ _ s tt _ eq_refl).
  rewrite update_rq_ok by (cbn; by rewrite lookup_fmap, Hq). done.
Qed.

Lemma dequeued_rqs i p s j x :
  rqs (dequeued i p s) !! j = Some x ->
  exists y, rqs s !! j = Some y /\ run_list x = remove p (run_list y) /\
    max_time_slice x = max_time_slice y /\
    proc_num x = if decide (i = j) then u32 (proc_num y - 1) else proc_num y.
Proof.
  cbn. rewrite lookup_alter, !lookup_fmap. case_decide.
  - subst. intros (y & (z & Hz & ->)%fmap_Some & ->)%fmap_Some. by exists z.
  - intros (y & Hy & ->)%fmap_Some. by exists y.
Qed.

Lemma dequeued_run_list i p s j y :
  rqs s !! j = Some y ->
  exists x, rqs (dequeued i p s) !! j = Some x /\ run_list x = remove p (run_list y).
Proof.
  intros Hy. cbn. rewrite lookup_alter, !lookup_fmap.
  case_decide; [subst|]; rewrite Hy; by eexists.
Qed.

Lemma dequeued_queued i p s r :
  queued (dequeued i p s) r = queued s r && negb (r =? p).
Proof.
  apply Bool.eq_true_iff_eq. rewrite andb_true_iff, !queued_true, negb_true_iff, Z.eqb_neq. split.
  - intros (j & x & Hx & Hr). apply dequeued_rqs in Hx as (y & Hy & E & _).
    rewrite E in Hr. apply elem_of_remove in Hr as [? ?]. eauto.
  - intros [(j & y & Hy & Hr) Hne]. destruct (dequeued_run_list i p s j y Hy) as (x & Hx & E).
    exists j, x. rewrite E. split; [done|]. by apply elem_of_remove.
Qed.

Lemma dequeued_ok ring i p q s :
  queues_ok ring s -> rqs s !! i = Some q -> p ∈ run_list q -> queues_ok ring (dequeued i p s).
Proof.
  intros Ho Hq Hp.
  assert (forall j x, rqs s !! j = Some x -> p ∈ run_list x -> i = j) as Hone.
  { intros j x Hx Hin. destruct (qo_member _ _ Ho _ _ _ Hx Hin) as (? & ? & ? & _).
    destruct (qo_member _ _ Ho _ _ _ Hq Hp) as (? & ? & ? & _). congruence. }
  constructor; [apply Ho|..|apply Ho].
  - intros j. rewrite <- (qo_dom _ _ Ho). cbn. rewrite lookup_alter, lookup_fmap.
    case_decide; subst; by rewrite ?lookup_fmap, !fmap_is_Some.
  - intros j x Hx. apply dequeued_rqs in Hx as (y & Hy & -> & _). apply NoDup_filter, (qo_nodup _ _ Ho j y Hy).
  - intros j x Hx. apply dequeued_rqs in Hx as (y & Hy & -> & _ & ->). rewrite (qo_num _ _ Ho j y Hy).
    case_decide as E.
    + replace y with q by congruence. rewrite u32_pred, length_remove; [done|by eapply Ho|done].
    + rewrite remove_notin; [done|]. intros Hin. by apply E, (Hone j y).
  - intros j x Hx. apply dequeued_rqs in Hx as (y & Hy & _ & -> & _). apply (qo_max _ _ Ho j y Hy).
  - intros j x r Hx. apply dequeued_rqs in Hx as (y & Hy & -> & -> & _).
    intros [_ Hr]%elem_of_remove. apply (qo_member _ _ Ho j y r Hy Hr).
Qed.

Lemma dequeued_core i p s : same_core s (dequeued i p s).
Proof. by repeat constructor. Qed.

(** ** The tick *)

(** What one tick does to the running process. *)
Definition ticked (x : proc) : proc :=
  let y := set_time_slice (Z.max 0 (time_slice x - 1)) x in
  if time_slice x <=? 1 then set_need_resched true y else y.

Lemma RR_proc_tick_run s i p pr :
  procs s !! p = Some pr -> 0 <= time_slice pr ->
  RR_proc_tick i p s = Ret (tt, upd_procs (alter ticked p) s).
Proof.
  intros Hp Hts. unfold RR_proc_tick. mstep get_proc_ok; [|exact Hp].
  assert (exists f, (if 0 <? time_slice pr then update_proc (set_time_slice (time_slice pr - 1)) p
     else ret tt) s = Ret (tt, upd_procs (alter f p) s) /\
     f pr = set_time_slice (Z.max 0 (time_slice pr - 1)) pr) as (f & Hrun & Hf).
  { destruct (Z.ltb_spec 0 (time_slice pr)).
    - eexists. rewrite update_proc_ok by (by rewrite Hp). split; [done|]. cbv beta. by rewrite Z.max_r by lia.
    - exists id. unfold ret. rewrite alter_procs_id. split; [done|].
      replace (Z.max 0 (time_slice pr - 1)) with (time_slice pr) by lia. by destruct pr. }
  rewrite (bind_step _ _ _ _ _ Hrun).
  mstep get_proc_ok; [|cbn; by rewrite lookup_alter_eq, Hp]. rewrite Hf. cbn [time_slice set_time_slice].
  destruct (Z.eqb_spec (Z.max 0 (time_slice pr - 1)) 0).
  - rewrite update_proc_ok by (apply known_alter; by rewrite Hp).
    unfold upd_procs. cbn. rewrite alter_alter_eq. do 3 f_equal. apply alter_ext.
    intros x Hx. rewrite Hp in Hx. injection Hx as <-. cbn. unfold ticked. rewrite Hf.
    by rewrite (proj2 (Z.leb_le _ _)) by lia.
  - unfold ret, upd_procs. do 3 f_equal. apply alter_ext.
    intros x Hx. rewrite Hp in Hx. injection Hx as <-. unfold ticked. rewrite Hf.
    by rewrite (proj2 (Z.leb_gt _ _)) by lia.
Qed.

Lemma ticked_core x : core_of (ticked x) = core_of x.
Proof. unfold ticked. by case_bool. Qed.

Lemma ticked_slot x : slot_of (ticked x) = (prq x, Z.max 0 (time_slice x - 1)).
Proof. unfold ticked. by case_bool. Qed.

(** A change to a process on no queue that keeps its queue and a valid slice. *)
Lemma queues_ok_alter ring f p s :
  queues_ok ring s -> queued s p = false ->
  (forall x, prq (f x) = prq x) -> (forall x, 0 <= time_slice x -> 0 <= time_slice (f x)) ->
  queues_ok ring (upd_procs (alter f p) s).
Proof.
  intros [Hr Hd Hn Hnum Hm Hmem Hp] Hnq Hf Hts. constructor; cbn; try done.
  - intros i q r Hq Hin. rewrite lookup_alter_ne; [by apply (Hmem i)|]. intros <-.
    assert (queued s p = true); [apply queued_true; eauto|congruence].
  - intros r x. rewrite lookup_alter. case_decide; [subst|by apply Hp].
    intros (y & Hy & ->)%fmap_Some. rewrite Hf. destruct (Hp _ _ Hy). auto.
Qed.

Lemma queues_ok_slot ring s p o :
  queues_ok ring s -> queued s p = false ->
  (forall x, o = Some x -> 0 <= time_slice x /\ (prq x = None \/ prq <$> procs s !! p = Some (prq x))) ->
  queues_ok ring (upd_procs (partial_alter (fun _ => o) p) s).
Proof.
  intros [Hr Hd Hn Hnum Hm Hmem Hp] Hnq Ho. constructor; cbn; try done.
  - intros i q r Hq Hin. rewrite lookup_partial_alter_ne; [by apply (Hmem i)|]. intros <-.
    assert (queued s p = true); [apply queued_true; eauto|congruence].
  - intros r x. destruct (decide (p = r)) as [<-|Hne]; [|rewrite lookup_partial_alter_ne by done; apply Hp].
    rewrite lookup_partial_alter_eq. intros Hx. destruct (Ho x Hx) as [? [E|E]]; (split; [done|]); intros i Hi; [congruence|].
    apply fmap_Some in E as (y & Hy & E). apply (Hp p y Hy). congruence.
Qed.

Lemma queues_ok_slice ring s p x : queues_ok ring s -> procs s !! p = Some x -> 0 <= time_slice x.
Proof. intros Ho Hx. by apply (qo_procs _ _ Ho p x). Qed.

Lemma RR_proc_tick_ok ring s i p :
  queues_ok ring s -> is_Some (procs s !! p) -> queued s p = false ->
  exists s', RR_proc_tick i p s = Ret (tt, s') /\ queues_ok ring s' /\ same_core s s' /\
    forall q, queued s' q = queued s q.
Proof.
  intros Ho [pr Hp] Hnq. exists (upd_procs (alter ticked p) s). split_and!.
  - by eapply RR_proc_tick_run, Ho.
  - apply queues_ok_alter; try done; intros x; pose proof (ticked_slot x) as [= E1 E2];
      [by rewrite E1|rewrite E2; lia].
  - apply core_alter, ticked_core.
  - done.
Qed.

(** ** Walking the ring *)

Lemma next_in_app r1 r2 first i j :
  i ∉ r1 -> next_in (r1 ++ i :: j :: r2) first i = Some j.
Proof.
  induction r1 as [|x r1 IH]; intros Hi; cbn.
  - by rewrite Z.eqb_refl.
  - rewrite (proj2 (Z.eqb_neq _ _)); [apply IH|]; set_solver.
Qed.

Lemma next_in_last r first i : i ∉ r -> next_in (r ++ [i]) first i = Some first.
Proof.
  induction r as [|x r IH]; intros Hi; cbn.
  - by rewrite Z.eqb_refl.
  - rewrite (proj2 (Z.eqb_neq _ _)); [apply IH|]; set_solver.
Qed.

(** [list_next] on the ring: the entry that follows, or the first after the last. *)
Lemma ring_next_spec ring i r1 r2 :
  NoDup ring -> ring = r1 ++ i :: r2 ->
  ring_next ring i = Some (match r2 with [] => List.hd i ring | j :: _ => j end).
Proof.
  intros Hn ->. apply NoDup_app in Hn as (_ & Hd & _).
  assert (i ∉ r1) as Hi by (intros Hi; apply (Hd i Hi); left).
  destruct r2 as [|j r2]; destruct r1 as [|x r1]; cbn; rewrite ?Z.eqb_refl; try done;
    rewrite (proj2 (Z.eqb_neq _ _)) by set_solver.
  - apply next_in_last. set_solver.
  - apply next_in_app. set_solver.
Qed.

Lemma ring_next_in ring i :
  NoDup ring -> i ∈ ring -> exists j, ring_next ring i = Some j /\ j ∈ ring.
Proof.
  intros Hn Hi. pose proof Hi as (r1 & r2 & E)%list_elem_of_split.
  rewrite (ring_next_spec ring i r1 r2 Hn E). eexists. split; [done|].
  destruct r2 as [|j r2]; [|rewrite E; set_solver].
  destruct ring as [|x ring]; [done|]. left.
Qed.

Lemma not_first_again (x i j : Z) r r1 r2 : NoDup (x :: r) -> x :: r = r1 ++ i :: j :: r2 -> j <> x.
Proof.
  intros [Hx _]%NoDup_cons E ->. destruct r1 as [|y r1]; injection E as -> ->; apply Hx; set_solver.
Qed.

(** ** The interface, discharged *)

Lemma queued_known ring s p : queues_ok ring s -> queued s p = true -> is_Some (procs s !! p).
Proof. intros Ho H. destruct (queued_in_ring _ _ _ Ho H) as (? & ? & pr & _ & _ & _ & -> & _). done. Qed.

Lemma ring_queue ring s i : queues_ok ring s -> i ∈ ring -> exists q, rqs s !! i = Some q.
Proof. intros Ho Hi. apply (qo_dom _ _ Ho) in Hi as [q Hq]. by exists q. Qed.

Lemma RR_enqueue_ok ring s i p :
  queues_ok ring s -> i ∈ ring -> is_Some (procs s !! p) -> queued s p = false ->
  exists s', RR_enqueue i p s = Ret (tt, s') /\ queues_ok ring s' /\ same_core s s' /\
    forall q, queued s' q = queued s q || (q =? p).
Proof.
  intros Ho Hi Hp Hnq. destruct (ring_queue _ _ _ Ho Hi) as [q Hq].
  exists (enqueued i p (max_time_slice q) s). split_and!.
  - destruct Hp as [pr Hp]. by eapply RR_enqueue_run.
  - by apply enqueued_ok.
  - apply enqueued_core.
  - intros r. apply enqueued_queued. by rewrite Hq.
Qed.

Lemma RR_dequeue_ok ring s p :
  queues_ok ring s -> queued s p = true ->
  exists i pr s', procs s !! p = Some pr /\ prq pr = Some i /\ i ∈ ring /\
    RR_dequeue i p s = Ret (tt, s') /\ queues_ok ring s' /\ same_core s s' /\
    forall q, queued s' q = queued s q && negb (q =? p).
Proof.
  intros Ho H. destruct (queued_in_ring _ _ _ Ho H) as (i & q & pr & Hi & Hq & Hin & Hp & Hpi).
  exists i, pr, (dequeued i p s). split_and!; try done.
  - by eapply RR_dequeue_run.
  - by eapply dequeued_ok.
  - apply dequeued_queued.
Qed.

#[export] Instance RR_policy : SchedPolicy RR_sched_class (queues_ok [rq0]).
Proof.
  split.
  - apply queues_ok_stable.
  - intros s p Ho Hp Hnq. apply (RR_enqueue_ok [rq0]); try done. left.
  - intros s p Ho Hq. destruct (RR_dequeue_ok _ s p Ho Hq) as (i & pr & s' & Hp & Hi & Hin & Hrun).
    apply list_elem_of_singleton in Hin. subst i. by exists s'.
  - intros s Ho. destruct (ring_queue _ s rq0 Ho) as [q Hq]; [left|].
    exists (List.head (run_list q)). split.
    + cbn. unfold RR_pick_next. mstep get_rq_ok; [|exact Hq]. done.
    + destruct (run_list q) as [|p l] eqn:E; cbn.
      * intros p. destruct (queued s p) eqn:Hp; [|done].
        destruct (queued_in_ring _ _ _ Ho Hp) as (i & q' & _ & Hi & Hq' & Hin & _).
        apply list_elem_of_singleton in Hi. subst i. replace q' with q in Hin by congruence.
        rewrite E in Hin. by apply not_elem_of_nil in Hin.
      * apply queued_true. exists rq0, q. split; [done|]. rewrite E. left.
  - intros s p. apply RR_proc_tick_ok.
  - apply queues_ok_slot.
  - apply queues_ok_slice.
Qed.

(** ** Multi-level feedback *)

Section MLFQ.
Context (r : list Z).
#[local] Abbreviation ring := (rq0 :: r).
Hypothesis ring_nodup : NoDup ring.

(** The waiting processes, level by level, each level in order of arrival. *)
Definition levels (s : kstate) (l : list Z) : list Z :=
  l ≫= fun i => from_option run_list [] (rqs s !! i).

(** The level a process is queued on: the next lower one when it has used its
    slice up (the lowest stays), the top one otherwise. *)
Definition level_for (x : proc) : Z :=
  match prq x with
  | Some i => if time_slice x =? 0 then
                let j := default i (ring_next ring i) in if j =? rq0 then i else j
              else rq0
  | None => rq0
  end.

Lemma level_for_in s p x : queues_ok ring s -> procs s !! p = Some x -> level_for x ∈ ring.
Proof using ring_nodup.
  intros Ho Hp. unfold level_for. destruct (qo_procs _ _ Ho p x Hp) as [_ Hi].
  destruct (prq x) as [i|]; [|left]. case_bool; [|left].
  destruct (ring_next_in ring i) as (j & -> & Hj); [done|by apply Hi|]. cbn [default from_option].
  case_bool; [by apply Hi|done].
Qed.

Lemma MLFQ_enqueue_level s p x :
  queues_ok ring s -> procs s !! p = Some x -> queued s p = false ->
  MLFQ_enqueue rq0 p s = RR_enqueue (level_for x) p s.
Proof using ring_nodup.
  intros Ho Hp Hnq. unfold MLFQ_enqueue, get at 1. rewrite (bind_step _ _ s s s eq_refl).
  rewrite assert_true by (by rewrite Hnq). mstep get_proc_ok; [|exact Hp].
  unfold level_for. destruct (prq x) as [i|] eqn:Hi; [|done].
  destruct (time_slice x =? 0); [|done]. rewrite (qo_ring _ _ Ho).
  destruct (ring_next_in ring i) as (j & -> & _); [done|by apply (qo_procs _ _ Ho p x)|]. done.
Qed.

Lemma MLFQ_pick_loop_ok s i r1 r2 fuel :
  queues_ok ring s -> ring = r1 ++ i :: r2 -> (length r2 < fuel)%nat ->
  MLFQ_pick_loop fuel rq0 i s = Ret (List.head (levels s (i :: r2)), s).
Proof using ring_nodup.
  revert i r1 r2. induction fuel as [|fuel IH]; intros i r1 r2 Ho E Hf; [lia|]. cbn [MLFQ_pick_loop].
  destruct (ring_queue _ s i Ho) as [q Hq]; [rewrite E; set_solver|].
  rewrite (bind_step _ _ s (List.head (run_list q)) s)
    by (cbn; unfold RR_pick_next; mstep get_rq_ok; [|exact Hq]; done).
  unfold levels. cbn. rewrite Hq. cbn. destruct (run_list q) as [|p l]; [|done]. cbn.
  rewrite (qo_ring _ _ Ho), (ring_next_spec ring i r1 r2 ring_nodup E).
  unfold bind, get, deref, ret. destruct r2 as [|j r2]; [done|].
  rewrite (proj2 (Z.eqb_neq _ _)).
  - rewrite (IH j (r1 ++ [i]) r2 Ho); [done| |cbn in Hf; lia]. by rewrite <- app_assoc.
  - by eapply not_first_again.
Qed.

Lemma MLFQ_pick_next_ok s :
  queues_ok ring s -> MLFQ_pick_next rq0 s = Ret (List.head (levels s ring), s).
Proof using ring_nodup.
  intros Ho. unfold MLFQ_pick_next, get. rewrite (bind_step _ _ s s s eq_refl).
  rewrite (qo_ring _ _ Ho). apply (MLFQ_pick_loop_ok s rq0 [] r); [done|done|cbn; lia].
Qed.

Lemma elem_of_levels s p :
  queues_ok ring s -> p ∈ levels s ring <-> queued s p = true.
Proof using Type.
  intros Ho. unfold levels. rewrite list_elem_of_bind. split.
  - intros (i & Hp & _). destruct (rqs s !! i) as [q|] eqn:Hq; cbn in Hp; [|by apply not_elem_of_nil in Hp].
    apply queued_true. eauto.
  - intros H. destruct (queued_in_ring _ _ _ Ho H) as (i & q & pr & Hi & Hq & Hin & _).
    exists i. by rewrite Hq.
Qed.

#[export] Instance MLFQ_policy : SchedPolicy MLFQ_sched_class (queues_ok ring).
Proof using ring_nodup.
  split.
  - apply queues_ok_stable.
  - intros s p Ho [x Hp] Hnq. change (sc_enqueue MLFQ_sched_class) with MLFQ_enqueue.
    rewrite (MLFQ_enqueue_level s p x) by done.
    apply RR_enqueue_ok; try done. by eapply level_for_in.
  - intros s p Ho Hq. destruct (RR_dequeue_ok _ s p Ho Hq) as (i & pr & s' & Hp & Hi & Hin & Hrun & H).
    exists s'. split; [|done]. change (sc_dequeue MLFQ_sched_class) with MLFQ_dequeue.
    unfold MLFQ_dequeue, get. rewrite (bind_step _ _ s s s eq_refl).
    rewrite assert_true by done. mstep get_proc_ok; [|exact Hp]. rewrite Hi. done.
  - intros s Ho. exists (List.head (levels s ring)). split; [by apply MLFQ_pick_next_ok|].
    destruct (levels s ring) as [|p l] eqn:E; cbn.
    + intros q. destruct (queued s q) eqn:Hq; [|done]. apply elem_of_levels in Hq; [|done].
      rewrite E in Hq. by apply not_elem_of_nil in Hq.
    + apply elem_of_levels; [done|]. rewrite E. left.
  - intros s p Ho Hp Hnq. destruct Hp as [x Hp].
    change (sc_proc_tick MLFQ_sched_class) with MLFQ_proc_tick. unfold MLFQ_proc_tick.
    mstep get_proc_ok; [|exact Hp]. apply RR_proc_tick_ok; [done|by rewrite Hp|done].
  - apply queues_ok_slot.
  - apply queues_ok_slice.
Qed.

End MLFQ.

(** ** The kernel's own configuration: four levels *)

Definition kernel_ring : list Z := [0; 1; 2; 3].

Lemma kernel_ring_nodup : NoDup kernel_ring.
Proof. by apply (bool_decide_unpack _). Qed.

#[export] Instance kernel_policy : SchedPolicy MLFQ_sched_class (queues_ok kernel_ring).
Proof. apply (MLFQ_policy [1; 2; 3] kernel_ring_nodup). Qed.

Lemma level_for_kernel s p x :
  queues_ok kernel_ring s -> procs s !! p = Some x ->
  level_for [1; 2; 3] x =
    match prq x with Some i => if time_slice x =? 0 then Z.min 3 (i + 1) else 0 | None => 0 end.
Proof.
  intros Ho Hp. unfold level_for. destruct (prq x) as [i|] eqn:Hi; [|done].
  destruct (time_slice x =? 0); [|done].
  pose proof (proj2 (qo_procs _ _ Ho p x Hp) i Hi) as Hin. by enum_list Hin.
Qed.

(** Enqueueing a process under multi-level feedback returns and puts it at
    the tail of one queue: one level below the one it ran on when it has used its
    slice up (the lowest level keeps it), the top level otherwise; it leaves with
    a positive slice, a fresh full one if it had none left, and the other queues
    are as they were. *)
Theorem mlfq_enqueue_feedback s p x :
  queues_ok kernel_ring s -> procs s !! p = Some x -> queued s p = false ->
  let lvl := match prq x with
             | Some i => if time_slice x =? 0 then Z.min 3 (i + 1) else 0
             | None => 0 end in
  exists s' q q' x', MLFQ_enqueue rq0 p s = Ret (tt, s') /\ queues_ok kernel_ring s' /\
    rqs s !! lvl = Some q /\ rqs s' !! lvl = Some q' /\ run_list q' = run_list q ++ [p] /\
    (forall i, i <> lvl -> rqs s' !! i = rqs s !! i) /\
    procs s' !! p = Some x' /\ prq x' = Some lvl /\
    time_slice x' = (if (time_slice x =? 0) || (max_time_slice q <? time_slice x)
                     then max_time_slice q else time_slice x).
Proof.
  intros Ho Hp Hnq lvl.
  assert (level_for [1; 2; 3] x = lvl) as E by (by eapply level_for_kernel).
  assert (lvl ∈ kernel_ring) as Hin
    by (rewrite <- E; exact (level_for_in [1; 2; 3] kernel_ring_nodup s p x Ho Hp)).
  destruct (ring_queue _ s lvl Ho Hin) as [q Hq].
  exists (enqueued lvl p (max_time_slice q) s), q, (push p q), (seat lvl (max_time_slice q) x).
  split_and!; try done.
  - rewrite (MLFQ_enqueue_level [1; 2; 3] kernel_ring_nodup s p x), E by done. by eapply RR_enqueue_run.
  - by apply enqueued_ok.
  - by rewrite enqueued_rqs, decide_True, Hq.
  - intros i Hi. by rewrite enqueued_rqs, decide_False, option_fmap_id.
  - cbn. by rewrite lookup_alter_eq, Hp.
Qed.

(** Picking the next process under multi-level feedback returns the process
    at the head of the highest level that is not empty, so a process on a level
    runs only when every level above it is empty, and within a level processes
    run in order of arrival; nothing is picked only when every level is empty. *)
Theorem mlfq_pick_highest s :
  queues_ok kernel_ring s ->
  MLFQ_pick_next rq0 s = Ret (List.head (levels s kernel_ring), s) /\
  (forall p, p ∈ levels s kernel_ring <-> queued s p = true).
Proof.
  intros Ho. split.
  - by apply (MLFQ_pick_next_ok [1; 2; 3] kernel_ring_nodup).
  - intros p. by apply elem_of_levels.
Qed.

(** One turn of the loop of [MLFQ_init]. *)
Lemma MLFQ_init_loop_step s fuel i j :
  is_Some (rqs s !! i) -> ring_next (rq_ring s) i = Some j ->
  MLFQ_init_loop (S fuel) rq0 i s =
    (if j =? rq0 then ret tt else MLFQ_init_loop fuel rq0 j)
      (upd_rqs (alter (fun q => mk_rq [] 0 (max_time_slice q)) i) s).
Proof.
  intros Hi Hj. cbn [MLFQ_init_loop sc_init RR_sched_class]. unfold RR_init.
  mstep update_rq_ok; [|exact Hi]. rewrite bind_get. by rewrite (bind_deref _ j).
Qed.

(** The run queues and the ring [sched_init] leaves, from the four it finds. *)
Lemma sched_init_run s :
  (forall i, is_Some (rqs s !! i) <-> i ∈ kernel_ring) ->
  exists s', sched_init s = Ret (tt, s') /\ rq_ring s' = kernel_ring /\
    timer_list s' = [] /\ procs s' = procs s /\
    forall i, rqs s' !! i = (fun _ => mk_rq [] 0 (8 * 2 ^ i)) <$> rqs s !! i.
Proof.
  intros Hd. assert (forall i, i ∈ kernel_ring -> is_Some (rqs s !! i)) as Hk by (by intros ? ?%Hd).
  unfold sched_init, MLFQ_sched_class, MLFQ_init. cbn [foldr sc_init]. rewrite !bind_modify.
  mstep update_rq_ok; [|apply Hk; set_solver].
  destruct (Hk rq0) as [q0 Hq0]; [left|].
  mstep get_rq_ok; [|cbn; by rewrite lookup_alter_eq, Hq0]. cbn [max_time_slice].
  do 3 (rewrite bind_modify; mstep update_rq_ok; [|cbn; rewrite ?lookup_alter_is_Some; apply Hk; set_solver]).
  rewrite bind_get. change (length _) with 4%nat.
  rewrite (MLFQ_init_loop_step _ 3 0 1); [|cbn; rewrite !lookup_alter_is_Some; apply Hk; set_solver|done].
  rewrite (MLFQ_init_loop_step _ 2 1 2); [|cbn; rewrite !lookup_alter_is_Some; apply Hk; set_solver|done].
  rewrite (MLFQ_init_loop_step _ 1 2 3); [|cbn; rewrite !lookup_alter_is_Some; apply Hk; set_solver|done].
  rewrite (MLFQ_init_loop_step _ 0 3 0); [|cbn; rewrite !lookup_alter_is_Some; apply Hk; set_solver|done].
  eexists. split; [reflexivity|]. split_and!; try reflexivity. intros i.
  destruct (rqs s !! i) as [q|] eqn:Hi.
  - assert (i ∈ kernel_ring) as Hin by (apply Hd; by rewrite Hi). cbn.
    unfold rq0. enum_list Hin; cbn; repeat (rewrite lookup_alter_eq || rewrite lookup_alter_ne by done); by rewrite Hi.
  - apply eq_None_not_Some. cbn. rewrite !lookup_alter_is_Some, Hi. by intros [? ?].
Qed.

(** [sched_init] on the zeroed run queues returns with the queues of the four
    levels empty and well formed, their slices doubling from 8, and no timer. *)
Theorem sched_init_spec s :
  (forall i, is_Some (rqs s !! i) <-> i ∈ kernel_ring) ->
  (forall p x, procs s !! p = Some x -> prq x = None /\ 0 <= time_slice x) ->
  exists s', sched_init s = Ret (tt, s') /\ queues_ok kernel_ring s' /\
    timer_list s' = [] /\ procs s' = procs s /\
    forall i, i ∈ kernel_ring -> rqs s' !! i = Some (mk_rq [] 0 (8 * 2 ^ i)).
Proof.
  intros Hd Hp. destruct (sched_init_run s Hd) as (s' & Hrun & Hr & Ht & Epr & Hq).
  assert (forall i q, rqs s' !! i = Some q -> q = mk_rq [] 0 (8 * 2 ^ i) /\ 0 <= i) as Hq'.
  { intros i q. rewrite Hq. intros (x & Hx & ->)%fmap_Some. split; [done|].
    assert (i ∈ kernel_ring) as Hin by (apply Hd; by rewrite Hx). by enum_list Hin. }
  exists s'. split_and!; try done.
  - constructor; try done.
    + intros i. by rewrite Hq, fmap_is_Some.
    + intros i q H. apply Hq' in H as [-> _]. apply NoDup_nil_2.
    + intros i q H. by apply Hq' in H as [-> _].
    + intros i q H. apply Hq' in H as [-> ?]. cbn [max_time_slice]. lia.
    + intros i q p H. apply Hq' in H as [-> _]. by intros H%not_elem_of_nil.
    + rewrite Epr. intros p x H. apply Hp in H as [-> ?]. by split.
  - intros i [x Hx]%Hd. by rewrite Hq, Hx.
Qed.

(** ** A concrete state: process 1 runs, 2 sleeps, 3 waits on level 1, 0 idles *)

Definition ex_state : kstate := mk_kstate
  (list_to_map [(0, mk_proc PROC_RUNNABLE 0 1 false 0 None 0 0 None);
                (1, mk_proc PROC_RUNNABLE 1 4 false 0 (Some 0) 0 0 None);
                (2, mk_proc PROC_SLEEPING 2 2 false WT_TIMER (Some 1) 3 0 None);
                (3, mk_proc PROC_RUNNABLE 3 7 false 0 (Some 1) 5 0 None)])
  1 0
  (list_to_map [(0, mk_rq [] 0 8); (1, mk_rq [3] 1 16); (2, mk_rq [] 0 32); (3, mk_rq [] 0 64)])
  kernel_ring
  (list_to_map [(10, mk_timer 1 (Some 2)); (11, mk_timer 4 (Some 3)); (12, mk_timer 3 (Some 1))])
  [10; 11] ∅ ∅ 0 (mk_ipc ∅ ∅ ∅ []).

Lemma ex_queues_ok : queues_ok kernel_ring ex_state.
Proof.
  constructor; [done|..].
  - intros i. split.
    + intros [q Hq]. enum_map Hq; apply (bool_decide_unpack _); reflexivity.
    + intros Hi. enum_list Hi; by eexists.
  - intros i q Hq. enum_map Hq; apply (bool_decide_unpack _); reflexivity.
  - intros i q Hq. by enum_map Hq.
  - intros i q Hq. by enum_map Hq.
  - intros i q p Hq Hp. enum_map Hq; cbn in Hp; enum_list Hp. eexists. split; [reflexivity|]. cbn. split; [done|lia].
  - intros p x Hp. enum_map Hp; cbn; (split; [lia|]); intros i [= <-]; apply (bool_decide_unpack _); reflexivity.
Qed.

Lemma ex_queued p : queued ex_state p = (p =? 3).
Proof.
  apply Bool.eq_true_iff_eq. rewrite queued_true, Z.eqb_eq. split.
  - intros (i & q & Hq & Hp). by enum_map Hq; cbn in Hp; enum_list Hp.
  - intros ->. exists 1, (mk_rq [3] 1 16). split; [done|left].
Qed.

Lemma ex_sched_inv : sched_inv (queues_ok kernel_ring) ex_state.
Proof.
  constructor.
  - apply ex_queues_ok.
  - by eexists.
  - by eexists.
  - intros p. rewrite ex_queued, Z.eqb_eq. intros ->. done.
  - intros p Hr Hc Hi. rewrite ex_queued. unfold proc_is in Hr. apply fmap_Some in Hr as (x & Hx & Hr).
    by enum_map Hx.
Qed.

Lemma wakeup_proc_spec_witness : exists s', wakeup_proc MLFQ_sched_class 2 ex_state = Ret (tt, s') /\
  sched_inv (queues_ok kernel_ring) s' /\ same_but 2 ex_state s' /\
  core_of <$> procs s' !! 2 = Some (PROC_RUNNABLE, 2, 2, 0, 0, None).
Proof.
  apply (wakeup_proc_spec ex_state 2 (mk_proc PROC_SLEEPING 2 2 false WT_TIMER (Some 1) 3 0 None)).
  - exact ex_sched_inv.
  - reflexivity.
  - discriminate.
Defined.

Lemma schedule_spec_witness : exists s', schedule MLFQ_sched_class ex_state = Ret (tt, s') /\
  sched_inv (queues_ok kernel_ring) s'.
Proof.
  destruct (schedule_spec (sc := MLFQ_sched_class) ex_state ex_sched_inv) as (s' & ? & ? & _).
  by exists s'.
Defined.

Lemma mlfq_enqueue_feedback_witness :
  exists s' q q' x', MLFQ_enqueue rq0 1 ex_state = Ret (tt, s') /\ queues_ok kernel_ring s' /\
    rqs ex_state !! 1 = Some q /\ rqs s' !! 1 = Some q' /\ run_list q' = run_list q ++ [1] /\
    (forall i, i <> 1 -> rqs s' !! i = rqs ex_state !! i) /\
    procs s' !! 1 = Some x' /\ prq x' = Some 1 /\ time_slice x' = max_time_slice q.
Proof.
  apply (mlfq_enqueue_feedback ex_state 1 (mk_proc PROC_RUNNABLE 1 4 false 0 (Some 0) 0 0 None)).
  - exact ex_queues_ok.
  - reflexivity.
  - reflexivity.
Defined.

Lemma mlfq_pick_highest_witness : MLFQ_pick_next rq0 ex_state = Ret (Some 3, ex_state).
Proof. apply (mlfq_pick_highest ex_state ex_queues_ok). Defined.

Definition boot_state : kstate := mk_kstate
  (list_to_map [(0, mk_proc PROC_RUNNABLE 0 0 false 0 None 0 0 None)]) 0 0
  (list_to_map [(0, mk_rq [] 0 0); (1, mk_rq [] 0 0); (2, mk_rq [] 0 0); (3, mk_rq [] 0 0)])
  [] ∅ [] ∅ ∅ 0 (mk_ipc ∅ ∅ ∅ []).

Lemma sched_init_spec_witness :
  exists s', sched_init boot_state = Ret (tt, s') /\ queues_ok kernel_ring s'.
Proof.
  destruct (sched_init_spec boot_state) as (s' & ? & ? & _).
  - intros i. split.
    + intros [q Hq]. enum_map Hq; apply (bool_decide_unpack _); reflexivity.
    + intros Hi. enum_list Hi; by eexists.
  - intros p x Hp. enum_map Hp. cbn. split; [done|lia].
  - by exists s'.
Defined.

End SchedPolicies.
