(* ===== verification/Timers.v ===== *)
(** * Timers: the delta list of sched.c implements a list of deadlines

    [timer_list] keeps, in each timer, the time left after the one before it.
    [pending s] is what the list stands for: every timer with the number of ticks
    left until it fires.  The operations refine insertion, removal and a tick on
    that list. *)

From S2P Require Import Prelude Kern Sched SchedInv SchedPolicies.
Import Kern Sched SchedInv SchedPolicies.
Open Scope Z_scope.

Module Timers.

Definition delta (tm : gmap Z timer) (t : Z) : Z := from_option expires 0 (tm !! t).

(** The timers of [l] with their deadlines, counted from [acc]. *)
Fixpoint times (tm : gmap Z timer) (acc : Z) (l : list Z) : list (Z * Z) :=
  match l with
  | [] => []
  | t :: l' => let x := acc + delta tm t in (t, x) :: times tm x l'
  end.

Definition pending (s : kstate) : list (Z * Z) := times (timers s) 0 (timer_list s).

(** The abstract operations. *)
Fixpoint insert_time (t e : Z) (l : list (Z * Z)) : list (Z * Z) :=
  match l with
  | [] => [(t, e)]
  | (u, x) :: l' => if e <? x then (t, e) :: (u, x) :: l' else (u, x) :: insert_time t e l'
  end.

Definition remove_time (t : Z) (l : list (Z * Z)) : list (Z * Z) := base.filter (fun x => x.1 <> t) l.

Definition tick_times (l : list (Z * Z)) : list (Z * Z) :=
  (fun x => (x.1, x.2 - 1)) <$> base.filter (fun x => x.2 <> 1) l.

(** ** The invariant *)

(** [unsigned int expires], in every timer. *)
Definition typed (tm : gmap Z timer) : Prop := forall t x, tm !! t = Some x -> is_u32 (expires x).

Record timers_ok (s : kstate) : Prop := {
  to_nodup : NoDup (timer_list s);
  to_typed : typed (timers s);
  to_known : forall t, t ∈ timer_list s -> exists x p, timers s !! t = Some x /\ tproc x = Some p;
  to_due : forall t x, (t, x) ∈ pending s -> 0 < x < 2 ^ 32
}.

(** The state with other timers: what the timer operations change. *)
Definition with_timers (tm : gmap Z timer) (l : list Z) (s : kstate) : kstate :=
  upd_timers (fun _ => tm) (upd_timer_list (fun _ => l) s).

Lemma with_timers_id s : with_timers (timers s) (timer_list s) s = s.
Proof. by destruct s. Qed.

(** The processes of the timers do not change. *)
Definition same_tprocs (tm tm' : gmap Z timer) : Prop :=
  forall t, tproc <$> tm' !! t = tproc <$> tm !! t.

#[export] Instance same_tprocs_preorder : PreOrder same_tprocs.
Proof. split; [by intros tm t|]. intros x y z H1 H2 t. by rewrite H2. Qed.

Lemma same_tprocs_alter tm t f :
  (forall x, tproc (f x) = tproc x) -> same_tprocs tm (alter f t tm).
Proof.
  intros Hf u. rewrite lookup_alter. case_decide; [subst|done].
  destruct (tm !! u); cbn; [by rewrite Hf|done].
Qed.

Lemma typed_alter tm t f : typed tm -> (forall x, is_u32 (expires (f x))) -> typed (alter f t tm).
Proof.
  intros Ht Hf u x. rewrite lookup_alter. case_decide; [subst|apply Ht].
  by intros (y & _ & ->)%fmap_Some.
Qed.

(** ** Deadlines *)

Lemma times_fst tm acc l : (times tm acc l).*1 = l.
Proof. revert acc. induction l as [|t l IH]; intros acc; cbn; [done|]. by rewrite IH. Qed.

Lemma times_ext tm tm' acc l :
  (forall t, t ∈ l -> tm' !! t = tm !! t) -> times tm' acc l = times tm acc l.
Proof.
  revert acc. induction l as [|t l IH]; intros acc H; cbn; [done|].
  unfold delta. rewrite H by set_solver. f_equal. apply IH. intros; apply H. set_solver.
Qed.

Fixpoint last_time (tm : gmap Z timer) (acc : Z) (l : list Z) : Z :=
  match l with [] => acc | t :: l' => last_time tm (acc + delta tm t) l' end.

Lemma times_app tm acc l1 l2 :
  times tm acc (l1 ++ l2) = times tm acc l1 ++ times tm (last_time tm acc l1) l2.
Proof. revert acc. induction l1 as [|t l IH]; intros acc; cbn; [done|]. by rewrite IH. Qed.

Lemma last_time_ext tm tm' acc l :
  (forall t, t ∈ l -> tm' !! t = tm !! t) -> last_time tm' acc l = last_time tm acc l.
Proof.
  revert acc. induction l as [|t l IH]; intros acc H; cbn; [done|].
  unfold delta. rewrite H by set_solver. apply IH. intros; apply H. set_solver.
Qed.

Lemma last_time_app tm acc l1 l2 :
  last_time tm acc (l1 ++ l2) = last_time tm (last_time tm acc l1) l2.
Proof. revert acc. induction l1 as [|t l IH]; intros acc; cbn; [done|]. by rewrite IH. Qed.

Lemma times_ge tm acc l t x :
  (forall u, u ∈ l -> 0 <= delta tm u) -> (t, x) ∈ times tm acc l -> acc <= x.
Proof.
  revert acc. induction l as [|u l IH]; intros acc Hd Hin; cbn in Hin; [by apply not_elem_of_nil in Hin|].
  apply elem_of_cons in Hin as [[= -> ->]|Hin].
  - specialize (Hd u ltac:(left)). lia.
  - apply IH in Hin; [|set_solver]. specialize (Hd u ltac:(left)). lia.
Qed.

Lemma delta_typed tm u : typed tm -> is_u32 (delta tm u).
Proof.
  intros H. unfold delta. destruct (tm !! u) eqn:E; cbn; [by eapply H|unfold is_u32; lia].
Qed.

Lemma last_time_ge tm acc l : (forall u, is_u32 (delta tm u)) -> acc <= last_time tm acc l.
Proof.
  intros Hd. revert acc. induction l as [|u l IH]; intros acc; cbn; [lia|].
  specialize (IH (acc + delta tm u)). specialize (Hd u). unfold is_u32 in Hd. lia.
Qed.

(** ** [add_timer] *)

Lemma add_timer_loop_ok s t acc : forall after before tm e p,
  NoDup (t :: before ++ after) -> tm !! t = Some (mk_timer e p) -> typed tm ->
  (forall u, u ∈ after -> is_Some (tm !! u)) ->
  exists tm' after',
    add_timer_loop t before after (with_timers tm (before ++ after) s)
      = Ret (tt, with_timers tm' (before ++ after') s) /\
    (forall u, u <> t -> u ∉ after -> tm' !! u = tm !! u) /\
    times tm' acc after' = insert_time t (acc + e) (times tm acc after) /\
    typed tm' /\ same_tprocs tm tm'.
Proof.
  intros after. revert acc.
  induction after as [|le rest IH]; intros acc before tm e p Hn Ht Hty Hk; cbn [add_timer_loop].
  - exists tm, [t]. split_and!; try done. cbn. unfold delta. by rewrite Ht.
  - destruct (Hk le) as [next Hle]; [left|].
    assert (le <> t /\ (le ∉ rest) /\ (t ∉ rest)) as (Hlt & Hlr & Htr).
    { apply NoDup_cons in Hn as [H1 Hn]. apply NoDup_app in Hn as (_ & _ & Hn).
      apply NoDup_cons in Hn as [? _]. set_solver. }
    assert (is_u32 e) as He by (by apply Hty in Ht).
    assert (is_u32 (expires next)) as Hex by (by apply Hty in Hle).
    mstep get_timer_ok; [|exact Ht]. mstep get_timer_ok; [|exact Hle]. cbn [expires].
    destruct (Z.ltb_spec e (expires next)) as [Hlt'|Hge].
    + mstep update_timer_ok; [|by exists next].
      exists (alter (fun n => mk_timer (u32 (expires n - e)) (tproc n)) le tm), (t :: le :: rest).
      split; [reflexivity|]. split_and!.
      * intros u ? Hu. rewrite lookup_alter_ne; [done|set_solver].
      * cbn. unfold delta. rewrite lookup_alter_ne, Ht, lookup_alter_eq, Hle by done. cbn.
        rewrite (proj2 (Z.ltb_lt _ _)) by lia. unfold is_u32 in *.
        rewrite u32_small by (unfold is_u32; lia).
        replace (acc + e + (expires next - e)) with (acc + expires next) by lia.
        rewrite (times_ext tm); [done|]. intros u Hu. rewrite lookup_alter_ne; [done|set_solver].
      * apply typed_alter; [done|]. intros; apply u32_range.
      * by apply same_tprocs_alter.
    + mstep update_timer_ok; [|by eexists]. cbn [tproc]. set (tm1 := alter (fun m => mk_timer (u32 (expires m - expires next)) (tproc m)) t tm).
      destruct (IH (acc + expires next) (before ++ [le]) tm1 (u32 (e - expires next)) p)
        as (tm' & after' & Hrun & Hout & Htimes & Hty' & Hs).
      * by rewrite <- app_assoc.
      * unfold tm1. by rewrite lookup_alter_eq, Ht.
      * apply typed_alter; [done|]. intros; apply u32_range.
      * intros u Hu. unfold tm1. rewrite lookup_alter_is_Some. apply Hk. set_solver.
      * exists tm', (le :: after'). rewrite <- !app_assoc in Hrun. split; [exact Hrun|]. split_and!.
        -- intros u Hu1 Hu2. rewrite Hout by set_solver. unfold tm1. by rewrite lookup_alter_ne.
        -- assert (delta tm' le = expires next) as Ed'.
           { unfold delta. rewrite Hout by done. unfold tm1. by rewrite lookup_alter_ne, Hle. }
           assert (delta tm le = expires next) as Ed by (unfold delta; by rewrite Hle).
           cbn [times insert_time]. rewrite Ed, Ed', (proj2 (Z.ltb_ge _ _)) by lia.
           f_equal. rewrite Htimes. unfold is_u32 in *.
           rewrite u32_small by (unfold is_u32; lia). f_equal; [lia|].
           apply times_ext. intros u Hu. unfold tm1. rewrite lookup_alter_ne; [done|set_solver].
        -- done.
        -- transitivity tm1; [|done]. by apply same_tprocs_alter.
Qed.

Lemma insert_time_perm t e l : insert_time t e l ≡ₚ (t, e) :: l.
Proof.
  induction l as [|[u x] l IH]; cbn; [done|]. case_bool; [done|].
  rewrite IH. apply Permutation_swap.
Qed.

Lemma pending_with tm l s : pending (with_timers tm l s) = times tm 0 l.
Proof. done. Qed.

(** The invariant from the abstract list and the frame of an operation. *)
Lemma timers_ok_from tm l s :
  NoDup l -> typed tm -> same_tprocs (timers s) tm ->
  (forall t, t ∈ l -> exists x p, timers s !! t = Some x /\ tproc x = Some p) ->
  (forall t x, (t, x) ∈ times tm 0 l -> 0 < x < 2 ^ 32) ->
  timers_ok (with_timers tm l s).
Proof.
  intros Hn Hty Hs Hk Hd. constructor; try done. intros t Ht. cbn in Ht |- *.
  destruct (Hk t Ht) as (x & p & Hx & Hp). specialize (Hs t). rewrite Hx in Hs. cbn in Hs.
  apply fmap_Some in Hs as (y & Hy & Ep). exists y, p. split; congruence.
Qed.

(** Adding a timer that is not pending, for a positive number of ticks [e],
    returns and makes it fire after exactly [e] ticks, after those already due at
    that time; no other timer's deadline moves, although the deltas stored in the
    list are rewritten. *)
Theorem add_timer_spec s t e p :
  timers_ok s -> t ∉ timer_list s -> timers s !! t = Some (mk_timer e (Some p)) -> 0 < e ->
  exists s', add_timer t s = Ret (tt, s') /\ timers_ok s' /\
    pending s' = insert_time t e (pending s) /\
    same_tprocs (timers s) (timers s') /\ s' = with_timers (timers s') (timer_list s') s.
Proof.
  intros [Hn Hty Hk Hd] Hnin Ht He. unfold add_timer. mstep get_timer_ok; [|exact Ht]. cbn [expires tproc].
  rewrite assert_true by (rewrite (proj2 (Z.ltb_lt _ _)) by done; by rewrite bool_decide_eq_true_2).
  rewrite bind_get, assert_true by (by rewrite bool_decide_eq_true_2).
  destruct (add_timer_loop_ok s t 0 (timer_list s) [] (timers s) e (Some p))
    as (tm' & l' & Hrun & _ & Htimes & Hty' & Hs); try done.
  { by apply NoDup_cons. }
  { intros u Hu. destruct (Hk u Hu) as (x & _ & -> & _). done. }
  cbn [app] in Hrun. rewrite with_timers_id in Hrun.
  assert (l' ≡ₚ t :: timer_list s) as Hl.
  { rewrite <- (times_fst tm' 0 l'), Htimes, insert_time_perm. cbn. by rewrite times_fst. }
  exists (with_timers tm' l' s). split_and!; try done. apply timers_ok_from; try done.
  - rewrite Hl. by apply NoDup_cons.
  - intros u. rewrite Hl. intros [->|Hu]%elem_of_cons; [eauto|by apply Hk].
  - intros u x. rewrite Htimes, insert_time_perm. intros [[= -> ->]|Hu]%elem_of_cons; [|by eapply Hd].
    apply Hty in Ht. unfold is_u32 in Ht. cbn in Ht. lia.
Qed.

(** ** [del_timer] *)

Lemma entry_after_app l1 t l2 : t ∉ l1 -> entry_after (l1 ++ t :: l2) t = List.head l2.
Proof.
  induction l1 as [|x l1 IH]; intros H; cbn.
  - by rewrite Z.eqb_refl.
  - rewrite (proj2 (Z.eqb_neq _ _)); [apply IH|]; set_solver.
Qed.

Lemma remove_time_notin t l : t ∉ l.*1 -> remove_time t l = l.
Proof.
  unfold remove_time. induction l as [|[u x] l IH]; intros H; [done|]. cbn in H.
  rewrite filter_cons_True, IH by set_solver. done.
Qed.

Lemma remove_time_middle t x l1 l2 :
  t ∉ l1.*1 -> t ∉ l2.*1 -> remove_time t (l1 ++ (t, x) :: l2) = l1 ++ l2.
Proof.
  intros H1 H2. unfold remove_time. rewrite filter_app, filter_cons_False by (cbn; tauto).
  f_equal; by apply remove_time_notin.
Qed.

(** Folding a timer's delta into its successor leaves every deadline alone. *)
Lemma del_timer_run s t l1 l2 :
  timers_ok s -> timer_list s = l1 ++ t :: l2 ->
  exists tm', del_timer t s = Ret (tt, with_timers tm' (l1 ++ l2) s) /\ typed tm' /\
    same_tprocs (timers s) tm' /\
    times tm' 0 (l1 ++ l2) = remove_time t (pending s).
Proof.
  intros Ho E. pose proof (to_nodup _ Ho) as Hn. rewrite E in Hn.
  apply NoDup_app in Hn as (Hn1 & Hn12 & [Ht2 Hn2]%NoDup_cons).
  assert (t ∉ l1) as Ht1 by (intros H; apply (Hn12 t H); left).
  destruct (to_known _ Ho t) as (x & p & Hx & _); [rewrite E; set_solver|].
  assert (pending s = times (timers s) 0 l1 ++
    (t, last_time (timers s) 0 l1 + expires x) ::
    times (timers s) (last_time (timers s) 0 l1 + expires x) l2) as Ep.
  { unfold pending. rewrite E, times_app. cbn. unfold delta. by rewrite Hx. }
  unfold del_timer. rewrite bind_get, bool_decide_eq_true_2 by (rewrite E; set_solver).
  mstep get_timer_ok; [|exact Hx]. rewrite E, entry_after_app by done.
  rewrite Ep, remove_time_middle by (by rewrite times_fst).
  set (a := last_time (timers s) 0 l1) in *.
  assert (forall tm, modify (upd_timer_list (remove t)) (with_timers tm (timer_list s) s)
    = Ret (tt, with_timers tm (l1 ++ l2) s)) as Hun.
  { intros tm. unfold modify, with_timers, upd_timer_list. cbn [timer_list upd_timers].
    by rewrite E, remove_middle. }
  assert ((expires x =? 0) || bool_decide (l2 = []) = true \/
    (expires x =? 0) = false /\ exists u l3, l2 = u :: l3) as [Hz|[Hz (u & l3 & ->)]].
  { destruct (expires x =? 0), l2; cbn; eauto. }
  { exists (timers s). split_and!; [|apply Ho|done|].
    - rewrite <- Hun, with_timers_id. destruct (expires x =? 0), l2; done.
    - rewrite times_app. fold a. apply orb_true_iff in Hz as [Hz%Z.eqb_eq|Hz%bool_decide_eq_true].
      + by rewrite Hz, Z.add_0_r.
      + by subst l2. }
  rewrite Hz. cbn [negb List.head].
  destruct (to_known _ Ho u) as (y & q & Hy & _); [rewrite E; set_solver|].
  mstep update_timer_ok; [|by rewrite Hy].
  exists (alter (fun n => mk_timer (u32 (expires n + expires x)) (tproc n)) u (timers s)).
  apply NoDup_cons in Hn2 as [Hu3 _].
  assert (u ∉ l1) as Hu1 by (intros H; apply (Hn12 u H); set_solver).
  split_and!.
  - by rewrite <- Hun.
  - apply typed_alter; [apply Ho|]. intros; apply u32_range.
  - by apply same_tprocs_alter.
  - rewrite times_app. f_equal.
    { apply times_ext. intros v Hv. rewrite lookup_alter_ne; [done|set_solver]. }
    rewrite (last_time_ext (timers s)) by (intros v Hv; rewrite lookup_alter_ne; [done|set_solver]).
    fold a. cbn. unfold delta. rewrite lookup_alter_eq, Hy. cbn.
    assert (0 <= a) by (apply last_time_ge; intros; apply delta_typed, Ho).
    assert (a + expires x + expires y < 2 ^ 32).
    { apply (to_due _ Ho u). rewrite Ep. cbn. unfold delta. rewrite Hy. set_solver. }
    pose proof (to_typed _ Ho t x Hx). pose proof (to_typed _ Ho u y Hy). unfold is_u32 in *.
    rewrite u32_small by (unfold is_u32; lia).
    replace (a + (expires y + expires x)) with (a + expires x + expires y) by lia. f_equal.
    apply times_ext. intros v Hv. rewrite lookup_alter_ne; [done|set_solver].
Qed.

(** Cancelling a pending timer returns and removes it; every other timer
    still fires at its own deadline. *)
Theorem del_timer_spec s t :
  timers_ok s ->
  exists s', del_timer t s = Ret (tt, s') /\ timers_ok s' /\
    (t ∉ timer_list s') /\ pending s' = remove_time t (pending s) /\
    same_tprocs (timers s) (timers s') /\ s' = with_timers (timers s') (timer_list s') s.
Proof.
  intros Ho. destruct (decide (t ∈ timer_list s)) as [Hin|Hin].
  - pose proof Hin as (l1 & l2 & E)%list_elem_of_split.
    destruct (del_timer_run s t l1 l2 Ho E) as (tm' & Hrun & Hty & Hs & Htimes).
    pose proof (to_nodup _ Ho) as Hn. rewrite E in Hn.
    exists (with_timers tm' (l1 ++ l2) s). split_and!; try done.
    + apply timers_ok_from; try done.
      * apply NoDup_app in Hn as (? & Hd & [_ ?]%NoDup_cons). apply NoDup_app. split_and!; try done.
        intros u Hu ?. apply (Hd u Hu). by right.
      * intros u Hu. apply (to_known _ Ho). rewrite E. set_solver.
      * rewrite Htimes. intros u x [_ Hu]%list_elem_of_filter. by apply (to_due _ Ho u).
    + cbn. apply NoDup_app in Hn as (_ & Hd & [? _]%NoDup_cons).
      rewrite elem_of_app. intros [Ht|Ht]; [|done]. apply (Hd t Ht). left.
  - exists s. split_and!; try done.
    + unfold del_timer. by rewrite bind_get, bool_decide_eq_false_2.
    + rewrite remove_time_notin; [done|]. unfold pending. by rewrite times_fst.
    + by rewrite with_timers_id.
Qed.

(** ** One tick of the list *)

Lemma times_shift tm acc d l : times tm (acc + d) l = (fun x => (x.1, x.2 + d)) <$> times tm acc l.
Proof.
  revert acc. induction l as [|t l IH]; intros acc; cbn; [done|].
  replace (acc + d + delta tm t) with (acc + delta tm t + d) by lia. by rewrite IH.
Qed.

Lemma times_zero tm acc l :
  (forall u, u ∈ l -> delta tm u = 0) -> times tm acc l = (fun u => (u, acc)) <$> l /\ last_time tm acc l = acc.
Proof.
  intros Hd. induction l as [|t l IH]; cbn; [done|].
  rewrite (Hd t), Z.add_0_r by left. destruct IH as [-> ->]; [set_solver|done].
Qed.

Lemma times_pos tm l t x :
  typed tm -> (forall u, List.head l = Some u -> delta tm u <> 0) ->
  (t, x) ∈ times tm 0 l -> 0 < x.
Proof.
  intros Hty Hh. destruct l as [|u l]; cbn; [by intros ?%not_elem_of_nil|].
  pose proof (Hh u eq_refl) as H0. pose proof (delta_typed tm u Hty) as H1. unfold is_u32 in H1.
  intros [[= -> ->]|Hin]%elem_of_cons; [lia|]. apply times_ge in Hin; [lia|].
  intros v _. by apply delta_typed.
Qed.

(** The head's delta, one less: every deadline is one less. *)
Lemma times_dec tm t l x :
  tm !! t = Some x -> t ∉ l -> is_u32 (expires x) -> expires x <> 0 ->
  times (alter (fun m => mk_timer (u32 (expires m - 1)) (tproc m)) t tm) 0 (t :: l)
    = (fun x => (x.1, x.2 - 1)) <$> times tm 0 (t :: l).
Proof.
  intros Hx Hl Hu Hz. cbn. unfold delta. rewrite lookup_alter_eq, Hx. cbn.
  unfold is_u32 in Hu. rewrite u32_small by (unfold is_u32; lia). f_equal.
  rewrite (times_ext tm) by (intros v Hv; rewrite lookup_alter_ne; [done|set_solver]).
  apply (times_shift tm (expires x) (-1)).
Qed.

Lemma filter_all (P : Z * Z -> Prop) `{!forall x, Decision (P x)} (l : list (Z * Z)) :
  (forall x, x ∈ l -> P x) -> base.filter P l = l.
Proof.
  induction l as [|x l IH]; intros Hx; [done|].
  rewrite filter_cons_True, IH; [done| |by apply Hx; left]. intros; apply Hx. by right.
Qed.

Lemma filter_none (P : Z * Z -> Prop) `{!forall x, Decision (P x)} (l : list (Z * Z)) :
  (forall x, x ∈ l -> ~ P x) -> base.filter P l = [].
Proof.
  induction l as [|x l IH]; intros Hx; [done|].
  rewrite filter_cons_False, IH; [done| |by apply Hx; left]. intros; apply Hx. by right.
Qed.

(** The timers left after a tick are the abstract ones. *)
Lemma tick_times_split tm tm1 l due rest :
  typed tm1 -> times tm1 0 l = (fun x => (x.1, x.2 - 1)) <$> times tm 0 l ->
  l = due ++ rest -> (forall u, u ∈ due -> delta tm1 u = 0) ->
  (forall u, List.head rest = Some u -> delta tm1 u <> 0) ->
  times tm1 0 rest = tick_times (times tm 0 l) /\
  (forall t, (t, 1) ∈ times tm 0 l <-> t ∈ due).
Proof.
  intros Hty E El Hz Hh.
  assert (times tm1 0 l = ((fun u => (u, 0)) <$> due) ++ times tm1 0 rest) as E1.
  { rewrite El, times_app. by destruct (times_zero tm1 0 due Hz) as [-> ->]. }
  assert (times tm 0 l = (fun x => (x.1, x.2 + 1)) <$> times tm1 0 l) as E2.
  { rewrite E, <- list_fmap_compose. symmetry. etransitivity; [|apply list_fmap_id].
    apply list_fmap_ext. intros ? [u x] _. cbn. f_equal. lia. }
  rewrite E2, E1, fmap_app, <- list_fmap_compose. split.
  - unfold tick_times. rewrite filter_app, filter_none, filter_all; cbn [app].
    + rewrite <- list_fmap_compose. symmetry. etransitivity; [|apply list_fmap_id].
      apply list_fmap_ext. intros ? [u x] _. cbn. f_equal. lia.
    + intros ? ([u x] & -> & Hin)%list_elem_of_fmap. apply times_pos in Hin; [cbn; lia|done|done].
    + intros ? (u & -> & Hin)%list_elem_of_fmap. cbn. lia.
  - intros t. rewrite elem_of_app, !list_elem_of_fmap. split.
    + intros [(u & [= ->] & ?)|([u x] & [= -> ?] & Hin)]; [done|]. apply times_pos in Hin; [lia|done|done].
    + intros Ht. left. by exists t.
Qed.

(** ** The timer interrupt *)

Section Tick.
Context {sc : sched_class} {I : kstate -> Prop} {Hsp : SchedPolicy sc I}.

(** A process a timer may wake: not a zombie, and its sleep can be interrupted. *)
Definition wakeable (x : proc) : Prop :=
  pstate x <> PROC_ZOMBIE /\
  (wait_state x = 0 \/ Z.land (wait_state x) WT_INTERRUPTED <> 0).

Definition wakes (s : kstate) (t p : Z) : Prop := tproc <$> timers s !! t = Some (Some p).

Definition all_wakeable (s : kstate) : Prop :=
  forall t, t ∈ timer_list s ->
    exists p x, wakes s t p /\ procs s !! p = Some x /\ wakeable x.

Lemma with_timers_queued tm l s p : queued (with_timers tm l s) p = queued s p.
Proof. done. Qed.

Lemma with_timers_inv tm l s : sched_inv I s -> sched_inv I (with_timers tm l s).
Proof using Hsp. intros [? ? ? ? ?]. constructor; try done. by apply (sp_stable s). Qed.

Lemma woken_wakeable p s s' q x :
  woken p s s' -> procs s !! q = Some x -> wakeable x ->
  exists x', procs s' !! q = Some x' /\ wakeable x'.
Proof using Type.
  intros W Hq [Hz Hw]. destruct (decide (q = p)) as [->|Hne].
  - destruct (wk_wait _ _ _ W x Hq) as (x' & Hx' & Hws). exists x'. split; [done|]. split.
    + pose proof (wk_self _ _ _ W) as H. unfold proc_is in H. rewrite Hx' in H. cbn in H. congruence.
    + destruct Hws as [->| ->]; [by left|done].
  - pose proof (wk_other _ _ _ W q Hne) as C. rewrite Hq in C. unfold core_of in C.
    apply fmap_Some in C as (x' & Hx' & C). exists x'. split; [done|].
    injection C as E1 _ _ E2 _ _. unfold wakeable. by rewrite <- E1, <- E2.
Qed.

(** *** The loop: [n] timers at the head are due *)

(** The effect of waking the owners of the timers [l]. *)
Record fired (l : list Z) (s s' : kstate) : Prop := {
  fd_current : current s' = current s;
  fd_idle : idleproc s' = idleproc s;
  fd_known : forall q, is_Some (procs s' !! q) <-> is_Some (procs s !! q);
  fd_woken : forall t p, t ∈ l -> wakes s t p -> proc_is s' p PROC_RUNNABLE;
  fd_other : forall q, (forall t, t ∈ l -> ~ wakes s t q) ->
      core_of <$> procs s' !! q = core_of <$> procs s !! q
}.

Instance wakes_dec s t p : Decision (wakes s t p).
Proof using Type. unfold wakes. apply _. Defined.

Lemma fired_nil s : fired [] s s.
Proof using Type. constructor; try done. intros t p H. by apply not_elem_of_nil in H. Qed.

Lemma fired_cons s s1 s2 s' t p due :
  wakes s t p -> woken p s s1 -> timers s2 = timers s -> procs s2 = procs s1 ->
  current s2 = current s1 -> idleproc s2 = idleproc s1 -> is_Some (procs s !! p) ->
  fired due s2 s' -> fired (t :: due) s s'.
Proof using Type.
  intros Ht [R Ho Hs Hw] Etm Ep Ec Ei [x Hx] [Fc Fi Fk Fw Fo].
  assert (forall u q, wakes s2 u q <-> wakes s u q) as Hwk by (intros; unfold wakes; by rewrite Etm).
  constructor.
  - rewrite Fc, Ec. apply R.
  - rewrite Fi, Ei. apply R.
  - intros q. rewrite Fk, Ep. destruct (decide (q = p)) as [->|Hq].
    + destruct (Hw x Hx) as (x' & -> & _). by rewrite Hx.
    + rewrite <- (fmap_is_Some core_of), Ho, fmap_is_Some by done. done.
  - intros u q [->|Hu]%elem_of_cons Hq; [|by apply (Fw u); [|apply Hwk]].
    unfold wakes in Ht, Hq. rewrite Ht in Hq. injection Hq as <-.
    destruct (decide (Exists (fun u => wakes s u p) due)) as [(u & Hu & ?)%Exists_exists|Hn].
    + apply (Fw u); [done|]. by apply Hwk.
    + unfold proc_is. specialize (Fo p). rewrite Ep in Fo.
      assert (pstate <$> procs s' !! p = pstate <$> procs s1 !! p) as ->; [|done].
      apply (core_eq_pstate _ _), Fo. intros u Hu Hw'. apply Hn, Exists_exists. exists u. by rewrite <- Hwk.
  - intros q Hq. rewrite Fo, Ep.
    + apply Ho. intros ->. apply (Hq t); [left|done].
    + intros u Hu Hw'. apply (Hq u); [by right|]. by apply Hwk.
Qed.

Lemma del_timer_due s t x :
  t ∈ timer_list s -> timers s !! t = Some x -> expires x = 0 ->
  del_timer t s = Ret (tt, upd_timer_list (remove t) s).
Proof using Type.
  intros Hin Hx Hz. unfold del_timer. rewrite bind_get, bool_decide_eq_true_2 by done.
  mstep get_timer_ok; [|exact Hx]. by rewrite Hz.
Qed.

Lemma timers_only_inv f s : sched_inv I s -> sched_inv I (upd_timer_list f s).
Proof using Hsp.
  intros H. apply (with_timers_inv (timers s) (f (timer_list s))) in H. by destruct s.
Qed.

Lemma run_timer_loop_ok : forall fuel l t s,
  timer_list s = t :: l -> (length l < fuel)%nat -> NoDup (t :: l) -> sched_inv I s ->
  all_wakeable s ->
  exists s' due rest, run_timer_loop sc fuel t s = Ret (tt, s') /\ t :: l = due ++ rest /\
    timer_list s' = rest /\ timers s' = timers s /\
    (forall u, u ∈ due -> delta (timers s) u = 0) /\
    (forall u, List.head rest = Some u -> delta (timers s) u <> 0) /\
    sched_inv I s' /\ fired due s s'.
Proof using Hsp.
  induction fuel as [|fuel IH]; intros l t s El Hf Hn Hi Hw; [lia|].
  destruct (Hw t) as (p & x & Hwt & Hp & Hz & Hws); [rewrite El; left|].
  pose proof Hwt as (tm & Htm & Etp)%fmap_Some. cbn [run_timer_loop].
  mstep get_timer_ok; [|exact Htm].
  assert (delta (timers s) t = expires tm) as Ed by (unfold delta; by rewrite Htm).
  destruct (Z.eqb_spec (expires tm) 0) as [Ez|Ez].
  2:{ exists s, [], (t :: l). split_and!; try done; [|intros u [= <-]; by rewrite Ed|apply fired_nil].
      intros u H. by apply not_elem_of_nil in H. }
  rewrite bind_get, El. cbn [entry_after]. rewrite Z.eqb_refl, (bind_deref _ p) by done.
  mstep get_proc_ok; [|exact Hp].
  replace (if negb (wait_state x =? 0) then _ else _) with (@ret kstate unit tt)
    by (destruct (Z.eqb_spec (wait_state x) 0); [done|];
        destruct Hws as [?|Hws]; [done|]; by rewrite (proj2 (Z.eqb_neq _ _) Hws)).
  rewrite bind_ret.
  destruct (wakeup_proc_woken s p x) as (s1 & Hrun1 & Hi1 & W); try done.
  rewrite (bind_step _ _ _ _ _ Hrun1). pose proof (wk_rest _ _ _ W) as R.
  apply NoDup_cons in Hn as [Htl Hnl].
  mstep del_timer_due; [|rewrite (rs_tlist _ _ R), El; left|by rewrite (rs_timers _ _ R)|done].
  set (s2 := upd_timer_list (remove t) s1).
  assert (timer_list s2 = l) as El2.
  { cbn. rewrite (rs_tlist _ _ R), El. apply (remove_middle t [] l); [|done]. by intros ?%not_elem_of_nil. }
  assert (timers s2 = timers s) as Etm by apply R.
  assert (sched_inv I s2) as Hi2 by (by apply timers_only_inv).
  destruct l as [|t' l]; cbn [List.head].
  - exists s2, [t], []. split_and!; try done.
    + intros u ->%list_elem_of_singleton. by rewrite Ed.
    + eapply (fired_cons s s1 s2 s2 t p []); try done. apply fired_nil.
  - destruct (IH l t' s2) as (s' & due & rest & Hrun & E & E1 & E2 & Hz' & Hh & Hi' & Hfd); try done.
    { cbn in Hf. lia. }
    { intros u Hu. destruct (Hw u) as (q & y & ? & Hq & Hy); [rewrite El, <- El2; by right|].
      destruct (woken_wakeable p s s1 q y W Hq Hy) as (y' & ? & ?).
      exists q, y'. split_and!; try done. unfold wakes. by rewrite Etm. }
    exists s', (t :: due), rest. rewrite Etm in *. split_and!; try done.
    + by rewrite E.
    + intros u [->|Hu]%elem_of_cons; [by rewrite Ed|by apply Hz'].
    + by apply (fired_cons s s1 s2 s' t p due).

Qed.

(** The policy's tick at the end of the interrupt. *)
Lemma proc_tick_ok s :
  sched_inv I s ->
  exists s', sched_class_proc_tick sc (current s) s = Ret (tt, s') /\ sched_inv I s' /\ same_core s s'.
Proof using Hsp.
  intros Hi. unfold sched_class_proc_tick. rewrite bind_get.
  assert (exists s', (if negb (current s =? idleproc s) then sc_proc_tick sc rq0 (current s)
    else update_proc (set_need_resched true) (current s)) s = Ret (tt, s') /\ I s' /\
    same_core s s' /\ forall q, queued s' q = queued s q) as (s' & Hrun & HI & C & Hq).
  { destruct (_ =? _); cbn [negb].
    - eexists. rewrite update_proc_ok by apply Hi. split_and!; [done| |by apply core_alter|done].
      apply (sp_stable s); [by apply slots_alter|apply Hi].
    - apply (sp_proc_tick s); [apply Hi..|]. destruct (queued s (current s)) eqn:E; [|done].
      by apply (si_queued _ _ Hi) in E as (_ & ? & _). }
  exists s'. split_and!; try done. pose proof (sc_rest _ _ C) as R.
  constructor; rewrite ?(rs_current _ _ R), ?(rs_idle _ _ R); [done|..].
  - apply (core_known _ _ _ C), Hi.
  - apply (core_known _ _ _ C), Hi.
  - intros p. rewrite Hq, (core_pstate _ _ _ _ C). apply Hi.
  - intros p. rewrite Hq, (core_pstate _ _ _ _ C). apply Hi.
Qed.

Lemma tick_bounds l t x :
  (forall u y, (u, y) ∈ l -> 0 < y < 2 ^ 32) -> (t, x) ∈ tick_times l -> 0 < x < 2 ^ 32.
Proof using Type.
  intros H ([u y] & [= -> ->] & [Hy Hin]%list_elem_of_filter)%list_elem_of_fmap.
  apply H in Hin. cbn in *. lia.
Qed.

(** The list part of the interrupt, for a list with a timer. *)
Lemma tick_list_ok s t l :
  timer_list s = t :: l -> sched_inv I s -> timers_ok s -> all_wakeable s ->
  exists s' due, (tm <- get_timer t ;; assert (negb (expires tm =? 0)) ;;
      update_timer (fun m => mk_timer (u32 (expires m - 1)) (tproc m)) t ;;
      run_timer_loop sc (length (timer_list s)) t) s = Ret (tt, s') /\
    sched_inv I s' /\ timers_ok s' /\ pending s' = tick_times (pending s) /\
    same_tprocs (timers s) (timers s') /\
    (forall u, (u, 1) ∈ pending s <-> u ∈ due) /\ fired due s s'.
Proof using Hsp.
  intros El Hi Ho Hw. pose proof (to_nodup _ Ho) as Hn. rewrite El in Hn.
  destruct (to_known _ Ho t) as (x & p & Hx & Hp); [rewrite El; left|].
  assert (is_u32 (expires x)) as Hu by (by apply (to_typed _ Ho t)).
  assert (expires x <> 0) as Hz.
  { destruct (to_due _ Ho t (delta (timers s) t)) as [Hd _]; [unfold pending; rewrite El; left|].
    unfold delta in Hd. rewrite Hx in Hd. cbn in Hd. lia. }
  mstep get_timer_ok; [|exact Hx].
  rewrite assert_true by (by rewrite (proj2 (Z.eqb_neq _ _) Hz)).
  mstep update_timer_ok; [|by rewrite Hx].
  set (s1 := upd_timers _ s).
  assert (same_tprocs (timers s) (timers s1)) as Hs by (by apply same_tprocs_alter).
  destruct (run_timer_loop_ok (length (timer_list s)) l t s1)
    as (s' & due & rest & Hrun & E & E1 & E2 & Hz' & Hh & Hi' & [Fc Fi Fk Fw Fo]); try done.
  { rewrite El. cbn. lia. }
  { pose proof (with_timers_inv (timers s1) (timer_list s) s Hi) as H. by destruct s. }
  { intros u Hin. destruct (Hw u Hin) as (q & y & ? & ? & ?). exists q, y. split_and!; try done.
    unfold wakes in *. by rewrite Hs. }
  destruct (tick_times_split (timers s) (timers s1) (t :: l) due rest) as [Htick Hdue]; try done.
  { apply typed_alter; [apply Ho|]. intros; apply u32_range. }
  { apply (times_dec _ _ _ x); try done. by apply NoDup_cons in Hn as [? _]. }
  rewrite <- El in Htick, Hdue. fold (pending s) in Htick, Hdue.
  assert (pending s' = tick_times (pending s)) as Hpend by (unfold pending at 1; by rewrite E1, E2).
  assert (forall u q, wakes s1 u q <-> wakes s u q) as Hwk by (intros; unfold wakes; by rewrite Hs).
  exists s', due. split_and!; try done.
  - constructor.
    + rewrite E1. rewrite E in Hn. by apply NoDup_app in Hn as (_ & _ & ?).
    + rewrite E2. apply typed_alter; [apply Ho|]. intros; apply u32_range.
    + intros u Hin. rewrite E2. destruct (to_known _ Ho u) as (y & q & Hy & Hq).
      { rewrite El, E, <- E1. set_solver. }
      specialize (Hs u). rewrite Hy in Hs. cbn in Hs. apply fmap_Some in Hs as (y' & Hy' & Ep).
      exists y', q. split; [exact Hy'|congruence].
    + rewrite Hpend. intros u y. apply tick_bounds, (to_due _ Ho).
  - by rewrite E2.
  - constructor; try done.
    + intros u q. rewrite <- Hwk. apply Fw.
    + intros q Hq. apply Fo. intros u. rewrite Hwk. apply Hq.
Qed.

(** At every timer interrupt, [run_timer_list] returns and every pending
    timer comes one tick closer; exactly those that had one tick left fire: they
    leave the list and their processes are made runnable (and are on a run queue,
    by the scheduler's invariant), while every other process keeps its state. *)
Theorem run_timer_list_spec s :
  sched_inv I s -> timers_ok s -> all_wakeable s ->
  exists s', run_timer_list sc s = Ret (tt, s') /\ sched_inv I s' /\ timers_ok s' /\
    pending s' = tick_times (pending s) /\ current s' = current s /\
    (forall t p, (t, 1) ∈ pending s -> wakes s t p -> proc_is s' p PROC_RUNNABLE) /\
    (forall q, (forall t, (t, 1) ∈ pending s -> ~ wakes s t q) ->
       core_of <$> procs s' !! q = core_of <$> procs s !! q).
Proof using Hsp.
  intros Hi Ho Hw.
  assert (exists s1 due, (match timer_list s with
     | [] => ret tt
     | t :: _ => tm <- get_timer t ;; assert (negb (expires tm =? 0)) ;;
         update_timer (fun m => mk_timer (u32 (expires m - 1)) (tproc m)) t ;;
         run_timer_loop sc (length (timer_list s)) t end) s = Ret (tt, s1) /\
    sched_inv I s1 /\ timers_ok s1 /\ pending s1 = tick_times (pending s) /\
    (forall u, (u, 1) ∈ pending s <-> u ∈ due) /\ fired due s s1)
    as (s1 & due & Hrun & Hi1 & Ho1 & Hp & Hdue & Hf).
  { destruct (timer_list s) as [|t l] eqn:El.
    - exists s, []. unfold pending. rewrite El. split_and!; try done; [|apply fired_nil].
      intros u. by rewrite !elem_of_nil.
    - destruct (tick_list_ok s t l) as (s1 & due & Hrun & H); try done.
      rewrite El in Hrun. exists s1, due. tauto. }
  unfold run_timer_list. rewrite bind_get, (bind_step _ _ _ _ _ Hrun), bind_get.
  destruct (proc_tick_ok s1 Hi1) as (s' & Hrun' & Hi' & C). pose proof (sc_rest _ _ C) as R.
  exists s'. split_and!; try done.
  - destruct Ho1. constructor; unfold pending; by rewrite ?(rs_tlist _ _ R), ?(rs_timers _ _ R).
  - rewrite <- Hp. unfold pending. by rewrite (rs_tlist _ _ R), (rs_timers _ _ R).
  - rewrite (rs_current _ _ R). apply Hf.
  - intros t p Ht Hwk. apply (core_pstate _ _ _ _ C), (fd_woken _ _ _ Hf t p); [by apply Hdue|done].
  - intros q Hq. rewrite (sc_procs _ _ C). apply (fd_other _ _ _ Hf). intros t Ht. by apply Hq, Hdue.
Qed.

End Tick.

(** ** On the concrete state *)

Lemma ex_pending : pending ex_state = [(10, 1); (11, 5)].
Proof. reflexivity. Qed.

Lemma ex_timers_ok : timers_ok ex_state.
Proof.
  constructor.
  - apply (bool_decide_unpack _). reflexivity.
  - intros t x Hx. enum_map Hx; cbn; unfold is_u32; lia.
  - intros t Ht. cbn in Ht. enum_list Ht; by eexists _, _.
  - intros t x. rewrite ex_pending. intros Hx. enum_list Hx; injection Hx as -> ->; lia.
Qed.

Lemma add_timer_spec_witness :
  exists s', add_timer 12 ex_state = Ret (tt, s') /\ pending s' = [(10, 1); (12, 3); (11, 5)].
Proof.
  destruct (add_timer_spec ex_state 12 3 1) as (s' & ? & _ & Hp & _).
  - exact ex_timers_ok.
  - apply (bool_decide_unpack _). reflexivity.
  - reflexivity.
  - lia.
  - by exists s'.
Defined.

Lemma del_timer_spec_witness :
  exists s', del_timer 10 ex_state = Ret (tt, s') /\ pending s' = [(11, 5)].
Proof.
  destruct (del_timer_spec ex_state 10 ex_timers_ok) as (s' & ? & _ & _ & Hp & _). by exists s'.
Defined.

Lemma run_timer_list_spec_witness :
  exists s', run_timer_list MLFQ_sched_class ex_state = Ret (tt, s') /\
    pending s' = [(11, 4)] /\ proc_is s' 2 PROC_RUNNABLE.
Proof.
  destruct (run_timer_list_spec (sc := MLFQ_sched_class) ex_state)
    as (s' & ? & _ & _ & Hp & _ & Hw & _).
  - exact ex_sched_inv.
  - exact ex_timers_ok.
  - intros t Ht. cbn in Ht. enum_list Ht; (eexists _, _; split; [reflexivity|]; split; [reflexivity|]);
      (split; [discriminate|]); [by right|by left].
  - exists s'. split; [done|]. split; [done|]. apply (Hw 10 2); [rewrite ex_pending; left|done].
Defined.

End Timers.
