(* ===== verification/Wait.v ===== *)
(** * Wait queues (src/code/kern/sync/wait.c, wait.h) and IPC timeouts (ipc.h)

    A [wait_t] lives on the stack of the process that waits; it is on at most one
    wait queue.  Routines that wake processes up take the scheduling class, since
    they go through [wakeup_proc].
    The module [WaitInv] below says what the operations do. *)

From S2P Require Import Prelude Kern Sched SchedInv SchedPolicies.
Import Kern Sched SchedInv SchedPolicies.
Open Scope Z_scope.

Module Wait.

(** [!list_empty(&(wait->wait_link))]. *)
Definition linked (s : kstate) (w : Z) : bool :=
  existsb (fun q : wq * list Z => bool_decide (w ∈ q.2)) (map_to_list (wqueues s)).

Definition set_flags (f : Z) (x : wait) : wait := mk_wait (wproc x) f (wait_queue x).
Definition set_wait_queue (q : option wq) (x : wait) : wait := mk_wait (wproc x) (wakeup_flags x) q.

(** [list_init] of a link that is on a queue would corrupt it: the model stops.
    The field [wait_queue] keeps whatever it held. *)
Definition wait_init (w : Z) (p : option Z) : M kstate unit :=
  s <- get ;;
  assert (negb (linked s w)) ;;
  modify (upd_waits (<[w := mk_wait p WT_INTERRUPTED (waits s !! w ≫= wait_queue)]>)).

Definition wait_queue_init (q : wq) : M kstate unit := modify (upd_wqueues (<[q := []]>)).

Definition wait_queue_add (q : wq) (w : Z) : M kstate unit :=
  s <- get ;;
  x <- get_wait w ;;
  assert (negb (linked s w) && bool_decide (wproc x <> None)) ;;
  update_wait (set_wait_queue (Some q)) w ;;
  update_wqueue (fun l => l ++ [w]) q.

Definition wait_queue_del (q : wq) (w : Z) : M kstate unit :=
  s <- get ;;
  x <- get_wait w ;;
  assert (linked s w && bool_decide (wait_queue x = Some q)) ;;
  modify (upd_wqueues (fmap (remove w))).

Definition wait_queue_next (q : wq) (w : Z) : M kstate (option Z) :=
  s <- get ;;
  x <- get_wait w ;;
  assert (linked s w && bool_decide (wait_queue x = Some q)) ;;
  l <- get_wqueue q ;;
  ret (entry_after l w).

Definition wait_queue_prev (q : wq) (w : Z) : M kstate (option Z) :=
  s <- get ;;
  x <- get_wait w ;;
  assert (linked s w && bool_decide (wait_queue x = Some q)) ;;
  l <- get_wqueue q ;;
  ret (entry_before l w).

Definition wait_queue_first (q : wq) : M kstate (option Z) :=
  l <- get_wqueue q ;; ret (List.head l).

Definition wait_queue_last (q : wq) : M kstate (option Z) :=
  l <- get_wqueue q ;; ret (List.head (rev l)).

Definition wait_queue_empty (q : wq) : M kstate bool :=
  l <- get_wqueue q ;; ret (bool_decide (l = [])).

Definition wait_in_queue (w : Z) : M kstate bool := s <- get ;; ret (linked s w).

Definition wait_current_del (q : wq) (w : Z) : M kstate unit :=
  b <- wait_in_queue w ;; if b then wait_queue_del q w else ret tt.

Definition wait_current_set (q : wq) (w st : Z) : M kstate unit :=
  s <- get ;;
  wait_init w (Some (current s)) ;;
  update_proc (set_pstate PROC_SLEEPING) (current s) ;;
  update_proc (set_wait_state st) (current s) ;;
  wait_queue_add q w.

Section Wakeup.
Variable sc : sched_class.

Definition wakeup_wait (q : wq) (w flags : Z) (del : bool) : M kstate unit :=
  (if del then wait_queue_del q w else ret tt) ;;
  update_wait (set_flags flags) w ;;
  x <- get_wait w ;;
  p <- deref (wproc x) ;;
  wakeup_proc sc p.

Definition wakeup_first (q : wq) (flags : Z) (del : bool) : M kstate unit :=
  w <- wait_queue_first q ;;
  match w with Some w => wakeup_wait q w flags del | None => ret tt end.

(** The two [do ... while] loops of [wakeup_queue], entered at [w]. *)
Fixpoint wakeup_del_loop (fuel : nat) (q : wq) (w flags : Z) : M kstate unit :=
  match fuel with
  | O => out_of_fuel
  | S fuel =>
      wakeup_wait q w flags true ;;
      next <- wait_queue_first q ;;
      match next with Some w => wakeup_del_loop fuel q w flags | None => ret tt end
  end.

Fixpoint wakeup_keep_loop (fuel : nat) (q : wq) (w flags : Z) : M kstate unit :=
  match fuel with
  | O => out_of_fuel
  | S fuel =>
      wakeup_wait q w flags false ;;
      next <- wait_queue_next q w ;;
      match next with Some w => wakeup_keep_loop fuel q w flags | None => ret tt end
  end.

Definition wakeup_queue (q : wq) (flags : Z) (del : bool) : M kstate unit :=
  l <- get_wqueue q ;;
  w <- wait_queue_first q ;;
  match w with
  | Some w => if del then wakeup_del_loop (length l) q w flags
              else wakeup_keep_loop (length l) q w flags
  | None => ret tt
  end.

(** ** Timeouts (ipc.h) *)

Definition ipc_add_timer (t : option Z) : M kstate unit :=
  match t with Some t => add_timer t | None => ret tt end.

Definition ipc_del_timer (t : option Z) : M kstate unit :=
  match t with Some t => del_timer t | None => ret tt end.

(** Returns the timer to use and the ticks saved; [saved_ticks] is only read
    again when [timeout] is not 0. *)
Definition ipc_timer_init (timeout t : Z) : M kstate (option Z * Z) :=
  s <- get ;;
  if negb (timeout =? 0) then timer_init t (current s) timeout ;; ret (Some t, ticks s)
  else ret (None, 0).

Definition ipc_check_timeout (timeout saved_ticks : Z) : M kstate Z :=
  s <- get ;;
  if negb (timeout =? 0) then
    let delt := u32 (ticks s - saved_ticks) in
    ret (if timeout <=? delt then - E_TIMEOUT else -1)
  else ret (-1).

End Wakeup.

End Wait.

(** * What the wait-queue operations do

    [waits_ok] is the invariant of the wait queues; the lemmas give the state each
    operation leaves, and the wake-up of a whole queue is proved to wake every
    waiter once and to empty the queue. *)

Import Kern Sched SchedInv SchedPolicies Wait.

Module WaitInv.

Lemma linked_true s w :
  linked s w = true <-> exists q l, wqueues s !! q = Some l /\ w ∈ l.
Proof.
  unfold linked. rewrite existsb_exists. split.
  - intros ([q l] & Hin%list_elem_of_In & Hw%bool_decide_eq_true).
    apply elem_of_map_to_list in Hin. eauto.
  - intros (q & l & Hq & Hw). exists (q, l). split; [|by apply bool_decide_eq_true].
    by apply list_elem_of_In, elem_of_map_to_list.
Qed.

Lemma linked_false s w q l : linked s w = false -> wqueues s !! q = Some l -> w ∉ l.
Proof. intros H Hq Hw. assert (linked s w = true); [apply linked_true; eauto|congruence]. Qed.

(** Every wait on a queue says so, and says whose it is; no wait is on a queue
    twice, nor on two queues. *)
Record waits_ok (s : kstate) : Prop := {
  wo_nodup : forall q l, wqueues s !! q = Some l -> NoDup l;
  wo_member : forall q l w, wqueues s !! q = Some l -> w ∈ l ->
      exists x p, waits s !! w = Some x /\ wait_queue x = Some q /\ wproc x = Some p /\
        is_Some (procs s !! p)
}.

Lemma waits_ok_same s s' :
  waits_ok s -> wqueues s' = wqueues s -> waits s' = waits s ->
  (forall p, is_Some (procs s !! p) -> is_Some (procs s' !! p)) -> waits_ok s'.
Proof.
  intros [Hn Hm] Eq Ew Hp. constructor; rewrite Eq; [done|].
  intros q l w Hq Hw. destruct (Hm q l w Hq Hw) as (x & p & ? & ? & ? & ?).
  exists x, p. rewrite Ew. auto.
Qed.

(** ** Going to sleep on a queue *)

Definition asleep (q : wq) (w st p : Z) (s : kstate) : kstate :=
  upd_wqueues (alter (fun l => l ++ [w]) q)
    (upd_waits (<[w := mk_wait (Some p) WT_INTERRUPTED (Some q)]>)
      (upd_procs (alter (fun x => set_wait_state st (set_pstate PROC_SLEEPING x)) p) s)).

Lemma wait_current_set_ok q w st s :
  is_Some (procs s !! current s) -> is_Some (wqueues s !! q) -> linked s w = false ->
  wait_current_set q w st s = Ret (tt, asleep q w st (current s) s).
Proof.
  intros [pr Hp] [l Hq] Hw. unfold wait_current_set, wait_init, wait_queue_add.
  rewrite bind_get. rewrite (bind_step _ _ s tt (upd_waits
    (<[w := mk_wait (Some (current s)) WT_INTERRUPTED (waits s !! w ≫= wait_queue)]>) s))
    by (rewrite bind_get; rewrite assert_true by (by rewrite Hw); done).
  mstep update_proc_ok; [|by eexists].
  mstep update_proc_ok; [|apply known_alter; by eexists].
  rewrite bind_get. mstep get_wait_ok; [|cbn; by rewrite lookup_insert_eq].
  rewrite assert_true by (change (linked _ w) with (linked s w); by rewrite Hw).
  mstep update_wait_ok; [|cbn; rewrite lookup_insert_eq; by eexists].
  rewrite update_wqueue_ok by (by eexists).
  unfold asleep, upd_wqueues, upd_waits, upd_procs. cbn.
  rewrite alter_insert_eq, alter_alter_eq. done.
Qed.

Lemma asleep_linked q w st p s r :
  is_Some (wqueues s !! q) -> linked (asleep q w st p s) r = linked s r || (r =? w).
Proof.
  intros [l Hq]. apply Bool.eq_true_iff_eq. rewrite orb_true_iff, !linked_true, Z.eqb_eq. cbn.
  setoid_rewrite lookup_alter. split.
  - intros (q' & l' & Hl & Hr). case_decide; [subst q'|left; eauto]. rewrite Hq in Hl. injection Hl as <-.
    apply elem_of_app in Hr as [?|?%list_elem_of_singleton]; [left; eauto|by right].
  - intros [(q' & l' & Hl & Hr)| ->].
    + destruct (decide (q = q')) as [<-|Hne].
      * exists q. rewrite decide_True, Hl by done. eexists. split; [done|]. set_solver.
      * exists q'. rewrite decide_False by done. eauto.
    + exists q. rewrite decide_True, Hq by done. eexists. split; [done|]. set_solver.
Qed.

Lemma asleep_waits_ok q w st s :
  waits_ok s -> is_Some (procs s !! current s) -> linked s w = false ->
  waits_ok (asleep q w st (current s) s).
Proof.
  intros [Hn Hm] Hc Hw. constructor; cbn; intros q' l'; rewrite lookup_alter.
  - case_decide; [subst q'|apply Hn]. intros (l & Hl & ->)%fmap_Some.
    apply NoDup_app. split_and!; [by apply (Hn q)| |apply NoDup_singleton].
    intros x Hx Hxw%list_elem_of_singleton. subst. by eapply linked_false.
  - intros x Hl Hx. destruct (decide (x = w)) as [->|Hne].
    + rewrite lookup_insert_eq. eexists _, _. split; [done|]. cbn. split_and!; [|done|by apply known_alter].
      case_decide; [by subst|]. exfalso. by apply (linked_false s w q' l' Hw Hl).
    + rewrite lookup_insert_ne by done. setoid_rewrite lookup_alter_is_Some.
      case_decide; [subst q'|by apply (Hm _ _ _ Hl)].
      apply fmap_Some in Hl as (l & Hl & ->). apply elem_of_app in Hx as [Hx|Hx%list_elem_of_singleton]; [|done].
      by apply (Hm _ _ _ Hl).
Qed.

(** ** Taking a wait off its queue *)

Definition unlinked (w : Z) (s : kstate) : kstate := upd_wqueues (fmap (remove w)) s.

Lemma wait_queue_del_ok q w s x :
  waits s !! w = Some x -> wait_queue x = Some q -> linked s w = true ->
  wait_queue_del q w s = Ret (tt, unlinked w s).
Proof.
  intros Hx Hq Hl. unfold wait_queue_del. rewrite bind_get. mstep get_wait_ok; [|exact Hx].
  rewrite assert_true by (by rewrite Hl, Hq, bool_decide_eq_true_2). done.
Qed.

(** Only the queue it is on changes. *)
Lemma unlinked_queues s q l w :
  waits_ok s -> wqueues s !! q = Some l -> w ∈ l ->
  wqueues (unlinked w s) = <[q := remove w l]> (wqueues s).
Proof.
  intros Ho Hq Hw. apply map_eq. intros q'. cbn. rewrite lookup_fmap.
  destruct (decide (q' = q)) as [->|Hne]; [by rewrite Hq, lookup_insert_eq|].
  rewrite lookup_insert_ne by done. destruct (wqueues s !! q') as [l'|] eqn:E; [|done]. cbn. f_equal.
  apply remove_notin. intros Hw'. destruct (wo_member _ Ho _ _ _ Hq Hw) as (x & ? & Hx & Hxq & _).
  destruct (wo_member _ Ho _ _ _ E Hw') as (y & ? & Hy & Hyq & _). congruence.
Qed.

Lemma unlinked_ok s w : waits_ok s -> waits_ok (unlinked w s).
Proof.
  intros [Hn Hm]. constructor; cbn.
  - intros q l. rewrite lookup_fmap. intros (l' & Hl & ->)%fmap_Some. apply NoDup_filter, (Hn q), Hl.
  - intros q l x. rewrite lookup_fmap. intros (l' & Hl & ->)%fmap_Some [_ Hx]%elem_of_remove.
    by apply (Hm q l').
Qed.

Lemma unlinked_linked s w r : linked (unlinked w s) r = linked s r && negb (r =? w).
Proof.
  apply Bool.eq_true_iff_eq. rewrite andb_true_iff, !linked_true, negb_true_iff, Z.eqb_neq. cbn. split.
  - intros (q & l & Hl & Hr). rewrite lookup_fmap in Hl. apply fmap_Some in Hl as (l' & Hl & ->).
    apply elem_of_remove in Hr as [? ?]. eauto.
  - intros [(q & l & Hl & Hr) Hne]. exists q, (remove w l). rewrite lookup_fmap, Hl.
    split; [done|]. by apply elem_of_remove.
Qed.

Lemma flags_ok s w f : waits_ok s -> waits_ok (upd_waits (alter (set_flags f) w) s).
Proof.
  intros [Hn Hm]. constructor; cbn; [done|]. intros q l x Hl Hx.
  destruct (Hm q l x Hl Hx) as (y & p & Hy & ? & ? & ?). rewrite lookup_alter.
  case_decide; [subst|eauto]. rewrite Hy. cbn. eexists _, p. eauto.
Qed.

(** ** Waking a wait up *)

(** The state the wake-up of [p] starts from. *)
Definition signalled (w flags : Z) (del : bool) (s : kstate) : kstate :=
  upd_waits (alter (set_flags flags) w) (if del then unlinked w s else s).

(** [p] is the owner of the wait [w]. *)
Definition owner (s : kstate) (w p : Z) : Prop := waits s !! w ≫= wproc = Some p.

#[export] Instance owner_dec s w p : Decision (owner s w p).
Proof. unfold owner. apply _. Defined.

Definition alive (s : kstate) (p : Z) : Prop :=
  exists pr, procs s !! p = Some pr /\ pstate pr <> PROC_ZOMBIE.

Lemma woken_alive p r s s' : woken p s s' -> alive s r -> alive s' r.
Proof.
  intros [R Hother Hs Hw _] (x & Hx & Hz). destruct (decide (r = p)) as [->|Hne].
  - destruct (Hw x Hx) as (x' & Hx' & _). exists x'. split; [done|].
    unfold proc_is in Hs. rewrite Hx' in Hs. injection Hs as ->. done.
  - pose proof (core_eq_pstate _ _ (Hother r Hne)) as E. rewrite Hx in E.
    apply fmap_Some in E as (x' & Hx' & E). exists x'. split; [done|]. congruence.
Qed.

(** The effect of waking the owners of the waits [l], which leave the queue [q]. *)
Record all_woken (q : wq) (flags : Z) (l : list Z) (s s' : kstate) : Prop := {
  aw_current : current s' = current s;
  aw_ipc : ipc s' = ipc s;
  aw_queues : wqueues s' = <[q := []]> (wqueues s);
  aw_flags : forall u, waits s' !! u = (if decide (u ∈ l) then set_flags flags else id) <$> waits s !! u;
  aw_owner : forall u p, u ∈ l -> owner s u p -> proc_is s' p PROC_RUNNABLE;
  aw_other : forall p, (forall u, u ∈ l -> ~ owner s u p) ->
      core_of <$> procs s' !! p = core_of <$> procs s !! p;
  aw_idle : idleproc s' = idleproc s;
  aw_step : forall p x, procs s !! p = Some x -> exists x', procs s' !! p = Some x' /\ wake_step x x'
}.

Lemma all_woken_cons q flags w l s s1 s' p :
  owner s w p -> NoDup (w :: l) -> wqueues (signalled w flags true s) = <[q := l]> (wqueues s) ->
  woken p (signalled w flags true s) s1 -> all_woken q flags l s1 s' ->
  all_woken q flags (w :: l) s s'.
Proof.
  intros Ho [Hwl _]%NoDup_cons Eq [R Hother Hs Hw Hst] [Ac Ai Aq Af Ao An Aid Ast].
  assert (forall u r, owner s1 u r <-> owner s u r) as Hown.
  { intros u r. unfold owner. rewrite (rs_waits _ _ R). cbn. rewrite lookup_alter.
    case_decide; [subst|done]. by destruct (waits s !! u). }
  constructor.
  - rewrite Ac. apply R.
  - rewrite Ai. apply R.
  - rewrite Aq, (rs_wqueues _ _ R), Eq. apply insert_insert_eq.
  - intros u. rewrite Af, (rs_waits _ _ R). cbn. rewrite lookup_alter.
    destruct (decide (w = u)) as [<-|Hne].
    + rewrite (decide_False (P := w ∈ l)), option_fmap_id by done. by rewrite decide_True by left.
    + destruct (decide (u ∈ l)); [by rewrite decide_True by (by right)|].
      rewrite (decide_False (P := u ∈ w :: l)) by set_solver. done.
  - intros u r [->|Hu]%elem_of_cons Hr; [|by apply (Ao u); [|apply Hown]].
    replace r with p by (unfold owner in *; congruence).
    destruct (decide (Exists (fun u => owner s u p) l)) as [(u & Hu & ?)%Exists_exists|Hn].
    + apply (Ao u); [done|]. by apply Hown.
    + unfold proc_is. rewrite (core_eq_pstate _ _ (An p ltac:(intros u Hu Hup%Hown; apply Hn, Exists_exists; eauto))).
      done.
  - intros r Hr. rewrite An.
    + apply Hother. intros ->. apply (Hr w); [left|done].
    + intros u Hu Hur%Hown. apply (Hr u); [by right|done].
  - rewrite Aid. apply R.
  - intros r x Hx. destruct (Hst r x Hx) as (y & Hy & S1). destruct (Ast r y Hy) as (z & Hz & S2).
    exists z. split; [done|]. by transitivity y.
Qed.

Section Wakeup.
Context {sc : sched_class} {I : kstate -> Prop} {Hsp : SchedPolicy sc I}.

Lemma signalled_inv w flags del s : sched_inv I s -> sched_inv I (signalled w flags del s).
Proof using Hsp.
  intros [? ? ? ? ?]. destruct del; constructor; try done; by apply (sp_stable s).
Qed.

Lemma signalled_ok w flags del s : waits_ok s -> waits_ok (signalled w flags del s).
Proof using Type. intros. apply flags_ok. destruct del; [by apply unlinked_ok|done]. Qed.

Lemma wakeup_wait_ok s q l w x p pr flags del :
  sched_inv I s -> wqueues s !! q = Some l -> w ∈ l ->
  waits s !! w = Some x -> wait_queue x = Some q -> wproc x = Some p ->
  procs s !! p = Some pr -> pstate pr <> PROC_ZOMBIE ->
  exists s', wakeup_wait sc q w flags del s = Ret (tt, s') /\ sched_inv I s' /\
    woken p (signalled w flags del s) s'.
Proof using Hsp.
  intros Hi Hq Hw Hx Hxq Hxp Hp Hz. unfold wakeup_wait.
  rewrite (bind_step _ _ s tt (if del then unlinked w s else s))
    by (destruct del; [|done]; eapply wait_queue_del_ok; [done|done|]; apply linked_true; eauto).
  assert (waits (if del then unlinked w s else s) !! w = Some x) as Hx' by (by destruct del).
  mstep update_wait_ok; [|by rewrite Hx'].
  mstep get_wait_ok; [|cbn; by rewrite lookup_alter_eq, Hx'].
  rewrite (bind_deref _ p) by done.
  apply (wakeup_proc_woken _ p pr); [by apply signalled_inv|by destruct del|done].
Qed.

Lemma woken_waits_ok p s s' : waits_ok s -> is_Some (procs s !! p) -> woken p s s' -> waits_ok s'.
Proof using Type.
  intros Ho [x Hx] [R Hother _ Hw _]. apply (waits_ok_same s); [done|apply R|apply R|].
  intros r Hr. destruct (decide (r = p)) as [->|Hne].
  - destruct (Hw x Hx) as (x' & -> & _). by eexists.
  - rewrite <- (fmap_is_Some core_of), Hother, fmap_is_Some by done. done.
Qed.

(** ** Waking a whole queue up *)

Lemma wakeup_del_loop_ok q flags : forall fuel l w s,
  wqueues s !! q = Some (w :: l) -> (length l < fuel)%nat -> sched_inv I s -> waits_ok s ->
  (forall u p, u ∈ w :: l -> owner s u p -> alive s p) ->
  exists s', wakeup_del_loop sc fuel q w flags s = Ret (tt, s') /\ sched_inv I s' /\ waits_ok s' /\
    all_woken q flags (w :: l) s s'.
Proof using Hsp.
  induction fuel as [|fuel IH]; intros l w s Hq Hf Hi Ho Ha; [lia|]. cbn [wakeup_del_loop].
  pose proof (wo_nodup _ Ho q _ Hq) as Hn.
  destruct (wo_member _ Ho q _ w Hq) as (x & p & Hx & Hxq & Hxp & Hk); [left|].
  assert (owner s w p) as Hown by (unfold owner; by rewrite Hx).
  destruct (Ha w p) as (pr & Hp & Hz); [left|done|].
  destruct (wakeup_wait_ok s q (w :: l) w x p pr flags true) as (s1 & Hrun & Hi1 & W); try done; [left|].
  rewrite (bind_step _ _ _ _ _ Hrun). pose proof (wk_rest _ _ _ W) as R.
  assert (wqueues (signalled w flags true s) = <[q := l]> (wqueues s)) as Eq.
  { cbn [signalled]. etransitivity; [apply (unlinked_queues s q (w :: l) w Ho Hq); left|].
    f_equal. apply (remove_middle w [] l); [by apply not_elem_of_nil|]. by apply NoDup_cons in Hn as [? _]. }
  assert (wqueues s1 !! q = Some l) as Hq1.
  { by rewrite (rs_wqueues _ _ R), Eq, lookup_insert_eq. }
  assert (waits_ok s1) as Ho1 by (apply (woken_waits_ok p (signalled w flags true s)); [by apply signalled_ok|exact Hk|done]).
  rewrite (bind_step _ _ s1 (List.head l) s1)
    by (unfold wait_queue_first; mstep get_wqueue_ok; [|exact Hq1]; done).
  destruct l as [|w' l]; cbn [List.head].
  - exists s1. split_and!; try done. apply (all_woken_cons q flags w [] s s1 s1 p); try done.
    constructor; [done|done|symmetry; by apply insert_id|..]; try done.
    + intros u. rewrite decide_False, option_fmap_id by (by apply not_elem_of_nil). done.
    + intros u r Hu. by apply not_elem_of_nil in Hu.
    + intros r y Hy. by exists y.
  - destruct (IH l w' s1) as (s' & Hrun' & Hi' & Ho' & A); try done.
    { cbn in Hf. lia. }
    { intros u r Hu Hr. eapply woken_alive; [exact W|]. destruct (Ha u r) as (y & Hy & ?); [by right| |by exists y].
      unfold owner in *. rewrite (rs_waits _ _ R) in Hr. cbn in Hr. rewrite lookup_alter_ne in Hr; [done|].
      intros ->. by apply NoDup_cons in Hn as [? _]. }
    exists s'. split_and!; try done. by apply (all_woken_cons q flags w (w' :: l) s s1 s' p).
Qed.

Lemma wakeup_queue_ok s q l flags :
  sched_inv I s -> waits_ok s -> wqueues s !! q = Some l ->
  (forall u p, u ∈ l -> owner s u p -> alive s p) ->
  exists s', wakeup_queue sc q flags true s = Ret (tt, s') /\ sched_inv I s' /\ waits_ok s' /\
    all_woken q flags l s s'.
Proof using Hsp.
  intros Hi Ho Hq Ha. unfold wakeup_queue. mstep get_wqueue_ok; [|exact Hq].
  rewrite (bind_step _ _ s (List.head l) s)
    by (unfold wait_queue_first; mstep get_wqueue_ok; [|exact Hq]; done).
  destruct l as [|w l]; cbn [List.head].
  - exists s. split_and!; try done. constructor; [done|done|symmetry; by apply insert_id|..]; try done.
    + intros u. rewrite decide_False, option_fmap_id by (by apply not_elem_of_nil). done.
    + intros u r Hu. by apply not_elem_of_nil in Hu.
    + intros r y Hy. by exists y.
  - apply wakeup_del_loop_ok; try done. cbn. lia.
Qed.

(** Waking a whole queue up with [del] returns and leaves the queue empty:
    every wait that was on it is marked with the flags given and its process is
    made runnable, in the scheduler's invariant; other queues, waits and processes
    are as they were. *)
Theorem wakeup_queue_spec s q l flags :
  sched_inv I s -> waits_ok s -> wqueues s !! q = Some l ->
  (forall u p, u ∈ l -> owner s u p -> alive s p) ->
  exists s', wakeup_queue sc q flags true s = Ret (tt, s') /\ sched_inv I s' /\ waits_ok s' /\
    all_woken q flags l s s'.
Proof using Hsp. apply wakeup_queue_ok. Qed.

End Wakeup.

(** Process 2 of the concrete state sleeps on a queue. *)
Definition ex_wait : kstate :=
  upd_wqueues (fun _ => {[(0, 100) := [50]]})
    (upd_waits (fun _ => {[50 := mk_wait (Some 2) WT_INTERRUPTED (Some (0, 100))]}) ex_state).

Lemma wakeup_queue_spec_witness :
  exists s', wakeup_queue MLFQ_sched_class (0, 100) WT_INTERRUPTED true ex_wait = Ret (tt, s') /\
    proc_is s' 2 PROC_RUNNABLE /\ wqueues s' !! (0, 100) = Some [].
Proof.
  destruct (wakeup_queue_spec (sc := MLFQ_sched_class) (I := queues_ok kernel_ring)
    ex_wait (0, 100) [50] WT_INTERRUPTED) as (s' & Hrun & _ & _ & A).
  - destruct ex_sched_inv as [H ? ? ? ?]. constructor; try done. by apply (queues_ok_stable _ ex_state).
  - constructor; cbn.
    + intros q l [<- <-]%lookup_singleton_Some. apply NoDup_singleton.
    + intros q l w [<- <-]%lookup_singleton_Some Hw%list_elem_of_singleton. subst w.
      exists (mk_wait (Some 2) WT_INTERRUPTED (Some (0, 100))), 2. by split_and!.
  - reflexivity.
  - intros u p Hu%list_elem_of_singleton Hp. subst u. injection Hp as <-. eexists. split; [reflexivity|done].
  - exists s'. split; [exact Hrun|]. split.
    + apply (aw_owner _ _ _ _ _ A 50 2); [left|reflexivity].
    + rewrite (aw_queues _ _ _ _ _ A). reflexivity.
Defined.

End WaitInv.
