(* ===== verification/Sem.v ===== *)
(** * Semaphores (src/code/kern/sync/sem.c, sem.h)

    Kernel semaphores, the user semaphores built on them, and the per-process
    lists of user semaphores.  The stack objects of a call (its [wait_t] and its
    [timer_t]) are passed as addresses; so are the results of [kmalloc]. *)

From S2P Require Import Prelude Kern Sched SchedInv SchedPolicies Wait.
Import Kern Sched SchedInv SchedPolicies Wait.
Open Scope Z_scope.

Module Sem.

Definition set_value (v : Z) (x : semaphore) : semaphore := mk_sem v (valid x) (count x).
Definition set_valid (b : bool) (x : semaphore) : semaphore := mk_sem (value x) b (count x).
Definition set_count (c : Z) (x : semaphore) : semaphore := mk_sem (value x) (valid x) c.

Definition sem_init (a v : Z) : M kstate unit :=
  modify (upd_sems (<[a := mk_sem v true 0]>)) ;;
  wait_queue_init (sem_wait_queue a).

Section Ops.
Variable sc : sched_class.

Definition __up (a ws : Z) : M kstate unit :=
  x <- get_sem a ;;
  assert (valid x) ;;
  w <- wait_queue_first (sem_wait_queue a) ;;
  match w with
  | None => update_sem (fun x => set_value (s32 (value x + 1)) x) a
  | Some w =>
      wt <- get_wait w ;;
      p <- deref (wproc wt) ;;
      pr <- get_proc p ;;
      assert (wait_state pr =? ws) ;;
      wakeup_wait sc (sem_wait_queue a) w ws true
  end.

(** [w] is the address of the local [__wait]. *)
Definition __down (a ws w : Z) (timer : option Z) : R kstate Z :=
  x <~ lift (get_sem a) ;;
  lift (assert (valid x)) ;;~
  if 0 <? value x then
    lift (update_sem (fun x => set_value (value x - 1) x) a) ;;~
    rret 0
  else
    lift (wait_current_set (sem_wait_queue a) w ws) ;;~
    lift (ipc_add_timer timer) ;;~
    sleep ;;~
    lift (ipc_del_timer timer) ;;~
    lift (wait_current_del (sem_wait_queue a) w) ;;~
    wt <~ lift (get_wait w) ;;
    rret (if negb (wakeup_flags wt =? ws) then wakeup_flags wt else 0).

Definition up (a : Z) : M kstate unit := __up a WT_KSEM.

Definition down (a w : Z) : R kstate unit :=
  flags <~ __down a WT_KSEM w None ;;
  lift (assert (flags =? 0)).

Definition try_down (a : Z) : M kstate bool :=
  x <- get_sem a ;;
  if 0 <? value x then
    update_sem (fun x => set_value (value x - 1) x) a ;; ret true
  else ret false.

Definition usem_up (a : Z) : M kstate Z := __up a WT_USEM ;; ret 0.

(** [w] and [t] are the addresses of the local wait and timer. *)
Definition usem_down (a timeout w t : Z) : R kstate Z :=
  tm <~ lift (ipc_timer_init timeout t) ;;
  flags <~ __down a WT_USEM w (fst tm) ;;
  if flags =? 0 then rret 0
  else
    lift (assert (flags =? WT_INTERRUPTED)) ;;~
    lift (ipc_check_timeout timeout (snd tm)).

(** ** The semaphores of a process *)

Definition sem_queue_create : M kstate (option Z) :=
  q <- kmalloc ;;
  match q with
  | Some q =>
      sem_init q 1 ;;
      modify (upd_semqs (<[q := mk_semq 0 []]>)) ;;
      ret (Some q)
  | None => ret None
  end.

(** [kfree] of the queue and of the semaphore inside it. *)
Definition sem_queue_destroy (q : Z) : M kstate unit :=
  modify (upd_semqs (delete q)) ;; modify (upd_sems (delete q)).

Definition semu_create (sem : option Z) (v : Z) : M kstate (option Z) :=
  u <- kmalloc ;;
  match u with
  | Some u =>
      sem <- match sem with
             | Some a => ret (Some a)
             | None =>
                 a <- kmalloc ;;
                 match a with
                 | Some a => sem_init a v ;; ret (Some a)
                 | None => ret None
                 end
             end ;;
      match sem with
      | Some a =>
          update_sem (fun x => set_count (s32 (count x + 1)) x) a ;;
          modify (upd_semus (<[u := mk_semu a]>)) ;;
          ret (Some u)
      | None => ret None
      end
  | None => ret None
  end.

Definition semu_destroy (u : Z) : M kstate unit :=
  x <- get_semu u ;;
  update_sem (fun y => set_count (s32 (count y - 1)) y) (sem x) ;;
  y <- get_sem (sem x) ;;
  (if count y =? 0 then modify (upd_sems (delete (sem x))) else ret tt) ;;
  modify (upd_semus (delete u)).

Definition set_semu_list (f : list Z -> list Z) (q : sem_queue) : sem_queue :=
  mk_semq (sq_count q) (f (semu_list q)).

(** The walk of [dup_sem_queue] over the entries [l] left of the source list. *)
Fixpoint dup_loop (to : Z) (l : list Z) : M kstate Z :=
  match l with
  | [] => ret 0
  | u :: l =>
      x <- get_semu u ;;
      y <- get_sem (sem x) ;;
      if valid y then
        u' <- semu_create (Some (sem x)) 0 ;;
        match u' with
        | None => ret (- E_NO_MEM)
        | Some u' => update_semq (set_semu_list (cons u')) to ;; dup_loop to l
        end
      else dup_loop to l
  end.

Definition dup_sem_queue (to from : Z) : M kstate Z :=
  _ <- get_semq to ;; q <- get_semq from ;; dup_loop to (semu_list q).

Fixpoint exit_loop (q : Z) (l : list Z) : M kstate unit :=
  match l with
  | [] => ret tt
  | u :: l => update_semq (set_semu_list (remove u)) q ;; semu_destroy u ;; exit_loop q l
  end.

Definition exit_sem_queue (q : Z) : M kstate unit :=
  x <- get_semq q ;;
  assert (sq_count x =? 0) ;;
  exit_loop q (semu_list x).

Definition KERNBASE : Z := 0xC0000000.
Definition VALID_SEMID (id : Z) : bool := id <? u32 (id + KERNBASE).
Definition semid2sem (id : Z) : Z := u32 (id + KERNBASE).
Definition sem2semid (a : Z) : Z := u32 (a - KERNBASE).

Fixpoint semu_search_loop (q a : Z) (l : list Z) : M kstate (option Z) :=
  match l with
  | [] => ret None
  | u :: l =>
      x <- get_semu u ;;
      if sem x =? a then
        update_semq (set_semu_list (remove u)) q ;;
        y <- get_sem a ;;
        if valid y then update_semq (set_semu_list (cons u)) q ;; ret (Some u)
        else semu_destroy u ;; ret None
      else semu_search_loop q a l
  end.

Definition semu_list_search (q id : Z) : M kstate (option Z) :=
  x <- get_semq q ;;
  if VALID_SEMID id then semu_search_loop q (semid2sem id) (semu_list x) else ret None.

(** [current->sem_queue], which must not be [NULL]. *)
Definition current_sem_queue : M kstate Z :=
  s <- get ;; p <- get_proc (current s) ;; deref (psem_queue p).

(** The search under the lock of the queue, shared by the calls below. *)
Definition locked_search (id w : Z) : R kstate (option Z) :=
  q <~ lift current_sem_queue ;;
  down q w ;;~
  semu <~ lift (semu_list_search q id) ;;
  lift (up q) ;;~
  rret semu.

Definition ipc_sem_init (v w : Z) : R kstate Z :=
  q <~ lift current_sem_queue ;;
  semu <~ lift (semu_create None v) ;;
  match semu with
  | None => rret (- E_NO_MEM)
  | Some u =>
      down q w ;;~
      lift (update_semq (set_semu_list (cons u)) q) ;;~
      lift (up q) ;;~
      x <~ lift (get_semu u) ;;
      rret (s32 (sem2semid (sem x)))
  end.

Definition ipc_sem_post (id w : Z) : R kstate Z :=
  semu <~ locked_search id w ;;
  match semu with
  | Some u => x <~ lift (get_semu u) ;; lift (usem_up (sem x))
  | None => rret (- E_INVAL)
  end.

Definition ipc_sem_wait (id timeout w w' t : Z) : R kstate Z :=
  semu <~ locked_search id w ;;
  match semu with
  | Some u => x <~ lift (get_semu u) ;; usem_down (sem x) timeout w' t
  | None => rret (- E_INVAL)
  end.

Definition ipc_sem_free (id w : Z) : R kstate Z :=
  semu <~ locked_search id w ;;
  match semu with
  | Some u =>
      x <~ lift (get_semu u) ;;
      lift (update_sem (set_valid false) (sem x)) ;;~
      lift (wakeup_queue sc (sem_wait_queue (sem x)) WT_INTERRUPTED true) ;;~
      rret 0
  | None => rret (- E_INVAL)
  end.

End Ops.

End Sem.
