(* ===== verification/SemInv.v ===== *)
(** * Kernel semaphores under every interleaving

    The processes of the system run [down] and [up] on one semaphore, sleep,
    are preempted and are woken up in any order ([step]).  In every reachable
    configuration no permit is lost or made up, nobody waits while a permit is
    available, and no assertion of the code fails.  For user semaphores, whose
    waits a timer can interrupt, the last point is refuted at the end. *)

From S2P Require Import Prelude Kern Sched SchedInv SchedPolicies Timers Wait Sem.
Import Kern Sched SchedInv SchedPolicies Timers Wait WaitInv Sem.
Open Scope Z_scope.

Module SemInv.

(** ** The segments of [down] and [up] *)

(** What is left of [down] once [schedule] returns. *)
Definition down_rest (m w : Z) : R kstate unit := fun s =>
  rthen ((lift (ipc_del_timer None) ;;~
          lift (wait_current_del (sem_wait_queue m) w) ;;~
          wt <~ lift (get_wait w) ;;
          rret (if negb (wakeup_flags wt =? WT_KSEM) then wakeup_flags wt else 0)) s)
    (fun flags => lift (assert (flags =? 0))).

Lemma down_blocks m w s x :
  sems (ipc s) !! m = Some x -> valid x = true -> value x <= 0 ->
  is_Some (procs s !! current s) -> is_Some (wqueues s !! sem_wait_queue m) -> linked s w = false ->
  down m w s = Sleep (asleep (sem_wait_queue m) w WT_KSEM (current s) s) (down_rest m w).
Proof.
  intros Hx Hv Hval Hc Hq Hw. unfold down, __down, rbind at 1.
  rstep get_sem_ok; [|exact Hx]. rewrite Hv. rewrite (rbind_lift _ _ s tt s) by done.
  rewrite (proj2 (Z.ltb_ge _ _)) by lia. rstep wait_current_set_ok; [|done..].
  rewrite (rbind_lift _ _ _ tt _) by done. rewrite rbind_sleep. reflexivity.
Qed.

Lemma down_takes m w s x :
  sems (ipc s) !! m = Some x -> valid x = true -> 0 < value x ->
  down m w s = Ok tt (upd_sems (alter (fun x => set_value (value x - 1) x) m) s).
Proof.
  intros Hx Hv Hval. unfold down, __down, rbind at 1.
  rstep get_sem_ok; [|exact Hx]. rewrite Hv. rewrite (rbind_lift _ _ s tt s) by done.
  rewrite (proj2 (Z.ltb_lt _ _)) by lia. rstep update_sem_ok; [|by eexists]. reflexivity.
Qed.

Lemma down_rest_ok m w s x :
  waits s !! w = Some x -> wakeup_flags x = WT_KSEM -> linked s w = false ->
  down_rest m w s = Ok tt s.
Proof.
  intros Hx Hf Hl. unfold down_rest. rewrite (rbind_lift _ _ s tt s) by done.
  rewrite (rbind_lift _ _ s tt s)
    by (unfold wait_current_del, wait_in_queue, bind, get, ret; by rewrite Hl).
  rstep get_wait_ok; [|exact Hx]. unfold rret, rthen. by rewrite Hf.
Qed.

Lemma sem_init_waits_ok m v s s' : waits_ok s -> sem_init m v s = Ret (tt, s') -> waits_ok s'.
Proof.
  intros [Hn Hm] [= <-]. constructor; cbn.
  - intros q l [[_ <-]|[_ ?]]%lookup_insert_Some; [apply NoDup_nil_2|by eapply Hn].
  - intros q l w [[_ <-]|[_ ?]]%lookup_insert_Some Hin; [by apply not_elem_of_nil in Hin|by eapply Hm].
Qed.

Section Steps.
Context {sc : sched_class} {I : kstate -> Prop} {Hsp : SchedPolicy sc I}.
Variable m : Z.
#[local] Abbreviation mq := (sem_wait_queue m).

Lemma up_value s x :
  sems (ipc s) !! m = Some x -> valid x = true -> wqueues s !! mq = Some [] ->
  up sc m s = Ret (tt, upd_sems (alter (fun x => set_value (s32 (value x + 1)) x) m) s).
Proof using Type.
  intros Hx Hv Hq. unfold up, __up. mstep get_sem_ok; [|exact Hx]. rewrite assert_true by done.
  rewrite (bind_step _ _ s None s) by (unfold wait_queue_first; mstep get_wqueue_ok; [|exact Hq]; done).
  apply update_sem_ok. by eexists.
Qed.

Lemma up_hands s x w l wt p pr :
  sched_inv I s -> sems (ipc s) !! m = Some x -> valid x = true ->
  wqueues s !! mq = Some (w :: l) -> waits s !! w = Some wt -> wait_queue wt = Some mq ->
  wproc wt = Some p -> procs s !! p = Some pr -> wait_state pr = WT_KSEM ->
  pstate pr <> PROC_ZOMBIE ->
  exists s', up sc m s = Ret (tt, s') /\ sched_inv I s' /\ woken p (signalled w WT_KSEM true s) s'.
Proof using Hsp.
  intros Hi Hx Hv Hq Hw Hwq Hwp Hp Hst Hz. unfold up, __up.
  mstep get_sem_ok; [|exact Hx]. rewrite assert_true by done.
  rewrite (bind_step _ _ s (Some w) s) by (unfold wait_queue_first; mstep get_wqueue_ok; [|exact Hq]; done).
  mstep get_wait_ok; [|exact Hw]. rewrite (bind_deref _ p) by done.
  mstep get_proc_ok; [|exact Hp]. rewrite assert_true by (by rewrite Hst, Z.eqb_refl).
  eapply wakeup_wait_ok; try done. left.
Qed.

(** ** The system *)

(** The kernel, the processes that are inside [down] (the address of their wait
    and what they have left to run), and the completed [down]s and [up]s. *)
Record config := mk_config {
  cs : kstate;
  cth : gmap Z (Z * R kstate unit);
  acquired : Z;
  released : Z
}.

Definition fresh_wait (c : config) (w : Z) : Prop :=
  linked (cs c) w = false /\ forall p w' k, cth c !! p = Some (w', k) -> w' <> w.

(** [v0] is the initial value; a run makes fewer than 2^31 releases. *)
Variable v0 : Z.

Inductive step : config -> config -> Prop :=
| step_take c w s' :
    cth c !! current (cs c) = None -> fresh_wait c w ->
    down m w (cs c) = Ok tt s' ->
    step c (mk_config s' (cth c) (acquired c + 1) (released c))
| step_block c w s1 k s' :
    cth c !! current (cs c) = None -> fresh_wait c w ->
    current (cs c) <> idleproc (cs c) ->
    down m w (cs c) = Sleep s1 k -> schedule sc s1 = Ret (tt, s') ->
    step c (mk_config s' (<[current (cs c) := (w, k)]> (cth c)) (acquired c) (released c))
| step_resume c w (k : R kstate unit) s' :
    cth c !! current (cs c) = Some (w, k) -> k (cs c) = Ok tt s' ->
    step c (mk_config s' (delete (current (cs c)) (cth c)) (acquired c + 1) (released c))
| step_up c s' :
    v0 + released c + 1 < 2 ^ 31 ->
    up sc m (cs c) = Ret (tt, s') ->
    step c (mk_config s' (cth c) (acquired c) (released c + 1))
| step_preempt c s' :
    schedule sc (cs c) = Ret (tt, s') ->
    step c (mk_config s' (cth c) (acquired c) (released c))
| step_wake c p pr s' :
    procs (cs c) !! p = Some pr -> wait_state pr <> WT_KSEM -> pstate pr <> PROC_ZOMBIE ->
    wakeup_proc sc p (cs c) = Ret (tt, s') ->
    step c (mk_config s' (cth c) (acquired c) (released c)).

(** ** The invariant *)

Definition dozing (s : kstate) (p : Z) : Prop :=
  exists pr, procs s !! p = Some pr /\ pstate pr = PROC_SLEEPING /\ wait_state pr = WT_KSEM.

(** Where a process inside [down] is: still on the queue and asleep, or handed a
    permit and runnable. *)
Definition waiting (s : kstate) (l : list Z) (p w : Z) : Prop := w ∈ l /\ dozing s p.

Definition handed (s : kstate) (p w : Z) : Prop :=
  linked s w = false /\ proc_is s p PROC_RUNNABLE /\
  exists x, waits s !! w = Some x /\ wakeup_flags x = WT_KSEM.

(** The semaphore [x] with its queue [l]: a permit is available, has been taken,
    or has been handed to a process that has not run since; a process inside
    [down] and not yet handed a permit is on the queue, and nobody else is. *)
Record sem_ok (c : config) (x : semaphore) (l : list Z) : Prop := {
  so_sem : sems (ipc (cs c)) !! m = Some x;
  so_valid : valid x = true;
  so_queue : wqueues (cs c) !! mq = Some l;
  so_value : 0 <= value x;
  so_free : 0 < value x -> l = [];
  so_count : value x + acquired c + Z.of_nat (size (cth c)) = v0 + released c + Z.of_nat (length l);
  so_member : forall w, w ∈ l -> exists p k, cth c !! p = Some (w, k) /\ owner (cs c) w p;
  so_thread : forall p w k, cth c !! p = Some (w, k) ->
       k = down_rest m w /\ p <> idleproc (cs c) /\ (waiting (cs c) l p w \/ handed (cs c) p w)
}.

Record ksem_inv (c : config) : Prop := {
  ki_sched : sched_inv I (cs c);
  ki_waits : waits_ok (cs c);
  ki_current : current (cs c) <> idleproc (cs c) -> proc_is (cs c) (current (cs c)) PROC_RUNNABLE;
  ki_sem : exists x l, sem_ok c x l;
  ki_distinct : forall p p' w k k', cth c !! p = Some (w, k) -> cth c !! p' = Some (w, k') -> p = p';
  ki_bound : 0 <= acquired c /\ v0 + released c < 2 ^ 31
}.

(** A change that touches neither the waits nor the semaphores. *)
Definition keeps (s s' : kstate) (p : Z) : Prop :=
  (dozing s p -> dozing s' p) /\ (proc_is s p PROC_RUNNABLE -> proc_is s' p PROC_RUNNABLE).

Lemma sem_ok_frame s s' th a r x l :
  sem_ok (mk_config s th a r) x l ->
  ipc s' = ipc s -> wqueues s' = wqueues s -> waits s' = waits s -> idleproc s' = idleproc s ->
  (forall p, keeps s s' p) -> sem_ok (mk_config s' th a r) x l.
Proof using Type.
  intros [Hs Hv Hq Hn Hf Hc Hm Ht] Ei Eq Ew Eid Hk. constructor; cbn in *; try done.
  - by rewrite Ei.
  - by rewrite Eq.
  - intros w Hw. destruct (Hm w Hw) as (p & k & ? & ?). exists p, k. split; [done|].
    unfold owner. by rewrite Ew.
  - intros p w k Hp. rewrite Eid. destruct (Ht p w k Hp) as (? & ? & Hor). split_and!; try done.
    destruct Hor as [[? ?]|(Hl & ? & Hx)]; [left|right].
    + split; [done|]. by apply Hk.
    + split_and!; [|by apply Hk|by rewrite Ew]. unfold linked in *. by rewrite Eq.
Qed.

Lemma switched_keeps n s s' p : switched n s s' -> keeps s s' p.
Proof using Type.
  intros Sw. split; [|by intros; apply (switched_pstate _ _ _ _ _ Sw)].
  intros (pr & Hp & Hst & Hws). pose proof (sw_procs _ _ _ Sw p) as E. rewrite Hp in E.
  apply fmap_Some in E as (pr' & Hp' & E). exists pr'. split; [done|].
  cbn in E. destruct (p =? n); injection E; intros; split; congruence.
Qed.

Lemma woken_keeps p s s' r : woken p s s' -> ~ dozing s p -> keeps s s' r.
Proof using Type.
  intros W Hn. destruct (decide (r = p)) as [->|Hne].
  - split; [done|]. intros _. apply W.
  - pose proof (wk_other _ _ _ W r Hne) as E. split.
    + intros (pr & Hp & Hst & Hws). rewrite Hp in E. apply fmap_Some in E as (pr' & Hp' & E).
      exists pr'. split; [done|]. injection E; intros; split; congruence.
    + unfold proc_is. by rewrite (core_eq_pstate _ _ E).
Qed.

Lemma keeps_current s s' :
  current s' = current s -> idleproc s' = idleproc s -> (forall p, keeps s s' p) ->
  (current s <> idleproc s -> proc_is s (current s) PROC_RUNNABLE) ->
  current s' <> idleproc s' -> proc_is s' (current s') PROC_RUNNABLE.
Proof using Type. intros -> -> Hk H Hne. apply Hk. auto. Qed.

(** ** Preservation, step by step *)

Lemma preempt_inv c s' :
  ksem_inv c -> schedule sc (cs c) = Ret (tt, s') ->
  ksem_inv (mk_config s' (cth c) (acquired c) (released c)).
Proof using Hsp.
  destruct c as [s th a r]. cbn [cs cth acquired released]. intros [Hi Hw Hc (x & l & Hs) Hd Hb] Hrun. cbn [cs cth acquired released] in *.
  destruct (schedule_ok s Hi) as (s1 & Hrun1 & Hi' & Sw & Hrdy & _).
  rewrite Hrun in Hrun1. injection Hrun1 as <-. pose proof (sw_rest _ _ _ Sw) as R.
  pose proof (rs_idle _ _ R) as Eid. cbn in Eid.
  constructor; cbn; try done.
  - apply (waits_ok_same s); [done|apply R|apply R|]. intros p Hp.
    rewrite <- (fmap_is_Some core_of), (sw_procs _ _ _ Sw), fmap_is_Some. done.
  - rewrite Eid. intros Hne. apply (switched_pstate _ _ _ _ _ Sw), Hrdy, Hne.
  - exists x, l. apply (sem_ok_frame s); [done|apply R..|]. intros p. by apply (switched_keeps (current s')).
Qed.

Lemma wake_step_inv c p pr s' :
  ksem_inv c -> procs (cs c) !! p = Some pr -> wait_state pr <> WT_KSEM -> pstate pr <> PROC_ZOMBIE ->
  wakeup_proc sc p (cs c) = Ret (tt, s') ->
  ksem_inv (mk_config s' (cth c) (acquired c) (released c)).
Proof using Hsp.
  destruct c as [s th a r]. cbn [cs cth acquired released]. intros [Hi Hw Hc (x & l & Hs) Hd Hb] Hp Hws Hz Hrun. cbn [cs cth acquired released] in *.
  destruct (wakeup_proc_woken s p pr Hi Hp Hz) as (s1 & Hrun1 & Hi' & W).
  rewrite Hrun in Hrun1. injection Hrun1 as <-. pose proof (wk_rest _ _ _ W) as R.
  assert (forall q, keeps s s' q) as Hk.
  { intros q. eapply woken_keeps; [done|]. intros (pr' & Hp' & _ & ?). congruence. }
  constructor; cbn; try done.
  - eapply woken_waits_ok; [done|by eexists|done].
  - by apply (keeps_current s); [apply R..| |].
  - exists x, l. by apply (sem_ok_frame s); [|apply R..|].
Qed.

(** A change of the semaphore's value. *)
Lemma value_inv f s th a r a' r' x l :
  ksem_inv (mk_config s th a r) -> sem_ok (mk_config s th a r) x l ->
  valid (f x) = true -> 0 <= value (f x) -> (0 < value (f x) -> l = []) ->
  value (f x) + a' + Z.of_nat (size th) = v0 + r' + Z.of_nat (length l) ->
  0 <= a' -> v0 + r' < 2 ^ 31 ->
  ksem_inv (mk_config (upd_sems (alter f m) s) th a' r').
Proof using Hsp.
  intros [Hi Hw Hc _ Hd _] [Hs Hv Hq Hn Hf Hcnt Hm Ht] Hv' Hn' Hf' Hcnt' Ha Hr. cbn in *.
  constructor; cbn; try done.
  - destruct Hi. constructor; try done. by apply (sp_stable s).
  - destruct Hw. by constructor.
  - exists (f x), l. constructor; cbn; try done. by rewrite lookup_alter_eq, Hs.
Qed.

Lemma take_inv c w s' :
  ksem_inv c -> fresh_wait c w -> down m w (cs c) = Ok tt s' ->
  ksem_inv (mk_config s' (cth c) (acquired c + 1) (released c)).
Proof using Hsp.
  destruct c as [s th a r]. intros Hk [Hw _] Hrun. cbn [cs cth acquired released] in *.
  pose proof Hk as [Hi _ _ (x & l & Hs) _ [Ha Hr]]. cbn [cs cth acquired released] in *.
  pose proof Hs as [Hsem Hv Hq Hn Hf Hcnt _ _]. cbn [cs cth acquired released] in *.
  destruct (Z.le_gt_cases (value x) 0) as [Hle|Hgt].
  - rewrite (down_blocks m w s x) in Hrun; [done..|apply Hi|by eexists|done].
  - rewrite (down_takes m w s x) in Hrun by (done || lia). injection Hrun as <-.
    apply (value_inv _ s th a r _ _ x l); try done; cbn; [lia| |lia|lia]. intros. apply Hf. lia.
Qed.

Lemma asleep_inv q w st s : sched_inv I s -> sched_inv I (asleep q w st (current s) s).
Proof using Hsp.
  intros [HI Hc Hid Hq Hr]. constructor.
  - apply (sp_stable s); [|done].
    destruct (slots_alter (fun x => set_wait_state st (set_pstate PROC_SLEEPING x)) (current s) s) as [? ? Hsl];
      [done|]. by constructor.
  - by apply known_alter.
  - by apply known_alter.
  - intros p Hp. apply Hq in Hp as (? & ? & ?). split_and!; try done.
    apply (proc_is_alter _ (current s) s). by rewrite decide_False.
  - intros p Hp ? ?. apply Hr; try done.
    apply (proc_is_alter _ (current s) s) in Hp. by rewrite decide_False in Hp.
Qed.

Lemma block_sem_ok s th a r w x l :
  sem_ok (mk_config s th a r) x l -> is_Some (procs s !! current s) ->
  current s <> idleproc s -> th !! current s = None ->
  fresh_wait (mk_config s th a r) w -> value x = 0 ->
  sem_ok (mk_config (asleep mq w WT_KSEM (current s) s)
            (<[current s := (w, down_rest m w)]> th) a r) x (l ++ [w]).
Proof using Hsp.
  intros [Hs Hv Hq Hn Hf Hcnt Hm Ht] [pr Hp] Hid Hth [Hw Hfr] Hz. cbn [cs cth acquired released] in *.
  assert (w ∉ l) as Hwl by (by eapply linked_false).
  constructor; cbn [cs cth acquired released]; try done.
  - cbn. by rewrite lookup_alter_eq, Hq.
  - lia.
  - rewrite map_size_insert_None by done. rewrite length_app. cbn. lia.
  - intros w' [Hw'|Hw'%list_elem_of_singleton]%elem_of_app.
    + destruct (Hm w' Hw') as (p & k & Hpk & Ho). exists p, k. rewrite lookup_insert_ne by congruence.
      split; [done|]. unfold owner. cbn. rewrite lookup_insert_ne; [done|]. set_solver.
    + subst w'. exists (current s), (down_rest m w). rewrite lookup_insert_eq. split; [done|].
      unfold owner. cbn. by rewrite lookup_insert_eq.
  - intros p w' k Hpk. destruct (decide (p = current s)) as [->|Hne].
    + rewrite lookup_insert_eq in Hpk. injection Hpk as <- <-. split_and!; try done. left.
      split; [set_solver|]. eexists. cbn. rewrite lookup_alter_eq, Hp. by split.
    + rewrite lookup_insert_ne in Hpk by done. destruct (Ht p w' k Hpk) as (? & ? & Hor).
      split_and!; try done. destruct Hor as [[? (y & ? & ?)]|(Hl & Hr & (y & ? & ?))]; [left|right].
      * split; [set_solver|]. exists y. cbn. by rewrite lookup_alter_ne.
      * split_and!.
        -- rewrite asleep_linked, Hl by (by eexists). cbn. apply Z.eqb_neq. by eapply Hfr.
        -- unfold proc_is. cbn. by rewrite lookup_alter_ne.
        -- exists y. cbn. rewrite lookup_insert_ne; [done|]. intros <-. by eapply Hfr.
Qed.

Lemma block_inv c w s1 k s' :
  ksem_inv c -> cth c !! current (cs c) = None -> fresh_wait c w ->
  current (cs c) <> idleproc (cs c) ->
  down m w (cs c) = Sleep s1 k -> schedule sc s1 = Ret (tt, s') ->
  ksem_inv (mk_config s' (<[current (cs c) := (w, k)]> (cth c)) (acquired c) (released c)).
Proof using Hsp.
  destruct c as [s th a r]. cbn [cs cth acquired released].
  intros [Hi Hwo Hc (x & l & Hs) Hd Hb] Hth Hfr Hid Hrun Hsch. cbn [cs cth acquired released] in *.
  pose proof Hs as [Hsem Hv Hq Hn Hf Hcnt Hm Ht]. cbn [cs cth acquired released] in *.
  destruct (Z.le_gt_cases (value x) 0) as [Hle|Hgt].
  2:{ rewrite (down_takes m w s x) in Hrun by (done || lia). done. }
  rewrite (down_blocks m w s x) in Hrun; [|done..|apply Hi|by eexists|apply Hfr].
  injection Hrun as <- <-.
  destruct (schedule_ok _ (asleep_inv mq w WT_KSEM s Hi)) as (s2 & Hrun2 & Hi' & Sw & Hrdy & _).
  rewrite Hsch in Hrun2. injection Hrun2 as <-. pose proof (sw_rest _ _ _ Sw) as R.
  pose proof (rs_idle _ _ R) as Eid. cbn in Eid.
  constructor; cbn [cs cth acquired released]; try done.
  - apply (waits_ok_same (asleep mq w WT_KSEM (current s) s)); [|apply R|apply R|].
    + apply asleep_waits_ok; [done|apply Hi|apply Hfr].
    + intros p Hp. rewrite <- (fmap_is_Some core_of), (sw_procs _ _ _ Sw), fmap_is_Some. done.
  - rewrite Eid. intros Hne. apply (switched_pstate _ _ _ _ _ Sw), Hrdy, Hne.
  - exists x, (l ++ [w]). apply (sem_ok_frame (asleep mq w WT_KSEM (current s) s)); [|apply R..|].
    + apply block_sem_ok; try done; [apply Hi|lia].
    + intros p. by apply (switched_keeps (current s')).
  - destruct Hfr as [_ Hfr]. cbn in Hfr. intros p p' w' k k'.
    rewrite !lookup_insert_Some. naive_solver.
Qed.

(** A process inside [down] that is running has been handed its permit. *)
Lemma running_handed s th a r x l w k :
  sem_ok (mk_config s th a r) x l -> th !! current s = Some (w, k) ->
  (current s <> idleproc s -> proc_is s (current s) PROC_RUNNABLE) ->
  k = down_rest m w /\ handed s (current s) w.
Proof using Type.
  intros Hs Hth Hc. destruct (so_thread _ _ _ Hs _ _ _ Hth) as (Hk & Hid & [[_ Hd]|H]); [|done].
  exfalso. specialize (Hc Hid). destruct Hd as (pr & Hp & Hst & _).
  unfold proc_is in Hc. cbn in Hp. rewrite Hp in Hc. cbn in Hc. congruence.
Qed.

Lemma resume_inv c w (k : R kstate unit) s' :
  ksem_inv c -> cth c !! current (cs c) = Some (w, k) -> k (cs c) = Ok tt s' ->
  ksem_inv (mk_config s' (delete (current (cs c)) (cth c)) (acquired c + 1) (released c)).
Proof using Hsp.
  destruct c as [s th a r]. cbn [cs cth acquired released].
  intros [Hi Hwo Hc (x & l & Hs) Hd Hb] Hth Hrun. cbn [cs cth acquired released] in *.
  destruct (running_handed s th a r x l w k) as [-> (Hl & Hr & (y & Hy & Hf))]; try done.
  rewrite (down_rest_ok m w s y) in Hrun by done. injection Hrun as <-.
  constructor; cbn [cs cth acquired released]; try done; [| |lia].
  - exists x, l. destruct Hs as [Hsem Hv Hq Hn Hfr Hcnt Hm Ht]. cbn [cs cth acquired released] in *.
    constructor; cbn [cs cth acquired released]; try done.
    + rewrite map_size_delete_Some by (by eexists). assert (size th <> 0%nat); [|lia].
      rewrite map_size_ne_0_lookup. by eexists _, _.
    + intros w' Hw'. destruct (Hm w' Hw') as (p & k & Hp & Ho). exists p, k. split; [|done].
      rewrite lookup_delete_ne; [done|]. intros E. subst p. assert (w' = w) as -> by congruence.
      by apply (linked_false s w mq l).
    + intros p w' k' [_ Hp]%lookup_delete_Some. by apply Ht.
  - intros p p' w' k k' [_ H1]%lookup_delete_Some [_ H2]%lookup_delete_Some. by eapply Hd.
Qed.

Lemma hand_sem_ok s s' th a r x w l p :
  sem_ok (mk_config s th a r) x (w :: l) -> waits_ok s ->
  (forall p p' w k k', th !! p = Some (w, k) -> th !! p' = Some (w, k') -> p = p') ->
  owner s w p -> woken p (signalled w WT_KSEM true s) s' ->
  (exists k, th !! p = Some (w, k)) ->
  sem_ok (mk_config s' th a (r + 1)) x l.
Proof using Hsp.
  intros [Hs Hv Hq Hn Hf Hcnt Hm Ht] Hwo Hd Ho W [k0 Hpk]. cbn [cs cth acquired released] in *.
  pose proof (wk_rest _ _ _ W) as R. pose proof (wo_nodup _ Hwo _ _ Hq) as Hnd.
  assert (forall u, linked s' u = linked s u && negb (u =? w)) as Hlk.
  { intros u. rewrite <- unlinked_linked. unfold linked. by rewrite (rs_wqueues _ _ R). }
  apply NoDup_cons in Hnd as [Hwl _].
  constructor; cbn [cs cth acquired released]; try done.
  - by rewrite (rs_ipc _ _ R).
  - rewrite (rs_wqueues _ _ R). cbn [wqueues signalled upd_waits].
    rewrite (unlinked_queues s mq (w :: l) w Hwo Hq) by left. rewrite lookup_insert_eq. f_equal.
    apply (remove_middle w [] l); [by apply not_elem_of_nil|done].
  - intros Hpos. by specialize (Hf Hpos).
  - cbn [length] in Hcnt. lia.
  - intros u Hu. destruct (Hm u) as (q & k & ? & Hown); [by right|]. exists q, k. split; [done|].
    unfold owner in *. rewrite (rs_waits _ _ R). cbn. rewrite lookup_alter_ne by set_solver. done.
  - intros q u k Hqu. rewrite (rs_idle _ _ R). cbn [idleproc signalled upd_waits unlinked upd_wqueues].
    destruct (Ht q u k Hqu) as (-> & Hid & Hor). split_and!; try done.
    destruct (decide (u = w)) as [->|Hne].
    + assert (q = p) as -> by (by eapply Hd). right. split_and!; [by rewrite Hlk, Z.eqb_refl, andb_false_r|apply W|].
      rewrite (rs_waits _ _ R). cbn. rewrite lookup_alter_eq. unfold owner in Ho.
      destruct (waits s !! w) as [y|]; [|done]. by eexists.
    + assert (q <> p) as Hqp by congruence. pose proof (wk_other _ _ _ W q Hqp) as E.
      destruct Hor as [[Hu (pr & Hp & Hst & Hws)]|(Hl & Hr & Hx)]; [left|right].
      * split; [set_solver|]. cbn in E. rewrite Hp in E. apply fmap_Some in E as (pr' & Hp' & E).
        exists pr'. split; [done|]. injection E; intros; split; congruence.
      * split_and!; [by rewrite Hlk, Hl|unfold proc_is; rewrite (core_eq_pstate _ _ E); done|].
        rewrite (rs_waits _ _ R). cbn. by rewrite lookup_alter_ne.
Qed.

Lemma waiter_of s th a r x w l :
  sem_ok (mk_config s th a r) x (w :: l) -> waits_ok s ->
  exists wt p k pr, waits s !! w = Some wt /\ wait_queue wt = Some mq /\ wproc wt = Some p /\
    th !! p = Some (w, k) /\ procs s !! p = Some pr /\ pstate pr = PROC_SLEEPING /\
    wait_state pr = WT_KSEM.
Proof using Type.
  intros Hs Hwo. pose proof (so_queue _ _ _ Hs) as Hq. cbn in Hq.
  destruct (so_member _ _ _ Hs w) as (p & k & Hp & Ho); [left|]. cbn in Hp, Ho.
  destruct (wo_member _ Hwo _ _ w Hq) as (wt & p' & Hwt & Hwq & Hwp & _); [left|].
  assert (p' = p) as -> by (unfold owner in Ho; rewrite Hwt in Ho; cbn in Ho; congruence).
  destruct (so_thread _ _ _ Hs _ _ _ Hp) as (_ & _ & [[_ (pr & ? & ? & ?)]|(Hl & _)]).
  - exists wt, p, k, pr. by split_and!.
  - exfalso. apply (linked_false _ w mq (w :: l) Hl Hq). left.
Qed.

Lemma up_inv c s' :
  ksem_inv c -> v0 + released c + 1 < 2 ^ 31 -> up sc m (cs c) = Ret (tt, s') ->
  ksem_inv (mk_config s' (cth c) (acquired c) (released c + 1)).
Proof using Hsp.
  destruct c as [s th a r]. cbn [cs cth acquired released]. intros Hk Hb Hrun.
  pose proof Hk as [Hi Hwo Hc (x & l & Hs) Hd [Ha _]]. cbn [cs cth acquired released] in *.
  pose proof Hs as [Hsem Hv Hq Hn Hf Hcnt _ _]. cbn [cs cth acquired released] in *.
  destruct l as [|w l].
  - rewrite (up_value s x) in Hrun by done. injection Hrun as <-. cbn [length] in Hcnt.
    apply (value_inv _ s th a r _ _ x []); try done; cbn [value set_value length];
      rewrite ?s32_small by (unfold is_s32; lia); lia.
  - destruct (waiter_of s th a r x w l Hs Hwo) as (wt & p & k & pr & Hwt & Hwq & Hwp & Hp & Hpr & Hst & Hws).
    assert (pstate pr <> PROC_ZOMBIE) as Hz by congruence.
    destruct (up_hands s x w l wt p pr) as (s1 & Hrun1 & Hi1 & W); try done.
    rewrite Hrun in Hrun1. injection Hrun1 as <-. pose proof (wk_rest _ _ _ W) as R.
    constructor; cbn [cs cth acquired released]; try done.
    + apply (woken_waits_ok p (signalled w WT_KSEM true s)); [by apply signalled_ok|by exists pr|done].
    + rewrite (rs_current _ _ R), (rs_idle _ _ R). cbn. intros Hne.
      destruct (decide (current s = p)) as [->|Hnp]; [apply W|].
      unfold proc_is. rewrite (core_eq_pstate _ _ (wk_other _ _ _ W _ Hnp)). by apply Hc.
    + exists x, l. apply (hand_sem_ok s s' th a r x w l p); try done; [unfold owner; by rewrite Hwt|by exists k].
    + lia.
Qed.

Lemma step_inv c c' : ksem_inv c -> step c c' -> ksem_inv c'.
Proof using Hsp.
  intros Hk Hstep. destruct Hstep.
  - by eapply take_inv.
  - by eapply block_inv.
  - by eapply resume_inv.
  - by apply up_inv.
  - by apply preempt_inv.
  - by eapply wake_step_inv.
Qed.

(** ** From [sem_init] on *)

Record initial (c : config) : Prop := {
  in_from : exists s, sched_inv I s /\ waits_ok s /\
      (current s <> idleproc s -> proc_is s (current s) PROC_RUNNABLE) /\
      sem_init m v0 s = Ret (tt, cs c);
  in_value : 0 <= v0 < 2 ^ 31;
  in_threads : cth c = ∅;
  in_acquired : acquired c = 0;
  in_released : released c = 0
}.

Lemma initial_inv c : initial c -> ksem_inv c.
Proof using Hsp.
  intros [(s & Hi & Hw & Hc & [= Hs]) Hv Eth Ea Er]. destruct c as [s0 th a r].
  cbn [cs cth acquired released] in *. subst s0 th a r.
  constructor; cbn [cs cth acquired released]; try done.
  - destruct Hi. constructor; try done. by apply (sp_stable s).
  - by apply (sem_init_waits_ok m v0 s).
  - exists (mk_sem v0 true 0), []. constructor; cbn; try done.
    + apply lookup_insert_eq.
    + apply lookup_insert_eq.
    + lia.
    + intros w Hin. by apply not_elem_of_nil in Hin.
  - lia.
Qed.

Lemma reachable_inv c0 c : initial c0 -> rtc step c0 c -> ksem_inv c.
Proof using Hsp.
  intros H0 Hrtc. apply initial_inv in H0. induction Hrtc; [done|]. eauto using step_inv.
Qed.

(** The waits of the processes inside [down], and how many of them have left the
    queue [l]: the permits handed over and not yet picked up. *)
Definition waits_of (c : config) : list Z := (fun x => x.2.1) <$> map_to_list (cth c).

Definition in_flight (c : config) (l : list Z) : Z :=
  Z.of_nat (length (base.filter (fun w => w ∉ l) (waits_of c))).

Lemma elem_of_waits_of c w : w ∈ waits_of c <-> exists p k, cth c !! p = Some (w, k).
Proof using Type.
  unfold waits_of. rewrite list_elem_of_fmap. split.
  - intros ([p [w' k]] & -> & H%elem_of_map_to_list). eauto.
  - intros (p & k & H). exists (p, (w, k)). split; [done|]. by apply elem_of_map_to_list.
Qed.

Lemma waits_of_nodup c :
  (forall p p' w k k', cth c !! p = Some (w, k) -> cth c !! p' = Some (w, k') -> p = p') ->
  NoDup (waits_of c).
Proof using Type.
  intros Hd. unfold waits_of. apply NoDup_fmap_2_strong; [|apply NoDup_map_to_list].
  intros [p [w k]] [p' [w' k']] H1%elem_of_map_to_list H2%elem_of_map_to_list. cbn. intros <-.
  assert (p = p') as <- by (by eapply Hd). congruence.
Qed.

Lemma length_filter_split (P : Z -> Prop) `{!forall x, Decision (P x)} (l : list Z) :
  length l = (length (base.filter P l) + length (base.filter (fun x => ~ P x) l))%nat.
Proof using Type.
  induction l as [|x l IH]; [done|]. destruct (decide (P x)).
  - rewrite filter_cons_True, filter_cons_False by (done || tauto). cbn. lia.
  - rewrite filter_cons_False, filter_cons_True by done. cbn. lia.
Qed.

Lemma in_flight_count c l :
  NoDup l -> NoDup (waits_of c) -> (forall w, w ∈ l -> w ∈ waits_of c) ->
  Z.of_nat (size (cth c)) = Z.of_nat (length l) + in_flight c l.
Proof using Type.
  intros Hl Hw Hin. unfold in_flight.
  assert (size (cth c) = length (waits_of c)) as -> by (unfold waits_of; by rewrite length_fmap, length_map_to_list).
  rewrite (length_filter_split (fun w => w ∈ l) (waits_of c)).
  assert (base.filter (fun w => w ∈ l) (waits_of c) ≡ₚ l) as ->; [|lia].
  apply NoDup_Permutation; [by apply NoDup_filter|done|]. intros w. rewrite list_elem_of_filter. naive_solver.
Qed.

(** C30: a semaphore that starts with [v0] permits never loses or invents one,
    however its users are interleaved, preempted and woken: the completed [down]s,
    the permits left and the permits handed to processes that have not run since
    add up to [v0] and the completed [up]s.  So at most [v0] processes more have
    got through [down] than have called [up] (mutual exclusion for [v0 = 1]), and
    no process waits on the queue while a permit is available. *)
Theorem ksem_conservation c0 c :
  initial c0 -> rtc step c0 c ->
  exists x l, sems (ipc (cs c)) !! m = Some x /\ wqueues (cs c) !! mq = Some l /\
    0 <= value x /\ (0 < value x -> l = []) /\
    acquired c + value x + in_flight c l = v0 + released c.
Proof using Hsp.
  intros H0 Hrtc. pose proof (reachable_inv c0 c H0 Hrtc) as [_ Hwo _ (x & l & Hs) Hd _].
  exists x, l. pose proof Hs as [Hsem Hv Hq Hn Hf Hcnt Hm Ht]. split_and!; try done.
  rewrite (in_flight_count c l) in Hcnt; [lia|by apply (wo_nodup _ Hwo mq)|by apply waits_of_nodup|].
  intros w Hw. apply elem_of_waits_of. destruct (Hm w Hw) as (p & k & ? & _). eauto.
Qed.

(** In every reachable configuration the code cannot fail: [up] returns
    (its assertion on the waiter's state holds), a [down] either returns or goes
    to sleep and the scheduler finds another process to run, and a process inside
    [down] that is running again returns from it with its permit. *)
Theorem ksem_no_failure c0 c :
  initial c0 -> rtc step c0 c ->
  (exists s', up sc m (cs c) = Ret (tt, s')) /\
  (forall w, fresh_wait c w ->
     (exists s', down m w (cs c) = Ok tt s') \/
     (exists s1 k s', down m w (cs c) = Sleep s1 k /\ schedule sc s1 = Ret (tt, s'))) /\
  (forall w (k : R kstate unit), cth c !! current (cs c) = Some (w, k) -> k (cs c) = Ok tt (cs c)).
Proof using Hsp.
  intros H0 Hrtc. pose proof (reachable_inv c0 c H0 Hrtc) as [Hi Hwo Hc (x & l & Hs) _ _].
  destruct c as [s th a r]. cbn [cs cth] in *. pose proof Hs as [Hsem Hv Hq _ _ _ _ _]. cbn [cs cth] in *.
  split_and!.
  - destruct l as [|w l]; [eexists; by apply (up_value s x)|].
    destruct (waiter_of s th a r x w l Hs Hwo) as (wt & p & k & pr & Hwt & Hwq & Hwp & Hp & Hpr & Hst & Hws).
    destruct (up_hands s x w l wt p pr) as (s' & ? & _); try done; [congruence|eauto].
  - intros w [Hw _]. destruct (Z.le_gt_cases (value x) 0).
    + right. destruct (schedule_ok _ (asleep_inv mq w WT_KSEM s Hi)) as (s' & Hrun & _).
      eexists _, _, s'. split; [|exact Hrun]. by apply (down_blocks m w s x); [..|apply Hi|eexists|].
    + left. eexists. apply (down_takes m w s x); done || lia.
  - intros w k Hk. destruct (running_handed s th a r x l w k) as [-> (Hl & Hr & (y & Hy & Hf))]; try done.
    by apply (down_rest_ok m w s y).
Qed.

End Steps.

(** ** Concrete runs *)

Lemma ex_waits_ok : waits_ok ex_state.
Proof. constructor; intros q l; cbn; by rewrite lookup_empty. Qed.

Definition ex_sem : kstate := match sem_init 100 1 ex_state with Ret (_, s) => s | _ => ex_state end.

Lemma ex_initial : initial (I := queues_ok kernel_ring) 100 1 (mk_config ex_sem ∅ 0 0).
Proof.
  constructor; try done.
  exists ex_state. split; [exact ex_sched_inv|]. split; [exact ex_waits_ok|]. by split.
Qed.

(** Process 1 goes through [down] in the state above. *)
Definition ex_down : kstate := match down 100 50 ex_sem with Ok _ s => s | _ => ex_sem end.

Lemma ex_run : rtc (step (sc := MLFQ_sched_class) 100 1) (mk_config ex_sem ∅ 0 0) (mk_config ex_down ∅ 1 0).
Proof. apply rtc_once. apply (step_take 100 1 (mk_config ex_sem ∅ 0 0) 50); done. Qed.

Lemma ksem_conservation_witness :
  exists x l, sems (ipc ex_down) !! 100 = Some x /\ wqueues ex_down !! sem_wait_queue 100 = Some l /\
    0 <= value x /\ (0 < value x -> l = []) /\
    1 + value x + in_flight (mk_config ex_down ∅ 1 0) l = 1.
Proof. exact (ksem_conservation (sc := MLFQ_sched_class) 100 1 _ _ ex_initial ex_run). Defined.

Lemma ksem_no_failure_witness : exists s', up MLFQ_sched_class 100 ex_down = Ret (tt, s').
Proof. apply (ksem_no_failure (sc := MLFQ_sched_class) 100 1 _ _ ex_initial ex_run). Defined.

(** Process 1 waits on a user semaphore for one tick, process 3 runs, the tick
    comes, and process 3 posts. *)
Definition ex_usem : kstate := match sem_init 200 0 ex_state with Ret (_, s) => s | _ => ex_state end.
Definition usem_waits : res kstate Z := usem_down 200 1 50 60 ex_usem.
Definition usem_slept : kstate := match usem_waits with Sleep s _ => s | _ => ex_usem end.
Definition usem_other : kstate :=
  match schedule MLFQ_sched_class usem_slept with Ret (_, s) => s | _ => ex_usem end.
Definition usem_ticked : kstate :=
  match run_timer_list MLFQ_sched_class usem_other with Ret (_, s) => s | _ => ex_usem end.

(** A process that waits on a user semaphore with a timeout and has been
    woken by its timer, but has not run since, is still on the semaphore's queue
    with no wait state; a post by another process at that moment fails the
    assertion [wait->proc->wait_state == wait_state] of [__up] and stops the
    kernel.  The run starts in a well-formed state. *)
Theorem usem_post_after_timeout_panics :
  sched_inv (queues_ok kernel_ring) ex_usem /\ waits_ok ex_usem /\ timers_ok ex_usem /\
  (exists k, usem_down 200 1 50 60 ex_usem = Sleep usem_slept k) /\
  schedule MLFQ_sched_class usem_slept = Ret (tt, usem_other) /\ current usem_other = 3 /\
  run_timer_list MLFQ_sched_class usem_other = Ret (tt, usem_ticked) /\ current usem_ticked = 3 /\
  usem_up MLFQ_sched_class 200 usem_ticked = Panic.
Proof.
  split; [destruct ex_sched_inv as [H ? ? ? ?]; constructor; try done; by apply (queues_ok_stable _ ex_state)|].
  split; [by apply (sem_init_waits_ok 200 0 ex_state); [apply ex_waits_ok|]|].
  split; [destruct ex_timers_ok as [H1 H2 H3 H4]; exact (Build_timers_ok ex_usem H1 H2 H3 H4)|].
  split; [|split_and!; vm_compute; reflexivity].
  change (exists k, usem_waits = Sleep usem_slept k). unfold usem_slept.
  assert (match usem_waits with Sleep _ _ => True | _ => False end) as H by (vm_compute; exact I).
  destruct usem_waits as [| | |s k]; [done..|]. by exists k.
Qed.

End SemInv.
