(* ===== verification/Event.v ===== *)
(** * Events between processes (src/code/kern/sync/event.c, event.h)

    A process sends an integer to another and sleeps until it is received.  The
    table of processes ([find_proc]) and the access to user memory (kern/mm/vmm.c)
    are parameters. *)

From S2P Require Import Prelude Kern Sched SchedInv SchedPolicies Wait.
Import Kern Sched SchedInv SchedPolicies Wait WaitInv.
Open Scope Z_scope.

Module Event.

Definition event_box_init (p : Z) : M kstate unit := wait_queue_init (event_wait_queue p).

Section Ops.
Variable sc : sched_class.

(** [w] is the address of the local [__wait]. *)
Definition send_event (p w : Z) (timer : option Z) : R kstate Z :=
  lift (wait_current_set (event_wait_queue p) w WT_EVENT_SEND) ;;~
  lift (ipc_add_timer timer) ;;~
  sleep ;;~
  lift (ipc_del_timer timer) ;;~
  lift (wait_current_del (event_wait_queue p) w) ;;~
  wt <~ lift (get_wait w) ;;
  rret (if negb (wakeup_flags wt =? WT_EVENT_SEND) then wakeup_flags wt else 0).

(** The part of [recv_event] after the wait: the first sender, if there is one,
    with the event it sends. *)
Definition recv_first (q : wq) : M kstate (option (Z * Z)) :=
  w <- wait_queue_first q ;;
  match w with
  | Some w =>
      wt <- get_wait w ;;
      p <- deref (wproc wt) ;;
      pr <- get_proc p ;;
      wakeup_wait sc q w WT_EVENT_SEND true ;;
      ret (Some (pid pr, event pr))
  | None => ret None
  end.

(** [None] is the result -1, [Some (pid, event)] the result 0 with its stores. *)
Definition recv_event (timer : option Z) : R kstate (option (Z * Z)) :=
  s <~ lift get ;;
  let q := event_wait_queue (current s) in
  empty <~ lift (wait_queue_empty q) ;;
  (if empty : bool then
     lift (update_proc (set_pstate PROC_SLEEPING) (current s)) ;;~
     lift (update_proc (set_wait_state WT_EVENT_RECV) (current s)) ;;~
     lift (ipc_add_timer timer) ;;~
     sleep ;;~
     lift (ipc_del_timer timer)
   else rret tt) ;;~
  lift (recv_first q).

Section Calls.
Variable find_proc : Z -> M kstate (option Z).
Variables initproc kswapd : Z.
Variable user_mem_check : Z -> Z -> bool -> M kstate bool.
Variable copy_to_user : Z -> Z -> M kstate bool.
Variables lock_mm unlock_mm : R kstate unit.

(** [w] and [t] are the addresses of the local wait and timer. *)
Definition ipc_event_send (id ev timeout w t : Z) : R kstate Z :=
  proc <~ lift (find_proc id) ;;
  match proc with
  | None => rret (- E_INVAL)
  | Some p =>
      pr <~ lift (get_proc p) ;;
      s <~ lift get ;;
      if is_state (pstate pr) PROC_ZOMBIE then rret (- E_INVAL)
      else if (p =? current s) || (p =? idleproc s) || (p =? initproc) || (p =? kswapd)
      then rret (- E_INVAL)
      else
        lift (if wait_state pr =? WT_EVENT_RECV then wakeup_proc sc p else ret tt) ;;~
        lift (update_proc (set_event ev) (current s)) ;;~
        tm <~ lift (ipc_timer_init timeout t) ;;
        flags <~ send_event p w (fst tm) ;;
        if flags =? 0 then rret 0
        else
          lift (assert (flags =? WT_INTERRUPTED)) ;;~
          lift (ipc_check_timeout timeout (snd tm))
  end.

(** [pid_store] may be [NULL] (0); [event_store] may not. *)
Definition ipc_event_recv (pid_store event_store timeout t : Z) : R kstate Z :=
  if event_store =? 0 then rret (- E_INVAL)
  else
    ok1 <~ lift (if negb (pid_store =? 0) then user_mem_check pid_store 4 true else ret true) ;;
    if negb ok1 then rret (- E_INVAL)
    else
      ok2 <~ lift (user_mem_check event_store 4 true) ;;
      if negb ok2 then rret (- E_INVAL)
      else
        tm <~ lift (ipc_timer_init timeout t) ;;
        r <~ recv_event (fst tm) ;;
        match r with
        | Some (id, ev) =>
            lock_mm ;;~
            c1 <~ lift (if pid_store =? 0 then ret true else copy_to_user pid_store id) ;;
            c2 <~ lift (if c1 : bool then copy_to_user event_store ev else ret false) ;;
            unlock_mm ;;~
            rret (if c2 : bool then 0 else - E_INVAL)
        | None => lift (ipc_check_timeout timeout (snd tm))
        end.

End Calls.

(** ** The rendezvous *)

Context {I : kstate -> Prop} {Hsp : SchedPolicy sc I}.

(** A sender that slept without a timer and was taken off the queue by a receiver
    returns 0. *)
Lemma send_event_resumed p w s0 s1 s' k :
  linked s' w = false -> (exists x, waits s' !! w = Some x /\ wakeup_flags x = WT_EVENT_SEND) ->
  send_event p w None s0 = Sleep s1 k -> k s' = Ok 0 s'.
Proof using Type.
  intros Hl (x & Hx & Hf). unfold send_event, rbind at 1, lift at 1.
  destruct (wait_current_set _ _ _ s0) as [[[] s2]| |]; cbn [rthen]; [|done|done].
  rewrite (rbind_lift _ _ s2 tt s2) by done. rewrite rbind_sleep. intros [= _ <-].
  rewrite (rbind_lift _ _ s' tt s') by done.
  rewrite (rbind_lift _ _ s' tt s') by (unfold wait_current_del, wait_in_queue, bind, get, ret; by rewrite Hl).
  rstep get_wait_ok; [|exact Hx]. unfold rret. by rewrite Hf.
Qed.

(** A process that receives while senders wait takes the event of the one that
    has waited longest and returns at once; that sender leaves the queue, is made
    runnable, and its own call then returns 0 (success) when it next runs; the
    other senders keep waiting in order. *)
Theorem event_rendezvous s w l wt p pr timer :
  sched_inv I s -> waits_ok s ->
  wqueues s !! event_wait_queue (current s) = Some (w :: l) ->
  waits s !! w = Some wt -> wproc wt = Some p -> procs s !! p = Some pr ->
  pstate pr <> PROC_ZOMBIE ->
  exists s', recv_event timer s = Ok (Some (pid pr, event pr)) s' /\ sched_inv I s' /\ waits_ok s' /\
    wqueues s' = <[event_wait_queue (current s) := l]> (wqueues s) /\
    woken p (signalled w WT_EVENT_SEND true s) s' /\
    (forall s0 s1 k, send_event (current s) w None s0 = Sleep s1 k -> k s' = Ok 0 s').
Proof using Hsp.
  intros Hi Ho Hq Hw Hwp Hp Hz. pose proof (wo_nodup _ Ho _ _ Hq) as Hn.
  destruct (wo_member _ Ho _ _ w Hq) as (wt' & p' & Hw' & Hwq & _ & _); [left|].
  replace wt' with wt in Hwq by congruence. clear wt' p' Hw'.
  destruct (wakeup_wait_ok s (event_wait_queue (current s)) (w :: l) w wt p pr WT_EVENT_SEND true)
    as (s' & Hrun & Hi' & W); try done; [left|].
  pose proof (wk_rest _ _ _ W) as R. exists s'. split_and!; try done.
  - unfold recv_event. rewrite (rbind_lift _ _ s s s) by done.
    rewrite (rbind_lift _ _ s false s) by (unfold wait_queue_empty; mstep get_wqueue_ok; [|exact Hq]; done).
    rewrite rbind_rret. apply lift_Ret. unfold recv_first.
    rewrite (bind_step _ _ s (Some w) s) by (unfold wait_queue_first; mstep get_wqueue_ok; [|exact Hq]; done).
    mstep get_wait_ok; [|exact Hw]. rewrite (bind_deref _ p) by done.
    mstep get_proc_ok; [|exact Hp]. by rewrite (bind_step _ _ _ _ _ Hrun).
  - apply (woken_waits_ok p (signalled w WT_EVENT_SEND true s)); [by apply signalled_ok|by exists pr|done].
  - rewrite (rs_wqueues _ _ R). cbn [signalled wqueues upd_waits].
    rewrite (unlinked_queues s _ (w :: l) w Ho Hq) by left. f_equal.
    apply (remove_middle w [] l); [by apply not_elem_of_nil|]. by apply NoDup_cons in Hn as [? _].
  - intros s0 s1 k Hs. apply (send_event_resumed (current s) w s0 s1 s' k) in Hs; [done|..].
    + unfold linked. rewrite (rs_wqueues _ _ R). change (linked (unlinked w s) w = false).
      by rewrite unlinked_linked, Z.eqb_refl, andb_false_r.
    + rewrite (rs_waits _ _ R). cbn. rewrite lookup_alter_eq, Hw. by eexists.
Qed.

End Ops.

(** Process 2 waits to send the event 7 to process 1, which runs. *)
Definition ex_event : kstate :=
  upd_wqueues (fun _ => {[event_wait_queue 1 := [50]]})
    (upd_waits (fun _ => {[50 := mk_wait (Some 2) WT_INTERRUPTED (Some (event_wait_queue 1))]})
      (upd_procs (alter (set_event 7) 2) ex_state)).

Lemma event_rendezvous_witness :
  exists s', recv_event MLFQ_sched_class None ex_event = Ok (Some (2, 7)) s' /\
    wqueues s' !! event_wait_queue 1 = Some [].
Proof.
  destruct (event_rendezvous MLFQ_sched_class (I := queues_ok kernel_ring) ex_event 50 []
    (mk_wait (Some 2) WT_INTERRUPTED (Some (event_wait_queue 1))) 2
    (mk_proc PROC_SLEEPING 2 2 false WT_TIMER (Some 1) 3 7 None) None) as (s' & Hrun & _ & _ & Hq & _).
  - destruct ex_sched_inv as [H ? ? Hq Hr]. constructor; [|done|done|..].
    + apply (queues_ok_stable _ ex_state); [|done].
      destruct (slots_alter (set_event 7) 2 ex_state) as [? ? Hsl]; [done|]. by constructor.
    + intros p Hp. apply Hq in Hp as (Hp & ? & ?). split_and!; try done.
      apply (proc_is_alter (set_event 7) 2 ex_state). case_decide; [subst|done]. by unfold proc_is in Hp.
    + intros p Hp. apply Hr. apply (proc_is_alter (set_event 7) 2 ex_state) in Hp.
      case_decide; [subst|done]. by destruct Hp as (x & [= <-] & ?).
  - constructor; cbn.
    + intros q l [<- <-]%lookup_singleton_Some. apply NoDup_singleton.
    + intros q l w [<- <-]%lookup_singleton_Some Hw%list_elem_of_singleton. subst w.
      exists (mk_wait (Some 2) WT_INTERRUPTED (Some (event_wait_queue 1))), 2. by split_and!.
  - reflexivity.
  - reflexivity.
  - reflexivity.
  - reflexivity.
  - discriminate.
  - exists s'. split; [exact Hrun|]. by rewrite Hq.
Defined.

End Event.
