(* ===== verification/Mbox.v ===== *)
(** * Mailboxes (src/code/kern/sync/mbox.c, mboxbuf.h)

    Mailboxes are named by their id (their place in [mbox_map]); messages are
    split over [kmalloc]ed segments.  The state adds to the kernel's the mailboxes,
    the pages that hold them, the free list, the memory blocks allocated and not
    freed, and the user memory that messages are read from and written to; the
    checks of user pointers (kern/mm/vmm.c) are parameters.
    The module [MboxInv] below is about the ids and the messages. *)

From S2P Require Import Prelude Kern Sched SchedInv SchedPolicies Wait Sem.
Import Kern Sched SchedInv SchedPolicies Wait WaitInv Sem.
Open Scope Z_scope.

Module Mbox.

(** [struct msg_seg] and [struct msg_msg] with the data that follows them. *)
Record msg_seg := mk_seg { seg_addr : Z; seg_data : list Z }.
Record msg_msg := mk_msg {
  msg_addr : Z; msg_pid : Z; msg_bytes : Z; msg_data : list Z; msg_next : list msg_seg
}.

Inductive mbox_state := CLOSED | OPENED | CLOSING.

#[export] Instance mbox_state_eq_dec : EqDecision mbox_state.
Proof. solve_decision. Defined.

Record msg_mbox := mk_mbox {
  inuse : Z;
  mb_state : mbox_state;
  max_slots : Z;
  slots : Z;
  msgs : list msg_msg
}.

(** [sizeof(struct msg_mbox)] is 44 and [sizeof(struct msg_msg)] 20. *)
Definition MAX_MBOX_NUM : Z := 8192.
Definition MBOX_P_PAGE : Z := 4096 / 44.
Definition MAX_MBOX_PAGES : Z := (MAX_MBOX_NUM + MBOX_P_PAGE - 1) / MBOX_P_PAGE.
Definition MAX_MSG_DATALEN : Z := 512 - 20.
Definition MAX_MSG_SLOTS : Z := 0x1000.
Definition MAX_MSG_BYTES : Z := 0x10000.

Record mstate := mk_mstate {
  mk : kstate;
  mboxes : gmap Z msg_mbox;
  mbox_map : gset Z;
  free_mbox_list : list Z;
  live : gset Z;
  umem : gmap Z Z;
  page_allocs : list bool
}.

Definition set_k (k : kstate) (s : mstate) : mstate :=
  mk_mstate k (mboxes s) (mbox_map s) (free_mbox_list s) (live s) (umem s) (page_allocs s).
Definition upd_mboxes (f : gmap Z msg_mbox -> gmap Z msg_mbox) (s : mstate) : mstate :=
  mk_mstate (mk s) (f (mboxes s)) (mbox_map s) (free_mbox_list s) (live s) (umem s) (page_allocs s).
Definition upd_map (f : gset Z -> gset Z) (s : mstate) : mstate :=
  mk_mstate (mk s) (mboxes s) (f (mbox_map s)) (free_mbox_list s) (live s) (umem s) (page_allocs s).
Definition upd_free (f : list Z -> list Z) (s : mstate) : mstate :=
  mk_mstate (mk s) (mboxes s) (mbox_map s) (f (free_mbox_list s)) (live s) (umem s) (page_allocs s).
Definition upd_live (f : gset Z -> gset Z) (s : mstate) : mstate :=
  mk_mstate (mk s) (mboxes s) (mbox_map s) (free_mbox_list s) (f (live s)) (umem s) (page_allocs s).
Definition upd_umem (f : gmap Z Z -> gmap Z Z) (s : mstate) : mstate :=
  mk_mstate (mk s) (mboxes s) (mbox_map s) (free_mbox_list s) (live s) (f (umem s)) (page_allocs s).

(** Routines of the rest of the kernel. *)
Definition kern {A} (m : M kstate A) : M mstate A := fun s =>
  match m (mk s) with Ret (a, k) => Ret (a, set_k k s) | Panic => Panic | OutOfFuel => OutOfFuel end.

Fixpoint kern_res {A} (r : res kstate A) (s : mstate) : res mstate A :=
  match r with
  | Ok a k => Ok a (set_k k s)
  | Stop => Stop
  | NoFuel => NoFuel
  | Sleep k f => Sleep (set_k k s) (fun s' => kern_res (f (mk s')) s')
  end.

Definition kernR {A} (m : R kstate A) : R mstate A := fun s => kern_res (m (mk s)) s.

Definition get_box (id : Z) : M mstate msg_mbox := s <- get ;; deref (mboxes s !! id).
Definition update_box (f : msg_mbox -> msg_mbox) (id : Z) : M mstate unit :=
  _ <- get_box id ;; modify (upd_mboxes (alter f id)).

Definition set_inuse (x : Z) (b : msg_mbox) : msg_mbox :=
  mk_mbox x (mb_state b) (max_slots b) (slots b) (msgs b).
Definition set_state (x : mbox_state) (b : msg_mbox) : msg_mbox :=
  mk_mbox (inuse b) x (max_slots b) (slots b) (msgs b).
Definition set_msgs (n : Z) (l : list msg_msg) (b : msg_mbox) : msg_mbox :=
  mk_mbox (inuse b) (mb_state b) (max_slots b) n l.

(** ** Memory *)

Definition kmalloc_block : M mstate (option Z) :=
  a <- kern kmalloc ;;
  match a with
  | Some a => modify (upd_live (fun l => {[a]} ∪ l)) ;; ret (Some a)
  | None => ret None
  end.

Definition kfree (a : Z) : M mstate unit := modify (upd_live (fun l => l ∖ {[a]})).

(** ** Mailboxes *)

Definition mbox_init (sem_mbox_map : Z) : M mstate unit :=
  modify (upd_map (fun _ => ∅)) ;;
  kern (sem_init sem_mbox_map 1) ;;
  modify (upd_free (fun _ => [])).

Definition get_mbox (id : Z) : M mstate (option Z) :=
  if (0 <=? id) && (id <? MAX_MBOX_NUM) then
    s <- get ;;
    if bool_decide (id / MBOX_P_PAGE ∈ mbox_map s) then
      b <- get_box id ;;
      ret (if bool_decide (mb_state b = OPENED) then Some id else None)
    else ret None
  else ret None.

Definition mbox_free (id : Z) : M mstate unit :=
  b <- get_box id ;;
  assert (bool_decide (mb_state b = CLOSING) && (inuse b =? 0)) ;;
  assert (bool_decide (msgs b = [])) ;;
  e1 <- kern (wait_queue_empty (mbox_senders id)) ;;
  assert e1 ;;
  e2 <- kern (wait_queue_empty (mbox_receivers id)) ;;
  assert e2 ;;
  update_box (fun b => mk_mbox (inuse b) CLOSED 0 0 (msgs b)) id ;;
  modify (upd_free (fun l => l ++ [id])).

Section Ops.
Variable sc : sched_class.

Definition add_msg (id : Z) (m : msg_msg) (append : bool) : M mstate unit :=
  b <- get_box id ;;
  assert (bool_decide (mb_state b = OPENED)) ;;
  update_box (fun b => set_msgs (u32 (slots b + 1)) (if append then msgs b ++ [m] else m :: msgs b) b) id ;;
  kern (wakeup_first sc (mbox_receivers id) WT_MBOX_RECV true).

(** The error code and, when it is 0, the message stored. *)
Definition pick_msg (id max_bytes : Z) : M mstate (Z * option msg_msg) :=
  b <- get_box id ;;
  assert (bool_decide (mb_state b = OPENED) && (0 <? slots b)) ;;
  match msgs b with
  | [] => panic
  | m :: l =>
      if max_bytes <? msg_bytes m then ret (- E_TOO_BIG, None)
      else
        update_box (fun b => set_msgs (u32 (slots b - 1)) l b) id ;;
        kern (wakeup_first sc (mbox_senders id) WT_MBOX_SEND true) ;;
        ret (0, Some m)
  end.

(** The mailboxes of page [i], from its [j]-th on. *)
Fixpoint init_page (n : nat) (id : Z) : M mstate unit :=
  match n with
  | O => ret tt
  | S n =>
      modify (upd_mboxes (<[id := mk_mbox 0 CLOSED 0 0 []]>)) ;;
      kern (wait_queue_init (mbox_senders id)) ;;
      kern (wait_queue_init (mbox_receivers id)) ;;
      modify (upd_free (fun l => l ++ [id])) ;;
      init_page n (id + 1)
  end.

(** [alloc_page]: the next answer of the page allocator. *)
Definition alloc_page : M mstate bool :=
  s <- get ;;
  put (mk_mstate (mk s) (mboxes s) (mbox_map s) (free_mbox_list s) (live s) (umem s)
         (tail (page_allocs s))) ;;
  ret (default false (List.head (page_allocs s))).

(** The first page not allocated, if there is one. *)
Fixpoint find_page (n : nat) (i : Z) (map : gset Z) : option Z :=
  match n with
  | O => None
  | S n => if bool_decide (i ∈ map) then find_page n (i + 1) map else Some i
  end.

(** The end of [new_mbox]: open the first mailbox of the free list. *)
Definition take_free (max : Z) : M mstate (option Z) :=
  s <- get ;;
  match free_mbox_list s with
  | [] => panic
  | id :: l =>
      modify (upd_free (fun _ => l)) ;;
      update_box (fun b => mk_mbox (inuse b) OPENED max (slots b) (msgs b)) id ;;
      ret (Some id)
  end.

Definition new_mbox (max : Z) : M mstate (option Z) :=
  s <- get ;;
  if bool_decide (free_mbox_list s = []) then
    match find_page (Z.to_nat MAX_MBOX_PAGES) 0 (mbox_map s) with
    | None => ret None
    | Some i =>
        page <- alloc_page ;;
        if page : bool then
          modify (upd_map (fun m => {[i]} ∪ m)) ;;
          init_page (Z.to_nat MBOX_P_PAGE) (i * MBOX_P_PAGE) ;;
          take_free max
        else
          s <- get ;;
          if bool_decide (free_mbox_list s = []) then ret None else take_free max
    end
  else take_free max.

Definition ipc_mbox_init (sem_mbox_map max w : Z) : R mstate Z :=
  if (max =? 0) || (MAX_MSG_SLOTS <? max) then rret (- E_INVAL)
  else
    kernR (down sem_mbox_map w) ;;~
    mbox <~ lift (new_mbox max) ;;
    lift (kern (up sc sem_mbox_map)) ;;~
    rret (match mbox with Some id => id | None => - E_NO_MEM end).

(** ** Messages *)

Fixpoint free_seg (l : list msg_seg) : M mstate unit :=
  match l with
  | [] => ret tt
  | x :: l => free_seg l ;; kfree (seg_addr x)
  end.

Definition free_msg (m : msg_msg) : M mstate unit :=
  free_seg (msg_next m) ;; kfree (msg_addr m).

(** The loop of [load_msg]: the segments for the [len] bytes at [src], and
    whether they could all be allocated. *)
Fixpoint load_segs (fuel : nat) (src len : Z) : M mstate (list msg_seg * bool) :=
  if 0 <? len then
    match fuel with
    | O => out_of_fuel
    | S fuel =>
        let alen := Z.min len MAX_MSG_DATALEN in
        seg <- kmalloc_block ;;
        match seg with
        | None => ret ([], false)
        | Some a =>
            s <- get ;;
            let data := read_bytes (umem s) src alen in
            r <- load_segs fuel (src + alen) (len - alen) ;;
            ret (mk_seg a data :: fst r, snd r)
        end
    end
  else ret ([], true).

Definition load_msg (src len : Z) : M mstate (option msg_msg) :=
  let alen := Z.min len MAX_MSG_DATALEN in
  msg <- kmalloc_block ;;
  match msg with
  | None => ret None
  | Some a =>
      s <- get ;;
      let data := read_bytes (umem s) src alen in
      r <- load_segs (Z.to_nat len) (src + alen) (len - alen) ;;
      s <- get ;;
      pr <- kern (get_proc (current (mk s))) ;;
      let m := mk_msg a (pid pr) len data (fst r) in
      if snd r then ret (Some m) else free_msg m ;; ret None
  end.

Definition memcpy (dst : Z) (data : list Z) : M mstate unit :=
  modify (upd_umem (fun u => write_bytes u dst data)).

Fixpoint store_segs (segs : list msg_seg) (dst len : Z) : M mstate unit :=
  if 0 <? len then
    let alen := Z.min len MAX_MSG_DATALEN in
    match segs with
    | [] => panic
    | x :: segs =>
        memcpy dst (take (Z.to_nat alen) (seg_data x)) ;;
        store_segs segs (dst + alen) (len - alen)
    end
  else ret tt.

Definition store_msg (m : msg_msg) (dst : Z) : M mstate unit :=
  let len := msg_bytes m in
  let alen := Z.min len MAX_MSG_DATALEN in
  memcpy dst (take (Z.to_nat alen) (msg_data m)) ;;
  store_segs (msg_next m) (dst + alen) (len - alen).

(** ** Sending and receiving *)

(** [out:] of [send_msg] and [recv_msg]; [failed] is [ret != 0]. *)
Definition leave (id : Z) (failed : bool) : M mstate unit :=
  update_box (fun b => set_inuse (s32 (inuse b - 1)) b) id ;;
  b <- get_box id ;;
  if bool_decide (mb_state b <> OPENED) then
    assert (failed && bool_decide (mb_state b = CLOSING)) ;;
    if inuse b =? 0 then mbox_free id else ret tt
  else ret tt.

(** The loop of [send_msg]; the fuel bounds the number of times it sleeps. *)
Fixpoint send_loop (fuel : nat) (id w : Z) (timer : option Z) : R mstate Z :=
  b <~ lift (get_box id) ;;
  if max_slots b <=? slots b then
    match fuel with
    | O => lift out_of_fuel
    | S fuel =>
        lift (assert (bool_decide (mb_state b = OPENED))) ;;~
        lift (kern (wait_current_set (mbox_senders id) w WT_MBOX_SEND)) ;;~
        lift (kern (ipc_add_timer timer)) ;;~
        sleep ;;~
        lift (kern (ipc_del_timer timer)) ;;~
        lift (kern (wait_current_del (mbox_senders id) w)) ;;~
        b <~ lift (get_box id) ;;
        wt <~ lift (kern (get_wait w)) ;;
        if bool_decide (mb_state b <> OPENED) || negb (wakeup_flags wt =? WT_MBOX_SEND) then
          rret (if wakeup_flags wt =? WT_MBOX_SEND then WT_INTERRUPTED else wakeup_flags wt)
        else send_loop fuel id w timer
    end
  else rret 0.

Definition send_msg (fuel : nat) (id : Z) (m : msg_msg) (w : Z) (timer : option Z) : R mstate Z :=
  lift (update_box (fun b => set_inuse (s32 (inuse b + 1)) b) id) ;;~
  r <~ send_loop fuel id w timer ;;
  (if r =? 0 then
     b <~ lift (get_box id) ;;
     lift (assert (bool_decide (mb_state b = OPENED) && (slots b <? max_slots b))) ;;~
     lift (add_msg id m true)
   else rret tt) ;;~
  lift (leave id (negb (r =? 0))) ;;~
  rret r.

(** The loop of [recv_msg]: [true] when there is a message to take. *)
Fixpoint recv_loop (fuel : nat) (id w : Z) (timer : option Z) : R mstate bool :=
  b <~ lift (get_box id) ;;
  if slots b =? 0 then
    match fuel with
    | O => lift out_of_fuel
    | S fuel =>
        lift (assert (bool_decide (mb_state b = OPENED))) ;;~
        lift (kern (wait_current_set (mbox_receivers id) w WT_MBOX_RECV)) ;;~
        lift (kern (ipc_add_timer timer)) ;;~
        sleep ;;~
        lift (kern (ipc_del_timer timer)) ;;~
        lift (kern (wait_current_del (mbox_receivers id) w)) ;;~
        b <~ lift (get_box id) ;;
        wt <~ lift (kern (get_wait w)) ;;
        if bool_decide (mb_state b <> OPENED) || negb (wakeup_flags wt =? WT_MBOX_RECV)
        then rret false
        else recv_loop fuel id w timer
    end
  else rret true.

Definition recv_msg (fuel : nat) (id max_bytes w : Z) (timer : option Z) : R mstate (Z * option msg_msg) :=
  lift (update_box (fun b => set_inuse (s32 (inuse b + 1)) b) id) ;;~
  go <~ recv_loop fuel id w timer ;;
  r <~ (if go : bool then
          b <~ lift (get_box id) ;;
          lift (assert (bool_decide (mb_state b = OPENED) && (0 <? slots b))) ;;~
          lift (assert (bool_decide (msgs b <> []))) ;;~
          r <~ lift (pick_msg id max_bytes) ;;
          lift (if negb (fst r =? 0) then kern (wakeup_first sc (mbox_receivers id) WT_MBOX_RECV true)
                else ret tt) ;;~
          rret r
        else rret (-1, None)) ;;
  lift (leave id (negb (fst r =? 0))) ;;~
  rret r.

(** ** Closing *)

Fixpoint drop_msgs (id : Z) (l : list msg_msg) : M mstate unit :=
  match l with
  | [] => ret tt
  | m :: l =>
      update_box (fun b => set_msgs (slots b) l b) id ;; free_msg m ;; drop_msgs id l
  end.

Definition ipc_mbox_free (id : Z) : M mstate Z :=
  mbox <- get_mbox id ;;
  match mbox with
  | None => ret (- E_INVAL)
  | Some id =>
      update_box (set_state CLOSING) id ;;
      b <- get_box id ;;
      drop_msgs id (msgs b) ;;
      kern (wakeup_queue sc (mbox_senders id) WT_INTERRUPTED true) ;;
      kern (wakeup_queue sc (mbox_receivers id) WT_INTERRUPTED true) ;;
      b <- get_box id ;;
      (if inuse b =? 0 then mbox_free id else ret tt) ;;
      ret 0
  end.

(** [mbox_cleanup] on page [i]: give the page back when all its mailboxes are closed. *)
Definition page_ids (i : Z) : list Z := seqZ (i * MBOX_P_PAGE) MBOX_P_PAGE.

Definition cleanup_page (i : Z) : M mstate unit :=
  s <- get ;;
  if bool_decide (i ∈ mbox_map s) then
    if forallb (fun id => match mboxes s !! id with
                          | Some b => bool_decide (mb_state b = CLOSED) | None => false end) (page_ids i)
    then
      modify (upd_free (fun l => base.filter (fun id => id ∉ page_ids i) l)) ;;
      modify (upd_map (fun m => m ∖ {[i]})) ;;
      modify (upd_mboxes (base.filter (fun x => x.1 ∉ page_ids i)))
    else ret tt
  else ret tt.

Fixpoint cleanup_pages (n : nat) (i : Z) : M mstate unit :=
  match n with O => ret tt | S n => cleanup_page i ;; cleanup_pages n (i + 1) end.

Definition mbox_cleanup : M mstate unit := cleanup_pages (Z.to_nat MAX_MBOX_PAGES) 0.

(** ** System calls *)

Record mboxbuf := mk_mboxbuf { from : Z; len : Z; size : Z; data : Z }.
Record mboxinfo := mk_mboxinfo { i_slots : Z; i_max : Z; i_inuse : bool; i_sender : bool; i_receiver : bool }.

Section Calls.
Variable copy_buf_from_user : Z -> bool -> M mstate (option mboxbuf).
Variable copy_buf_to_user : Z -> mboxbuf -> M mstate bool.
Variable copy_info_to_user : Z -> mboxinfo -> M mstate bool.
Variable user_mem_check : Z -> Z -> bool -> M mstate bool.
Variables lock_mm unlock_mm : R mstate unit.
Variable fuel : nat.

Definition load_user_msg (buf : Z) : M mstate (Z * option msg_msg) :=
  lb <- copy_buf_from_user buf false ;;
  match lb with
  | None => ret (- E_INVAL, None)
  | Some lb =>
      if (0 <? len lb) && (len lb <=? MAX_MSG_BYTES) then
        ok <- user_mem_check (data lb) (len lb) false ;;
        if ok : bool then
          m <- load_msg (data lb) (len lb) ;;
          ret (match m with Some m => (0, Some m) | None => (- E_NO_MEM, None) end)
        else ret (- E_INVAL, None)
      else ret (- E_INVAL, None)
  end.

(** [w] and [t] are the addresses of the local wait and timer. *)
Definition ipc_mbox_send (id buf timeout w t : Z) : R mstate Z :=
  mbox <~ lift (get_mbox id) ;;
  match mbox with
  | None => rret (- E_INVAL)
  | Some _ =>
      lock_mm ;;~
      r <~ lift (load_user_msg buf) ;;
      unlock_mm ;;~
      match r with
      | (_, Some m) =>
          mbox <~ lift (get_mbox id) ;;
          match mbox with
          | None => lift (free_msg m) ;;~ rret (- E_INVAL)
          | Some id =>
              tm <~ lift (kern (ipc_timer_init timeout t)) ;;
              flags <~ send_msg fuel id m w (fst tm) ;;
              if flags =? 0 then rret 0
              else
                lift (assert (flags =? WT_INTERRUPTED)) ;;~
                r <~ lift (kern (ipc_check_timeout timeout (snd tm))) ;;
                lift (free_msg m) ;;~
                rret r
          end
      | (e, None) => rret e
      end
  end.

(** The checks of the receive buffer. *)
Definition load_user_buf (buf : Z) : M mstate (option mboxbuf) :=
  lb <- copy_buf_from_user buf true ;;
  match lb with
  | None => ret None
  | Some lb =>
      if 0 <? size lb then
        ok <- user_mem_check (data lb) (size lb) true ;;
        ret (if ok : bool then Some lb else None)
      else ret None
  end.

Definition store_user_msg (buf : Z) (lb : mboxbuf) (m : msg_msg) : M mstate Z :=
  let lb := mk_mboxbuf (msg_pid m) (msg_bytes m) (size lb) (data lb) in
  c <- copy_buf_to_user buf lb ;;
  if c : bool then
    ok <- user_mem_check (data lb) (msg_bytes m) true ;;
    if ok : bool then store_msg m (data lb) ;; ret 0 else ret (- E_INVAL)
  else ret (- E_INVAL).

Definition ipc_mbox_recv (id buf timeout w t : Z) : R mstate Z :=
  mbox <~ lift (get_mbox id) ;;
  match mbox with
  | None => rret (- E_INVAL)
  | Some _ =>
      lock_mm ;;~
      lb <~ lift (load_user_buf buf) ;;
      unlock_mm ;;~
      match lb with
      | None => rret (- E_INVAL)
      | Some lb =>
          mbox <~ lift (get_mbox id) ;;
          match mbox with
          | None => rret (- E_INVAL)
          | Some id =>
              tm <~ lift (kern (ipc_timer_init timeout t)) ;;
              r <~ recv_msg fuel id (size lb) w (fst tm) ;;
              match r with
              | (_, Some m) =>
                  lock_mm ;;~
                  e <~ lift (store_user_msg buf lb m) ;;
                  unlock_mm ;;~
                  mbox <~ lift (if negb (e =? 0) then get_mbox id else ret None) ;;
                  match mbox with
                  | Some id => lift (add_msg id m false) ;;~ rret e
                  | None => lift (free_msg m) ;;~ rret e
                  end
              | (e, None) =>
                  if e =? -1 then lift (kern (ipc_check_timeout timeout (snd tm))) else rret e
              end
          end
      end
  end.

Definition ipc_mbox_info (id info : Z) : R mstate Z :=
  mbox <~ lift (get_mbox id) ;;
  match mbox with
  | None => rret (- E_INVAL)
  | Some id =>
      b <~ lift (get_box id) ;;
      e1 <~ lift (kern (wait_queue_empty (mbox_senders id))) ;;
      e2 <~ lift (kern (wait_queue_empty (mbox_receivers id))) ;;
      lock_mm ;;~
      c <~ lift (copy_info_to_user info
                   (mk_mboxinfo (slots b) (max_slots b) (negb (inuse b =? 0)) (negb e1) (negb e2))) ;;
      unlock_mm ;;~
      rret (if c : bool then 0 else - E_INVAL)
  end.

End Calls.

End Ops.

End Mbox.

(** * Mailboxes: messages survive their segmentation, boxes are bounded FIFOs *)

Import Kern Sched SchedInv SchedPolicies Wait WaitInv Sem Mbox.

Module MboxInv.

(** ** Segments *)

(** [segs] holds [bytes], each segment but the last full. *)
Inductive chunked : list msg_seg -> list Z -> Prop :=
| chunked_nil : chunked [] []
| chunked_cons a d segs rest :
    d <> [] -> Z.of_nat (length d) = Z.min (Z.of_nat (length (d ++ rest))) MAX_MSG_DATALEN ->
    chunked segs rest -> chunked (mk_seg a d :: segs) (d ++ rest).

Lemma store_segs_ok segs bytes dst s :
  chunked segs bytes ->
  store_segs segs dst (Z.of_nat (length bytes)) s
    = Ret (tt, upd_umem (fun u => write_bytes u dst bytes) s).
Proof.
  intros H. revert dst s. induction H as [|a d segs rest Hne Hlen Hc IH]; intros dst s.
  - cbn. by destruct s.
  - cbn [store_segs]. rewrite <- Hlen.
    rewrite (proj2 (Z.ltb_lt _ _)) by (rewrite length_app; destruct d; [done|cbn; lia]).
    unfold memcpy. rewrite bind_modify. cbn [seg_data]. rewrite Nat2Z.id, take_ge by lia.
    replace (Z.of_nat (length (d ++ rest)) - Z.of_nat (length d)) with (Z.of_nat (length rest))
      by (rewrite length_app; lia).
    rewrite IH. do 2 f_equal. unfold upd_umem. cbn. by rewrite write_bytes_app.
Qed.

(** What allocation changes: the allocator's answers and the live blocks. *)
Record alloced (l : list Z) (s s' : mstate) : Prop := {
  al_boxes : mboxes s' = mboxes s;
  al_map : mbox_map s' = mbox_map s;
  al_free : free_mbox_list s' = free_mbox_list s;
  al_umem : umem s' = umem s;
  al_procs : procs (mk s') = procs (mk s) /\ current (mk s') = current (mk s);
  al_live : live s' = list_to_set l ∪ live s;
  al_heap : exists k, kmallocs (ipc (mk s)) = k ++ kmallocs (ipc (mk s')) /\ l = omap id k
}.

Lemma alloced_nil s : alloced [] s s.
Proof. constructor; try done; [set_solver|]. by exists []. Qed.

Lemma alloced_trans l1 l2 s1 s2 s3 : alloced l1 s1 s2 -> alloced l2 s2 s3 -> alloced (l1 ++ l2) s1 s3.
Proof.
  intros [? ? ? ? [? ?] L1 (k1 & E1 & ->)] [? ? ? ? [? ?] L2 (k2 & E2 & ->)].
  constructor; try congruence; [split; congruence| |].
  - rewrite L2, L1, list_to_set_app_L. set_solver.
  - exists (k1 ++ k2). split; [by rewrite E1, E2, app_assoc|by rewrite omap_app].
Qed.

Lemma kmalloc_block_ok s :
  exists o s', kmalloc_block s = Ret (o, s') /\
    alloced (match o with Some a => [a] | None => [] end) s s'.
Proof.
  unfold kmalloc_block, kern, kmalloc. cbn. unfold bind. cbn.
  destruct (kmallocs (ipc (mk s))) as [|[a|] k] eqn:E; cbn.
  - eexists None, _. split; [reflexivity|]. constructor; cbn; try done; [set_solver|].
    exists []. by rewrite E.
  - eexists (Some a), _. split; [reflexivity|]. constructor; cbn; try done; [set_solver|].
    exists [Some a]. by rewrite E.
  - eexists None, _. split; [reflexivity|]. constructor; cbn; try done; [set_solver|].
    exists [None]. by rewrite E.
Qed.

Lemma load_segs_ok : forall fuel src len s,
  0 <= len <= Z.of_nat fuel ->
  exists segs ok s', load_segs fuel src len s = Ret ((segs, ok), s') /\
    alloced (seg_addr <$> segs) s s' /\
    (ok = true -> chunked segs (read_bytes (umem s) src len)).
Proof.
  induction fuel as [|fuel IH]; intros src len s Hlen; cbn [load_segs].
  - rewrite (proj2 (Z.ltb_ge _ _)) by lia. exists [], true, s. split_and!; [done|apply alloced_nil|].
    intros _. replace len with 0 by lia. constructor.
  - destruct (Z.ltb_spec 0 len) as [Hpos|Hz].
    2:{ exists [], true, s. split_and!; [done|apply alloced_nil|].
        intros _. replace len with 0 by lia. constructor. }
    destruct (kmalloc_block_ok s) as (o & s1 & Hrun & A1). rewrite (bind_step _ _ _ _ _ Hrun).
    destruct o as [a|]; [|by exists [], false, s1].
    rewrite bind_get. set (alen := Z.min len MAX_MSG_DATALEN).
    assert (0 < alen <= len) as Ha by (unfold alen, MAX_MSG_DATALEN; lia).
    destruct (IH (src + alen) (len - alen) s1) as (segs & ok & s2 & Hrun2 & A2 & Hc); [lia|].
    rewrite (bind_step _ _ _ _ _ Hrun2). cbn [fst snd].
    exists (mk_seg a (read_bytes (umem s1) src alen) :: segs), ok, s2. split; [done|]. split.
    + rewrite fmap_cons. exact (alloced_trans _ _ _ _ _ A1 A2).
    + intros Hok. rewrite (al_umem _ _ _ A1). replace len with (alen + (len - alen)) at 1 by lia.
      rewrite read_bytes_app by lia. constructor.
      * intros E. apply (f_equal (fun l => Z.of_nat (length l))) in E.
        rewrite length_read_bytes in E by lia. cbn in E. lia.
      * rewrite length_app, Nat2Z.inj_add, !length_read_bytes by lia. unfold alen. lia.
      * rewrite <- (al_umem _ _ _ A1). by apply Hc.
Qed.

(** ** No leak *)

Definition heap_fresh (s : mstate) : Prop :=
  NoDup (omap id (kmallocs (ipc (mk s)))) /\ forall a, a ∈ omap id (kmallocs (ipc (mk s))) -> a ∉ live s.

Lemma free_seg_ok segs s :
  free_seg segs s = Ret (tt, upd_live (fun l => l ∖ list_to_set (seg_addr <$> segs)) s).
Proof.
  induction segs as [|x segs IH]; cbn [free_seg].
  - unfold ret, upd_live. destruct s. cbn. do 3 f_equal. set_solver.
  - rewrite (bind_step _ _ _ _ _ IH). unfold kfree, modify, upd_live. cbn. do 3 f_equal. set_solver.
Qed.

Lemma free_msg_ok m s :
  free_msg m s = Ret (tt, upd_live (fun l => l ∖ list_to_set (msg_addr m :: (seg_addr <$> msg_next m))) s).
Proof.
  unfold free_msg. rewrite (bind_step _ _ _ _ _ (free_seg_ok _ s)).
  unfold kfree, modify, upd_live. cbn. do 3 f_equal. set_solver.
Qed.

Lemma alloced_fresh l s s' : heap_fresh s -> alloced l s s' -> forall a, a ∈ l -> a ∉ live s.
Proof.
  intros [_ Hf] A a Ha. destruct (al_heap _ _ _ A) as (k & E & ->). apply Hf. rewrite E, omap_app.
  set_solver.
Qed.

(** A message loaded from user memory and stored again, in whatever state
    the kernel is by then, puts the same bytes at the destination, whatever its
    length and the number of segments it was split over; when the memory for it
    cannot be allocated [load_msg] returns [NULL] and has given back everything it
    had allocated. *)
Theorem mbox_message_roundtrip s src n pr :
  0 <= n -> procs (mk s) !! current (mk s) = Some pr -> heap_fresh s ->
  exists o s', load_msg src n s = Ret (o, s') /\ umem s' = umem s /\ mboxes s' = mboxes s /\
    match o with
    | Some m => msg_pid m = pid pr /\ msg_bytes m = n /\
        forall t dst, store_msg m dst t =
          Ret (tt, upd_umem (fun u => write_bytes u dst (read_bytes (umem s) src n)) t)
    | None => live s' = live s
    end.
Proof.
  intros Hn Hp Hf. unfold load_msg.
  destruct (kmalloc_block_ok s) as (o & s1 & Hrun & A1). rewrite (bind_step _ _ _ _ _ Hrun).
  destruct o as [a|].
  2:{ exists None, s1. split_and!; [done|apply A1|apply A1|]. rewrite (al_live _ _ _ A1). set_solver. }
  rewrite bind_get. set (alen := Z.min n MAX_MSG_DATALEN).
  assert (0 <= alen <= n) as Ha by (unfold alen, MAX_MSG_DATALEN; lia).
  destruct (load_segs_ok (Z.to_nat n) (src + alen) (n - alen) s1) as (segs & ok & s2 & Hrun2 & A2 & Hc); [lia|].
  rewrite (bind_step _ _ _ _ _ Hrun2), bind_get.
  pose proof (alloced_trans _ _ _ _ _ A1 A2) as A.
  rewrite (bind_step _ _ s2 pr s2).
  2:{ unfold kern. destruct (al_procs _ _ _ A) as [Ep Ec].
      rewrite (get_proc_ok (mk s2) (current (mk s2)) pr) by (by rewrite Ep, Ec). by destruct s2. }
  cbn [fst snd]. set (m := mk_msg a (pid pr) n _ segs). destruct ok.
  - exists (Some m), s2. split_and!; try done; [apply A|apply A|]. intros t dst. unfold store_msg, memcpy.
    rewrite bind_modify. cbn [msg_bytes msg_data msg_next m]. fold alen.
    assert (Z.of_nat (length (read_bytes (umem s1) src alen)) = alen) as El by (apply length_read_bytes; lia).
    rewrite take_ge by lia.
    replace (n - alen) with (Z.of_nat (length (read_bytes (umem s1) (src + alen) (n - alen)))) by (rewrite length_read_bytes; lia).
    rewrite (store_segs_ok segs) by (by apply Hc). do 2 f_equal. unfold upd_umem. cbn.
    f_equal. rewrite <- (al_umem _ _ _ A1). replace n with (alen + (n - alen)) at 2 by lia.
    by rewrite read_bytes_app, write_bytes_app, El by lia.
  - rewrite (bind_step _ _ _ _ _ (free_msg_ok m s2)). eexists None, _. split; [done|].
    split_and!; [apply A|apply A|]. cbn. rewrite (al_live _ _ _ A).
    pose proof (alloced_fresh _ _ _ Hf A) as Hfr. cbn in Hfr |- *. set_solver.
Qed.

(** ** Boxes as bounded queues *)

Section Policy.
Context {sc : sched_class} {I : kstate -> Prop} {Hsp : SchedPolicy sc I}.

(** The kernel state a mailbox operation runs in: scheduler and waits well
    formed, and the waiters on the box alive. *)
Record ready (q : wq) (k : kstate) : Prop := {
  rd_sched : sched_inv I k;
  rd_waits : waits_ok k;
  rd_queue : is_Some (wqueues k !! q);
  rd_alive : forall l u p, wqueues k !! q = Some l -> u ∈ l -> owner k u p -> alive k p
}.

Lemma wakeup_first_ok q flags k :
  ready q k -> exists k', wakeup_first sc q flags true k = Ret (tt, k') /\ sched_inv I k' /\ waits_ok k'.
Proof using Hsp.
  intros [Hi Ho [l Hq] Ha]. unfold wakeup_first.
  rewrite (bind_step _ _ k (List.head l) k)
    by (unfold wait_queue_first; mstep get_wqueue_ok; [|exact Hq]; done).
  destruct l as [|w l]; [by exists k|]. cbn [List.head].
  destruct (wo_member _ Ho q _ w Hq) as (x & p & Hx & Hxq & Hxp & Hk); [left|].
  destruct (Ha _ w p Hq) as (pr & Hp & Hz); [left|unfold owner; by rewrite Hx|].
  destruct (wakeup_wait_ok k q (w :: l) w x p pr flags true) as (k' & Hrun & Hi' & W); try done; [left|].
  exists k'. split_and!; try done.
  apply (woken_waits_ok p (signalled w flags true k)); [by apply signalled_ok|by exists pr|done].
Qed.

Lemma kern_ok {A} (m : M kstate A) s a k : m (mk s) = Ret (a, k) -> kern m s = Ret (a, set_k k s).
Proof using Type. unfold kern. by intros ->. Qed.

Lemma get_box_ok s id b : mboxes s !! id = Some b -> get_box id s = Ret (b, s).
Proof using Type. intros H. unfold get_box. rewrite bind_get. by rewrite H. Qed.

Lemma update_box_ok s id b f :
  mboxes s !! id = Some b -> update_box f id s = Ret (tt, upd_mboxes (<[id := f b]>) s).
Proof using Type.
  intros H. unfold update_box. mstep get_box_ok; [|exact H]. unfold modify, upd_mboxes. cbn.
  do 3 f_equal. apply map_eq. intros j. rewrite lookup_alter, lookup_insert.
  case_decide; [subst|done]. by rewrite H.
Qed.

(** The end of an operation on an open box. *)
Lemma leave_ok s id b failed :
  mboxes s !! id = Some b -> mb_state b = OPENED -> 0 < inuse b < 2 ^ 31 ->
  leave id failed s = Ret (tt, upd_mboxes (<[id := set_inuse (inuse b - 1) b]>) s).
Proof using Type.
  intros Hb Ho Hi. unfold leave. mstep update_box_ok; [|exact Hb].
  rewrite s32_small by (unfold is_s32; lia).
  mstep get_box_ok; [|cbn; apply lookup_insert_eq]. cbn [mb_state set_inuse].
  by rewrite bool_decide_eq_false_2 by (by intros ?).
Qed.

(** The state of a box [b] with messages [l]. *)
Definition box_with (l : list msg_msg) (b : msg_mbox) : msg_mbox :=
  mk_mbox (inuse b) (mb_state b) (max_slots b) (Z.of_nat (length l)) l.

Record box_open (b : msg_mbox) : Prop := {
  bo_state : mb_state b = OPENED;
  bo_slots : slots b = Z.of_nat (length (msgs b));
  bo_max : max_slots b <= MAX_MSG_SLOTS;
  bo_inuse : 0 <= inuse b < 2 ^ 31 - 1
}.

Lemma send_ok s id b m w timer fuel :
  mboxes s !! id = Some b -> box_open b -> slots b < max_slots b -> ready (mbox_receivers id) (mk s) ->
  exists k', send_msg sc fuel id m w timer s
      = Ok 0 (set_k k' (upd_mboxes (<[id := box_with (msgs b ++ [m]) b]>) s)) /\
    sched_inv I k' /\ waits_ok k'.
Proof using Hsp.
  intros Hb [Ho Hs Hm Hi] Hlt Hr. unfold send_msg. rstep update_box_ok; [|exact Hb].
  rewrite s32_small by (unfold is_s32; lia). set (b1 := set_inuse (inuse b + 1) b).
  set (s1 := upd_mboxes _ s).
  assert (mboxes s1 !! id = Some b1) as Hb1 by apply lookup_insert_eq.
  assert (send_loop fuel id w timer s1 = Ok 0 s1) as Hloop.
  { destruct fuel; cbn [send_loop]; (rstep get_box_ok; [|exact Hb1]);
      cbn [max_slots slots b1 set_inuse]; by rewrite (proj2 (Z.leb_gt _ _)) by lia. }
  unfold rbind at 1. rewrite Hloop. cbn [rthen]. rewrite Z.eqb_refl.
  destruct (wakeup_first_ok (mbox_receivers id) WT_MBOX_RECV (mk s) Hr) as (k' & Hw & Hi' & Hwo).
  set (b2 := set_msgs (u32 (slots b + 1)) (msgs b ++ [m]) b1).
  assert ((b0 <~ lift (get_box id) ;;
     lift (assert (bool_decide (mb_state b0 = OPENED) && (slots b0 <? max_slots b0))) ;;~
     lift (add_msg sc id m true)) s1 = Ok tt (set_k k' (upd_mboxes (<[id := b2]>) s1))) as Hadd.
  { rstep get_box_ok; [|exact Hb1]. cbn [mb_state max_slots slots b1 set_inuse].
    rewrite (rbind_lift _ _ s1 tt s1)
      by (rewrite bool_decide_eq_true_2, (proj2 (Z.ltb_lt _ _)) by done; done).
    apply lift_Ret. unfold add_msg. mstep get_box_ok; [|exact Hb1].
    rewrite assert_true by (by apply bool_decide_eq_true_2).
    mstep update_box_ok; [|exact Hb1]. by apply kern_ok. }
  unfold rbind at 1. rewrite Hadd. cbn [rthen negb].
  rstep leave_ok; [|cbn; apply lookup_insert_eq|done|cbn; lia].
  exists k'. split; [|done]. unfold rret. f_equal. unfold s1, upd_mboxes, set_k. cbn.
  rewrite !insert_insert_eq. do 2 f_equal. unfold box_with, b2, set_inuse, set_msgs. cbn.
  rewrite length_app, Hs, u32_small by (unfold is_u32, MAX_MSG_SLOTS in *; lia). cbn. f_equal; lia.
Qed.

Lemma recv_loop_ok s id b w timer fuel :
  mboxes s !! id = Some b -> slots b <> 0 -> recv_loop fuel id w timer s = Ok true s.
Proof using Type.
  intros Hb Hs. destruct fuel; cbn [recv_loop]; (rstep get_box_ok; [|exact Hb]);
    by rewrite (proj2 (Z.eqb_neq _ _)).
Qed.

Lemma recv_ok s id b m l w timer fuel max :
  mboxes s !! id = Some b -> box_open b -> msgs b = m :: l -> msg_bytes m <= max ->
  slots b <= MAX_MSG_SLOTS -> ready (mbox_senders id) (mk s) ->
  exists k', recv_msg sc fuel id max w timer s
      = Ok (0, Some m) (set_k k' (upd_mboxes (<[id := box_with l b]>) s)) /\
    sched_inv I k' /\ waits_ok k'.
Proof using Hsp.
  intros Hb [Ho Hs Hm Hi] Hl Hfit Hmax Hr. rewrite Hl in Hs. cbn [length] in Hs.
  unfold recv_msg. rstep update_box_ok; [|exact Hb].
  rewrite s32_small by (unfold is_s32; lia). set (b1 := set_inuse (inuse b + 1) b).
  set (s1 := upd_mboxes _ s).
  assert (mboxes s1 !! id = Some b1) as Hb1 by apply lookup_insert_eq.
  unfold rbind at 1. rewrite (recv_loop_ok s1 id b1) by (done || cbn; lia). cbn [rthen].
  destruct (wakeup_first_ok (mbox_senders id) WT_MBOX_SEND (mk s) Hr) as (k' & Hw & Hi' & Hwo).
  set (b2 := set_msgs (u32 (slots b - 1)) l b1).
  assert (pick_msg sc id max s1 = Ret ((0, Some m), set_k k' (upd_mboxes (<[id := b2]>) s1))) as Hpick.
  { unfold pick_msg. mstep get_box_ok; [|exact Hb1].
    rewrite assert_true by (rewrite bool_decide_eq_true_2, (proj2 (Z.ltb_lt _ _)) by (done || cbn; lia); done).
    cbn [msgs b1 set_inuse]. rewrite Hl, (proj2 (Z.ltb_ge _ _)) by lia.
    mstep update_box_ok; [|exact Hb1]. mstep (kern_ok (wakeup_first sc (mbox_senders id) WT_MBOX_SEND true)); [|exact Hw].
    done. }
  unfold rbind at 1. rewrite (rbind_lift _ _ s1 b1 s1) by (by apply get_box_ok).
  rewrite (rbind_lift _ _ s1 tt s1)
    by (rewrite bool_decide_eq_true_2, (proj2 (Z.ltb_lt _ _)) by (done || cbn; lia); done).
  rewrite (rbind_lift _ _ s1 tt s1) by (rewrite bool_decide_eq_true_2; [done|cbn; by rewrite Hl]).
  rstep Hpick. cbn [fst snd negb Z.eqb]. rewrite (rbind_lift _ _ _ tt _) by done. cbn [rthen rret fst].
  rstep leave_ok; [|cbn; apply lookup_insert_eq|done|cbn; lia].
  exists k'. split; [|done]. unfold rret. f_equal. unfold s1, upd_mboxes, set_k. cbn.
  rewrite !insert_insert_eq. do 2 f_equal. unfold box_with, b2, set_inuse, set_msgs. cbn.
  rewrite Hs, u32_small by (unfold is_u32, MAX_MSG_SLOTS in *; lia). f_equal; lia.
Qed.

(** An open mailbox is a bounded FIFO.  Sending to a box with room returns 0
    without sleeping and appends the message; receiving from a box with messages
    returns the oldest one, if it fits the receiver's buffer, and removes it; each
    wakes a process that waits for it, and the box's slot count stays the number
    of its messages. *)
Theorem mbox_fifo s id b w timer fuel :
  mboxes s !! id = Some b -> box_open b -> slots b <= MAX_MSG_SLOTS ->
  ready (mbox_receivers id) (mk s) -> ready (mbox_senders id) (mk s) ->
  (forall m, slots b < max_slots b ->
     exists k', send_msg sc fuel id m w timer s
        = Ok 0 (set_k k' (upd_mboxes (<[id := box_with (msgs b ++ [m]) b]>) s)) /\
       sched_inv I k' /\ waits_ok k') /\
  (forall m l max, msgs b = m :: l -> msg_bytes m <= max ->
     exists k', recv_msg sc fuel id max w timer s
        = Ok (0, Some m) (set_k k' (upd_mboxes (<[id := box_with l b]>) s)) /\
       sched_inv I k' /\ waits_ok k').
Proof using Hsp.
  intros Hb Ho Hs Hr Hsd. split; intros; [by apply send_ok|by apply recv_ok].
Qed.

End Policy.

(** ** Mailbox ids *)

(** The pages of mailboxes hold more of them than [MAX_MBOX_NUM]: when the
    free list starts with such a mailbox, [new_mbox] opens it and returns its id,
    but [get_mbox] answers [NULL] for that id, so it can neither be used nor
    closed again. *)
Theorem mbox_id_out_of_range s max id l b :
  free_mbox_list s = id :: l -> mboxes s !! id = Some b -> MAX_MBOX_NUM <= id ->
  exists s', new_mbox max s = Ret (Some id, s') /\
    (exists b', mboxes s' !! id = Some b' /\ mb_state b' = OPENED) /\
    forall t, get_mbox id t = Ret (None, t).
Proof.
  intros Hf Hb Hid. unfold new_mbox, take_free. rewrite bind_get, Hf. cbn [bool_decide].
  rewrite bool_decide_eq_false_2 by done. rewrite bind_get, Hf, bind_modify.
  mstep (update_box_ok (upd_free (fun _ => l) s) id b); [|exact Hb].
  eexists. split; [reflexivity|]. split; [eexists; split; [cbn; apply lookup_insert_eq|done]|].
  intros t. unfold get_mbox. rewrite (proj2 (Z.ltb_ge _ _)), andb_false_r by lia. done.
Qed.

(** Such mailboxes exist: the last page holds ids from 8184 to 8276. *)
Lemma last_page_ids : (MAX_MBOX_PAGES - 1) * MBOX_P_PAGE + MBOX_P_PAGE - 1 = 8276.
Proof. reflexivity. Qed.

(** ** On a concrete state *)

Definition ex_msg : msg_msg := mk_msg 900 2 3 [7; 8; 9] [].
Definition ex_box : msg_mbox := mk_mbox 0 OPENED 4 1 [ex_msg].

Definition ex_mbox : mstate := mk_mstate
  (upd_wqueues (fun _ => list_to_map [(mbox_senders 5, []); (mbox_receivers 5, [])]) ex_state)
  (list_to_map [(5, ex_box); (8200, mk_mbox 0 CLOSED 0 0 [])]) {[0; 88]} [8200] {[900]}
  (list_to_map [(1000, 1); (1001, 2)]) [].

Lemma ex_ready q : q = mbox_senders 5 \/ q = mbox_receivers 5 ->
  ready (I := queues_ok kernel_ring) q (mk ex_mbox).
Proof.
  intros Hq. assert (forall q' l, wqueues (mk ex_mbox) !! q' = Some l -> l = []) as Hl.
  { intros q' l Hl. by enum_map Hl. }
  constructor.
  - destruct ex_sched_inv as [H ? ? ? ?]. constructor; try done. by apply (queues_ok_stable _ ex_state).
  - constructor; intros q' l; [intros ->%Hl; apply NoDup_nil_2|intros w ->%Hl Hw; by apply not_elem_of_nil in Hw].
  - destruct Hq as [-> | ->]; by eexists.
  - intros l u p ->%Hl Hu. by apply not_elem_of_nil in Hu.
Qed.

Lemma mbox_fifo_witness :
  exists k', send_msg MLFQ_sched_class 0 5 (mk_msg 901 1 1 [4] []) 50 None ex_mbox
    = Ok 0 (set_k k' (upd_mboxes (<[5 := box_with [ex_msg; mk_msg 901 1 1 [4] []] ex_box]>) ex_mbox)).
Proof.
  destruct (mbox_fifo (sc := MLFQ_sched_class) (I := queues_ok kernel_ring) ex_mbox 5 ex_box 50 None 0)
    as [Hsend _].
  - reflexivity.
  - constructor; [done|done|unfold MAX_MSG_SLOTS; cbn; lia|cbn; lia].
  - unfold MAX_MSG_SLOTS. cbn. lia.
  - apply ex_ready. by right.
  - apply ex_ready. by left.
  - destruct (Hsend (mk_msg 901 1 1 [4] [])) as (k' & Hrun & _); [cbn; lia|]. by exists k'.
Defined.

Definition ex_heap : mstate :=
  set_k (upd_ipc (fun x => mk_ipc (sems x) (semus x) (semqs x) [Some 901]) (mk ex_mbox)) ex_mbox.

Lemma mbox_message_roundtrip_witness :
  exists m s', load_msg 1000 2 ex_heap = Ret (Some m, s') /\
    forall t dst, store_msg m dst t = Ret (tt, upd_umem (fun u => write_bytes u dst [1; 2]) t).
Proof.
  destruct (mbox_message_roundtrip ex_heap 1000 2
    (mk_proc PROC_RUNNABLE 1 4 false 0 (Some 0) 0 0 None)) as (o & s' & Hrun & _ & _ & Ho).
  - lia.
  - reflexivity.
  - split; [apply NoDup_singleton|]. intros a Ha%list_elem_of_singleton. subst a.
    apply (bool_decide_unpack _). reflexivity.
  - destruct o as [m|]; [|vm_compute in Hrun; discriminate Hrun].
    exists m, s'. split; [exact Hrun|]. exact (proj2 (proj2 Ho)).
Defined.

Lemma mbox_id_out_of_range_witness :
  exists s', new_mbox 3 ex_mbox = Ret (Some 8200, s') /\ get_mbox 8200 s' = Ret (None, s').
Proof.
  destruct (mbox_id_out_of_range ex_mbox 3 8200 [] (mk_mbox 0 CLOSED 0 0 [])) as (s' & Hrun & _ & Hg).
  - reflexivity.
  - reflexivity.
  - unfold MAX_MBOX_NUM. lia.
  - exists s'. split; [exact Hrun|apply Hg].
Defined.

End MboxInv.
