(* ===== verification/Pipe.v ===== *)
(** * Pipes: the shared ring buffer (src/code/kern/fs/pipe/pipe_state.c) and the
    transfer descriptors of the file system (src/code/kern/fs/iobuf.c)

    A pipe's state is named by its address, which is also that of its lock; the
    bytes moved to and from the caller's buffer are passed and returned as lists.
    The kernel is not preempted, so a routine runs from one [schedule] to the next
    without interference. *)

From S2P Require Import Prelude Kern Sched SchedInv SchedPolicies Wait Sem.
Import Kern Sched SchedInv SchedPolicies Wait WaitInv Sem.
Open Scope Z_scope.

Module Pipe.

(** [struct pipe_state]; the positions are 32-bit values. *)
Record pipe_state := mk_pipe {
  p_rpos : Z;
  p_wpos : Z;
  pbuf : gmap Z Z;
  isclosed : bool;
  ref_count : Z
}.

(** [sizeof(struct pipe_state)] is 56. *)
Definition PIPE_BUFSIZE : Z := 4096 - 56.

Definition reader_queue (a : Z) : wq := (4, a).
Definition writer_queue (a : Z) : wq := (5, a).

Record pstate_t := mk_pst { pk : kstate; pipes : gmap Z pipe_state }.

Definition set_pk (k : kstate) (s : pstate_t) : pstate_t := mk_pst k (pipes s).
Definition upd_pipes (f : gmap Z pipe_state -> gmap Z pipe_state) (s : pstate_t) : pstate_t :=
  mk_pst (pk s) (f (pipes s)).

(** Routines of the rest of the kernel. *)
Definition kern {A} (m : M kstate A) : M pstate_t A := fun s =>
  match m (pk s) with Ret (a, k) => Ret (a, set_pk k s) | Panic => Panic | OutOfFuel => OutOfFuel end.

Fixpoint kern_res {A} (r : res kstate A) (s : pstate_t) : res pstate_t A :=
  match r with
  | Ok a k => Ok a (set_pk k s)
  | Stop => Stop
  | NoFuel => NoFuel
  | Sleep k f => Sleep (set_pk k s) (fun s' => kern_res (f (pk s')) s')
  end.

Definition kernR {A} (m : R kstate A) : R pstate_t A := fun s => kern_res (m (pk s)) s.

Definition get_pipe (a : Z) : M pstate_t pipe_state := s <- get ;; deref (pipes s !! a).
Definition update_pipe (f : pipe_state -> pipe_state) (a : Z) : M pstate_t unit :=
  _ <- get_pipe a ;; modify (upd_pipes (alter f a)).

Definition set_rpos (x : Z) (p : pipe_state) : pipe_state :=
  mk_pipe x (p_wpos p) (pbuf p) (isclosed p) (ref_count p).
Definition set_ref (x : Z) (p : pipe_state) : pipe_state :=
  mk_pipe (p_rpos p) (p_wpos p) (pbuf p) (isclosed p) x.
Definition set_closed (p : pipe_state) : pipe_state :=
  mk_pipe (p_rpos p) (p_wpos p) (pbuf p) true (ref_count p).
(** [state->buf[state->p_wpos % PIPE_BUFSIZE] = x; state->p_wpos ++]. *)
Definition push_byte (x : Z) (p : pipe_state) : pipe_state :=
  mk_pipe (p_rpos p) (u32 (p_wpos p + 1)) (<[p_wpos p mod PIPE_BUFSIZE := x]> (pbuf p))
    (isclosed p) (ref_count p).

Section Ops.
Variable sc : sched_class.

Definition pipe_state_create : M pstate_t (option Z) :=
  a <- kern kmalloc ;;
  match a with
  | Some a =>
      modify (upd_pipes (<[a := mk_pipe 0 0 ∅ false 1]>)) ;;
      kern (sem_init a 1) ;;
      kern (wait_queue_init (reader_queue a)) ;;
      kern (wait_queue_init (writer_queue a)) ;;
      ret (Some a)
  | None => ret None
  end.

(** [w] is the address of the wait of the call. *)
Definition lock_state (a w : Z) : R pstate_t unit := kernR (down a w).
Definition unlock_state (a : Z) : M pstate_t unit := kern (up sc a).

Definition is_empty (p : pipe_state) : bool := p_rpos p =? p_wpos p.
Definition is_full (p : pipe_state) : bool := PIPE_BUFSIZE <=? u32 (p_wpos p - p_rpos p).

Definition pipe_state_wait (q : wq) (w : Z) : R kstate bool :=
  lift (wait_current_set q w WT_PIPE) ;;~
  sleep ;;~
  lift (wait_current_del q w) ;;~
  wt <~ lift (get_wait w) ;;
  rret (wakeup_flags wt =? WT_PIPE).

Definition pipe_state_wakeup (q : wq) : M kstate unit :=
  e <- wait_queue_empty q ;; if negb e then wakeup_queue sc q WT_PIPE true else ret tt.

Definition wait_reader (a w : Z) : R pstate_t bool := kernR (pipe_state_wait (writer_queue a) w).
Definition wait_writer (a w : Z) : R pstate_t bool := kernR (pipe_state_wait (reader_queue a) w).
Definition wakeup_reader (a : Z) : M pstate_t unit := kern (pipe_state_wakeup (reader_queue a)).
Definition wakeup_writer (a : Z) : M pstate_t unit := kern (pipe_state_wakeup (writer_queue a)).

Definition pipe_state_acquire (a : Z) : M pstate_t unit :=
  p <- get_pipe a ;;
  assert (0 <? ref_count p) ;;
  update_pipe (fun p => set_ref (s32 (ref_count p + 1)) p) a.

Definition pipe_state_release (a : Z) : M pstate_t unit :=
  p <- get_pipe a ;;
  assert (0 <? ref_count p) ;;
  update_pipe (fun p => set_ref (ref_count p - 1) p) a ;;
  p <- get_pipe a ;;
  if ref_count p =? 0 then
    e1 <- kern (wait_queue_empty (reader_queue a)) ;;
    assert e1 ;;
    e2 <- kern (wait_queue_empty (writer_queue a)) ;;
    assert e2 ;;
    modify (upd_pipes (delete a))
  else ret tt.

Definition pipe_state_close (a : Z) : M pstate_t unit :=
  p <- get_pipe a ;;
  assert (0 <? ref_count p) ;;
  update_pipe set_closed a ;;
  wakeup_reader a ;;
  wakeup_writer a.

Definition pipe_state_size (a : Z) (write : bool) : M pstate_t Z :=
  p <- get_pipe a ;;
  let size := u32 (p_wpos p - p_rpos p) in
  ret (if write then (if isclosed p then 0 else u32 (PIPE_BUFSIZE - size)) else size).

(** The copying loop of [pipe_state_read]: at most [n] bytes, the ones copied. *)
Fixpoint read_copy (n : nat) (a : Z) : M pstate_t (list Z) :=
  match n with
  | O => ret []
  | S n =>
      p <- get_pipe a ;;
      if is_empty p then ret []
      else
        let x := default 0 (pbuf p !! (p_rpos p mod PIPE_BUFSIZE)) in
        update_pipe (fun p => set_rpos (u32 (p_rpos p + 1)) p) a ;;
        l <- read_copy n a ;;
        ret (x :: l)
  end.

(** [fuel] bounds the number of times the reader sleeps; [wl] and [w] are the
    addresses of the waits of [down] and of the pipe. *)
Fixpoint pipe_state_read (fuel : nat) (a n wl w : Z) : R pstate_t (list Z) :=
  lock_state a wl ;;~
  p <~ lift (get_pipe a) ;;
  if is_empty p then
    if isclosed p then lift (unlock_state a) ;;~ rret []
    else
      lift (unlock_state a) ;;~
      ok <~ wait_writer a w ;;
      if negb ok then rret []
      else match fuel with
           | O => lift out_of_fuel
           | S fuel => pipe_state_read fuel a n wl w
           end
  else
    l <~ lift (read_copy (Z.to_nat n) a) ;;
    lift (match l with [] => ret tt | _ => wakeup_writer a end) ;;~
    lift (unlock_state a) ;;~
    rret l.

(** The copying loop of [pipe_state_write]: what is left when the pipe is full. *)
Fixpoint write_copy (data : list Z) (a : Z) : M pstate_t (list Z) :=
  match data with
  | [] => ret []
  | x :: rest =>
      p <- get_pipe a ;;
      if is_full p then ret (x :: rest)
      else update_pipe (push_byte x) a ;; write_copy rest a
  end.

(** Returns the bytes not written. *)
Fixpoint pipe_state_write (fuel : nat) (a : Z) (data : list Z) (wl w : Z) : R pstate_t (list Z) :=
  lock_state a wl ;;~
  p <~ lift (get_pipe a) ;;
  if isclosed p then lift (unlock_state a) ;;~ rret data
  else
    left <~ lift (write_copy data a) ;;
    match left with
    | [] =>
        lift (match data with [] => ret tt | _ => wakeup_reader a end) ;;~
        lift (unlock_state a) ;;~
        rret []
    | _ =>
        lift (wakeup_reader a) ;;~
        lift (unlock_state a) ;;~
        ok <~ wait_reader a w ;;
        if negb ok then rret left
        else match fuel with
             | O => lift out_of_fuel
             | S fuel => pipe_state_write fuel a left wl w
             end
    end.

End Ops.

(** ** Transfer descriptors (iobuf.c) *)

Record iobuf := mk_iobuf { io_base : Z; io_offset : Z; io_len : Z; io_resid : Z }.

Definition iobuf_init (base len offset : Z) : iobuf := mk_iobuf base offset len len.

Definition iobuf_used (iob : iobuf) : Z := u32 (io_len iob - io_resid iob).

(** The descriptor and the memory it refers to. *)
Record iomem := mk_iomem { iob : iobuf; mem : gmap Z Z }.

Definition iobuf_skip (n : Z) : M iomem unit :=
  s <- get ;;
  let i := iob s in
  assert (n <=? io_resid i) ;;
  put (mk_iomem (mk_iobuf (u32 (io_base i + n)) (u32 (io_offset i + n)) (io_len i) (io_resid i - n)) (mem s)).

(** [memmove]: the source is read before the destination is written. *)
Definition memmove (dst src n : Z) : M iomem unit :=
  s <- get ;; put (mk_iomem (iob s) (write_bytes (mem s) dst (read_bytes (mem s) src n))).

(** The result and the number of bytes copied. *)
Definition iobuf_move (data len : Z) (m2b : bool) : M iomem (Z * Z) :=
  s <- get ;;
  let alen := if len <? io_resid (iob s) then len else io_resid (iob s) in
  (if 0 <? alen then
     (if m2b then memmove (io_base (iob s)) data alen else memmove data (io_base (iob s)) alen) ;;
     iobuf_skip alen
   else ret tt) ;;
  let len := if 0 <? alen then len - alen else len in
  ret ((if len =? 0 then 0 else - E_NO_MEM), alen).

Definition iobuf_move_zeros (len : Z) : M iomem (Z * Z) :=
  s <- get ;;
  let alen := if len <? io_resid (iob s) then len else io_resid (iob s) in
  (if 0 <? alen then
     put (mk_iomem (iob s) (write_bytes (mem s) (io_base (iob s)) (replicate (Z.to_nat alen) 0))) ;;
     iobuf_skip alen
   else ret tt) ;;
  let len := if 0 <? alen then len - alen else len in
  ret ((if len =? 0 then 0 else - E_NO_MEM), alen).

End Pipe.
