(* ===== verification/PipeInv.v ===== *)
(** * Pipes are byte streams; transfer descriptors account for what they move *)

From S2P Require Import Prelude Kern Sched SchedInv SchedPolicies Wait Sem SemInv Pipe.
Import Kern Sched SchedInv SchedPolicies Wait WaitInv Sem SemInv Pipe.
Open Scope Z_scope.

Module PipeInv.

(** ** The buffer as a queue of bytes *)

(** The bytes from one position to another. *)
Definition window (b : gmap Z Z) (from to : Z) : list Z :=
  (fun i => default 0 (b !! (i mod PIPE_BUFSIZE))) <$> seqZ from (to - from).

Definition content (p : pipe_state) : list Z := window (pbuf p) (p_rpos p) (p_wpos p).

Record pipe_ok (p : pipe_state) : Prop := {
  po_pos : 0 <= p_rpos p <= p_wpos p /\ p_wpos p < 2 ^ 32;
  po_size : p_wpos p - p_rpos p <= PIPE_BUFSIZE
}.

Definition room (p : pipe_state) : Z := PIPE_BUFSIZE - (p_wpos p - p_rpos p).

Lemma length_content p : pipe_ok p -> Z.of_nat (length (content p)) = p_wpos p - p_rpos p.
Proof. intros [[? ?] _]. unfold content, window. rewrite length_fmap, length_seqZ. lia. Qed.

Lemma window_cons b from to :
  from < to -> window b from to = default 0 (b !! (from mod PIPE_BUFSIZE)) :: window b (from + 1) to.
Proof.
  intros. unfold window. rewrite seqZ_cons by lia. cbn. f_equal. f_equal. f_equal; lia.
Qed.

Lemma window_snoc b from to :
  from <= to -> window b from (to + 1) = window b from to ++ [default 0 (b !! (to mod PIPE_BUFSIZE))].
Proof.
  intros. unfold window. replace (to + 1 - from) with ((to - from) + 1) by lia.
  rewrite seqZ_app, fmap_app by lia. replace (from + (to - from)) with to by lia. done.
Qed.

(** A byte written just past the window does not touch it. *)
Lemma window_insert b from to x :
  from <= to -> to - from < PIPE_BUFSIZE ->
  window (<[to mod PIPE_BUFSIZE := x]> b) from to = window b from to.
Proof.
  intros Hle Hlt. unfold window. apply list_fmap_ext. intros i j Hj.
  apply lookup_seqZ in Hj as [-> Hj]. rewrite lookup_insert_ne; [done|].
  intros E. change PIPE_BUFSIZE with 4040 in *. dlia.
Qed.

Lemma get_pipe_ok s a p : pipes s !! a = Some p -> get_pipe a s = Ret (p, s).
Proof. intros H. unfold get_pipe. rewrite bind_get. by rewrite H. Qed.

Lemma update_pipe_ok s a p f :
  pipes s !! a = Some p -> update_pipe f a s = Ret (tt, upd_pipes (<[a := f p]>) s).
Proof.
  intros H. unfold update_pipe. mstep get_pipe_ok; [|exact H]. unfold modify, upd_pipes.
  do 3 f_equal. apply map_eq. intros j. rewrite lookup_alter, lookup_insert.
  case_decide; [subst|done]. by rewrite H.
Qed.

(** [p'] is [p] but for the bytes, which are [l]. *)
Record pipe_with (l : list Z) (p p' : pipe_state) : Prop := {
  pw_ok : pipe_ok p';
  pw_content : content p' = l;
  pw_closed : isclosed p' = isclosed p;
  pw_ref : ref_count p' = ref_count p
}.

Lemma upd_pipes_id s a p : pipes s !! a = Some p -> upd_pipes (<[a := p]>) s = s.
Proof. intros H. destruct s. unfold upd_pipes. cbn in *. by rewrite insert_id. Qed.

Lemma upd_pipes_twice s a p q :
  upd_pipes (<[a := q]>) (upd_pipes (<[a := p]>) s) = upd_pipes (<[a := q]>) s.
Proof. unfold upd_pipes. cbn. by rewrite insert_insert_eq. Qed.

Lemma read_copy_ok a : forall n s p,
  pipes s !! a = Some p -> pipe_ok p ->
  exists p', read_copy n a s = Ret (take n (content p), upd_pipes (<[a := p']>) s) /\
    pipe_with (drop n (content p)) p p' /\ p_wpos p' = p_wpos p.
Proof.
  induction n as [|n IH]; intros s p Hp Ho; cbn [read_copy].
  - exists p. rewrite upd_pipes_id by done. by split_and!.
  - mstep get_pipe_ok; [|exact Hp]. pose proof Ho as [[? ?] ?]. unfold is_empty.
    destruct (Z.eqb_spec (p_rpos p) (p_wpos p)) as [E|Hne].
    { exists p. assert (content p = []) as Ec.
      { apply length_zero_iff_nil. pose proof (length_content p Ho). lia. }
      rewrite upd_pipes_id by done. rewrite Ec, take_nil, drop_nil. by split_and!. }
    mstep update_pipe_ok; [|exact Hp]. rewrite u32_small by (unfold is_u32; lia).
    set (p1 := set_rpos (p_rpos p + 1) p).
    destruct (IH (upd_pipes (<[a := p1]>) s) p1) as (p' & Hrun & [? Hc ? ?] & Hw).
    { cbn. apply lookup_insert_eq. }
    { constructor; cbn; lia. }
    rewrite (bind_step _ _ _ _ _ Hrun), upd_pipes_twice. exists p'.
    assert (content p = default 0 (pbuf p !! (p_rpos p mod PIPE_BUFSIZE)) :: content p1) as Ec.
    { unfold content. rewrite window_cons by lia. done. }
    rewrite Ec. cbn [take drop]. by split_and!.
Qed.

Lemma write_copy_ok a : forall data s p,
  pipes s !! a = Some p -> pipe_ok p -> p_wpos p + Z.of_nat (length data) < 2 ^ 32 ->
  exists p', write_copy data a s
      = Ret (drop (Z.to_nat (room p)) data, upd_pipes (<[a := p']>) s) /\
    pipe_with (content p ++ take (Z.to_nat (room p)) data) p p'.
Proof.
  induction data as [|x data IH]; intros s p Hp Ho Hb; cbn [write_copy].
  - exists p. rewrite upd_pipes_id, drop_nil, take_nil, app_nil_r by done. by split_and!.
  - mstep get_pipe_ok; [|exact Hp]. pose proof Ho as [[? ?] ?]. unfold is_full.
    rewrite u32_small by (unfold is_u32; lia). unfold room.
    destruct (Z.leb_spec PIPE_BUFSIZE (p_wpos p - p_rpos p)) as [Hf|Hr].
    { exists p. replace (Z.to_nat _) with 0%nat by lia. rewrite upd_pipes_id by done. cbn [drop take].
      rewrite app_nil_r. by split_and!. }
    mstep update_pipe_ok; [|exact Hp]. set (p1 := push_byte x p).
    cbn [length] in Hb.
    assert (p_wpos p1 = p_wpos p + 1) as Hw1 by (cbn; apply u32_small; unfold is_u32; lia).
    destruct (IH (upd_pipes (<[a := p1]>) s) p1) as (p' & Hrun & [? Hc ? ?]).
    { cbn. apply lookup_insert_eq. }
    { constructor; rewrite Hw1; cbn; lia. }
    { rewrite Hw1. lia. }
    rewrite Hrun, upd_pipes_twice. exists p'.
    assert (content p1 = content p ++ [x]) as Ec.
    { unfold content. rewrite Hw1. cbn [p_rpos pbuf p1 push_byte]. rewrite window_snoc by lia.
      rewrite window_insert by lia. by rewrite lookup_insert_eq. }
    assert (Z.to_nat (PIPE_BUFSIZE - (p_wpos p - p_rpos p)) = S (Z.to_nat (room p1))) as ->.
    { unfold room. rewrite Hw1. cbn [p_rpos p1 push_byte]. lia. }
    cbn [drop take]. split; [done|]. constructor; try done. by rewrite Hc, Ec, <- app_assoc.
Qed.

(** ** Whole operations on a pipe whose lock is free *)

Section Policy.
Context {sc : sched_class} {I : kstate -> Prop} {Hsp : SchedPolicy sc I}.

Definition waiters_alive (k : kstate) (q : wq) : Prop :=
  exists l, wqueues k !! q = Some l /\ forall u p, u ∈ l -> owner k u p -> alive k p.

Record pipe_ready (a : Z) (k : kstate) : Prop := {
  pr_sched : sched_inv I k;
  pr_waits : waits_ok k;
  pr_sem : exists c, sems (ipc k) !! a = Some (mk_sem 1 true c);
  pr_free : wqueues k !! sem_wait_queue a = Some [];
  pr_readers : waiters_alive k (reader_queue a);
  pr_writers : waiters_alive k (writer_queue a)
}.

(** Every process waiting on [q] is runnable in [k']. *)
Definition released (q : wq) (k k' : kstate) : Prop :=
  forall l u p, wqueues k !! q = Some l -> u ∈ l -> owner k u p -> proc_is k' p PROC_RUNNABLE.

Lemma pipe_wakeup_ok q k :
  sched_inv I k -> waits_ok k -> waiters_alive k q ->
  exists k', pipe_state_wakeup sc q k = Ret (tt, k') /\ sched_inv I k' /\ waits_ok k' /\
    ipc k' = ipc k /\ (forall q', q' <> q -> wqueues k' !! q' = wqueues k !! q') /\ released q k k'.
Proof using Hsp.
  intros Hi Ho (l & Hq & Ha). unfold pipe_state_wakeup.
  rewrite (bind_step _ _ k (bool_decide (l = [])) k)
    by (unfold wait_queue_empty; mstep get_wqueue_ok; [|exact Hq]; done).
  destruct l as [|w l]; cbn [negb].
  - exists k. split_and!; try done. intros l u p Hl Hu. rewrite Hq in Hl. injection Hl as <-.
    by apply not_elem_of_nil in Hu.
  - rewrite bool_decide_eq_false_2 by done. cbn [negb]. unfold wakeup_queue. mstep get_wqueue_ok; [|exact Hq].
    rewrite (bind_step _ _ k (Some w) k)
      by (unfold wait_queue_first; mstep get_wqueue_ok; [|exact Hq]; done).
    destruct (wakeup_del_loop_ok q WT_PIPE (length (w :: l)) l w k) as (k' & Hrun & Hi' & Ho' & A); try done.
    { cbn. lia. }
    exists k'. split_and!; try done.
    + apply A.
    + intros q' Hne. rewrite (aw_queues _ _ _ _ _ A). by rewrite lookup_insert_ne.
    + intros l' u p Hl Hu. rewrite Hq in Hl. injection Hl as <-. by apply (aw_owner _ _ _ _ _ A).
Qed.

(** Taking and giving back the lock. *)
Definition locked (a : Z) (k : kstate) : kstate :=
  upd_sems (alter (fun x => set_value (value x - 1) x) a) k.

Lemma lock_ok a w s :
  pipe_ready a (pk s) -> lock_state a w s = Ok tt (set_pk (locked a (pk s)) s).
Proof using Type.
  intros [_ _ [c Hc] _ _ _]. unfold lock_state, kernR.
  by rewrite (down_takes a w (pk s) (mk_sem 1 true c)) by done.
Qed.

Lemma locked_inv a k : sched_inv I k -> sched_inv I (locked a k).
Proof using Hsp. intros []. constructor; try done. by apply (sp_stable k). Qed.

Lemma locked_waits a k : waits_ok k -> waits_ok (locked a k).
Proof using Type. intros []. by constructor. Qed.

Lemma unlock_ok a k k' s c :
  sems (ipc k) !! a = Some (mk_sem 1 true c) -> ipc k' = ipc (locked a k) ->
  wqueues k' !! sem_wait_queue a = Some [] -> sched_inv I k' -> waits_ok k' -> pk s = k' ->
  exists k2, unlock_state sc a s = Ret (tt, set_pk k2 s) /\ sched_inv I k2 /\ waits_ok k2 /\
    ipc k2 = ipc k /\ wqueues k2 = wqueues k' /\ procs k2 = procs k' /\ waits k2 = waits k'.
Proof using Hsp.
  intros Hc Hi Hq Hinv Hw Hs. unfold unlock_state, kern.
  assert (sems (ipc k') !! a = Some (mk_sem 0 true c)) as Hc'.
  { rewrite Hi. cbn. by rewrite lookup_alter_eq, Hc. }
  rewrite Hs, (up_value a k' (mk_sem 0 true c)) by done.
  eexists. split; [reflexivity|]. split_and!; try done.
  - destruct Hinv. constructor; try done. by apply (sp_stable k').
  - destruct Hw. by constructor.
  - cbn. rewrite Hi. cbn. rewrite alter_alter_eq, alter_id; [by destruct (ipc k)|].
    intros x Hx. rewrite Hc in Hx. injection Hx as <-. done.
Qed.

(** What is left behind by an operation that did not sleep. *)
Record pipe_done (a : Z) (p' : pipe_state) (q : wq) (s s' : pstate_t) : Prop := {
  pd_pipes : pipes s' = <[a := p']> (pipes s);
  pd_sched : sched_inv I (pk s');
  pd_waits : waits_ok (pk s');
  pd_lock : ipc (pk s') = ipc (pk s);
  pd_woken : released q (pk s) (pk s')
}.

Lemma finish_ok a p' q s :
  pipe_ready a (pk s) -> q = reader_queue a \/ q = writer_queue a ->
  exists k1 s', kern (pipe_state_wakeup sc q) (upd_pipes (<[a := p']>) (set_pk (locked a (pk s)) s))
      = Ret (tt, mk_pst k1 (<[a := p']> (pipes s))) /\
    unlock_state sc a (mk_pst k1 (<[a := p']> (pipes s))) = Ret (tt, s') /\ pipe_done a p' q s s'.
Proof using Hsp.
  intros [Hi Hw [c Hc] Hf Hr Hwr] Hq.
  assert (waiters_alive (locked a (pk s)) q) as Ha by (destruct Hq as [-> | ->]; done).
  destruct (pipe_wakeup_ok q (locked a (pk s))) as (k1 & Hrun & Hi1 & Hw1 & Ei & Eq & Hrel);
    [by apply locked_inv|by apply locked_waits|done|].
  destruct (unlock_ok a (pk s) k1 (mk_pst k1 (<[a := p']> (pipes s))) c)
    as (k2 & Hrun2 & Hi2 & Hw2 & Ei2 & Eq2 & Ep2 & Ew2); try done.
  { rewrite Eq by (destruct Hq as [-> | ->]; done). done. }
  eexists k1, _. split; [unfold kern; cbn; by rewrite Hrun|]. split; [exact Hrun2|].
  constructor; try done. intros l u p Hl Hu Ho. unfold proc_is. cbn. rewrite Ep2. by apply (Hrel l u).
Qed.

Lemma read_ok s a p fuel wl w n :
  pipes s !! a = Some p -> pipe_ok p -> pipe_ready a (pk s) -> 0 < n -> content p <> [] ->
  exists p' s', pipe_state_read sc fuel a n wl w s = Ok (take (Z.to_nat n) (content p)) s' /\
    pipe_with (drop (Z.to_nat n) (content p)) p p' /\ pipe_done a p' (writer_queue a) s s'.
Proof using Hsp.
  intros Hp Ho Hr Hn Hne. set (s1 := set_pk (locked a (pk s)) s).
  assert (pipe_state_read sc fuel a n wl w s =
    (l <~ lift (read_copy (Z.to_nat n) a) ;;
     lift (match l with [] => ret tt | _ => wakeup_writer sc a end) ;;~
     lift (unlock_state sc a) ;;~ rret l) s1) as ->.
  { assert (p_rpos p <> p_wpos p).
    { intros E. apply Hne. apply length_zero_iff_nil. pose proof (length_content p Ho). lia. }
    destruct fuel; cbn [pipe_state_read]; unfold rbind at 1; rewrite lock_ok by done; cbn [rthen];
      (rstep get_pipe_ok; [|exact Hp]); unfold is_empty; by rewrite (proj2 (Z.eqb_neq _ _)). }
  destruct (read_copy_ok a (Z.to_nat n) s1 p Hp Ho) as (p' & Hrun & Hw & _).
  rstep Hrun. destruct (finish_ok a p' (writer_queue a) s Hr) as (k1 & s' & H1 & H2 & Hd); [by right|].
  assert (take (Z.to_nat n) (content p) <> []) as Ht.
  { destruct (content p); [done|]. destruct (Z.to_nat n) eqn:E; [lia|done]. }
  exists p', s'. split_and!; try done.
  destruct (take (Z.to_nat n) (content p)) as [|x l]; [done|].
  rstep H1. rstep H2. done.
Qed.

Lemma write_ok s a p fuel wl w data :
  pipes s !! a = Some p -> pipe_ok p -> pipe_ready a (pk s) -> data <> [] -> isclosed p = false ->
  Z.of_nat (length data) <= room p -> p_wpos p + Z.of_nat (length data) < 2 ^ 32 ->
  exists p' s', pipe_state_write sc fuel a data wl w s = Ok [] s' /\
    pipe_with (content p ++ data) p p' /\ pipe_done a p' (reader_queue a) s s'.
Proof using Hsp.
  intros Hp Ho Hr Hne Hcl Hroom Hb. set (s1 := set_pk (locked a (pk s)) s).
  destruct (write_copy_ok a data s1 p Hp Ho Hb) as (p' & Hrun & Hw).
  rewrite take_ge in Hw by lia. rewrite drop_ge in Hrun by lia.
  destruct (finish_ok a p' (reader_queue a) s Hr) as (k1 & s' & H1 & H2 & Hd); [by left|].
  exists p', s'. split_and!; try done.
  assert (pipe_state_write sc fuel a data wl w s =
    (lift (match data with [] => ret tt | _ => wakeup_reader sc a end) ;;~
     lift (unlock_state sc a) ;;~ rret []) (upd_pipes (<[a := p']>) s1)) as ->.
  { destruct fuel; cbn [pipe_state_write]; unfold rbind at 1; rewrite lock_ok by done; cbn [rthen];
      (rstep get_pipe_ok; [|exact Hp]); rewrite Hcl; (rstep Hrun); done. }
  destruct data as [|x data]; [done|]. rstep H1. rstep H2. done.
Qed.

(** C34: a pipe is a FIFO byte stream.  A read of [n] bytes from a pipe that has
    some returns the oldest [n] (or all there are) without sleeping and removes
    exactly them; a write that fits returns with nothing left over and appends its
    bytes behind the others; either way the lock is free again and every process
    waiting on the other side has been made runnable.  The positions must not have
    reached 2^32. *)
Theorem pipe_stream_fifo s a p fuel wl w :
  pipes s !! a = Some p -> pipe_ok p -> pipe_ready a (pk s) ->
  (forall n, 0 < n -> content p <> [] ->
     exists p' s', pipe_state_read sc fuel a n wl w s = Ok (take (Z.to_nat n) (content p)) s' /\
       pipe_with (drop (Z.to_nat n) (content p)) p p' /\ pipe_done a p' (writer_queue a) s s') /\
  (forall data, data <> [] -> isclosed p = false -> Z.of_nat (length data) <= room p ->
     p_wpos p + Z.of_nat (length data) < 2 ^ 32 ->
     exists p' s', pipe_state_write sc fuel a data wl w s = Ok [] s' /\
       pipe_with (content p ++ data) p p' /\ pipe_done a p' (reader_queue a) s s').
Proof using Hsp.
  intros Hp Ho Hr. split; intros; [by apply read_ok|by apply write_ok].
Qed.

End Policy.

(** ** The limit of the positions *)

(** The positions wrap at 2^32, which is not a multiple of the buffer's size.
    In a pipe that has carried 2^32 bytes and holds the last 2896 of them, which is
    less than its capacity, the byte to be read next is [x]; after one more byte
    [y] is written, which the pipe accepts, the byte read next is [y]: the oldest
    unread byte has been overwritten. *)
Theorem pipe_wraparound_corrupts s a b x y :
  pipes s !! a = Some (mk_pipe (2 ^ 32 - 2896) 0 b false 2) -> b !! 0 = Some x ->
  2896 < PIPE_BUFSIZE /\
  (exists s', read_copy 1 a s = Ret ([x], s')) /\
  exists s' s'', write_copy [y] a s = Ret ([], s') /\ read_copy 1 a s' = Ret ([y], s'').
Proof.
  intros Hp Hb. split; [done|].
  assert (forall t c z, pipes t !! a = Some c -> p_rpos c = 2 ^ 32 - 2896 -> p_wpos c <> 2 ^ 32 - 2896 ->
    pbuf c !! 0 = Some z -> exists t', read_copy 1 a t = Ret ([z], t')) as Hread.
  { intros t c z Hc Hr Hw Hz. cbn [read_copy]. mstep get_pipe_ok; [|exact Hc]. unfold is_empty.
    rewrite (proj2 (Z.eqb_neq _ _)) by congruence. mstep update_pipe_ok; [|exact Hc].
    rewrite bind_ret, Hr. change ((2 ^ 32 - 2896) mod PIPE_BUFSIZE) with 0. rewrite Hz. by eexists. }
  split; [by apply (Hread s _ x Hp)|].
  cbn [write_copy]. mstep get_pipe_ok; [|exact Hp].
  change (is_full _) with false. cbv iota. mstep update_pipe_ok; [|exact Hp].
  eexists. set (s1 := upd_pipes _ s).
  destruct (Hread s1 (push_byte y (mk_pipe (2 ^ 32 - 2896) 0 b false 2)) y) as [s2 Hs2]; try done.
  { apply lookup_insert_eq. }
  { apply lookup_insert_eq. }
  by exists s2.
Qed.

(** ** On a concrete state *)

Definition ex_pipe : pipe_state := mk_pipe 10 12 (list_to_map [(10, 5); (11, 6)]) false 2.

Definition ex_pst : pstate_t := mk_pst
  (upd_sems (fun _ => {[7 := mk_sem 1 true 0]})
    (upd_wqueues (fun _ => list_to_map [(sem_wait_queue 7, []); (reader_queue 7, []); (writer_queue 7, [])])
       ex_state)) {[7 := ex_pipe]}.

Lemma ex_pipe_ready : pipe_ready (I := queues_ok kernel_ring) 7 (pk ex_pst).
Proof.
  assert (forall q l, wqueues (pk ex_pst) !! q = Some l -> l = []) as Hl by (intros q l H; by enum_map H).
  constructor.
  - destruct ex_sched_inv as [H ? ? ? ?]. constructor; try done. by apply (queues_ok_stable _ ex_state).
  - constructor; intros q l; [intros ->%Hl; apply NoDup_nil_2|intros w ->%Hl Hw; by apply not_elem_of_nil in Hw].
  - by exists 0.
  - reflexivity.
  - exists []. split; [reflexivity|]. intros u p H. by apply not_elem_of_nil in H.
  - exists []. split; [reflexivity|]. intros u p H. by apply not_elem_of_nil in H.
Qed.

Lemma pipe_stream_fifo_witness :
  exists p' s', pipe_state_read MLFQ_sched_class 0 7 1 50 51 ex_pst = Ok [5] s' /\
    pipe_with [6] ex_pipe p' /\ pipe_done (I := queues_ok kernel_ring) 7 p' (writer_queue 7) ex_pst s'.
Proof.
  destruct (pipe_stream_fifo (sc := MLFQ_sched_class) (I := queues_ok kernel_ring) ex_pst 7 ex_pipe 0 50 51)
    as [Hread _].
  - reflexivity.
  - constructor; cbn; unfold PIPE_BUFSIZE; lia.
  - exact ex_pipe_ready.
  - apply (Hread 1); [lia|discriminate].
Defined.

Definition ex_wrapped : pstate_t :=
  mk_pst ex_state {[7 := mk_pipe (2 ^ 32 - 2896) 0 {[0 := 1]} false 2]}.

Lemma pipe_wraparound_corrupts_witness :
  exists s' s'', write_copy [9] 7 ex_wrapped = Ret ([], s') /\ read_copy 1 7 s' = Ret ([9], s'').
Proof.
  apply (pipe_wraparound_corrupts ex_wrapped 7 {[0 := 1]} 1 9).
  - reflexivity.
  - reflexivity.
Defined.


(** ** Transfer descriptors *)

(** A move copies as much as the descriptor has left, accounts for it, and fails
    exactly when that is less than asked. *)
Lemma iobuf_move_ok (s : iomem) (data len : Z) (m2b : bool) :
  0 <= len -> 0 <= io_resid (iob s) <= io_len (iob s) -> io_len (iob s) < 2 ^ 32 ->
  let alen := Z.min len (io_resid (iob s)) in
  let src := if m2b then data else io_base (iob s) in
  let dst := if m2b then io_base (iob s) else data in
  exists s', iobuf_move data len m2b s = Ret ((if len <=? io_resid (iob s) then 0 else - E_NO_MEM, alen), s') /\
    iobuf_used (iob s') = iobuf_used (iob s) + alen /\ io_resid (iob s') = io_resid (iob s) - alen /\
    mem s' = write_bytes (mem s) dst (read_bytes (mem s) src alen).
Proof.
  intros Hl Hr Hb alen src dst. unfold iobuf_move. rewrite bind_get. cbv zeta.
  replace (if len <? io_resid (iob s) then len else io_resid (iob s)) with alen by (unfold alen; case_bool; lia).
  assert (Hal : alen = Z.min len (io_resid (iob s))) by done. clearbody alen.
  destruct (Z.ltb_spec 0 alen) as [Hpos|Hz].
  - set (s1 := mk_iomem (iob s) (write_bytes (mem s) dst (read_bytes (mem s) src alen))).
    assert (E : (if m2b then memmove (io_base (iob s)) data alen else memmove data (io_base (iob s)) alen) s = Ret (tt, s1))
      by by destruct m2b.
    rewrite (bind_step _ _ s tt (mk_iomem (mk_iobuf (u32 (io_base (iob s) + alen)) (u32 (io_offset (iob s) + alen)) (io_len (iob s)) (io_resid (iob s) - alen)) (mem s1))).
    2: { mstep E. unfold iobuf_skip. rewrite bind_get. cbv zeta. rewrite assert_true by (cbn [iob s1]; lia). done. }
    eexists. split; [unfold ret; do 3 f_equal; repeat case_bool; (lia || done)|].
    unfold iobuf_used. cbn. rewrite !u32_small by (unfold is_u32; lia). split_and!; [lia|done|done].
  - rewrite bind_ret. exists s. assert (alen = 0) as -> by lia. split_and!; [|lia|lia|done].
    unfold ret. do 3 f_equal. repeat case_bool; try lia; done.
Qed.
End PipeInv.
