(* ===== verification/File.v ===== *)
(** * Open files (src/code/kern/fs/file.c, fs.c, sysfile.c)

    The file descriptors of a process are the entries of its [fs_struct]; a
    descriptor counts the operations in progress on it, because they can sleep in
    the file system while another thread closes it.  The file system below (vfs.c
    and the inode operations) is the interface [Vfs]; its routines may sleep. *)

From S2P Require Import Prelude Pipe.
Import Pipe.
Open Scope Z_scope.

Module File.

(** ** The file system below *)

(** [struct stat]. *)
Record stat := mk_stat { st_mode : Z; st_nlinks : Z; st_blocks : Z; st_size : Z }.

(** What file.c and fs.c call; the result code is 0 on success. *)
Class Vfs (V : Type) := {
  vfs_open : list Z -> Z -> R V (Z * Z);
  vfs_close : Z -> R V unit;
  vop_fstat : Z -> R V (Z * stat);
  vop_read : Z -> iobuf -> R V (Z * iobuf);
  vop_write : Z -> iobuf -> R V (Z * iobuf);
  vop_tryseek : Z -> Z -> R V Z;
  vop_fsync : Z -> R V Z;
  vop_getdirentry : Z -> iobuf -> R V (Z * iobuf);
  vop_ref_inc : Z -> R V unit;
  vop_ref_dec : Z -> R V unit;
  vop_open_inc : Z -> R V unit;
  pipe_open : R V (Z * Z * Z);
  vfs_getcwd : iobuf -> R V (Z * iobuf);
  stradd : list Z -> list Z -> R V (option (list Z))
}.

(** ** Descriptors *)

Inductive fd_status := FD_NONE | FD_INIT | FD_OPENED | FD_CLOSED.

#[export] Instance fd_status_eq_dec : EqDecision fd_status.
Proof. solve_decision. Defined.

Record file := mk_file {
  status : fd_status;
  readable : bool;
  writable : bool;
  ffd : Z;
  pos : Z;
  node : option Z;
  open_count : Z
}.

Definition set_status (x : fd_status) (f : file) : file :=
  mk_file x (readable f) (writable f) (ffd f) (pos f) (node f) (open_count f).
Definition set_pos (x : Z) (f : file) : file :=
  mk_file (status f) (readable f) (writable f) (ffd f) x (node f) (open_count f).
Definition set_node (x : option Z) (f : file) : file :=
  mk_file (status f) (readable f) (writable f) (ffd f) (pos f) x (open_count f).
Definition set_mode (r w : bool) (f : file) : file :=
  mk_file (status f) r w (ffd f) (pos f) (node f) (open_count f).
Definition set_open_count (x : Z) (f : file) : file :=
  mk_file (status f) (readable f) (writable f) (ffd f) (pos f) (node f) x.

Record fs_struct := mk_fs { pwd : option Z; filemap : gmap Z file; fs_count : Z }.

Definition set_filemap (g : gmap Z file -> gmap Z file) (x : fs_struct) : fs_struct :=
  mk_fs (pwd x) (g (filemap x)) (fs_count x).

(** [sizeof(struct fs_struct)] is 32 and [sizeof(struct file)] 28. *)
Definition FS_STRUCT_NENTRY : Z := (4096 - 32) / 28.
Definition NO_FD : Z := -0x9527.
Definition O_ACCMODE : Z := 3.
Definition O_APPEND : Z := 0x20.

Section Ops.
Context {V : Type} {vfs : Vfs V}.

(** The [fs_struct]s, the one of the running process, the file system, and the
    answers [kmalloc] will give. *)
Record fstate := mk_fstate { fss : gmap Z fs_struct; cur_fs : Z; vs : V; fmallocs : list (option Z) }.

Definition upd_fss (f : gmap Z fs_struct -> gmap Z fs_struct) (s : fstate) : fstate :=
  mk_fstate (f (fss s)) (cur_fs s) (vs s) (fmallocs s).
Definition set_vs (v : V) (s : fstate) : fstate := mk_fstate (fss s) (cur_fs s) v (fmallocs s).

Fixpoint vfs_res {A} (r : res V A) (s : fstate) : res fstate A :=
  match r with
  | Ok a v => Ok a (set_vs v s)
  | Stop => Stop
  | NoFuel => NoFuel
  | Sleep v f => Sleep (set_vs v s) (fun s' => vfs_res (f (vs s')) s')
  end.

(** A call of the file system. *)
Definition call {A} (m : R V A) : R fstate A := fun s => vfs_res (m (vs s)) s.

(** A [struct file *] is the [fs_struct] it is in and its index. *)
Definition filep : Type := Z * Z.

Definition get_fs (a : Z) : M fstate fs_struct := s <- get ;; deref (fss s !! a).
Definition get_file (p : filep) : M fstate file := x <- get_fs (fst p) ;; deref (filemap x !! snd p).
Definition update_file (f : file -> file) (p : filep) : M fstate unit :=
  _ <- get_file p ;; modify (upd_fss (alter (set_filemap (alter f (snd p))) (fst p))).

Definition testfd (fd : Z) : bool := (0 <=? fd) && (fd <? FS_STRUCT_NENTRY).

Definition get_filemap : M fstate Z :=
  s <- get ;; x <- get_fs (cur_fs s) ;; assert (0 <? fs_count x) ;; ret (cur_fs s).

(** The entries of [filemap_init]: [readable] and the rest are not set by it. *)
Definition filemap_init (a : Z) : M fstate unit :=
  modify (upd_fss (alter (set_filemap (fun _ =>
    array FS_STRUCT_NENTRY (fun fd => mk_file FD_NONE false false fd 0 None 0))) a)).

(** The first free entry from [fd] on. *)
Fixpoint find_free (n : nat) (fd : Z) (m : gmap Z file) : option Z :=
  match n with
  | O => None
  | S n =>
      match m !! fd with
      | Some f => if bool_decide (status f = FD_NONE) then Some fd else find_free n (fd + 1) m
      | None => None
      end
  end.

(** The error code or the entry. *)
Definition filemap_found (p : filep) : M fstate (Z + filep) :=
  f <- get_file p ;;
  assert (open_count f =? 0) ;;
  update_file (fun f => set_node None (set_status FD_INIT f)) p ;;
  ret (inr p).

Definition filemap_alloc (fd : Z) : M fstate (Z + filep) :=
  a <- get_filemap ;;
  if fd =? NO_FD then
    x <- get_fs a ;;
    match find_free (Z.to_nat FS_STRUCT_NENTRY) 0 (filemap x) with
    | Some fd => filemap_found (a, fd)
    | None => ret (inl (- E_MAX_OPEN))
    end
  else if testfd fd then
    f <- get_file (a, fd) ;;
    if bool_decide (status f = FD_NONE) then filemap_found (a, fd) else ret (inl (- E_BUSY))
  else ret (inl (- E_INVAL)).

Definition filemap_free (p : filep) : R fstate unit :=
  f <~ lift (get_file p) ;;
  lift (assert (bool_decide (status f = FD_INIT) || bool_decide (status f = FD_CLOSED))) ;;~
  lift (assert (open_count f =? 0)) ;;~
  (if bool_decide (status f = FD_CLOSED) then
     n <~ lift (deref (node f)) ;; call (vfs_close n)
   else rret tt) ;;~
  lift (update_file (set_status FD_NONE) p).

Definition filemap_acquire (p : filep) : M fstate unit :=
  f <- get_file p ;;
  assert (bool_decide (status f = FD_OPENED)) ;;
  update_file (fun f => set_open_count (s32 (open_count f + 1)) f) p.

Definition filemap_release (p : filep) : R fstate unit :=
  f <~ lift (get_file p) ;;
  lift (assert (bool_decide (status f = FD_OPENED) || bool_decide (status f = FD_CLOSED))) ;;~
  lift (assert (0 <? open_count f)) ;;~
  lift (update_file (fun f => set_open_count (open_count f - 1) f) p) ;;~
  f <~ lift (get_file p) ;;
  if open_count f =? 0 then filemap_free p else rret tt.

Definition filemap_open (p : filep) : M fstate unit :=
  f <- get_file p ;;
  assert (bool_decide (status f = FD_INIT) && bool_decide (node f <> None)) ;;
  update_file (set_status FD_OPENED) p ;;
  update_file (fun f => set_open_count (s32 (open_count f + 1)) f) p.

Definition filemap_close (p : filep) : R fstate unit :=
  f <~ lift (get_file p) ;;
  lift (assert (bool_decide (status f = FD_OPENED))) ;;~
  lift (assert (0 <? open_count f)) ;;~
  lift (update_file (set_status FD_CLOSED) p) ;;~
  lift (update_file (fun f => set_open_count (open_count f - 1) f) p) ;;~
  f <~ lift (get_file p) ;;
  if open_count f =? 0 then filemap_free p else rret tt.

Definition filemap_dup (to from : filep) : R fstate unit :=
  t <~ lift (get_file to) ;;
  f <~ lift (get_file from) ;;
  lift (assert (bool_decide (status t = FD_INIT) && bool_decide (status f = FD_OPENED))) ;;~
  lift (update_file (fun t => set_mode (readable f) (writable f) (set_pos (pos f) t)) to) ;;~
  n <~ lift (deref (node f)) ;;
  call (vop_ref_inc n) ;;~
  call (vop_open_inc n) ;;~
  lift (update_file (set_node (Some n)) to) ;;~
  lift (filemap_open to).

Definition fd2file (fd : Z) : M fstate (option filep) :=
  if testfd fd then
    a <- get_filemap ;;
    f <- get_file (a, fd) ;;
    ret (if bool_decide (status f = FD_OPENED) && (ffd f =? fd) then Some (a, fd) else None)
  else ret None.

Definition file_testfd (fd : Z) (r w : bool) : M fstate bool :=
  p <- fd2file fd ;;
  match p with
  | None => ret false
  | Some p =>
      f <- get_file p ;;
      ret (if r && negb (readable f) then false
           else if w && negb (writable f) then false else true)
  end.

(** The access mode: readable, writable. *)
Definition accmode (open_flags : Z) : option (bool * bool) :=
  let m := Z.land open_flags O_ACCMODE in
  if m =? 0 then Some (true, false)
  else if m =? 1 then Some (false, true)
  else if m =? 2 then Some (true, true)
  else None.

(** The end of [file_open]. *)
Definition open_finish (p : filep) (n : Z) (r w : bool) : R fstate Z :=
  lift (update_file (fun f => set_mode r w (set_node (Some n) f)) p) ;;~
  lift (filemap_open p) ;;~
  f <~ lift (get_file p) ;;
  rret (ffd f).

Definition file_open (path : list Z) (open_flags : Z) : R fstate Z :=
  match accmode open_flags with
  | None => rret (- E_INVAL)
  | Some (r, w) =>
      a <~ lift (filemap_alloc NO_FD) ;;
      match a with
      | inl e => rret e
      | inr p =>
          o <~ call (vfs_open path open_flags) ;;
          if negb (fst o =? 0) then filemap_free p ;;~ rret (fst o)
          else
            lift (update_file (set_pos 0) p) ;;~
            if negb (Z.land open_flags O_APPEND =? 0) then
              st <~ call (vop_fstat (snd o)) ;;
              if negb (fst st =? 0) then
                call (vfs_close (snd o)) ;;~ filemap_free p ;;~ rret (fst st)
              else
                lift (update_file (set_pos (st_size (snd st))) p) ;;~
                open_finish p (snd o) r w
            else open_finish p (snd o) r w
      end
  end.

Definition file_close (fd : Z) : R fstate Z :=
  p <~ lift (fd2file fd) ;;
  match p with
  | None => rret (- E_INVAL)
  | Some p => filemap_close p ;;~ rret 0
  end.

(** [file_read] and [file_write] differ in the mode they ask for and in the inode
    operation; the result is the code and the number of bytes copied. *)
Definition file_io (allowed : file -> bool) (op : Z -> iobuf -> R V (Z * iobuf)) (fd base len : Z)
    : R fstate (Z * Z) :=
  p <~ lift (fd2file fd) ;;
  match p with
  | None => rret (- E_INVAL, 0)
  | Some p =>
      f <~ lift (get_file p) ;;
      if negb (allowed f) then rret (- E_INVAL, 0)
      else
        lift (filemap_acquire p) ;;~
        n <~ lift (deref (node f)) ;;
        r <~ call (op n (iobuf_init base len (pos f))) ;;
        let copied := iobuf_used (snd r) in
        f <~ lift (get_file p) ;;
        lift (if bool_decide (status f = FD_OPENED)
              then update_file (fun f => set_pos (s32 (pos f + copied)) f) p else ret tt) ;;~
        filemap_release p ;;~
        rret (fst r, copied)
  end.

Definition file_read (fd base len : Z) : R fstate (Z * Z) := file_io readable vop_read fd base len.
Definition file_write (fd base len : Z) : R fstate (Z * Z) := file_io writable vop_write fd base len.

(** The new position, or the error code: [LSEEK_SET], [LSEEK_CUR], [LSEEK_END]. *)
Definition seek_target (f : file) (n off whence : Z) : R fstate (Z * Z) :=
  if whence =? 0 then rret (0, off)
  else if whence =? 1 then rret (0, s32 (off + pos f))
  else if whence =? 2 then
    st <~ call (vop_fstat n) ;;
    rret (if fst st =? 0 then (0, s32 (off + st_size (snd st))) else (fst st, off))
  else rret (- E_INVAL, off).

Definition file_seek (fd off whence : Z) : R fstate Z :=
  p <~ lift (fd2file fd) ;;
  match p with
  | None => rret (- E_INVAL)
  | Some p =>
      f <~ lift (get_file p) ;;
      lift (filemap_acquire p) ;;~
      n <~ lift (deref (node f)) ;;
      t <~ seek_target f n off whence ;;
      r <~ (if fst t =? 0 then
              e <~ call (vop_tryseek n (snd t)) ;;
              lift (if e =? 0 then update_file (set_pos (snd t)) p else ret tt) ;;~
              rret e
            else rret (fst t)) ;;
      filemap_release p ;;~
      rret r
  end.

(** An operation that only calls the inode: acquire, call, release. *)
Definition with_file {A} (fd : Z) (bad : A) (op : Z -> R V A) : R fstate A :=
  p <~ lift (fd2file fd) ;;
  match p with
  | None => rret bad
  | Some p =>
      f <~ lift (get_file p) ;;
      lift (filemap_acquire p) ;;~
      n <~ lift (deref (node f)) ;;
      r <~ call (op n) ;;
      filemap_release p ;;~
      rret r
  end.

Definition file_fstat (fd : Z) : R fstate (Z * stat) :=
  with_file fd (- E_INVAL, mk_stat 0 0 0 0) vop_fstat.
Definition file_fsync (fd : Z) : R fstate Z := with_file fd (- E_INVAL) vop_fsync.

(** [direntp->name] is at [name], [direntp->offset] is [off]; the new offset. *)
Definition dirent_namelen : Z := 256.
Definition file_getdirentry (fd name off : Z) : R fstate (Z * Z) :=
  r <~ with_file fd (- E_INVAL, iobuf_init name 0 off)
         (fun n => vop_getdirentry n (iobuf_init name dirent_namelen off)) ;;
  rret (fst r, if fst r =? 0 then s32 (off + iobuf_used (snd r)) else off).

Definition file_dup (fd1 fd2 : Z) : R fstate Z :=
  p1 <~ lift (fd2file fd1) ;;
  match p1 with
  | None => rret (- E_INVAL)
  | Some p1 =>
      a <~ lift (filemap_alloc fd2) ;;
      match a with
      | inl e => rret e
      | inr p2 => filemap_dup p2 p1 ;;~ f <~ lift (get_file p2) ;; rret (ffd f)
      end
  end.

Definition pipe_end (p : filep) (n : Z) (r : bool) : R fstate Z :=
  lift (update_file (set_node (Some n)) p) ;;~
  lift (update_file (fun f => set_mode r (negb r) (set_pos 0 f)) p) ;;~
  lift (filemap_open p) ;;~
  f <~ lift (get_file p) ;;
  rret (ffd f).

(** The error code, or the two descriptors. *)
Definition file_pipe : R fstate (Z + Z * Z) :=
  a0 <~ lift (filemap_alloc NO_FD) ;;
  match a0 with
  | inl e => rret (inl e)
  | inr p0 =>
      a1 <~ lift (filemap_alloc NO_FD) ;;
      match a1 with
      | inl e => filemap_free p0 ;;~ rret (inl e)
      | inr p1 =>
          o <~ call pipe_open ;;
          match o with
          | (e, n0, n1) =>
              if negb (e =? 0) then filemap_free p0 ;;~ filemap_free p1 ;;~ rret (inl e)
              else
                fd0 <~ pipe_end p0 n0 true ;;
                fd1 <~ pipe_end p1 n1 false ;;
                rret (inr (fd0, fd1))
          end
      end
  end.

(** ["pipe:r_"] and ["pipe:w_"]. *)
Definition pipe_device (readonly : bool) : list Z :=
  [112; 105; 112; 101; 58; (if readonly then 114 else 119); 95].

Definition file_mkfifo (name : list Z) (open_flags : Z) : R fstate Z :=
  let m := Z.land open_flags O_ACCMODE in
  if (m =? 0) || (m =? 1) then
    let readonly := m =? 0 in
    a <~ lift (filemap_alloc NO_FD) ;;
    match a with
    | inl e => rret e
    | inr p =>
        path <~ call (stradd (pipe_device readonly) name) ;;
        match path with
        | None => filemap_free p ;;~ rret (- E_NO_MEM)
        | Some path =>
            o <~ call (vfs_open path open_flags) ;;
            if negb (fst o =? 0) then filemap_free p ;;~ rret (fst o)
            else
              lift (update_file (fun f => set_mode readonly (negb readonly) (set_pos 0 (set_node (Some (snd o)) f))) p) ;;~
              lift (filemap_open p) ;;~
              f <~ lift (get_file p) ;;
              rret (ffd f)
        end
    end
  else rret (- E_INVAL).

(** ** [fs_struct]s (fs.c) *)

Definition fs_create : M fstate (option Z) :=
  s <- get ;;
  let a := default None (List.head (fmallocs s)) in
  put (mk_fstate (fss s) (cur_fs s) (vs s) (tail (fmallocs s))) ;;
  match a with
  | Some a => modify (upd_fss (<[a := mk_fs None ∅ 0]>)) ;; filemap_init a ;; ret (Some a)
  | None => ret None
  end.

(** The loop of [fs_destroy] from entry [i] on. *)
Fixpoint destroy_loop (n : nat) (a i : Z) : R fstate unit :=
  match n with
  | O => rret tt
  | S n =>
      f <~ lift (get_file (a, i)) ;;
      (if bool_decide (status f = FD_OPENED) then filemap_close (a, i) else rret tt) ;;~
      f <~ lift (get_file (a, i)) ;;
      lift (assert (bool_decide (status f = FD_NONE))) ;;~
      destroy_loop n a (i + 1)
  end.

Definition fs_destroy (a : Z) : R fstate unit :=
  x <~ lift (get_fs a) ;;
  lift (assert (fs_count x =? 0)) ;;~
  (match pwd x with Some n => call (vop_ref_dec n) | None => rret tt end) ;;~
  destroy_loop (Z.to_nat FS_STRUCT_NENTRY) a 0 ;;~
  lift (modify (upd_fss (delete a))).

Fixpoint closeall_loop (n : nat) (a i : Z) : R fstate unit :=
  match n with
  | O => rret tt
  | S n =>
      f <~ lift (get_file (a, i)) ;;
      (if bool_decide (status f = FD_OPENED) then filemap_close (a, i) else rret tt) ;;~
      closeall_loop n a (i + 1)
  end.

Definition fs_closeall (a : Z) : R fstate unit :=
  x <~ lift (get_fs a) ;;
  lift (assert (0 <? fs_count x)) ;;~
  closeall_loop (Z.to_nat (FS_STRUCT_NENTRY - 2)) a 2.

Fixpoint dup_loop (n : nat) (to from i : Z) : R fstate unit :=
  match n with
  | O => rret tt
  | S n =>
      f <~ lift (get_file (from, i)) ;;
      (if bool_decide (status f = FD_OPENED) then
         lift (update_file (set_status FD_INIT) (to, i)) ;;~ filemap_dup (to, i) (from, i)
       else rret tt) ;;~
      dup_loop n to from (i + 1)
  end.

Definition dup_fs (to from : Z) : R fstate Z :=
  t <~ lift (get_fs to) ;;
  f <~ lift (get_fs from) ;;
  lift (assert ((fs_count t =? 0) && (0 <? fs_count f))) ;;~
  lift (modify (upd_fss (alter (fun x => mk_fs (pwd f) (filemap x) (fs_count x)) to))) ;;~
  (match pwd f with Some n => call (vop_ref_inc n) | None => rret tt end) ;;~
  dup_loop (Z.to_nat FS_STRUCT_NENTRY) to from 0 ;;~
  rret 0.

(** ** System calls (sysfile.c), for user memory accessed through parameters *)

Section Sys.
Variables lock_mm unlock_mm : R fstate unit.
(** [copy_to_user] of the [n] bytes of the kernel buffer, [copy_from_user] into it. *)
Variable copy_to_user : Z -> Z -> M fstate bool.
Variable copy_from_user : Z -> Z -> M fstate bool.
Variable user_mem_check : Z -> Z -> bool -> M fstate bool.
(** [kmalloc(IOBUF_SIZE)]: the buffer. *)
Variable kmalloc_buf : M fstate (option Z).
Variable kfree_buf : Z -> M fstate unit.

Definition IOBUF_SIZE : Z := 4096.

(** The loop of [sysfile_read]: the last code and the bytes copied. *)
Fixpoint read_loop (fuel : nat) (fd base len copied buffer : Z) : R fstate (Z * Z) :=
  if len =? 0 then rret (0, copied)
  else
    match fuel with
    | O => lift out_of_fuel
    | S fuel =>
        r <~ file_read fd buffer (Z.min IOBUF_SIZE len) ;;
        let alen := snd r in
        if alen =? 0 then rret (fst r, copied)
        else
          lock_mm ;;~
          ok <~ lift (copy_to_user base alen) ;;
          lift (if ok : bool then assert (alen <=? len) else ret tt) ;;~
          unlock_mm ;;~
          let ret := if negb ok && (fst r =? 0) then - E_INVAL else fst r in
          let copied' := if ok : bool then copied + alen else copied in
          if negb (ret =? 0) then rret (ret, copied')
          else read_loop fuel fd (base + alen) (len - alen) copied' buffer
    end.

Definition sysfile_read (fuel : nat) (fd base len : Z) : R fstate Z :=
  if len =? 0 then rret 0
  else
    ok <~ lift (file_testfd fd true false) ;;
    if negb ok then rret (- E_INVAL)
    else
      b <~ lift kmalloc_buf ;;
      match b with
      | None => rret (- E_NO_MEM)
      | Some buffer =>
          r <~ read_loop fuel fd base len 0 buffer ;;
          lift (kfree_buf buffer) ;;~
          rret (if negb (snd r =? 0) then snd r else fst r)
      end.

(** The loop of [sysfile_write]. *)
Fixpoint write_loop (fuel : nat) (fd base len copied buffer : Z) : R fstate (Z * Z) :=
  if len =? 0 then rret (0, copied)
  else
    match fuel with
    | O => lift out_of_fuel
    | S fuel =>
        let alen := Z.min IOBUF_SIZE len in
        lock_mm ;;~
        ok <~ lift (copy_from_user base alen) ;;
        unlock_mm ;;~
        if negb ok then rret (- E_INVAL, copied)
        else
          r <~ file_write fd buffer alen ;;
          let alen := snd r in
          lift (if negb (alen =? 0) then assert (alen <=? len) else ret tt) ;;~
          if negb (fst r =? 0) || (alen =? 0) then rret (fst r, copied + alen)
          else write_loop fuel fd (base + alen) (len - alen) (copied + alen) buffer
    end.

Definition sysfile_write (fuel : nat) (fd base len : Z) : R fstate Z :=
  if len =? 0 then rret 0
  else
    ok <~ lift (file_testfd fd false true) ;;
    if negb ok then rret (- E_INVAL)
    else
      b <~ lift kmalloc_buf ;;
      match b with
      | None => rret (- E_NO_MEM)
      | Some buffer =>
          r <~ write_loop fuel fd base len 0 buffer ;;
          lift (kfree_buf buffer) ;;~
          rret (if negb (snd r =? 0) then snd r else fst r)
      end.

Definition sysfile_getcwd (buf len : Z) : R fstate Z :=
  if len =? 0 then rret (- E_INVAL)
  else
    lock_mm ;;~
    ok <~ lift (user_mem_check buf len true) ;;
    _ret <~ (if ok : bool then r <~ call (vfs_getcwd (iobuf_init buf len 0)) ;; rret (fst r)
             else rret (- E_INVAL)) ;;
    unlock_mm ;;~
    rret 0.

End Sys.

End Ops.

Arguments fstate V : clear implicits.

End File.
