(* ===== verification/FileInv.v ===== *)
(** * Open files: descriptors are allocated lowest first, are not freed while in
    use, and are closed once *)

From S2P Require Import Prelude Pipe File.
Import Pipe File.
Open Scope Z_scope.

Module FileInv.

Section Files.
Context {V : Type} {vfs : Vfs V}.
Implicit Types s : fstate V.

Definition file_at s (p : filep) (f : file) : Prop :=
  exists x, fss s !! fst p = Some x /\ filemap x !! snd p = Some f.

Definition set_file (g : file -> file) (p : filep) s : fstate V :=
  upd_fss (alter (set_filemap (alter g (snd p))) (fst p)) s.

Lemma file_at_fun s p f g : file_at s p f -> file_at s p g -> f = g.
Proof. intros (x & Hx & Hf) (y & Hy & Hg). congruence. Qed.

Lemma get_file_ok s p f : file_at s p f -> get_file p s = Ret (f, s).
Proof.
  intros (x & Hx & Hf). unfold get_file, get_fs, bind, get, deref. rewrite Hx. cbn. by rewrite Hf.
Qed.

Lemma update_file_ok s p f g : file_at s p f -> update_file g p s = Ret (tt, set_file g p s).
Proof. intros H. unfold update_file. by rewrite (bind_step _ _ _ _ _ (get_file_ok _ _ _ H)). Qed.

Lemma file_at_set s p f g : file_at s p f -> file_at (set_file g p s) p (g f).
Proof.
  intros (x & Hx & Hf). exists (set_filemap (alter g (snd p)) x). cbn.
  rewrite lookup_alter_eq, Hx, lookup_alter_eq, Hf. done.
Qed.

Lemma file_at_set_ne s p q f g : p <> q -> file_at s q f -> file_at (set_file g p s) q f.
Proof.
  intros Hne (x & Hx & Hf). unfold file_at. cbn. destruct (decide (fst p = fst q)) as [E|E].
  - exists (set_filemap (alter g (snd p)) x). rewrite E, lookup_alter_eq, Hx. split; [done|].
    cbn. rewrite lookup_alter_ne; [done|]. intros E2. apply Hne. destruct p, q; cbn in *; congruence.
  - exists x. by rewrite lookup_alter_ne.
Qed.

Lemma set_file_vs g p s : vs (set_file g p s) = vs s.
Proof. done. Qed.

Lemma set_file_twice g h p s : set_file h p (set_file g p s) = set_file (fun f => h (g f)) p s.
Proof.
  unfold set_file, upd_fss. cbn. f_equal. rewrite alter_alter_eq. apply alter_ext. intros x _. cbn.
  unfold set_filemap. cbn. by rewrite alter_alter_eq.
Qed.

(** ** Allocation *)

(** The running process's descriptors. *)
Record table s (a : Z) (m : gmap Z file) : Prop := {
  tb_cur : cur_fs s = a;
  tb_fs : exists x, fss s !! a = Some x /\ filemap x = m /\ 0 < fs_count x;
  tb_dom : forall fd, is_Some (m !! fd) <-> 0 <= fd < FS_STRUCT_NENTRY;
  tb_free : forall fd f, m !! fd = Some f -> status f = FD_NONE -> open_count f = 0
}.

Definition is_none (m : gmap Z file) (fd : Z) : Prop := status <$> m !! fd = Some FD_NONE.

Instance is_none_dec m fd : Decision (is_none m fd).
Proof. unfold is_none. apply _. Defined.

Lemma find_free_ok m : forall n fd,
  (forall i, fd <= i < fd + Z.of_nat n -> is_Some (m !! i)) ->
  match find_free n fd m with
  | Some i => fd <= i < fd + Z.of_nat n /\ is_none m i /\ forall j, fd <= j < i -> ~ is_none m j
  | None => forall j, fd <= j < fd + Z.of_nat n -> ~ is_none m j
  end.
Proof.
  induction n as [|n IH]; intros fd Hd; cbn [find_free]; [lia|].
  destruct (Hd fd) as [f Hf]; [lia|]. rewrite Hf. case_bool_decide as E.
  - split_and!; [lia|lia|unfold is_none; by rewrite Hf, <- E|lia].
  - assert (~ is_none m fd) as Hn by (unfold is_none; rewrite Hf; cbn; congruence).
    specialize (IH (fd + 1) ltac:(intros i ?; apply Hd; lia)).
    destruct (find_free n (fd + 1) m) as [i|].
    + destruct IH as (? & ? & Hlow). split_and!; [lia|lia|done|]. intros j Hj.
      destruct (decide (j = fd)) as [->|]; [done|]. apply Hlow. lia.
    + intros j Hj. destruct (decide (j = fd)) as [->|]; [done|]. apply IH. lia.
Qed.

Lemma table_file_at s a m fd f : table s a m -> m !! fd = Some f -> file_at s (a, fd) f.
Proof. intros [_ (x & Hx & <- & _) _ _] Hf. by exists x. Qed.

Lemma get_filemap_ok s a m : table s a m -> get_filemap s = Ret (a, s).
Proof.
  intros [Hc (x & Hx & _ & Hn) _ _]. unfold get_filemap. rewrite bind_get.
  unfold get_fs, bind at 2, get, deref, bind at 1. rewrite Hc, Hx. cbn.
  rewrite assert_true by (by apply Z.ltb_lt). done.
Qed.

Lemma filemap_found_ok s p f :
  file_at s p f -> open_count f = 0 ->
  filemap_found p s = Ret (inr p, set_file (fun f => set_node None (set_status FD_INIT f)) p s).
Proof.
  intros H Hc. unfold filemap_found. rewrite (bind_step _ _ _ _ _ (get_file_ok _ _ _ H)).
  rewrite assert_true by (by apply Z.eqb_eq). by rewrite (bind_step _ _ _ _ _ (update_file_ok _ _ _ _ H)).
Qed.

(** Asked for any descriptor, [filemap_alloc] reserves the lowest free one and
    changes nothing else, and answers [-E_MAX_OPEN] only when none is free; asked
    for a given one it reserves that one if it is free, and answers [-E_BUSY] if it
    is not and [-E_INVAL] if there is no such descriptor. *)
Theorem filemap_alloc_spec s a m fd :
  table s a m -> fd = NO_FD \/ 0 <= fd -> 
  let reserved i := set_file (fun f => set_node None (set_status FD_INIT f)) (a, i) s in
  if fd =? NO_FD then
    (exists i, filemap_alloc fd s = Ret (inr (a, i), reserved i) /\ is_none m i /\
       forall j, 0 <= j < i -> ~ is_none m j) \/
    (filemap_alloc fd s = Ret (inl (- E_MAX_OPEN), s) /\ forall j, ~ is_none m j)
  else if fd <? FS_STRUCT_NENTRY then
    if decide (is_none m fd) then filemap_alloc fd s = Ret (inr (a, fd), reserved fd)
    else filemap_alloc fd s = Ret (inl (- E_BUSY), s)
  else filemap_alloc fd s = Ret (inl (- E_INVAL), s).
Proof.
  intros Ht Hfd reserved. pose proof Ht as [Hc (x & Hx & Em & Hn) Hd Hf].
  unfold filemap_alloc. rewrite (bind_step _ _ _ _ _ (get_filemap_ok s a m Ht)).
  destruct (Z.eqb_spec fd NO_FD) as [->|Hne].
  - rewrite (bind_step (get_fs a) _ s x s) by (unfold get_fs; rewrite bind_get; by rewrite Hx).
    rewrite Em. pose proof (find_free_ok m (Z.to_nat FS_STRUCT_NENTRY) 0 ltac:(intros i Hi; apply Hd; lia)) as H.
    destruct (find_free _ 0 m) as [i|].
    + left. exists i. destruct H as (Hi & Hnone & Hlow). split_and!; [|done|done].
      apply fmap_Some in Hnone as (f & Hfi & Est). eapply filemap_found_ok; [by eapply table_file_at|by eapply Hf].
    + right. split; [done|]. intros j Hj. apply (H j); [|done].
      apply fmap_Some in Hj as (f & Hfj & _). assert (0 <= j < FS_STRUCT_NENTRY) by (apply Hd; by rewrite Hfj). lia.
  - destruct Hfd as [?|Hpos]; [done|]. unfold testfd. rewrite (proj2 (Z.leb_le _ _)) by done. cbn [andb].
    destruct (Z.ltb_spec fd FS_STRUCT_NENTRY) as [Hlt|]; [|done].
    destruct (proj2 (Hd fd)) as [f Hfd]; [lia|].
    rewrite (bind_step _ _ _ _ _ (get_file_ok _ _ _ (table_file_at s a m fd f Ht Hfd))).
    case_decide as Hnone; unfold is_none in Hnone; rewrite Hfd in Hnone; cbn in Hnone.
    + rewrite bool_decide_eq_true_2 by congruence.
      eapply filemap_found_ok; [by eapply table_file_at|]. eapply Hf; [done|congruence].
    + rewrite bool_decide_eq_false_2 by congruence. done.
Qed.

End Files.

(** ** The life of a descriptor *)

(** A file system that records the inodes it is told to close, without sleeping. *)
#[local] Instance log_vfs : Vfs (list Z) := {
  vfs_open := fun _ _ v => Ok (0, 1) v;
  vfs_close := fun n v => Ok tt (n :: v);
  vop_fstat := fun _ v => Ok (0, mk_stat 0 0 0 0) v;
  vop_read := fun _ i v => Ok (0, i) v;
  vop_write := fun _ i v => Ok (0, i) v;
  vop_tryseek := fun _ _ v => Ok 0 v;
  vop_fsync := fun _ v => Ok 0 v;
  vop_getdirentry := fun _ i v => Ok (0, i) v;
  vop_ref_inc := fun _ v => Ok tt v;
  vop_ref_dec := fun _ v => Ok tt v;
  vop_open_inc := fun _ v => Ok tt v;
  pipe_open := fun v => Ok (0, 1, 2) v;
  vfs_getcwd := fun i v => Ok (0, i) v;
  stradd := fun a b v => Ok (Some (a ++ b)) v
}.

Section Life.
Variable p : filep.

(** The state, the operations in progress on [p] (between acquire and release, so
    possibly asleep), and the opens so far. *)
Record life := mk_life { lst : fstate (list Z); pins : Z; opens : Z }.

Inductive lstep : life -> life -> Prop :=
| l_alloc c n s1 s' :
    (exists f, file_at (lst c) p f /\ status f = FD_NONE) ->
    filemap_found p (lst c) = Ret (inr p, s1) -> update_file (set_node (Some n)) p s1 = Ret (tt, s') ->
    lstep c (mk_life s' (pins c) (opens c))
| l_open c s' :
    filemap_open p (lst c) = Ret (tt, s') -> lstep c (mk_life s' (pins c) (opens c + 1))
| l_begin c s' :
    pins c < 2 ^ 30 ->
    filemap_acquire p (lst c) = Ret (tt, s') -> lstep c (mk_life s' (pins c + 1) (opens c))
| l_end c s' :
    0 < pins c -> filemap_release p (lst c) = Ok tt s' -> lstep c (mk_life s' (pins c - 1) (opens c))
| l_close c s' :
    filemap_close p (lst c) = Ok tt s' -> lstep c (mk_life s' (pins c) (opens c)).

Definition closes (c : life) : Z := Z.of_nat (length (vs (lst c))).

(** The count of a descriptor is its opener and the operations in progress. *)
Definition count_ok (f : file) (n : Z) : Prop :=
  match status f with
  | FD_NONE => open_count f = 0 /\ n = 0
  | FD_INIT => open_count f = 0 /\ n = 0 /\ node f <> None
  | FD_OPENED => open_count f = n + 1 /\ node f <> None
  | FD_CLOSED => open_count f = n /\ 0 < n /\ node f <> None
  end.

Definition in_use (f : file) : Z :=
  match status f with FD_OPENED | FD_CLOSED => 1 | _ => 0 end.

Record life_ok (c : life) : Prop := {
  lo_pins : 0 <= pins c <= 2 ^ 30;
  lo_file : exists f, file_at (lst c) p f /\ count_ok f (pins c) /\ opens c = closes c + in_use f
}.

(** What [filemap_free] does at a count of 0. *)
Lemma filemap_free_init (s : fstate (list Z)) f :
  file_at s p f -> status f = FD_CLOSED -> open_count f = 0 -> node f <> None ->
  exists n, node f = Some n /\
    filemap_free p s = Ok tt (set_file (set_status FD_NONE) p (set_vs (n :: vs s) s)).
Proof.
  intros Hf Hs Hc Hn. destruct (node f) as [n|] eqn:En; [|done]. exists n. split; [done|].
  unfold filemap_free. rstep get_file_ok; [|exact Hf].
  rewrite Hs. rewrite (rbind_lift _ _ s tt s) by done.
  rewrite (rbind_lift _ _ s tt s) by (by rewrite Hc). rewrite bool_decide_eq_true_2 by done.
  unfold rbind at 1. rewrite (rbind_lift _ _ s n s) by (by rewrite En).
  unfold call. cbn [vfs_close log_vfs vfs_res rthen].
  apply lift_Ret. by apply (update_file_ok _ p f).
Qed.

Lemma closed_free_ok (s : fstate (list Z)) f o :
  file_at s p f -> status f = FD_CLOSED -> open_count f = 0 -> node f <> None ->
  o = Z.of_nat (length (vs s)) + 1 ->
  exists s', filemap_free p s = Ok tt s' /\ life_ok (mk_life s' 0 o).
Proof.
  intros Hf Hs Hc Hn Ho. destruct (filemap_free_init s f Hf Hs Hc Hn) as (n & _ & Hrun).
  eexists. split; [exact Hrun|]. constructor; cbn; [lia|].
  exists (set_status FD_NONE f). split; [|split; [by split|]].
  - apply (file_at_set (set_vs (n :: vs s) s)). exact Hf.
  - unfold closes, in_use. cbn. lia.
Qed.

Lemma release_ok c :
  life_ok c -> 0 < pins c ->
  exists s', filemap_release p (lst c) = Ok tt s' /\ life_ok (mk_life s' (pins c - 1) (opens c)).
Proof.
  destruct c as [s n o]. intros [Hp (f & Hf & Hc & Ho)] Hpos. cbn [lst pins opens] in *.
  unfold filemap_release. rstep get_file_ok; [|exact Hf].
  set (g := fun f => set_open_count (open_count f - 1) f).
  pose proof (file_at_set s p f g Hf) as Hf1. unfold count_ok in Hc. unfold closes in Ho. cbn [lst] in Ho.
  destruct (status f) eqn:Es; [lia|lia|..];
    (rewrite (rbind_lift _ _ s tt s) by done);
    (rewrite (rbind_lift _ _ s tt s) by (rewrite (proj2 (Z.ltb_lt _ _)) by lia; done));
    (rstep update_file_ok; [|exact Hf]); (rstep get_file_ok; [|exact Hf1]).
  - destruct Hc as [Hc Hn]. rewrite (proj2 (Z.eqb_neq _ _)) by (cbn; lia).
    eexists. split; [reflexivity|]. constructor; cbn [pins lst opens]; [lia|]. exists (g f).
    split_and!; [done| |].
    + unfold count_ok. cbn. rewrite Es. split; [lia|done].
    + unfold closes, in_use in *. cbn. rewrite Es in *. done.
  - destruct Hc as (Hc & _ & Hn). cbn [open_count g set_open_count].
    unfold in_use in Ho. rewrite Es in Ho.
    destruct (Z.eqb_spec (open_count f - 1) 0) as [Ez|Ez].
    + replace (n - 1) with 0 by lia. by apply (closed_free_ok (set_file g p s) (g f)).
    + eexists. split; [reflexivity|]. constructor; cbn [pins lst opens]; [lia|]. exists (g f).
      split_and!; [done| |].
      * unfold count_ok. cbn. rewrite Es. split_and!; [lia|lia|done].
      * unfold closes, in_use. cbn. by rewrite Es.
Qed.

Lemma close_ok c f :
  life_ok c -> file_at (lst c) p f -> status f = FD_OPENED ->
  exists s', filemap_close p (lst c) = Ok tt s' /\ life_ok (mk_life s' (pins c) (opens c)).
Proof.
  destruct c as [s n o]. intros [Hp (f' & Hf' & Hc & Ho)] Hf Es. cbn [lst pins opens] in *.
  assert (f' = f) as -> by (by eapply file_at_fun). clear Hf'.
  unfold count_ok in Hc. rewrite Es in Hc. destruct Hc as [Hc Hn].
  unfold closes, in_use in Ho. cbn [lst] in Ho. rewrite Es in Ho.
  unfold filemap_close. rstep get_file_ok; [|exact Hf].
  rewrite (rbind_lift _ _ s tt s) by (by rewrite Es).
  rewrite (rbind_lift _ _ s tt s) by (rewrite (proj2 (Z.ltb_lt _ _)) by lia; done).
  rstep update_file_ok; [|exact Hf].
  pose proof (file_at_set s p f (set_status FD_CLOSED) Hf) as Hf1.
  rstep update_file_ok; [|exact Hf1]. rewrite set_file_twice.
  set (g := fun f => set_open_count (open_count (set_status FD_CLOSED f) - 1) (set_status FD_CLOSED f)).
  pose proof (file_at_set s p f g Hf) as Hf2. rstep get_file_ok; [|exact Hf2].
  cbn [open_count g set_open_count set_status].
  destruct (Z.eqb_spec (open_count f - 1) 0) as [Ez|Ez].
  - replace n with 0 by lia. by apply (closed_free_ok (set_file g p s) (g f)).
  - eexists. split; [reflexivity|]. constructor; cbn [pins lst opens]; [lia|]. exists (g f).
    split_and!; [done| |].
    + unfold count_ok. cbn. split_and!; [lia|lia|done].
    + unfold closes, in_use. cbn. done.
Qed.

Lemma assert_inv {B} (k : unit -> M (fstate (list Z)) B) b s r :
  bind (assert b) k s = Ret r -> b = true /\ k tt s = Ret r.
Proof. intros H. by destruct b. Qed.

Lemma open_step c s' :
  life_ok c -> filemap_open p (lst c) = Ret (tt, s') -> life_ok (mk_life s' (pins c) (opens c + 1)).
Proof.
  destruct c as [s n o]. intros [Hp (f & Hf & Hc & Ho)] Hrun. cbn [lst pins opens] in *.
  unfold filemap_open in Hrun. rewrite (bind_step _ _ _ _ _ (get_file_ok _ _ _ Hf)) in Hrun.
  apply assert_inv in Hrun as [[Es%bool_decide_eq_true Hn%bool_decide_eq_true]%andb_true_iff Hrun].
  pose proof (file_at_set s p f (set_status FD_OPENED) Hf) as Hf1.
  rewrite (bind_step _ _ _ _ _ (update_file_ok _ _ _ _ Hf)), (update_file_ok _ _ _ _ Hf1) in Hrun.
  injection Hrun as <-. rewrite set_file_twice. unfold count_ok in Hc. rewrite Es in Hc.
  destruct Hc as (Hc & -> & _). unfold closes, in_use in Ho. rewrite Es in Ho. cbn in Ho.
  constructor; cbn [lst pins opens]; [lia|]. eexists. split; [by apply file_at_set|]. split.
  - unfold count_ok. cbn. rewrite s32_small by (unfold is_s32; lia). split; [lia|done].
  - unfold closes, in_use. cbn. lia.
Qed.

Lemma begin_step c s' :
  life_ok c -> pins c < 2 ^ 30 -> filemap_acquire p (lst c) = Ret (tt, s') ->
  life_ok (mk_life s' (pins c + 1) (opens c)).
Proof.
  destruct c as [s n o]. intros [Hp (f & Hf & Hc & Ho)] Hlt Hrun. cbn [lst pins opens] in *.
  unfold filemap_acquire in Hrun. rewrite (bind_step _ _ _ _ _ (get_file_ok _ _ _ Hf)) in Hrun.
  apply assert_inv in Hrun as [Es%bool_decide_eq_true Hrun].
  rewrite (update_file_ok _ _ _ _ Hf) in Hrun. injection Hrun as <-.
  unfold count_ok in Hc. rewrite Es in Hc. destruct Hc as [Hc Hn].
  constructor; cbn [lst pins opens]; [lia|]. eexists. split; [by apply file_at_set|]. split.
  - unfold count_ok. cbn. rewrite Es, s32_small by (unfold is_s32; lia). split; [lia|done].
  - unfold closes, in_use in *. cbn in *. by rewrite Es in *.
Qed.

Lemma alloc_step c n s1 s' f :
  life_ok c -> file_at (lst c) p f -> status f = FD_NONE ->
  filemap_found p (lst c) = Ret (inr p, s1) -> update_file (set_node (Some n)) p s1 = Ret (tt, s') ->
  life_ok (mk_life s' (pins c) (opens c)).
Proof.
  destruct c as [s k o]. intros [Hp (f' & Hf' & Hc & Ho)] Hf Es Hrun Hrun2. cbn [lst pins opens] in *.
  assert (f' = f) as -> by (by eapply file_at_fun). unfold count_ok in Hc. rewrite Es in Hc.
  destruct Hc as [Hc ->]. rewrite (filemap_found_ok s p f Hf Hc) in Hrun. injection Hrun as <-.
  rewrite (update_file_ok _ _ _ _ (file_at_set _ _ _ _ Hf)), set_file_twice in Hrun2. injection Hrun2 as <-.
  constructor; cbn [lst pins opens]; [lia|]. eexists. split; [by apply file_at_set|]. split.
  - unfold count_ok. cbn. by split_and!.
  - unfold closes, in_use in *. rewrite Es in Ho. cbn in *. lia.
Qed.

Lemma lstep_ok c c' : life_ok c -> lstep c c' -> life_ok c'.
Proof.
  intros Ho Hs. destruct Hs as [c n s1 s' (f & Hf & Es) H1 H2|c s' H|c s' Hlt H|c s' Hpos H|c s' H].
  - by eapply alloc_step.
  - by apply open_step.
  - by apply begin_step.
  - destruct (release_ok c Ho Hpos) as (s2 & H2 & Ho2). rewrite H in H2. by injection H2 as <-.
  - pose proof Ho as [_ (f & Hf & _)].
    assert (status f = FD_OPENED) as Es.
    { unfold filemap_close, rbind at 1, lift at 1 in H. rewrite (get_file_ok _ _ _ Hf) in H. cbn [rthen] in H.
      destruct (decide (status f = FD_OPENED)) as [E|E]; [done|].
      rewrite bool_decide_eq_false_2 in H by done. done. }
    destruct (close_ok c f Ho Hf Es) as (s2 & H2 & Ho2). rewrite H in H2. by injection H2 as <-.
Qed.

(** C35: over any sequence of openings, operations and a close on a descriptor,
    in any order and with any number of operations in progress at once, the
    descriptor is not freed, and its inode is not closed, while an operation is in
    progress; when none is and it is not open, its inode has been closed exactly
    once per opening.  A release, and a close of an open descriptor, never fail an
    assertion.  The file system below is one whose [vfs_close] does not sleep. *)
Theorem file_lifecycle c0 c :
  (exists f, file_at (lst c0) p f /\ status f = FD_NONE /\ open_count f = 0) ->
  pins c0 = 0 -> opens c0 = closes c0 -> rtc lstep c0 c ->
  exists f, file_at (lst c) p f /\
    (0 < pins c -> (status f = FD_OPENED \/ status f = FD_CLOSED) /\ node f <> None /\
       opens c = closes c + 1 /\ exists s', filemap_release p (lst c) = Ok tt s') /\
    (pins c = 0 -> status f <> FD_OPENED -> status f <> FD_CLOSED /\ opens c = closes c) /\
    (status f = FD_OPENED -> exists s', filemap_close p (lst c) = Ok tt s').
Proof.
  intros (f0 & Hf0 & Es0 & Hc0) Hp0 Ho0 Hrtc.
  assert (life_ok c0) as Hok.
  { constructor; [lia|]. exists f0. split_and!; [done| |].
    - unfold count_ok. by rewrite Es0.
    - unfold in_use. rewrite Es0. lia. }
  assert (life_ok c) as Hc by (clear -Hok Hrtc; induction Hrtc; eauto using lstep_ok).
  pose proof Hc as [Hp (f & Hf & Hcnt & Ho)]. exists f. unfold count_ok, in_use in *. split_and!; [done|..].
  - intros Hpos. destruct (release_ok c Hc Hpos) as (s' & Hrun & _).
    destruct (status f); try lia; split_and!; try tauto; by exists s'.
  - intros Hz Hne. destruct (status f); try done; split; try done; lia.
  - intros Es. destruct (close_ok c f Hc Hf Es) as (s' & Hrun & _). by exists s'.
Qed.

End Life.

(** ** [sysfile_getcwd] *)

(** [sysfile_getcwd] discards the result of [vfs_getcwd] and of the check of
    the user's buffer: for a buffer length other than 0 it returns 0, success,
    also when the buffer is not writable or the path does not fit. *)
Theorem sysfile_getcwd_ignores_errors {V} `{!Vfs V} (s : fstate V) (buf len e : Z) i v :
  len <> 0 -> vfs_getcwd (iobuf_init buf len 0) (vs s) = Ok (e, i) v ->
  (exists s', sysfile_getcwd (rret tt) (rret tt) (fun _ _ _ => ret true) buf len s = Ok 0 s') /\
  (exists s', sysfile_getcwd (rret tt) (rret tt) (fun _ _ _ => ret false) buf len s = Ok 0 s').
Proof.
  intros Hl Hg. unfold sysfile_getcwd. rewrite (proj2 (Z.eqb_neq _ _) Hl). split.
  - rewrite rbind_rret, (rbind_lift _ _ s true s) by done. unfold rbind, call. cbn. rewrite Hg. by eexists.
  - rewrite rbind_rret, (rbind_lift _ _ s false s) by done. by eexists.
Qed.

(** ** On concrete states *)

Definition ex_files : fstate (list Z) :=
  mk_fstate {[1 := mk_fs None (array FS_STRUCT_NENTRY (fun fd =>
      mk_file (if fd <? 3 then FD_OPENED else FD_NONE) true true fd 0 (Some 9)
        (if fd <? 3 then 1 else 0))) 1]} 1 [] [].

Lemma ex_table : exists m, table ex_files 1 m /\ is_none m 3.
Proof.
  eexists. split; [constructor|].
  - reflexivity.
  - eexists. split; [reflexivity|]. split; [reflexivity|]. cbn. lia.
  - intros fd. split.
    + intros [f Hf]. by apply array_lookup in Hf as [? _].
    + intros H. eexists. by apply array_lookup.
  - intros fd f Hf. apply array_lookup in Hf as [_ ->]. cbn. by destruct (fd <? 3).
  - unfold is_none. apply fmap_Some. eexists. split; [apply array_lookup; split; [|reflexivity]|done].
    change FS_STRUCT_NENTRY with 145. lia.
Qed.

Lemma filemap_alloc_spec_witness :
  exists i s', filemap_alloc NO_FD ex_files = Ret (inr (1, i), s').
Proof.
  destruct ex_table as (m & Ht & Hn).
  pose proof (filemap_alloc_spec ex_files 1 m NO_FD Ht (or_introl eq_refl)) as H.
  cbn [Z.eqb] in H. rewrite Z.eqb_refl in H. destruct H as [(i & Hrun & _)|[_ Hno]].
  - exists i. by eexists.
  - by apply Hno in Hn.
Defined.

Definition ex_life : life := mk_life ex_files 0 0.

(** Descriptor 5 is reserved, opened on inode 8, and an operation begins on it. *)
Definition state_of {A} (o : outcome (A * fstate (list Z))) : fstate (list Z) :=
  match o with Ret (_, s) => s | _ => ex_files end.
Definition ex_s1 : fstate (list Z) := state_of (filemap_found (1, 5) ex_files).
Definition ex_s2 : fstate (list Z) := state_of (update_file (set_node (Some 8)) (1, 5) ex_s1).
Definition ex_s3 : fstate (list Z) := state_of (filemap_open (1, 5) ex_s2).
Definition ex_s4 : fstate (list Z) := state_of (filemap_acquire (1, 5) ex_s3).

Lemma ex_at_5 : exists f, file_at ex_files (1, 5) f /\ status f = FD_NONE /\ open_count f = 0.
Proof.
  exists (mk_file FD_NONE true true 5 0 (Some 9) 0). split; [|by split].
  eexists. split; [reflexivity|]. apply array_lookup. split; [|reflexivity].
  change (0 <= 5 < 145). lia.
Qed.

Lemma ex_life_run : rtc (lstep (1, 5)) ex_life (mk_life ex_s4 1 1).
Proof.
  eapply rtc_l; [apply (l_alloc _ ex_life 8 ex_s1 ex_s2)|].
  - destruct ex_at_5 as (f & ? & ? & _). by exists f.
  - vm_compute. reflexivity.
  - vm_compute. reflexivity.
  - eapply rtc_l; [apply (l_open _ _ ex_s3); vm_compute; reflexivity|].
    apply rtc_once. apply (l_begin _ (mk_life ex_s3 0 1) ex_s4); [cbn; lia|vm_compute; reflexivity].
Qed.

Lemma file_lifecycle_witness :
  exists f, file_at ex_s4 (1, 5) f /\ (status f = FD_OPENED \/ status f = FD_CLOSED).
Proof.
  destruct (file_lifecycle (1, 5) ex_life (mk_life ex_s4 1 1)) as (f & Hf & H & _).
  - exact ex_at_5.
  - reflexivity.
  - reflexivity.
  - exact ex_life_run.
  - exists f. split; [exact Hf|]. apply H. cbn. lia.
Defined.

Lemma sysfile_getcwd_ignores_errors_witness :
  exists s', sysfile_getcwd (rret tt) (rret tt) (fun _ _ _ => ret false) 100 10 ex_files = Ok 0 s'.
Proof.
  apply (sysfile_getcwd_ignores_errors ex_files 100 10 0 (iobuf_init 100 10 0) []).
  - lia.
  - reflexivity.
Defined.

End FileInv.
