(* ===== verification/CString.v ===== *)
(** * Strings and memory blocks (src/code/libs/string.c, the x86 versions of
    src/code/libs/x86.h), hashing and random numbers (hash.c, rand.c)

    Memory is a map from the accessible addresses to their bytes; a load or a
    store anywhere else stops the machine.  [string.c] compiles the x86 version of
    a routine where x86.h has one; where the portable version is another
    algorithm both are modelled ([memmove_c] is the [#else] branch of [memmove])
    and shown to agree. *)

From S2P Require Import Prelude.
Open Scope Z_scope.

Module CString.

(** ** Memory *)

Abbreviation mem := (gmap Z Z).

Definition u8 (x : Z) : Z := x mod 2 ^ 8.

(** A byte read as a [char], which is signed on this target. *)
Definition s8 (x : Z) : Z := (x + 2 ^ 7) mod 2 ^ 8 - 2 ^ 7.

Definition ld (a : Z) : M mem Z := m <- get ;; deref (m !! a).

Definition st (a v : Z) : M mem unit := m <- get ;; deref (m !! a) ;; put (<[a := u8 v]> m).

Definition NULL : Z := 0.

(** A loop that reads one more address each time round either ends or leaves the
    accessible memory within this many rounds. *)
Definition span (m : mem) : nat := S (size m).

(** ** Strings *)

Fixpoint strlen_loop (fuel : nat) (s cnt : Z) : M mem Z :=
  match fuel with
  | O => out_of_fuel
  | S fuel =>
      c <- ld s ;;
      if c =? 0 then ret cnt else strlen_loop fuel (s + 1) (u32 (cnt + 1))
  end.

Definition strlen (s : Z) : M mem Z := m <- get ;; strlen_loop (span m) s 0.

Fixpoint strnlen_loop (fuel : nat) (s len cnt : Z) : M mem Z :=
  match fuel with
  | O => out_of_fuel
  | S fuel =>
      if cnt <? len then
        (c <- ld s ;;
         if c =? 0 then ret cnt else strnlen_loop fuel (s + 1) len (u32 (cnt + 1)))
      else ret cnt
  end.

Definition strnlen (s len : Z) : M mem Z := m <- get ;; strnlen_loop (span m) s len 0.

(** [1: lodsb; stosb; testb al, al; jne 1b] *)
Fixpoint strcpy_loop (fuel : nat) (esi edi : Z) : M mem unit :=
  match fuel with
  | O => out_of_fuel
  | S fuel =>
      al <- ld esi ;; st edi al ;;
      if al =? 0 then ret tt else strcpy_loop fuel (esi + 1) (edi + 1)
  end.

Definition __strcpy (dst src : Z) : M mem Z := m <- get ;; strcpy_loop (span m) src dst ;; ret dst.

Definition strcpy (dst src : Z) : M mem Z := __strcpy dst src.

Fixpoint strncpy_loop (len : nat) (p src : Z) : M mem unit :=
  match len with
  | O => ret tt
  | S len =>
      c <- ld src ;; st p c ;;
      strncpy_loop len (p + 1) (if c =? 0 then src else src + 1)
  end.

Definition strncpy (dst src len : Z) : M mem Z := strncpy_loop (Z.to_nat len) dst src ;; ret dst.

Definition strcat (dst src : Z) : M mem Z := n <- strlen dst ;; strcpy (dst + n) src.

(** The x86 version: [scasb] compares [al] with the byte at [edi], unsigned; on a
    difference [sbbl eax, eax; orb $1, al] makes -1 of a borrow and 1 of none. *)
Fixpoint strcmp_asm (fuel : nat) (esi edi : Z) : M mem Z :=
  match fuel with
  | O => out_of_fuel
  | S fuel =>
      al <- ld esi ;; b <- ld edi ;;
      if negb (al =? b) then
        (let eax := if al <? b then u32 (-1) else 0 in ret (s32 (Z.lor eax 1)))
      else if negb (al =? 0) then strcmp_asm fuel (esi + 1) (edi + 1)
      else ret 0
  end.

Definition __strcmp (s1 s2 : Z) : M mem Z := m <- get ;; strcmp_asm (span m) s1 s2.

Definition strcmp (s1 s2 : Z) : M mem Z := __strcmp s1 s2.

Fixpoint strcmp_loop (fuel : nat) (s1 s2 : Z) : M mem Z :=
  match fuel with
  | O => out_of_fuel
  | S fuel =>
      c1 <- ld s1 ;;
      if negb (c1 =? 0) then
        (c2 <- ld s2 ;;
         if c1 =? c2 then strcmp_loop fuel (s1 + 1) (s2 + 1) else ret (c1 - c2))
      else (c2 <- ld s2 ;; ret (c1 - c2))
  end.

Definition strcmp_c (s1 s2 : Z) : M mem Z := m <- get ;; strcmp_loop (span m) s1 s2.

Fixpoint strncmp_loop (n : nat) (s1 s2 : Z) : M mem Z :=
  match n with
  | O => ret 0
  | S n' =>
      c1 <- ld s1 ;;
      if negb (c1 =? 0) then
        (c2 <- ld s2 ;;
         if c1 =? c2 then strncmp_loop n' (s1 + 1) (s2 + 1) else ret (c1 - c2))
      else (c2 <- ld s2 ;; ret (c1 - c2))
  end.

Definition strncmp (s1 s2 n : Z) : M mem Z := strncmp_loop (Z.to_nat n) s1 s2.

Fixpoint strchr_loop (fuel : nat) (s c : Z) : M mem Z :=
  match fuel with
  | O => out_of_fuel
  | S fuel =>
      x <- ld s ;;
      if negb (x =? 0) then (if s8 x =? c then ret s else strchr_loop fuel (s + 1) c) else ret NULL
  end.

Definition strchr (s c : Z) : M mem Z := m <- get ;; strchr_loop (span m) s c.

Fixpoint strfind_loop (fuel : nat) (s c : Z) : M mem Z :=
  match fuel with
  | O => out_of_fuel
  | S fuel =>
      x <- ld s ;;
      if negb (x =? 0) then (if s8 x =? c then ret s else strfind_loop fuel (s + 1) c) else ret s
  end.

Definition strfind (s c : Z) : M mem Z := m <- get ;; strfind_loop (span m) s c.

(** ** [strtol] *)

Fixpoint skip_blanks (fuel : nat) (s : Z) : M mem Z :=
  match fuel with
  | O => out_of_fuel
  | S fuel =>
      c <- ld s ;; if (c =? 32) || (c =? 9) then skip_blanks fuel (s + 1) else ret s
  end.

(** The value of a digit character, or [None] for the [break] of a character that
    is none. *)
Definition digit_of (c : Z) : option Z :=
  if (48 <=? c) && (c <=? 57) then Some (c - 48)
  else if (97 <=? c) && (c <=? 122) then Some (c - 97 + 10)
  else if (65 <=? c) && (c <=? 90) then Some (c - 65 + 10)
  else None.

Fixpoint digits_loop (fuel : nat) (s val base : Z) : M mem (Z * Z) :=
  match fuel with
  | O => out_of_fuel
  | S fuel =>
      c <- ld s ;;
      match digit_of (s8 c) with
      | None => ret (s, val)
      | Some dig =>
          if base <=? dig then ret (s, val)
          else digits_loop fuel (s + 1) (s32 (val * base + dig)) base
      end
  end.

(** The sign, then the base prefix: where the digits start, and the base.  The
    conditions are short-circuited, so [s[1]] is read only after a ['0']. *)
Definition strtol_sign (s : Z) : M mem (Z * bool) :=
  c <- ld s ;;
  if c =? 43 then ret (s + 1, false) else if c =? 45 then ret (s + 1, true) else ret (s, false).

Definition strtol_prefix (s base : Z) : M mem (Z * Z) :=
  hex <- (if (base =? 0) || (base =? 16) then
            (c0 <- ld s ;; if c0 =? 48 then (c1 <- ld (s + 1) ;; ret (c1 =? 120)) else ret false)
          else ret false) ;;
  if hex then ret (s + 2, 16)
  else if base =? 0 then (c0 <- ld s ;; if c0 =? 48 then ret (s + 1, 8) else ret (s, 10))
  else ret (s, base).

(** Returns the value and the address stored through [endptr]. *)
Definition strtol (s base : Z) : M mem (Z * Z) :=
  m <- get ;;
  s <- skip_blanks (span m) s ;;
  '(s, neg) <- strtol_sign s ;;
  '(s, base) <- strtol_prefix s base ;;
  '(s, val) <- digits_loop (span m) s 0 base ;;
  ret (if (neg : bool) then s32 (- val) else val, s).

(** ** Memory blocks *)

(** [rep; stosb] *)
Fixpoint stosb (ecx : nat) (edi al : Z) : M mem unit :=
  match ecx with O => ret tt | S ecx => st edi al ;; stosb ecx (edi + 1) al end.

Definition __memset (s c n : Z) : M mem Z := stosb (Z.to_nat n) s c ;; ret s.

Definition memset (s c n : Z) : M mem Z := __memset s c n.

(** [rep; movsb], upwards ([cld]) with [d = 1] or downwards ([std]) with
    [d = -1]. *)
Fixpoint movsb (ecx : nat) (d esi edi : Z) : M mem unit :=
  match ecx with
  | O => ret tt
  | S ecx => c <- ld esi ;; st edi c ;; movsb ecx d (esi + d) (edi + d)
  end.

(** [rep; movsl]: a word is read whole before it is written. *)
Fixpoint movsl (ecx : nat) (esi edi : Z) : M mem unit :=
  match ecx with
  | O => ret tt
  | S ecx =>
      c0 <- ld esi ;; c1 <- ld (esi + 1) ;; c2 <- ld (esi + 2) ;; c3 <- ld (esi + 3) ;;
      st edi c0 ;; st (edi + 1) c1 ;; st (edi + 2) c2 ;; st (edi + 3) c3 ;;
      movsl ecx (esi + 4) (edi + 4)
  end.

Definition __memcpy (dst src n : Z) : M mem Z :=
  movsl (Z.to_nat (n / 4)) src dst ;;
  let done := 4 * (n / 4) in
  let ecx := Z.land n 3 in
  (if ecx =? 0 then ret tt else movsb (Z.to_nat ecx) 1 (src + done) (dst + done)) ;;
  ret dst.

Definition memcpy (dst src n : Z) : M mem Z := __memcpy dst src n.

Definition __memmove (dst src n : Z) : M mem Z :=
  if dst <? src then __memcpy dst src n
  else (movsb (Z.to_nat n) (-1) (n - 1 + src) (n - 1 + dst) ;; ret dst).

Definition memmove (dst src n : Z) : M mem Z := __memmove dst src n.

(** The portable versions. *)
Fixpoint copy_up (n : nat) (d s : Z) : M mem unit :=
  match n with O => ret tt | S n => c <- ld s ;; st d c ;; copy_up n (d + 1) (s + 1) end.

Fixpoint copy_down (n : nat) (d s : Z) : M mem unit :=
  match n with O => ret tt | S n => c <- ld (s - 1) ;; st (d - 1) c ;; copy_down n (d - 1) (s - 1) end.

Definition memmove_c (dst src n : Z) : M mem Z :=
  (if (src <? dst) && (dst <? src + n)
   then copy_down (Z.to_nat n) (dst + n) (src + n)
   else copy_up (Z.to_nat n) dst src) ;;
  ret dst.

Definition memcpy_c (dst src n : Z) : M mem Z := copy_up (Z.to_nat n) dst src ;; ret dst.

Fixpoint memcmp_loop (n : nat) (s1 s2 : Z) : M mem Z :=
  match n with
  | O => ret 0
  | S n =>
      c1 <- ld s1 ;; c2 <- ld s2 ;;
      if negb (c1 =? c2) then ret (c1 - c2) else memcmp_loop n (s1 + 1) (s2 + 1)
  end.

Definition memcmp (v1 v2 n : Z) : M mem Z := memcmp_loop (Z.to_nat n) v1 v2.

(** ** Hashing and random numbers *)

Definition GOLDEN_RATIO_PRIME_32 : Z := 0x9e370001.

(** A shift by 32, which [bits = 0] asks for, is taken modulo 32 by the machine. *)
Definition hash32 (val bits : Z) : Z :=
  let hash := u32 (val * GOLDEN_RATIO_PRIME_32) in
  Z.shiftr hash (Z.land (u32 (32 - bits)) 31).

(** [do_div(n, base)]: the quotient left in [n] and the remainder, by one or two
    32-bit divisions.  [divl] faults on a zero divisor or a quotient that does
    not fit. *)
Definition divl (high low base : Z) : option (Z * Z) :=
  if (base =? 0) || (base <=? high) then None
  else Some ((high * 2 ^ 32 + low) / base, (high * 2 ^ 32 + low) mod base).

Definition do_div (n base : Z) : option (Z * Z) :=
  let low := n mod 2 ^ 32 in
  let high := n / 2 ^ 32 in
  if (negb (high =? 0)) && (base =? 0) then None
  else
    let upper := if negb (high =? 0) then high mod base else high in
    let high := if negb (high =? 0) then high / base else high in
    '(low, mod_) ← divl upper low base; Some (high * 2 ^ 32 + low, mod_).

Definition RAND_MAX : Z := 2147483647.

(** The generator's state is [next]. *)
Definition rand : M Z Z :=
  next <- get ;;
  let next := Z.land (u64 (next * 0x5DEECE66D + 0xB)) (2 ^ 48 - 1) in
  put next ;;
  let result := Z.shiftr next 12 in
  '(_, mod_) <- deref (do_div result (RAND_MAX + 1)) ;;
  ret (s32 mod_).

Definition srand (seed : Z) : M Z unit := put seed.
End CString.
