(* ===== verification/CStringInv.v ===== *)
(** * Strings and memory blocks: block moves with overlap, string routines on
    NUL-terminated strings, 64-bit division, random numbers *)

From S2P Require Import Prelude CString.
Import CString.
Open Scope Z_scope.

Module CStringInv.

(** ** Memory that holds bytes *)

Definition bytes (m : mem) : Prop := map_Forall (fun _ v => 0 <= v < 256) m.

(** [n] accessible bytes from [a]. *)
Definition accessible (m : mem) (a n : Z) : Prop := forall i, 0 <= i < n -> is_Some (m !! (a + i)).

Lemma u8_small v : 0 <= v < 256 -> u8 v = v.
Proof. intros. unfold u8. apply Z.mod_small. lia. Qed.

Lemma ld_ok (m : mem) a v : m !! a = Some v -> ld a m = Ret (v, m).
Proof. unfold ld, bind, get, deref. by intros ->. Qed.

Lemma st_byte (m : mem) a v : is_Some (m !! a) -> st a v m = Ret (tt, <[a := u8 v]> m).
Proof. intros [w Hw]. unfold st, bind, get, deref. by rewrite Hw. Qed.

Lemma st_ok (m : mem) a v :
  is_Some (m !! a) -> 0 <= v < 256 -> st a v m = Ret (tt, <[a := v]> m).
Proof. intros Hw Hv. by rewrite st_byte, u8_small. Qed.

(** The bytes [l] at [a]; a NUL-terminated string. *)
Fixpoint bytes_at (m : mem) (a : Z) (l : list Z) : Prop :=
  match l with [] => True | x :: l => m !! a = Some x /\ bytes_at m (a + 1) l end.

Definition cstr (m : mem) (a : Z) (l : list Z) : Prop :=
  Forall (fun c => 0 < c < 256) l /\ bytes_at m a (l ++ [0]).

Lemma bytes_at_app m a l1 l2 :
  bytes_at m a (l1 ++ l2) <-> bytes_at m a l1 /\ bytes_at m (a + Z.of_nat (length l1)) l2.
Proof.
  revert a. induction l1 as [|x l1 IH]; intros a; cbn [app bytes_at length].
  - rewrite Z.add_0_r. tauto.
  - rewrite IH. replace (a + 1 + Z.of_nat (length l1)) with (a + Z.of_nat (S (length l1))) by lia. tauto.
Qed.

Lemma bytes_at_lookup m a l i x : bytes_at m a l -> l !! i = Some x -> m !! (a + Z.of_nat i) = Some x.
Proof.
  revert a i. induction l as [|y l IH]; intros a i Hl Hi; [done|]. destruct Hl as [Hy Hl].
  destruct i as [|i]; cbn in Hi; [injection Hi as ->; by rewrite Z.add_0_r|].
  replace (a + Z.of_nat (S i)) with (a + 1 + Z.of_nat i) by lia. by apply IH.
Qed.

Lemma bytes_at_accessible m a l : bytes_at m a l -> accessible m a (Z.of_nat (length l)).
Proof.
  intros H i Hi. destruct (lookup_lt_is_Some_2 l (Z.to_nat i)) as [x Hx]; [lia|].
  rewrite <- (Z2Nat.id i) by lia. rewrite (bytes_at_lookup _ _ _ _ _ H Hx). done.
Qed.

(** ** Fuel: a loop that walks through memory *)

Lemma accessible_size m a n : accessible m a n -> n <= Z.of_nat (size m).
Proof.
  intros H. destruct (Z.le_gt_cases n 0) as [|Hn]; [lia|].
  assert (Hs : (list_to_set (seqZ a n) : gset Z) ⊆ dom m).
  { intros k Hk%elem_of_list_to_set%elem_of_seqZ. apply elem_of_dom.
    replace k with (a + (k - a)) by lia. apply H. lia. }
  apply subseteq_size in Hs. rewrite size_list_to_set in Hs by apply NoDup_seqZ.
  rewrite length_seqZ, size_dom in Hs. lia.
Qed.

(** [room c f m p]: a loop at [p] that has only walked through accessible memory has
    more than [c] rounds of fuel left. *)
Definition room (c f : nat) (m : mem) (p : Z) : Prop :=
  exists k, 0 <= k /\ accessible m (p - k) k /\ Z.of_nat (span m + c) <= Z.of_nat f + k.

Lemma room_start c m p : room c (span m + c) m p.
Proof. exists 0. split_and!; [lia| |lia]. intros i Hi. lia. Qed.

Lemma room_more c f m p : room c f m p -> (c < f)%nat.
Proof. intros (k & Hk & Ha & Hs). apply accessible_size in Ha. unfold span in Hs. lia. Qed.

Lemma accessible_join m a b c :
  a <= b <= c -> accessible m a (b - a) -> accessible m b (c - b) -> accessible m a (c - a).
Proof.
  intros Hab H1 H2 i Hi. destruct (Z.lt_ge_cases i (b - a)); [apply H1; lia|].
  replace (a + i) with (b + (i - (b - a))) by lia. apply H2. lia.
Qed.

Lemma room_skip c f m p q : p <= q -> accessible m p (q - p) -> room c f m p -> room c f m q.
Proof.
  intros Hpq Ha (k & Hk & Hb & Hs). exists (k + (q - p)). split_and!; [lia| |lia].
  replace (q - (k + (q - p))) with (p - k) by lia. replace (k + (q - p)) with (q - (p - k)) by lia.
  apply (accessible_join _ _ p); [lia|by replace (p - (p - k)) with k by lia|done].
Qed.

Lemma accessible_1 m p : is_Some (m !! p) -> accessible m p 1.
Proof. intros H i Hi. by replace (p + i) with p by lia. Qed.

Lemma room_step c f m p : is_Some (m !! p) -> room c (S f) m p -> room c f m (p + 1).
Proof.
  intros Hp (k & Hk & Hb & Hs). exists (k + 1). split_and!; [lia| |lia].
  replace (p + 1 - (k + 1)) with (p - k) by lia. replace (k + 1) with (p + 1 - (p - k)) by lia.
  apply (accessible_join _ _ p); [lia|by replace (p - (p - k)) with k by lia|].
  replace (p + 1 - p) with 1 by lia. by apply accessible_1.
Qed.

(** ** Block moves

    [moved m dst src n m']: [m'] is [m] with the [n] bytes at [dst] replaced by the
    bytes that [m] has at [src], whatever the overlap. *)

Definition moved (m : mem) (dst src n : Z) (m' : mem) : Prop :=
  forall k, m' !! k = if (dst <=? k) && (k <? dst + n) then m !! (k - dst + src) else m !! k.

Lemma moved_fun m dst src n m1 m2 : moved m dst src n m1 -> moved m dst src n m2 -> m1 = m2.
Proof. intros H1 H2. apply map_eq. intros k. by rewrite (H1 k), (H2 k). Qed.

Lemma moved_0 m dst src : moved m dst src 0 m.
Proof. intros k. by destruct (Z.leb_spec dst k), (Z.ltb_spec k (dst + 0)); try lia. Qed.

(** One more byte at the upper end, and at the lower end. *)
Lemma moved_up m dst src i mi c :
  0 <= i -> moved m dst src i mi -> m !! (src + i) = Some c ->
  moved m dst src (i + 1) (<[dst + i := c]> mi).
Proof.
  intros Hi Hm Hc k. rewrite lookup_insert. case_decide as E.
  - subst k. destruct (Z.leb_spec dst (dst + i)), (Z.ltb_spec (dst + i) (dst + (i + 1))); try lia.
    cbn. rewrite <- Hc. f_equal. lia.
  - rewrite (Hm k). repeat case_bool; cbn; try done; lia.
Qed.

Lemma moved_down m dst src i mi c :
  0 <= i -> moved m (dst + 1) (src + 1) i mi -> m !! src = Some c ->
  moved m dst src (i + 1) (<[dst := c]> mi).
Proof.
  intros Hi Hm Hc k. rewrite lookup_insert. case_decide as E.
  - subst k. destruct (Z.leb_spec dst dst), (Z.ltb_spec dst (dst + (i + 1))); try lia.
    cbn. rewrite <- Hc. f_equal. lia.
  - rewrite (Hm k). repeat case_bool; cbn; try done; try lia. f_equal. lia.
Qed.

(** What a move has done so far leaves the bytes still to be read, and every
    address accessible. *)
Lemma moved_read m dst src i mi k :
  moved m dst src i mi -> (k < dst \/ dst + i <= k) -> mi !! k = m !! k.
Proof. intros Hm Hk. rewrite (Hm k). by repeat case_bool; try lia. Qed.

Lemma moved_accessible m dst src i mi k :
  moved m dst src i mi -> accessible m src i -> is_Some (m !! k) -> is_Some (mi !! k).
Proof.
  intros Hm Hs Hk. rewrite (Hm k). repeat case_bool; cbn; try done.
  replace (k - dst + src) with (src + (k - dst)) by lia. apply Hs. lia.
Qed.

Section Moves.
Context (m : mem) (dst src n : Z) (Hb : bytes m) (Hn : 0 <= n).
Context (Hsrc : accessible m src n) (Hdst : accessible m dst n).

Lemma src_byte i : 0 <= i < n -> exists c, m !! (src + i) = Some c /\ 0 <= c < 256.
Proof using Hb Hsrc. intros Hi. destruct (Hsrc i Hi) as [c Hc]. exists c. split; [done|]. by eapply Hb. Qed.

Lemma dst_store i mi c :
  0 <= i < n -> (forall k, is_Some (m !! k) -> is_Some (mi !! k)) -> 0 <= c < 256 ->
  st (dst + i) c mi = Ret (tt, <[dst + i := c]> mi).
Proof using Hdst. intros Hi Ha Hc. apply st_ok; [apply Ha, Hdst, Hi|done]. Qed.

Lemma moved_keeps i mi :
  0 <= i <= n -> moved m dst src i mi -> forall k, is_Some (m !! k) -> is_Some (mi !! k).
Proof using Hsrc. intros Hi Hm k. apply (moved_accessible m dst src i); [done|]. intros j Hj. apply Hsrc. lia. Qed.

(** Upwards, byte by byte: right when [dst] is not above [src] or the blocks are
    apart. *)
Lemma copy_up_ok (Hap : dst <= src \/ src + n <= dst) k i mi :
  0 <= i -> i + Z.of_nat k <= n -> moved m dst src i mi ->
  exists m', copy_up k (dst + i) (src + i) mi = Ret (tt, m') /\ moved m dst src (i + Z.of_nat k) m'.
Proof using Hb Hsrc Hdst.
  revert i mi. induction k as [|k IH]; intros i mi Hi Hk Hm.
  { exists mi. split; [done|]. by rewrite Z.add_0_r. }
  destruct (src_byte i) as (c & Hc & Hcb); [lia|]. cbn [copy_up].
  mstep ld_ok; [|rewrite (moved_read _ _ _ _ _ _ Hm); [done|lia]].
  mstep dst_store; [|lia|by apply (moved_keeps i); [lia|]|done].
  destruct (IH (i + 1) (<[dst + i := c]> mi)) as (m' & E & Hm'); [lia|lia|by apply moved_up|].
  exists m'. rewrite <- !Z.add_assoc, E. split; [done|]. by replace (i + Z.of_nat (S k)) with (i + 1 + Z.of_nat k) by lia.
Qed.

(** [movsb] upwards is the same loop. *)
Lemma movsb_up k d s mi : movsb k 1 s d mi = copy_up k d s mi.
Proof using Type.
  revert d s mi. induction k as [|k IH]; intros d s mi; [done|]. cbn [movsb copy_up].
  unfold bind. destruct (ld s mi) as [[c mj]| |]; [|done|done].
  destruct (st d c mj) as [[[] ?]| |]; [|done|done]. apply IH.
Qed.

(** [movsl]: the same bytes, four at a time, also when [dst] is less than a word
    below [src]. *)
Lemma movsl_ok (Hap : dst <= src \/ src + n <= dst) k i mi :
  0 <= i -> i + 4 * Z.of_nat k <= n -> moved m dst src i mi ->
  exists m', movsl k (src + i) (dst + i) mi = Ret (tt, m') /\ moved m dst src (i + 4 * Z.of_nat k) m'.
Proof using Hb Hsrc Hdst.
  revert i mi. induction k as [|k IH]; intros i mi Hi Hk Hm.
  { exists mi. split; [done|]. by rewrite Z.add_0_r. }
  destruct (src_byte i) as (c0 & H0 & B0); [lia|]. destruct (src_byte (i + 1)) as (c1 & H1 & B1); [lia|].
  destruct (src_byte (i + 2)) as (c2 & H2 & B2); [lia|]. destruct (src_byte (i + 3)) as (c3 & H3 & B3); [lia|].
  cbn [movsl]. rewrite <- !(Z.add_assoc src), <- !(Z.add_assoc dst).
  mstep ld_ok; [|rewrite (moved_read _ _ _ _ _ _ Hm); [done|lia]].
  mstep ld_ok; [|rewrite (moved_read _ _ _ _ _ _ Hm); [done|lia]].
  mstep ld_ok; [|rewrite (moved_read _ _ _ _ _ _ Hm); [done|lia]].
  mstep ld_ok; [|rewrite (moved_read _ _ _ _ _ _ Hm); [done|lia]].
  assert (M1 := moved_up _ _ _ _ _ _ Hi Hm H0).
  assert (M2 : moved m dst src (i + 1 + 1) (<[dst + (i + 1) := c1]> (<[dst + i := c0]> mi))) by (apply moved_up; [lia|done|done]).
  assert (M3 : moved m dst src (i + 1 + 1 + 1) (<[dst + (i + 2) := c2]> (<[dst + (i + 1) := c1]> (<[dst + i := c0]> mi))))
    by (replace (i + 2) with (i + 1 + 1) in H2 |- * by lia; apply moved_up; [lia|done|done]).
  assert (M4 : moved m dst src (i + 4) (<[dst + (i + 3) := c3]> (<[dst + (i + 2) := c2]> (<[dst + (i + 1) := c1]> (<[dst + i := c0]> mi)))))
    by (replace (i + 4) with (i + 1 + 1 + 1 + 1) by lia; replace (i + 3) with (i + 1 + 1 + 1) in H3 |- * by lia; apply moved_up; [lia|done|done]).
  mstep dst_store; [|lia|by apply (moved_keeps i); [lia|]|done].
  mstep dst_store; [|lia|by apply (moved_keeps (i + 1)); [lia|]|done].
  mstep dst_store; [|lia|by apply (moved_keeps (i + 1 + 1)); [lia|]|done].
  mstep dst_store; [|lia|by apply (moved_keeps (i + 1 + 1 + 1)); [lia|]|done].
  destruct (IH (i + 4) _ ltac:(lia) ltac:(lia) M4) as (m' & E & Hm').
  exists m'. rewrite E. split; [done|]. by replace (i + 4 * Z.of_nat (S k)) with (i + 4 + 4 * Z.of_nat k) by lia.
Qed.

Lemma __memcpy_ok (Hap : dst <= src \/ src + n <= dst) :
  exists m', __memcpy dst src n m = Ret (dst, m') /\ moved m dst src n m'.
Proof using Hb Hsrc Hdst Hn.
  assert (Hq := Z.div_mod n 4 ltac:(lia)). assert (Hr := Z.mod_pos_bound n 4 ltac:(lia)).
  assert (Hd : 0 <= n / 4) by (apply Z.div_pos; lia).
  destruct (movsl_ok Hap (Z.to_nat (n / 4)) 0 m ltac:(lia) ltac:(lia) (moved_0 _ _ _)) as (m1 & E1 & M1).
  rewrite !Z.add_0_r, Z.add_0_l in *. rewrite Z2Nat.id in M1 by lia.
  unfold __memcpy. mstep E1. change (Z.land n 3) with (Z.land n (Z.ones 2)). rewrite Z.land_ones by lia. change (2 ^ 2) with 4.
  case_bool.
  - exists m1. split; [done|]. by replace n with (4 * (n / 4)) at 1 by lia.
  - destruct (copy_up_ok Hap (Z.to_nat (n mod 4)) (4 * (n / 4)) m1) as (m2 & E2 & M2); [lia|lia|done|].
    rewrite Z2Nat.id, <- Hq in M2 by lia.
    exists m2. split; [|done]. mstep (eq_trans (movsb_up _ _ _ _) E2). done.
Qed.

Lemma copy_down_ok (Hap : src <= dst) k i mi :
  Z.of_nat k + i = n -> 0 <= i -> moved m (dst + Z.of_nat k) (src + Z.of_nat k) i mi ->
  exists m', copy_down k (dst + Z.of_nat k) (src + Z.of_nat k) mi = Ret (tt, m') /\ moved m dst src n m'.
Proof using Hb Hsrc Hdst.
  revert i mi. induction k as [|k IH]; intros i mi Hk Hi Hm.
  { exists mi. rewrite !Z.add_0_r in *. replace i with n in Hm by lia. done. }
  destruct (src_byte (Z.of_nat k)) as (c & Hc & Hcb); [lia|]. cbn [copy_down].
  replace (src + Z.of_nat (S k) - 1) with (src + Z.of_nat k) by lia.
  replace (dst + Z.of_nat (S k) - 1) with (dst + Z.of_nat k) by lia.
  replace (dst + Z.of_nat (S k)) with (dst + Z.of_nat k + 1) in Hm by lia.
  replace (src + Z.of_nat (S k)) with (src + Z.of_nat k + 1) in Hm by lia.
  mstep ld_ok; [|rewrite (moved_read _ _ _ _ _ _ Hm); [done|lia]].
  mstep dst_store; [|lia| |done]; cycle 1.
  { intros x. apply (moved_accessible _ _ _ _ _ _ Hm). intros j Hj.
    replace (src + Z.of_nat k + 1 + j) with (src + (Z.of_nat k + 1 + j)) by lia. apply Hsrc. lia. }
  apply (IH (i + 1)); [lia|lia|by apply moved_down].
Qed.

Lemma movsb_down k d s mi : movsb k (-1) (s - 1) (d - 1) mi = copy_down k d s mi.
Proof using Type.
  revert d s mi. induction k as [|k IH]; intros d s mi; [done|]. cbn [movsb copy_down].
  unfold bind. destruct (ld (s - 1) mi) as [[c mj]| |]; [|done|done].
  destruct (st (d - 1) c mj) as [[[] ?]| |]; [|done|done]. apply (IH (d - 1) (s - 1)).
Qed.
End Moves.

(** Whatever the overlap of the two blocks, [memmove] (words upwards, or bytes
    downwards) leaves at the destination the bytes the source had before the call,
    changes nothing else, returns the destination, and agrees with the portable
    version; [memcpy] does the same for blocks that do not overlap. *)
Theorem memmove_correct m dst src n :
  bytes m -> 0 <= n -> accessible m src n -> accessible m dst n ->
  exists m', moved m dst src n m' /\
    memmove dst src n m = Ret (dst, m') /\ memmove_c dst src n m = Ret (dst, m') /\
    (dst + n <= src \/ src + n <= dst ->
     memcpy dst src n m = Ret (dst, m') /\ memcpy_c dst src n m = Ret (dst, m')).
Proof.
  intros Hb Hn Hs Hd.
  assert (Up : dst <= src \/ src + n <= dst ->
    exists m', moved m dst src n m' /\ __memcpy dst src n m = Ret (dst, m') /\ copy_up (Z.to_nat n) dst src m = Ret (tt, m')).
  { intros Hap. destruct (__memcpy_ok m dst src n Hb Hn Hs Hd Hap) as (m1 & E1 & M1).
    destruct (copy_up_ok m dst src n Hb Hs Hd Hap (Z.to_nat n) 0 m) as (m2 & E2 & M2); [lia|lia|apply moved_0|].
    rewrite Z.add_0_l, !Z.add_0_r, Z2Nat.id in * by lia. rewrite (moved_fun _ _ _ _ _ _ M2 M1) in E2. by exists m1. }
  assert (Dn : src <= dst ->
    exists m', moved m dst src n m' /\ copy_down (Z.to_nat n) (dst + n) (src + n) m = Ret (tt, m')).
  { intros Hap. destruct (copy_down_ok m dst src n Hb Hs Hd Hap (Z.to_nat n) 0 m) as (m1 & E1 & M1);
      [lia|lia|apply moved_0|]. rewrite Z2Nat.id in E1 by lia. by exists m1. }
  assert (Hmv : exists m', moved m dst src n m' /\ memmove dst src n m = Ret (dst, m') /\ memmove_c dst src n m = Ret (dst, m')).
  { unfold memmove, __memmove, memmove_c. destruct (Z.ltb_spec dst src) as [Hlt|Hge].
    - destruct (Up ltac:(lia)) as (m' & M & E1 & E2). exists m'. split; [done|]. split; [done|].
      destruct (Z.ltb_spec src dst); [lia|]. cbn [andb]. by mstep E2.
    - destruct (Dn ltac:(lia)) as (m' & M & E). exists m'. split; [done|]. split.
      + replace (n - 1 + src) with (src + n - 1) by lia. replace (n - 1 + dst) with (dst + n - 1) by lia.
        by mstep (eq_trans (movsb_down _ _ _ _) E).
      + destruct (Z.ltb_spec src dst), (Z.ltb_spec dst (src + n)); cbn [andb];
          try (by mstep E); (destruct (Up ltac:(lia)) as (m2 & M2 & _ & E2));
          rewrite (moved_fun _ _ _ _ _ _ M2 M) in E2; by mstep E2. }
  destruct Hmv as (m' & M & E1 & E2). exists m'. do 3 (split; [done|]).
  intros Hap. destruct (Up ltac:(lia)) as (m2 & M2 & E3 & E4). rewrite (moved_fun _ _ _ _ _ _ M2 M) in E3, E4.
  split; [done|]. unfold memcpy_c. by mstep E4.
Qed.

(** ** String routines on NUL-terminated strings *)

Lemma cstr_cons m s c l : cstr m s (c :: l) -> m !! s = Some c /\ 0 < c < 256 /\ cstr m (s + 1) l.
Proof. intros [[Hc Hl]%Forall_cons [H1 H2]]. done. Qed.

Lemma cstr_nil m s : cstr m s [] -> m !! s = Some 0.
Proof. by intros [_ [H _]]. Qed.

Lemma cstr_span m s l : cstr m s l -> (length l < span m)%nat.
Proof.
  intros [_ H%bytes_at_accessible%accessible_size]. rewrite length_app in H. cbn in H. unfold span. lia.
Qed.

Lemma strlen_ok m s l : cstr m s l -> strlen s m = Ret (Z.of_nat (length l) mod 2 ^ 32, m).
Proof.
  intros Hl. unfold strlen. rewrite bind_get. assert (Hf := cstr_span _ _ _ Hl). revert Hf.
  generalize (span m). assert (H : forall f s cnt, cstr m s l -> (length l < f)%nat ->
    strlen_loop f s (u32 cnt) m = Ret (u32 (cnt + Z.of_nat (length l)), m)).
  2: { intros f Hf. by apply (H f s 0). }
  clear. induction l as [|c l IH]; intros [|f] s cnt Hl Hf; try (cbn in Hf; lia); cbn [strlen_loop].
  - mstep ld_ok; [|by apply cstr_nil]. cbn. by rewrite Z.add_0_r.
  - apply cstr_cons in Hl as (Hc & Hr & Hl). mstep ld_ok; [|exact Hc]. destruct (Z.eqb_spec c 0); [lia|].
    unfold u32 at 1. unfold u32 at 1. rewrite Z.add_mod_idemp_l by lia. fold (u32 (cnt + 1)).
    rewrite IH; [|done|cbn in Hf; lia]. do 3 f_equal. cbn [length]. lia.
Qed.

(** The order of two strings, by their first difference as unsigned characters. *)
Fixpoint str_order (l1 l2 : list Z) : Z :=
  match l1, l2 with
  | [], [] => 0
  | [], d :: _ => - d
  | c :: _, [] => c
  | c :: l1, d :: l2 => if c =? d then str_order l1 l2 else c - d
  end.

Lemma str_order_eq l1 l2 :
  Forall (fun c => 0 < c < 256) l1 -> Forall (fun c => 0 < c < 256) l2 -> str_order l1 l2 = 0 <-> l1 = l2.
Proof.
  revert l2. induction l1 as [|c l1 IH]; intros [|d l2] H1 H2; cbn [str_order]; [done|..].
  - apply Forall_cons in H2 as [? _]. split; [lia|done].
  - apply Forall_cons in H1 as [? _]. split; [lia|done].
  - apply Forall_cons in H1 as [? H1]. apply Forall_cons in H2 as [? H2].
    destruct (Z.eqb_spec c d) as [->|]; [rewrite IH by done; split; congruence|]. split; [lia|congruence].
Qed.

(** Run every load of a known byte. *)
Ltac lds H := repeat (rewrite (bind_step _ _ _ _ _ (ld_ok _ _ _ H)); cbv beta).

(** Both versions' loops stop at the first difference or the common end. *)
Lemma strcmp_loops m l1 : forall l2 f s1 s2, cstr m s1 l1 -> cstr m s2 l2 -> (length l1 < f)%nat ->
  strcmp_loop f s1 s2 m = Ret (str_order l1 l2, m) /\
  strcmp_asm f s1 s2 m = Ret (Z.sgn (str_order l1 l2), m).
Proof.
  assert (Hlt : forall a b, 0 <= a -> a < b -> s32 (Z.lor (u32 (-1)) 1) = Z.sgn (a - b)).
  { intros. by rewrite Z.sgn_neg by lia. }
  assert (Hgt : forall a b, b < a -> s32 (Z.lor 0 1) = Z.sgn (a - b)).
  { intros. by rewrite Z.sgn_pos by lia. }
  induction l1 as [|c l1 IH]; intros [|d l2] [|f] s1 s2 H1 H2 Hf; try (cbn in Hf; lia);
    cbn [strcmp_loop strcmp_asm str_order].
  - apply cstr_nil in H1, H2. lds H1. cbn [Z.eqb negb]. by lds H2.
  - apply cstr_nil in H1. apply cstr_cons in H2 as (H2 & Hr & _).
    lds H1. change (0 =? 0) with true; cbn [negb]. lds H2.
    destruct (Z.eqb_spec 0 d), (Z.ltb_spec 0 d); try lia. cbn [negb]. by rewrite (Hlt 0 d) by lia.
  - apply cstr_nil in H2. apply cstr_cons in H1 as (H1 & Hr & _).
    lds H1. lds H2. destruct (Z.eqb_spec c 0), (Z.ltb_spec c 0); try lia. cbn [negb]. lds H2.
    rewrite (Hgt c 0) by lia. rewrite Z.sub_0_r. by destruct (Z.eqb_spec c 0).
  - apply cstr_cons in H1 as (H1 & Hr1 & Hl1). apply cstr_cons in H2 as (H2 & Hr2 & Hl2).
    lds H1. lds H2. destruct (Z.eqb_spec c 0); [lia|]. cbn [negb]. lds H2.
    destruct (Z.eqb_spec c d) as [->|Hne]; cbn [negb].
    + apply IH; [done|done|cbn in Hf; lia].
    + split; [done|]. destruct (Z.ltb_spec c d); [by rewrite (Hlt c d) by lia|by rewrite (Hgt c d) by lia].
Qed.

Lemma strcmp_ok m s1 s2 l1 l2 :
  cstr m s1 l1 -> cstr m s2 l2 ->
  strcmp_c s1 s2 m = Ret (str_order l1 l2, m) /\ strcmp s1 s2 m = Ret (Z.sgn (str_order l1 l2), m).
Proof.
  intros H1 H2. unfold strcmp_c, strcmp, __strcmp. rewrite !bind_get.
  apply strcmp_loops; [done|done|]. by apply (cstr_span _ s1).
Qed.

(** A check of accessibility for concrete memories. *)
Lemma accessible_check m a n :
  forallb (fun i => bool_decide (is_Some (m !! (a + i)))) (seqZ 0 n) = true -> accessible m a n.
Proof.
  intros H i Hi. rewrite forallb_forall in H. specialize (H i). rewrite bool_decide_eq_true in H.
  apply H, list_elem_of_In, elem_of_seqZ. lia.
Qed.

Definition ex_mem : mem := write_bytes ∅ 100 [1; 2; 3; 4; 5; 6; 7; 8; 9].

(** Six bytes moved one up onto themselves. *)
Lemma memmove_correct_witness :
  exists m', moved ex_mem 101 100 6 m' /\
    memmove 101 100 6 ex_mem = Ret (101, m') /\ memmove_c 101 100 6 ex_mem = Ret (101, m') /\
    (101 + 6 <= 100 \/ 100 + 6 <= 101 ->
     memcpy 101 100 6 ex_mem = Ret (101, m') /\ memcpy_c 101 100 6 ex_mem = Ret (101, m')).
Proof.
  apply memmove_correct; [apply (bool_decide_unpack _); vm_compute; exact I|lia|..];
    apply accessible_check; reflexivity.
Defined.

(** ** Division of 64-bit numbers, random numbers, hashing *)

Lemma do_div_ok n base :
  0 <= n < 2 ^ 64 -> 0 < base < 2 ^ 32 -> do_div n base = Some (n / base, n mod base).
Proof.
  intros Hn Hb. unfold do_div, divl. assert (Hq := Z.div_mod n (2 ^ 32) ltac:(lia)).
  set (h := n / 2 ^ 32) in *. set (l := n mod 2 ^ 32) in *.
  assert (Hl : 0 <= l < 2 ^ 32) by (apply Z.mod_pos_bound; lia).
  assert (Hh : 0 <= h) by (apply Z.div_pos; lia).
  destruct (Z.eqb_spec base 0); [lia|]. rewrite andb_false_r.
  assert (Hu : (if negb (h =? 0) then h mod base else h) = h mod base).
  { destruct (Z.eqb_spec h 0) as [->|]; [|done]. cbn. by rewrite Zmod_0_l. }
  assert (Hd : (if negb (h =? 0) then h / base else h) = h / base).
  { destruct (Z.eqb_spec h 0) as [->|]; [|done]. cbn. by rewrite Zdiv_0_l. }
  rewrite Hu, Hd. assert (Hm := Z.mod_pos_bound h base ltac:(lia)).
  destruct (Z.leb_spec base (h mod base)); [lia|]. cbn. do 2 f_equal.
  - symmetry. assert (Hx := Z.div_mod h base ltac:(lia)).
    replace n with (h / base * 2 ^ 32 * base + (h mod base * 2 ^ 32 + l)) by nia.
    rewrite Z.div_add_l by lia. lia.
  - assert (Hx := Z.div_mod h base ltac:(lia)).
    replace n with ((h mod base * 2 ^ 32 + l) + h / base * 2 ^ 32 * base) by nia.
    by rewrite Z.mod_add by lia.
Qed.

(** [rand] never faults, stays in its documented range and keeps its state below
    2^48. *)
Lemma rand_ok next : exists r next', rand next = Ret (r, next') /\ 0 <= r <= RAND_MAX /\ 0 <= next' < 2 ^ 48.
Proof.
  unfold rand. rewrite bind_get. cbv zeta.
  replace (2 ^ 48 - 1) with (Z.ones 48) by done. rewrite Z.land_ones by lia.
  set (x := u64 _ mod 2 ^ 48). assert (Hx : 0 <= x < 2 ^ 48) by (apply Z.mod_pos_bound; lia).
  unfold put, bind. rewrite Z.shiftr_div_pow2 by lia.
  assert (Hd : 0 <= x / 2 ^ 12 < 2 ^ 64) by dlia.
  rewrite (do_div_ok (x / 2 ^ 12) (RAND_MAX + 1)) by (unfold RAND_MAX; lia). cbn [deref ret].
  assert (Hm := Z.mod_pos_bound (x / 2 ^ 12) (RAND_MAX + 1) ltac:(unfold RAND_MAX; lia)).
  unfold RAND_MAX in *. eexists _, _. split; [reflexivity|]. rewrite s32_small by (unfold is_s32; lia). lia.
Qed.

Lemma hash32_range val bits : 1 <= bits <= 32 -> 0 <= hash32 val bits < 2 ^ bits.
Proof.
  intros Hb. unfold hash32. assert (Hu := u32_range (val * GOLDEN_RATIO_PRIME_32)). unfold is_u32 in Hu.
  rewrite (u32_small (32 - bits)) by (unfold is_u32; lia).
  replace (Z.land (32 - bits) 31) with (32 - bits)
    by (change 31 with (Z.ones 5); rewrite Z.land_ones by lia; rewrite Z.mod_small; lia).
  rewrite Z.shiftr_div_pow2 by lia. split; [apply Z.div_pos; lia|]. apply Z.div_lt_upper_bound; [lia|].
  rewrite <- Z.pow_add_r by lia. replace (32 - bits + bits) with 32 by lia. apply Hu.
Qed.
End CStringInv.
