(* ===== verification/Printfmt.v ===== *)
(** * Formatted output (src/code/libs/printfmt.c)

    The state is memory and whatever the output function [putch] keeps ([putdat]);
    [putch] is an argument, as in the code.  String literals live at addresses
    given by [lit].  A [va_list] is the list of the 32-bit words on the stack. *)

From Stdlib Require Import String Ascii.
From S2P Require Import Prelude CString.
Import CString.
Open Scope Z_scope.

Module Printfmt.

Definition bytes_of (s : string) : list Z := (fun a => Z.of_N (N_of_ascii a)) <$> list_ascii_of_string s.

(** ** [va_arg] at its three sizes; past the last argument there is nothing *)

Definition va_word (ap : list Z) : option (Z * list Z) :=
  match ap with w :: ap => Some (w, ap) | [] => None end.

Definition va_long_long (ap : list Z) : option (Z * list Z) :=
  match ap with low :: high :: ap => Some (high * 2 ^ 32 + low, ap) | _ => None end.

Definition s64 (x : Z) : Z := (x + 2 ^ 63) mod 2 ^ 64 - 2 ^ 63.

Definition getuint (ap : list Z) (lflag : Z) : option (Z * list Z) :=
  if 2 <=? lflag then va_long_long ap else va_word ap.

Definition getint (ap : list Z) (lflag : Z) : option (Z * list Z) :=
  if 2 <=? lflag then ('(x, ap) ← va_long_long ap; Some (s64 x, ap))
  else ('(x, ap) ← va_word ap; Some (s32 x, ap)).

(** ** The table of error messages *)

Definition MAXERROR : Z := 24.

Definition error_string (e : Z) : option string :=
  if e =? E_UNSPECIFIED then Some "unspecified error"%string
  else if e =? E_BAD_PROC then Some "bad process"%string
  else if e =? E_INVAL then Some "invalid parameter"%string
  else if e =? E_NO_MEM then Some "out of memory"%string
  else if e =? E_NO_FREE_PROC then Some "out of processes"%string
  else if e =? E_FAULT then Some "segmentation fault"%string
  else if e =? E_SWAP_FAULT then Some "swap disk read/write fault"%string
  else if e =? E_INVAL_ELF then Some "invalid elf file"%string
  else if e =? E_KILLED then Some "process is killed"%string
  else if e =? E_PANIC then Some "panic failure"%string
  else if e =? E_TIMEOUT then Some "timeout"%string
  else if e =? E_TOO_BIG then Some "argument is too big"%string
  else if e =? E_NO_DEV then Some "no such device"%string
  else if e =? E_NA_DEV then Some "device not available"%string
  else if e =? E_BUSY then Some "device/file is busy"%string
  else if e =? E_NOENT then Some "no such file or directory"%string
  else if e =? E_ISDIR then Some "is a directory"%string
  else if e =? E_NOTDIR then Some "not a directory"%string
  else if e =? E_XDEV then Some "cross device link"%string
  else if e =? E_UNIMP then Some "unimplemented feature"%string
  else if e =? E_SEEK then Some "illegal seek"%string
  else if e =? E_MAX_OPEN then Some "too many files are open"%string
  else if e =? E_EXISTS then Some "file or directory already exists"%string
  else if e =? E_NOTEMPTY then Some "directory is not empty"%string
  else None.

(** ** Printing *)

Definition pst (D : Type) : Type := (mem * D)%type.

(** A memory routine run by code that also has output state. *)
Definition on_mem {D A} (c : M mem A) : M (pst D) A := fun s =>
  match c (fst s) with
  | Ret (a, m) => Ret (a, (m, snd s))
  | Panic => Panic
  | OutOfFuel => OutOfFuel
  end.

(** The variables of one conversion: [padc], [width], [precision], [lflag],
    [altflag]. *)
Record spec := mk_spec { padc : Z; width : Z; precision : Z; lflag : Z; altflag : bool }.

Definition spec0 : spec := mk_spec 32 (-1) (-1) 0 false.
Definition set_padc c x := mk_spec c (width x) (precision x) (lflag x) (altflag x).
Definition set_width w x := mk_spec (padc x) w (precision x) (lflag x) (altflag x).
Definition set_alt x := mk_spec (padc x) (width x) (precision x) (lflag x) true.
Definition inc_lflag x := mk_spec (padc x) (width x) (precision x) (lflag x + 1) (altflag x).

(** [process_precision] *)
Definition process_precision (p : Z) (x : spec) : spec :=
  if width x <? 0 then mk_spec (padc x) p (-1) (lflag x) (altflag x)
  else mk_spec (padc x) (width x) p (lflag x) (altflag x).

Section Print.
Context {D : Type} (putch : Z -> M (pst D) unit) (lit : string -> Z).

Fixpoint pad (n : nat) (c : Z) : M (pst D) unit :=
  match n with O => ret tt | S n => putch c ;; pad n c end.

Definition digits16 : list Z := bytes_of "0123456789abcdef".

(** [while (-- width > 0)] pads [width - 1] times. *)
Fixpoint printnum_loop (fuel : nat) (num base width padc : Z) : M (pst D) unit :=
  match fuel with
  | O => out_of_fuel
  | S fuel =>
      '(result, mod_) <- deref (do_div num base) ;;
      (if base <=? num then printnum_loop fuel result base (s32 (width - 1)) padc
       else pad (Z.to_nat (s32 (width - 1))) padc) ;;
      d <- deref (digits16 !! Z.to_nat mod_) ;; putch d
  end.

(** 64 digits are enough for every base from 2. *)
Definition printnum : Z -> Z -> Z -> Z -> M (pst D) unit := printnum_loop 65.

(** The width field: its value and where it ends.  [ch] is its current digit. *)
Fixpoint read_width (fuel : nat) (fmt ch acc : Z) : M (pst D) (Z * Z) :=
  match fuel with
  | O => out_of_fuel
  | S fuel =>
      let acc := s32 (acc * 10 + ch - 48) in
      c <- on_mem (ld fmt) ;;
      let ch := s8 c in
      if (ch <? 48) || (57 <? ch) then ret (acc, fmt) else read_width fuel (fmt + 1) ch acc
  end.

(** The second loop of [%s]; returns [width]. *)
Fixpoint put_str (fuel : nat) (p precision width : Z) (altflag : bool) : M (pst D) Z :=
  match fuel with
  | O => out_of_fuel
  | S fuel =>
      c <- on_mem (ld p) ;;
      let ch := s8 c in
      if ch =? 0 then ret width
      else
        let prec' := if precision <? 0 then precision else precision - 1 in
        if (precision <? 0) || (0 <=? prec') then
          ((if altflag && ((ch <? 32) || (126 <? ch)) then putch 63 else putch ch) ;;
           put_str fuel (p + 1) prec' (s32 (width - 1)) altflag)
        else ret width
  end.

Definition print_s (p : Z) (x : spec) : M (pst D) unit :=
  '(m, _) <- get ;;
  w <- (if (0 <? width x) && negb (padc x =? 45) then
          (n <- on_mem (strnlen p (u32 (precision x))) ;;
           let w := s32 (width x - n) in
           pad (Z.to_nat w) (padc x) ;; ret (Z.min w 0))
        else ret (width x)) ;;
  w <- put_str (span m) p (precision x) w (altflag x) ;;
  pad (Z.to_nat w) 32.

(** [for (fmt --; fmt[-1] != '%'; fmt --)] *)
Fixpoint rewind (fuel : nat) (fmt : Z) : M (pst D) Z :=
  match fuel with
  | O => out_of_fuel
  | S fuel => c <- on_mem (ld (fmt - 1)) ;; if c =? 37 then ret fmt else rewind fuel (fmt - 1)
  end.

Definition number (num base : Z) (x : spec) : M (pst D) unit := printnum num base (width x) (padc x).

(** [vprintfmt_loop] runs the outer loop from [fmt]; [reswitch] is the switch, from
    its label; it returns where the format goes on and the arguments left. *)
Fixpoint vprintfmt_loop (fuel : nat) (fmt : Z) (ap : list Z) : M (pst D) unit :=
  match fuel with
  | O => out_of_fuel
  | S fuel =>
      ch <- on_mem (ld fmt) ;;
      if negb (ch =? 37) then
        (if ch =? 0 then ret tt else (putch ch ;; vprintfmt_loop fuel (fmt + 1) ap))
      else
        '(fmt, ap) <- reswitch fuel (fmt + 1) ap spec0 ;;
        vprintfmt_loop fuel fmt ap
  end
with reswitch (fuel : nat) (fmt : Z) (ap : list Z) (x : spec) : M (pst D) (Z * list Z) :=
  match fuel with
  | O => out_of_fuel
  | S fuel =>
      '(m, _) <- get ;;
      ch <- on_mem (ld fmt) ;;
      let fmt := fmt + 1 in
      if ch =? 45 (* - *) then reswitch fuel fmt ap (set_padc 45 x)
      else if ch =? 48 (* 0 *) then reswitch fuel fmt ap (set_padc 48 x)
      else if (49 <=? ch) && (ch <=? 57) then
        ('(p, fmt) <- read_width (span m) fmt ch 0 ;;
         reswitch fuel fmt ap (process_precision p x))
      else if ch =? 42 (* * *) then
        ('(w, ap) <- deref (va_word ap) ;;
         reswitch fuel fmt ap (process_precision (s32 w) x))
      else if ch =? 46 (* . *) then
        reswitch fuel fmt ap (if width x <? 0 then set_width 0 x else x)
      else if ch =? 35 (* # *) then reswitch fuel fmt ap (set_alt x)
      else if ch =? 108 (* l *) then reswitch fuel fmt ap (inc_lflag x)
      else if ch =? 99 (* c *) then
        ('(w, ap) <- deref (va_word ap) ;; putch (s32 w) ;; ret (fmt, ap))
      else if ch =? 101 (* e *) then
        ('(w, ap) <- deref (va_word ap) ;;
         let err := s32 w in
         let err := if err <? 0 then s32 (- err) else err in
         (if MAXERROR <? err then vprintfmt_loop fuel (lit "error %d") [u32 err]
          else if err <? 0 then panic (* error_string is indexed out of range *)
          else match error_string err with
               | None => vprintfmt_loop fuel (lit "error %d") [u32 err]
               | Some p => vprintfmt_loop fuel (lit "%s") [lit p]
               end) ;;
         ret (fmt, ap))
      else if ch =? 115 (* s *) then
        ('(p, ap) <- deref (va_word ap) ;;
         print_s (if p =? NULL then lit "(null)" else p) x ;; ret (fmt, ap))
      else if ch =? 100 (* d *) then
        ('(num, ap) <- deref (getint ap (lflag x)) ;;
         (if num <? 0 then (putch 45 ;; number (u64 (- num)) 10 x) else number (u64 num) 10 x) ;;
         ret (fmt, ap))
      else if ch =? 117 (* u *) then
        ('(num, ap) <- deref (getuint ap (lflag x)) ;; number num 10 x ;; ret (fmt, ap))
      else if ch =? 111 (* o *) then
        ('(num, ap) <- deref (getuint ap (lflag x)) ;; number num 8 x ;; ret (fmt, ap))
      else if ch =? 112 (* p *) then
        (putch 48 ;; putch 120 ;;
         '(num, ap) <- deref (va_word ap) ;; number num 16 x ;; ret (fmt, ap))
      else if ch =? 120 (* x *) then
        ('(num, ap) <- deref (getuint ap (lflag x)) ;; number num 16 x ;; ret (fmt, ap))
      else if ch =? 37 (* % *) then (putch ch ;; ret (fmt, ap))
      else (putch 37 ;; fmt <- rewind (span m) (fmt - 1) ;; ret (fmt, ap))
  end.

(** The format is shorter than the memory that holds it, and a nested call prints
    one of two short formats. *)
Definition vprintfmt (fmt : Z) (ap : list Z) : M (pst D) unit :=
  '(m, _) <- get ;; vprintfmt_loop (span m + 12) fmt ap.

Definition printfmt (fmt : Z) (ap : list Z) : M (pst D) unit := vprintfmt fmt ap.
End Print.

(** ** Printing to a buffer *)

Record sprintbuf := mk_buf { buf : Z; ebuf : Z; cnt : Z }.

Definition sprintputch (ch : Z) : M (pst sprintbuf) unit :=
  '(m, b) <- get ;;
  let b := mk_buf (buf b) (ebuf b) (s32 (cnt b + 1)) in
  if buf b <? ebuf b then
    (put (m, b) ;; on_mem (st (buf b) ch) ;;
     modify (fun s => (fst s, mk_buf (buf b + 1) (ebuf b) (cnt b))))
  else put (m, b).

Section Buffer.
Context (lit : string -> Z).

(** On the memory alone: the [struct sprintbuf] is a local variable. *)
Definition vsnprintf (str size fmt : Z) (ap : list Z) : M mem Z := fun m =>
  let b := mk_buf str (u32 (str + size - 1)) 0 in
  if (str =? NULL) || (ebuf b <? buf b) then Ret (- E_INVAL, m)
  else
    match vprintfmt sprintputch lit fmt ap (m, b) with
    | Ret (_, (m, b)) => (st (buf b) 0 ;; ret (cnt b)) m
    | Panic => Panic
    | OutOfFuel => OutOfFuel
    end.

Definition snprintf (str size fmt : Z) (ap : list Z) : M mem Z := vsnprintf str size fmt ap.
End Buffer.
End Printfmt.
