(* ===== verification/PrintfmtInv.v ===== *)
(** * Formatted output: printing to a buffer is printing to a stream, cut to the
    buffer; formatting ends; printed numbers read back *)

From Stdlib Require Import String Ascii.
From S2P Require Import Prelude CString CStringInv Printfmt.
Import CString CStringInv Printfmt.
Open Scope Z_scope.

Create HintDb sim discriminated.

Module PrintfmtInv.

(** ** Writing a list of bytes *)

Lemma write_bytes_outside m a l k :
  k < a \/ a + Z.of_nat (length l) <= k -> write_bytes m a l !! k = m !! k.
Proof.
  revert m a. induction l as [|x l IH]; intros m a Hk; [done|]. cbn [write_bytes length] in *.
  rewrite IH by lia. rewrite lookup_insert_ne by lia. done.
Qed.

Lemma write_bytes_is_Some m a l k : is_Some (m !! k) -> is_Some (write_bytes m a l !! k).
Proof.
  revert m a. induction l as [|x l IH]; intros m a Hk; [done|]. cbn [write_bytes]. apply IH.
  rewrite lookup_insert. by case_decide.
Qed.

Lemma write_bytes_lookup m a l i x : l !! i = Some x -> write_bytes m a l !! (a + Z.of_nat i) = Some x.
Proof.
  revert m a i. induction l as [|y l IH]; intros m a i Hi; [done|]. cbn [write_bytes].
  destruct i as [|i]; cbn in Hi.
  - injection Hi as ->. rewrite Z.add_0_r, write_bytes_outside by lia. by rewrite lookup_insert_eq.
  - replace (a + Z.of_nat (S i)) with (a + 1 + Z.of_nat i) by lia. by apply IH.
Qed.

Lemma write_bytes_at m a l : bytes_at (write_bytes m a l) a l.
Proof.
  revert m a. induction l as [|x l IH]; intros m a; cbn [bytes_at write_bytes]; [done|]. split; [|apply IH].
  rewrite write_bytes_outside by lia. by rewrite lookup_insert_eq.
Qed.

Lemma write_bytes_snoc m a l x :
  write_bytes m a (l ++ [x]) = <[a + Z.of_nat (length l) := x]> (write_bytes m a l).
Proof. by rewrite write_bytes_app. Qed.

(** ** Two printers in lock step *)

Section Sim.
Context {D1 D2 : Type} (Rel : pst D1 -> pst D2 -> Prop).
Context (Hmem : forall s1 s2, Rel s1 s2 -> fst s1 ⊆ fst s2).

(** Whenever the first routine returns, the second returns the same. *)
Definition sim {A} (c1 : M (pst D1) A) (c2 : M (pst D2) A) : Prop :=
  forall s1 s2 a s1', Rel s1 s2 -> c1 s1 = Ret (a, s1') ->
  exists s2', c2 s2 = Ret (a, s2') /\ Rel s1' s2'.

Lemma sim_ret {A} (a : A) : sim (ret a) (ret a).
Proof using Type. intros s1 s2 b s1' H [= <- <-]. by exists s2. Qed.

Lemma sim_panic {A} c2 : sim (A := A) panic c2.
Proof using Type. intros s1 s2 b s1' H. done. Qed.

Lemma sim_fuel {A} c2 : sim (A := A) out_of_fuel c2.
Proof using Type. intros s1 s2 b s1' H. done. Qed.

Lemma sim_deref {A} (o : option A) : sim (deref o) (deref o).
Proof using Type. destruct o; [apply sim_ret|apply sim_panic]. Qed.

Lemma sim_bind {A B} (c1 : M (pst D1) A) c2 (k1 : A -> M (pst D1) B) k2 :
  sim c1 c2 -> (forall a, sim (k1 a) (k2 a)) -> sim (bind c1 k1) (bind c2 k2).
Proof using Type.
  intros Hc Hk s1 s2 b s1' HR (a & t & E1 & E2)%bind_Ret.
  destruct (Hc _ _ _ _ HR E1) as (t2 & E3 & HR2). destruct (Hk _ _ _ _ _ HR2 E2) as (s2' & E4 & HR3).
  exists s2'. split; [|done]. apply bind_Ret. by exists a, t2.
Qed.

Lemma span_mono (m1 m2 : mem) : m1 ⊆ m2 -> (span m1 <= span m2)%nat.
Proof using Type.
  intros H. unfold span. apply subseteq_dom in H. apply subseteq_size in H. rewrite !size_dom in H. lia.
Qed.

Lemma sim_get {A} (k1 : pst D1 -> M (pst D1) A) (k2 : pst D2 -> M (pst D2) A) :
  (forall s1 s2, (span (fst s1) <= span (fst s2))%nat -> sim (k1 s1) (k2 s2)) ->
  sim (bind get k1) (bind get k2).
Proof using Hmem. intros H s1 s2 a s1' HR E. apply (H s1 s2) with (s1 := s1); [|done|done]. by apply span_mono, Hmem. Qed.

(** A memory routine that only reads, and does no less in a larger memory. *)
Definition reads {A} (c : M mem A) : Prop :=
  forall m1 m2 a m1', m1 ⊆ m2 -> c m1 = Ret (a, m1') -> m1' = m1 /\ c m2 = Ret (a, m2).

Lemma sim_reads {A} (c : M mem A) : reads c -> sim (on_mem c) (on_mem c).
Proof using Hmem.
  intros Hc [m1 d1] [m2 d2] a s1' HR. unfold on_mem. cbn.
  destruct (c m1) as [[b m1']| |] eqn:E; [|done|done]. intros [= -> <-].
  destruct (Hc m1 m2 a m1') as [-> E2]; [by apply (Hmem _ _ HR)|done|]. rewrite E2. by eexists.
Qed.

Lemma reads_ld a : reads (ld a).
Proof using Type.
  intros m1 m2 v m1' Hs. unfold ld, bind, get, deref. destruct (m1 !! a) as [w|] eqn:E; [|done].
  intros [= -> <-]. rewrite (lookup_weaken _ _ _ _ E Hs). done.
Qed.

Lemma reads_bind {A B} (c : M mem A) (k : A -> M mem B) :
  reads c -> (forall a, reads (k a)) -> reads (bind c k).
Proof using Type.
  intros Hc Hk m1 m2 b m1' Hs (a & t & E1 & E2)%bind_Ret. destruct (Hc _ _ _ _ Hs E1) as [-> E3].
  destruct (Hk a _ _ _ _ Hs E2) as [-> E4]. split; [done|]. unfold bind. by rewrite E3.
Qed.

Lemma reads_ret {A} (a : A) : reads (ret a).
Proof using Type. intros m1 m2 b m1' Hs [= <- <-]. done. Qed.

(** A loop with more fuel does no less. *)
Lemma strnlen_more f1 f2 s len cnt m1 m2 a m1' :
  (f1 <= f2)%nat -> m1 ⊆ m2 -> strnlen_loop f1 s len cnt m1 = Ret (a, m1') ->
  m1' = m1 /\ strnlen_loop f2 s len cnt m2 = Ret (a, m2).
Proof using Type.
  revert f2 s cnt. induction f1 as [|f1 IH]; intros f2 s cnt Hf Hs; [done|].
  destruct f2 as [|f2]; [lia|]. cbn [strnlen_loop]. destruct (cnt <? len); [|by intros [= -> ->]].
  intros (c & t & E1 & E2)%bind_Ret. destruct (reads_ld s _ _ _ _ Hs E1) as [-> E3].
  rewrite (bind_step _ _ _ _ _ E3). destruct (c =? 0); [by injection E2 as -> ->|].
  apply IH; [lia|done|done].
Qed.

Lemma reads_strnlen s len : reads (strnlen s len).
Proof using Type.
  intros m1 m2 a m1' Hs. unfold strnlen. rewrite !bind_get. apply strnlen_more; [by apply span_mono|done].
Qed.

#[local] Hint Resolve sim_ret sim_panic sim_fuel sim_deref sim_reads reads_ld reads_strnlen : sim.

(** Walk through two copies of the same code. *)
Ltac sim_step :=
  match goal with
  | |- sim (bind get _) (bind get _) => apply sim_get; intros [? ?] [? ?] ?; cbn [fst] in *
  | |- sim (bind _ _) (bind _ _) => apply sim_bind; [|intros ?]
  | |- sim (if ?b then _ else _) (if ?b then _ else _) => destruct b
  | |- sim (match ?x with (_, _) => _ end) _ => destruct x as [? ?]
  | |- sim (match ?x with Some _ => _ | None => _ end) _ => destruct x
  | |- sim (let x := _ in _) _ => cbv zeta
  | _ => solve [eauto with sim]
  end.
Ltac sim_go := repeat sim_step.

Context (putch1 : Z -> M (pst D1) unit) (putch2 : Z -> M (pst D2) unit) (lit : string -> Z).
Context (Hputch : forall c, sim (putch1 c) (putch2 c)).
#[local] Hint Resolve Hputch : sim.

Lemma sim_pad n c : sim (pad putch1 n c) (pad putch2 n c).
Proof using Hputch Hmem. induction n as [|n IH]; cbn [pad]; sim_go. Qed.
#[local] Hint Resolve sim_pad : sim.

Lemma sim_printnum n base width padc :
  sim (printnum putch1 n base width padc) (printnum putch2 n base width padc).
Proof using Hputch Hmem.
  unfold printnum. generalize 65%nat as f. intros f. revert n width.
  induction f as [|f IH]; intros n width; cbn [printnum_loop]; sim_go.
Qed.
#[local] Hint Resolve sim_printnum : sim.

Lemma sim_read_width f1 f2 fmt ch acc :
  (f1 <= f2)%nat -> sim (read_width f1 fmt ch acc) (read_width f2 fmt ch acc).
Proof using Hmem.
  revert f2 fmt ch acc. induction f1 as [|f1 IH]; intros [|f2] fmt ch acc Hf; cbn [read_width];
    try lia; try apply sim_fuel. sim_go. apply IH. lia.
Qed.

Lemma sim_put_str f1 f2 p prec width alt :
  (f1 <= f2)%nat -> sim (put_str putch1 f1 p prec width alt) (put_str putch2 f2 p prec width alt).
Proof using Hputch Hmem.
  revert f2 p prec width. induction f1 as [|f1 IH]; intros [|f2] p prec width Hf; cbn [put_str];
    try lia; try apply sim_fuel. sim_go; apply IH; lia.
Qed.

Lemma sim_rewind f1 f2 fmt : (f1 <= f2)%nat -> sim (rewind f1 fmt) (rewind f2 fmt).
Proof using Hmem.
  revert f2 fmt. induction f1 as [|f1 IH]; intros [|f2] fmt Hf; cbn [rewind];
    try lia; try apply sim_fuel. sim_go. apply IH. lia.
Qed.
#[local] Hint Resolve sim_read_width sim_put_str sim_rewind : sim.

Lemma sim_print_s p x : sim (print_s putch1 p x) (print_s putch2 p x).
Proof using Hputch Hmem. unfold print_s. sim_go. Qed.
#[local] Hint Resolve sim_print_s : sim.

Lemma sim_number n base x : sim (number putch1 n base x) (number putch2 n base x).
Proof using Hputch Hmem. apply sim_printnum. Qed.
#[local] Hint Resolve sim_number : sim.

Lemma sim_loops f1 : forall f2, (f1 <= f2)%nat ->
  (forall fmt ap, sim (vprintfmt_loop putch1 lit f1 fmt ap) (vprintfmt_loop putch2 lit f2 fmt ap)) /\
  (forall fmt ap x, sim (reswitch putch1 lit f1 fmt ap x) (reswitch putch2 lit f2 fmt ap x)).
Proof using Hputch Hmem.
  induction f1 as [|f1 IH]; intros [|f2] Hf; try lia; try (split; intros; apply sim_fuel).
  destruct (IH f2 ltac:(lia)) as [IH1 IH2]. split.
  - intros fmt ap. cbn [vprintfmt_loop]. sim_go.
  - intros fmt ap x. cbn [reswitch]. sim_go.
Qed.

Lemma sim_vprintfmt fmt ap : sim (vprintfmt putch1 lit fmt ap) (vprintfmt putch2 lit fmt ap).
Proof using Hputch Hmem.
  unfold vprintfmt. apply sim_get. intros [m1 d1] [m2 d2] H. apply sim_loops. cbn in H. lia.
Qed.
End Sim.

(** ** The stream and the buffer *)

(** A [putch] that appends to a list and leaves memory alone. *)
Definition sputch (ch : Z) : M (pst (list Z)) unit := modify (fun s => (fst s, snd s ++ [u8 ch])).

(** What [vprintfmt] prints in memory [m]. *)
Definition printed (lit : string -> Z) (m : mem) (fmt : Z) (ap : list Z) : outcome (list Z) :=
  match vprintfmt sputch lit fmt ap (m, []) with
  | Ret (_, (_, out)) => Ret out
  | Panic => Panic
  | OutOfFuel => OutOfFuel
  end.

(** Memory without the buffer: a format or a string argument read in it cannot be
    overwritten by the output. *)
Definition without (m : mem) (str size : Z) : mem :=
  filter (fun kv => ~ (str <= fst kv < str + size)) m.

Section Buffer.
Context (lit : string -> Z) (m : mem) (str size : Z).
Context (Hstr : 0 < str) (Hsize : 0 < size) (Htop : str + size <= 2 ^ 32).
Context (Hbuf : accessible m str size).

Definition kept (out : list Z) : list Z := take (Z.to_nat (size - 1)) out.

Definition brel (s1 : pst (list Z)) (s2 : pst sprintbuf) : Prop :=
  fst s1 = without m str size /\
  fst s2 = write_bytes m str (kept (snd s1)) /\
  snd s2 = mk_buf (str + Z.of_nat (length (kept (snd s1)))) (str + size - 1)
                  (s32 (Z.of_nat (length (snd s1)))).

Lemma length_kept out : Z.of_nat (length (kept out)) = Z.min (size - 1) (Z.of_nat (length out)).
Proof using Hsize. unfold kept. rewrite length_take. lia. Qed.

Lemma brel_mem s1 s2 : brel s1 s2 -> fst s1 ⊆ fst s2.
Proof using Hsize.
  intros (-> & -> & _). apply map_subseteq_spec. intros k v [Hk Ho]%map_lookup_filter_Some. cbn in Ho.
  rewrite write_bytes_outside; [done|]. rewrite length_kept. lia.
Qed.

Lemma s32_succ x : s32 (s32 x + 1) = s32 (x + 1).
Proof using Type.
  unfold s32. f_equal. replace ((x + 2 ^ 31) mod 2 ^ 32 - 2 ^ 31 + 1 + 2 ^ 31) with ((x + 2 ^ 31) mod 2 ^ 32 + 1) by lia.
  rewrite Z.add_mod_idemp_l by lia. f_equal. lia.
Qed.

Lemma brel_putch c : sim brel (sputch c) (sprintputch c).
Proof using Hsize Hbuf.
  intros [m1 out] [m2 b] [] s1' (H1 & H2 & H3) [= <-]. cbn [fst snd] in *. subst m1 m2 b.
  unfold sprintputch. rewrite bind_get. cbn [buf ebuf cnt]. pose proof (length_kept out) as L.
  assert (Hc : s32 (s32 (Z.of_nat (length out)) + 1) = s32 (Z.of_nat (length (out ++ [u8 c])))).
  { rewrite s32_succ, length_app. f_equal. cbn. lia. }
  rewrite Hc. destruct (Z.ltb_spec (str + Z.of_nat (length (kept out))) (str + size - 1)) as [Hlt|Hge].
  - assert (Hk : kept (out ++ [u8 c]) = kept out ++ [u8 c]).
    { unfold kept. rewrite !take_ge by (rewrite ?length_app; cbn; lia). done. }
    destruct (Hbuf (Z.of_nat (length (kept out))) ltac:(lia)) as [v Hv].
    destruct (write_bytes_is_Some m str (kept out) _ (mk_is_Some _ _ Hv)) as [w Hw].
    eexists. split.
    + unfold bind at 1 2, put, on_mem. cbn [fst snd]. rewrite st_byte by done. reflexivity.
    + unfold brel. cbn [fst snd]. rewrite Hk, write_bytes_snoc, (length_app (kept out)). cbn [length].
      replace (str + Z.of_nat (length (kept out) + 1)) with (str + Z.of_nat (length (kept out)) + 1) by lia.
      done.
  - assert (Hk : kept (out ++ [u8 c]) = kept out).
    { unfold kept. rewrite take_app_le; [done|]. lia. }
    eexists. split; [reflexivity|]. unfold brel. cbn [fst snd]. by rewrite Hk.
Qed.

Lemma vsnprintf_ok fmt ap out :
  printed lit (without m str size) fmt ap = Ret out ->
  vsnprintf lit str size fmt ap m =
    Ret (s32 (Z.of_nat (length out)), write_bytes m str (kept out ++ [0])).
Proof using Hstr Hsize Htop Hbuf.
  unfold printed, vsnprintf. destruct (vprintfmt sputch _ _ _ _) as [[[] [m1 o]]| |] eqn:E; [|done|done].
  intros [= ->]. rewrite (u32_small (str + size - 1)) by (unfold is_u32; lia). cbn [buf ebuf].
  unfold NULL. destruct (Z.eqb_spec str 0); [lia|]. destruct (Z.ltb_spec (str + size - 1) str); [lia|]. cbn [orb].
  assert (HR : brel (without m str size, []) (m, mk_buf str (str + size - 1) 0)).
  { unfold brel, kept. cbn [fst snd]. rewrite take_nil. cbn. by rewrite Z.add_0_r. }
  destruct (sim_vprintfmt brel brel_mem sputch sprintputch lit brel_putch fmt ap _ _ _ _ HR E) as ([m2 b] & -> & _ & Hm & Hb).
  cbn [fst snd] in Hm, Hb. subst m2 b. cbn [buf cnt].
  assert (Hk := length_kept out). mstep st_ok; [|apply write_bytes_is_Some, Hbuf; lia|lia].
  unfold ret. by rewrite write_bytes_snoc.
Qed.
End Buffer.

(** ** Formatting ends

    [runs c Q]: the routine [c], printing to a stream in memory [m], either returns
    with [Q] and memory unchanged or faults; it does not run out of fuel. *)

Section Ends.
Context (lit : string -> Z) (m : mem).

Definition runs {A} (c : M (pst (list Z)) A) (Q : A -> Prop) : Prop :=
  forall out, match c (m, out) with
              | Ret (a, (m', _)) => m' = m /\ Q a
              | Panic => True
              | OutOfFuel => False
              end.

Lemma runs_bind {A B} (c : M _ A) (k : A -> M _ B) P Q :
  runs c P -> (forall a, P a -> runs (k a) Q) -> runs (bind c k) Q.
Proof using Type.
  intros Hc Hk out. specialize (Hc out). unfold bind. destruct (c (m, out)) as [[a [m' o]]| |]; [|done|done].
  destruct Hc as [-> Ha]. apply Hk, Ha.
Qed.

Lemma runs_ret {A} (a : A) (Q : A -> Prop) : Q a -> runs (ret a) Q.
Proof using Type. intros H out. done. Qed.

Lemma runs_panic {A} (Q : A -> Prop) : runs panic Q.
Proof using Type. intros out. done. Qed.

Lemma runs_deref {A} (o : option A) (Q : A -> Prop) : (forall a, o = Some a -> Q a) -> runs (deref o) Q.
Proof using Type. intros H. destruct o as [a|]; [apply runs_ret; auto|apply runs_panic]. Qed.

Lemma runs_weaken {A} (c : M _ A) P (Q : A -> Prop) : runs c P -> (forall a, P a -> Q a) -> runs c Q.
Proof using Type.
  intros Hc H out. specialize (Hc out). destruct (c (m, out)) as [[a [m' o]]| |]; [|done|done].
  destruct Hc. split; auto.
Qed.

Lemma runs_get {A} (k : pst (list Z) -> M _ A) Q :
  (forall out, runs (k (m, out)) Q) -> runs (bind get k) Q.
Proof using Type. intros H out. rewrite bind_get. apply H. Qed.

Lemma runs_ld a : runs (on_mem (ld a)) (fun v => m !! a = Some v).
Proof using Type. intros out. unfold on_mem, ld, bind, get, deref. cbn. by destruct (m !! a). Qed.

Lemma runs_sputch c : runs (sputch c) (fun _ => True).
Proof using Type. intros out. done. Qed.
Hint Resolve runs_ld runs_sputch : sim.

Lemma runs_pad n c : runs (pad sputch n c) (fun _ => True).
Proof using Type.
  induction n as [|n IH]; cbn [pad]; [by apply runs_ret|].
  eapply runs_bind; [apply runs_sputch|]. done.
Qed.

Lemma runs_printnum_loop f n base width padc :
  2 <= base < 2 ^ 32 -> 0 <= n < 2 ^ 64 -> n < 2 ^ Z.of_nat f ->
  runs (printnum_loop sputch (S f) n base width padc) (fun _ => True).
Proof using Type.
  intros Hb. revert n width. induction f as [|f IH]; intros n width Hn Hf; cbn [printnum_loop].
  all: rewrite do_div_ok by lia; cbn [deref]; intros out; rewrite bind_ret; revert out.
  all: apply (runs_bind _ _ (fun _ => True)); [destruct (Z.leb_spec base n); [|apply runs_pad]|].
  - change (2 ^ Z.of_nat 0) with 1 in Hf. lia.
  - intros _ _. apply (runs_bind _ _ (fun _ => True)); [by apply runs_deref|]. intros d _. apply runs_sputch.
  - assert (n / base <= n / 2) by (apply Z.div_le_compat_l; lia).
    assert (n / 2 < 2 ^ Z.of_nat f).
    { apply Z.div_lt_upper_bound; [lia|]. rewrite <- Z.pow_succ_r by lia. by replace (Z.succ (Z.of_nat f)) with (Z.of_nat (S f)) by lia. }
    assert (0 <= n / base) by (apply Z.div_pos; lia). assert (n / 2 <= n) by dlia. apply IH; lia.
  - intros _ _. apply (runs_bind _ _ (fun _ => True)); [by apply runs_deref|]. intros d _. apply runs_sputch.
Qed.

Lemma runs_number n base x :
  2 <= base < 2 ^ 32 -> 0 <= n < 2 ^ 64 -> runs (number sputch n base x) (fun _ => True).
Proof using Type. intros Hb Hn. apply runs_printnum_loop; [done|done|]. exact (proj2 Hn). Qed.

Lemma runs_read_width f fmt ch acc :
  room 0 f m fmt ->
  runs (read_width f fmt ch acc) (fun r => fmt <= snd r /\ accessible m fmt (snd r - fmt)).
Proof using Type.
  revert fmt ch acc. induction f as [|f IH]; intros fmt ch acc Hr; cbn [read_width].
  { apply room_more in Hr. lia. }
  eapply runs_bind; [apply runs_ld|]. intros c Hc. cbv zeta.
  destruct ((s8 c <? 48) || (57 <? s8 c)).
  - apply runs_ret. cbn. split; [lia|]. intros i Hi. lia.
  - eapply runs_weaken; [apply IH; eapply room_step; [by rewrite Hc|exact Hr]|].
    intros [w q] [Hq Ha]. cbn in *. split; [lia|]. apply (accessible_join _ _ (fmt + 1)); [lia| |done].
    replace (fmt + 1 - fmt) with 1 by lia. apply accessible_1. by rewrite Hc.
Qed.

Lemma runs_strnlen p len : runs (on_mem (strnlen p len)) (fun _ => True).
Proof using Type.
  assert (H : forall f s cnt, room 0 f m s ->
    match strnlen_loop f s len cnt m with Ret (_, m') => m' = m | Panic => True | OutOfFuel => False end).
  { induction f as [|f IH]; intros s cnt Hr; cbn [strnlen_loop]; [apply room_more in Hr; lia|].
    destruct (cnt <? len); [|done]. unfold ld, bind, get, deref. destruct (m !! s) as [c|] eqn:E; [|done]. cbn.
    destruct (c =? 0); [done|]. apply IH. eapply room_step; [by rewrite E|done]. }
  intros out. unfold on_mem, strnlen. rewrite bind_get. cbn [fst].
  assert (H0 := room_start 0 m p). rewrite Nat.add_0_r in H0. specialize (H _ _ 0 H0).
  by destruct (strnlen_loop (span m) p len 0 m) as [[? ?]| |].
Qed.

Lemma runs_put_str f p prec width alt :
  room 0 f m p -> runs (put_str sputch f p prec width alt) (fun _ => True).
Proof using Type.
  revert p prec width. induction f as [|f IH]; intros p prec width Hr; cbn [put_str].
  { apply room_more in Hr. lia. }
  eapply runs_bind; [apply runs_ld|]. intros c Hc. cbv zeta. destruct (s8 c =? 0); [by apply runs_ret|].
  destruct ((prec <? 0) || _); [|by apply runs_ret].
  apply (runs_bind _ _ (fun _ => True)); [destruct (alt && _); apply runs_sputch|].
  intros _ _. apply IH. eapply room_step; [by rewrite Hc|done].
Qed.

Lemma runs_print_s p x : runs (print_s sputch p x) (fun _ => True).
Proof using Type.
  unfold print_s. apply runs_get. intros out. cbv beta iota.
  apply (runs_bind _ _ (fun _ => True)).
  - destruct ((0 <? width x) && _); [|by apply runs_ret].
    eapply runs_bind; [apply runs_strnlen|]. intros n _. cbv zeta.
    eapply runs_bind; [apply runs_pad|]. intros _ _. by apply runs_ret.
  - intros w _. assert (H0 := room_start 0 m p). rewrite Nat.add_0_r in H0.
    eapply runs_bind; [by apply runs_put_str|]. intros w' _. apply runs_pad.
Qed.

(** Going back finds the ['%'] that started the conversion, and nothing before. *)
Lemma runs_rewind q k : m !! (q - 1) = Some 37 ->
  forall f, (k < f)%nat -> runs (rewind f (q + Z.of_nat k)) (fun r => q <= r <= q + Z.of_nat k).
Proof using Type.
  intros Hq. induction k as [|k IH]; intros [|f] Hf; try lia; cbn [rewind];
    (eapply runs_bind; [apply runs_ld|]); intros c Hc.
  - rewrite Z.add_0_r in *. rewrite Hc in Hq. injection Hq as ->. apply runs_ret. lia.
  - destruct (c =? 37); [apply runs_ret; lia|].
    replace (q + Z.of_nat (S k) - 1) with (q + Z.of_nat k) by lia.
    eapply runs_weaken; [apply IH; lia|]. cbn. intros; lia.
Qed.

(** Arguments at their sizes. *)
Abbreviation words := (Forall is_u32).

Lemma va_word_ok ap w ap' : words ap -> va_word ap = Some (w, ap') -> is_u32 w /\ words ap'.
Proof using Type. intros H E. destruct H as [|x l Hx Hl]; [done|]. by injection E as -> ->. Qed.

Lemma getuint_ok ap lf n ap' : words ap -> getuint ap lf = Some (n, ap') -> 0 <= n < 2 ^ 64 /\ words ap'.
Proof using Type.
  unfold getuint. intros H E. destruct (2 <=? lf).
  - destruct H as [|x l Hx Hl]; [done|]. destruct Hl as [|y l Hy Hl]; [done|]. injection E as <- <-.
    unfold is_u32 in *. split; [lia|done].
  - destruct (va_word_ok _ _ _ H E) as [Hw ?]. unfold is_u32 in Hw. split; [lia|done].
Qed.

Lemma getint_words ap lf n ap' : words ap -> getint ap lf = Some (n, ap') -> words ap'.
Proof using Type.
  unfold getint. intros H E. destruct (2 <=? lf).
  - destruct H as [|x l Hx Hl]; [done|]. destruct Hl as [|y l Hy Hl]; [done|]. by injection E as <- <-.
  - destruct H as [|x l Hx Hl]; [done|]. by injection E as <- <-.
Qed.

Lemma u64_range x : 0 <= u64 x < 2 ^ 64.
Proof using Type. unfold u64. apply Z.mod_pos_bound. lia. Qed.

(** The two formats that [%e] prints with. *)
Definition error_literals : Prop :=
  bytes_at m (lit "error %d") (bytes_of "error %d" ++ [0]) /\ bytes_at m (lit "%s") (bytes_of "%s" ++ [0]).

Lemma runs_ld_is {A} a v (k : Z -> M _ A) Q :
  m !! a = Some v -> runs (k v) Q -> runs (bind (on_mem (ld a)) k) Q.
Proof using Type. intros Ha Hk. eapply runs_bind; [apply runs_ld|]. intros c Hc. rewrite Ha in Hc. by injection Hc as <-. Qed.

Lemma runs_literal f p c ap :
  m !! p = Some c -> negb (c =? 37) = true -> (c =? 0) = false ->
  runs (vprintfmt_loop sputch lit f (p + 1) ap) (fun _ => True) ->
  runs (vprintfmt_loop sputch lit (S f) p ap) (fun _ => True).
Proof using Type.
  intros Hc E1 E2 Hk. cbn [vprintfmt_loop]. eapply runs_ld_is; [exact Hc|]. rewrite E1, E2.
  eapply runs_bind; [apply runs_sputch|]. done.
Qed.

Lemma runs_error_d f e :
  error_literals -> (8 <= f)%nat -> runs (vprintfmt_loop sputch lit f (lit "error %d") [e]) (fun _ => True).
Proof using Type.
  intros [H _] Hf. do 8 (destruct f as [|f]; [lia|]).
  change (bytes_of "error %d" ++ [0]) with [101; 114; 114; 111; 114; 32; 37; 100; 0] in H.
  do 6 (destruct H as [Hc H]; eapply runs_literal; [exact Hc|done|done|]; clear Hc).
  destruct H as (H1 & H2 & H3 & _). cbn [vprintfmt_loop]. eapply runs_ld_is; [exact H1|]. cbn [Z.eqb Pos.eqb negb].
  apply (runs_bind _ _ (fun r => fst r = lit "error %d" + 1 + 1 + 1 + 1 + 1 + 1 + 1 + 1)).
  - cbn [reswitch]. apply runs_get. intros out. eapply runs_ld_is; [exact H2|].
    cbn [Z.eqb Pos.eqb negb Z.leb Z.compare Pos.compare Pos.compare_cont andb lflag spec0].
    apply (runs_bind _ _ (fun a => a = (s32 e, []))); [apply runs_deref; by intros a [= <-]|]. intros a ->.
    eapply (runs_bind _ _ (fun _ => True)); [|intros; apply runs_ret; reflexivity].
    destruct (s32 e <? 0); [eapply runs_bind; [apply runs_sputch|]; intros _ _|]; apply runs_number; try lia; apply u64_range.
  - intros [q ap] Hq. cbn in Hq. subst q. eapply runs_ld_is; [exact H3|]. by apply runs_ret.
Qed.

Lemma runs_percent_s f p :
  error_literals -> (2 <= f)%nat -> runs (vprintfmt_loop sputch lit f (lit "%s") [p]) (fun _ => True).
Proof using Type.
  intros [_ H] Hf. do 2 (destruct f as [|f]; [lia|]). destruct H as (H1 & H2 & H3 & _).
  cbn [vprintfmt_loop]. eapply runs_ld_is; [exact H1|]. cbn [Z.eqb Pos.eqb negb].
  apply (runs_bind _ _ (fun r => fst r = lit "%s" + 1 + 1)).
  - cbn [reswitch]. apply runs_get. intros out. eapply runs_ld_is; [exact H2|].
    cbn [Z.eqb Pos.eqb negb Z.leb Z.compare Pos.compare Pos.compare_cont andb].
    apply (runs_bind _ _ (fun a => a = (p, []))); [apply runs_deref; by intros a [= <-]|]. intros a ->.
    eapply runs_bind; [apply runs_print_s|]. intros; apply runs_ret; reflexivity.
  - intros [q ap] Hq. cbn in Hq. subst q. eapply runs_ld_is; [exact H3|]. by apply runs_ret.
Qed.

(** Where a conversion that starts at [q], after its ['%'], may leave the format. *)
Definition after (q : Z) (r : Z * list Z) : Prop :=
  q <= fst r /\ accessible m q (fst r - q) /\ words (snd r).

Lemma runs_print {A} (c : M _ A) q fmt ap :
  runs c (fun _ => True) -> after q (fmt, ap) -> runs (bind c (fun _ => ret (fmt, ap))) (after q).
Proof using Type. intros Hc Ha. eapply runs_bind; [exact Hc|]. intros _ _. by apply runs_ret. Qed.

(** A conversion that takes an argument, prints and is done. *)
Lemma runs_conv (o : option (Z * list Z)) (P : Z -> Prop) (c : Z -> M _ unit) q fmt :
  (forall n ap', o = Some (n, ap') -> P n /\ words ap') ->
  (forall ap', words ap' -> after q (fmt, ap')) ->
  (forall n, P n -> runs (c n) (fun _ => True)) ->
  runs ('(n, ap) <- deref o ;; c n ;; ret (fmt, ap)) (after q).
Proof using Type.
  intros Ho Ha Hc. apply (runs_bind _ _ (fun a => P (fst a) /\ words (snd a))).
  - apply runs_deref. intros [n ap'] E. by apply Ho.
  - intros [n ap'] [Hn Hw]. apply runs_print; [by apply Hc|by apply Ha].
Qed.

Section Switch.
Context (f : nat) (q p : Z) (Hlit : error_literals) (Hpct : m !! (q - 1) = Some 37).
Context (Hqp : q <= p) (Hacc : accessible m q (p - q)) (Hroom : room 9 (S f) m p).
Context (Hre : forall p' ap x, words ap -> q <= p' -> accessible m q (p' - q) -> room 9 f m p' ->
               runs (reswitch sputch lit f p' ap x) (after q)).

Lemma runs_switch ap x : words ap -> runs (reswitch sputch lit (S f) p ap x) (after q).
Proof using Hlit Hpct Hqp Hacc Hroom Hre.
  intros Hw. cbn [reswitch]. apply runs_get. intros out. cbv beta iota.
  eapply runs_bind; [apply runs_ld|]. intros ch Hch. cbv zeta.
  assert (Hs : is_Some (m !! p)) by by rewrite Hch.
  assert (Hroom' : room 9 f m (p + 1)) by by apply room_step.
  assert (Hacc' : accessible m q (p + 1 - q)).
  { apply (accessible_join _ _ p); [lia|done|]. replace (p + 1 - p) with 1 by lia. by apply accessible_1. }
  assert (Hgo : forall ap' x', words ap' -> runs (reswitch sputch lit f (p + 1) ap' x') (after q)).
  { intros ap' x' Hw'. apply Hre; [done|lia|done|done]. }
  assert (Hend : forall ap', words ap' -> after q (p + 1, ap')) by (intros ap' Hw'; split_and!; cbn; [lia|done|done]).
  assert (Hf := room_more _ _ _ _ Hroom').
  assert (Harg : forall n ap', va_word ap = Some (n, ap') -> is_u32 n /\ words ap') by (intros n ap'; by apply va_word_ok).
  assert (Hnum : forall n ap', getuint ap (lflag x) = Some (n, ap') -> 0 <= n < 2 ^ 64 /\ words ap') by (intros n ap'; by apply getuint_ok).
  assert (Hint : forall n ap', getint ap (lflag x) = Some (n, ap') -> True /\ words ap') by (intros n ap' E; split; [done|by eapply getint_words]).
  assert (Hptr : forall n ap', va_word ap = Some (n, ap') -> 0 <= n < 2 ^ 64 /\ words ap').
  { intros n ap' E. destruct (Harg _ _ E) as [Hn ?]. unfold is_u32 in Hn. split; [lia|done]. }
  destruct (ch =? 45); [by apply Hgo|]. destruct (ch =? 48); [by apply Hgo|].
  destruct ((49 <=? ch) && (ch <=? 57)).
  { assert (H0 := room_start 0 m (p + 1)). rewrite Nat.add_0_r in H0.
    eapply runs_bind; [by apply runs_read_width|]. intros [w p'] [Hp' Ha']. cbn in Hp', Ha'.
    apply Hre; [done|lia|apply (accessible_join _ _ (p + 1)); [lia|done|done]|by apply (room_skip _ _ _ (p + 1))]. }
  destruct (ch =? 42).
  { apply (runs_bind _ _ (fun a => words (snd a))); [apply runs_deref; intros [n ap'] E; by apply (Harg _ _ E)|].
    intros [n ap'] Hw'. by apply Hgo. }
  destruct (ch =? 46); [by apply Hgo|]. destruct (ch =? 35); [by apply Hgo|].
  destruct (ch =? 108); [by apply Hgo|].
  destruct (ch =? 99); [by apply (runs_conv _ is_u32); [..|intros; apply runs_sputch]|].
  destruct (ch =? 101).
  { apply (runs_conv _ is_u32); [done..|]. intros n Hn. cbv zeta.
    destruct (MAXERROR <? _); [apply runs_error_d; [done|lia]|]. destruct (_ <? 0); [apply runs_panic|].
    destruct (error_string _); [apply runs_percent_s|apply runs_error_d]; (done || lia). }
  destruct (ch =? 115); [by apply (runs_conv _ is_u32); [..|intros; apply runs_print_s]|].
  destruct (ch =? 100).
  { apply (runs_conv _ (fun _ => True)); [done..|]. intros n _.
    destruct (n <? 0); [eapply runs_bind; [apply runs_sputch|]; intros _ _|]; apply runs_number; try lia; apply u64_range. }
  destruct (ch =? 117); [by apply (runs_conv _ (fun n => 0 <= n < 2 ^ 64)); [..|intros; apply runs_number]|].
  destruct (ch =? 111); [by apply (runs_conv _ (fun n => 0 <= n < 2 ^ 64)); [..|intros; apply runs_number]|].
  destruct (ch =? 112).
  { do 2 (eapply runs_bind; [apply runs_sputch|]; intros _ _).
    by apply (runs_conv _ (fun n => 0 <= n < 2 ^ 64)); [..|intros; apply runs_number]. }
  destruct (ch =? 120); [by apply (runs_conv _ (fun n => 0 <= n < 2 ^ 64)); [..|intros; apply runs_number]|].
  destruct (ch =? 37); [apply runs_print; [apply runs_sputch|by apply Hend]|].
  eapply runs_bind; [apply runs_sputch|]. intros _ _.
  replace (p + 1 - 1) with (q + Z.of_nat (Z.to_nat (p - q))) by lia.
  eapply runs_bind.
  { apply runs_rewind; [done|]. apply accessible_size in Hacc. unfold span. lia. }
  intros r Hr. cbn in Hr. apply runs_ret. split_and!; cbn; [lia| |done]. intros i Hi. apply Hacc. lia.
Qed.
End Switch.

Lemma runs_loops (Hlit : error_literals) f :
  (forall p ap, words ap -> room 9 f m p -> runs (vprintfmt_loop sputch lit f p ap) (fun _ => True)) /\
  (forall q p ap x, m !! (q - 1) = Some 37 -> words ap -> q <= p -> accessible m q (p - q) -> room 9 f m p ->
     runs (reswitch sputch lit f p ap x) (after q)).
Proof using Type.
  induction f as [|f [IH1 IH2]]; [split; intros; exfalso; match goal with H : room _ _ _ _ |- _ => apply room_more in H; lia end|].
  split; [|intros q p ap x Hq Hw Hqp Ha Hr; apply runs_switch; try done; intros; by apply IH2].
  intros p ap Hw Hr. cbn [vprintfmt_loop]. eapply runs_bind; [apply runs_ld|]. intros ch Hch.
  assert (Hr' : room 9 f m (p + 1)) by (apply room_step; [by rewrite Hch|done]).
  destruct (Z.eqb_spec ch 37) as [->|]; cbn [negb].
  - eapply runs_bind.
    + apply (IH2 (p + 1)); [by replace (p + 1 - 1) with p by lia|done|lia| |done]. intros i Hi. lia.
    + intros [p' ap'] (Hp' & Ha' & Hw'). cbn in Hp', Ha', Hw'. apply IH1; [done|]. by apply (room_skip _ _ _ (p + 1)).
  - destruct (ch =? 0); [by apply runs_ret|]. eapply runs_bind; [apply runs_sputch|]. intros _ _. by apply IH1.
Qed.

Lemma printed_ends fmt ap : error_literals -> words ap -> printed lit m fmt ap <> OutOfFuel.
Proof using Type.
  intros Hl Hw. destruct (runs_loops Hl (span m + 12)) as [H _]. specialize (H fmt ap Hw).
  assert (Hr : room 9 (span m + 12) m fmt).
  { destruct (room_start 12 m fmt) as (k & Hk & Ha & Hs). exists k. split_and!; [done|done|lia]. }
  specialize (H Hr []). unfold printed, vprintfmt. rewrite bind_get. cbv beta iota.
  by destruct (vprintfmt_loop _ _ _ _ _ _) as [[[] [? ?]]| |].
Qed.
End Ends.

(** ** Printed numbers *)

(** The digits of a number, most significant first, and their value. *)
Fixpoint digits_of (f : nat) (base n : Z) : list Z :=
  match f with
  | O => [n]
  | S f => if base <=? n then digits_of f base (n / base) ++ [n mod base] else [n]
  end.

Definition value (base v : Z) (ds : list Z) : Z := fold_left (fun v d => v * base + d) ds v.

Definition digit_char (d : Z) : Z := if d <? 10 then 48 + d else 87 + d.

Section Numbers.
Context (base : Z) (Hbase : 2 <= base <= 16).

Lemma half_pow f n : 0 <= n < 2 ^ Z.of_nat (S f) -> 0 <= n / base < 2 ^ Z.of_nat f.
Proof using Hbase.
  intros Hn. split; [apply Z.div_pos; lia|]. apply Z.div_lt_upper_bound; [lia|].
  rewrite Nat2Z.inj_succ, Z.pow_succ_r in Hn by lia. nia.
Qed.

Lemma digits_of_range f n :
  0 <= n < 2 ^ Z.of_nat f -> Forall (fun d => 0 <= d < base) (digits_of f base n).
Proof using Hbase.
  revert n. induction f as [|f IH]; intros n Hn; cbn [digits_of].
  - change (2 ^ Z.of_nat 0) with 1 in Hn. repeat constructor; lia.
  - destruct (Z.leb_spec base n).
    + apply Forall_app. split; [by apply IH, half_pow|]. constructor; [|constructor]. apply Z.mod_pos_bound. lia.
    + repeat constructor; lia.
Qed.

Lemma digits_of_value f n : value base 0 (digits_of f base n) = n.
Proof using Hbase.
  unfold value. revert n. induction f as [|f IH]; intros n; cbn [digits_of]; [cbn; lia|].
  destruct (Z.leb_spec base n); [|cbn; lia].
  rewrite fold_left_app, IH. cbn. assert (H1 := Z.div_mod n base ltac:(lia)). lia.
Qed.

Lemma digits_of_short f n k :
  0 <= n < base ^ Z.of_nat (S k) -> (length (digits_of f base n) <= S k)%nat.
Proof using Hbase.
  revert n k. induction f as [|f IH]; intros n k Hn; cbn [digits_of]; [cbn; lia|].
  destruct (Z.leb_spec base n) as [Hge|]; [|cbn; lia]. rewrite length_app. cbn [length].
  rewrite Nat2Z.inj_succ, Z.pow_succ_r in Hn by lia. destruct k as [|k]; [cbn in Hn; lia|].
  specialize (IH (n / base) k). assert (0 <= n / base < base ^ Z.of_nat (S k)).
  { split; [apply Z.div_pos; lia|]. apply Z.div_lt_upper_bound; lia. } lia.
Qed.

Lemma digits_of_nonempty f n : digits_of f base n <> [].
Proof using Type.
  destruct f; cbn [digits_of]; [done|]. destruct (base <=? n); [|done]. by intros [_ ?]%app_nil.
Qed.

Lemma digits16_char d : 0 <= d < 16 -> digits16 !! Z.to_nat d = Some (digit_char d).
Proof using Type.
  intros Hd. assert (Hc : d = 0 \/ d = 1 \/ d = 2 \/ d = 3 \/ d = 4 \/ d = 5 \/ d = 6 \/ d = 7 \/ d = 8 \/ d = 9 \/
    d = 10 \/ d = 11 \/ d = 12 \/ d = 13 \/ d = 14 \/ d = 15) by lia.
  repeat (destruct Hc as [->|Hc]; [reflexivity|]). by subst.
Qed.

Lemma digit_char_u8 d : 0 <= d < 16 -> u8 (digit_char d) = digit_char d.
Proof using Type. intros Hd. apply u8_small. unfold digit_char. case_bool; lia. Qed.

Lemma printnum_S f n w pc :
  printnum_loop sputch (S f) n base w pc =
  ('(result, mod_) <- deref (do_div n base) ;;
   (if base <=? n then printnum_loop sputch f result base (s32 (w - 1)) pc
    else pad sputch (Z.to_nat (s32 (w - 1))) pc) ;;
   d <- deref (digits16 !! Z.to_nat mod_) ;; sputch d).
Proof using Type. reflexivity. Qed.

(** [printnum] with no width prints the digits. *)
Lemma printnum_out f n w pc m out :
  0 <= n < 2 ^ 64 -> n < 2 ^ Z.of_nat f -> - 2 ^ 31 + Z.of_nat f < w <= 0 ->
  printnum_loop sputch (S f) n base w pc (m, out) = Ret (tt, (m, out ++ (digit_char <$> digits_of f base n))).
Proof using Hbase.
  revert n w. induction f as [|f IH]; intros n w Hn Hf Hw.
  all: rewrite printnum_S; cbn [digits_of]; rewrite do_div_ok by lia; cbn [deref]; rewrite bind_ret; cbv beta iota.
  all: rewrite (s32_small (w - 1)) by (unfold is_s32; lia); assert (Hm := Z.mod_pos_bound n base ltac:(lia)).
  all: assert (Hp : pad sputch (Z.to_nat (w - 1)) pc (m, out) = Ret (tt, (m, out)))
    by (replace (Z.to_nat (w - 1)) with 0%nat by lia; done).
  - change (2 ^ Z.of_nat 0) with 1 in Hf. destruct (Z.leb_spec base n); [lia|]. mstep Hp.
    rewrite digits16_char by lia. cbn [deref]. rewrite bind_ret. unfold sputch, modify. cbn [fst snd].
    rewrite digit_char_u8 by lia. rewrite Z.mod_small by lia. done.
  - destruct (Z.leb_spec base n) as [Hge|Hlt].
    + assert (Hh := half_pow f n ltac:(lia)). assert (Hd : n / base <= n) by (apply Z.div_le_upper_bound; nia).
      mstep IH; [|lia|lia|lia].
      rewrite digits16_char by lia. cbn [deref]. rewrite bind_ret. unfold sputch, modify. cbn [fst snd].
      rewrite digit_char_u8 by lia. by rewrite fmap_app, app_assoc.
    + mstep Hp. rewrite digits16_char by lia. cbn [deref]. rewrite bind_ret. unfold sputch, modify. cbn [fst snd].
      rewrite digit_char_u8 by lia. rewrite Z.mod_small by lia. done.
Qed.

Lemma digit_char_back d : 0 <= d < 16 -> digit_of (s8 (digit_char d)) = Some d.
Proof using Type.
  intros Hd. assert (Hc : d = 0 \/ d = 1 \/ d = 2 \/ d = 3 \/ d = 4 \/ d = 5 \/ d = 6 \/ d = 7 \/ d = 8 \/ d = 9 \/
    d = 10 \/ d = 11 \/ d = 12 \/ d = 13 \/ d = 14 \/ d = 15) by lia.
  repeat (destruct Hc as [->|Hc]; [reflexivity|]). by subst.
Qed.

Lemma s32_step v d : s32 (s32 v * base + d) = s32 (v * base + d).
Proof using Hbase.
  unfold s32. f_equal. pose proof (Z.div_mod (v + 2 ^ 31) (2 ^ 32) ltac:(lia)) as Hq.
  set (q := (v + 2 ^ 31) / 2 ^ 32) in *. set (r := (v + 2 ^ 31) mod 2 ^ 32) in *.
  replace (v * base + d + 2 ^ 31) with ((r - 2 ^ 31) * base + d + 2 ^ 31 + q * base * 2 ^ 32) by nia.
  by rewrite Z.mod_add by lia.
Qed.

(** [strtol] reads digits back. *)
Lemma digits_loop_ok m ds : Forall (fun d => 0 <= d < base) ds -> forall f s v,
  bytes_at m s ((digit_char <$> ds) ++ [0]) -> (length ds < f)%nat ->
  digits_loop f s (s32 v) base m = Ret ((s + Z.of_nat (length ds), s32 (value base v ds)), m).
Proof using Hbase.
  induction 1 as [|d ds Hd Hds IH]; intros [|f] s v Hb Hf; try (cbn in Hf; lia); destruct Hb as [Hc Hb]; cbn [digits_loop].
  - mstep ld_ok; [|exact Hc]. cbn. by rewrite Z.add_0_r.
  - mstep ld_ok; [|exact Hc]. rewrite digit_char_back by lia. destruct (Z.leb_spec base d); [lia|].
    rewrite s32_step, IH; [|done|cbn in Hf; lia]. cbn [value fold_left length]. do 3 f_equal. lia.
Qed.

(** A sign (or none), digits and the NUL: what [strtol] makes of them. *)
Definition signed (neg : bool) (l : list Z) : list Z := if neg then 45 :: l else l.

Lemma digit_char_range d : 0 <= d < 16 -> 48 <= digit_char d <= 102.
Proof using Type. intros. unfold digit_char. case_bool; lia. Qed.

Lemma strtol_prefix_none m s d ds :
  Forall (fun d => 0 <= d < base) (d :: ds) -> bytes_at m s ((digit_char <$> d :: ds) ++ [0]) ->
  strtol_prefix s base m = Ret ((s, base), m).
Proof using Hbase.
  intros [Hd Hds]%Forall_cons (H1 & H2). unfold strtol_prefix.
  destruct (Z.eqb_spec base 0); [lia|]. cbn [orb].
  destruct (base =? 16); [|done]. unfold bind at 1 2. rewrite (ld_ok _ _ _ H1).
  destruct (digit_char d =? 48); [|done].
  destruct ds as [|e ds]; destruct H2 as [H2 _]; cbn [fmap list_fmap app] in H2.
  - by mstep ld_ok; [|exact H2].
  - mstep ld_ok; [|exact H2]. apply Forall_cons in Hds as [He _].
    assert (Hr := digit_char_range e ltac:(lia)). destruct (Z.eqb_spec (digit_char e) 120); [lia|]. done.
Qed.

Lemma strtol_ok m s neg ds :
  ds <> [] -> Forall (fun d => 0 <= d < base) ds ->
  bytes_at m s (signed neg (digit_char <$> ds) ++ [0]) ->
  let v := s32 (value base 0 ds) in
  strtol s base m =
    Ret ((if neg then s32 (- v) else v, s + Z.of_nat (length (signed neg (digit_char <$> ds)))), m).
Proof using Hbase.
  intros Hne Hds Hb v. destruct ds as [|d ds]; [done|]. assert (Hd := Forall_inv Hds). cbn in Hd.
  assert (Hr := digit_char_range d ltac:(lia)).
  assert (Hspan : (length (d :: ds) < span m)%nat).
  { apply bytes_at_accessible, accessible_size in Hb. unfold span. revert Hb. rewrite length_app.
    unfold signed. destruct neg; cbn [length]; rewrite length_fmap; cbn [length]; lia. }
  assert (Hskip : skip_blanks (span m) s m = Ret (s, m)).
  { unfold span. cbn [skip_blanks]. destruct neg; destruct Hb as [Hc _]; (mstep ld_ok; [|exact Hc]); [done|].
    cbn [fmap list_fmap app]. repeat case_bool; try lia. done. }
  unfold strtol. rewrite bind_get. mstep Hskip.
  set (s' := if neg then s + 1 else s).
  assert (Hsign : strtol_sign s m = Ret ((s', neg), m)).
  { unfold strtol_sign. destruct neg; destruct Hb as [Hc _]; (mstep ld_ok; [|exact Hc]); [done|].
    cbn [fmap list_fmap app]. repeat case_bool; try lia. done. }
  mstep Hsign.
  assert (Hb' : bytes_at m s' ((digit_char <$> d :: ds) ++ [0])) by (destruct neg; [exact (proj2 Hb)|exact Hb]).
  mstep strtol_prefix_none; [|exact Hds|exact Hb'].
  mstep (digits_loop_ok m (d :: ds) Hds (span m) s' 0 Hb' Hspan). unfold ret, v, s', signed. do 3 f_equal.
  destruct neg; cbn [length]; rewrite length_fmap; cbn [length]; lia.
Qed.
End Numbers.

(** ** One conversion *)

Lemma on_mem_ld {D} (m : mem) (d : D) a v : m !! a = Some v -> on_mem (ld a) (m, d) = Ret (v, (m, d)).
Proof. intros H. unfold on_mem. cbn [fst]. by rewrite (ld_ok _ _ _ H). Qed.

Lemma printed_conv lit m fmt c ap out :
  bytes_at m fmt [37; c; 0] ->
  (forall f, reswitch sputch lit (S f) (fmt + 1) ap spec0 (m, []) = Ret ((fmt + 1 + 1, []), (m, out))) ->
  printed lit m fmt ap = Ret out.
Proof.
  intros (H1 & _ & H3 & _) Hc. unfold printed, vprintfmt. rewrite bind_get. cbv beta iota.
  replace (span m + 12)%nat with (S (S (span m + 10))) by lia. cbn [vprintfmt_loop].
  mstep on_mem_ld; [|exact H1]. cbn [Z.eqb Pos.eqb negb]. mstep Hc. by mstep on_mem_ld; [|exact H3].
Qed.

(** The characters of ["%d"] for an [int] and of ["%x"] for an [unsigned]. *)
Definition decimal (n : Z) : list Z := signed (n <? 0) (digit_char <$> digits_of 64 10 (Z.abs n)).
Definition hexadecimal (n : Z) : list Z := digit_char <$> digits_of 64 16 n.

Lemma printed_d lit m fmt n :
  bytes_at m fmt [37; 100; 0] -> is_s32 n -> printed lit m fmt [u32 n] = Ret (decimal n).
Proof.
  intros Hf Hn. apply (printed_conv _ _ _ 100); [done|]. intros f. destruct Hf as (_ & H2 & _).
  cbn [reswitch]. rewrite bind_get. cbv beta iota. mstep on_mem_ld; [|exact H2].
  cbn [Z.eqb Pos.eqb Z.leb Z.compare Pos.compare Pos.compare_cont andb]. 
  assert (Hg : getint [u32 n] (lflag spec0) = Some (n, [])).
  { cbn. do 2 f_equal. unfold s32, u32, is_s32 in *. dlia. }
  rewrite Hg. cbn [deref]. rewrite bind_ret. cbv beta iota. unfold decimal, is_s32 in *.
  destruct (Z.ltb_spec n 0).
  - replace (u64 (- n)) with (Z.abs n) by (unfold u64; rewrite Z.mod_small; lia).
    unfold number, printnum. unfold bind at 1 2. unfold sputch at 1, modify. cbn [fst snd app].
    rewrite printnum_out; [done|lia|lia|change (2 ^ Z.of_nat 64) with (2 ^ 64); lia|cbn [width spec0]; lia].
  - replace (u64 n) with (Z.abs n) by (unfold u64; rewrite Z.mod_small; lia).
    unfold number, printnum. unfold bind at 1.
    rewrite printnum_out; [done|lia|lia|change (2 ^ Z.of_nat 64) with (2 ^ 64); lia|cbn [width spec0]; lia].
Qed.

Lemma printed_x lit m fmt n :
  bytes_at m fmt [37; 120; 0] -> is_u32 n -> printed lit m fmt [n] = Ret (hexadecimal n).
Proof.
  intros Hf Hn. apply (printed_conv _ _ _ 120); [done|]. intros f. destruct Hf as (_ & H2 & _).
  cbn [reswitch]. rewrite bind_get. cbv beta iota. mstep on_mem_ld; [|exact H2].
  cbn [Z.eqb Pos.eqb Z.leb Z.compare Pos.compare Pos.compare_cont andb getuint va_word deref lflag spec0].
  rewrite bind_ret. cbv beta iota. unfold is_u32, number, printnum in *. unfold bind at 1.
  rewrite printnum_out; [done|lia|lia|change (2 ^ Z.of_nat 64) with (2 ^ 64); lia|cbn [width spec0]; lia].
Qed.

(** A number printed into a buffer that is long enough, read back. *)
Lemma vsnprintf_strtol lit m str size fmt w base neg ds :
  0 < str -> 12 <= size -> str + size <= 2 ^ 32 -> accessible m str size ->
  2 <= base <= 16 -> ds <> [] -> Forall (fun d => 0 <= d < base) ds -> (length ds <= 10)%nat ->
  printed lit (without m str size) fmt [w] = Ret (signed neg (digit_char <$> ds)) ->
  exists m' len, vsnprintf lit str size fmt [w] m = Ret (len, m') /\
    strtol str base m' = Ret ((if neg then s32 (- s32 (value base 0 ds)) else s32 (value base 0 ds), str + len), m').
Proof.
  intros Hs Hz Ht Ha Hb Hne Hds Hlen E.
  assert (Hl : (length (signed neg (digit_char <$> ds)) <= 11)%nat)
    by (destruct neg; cbn [signed length]; rewrite length_fmap; lia).
  eexists _, _. split; [apply vsnprintf_ok; [lia|lia|lia|done|exact E]|].
  rewrite (s32_small (Z.of_nat _)) by (unfold is_s32; lia). unfold kept. rewrite take_ge by lia.
  apply strtol_ok; [done|done|done|]. apply write_bytes_at.
Qed.

(** Every [int] printed with ["%d"] into a buffer of at least 12 bytes is read
    back by [strtol] in base 10, and every [unsigned] printed with ["%x"] by
    [strtol] in base 16 (as the [long] with the same bits); reading stops at the
    NUL, as many characters on as [vsnprintf] returned. *)
Theorem number_roundtrip lit m str size fmt n :
  0 < str -> 12 <= size -> str + size <= 2 ^ 32 -> accessible m str size ->
  (bytes_at (without m str size) fmt (bytes_of "%d" ++ [0]) -> is_s32 n ->
   exists m' len, vsnprintf lit str size fmt [u32 n] m = Ret (len, m') /\
     strtol str 10 m' = Ret ((n, str + len), m')) /\
  (bytes_at (without m str size) fmt (bytes_of "%x" ++ [0]) -> is_u32 n ->
   exists m' len, vsnprintf lit str size fmt [n] m = Ret (len, m') /\
     strtol str 16 m' = Ret ((s32 n, str + len), m')).
Proof.
  intros Hs Hz Ht Ha. split; intros Hf Hn.
  - unfold is_s32 in Hn.
    destruct (vsnprintf_strtol lit m str size fmt (u32 n) 10 (n <? 0) (digits_of 64 10 (Z.abs n))) as (m' & len & E1 & E2);
      [done|done|done|done|lia|apply digits_of_nonempty|apply digits_of_range; [lia|change (2 ^ Z.of_nat 64) with (2 ^ 64); lia]
      |apply digits_of_short; [lia|change (10 ^ Z.of_nat 10) with (10 ^ 10); lia]|by apply printed_d|].
    exists m', len. split; [done|]. rewrite E2, digits_of_value by lia. do 3 f_equal. destruct (Z.ltb_spec n 0).
    + destruct (Z.eq_dec n (- 2 ^ 31)) as [->|]; [reflexivity|].
      rewrite (s32_small (Z.abs n)), s32_small by (unfold is_s32; lia). lia.
    + rewrite s32_small by (unfold is_s32; lia). lia.
  - unfold is_u32 in Hn.
    destruct (vsnprintf_strtol lit m str size fmt n 16 false (digits_of 64 16 n)) as (m' & len & E1 & E2);
      [done|done|done|done|lia|apply digits_of_nonempty|apply digits_of_range; [lia|change (2 ^ Z.of_nat 64) with (2 ^ 64); lia]
      |apply digits_of_short; [lia|change (16 ^ Z.of_nat 10) with (16 ^ 10); lia]|by apply printed_x|].
    exists m', len. split; [done|]. by rewrite E2, digits_of_value by lia.
Qed.

(** [vsnprintf] into a buffer that holds neither its format nor its string
    arguments: when printing to a stream gives [out], the buffer receives the first
    [size - 1] characters of [out] and a NUL, no byte outside the buffer changes,
    and the result is the length of [out]; and printing always ends, in output or
    in a fault, whatever the format. *)
Theorem vsnprintf_spec lit m str size fmt ap :
  0 < str -> 0 < size -> str + size <= 2 ^ 32 -> accessible m str size ->
  error_literals lit (without m str size) -> Forall is_u32 ap ->
  printed lit (without m str size) fmt ap <> OutOfFuel /\
  (forall out, printed lit (without m str size) fmt ap = Ret out ->
   exists m', vsnprintf lit str size fmt ap m = Ret (s32 (Z.of_nat (length out)), m') /\
     bytes_at m' str (take (Z.to_nat (size - 1)) out ++ [0]) /\
     (forall k, ~ (str <= k < str + size) -> m' !! k = m !! k)).
Proof.
  intros Hs Hz Ht Ha Hl Hw. split; [by apply printed_ends|]. intros out E.
  eexists. split; [by apply vsnprintf_ok|]. split.
  - apply write_bytes_at.
  - intros k Hk. apply write_bytes_outside. rewrite length_app, Nat2Z.inj_add, length_kept by done. cbn. lia.
Qed.

(** ** An example: 20 bytes of buffer at 300, literals at 200 and 220, a format at
    100 *)

Definition ex_lit (s : string) : Z := if String.eqb s "error %d" then 200 else 220.

Definition ex_mem (fmt : string) : mem :=
  write_bytes (write_bytes (write_bytes (write_bytes ∅ 300 (replicate 20 0))
    200 (bytes_of "error %d" ++ [0])) 220 (bytes_of "%s" ++ [0])) 100 (bytes_of fmt ++ [0]).

Lemma ex_accessible fmt : accessible (ex_mem fmt) 300 20.
Proof.
  intros i Hi. unfold ex_mem. do 3 apply write_bytes_is_Some.
  destruct (lookup_lt_is_Some_2 (replicate 20 0) (Z.to_nat i)) as [x Hx]; [rewrite length_replicate; lia|].
  rewrite <- (Z2Nat.id i) by lia. by rewrite (write_bytes_lookup _ _ _ _ _ Hx).
Qed.

Lemma vsnprintf_spec_witness :
  printed ex_lit (without (ex_mem "%e: %05x!") 300 20) 100 [4; 255] <> OutOfFuel /\
  (forall out, printed ex_lit (without (ex_mem "%e: %05x!") 300 20) 100 [4; 255] = Ret out ->
   exists m', vsnprintf ex_lit 300 20 100 [4; 255] (ex_mem "%e: %05x!") = Ret (s32 (Z.of_nat (length out)), m') /\
     bytes_at m' 300 (take (Z.to_nat (20 - 1)) out ++ [0]) /\
     (forall k, ~ (300 <= k < 300 + 20) -> m' !! k = ex_mem "%e: %05x!" !! k)).
Proof.
  apply vsnprintf_spec; [lia|lia|lia|apply ex_accessible| |repeat constructor; lia].
  split; repeat split; reflexivity.
Defined.

Lemma number_roundtrip_witness :
  exists m' len, vsnprintf ex_lit 300 20 100 [u32 (-2147483648)] (ex_mem "%d") = Ret (len, m') /\
    strtol 300 10 m' = Ret ((-2147483648, 300 + len), m').
Proof.
  apply (number_roundtrip ex_lit (ex_mem "%d") 300 20 100 (-2147483648));
    [lia|lia|lia|apply ex_accessible|repeat split; reflexivity|unfold is_s32; lia].
Defined.

(** Padding, flags, error names and unknown conversions, as printed. *)
Example printed_examples :
  printed ex_lit (ex_mem "[%5d|%05x|%-4s|%lu]") 100 [7; 255; 220; 9] = Ret (bytes_of "[    7|000ff|%s  |9]") /\
  printed ex_lit (ex_mem "%5q %%") 100 [] = Ret (bytes_of "%5q %") /\
  printed ex_lit (ex_mem "%e") 100 [u32 (-99)] = Ret (bytes_of "error 99").
Proof. split_and!; vm_compute; reflexivity. Qed.

(** The flag ['-'], which is to pad on the right, makes a number be padded on the
    left, with dashes. *)
Example minus_flag_pads_left :
  printed ex_lit (ex_mem "%-5d") 100 [7] = Ret (bytes_of "----7").
Proof. vm_compute. reflexivity. Qed.

(** [printnum] in base 1, which its comment allows, does not end: no number of
    rounds is enough. *)
Lemma printnum_base_1 f n w pc s : 0 < n < 2 ^ 64 -> printnum_loop sputch f n 1 w pc s = OutOfFuel.
Proof.
  intros Hn. revert w s. induction f as [|f IH]; intros w s; [done|].
  rewrite printnum_S, do_div_ok by lia. cbn [deref]. rewrite bind_ret. cbv beta iota.
  destruct (Z.leb_spec 1 n); [|lia]. rewrite Z.div_1_r. unfold bind. by rewrite IH.
Qed.
End PrintfmtInv.
