(* ===== verification/Vmm.v ===== *)
(** * Virtual memory areas (src/code/kern/mm/vmm.c, vmm.h)

    An address space ([mm_struct]) is a list of areas ([vma_struct]) sorted by start
    address, a red-black tree over the same areas once there are enough of them, and
    a one-entry cache.  Areas and address spaces live in one store and refer to each
    other by address; [mmap_list] is the list of the areas' addresses.

    Two parts of the kernel are interfaces here: [RbTree] is what kern/libs/rb_tree.c
    offers and promises, [PageTables] what pmm.c and shmem.c do with page tables and
    shared pages. *)

From S2P Require Import Prelude.
Open Scope Z_scope.

Module Vmm.

(** ** The red-black tree, as its clients see it *)

(** What [rb_node_root], [rb_node_left] and [rb_node_right] let a client walk. *)
Inductive bintree := Leaf | Node (l : bintree) (x : Z) (r : bintree).

Fixpoint inorder (t : bintree) : list Z :=
  match t with Leaf => [] | Node l x r => inorder l ++ x :: inorder r end.

Class RbTree (T : Type) := {
  rb_empty : T;
  rb_insert : (Z -> Z -> Z) -> T -> Z -> T;
  rb_delete : T -> Z -> T;
  rb_node_prev : T -> Z -> option Z;
  rb_shape : T -> bintree;
  rb_empty_law : inorder (rb_shape rb_empty) = [];
  (** a new node goes before the first node that compares greater *)
  rb_insert_law : forall cmp t x l1 l2,
    inorder (rb_shape t) = l1 ++ l2 ->
    Forall (fun y => cmp y x <= 0) l1 -> Forall (fun y => 0 < cmp y x) l2 ->
    inorder (rb_shape (rb_insert cmp t x)) = l1 ++ x :: l2;
  rb_delete_law : forall t x l1 l2,
    inorder (rb_shape t) = l1 ++ x :: l2 -> NoDup (l1 ++ x :: l2) ->
    inorder (rb_shape (rb_delete t x)) = l1 ++ l2;
  rb_prev_law : forall t x l1 l2,
    inorder (rb_shape t) = l1 ++ x :: l2 -> NoDup (l1 ++ x :: l2) ->
    rb_node_prev t x = last l1
}.

(** ** Constants *)

Definition PGSIZE : Z := 4096.
Definition USERBASE : Z := 0x00200000.
Definition USERTOP : Z := 0xB0000000.
Definition KERNBASE : Z := 0xC0000000.
Definition KERNTOP : Z := KERNBASE + 0x38000000.

Definition USER_ACCESS (start end_ : Z) : bool :=
  (USERBASE <=? start) && (start <? end_) && (end_ <=? USERTOP).
Definition KERN_ACCESS (start end_ : Z) : bool :=
  (KERNBASE <=? start) && (start <? end_) && (end_ <=? KERNTOP).

(** ** Page tables and shared pages

    [mapped p d a]: directory [d] maps the page of address [a].  What [unmap_range] does
    is promised for ranges that pass its assertions: whole pages of user memory. *)

Class PageTables (P : Type) := {
  unmap_range : Z -> Z -> Z -> P -> P;
  exit_range : Z -> Z -> Z -> P -> P;
  copy_range : Z -> Z -> Z -> Z -> bool -> P -> Z * P;
  shmem_release : Z -> P -> P;
  mapped : P -> Z -> Z -> Prop;
  unmap_range_law : forall d s e p d' a,
    s mod PGSIZE = 0 -> e mod PGSIZE = 0 -> USER_ACCESS s e = true ->
    mapped (unmap_range d s e p) d' a <-> mapped p d' a /\ ~ (d' = d /\ s <= a < e)
}.

Definition ROUNDDOWN (a n : Z) : Z := a - a mod n.
Definition ROUNDUP (a n : Z) : Z := ROUNDDOWN (u32 (a + n - 1)) n.

Definition VM_READ : Z := 1.
Definition VM_WRITE : Z := 2.
Definition VM_EXEC : Z := 4.
Definition VM_STACK : Z := 8.
Definition VM_SHARE : Z := 16.

Definition RB_MIN_MAP_COUNT : Z := 32.

(** [flags & mask] as a condition. *)
Definition has (flags mask : Z) : bool := negb (Z.land flags mask =? 0).

(** ** State

    The links [list_link] and [rb_link] of an area are its places in [mmap_list] and
    [mmap_tree]; the lock [mm_sem] of an address space and its link [proc_mm_link]
    are not used by the routines below and are left out. *)

Record vma_struct := mk_vma {
  vm_mm : Z; vm_start : Z; vm_end : Z; vm_flags : Z; shmem : Z; shmem_off : Z }.

Record mm_struct (T : Type) := mk_mm {
  mmap_list : list Z; mmap_tree : option T; mmap_cache : Z; pgdir : Z; map_count : Z;
  swap_address : Z; mm_count : Z; locked_by : Z; brk_start : Z; brk : Z }.
Arguments mk_mm {T}.
Arguments mmap_list {T}.
Arguments mmap_tree {T}.
Arguments mmap_cache {T}.
Arguments pgdir {T}.
Arguments map_count {T}.
Arguments swap_address {T}.
Arguments mm_count {T}.
Arguments locked_by {T}.
Arguments brk_start {T}.
Arguments brk {T}.

(** The part of [struct shmem_struct] used here. *)
Record shmem_struct := mk_shmem { len : Z; shmem_ref : Z }.

(** [kmallocs]: what the next calls of [kmalloc] answer. *)
Record vstate (T P : Type) := mk_vstate {
  vmas : gmap Z vma_struct; mms : gmap Z (mm_struct T); shmems : gmap Z shmem_struct;
  kmallocs : list Z; pages : P }.
Arguments mk_vstate {T P}.
Arguments vmas {T P}.
Arguments mms {T P}.
Arguments shmems {T P}.
Arguments kmallocs {T P}.
Arguments pages {T P}.

Section Vmm.
Context {T P : Type} {RB : RbTree T} {PT : PageTables P}.
Abbreviation mm_t := (mm_struct T).
Abbreviation V := (M (vstate T P)).

Definition upd_vmas f (s : vstate T P) : vstate T P := mk_vstate (f (vmas s)) (mms s) (shmems s) (kmallocs s) (pages s).
Definition upd_mms f (s : vstate T P) : vstate T P := mk_vstate (vmas s) (f (mms s)) (shmems s) (kmallocs s) (pages s).
Definition upd_shmems f (s : vstate T P) : vstate T P := mk_vstate (vmas s) (mms s) (f (shmems s)) (kmallocs s) (pages s).
Definition upd_kmallocs f (s : vstate T P) : vstate T P := mk_vstate (vmas s) (mms s) (shmems s) (f (kmallocs s)) (pages s).
Definition upd_pages f (s : vstate T P) : vstate T P := mk_vstate (vmas s) (mms s) (shmems s) (kmallocs s) (f (pages s)).

Definition set_mmap_list l (m : mm_t) : mm_t := mk_mm l (mmap_tree m) (mmap_cache m) (pgdir m) (map_count m) (swap_address m) (mm_count m) (locked_by m) (brk_start m) (brk m).
Definition set_mmap_tree t (m : mm_t) : mm_t := mk_mm (mmap_list m) t (mmap_cache m) (pgdir m) (map_count m) (swap_address m) (mm_count m) (locked_by m) (brk_start m) (brk m).
Definition set_mmap_cache c (m : mm_t) : mm_t := mk_mm (mmap_list m) (mmap_tree m) c (pgdir m) (map_count m) (swap_address m) (mm_count m) (locked_by m) (brk_start m) (brk m).
Definition set_map_count n (m : mm_t) : mm_t := mk_mm (mmap_list m) (mmap_tree m) (mmap_cache m) (pgdir m) n (swap_address m) (mm_count m) (locked_by m) (brk_start m) (brk m).

Definition set_vm_mm x (v : vma_struct) := mk_vma x (vm_start v) (vm_end v) (vm_flags v) (shmem v) (shmem_off v).
Definition set_vm_range a b (v : vma_struct) := mk_vma (vm_mm v) a b (vm_flags v) (shmem v) (shmem_off v).
Definition set_vm_flags f (v : vma_struct) := mk_vma (vm_mm v) (vm_start v) (vm_end v) f (shmem v) (shmem_off v).
Definition set_shmem x off (v : vma_struct) := mk_vma (vm_mm v) (vm_start v) (vm_end v) (vm_flags v) x off.

Definition get_vma (a : Z) : V vma_struct := s <- get ;; deref (vmas s !! a).
Definition get_mm (a : Z) : V mm_t := s <- get ;; deref (mms s !! a).
Definition get_shmem (a : Z) : V shmem_struct := s <- get ;; deref (shmems s !! a).
Definition update_vma f (a : Z) : V unit := get_vma a ;; modify (upd_vmas (alter f a)).
Definition update_mm f (a : Z) : V unit := get_mm a ;; modify (upd_mms (alter f a)).

Definition kmalloc : V Z :=
  s <- get ;;
  match kmallocs s with
  | [] => ret 0
  | a :: l => put (upd_kmallocs (fun _ => l) s) ;; ret a
  end.

Definition shmem_ref_inc (a : Z) : V Z :=
  x <- get_shmem a ;; let n := shmem_ref x + 1 in
  modify (upd_shmems <[a := mk_shmem (len x) n]>) ;; ret n.

Definition shmem_ref_dec (a : Z) : V Z :=
  x <- get_shmem a ;; let n := shmem_ref x - 1 in
  modify (upd_shmems <[a := mk_shmem (len x) n]>) ;; ret n.

Definition shmem_destroy (a : Z) : V unit :=
  get_shmem a ;; modify (upd_pages (shmem_release a)) ;; modify (upd_shmems (delete a)).

(** ** Creation *)

Definition mm_create : V Z :=
  mm <- kmalloc ;;
  if negb (mm =? 0) then (modify (upd_mms <[mm := mk_mm [] None 0 0 0 0 0 0 0 0]>) ;; ret mm) else ret mm.

Definition vma_create (start end_ flags : Z) : V Z :=
  vma <- kmalloc ;;
  if negb (vma =? 0) then (modify (upd_vmas <[vma := mk_vma 0 start end_ flags 0 0]>) ;; ret vma) else ret vma.

Definition vma_destroy (vma : Z) : V unit :=
  v <- get_vma vma ;;
  (if has (vm_flags v) VM_SHARE then
     (n <- shmem_ref_dec (shmem v) ;; if n =? 0 then shmem_destroy (shmem v) else ret tt)
   else ret tt) ;;
  modify (upd_vmas (delete vma)).

(** ** Search *)

Fixpoint find_rb (t : bintree) (addr vma : Z) : V Z :=
  match t with
  | Leaf => ret vma
  | Node l x r =>
      tmp <- get_vma x ;;
      if addr <? vm_end tmp then
        (if vm_start tmp <=? addr then ret x else find_rb l addr x)
      else find_rb r addr vma
  end.

Definition find_vma_rb (tree : T) (addr : Z) : V Z := find_rb (rb_shape tree) addr 0.

(** The loop over [mmap_list]. *)
Fixpoint find_list (l : list Z) (addr : Z) : V Z :=
  match l with
  | [] => ret 0
  | x :: l => v <- get_vma x ;; if addr <? vm_end v then ret x else find_list l addr
  end.

Definition find_vma (mm addr : Z) : V Z :=
  if mm =? 0 then ret 0
  else
    m <- get_mm mm ;;
    let vma := mmap_cache m in
    hit <- (if vma =? 0 then ret false
            else (v <- get_vma vma ;; ret ((vm_start v <=? addr) && (addr <? vm_end v)))) ;;
    vma <- (if hit then ret vma
            else match mmap_tree m with
                 | Some t => find_vma_rb t addr
                 | None => find_list (mmap_list m) addr
                 end) ;;
    (if negb (vma =? 0) then update_mm (set_mmap_cache vma) mm else ret tt) ;;
    ret vma.

Definition find_vma_intersection (mm start end_ : Z) : V Z :=
  vma <- find_vma mm start ;;
  if vma =? 0 then ret 0
  else (v <- get_vma vma ;; if end_ <=? vm_start v then ret 0 else ret vma).

(** ** Insertion and removal *)

(** On the areas of a store; nodes of a tree are always areas. *)
Definition vma_compare (vs : gmap Z vma_struct) (a b : Z) : Z :=
  let start1 := default 0 (vm_start <$> vs !! a) in
  let start2 := default 0 (vm_start <$> vs !! b) in
  if start1 <? start2 then -1 else if start2 <? start1 then 1 else 0.

Definition check_vma_overlap (prev next : vma_struct) : V unit :=
  assert (vm_start prev <? vm_end prev) ;;
  assert (vm_end prev <=? vm_start next) ;;
  assert (vm_start next <? vm_end next).

(** The tree with the new node, and the node before it. *)
Definition insert_vma_rb (tree : T) (vma : Z) : V (T * option Z) :=
  s <- get ;;
  let tree := rb_insert (vma_compare (vmas s)) tree vma in
  ret (tree, rb_node_prev tree vma).

(** The scan of [mmap_list]: the last area whose start is not above [start], 0 for
    the head of the list. *)
Fixpoint find_prev (l : list Z) (start le_prev : Z) : V Z :=
  match l with
  | [] => ret le_prev
  | x :: l => v <- get_vma x ;; if start <? vm_start v then ret le_prev else find_prev l start x
  end.

(** The rest of the list from the entry after [p] (0 is the head), and the list with
    [x] added after [p]. *)
Fixpoint rest_after (l : list Z) (p : Z) : list Z :=
  if p =? 0 then l else match l with [] => [] | y :: l => if y =? p then l else rest_after l p end.

Fixpoint add_after (l : list Z) (p x : Z) : list Z :=
  if p =? 0 then x :: l
  else match l with [] => [] | y :: l => if y =? p then y :: x :: l else y :: add_after l p x end.

Definition rb_tree_create : V (option T) :=
  t <- kmalloc ;; if t =? 0 then ret None else
  nil <- kmalloc ;; if nil =? 0 then ret None else
  root <- kmalloc ;; if root =? 0 then ret None else ret (Some rb_empty).

Fixpoint insert_all (l : list Z) (tree : T) : V T :=
  match l with [] => ret tree | x :: l => '(tree, _) <- insert_vma_rb tree x ;; insert_all l tree end.

Definition insert_vma_struct (mm vma : Z) : V unit :=
  v <- get_vma vma ;;
  assert (vm_start v <? vm_end v) ;;
  m <- get_mm mm ;;
  le_prev <-
    match mmap_tree m with
    | Some t =>
        '(t, prev) <- insert_vma_rb t vma ;;
        update_mm (set_mmap_tree (Some t)) mm ;; ret (default 0 prev)
    | None => find_prev (mmap_list m) (vm_start v) 0
    end ;;
  (if negb (le_prev =? 0) then (p <- get_vma le_prev ;; check_vma_overlap p v) else ret tt) ;;
  match rest_after (mmap_list m) le_prev with
  | [] => ret tt
  | le_next :: _ => n <- get_vma le_next ;; check_vma_overlap v n
  end ;;
  update_vma (set_vm_mm mm) vma ;;
  update_mm (fun m => set_map_count (map_count m + 1)
                        (set_mmap_list (add_after (mmap_list m) le_prev vma) m)) mm ;;
  m <- get_mm mm ;;
  match mmap_tree m with
  | None =>
      if RB_MIN_MAP_COUNT <=? map_count m then
        (t <- rb_tree_create ;;
         match t with
         | None => ret tt
         | Some t =>
             t <- insert_all (mmap_list m) t ;;
             update_mm (set_mmap_tree (Some t)) mm
         end)
      else ret tt
  | Some _ => ret tt
  end.

Definition remove_vma_struct (mm vma : Z) : V unit :=
  v <- get_vma vma ;;
  assert (mm =? vm_mm v) ;;
  m <- get_mm mm ;;
  update_mm (fun m =>
    mk_mm (List.remove Z.eq_dec vma (mmap_list m)) ((fun t => rb_delete t vma) <$> mmap_tree m)
      (if vma =? mmap_cache m then 0 else mmap_cache m) (pgdir m) (map_count m - 1)
      (swap_address m) (mm_count m) (locked_by m) (brk_start m) (brk m)) mm.

Fixpoint destroy_all (l : list Z) : V unit :=
  match l with [] => ret tt | x :: l => vma_destroy x ;; destroy_all l end.

Definition mm_destroy (mm : Z) : V unit :=
  m <- get_mm mm ;;
  assert (mm_count m =? 0) ;;
  destroy_all (mmap_list m) ;;
  modify (upd_mms (delete mm)).

(** ** Mapping *)

(** Returns the error code and [*vma_store]. *)
Definition mm_map (mm addr len flags : Z) : V (Z * Z) :=
  let start := ROUNDDOWN addr PGSIZE in
  let end_ := ROUNDUP (u32 (addr + len)) PGSIZE in
  if negb (USER_ACCESS start end_) then ret (- E_INVAL, 0)
  else
    assert (negb (mm =? 0)) ;;
    vma <- find_vma mm start ;;
    overlap <- (if vma =? 0 then ret false else (v <- get_vma vma ;; ret (vm_start v <? end_))) ;;
    if (overlap : bool) then ret (- E_INVAL, 0)
    else
      vma <- vma_create start end_ (Z.ldiff flags VM_SHARE) ;;
      if vma =? 0 then ret (- E_NO_MEM, 0)
      else (insert_vma_struct mm vma ;; ret (0, vma)).

Definition mm_map_shmem (mm addr flags sh : Z) : V (Z * Z) :=
  if negb (addr mod PGSIZE =? 0) || (sh =? 0) then ret (- E_INVAL, 0)
  else
    shmem_ref_inc sh ;;
    x <- get_shmem sh ;;
    '(r, vma) <- mm_map mm addr (len x) flags ;;
    if negb (r =? 0) then (shmem_ref_dec sh ;; ret (r, 0))
    else
      (update_vma (fun v => set_vm_flags (Z.lor (vm_flags v) VM_SHARE) (set_shmem sh 0 v)) vma ;;
       ret (0, vma)).

Definition vma_resize (vma start end_ : Z) : V unit :=
  assert ((start mod PGSIZE =? 0) && (end_ mod PGSIZE =? 0)) ;;
  v <- get_vma vma ;;
  assert ((vm_start v <=? start) && (start <? end_) && (end_ <=? vm_end v)) ;;
  (if has (vm_flags v) VM_SHARE
   then update_vma (fun v => set_shmem (shmem v) (shmem_off v + (start - vm_start v)) v) vma
   else ret tt) ;;
  update_vma (set_vm_range start end_) vma.

(** The first loop of [mm_unmap]: take off the list every area from [vma] on that
    starts below [end_]; the areas taken, last one first. *)
Fixpoint unmap_collect (fuel : nat) (mm vma end_ : Z) (free_list : list Z) : V (list Z) :=
  match fuel with
  | O => out_of_fuel
  | S fuel =>
      v <- get_vma vma ;;
      if vm_start v <? end_ then
        (m <- get_mm mm ;;
         let le := rest_after (mmap_list m) vma in
         remove_vma_struct mm vma ;;
         let free_list := vma :: free_list in
         match le with
         | [] => ret free_list
         | next :: _ => unmap_collect fuel mm next end_ free_list
         end)
      else ret free_list
  end.

(** The second loop: put back what sticks out, destroy the rest, unmap the pages. *)
Fixpoint unmap_free (mm start end_ : Z) (free_list : list Z) : V unit :=
  match free_list with
  | [] => ret tt
  | vma :: free_list =>
      v <- get_vma vma ;;
      '(un_start, un_end) <-
        (if vm_start v <? start then
           (vma_resize vma (vm_start v) start ;; insert_vma_struct mm vma ;; ret (start, vm_end v))
         else if end_ <? vm_end v then
           (vma_resize vma end_ (vm_end v) ;; insert_vma_struct mm vma ;; ret (vm_start v, end_))
         else (vma_destroy vma ;; ret (vm_start v, vm_end v))) ;;
      m <- get_mm mm ;;
      modify (upd_pages (unmap_range (pgdir m) un_start un_end)) ;;
      unmap_free mm start end_ free_list
  end.

Definition mm_unmap (mm addr len : Z) : V Z :=
  let start := ROUNDDOWN addr PGSIZE in
  let end_ := ROUNDUP (u32 (addr + len)) PGSIZE in
  if negb (USER_ACCESS start end_) then ret (- E_INVAL)
  else
    assert (negb (mm =? 0)) ;;
    vma <- find_vma mm start ;;
    if vma =? 0 then ret 0
    else
      v <- get_vma vma ;;
      if end_ <=? vm_start v then ret 0
      else if (vm_start v <? start) && (end_ <? vm_end v) then
        (nvma <- vma_create (vm_start v) start (vm_flags v) ;;
         if nvma =? 0 then ret (- E_NO_MEM)
         else
           (vma_resize vma end_ (vm_end v) ;;
            insert_vma_struct mm nvma ;;
            m <- get_mm mm ;;
            modify (upd_pages (unmap_range (pgdir m) start end_)) ;;
            ret 0))
      else
        (m <- get_mm mm ;;
         free_list <- unmap_collect (S (List.length (mmap_list m))) mm vma end_ [] ;;
         unmap_free mm start end_ free_list ;;
         ret 0).

(** ** Whole address spaces *)

Fixpoint dup_loop (l : list Z) (to from : Z) : V Z :=
  match l with
  | [] => ret 0
  | vma :: l =>
      v <- get_vma vma ;;
      nvma <- vma_create (vm_start v) (vm_end v) (vm_flags v) ;;
      if nvma =? 0 then ret (- E_NO_MEM)
      else
        (if has (vm_flags v) VM_SHARE
         then (update_vma (set_shmem (shmem v) (shmem_off v)) nvma ;; shmem_ref_inc (shmem v) ;; ret tt)
         else ret tt) ;;
        insert_vma_struct to nvma ;;
        mto <- get_mm to ;; mfrom <- get_mm from ;;
        s <- get ;;
        let '(r, p) := copy_range (pgdir mto) (pgdir mfrom) (vm_start v) (vm_end v) (has (vm_flags v) VM_SHARE) (pages s) in
        put (upd_pages (fun _ => p) s) ;;
        if negb (r =? 0) then ret (- E_NO_MEM) else dup_loop l to from
  end.

(** Backwards through the list of [from]. *)
Definition dup_mmap (to from : Z) : V Z :=
  assert (negb (to =? 0) && negb (from =? 0)) ;;
  m <- get_mm from ;; dup_loop (reverse (mmap_list m)) to from.

Fixpoint each_range (op : Z -> Z -> Z -> P -> P) (l : list Z) (d : Z) : V unit :=
  match l with
  | [] => ret tt
  | vma :: l => v <- get_vma vma ;; modify (upd_pages (op d (vm_start v) (vm_end v))) ;; each_range op l d
  end.

Definition exit_mmap (mm : Z) : V unit :=
  assert (negb (mm =? 0)) ;;
  m <- get_mm mm ;;
  assert (mm_count m =? 0) ;;
  each_range unmap_range (mmap_list m) (pgdir m) ;;
  each_range exit_range (mmap_list m) (pgdir m).

Fixpoint unmapped_loop (l : list Z) (len start : Z) : V Z :=
  match l with
  | [] => ret (if USERBASE <=? start then start else 0)
  | vma :: l =>
      v <- get_vma vma ;;
      if vm_end v <=? start then ret start
      else if vm_start v <? start + len then
        (if vm_start v <=? len then ret 0 else unmapped_loop l len (vm_start v - len))
      else unmapped_loop l len start
  end.

Definition get_unmapped_area (mm len : Z) : V Z :=
  if (len =? 0) || (USERTOP <? len) then ret 0
  else (m <- get_mm mm ;; unmapped_loop (reverse (mmap_list m)) len (USERTOP - len)).

Definition mm_brk (mm addr len : Z) : V Z :=
  let start := ROUNDDOWN addr PGSIZE in
  let end_ := ROUNDUP (u32 (addr + len)) PGSIZE in
  if negb (USER_ACCESS start end_) then ret (- E_INVAL)
  else
    r <- mm_unmap mm start (end_ - start) ;;
    if negb (r =? 0) then ret r
    else
      let flags := Z.lor VM_READ VM_WRITE in
      vma <- find_vma mm (start - 1) ;;
      grow <- (if vma =? 0 then ret false
               else (v <- get_vma vma ;; ret ((vm_end v =? start) && (vm_flags v =? flags)))) ;;
      if (grow : bool) then (v <- get_vma vma ;; update_vma (set_vm_range (vm_start v) end_) vma ;; ret 0)
      else
        vma <- vma_create start end_ flags ;;
        if vma =? 0 then ret (- E_NO_MEM) else (insert_vma_struct mm vma ;; ret 0).

(** ** Checks of user pointers *)

Fixpoint mem_check_loop (fuel : nat) (mm start end_ : Z) (write : bool) : V bool :=
  match fuel with
  | O => out_of_fuel
  | S fuel =>
      if start <? end_ then
        (vma <- find_vma mm start ;;
         if vma =? 0 then ret false
         else
           v <- get_vma vma ;;
           if start <? vm_start v then ret false
           else if negb (has (vm_flags v) (if write then VM_WRITE else VM_READ)) then ret false
           else if write && has (vm_flags v) VM_STACK && (start <? vm_start v + PGSIZE) then ret false
           else mem_check_loop fuel mm (vm_end v) end_ write)
      else ret true
  end.

(** Every round but the last goes past one more area. *)
Definition user_mem_check (mm addr len : Z) (write : bool) : V bool :=
  if negb (mm =? 0) then
    if negb (USER_ACCESS addr (u32 (addr + len))) then ret false
    else (m <- get_mm mm ;; mem_check_loop (S (List.length (mmap_list m))) mm addr (u32 (addr + len)) write)
  else ret (KERN_ACCESS addr (u32 (addr + len))).
End Vmm.
End Vmm.
