(* ===== verification/VmmInv.v ===== *)
(** * Address spaces: areas stay sorted and disjoint, searches find the right area,
    and mapping and unmapping change exactly the addresses they are asked to *)

From Stdlib Require Import Sorted.
From S2P Require Import Prelude Vmm.
Import Vmm.
Open Scope Z_scope.

Module VmmInv.

Section Spaces.
Context {T P : Type} {RB : RbTree T} {PT : PageTables P}.
Implicit Types (s : vstate T P) (m : mm_struct T) (avs : list (Z * vma_struct)).

(** ** The invariant

    [avs] lists an address space's areas, with their addresses in the store. *)

Definition before (p q : Z * vma_struct) : Prop := vm_end (snd p) <= vm_start (snd q).

Definition area_ok s (mm : Z) (p : Z * vma_struct) : Prop :=
  vmas s !! fst p = Some (snd p) /\ fst p <> 0 /\ vm_mm (snd p) = mm /\
  vm_start (snd p) < vm_end (snd p) /\
  vm_start (snd p) mod PGSIZE = 0 /\ vm_end (snd p) mod PGSIZE = 0.

Record space s (mm : Z) m avs : Prop := {
  sp_mm : mms s !! mm = Some m;
  sp_list : mmap_list m = avs.*1;
  sp_areas : Forall (area_ok s mm) avs;
  sp_sorted : StronglySorted before avs;
  sp_tree : forall t, mmap_tree m = Some t -> inorder (rb_shape t) = avs.*1;
  sp_cache : mmap_cache m = 0 \/ mmap_cache m ∈ avs.*1;
  sp_count : map_count m = Z.of_nat (length avs) }.

(** The abstract view: address [a] is in an area with flags [f]. *)
Definition covers avs (a f : Z) : Prop :=
  exists p, p ∈ avs /\ vm_start (snd p) <= a < vm_end (snd p) /\ vm_flags (snd p) = f.

Lemma covers_app l1 l2 a f : covers (l1 ++ l2) a f <-> covers l1 a f \/ covers l2 a f.
Proof using Type.
  unfold covers. split.
  - intros (p & [Hp|Hp]%elem_of_app & H); [left|right]; by exists p.
  - intros [(p & Hp & H)|(p & Hp & H)]; exists p; (split; [apply elem_of_app; tauto|done]).
Qed.

Lemma covers_cons p l a f :
  covers (p :: l) a f <-> (vm_start (snd p) <= a < vm_end (snd p) /\ vm_flags (snd p) = f) \/ covers l a f.
Proof using Type.
  unfold covers. split.
  - intros (q & [->|Hq]%elem_of_cons & H); [by left|right; by exists q].
  - intros [H|(q & Hq & H)]; [exists p; split; [left|done]|exists q; split; [by right|done]].
Qed.

Lemma covers_nil a f : ~ covers [] a f.
Proof using Type. intros (p & Hp & _). by apply not_elem_of_nil in Hp. Qed.

(** ** Sorted lists of areas *)

Lemma sorted_app l1 l2 :
  StronglySorted before (l1 ++ l2) <->
  StronglySorted before l1 /\ StronglySorted before l2 /\ Forall (fun p => Forall (before p) l2) l1.
Proof using Type.
  induction l1 as [|p l1 IH]; cbn [app].
  - split; [intros H; split_and!; [constructor|done|constructor]|tauto].
  - split.
    + intros [H1 [H2 H3]%Forall_app]%StronglySorted_inv. apply IH in H1 as (H4 & H5 & H6).
      split_and!; [by constructor|done|by constructor].
    + intros ([H1 H2]%StronglySorted_inv & H3 & [H4 H5]%Forall_cons). constructor; [apply IH; done|].
      by apply Forall_app.
Qed.

(** The areas before one area of the list, and after it. *)
Lemma sorted_middle l1 p l2 :
  StronglySorted before (l1 ++ p :: l2) ->
  Forall (fun q => before q p) l1 /\ Forall (before p) l2 /\ StronglySorted before (l1 ++ l2).
Proof using Type.
  intros (H1 & [H2 H3]%StronglySorted_inv & H4)%sorted_app. split_and!; [|done|].
  - eapply Forall_impl; [exact H4|]. cbn. by intros q [? _]%Forall_cons.
  - apply sorted_app. split_and!; [done|done|]. eapply Forall_impl; [exact H4|]. cbn. by intros q [_ ?]%Forall_cons.
Qed.

Lemma sorted_insert l1 p l2 :
  StronglySorted before (l1 ++ l2) -> Forall (fun q => before q p) l1 -> Forall (before p) l2 ->
  StronglySorted before (l1 ++ p :: l2).
Proof using Type.
  intros (H1 & H2 & H3)%sorted_app Hl Hr. apply sorted_app. split_and!; [done|by constructor|].
  apply Forall_forall. intros q Hq. constructor.
  - by apply (proj1 (Forall_forall _ _) Hl).
  - by apply (proj1 (Forall_forall _ _) H3).
Qed.

Lemma sorted_nodup s mm avs : Forall (area_ok s mm) avs -> StronglySorted before avs -> NoDup avs.*1.
Proof using Type.
  induction avs as [|p l IH]; intros Ha Hs; cbn [fmap list_fmap]; [constructor|].
  apply Forall_cons in Ha as [Hp Ha]. apply StronglySorted_inv in Hs as [Hs Hb].
  constructor; [|by apply IH]. intros (q & E & Hq)%list_elem_of_fmap.
  assert (Hq' := proj1 (Forall_forall _ _) Ha q Hq). assert (Hbq := proj1 (Forall_forall _ _) Hb q Hq).
  destruct Hp as (Ep & _ & _ & Hlt & _). destruct Hq' as (Eq & _ & _ & Hlt' & _). rewrite E in Ep. rewrite Ep in Eq.
  injection Eq as Eq. unfold before in Hbq. rewrite Eq in Hlt, Hbq. lia.
Qed.

Lemma space_nodup s mm m avs : space s mm m avs -> NoDup avs.*1.
Proof using Type. intros H. eapply sorted_nodup; apply H. Qed.

(** ** Search *)

Definition above (addr : Z) (p : Z * vma_struct) : bool := addr <? vm_end (snd p).

(** The first area that ends above an address; its address, or 0. *)
Definition first_above avs addr : option (Z * vma_struct) := List.find (above addr) avs.
Definition addr_of (o : option (Z * vma_struct)) (d : Z) : Z := match o with Some p => fst p | None => d end.

Lemma first_above_skip l1 l2 addr :
  Forall (fun p => vm_end (snd p) <= addr) l1 -> first_above (l1 ++ l2) addr = first_above l2 addr.
Proof using Type.
  induction 1 as [|p l1 Hp _ IH]; [done|]. cbn. unfold above. destruct (Z.ltb_spec addr (vm_end (snd p))); [lia|done].
Qed.

Lemma first_above_app l1 l2 addr :
  first_above (l1 ++ l2) addr =
  match first_above l1 addr with Some p => Some p | None => first_above l2 addr end.
Proof using Type. induction l1 as [|p l1 IH]; [done|]. cbn. by destruct (above addr p). Qed.

Lemma get_vma_ok s a v : vmas s !! a = Some v -> get_vma a s = Ret (v, s).
Proof using Type. intros H. unfold get_vma, bind, get, deref. by rewrite H. Qed.

Lemma get_mm_ok s a m : mms s !! a = Some m -> get_mm a s = Ret (m, s).
Proof using Type. intros H. unfold get_mm, bind, get, deref. by rewrite H. Qed.

Lemma find_list_ok s mm avs addr :
  Forall (area_ok s mm) avs -> find_list avs.*1 addr s = Ret (addr_of (first_above avs addr) 0, s).
Proof using Type.
  induction 1 as [|p l Hp _ IH]; [done|]. cbn [fmap list_fmap find_list].
  mstep get_vma_ok; [|apply Hp]. cbn. unfold above. by destruct (addr <? vm_end (snd p)).
Qed.

(** A list of pairs split as its first components are. *)
Lemma fst_split {A B} (l : list (A * B)) (l1 l2 : list A) :
  l.*1 = l1 ++ l2 -> exists k1 k2, l = k1 ++ k2 /\ k1.*1 = l1 /\ k2.*1 = l2.
Proof using Type. intros (k1 & k2 & E1 & E2 & E3)%fmap_app_inv. exists k1, k2. by split_and!. Qed.

Lemma find_rb_ok s mm t : forall avs addr d,
  inorder t = avs.*1 -> Forall (area_ok s mm) avs -> StronglySorted before avs ->
  find_rb t addr d s = Ret (addr_of (first_above avs addr) d, s).
Proof using Type.
  induction t as [|l IHl x r IHr]; intros avs addr d E Ha Hs; cbn [find_rb inorder] in *.
  - symmetry in E. apply fmap_nil_inv in E. by subst.
  - symmetry in E. apply fst_split in E as (l1 & k & -> & El & Ek).
    destruct k as [|p l2]; [done|]. injection Ek as Ex Er.
    apply Forall_app in Ha as [Ha1 [Hp Ha2]%Forall_cons]. assert (Hs' := Hs).
    apply sorted_app in Hs' as (Hs1 & [Hs2 _]%StronglySorted_inv & _).
    destruct (sorted_middle _ _ _ Hs) as (Hl & _ & _). assert (Hlt := proj1 (proj2 (proj2 (proj2 Hp)))).
    subst x. mstep get_vma_ok; [|apply Hp].
    destruct (Z.ltb_spec addr (vm_end (snd p))) as [Hlt2|Hge].
    + destruct (Z.leb_spec (vm_start (snd p)) addr).
      * rewrite first_above_skip.
        -- cbn. unfold above. by destruct (Z.ltb_spec addr (vm_end (snd p))); [|lia].
        -- eapply Forall_impl; [exact Hl|]. unfold before. cbn. lia.
      * rewrite (IHl l1); [|done|done|done]. rewrite first_above_app.
        destruct (first_above l1 addr); [done|]. cbn. unfold above. by destruct (Z.ltb_spec addr (vm_end (snd p))); [|lia].
    + rewrite (IHr l2); [|done|done|done]. rewrite first_above_app.
      rewrite <- (app_nil_r l1), first_above_skip; [|eapply Forall_impl; [exact Hl|]; unfold before; cbn; lia].
      cbn. unfold above. by destruct (Z.ltb_spec addr (vm_end (snd p))); [lia|].
Qed.

(** An area that holds the address is the first one that ends above it. *)
Lemma first_above_hit s mm avs p addr :
  Forall (area_ok s mm) avs -> StronglySorted before avs -> p ∈ avs ->
  vm_start (snd p) <= addr < vm_end (snd p) -> first_above avs addr = Some p.
Proof using Type.
  intros Ha Hs (l1 & l2 & ->)%list_elem_of_split Hp. destruct (sorted_middle _ _ _ Hs) as (Hl & _ & _).
  rewrite first_above_skip; [|eapply Forall_impl; [exact Hl|]; unfold before; cbn; lia].
  cbn. unfold above. by destruct (Z.ltb_spec addr (vm_end (snd p))); [|lia].
Qed.

Lemma first_above_elem avs addr p : first_above avs addr = Some p -> p ∈ avs /\ addr < vm_end (snd p).
Proof using Type. intros [H1 H2]%find_some. unfold above in H2. split; [by apply list_elem_of_In|lia]. Qed.

(** The state after a search: only the cache may have changed. *)
Definition cached s (mm c : Z) m : vstate T P := upd_mms (alter (set_mmap_cache c) mm) s.

Lemma space_cached s mm m avs c :
  space s mm m avs -> c ∈ avs.*1 -> space (cached s mm c m) mm (set_mmap_cache c m) avs.
Proof using Type.
  intros [] Hc. constructor; try done; [|by right]. cbn. by rewrite lookup_alter_eq, sp_mm0.
Qed.

Lemma update_mm_ok s mm m f : mms s !! mm = Some m -> update_mm f mm s = Ret (tt, upd_mms (alter f mm) s).
Proof using Type. intros H. unfold update_mm. by mstep get_mm_ok; [|exact H]. Qed.

Lemma update_vma_ok s a v f : vmas s !! a = Some v -> update_vma f a s = Ret (tt, upd_vmas (alter f a) s).
Proof using Type. intros H. unfold update_vma. by mstep get_vma_ok; [|exact H]. Qed.

Lemma find_vma_ok s mm m avs addr :
  space s mm m avs -> mm <> 0 ->
  let r := first_above avs addr in
  exists s' m', find_vma mm addr s = Ret (addr_of r 0, s') /\ space s' mm m' avs /\
    s' = match r with Some p => cached s mm (fst p) m | None => s end /\ pgdir m' = pgdir m.
Proof using Type.
  intros Hsp Hmm r. assert (Ha := sp_areas _ _ _ _ Hsp). assert (Hs := sp_sorted _ _ _ _ Hsp).
  unfold find_vma. destruct (Z.eqb_spec mm 0); [lia|]. mstep get_mm_ok; [|apply Hsp].
  assert (Hsearch : match mmap_tree m with
                    | Some t => find_vma_rb t addr | None => find_list (mmap_list m) addr end s
                    = Ret (addr_of r 0, s)).
  { destruct (mmap_tree m) as [t|] eqn:Et.
    - unfold find_vma_rb. eapply find_rb_ok; [by apply Hsp|done|done].
    - rewrite (sp_list _ _ _ _ Hsp). by eapply find_list_ok. }
  assert (Hend : exists s' m', (negb (addr_of r 0 =? 0) = true -> exists p, r = Some p) /\
     (if negb (addr_of r 0 =? 0) then update_mm (set_mmap_cache (addr_of r 0)) mm else ret tt) s = Ret (tt, s') /\
     space s' mm m' avs /\ s' = match r with Some p => cached s mm (fst p) m | None => s end /\ pgdir m' = pgdir m).
  { destruct r as [p|] eqn:Er; cbn [addr_of].
    - destruct (first_above_elem _ _ _ Er) as [Hp _]. assert (Hp' := proj1 (Forall_forall _ _) Ha p Hp).
      destruct Hp' as (_ & Hnz & _). destruct (Z.eqb_spec (fst p) 0); [lia|]. cbn [negb].
      exists (cached s mm (fst p) m), (set_mmap_cache (fst p) m). split; [by eexists|].
      split; [rewrite (update_mm_ok _ _ m); [done|apply Hsp]|]. split; [|done].
      apply space_cached; [done|]. by apply list_elem_of_fmap_2.
    - cbn. exists s, m. by split_and!. }
  destruct Hend as (s' & m' & _ & Eupd & Hsp' & Es' & Epg). exists s', m'. split; [|done].
  destruct (Z.eqb_spec (mmap_cache m) 0) as [E0|E0].
  - rewrite bind_ret. mstep Hsearch. mstep Eupd. done.
  - destruct (sp_cache _ _ _ _ Hsp) as [?|Hc]; [lia|]. apply list_elem_of_fmap in Hc as (p & Ec & Hp).
    assert (Hp' := proj1 (Forall_forall _ _) Ha p Hp). destruct Hp' as (Ep & _).
    erewrite bind_step; [|mstep get_vma_ok; [reflexivity|rewrite Ec; exact Ep]]. cbv beta.
    destruct (Z.leb_spec (vm_start (snd p)) addr), (Z.ltb_spec addr (vm_end (snd p))); cbn [andb];
      try (mstep Hsearch; mstep Eupd; done).
    assert (Er : r = Some p) by (apply (first_above_hit s mm); done).
    rewrite Er in Eupd. cbn [addr_of] in Eupd. rewrite bind_ret, Ec. mstep Eupd. by rewrite Er.
Qed.

(** ** Insertion *)

(** What an operation on the address space [mm] leaves alone: other address spaces,
    the areas outside [D], and shared memory. *)
Record frame (mm : Z) (D : list Z) s s' : Prop := {
  fr_mms : forall k, k <> mm -> mms s' !! k = mms s !! k;
  fr_vmas : forall y, y ∉ D -> vmas s' !! y = vmas s !! y;
  fr_shmems : shmems s' = shmems s }.

Lemma frame_refl mm D s : frame mm D s s.
Proof using Type. done. Qed.

Lemma frame_trans mm D D1 D2 s s1 s2 :
  frame mm D1 s s1 -> frame mm D2 s1 s2 -> D1 ⊆ D -> D2 ⊆ D -> frame mm D s s2.
Proof using Type.
  intros [] [] H1 H2. constructor.
  - intros k Hk. by rewrite fr_mms1, fr_mms0.
  - intros y Hy. rewrite fr_vmas1, fr_vmas0; [done|set_solver|set_solver].
  - congruence.
Qed.

Lemma last_default (l : list Z) d : default d (last l) = List.last l d.
Proof using Type. induction l as [|x [|y l] IH]; [done|done|]. exact IH. Qed.

Lemma last_cons (l : list Z) x d : List.last (x :: l) d = List.last l x.
Proof using Type.
  revert x d. induction l as [|y l IH]; intros x d; [done|].
  change (List.last (x :: y :: l) d) with (List.last (y :: l) d). by rewrite !IH.
Qed.

Lemma List_last_in (l : list Z) d : l <> [] -> List.last l d ∈ l.
Proof using Type.
  induction l as [|x [|y l] IH]; intros H; [done|left|]. right. by apply IH.
Qed.

Lemma rest_after_cons y l p : p <> 0 -> rest_after (y :: l) p = if y =? p then l else rest_after l p.
Proof using Type. intros H. cbn [rest_after]. by destruct (Z.eqb_spec p 0). Qed.

Lemma add_after_cons y l p x :
  p <> 0 -> add_after (y :: l) p x = if y =? p then y :: x :: l else y :: add_after l p x.
Proof using Type. intros H. cbn [add_after]. by destruct (Z.eqb_spec p 0). Qed.

Lemma rest_after_ok (l1 l2 : list Z) :
  NoDup (l1 ++ l2) -> 0 ∉ l1 -> rest_after (l1 ++ l2) (List.last l1 0) = l2.
Proof using Type.
  induction l1 as [|x l1 IH]; intros Hn Hz; [by destruct l2|].
  apply not_elem_of_cons in Hz as [Hx Hz]. apply NoDup_cons in Hn as [Hnx Hn].
  destruct l1 as [|y l1].
  - cbn. destruct (Z.eqb_spec x 0); [lia|]. by rewrite Z.eqb_refl.
  - change (List.last (x :: y :: l1) 0) with (List.last (y :: l1) 0).
    assert (Hl := List_last_in (y :: l1) 0 ltac:(done)).
    change ((x :: y :: l1) ++ l2) with (x :: (y :: l1) ++ l2).
    rewrite rest_after_cons by (intros E; apply Hz; rewrite <- E; exact Hl).
    destruct (Z.eqb_spec x (List.last (y :: l1) 0)) as [E|]; [|by apply IH].
    exfalso. apply Hnx. apply (elem_of_app (y :: l1) l2). left. rewrite E. exact Hl.
Qed.

Lemma add_after_ok (l1 l2 : list Z) x :
  NoDup (l1 ++ l2) -> 0 ∉ l1 -> add_after (l1 ++ l2) (List.last l1 0) x = l1 ++ x :: l2.
Proof using Type.
  induction l1 as [|z l1 IH]; intros Hn Hz; [by destruct l2|].
  apply not_elem_of_cons in Hz as [Hx Hz]. apply NoDup_cons in Hn as [Hnx Hn].
  destruct l1 as [|y l1].
  - cbn. destruct (Z.eqb_spec z 0); [lia|]. by rewrite Z.eqb_refl.
  - change (List.last (z :: y :: l1) 0) with (List.last (y :: l1) 0).
    assert (Hl := List_last_in (y :: l1) 0 ltac:(done)).
    change ((z :: y :: l1) ++ l2) with (z :: (y :: l1) ++ l2).
    rewrite add_after_cons by (intros E; apply Hz; rewrite <- E; exact Hl).
    destruct (Z.eqb_spec z (List.last (y :: l1) 0)) as [E|]; [|change ((z :: y :: l1) ++ x :: l2) with (z :: ((y :: l1) ++ x :: l2)); f_equal; by apply IH].
    exfalso. apply Hnx. apply (elem_of_app (y :: l1) l2). left. rewrite E. exact Hl.
Qed.

Lemma areas_nonzero s mm avs : Forall (area_ok s mm) avs -> 0 ∉ avs.*1.
Proof using Type.
  intros H (p & E & Hp)%list_elem_of_fmap. apply (proj1 (Forall_forall _ _) H) in Hp as (_ & Hp & _). lia.
Qed.

Lemma find_prev_ok s mm l1 l2 start : Forall (area_ok s mm) (l1 ++ l2) ->
  Forall (fun p => vm_start (snd p) <= start) l1 -> Forall (fun p => start < vm_start (snd p)) l2 ->
  forall d, find_prev (l1 ++ l2).*1 start d s = Ret (List.last l1.*1 d, s).
Proof using Type.
  intros Ha H1 H2. induction H1 as [|p l1 Hp H1 IH]; intros d; cbn [app fmap list_fmap find_prev].
  - destruct H2 as [|q l2 Hq H2]; [done|]. apply Forall_cons in Ha as [Hq' _]. cbn [fmap list_fmap find_prev].
    mstep get_vma_ok; [|apply Hq']. by destruct (Z.ltb_spec start (vm_start (snd q))); [|lia].
  - apply Forall_cons in Ha as [Hp' Ha]. mstep get_vma_ok; [|apply Hp'].
    destruct (Z.ltb_spec start (vm_start (snd p))); [lia|]. rewrite (IH Ha). by rewrite last_cons.
Qed.

Lemma compare_lt s a b v w : vmas s !! a = Some v -> vmas s !! b = Some w ->
  vm_start v < vm_start w -> vma_compare (vmas s) a b = -1 /\ vma_compare (vmas s) b a = 1.
Proof using Type.
  intros E1 E2 H. unfold vma_compare. rewrite E1, E2. cbn.
  destruct (Z.ltb_spec (vm_start v) (vm_start w)), (Z.ltb_spec (vm_start w) (vm_start v)); (done || lia).
Qed.

(** The tree insertion of an area into its gap. *)
Lemma insert_rb_ok s mm t l1 l2 x v :
  inorder (rb_shape t) = (l1 ++ l2).*1 -> Forall (area_ok s mm) (l1 ++ l2) -> NoDup (l1 ++ l2).*1 ->
  vmas s !! x = Some v -> x ∉ (l1 ++ l2).*1 -> vm_start v < vm_end v ->
  Forall (fun q => before q (x, v)) l1 -> Forall (before (x, v)) l2 ->
  exists t', insert_vma_rb t x s = Ret ((t', last l1.*1), s) /\ inorder (rb_shape t') = l1.*1 ++ x :: l2.*1.
Proof using Type.
  intros Et [Ha1 Ha2]%Forall_app Hn Hx Hnx Hlt Hl1 Hl2. rewrite fmap_app in *.
  assert (E : inorder (rb_shape (rb_insert (vma_compare (vmas s)) t x)) = l1.*1 ++ x :: l2.*1).
  { apply rb_insert_law; [done|..]; apply Forall_fmap, Forall_forall; intros p Hp.
    - assert (Hp' := proj1 (Forall_forall _ _) Ha1 p Hp). assert (Hb := proj1 (Forall_forall _ _) Hl1 p Hp).
      destruct Hp' as (Ep & _ & _ & Hlp & _). unfold before in Hb. cbn in Hb |- *.
      destruct (compare_lt s (fst p) x (snd p) v Ep Hx) as [-> _]; lia.
    - assert (Hp' := proj1 (Forall_forall _ _) Ha2 p Hp). assert (Hb := proj1 (Forall_forall _ _) Hl2 p Hp).
      destruct Hp' as (Ep & _ & _ & Hlp & _). unfold before in Hb. cbn in Hb |- *.
      destruct (compare_lt s x (fst p) v (snd p) Hx Ep) as [_ ->]; lia. }
  eexists. split; [|exact E]. unfold insert_vma_rb. rewrite bind_get. cbv zeta. unfold ret. do 3 f_equal.
  eapply rb_prev_law; [exact E|]. rewrite <- Permutation_middle. by constructor.
Qed.

Lemma insert_all_ok s mm todo : forall t done,
  inorder (rb_shape t) = done.*1 -> Forall (area_ok s mm) (done ++ todo) -> StronglySorted before (done ++ todo) ->
  exists t', insert_all todo.*1 t s = Ret (t', s) /\ inorder (rb_shape t') = (done ++ todo).*1.
Proof using Type.
  induction todo as [|p todo IH]; intros t dn Et Ha Hs; cbn [fmap list_fmap insert_all].
  { exists t. by rewrite app_nil_r. }
  assert (Hn := sorted_nodup _ _ _ Ha Hs). destruct (sorted_middle _ _ _ Hs) as (Hl & _ & _).
  apply Forall_app in Ha as [Ha1 [Hp Ha2]%Forall_cons]. destruct (Hp) as (Ep & _ & _ & Hlt & _).
  rewrite fmap_app in Hn. cbn in Hn. apply NoDup_app in Hn as (Hn1 & Hn2 & Hn3).
  destruct (insert_rb_ok s mm t dn [] (fst p) (snd p)) as (t' & E & Ei).
  { by rewrite app_nil_r. } { by rewrite app_nil_r. } { by rewrite app_nil_r. } { done. }
  { rewrite app_nil_r. intros Hin. apply (Hn2 _ Hin). left. } { done. }
  { eapply Forall_impl; [exact Hl|]. by destruct p. } { constructor. }
  mstep E. destruct (IH t' (dn ++ [p])) as (t2 & E2 & Ei2).
  { by rewrite Ei, fmap_app. } { rewrite <- app_assoc. apply Forall_app. split; [done|by constructor]. }
  { by rewrite <- app_assoc. }
  exists t2. by rewrite E2, Ei2, <- app_assoc.
Qed.

Lemma check_overlap_ok s p v :
  vm_start p < vm_end p -> vm_end p <= vm_start v -> vm_start v < vm_end v -> check_vma_overlap p v s = Ret (tt, s).
Proof using Type.
  intros. unfold check_vma_overlap. rewrite !assert_true by lia. apply assert_Ret. split; [lia|done].
Qed.

Lemma rb_tree_create_ok s : exists o k, rb_tree_create s = Ret (o, upd_kmallocs (fun _ => k) s) /\
  (forall t, o = Some t -> inorder (rb_shape t) = []).
Proof using Type.
  assert (Hk : forall s0, exists a k, kmalloc s0 = Ret (a, upd_kmallocs (fun _ => k) s0)).
  { intros s0. unfold kmalloc. rewrite bind_get. destruct (kmallocs s0) eqn:E; [|by eexists _, _].
    exists 0, []. unfold ret. do 2 f_equal. destruct s0; cbn in *. by subst. }
  unfold rb_tree_create.
  destruct (Hk s) as (a & k1 & E1). mstep E1. destruct (a =? 0); [by exists None, k1|].
  destruct (Hk (upd_kmallocs (fun _ => k1) s)) as (b & k2 & E2). mstep E2. destruct (b =? 0); [by exists None, k2|].
  destruct (Hk (upd_kmallocs (fun _ => k2) (upd_kmallocs (fun _ => k1) s))) as (c & k3 & E3). mstep E3.
  destruct (c =? 0); [by exists None, k3|]. exists (Some rb_empty), k3. split; [done|]. intros t [= <-]. apply rb_empty_law.
Qed.

(** The end of [insert_vma_struct]: a tree is built, or not. *)
Lemma build_tree_ok s mm m avs :
  space s mm m avs ->
  exists s' m', (m <- get_mm mm ;;
   match mmap_tree m with
   | None =>
       if RB_MIN_MAP_COUNT <=? map_count m then
         (t <- rb_tree_create ;;
          match t with
          | None => ret tt
          | Some t => t <- insert_all (mmap_list m) t ;; update_mm (set_mmap_tree (Some t)) mm
          end)
       else ret tt
   | Some _ => ret tt
   end) s = Ret (tt, s') /\
  space s' mm m' avs /\ frame mm [] s s' /\ pages s' = pages s /\ pgdir m' = pgdir m.
Proof using Type.
  intros Hsp. mstep get_mm_ok; [|apply Hsp]. destruct (mmap_tree m) eqn:Et; [by exists s, m|].
  destruct (RB_MIN_MAP_COUNT <=? map_count m); [|by exists s, m].
  destruct (rb_tree_create_ok s) as (o & k & E & Ho). mstep E. set (s1 := upd_kmallocs (fun _ => k) s).
  assert (Hsp1 : space s1 mm m avs) by (by destruct Hsp; constructor).
  destruct o as [t|]; [|by exists s1, m].
  destruct (insert_all_ok s1 mm avs t []) as (t' & E' & Ei); [by apply Ho|apply Hsp1|apply Hsp1|].
  rewrite (sp_list _ _ _ _ Hsp). mstep E'. eexists _, (set_mmap_tree (Some t') m).
  split; [apply (update_mm_ok _ _ m); apply Hsp1|]. split; [|split; [|done]].
  - destruct Hsp1. constructor; try done; [cbn; by rewrite lookup_alter_eq, (sp_mm _ _ _ _ Hsp)|]. by intros t2 [= <-].
  - constructor; [|done|done]. intros j Hj. cbn. by rewrite lookup_alter_ne.
Qed.

Lemma area_ok_insert s mm x v avs :
  Forall (area_ok s mm) avs -> x ∉ avs.*1 -> Forall (area_ok (upd_vmas <[x := v]> s) mm) avs.
Proof using Type.
  intros Ha Hx. apply Forall_forall. intros p Hp. apply (proj1 (Forall_forall _ _) Ha) in Hp as Hok.
  destruct Hok as (E & Hok). split; [|done]. cbn. rewrite lookup_insert_ne; [done|]. intros ->. apply Hx. by apply list_elem_of_fmap_2.
Qed.

(** Where the new area goes, by the tree or by the list. *)
Lemma insert_prev_ok s mm m l1 l2 x v :
  space s mm m (l1 ++ l2) -> vmas s !! x = Some v -> x ∉ (l1 ++ l2).*1 -> vm_start v < vm_end v ->
  Forall (fun q => before q (x, v)) l1 -> Forall (before (x, v)) l2 ->
  exists t', (match mmap_tree m with
    | Some t => '(t, prev) <- insert_vma_rb t x ;; update_mm (set_mmap_tree (Some t)) mm ;; ret (default 0 prev)
    | None => find_prev (mmap_list m) (vm_start v) 0
    end) s = Ret (List.last l1.*1 0, upd_mms (alter (set_mmap_tree t') mm) s) /\
  (forall t, t' = Some t -> inorder (rb_shape t) = l1.*1 ++ x :: l2.*1).
Proof using Type.
  intros Hsp Hx Hnx Hlt Hl1 Hl2. assert (Ha := sp_areas _ _ _ _ Hsp). destruct (mmap_tree m) as [t|] eqn:Et.
  - destruct (insert_rb_ok s mm t l1 l2 x v) as (t' & E & Ei);
      [by apply Hsp|done|by eapply space_nodup|done|done|done|done|done|].
    exists (Some t'). split; [|by intros ? [= <-]]. mstep E. mstep (update_mm_ok s mm m); [|apply Hsp].
    by rewrite last_default.
  - exists None. split; [|done]. rewrite (sp_list _ _ _ _ Hsp). erewrite find_prev_ok; [|exact Ha|..].
    + do 2 f_equal. destruct s as [vs ms sh ks pg]. unfold upd_mms. cbn. f_equal. symmetry. apply alter_id.
      intros m' Hm'. assert (E : m' = m) by (destruct Hsp; cbn in *; congruence). subst m'. by destruct m; cbn in *; subst.
    + apply Forall_app in Ha as [Ha _]. apply Forall_forall. intros p Hp.
      apply (proj1 (Forall_forall _ _) Hl1) in Hp as Hb. apply (proj1 (Forall_forall _ _) Ha) in Hp as (_ & _ & _ & ? & _).
      unfold before in Hb. cbn in Hb. lia.
    + eapply Forall_impl; [exact Hl2|]. unfold before. cbn. lia.
Qed.

Lemma insert_ok s mm m l1 l2 x v :
  space s mm m (l1 ++ l2) -> vmas s !! x = Some v -> x <> 0 -> x ∉ (l1 ++ l2).*1 ->
  vm_start v < vm_end v -> vm_start v mod PGSIZE = 0 -> vm_end v mod PGSIZE = 0 ->
  Forall (fun q => before q (x, v)) l1 -> Forall (before (x, v)) l2 ->
  exists s' m', insert_vma_struct mm x s = Ret (tt, s') /\
    space s' mm m' (l1 ++ (x, set_vm_mm mm v) :: l2) /\ frame mm [x] s s' /\
    pages s' = pages s /\ pgdir m' = pgdir m.
Proof using Type.
  intros Hsp Hx Hx0 Hnx Hlt Hal1 Hal2 Hl1 Hl2.
  assert (Ha := sp_areas _ _ _ _ Hsp). assert (Hn := space_nodup _ _ _ _ Hsp). assert (Hz := areas_nonzero _ _ _ Ha).
  unfold insert_vma_struct. mstep get_vma_ok; [|exact Hx]. rewrite assert_true by lia. mstep get_mm_ok; [|apply Hsp].
  destruct (insert_prev_ok s mm m l1 l2 x v) as (t' & Eprev & Ht); [done..|]. mstep Eprev.
  set (s1 := upd_mms (alter (set_mmap_tree t') mm) s).
  assert (Ha' := Ha). apply Forall_app in Ha' as [Ha1 Ha2].
  rewrite (sp_list _ _ _ _ Hsp), fmap_app in *. assert (Hz1 : 0 ∉ l1.*1) by (rewrite elem_of_app in Hz; tauto).
  assert (Ec1 : (if negb (List.last l1.*1 0 =? 0) then p <- get_vma (List.last l1.*1 0) ;; check_vma_overlap p v else ret tt) s1 = Ret (tt, s1)).
  { destruct (Z.eqb_spec (List.last l1.*1 0) 0) as [|Hne]; [done|]. cbn [negb].
    assert (Hin : List.last l1.*1 0 ∈ l1.*1) by (apply List_last_in; intros E; by rewrite E in Hne).
    apply list_elem_of_fmap in Hin as (p & Ep & Hp). apply (proj1 (Forall_forall _ _) Hl1) in Hp as Hb.
    apply (proj1 (Forall_forall _ _) Ha1) in Hp as (Evp & _ & _ & Hp & _).
    mstep get_vma_ok; [|rewrite Ep; exact Evp]. by apply check_overlap_ok. }
  assert (Ec2 : match rest_after (l1.*1 ++ l2.*1) (List.last l1.*1 0) with
                | [] => ret tt | le_next :: _ => n <- get_vma le_next ;; check_vma_overlap v n end s1 = Ret (tt, s1)).
  { rewrite rest_after_ok by done. destruct l2 as [|p l2]; [done|]. cbn [fmap list_fmap].
    apply Forall_cons in Hl2 as [Hb _]. apply Forall_cons in Ha2 as [(Evp & _ & _ & Hp & _) _].
    mstep get_vma_ok; [|exact Evp]. by apply check_overlap_ok. }
  mstep Ec1. mstep Ec2. mstep (update_vma_ok s1 x v); [|exact Hx].
  set (s2 := upd_vmas (alter (set_vm_mm mm) x) s1). set (m1 := set_mmap_tree t' m).
  assert (Em1 : mms s2 !! mm = Some m1) by (cbn; rewrite lookup_alter_eq; by destruct Hsp as [->]).
  mstep (update_mm_ok s2 mm m1); [|exact Em1].
  match goal with |- context [upd_mms (alter ?f mm) s2] => set (s3 := upd_mms (alter f mm) s2) end.
  set (avs' := l1 ++ (x, set_vm_mm mm v) :: l2).
  assert (Evs : vmas s3 = <[x := set_vm_mm mm v]> (vmas s)).
  { cbn. apply map_eq. intros k. rewrite lookup_alter, lookup_insert. case_decide; [subst; by rewrite Hx|done]. }
  assert (Hsp3 : space s3 mm (set_map_count (map_count m1 + 1) (set_mmap_list (add_after (mmap_list m1) (List.last l1.*1 0) x) m1)) avs').
  { constructor; cbn [mmap_list mmap_tree mmap_cache map_count set_map_count set_mmap_list].
    - cbn [s3 mms upd_mms]. by rewrite lookup_alter_eq, Em1.
    - cbn [m1 mmap_list set_mmap_tree]. rewrite (sp_list _ _ _ _ Hsp), fmap_app, add_after_ok by done. unfold avs'. by rewrite fmap_app.
    - assert (Hi := area_ok_insert s mm x (set_vm_mm mm v) _ Ha ltac:(by rewrite fmap_app)). apply Forall_app in Hi as [Hi1 Hi2].
      assert (Heq : forall p, area_ok (upd_vmas <[x := set_vm_mm mm v]> s) mm p -> area_ok s3 mm p)
        by (intros p Hp; unfold area_ok in *; rewrite Evs; exact Hp).
      apply Forall_app. split; [by eapply Forall_impl|]. constructor; [|by eapply Forall_impl].
      apply Heq. split_and!; cbn; [by rewrite lookup_insert_eq|done..].
    - apply sorted_insert; [apply Hsp|done|done].
    - cbn [m1 mmap_tree set_mmap_tree]. intros t E. unfold avs'. rewrite fmap_app. by apply Ht.
    - cbn [m1 mmap_cache set_mmap_tree]. destruct (sp_cache _ _ _ _ Hsp) as [?|Hc]; [by left|right].
      unfold avs'. rewrite fmap_app in *. cbn. apply elem_of_app in Hc as [?|?]; apply elem_of_app; [by left|right; by right].
    - cbn [m1 map_count set_mmap_tree]. rewrite (sp_count _ _ _ _ Hsp). unfold avs'. rewrite !length_app. cbn. lia. }
  destruct (build_tree_ok s3 mm _ avs' Hsp3) as (s' & m' & E & Hsp' & Hfr & Hpg & Hd).
  exists s', m'. split; [exact E|]. split; [done|]. split; [|split; [by rewrite Hpg|by rewrite Hd]].
  apply (frame_trans mm [x] [x] [] s s3 s'); [|done|set_solver|set_solver]. constructor.
  - intros k Hk. cbn. by rewrite !lookup_alter_ne.
  - intros y Hy. rewrite Evs, lookup_insert_ne; [done|set_solver].
  - done.
Qed.

(** ** Removal, resizing, destruction *)

Lemma area_ok_frame s s' mm avs :
  Forall (area_ok s mm) avs -> (forall y, y ∈ avs.*1 -> vmas s' !! y = vmas s !! y) -> Forall (area_ok s' mm) avs.
Proof using Type.
  intros Ha H. apply Forall_forall. intros p Hp. apply (proj1 (Forall_forall _ _) Ha) in Hp as Hok.
  destruct Hok as (E & Hok). split; [|done]. rewrite H; [done|]. by apply list_elem_of_fmap_2.
Qed.

(** A space does not depend on other areas, nor on the pages. *)
Lemma space_frame s s' mm m avs :
  space s mm m avs -> mms s' !! mm = mms s !! mm -> (forall y, y ∈ avs.*1 -> vmas s' !! y = vmas s !! y) ->
  space s' mm m avs.
Proof using Type. intros [] Hm Hv. constructor; try done; [by rewrite Hm|]. by eapply area_ok_frame. Qed.

Lemma remove_nodup (l1 l2 : list Z) x : NoDup (l1 ++ x :: l2) -> List.remove Z.eq_dec x (l1 ++ x :: l2) = l1 ++ l2.
Proof using Type.
  intros Hn. rewrite <- Permutation_middle in Hn. apply NoDup_cons in Hn as [Hx _].
  rewrite not_elem_of_app in Hx. destruct Hx as [H1 H2]. rewrite remove_app, remove_cons.
  assert (E1 : remove Z.eq_dec x l1 = l1) by (apply notin_remove; intros ?%list_elem_of_In; done).
  assert (E2 : remove Z.eq_dec x l2 = l2) by (apply notin_remove; intros ?%list_elem_of_In; done).
  by rewrite E1, E2.
Qed.

Lemma remove_ok s mm m l1 p l2 :
  space s mm m (l1 ++ p :: l2) ->
  exists s' m', remove_vma_struct mm (fst p) s = Ret (tt, s') /\ space s' mm m' (l1 ++ l2) /\
    frame mm [] s s' /\ pages s' = pages s /\ pgdir m' = pgdir m.
Proof using Type.
  intros Hsp. assert (Hn := space_nodup _ _ _ _ Hsp). rewrite fmap_app in Hn. cbn in Hn.
  assert (Ha := sp_areas _ _ _ _ Hsp). apply Forall_app in Ha as [Ha1 [Hp Ha2]%Forall_cons].
  destruct (Hp) as (Ep & _ & Emm & _). unfold remove_vma_struct. mstep get_vma_ok; [|exact Ep].
  rewrite assert_true by lia. mstep get_mm_ok; [|apply Hsp].
  rewrite (update_mm_ok _ _ m) by apply Hsp.
  match goal with |- context [alter ?f mm] => exists (upd_mms (alter f mm) s), (f m) end.
  split; [done|]. split; [|split; [|done]].
  2: { constructor; [|done|done]. intros k Hk. cbn. by rewrite lookup_alter_ne. }
  constructor.
  - cbn. by rewrite lookup_alter_eq, (sp_mm _ _ _ _ Hsp).
  - cbn. rewrite (sp_list _ _ _ _ Hsp), !fmap_app. by apply remove_nodup.
  - by apply Forall_app.
  - by destruct (sorted_middle _ _ _ (sp_sorted _ _ _ _ Hsp)) as (_ & _ & ?).
  - cbn. intros t Et. apply fmap_Some in Et as (t0 & Et0 & ->). rewrite fmap_app. apply rb_delete_law; [|done].
    rewrite (sp_tree _ _ _ _ Hsp _ Et0), fmap_app. done.
  - cbn. destruct (Z.eqb_spec (fst p) (mmap_cache m)) as [|Hne]; [by left|].
    destruct (sp_cache _ _ _ _ Hsp) as [?|Hc]; [by left|right]. rewrite fmap_app in *. cbn in Hc.
    apply elem_of_app in Hc as [?|[?|?]%elem_of_cons]; [|lia|]; apply elem_of_app; [by left|by right].
  - cbn. rewrite (sp_count _ _ _ _ Hsp), !length_app. cbn. lia.
Qed.

Definition private (p : Z * vma_struct) : Prop := has (vm_flags (snd p)) VM_SHARE = false.

Lemma resize_ok s x v a b :
  vmas s !! x = Some v -> has (vm_flags v) VM_SHARE = false ->
  a mod PGSIZE = 0 -> b mod PGSIZE = 0 -> vm_start v <= a < b -> b <= vm_end v ->
  vma_resize x a b s = Ret (tt, upd_vmas <[x := set_vm_range a b v]> s).
Proof using Type.
  intros Hx Hp Ha Hb Hab Hbe. unfold vma_resize. rewrite assert_true by (rewrite Ha, Hb; done).
  mstep get_vma_ok; [|exact Hx]. rewrite assert_true by lia. rewrite Hp, bind_ret.
  rewrite (update_vma_ok s x v) by done. do 2 f_equal. unfold upd_vmas. f_equal.
  apply map_eq. intros k. rewrite lookup_alter, lookup_insert. case_decide; [subst; by rewrite Hx|done].
Qed.

Lemma destroy_ok s x v :
  vmas s !! x = Some v -> has (vm_flags v) VM_SHARE = false -> vma_destroy x s = Ret (tt, upd_vmas (delete x) s).
Proof using Type. intros Hx Hp. unfold vma_destroy. mstep get_vma_ok; [|exact Hx]. by rewrite Hp. Qed.

(** ** Creation *)

(** [kmalloc] answers with addresses that hold no area. *)
Definition fresh s : Prop := forall a, a ∈ kmallocs s -> a <> 0 -> vmas s !! a = None.

Definition next_alloc s : Z := List.hd 0 (kmallocs s).

Lemma create_ok s a b f :
  fresh s -> exists k, vma_create a b f s =
    Ret (next_alloc s, if next_alloc s =? 0 then upd_kmallocs (fun _ => k) s
                       else upd_vmas <[next_alloc s := mk_vma 0 a b f 0 0]> (upd_kmallocs (fun _ => k) s)) /\
  (next_alloc s <> 0 -> vmas s !! next_alloc s = None).
Proof using Type.
  intros Hf. assert (Hk : kmalloc s = Ret (next_alloc s, upd_kmallocs (fun _ => tl (kmallocs s)) s)).
  { unfold kmalloc, next_alloc. rewrite bind_get. destruct (kmallocs s) eqn:E; [|done]. unfold ret. do 2 f_equal.
    destruct s; cbn in *. by subst. }
  exists (tl (kmallocs s)). split.
  - unfold vma_create. mstep Hk. by destruct (next_alloc s =? 0).
  - intros Hnz. apply Hf; [|done]. unfold next_alloc in *. destruct (kmallocs s); [done|]. left.
Qed.

(** ** Mapping *)

Lemma rounddown_aligned a : ROUNDDOWN a PGSIZE mod PGSIZE = 0.
Proof using Type. unfold ROUNDDOWN, PGSIZE. dlia. Qed.

Lemma roundup_aligned a : ROUNDUP a PGSIZE mod PGSIZE = 0.
Proof using Type. apply rounddown_aligned. Qed.

Lemma user_access_true a b : USER_ACCESS a b = true -> USERBASE <= a < b /\ b <= USERTOP.
Proof using Type. unfold USER_ACCESS. lia. Qed.

(** The areas below an address, and the others; the search finds the first of the
    others. *)
Lemma split_below s mm avs addr :
  Forall (area_ok s mm) avs -> StronglySorted before avs ->
  exists l1 l2, avs = l1 ++ l2 /\ Forall (fun p => vm_end (snd p) <= addr) l1 /\
    Forall (fun p => addr < vm_end (snd p)) l2 /\ first_above avs addr = head l2.
Proof using Type.
  induction avs as [|p avs IH]; intros Ha Hs; [by exists [], []|].
  apply Forall_cons in Ha as [Hp Ha]. apply StronglySorted_inv in Hs as [Hs Hb].
  destruct (Z.lt_ge_cases addr (vm_end (snd p))) as [Hlt|Hge].
  - exists [], (p :: avs). split_and!; [done|constructor| |].
    + constructor; [done|]. apply Forall_forall. intros q Hq. apply (proj1 (Forall_forall _ _) Hb) in Hq as Hbq.
      apply (proj1 (Forall_forall _ _) Ha) in Hq as (_ & _ & _ & Hq & _). unfold before in Hbq. lia.
    + cbn. unfold above. by destruct (Z.ltb_spec addr (vm_end (snd p))); [|lia].
  - destruct (IH Ha Hs) as (l1 & l2 & -> & H1 & H2 & H3). exists (p :: l1), l2. split_and!; [done|by constructor|done|].
    cbn. unfold above at 1. by destruct (Z.ltb_spec addr (vm_end (snd p))); [lia|].
Qed.

(** In a sorted list whose first area starts at or above [e], all do. *)
Lemma head_above s mm l2 e :
  Forall (area_ok s mm) l2 -> StronglySorted before l2 ->
  (forall p, head l2 = Some p -> e <= vm_start (snd p)) -> Forall (fun p => e <= vm_start (snd p)) l2.
Proof using Type.
  intros Ha Hs H. destruct l2 as [|p l2]; [constructor|]. specialize (H p eq_refl). constructor; [done|].
  apply StronglySorted_inv in Hs as [_ Hb]. apply Forall_cons in Ha as [(_ & _ & _ & Hp & _) _].
  eapply Forall_impl; [exact Hb|]. unfold before. lia.
Qed.

(** A search, as its callers use it. *)
Lemma search_ok s mm m avs addr :
  space s mm m avs -> mm <> 0 ->
  exists l1 l2 s1 m1, avs = l1 ++ l2 /\ Forall (fun p => vm_end (snd p) <= addr) l1 /\
    Forall (fun p => addr < vm_end (snd p)) l2 /\
    find_vma mm addr s = Ret (addr_of (head l2) 0, s1) /\ space s1 mm m1 (l1 ++ l2) /\
    frame mm [] s s1 /\ pages s1 = pages s /\ pgdir m1 = pgdir m /\ kmallocs s1 = kmallocs s.
Proof using Type.
  intros Hsp Hmm. destruct (find_vma_ok s mm m avs addr Hsp Hmm) as (s1 & m1 & E1 & Hsp1 & Es1 & Hd1).
  destruct (split_below s mm avs addr (sp_areas _ _ _ _ Hsp) (sp_sorted _ _ _ _ Hsp)) as (l1 & l2 & -> & Hl1 & Hl2 & Hfirst).
  exists l1, l2, s1, m1. rewrite Hfirst in *. split_and!; try done; subst s1; destruct (head l2); try done.
  constructor; [|done|done]. intros k Hk. cbn. by rewrite lookup_alter_ne.
Qed.


(** A new area, not yet in the space. *)
Lemma create_space_ok s mm m avs a b f :
  space s mm m avs -> fresh s -> next_alloc s <> 0 ->
  exists s1, vma_create a b f s = Ret (next_alloc s, s1) /\ space s1 mm m avs /\
    vmas s1 !! next_alloc s = Some (mk_vma 0 a b f 0 0) /\ (next_alloc s ∉ avs.*1) /\
    frame mm [next_alloc s] s s1 /\ pages s1 = pages s.
Proof using Type.
  intros Hsp Hfr Hnz. destruct (create_ok s a b f Hfr) as (k & E & Hnew). specialize (Hnew Hnz).
  destruct (Z.eqb_spec (next_alloc s) 0) as [|_]; [lia|]. eexists. split; [exact E|].
  assert (Hx : next_alloc s ∉ avs.*1).
  { intros (p & Ex & Hp)%list_elem_of_fmap. apply (proj1 (Forall_forall _ _) (sp_areas _ _ _ _ Hsp)) in Hp as (Ep & _).
    rewrite <- Ex, Hnew in Ep. done. }
  split_and!; [|cbn; by rewrite lookup_insert_eq|done| |done].
  - eapply space_frame; [exact Hsp|done|]. intros y Hy. cbn. rewrite lookup_insert_ne; [done|]. by intros <-.
  - constructor; [done| |done]. intros y Hy. cbn. rewrite lookup_insert_ne; [done|set_solver].
Qed.

Lemma create_fail s a b f : next_alloc s = 0 -> exists k, vma_create a b f s = Ret (0, upd_kmallocs (fun _ => k) s).
Proof using Type.
  unfold next_alloc, vma_create, kmalloc. intros H. unfold bind, get. destruct (kmallocs s) as [|x k] eqn:E.
  - exists []. cbn. unfold ret. do 2 f_equal. destruct s; cbn in *. by subst.
  - exists k. cbn in H. by subst.
Qed.



(** ** Unmapping *)

Lemma rest_after_middle (l1 l2 : list Z) x :
  NoDup (l1 ++ x :: l2) -> 0 ∉ l1 ++ x :: l2 -> rest_after (l1 ++ x :: l2) x = l2.
Proof using Type.
  intros Hn Hz. assert (E : List.last (l1 ++ [x]) 0 = x) by apply List.last_last.
  rewrite <- E at 2. replace (l1 ++ x :: l2) with ((l1 ++ [x]) ++ l2) in * by by rewrite <- app_assoc.
  apply rest_after_ok; [done|]. intros H. apply Hz, elem_of_app. by left.
Qed.

(** The first loop takes off the areas [mid] that start below [e], and returns them
    last one first. *)
Lemma collect_ok mm e pre post : Forall (fun p => e <= vm_start (snd p)) post ->
  forall mid fuel s m vma fl, space s mm m (pre ++ mid ++ post) -> Forall (fun p => vm_start (snd p) < e) mid ->
  head (mid ++ post).*1 = Some vma -> (length mid < fuel)%nat ->
  exists s' m', unmap_collect fuel mm vma e fl s = Ret (reverse mid.*1 ++ fl, s') /\ space s' mm m' (pre ++ post) /\
    frame mm [] s s' /\ pages s' = pages s /\ pgdir m' = pgdir m.
Proof using Type.
  intros Hpost. induction mid as [|p mid IH]; intros [|fuel] s m vma fl Hsp Hmid Hvma Hf; try (cbn in Hf; lia); cbn [unmap_collect].
  - destruct post as [|q post]; [done|]. injection Hvma as <-. apply Forall_cons in Hpost as [Hq _].
    assert (Ha := sp_areas _ _ _ _ Hsp). apply Forall_app in Ha as [_ [(Eq & _) _]%Forall_cons].
    mstep get_vma_ok; [|exact Eq]. destruct (Z.ltb_spec (vm_start (snd q)) e); [lia|]. by exists s, m.
  - injection Hvma as <-. apply Forall_cons in Hmid as [Hp Hmid].
    assert (Hz := areas_nonzero _ _ _ (sp_areas _ _ _ _ Hsp)). assert (Hn := space_nodup _ _ _ _ Hsp).
    assert (Ha := sp_areas _ _ _ _ Hsp). apply Forall_app in Ha as [_ [(Ep & _) _]%Forall_cons].
    mstep get_vma_ok; [|exact Ep]. destruct (Z.ltb_spec (vm_start (snd p)) e); [|lia]. mstep get_mm_ok; [|apply Hsp].
    rewrite (sp_list _ _ _ _ Hsp). rewrite (fmap_app _ pre) in *. cbn [app fmap list_fmap] in *.
    rewrite rest_after_middle by done.
    destruct (remove_ok s mm m pre p (mid ++ post) Hsp) as (s1 & m1 & E1 & Hsp1 & Hfr1 & Epg1 & Hd1). mstep E1.
    destruct ((mid ++ post).*1) as [|next rest] eqn:Er.
    + apply fmap_nil_inv, app_nil in Er as [-> ->]. exists s1, m1. by split_and!.
    + destruct (IH fuel s1 m1 next (fst p :: fl) Hsp1 Hmid) as (s2 & m2 & E2 & Hsp2 & Hfr2 & Epg2 & Hd2);
        [done|cbn in Hf; lia|].
      exists s2, m2. split_and!; [|done|by eapply frame_trans|by rewrite Epg2|by rewrite Hd2].
      rewrite E2. do 2 f_equal. by rewrite reverse_cons, <- app_assoc.
Qed.

(** The pages of [mid] between [start] and [e] are gone from directory [d]. *)
Definition pages_cut (d start e : Z) (mid : list (Z * vma_struct)) (p p' : P) : Prop :=
  forall d' a, mapped p' d' a <-> mapped p d' a /\ ~ (d' = d /\ start <= a < e /\ exists f, covers mid a f).

(** Putting back a part [a, b) of an area that has been taken off. *)
Lemma put_back_ok mm s m pre p post a b :
  space s mm m (pre ++ post) -> area_ok s mm p -> private p -> fst p ∉ (pre ++ post).*1 ->
  a mod PGSIZE = 0 -> b mod PGSIZE = 0 -> vm_start (snd p) <= a < b -> b <= vm_end (snd p) ->
  Forall (fun q => before q p) pre -> Forall (before p) post ->
  let q := (fst p, set_vm_range a b (snd p)) in
  exists s1 s2 m2, vma_resize (fst p) a b s = Ret (tt, s1) /\ insert_vma_struct mm (fst p) s1 = Ret (tt, s2) /\
    space s2 mm m2 (pre ++ q :: post) /\ frame mm [fst p] s s2 /\ pages s2 = pages s /\ pgdir m2 = pgdir m.
Proof using Type.
  intros Hsp (Ep & Hp0 & Emm & Hlt & _) Hpr Hnp Ha Hb Hab Hbe Hpre Hpost q.
  eexists. rewrite (resize_ok s (fst p) (snd p) a b) by done. set (s1 := upd_vmas _ s).
  assert (Hsp1 : space s1 mm m (pre ++ post)).
  { eapply space_frame; [exact Hsp|done|]. intros y Hy. cbn. rewrite lookup_insert_ne; [done|]. by intros <-. }
  destruct (insert_ok s1 mm m pre post (fst p) (set_vm_range a b (snd p))) as (s2 & m2 & E2 & Hsp2 & Hfr2 & Epg2 & Hd2); try done.
  { cbn. by rewrite lookup_insert_eq. }
  { cbn. lia. }
  { eapply Forall_impl; [exact Hpre|]. unfold before. cbn. lia. }
  { eapply Forall_impl; [exact Hpost|]. unfold before. cbn. lia. }
  exists s2, m2. split; [done|]. split; [done|]. split_and!; [|..|done].
  - unfold q. replace (set_vm_range a b (snd p)) with (set_vm_mm mm (set_vm_range a b (snd p))); [done|].
    unfold set_vm_mm, set_vm_range. cbn. by rewrite Emm.
  - eapply (frame_trans mm _ [fst p] [fst p]); [|exact Hfr2|set_solver|set_solver]. constructor; [done| |done].
    intros y Hy. cbn. rewrite lookup_insert_ne; [done|set_solver].
  - done.
Qed.

Lemma pages_cut_range d start e p a b (pg : P) :
  USER_ACCESS start e = true -> a mod PGSIZE = 0 -> b mod PGSIZE = 0 -> a < b ->
  (forall x, a <= x < b <-> start <= x < e /\ vm_start (snd p) <= x < vm_end (snd p)) ->
  pages_cut d start e [p] pg (unmap_range d a b pg).
Proof using Type.
  intros [[Hu _] Ht]%user_access_true Ha Hb Hab H d' x. pose proof (proj1 (H a) ltac:(lia)). pose proof (proj1 (H (b - 1)) ltac:(lia)).
  rewrite unmap_range_law by (done || unfold USER_ACCESS; lia). rewrite H.
  assert (Hc : (exists f, covers [p] x f) <-> vm_start (snd p) <= x < vm_end (snd p)).
  { split; [intros [f [Hc|Hc]%covers_cons]; [tauto|by apply covers_nil in Hc]|].
    intros Hx. exists (vm_flags (snd p)). apply covers_cons. by left. }
  rewrite Hc. tauto.
Qed.

(** One area of the second loop: put back or destroyed, and its pages cut. *)
Lemma free_one_ok mm start e s m pre p post :
  USER_ACCESS start e = true -> start mod PGSIZE = 0 -> e mod PGSIZE = 0 ->
  space s mm m (pre ++ post) -> area_ok s mm p -> private p -> fst p ∉ (pre ++ post).*1 ->
  start < vm_end (snd p) -> vm_start (snd p) < e -> (vm_start (snd p) < start -> vm_end (snd p) <= e) ->
  Forall (fun q => before q p) pre -> Forall (before p) post ->
  exists s1 s2 m2 piece un,
    get_vma (fst p) s = Ret (snd p, s) /\
    (if vm_start (snd p) <? start then
       (vma_resize (fst p) (vm_start (snd p)) start ;; insert_vma_struct mm (fst p) ;; ret (start, vm_end (snd p)))
     else if e <? vm_end (snd p) then
       (vma_resize (fst p) e (vm_end (snd p)) ;; insert_vma_struct mm (fst p) ;; ret (vm_start (snd p), e))
     else (vma_destroy (fst p) ;; ret (vm_start (snd p), vm_end (snd p)))) s = Ret (un, s1) /\
    mms s1 !! mm = Some m2 /\ s2 = upd_pages (unmap_range (pgdir m2) (fst un) (snd un)) s1 /\
    space s2 mm m2 (pre ++ piece ++ post) /\ frame mm [fst p] s s2 /\ pgdir m2 = pgdir m /\
    pages_cut (pgdir m) start e [p] (pages s) (pages s2) /\
    (forall a f, covers piece a f <-> covers [p] a f /\ ~ (start <= a < e)) /\
    Forall (fun q => vm_start (snd p) <= vm_start (snd q) /\ vm_end (snd q) <= vm_end (snd p)) piece.
Proof using Type.
  intros Hua Has Hae Hsp Hp Hpr Hnp H1 H2 H3 Hpre Hpost. pose proof (user_access_true _ _ Hua) as [[_ Hse] _].
  assert (Hp' := Hp). destruct Hp' as (Ep & Hp0 & Emm & Hlt & Hal1 & Hal2).
  assert (Hone : forall q a f, covers [q] a f <-> vm_start (snd q) <= a < vm_end (snd q) /\ vm_flags (snd q) = f).
  { intros q a f. rewrite covers_cons. pose proof (covers_nil a f). tauto. }
  destruct (Z.ltb_spec (vm_start (snd p)) start) as [Hl|Hl]; [|destruct (Z.ltb_spec e (vm_end (snd p))) as [Hr|Hr]].
  - destruct (put_back_ok mm s m pre p post (vm_start (snd p)) start) as (s1 & s2 & m2 & E1 & E2 & Hsp2 & Hfr2 & Epg2 & Hd2);
      [done..|lia|lia|done|done|].
    eexists s2, _, m2, [_], (start, vm_end (snd p)). split; [by apply get_vma_ok|]. split; [mstep E1; by mstep E2|].
    split; [apply Hsp2|]. split; [reflexivity|]. split; [by eapply space_frame; [exact Hsp2|..]|].
    split; [by destruct Hfr2|]. split; [done|]. split; [|split].
    + cbn [pages upd_pages fst snd]. rewrite Epg2, Hd2. apply pages_cut_range; [done|done|done|lia|]. intros x. specialize (H3 Hl). lia.
    + intros a f. rewrite !Hone. cbn. specialize (H3 Hl). split; [intros [Hx <-]; split; [split; [lia|done]|lia]|intros [[Hx <-] Hn]; split; [lia|done]].
    + repeat constructor; cbn; lia.
  - destruct (put_back_ok mm s m pre p post e (vm_end (snd p))) as (s1 & s2 & m2 & E1 & E2 & Hsp2 & Hfr2 & Epg2 & Hd2);
      [done..|lia|lia|done|done|].
    eexists s2, _, m2, [_], (vm_start (snd p), e). split; [by apply get_vma_ok|]. split; [mstep E1; by mstep E2|].
    split; [apply Hsp2|]. split; [reflexivity|]. split; [by eapply space_frame; [exact Hsp2|..]|].
    split; [by destruct Hfr2|]. split; [done|]. split; [|split].
    + cbn [pages upd_pages fst snd]. rewrite Epg2, Hd2. apply pages_cut_range; [done|done|done|lia|lia].
    + intros a f. rewrite !Hone. cbn. split; [intros [Hx <-]; split; [split; [lia|done]|lia]|intros [[Hx <-] Hn]; split; [lia|done]].
    + repeat constructor; cbn; lia.
  - eexists _, _, m, [], (vm_start (snd p), vm_end (snd p)). split; [by apply get_vma_ok|].
    split; [by mstep (destroy_ok s (fst p) (snd p) Ep Hpr)|]. split; [apply Hsp|]. split; [reflexivity|].
    split. { eapply space_frame; [exact Hsp|done|]. intros y Hy. cbn. rewrite lookup_delete_ne; [done|]. by intros <-. }
    split. { constructor; [done| |done]. intros y Hy. cbn. rewrite lookup_delete_ne; [done|set_solver]. }
    split; [done|]. split; [|split].
    + cbn [pages upd_pages upd_vmas fst snd]. apply pages_cut_range; [done|done|done|lia|lia].
    + intros a f. rewrite !Hone. pose proof (covers_nil a f). split; [tauto|]. lia.
    + constructor.
Qed.

Definition within (p q : Z * vma_struct) : Prop :=
  vm_start (snd p) <= vm_start (snd q) /\ vm_end (snd q) <= vm_end (snd p).

Lemma sorted_replace l p piece r :
  StronglySorted before (l ++ p :: r) -> StronglySorted before piece -> Forall (within p) piece ->
  StronglySorted before (l ++ piece ++ r).
Proof using Type.
  intros Hs Hpc Hw. destruct (sorted_middle _ _ _ Hs) as (Hl & Hr & Hlr). apply sorted_app in Hlr as (Hsl & Hsr & Hlr).
  apply sorted_app. split_and!; [done| |].
  - apply sorted_app. split_and!; [done|done|]. eapply Forall_impl; [exact Hw|]. intros q [_ Hq]. cbn.
    eapply Forall_impl; [exact Hr|]. unfold before. lia.
  - apply Forall_forall. intros q Hq. apply Forall_app. split; [|by apply (proj1 (Forall_forall _ _) Hlr)].
    apply (proj1 (Forall_forall _ _) Hl) in Hq. eapply Forall_impl; [exact Hw|]. intros x [Hx _]. unfold before in *. lia.
Qed.

Lemma pages_cut_app d start e l1 l2 p p1 p2 :
  pages_cut d start e l2 p p1 -> pages_cut d start e l1 p1 p2 -> pages_cut d start e (l1 ++ l2) p p2.
Proof using Type.
  intros H1 H2 d' a. rewrite (H2 d' a), (H1 d' a).
  assert (E : (exists f, covers (l1 ++ l2) a f) <-> (exists f, covers l1 a f) \/ (exists f, covers l2 a f)).
  { split; [intros [f [?|?]%covers_app]; [left|right]; by exists f|].
    intros [[f ?]|[f ?]]; exists f; apply covers_app; tauto. }
  rewrite E. tauto.
Qed.

Lemma unmap_free_ok mm start e pre : USER_ACCESS start e = true -> start mod PGSIZE = 0 -> e mod PGSIZE = 0 ->
  forall mid s m post, space s mm m (pre ++ post) -> Forall (area_ok s mm) mid ->
  StronglySorted before (pre ++ mid ++ post) -> Forall private mid ->
  Forall (fun p => start < vm_end (snd p) /\ vm_start (snd p) < e /\ (vm_start (snd p) < start -> vm_end (snd p) <= e)) mid ->
  exists s' m' avs', unmap_free mm start e (reverse mid.*1) s = Ret (tt, s') /\ space s' mm m' avs' /\
    (forall a f, covers avs' a f <-> covers (pre ++ post) a f \/ (covers mid a f /\ ~ (start <= a < e))) /\
    frame mm mid.*1 s s' /\ pgdir m' = pgdir m /\ pages_cut (pgdir m) start e mid (pages s) (pages s').
Proof using Type.
  intros Hua Has Hae mid. induction mid as [|p mid IH] using rev_ind; intros s m post Hsp Ha Hs Hpr Hr.
  { exists s, m, (pre ++ post). split_and!; try done.
    - intros a f. pose proof (covers_nil a f). tauto.
    - intros d' a. split; [|tauto]. intros H. split; [done|]. intros (_ & _ & f & Hf). by apply covers_nil in Hf. }
  apply Forall_app in Ha as [Ha [Hp _]%Forall_cons]. apply Forall_app in Hpr as [Hpr [Hpp _]%Forall_cons].
  apply Forall_app in Hr as [Hr [Hrp _]%Forall_cons].
  assert (Hall : Forall (area_ok s mm) (pre ++ (mid ++ [p]) ++ post)).
  { assert (Hpo := sp_areas _ _ _ _ Hsp). apply Forall_app in Hpo as [Hpre Hpost].
    repeat (apply Forall_app; split); try done. by constructor. }
  assert (Hn := sorted_nodup _ _ _ Hall Hs).
  replace (pre ++ (mid ++ [p]) ++ post) with ((pre ++ mid) ++ p :: post) in * by by rewrite <- !app_assoc.
  destruct (sorted_middle _ _ _ Hs) as ([Hbp Hbm]%Forall_app & Hbq & _).
  rewrite fmap_app, fmap_cons in Hn. rewrite <- Permutation_middle in Hn. apply NoDup_cons in Hn as [Hnp _].
  rewrite <- fmap_app, <- app_assoc in Hnp.
  assert (Hnp1 : fst p ∉ (pre ++ post).*1) by (rewrite !fmap_app in *; set_solver).
  assert (Hnp2 : fst p ∉ mid.*1) by (rewrite !fmap_app in *; set_solver).
  destruct (free_one_ok mm start e s m pre p post) as (s1 & s2 & m2 & piece & un & Eg & Ef & Em & Es2 & Hsp2 & Hfr2 & Hd2 & Hcut & Hcov & Hw);
    [done..|apply Hrp|apply Hrp|apply Hrp|done|done|].
  assert (Hspc : StronglySorted before piece).
  { assert (Hs2 := sp_sorted _ _ _ _ Hsp2). by apply sorted_app in Hs2 as (_ & (? & _)%sorted_app & _). }
  destruct (IH s2 m2 (piece ++ post) Hsp2) as (s' & m' & avs' & E & Hsp' & Hcov' & Hfr' & Hd' & Hcut'); [|..|done|done|].
  { eapply area_ok_frame; [exact Ha|]. intros y Hy. apply Hfr2. set_solver. }
  { rewrite app_assoc. by apply (sorted_replace _ p). }
  exists s', m', avs'. split_and!; [|done|..].
  - rewrite fmap_app, reverse_app. cbn [fmap list_fmap reverse rev_append app unmap_free].
    change (reverse [fst p] ++ reverse mid.*1) with (fst p :: reverse mid.*1). cbn [unmap_free].
    mstep Eg. mstep Ef. destruct un as [u1 u2]. cbn [fst snd] in Es2. mstep get_mm_ok; [|exact Em]. rewrite bind_modify. by rewrite <- Es2.
  - intros a f. rewrite Hcov', !covers_app, Hcov. pose proof (covers_nil a f). tauto.
  - rewrite fmap_app. eapply frame_trans; [exact Hfr2|exact Hfr'|set_solver|set_solver].
  - by rewrite Hd'.
  - eapply pages_cut_app; [exact Hcut|]. by rewrite <- Hd2.
Qed.

(** The areas that start below an address, and the others. *)
Lemma split_start s mm avs e :
  Forall (area_ok s mm) avs -> StronglySorted before avs ->
  exists mid post, avs = mid ++ post /\ Forall (fun p => vm_start (snd p) < e) mid /\
    Forall (fun p => e <= vm_start (snd p)) post.
Proof using Type.
  induction avs as [|p avs IH]; intros Ha Hs; [by exists [], []|].
  destruct (Z.lt_ge_cases (vm_start (snd p)) e) as [Hlt|Hge].
  - apply Forall_cons in Ha as [_ Ha]. apply StronglySorted_inv in Hs as [Hs _].
    destruct (IH Ha Hs) as (mid & post & -> & H1 & H2). exists (p :: mid), post. split_and!; [done|by constructor|done].
  - exists [], (p :: avs). split_and!; [done|constructor|]. apply (head_above s mm); [done|done|]. by intros q [= <-].
Qed.

(** Cutting an area of the space down in place. *)
Lemma space_resize s mm m l1 p l2 a b :
  space s mm m (l1 ++ p :: l2) -> vm_start (snd p) <= a < b -> b <= vm_end (snd p) ->
  a mod PGSIZE = 0 -> b mod PGSIZE = 0 ->
  let q := (fst p, set_vm_range a b (snd p)) in
  space (upd_vmas <[fst p := snd q]> s) mm m (l1 ++ q :: l2).
Proof using Type.
  intros Hsp Hab Hbe Ha Hb q. assert (Hn := space_nodup _ _ _ _ Hsp). destruct Hsp as [Hm Hl Har Hs Ht Hc Hct].
  rewrite fmap_app in Hn. cbn in Hn. rewrite <- Permutation_middle in Hn. apply NoDup_cons in Hn as [Hnp _].
  rewrite not_elem_of_app in Hnp. destruct Hnp as [Hn1 Hn2]. apply Forall_app in Har as [Ha1 [Hp Ha2]%Forall_cons].
  assert (El : (l1 ++ q :: l2).*1 = (l1 ++ p :: l2).*1) by by rewrite !fmap_app.
  constructor; rewrite ?El; try done.
  - apply Forall_app. split; [by apply area_ok_insert|]. constructor; [|by apply area_ok_insert].
    destruct Hp as (Ep & ? & ? & _). split_and!; cbn; [by rewrite lookup_insert_eq|done|done|lia|done|done].
  - change (l1 ++ q :: l2) with (l1 ++ [q] ++ l2). apply (sorted_replace _ p); [done|repeat constructor|].
    repeat constructor; cbn; lia.
  - rewrite Hct, !length_app. done.
Qed.

(** The results of [mm_unmap]. *)
Inductive unmap_result (d start e : Z) s avs (pg' : P) : Z -> list (Z * vma_struct) -> Prop :=
| unmap_done avs' :
    (forall a f, covers avs' a f <-> covers avs a f /\ ~ (start <= a < e)) ->
    pages_cut d start e avs (pages s) pg' -> unmap_result d start e s avs pg' 0 avs'
| unmap_inval : USER_ACCESS start e = false -> pg' = pages s -> unmap_result d start e s avs pg' (- E_INVAL) avs
| unmap_no_mem p : p ∈ avs -> vm_start (snd p) < start -> e < vm_end (snd p) -> next_alloc s = 0 ->
    pg' = pages s -> unmap_result d start e s avs pg' (- E_NO_MEM) avs.

(** Areas outside the range matter to no page cut. *)
Lemma pages_cut_weaken d start e l mid p p' :
  pages_cut d start e mid p p' -> (forall a f, start <= a < e -> covers l a f <-> covers mid a f) ->
  pages_cut d start e l p p'.
Proof using Type.
  intros H Hc d' a. rewrite (H d' a). split; intros [? Hn]; (split; [done|]); intros (? & ? & f & Hf); apply Hn;
    (split; [done|split; [done|]]); exists f; by apply (Hc a f).
Qed.

Lemma covers_below l start e a f :
  Forall (fun p => vm_end (snd p) <= start) l -> start <= a < e -> ~ covers l a f.
Proof using Type. intros Hl Ha (p & Hp & ? & _). apply (proj1 (Forall_forall _ _) Hl) in Hp. lia. Qed.

Lemma covers_above l start e a f :
  Forall (fun p => e <= vm_start (snd p)) l -> start <= a < e -> ~ covers l a f.
Proof using Type. intros Hl Ha (p & Hp & ? & _). apply (proj1 (Forall_forall _ _) Hl) in Hp. lia. Qed.

(** The middle of one area is unmapped: the area is cut in two. *)
Lemma unmap_split_ok s mm m l1 p l2 start e :
  space s mm m (l1 ++ p :: l2) -> fresh s -> next_alloc s <> 0 -> private p ->
  start mod PGSIZE = 0 -> e mod PGSIZE = 0 -> start < e -> vm_start (snd p) < start -> e < vm_end (snd p) ->
  Forall (fun q => before q p) l1 -> Forall (before p) l2 ->
  exists s1 s2 s3 m3 avs', vma_create (vm_start (snd p)) start (vm_flags (snd p)) s = Ret (next_alloc s, s1) /\
    vma_resize (fst p) e (vm_end (snd p)) s1 = Ret (tt, s2) /\
    insert_vma_struct mm (next_alloc s) s2 = Ret (tt, s3) /\
    space s3 mm m3 avs' /\ frame mm [fst p; next_alloc s] s s3 /\ pages s3 = pages s /\ pgdir m3 = pgdir m /\
    (forall a f, covers avs' a f <-> covers (l1 ++ p :: l2) a f /\ ~ (start <= a < e)).
Proof using Type.
  intros Hsp Hfr Hnz Hpr Has Hae Hse Hl Hr Hb1 Hb2.
  destruct (create_space_ok s mm m (l1 ++ p :: l2) (vm_start (snd p)) start (vm_flags (snd p)) Hsp Hfr Hnz)
    as (s1 & E1 & Hsp1 & Hv & Hx & Hfr1 & Epg1).
  set (x := next_alloc s) in *. assert (Ha := sp_areas _ _ _ _ Hsp1). apply Forall_app in Ha as [_ [(Ep & _ & _ & Hlt & Hal1 & Hal2) _]%Forall_cons].
  assert (Hxp : x <> fst p) by (intros E; apply Hx; rewrite fmap_app, E; apply elem_of_app; right; left).
  assert (Hsp2 := space_resize s1 mm m l1 p l2 e (vm_end (snd p)) Hsp1 ltac:(lia) ltac:(lia) Hae Hal2).
  set (q := (fst p, set_vm_range e (vm_end (snd p)) (snd p))) in *. cbv zeta in Hsp2. set (s2 := upd_vmas _ s1) in *.
  destruct (insert_ok s2 mm m l1 (q :: l2) x (mk_vma 0 (vm_start (snd p)) start (vm_flags (snd p)) 0 0)) as (s3 & m3 & E3 & Hsp3 & Hfr3 & Epg3 & Hd3); try done.
  { cbn. by rewrite lookup_insert_ne. }
  { rewrite fmap_app in *. done. }
  { constructor; [unfold before; cbn; lia|]. eapply Forall_impl; [exact Hb2|]. unfold before. cbn. lia. }
  eexists s1, s2, s3, m3, _. split; [done|]. split; [by apply resize_ok; [..|lia|lia]|]. split; [done|]. split; [exact Hsp3|].
  split; [|split; [by rewrite Epg3|split; [done|]]].
  - eapply (frame_trans mm _ [fst p; x] [x]); [|exact Hfr3|set_solver|set_solver].
    eapply (frame_trans mm _ [x] [fst p]); [exact Hfr1| |set_solver|set_solver]. constructor; [done| |done].
    intros y Hy. cbn. rewrite lookup_insert_ne; [done|set_solver].
  - intros a f. rewrite !covers_app, !covers_cons. cbn.
    assert (H1 : covers l1 a f -> ~ (start <= a < e)).
    { intros (o & Ho & ? & _). apply (proj1 (Forall_forall _ _) Hb1) in Ho. unfold before in Ho. lia. }
    assert (H2 : covers l2 a f -> ~ (start <= a < e)).
    { intros (o & Ho & ? & _). apply (proj1 (Forall_forall _ _) Hb2) in Ho. unfold before in Ho. lia. }
    split.
    + intros [?|[[? <-]|[[? <-]|?]]]; [tauto|split; [right; left; split; [lia|done]|lia]..|tauto].
    + intros [[?|[[? <-]|?]] Hn]; [tauto| |tauto]. destruct (Z.lt_ge_cases a start); [right; left; split; [lia|done]|].
      right; right; left; split; [lia|done].
Qed.

(** The areas from the first one that ends above [start] on, when it does not hold
    the whole range in its middle. *)
Lemma unmap_many_ok s mm m l1 p l2 start e :
  space s mm m (l1 ++ p :: l2) -> Forall private (p :: l2) ->
  start mod PGSIZE = 0 -> e mod PGSIZE = 0 -> USER_ACCESS start e = true ->
  Forall (fun q => vm_end (snd q) <= start) l1 -> Forall (fun q => start < vm_end (snd q)) (p :: l2) ->
  vm_start (snd p) < e -> ~ (vm_start (snd p) < start /\ e < vm_end (snd p)) ->
  exists s1 s2 m2 avs' fl, unmap_collect (S (length (mmap_list m))) mm (fst p) e [] s = Ret (fl, s1) /\
    unmap_free mm start e fl s1 = Ret (tt, s2) /\ space s2 mm m2 avs' /\
    frame mm (l1 ++ p :: l2).*1 s s2 /\ pgdir m2 = pgdir m /\
    unmap_result (pgdir m) start e s (l1 ++ p :: l2) (pages s2) 0 avs'.
Proof using Type.
  intros Hsp Hpr Has Hae Hua Hl1 Hl2 Hpe Hns. pose proof (user_access_true _ _ Hua) as [[_ Hse] _].
  assert (Ha := sp_areas _ _ _ _ Hsp). apply Forall_app in Ha as [_ Ha].
  assert (Hs := sp_sorted _ _ _ _ Hsp). assert (Hs2 := Hs). apply sorted_app in Hs2 as (_ & Hs2 & _).
  destruct (split_start s mm _ e Ha Hs2) as (mid & post & Emp & Hmid & Hpost). rewrite Emp in *.
  destruct (collect_ok mm e l1 post Hpost mid (S (length (mmap_list m))) s m (fst p) []) as (s1 & m1 & E1 & Hsp1 & Hfr1 & Epg1 & Hd1).
  { done. } { done. } { by rewrite <- Emp. }
  { rewrite (sp_list _ _ _ _ Hsp), length_fmap, !length_app. lia. }
  apply Forall_app in Ha as [Ha _]. apply Forall_app in Hpr as [Hpr _]. apply Forall_app in Hl2 as [Hl2 _].
  destruct (unmap_free_ok mm start e l1 Hua Has Hae mid s1 m1 post Hsp1) as (s2 & m2 & avs' & E2 & Hsp2 & Hcov & Hfr2 & Hd2 & Hcut); [|done|done|..].
  { eapply area_ok_frame; [exact Ha|]. intros y _. apply Hfr1. set_solver. }
  { destruct mid as [|q mid]; [constructor|]. injection Emp as -> Emp. apply Forall_cons in Hl2 as [Hq Hl2].
    apply Forall_cons in Hmid as [_ Hmid]. apply StronglySorted_inv in Hs2 as [_ Hb]. apply Forall_app in Hb as [Hb _].
    constructor; [split_and!; lia|]. apply Forall_forall. intros o Ho.
    apply (proj1 (Forall_forall _ _) Hl2) in Ho as ?. apply (proj1 (Forall_forall _ _) Hmid) in Ho as ?.
    apply (proj1 (Forall_forall _ _) Hb) in Ho as Hbo. unfold before in Hbo. split_and!; lia. }
  rewrite app_nil_r in E1. exists s1, s2, m2, avs', (reverse mid.*1). split; [done|]. split; [done|]. split; [done|].
  split; [|split; [by rewrite Hd2|]].
  - eapply frame_trans; [exact Hfr1|exact Hfr2|set_solver|]. rewrite !fmap_app. set_solver.
  - assert (Hout : forall a f, start <= a < e -> ~ covers l1 a f /\ ~ covers post a f).
    { intros a f Hr. split; [by eapply covers_below|by eapply covers_above]. }
    constructor.
    + intros a f. rewrite Hcov, !covers_app. specialize (Hout a f). tauto.
    + rewrite <- Hd1, <- Epg1. eapply pages_cut_weaken; [exact Hcut|]. intros a f Hr. rewrite !covers_app.
      specialize (Hout a f Hr). tauto.
Qed.

Lemma frame_app mm D D' s s' : frame mm D s s' -> D ⊆ D' -> frame mm D' s s'.
Proof using Type. intros H Hs. eapply frame_trans; [exact H|apply (frame_refl mm [])|done|set_solver]. Qed.

(** The range lies between the areas: there is nothing to do. *)
Lemma unmap_nothing d start e s1 s l1 l2 :
  pages s1 = pages s -> Forall (fun q => vm_end (snd q) <= start) l1 -> Forall (fun q => e <= vm_start (snd q)) l2 ->
  unmap_result d start e s (l1 ++ l2) (pages s1) 0 (l1 ++ l2).
Proof using Type.
  intros Hp H1 H2. assert (Hout : forall a f, start <= a < e -> ~ covers (l1 ++ l2) a f).
  { intros a f Hr [?|?]%covers_app; [by eapply covers_below|by eapply covers_above]. }
  constructor.
  - intros a f. specialize (Hout a f). tauto.
  - intros d' a. rewrite Hp. split; [|tauto]. intros Hm. split; [done|]. intros (_ & Hr & f & Hf). by apply (Hout a f Hr).
Qed.

Lemma mm_unmap_ok s mm m avs addr len :
  space s mm m avs -> mm <> 0 -> fresh s -> Forall private avs ->
  let start := ROUNDDOWN addr PGSIZE in
  let e := ROUNDUP (u32 (addr + len)) PGSIZE in
  exists r s' m' avs', mm_unmap mm addr len s = Ret (r, s') /\ space s' mm m' avs' /\
    unmap_result (pgdir m) start e s avs (pages s') r avs' /\
    frame mm (next_alloc s :: avs.*1) s s' /\ pgdir m' = pgdir m.
Proof using Type.
  intros Hsp Hmm Hfr Hpr start e. unfold mm_unmap. fold start e.
  assert (Has : start mod PGSIZE = 0) by apply rounddown_aligned.
  assert (Hae : e mod PGSIZE = 0) by apply roundup_aligned.
  destruct (USER_ACCESS start e) eqn:Hua; cbn [negb]; [|exists (- E_INVAL), s, m, avs; split_and!; try done; by constructor].
  pose proof (user_access_true _ _ Hua) as [[_ Hse] _]. rewrite assert_true by lia.
  destruct (search_ok s mm m avs start Hsp Hmm) as (l1 & l2 & s1 & m1 & -> & Hl1 & Hl2 & E1 & Hsp1 & Hfr1 & Epg1 & Hd1 & Ek1).
  mstep E1. assert (Ha := sp_areas _ _ _ _ Hsp1). apply Forall_app in Ha as [_ Ha].
  assert (Hfr1' : frame mm (next_alloc s :: (l1 ++ l2).*1) s s1) by (eapply frame_app; [exact Hfr1|set_solver]).
  destruct l2 as [|p l2]; cbn [head addr_of].
  { exists 0, s1, m1, (l1 ++ []). split_and!; try done. by apply unmap_nothing. }
  assert (Ha' := Ha). apply Forall_cons in Ha' as [(Ep & Hp0 & _) _]. destruct (Z.eqb_spec (fst p) 0); [lia|].
  mstep get_vma_ok; [|exact Ep].
  assert (Hs := sp_sorted _ _ _ _ Hsp1). destruct (sorted_middle _ _ _ Hs) as (Hb1 & Hb2 & _). apply sorted_app in Hs as (_ & Hs2 & _).
  destruct (Z.leb_spec e (vm_start (snd p))) as [Hge|Hlt].
  { exists 0, s1, m1, (l1 ++ p :: l2). split_and!; try done. apply unmap_nothing; [done|done|].
    apply (head_above s1 mm); [done|done|]. by intros q [= <-]. }
  assert (Hf1 : fresh s1) by (intros a; rewrite Ek1, (fr_vmas _ _ _ _ Hfr1) by set_solver; apply Hfr).
  assert (Hna : next_alloc s1 = next_alloc s) by (unfold next_alloc; by rewrite Ek1).
  assert (Hprp := Hpr). apply Forall_app in Hprp as [_ Hpr2].
  destruct ((vm_start (snd p) <? start) && (e <? vm_end (snd p))) eqn:Hsplit.
  - apply andb_true_iff in Hsplit as [Hsl%Z.ltb_lt Hsr%Z.ltb_lt]. destruct (Z.eq_dec (next_alloc s) 0) as [Hz|Hnz].
    { destruct (create_fail s1 (vm_start (snd p)) start (vm_flags (snd p))) as [k E2]; [by rewrite Hna|]. mstep E2.
      exists (- E_NO_MEM), (upd_kmallocs (fun _ => k) s1), m1, (l1 ++ p :: l2). split_and!; try done.
      - by eapply space_frame.
      - apply (unmap_no_mem _ _ _ _ _ _ p); try done. apply elem_of_app. right. left.
      - by destruct Hfr1'. }
    destruct (unmap_split_ok s1 mm m1 l1 p l2 start e) as (s2 & s3 & s4 & m4 & avs' & E2 & E3 & E4 & Hsp4 & Hfr4 & Epg4 & Hd4 & Hcov);
      [done|done|by rewrite Hna|by apply Forall_cons in Hpr2 as [? _]|done..|].
    rewrite Hna in *. mstep E2. destruct (Z.eqb_spec (next_alloc s) 0); [lia|]. mstep E3. mstep E4.
    mstep get_mm_ok; [|apply Hsp4]. rewrite bind_modify. eexists 0, _, m4, avs'. split; [done|]. split; [by eapply space_frame|].
    split; [|split; [|by rewrite Hd4]].
    + constructor; [done|]. cbn [pages upd_pages]. rewrite Epg4, Epg1, Hd4, Hd1.
      eapply (pages_cut_weaken _ _ _ _ [p]); [apply pages_cut_range; [done|done|done|lia|lia]|].
      intros a f Hr. rewrite covers_app, !covers_cons. pose proof (covers_nil a f).
      assert (~ covers l1 a f) by (by apply (covers_below l1 start e)).
      assert (~ covers l2 a f). { intros (o & Ho & ? & _). apply (proj1 (Forall_forall _ _) Hb2) in Ho. unfold before in Ho. lia. }
      tauto.
    + eapply frame_trans; [exact Hfr1'| |done|]; [by destruct Hfr4|]. rewrite fmap_app. set_solver.
  - mstep get_mm_ok; [|apply Hsp1].
    destruct (unmap_many_ok s1 mm m1 l1 p l2 start e) as (s2 & s3 & m3 & avs' & fl & E2 & E3 & Hsp3 & Hfr3 & Hd3 & Hres);
      [done|done|done|done|done|done|done|done|lia|].
    mstep E2. mstep E3. exists 0, s3, m3, avs'. split; [done|]. split; [done|]. split; [|split; [|by rewrite Hd3]].
    + inversion Hres; subst; [|done..]. rewrite Hd1, Epg1 in *. by constructor.
    + eapply frame_trans; [exact Hfr1'|exact Hfr3|done|set_solver].
Qed.

(** ** Looking for room *)

Definition free avs (b len : Z) : Prop := forall a f, b <= a < b + len -> ~ covers avs a f.

(** A free range lies below or above each area. *)
Lemma free_apart s mm avs b len p :
  free avs b len -> 0 < len -> p ∈ avs -> area_ok s mm p -> b + len <= vm_start (snd p) \/ vm_end (snd p) <= b.
Proof using Type.
  intros Hf Hlen Hp (_ & _ & _ & Hlt & _).
  destruct (Z.le_gt_cases (b + len) (vm_start (snd p))); [by left|]. destruct (Z.le_gt_cases (vm_end (snd p)) b); [by right|].
  exfalso. apply (Hf (Z.max b (vm_start (snd p))) (vm_flags (snd p))); [lia|]. exists p. split; [done|]. split; [lia|done].
Qed.

(** What the answer [r] to a search for [len] free bytes must satisfy. *)
Definition best_room avs (len r : Z) : Prop :=
  (r <> 0 -> USERBASE <= r /\ r + len <= USERTOP /\ free avs r len) /\
  (forall b, USERBASE <= b -> b + len <= USERTOP -> free avs b len -> r <> 0 /\ b <= r).

Lemma unmapped_loop_ok s mm len : 0 < len -> forall pre post start,
  Forall (area_ok s mm) (pre ++ post) -> StronglySorted before (pre ++ post) ->
  Forall (fun p => USERBASE <= vm_start (snd p)) (pre ++ post) ->
  0 <= start -> start + len <= USERTOP -> Forall (fun p => start + len <= vm_start (snd p)) post ->
  (forall b, USERBASE <= b -> b + len <= USERTOP -> free (pre ++ post) b len -> b <= start) ->
  exists r, unmapped_loop (reverse pre.*1) len start s = Ret (r, s) /\ best_room (pre ++ post) len r.
Proof using Type.
  intros Hlen pre. induction pre as [|p pre IH] using rev_ind; intros post start Ha Hs Hu H0 Htop Hpost Hbest.
  - eexists. split; [reflexivity|]. destruct (Z.leb_spec USERBASE start).
    + split; [|intros; split; [unfold USERBASE in *; lia|by apply Hbest]]. intros _. split_and!; [done|done|].
      intros a f Hr (q & Hq & ? & _). apply (proj1 (Forall_forall _ _) Hpost) in Hq. lia.
    + split; [done|]. intros b Hb Hbt Hf. specialize (Hbest b Hb Hbt Hf). lia.
  - rewrite <- app_assoc in *. cbn [app] in *. assert (Ha' := Ha). apply Forall_app in Ha' as [Ha1 [Hp Ha2]%Forall_cons].
    destruct (Hp) as (Ep & _ & _ & Hlt & _). destruct (sorted_middle _ _ _ Hs) as (Hb1 & Hb2 & _).
    rewrite fmap_app, reverse_app. change (reverse [p].*1 ++ reverse pre.*1) with (fst p :: reverse pre.*1). cbn [unmapped_loop].
    mstep get_vma_ok; [|exact Ep].
    assert (Hin : p ∈ pre ++ p :: post) by (apply elem_of_app; right; left).
    destruct (Z.leb_spec (vm_end (snd p)) start) as [Hge|Hlt'].
    { exists start. split; [done|]. split; [|intros; split; [|by apply Hbest]].
      - intros Hnz. split_and!; [|done|].
        { apply (proj1 (Forall_forall _ _) Hu) in Hin. lia. }
        intros a f Hr [(q & Hq & ? & _)|[[? _]|(q & Hq & ? & _)]%covers_cons]%covers_app; [|lia|].
        + apply (proj1 (Forall_forall _ _) Hb1) in Hq. unfold before in Hq. lia.
        + apply (proj1 (Forall_forall _ _) Hpost) in Hq. lia.
      - apply (proj1 (Forall_forall _ _) Hu) in Hin. unfold USERBASE in *. lia. }
    destruct (Z.ltb_spec (vm_start (snd p)) (start + len)) as [Hov|Hno].
    2: { apply (IH (p :: post)); [done|done|done|done|done|by constructor|done]. }
    assert (Hdown : forall b, USERBASE <= b -> b + len <= USERTOP -> free (pre ++ p :: post) b len -> b <= vm_start (snd p) - len).
    { intros b Hb Hbt Hf. specialize (Hbest b Hb Hbt Hf). destruct (free_apart s mm _ b len p Hf Hlen Hin Hp); lia. }
    destruct (Z.leb_spec (vm_start (snd p)) len) as [Hle|Hgt].
    + exists 0. split; [done|]. split; [done|]. intros b Hb Hbt Hf. specialize (Hdown b Hb Hbt Hf). unfold USERBASE in *. lia.
    + apply (IH (p :: post)); [done|done|done|lia|lia| |done]. constructor; [lia|].
      eapply Forall_impl; [exact Hb2|]. unfold before. lia.
Qed.

(** ** Checks of user pointers *)

(** Access at address [a] is allowed: its area has the right, and a write to a stack
    keeps clear of its lowest page. *)
Definition allowed avs (write : bool) (a : Z) : Prop :=
  exists p, p ∈ avs /\ vm_start (snd p) <= a < vm_end (snd p) /\
    has (vm_flags (snd p)) (if write then VM_WRITE else VM_READ) = true /\
    (write && has (vm_flags (snd p)) VM_STACK = true -> vm_start (snd p) + PGSIZE <= a).

Lemma mem_check_ok mm e write (Hmm : mm <> 0) : forall l2 l1 s m fuel start,
  space s mm m (l1 ++ l2) -> Forall (fun p => vm_end (snd p) <= start) l1 ->
  Forall (fun p => start < vm_end (snd p)) l2 -> (length l2 < fuel)%nat ->
  exists r s' m', mem_check_loop fuel mm start e write s = Ret (r, s') /\ space s' mm m' (l1 ++ l2) /\
    frame mm [] s s' /\ pages s' = pages s /\
    (r = true <-> forall a, start <= a < e -> allowed (l1 ++ l2) write a).
Proof using Type.
  induction l2 as [|p l2 IH]; intros l1 s m [|fuel] start Hsp Hl1 Hl2 Hf; try (cbn in Hf; lia); cbn [mem_check_loop];
    (destruct (Z.ltb_spec start e) as [Hlt|Hge]; [|exists true, s, m; split_and!; try done; split; [lia|done]]);
    destruct (find_vma_ok s mm m _ start Hsp Hmm) as (s1 & m1 & E1 & Hsp1 & Es1 & _);
    rewrite first_above_skip in E1, Es1 by done.
  - mstep E1. exists false, s1, m1. cbn in Es1. subst s1. split_and!; try done. split; [done|]. intros H.
    destruct (H start ltac:(lia)) as (q & Hq & ? & _). rewrite app_nil_r in Hq. apply (proj1 (Forall_forall _ _) Hl1) in Hq. lia.
  - apply Forall_cons in Hl2 as [Hp Hl2]. assert (Eab : first_above (p :: l2) start = Some p).
    { cbn. unfold above. by destruct (Z.ltb_spec start (vm_end (snd p))); [|lia]. }
    rewrite Eab in E1, Es1. cbn [addr_of] in E1. mstep E1. assert (Ha := sp_areas _ _ _ _ Hsp1). assert (Hs := sp_sorted _ _ _ _ Hsp1).
    assert (Hok : area_ok s1 mm p) by (by apply Forall_app in Ha as [_ [? _]%Forall_cons]).
    destruct (Hok) as (Ep & Hp0 & _ & Hplt & _). destruct (Z.eqb_spec (fst p) 0); [lia|]. mstep get_vma_ok; [|exact Ep].
    assert (Hfr : frame mm [] s s1 /\ pages s1 = pages s).
    { subst s1. split; [|done]. constructor; [|done|done]. intros k Hk. cbn. by rewrite lookup_alter_ne. }
    assert (Hstart : allowed (l1 ++ p :: l2) write start -> vm_start (snd p) <= start /\
      has (vm_flags (snd p)) (if write then VM_WRITE else VM_READ) = true /\
      (write && has (vm_flags (snd p)) VM_STACK = true -> vm_start (snd p) + PGSIZE <= start)).
    { intros (q & Hq & Hr & Hq2). assert (E := first_above_hit s1 mm _ q start Ha Hs Hq Hr).
      rewrite first_above_skip, Eab in E by done. injection E as <-. split; [lia|done]. }
    assert (Hno : (allowed (l1 ++ p :: l2) write start -> False) ->
      exists r s' m', (ret false : M _ bool) s1 = Ret (r, s') /\ space s' mm m' (l1 ++ p :: l2) /\ frame mm [] s s' /\ pages s' = pages s /\
      (r = true <-> forall a, start <= a < e -> allowed (l1 ++ p :: l2) write a)).
    { intros Hn. exists false, s1, m1. split_and!; [done|done|apply Hfr|apply Hfr|]. split; [done|]. intros H. exfalso. apply Hn, H. lia. }
    destruct (Z.ltb_spec start (vm_start (snd p))); [apply Hno; intros ?%Hstart; lia|].
    destruct (has (vm_flags (snd p)) (if write then VM_WRITE else VM_READ)) eqn:Hperm; cbn [negb]; [|apply Hno; intros ?%Hstart; naive_solver].
    destruct (write && has (vm_flags (snd p)) VM_STACK) eqn:Hst; cbn [andb];
      [destruct (Z.ltb_spec start (vm_start (snd p) + PGSIZE)); [apply Hno; intros ?%Hstart; naive_solver lia|]|].
    all: destruct (sorted_middle _ _ _ Hs) as (_ & Hb2 & _).
    all: destruct (IH (l1 ++ [p]) s1 m1 fuel (vm_end (snd p))) as (r & s' & m' & E & Hsp' & Hfr' & Epg' & Hr);
      [by rewrite <- app_assoc|apply Forall_app; split; [eapply Forall_impl; [exact Hl1|]; cbn; lia|by constructor]| |cbn in Hf; lia|].
    all: try (apply Forall_forall; intros q Hq; apply (proj1 (Forall_forall _ _) Hb2) in Hq as Hbq;
      apply Forall_app in Ha as [_ [_ Ha]%Forall_cons]; apply (proj1 (Forall_forall _ _) Ha) in Hq as (_ & _ & _ & ? & _);
      unfold before in Hbq; lia).
    all: rewrite <- app_assoc in Hsp', Hr; exists r, s', m'; split; [done|]; split; [done|];
      split; [by eapply frame_trans; [apply Hfr|exact Hfr'|..]|]; split; [rewrite Epg'; apply Hfr|]; rewrite Hr; cbn [app].
    all: split; [|intros Hall a Ha2; apply Hall; lia]; intros Hall a Ha2;
      destruct (Z.lt_ge_cases a (vm_end (snd p))); [|apply Hall; lia].
    all: exists p; split; [apply elem_of_app; right; left|]; split; [lia|]; split; [done|]; rewrite Hst; (done || lia).
Qed.

(** ** The properties *)

(** [find_vma], by the cache, the red-black tree or the list, returns the first
    area that ends above the address, or NULL, which is the area that holds the
    address when there is one; only the cache of this address space changes. *)
Theorem find_vma_spec s mm m avs addr :
  space s mm m avs -> mm <> 0 ->
  exists s' m', find_vma mm addr s = Ret (addr_of (first_above avs addr) 0, s') /\ space s' mm m' avs /\
    frame mm [] s s' /\ pages s' = pages s /\
    (forall p, p ∈ avs -> vm_start (snd p) <= addr < vm_end (snd p) -> addr_of (first_above avs addr) 0 = fst p).
Proof using Type.
  intros Hsp Hmm. destruct (find_vma_ok s mm m avs addr Hsp Hmm) as (s1 & m1 & E1 & Hsp1 & Es1 & Hd1).
  exists s1, m1. split_and!; [done|done|..].
  - subst s1. destruct (first_above avs addr); [|done]. constructor; [|done|done]. intros k Hk. cbn. by rewrite lookup_alter_ne.
  - subst s1. by destruct (first_above avs addr).
  - intros p Hp Hr. by rewrite (first_above_hit s mm avs p addr (sp_areas _ _ _ _ Hsp) (sp_sorted _ _ _ _ Hsp) Hp Hr).
Qed.


(** C33: on private areas, [mm_unmap] unmaps exactly the pages of the requested range:
    every address outside it keeps its area's flags and its page, none inside keeps
    either, whether areas are cut at one end, in the middle, or removed.  It fails
    only outside user space, or when an area must be cut in two and no memory is
    left, and then changes nothing. *)
Theorem mm_unmap_spec s mm m avs addr len :
  space s mm m avs -> mm <> 0 -> fresh s -> Forall private avs ->
  exists r s' m' avs', mm_unmap mm addr len s = Ret (r, s') /\ space s' mm m' avs' /\
    unmap_result (pgdir m) (ROUNDDOWN addr PGSIZE) (ROUNDUP (u32 (addr + len)) PGSIZE) s avs (pages s') r avs' /\
    frame mm (next_alloc s :: avs.*1) s s' /\ pgdir m' = pgdir m.
Proof using Type. intros. by apply mm_unmap_ok. Qed.

(** [get_unmapped_area] returns the highest address at which the requested length
    is free in user space, and 0 only when there is none. *)
Theorem get_unmapped_area_spec s mm m avs len :
  space s mm m avs -> Forall (fun p => USERBASE <= vm_start (snd p)) avs -> 0 < len <= USERTOP ->
  exists r, get_unmapped_area mm len s = Ret (r, s) /\ best_room avs len r.
Proof using Type.
  intros Hsp Hu Hlen. unfold get_unmapped_area. destruct (Z.eqb_spec len 0), (Z.ltb_spec USERTOP len); try lia. cbn [orb].
  mstep get_mm_ok; [|apply Hsp]. rewrite (sp_list _ _ _ _ Hsp).
  destruct (unmapped_loop_ok s mm len ltac:(lia) avs [] (USERTOP - len)) as (r & E & Hr);
    rewrite ?app_nil_r; [apply Hsp|apply Hsp|done|lia|lia|constructor|intros; lia|].
  rewrite app_nil_r in Hr. by exists r.
Qed.

(** [user_mem_check] on an address space accepts a range exactly when it lies in
    user space and every address of it may be accessed; its loop ends. *)
Theorem user_mem_check_spec s mm m avs addr len write :
  space s mm m avs -> mm <> 0 ->
  exists r s' m', user_mem_check mm addr len write s = Ret (r, s') /\ space s' mm m' avs /\
    frame mm [] s s' /\ pages s' = pages s /\
    (r = true <-> USER_ACCESS addr (u32 (addr + len)) = true /\
                  forall a, addr <= a < u32 (addr + len) -> allowed avs write a).
Proof using Type.
  intros Hsp Hmm. unfold user_mem_check. destruct (Z.eqb_spec mm 0); [lia|]. cbn [negb].
  destruct (USER_ACCESS addr (u32 (addr + len))); cbn [negb]; [|exists false, s, m; split_and!; try done; naive_solver].
  mstep get_mm_ok; [|apply Hsp].
  destruct (split_below s mm avs addr (sp_areas _ _ _ _ Hsp) (sp_sorted _ _ _ _ Hsp)) as (l1 & l2 & -> & Hl1 & Hl2 & _).
  destruct (mem_check_ok mm (u32 (addr + len)) write Hmm l2 l1 s m (S (length (mmap_list m))) addr) as (r & s' & m' & E & Hsp' & Hfr & Epg & Hr);
    [done|done|done|rewrite (sp_list _ _ _ _ Hsp), length_fmap, length_app; lia|].
  exists r, s', m'. split_and!; [done|done|done|done|]. rewrite Hr. tauto.
Qed.
End Spaces.

(** ** Instances: a list as a tree, a set of pages *)

Fixpoint spine (l : list Z) : bintree := match l with [] => Leaf | x :: l => Node Leaf x (spine l) end.

Fixpoint spine_insert (cmp : Z -> Z -> Z) (l : list Z) (x : Z) : list Z :=
  match l with [] => [x] | y :: l => if 0 <? cmp y x then x :: y :: l else y :: spine_insert cmp l x end.

Fixpoint spine_prev (l : list Z) (x : Z) (d : option Z) : option Z :=
  match l with [] => None | y :: l => if y =? x then d else spine_prev l x (Some y) end.

Lemma inorder_spine l : inorder (spine l) = l.
Proof. induction l as [|x l IH]; [done|]. cbn. by rewrite IH. Qed.

Lemma spine_insert_ok cmp x l1 l2 :
  Forall (fun y => cmp y x <= 0) l1 -> Forall (fun y => 0 < cmp y x) l2 -> spine_insert cmp (l1 ++ l2) x = l1 ++ x :: l2.
Proof.
  intros H1 H2. induction H1 as [|y l1 Hy _ IH]; cbn.
  - destruct H2 as [|y l2 Hy _]; [done|]. cbn. by destruct (Z.ltb_spec 0 (cmp y x)); [|lia].
  - destruct (Z.ltb_spec 0 (cmp y x)); [lia|]. by rewrite IH.
Qed.

Lemma spine_prev_ok x l2 l1 : NoDup (l1 ++ x :: l2) -> forall d,
  spine_prev (l1 ++ x :: l2) x d = match last l1 with Some y => Some y | None => d end.
Proof.
  induction l1 as [|y l1 IH]; intros Hn d; cbn [app spine_prev]; [by rewrite Z.eqb_refl|].
  apply NoDup_cons in Hn as [Hy Hn]. destruct (Z.eqb_spec y x) as [->|].
  { exfalso. apply Hy, elem_of_app. right. left. }
  rewrite IH by done. destruct l1 as [|z l1]; [done|]. change (last (y :: z :: l1)) with (last (z :: l1)).
  destruct (last (z :: l1)) eqn:E; [done|]. by apply last_None in E.
Qed.

#[export] Program Instance list_tree : RbTree (list Z) := {|
  rb_empty := [];
  rb_insert cmp l x := spine_insert cmp l x;
  rb_delete l x := List.remove Z.eq_dec x l;
  rb_node_prev l x := spine_prev l x None;
  rb_shape := spine |}.
Next Obligation. done. Qed.
Next Obligation. intros cmp t x l1 l2 E H1 H2. rewrite inorder_spine in *. subst. by apply spine_insert_ok. Qed.
Next Obligation. intros t x l1 l2 E Hn. rewrite inorder_spine in *. subst. by apply remove_nodup. Qed.
Next Obligation.
  intros t x l1 l2 E Hn. rewrite inorder_spine in E. subst. rewrite spine_prev_ok by done. by destruct (last l1).
Qed.

(** Page tables as the set of (directory, page number) that are mapped. *)
#[export] Program Instance page_set : PageTables (gset (Z * Z)) := {|
  unmap_range d s e p := filter (fun x => ~ (fst x = d /\ s <= snd x * 4096 < e)) p;
  exit_range d s e p := p;
  copy_range to from s e share p := (0, p);
  shmem_release a p := p;
  mapped p d a := (d, a / 4096) ∈ p |}.
Next Obligation.
  intros d s e p d' a Hs He _. unfold PGSIZE in *. cbn. rewrite elem_of_filter. cbn.
  assert (H : s <= a / 4096 * 4096 < e <-> s <= a < e) by dlia. rewrite H. tauto.
Qed.

(** ** An example: two areas in address space 1, in list and tree *)

Definition ex_v1 : vma_struct := mk_vma 1 0x800000 0x804000 3 0 0.
Definition ex_v2 : vma_struct := mk_vma 1 0x900000 0x902000 11 0 0.
Definition ex_avs : list (Z * vma_struct) := [(10, ex_v1); (20, ex_v2)].
Definition ex_mm : mm_struct (list Z) := mk_mm [10; 20] (Some [10; 20]) 20 7 2 0 0 0 0 0.
Definition ex_vstate : vstate (list Z) (gset (Z * Z)) :=
  mk_vstate (list_to_map ex_avs) {[1 := ex_mm]} ∅ [30; 31] {[ (7, 0x801); (7, 0x900) ]}.

Lemma ex_space : space ex_vstate 1 ex_mm ex_avs.
Proof.
  constructor.
  - reflexivity.
  - reflexivity.
  - unfold ex_avs. repeat constructor; cbn; lia.
  - unfold ex_avs. repeat constructor; unfold before; cbn; lia.
  - intros t [= <-]. reflexivity.
  - right. right. left.
  - reflexivity.
Qed.

Lemma ex_fresh : fresh ex_vstate.
Proof. intros a Ha _. cbn in Ha. enum_list Ha; reflexivity. Qed.

Lemma find_vma_spec_witness :
  exists s' m', find_vma 1 0x850000 ex_vstate = Ret (addr_of (first_above ex_avs 0x850000) 0, s') /\ space s' 1 m' ex_avs /\
    frame 1 [] ex_vstate s' /\ pages s' = pages ex_vstate /\
    (forall p, p ∈ ex_avs -> vm_start (snd p) <= 0x850000 < vm_end (snd p) -> addr_of (first_above ex_avs 0x850000) 0 = fst p).
Proof. apply (find_vma_spec ex_vstate 1 ex_mm); [apply ex_space|lia]. Defined.


Lemma mm_unmap_spec_witness :
  exists r s' m' avs', mm_unmap 1 0x801000 0x1000 ex_vstate = Ret (r, s') /\ space s' 1 m' avs' /\
    unmap_result (pgdir ex_mm) (ROUNDDOWN 0x801000 PGSIZE) (ROUNDUP (u32 (0x801000 + 0x1000)) PGSIZE) ex_vstate ex_avs (pages s') r avs' /\
    frame 1 (next_alloc ex_vstate :: ex_avs.*1) ex_vstate s' /\ pgdir m' = pgdir ex_mm.
Proof. apply mm_unmap_spec; [apply ex_space|lia|apply ex_fresh|repeat constructor]. Defined.

Lemma get_unmapped_area_spec_witness :
  exists r, get_unmapped_area 1 0x3000 ex_vstate = Ret (r, ex_vstate) /\ best_room ex_avs 0x3000 r.
Proof. apply (get_unmapped_area_spec ex_vstate 1 ex_mm); [apply ex_space|repeat constructor; cbn; unfold USERBASE; lia|unfold USERTOP; lia]. Defined.

Lemma user_mem_check_spec_witness :
  exists r s' m', user_mem_check 1 0x901000 16 true ex_vstate = Ret (r, s') /\ space s' 1 m' ex_avs /\
    frame 1 [] ex_vstate s' /\ pages s' = pages ex_vstate /\
    (r = true <-> USER_ACCESS 0x901000 (u32 (0x901000 + 16)) = true /\
                  forall a, 0x901000 <= a < u32 (0x901000 + 16) -> allowed ex_avs true a).
Proof. apply (user_mem_check_spec ex_vstate 1 ex_mm); [apply ex_space|lia]. Defined.

(** Runs of the model: a mapping between the areas, a cut in the middle. *)
Definition run_areas {A} (c : M (vstate (list Z) (gset (Z * Z))) A) (s : vstate (list Z) (gset (Z * Z))) :
  option (A * list (option (Z * Z * Z))) :=
  match c s with
  | Ret (a, s') =>
      m ← mms s' !! 1;
      Some (a, (fun x => (fun v => (vm_start v, vm_end v, vm_flags v)) <$> vmas s' !! x) <$> mmap_list m)
  | _ => None
  end.

Example map_and_unmap :
  run_areas (mm_map 1 0x850123 0x2000 3) ex_vstate =
    Some ((0, 30), [Some (0x800000, 0x804000, 3); Some (0x850000, 0x853000, 3); Some (0x900000, 0x902000, 11)]) /\
  run_areas (mm_unmap 1 0x801000 0x1000) ex_vstate =
    Some (0, [Some (0x800000, 0x801000, 3); Some (0x802000, 0x804000, 3); Some (0x900000, 0x902000, 11)]) /\
  run_areas (mm_unmap 1 0x802000 0xff000) ex_vstate =
    Some (0, [Some (0x800000, 0x802000, 3); Some (0x901000, 0x902000, 11)]).
Proof. split_and!; vm_compute; reflexivity. Qed.

(** ** Cutting a shared area in two *)

Definition ex_shared : vstate (list Z) (gset (Z * Z)) :=
  mk_vstate {[10 := mk_vma 1 0x800000 0x804000 19 50 0]} {[1 := mk_mm [10] None 0 7 1 0 0 0 0 0]}
    {[50 := mk_shmem 0x4000 1]} [30] ∅.

(** Unmapping the middle of a shared area succeeds; the lower half is created with
    the flags of the area, VM_SHARE included, but with no shared memory and no
    reference to it, so destroying it follows a null pointer. *)
Theorem shared_split_loses_shmem :
  exists s', mm_unmap 1 0x801000 0x1000 ex_shared = Ret (0, s') /\
    vmas s' !! 30 = Some (mk_vma 1 0x800000 0x801000 19 0 0) /\ has 19 VM_SHARE = true /\
    shmems s' !! 50 = Some (mk_shmem 0x4000 1) /\ vma_destroy 30 s' = Panic.
Proof. eexists. split; [vm_compute; reflexivity|]. split_and!; vm_compute; reflexivity. Qed.
End VmmInv.
