(* ===== verification/Rb.v ===== *)
(** * Red-black trees: the code of kern/libs/rb_tree.c

    Nodes are cells of a heap, linked by [parent], [left] and [right]; the two
    sentinels [nil] and [root] are cells like the others, and [root->left] is the
    top of the tree.  The macros that are expanded once per direction take the
    direction as an argument.  The fields of a [rb_tree] are written by
    [rb_tree_create] only: the operations take its contents. *)

From S2P Require Import Prelude.
Open Scope Z_scope.

Module Rb.

(** [rb_node]. *)
Record rb_node := mk_node { red : bool; parent : Z; left : Z; right : Z }.

(** [rb_tree]. *)
Record rb_tree := mk_tree { compare : Z -> Z -> Z; nil : Z; root : Z }.

(** The arguments [_left] and [_right] of the macros: a field and its opposite. *)
Inductive dir := L | R.

#[export] Instance dir_eq_dec : EqDecision dir.
Proof. solve_decision. Defined.

Definition opp (d : dir) : dir := match d with L => R | R => L end.

Definition child (d : dir) (n : rb_node) : Z := match d with L => left n | R => right n end.

Definition set_red (c : bool) (n : rb_node) : rb_node := mk_node c (parent n) (left n) (right n).
Definition set_parent (p : Z) (n : rb_node) : rb_node := mk_node (red n) p (left n) (right n).
Definition set_child (d : dir) (x : Z) (n : rb_node) : rb_node :=
  match d with
  | L => mk_node (red n) (parent n) x (right n)
  | R => mk_node (red n) (parent n) (left n) x
  end.

Abbreviation heap := (gmap Z rb_node).

Definition rd (a : Z) : M heap rb_node := h <- get ;; deref (h !! a).
Definition wr (f : rb_node -> rb_node) (a : Z) : M heap unit :=
  n <- rd a ;; modify (<[a := f n]>).

(** ** Creation and destruction *)

Record rb_state := mk_rbs {
  nodes : heap;
  trees : gmap Z rb_tree;
  kmallocs : list (option Z)
}.

Definition kmalloc : M rb_state (option Z) :=
  s <- get ;;
  put (mk_rbs (nodes s) (trees s) (tail (kmallocs s))) ;;
  ret (default None (List.head (kmallocs s))).

Definition rb_node_create : M rb_state (option Z) := kmalloc.

Definition put_node (a : Z) (n : rb_node) : M rb_state unit :=
  modify (fun s => mk_rbs (<[a := n]> (nodes s)) (trees s) (kmallocs s)).

Definition put_tree (a : Z) (t : rb_tree) : M rb_state unit :=
  modify (fun s => mk_rbs (nodes s) (<[a := t]> (trees s)) (kmallocs s)).

Definition kfree_node (a : Z) : M rb_state unit :=
  modify (fun s => mk_rbs (delete a (nodes s)) (trees s) (kmallocs s)).

Definition kfree_tree (a : Z) : M rb_state unit :=
  modify (fun s => mk_rbs (nodes s) (delete a (trees s)) (kmallocs s)).

Definition get_tree (a : Z) : M rb_state rb_tree := s <- get ;; deref (trees s !! a).

(** The argument is [None] when the caller passes NULL. *)
Definition rb_tree_create (compare : option (Z -> Z -> Z)) : M rb_state (option Z) :=
  assert (match compare with Some _ => true | None => false end) ;;
  cmp <- deref compare ;;
  t <- kmalloc ;;
  match t with
  | None => ret None
  | Some t =>
      n <- rb_node_create ;;
      match n with
      | None => kfree_tree t ;; ret None
      | Some nil =>
          put_node nil (mk_node false nil nil nil) ;;
          r <- rb_node_create ;;
          match r with
          | None => kfree_node nil ;; kfree_tree t ;; ret None
          | Some root =>
              put_node root (mk_node false nil nil nil) ;;
              put_tree t (mk_tree cmp nil root) ;;
              ret (Some t)
          end
      end
  end.

Definition rb_tree_destroy (a : Z) : M rb_state unit :=
  t <- get_tree a ;;
  kfree_node (root t) ;;
  kfree_node (nil t) ;;
  kfree_tree a.

(** ** Operations on one tree *)

Section Ops.
Variable tree : rb_tree.

Definition rb_tree_empty : M heap bool := r <- rd (root tree) ;; ret (left r =? nil tree).

(** [if (x == p->_left) p->_left = y; else p->_right = y;]. *)
Definition link_child (d : dir) (p x y : Z) : M heap unit :=
  pn <- rd p ;;
  if x =? child d pn then wr (set_child d y) p else wr (set_child (opp d) y) p.

(** [FUNC_ROTATE(_, d, opp d)]. *)
Definition rotate (d : dir) (x : Z) : M heap unit :=
  xn <- rd x ;;
  let y := child (opp d) xn in
  assert (negb (x =? root tree) && negb (x =? nil tree) && negb (y =? nil tree)) ;;
  yn <- rd y ;;
  wr (set_child (opp d) (child d yn)) x ;;
  (if child d yn =? nil tree then ret tt else wr (set_parent x) (child d yn)) ;;
  xn <- rd x ;;
  wr (set_parent (parent xn)) y ;;
  link_child d (parent xn) x y ;;
  wr (set_child d x) y ;;
  wr (set_parent y) x ;;
  niln <- rd (nil tree) ;;
  assert (negb (red niln)).

(** The loop of [rb_insert_binary]: the last node reached and where it falls off. *)
Fixpoint insert_descend (fuel : nat) (node y x : Z) : M heap Z :=
  if x =? nil tree then ret y
  else
    match fuel with
    | O => out_of_fuel
    | S fuel =>
        xn <- rd x ;;
        insert_descend fuel node x (if 0 <? compare tree x node then left xn else right xn)
    end.

Definition rb_insert_binary (node : Z) : M heap unit :=
  wr (set_child R (nil tree)) node ;;
  wr (set_child L (nil tree)) node ;;
  h <- get ;;
  rn <- rd (root tree) ;;
  y <- insert_descend (S (size h)) node (root tree) (left rn) ;;
  wr (set_parent y) node ;;
  if (y =? root tree) || (0 <? compare tree y node) then wr (set_child L node) y
  else wr (set_child R node) y.

(** [RB_INSERT_SUB(d, opp d)]; the result is the new [x]. *)
Definition RB_INSERT_SUB (d : dir) (x : Z) : M heap Z :=
  xn <- rd x ;;
  pn <- rd (parent xn) ;;
  gn <- rd (parent pn) ;;
  let y := child (opp d) gn in
  yn <- rd y ;;
  if red yn then
    wr (set_red false) (parent xn) ;;
    wr (set_red false) y ;;
    wr (set_red true) (parent pn) ;;
    ret (parent pn)
  else
    (x <- (if x =? child (opp d) pn then rotate d (parent xn) ;; ret (parent xn) else ret x) ;;
     xn <- rd x ;;
     wr (set_red false) (parent xn) ;;
     pn <- rd (parent xn) ;;
     wr (set_red true) (parent pn) ;;
     rotate (opp d) (parent pn) ;;
     ret x).

Fixpoint rb_insert_loop (fuel : nat) (x : Z) : M heap unit :=
  xn <- rd x ;;
  pn <- rd (parent xn) ;;
  if red pn then
    match fuel with
    | O => out_of_fuel
    | S fuel =>
        gn <- rd (parent pn) ;;
        x <- RB_INSERT_SUB (if parent xn =? left gn then L else R) x ;;
        rb_insert_loop fuel x
    end
  else ret tt.

Definition rb_insert (node : Z) : M heap unit :=
  rb_insert_binary node ;;
  wr (set_red true) node ;;
  h <- get ;;
  rb_insert_loop (S (size h)) node ;;
  rn <- rd (root tree) ;;
  wr (set_red false) (left rn) ;;
  niln <- rd (nil tree) ;;
  rn <- rd (root tree) ;;
  assert (negb (red niln) && negb (red rn)).

(** [while (y->_left != nil) y = y->_left;]. *)
Fixpoint walk_down (fuel : nat) (d : dir) (y : Z) : M heap Z :=
  yn <- rd y ;;
  if child d yn =? nil tree then ret y
  else match fuel with O => out_of_fuel | S fuel => walk_down fuel d (child d yn) end.

(** [while (x == y->right) x = y, y = y->parent;]. *)
Fixpoint climb_right (fuel : nat) (x y : Z) : M heap Z :=
  yn <- rd y ;;
  if x =? right yn then
    match fuel with O => out_of_fuel | S fuel => climb_right fuel y (parent yn) end
  else ret y.

Definition rb_tree_successor (node : Z) : M heap Z :=
  h <- get ;;
  xn <- rd node ;;
  if negb (right xn =? nil tree) then walk_down (size h) L (right xn)
  else
    y <- climb_right (size h) node (parent xn) ;;
    if y =? root tree then ret (nil tree) else ret y.

(** The loop of [rb_tree_predecessor], which leaves the function at the root. *)
Fixpoint climb_left (fuel : nat) (x y : Z) : M heap Z :=
  yn <- rd y ;;
  if x =? left yn then
    if y =? root tree then ret (nil tree)
    else match fuel with O => out_of_fuel | S fuel => climb_left fuel y (parent yn) end
  else ret y.

Definition rb_tree_predecessor (node : Z) : M heap Z :=
  h <- get ;;
  xn <- rd node ;;
  if negb (left xn =? nil tree) then walk_down (size h) R (left xn)
  else climb_left (size h) node (parent xn).

(** The comparison with the key searched for is partially applied. *)
Fixpoint search_loop (fuel : nat) (cmp : Z -> Z) (node : Z) : M heap Z :=
  if node =? nil tree then ret node
  else
    let r := cmp node in
    if r =? 0 then ret node
    else
      match fuel with
      | O => out_of_fuel
      | S fuel =>
          n <- rd node ;;
          search_loop fuel cmp (if 0 <? r then left n else right n)
      end.

Definition or_null (x : Z) : option Z := if x =? nil tree then None else Some x.

Definition rb_search (cmp : Z -> Z) : M heap (option Z) :=
  h <- get ;;
  rn <- rd (root tree) ;;
  node <- search_loop (size h) cmp (left rn) ;;
  ret (or_null node).

(** [RB_DELETE_FIXUP_SUB(d, opp d)], with the [root] of the enclosing function;
    the result is the new [x]. *)
Definition RB_DELETE_FIXUP_SUB (root0 : Z) (d : dir) (x : Z) : M heap Z :=
  xn <- rd x ;;
  pn <- rd (parent xn) ;;
  let w := child (opp d) pn in
  wn <- rd w ;;
  w <- (if red wn then
          wr (set_red false) w ;;
          wr (set_red true) (parent xn) ;;
          rotate d (parent xn) ;;
          xn <- rd x ;;
          pn <- rd (parent xn) ;;
          ret (child (opp d) pn)
        else ret w) ;;
  wn <- rd w ;;
  ln <- rd (child d wn) ;;
  rn <- rd (child (opp d) wn) ;;
  if negb (red ln) && negb (red rn) then
    wr (set_red true) w ;;
    xn <- rd x ;;
    ret (parent xn)
  else
    (w <- (if negb (red rn) then
             wr (set_red false) (child d wn) ;;
             wr (set_red true) w ;;
             rotate (opp d) w ;;
             xn <- rd x ;;
             pn <- rd (parent xn) ;;
             ret (child (opp d) pn)
           else ret w) ;;
     xn <- rd x ;;
     pn <- rd (parent xn) ;;
     wr (set_red (red pn)) w ;;
     wr (set_red false) (parent xn) ;;
     wn <- rd w ;;
     wr (set_red false) (child (opp d) wn) ;;
     rotate d (parent xn) ;;
     ret root0).

Fixpoint fixup_loop (fuel : nat) (root0 x : Z) : M heap Z :=
  xn <- rd x ;;
  if negb (x =? root0) && negb (red xn) then
    match fuel with
    | O => out_of_fuel
    | S fuel =>
        pn <- rd (parent xn) ;;
        x <- RB_DELETE_FIXUP_SUB root0 (if x =? left pn then L else R) x ;;
        fixup_loop fuel root0 x
    end
  else ret x.

Definition rb_delete_fixup (node : Z) : M heap unit :=
  h <- get ;;
  rn <- rd (root tree) ;;
  x <- fixup_loop (S (size h)) (left rn) node ;;
  wr (set_red false) x.

Definition rb_delete (node : Z) : M heap unit :=
  zn <- rd node ;;
  y <- (if (left zn =? nil tree) || (right zn =? nil tree) then ret node
        else rb_tree_successor node) ;;
  yn <- rd y ;;
  let x := if negb (left yn =? nil tree) then left yn else right yn in
  assert (negb (y =? root tree) && negb (y =? nil tree)) ;;
  wr (set_parent (parent yn)) x ;;
  link_child L (parent yn) y x ;;
  yn <- rd y ;;
  let need_fixup := negb (red yn) in
  (if y =? node then ret tt
   else
     zn <- rd node ;;
     link_child L (parent zn) node y ;;
     zn <- rd node ;;
     wr (set_parent y) (right zn) ;;
     wr (set_parent y) (left zn) ;;
     zn <- rd node ;;
     wr (fun _ => zn) y) ;;
  if need_fixup then rb_delete_fixup x else ret tt.

Definition rb_node_prev (node : Z) : M heap (option Z) :=
  prev <- rb_tree_predecessor node ;; ret (or_null prev).

Definition rb_node_next (node : Z) : M heap (option Z) :=
  next <- rb_tree_successor node ;; ret (or_null next).

Definition rb_node_root : M heap (option Z) := rn <- rd (root tree) ;; ret (or_null (left rn)).
Definition rb_node_left (node : Z) : M heap (option Z) := n <- rd node ;; ret (or_null (left n)).
Definition rb_node_right (node : Z) : M heap (option Z) := n <- rd node ;; ret (or_null (right n)).

Fixpoint check_tree (fuel : nat) (node : Z) : M heap Z :=
  match fuel with
  | O => out_of_fuel
  | S fuel =>
      n <- rd node ;;
      if node =? nil tree then assert (negb (red n)) ;; ret 1
      else
        (if left n =? nil tree then ret tt
         else
           assert (0 <=? compare tree node (left n)) ;;
           ln <- rd (left n) ;;
           assert (parent ln =? node)) ;;
        (if right n =? nil tree then ret tt
         else
           assert (compare tree node (right n) <=? 0) ;;
           rn <- rd (right n) ;;
           assert (parent rn =? node)) ;;
        (if red n then
           ln <- rd (left n) ;;
           rn <- rd (right n) ;;
           assert (negb (red ln) && negb (red rn))
         else ret tt) ;;
        hb_left <- check_tree fuel (left n) ;;
        hb_right <- check_tree fuel (right n) ;;
        assert (hb_left =? hb_right) ;;
        ret (if red n then hb_left else hb_left + 1)
  end.

End Ops.

End Rb.
