(* ===== verification/RbPure.v ===== *)
(** * Red-black trees as values

    The reference for [Rb]: coloured trees whose nodes are named by their addresses,
    a path to a subtree as a list of frames, and insertion, deletion and the walks
    as functions on them.  The functions keep the order of the nodes whatever the
    colours are; on a red-black tree they give a red-black tree.  [RbInv] shows that
    the pointer code computes them. *)

From stdpp Require Import sorting.
From S2P Require Import Prelude Rb.
Open Scope Z_scope.

Module RbPure.
Import Rb.

Inductive tree := E | T (c : bool) (l : tree) (a : Z) (r : tree).

(** A node whose child in direction [d] is [x] and whose other child is [y]. *)
Definition Td (d : dir) (c : bool) (x : tree) (a : Z) (y : tree) : tree :=
  match d with L => T c x a y | R => T c y a x end.

(** A step of a path: the node, and the child that is not on the path. *)
Record frame := F { fdir : dir; fred : bool; faddr : Z; fsib : tree }.
Definition ctx : Type := list frame.

Definition fill (f : frame) (t : tree) : tree := Td (fdir f) (fred f) t (faddr f) (fsib f).
Definition plug (k : ctx) (t : tree) : tree := fold_left (fun t f => fill f t) k t.

Definition is_red (t : tree) : bool := match t with T c _ _ _ => c | E => false end.
Definition paint (c : bool) (t : tree) : tree := match t with T _ l a r => T c l a r | E => E end.

Fixpoint inorder (t : tree) : list Z :=
  match t with E => [] | T _ l a r => inorder l ++ a :: inorder r end.

(** ** Insertion *)

Fixpoint descend (cmp : Z -> Z) (t : tree) (k : ctx) : ctx :=
  match t with
  | E => k
  | T c l a r =>
      if 0 <? cmp a then descend cmp l (F L c a r :: k) else descend cmp r (F R c a l :: k)
  end.

(** [t] has just become red. *)
Fixpoint insert_fix (t : tree) (k : ctx) : tree :=
  match k with
  | F d true p s :: (F e cg g u :: k') as k1 =>
      if is_red u then insert_fix (Td e true (Td d false t p s) g (paint false u)) k'
      else
        if bool_decide (d = e) then plug k' (Td e false t p (Td e true s g u))
        else
          match t with
          | T c tl x tr =>
              let te := match e with L => tl | R => tr end in
              let to := match e with L => tr | R => tl end in
              plug k' (Td e false (Td e true s p te) x (Td e true to g u))
          | E => plug k t
          end
  | _ => plug k t
  end.

Definition insert (cmp : Z -> Z -> Z) (t : tree) (x : Z) : tree :=
  paint false (insert_fix (T true E x E) (descend (fun a => cmp a x) t [])).

(** ** Walks *)

Fixpoint find (t : tree) (z : Z) (k : ctx) : option (ctx * bool * tree * tree) :=
  match t with
  | E => None
  | T c l a r =>
      if a =? z then Some (k, c, l, r)
      else
        match find l z (F L c a r :: k) with
        | Some x => Some x
        | None => find r z (F R c a l :: k)
        end
  end.

(** The last node of the walk in direction [d], and its frames. *)
Fixpoint extreme (d : dir) (dflt : Z) (t : tree) : Z :=
  match t with
  | E => dflt
  | T _ l a r => extreme d a (match d with L => l | R => r end)
  end.

Fixpoint climb (d : dir) (k : ctx) : option Z :=
  match k with
  | [] => None
  | f :: k => if bool_decide (fdir f = d) then Some (faddr f) else climb d k
  end.

Definition prev (t : tree) (x : Z) : option Z :=
  match find t x [] with
  | Some (k, c, E, r) => climb R k
  | Some (k, c, T _ _ a _ as l, r) => Some (extreme R a l)
  | None => None
  end.

Definition next (t : tree) (x : Z) : option Z :=
  match find t x [] with
  | Some (k, c, l, E) => climb L k
  | Some (k, c, l, T _ _ a _ as r) => Some (extreme L a r)
  | None => None
  end.

Fixpoint search (cmp : Z -> Z) (t : tree) : option Z :=
  match t with
  | E => None
  | T _ l a r =>
      if cmp a =? 0 then Some a else if 0 <? cmp a then search cmp l else search cmp r
  end.

(** ** Deletion *)

(** The first node of a tree, taken out: its colour, its right child, its path. *)
Fixpoint cut_min (c : bool) (l : tree) (a : Z) (r : tree) (k : ctx) : bool * Z * tree * ctx :=
  match l with
  | E => (c, a, r, k)
  | T c' l' a' r' => cut_min c' l' a' r' (F L c a r :: k)
  end.

(** The last three cases of [RB_DELETE_FIXUP_SUB], for the black sibling [w] of
    [t]: none when it goes on from the parent. *)
Definition fix_black (d : dir) (t : tree) (cp : bool) (p : Z) (w : tree) (k : ctx) : option tree :=
  match w with
  | E => None
  | T cw wl wa wr =>
      let near := match d with L => wl | R => wr end in
      let far := match d with L => wr | R => wl end in
      if is_red far then
        Some (plug k (Td d cp (Td d false t p near) wa (paint false far)))
      else
        match near with
        | T true nl na nr =>
            let nn := match d with L => nl | R => nr end in
            let nf := match d with L => nr | R => nl end in
            Some (plug k (Td d cp (Td d false t p nn) na (Td d false nf wa far)))
        | _ => None
        end
  end.

(** [t] has one black node too few on every path. *)
Fixpoint delete_fix (t : tree) (k : ctx) : tree :=
  if is_red t then plug k (paint false t)
  else
    match k with
    | [] => t
    | F d cp p w :: k' =>
        match w with
        | T true wl wa wr =>
            let near := match d with L => wl | R => wr end in
            let far := match d with L => wr | R => wl end in
            let k1 := F d false wa far :: k' in
            match fix_black d t true p near k1 with
            | Some t' => t'
            | None => plug k1 (Td d false t p (paint true near))
            end
        | _ =>
            match fix_black d t cp p w k' with
            | Some t' => t'
            | None => delete_fix (Td d cp t p (paint true w)) k'
            end
        end
    end.

Definition delete (t : tree) (z : Z) : tree :=
  match find t z [] with
  | None => t
  | Some (k, cz, E, r) => if cz then plug k r else delete_fix r k
  | Some (k, cz, l, E) => if cz then plug k l else delete_fix l k
  | Some (k, cz, l, T cr rl ra rr) =>
      let '(_, y, _, _) := cut_min cr rl ra rr [] in
      let '(cy, _, x, k') := cut_min cr rl ra rr (F R cz y l :: k) in
      if cy then plug k' x else delete_fix x k'
  end.

(** ** Order *)

Fixpoint lefts (k : ctx) : list Z :=
  match k with
  | [] => []
  | F L _ _ _ :: k => lefts k
  | F R _ a s :: k => lefts k ++ inorder s ++ [a]
  end.

Fixpoint rights (k : ctx) : list Z :=
  match k with
  | [] => []
  | F L _ a s :: k => a :: inorder s ++ rights k
  | F R _ _ _ :: k => rights k
  end.

Lemma plug_cons d c a s k t : plug (F d c a s :: k) t = plug k (Td d c t a s).
Proof. reflexivity. Qed.

Lemma plug_app k1 k2 t : plug (k1 ++ k2) t = plug k2 (plug k1 t).
Proof. apply fold_left_app. Qed.

Lemma inorder_plug k t : inorder (plug k t) = lefts k ++ inorder t ++ rights k.
Proof.
  revert t. induction k as [|[[] c a s] k IH]; intros t.
  - by rewrite app_nil_r.
  - rewrite plug_cons, IH. cbn. by rewrite <- !app_assoc.
  - rewrite plug_cons, IH. cbn. by rewrite <- !app_assoc.
Qed.

Lemma inorder_paint c t : inorder (paint c t) = inorder t.
Proof. by destruct t. Qed.

(** [inorder t1 = inorder t2] for two shapes over the same subtrees. *)
Ltac inorder_eq :=
  cbn [inorder Td fill fdir fred faddr fsib] in *;
  rewrite ?inorder_plug, ?inorder_paint;
  cbn [inorder Td fill fdir fred faddr fsib lefts rights app];
  rewrite ?inorder_paint; repeat rewrite <- ?app_assoc, <- ?app_comm_cons; cbn [app]; try done.

Lemma inorder_plug_eq k t t' : inorder t = inorder t' -> inorder (plug k t) = inorder (plug k t').
Proof. intros H. by rewrite !inorder_plug, H. Qed.

Lemma inorder_insert_fix t k : inorder (insert_fix t k) = inorder (plug k t).
Proof.
  revert t. induction k as [k IH] using (induction_ltof1 _ length). unfold ltof in IH. intros t.
  destruct k as [|[d [] p s] [|[e cg g u] k]]; try done.
  cbn [insert_fix]. rewrite !plug_cons. destruct (is_red u).
  - rewrite IH by (cbn; lia). apply inorder_plug_eq. destruct d, e; inorder_eq.
  - case_bool_decide as He.
    + subst e. apply inorder_plug_eq. destruct d; inorder_eq.
    + destruct t as [|c tl x tr]; [done|]. apply inorder_plug_eq.
      destruct d, e; try done; inorder_eq.
Qed.

(** Where the middle of a list falls when the list is cut in two. *)
Lemma app_mid_inv {A} (l : list A) a r l1 l2 :
  l ++ a :: r = l1 ++ l2 ->
  (exists m, l = l1 ++ m /\ l2 = m ++ a :: r) \/ (exists m, l1 = l ++ a :: m /\ r = m ++ l2).
Proof.
  intros [(m & -> & ->)|(m & -> & Hm)]%app_eq_inv; [left; by exists m|].
  destruct m as [|b m]; cbn in Hm.
  - left. exists []. subst l2. by rewrite !app_nil_r.
  - injection Hm as <- ->. right. by exists m.
Qed.

Lemma descend_order cmp t k l1 l2 :
  inorder t = l1 ++ l2 -> Forall (fun y => cmp y <= 0) l1 -> Forall (fun y => 0 < cmp y) l2 ->
  lefts (descend cmp t k) = lefts k ++ l1 /\ rights (descend cmp t k) = l2 ++ rights k.
Proof.
  revert k l1 l2. induction t as [|c l IHl a r IHr]; intros k l1 l2; cbn [inorder descend].
  - intros [-> ->]%eq_sym%app_eq_nil _ _. by rewrite app_nil_r.
  - intros [(m & Hl & ->)|(m & -> & Hr)]%app_mid_inv H1 H2.
    + apply Forall_app in H2 as [H2 Ha]. inversion_clear Ha as [|? ? Ha0 _].
      rewrite (proj2 (Z.ltb_lt _ _) Ha0).
      destruct (IHl (F L c a r :: k) l1 m Hl H1 H2) as [-> ->]. cbn. by rewrite <- app_assoc.
    + apply Forall_app in H1 as [_ H1]. inversion_clear H1 as [|? ? Ha0 H1'].
      rewrite (proj2 (Z.ltb_ge _ _) Ha0).
      destruct (IHr (F R c a l :: k) m l2 Hr H1' H2) as [-> ->]. cbn. by rewrite <- !app_assoc.
Qed.

Theorem inorder_insert cmp t x l1 l2 :
  inorder t = l1 ++ l2 -> Forall (fun y => cmp y x <= 0) l1 -> Forall (fun y => 0 < cmp y x) l2 ->
  inorder (insert cmp t x) = l1 ++ x :: l2.
Proof.
  intros Ht H1 H2. unfold insert. rewrite inorder_paint, inorder_insert_fix, inorder_plug.
  destruct (descend_order (fun a => cmp a x) t [] l1 l2 Ht H1 H2) as [-> ->].
  cbn. by rewrite app_nil_r.
Qed.

(** ** Finding a node *)

Lemma find_plug t z k k' c l r : find t z k = Some (k', c, l, r) -> plug k t = plug k' (T c l z r).
Proof.
  revert k. induction t as [|c0 l0 IHl a r0 IHr]; intros k; cbn; [done|].
  destruct (Z.eqb_spec a z) as [->|]; [by intros [= -> -> -> ->]|].
  destruct (find l0 z _) eqn:El; [intros [= ->]; exact (IHl _ El)|exact (IHr _)].
Qed.

Lemma find_Some t z k : z ∈ inorder t -> exists r, find t z k = Some r.
Proof.
  revert k. induction t as [|c l IHl a r IHr]; intros k; cbn [inorder find].
  - by intros ?%not_elem_of_nil.
  - intros H. destruct (Z.eqb_spec a z) as [->|Hne]; [eauto|].
    apply elem_of_app in H as [H|[H|H]%elem_of_cons]; [|done|].
    + destruct (IHl (F L c a r :: k) H) as [x ->]. eauto.
    + destruct (find l z _); [eauto|]. by apply IHr.
Qed.

Lemma NoDup_mid_inj {A} (z : A) l1 l2 k1 k2 :
  NoDup (l1 ++ z :: l2) -> l1 ++ z :: l2 = k1 ++ z :: k2 -> l1 = k1 /\ l2 = k2.
Proof.
  revert k1. induction l1 as [|a l1 IH]; intros [|b k1]; cbn; intros Hnd Heq.
  - by injection Heq as ->.
  - injection Heq as <- ->. apply NoDup_cons in Hnd as [Hz _]. set_solver.
  - injection Heq as -> <-. apply NoDup_cons in Hnd as [Hz _]. set_solver.
  - injection Heq as <- Heq. apply NoDup_cons in Hnd as [_ Hnd].
    by destruct (IH k1 Hnd Heq) as [-> ->].
Qed.

(** Where a node is in the order: what comes before and after it. *)
Lemma find_inv t z l1 l2 :
  inorder t = l1 ++ z :: l2 -> NoDup (l1 ++ z :: l2) ->
  exists k c l r, find t z [] = Some (k, c, l, r) /\ t = plug k (T c l z r) /\
    l1 = lefts k ++ inorder l /\ l2 = inorder r ++ rights k.
Proof.
  intros Ht Hnd.
  assert (Hz : z ∈ inorder t) by (rewrite Ht; set_solver).
  destruct (find_Some t z [] Hz) as [[[[k c] l] r] Hf].
  exists k, c, l, r. pose proof (find_plug _ _ _ _ _ _ _ Hf) as Hp. cbn in Hp.
  split; [done|]. split; [done|].
  apply (NoDup_mid_inj z); [done|]. rewrite <- Ht, Hp. inorder_eq.
Qed.

Lemma extreme_right_last a t : last (a :: inorder t) = Some (extreme R a t).
Proof.
  revert a. induction t as [|c l _ b r IHr]; intros a; [done|].
  cbn [inorder extreme]. rewrite <- (IHr b), app_comm_cons. apply last_app_cons.
Qed.

Lemma extreme_left_head a t : head (inorder t ++ [a]) = Some (extreme L a t).
Proof.
  revert a. induction t as [|c l IHl b r _]; intros a; [done|].
  cbn [inorder extreme]. rewrite <- (IHl b), <- app_assoc. by destruct (inorder l).
Qed.

Lemma climb_lefts k : climb R k = last (lefts k).
Proof.
  induction k as [|[[] c a s] k IH]; [done|exact IH|]. cbn. by rewrite app_assoc, last_snoc.
Qed.

Lemma climb_rights k : climb L k = head (rights k).
Proof. induction k as [|[[] c a s] k IH]; [done|done|exact IH]. Qed.

Theorem prev_last t x l1 l2 :
  inorder t = l1 ++ x :: l2 -> NoDup (l1 ++ x :: l2) -> prev t x = last l1.
Proof.
  intros Ht Hnd. destruct (find_inv t x l1 l2 Ht Hnd) as (k & c & l & r & Hf & _ & -> & _).
  unfold prev. rewrite Hf. destruct l as [|cl ll al lr].
  - by rewrite app_nil_r, climb_lefts.
  - cbn [inorder extreme]. by rewrite app_assoc, last_app_cons, extreme_right_last.
Qed.

Theorem next_head t x l1 l2 :
  inorder t = l1 ++ x :: l2 -> NoDup (l1 ++ x :: l2) -> next t x = head l2.
Proof.
  intros Ht Hnd. destruct (find_inv t x l1 l2 Ht Hnd) as (k & c & l & r & Hf & _ & _ & ->).
  unfold next. rewrite Hf. destruct r as [|cr rl ar rr].
  - by rewrite climb_rights.
  - cbn [inorder extreme]. rewrite <- extreme_left_head.
    destruct (inorder rl); cbn; done.
Qed.

(** [search] finds a node when the comparison with the key is monotone in the
    order of the tree, and finds one that compares equal. *)
Theorem search_found cmp t x : search cmp t = Some x -> x ∈ inorder t /\ cmp x = 0.
Proof.
  induction t as [|c l IHl a r IHr]; cbn [search inorder]; [done|].
  destruct (Z.eqb_spec (cmp a) 0) as [Ha|Ha]; [intros [= ->]; set_solver|].
  destruct (0 <? cmp a); intros Hs; [destruct (IHl Hs)|destruct (IHr Hs)]; set_solver.
Qed.

Theorem search_complete cmp t x :
  StronglySorted (fun a b => cmp a <= cmp b) (inorder t) ->
  x ∈ inorder t -> cmp x = 0 -> is_Some (search cmp t).
Proof.
  induction t as [|c l IHl a r IHr]; cbn [search inorder]; [by intros _ ?%not_elem_of_nil|].
  intros Hs Hx H0.
  apply StronglySorted_app in Hs as (Hla & Hl & Hr).
  apply StronglySorted_cons in Hr as [Har Hr].
  destruct (Z.eqb_spec (cmp a) 0) as [Ha|Ha]; [eauto|].
  apply elem_of_app in Hx as [Hx|[->|Hx]%elem_of_cons]; [|done|].
  - specialize (Hla x a Hx ltac:(set_solver)). cbn in Hla.
    rewrite (proj2 (Z.ltb_lt 0 (cmp a))) by lia. auto.
  - rewrite Forall_forall in Har. specialize (Har x Hx). cbn in Har.
    rewrite (proj2 (Z.ltb_ge 0 (cmp a))) by lia. auto.
Qed.

(** ** Deletion keeps the order of the other nodes *)

Lemma cut_min_plug c l a r k c' y x k' :
  cut_min c l a r k = (c', y, x, k') -> plug k (T c l a r) = plug k' (T c' E y x).
Proof.
  revert c a r k. induction l as [|cl ll IH al lr _]; intros c a r k; cbn [cut_min].
  - by intros [= -> -> -> ->].
  - intros H. by apply IH in H.
Qed.

Lemma cut_min_lefts c l a r k c' y x k' :
  cut_min c l a r k = (c', y, x, k') -> lefts k' = lefts k.
Proof.
  revert c a r k. induction l as [|cl ll IH al lr _]; intros c a r k; cbn [cut_min].
  - by intros [= -> -> -> ->].
  - intros H. by apply IH in H.
Qed.

(** The path to the first node is the path below it, whatever is above. *)
Lemma cut_min_app c l a r k :
  cut_min c l a r k = let '(c', y, x, k') := cut_min c l a r [] in (c', y, x, k' ++ k).
Proof.
  revert c a r k. induction l as [|cl ll IH al lr _]; intros c a r k; cbn [cut_min]; [done|].
  rewrite IH, (IH _ _ _ [_]). destruct (cut_min cl ll al lr []) as [[[c' y] x] k'].
  by rewrite <- app_assoc.
Qed.

Lemma fix_black_order d t cp p w k t' :
  fix_black d t cp p w k = Some t' -> inorder t' = inorder (plug k (Td d cp t p w)).
Proof.
  destruct w as [|cw wl wa wr]; cbn; [done|].
  destruct (is_red _) eqn:Hr.
  - intros [= <-]. apply inorder_plug_eq. destruct d; inorder_eq.
  - destruct d; [destruct wl as [|[] nl na nr]|destruct wr as [|[] nl na nr]]; try done;
      intros [= <-]; apply inorder_plug_eq; inorder_eq.
Qed.

Lemma inorder_delete_fix t k : inorder (delete_fix t k) = inorder (plug k t).
Proof.
  revert t. induction k as [|[d cp p w] k IH]; intros t; cbn [delete_fix].
  { destruct (is_red t); [|done]. by apply inorder_paint. }
  destruct (is_red t); [apply inorder_plug_eq, inorder_paint|].
  assert (Hblack : inorder (match fix_black d t cp p w k with Some t' => t'
    | None => delete_fix (Td d cp t p (paint true w)) k end) = inorder (plug (F d cp p w :: k) t)).
  { destruct (fix_black _ _ _ _ _ _) eqn:Hf; [by apply fix_black_order in Hf|].
    rewrite IH, plug_cons. apply inorder_plug_eq. destruct d; inorder_eq. }
  destruct w as [|[] wl wa wr]; [exact Hblack| |exact Hblack]. clear Hblack.
  destruct (fix_black _ _ _ _ _ _) eqn:Hf.
  - apply fix_black_order in Hf. rewrite Hf, !plug_cons. apply inorder_plug_eq. destruct d; inorder_eq.
  - rewrite !plug_cons. apply inorder_plug_eq. destruct d; inorder_eq.
Qed.

Theorem inorder_delete t z l1 l2 :
  inorder t = l1 ++ z :: l2 -> NoDup (l1 ++ z :: l2) -> inorder (delete t z) = l1 ++ l2.
Proof.
  intros Ht Hnd. destruct (find_inv t z l1 l2 Ht Hnd) as (k & c & l & r & Hf & _ & -> & ->).
  assert (Hpick : forall (b : bool) x k', inorder (if b then plug k' x else delete_fix x k') =
    inorder (plug k' x)) by (intros [] ? ?; [done|apply inorder_delete_fix]).
  unfold delete. rewrite Hf.
  destruct l as [|cl ll al lr].
  { rewrite Hpick. inorder_eq. }
  destruct r as [|cr rl ar rr].
  { rewrite Hpick. inorder_eq. }
  destruct (cut_min cr rl ar rr []) as [[[cy y] x] k'] eqn:Hc.
  rewrite (cut_min_app _ _ _ _ (_ :: k)), Hc.
  pose proof (cut_min_lefts _ _ _ _ _ _ _ _ _ Hc) as Hk.
  apply cut_min_plug, (f_equal inorder) in Hc. cbn [plug fold_left] in Hc.
  rewrite (inorder_plug k'), Hk in Hc. cbn [lefts inorder app] in Hc. rewrite Hpick, plug_app, inorder_plug. cbn [lefts rights inorder plug fold_left fill Td fdir fred faddr fsib].
  rewrite inorder_plug, Hk, Hc. inorder_eq.
Qed.

(** ** Balance

    [rb c n t]: [t] has a root of colour [c] (red when true), no red node has a red
    child, and every path has [n] black nodes. *)

Inductive rb : bool -> nat -> tree -> Prop :=
| rb_E : rb false 0 E
| rb_Red n l a r : rb false n l -> rb false n r -> rb true n (T true l a r)
| rb_Black n cl l a cr r : rb cl n l -> rb cr n r -> rb false (S n) (T false l a r).

(** A path that makes a red-black tree of such a tree. *)
Inductive path_ok : bool -> nat -> ctx -> Prop :=
| path_nil n : path_ok false n []
| path_red d n p s k : rb false n s -> path_ok true n k -> path_ok false n (F d true p s :: k)
| path_black d n c p cs s k :
    rb cs n s -> path_ok false (S n) k -> path_ok c n (F d false p s :: k).

Create HintDb rb discriminated.
#[local] Hint Constructors rb path_ok : rb.

Lemma rb_Td d c n x a y :
  rb c n (Td d c x a y) <->
  (c = true /\ rb false n x /\ rb false n y) \/
  (c = false /\ exists m cx cy, n = S m /\ rb cx m x /\ rb cy m y).
Proof.
  split.
  - destruct d; cbn; (inversion_clear 1; [left|right]; naive_solver).
  - intros [(-> & H1 & H2)|(-> & m & cx & cy & -> & H1 & H2)]; destruct d; cbn; eauto with rb.
Qed.

Lemma rb_color c n t : rb c n t -> is_red t = c.
Proof. by destruct 1. Qed.

Lemma rb_Td_color c c' d n x a y : rb c n (Td d c' x a y) -> c = c'.
Proof. destruct d; by inversion 1. Qed.

Lemma rb_red d n x a y : rb false n x -> rb false n y -> rb true n (Td d true x a y).
Proof. intros. apply rb_Td. auto. Qed.

Lemma rb_black d n x a y cx cy : rb cx n x -> rb cy n y -> rb false (S n) (Td d false x a y).
Proof. intros. apply rb_Td. right. eauto 10. Qed.
#[local] Hint Resolve rb_red rb_black : rb.

Lemma path_ok_black c n k : path_ok c n k -> path_ok false n k.
Proof. destruct 1; eauto with rb. Qed.
#[local] Hint Resolve path_ok_black : rb.

Lemma plug_rb c n k t : path_ok c n k -> rb c n t -> exists m, rb false m (plug k t).
Proof.
  intros Hk. revert t. induction Hk as [n|d n p s k Hs Hk IH|d n c p cs s k Hs Hk IH]; intros t Ht.
  - by exists n.
  - rewrite plug_cons. apply IH. auto with rb.
  - rewrite plug_cons. apply IH. eauto with rb.
Qed.

Lemma plug_rb_inv k t m : rb false m (plug k t) -> exists c n, path_ok c n k /\ rb c n t.
Proof.
  revert t. induction k as [|[d c a s] k IH]; intros t.
  - cbn. exists false, m. auto with rb.
  - rewrite plug_cons. intros (c' & n & Hk & Ht)%IH.
    pose proof (rb_Td_color _ _ _ _ _ _ _ Ht) as ->.
    apply rb_Td in Ht as [(-> & H1 & H2)|(-> & m' & cx & cy & -> & H1 & H2)]; eauto with rb.
Qed.

Lemma paint_black n t : rb false n t -> paint false t = t.
Proof. by inversion 1. Qed.

Lemma rb_paint_black n t : rb true n t -> rb false (S n) (paint false t).
Proof. inversion_clear 1. cbn. eauto with rb. Qed.

Lemma insert_fix_rb n l x r k :
  rb false n l -> rb false n r -> path_ok false n k ->
  exists m, rb false m (paint false (insert_fix (T true l x r) k)).
Proof.
  revert n l x r. induction k as [k IH] using (induction_ltof1 _ length). unfold ltof in IH.
  intros n l x r Hl Hr Hk.
  assert (Hdone : forall k' t, path_ok false (S n) k' -> rb false (S n) t ->
    exists m, rb false m (paint false (plug k' t))).
  { intros k' t Hk' Ht. destruct (plug_rb _ _ _ _ Hk' Ht) as [m Hm]. exists m.
    by rewrite (paint_black m). }
  inversion Hk as [|d ? p s k1 Hs Hk1|d ? ? p cs s k1 Hs Hk1]; subst.
  - cbn. eauto with rb.
  - inversion Hk1 as [| |e ? ? g cu u k2 Hu Hk2]; subst. cbn [insert_fix].
    destruct (is_red u) eqn:Hcu.
    + pose proof (rb_color _ _ _ Hu) as Hc. rewrite Hcu in Hc. subst cu.
      apply rb_paint_black in Hu.
      assert (Hp : rb false (S n) (Td d false (T true l x r) p s)) by eauto with rb.
      destruct e; (eapply IH; [cbn; lia|..]); eauto.
    + pose proof (rb_color _ _ _ Hu) as Hc. rewrite Hcu in Hc. subst cu.
      case_bool_decide; apply Hdone; eauto with rb; destruct e; eauto with rb.
  - cbn [insert_fix]. rewrite plug_cons. apply Hdone; [done|]. eauto with rb.
Qed.

Theorem insert_rb cmp t x m : rb false m t -> exists m', rb false m' (insert cmp t x).
Proof.
  intros Ht. unfold insert.
  assert (Hd : forall cmp t k c n, rb c n t -> path_ok c n k -> path_ok false 0 (descend cmp t k)).
  { clear. intros cmp t k c n Ht. revert k.
    induction Ht as [|n l a r Hl IHl Hr IHr|n cl l a cr r Hl IHl Hr IHr]; intros k Hk; cbn; [done|..];
      (destruct (0 <? cmp a); [apply IHl|apply IHr]; eauto with rb). }
  apply (insert_fix_rb 0); eauto with rb.
Qed.

Lemma delete_fix_red t k : is_red t = true -> delete_fix t k = plug k (paint false t).
Proof. intros H. destruct k; cbn [delete_fix]; rewrite H; done. Qed.

Lemma rb_paint_red n w :
  rb false (S n) w -> (forall l a r, w = T false l a r -> is_red l = false /\ is_red r = false) ->
  rb true n (paint true w).
Proof.
  inversion 1 as [| |? cl l a cr r Hl Hr]; subst. intros Hw. destruct (Hw l a r eq_refl) as [H1 H2].
  pose proof (rb_color _ _ _ Hl) as Hcl. pose proof (rb_color _ _ _ Hr) as Hcr.
  rewrite H1 in Hcl. rewrite H2 in Hcr. subst. cbn. auto with rb.
Qed.

(** The number of black nodes on the paths through a parent of colour [c] whose
    children have [n]. *)
Definition above (c : bool) (n : nat) : nat := if c then n else S n.

Lemma rb_parent d c n x a y : rb false n x -> rb false n y -> rb c (above c n) (Td d c x a y).
Proof. destruct c; cbn; eauto with rb. Qed.
#[local] Hint Resolve rb_parent : rb.

(** A black sibling: the tree is repaired, or the sibling can be made red. *)
Lemma fix_black_rb d t c cp p w k n :
  rb c n t -> rb false (S n) w -> path_ok cp (above cp (S n)) k ->
  match fix_black d t cp p w k with
  | Some t' => exists m, rb false m t'
  | None => rb true n (paint true w)
  end.
Proof.
  intros Ht Hw Hk. inversion Hw as [| |? cl l a cr r Hl Hr]; subst.
  cbn [fix_black].
  set (near := match d with L => l | R => r end). set (far := match d with L => r | R => l end).
  assert (exists cn, rb cn n near) as [cn Hn] by (destruct d; eauto).
  assert (exists cf, rb cf n far) as [cf Hf] by (destruct d; eauto).
  pose proof (rb_color _ _ _ Hf) as Hcf. destruct (is_red far) eqn:Efar.
  - subst cf. apply rb_paint_black in Hf. eapply plug_rb; [done|]. eauto with rb.
  - subst cf. assert (Hblack : is_red near = false -> rb true n (paint true (T false l a r))).
    { intros Hnear. apply rb_paint_red; [done|]. intros ? ? ? [= <- <- <-].
      destruct d; auto. }
    destruct near as [|[] nl na nr] eqn:Enear; [by apply Hblack| |by apply Hblack].
    inversion Hn as [|? ? ? ? Hnl Hnr|]; subst cn. eapply plug_rb; [done|]. apply rb_parent.
    + destruct d; eauto with rb.
    + destruct d; eauto with rb.
Qed.

Lemma delete_fix_rb c n t k :
  rb c n t -> path_ok false (S n) k -> exists m, rb false m (delete_fix t k).
Proof.
  revert c n t. induction k as [|[d cp p w] k IH]; intros c n t Ht Hk;
    (destruct (is_red t) eqn:Hred; [rewrite delete_fix_red by done|]);
    pose proof (rb_color _ _ _ Ht) as Hc; rewrite Hred in Hc; subst c.
  1,3: apply rb_paint_black in Ht; eauto using plug_rb.
  { cbn. rewrite Hred. eauto. }
  assert (Hsib : exists cw, rb cw (S n) w /\ path_ok cp (above cp (S n)) k /\ (cp = true -> cw = false)).
  { inversion Hk; subst; eexists; (split_and!; [eassumption|assumption|done]). }
  destruct Hsib as (cw & Hw & Hk' & Hcp). cbn [delete_fix]. rewrite Hred.
  destruct cw.
  - destruct cp; [by specialize (Hcp eq_refl)|]. inversion Hw as [|? l a r Hl Hr|]; subst. clear Hw.
    set (near := match d with L => l | R => r end). set (far := match d with L => r | R => l end).
    assert (Hnear : rb false (S n) near) by (by destruct d).
    assert (Hfar : rb false (S n) far) by (by destruct d).
    assert (Hk1 : path_ok true (S n) (F d false a far :: k)) by eauto with rb.
    pose proof (fix_black_rb d t false true p near _ n Ht Hnear Hk1) as Hfix.
    destruct (fix_black _ _ _ _ _ _); [done|].
    apply (plug_rb false (S n)); eauto with rb.
  - pose proof (fix_black_rb d t false cp p w _ n Ht Hw Hk') as Hfix.
    assert (Hgoal : exists m, rb false m (match fix_black d t cp p w k with Some t' => t'
      | None => delete_fix (Td d cp t p (paint true w)) k end)).
    { destruct (fix_black _ _ _ _ _ _); [done|]. destruct cp; cbn [above] in Hk'.
      - rewrite delete_fix_red by (by destruct d).
        apply (plug_rb false (S n)); [eauto with rb|]. destruct d; cbn; eauto with rb.
      - apply (IH false (S n)); eauto with rb. }
    by inversion Hw; subst.
Qed.

(** Taking out a node that has a child missing. *)
Lemma take_out_rb m k c y l r :
  rb false m (plug k (T c l y r)) -> (l = E \/ r = E) ->
  let x := match l with E => r | _ => l end in
  exists m', rb false m' (if c then plug k x else delete_fix x k).
Proof.
  intros (c' & n & Hk & Ht)%plug_rb_inv Hlr x.
  inversion Ht as [|? ? ? ? Hl Hr|? cl ? ? cr ? Hl Hr]; subst.
  - assert (x = E /\ n = 0%nat) as [-> ->].
    { unfold x. destruct Hlr; subst; [inversion Hl; subst; by inversion Hr|].
      inversion Hr; subst. by inversion Hl. }
    apply (plug_rb false 0); eauto with rb.
  - assert (exists cx, rb cx n0 x) as [cx Hx] by (unfold x; destruct l; eauto).
    eauto using delete_fix_rb.
Qed.

Theorem delete_rb t z m : rb false m t -> exists m', rb false m' (delete t z).
Proof.
  intros Ht. unfold delete. destruct (find t z []) as [[[[k c] l] r]|] eqn:Hf; [|eauto].
  apply find_plug in Hf. cbn in Hf. rewrite Hf in Ht.
  destruct l as [|cl ll al lr]; [apply (take_out_rb _ _ _ _ _ _ Ht); auto|].
  destruct r as [|cr rl ar rr]; [apply (take_out_rb _ _ _ _ _ _ Ht); auto|].
  destruct (cut_min cr rl ar rr []) as [[[cy y] x] k'] eqn:Hc.
  rewrite (cut_min_app _ _ _ _ (_ :: k)), Hc.
  apply cut_min_plug in Hc. cbn [plug fold_left] in Hc.
  assert (Hy : exists m', rb false m' (plug k (Td R c (T cr rl ar rr) y (T cl ll al lr)))).
  { apply plug_rb_inv in Ht as (c' & n & Hk & Ht). apply (plug_rb c' n); [done|].
    inversion Ht; subst; cbn; eauto with rb. }
  destruct Hy as [m' Hy]. rewrite <- plug_cons, Hc, <- plug_app in Hy.
  apply (take_out_rb m' _ _ y E x); auto.
Qed.

(** ** Height *)

Fixpoint height (t : tree) : nat :=
  match t with E => 0 | T _ l _ r => S (Nat.max (height l) (height r)) end.

Lemma rb_height c n t : rb c n t -> (height t <= 2 * n + (if c then 1 else 0))%nat.
Proof. induction 1 as [|n l a r _ IHl _ IHr|n [] l a [] r _ IHl _ IHr]; cbn [height] in *; lia. Qed.

Lemma rb_size c n t : rb c n t -> (2 ^ n <= S (length (inorder t)))%nat.
Proof.
  induction 1 as [|n l a r _ IHl _ IHr|n cl l a cr r _ IHl _ IHr]; cbn [inorder];
    rewrite ?length_app; cbn [length Nat.pow]; lia.
Qed.

(** [2^height <= (size + 1)^2]: the height is at most twice the logarithm. *)
Theorem rb_height_log n t : rb false n t -> (2 ^ height t <= S (length (inorder t)) ^ 2)%nat.
Proof.
  intros H. assert (height t <= 2 * n + 0)%nat by exact (rb_height _ _ _ H). pose proof (rb_size _ _ _ H).
  transitivity (2 ^ (n * 2))%nat; [apply Nat.pow_le_mono_r; lia|].
  rewrite Nat.pow_mul_r. by apply Nat.pow_le_mono_l.
Qed.
End RbPure.
