(* ===== verification/RbInv.v ===== *)
(** * Red-black trees: the pointer code computes the functions of [RbPure]

    [rep]: the cells of a heap are the nodes of a tree.  The lemmas below move the
    focus to a node of interest ([plug]) and say what reading, recolouring, rotating
    and relinking do there; the loops are then followed step by step. *)

From stdpp Require Import sorting.
From S2P Require Import Prelude Rb RbPure.
Open Scope Z_scope.

Module RbInv.
Import Rb RbPure.

(** Spread [NoDup] hypotheses into what their elements are not. *)
Ltac spread :=
  repeat match goal with
  | H : NoDup (_ :: _) |- _ => let H1 := fresh "Hni" in apply NoDup_cons in H as [H1 H]
  | H : NoDup (_ ++ _) |- _ =>
      let H1 := fresh "Hdj" in let H2 := fresh "Hnd" in apply NoDup_app in H as (H2 & H1 & H)
  end.

Section Rep.
Variable tr : rb_tree.

Definition ptr (t : tree) : Z := match t with E => nil tr | T _ _ a _ => a end.
Definition top (k : ctx) : Z := match k with [] => root tr | f :: _ => faddr f end.

(** The cell of a node whose child in direction [d] is [x]. *)
Definition cell (d : dir) (c : bool) (p x y : Z) : rb_node :=
  match d with L => mk_node c p x y | R => mk_node c p y x end.

Fixpoint rep (h : heap) (p : Z) (t : tree) : Prop :=
  match t with
  | E => True
  | T c l a r => h !! a = Some (mk_node c p (ptr l) (ptr r)) /\ rep h a l /\ rep h a r
  end.

(** The cells of a path whose focus is the node [f]. *)
Fixpoint rep_path (h : heap) (f : Z) (k : ctx) : Prop :=
  match k with
  | [] => h !! root tr = Some (mk_node false (nil tr) f (nil tr))
  | F d c a s :: k =>
      h !! a = Some (cell d c (top k) f (ptr s)) /\ rep h a s /\ rep_path h a k
  end.

Fixpoint path_addrs (k : ctx) : list Z :=
  match k with [] => [] | F _ _ a s :: k => a :: inorder s ++ path_addrs k end.

Definition nil_cell (h : heap) : Prop := exists p x y, h !! nil tr = Some (mk_node false p x y).

(** The heap holds the tree [t], its sentinels, and perhaps other nodes. *)
Record tree_at (h : heap) (t : tree) : Prop := {
  ta_nodup : NoDup (nil tr :: root tr :: inorder t);
  ta_nil : nil_cell h;
  ta_root : h !! root tr = Some (mk_node false (nil tr) (ptr t) (nil tr));
  ta_rep : rep h (root tr) t
}.

(** ** Focus *)

Lemma ptr_Td d c x a y : ptr (Td d c x a y) = a.
Proof. by destruct d. Qed.

Lemma rep_Td h p d c x a y :
  rep h p (Td d c x a y) <-> h !! a = Some (cell d c p (ptr x) (ptr y)) /\ rep h a x /\ rep h a y.
Proof. destruct d; cbn; naive_solver. Qed.

Lemma rep_plug h k t :
  (h !! root tr = Some (mk_node false (nil tr) (ptr (plug k t)) (nil tr)) /\
   rep h (root tr) (plug k t)) <-> rep_path h (ptr t) k /\ rep h (top k) t.
Proof.
  revert t. induction k as [|[d c a s] k IH]; intros t; [done|].
  rewrite plug_cons, IH, rep_Td, ptr_Td. cbn [rep_path top faddr]. tauto.
Qed.

Lemma inorder_Td d c x a y : inorder (Td d c x a y) ≡ₚ a :: inorder x ++ inorder y.
Proof.
  destruct d; cbn [inorder Td].
  - by rewrite <- Permutation_middle.
  - by rewrite <- Permutation_middle, Permutation_app_comm.
Qed.

Lemma plug_addrs k t : inorder (plug k t) ≡ₚ inorder t ++ path_addrs k.
Proof.
  revert t. induction k as [|[d c a s] k IH]; intros t; [by rewrite app_nil_r|].
  rewrite plug_cons, IH, inorder_Td. cbn [path_addrs]. rewrite <- app_comm_cons, <- app_assoc.
  apply Permutation_middle.
Qed.

Lemma path_addrs_app k1 k2 : path_addrs (k1 ++ k2) = path_addrs k1 ++ path_addrs k2.
Proof.
  induction k1 as [|[d c a s] k1 IH]; [done|]. cbn [app path_addrs]. by rewrite IH, <- app_assoc.
Qed.

(** [tree_at] for a tree seen from one of its subtrees. *)
Lemma tree_at_plug h k t :
  tree_at h (plug k t) <->
  NoDup (nil tr :: root tr :: inorder t ++ path_addrs k) /\ nil_cell h /\
  rep_path h (ptr t) k /\ rep h (top k) t.
Proof.
  split.
  - intros [Hnd Hnil Hroot Hrep]. rewrite plug_addrs in Hnd.
    by destruct (proj1 (rep_plug h k t) (conj Hroot Hrep)).
  - intros (Hnd & Hnil & Hk & Ht). destruct (proj2 (rep_plug h k t) (conj Hk Ht)).
    split; [by rewrite plug_addrs|done..].
Qed.

(** A new tree at the focus, over the same nodes. *)
Lemma tree_at_intro h0 h k t0 t :
  tree_at h0 (plug k t0) -> inorder t = inorder t0 -> nil_cell h ->
  rep_path h (ptr t) k -> rep h (top k) t -> tree_at h (plug k t).
Proof.
  intros (Hnd & _)%tree_at_plug Ht Hnil Hk Hrep. apply tree_at_plug. by rewrite Ht.
Qed.

(** ** Frames *)

Lemma rep_frame h h' p t : (forall a, a ∈ inorder t -> h' !! a = h !! a) -> rep h p t -> rep h' p t.
Proof.
  revert p. induction t as [|c l IHl b r IHr]; intros p; cbn [rep inorder]; [done|].
  intros Ha (Hb & Hl & Hr). rewrite Ha by set_solver.
  split_and!; [done|apply IHl; set_solver|apply IHr; set_solver].
Qed.

Lemma rep_path_frame h h' f k :
  (forall a, a ∈ root tr :: path_addrs k -> h' !! a = h !! a) -> rep_path h f k -> rep_path h' f k.
Proof.
  revert f. induction k as [|[d c b s] k IH]; intros f; cbn [rep_path path_addrs].
  - intros Ha H. by rewrite Ha by set_solver.
  - intros Ha (Hb & Hs & Hk). rewrite Ha by set_solver.
    split_and!; [done|eapply rep_frame; [|done]; set_solver|apply IH; [set_solver|done]].
Qed.

Lemma rep_insert h p t a n : a ∉ inorder t -> rep h p t -> rep (<[a := n]> h) p t.
Proof.
  intros Ha. apply rep_frame. intros b Hb. apply lookup_insert_ne. by intros ->.
Qed.

Lemma rep_path_insert h f k a n :
  a ∉ path_addrs k -> a <> root tr -> rep_path h f k -> rep_path (<[a := n]> h) f k.
Proof.
  intros Ha Hr. apply rep_path_frame. intros b Hb. apply lookup_insert_ne. set_solver.
Qed.

Lemma nil_cell_insert h a n : a <> nil tr -> nil_cell h -> nil_cell (<[a := n]> h).
Proof. intros Ha (p & x & y & H). exists p, x, y. by rewrite lookup_insert_ne. Qed.

(** The parent link of the root of a subtree. *)
Lemma rep_set_parent h p p' c l a r :
  NoDup (inorder (T c l a r)) -> rep h p (T c l a r) ->
  rep (<[a := mk_node c p' (ptr l) (ptr r)]> h) p' (T c l a r).
Proof.
  cbn [inorder rep]. rewrite <- Permutation_middle. intros [Ha _]%NoDup_cons (_ & Hl & Hr).
  rewrite lookup_insert_eq. split; [done|]. split; (apply rep_insert; [set_solver|done]).
Qed.

(** The link from a path to its focus. *)
Definition relink (k : ctx) (y : Z) (n : rb_node) : rb_node :=
  match k with [] => set_child L y n | f :: _ => set_child (fdir f) y n end.

Lemma rep_path_top h x k : rep_path h x k -> exists n, h !! top k = Some n.
Proof. destruct k as [|[d c a s] k]; cbn; [eauto|]. intros (H & _). eauto. Qed.

Lemma rep_path_relink h x y k n :
  NoDup (root tr :: path_addrs k) -> rep_path h x k -> h !! top k = Some n ->
  rep_path (<[top k := relink k y n]> h) y k.
Proof.
  destruct k as [|[d c a s] k]; cbn [rep_path path_addrs top faddr relink fdir].
  - intros _ -> [= <-]. by rewrite lookup_insert_eq.
  - intros Hnd (Ha & Hs & Hk). rewrite Ha. intros [= <-].
    apply NoDup_cons in Hnd as [Hroot [Hnd _]%NoDup_cons].
    rewrite lookup_insert_eq. split_and!; [by destruct d|apply rep_insert; [set_solver|done]|].
    apply rep_path_insert; [set_solver..|done].
Qed.

(** ** Running the code *)

Lemma rd_step {B} h a n (f : rb_node -> M heap B) : h !! a = Some n -> bind (rd a) f h = f n h.
Proof. intros H. unfold bind, rd, bind, get, deref, ret. by rewrite H. Qed.

Lemma wr_run h a n f : h !! a = Some n -> wr f a h = Ret (tt, <[a := f n]> h).
Proof. intros H. unfold wr. by rewrite (rd_step h a n). Qed.

Lemma ptr_not_in x t : x <> nil tr -> x ∉ inorder t -> (x =? ptr t) = false.
Proof. intros Hn Ht. apply Z.eqb_neq. destruct t; cbn in *; [done|set_solver]. Qed.

Lemma link_child_run d h x y k n :
  x <> nil tr -> x ∉ path_addrs k -> rep_path h x k -> h !! top k = Some n ->
  link_child d (top k) x y h = Ret (tt, <[top k := relink k y n]> h).
Proof.
  intros Hx Hin Hk Hn. unfold link_child. rewrite (rd_step h (top k) n) by done.
  assert (Hd : (if x =? child d n then set_child d y else set_child (opp d) y) n = relink k y n).
  { destruct k as [|[e c a s] k]; cbn [rep_path path_addrs top faddr relink fdir] in *.
    - rewrite Hk in Hn. injection Hn as <-. destruct d; cbn; [by rewrite Z.eqb_refl|].
      by rewrite (proj2 (Z.eqb_neq x (nil tr))).
    - destruct Hk as (Ha & _). rewrite Ha in Hn. injection Hn as <-.
      assert (Hs : (x =? ptr s) = false) by (apply ptr_not_in; set_solver).
      destruct d, e; cbn; rewrite ?Z.eqb_refl, ?Hs; done. }
  destruct (x =? child d n); rewrite (wr_run _ _ n) by done; by rewrite <- Hd.
Qed.

Definition outside (t : tree) (h h' : heap) : Prop :=
  forall a, a ∉ root tr :: inorder t -> h' !! a = h !! a.

Lemma top_path k : top k ∈ root tr :: path_addrs k.
Proof. destruct k as [|[d c a s] k]; cbn [top faddr path_addrs]; set_solver. Qed.

Lemma top_in k t : top k ∈ root tr :: inorder (plug k t).
Proof.
  rewrite plug_addrs. pose proof (top_path k). set_solver.
Qed.


(** The fields of a cell seen from a direction. *)
Lemma cell_child d c p x y : child d (cell d c p x y) = x.
Proof. by destruct d. Qed.
Lemma cell_child_opp d c p x y : child (opp d) (cell d c p x y) = y.
Proof. by destruct d. Qed.
Lemma cell_set_child d c p x y z : set_child d z (cell d c p x y) = cell d c p z y.
Proof. by destruct d. Qed.
Lemma cell_set_child_opp d c p x y z : set_child (opp d) z (cell d c p x y) = cell d c p x z.
Proof. by destruct d. Qed.
Lemma cell_set_parent d c p x y z : set_parent z (cell d c p x y) = cell d c z x y.
Proof. by destruct d. Qed.
Lemma cell_set_red d c p x y z : set_red z (cell d c p x y) = cell d z p x y.
Proof. by destruct d. Qed.
Lemma cell_parent d c p x y : parent (cell d c p x y) = p.
Proof. by destruct d. Qed.
Lemma cell_red d c p x y : red (cell d c p x y) = c.
Proof. by destruct d. Qed.

Ltac cells := rewrite ?cell_child, ?cell_child_opp, ?cell_set_child, ?cell_set_child_opp,
  ?cell_set_parent, ?cell_set_red, ?cell_parent, ?cell_red.

(** The nodes at the focus are not on the path, nor the sentinels. *)
Lemma focus_zone l k :
  NoDup (nil tr :: root tr :: l ++ path_addrs k) ->
  NoDup l /\ NoDup (root tr :: path_addrs k) /\ nil tr <> top k /\ (nil tr ∉ l) /\
  forall a, a ∈ l -> a <> nil tr /\ a <> root tr /\ a <> top k /\ a ∉ path_addrs k.
Proof.
  intros Hnd. spread. pose proof (top_path k) as Htop.
  split; [done|]. split; [constructor; [set_solver|done]|]. split.
  { intros Heq. rewrite <- Heq in Htop. clear Hdj. set_solver. }
  split; [set_solver|]. intros a Ha. specialize (Hdj a Ha). split_and!; [set_solver..| |done].
  intros ->. apply elem_of_cons in Htop as [Hr|Hp]; [|done].
  rewrite Hr in Ha. set_solver.
Qed.

(** [if (y != nil) y->parent = x;] *)
Lemma reparent_run h p t x :
  NoDup (nil tr :: inorder t) -> rep h p t ->
  exists h', (if ptr t =? nil tr then ret tt else wr (set_parent x) (ptr t)) h = Ret (tt, h') /\
    rep h' x t /\ forall a, a ∉ inorder t -> h' !! a = h !! a.
Proof.
  intros [Hnil Hnd]%NoDup_cons Hrep. destruct t as [|c l a r]; cbn [ptr].
  - rewrite Z.eqb_refl. by exists h.
  - rewrite (proj2 (Z.eqb_neq a (nil tr))) by set_solver.
    assert (Ha := Hrep). cbn [rep] in Ha. destruct Ha as [Ha _].
    eexists. split; [by apply wr_run|]. split; [by eapply rep_set_parent|].
    intros b Hb. apply lookup_insert_ne. set_solver.
Qed.

Lemma rotate_run d k cx A x cy B y C h :
  tree_at h (plug k (Td d cx A x (Td d cy B y C))) ->
  exists h', rotate tr d x h = Ret (tt, h') /\
    tree_at h' (plug k (Td d cy (Td d cx A x B) y C)) /\
    outside (plug k (Td d cx A x (Td d cy B y C))) h h'.
Proof.
  intros Htree. pose proof Htree as (Hnd & Hnil & Hk & Ht)%tree_at_plug.
  rewrite ptr_Td in Hk. rewrite rep_Td, ptr_Td, rep_Td in Ht.
  destruct Ht as (Hx & HA & Hy & HB & HC). rewrite !inorder_Td in Hnd.
  apply focus_zone in Hnd as (Hnd & Hndk & Hnt & Hnl & Hzone).
  revert Hndk. spread. intros Hndk.
  assert (x <> y) by set_solver.
  destruct (Hzone x) as (Hxn & Hxr & Hxt & Hxp); [set_solver|].
  destruct (Hzone y) as (Hyn & Hyr & Hyt & Hyp); [set_solver|].
  assert (Hnilo : nil tr ∉ [x; y; top k] ++ inorder B).
  { rewrite not_elem_of_app, !not_elem_of_cons. clear Hzone. set_solver. }
  assert (HoutA : forall a, a ∈ inorder A -> a ∉ [x; y; top k] ++ inorder B).
  { intros a Ha. specialize (Hzone a). specialize (Hdj a Ha). set_solver. }
  assert (HoutC : forall a, a ∈ inorder C -> a ∉ [x; y; top k] ++ inorder B).
  { intros a Ha. specialize (Hzone a). specialize (Hdj0 a). clear Hdj. set_solver. }
  assert (HBo : forall a, a ∈ inorder B -> a <> x /\ a <> y /\ a <> top k /\ a <> root tr /\ a ∉ path_addrs k).
  { intros a Ha. specialize (Hzone a). clear Hdj Hdj0. set_solver. }
  unfold rotate. rewrite (rd_step h x _ _ Hx). cells.
  rewrite assert_true by (by rewrite !(proj2 (Z.eqb_neq _ _))).
  rewrite (rd_step h y _ _ Hy). cells.
  erewrite bind_step by (by apply wr_run). cells.
  set (h1 := <[x := cell d cx (top k) (ptr A) (ptr B)]> h).
  destruct (reparent_run h1 y B x) as (h2 & Hr2 & HB2 & Hh2).
  { constructor; [set_solver|done]. }
  { apply rep_insert; [set_solver|done]. }
  rewrite (bind_step _ _ _ _ _ Hr2). clear Hr2.
  assert (Hx2 : h2 !! x = Some (cell d cx (top k) (ptr A) (ptr B))).
  { rewrite Hh2 by set_solver. apply lookup_insert_eq. }
  rewrite (rd_step h2 x _ _ Hx2). cells.
  assert (Hy2 : h2 !! y = Some (cell d cy x (ptr B) (ptr C))).
  { rewrite Hh2 by set_solver. unfold h1. by rewrite lookup_insert_ne. }
  erewrite bind_step by (by apply wr_run). cells.
  set (h3 := <[y := cell d cy (top k) (ptr B) (ptr C)]> h2).
  assert (Hk3 : rep_path h3 x k).
  { apply rep_path_insert; [done..|]. revert Hk. apply rep_path_frame. intros a Ha.
    rewrite Hh2 by (intros Hb; destruct (HBo a Hb); set_solver).
    apply lookup_insert_ne. set_solver. }
  destruct (rep_path_top _ _ _ Hk3) as [n Hn].
  erewrite bind_step by (apply link_child_run; done).
  assert (Hk4 : rep_path (<[top k := relink k y n]> h3) y k).
  { by apply (rep_path_relink _ x). }
  set (h4 := <[top k := relink k y n]> h3) in *.
  assert (Hy4 : h4 !! y = Some (cell d cy (top k) (ptr B) (ptr C))).
  { unfold h4, h3. by rewrite lookup_insert_ne, lookup_insert_eq. }
  erewrite bind_step by (by apply wr_run). cells.
  set (h5 := <[y := cell d cy (top k) x (ptr C)]> h4).
  assert (Hx5 : h5 !! x = Some (cell d cx (top k) (ptr A) (ptr B))).
  { unfold h5, h4, h3. by rewrite !lookup_insert_ne. }
  erewrite bind_step by (by apply wr_run). cells.
  set (h6 := <[x := cell d cx y (ptr A) (ptr B)]> h5).
  assert (Hout : forall a, a ∉ [x; y; top k] ++ inorder B -> h6 !! a = h !! a).
  { intros a Ha. unfold h6, h5, h4, h3. rewrite !lookup_insert_ne by set_solver.
    rewrite Hh2 by set_solver. unfold h1. rewrite lookup_insert_ne by set_solver. done. }
  assert (Hnil6 : nil_cell h6).
  { destruct Hnil as (p & u & v & Hnil). exists p, u, v. by rewrite Hout. }
  pose proof Hnil6 as (? & ? & ? & Hn6). rewrite (rd_step h6 _ _ _ Hn6).
  exists h6. split; [done|]. split.
  - apply (tree_at_intro _ _ _ _ _ Htree); [destruct d; inorder_eq|done|..];
      rewrite ?ptr_Td, ?rep_Td, ?ptr_Td, ?rep_Td; [|split_and!].
    + apply rep_path_insert; [done..|]. by apply rep_path_insert.
    + unfold h6, h5. by rewrite lookup_insert_ne, lookup_insert_eq.
    + apply lookup_insert_eq.
    + revert HA. apply rep_frame. auto.
    + revert HB2. apply rep_frame. intros a (? & ? & ? & _)%HBo. unfold h6, h5, h4, h3.
      by rewrite !lookup_insert_ne.
    + revert HC. apply rep_frame. auto.
  - intros a Ha. assert (a <> top k) by (intros ->; by apply Ha, top_in).
    rewrite plug_addrs, !inorder_Td in Ha. apply Hout.
    clear - Ha H0. set_solver.
Qed.

(** ** Steps that keep the nodes *)

Lemma node_cell h k d c l a r :
  tree_at h (plug k (Td d c l a r)) -> h !! a = Some (cell d c (top k) (ptr l) (ptr r)).
Proof. intros (_ & _ & _ & Ht)%tree_at_plug. by apply rep_Td in Ht as (Ha & _). Qed.

Lemma parent_cell h k d c a s t :
  tree_at h (plug (F d c a s :: k) t) -> h !! a = Some (cell d c (top k) (ptr t) (ptr s)).
Proof. rewrite plug_cons. apply node_cell. Qed.

(** The colour of a subtree is the colour of the cell its parent points to. *)
Lemma ptr_cell h k t :
  tree_at h (plug k t) -> exists n, h !! ptr t = Some n /\ red n = is_red t.
Proof.
  intros (_ & (p & x & y & Hnil) & _ & Ht)%tree_at_plug.
  destruct t as [|c l a r]; cbn in *; [eauto|]. destruct Ht as [Ha _]. eauto.
Qed.

Lemma paint_run h k d c c' l a r :
  tree_at h (plug k (Td d c l a r)) ->
  exists h', wr (set_red c') a h = Ret (tt, h') /\
    tree_at h' (plug k (Td d c' l a r)) /\ outside (plug k (Td d c l a r)) h h'.
Proof.
  intros Htree. pose proof Htree as (Hnd & Hnil & Hk & Ht)%tree_at_plug.
  rewrite ptr_Td in Hk. rewrite rep_Td in Ht. destruct Ht as (Ha & Hl & Hr).
  rewrite !inorder_Td in Hnd.
  apply focus_zone in Hnd as (Hnd & _ & Hnt & Hnl & Hzone). spread.
  destruct (Hzone a) as (Han & Har & Hat & Hap); [set_solver|].
  eexists. split; [by apply wr_run|]. cells. split.
  - apply (tree_at_intro _ _ _ _ _ Htree); [destruct d; inorder_eq|by apply nil_cell_insert|..];
      rewrite ?ptr_Td, ?rep_Td; [by apply rep_path_insert|split_and!].
    + apply lookup_insert_eq.
    + apply rep_insert; [set_solver|done].
    + apply rep_insert; [set_solver|done].
  - intros b Hb. apply lookup_insert_ne. intros ->. apply Hb.
    rewrite plug_addrs, inorder_Td. set_solver.
Qed.

(** The loops change a tree in place: relative to a heap [h0], a heap [h] holds the
    tree [t] over the nodes [l] and differs on them only. *)
Section Evolve.
Context (h0 : heap) (l : list Z).

Record ev (h : heap) (t : tree) : Prop := {
  ev_tree : tree_at h t;
  ev_nodes : inorder t = l;
  ev_out : forall a, a ∉ root tr :: l -> h !! a = h0 !! a
}.

Lemma ev_nil h t : ev h t -> h !! nil tr = h0 !! nil tr.
Proof.
  intros [Ht Hl Ho]. apply Ho. apply ta_nodup, NoDup_cons in Ht as [Ht _]. by rewrite <- Hl.
Qed.

Lemma ev_step h h' t t' :
  ev h t -> tree_at h' t' -> inorder t' = inorder t -> outside t h h' -> ev h' t'.
Proof.
  intros [Ht Hl Ho] Ht' Hi Hout. split; [done|congruence|].
  intros a Ha. rewrite Hout by (by rewrite Hl). by apply Ho.
Qed.

Lemma rotate_ev d k cx A x cy B y C h :
  ev h (plug k (Td d cx A x (Td d cy B y C))) ->
  exists h', rotate tr d x h = Ret (tt, h') /\ ev h' (plug k (Td d cy (Td d cx A x B) y C)).
Proof.
  intros Hev. destruct (rotate_run d k cx A x cy B y C h (ev_tree _ _ Hev)) as (h' & Hr & Ht & Ho).
  exists h'. split; [done|]. apply (ev_step _ _ _ _ Hev Ht); [|done].
  apply inorder_plug_eq. destruct d; inorder_eq.
Qed.

Lemma paint_ev d k c c' x a y h :
  ev h (plug k (Td d c x a y)) ->
  exists h', wr (set_red c') a h = Ret (tt, h') /\ ev h' (plug k (Td d c' x a y)).
Proof.
  intros Hev. destruct (paint_run h k d c c' x a y (ev_tree _ _ Hev)) as (h' & Hr & Ht & Ho).
  exists h'. split; [done|]. apply (ev_step _ _ _ _ Hev Ht); [|done].
  apply inorder_plug_eq. destruct d; inorder_eq.
Qed.

Lemma parent_ev h k d c a s t :
  ev h (plug (F d c a s :: k) t) -> h !! a = Some (cell d c (top k) (ptr t) (ptr s)).
Proof. intros [H _ _]. by apply parent_cell in H. Qed.

Lemma node_ev h k d c x a y :
  ev h (plug k (Td d c x a y)) -> h !! a = Some (cell d c (top k) (ptr x) (ptr y)).
Proof. intros [H _ _]. by apply node_cell in H. Qed.

Lemma ptr_ev h k t : ev h (plug k t) -> exists n, h !! ptr t = Some n /\ red n = is_red t.
Proof. intros [H _ _]. by apply ptr_cell in H. Qed.

(** The sibling of a node is another node. *)
Lemma sibling_ev h k d c a s t :
  ev h (plug (F d c a s :: k) t) -> t <> E -> (ptr t =? ptr s) = false.
Proof.
  intros [H _ _] Ht. apply tree_at_plug in H as (Hnd & _). cbn [path_addrs] in Hnd.
  destruct t as [|ct tl x tr']; [done|]. cbn [ptr]. cbn [inorder] in Hnd. spread.
  apply ptr_not_in; [set_solver|]. clear Hdj0 Hdj1. set_solver.
Qed.


(** ** The loop of [rb_insert] *)

Lemma Td_opp d c x a y : Td (opp d) c y a x = Td d c x a y.
Proof. by destruct d. Qed.

Lemma T_Td d c x a y : exists u v, T c x a y = Td d c u a v.
Proof. destruct d; cbn; eauto. Qed.

(** The test [p == p->parent->left] finds the direction of the path. *)
Lemma dir_test d c p x y : (x =? y) = false -> (if x =? left (cell d c p x y) then L else R) = d.
Proof. intros H. destruct d; cbn; [by rewrite Z.eqb_refl|by rewrite H]. Qed.

(** The parent of a node that is not [nil]. *)
Lemma ptr_parent_ev h k t :
  ev h (plug k t) -> t <> E -> exists n, h !! ptr t = Some n /\ red n = is_red t /\ parent n = top k.
Proof.
  intros H Ht. destruct t as [|c x a y]; [done|]. pose proof (node_ev h k L c x a y H) as Ha.
  eexists. split; [exact Ha|]. done.
Qed.

(** The end of [RB_INSERT_SUB]: the grandparent is rotated down. *)
Lemma insert_outer_run h k e cp cg t p s g u :
  ev h (plug k (Td e cg (Td e cp t p s) g u)) -> t <> E ->
  exists h', (xn <- rd (ptr t) ;;
     wr (set_red false) (parent xn) ;;
     pn <- rd (parent xn) ;;
     wr (set_red true) (parent pn) ;;
     rotate tr (opp e) (parent pn) ;;
     ret (ptr t)) h = Ret (ptr t, h') /\
    ev h' (plug k (Td e false t p (Td e true s g u))).
Proof.
  intros Hev Ht.
  destruct (ptr_parent_ev h (F e cp p s :: F e cg g u :: k) t Hev Ht) as (n & Hn & _ & Hp).
  rewrite (rd_step _ _ _ _ Hn), Hp. cbn [top faddr].
  destruct (paint_ev e (F e cg g u :: k) cp false t p s h Hev) as (h1 & Hw & Hev1).
  rewrite (bind_step _ _ _ _ _ Hw).
  pose proof (node_ev _ (F e cg g u :: k) e _ _ _ _ Hev1) as Hpc.
  rewrite (rd_step _ _ _ _ Hpc). cells. cbn [top faddr].
  destruct (paint_ev e k cg true (Td e false t p s) g u h1 Hev1) as (h2 & Hw2 & Hev2).
  rewrite (bind_step _ _ _ _ _ Hw2).
  rewrite <- (Td_opp e), <- (Td_opp e false) in Hev2.
  apply rotate_ev in Hev2 as (h3 & Hr & Hev3). rewrite !Td_opp in Hev3.
  exists h3. by rewrite (bind_step _ _ _ _ _ Hr).
Qed.

Lemma insert_loop_done fuel h d p s k t :
  ev h (plug (F d false p s :: k) t) -> t <> E -> rb_insert_loop tr fuel (ptr t) h = Ret (tt, h).
Proof.
  intros Hev Ht. destruct (ptr_parent_ev _ _ _ Hev Ht) as (n & Hn & _ & Hp).
  destruct fuel; cbn [rb_insert_loop]; rewrite (rd_step _ _ _ _ Hn), Hp;
    rewrite (rd_step _ _ _ _ (parent_ev _ _ _ _ _ _ _ Hev)); by cells.
Qed.

Lemma insert_recolour_run h k d e cg t p s g ul ua ur :
  ev h (plug k (Td e cg (Td d true t p s) g (T true ul ua ur))) ->
  exists h', (wr (set_red false) p ;; wr (set_red false) ua ;; wr (set_red true) g ;; ret g) h =
      Ret (g, h') /\
    ev h' (plug k (Td e true (Td d false t p s) g (T false ul ua ur))).
Proof.
  intros Hev.
  destruct (paint_ev d (F e cg g (T true ul ua ur) :: k) true false t p s h Hev) as (h1 & Hw1 & Hev1).
  rewrite (bind_step _ _ _ _ _ Hw1). rewrite plug_cons, <- Td_opp, <- plug_cons in Hev1.
  destruct (paint_ev L _ true false ul ua ur h1 Hev1) as (h2 & Hw2 & Hev2).
  rewrite (bind_step _ _ _ _ _ Hw2). rewrite plug_cons, Td_opp in Hev2.
  destruct (paint_ev e k cg true _ _ _ h2 Hev2) as (h3 & Hw3 & Hev3).
  exists h3. by rewrite (bind_step _ _ _ _ _ Hw3).
Qed.

(** One round of the loop, when the parent [p] is red: either the red node moves two
    levels up, or the tree is repaired. *)
Lemma insert_sub_run h k d e cg xl x xr p s g u :
  let t := T true xl x xr in
  ev h (plug k (Td e cg (Td d true t p s) g u)) ->
  exists h' x', RB_INSERT_SUB tr e x h = Ret (x', h') /\
    if is_red u then
      x' = g /\ ev h' (plug k (Td e true (Td d false t p s) g (paint false u)))
    else
      exists d' p' s' k' t', t' <> E /\ x' = ptr t' /\
        insert_fix t (F d true p s :: F e cg g u :: k) = plug (F d' false p' s' :: k') t' /\
        ev h' (plug (F d' false p' s' :: k') t').
Proof.
  intros t Hev. assert (Ht : t <> E) by done.
  assert (Hevt : ev h (plug (F d true p s :: F e cg g u :: k) t)) by exact Hev.
  destruct (ptr_parent_ev _ _ _ Hevt Ht) as (n & Hn & _ & Hp). cbn [top faddr] in Hp.
  pose proof (parent_ev _ _ _ _ _ _ _ Hevt) as Hpc. cbn [top faddr] in Hpc.
  pose proof (sibling_ev _ _ _ _ _ _ _ Hevt Ht) as Hsib.
  pose proof (node_ev _ _ _ _ _ _ _ Hev) as Hgc. rewrite ptr_Td in Hgc.
  assert (Hevu : ev h (plug (F (opp e) cg g (Td d true t p s) :: k) u)).
  { by rewrite plug_cons, Td_opp. }
  destruct (ptr_ev _ _ _ Hevu) as (un & Hun & Hru).
  change x with (ptr t). unfold RB_INSERT_SUB.
  rewrite (rd_step _ _ _ _ Hn), Hp, (rd_step _ _ _ _ Hpc). cells.
  rewrite (rd_step _ _ _ _ Hgc). cells. rewrite (rd_step _ _ _ _ Hun), Hru.
  destruct (is_red u) eqn:Eu.
  - destruct u as [|[] ul ua ur]; try done.
    destruct (insert_recolour_run _ _ _ _ _ _ _ _ _ _ _ _ Hev) as (h1 & Hw & Hev1).
    exists h1, g. cbn [ptr]. split; [exact Hw|]. split; [done|exact Hev1].
  - cbn [insert_fix]. rewrite Eu. case_bool_decide as Hde.
    + subst e. rewrite cell_child_opp, Hsib.
      change (ret (ptr t)) with (@ret heap Z (ptr t)). rewrite bind_ret.
      destruct (insert_outer_run _ _ _ _ _ _ _ _ _ _ Hev Ht) as (h1 & Hr & Hev1).
      exists h1, (ptr t). split; [exact Hr|]. exists d, p, (Td d true s g u), k, t. done.
    + assert (d = opp e) as -> by (by destruct d, e). rewrite cell_child, Z.eqb_refl.
      destruct (T_Td e true xl x xr) as (te & to & Hte). unfold t in Hev. rewrite Hte in Hev.
      rewrite Td_opp in Hev.
      destruct (rotate_ev e (F e cg g u :: k) true s p true te x to h Hev) as (h1 & Hr & Hev1).
      rewrite (bind_step _ _ _ p h1) by (by rewrite (bind_step _ _ _ _ _ Hr)).
      destruct (insert_outer_run h1 k e true cg (Td e true s p te) x to g u Hev1 ltac:(by destruct e))
        as (h2 & Hr2 & Hev2). rewrite ptr_Td in Hr2.
      exists h2, p. split; [exact Hr2|].
      exists e, x, (Td e true to g u), k, (Td e true s p te).
      rewrite ptr_Td. split_and!; [by destruct e|done| |exact Hev2].
      rewrite plug_cons. unfold t. destruct e; injection Hte as -> ->; done.
Qed.

(** The top of the tree is black. *)
Fixpoint top_black (k : ctx) : Prop :=
  match k with [] => True | [f] => fred f = false | _ :: k => top_black k end.

Lemma insert_loop_run k : forall fuel h xl x xr,
  ev h (plug k (T true xl x xr)) -> top_black k -> (length k <= fuel)%nat ->
  exists h', rb_insert_loop tr fuel x h = Ret (tt, h') /\ ev h' (insert_fix (T true xl x xr) k).
Proof.
  induction k as [k IH] using (induction_ltof1 _ length). unfold ltof in IH.
  intros fuel h xl x xr Hev Hb Hfuel. set (t := T true xl x xr) in *.
  assert (Ht : t <> E) by done.
  destruct k as [|[d cp p s] k].
  { exists h. split; [|done]. destruct (ptr_parent_ev h [] t Hev Ht) as (n & Hn & _ & Hp).
    pose proof (ta_root _ _ (ev_tree _ _ Hev)) as Hroot.
    destruct fuel; cbn [rb_insert_loop]; rewrite (rd_step _ _ _ _ Hn), Hp;
      by rewrite (rd_step _ _ _ _ Hroot). }
  destruct cp.
  2:{ exists h. split; [|done]. by apply (insert_loop_done fuel h d p s k t). }
  destruct k as [|[e cg g u] k]; [done|]. destruct fuel as [|fuel]; [cbn in Hfuel; lia|].
  destruct (ptr_parent_ev _ _ _ Hev Ht) as (n & Hn & _ & Hp). cbn [top faddr] in Hp.
  pose proof (parent_ev _ _ _ _ _ _ _ Hev) as Hpc.
  assert (Hev1 : ev h (plug (F e cg g u :: k) (Td d true t p s))) by exact Hev.
  pose proof (parent_ev _ _ _ _ _ _ _ Hev1) as Hgc. rewrite ptr_Td in Hgc.
  pose proof (sibling_ev _ _ _ _ _ _ _ Hev1 ltac:(by destruct d)) as Hsib. rewrite ptr_Td in Hsib.
  cbn [rb_insert_loop]. rewrite (rd_step _ _ _ _ Hn), Hp, (rd_step _ _ _ _ Hpc). cells.
  cbn [top faddr]. rewrite (rd_step _ _ _ _ Hgc), dir_test by done.
  destruct (insert_sub_run h k d e cg xl x xr p s g u Hev) as (h1 & x' & Hr & Hsub).
  rewrite (bind_step _ _ _ _ _ Hr). cbn [length] in *. destruct (is_red u) eqn:Eu.
  - destruct Hsub as [-> Hsub].
    assert (Hfix : insert_fix t (F d true p s :: F e cg g u :: k) =
      insert_fix (Td e true (Td d false t p s) g (paint false u)) k).
    { cbn [insert_fix]. by rewrite Eu. }
    rewrite Hfix. assert (Hb' : top_black k) by (destruct k; [done|exact Hb]).
    destruct e; (apply IH; [lia|exact Hsub|done|lia]).
  - destruct Hsub as (d' & p' & s' & k' & t' & Ht' & -> & Hfix & Hev').
    fold t in Hfix. rewrite Hfix. exists h1. split; [|done].
    by apply (insert_loop_done fuel h1 d' p' s' k' t').
Qed.

End Evolve.

(** ** [rb_insert] *)

Lemma rep_dom h p t a : rep h p t -> a ∈ inorder t -> a ∈ dom h.
Proof.
  revert p. induction t as [|c l IHl b r IHr]; intros p; cbn [rep inorder]; [by intros _ ?%not_elem_of_nil|].
  intros (Hb & Hl & Hr) [Ha|[->|Ha]%elem_of_cons]%elem_of_app; [eauto| |eauto].
  apply elem_of_dom. eauto.
Qed.

Lemma tree_size h t : tree_at h t -> (length (inorder t) <= size h)%nat.
Proof.
  intros [Hnd _ _ Hrep]. do 2 apply NoDup_cons in Hnd as [_ Hnd].
  rewrite <- size_dom, <- (size_list_to_set (C := gset Z)) by done.
  apply subseteq_size. intros a Ha%elem_of_list_to_set. by eapply rep_dom.
Qed.

Lemma height_size t : (height t <= length (inorder t))%nat.
Proof. induction t; cbn [height inorder]; rewrite ?length_app; cbn [length]; lia. Qed.

Lemma length_path k t : (length k <= length (inorder (plug k t)))%nat.
Proof.
  rewrite plug_addrs, length_app.
  assert (length k <= length (path_addrs k))%nat; [|lia].
  induction k as [|[d c a s] k IH]; cbn [path_addrs length]; rewrite ?length_app; lia.
Qed.

Lemma node_not_nil h k c l a r : tree_at h (plug k (T c l a r)) -> (a =? nil tr) = false.
Proof.
  intros (Hnd & _)%tree_at_plug. cbn [inorder] in Hnd. spread. apply Z.eqb_neq. set_solver.
Qed.

Lemma insert_descend_run h node t : forall k fuel,
  tree_at h (plug k t) -> (height t <= fuel)%nat ->
  insert_descend tr fuel node (top k) (ptr t) h =
  Ret (top (descend (fun a => compare tr a node) t k), h).
Proof.
  induction t as [|c l IHl a r IHr]; intros k fuel Ht Hf.
  - destruct fuel; cbn [insert_descend ptr]; by rewrite Z.eqb_refl.
  - cbn [height] in Hf. destruct fuel as [|fuel]; [lia|]. cbn [insert_descend ptr].
    rewrite (node_not_nil _ _ _ _ _ _ Ht). rewrite (rd_step _ _ _ _ (node_cell h k L _ _ _ _ Ht)).
    cbn [cell left right descend]. destruct (0 <? compare tr a node).
    + apply (IHl (F L c a r :: k)); [exact Ht|lia].
    + apply (IHr (F R c a l :: k)); [exact Ht|lia].
Qed.

(** The last step of a descent goes where the comparison says. *)
Definition dir_ok (cmp : Z -> Z) (k : ctx) : Prop :=
  match k with [] => True | f :: _ => fdir f = if 0 <? cmp (faddr f) then L else R end.

Lemma descend_dir cmp t k : dir_ok cmp k -> dir_ok cmp (descend cmp t k).
Proof.
  revert k. induction t as [|c l IHl a r IHr]; intros k Hk; cbn [descend]; [done|].
  destruct (0 <? cmp a) eqn:Ha; [apply IHl|apply IHr]; cbn; by rewrite Ha.
Qed.

Lemma descend_plug cmp t k : plug (descend cmp t k) E = plug k t.
Proof.
  revert k. induction t as [|c l IHl a r IHr]; intros k; cbn [descend]; [done|].
  destruct (0 <? cmp a); [apply IHl|apply IHr].
Qed.

Lemma descend_top_black cmp t k :
  top_black k -> (k = [] -> is_red t = false) -> top_black (descend cmp t k).
Proof.
  revert k. induction t as [|c l IHl a r IHr]; intros k Hk Ht; cbn [descend]; [done|].
  destruct (0 <? cmp a); [apply IHl|apply IHr]; try done;
    (destruct k; [by apply Ht|exact Hk]).
Qed.

(** A node linked below the end of a path. *)
Lemma add_leaf_run h k c node :
  tree_at h (plug k E) -> node ∉ nil tr :: root tr :: inorder (plug k E) ->
  (exists p, h !! node = Some (mk_node c p (nil tr) (nil tr))) ->
  dir_ok (fun a => compare tr a node) k ->
  exists h', (wr (set_parent (top k)) node ;;
      if (top k =? root tr) || (0 <? compare tr (top k) node) then wr (set_child L node) (top k)
      else wr (set_child R node) (top k)) h = Ret (tt, h') /\
    tree_at h' (plug k (T c E node E)) /\
    forall a, a ∉ node :: root tr :: inorder (plug k E) -> h' !! a = h !! a.
Proof.
  intros (Hnd & Hnil & Hk & _)%tree_at_plug Hin [p Hnode] Hdir. rewrite plug_addrs in Hin.
  cbn [inorder app] in *. rewrite !not_elem_of_cons in Hin. destruct Hin as (Hn1 & Hn2 & Hn3).
  assert (Hnd' := Hnd). apply (focus_zone []) in Hnd' as (_ & Hndk & Hnt & _).
  assert (Htop : node <> top k) by (pose proof (top_path k); set_solver).
  rewrite (bind_step _ _ _ _ _ (wr_run _ _ _ _ Hnode)).
  set (h1 := <[node := set_parent (top k) (mk_node c p (nil tr) (nil tr))]> h).
  assert (Hk1 : rep_path h1 (nil tr) k) by (by apply rep_path_insert).
  destruct (rep_path_top _ _ _ Hk1) as [n Hn].
  assert (Hlink : (if (top k =? root tr) || (0 <? compare tr (top k) node)
     then wr (set_child L node) (top k) else wr (set_child R node) (top k)) h1 =
     Ret (tt, <[top k := relink k node n]> h1)).
  { destruct k as [|[d c' a s] k]; cbn [top faddr relink fdir].
    - rewrite Z.eqb_refl. by apply wr_run.
    - cbn in Hdir. rewrite (proj2 (Z.eqb_neq a (root tr))) by (cbn in Hnd; spread; set_solver).
      cbn [orb]. destruct (0 <? compare tr a node); subst d; by apply wr_run. }
  rewrite Hlink. eexists. split; [done|]. split.
  - apply tree_at_plug. cbn [inorder app ptr rep]. split_and!; [|..|done|done].
    + rewrite !NoDup_cons, !not_elem_of_cons in *. destruct Hnd as ((? & ?) & ? & ?).
      split_and!; congruence.
    + by do 2 (apply nil_cell_insert; [done|]).
    + by apply (rep_path_relink _ (nil tr)).
    + rewrite lookup_insert_ne by done. apply lookup_insert_eq.
  - intros a Ha. rewrite plug_addrs in Ha. cbn [inorder app] in Ha. pose proof (top_path k).
    unfold h1. rewrite !lookup_insert_ne; [done|set_solver|set_solver].
Qed.

Lemma tree_at_insert h t a n :
  a ∉ nil tr :: root tr :: inorder t -> tree_at h t -> tree_at (<[a := n]> h) t.
Proof.
  rewrite !not_elem_of_cons. intros (H1 & H2 & H3) [Hnd Hnil Hroot Hrep].
  split; [done|by apply nil_cell_insert|by rewrite lookup_insert_ne|by apply rep_insert].
Qed.

Lemma insert_binary_run h t node n :
  tree_at h t -> h !! node = Some n -> node ∉ nil tr :: root tr :: inorder t ->
  exists h', rb_insert_binary tr node h = Ret (tt, h') /\
    tree_at h' (plug (descend (fun a => compare tr a node) t []) (T (red n) E node E)) /\
    forall a, a ∉ node :: root tr :: inorder t -> h' !! a = h !! a.
Proof.
  intros Ht Hn Hin. unfold rb_insert_binary.
  rewrite (bind_step _ _ _ _ _ (wr_run _ _ _ _ Hn)). erewrite bind_step by (apply wr_run, lookup_insert_eq).
  rewrite insert_insert_eq. set (n1 := set_child L _ _). set (h1 := <[node := n1]> h).
  assert (Ht1 : tree_at h1 t) by (by apply tree_at_insert).
  rewrite bind_get, (rd_step _ _ _ _ (ta_root _ _ Ht1)). cbn [left].
  rewrite (bind_step _ _ _ _ _ (insert_descend_run h1 node t [] (S (size h1)) Ht1
    ltac:(pose proof (tree_size _ _ Ht1); pose proof (height_size t); lia))).
  set (k := descend _ t []). assert (Hk : plug k E = t) by apply descend_plug.
  destruct (add_leaf_run h1 k (red n) node) as (h2 & Hr & Ht2 & Hout).
  - by rewrite Hk.
  - by rewrite Hk.
  - exists (parent n). apply lookup_insert_eq.
  - by apply descend_dir.
  - exists h2. split; [exact Hr|]. split; [done|]. intros a Ha. rewrite Hk in Hout.
    rewrite Hout by done. apply lookup_insert_ne. set_solver.
Qed.

(** [rb_insert] of a node that is not in the tree. *)
Lemma rb_insert_run h t node n :
  tree_at h t -> is_red t = false -> h !! node = Some n -> node ∉ nil tr :: root tr :: inorder t ->
  exists h', Rb.rb_insert tr node h = Ret (tt, h') /\
    tree_at h' (insert (compare tr) t node) /\
    forall a, a ∉ node :: root tr :: inorder t -> h' !! a = h !! a.
Proof.
  intros Ht Hblack Hn Hin. unfold Rb.rb_insert.
  destruct (insert_binary_run h t node n Ht Hn Hin) as (h1 & Hr1 & Ht1 & Hout1).
  rewrite (bind_step _ _ _ _ _ Hr1). set (k := descend _ t []) in *.
  destruct (paint_run h1 k L (red n) true E node E Ht1) as (h2 & Hr2 & Ht2 & Hout2).
  rewrite (bind_step _ _ _ _ _ Hr2), bind_get.
  assert (Hev : ev h2 (inorder (plug k (T true E node E))) h2 (plug k (T true E node E))) by done.
  destruct (insert_loop_run _ _ k (S (size h2)) h2 E node E Hev) as (h3 & Hr3 & Hev3).
  { by apply descend_top_black. }
  { pose proof (tree_size _ _ Ht2). pose proof (length_path k (Td L true E node E)). lia. }
  rewrite (bind_step _ _ _ _ _ Hr3), (rd_step _ _ _ _ (ta_root _ _ (ev_tree _ _ _ _ Hev3))).
  cbn [left]. change (insert (compare tr) t node) with (paint false (insert_fix (T true E node E) k)).
  pose proof (ev_nodes _ _ _ _ Hev3) as Hl. destruct (insert_fix (T true E node E) k) as [|c l a r].
  { exfalso. rewrite inorder_plug in Hl. by destruct (lefts k). }
  destruct (paint_ev _ _ L [] c false l a r h3 Hev3) as (h4 & Hr4 & Hev4).
  cbn [ptr]. rewrite (bind_step _ _ _ _ _ Hr4). destruct (ev_tree _ _ _ _ Hev4) as [_ (p & x & y & Hnil) Hroot _].
  rewrite (rd_step _ _ _ _ Hnil), (rd_step _ _ _ _ Hroot).
  exists h4. split; [done|]. split; [apply (ev_tree _ _ _ _ Hev4)|].
  intros b Hb. assert (Hb' : b ∉ root tr :: inorder (plug k (T true E node E))).
  { pose proof (descend_plug (fun a => compare tr a node) t []) as Hd. fold k in Hd.
    change (plug [] t) with t in Hd.
    rewrite plug_addrs. rewrite <- Hd, plug_addrs in Hb. cbn [inorder app] in *. set_solver. }
  rewrite (ev_out _ _ _ _ Hev4) by done. rewrite Hout2; [by apply Hout1|].
  by rewrite plug_addrs in Hb' |- *.
Qed.
End Rep.
End RbInv.
