(* ===== verification/RbDel.v ===== *)
(** * Red-black trees: deletion, walks and searches

    [rb_delete] computes [RbPure.delete]: the node is unlinked, a successor takes the
    place of a node with two children, and [rb_delete_fixup] repairs the colours.
    The walks and [rb_search] compute [prev], [next] and [search]; [check_tree]
    accepts every red-black tree. *)

From stdpp Require Import sorting.
From S2P Require Import Prelude Rb RbPure RbInv.
Open Scope Z_scope.

Module RbDel.
Import Rb RbPure RbInv.

Ltac cells := rewrite ?cell_child, ?cell_child_opp, ?cell_set_child, ?cell_set_child_opp,
  ?cell_set_parent, ?cell_set_red, ?cell_parent, ?cell_red.

Section Fixup.
Context (tr : rb_tree) (h0 : heap) (l : list Z).
#[local] Abbreviation ev := (ev tr h0 l).
#[local] Abbreviation top := (top tr).
#[local] Abbreviation ptr := (ptr tr).

(** A node at the focus, [nil] included, points to its parent. *)
Definition nil_parent (t : tree) (p : Z) : Prop :=
  t = E -> exists n, h0 !! nil tr = Some n /\ parent n = p.

Lemma focus_ev h d cp p w k t :
  ev h (plug (F d cp p w :: k) t) -> nil_parent t p ->
  exists n, h !! ptr t = Some n /\ red n = is_red t /\ parent n = p.
Proof using Type.
  intros Hev Hp. destruct t as [|c x a y].
  - destruct (Hp eq_refl) as (n & Hn & Hpar). exists n. cbn [RbInv.ptr].
    rewrite (ev_nil _ _ _ _ _ Hev). split_and!; [done| |done].
    destruct (ptr_ev _ _ _ _ _ _ Hev) as (n' & Hn' & Hr). cbn [RbInv.ptr] in Hn'.
    rewrite (ev_nil _ _ _ _ _ Hev), Hn in Hn'. by injection Hn' as <-.
  - by apply (ptr_parent_ev _ _ _ _ _ _ Hev).
Qed.

(** The focus moves to the sibling. *)
Lemma plug_swap d c p s k t : plug (F d c p s :: k) t = plug (F (opp d) c p t :: k) s.
Proof using Type. by rewrite !plug_cons, Td_opp. Qed.

(** Painting the sibling of the focus. *)
Lemma paint_sib_ev h d cp p k t e c c' x a y :
  ev h (plug (F d cp p (Td e c x a y) :: k) t) ->
  exists h', wr (set_red c') a h = Ret (tt, h') /\ ev h' (plug (F d cp p (Td e c' x a y) :: k) t).
Proof using Type.
  rewrite !(plug_swap d). apply paint_ev.
Qed.

(** The far child of the sibling is red: the last case. *)
Lemma fixup_last_run (h : heap) (root0 : Z) k d cp t p cw near wa far :
  ev h (plug (F d cp p (Td d cw near wa far) :: k) t) -> nil_parent t p -> far <> E ->
  exists h', (xn <- rd (ptr t) ;;
     pn <- rd (parent xn) ;;
     wr (set_red (red pn)) wa ;;
     wr (set_red false) (parent xn) ;;
     wn <- rd wa ;;
     wr (set_red false) (child (opp d) wn) ;;
     rotate tr d (parent xn) ;;
     ret root0) h = Ret (root0, h') /\
    ev h' (plug k (Td d cp (Td d false t p near) wa (paint false far))).
Proof using Type.
  intros Hev Hp Hfar. destruct (focus_ev _ _ _ _ _ _ _ Hev Hp) as (n & Hn & _ & Hpar).
  rewrite (rd_step _ _ _ _ Hn), Hpar, (rd_step _ _ _ _ (parent_ev _ _ _ _ _ _ _ _ _ _ Hev)). cells.
  destruct (paint_sib_ev _ _ _ _ _ _ _ _ cp _ _ _ Hev) as (h1 & Hr1 & Hev1).
  rewrite (bind_step _ _ _ _ _ Hr1). rewrite plug_cons in Hev1.
  destruct (paint_ev _ _ _ d k cp false _ _ _ _ Hev1) as (h2 & Hr2 & Hev2).
  rewrite (bind_step _ _ _ _ _ Hr2). clear Hr1 Hr2 Hev1.
  rewrite <- plug_cons, plug_swap in Hev2.
  rewrite (rd_step _ _ _ _ (node_ev _ _ _ _ _ _ _ _ _ _ Hev2)). cells.
  destruct far as [|cf fl fa fr]; [done|]. rewrite <- plug_cons, (plug_swap d) in Hev2.
  destruct (paint_ev _ _ _ L _ cf false _ _ _ _ Hev2) as (h3 & Hr3 & Hev3).
  cbn [RbInv.ptr]. rewrite (bind_step _ _ _ _ _ Hr3). rewrite !plug_cons, !Td_opp in Hev3.
  destruct (rotate_ev _ _ _ d k false t p cp near wa _ _ Hev3) as (h4 & Hr4 & Hev4).
  rewrite (bind_step _ _ _ _ _ Hr4). exists h4. done.
Qed.

(** The near child of the sibling is rotated up. *)
Lemma fixup_near_run h k d cp t p cw u na v wa far :
  ev h (plug (F d cp p (Td d cw (Td d true u na v) wa far) :: k) t) -> nil_parent t p ->
  exists h', (wr (set_red false) na ;;
     wr (set_red true) wa ;;
     rotate tr (opp d) wa ;;
     xn <- rd (ptr t) ;;
     pn <- rd (parent xn) ;;
     ret (child (opp d) pn)) h = Ret (na, h') /\
    ev h' (plug (F d cp p (Td d false u na (Td d true v wa far)) :: k) t).
Proof using Type.
  intros Hev Hp. rewrite plug_swap, <- (plug_cons d) in Hev.
  destruct (paint_ev _ _ _ d _ true false u na v h Hev) as (h1 & Hr1 & Hev1).
  rewrite (bind_step _ _ _ _ _ Hr1). rewrite plug_cons in Hev1.
  destruct (paint_ev _ _ _ d _ cw true _ wa far h1 Hev1) as (h2 & Hr2 & Hev2).
  rewrite (bind_step _ _ _ _ _ Hr2). rewrite <- (Td_opp d true), <- (Td_opp d false) in Hev2.
  destruct (rotate_ev _ _ _ _ _ _ _ _ _ _ _ _ _ Hev2) as (h3 & Hr3 & Hev3).
  rewrite (bind_step _ _ _ _ _ Hr3). rewrite !Td_opp, <- plug_swap in Hev3.
  destruct (focus_ev _ _ _ _ _ _ _ Hev3 Hp) as (n & Hn & _ & Hpar).
  rewrite (rd_step _ _ _ _ Hn), Hpar, (rd_step _ _ _ _ (parent_ev _ _ _ _ _ _ _ _ _ _ Hev3)). cells.
  exists h3. by rewrite ptr_Td.
Qed.

(** The sibling is black and so are its children: it is made red. *)
Lemma fixup_black_run h k d cp t p cw near wa far :
  ev h (plug (F d cp p (Td d cw near wa far) :: k) t) -> nil_parent t p ->
  exists h', (wr (set_red true) wa ;; xn <- rd (ptr t) ;; ret (parent xn)) h = Ret (p, h') /\
    ev h' (plug k (Td d cp t p (Td d true near wa far))).
Proof using Type.
  intros Hev Hp. destruct (paint_sib_ev _ _ _ _ _ _ _ _ true _ _ _ Hev) as (h1 & Hr1 & Hev1).
  rewrite (bind_step _ _ _ _ _ Hr1).
  destruct (focus_ev _ _ _ _ _ _ _ Hev1 Hp) as (n & Hn & _ & Hpar).
  rewrite (rd_step _ _ _ _ Hn), Hpar. by exists h1.
Qed.

(** The rest of [RB_DELETE_FIXUP_SUB] once the sibling is black. *)
Definition fixup_tail (root0 : Z) (d : dir) (x w : Z) : M heap Z :=
  wn <- rd w ;;
  ln <- rd (child d wn) ;;
  rn <- rd (child (opp d) wn) ;;
  if negb (red ln) && negb (red rn) then
    wr (set_red true) w ;;
    xn <- rd x ;;
    ret (parent xn)
  else
    (w <- (if negb (red rn) then
             wr (set_red false) (child d wn) ;;
             wr (set_red true) w ;;
             rotate tr (opp d) w ;;
             xn <- rd x ;;
             pn <- rd (parent xn) ;;
             ret (child (opp d) pn)
           else ret w) ;;
     xn <- rd x ;;
     pn <- rd (parent xn) ;;
     wr (set_red (red pn)) w ;;
     wr (set_red false) (parent xn) ;;
     wn <- rd w ;;
     wr (set_red false) (child (opp d) wn) ;;
     rotate tr d (parent xn) ;;
     ret root0).

Lemma fixup_tail_run h root0 k d cp t p w :
  ev h (plug (F d cp p w :: k) t) -> nil_parent t p -> w <> E ->
  exists h', match fix_black d t cp p w k with
  | Some t' => fixup_tail root0 d (ptr t) (ptr w) h = Ret (root0, h') /\ ev h' t'
  | None => fixup_tail root0 d (ptr t) (ptr w) h = Ret (p, h') /\
      ev h' (plug k (Td d cp t p (paint true w)))
  end.
Proof using Type.
  intros Hev Hp Hw. destruct w as [|cw wl wa wr]; [done|].
  destruct (T_Td d cw wl wa wr) as (near & far & Hsides).
  assert (Hfix : fix_black d t cp p (T cw wl wa wr) k =
    if is_red far then Some (plug k (Td d cp (Td d false t p near) wa (paint false far)))
    else match near with
         | T true nl na nr => Some (plug k (Td d cp (Td d false t p (match d with L => nl | R => nr end))
                na (Td d false (match d with L => nr | R => nl end) wa far)))
         | _ => None end).
  { destruct d; cbn in Hsides |- *; injection Hsides as -> ->; done. }
  assert (Hpaint : paint true (T cw wl wa wr) = Td d true near wa far).
  { destruct d; cbn in Hsides |- *; injection Hsides as -> ->; done. }
  rewrite Hfix, Hpaint, Hsides in *. clear Hfix Hpaint Hsides. rewrite ptr_Td. unfold fixup_tail.
  assert (Hevw : ev h (plug (F (opp d) cp p t :: k) (Td d cw near wa far))).
  { by rewrite <- plug_swap. }
  rewrite (rd_step _ _ _ _ (node_ev _ _ _ _ _ _ _ _ _ _ Hevw)). cells.
  assert (Hevn : ev h (plug (F d cw wa far :: F (opp d) cp p t :: k) near)) by exact Hevw.
  assert (Hevf : ev h (plug (F (opp d) cw wa near :: F (opp d) cp p t :: k) far)).
  { rewrite <- plug_swap. exact Hevn. }
  destruct (ptr_ev _ _ _ _ _ _ Hevn) as (nn & Hnn & Hrn).
  destruct (ptr_ev _ _ _ _ _ _ Hevf) as (fn & Hfn & Hrf).
  rewrite (rd_step _ _ _ _ Hnn), (rd_step _ _ _ _ Hfn), Hrn, Hrf.
  destruct (is_red far) eqn:Ef; [|destruct near as [|[] nl na nr]; cbn [is_red negb andb] in *].
  - cbn [negb]. rewrite andb_false_r. cbv iota. rewrite bind_ret.
    apply (fixup_last_run h root0 k d cp t p cw); [done|done|]. by intros ->.
  - by apply (fixup_black_run h k d cp t p cw).
  - destruct (T_Td d true nl na nr) as (u & v & Huv).
    destruct (fixup_near_run h k d cp t p cw u na v wa far) as (h1 & Hr1 & Hev1); [by rewrite <- Huv|done|].
    cbv iota. rewrite (bind_step _ _ _ _ _ Hr1).
    destruct (fixup_last_run h1 root0 k d cp t p false u na (Td d true v wa far) Hev1 Hp)
      as (h2 & Hr2 & Hev2); [by destruct d|].
    exists h2. split; [exact Hr2|]. by destruct d; injection Huv as -> ->.
  - by apply (fixup_black_run h k d cp t p cw).
Qed.

(** *** The loop *)

Lemma ptr_plug k t t' : k <> [] \/ ptr t = ptr t' -> ptr (plug k t) = ptr (plug k t').
Proof using Type.
  revert t t'. induction k as [|[d c a s] k IH]; intros t t'; [by intros [?|?]|].
  intros _. rewrite !plug_cons. apply IH. right. by rewrite !ptr_Td.
Qed.

Lemma set_black_noop h a n : h !! a = Some n -> red n = false -> wr (set_red false) a h = Ret (tt, h).
Proof using Type.
  intros Hn Hr. rewrite (wr_run _ _ _ _ Hn). rewrite insert_id; [done|].
  rewrite Hn. destruct n; cbn in *. by subst.
Qed.

(** The loop stops at a red node, and at the node that was the top at the start. *)
Lemma fixup_red_run h fuel root0 k t :
  ev h (plug k t) -> is_red t = true ->
  exists h', (x <- fixup_loop tr fuel root0 (ptr t) ;; wr (set_red false) x) h = Ret (tt, h') /\
    ev h' (plug k (paint false t)).
Proof using Type.
  intros Hev Hred. destruct (ptr_ev _ _ _ _ _ _ Hev) as (n & Hn & Hr).
  rewrite (bind_step _ _ _ (ptr t) h).
  2:{ destruct fuel; cbn [fixup_loop]; rewrite (rd_step _ _ _ _ Hn), Hr, Hred, andb_false_r; done. }
  destruct t as [|[] tl x tr']; try done. apply (paint_ev _ _ _ L _ _ _ _ _ _ _ Hev).
Qed.

Lemma fixup_root_run h fuel root0 n :
  h !! root0 = Some n -> red n = false ->
  (x <- fixup_loop tr fuel root0 root0 ;; wr (set_red false) x) h = Ret (tt, h).
Proof using Type.
  intros Hn Hr. rewrite (bind_step _ _ _ root0 h); [by eapply set_black_noop|].
  destruct fuel; cbn [fixup_loop]; rewrite (rd_step _ _ _ _ Hn), Z.eqb_refl; done.
Qed.

Lemma fix_black_shape d t cp p w k t' :
  fix_black d t cp p w k = Some t' ->
  (exists k' u v, t' = plug k' (Td d false u p v)) /\ (exists t2, t' = plug k t2).
Proof using Type.
  destruct w as [|cw wl wa wr]; cbn; [done|].
  assert (Hp : forall c u v a y, plug k (Td d c (Td d false u p v) a y) =
    plug (F d c a y :: k) (Td d false u p v)) by done.
  destruct (is_red _); [intros [= <-]; rewrite Hp; eauto 10|].
  destruct (match d with L => wl | R => wr end) as [|[] nl na nr]; try done.
  intros [= <-]. rewrite Hp. eauto 10.
Qed.

(** A repaired tree: the loop stops, and the old top, [p] or the top still, is black. *)
Lemma fixup_fixed_run h fuel d t cp p w k k0 t' m t0 :
  fix_black d t cp p w k = Some t' -> ev h t' -> rb false m t' ->
  (k0 = [] \/ k0 <> [] /\ exists t2, t' = plug k0 t2) -> ptr t0 = p ->
  let root0 := ptr (plug k0 t0) in
  (x <- fixup_loop tr fuel root0 root0 ;; wr (set_red false) x) h = Ret (tt, h).
Proof using Type.
  intros Hfix Hev Hrb Hk0 Ht0 root0.
  assert (exists n, h !! root0 = Some n /\ red n = false) as (n & Hn & Hr).
  { destruct Hk0 as [->|[Hk0 [t2 ->]]].
    - unfold root0. cbn [plug fold_left]. rewrite Ht0.
      apply fix_black_shape in Hfix as [(k' & u & v & ->) _].
      eexists. split; [exact (node_ev _ _ _ _ _ _ _ _ _ _ Hev)|by cells].
    - unfold root0. rewrite (ptr_plug k0 t0 t2) by auto.
      destruct (ptr_ev _ _ _ _ [] _ Hev) as (n & Hn & Hr). exists n. split; [done|].
      rewrite Hr. by apply rb_color in Hrb. }
  by apply (fixup_root_run _ _ _ n).
Qed.

(** A red sibling: it is rotated up and the near child of it is the new sibling. *)
Lemma fixup_sib_run h k d cp t p near wa far :
  ev h (plug (F d cp p (Td d true near wa far) :: k) t) -> nil_parent t p ->
  exists h', (wr (set_red false) wa ;;
          wr (set_red true) p ;;
          rotate tr d p ;;
          xn <- rd (ptr t) ;;
          pn <- rd (parent xn) ;;
          ret (child (opp d) pn)) h = Ret (ptr near, h') /\
    ev h' (plug (F d true p near :: F d false wa far :: k) t).
Proof using Type.
  intros Hev Hp. destruct (paint_sib_ev _ _ _ _ _ _ _ _ false _ _ _ Hev) as (h1 & Hr1 & Hev1).
  rewrite (bind_step _ _ _ _ _ Hr1). rewrite plug_cons in Hev1.
  destruct (paint_ev _ _ _ d k cp true _ p _ h1 Hev1) as (h2 & Hr2 & Hev2).
  rewrite (bind_step _ _ _ _ _ Hr2).
  destruct (rotate_ev _ _ _ _ _ _ _ _ _ _ _ _ _ Hev2) as (h3 & Hr3 & Hev3).
  rewrite (bind_step _ _ _ _ _ Hr3). rewrite <- !plug_cons in Hev3.
  destruct (focus_ev _ _ _ _ _ _ _ Hev3 Hp) as (n & Hn & _ & Hpar).
  rewrite (rd_step _ _ _ _ Hn), Hpar, (rd_step _ _ _ _ (parent_ev _ _ _ _ _ _ _ _ _ _ Hev3)). cells.
  by exists h3.
Qed.

(** What one round of the loop comes to. *)
Inductive round (t : tree) (k : ctx) (n : nat) (root0 x' : Z) (h' : heap) : Prop :=
| round_fixed :
    x' = root0 -> ev h' (delete_fix t k) ->
    (forall fuel, (x <- fixup_loop tr fuel root0 root0 ;; wr (set_red false) x) h' = Ret (tt, h')) ->
    round t k n root0 x' h'
| round_red k2 t2 :
    x' = ptr t2 -> is_red t2 = true -> ev h' (plug k2 t2) ->
    delete_fix t k = plug k2 (paint false t2) -> round t k n root0 x' h'
| round_up d p w k2 :
    k = F d false p w :: k2 -> x' = p -> ev h' (plug k2 (Td d false t p (paint true w))) ->
    delete_fix t k = delete_fix (Td d false t p (paint true w)) k2 ->
    rb false (S n) (Td d false t p (paint true w)) -> path_ok false (S (S n)) k2 ->
    round t k n root0 x' h'.

Lemma path_sibling n d cp p w k :
  path_ok false (S n) (F d cp p w :: k) ->
  exists cw, rb cw (S n) w /\ path_ok cp (above cp (S n)) k /\ (cp = true -> cw = false).
Proof using Type.
  inversion 1; subst; eexists; (split_and!; [eassumption|assumption|done]).
Qed.

Lemma fixup_black_round h root0 k d cp t p w n :
  ev h (plug (F d cp p w :: k) t) -> nil_parent t p -> rb false n t ->
  rb false (S n) w -> path_ok cp (above cp (S n)) k ->
  root0 = ptr (plug k (Td d cp t p w)) ->
  exists h' x', fixup_tail root0 d (ptr t) (ptr w) h = Ret (x', h') /\
    round t (F d cp p w :: k) n root0 x' h'.
Proof using Type.
  intros Hev Hp Ht Hw Hk Hroot.
  pose proof (fix_black_rb d t false cp p w k n Ht Hw Hk) as Hrb.
  assert (HwE : w <> E) by (by intros ->; inversion Hw).
  destruct (fixup_tail_run h root0 k d cp t p w Hev Hp HwE) as [h' Hrun].
  assert (Hfix : delete_fix t (F d cp p w :: k) = match fix_black d t cp p w k with
    Some t' => t' | None => delete_fix (Td d cp t p (paint true w)) k end).
  { cbn [delete_fix]. rewrite (rb_color _ _ _ Ht). by inversion Hw. }
  destruct (fix_black d t cp p w k) as [t'|] eqn:Efix; destruct Hrun as [Hrun Hev'].
  - exists h', root0. split; [done|]. apply round_fixed; [done|by rewrite Hfix|].
    destruct Hrb as [m Hrb]. intros fuel. subst root0.
    apply (fixup_fixed_run h' fuel d t cp p w k k t' m); [done..| |apply ptr_Td].
    destruct k; [by left|right]. split; [done|]. by eapply fix_black_shape.
  - exists h', p. split; [done|]. destruct cp; cbn [above] in Hk.
    + apply (round_red _ _ _ _ _ _ k (Td d true t p (paint true w)));
        [by rewrite ptr_Td|by destruct d|done|].
      rewrite Hfix. apply delete_fix_red. by destruct d.
    + eapply round_up; [done|done|done|done| |done]. by eapply rb_black.
Qed.

Lemma fixup_red_round h root0 k d t p near wa far n :
  let w := Td d true near wa far in
  ev h (plug (F d true p near :: F d false wa far :: k) t) -> nil_parent t p -> rb false n t ->
  rb false (S n) near -> path_ok true (S n) (F d false wa far :: k) ->
  root0 = ptr (plug (F d false p w :: k) t) ->
  exists h' x', fixup_tail root0 d (ptr t) (ptr near) h = Ret (x', h') /\
    round t (F d false p w :: k) n root0 x' h'.
Proof using Type.
  intros w Hev Hp Ht Hnear Hk Hroot.
  pose proof (fix_black_rb d t false true p near _ n Ht Hnear Hk) as Hrb.
  assert (HE : near <> E) by (by intros ->; inversion Hnear).
  destruct (fixup_tail_run h root0 _ d true t p near Hev Hp HE) as [h' Hrun].
  assert (Hfix : delete_fix t (F d false p w :: k) =
    match fix_black d t true p near (F d false wa far :: k) with
    Some t' => t' | None => plug (F d false wa far :: k) (Td d false t p (paint true near)) end).
  { cbn [delete_fix]. rewrite (rb_color _ _ _ Ht). unfold w. by destruct d. }
  destruct (fix_black _ _ _ _ _ _) as [t'|] eqn:Efix; destruct Hrun as [Hrun Hev'].
  - exists h', root0. split; [done|]. apply round_fixed; [done|by rewrite Hfix|].
    destruct Hrb as [m Hrb]. intros fuel. subst root0. rewrite plug_cons.
    apply (fixup_fixed_run h' fuel d t true p near _ k t' m _ Efix); [done..| |apply ptr_Td].
    apply fix_black_shape in Efix as [_ [t2 ->]].
    destruct k; [by left|right]. split; [done|]. rewrite plug_cons. eauto.
  - exists h', p. split; [done|].
    apply (round_red _ _ _ _ _ _ (F d false wa far :: k) (Td d true t p (paint true near)));
      [by rewrite ptr_Td|by destruct d|done|].
    rewrite Hfix. by destruct d.
Qed.

Lemma fixup_sub_run h root0 k d cp t p w n :
  ev h (plug (F d cp p w :: k) t) -> nil_parent t p -> rb false n t ->
  path_ok false (S n) (F d cp p w :: k) -> root0 = ptr (plug (F d cp p w :: k) t) ->
  exists h' x', RB_DELETE_FIXUP_SUB tr root0 d (ptr t) h = Ret (x', h') /\
    round t (F d cp p w :: k) n root0 x' h'.
Proof using Type.
  intros Hev Hp Ht (cw & Hw & Hk & Hcp)%path_sibling Hroot.
  unfold RB_DELETE_FIXUP_SUB.
  destruct (focus_ev _ _ _ _ _ _ _ Hev Hp) as (tn & Htn & _ & Hpar).
  rewrite (rd_step _ _ _ _ Htn), Hpar, (rd_step _ _ _ _ (parent_ev _ _ _ _ _ _ _ _ _ _ Hev)). cells.
  assert (Hevw := Hev). rewrite plug_swap in Hevw.
  destruct (ptr_ev _ _ _ _ _ _ Hevw) as (wn & Hwn & Hrw).
  rewrite (rd_step _ _ _ _ Hwn), Hrw, (rb_color _ _ _ Hw). destruct cw.
  - destruct cp; [by specialize (Hcp eq_refl)|]. inversion Hw as [|? wl wa wr Hwl Hwr|]; subst w.
    destruct (T_Td d true wl wa wr) as (near & far & Hsides). rewrite Hsides in *.
    assert (Hnear : rb false (S n) near) by (destruct d; injection Hsides as -> ->; done).
    assert (Hfar : rb false (S n) far) by (destruct d; injection Hsides as -> ->; done).
    rewrite ptr_Td. destruct (fixup_sib_run h k d false t p near wa far Hev Hp) as (h1 & Hr1 & Hev1).
    rewrite (bind_step _ _ _ _ _ Hr1).
    assert (Hk1 : path_ok true (S n) (F d false wa far :: k)) by (by eapply path_black).
    by apply (fixup_red_round h1 root0 k d t p near wa far n).
  - rewrite bind_ret. by apply fixup_black_round.
Qed.

Lemma ptr_not_top h f k t : ev h (plug (f :: k) t) -> (ptr t =? ptr (plug (f :: k) t)) = false.
Proof using Type.
  intros Hev.
  assert (Hin : forall k f t, ptr (plug (f :: k) t) ∈ path_addrs (f :: k)).
  { clear. induction k as [|g k IH]; intros [d c a s] t.
    - rewrite plug_cons. cbn [plug fold_left]. rewrite ptr_Td. cbn. set_solver.
    - rewrite plug_cons. specialize (IH g (Td d c t a s)). cbn [path_addrs]. set_solver. }
  specialize (Hin k f t). destruct Hev as [Ht _ _]. apply tree_at_plug in Ht as (Hnd & _).
  apply Z.eqb_neq. intros Heq. rewrite <- Heq in Hin. destruct t as [|c x a y]; cbn [RbInv.ptr] in Hin.
  - apply NoDup_cons in Hnd as [Hnd _]. clear Heq. set_solver.
  - do 2 apply NoDup_cons in Hnd as [_ Hnd]. apply NoDup_app in Hnd as (_ & Hd & _).
    apply (Hd a); [cbn; set_solver|done].
Qed.

Lemma bind_eq {S A B} (m m' : M S A) (f : A -> M S B) s s' : m s = m' s' -> bind m f s = bind m' f s'.
Proof using Type. unfold bind. by intros ->. Qed.

Lemma fixup_loop_run k : forall fuel h t c n root0,
  ev h (plug k t) -> nil_parent t (top k) -> rb c n t -> path_ok false (S n) k ->
  (length k <= fuel)%nat -> root0 = ptr (plug k t) ->
  exists h', (x <- fixup_loop tr fuel root0 (ptr t) ;; wr (set_red false) x) h = Ret (tt, h') /\
    ev h' (delete_fix t k).
Proof using Type.
  induction k as [|[d cp p w] k IH]; intros fuel h t c n root0 Hev Hp Ht Hk Hf Hroot;
    pose proof (rb_color _ _ _ Ht) as Hc; destruct c.
  1,3: rewrite delete_fix_red by done; by apply fixup_red_run.
  { exists h. cbn [plug fold_left] in Hroot. rewrite <- Hroot.
    destruct (ptr_ev _ _ _ _ [] _ Hev) as (tn & Htn & Htr). cbn [plug fold_left] in Htn.
    split; [|cbn [delete_fix]; by rewrite Hc].
    apply (fixup_root_run _ _ _ tn); [by rewrite Hroot|congruence]. }
  destruct fuel as [|fuel]; [cbn in Hf; lia|]. cbn [top faddr] in Hp.
  destruct (focus_ev _ _ _ _ _ _ _ Hev Hp) as (tn & Htn & Htr & Hpar).
  destruct (path_sibling _ _ _ _ _ _ Hk) as (cw & Hw & _).
  assert (Hsib : (ptr t =? ptr w) = false).
  { rewrite Z.eqb_sym. assert (Hevw := Hev). rewrite plug_swap in Hevw.
    apply (sibling_ev _ _ _ _ _ _ _ _ _ _ Hevw). intros ->. inversion Hw. }
  destruct (fixup_sub_run h root0 k d cp t p w n Hev Hp Ht Hk Hroot) as (h1 & x' & Hr & Hround).
  assert (Hstep : fixup_loop tr (S fuel) root0 (ptr t) h = fixup_loop tr fuel root0 x' h1).
  { cbn [fixup_loop]. rewrite (rd_step _ _ _ _ Htn), Htr, Hc.
    rewrite Hroot, (ptr_not_top _ _ _ _ Hev), <- Hroot. cbn [negb andb].
    rewrite Hpar, (rd_step _ _ _ _ (parent_ev _ _ _ _ _ _ _ _ _ _ Hev)), dir_test by done.
    by rewrite (bind_step _ _ _ _ _ Hr). }
  rewrite (bind_eq _ _ _ _ _ Hstep). clear Hstep.
  destruct Hround as [-> Hev1 Hstop|k2 t2 -> Hred Hev1 Hfix|d' p' w' k2 Hk2 -> Hev1 Hfix Hrb Hk'].
  - exists h1. by rewrite Hstop.
  - rewrite Hfix. by apply fixup_red_run.
  - injection Hk2 as Hd Hcp Hpp Hww Hkk. subst d' cp p' w' k2. rewrite Hfix.
    destruct (IH fuel h1 (Td d false t p (paint true w)) false (S n) root0) as (h2 & Hr2 & Hev2);
      [done|by destruct d|done|done|cbn in Hf; lia| |rewrite ptr_Td in Hr2; eauto].
    rewrite Hroot, plug_cons. apply ptr_plug. right. by rewrite !ptr_Td.
Qed.
End Fixup.

(** ** Walks *)
Section Walks.
Context (tr : rb_tree) (h : heap).
#[local] Abbreviation tree_at := (tree_at tr).
#[local] Abbreviation top := (top tr).
#[local] Abbreviation ptr := (ptr tr).
#[local] Abbreviation nil := (Rb.nil tr).

Definition is_E (t : tree) : bool := match t with E => true | _ => false end.

Lemma ptr_nil_test k t : tree_at h (plug k t) -> (ptr t =? nil) = is_E t.
Proof using Type.
  intros Ht. destruct t; cbn [RbInv.ptr]; [apply Z.eqb_refl|by eapply node_not_nil].
Qed.

Lemma walk_down_run d t : forall k fuel c l a r,
  t = T c l a r -> tree_at h (plug k t) -> (height t <= fuel)%nat ->
  walk_down tr fuel d a h = Ret (extreme d a t, h).
Proof using Type.
  induction t as [|c0 l0 IHl a0 r0 IHr]; intros k fuel c l a r [= -> -> -> ->] Ht Hf.
  destruct fuel as [|fuel]; [cbn in Hf; lia|]. cbn [walk_down].
  rewrite (rd_step _ _ _ _ (node_cell tr h k L _ _ _ _ Ht)). cbn [height] in Hf.
  assert (Hl : tree_at h (plug (F L c a r :: k) l)) by exact Ht.
  assert (Hr : tree_at h (plug (F R c a l :: k) r)) by exact Ht.
  destruct d; cbn [child cell left right].
  - rewrite (ptr_nil_test _ _ Hl). cbn [is_E]. destruct l as [|cl ll la lr]; [done|].
    eapply (IHl _ fuel); [done|exact Hl|lia].
  - rewrite (ptr_nil_test _ _ Hr). destruct r as [|cr rl ra rr]; [done|].
    eapply (IHr _ fuel); [done|exact Hr|lia].
Qed.

(** A node is neither its sibling nor [nil]. *)
Lemma sibling_test k d c a s t :
  tree_at h (plug (F d c a s :: k) t) -> t <> E -> (ptr t =? ptr s) = false.
Proof using Type. intros Ht. by apply (sibling_ev tr h (inorder (plug (F d c a s :: k) t)) h k d c a). Qed.

Lemma climb_right_run k : forall fuel t,
  tree_at h (plug k t) -> t <> E -> (length k <= fuel)%nat ->
  climb_right fuel (ptr t) (top k) h = Ret (default (root tr) (climb L k), h).
Proof using Type.
  induction k as [|[d c a s] k IH]; intros fuel t Ht HE Hf.
  - assert (Hr : climb_right fuel (ptr t) (root tr) h = Ret (root tr, h)); [|done].
    destruct fuel; cbn [climb_right]; rewrite (rd_step _ _ _ _ (ta_root _ _ _ Ht)); cbn [right];
      rewrite (ptr_nil_test [] _ Ht); by destruct t.
  - pose proof (parent_cell _ _ _ _ _ _ _ _ Ht) as Ha. pose proof (sibling_test _ _ _ _ _ _ Ht HE) as Hs.
    destruct d; cbn [RbInv.top faddr].
    + destruct fuel; cbn [climb_right]; rewrite (rd_step _ _ _ _ Ha); cbn; by rewrite Hs.
    + destruct fuel as [|fuel]; [cbn in Hf; lia|]. cbn [climb_right]. rewrite (rd_step _ _ _ _ Ha).
      cbn [cell right parent]. rewrite Z.eqb_refl.
      apply (IH fuel (Td R c t a s)); [exact Ht|done|cbn in Hf; lia].
Qed.

Lemma climb_left_run k : forall fuel t,
  tree_at h (plug k t) -> t <> E -> (length k <= fuel)%nat ->
  climb_left tr fuel (ptr t) (top k) h = Ret (default nil (climb R k), h).
Proof using Type.
  induction k as [|[d c a s] k IH]; intros fuel t Ht HE Hf.
  - cbn [climb default RbInv.top].
    destruct fuel; cbn [climb_left]; rewrite (rd_step _ _ _ _ (ta_root _ _ _ Ht)); cbn [left plug fold_left];
      by rewrite !Z.eqb_refl.
  - pose proof (parent_cell _ _ _ _ _ _ _ _ Ht) as Ha. pose proof (sibling_test _ _ _ _ _ _ Ht HE) as Hs.
    destruct d; cbn [RbInv.top faddr].
    + destruct fuel as [|fuel]; [cbn in Hf; lia|]. cbn [climb_left]. rewrite (rd_step _ _ _ _ Ha).
      cbn [cell left parent]. rewrite Z.eqb_refl.
      assert (Har : (a =? root tr) = false).
      { apply Z.eqb_neq. apply tree_at_plug in Ht as (Hnd & _). cbn [path_addrs] in Hnd.
        apply NoDup_cons in Hnd as [_ [Hnd _]%NoDup_cons]. set_solver. }
      rewrite Har. apply (IH fuel (Td L c t a s)); [exact Ht|done|cbn in Hf; lia].
    + destruct fuel; cbn [climb_left]; rewrite (rd_step _ _ _ _ Ha); cbn; by rewrite Hs.
Qed.

(** Fuel enough for every walk. *)
Lemma walk_fuel k t : tree_at h (plug k t) -> (length k <= size h /\ height t <= size h)%nat.
Proof using Type.
  intros Ht. pose proof (tree_size _ _ _ Ht) as Hs. pose proof (length_path k t) as Hk.
  pose proof (height_size t) as Hh. split; [lia|].
  rewrite plug_addrs, length_app in Hs. lia.
Qed.

Lemma successor_run k c l x r :
  tree_at h (plug k (T c l x r)) ->
  rb_tree_successor tr x h =
    Ret (match r with E => default nil (climb L k) | T _ _ a _ => extreme L a r end, h).
Proof using Type.
  intros Ht. pose proof (walk_fuel _ _ Ht) as [Hf1 Hf2]. unfold rb_tree_successor.
  rewrite bind_get, (rd_step _ _ _ _ (node_cell tr h k L _ _ _ _ Ht)). cbn [cell right parent].
  assert (Hr : tree_at h (plug (F R c x l :: k) r)) by exact Ht.
  rewrite (ptr_nil_test _ _ Hr). destruct r as [|cr rl ra rr]; cbn [negb is_E].
  - rewrite (bind_step _ _ _ _ _ (climb_right_run k (size h) (T c l x E) Ht ltac:(done) Hf1)).
    destruct (climb L k) as [y|] eqn:Hc; cbn; [|by rewrite Z.eqb_refl].
    assert (Hy : y ∈ path_addrs k).
    { clear - Hc. induction k as [|[d c a s] k IH]; cbn in Hc |- *; [done|].
      case_bool_decide; [injection Hc as <-; set_solver|]. apply IH in Hc. set_solver. }
    rewrite (proj2 (Z.eqb_neq y (root tr))); [done|]. intros ->.
    apply tree_at_plug in Ht as (Hnd & _). apply NoDup_cons in Hnd as [_ [Hnd _]%NoDup_cons].
    set_solver.
  - pose proof (walk_fuel _ _ Hr) as [_ Hf]. by eapply walk_down_run.
Qed.

Lemma predecessor_run k c l x r :
  tree_at h (plug k (T c l x r)) ->
  rb_tree_predecessor tr x h =
    Ret (match l with E => default nil (climb R k) | T _ _ a _ => extreme R a l end, h).
Proof using Type.
  intros Ht. pose proof (walk_fuel _ _ Ht) as [Hf1 Hf2]. unfold rb_tree_predecessor.
  rewrite bind_get, (rd_step _ _ _ _ (node_cell tr h k L _ _ _ _ Ht)). cbn [cell left parent].
  assert (Hl : tree_at h (plug (F L c x r :: k) l)) by exact Ht.
  rewrite (ptr_nil_test _ _ Hl). destruct l as [|cl ll la lr]; cbn [negb is_E].
  - apply (climb_left_run k (size h) (T c E x r) Ht ltac:(done) Hf1).
  - pose proof (walk_fuel _ _ Hl) as [_ Hf]. by eapply walk_down_run.
Qed.

(** [NULL] for [nil]: the walks give what [prev] and [next] say. *)
Lemma or_null_in t x : tree_at h t -> x ∈ inorder t -> or_null tr x = Some x.
Proof using Type.
  intros [Hnd _ _ _] Hx. unfold or_null. apply NoDup_cons in Hnd as [Hn _].
  by rewrite (proj2 (Z.eqb_neq x nil)) by set_solver.
Qed.

Lemma or_null_opt t o :
  tree_at h t -> (forall x, o = Some x -> x ∈ inorder t) -> or_null tr (default nil o) = o.
Proof using Type.
  intros Ht Ho. destruct o as [x|]; cbn; [by apply (or_null_in t); auto|].
  unfold or_null. by rewrite Z.eqb_refl.
Qed.

Lemma in_focus t x : tree_at h t -> x ∈ inorder t -> exists l1 l2,
  inorder t = l1 ++ x :: l2 /\ NoDup (l1 ++ x :: l2).
Proof using Type.
  intros [Hnd _ _ _] (l1 & l2 & Heq)%list_elem_of_split. exists l1, l2. split; [done|].
  rewrite <- Heq. by do 2 apply NoDup_cons in Hnd as [_ Hnd].
Qed.

Lemma rb_node_prev_run t x :
  tree_at h t -> x ∈ inorder t -> rb_node_prev tr x h = Ret (prev t x, h).
Proof using Type.
  intros Ht Hx. destruct (in_focus t x Ht Hx) as (l1 & l2 & Heq & Hnd).
  pose proof (prev_last t x l1 l2 Heq Hnd) as Hprev.
  destruct (find_inv t x l1 l2 Heq Hnd) as (k & c & l & r & Hf & Hplug & _).
  assert (Hrun : rb_tree_predecessor tr x h = Ret (default nil (prev t x), h)).
  { rewrite Hplug in Ht. rewrite (predecessor_run _ _ _ _ _ Ht). unfold prev. rewrite Hf.
    by destruct l. }
  unfold rb_node_prev. rewrite (bind_step _ _ _ _ _ Hrun). unfold ret. do 2 f_equal.
  apply (or_null_opt t); [done|]. intros y Hy. rewrite Hprev in Hy. apply last_Some_elem_of in Hy.
  rewrite Heq. set_solver.
Qed.

Lemma rb_node_next_run t x :
  tree_at h t -> x ∈ inorder t -> rb_node_next tr x h = Ret (next t x, h).
Proof using Type.
  intros Ht Hx. destruct (in_focus t x Ht Hx) as (l1 & l2 & Heq & Hnd).
  pose proof (next_head t x l1 l2 Heq Hnd) as Hnext.
  destruct (find_inv t x l1 l2 Heq Hnd) as (k & c & l & r & Hf & Hplug & _).
  assert (Hrun : rb_tree_successor tr x h = Ret (default nil (next t x), h)).
  { rewrite Hplug in Ht. rewrite (successor_run _ _ _ _ _ Ht). unfold next. rewrite Hf.
    by destruct r. }
  unfold rb_node_next. rewrite (bind_step _ _ _ _ _ Hrun). unfold ret. do 2 f_equal.
  apply (or_null_opt t); [done|]. intros y Hy. rewrite Hnext in Hy.
  destruct l2; [done|]. injection Hy as ->. rewrite Heq. set_solver.
Qed.

(** The top and the children of a node, for a client that walks down. *)
Definition top_of (t : tree) : option Z := match t with E => None | T _ _ a _ => Some a end.

Lemma or_null_ptr k t : tree_at h (plug k t) -> or_null tr (ptr t) = top_of t.
Proof using Type. intros Ht. unfold or_null. rewrite (ptr_nil_test _ _ Ht). by destruct t. Qed.

Lemma rb_node_children_run k c l x r :
  tree_at h (plug k (T c l x r)) ->
  rb_node_left tr x h = Ret (top_of l, h) /\ rb_node_right tr x h = Ret (top_of r, h).
Proof using Type.
  intros Ht. unfold rb_node_left, rb_node_right.
  rewrite !(rd_step _ _ _ _ (node_cell tr h k L _ _ _ _ Ht)). cbn [cell left right].
  rewrite (or_null_ptr (F L c x r :: k) l Ht), (or_null_ptr (F R c x l :: k) r Ht). done.
Qed.

Lemma rb_node_root_run t : tree_at h t -> rb_node_root tr h = Ret (top_of t, h).
Proof using Type.
  intros Ht. unfold rb_node_root. rewrite (rd_step _ _ _ _ (ta_root _ _ _ Ht)). cbn [left].
  by rewrite (or_null_ptr [] t Ht).
Qed.

Lemma search_loop_run cmp t : forall k fuel,
  tree_at h (plug k t) -> (height t <= fuel)%nat ->
  search_loop tr fuel cmp (ptr t) h = Ret (default nil (search cmp t), h).
Proof using Type.
  induction t as [|c l IHl a r IHr]; intros k fuel Ht Hf.
  - destruct fuel; cbn [search_loop RbInv.ptr]; by rewrite Z.eqb_refl.
  - destruct fuel as [|fuel]; [cbn in Hf; lia|]. cbn [search_loop RbInv.ptr search height] in *.
    rewrite (node_not_nil _ _ _ _ _ _ _ Ht). destruct (cmp a =? 0); [done|].
    rewrite (rd_step _ _ _ _ (node_cell tr h k L _ _ _ _ Ht)). cbn [cell left right].
    destruct (0 <? cmp a).
    + apply (IHl (F L c a r :: k)); [exact Ht|lia].
    + apply (IHr (F R c a l :: k)); [exact Ht|lia].
Qed.

Lemma rb_search_run cmp t : tree_at h t -> rb_search tr cmp h = Ret (search cmp t, h).
Proof using Type.
  intros Ht. unfold rb_search. rewrite bind_get, (rd_step _ _ _ _ (ta_root _ _ _ Ht)). cbn [left].
  pose proof (walk_fuel [] t Ht) as [_ Hf].
  rewrite (bind_step _ _ _ _ _ (search_loop_run cmp t [] _ Ht Hf)). unfold ret. do 2 f_equal.
  apply (or_null_opt t); [done|]. intros x Hx. by apply search_found in Hx as [Hx _].
Qed.

(** [check_tree]: ordered as [compare] says. *)
Definition ordered (t : tree) : Prop :=
  StronglySorted (fun a b => compare tr a b <= 0 /\ 0 <= compare tr b a) (inorder t).

(** The test of one child: the comparison [b] holds and its parent link is right. *)
Lemma check_child_run k d c a s t (b : bool) :
  tree_at h (plug (F d c a s :: k) t) -> (t <> E -> b = true) ->
  (if ptr t =? nil then ret tt
   else assert b ;; n <- rd (ptr t) ;; assert (parent n =? a)) h = Ret (tt, h).
Proof using Type.
  intros Ht Hb. rewrite (ptr_nil_test _ _ Ht). destruct t as [|ct l x r]; [done|].
  cbn [is_E]. rewrite assert_true by auto. cbn [RbInv.ptr].
  rewrite (rd_step _ _ _ _ (node_cell tr h _ L _ _ _ _ Ht)). cbn [cell parent RbInv.top faddr].
  by rewrite Z.eqb_refl.
Qed.

Lemma check_tree_run t : forall k c n fuel,
  tree_at h (plug k t) -> rb c n t -> ordered t -> (height t < fuel)%nat ->
  check_tree tr fuel (ptr t) h = Ret (Z.of_nat n + 1, h).
Proof using Type.
  induction t as [|ct l IHl a r IHr]; intros k c n fuel Ht Hrb Hord Hf;
    (destruct fuel as [|fuel]; [lia|]); cbn [check_tree].
  - destruct (ptr_cell _ _ _ _ Ht) as (x & Hx & Hr). rewrite (rd_step _ _ _ _ Hx), Hr.
    cbn [RbInv.ptr]. rewrite Z.eqb_refl. inversion Hrb. done.
  - assert (Hl : tree_at h (plug (F L ct a r :: k) l)) by exact Ht.
    assert (Hr : tree_at h (plug (F R ct a l :: k) r)) by exact Ht.
    unfold ordered in Hord. cbn [inorder] in Hord.
    apply StronglySorted_app in Hord as (Hla & Hordl & Hordr).
    apply StronglySorted_cons in Hordr as [Har Hordr]. cbn [height] in Hf.
    rewrite (rd_step _ _ _ _ (node_cell tr h k L _ _ _ _ Ht)).
    rewrite (ptr_nil_test _ _ Ht). cbn [cell left right red RbInv.ptr is_E].
    rewrite (bind_step _ _ _ tt h).
    2:{ apply (check_child_run _ _ _ _ _ l _ Hl). intros HE. apply Z.leb_le.
        destruct l as [|? ? x ?]; [done|]. apply (Hla x a); cbn; set_solver. }
    rewrite (bind_step _ _ _ tt h).
    2:{ apply (check_child_run _ _ _ _ _ r _ Hr). intros HE. apply Z.leb_le.
        destruct r as [|? ? x ?]; [done|]. rewrite Forall_forall in Har. apply (Har x); cbn; set_solver. }
    destruct (ptr_cell _ _ _ _ Hl) as (nl & Hnl & Hcl). destruct (ptr_cell _ _ _ _ Hr) as (nr & Hnr & Hcr).
    inversion Hrb as [|? ? ? ? Hl' Hr'|m cl ? ? cr ? Hl' Hr']; subst.
    + erewrite bind_step.
      2:{ rewrite (rd_step _ _ _ _ Hnl), (rd_step _ _ _ _ Hnr), Hcl, Hcr.
          by rewrite (rb_color _ _ _ Hl'), (rb_color _ _ _ Hr'). }
      rewrite (bind_step _ _ _ _ _ (IHl _ _ _ fuel Hl Hl' Hordl ltac:(lia))).
      rewrite (bind_step _ _ _ _ _ (IHr _ _ _ fuel Hr Hr' Hordr ltac:(lia))).
      by rewrite Z.eqb_refl.
    + rewrite bind_ret.
      rewrite (bind_step _ _ _ _ _ (IHl _ _ _ fuel Hl Hl' Hordl ltac:(lia))).
      rewrite (bind_step _ _ _ _ _ (IHr _ _ _ fuel Hr Hr' Hordr ltac:(lia))).
      rewrite Z.eqb_refl. unfold bind, assert, ret. do 2 f_equal. lia.
Qed.
End Walks.

(** ** [rb_delete] *)
Section Delete.
Context (tr : rb_tree).
#[local] Abbreviation tree_at := (tree_at tr).
#[local] Abbreviation top := (top tr).
#[local] Abbreviation ptr := (ptr tr).
#[local] Abbreviation nil := (Rb.nil tr).
#[local] Abbreviation rep := (rep tr).

(** [x->parent = p], where [x] may be [nil]. *)
Lemma set_parent_run h q p t :
  nil_cell tr h -> NoDup (nil :: inorder t) -> rep h q t ->
  exists h', wr (set_parent p) (ptr t) h = Ret (tt, h') /\ rep h' p t /\ nil_cell tr h' /\
    (t = E -> exists n, h' !! nil = Some n /\ parent n = p) /\
    (forall a, a <> ptr t -> h' !! a = h !! a).
Proof using Type.
  intros (np & nx & ny & Hnil) [Hni Hnd]%NoDup_cons Hrep. destruct t as [|c l a r]; cbn [RbInv.ptr].
  - eexists. split; [by apply wr_run|]. split_and!; [done|..].
    + eexists _, _, _. apply lookup_insert_eq.
    + intros _. eexists. split; [apply lookup_insert_eq|done].
    + intros a Ha. by apply lookup_insert_ne.
  - assert (Ha := Hrep). cbn [RbInv.rep] in Ha. destruct Ha as [Ha _].
    eexists. split; [by apply wr_run|]. split_and!; [by eapply rep_set_parent| |done|].
    + eexists _, _, _. rewrite lookup_insert_ne by set_solver. done.
    + intros b Hb. by apply lookup_insert_ne.
Qed.

Lemma ptr_in t : ptr t ∈ nil :: inorder t.
Proof using Type. destruct t; cbn; set_solver. Qed.

(** The node [y], which has a child missing, is taken out and its other child [x]
    put in its place. *)
Lemma unlink_run h k c l y r :
  tree_at h (plug k (T c l y r)) -> (l = E \/ r = E) ->
  let x := match l with E => r | _ => l end in
  exists h', (wr (set_parent (top k)) (ptr x) ;; link_child L (top k) y (ptr x)) h = Ret (tt, h') /\
    tree_at h' (plug k x) /\ h' !! y = h !! y /\
    (x = E -> exists n, h' !! nil = Some n /\ parent n = top k) /\
    (forall a, a ∉ nil :: root tr :: inorder (plug k (T c l y r)) -> h' !! a = h !! a).
Proof using Type.
  intros (Hnd & Hnil & Hk & Ht)%tree_at_plug Hlr x. cbn [RbInv.ptr RbInv.rep] in Hk, Ht.
  destruct Ht as (Hy & Hl & Hr). assert (Hx : rep h y x) by (unfold x; by destruct l).
  assert (Hperm : inorder (T c l y r) ≡ₚ y :: inorder x).
  { unfold x. cbn [inorder]. destruct l; [done|]. destruct Hlr as [?| ->]; [done|].
    cbn [inorder]. by rewrite <- Permutation_cons_append. }
  rewrite Hperm in Hnd. pose proof (focus_zone _ _ _ Hnd) as (Hnd1 & Hndk & Hnt & Hni & Hzone).
  destruct (Hzone y) as (Hyn & Hyr & Hyt & Hyp); [set_solver|].
  apply NoDup_cons in Hnd1 as [Hyx Hndx].
  destruct (set_parent_run h y (top k) x Hnil) as (h1 & Hr1 & Hx1 & Hnil1 & HE1 & Ho1);
    [constructor; [set_solver|done]|done|].
  rewrite (bind_step _ _ _ _ _ Hr1).
  assert (Hpx : ptr x <> y /\ ptr x ∉ root tr :: path_addrs k).
  { destruct x as [|cx xl xa xr] eqn:Ex; cbn [RbInv.ptr].
    - split; [done|]. clear - Hnd. apply NoDup_cons in Hnd as [Hnd _]. set_solver.
    - destruct (Hzone xa) as (? & ? & ? & ?); [cbn; set_solver|]. split; [set_solver|set_solver]. }
  destruct Hpx as [Hpy Hpk].
  assert (Hk1 : rep_path tr h1 y k).
  { revert Hk. apply rep_path_frame. intros a Ha. apply Ho1. by intros ->. }
  destruct (rep_path_top _ _ _ _ Hk1) as [n Hn].
  eexists. split; [by apply link_child_run|].
  assert (Htx : top k ∉ inorder x).
  { intros Hin. destruct (Hzone (top k)) as (_ & _ & ? & _); [set_solver|done]. }
  split_and!.
  - apply tree_at_plug. split_and!.
    + clear - Hnd. cbn [app] in Hnd. rewrite !NoDup_cons, !not_elem_of_cons in *. tauto.
    + by apply nil_cell_insert.
    + by apply (rep_path_relink _ _ y).
    + by apply rep_insert.
  - rewrite lookup_insert_ne by done. by apply Ho1.
  - intros HE. destruct (HE1 HE) as (nn & Hnn & Hp). exists nn. by rewrite lookup_insert_ne.
  - intros a Ha. assert (Hat : top k <> a).
    { intros <-. apply Ha. right. apply top_in. }
    rewrite lookup_insert_ne by done. apply Ho1. intros ->. apply Ha.
    pose proof (ptr_in x) as Hpin. rewrite plug_addrs, Hperm. clear - Hpin. set_solver.
Qed.

(** The node [y] takes the place, the links and the colour of [z]. *)
Lemma replace_run h k c l z r y yn :
  tree_at h (plug k (T c l z r)) -> l <> E -> h !! y = Some yn ->
  y ∉ nil :: root tr :: inorder (plug k (T c l z r)) ->
  exists h', (zn <- rd z ;;
     link_child L (parent zn) z y ;;
     zn <- rd z ;;
     wr (set_parent y) (right zn) ;;
     wr (set_parent y) (left zn) ;;
     zn <- rd z ;;
     wr (fun _ => zn) y) h = Ret (tt, h') /\
    tree_at h' (plug k (T c l y r)) /\
    (r = E -> exists n, h' !! nil = Some n /\ parent n = y) /\ (r <> E -> h' !! nil = h !! nil) /\
    (forall a, a ∉ y :: nil :: root tr :: inorder (plug k (T c l z r)) -> h' !! a = h !! a).
Proof using Type.
  intros (Hnd & Hnil & Hk & Ht)%tree_at_plug HlE Hy Hin. cbn [RbInv.ptr RbInv.rep] in Hk, Ht.
  destruct Ht as (Hz & Hl & Hr). rewrite plug_addrs in Hin.
  assert (Hperm : inorder (T c l z r) ≡ₚ z :: inorder l ++ inorder r).
  { cbn [inorder]. by rewrite <- Permutation_middle. }
  rewrite Hperm in Hnd, Hin. pose proof (focus_zone _ _ _ Hnd) as (Hnd1 & Hndk & Hnt & Hni & Hzone).
  destruct (Hzone z) as (Hzn & Hzr & Hzt & Hzp); [set_solver|].
  apply NoDup_cons in Hnd1 as [Hzlr (Hndl & Hdj & Hndr)%NoDup_app].
  rewrite (rd_step _ _ _ _ Hz). cbn [parent].
  destruct (rep_path_top _ _ _ _ Hk) as [n Hn].
  rewrite (bind_step _ _ _ _ _ (link_child_run tr L h z y k n Hzn Hzp Hk Hn)).
  set (h1 := <[top k := relink k y n]> h).
  assert (Hk1 : rep_path tr h1 y k) by (by apply (rep_path_relink _ _ z)).
  assert (Hz1 : h1 !! z = Some (mk_node c (top k) (ptr l) (ptr r))) by (unfold h1; by rewrite lookup_insert_ne).
  rewrite (rd_step _ _ _ _ Hz1). cbn [left right].
  assert (Htz : top k ∉ z :: inorder l ++ inorder r).
  { intros Ha. destruct (Hzone (top k) Ha) as (_ & _ & ? & _). done. }
  destruct (set_parent_run h1 z y r) as (h2 & Hr2 & Hrr2 & Hnil2 & HE2 & Ho2);
    [by apply nil_cell_insert|constructor; [set_solver|done]|apply rep_insert; [set_solver|done]|].
  rewrite (bind_step _ _ _ _ _ Hr2).
  assert (Hll : ptr l ∈ inorder l) by (destruct l; [done|cbn; set_solver]).
  assert (Hpr : ptr r ∉ inorder l).
  { destruct r as [|cr rl ra rr]; cbn [RbInv.ptr]; [set_solver|]. intros Ha.
    apply (Hdj ra Ha). cbn. set_solver. }
  assert (Hl2 : rep h2 z l).
  { apply (rep_frame tr h1); [|apply rep_insert; [set_solver|done]].
    intros a Ha. apply Ho2. by intros ->. }
  destruct (set_parent_run h2 z y l) as (h3 & Hr3 & Hll3 & Hnil3 & _ & Ho3);
    [done|constructor; [set_solver|done]|done|].
  rewrite (bind_step _ _ _ _ _ Hr3).
  assert (Hpl : forall a, a ∈ inorder r -> a <> ptr l).
  { intros a Ha ->. by apply (Hdj (ptr l)). }
  assert (Hsep : forall a, a ∈ z :: y :: root tr :: path_addrs k -> a <> ptr l /\ a <> ptr r).
  { assert (Hone : forall a b, a ∈ z :: y :: root tr :: path_addrs k ->
      b ∈ nil :: inorder l ++ inorder r -> a <> b).
    { clear - Hnd Hin Hzlr Hzone Hzn. intros a b Ha Hb ->.
      apply elem_of_cons in Hb as [->|Hb]; [|destruct (Hzone b) as (? & ? & ? & ?); [set_solver|]];
        clear Hzone; apply NoDup_cons in Hnd as [Hnd _]; set_solver. }
    intros a Ha. split; (apply Hone; [done|]).
    - pose proof (ptr_in l). set_solver.
    - pose proof (ptr_in r). set_solver. }
  assert (Hz3 : h3 !! z = Some (mk_node c (top k) (ptr l) (ptr r))).
  { destruct (Hsep z) as [??]; [set_solver|]. by rewrite Ho3, Ho2. }
  rewrite (rd_step _ _ _ _ Hz3).
  assert (Hyt : y <> top k) by (pose proof (top_path tr k); clear - Hin H; set_solver).
  assert (Hy3 : h3 !! y = Some yn).
  { destruct (Hsep y) as [??]; [set_solver|]. rewrite Ho3, Ho2 by done. unfold h1.
    by rewrite lookup_insert_ne. }
  assert (Hyn : nil <> y /\ (y ∉ inorder l) /\ (y ∉ inorder r) /\ y <> root tr /\ y ∉ path_addrs k)
    by (clear - Hin; set_solver).
  destruct Hyn as (Hyn & Hyl & Hyr & Hyroot & Hyp).
  eexists. split; [by apply wr_run|]. split_and!.
  - apply tree_at_plug. split_and!.
    + cbn [inorder]. rewrite <- Permutation_middle. clear - Hnd Hin.
      cbn [app] in *. rewrite !NoDup_cons, !not_elem_of_cons in *. destruct_and!. split_and!; done.
    + by apply nil_cell_insert.
    + cbn [RbInv.ptr]. apply rep_path_insert; [done..|]. revert Hk1. apply rep_path_frame.
      intros a Ha. destruct (Hsep a) as [??]; [set_solver|]. by rewrite Ho3, Ho2.
    + cbn [RbInv.rep]. rewrite lookup_insert_eq. split; [done|]. split; (apply rep_insert; [done|]); [done|].
      revert Hrr2. apply rep_frame. intros a Ha. apply Ho3. by apply Hpl.
  - intros HE. destruct (HE2 HE) as (nn & Hnn & Hp). exists nn. rewrite lookup_insert_ne by done.
    rewrite Ho3 by (intros Hq; rewrite <- Hq in Hll; set_solver). done.
  - intros HE. rewrite lookup_insert_ne by done.
    rewrite Ho3 by (intros Hq; rewrite <- Hq in Hll; set_solver).
    rewrite Ho2 by (destruct r; [done|cbn; set_solver]). unfold h1. by rewrite lookup_insert_ne.
  - intros a Ha. rewrite plug_addrs, Hperm in Ha. pose proof (top_path tr k) as Htop.
    pose proof (ptr_in l) as Hil. pose proof (ptr_in r) as Hir.
    assert (a <> y /\ a <> ptr l /\ a <> ptr r /\ a <> top k) as (? & ? & ? & ?).
    { clear - Ha Htop Hil Hir. split_and!; intros ->; set_solver. }
    rewrite lookup_insert_ne, Ho3, Ho2 by done. unfold h1. by rewrite lookup_insert_ne.
Qed.

(** [rb_delete_fixup] after a black node has been taken out. *)
Lemma fixup_run h k x c n :
  tree_at h (plug k x) -> (x = E -> exists m, h !! nil = Some m /\ parent m = top k) ->
  rb c n x -> path_ok false (S n) k ->
  exists h', rb_delete_fixup tr (ptr x) h = Ret (tt, h') /\ tree_at h' (delete_fix x k) /\
    forall a, a ∉ root tr :: inorder (plug k x) -> h' !! a = h !! a.
Proof using Type.
  intros Ht Hnil Hrb Hk. unfold rb_delete_fixup. rewrite bind_get, (rd_step _ _ _ _ (ta_root _ _ _ Ht)).
  cbn [left]. assert (Hev : ev tr h (inorder (plug k x)) h (plug k x)) by done.
  destruct (fixup_loop_run tr h _ k (S (size h)) h x c n (ptr (plug k x)) Hev) as (h' & Hr & Hev');
    [done..| |done|].
  - pose proof (tree_size _ _ _ Ht). pose proof (length_path k x). lia.
  - exists h'. split; [done|]. destruct Hev' as [H1 _ H3]. done.
Qed.

(** The colours after a node with a child missing has been taken out. *)
Lemma recolour_run h k c l y r m :
  let x := match l with E => r | _ => l end in
  tree_at h (plug k x) -> (x = E -> exists n, h !! nil = Some n /\ parent n = top k) ->
  rb false m (plug k (T c l y r)) ->
  exists h', (if negb c then rb_delete_fixup tr (ptr x) else ret tt) h = Ret (tt, h') /\
    tree_at h' (if c then plug k x else delete_fix x k) /\
    forall a, a ∉ root tr :: inorder (plug k x) -> h' !! a = h !! a.
Proof using Type.
  intros x Ht Hnil (c' & n & Hk & Hrb)%plug_rb_inv. destruct c; cbn [negb]; [by exists h|].
  inversion Hrb as [| |n0 cl ? ? cr ? Hl Hr]; subst.
  assert (exists cx, rb cx n0 x) as [cx Hx] by (unfold x; destruct l; eauto).
  by apply (fixup_run h k x cx n0).
Qed.

Lemma cut_min_extreme c l a r k c' y x k' :
  cut_min c l a r k = (c', y, x, k') -> y = extreme L a l.
Proof using Type.
  revert c a r k. induction l as [|cl ll IH al lr _]; intros c a r k; cbn [cut_min extreme].
  - by intros [= -> -> -> ->].
  - apply IH.
Qed.

(** A node with at most one child. *)
Lemma delete_one_run h k c l z r m :
  tree_at h (plug k (T c l z r)) -> (l = E \/ r = E) -> rb false m (plug k (T c l z r)) ->
  let x := match l with E => r | _ => l end in
  exists h', Rb.rb_delete tr z h = Ret (tt, h') /\
    tree_at h' (if c then plug k x else delete_fix x k) /\
    forall a, a ∉ nil :: root tr :: inorder (plug k (T c l z r)) -> h' !! a = h !! a.
Proof using Type.
  intros Ht Hlr Hrb x.
  destruct (unlink_run h k c l z r Ht Hlr) as (h1 & Hr1 & Ht1 & Hz1 & Hn1 & Ho1). fold x in Hr1, Ht1, Hn1.
  destruct (recolour_run h1 k c l z r m Ht1 Hn1 Hrb) as (h2 & Hr2 & Ht2 & Ho2). fold x in Hr2, Ht2, Ho2.
  pose proof (node_cell tr h k L _ _ _ _ Ht) as Hz. cbn [cell] in Hz.
  assert (Hl : tree_at h (plug (F L c z r :: k) l)) by exact Ht.
  assert (Hr : tree_at h (plug (F R c z l :: k) r)) by exact Ht.
  unfold Rb.rb_delete. rewrite (rd_step _ _ _ _ Hz). cbn [left right].
  rewrite (ptr_nil_test _ _ _ _ Hl), (ptr_nil_test _ _ _ _ Hr).
  assert (Hor : is_E l || is_E r = true).
  { destruct Hlr; subst; [done|apply orb_true_r]. }
  rewrite Hor, bind_ret, (rd_step _ _ _ _ Hz). cbn [left right parent].
  rewrite (ptr_nil_test _ _ _ _ Hl).
  assert (Hx : (if negb (is_E l) then ptr l else ptr r) = ptr x).
  { unfold x. by destruct l. }
  rewrite Hx. rewrite assert_true.
  2:{ rewrite (node_not_nil _ _ _ _ _ _ _ Ht). apply tree_at_plug in Ht as (Hnd & _).
      rewrite (proj2 (Z.eqb_neq z (root tr))); [done|]. intros ->.
      apply NoDup_cons in Hnd as [_ [Hnd _]%NoDup_cons]. apply Hnd. cbn [inorder]. set_solver. }
  rewrite <- Hz1 in Hz. rewrite (bind_step2 _ _ _ _ _ _ Hr1), (rd_step _ _ _ _ Hz).
  cbn [red]. rewrite Z.eqb_refl, bind_ret, Hr2.
  exists h2. split; [done|]. split; [done|]. intros a Ha. rewrite Ho2; [by apply Ho1|].
  rewrite plug_addrs in Ha |- *. unfold x. cbn [inorder] in Ha. destruct l; set_solver.
Qed.

Lemma plug_not_E f k t : plug (f :: k) t <> E.
Proof using Type.
  revert f t. induction k as [|g k IH]; intros [d c a s] t; rewrite plug_cons; [by destruct d|apply IH].
Qed.

(** Naming a node on the path anew keeps the colours. *)
Lemma rename_rb m k1 d c z s k2 y t :
  rb false m (plug (k1 ++ F d c z s :: k2) t) ->
  exists m', rb false m' (plug (k1 ++ F d c y s :: k2) t).
Proof using Type.
  rewrite !plug_app, !plug_cons. intros (c' & n & Hk & Ht)%plug_rb_inv.
  apply (plug_rb c' n); [done|]. pose proof (rb_Td_color _ _ _ _ _ _ _ Ht) as ->.
  apply rb_Td in Ht. by apply rb_Td.
Qed.

(** A node with two children: its successor [y] takes its place. *)
Lemma delete_two_run h k c l z kp cy y x m :
  let kz := kp ++ F R c z l :: k in
  tree_at h (plug kz (T cy E y x)) -> l <> E -> rb false m (plug kz (T cy E y x)) ->
  rb_tree_successor tr z h = Ret (y, h) ->
  exists h', Rb.rb_delete tr z h = Ret (tt, h') /\
    tree_at h' (let k' := kp ++ F R c y l :: k in if cy then plug k' x else delete_fix x k') /\
    forall a, a ∉ nil :: root tr :: inorder (plug kz (T cy E y x)) -> h' !! a = h !! a.
Proof using Type.
  intros kz Hty HlE Hrb Hsucc.
  assert (Heq : forall t, plug kz t = plug k (T c l z (plug kp t))).
  { intros t. unfold kz. by rewrite plug_app, plug_cons. }
  assert (HrE : is_E (plug kp (T cy E y x)) = false).
  { destruct kp as [|f kp]; [done|]. pose proof (plug_not_E f kp (T cy E y x)). by destruct (plug (f :: kp) (T cy E y x)). }
  assert (Ht := Hty). rewrite Heq in Ht. pose proof (node_cell tr h k L _ _ _ _ Ht) as Hz. cbn [cell] in Hz.
  unfold Rb.rb_delete. rewrite (rd_step _ _ _ _ Hz). cbn [left right].
  rewrite (ptr_nil_test _ _ (F L c z (plug kp (T cy E y x)) :: k) l Ht).
  rewrite (ptr_nil_test _ _ (F R c z l :: k) (plug kp (T cy E y x)) Ht), HrE.
  assert (HlE' : is_E l = false) by (by destruct l). rewrite HlE'. cbn [orb].
  rewrite (bind_step _ _ _ _ _ Hsucc).
  destruct (unlink_run h kz cy E y x Hty ltac:(auto)) as (h1 & Hr1 & Ht1 & Hy1 & Hn1 & Ho1).
  assert (Hyc : h !! y = Some (mk_node cy (top kz) nil (ptr x))) by exact (node_cell tr h kz L _ _ _ _ Hty).
  rewrite (rd_step _ _ _ _ Hyc). cbn [left right parent]. rewrite Z.eqb_refl. cbn [negb].
  pose proof Hty as (Hnd & _)%tree_at_plug. unfold kz in Hnd. rewrite path_addrs_app in Hnd.
  cbn [inorder app path_addrs] in Hnd.
  assert (Hsep : y <> root tr /\ y <> nil /\ y <> z /\ y ∉ inorder x ++ path_addrs kp ++ inorder l ++ path_addrs k).
  { clear - Hnd. rewrite !NoDup_cons in Hnd. set_solver. }
  destruct Hsep as (Hyr & Hyn & Hyz & Hyo).
  rewrite assert_true by (by rewrite !(proj2 (Z.eqb_neq _ _))).
  rewrite (bind_step2 _ _ _ _ _ _ Hr1). rewrite <- Hy1 in Hyc. rewrite (rd_step _ _ _ _ Hyc).
  cbn [red]. rewrite (proj2 (Z.eqb_neq y z)) by done.
  rewrite Heq in Ht1.
  destruct (replace_run h1 k c l z (plug kp x) y _ Ht1 HlE Hyc) as (h2 & Hr2 & Ht2 & HnE & HnT & Ho2).
  { rewrite plug_addrs. cbn [inorder]. rewrite plug_addrs. clear - Hyr Hyn Hyz Hyo. set_solver. }
  rewrite (bind_step _ _ _ _ _ Hr2).
  destruct (rename_rb _ _ _ _ _ _ _ y _ Hrb) as [m' Hrb'].
  destruct (recolour_run h2 (kp ++ F R c y l :: k) cy E y x m') as (h3 & Hr3 & Ht3 & Ho3).
  - by rewrite plug_app, plug_cons.
  - intros HE. destruct kp as [|f kp].
    + apply HnE. by subst x.
    + rewrite HnT by apply plug_not_E. by apply Hn1.
  - done.
  - exists h3. split; [exact Hr3|]. split; [done|]. intros a Ha.
    rewrite plug_addrs in Ha. unfold kz in Ha. rewrite path_addrs_app in Ha.
    cbn [inorder app path_addrs] in Ha.
    rewrite Ho3, Ho2, Ho1; [done|..].
    + rewrite plug_addrs. unfold kz. rewrite path_addrs_app. clear - Ha. cbn [inorder path_addrs]. set_solver.
    + rewrite plug_addrs. cbn [inorder]. rewrite plug_addrs. clear - Ha. set_solver.
    + rewrite plug_addrs, path_addrs_app. cbn [path_addrs]. clear - Ha. set_solver.
Qed.

Lemma rb_delete_run h t z m :
  tree_at h t -> rb false m t -> z ∈ inorder t ->
  exists h', Rb.rb_delete tr z h = Ret (tt, h') /\ tree_at h' (delete t z) /\
    forall a, a ∉ nil :: root tr :: inorder t -> h' !! a = h !! a.
Proof using Type.
  intros Ht Hrb Hz. destruct (in_focus tr h t z Ht Hz) as (l1 & l2 & Heq & Hnd).
  destruct (find_inv t z l1 l2 Heq Hnd) as (k & c & l & r & Hf & -> & _). clear Heq Hnd.
  unfold delete. rewrite Hf.
  destruct l as [|cl ll la lr]; [apply (delete_one_run h k c E z r m); auto|].
  destruct r as [|cr rl ra rr]; [apply (delete_one_run h k c (T cl ll la lr) z E m); auto|].
  pose proof (successor_run tr h k c _ z _ Ht) as Hsucc. cbn [extreme] in Hsucc.
  destruct (cut_min cr rl ra rr []) as [[[cy y] x] kp] eqn:Hcut.
  rewrite (cut_min_app _ _ _ _ (_ :: k)), Hcut.
  rewrite <- (cut_min_extreme _ _ _ _ _ _ _ _ _ Hcut) in Hsucc.
  apply cut_min_plug in Hcut. cbn [plug fold_left] in Hcut.
  assert (Hplug : plug k (T c (T cl ll la lr) z (T cr rl ra rr)) =
    plug (kp ++ F R c z (T cl ll la lr) :: k) (T cy E y x)).
  { by rewrite plug_app, plug_cons, <- Hcut. }
  rewrite Hplug in *. by apply (delete_two_run h k c _ z kp cy y x m).
Qed.
End Delete.
End RbDel.
