(* ===== verification/RbSpec.v ===== *)
(** * Red-black trees: what their clients rely on

    [rb_list tr h l]: the heap holds a red-black tree whose nodes in order are [l].
    The operations of kern/libs/rb_tree.c keep it and act on [l] as on a sorted list;
    walks and searches read it.  At the end, the interface of the address spaces
    ([Vmm.RbTree]) is discharged by the functions the code computes. *)

From stdpp Require Import sorting.
From S2P Require Import Prelude Vmm Rb RbPure RbInv RbDel.
Open Scope Z_scope.

Module RbSpec.
Import Rb RbPure RbInv RbDel.

Definition rb_list (tr : rb_tree) (h : heap) (l : list Z) : Prop :=
  exists t m, tree_at tr h t /\ rb false m t /\ inorder t = l.

(** ** A heap with a small tree, for the witnesses *)

Definition demo_tree : rb_tree := mk_tree (fun a b => a - b) 1 2.

Definition demo_heap : heap :=
  {[ 1 := mk_node false 1 1 1; 2 := mk_node false 1 20 1;
     10 := mk_node true 20 1 1; 20 := mk_node false 2 10 30; 30 := mk_node true 20 1 1;
     25 := mk_node false 0 0 0 ]}.

Definition demo : tree := T false (T true E 10 E) 20 (T true E 30 E).

Lemma demo_tree_at : tree_at demo_tree demo_heap demo.
Proof.
  split.
  - cbn. repeat constructor; set_solver.
  - exists 1, 1, 1. reflexivity.
  - reflexivity.
  - cbn. split_and!; reflexivity.
Qed.

Lemma demo_rb : rb false 1 demo.
Proof. repeat econstructor. Qed.

Lemma demo_list : rb_list demo_tree demo_heap [10; 20; 30].
Proof. exists demo, 1%nat. split_and!; [apply demo_tree_at|apply demo_rb|reflexivity]. Qed.

(** ** Claims *)

(** C12: [rb_insert] of a node that is not in the tree returns, no assertion failing and
    no pointer followed that holds no node; the tree is a red-black tree again; the node
    stands after the nodes that compare less or equal and before the greater ones; and
    nothing else in the heap changes. *)
Theorem rb_insert_spec tr h l1 l2 node n :
  rb_list tr h (l1 ++ l2) ->
  Forall (fun a => compare tr a node <= 0) l1 -> Forall (fun a => 0 < compare tr a node) l2 ->
  h !! node = Some n -> node ∉ nil tr :: root tr :: l1 ++ l2 ->
  exists h', Rb.rb_insert tr node h = Ret (tt, h') /\ rb_list tr h' (l1 ++ node :: l2) /\
    forall a, a ∉ node :: root tr :: l1 ++ l2 -> h' !! a = h !! a.
Proof.
  intros (t & m & Ht & Hrb & Hl) H1 H2 Hn Hin. rewrite <- Hl in Hin.
  destruct (rb_insert_run tr h t node n Ht (rb_color _ _ _ Hrb) Hn Hin) as (h' & Hr & Ht' & Ho).
  exists h'. split; [done|]. split; [|by rewrite <- Hl].
  destruct (insert_rb (compare tr) t node m Hrb) as [m' Hrb'].
  exists (insert (compare tr) t node), m'. split_and!; [done|done|]. by apply inorder_insert.
Qed.

Lemma rb_insert_witness :
  exists h', Rb.rb_insert demo_tree 25 demo_heap = Ret (tt, h') /\
    rb_list demo_tree h' [10; 20; 25; 30] /\
    forall a, a ∉ [25; 2; 10; 20; 30] -> h' !! a = demo_heap !! a.
Proof.
  apply (rb_insert_spec demo_tree demo_heap [10; 20] [30] 25 (mk_node false 0 0 0)).
  - exact demo_list.
  - repeat constructor; cbn; lia.
  - repeat constructor; cbn; lia.
  - reflexivity.
  - cbn. set_solver.
Defined.

(** C9: [rb_delete] of a node of the tree returns, no assertion failing; the tree is a
    red-black tree again, without that node and with the others in the same order; and
    only cells of the tree and of its sentinels change. *)
Theorem rb_delete_spec tr h l1 z l2 :
  rb_list tr h (l1 ++ z :: l2) ->
  exists h', Rb.rb_delete tr z h = Ret (tt, h') /\ rb_list tr h' (l1 ++ l2) /\
    forall a, a ∉ nil tr :: root tr :: l1 ++ z :: l2 -> h' !! a = h !! a.
Proof.
  intros (t & m & Ht & Hrb & Hl).
  destruct (rb_delete_run tr h t z m Ht Hrb) as (h' & Hr & Ht' & Ho); [rewrite Hl; set_solver|].
  exists h'. split; [done|]. split; [|by rewrite <- Hl].
  destruct (delete_rb t z m Hrb) as [m' Hrb'].
  exists (delete t z), m'. split_and!; [done|done|]. apply inorder_delete; [done|].
  rewrite <- Hl. pose proof (ta_nodup _ _ _ Ht) as Hnd. by do 2 apply NoDup_cons in Hnd as [_ Hnd].
Qed.

Lemma rb_delete_witness :
  exists h', Rb.rb_delete demo_tree 20 demo_heap = Ret (tt, h') /\
    rb_list demo_tree h' [10; 30] /\
    forall a, a ∉ [1; 2; 10; 20; 30] -> h' !! a = demo_heap !! a.
Proof. apply (rb_delete_spec demo_tree demo_heap [10] 20 [30]). exact demo_list. Defined.

(** [rb_search] returns on every red-black tree: a node it returns is in the tree and
    compares equal to the key; when the nodes are in the order of their comparison with
    the key and one compares equal, it returns one.  The path it follows is at most twice
    the logarithm of the number of nodes: [2^height <= (size + 1)^2]. *)
Theorem rb_search_spec tr h l cmp :
  rb_list tr h l ->
  exists o t, rb_search tr cmp h = Ret (o, h) /\
    (forall x, o = Some x -> x ∈ l /\ cmp x = 0) /\
    (StronglySorted (fun a b => cmp a <= cmp b) l -> (exists x, x ∈ l /\ cmp x = 0) -> is_Some o) /\
    tree_at tr h t /\ (2 ^ height t <= S (length l) ^ 2)%nat.
Proof.
  intros (t & m & Ht & Hrb & <-). exists (search cmp t), t.
  split_and!; [by apply rb_search_run|by apply search_found| |done|by apply (rb_height_log m)].
  intros Hs (x & Hx & H0). by apply (search_complete cmp t x).
Qed.

Lemma rb_search_witness :
  exists o t, rb_search demo_tree (fun a => a - 30) demo_heap = Ret (o, demo_heap) /\
    (forall x, o = Some x -> x ∈ [10; 20; 30] /\ x - 30 = 0) /\
    (StronglySorted (fun a b => a - 30 <= b - 30) [10; 20; 30] ->
     (exists x, x ∈ [10; 20; 30] /\ x - 30 = 0) -> is_Some o) /\
    tree_at demo_tree demo_heap t /\ (2 ^ height t <= 4 ^ 2)%nat.
Proof. apply (rb_search_spec demo_tree demo_heap [10; 20; 30] (fun a => a - 30) demo_list). Defined.

(** [rb_node_next] and [rb_node_prev] of a node of the tree return its neighbours in
    the order of the tree, or [NULL] at the ends. *)
Theorem rb_walk_spec tr h l1 x l2 :
  rb_list tr h (l1 ++ x :: l2) ->
  rb_node_next tr x h = Ret (head l2, h) /\ rb_node_prev tr x h = Ret (last l1, h).
Proof.
  intros (t & m & Ht & _ & Hl).
  assert (Hx : x ∈ inorder t) by (rewrite Hl; set_solver).
  assert (Hnd : NoDup (l1 ++ x :: l2)).
  { rewrite <- Hl. pose proof (ta_nodup _ _ _ Ht) as Hnd. by do 2 apply NoDup_cons in Hnd as [_ Hnd]. }
  rewrite (rb_node_next_run tr h t x Ht Hx), (rb_node_prev_run tr h t x Ht Hx).
  by rewrite (next_head t x l1 l2), (prev_last t x l1 l2).
Qed.

Lemma rb_walk_witness :
  rb_node_next demo_tree 20 demo_heap = Ret (Some 30, demo_heap) /\
  rb_node_prev demo_tree 20 demo_heap = Ret (Some 10, demo_heap).
Proof. apply (rb_walk_spec demo_tree demo_heap [10] 20 [30] demo_list). Defined.

(** C36: the self-test [check_tree] accepts every red-black tree whose nodes are in the
    order of the tree's comparison, for enough fuel, and returns the number of black
    nodes on a path, the sentinel included. *)
Theorem check_tree_accepts tr h t m fuel :
  tree_at tr h t -> rb false m t -> ordered tr t -> (height t < fuel)%nat ->
  check_tree tr fuel (ptr tr t) h = Ret (Z.of_nat m + 1, h).
Proof. intros Ht Hrb Ho Hf. by apply (check_tree_run tr h t [] false m fuel). Qed.

Lemma check_tree_witness : check_tree demo_tree 5 20 demo_heap = Ret (2, demo_heap).
Proof.
  apply (check_tree_accepts demo_tree demo_heap demo 1 5 demo_tree_at demo_rb).
  - unfold ordered. cbn. repeat constructor; cbn; lia.
  - cbn. lia.
Defined.

(** [rb_tree_create] gives an empty tree over two new nodes, which
    [rb_tree_destroy] gives back, or returns [NULL] with everything it had allocated
    given back, for every pattern of failures of [kmalloc]. *)
Theorem rb_tree_create_spec cmp s :
  NoDup (omap id (take 3 (kmallocs s))) ->
  (forall a, Some a ∈ kmallocs s -> trees s !! a = None /\ nodes s !! a = None) ->
  exists o s', rb_tree_create (Some cmp) s = Ret (o, s') /\
    match o with
    | Some a => exists tr, trees s' !! a = Some tr /\ rb_list tr (nodes s') [] /\
        (forall b, b <> nil tr -> b <> root tr -> nodes s' !! b = nodes s !! b) /\
        exists s'', rb_tree_destroy a s' = Ret (tt, s'') /\ nodes s'' = nodes s /\ trees s'' = trees s
    | None => nodes s' = nodes s /\ trees s' = trees s
    end.
Proof.
  destruct s as [ns ts ks]. cbn [nodes trees kmallocs]. intros Hnd Hfresh.
  unfold rb_tree_create, rb_node_create, kmalloc, put_node, put_tree, kfree_node, kfree_tree.
  destruct ks as [|[a|] [|[b|] [|[c|] ks]]]; mrun; cbn [tail hd_error default from_option id nodes trees kmallocs];
    (eexists _, _; split; [reflexivity|]); cbn [nodes trees];
    try (split; [|rewrite ?delete_id by (by apply (Hfresh a); set_solver); done]; try done;
         rewrite ?delete_insert_id by (by apply (Hfresh b); set_solver); done).
  cbn in Hnd. rewrite !NoDup_cons, !not_elem_of_cons in Hnd. destruct Hnd as ((? & ? & _) & (? & _) & _).
  destruct (Hfresh a) as [Ha _]; [set_solver|]. destruct (Hfresh b) as [_ Hb]; [set_solver|].
  destruct (Hfresh c) as [_ Hc]; [set_solver|].
  exists (mk_tree cmp b c). rewrite lookup_insert_eq. split_and!; [done|..].
  - exists E, 0%nat. split_and!; [|constructor|done]. split; cbn [nil root].
    + repeat constructor; set_solver.
    + exists b, b, b. by rewrite lookup_insert_ne, lookup_insert_eq.
    + by rewrite lookup_insert_eq.
    + done.
  - cbn. intros x ? ?. by rewrite !lookup_insert_ne.
  - unfold rb_tree_destroy, get_tree, kfree_node, kfree_tree. mrun. cbn [trees nodes].
    rewrite lookup_insert_eq. eexists. split; [reflexivity|]. cbn [nodes trees root nil].
    rewrite !delete_insert_id by (rewrite ?lookup_insert_ne by done; done). done.
Qed.

Lemma rb_tree_create_witness :
  exists o s', rb_tree_create (Some (fun a b => a - b)) (mk_rbs ∅ ∅ [Some 5; Some 6; None]) = Ret (o, s') /\
    match o with
    | Some a => exists tr, trees s' !! a = Some tr /\ rb_list tr (nodes s') [] /\
        (forall b, b <> nil tr -> b <> root tr -> nodes s' !! b = (∅ : heap) !! b) /\
        exists s'', rb_tree_destroy a s' = Ret (tt, s'') /\ nodes s'' = ∅ /\ trees s'' = ∅
    | None => nodes s' = ∅ /\ trees s' = ∅
    end.
Proof.
  apply (rb_tree_create_spec (fun a b => a - b) (mk_rbs ∅ ∅ [Some 5; Some 6; None])).
  - cbn. repeat constructor; set_solver.
  - intros a _. split; apply lookup_empty.
Defined.

(** ** The interface of the address spaces *)

Fixpoint shape (t : tree) : Vmm.bintree :=
  match t with E => Vmm.Leaf | T _ l a r => Vmm.Node (shape l) a (shape r) end.

Lemma inorder_shape t : Vmm.inorder (shape t) = inorder t.
Proof. induction t as [|c l IHl a r IHr]; cbn; [done|]. by rewrite IHl, IHr. Qed.

(** The functions of [RbPure] are what [Vmm] asks of a tree. *)
#[export] Instance rb_tree_interface : Vmm.RbTree tree.
Proof.
  refine {| Vmm.rb_empty := E; Vmm.rb_insert := insert; Vmm.rb_delete := delete;
            Vmm.rb_node_prev := prev; Vmm.rb_shape := shape |}.
  - done.
  - intros cmp t x l1 l2. rewrite !inorder_shape. apply inorder_insert.
  - intros t x l1 l2. rewrite !inorder_shape. apply inorder_delete.
  - intros t x l1 l2. rewrite !inorder_shape. apply prev_last.
Defined.
End RbSpec.
