(* ===== verification/Swap.v ===== *)
(** * Page frames and the swap cache (kern/mm/pmm.h, kern/mm/swap.c)

    A page is named by its number.  A frame holds 1024 words, those not written being
    zero; a page descriptor has the fields of [struct Page] that page tables and the
    swap cache use.  The lists [swap_link] and [page_link] are lists of page numbers.

    [alloc_page] gives a free page or [NULL]: which one is the next of [answers], so
    every behaviour of the buddy allocator is covered; waiting for kswapd is not
    modelled.  The disk is a map from swap offsets to frames, and [io] holds what the
    next transfers return.  Locks ([swap_in_sem]) are left out: the routines here are
    run one at a time. *)

From S2P Require Import Prelude CString Vmm.
Open Scope Z_scope.

Module Swap.
Export Vmm(has, PGSIZE, USERBASE, USERTOP, KERNBASE, USER_ACCESS, ROUNDDOWN, ROUNDUP).

Record page := mk_page {
  ref : Z; PageReserved : bool; PageSwap : bool; PageActive : bool; PageDirty : bool; index : Z }.

Definition set_ref x p := mk_page x (PageReserved p) (PageSwap p) (PageActive p) (PageDirty p) (index p).
Definition set_swap b p := mk_page (ref p) (PageReserved p) b (PageActive p) (PageDirty p) (index p).
Definition set_active b p := mk_page (ref p) (PageReserved p) (PageSwap p) b (PageDirty p) (index p).
Definition set_dirty b p := mk_page (ref p) (PageReserved p) (PageSwap p) (PageActive p) b (index p).
Definition set_index x p := mk_page (ref p) (PageReserved p) (PageSwap p) (PageActive p) (PageDirty p) x.

(** The variables of swap.c; a list and its counter for each of [swap_list_t]. *)
Record swap_state := mk_swap {
  max_swap_offset : Z;
  active_list : list Z; nr_active_pages : Z;
  inactive_list : list Z; nr_inactive_pages : Z;
  mem_map : gmap Z Z;
  hash_list : gmap Z (list Z);
  next : Z; failed_counter : Z;
  disk : gmap Z (gmap Z Z); io : list Z }.

Record mem := mk_mem {
  npage : Z;
  frames : gmap Z (gmap Z Z);
  pages : gmap Z page;
  free : gset Z;
  answers : list (option Z);
  sw : swap_state }.

Definition upd_frames f m := mk_mem (npage m) (f (frames m)) (pages m) (free m) (answers m) (sw m).
Definition upd_pages f m := mk_mem (npage m) (frames m) (f (pages m)) (free m) (answers m) (sw m).
Definition upd_free f m := mk_mem (npage m) (frames m) (pages m) (f (free m)) (answers m) (sw m).
Definition upd_answers f m := mk_mem (npage m) (frames m) (pages m) (free m) (f (answers m)) (sw m).
Definition upd_sw f m := mk_mem (npage m) (frames m) (pages m) (free m) (answers m) (f (sw m)).

Definition set_active_list l n w := mk_swap (max_swap_offset w) l n (inactive_list w) (nr_inactive_pages w) (mem_map w) (hash_list w) (next w) (failed_counter w) (disk w) (io w).
Definition set_inactive_list l n w := mk_swap (max_swap_offset w) (active_list w) (nr_active_pages w) l n (mem_map w) (hash_list w) (next w) (failed_counter w) (disk w) (io w).
Definition set_mem_map f w := mk_swap (max_swap_offset w) (active_list w) (nr_active_pages w) (inactive_list w) (nr_inactive_pages w) (f (mem_map w)) (hash_list w) (next w) (failed_counter w) (disk w) (io w).
Definition set_hash_list f w := mk_swap (max_swap_offset w) (active_list w) (nr_active_pages w) (inactive_list w) (nr_inactive_pages w) (mem_map w) (f (hash_list w)) (next w) (failed_counter w) (disk w) (io w).
Definition set_next n w := mk_swap (max_swap_offset w) (active_list w) (nr_active_pages w) (inactive_list w) (nr_inactive_pages w) (mem_map w) (hash_list w) n (failed_counter w) (disk w) (io w).
Definition set_failed n w := mk_swap (max_swap_offset w) (active_list w) (nr_active_pages w) (inactive_list w) (nr_inactive_pages w) (mem_map w) (hash_list w) (next w) n (disk w) (io w).
Definition set_disk f l w := mk_swap (max_swap_offset w) (active_list w) (nr_active_pages w) (inactive_list w) (nr_inactive_pages w) (mem_map w) (hash_list w) (next w) (failed_counter w) (f (disk w)) l.

(** ** Page descriptors *)

Definition get_page (p : Z) : M mem page := m <- get ;; deref (pages m !! p).
Definition update_page (f : page -> page) (p : Z) : M mem unit :=
  pg <- get_page p ;; modify (upd_pages <[p := f pg]>).

Definition page_ref (p : Z) : M mem Z := pg <- get_page p ;; ret (ref pg).
Definition set_page_ref (p v : Z) : M mem unit := update_page (set_ref v) p.
(** The counts are atomic ints in the code; that they stay below 2^31 is assumed. *)
Definition page_ref_inc (p : Z) : M mem Z :=
  pg <- get_page p ;; update_page (set_ref (ref pg + 1)) p ;; ret (ref pg + 1).
Definition page_ref_dec (p : Z) : M mem Z :=
  pg <- get_page p ;; update_page (set_ref (ref pg - 1)) p ;; ret (ref pg - 1).

Definition alloc_page : M mem (option Z) :=
  m <- get ;;
  match answers m with
  | [] => ret None
  | o :: l =>
      modify (upd_answers (fun _ => l)) ;;
      match o with
      | Some p => if bool_decide (p ∈ free m) then modify (upd_free (.∖ {[p]})) ;; ret (Some p) else ret None
      | None => ret None
      end
  end.

(** [buddy_free_pages] of one page: it resets the reference count and the flags. *)
Definition free_page (p : Z) : M mem unit :=
  pg <- get_page p ;;
  assert (negb (PageReserved pg)) ;;
  update_page (fun pg => mk_page 0 false false false false (index pg)) p ;;
  modify (upd_free ({[p]} ∪.)).

(** ** Frames *)

Definition word (m : mem) (p i : Z) : Z := default 0 (default ∅ (frames m !! p) !! i).

(** [KADDR] and [page2kva]: panics beyond the end of memory. *)
Definition KADDR (p : Z) : M mem unit := m <- get ;; assert ((0 <=? p) && (p <? npage m)).

Definition rd_word (p i : Z) : M mem Z := KADDR p ;; m <- get ;; ret (word m p i).
Definition wr_word (p i w : Z) : M mem unit :=
  KADDR p ;; modify (upd_frames (fun fs => <[p := <[i := w]> (default ∅ (fs !! p))]> fs)).

(** [memset(page2kva(p), 0, PGSIZE)] and [memcpy] of whole pages. *)
Definition zero_frame (p : Z) : M mem unit := KADDR p ;; modify (upd_frames <[p := ∅]>).
Definition copy_frame (dst src : Z) : M mem unit :=
  KADDR dst ;; KADDR src ;;
  modify (upd_frames (fun fs => <[dst := default ∅ (fs !! src)]> fs)).

(** ** Swap entries *)

Definition SWAP_UNUSED : Z := 0xFFFF.
Definition MAX_SWAP_REF : Z := 0xFFFE.
Definition entry_hashfn (x : Z) : Z := CString.hash32 x 10.

Definition swap_offset (entry : Z) : M mem Z :=
  m <- get ;;
  let off := Z.shiftr entry 8 in
  assert ((0 <? off) && (off <? max_swap_offset (sw m))) ;; ret off.

Definition get_map (off : Z) : M mem Z := m <- get ;; deref (mem_map (sw m) !! off).
Definition set_map (off v : Z) : M mem unit := modify (upd_sw (set_mem_map <[off := v]>)).

Definition swap_active_list_add (p : Z) : M mem unit :=
  pg <- get_page p ;; assert (PageSwap pg) ;;
  update_page (set_active true) p ;;
  modify (upd_sw (fun w => set_active_list (active_list w ++ [p]) (nr_active_pages w + 1) w)).

Definition swap_inactive_list_add (p : Z) : M mem unit :=
  pg <- get_page p ;; assert (PageSwap pg) ;;
  update_page (set_active false) p ;;
  modify (upd_sw (fun w => set_inactive_list (inactive_list w ++ [p]) (nr_inactive_pages w + 1) w)).

(** The counter follows the flag; [list_del] takes the page off the list it is on. *)
Definition swap_list_del (p : Z) : M mem unit :=
  pg <- get_page p ;; assert (PageSwap pg) ;;
  modify (upd_sw (fun w =>
    let w := if PageActive pg then set_active_list (active_list w) (nr_active_pages w - 1) w
             else set_inactive_list (inactive_list w) (nr_inactive_pages w - 1) w in
    set_active_list (List.remove Z.eq_dec p (active_list w)) (nr_active_pages w)
      (set_inactive_list (List.remove Z.eq_dec p (inactive_list w)) (nr_inactive_pages w) w))).

(** [swap_page_del]: [page_link] is taken off its bucket. *)
Definition swap_page_del (p : Z) : M mem unit :=
  pg <- get_page p ;; assert (PageSwap pg) ;;
  update_page (set_swap false) p ;;
  modify (upd_sw (set_hash_list (fmap (List.remove Z.eq_dec p)))).

Definition swap_free_page (p : Z) : M mem unit :=
  pg <- get_page p ;; assert (PageSwap pg && (ref pg =? 0)) ;;
  swap_page_del p ;; free_page p.

Fixpoint hash_find_loop (l : list Z) (entry : Z) : M mem (option Z) :=
  match l with
  | [] => ret None
  | p :: l => pg <- get_page p ;; if index pg =? entry then ret (Some p) else hash_find_loop l entry
  end.

Definition swap_hash_find (entry : Z) : M mem (option Z) :=
  m <- get ;;
  l <- deref (hash_list (sw m) !! entry_hashfn entry) ;;
  hash_find_loop l entry.

(** The [do ... while] of [try_alloc_swap_entry]: [empty], [zero] and the new [next]. *)
Fixpoint scan_entries (fuel : nat) (next empty zero end_ : Z) : M mem (Z * Z * Z) :=
  match fuel with
  | O => out_of_fuel
  | S fuel =>
      c <- get_map next ;;
      m <- get ;;
      let empty := if c =? SWAP_UNUSED then next else empty in
      let zero := if (c =? 0) && (zero =? 0) then next else zero in
      let next := if next + 1 =? max_swap_offset (sw m) then 1 else next + 1 in
      if (empty =? 0) && negb (next =? end_) then scan_entries fuel next empty zero end_
      else ret (empty, zero, next)
  end.

Definition try_alloc_swap_entry : M mem Z :=
  m <- get ;;
  '(empty, zero, nxt) <- scan_entries (Z.to_nat (max_swap_offset (sw m))) (next (sw m)) 0 0 (next (sw m)) ;;
  modify (upd_sw (set_next nxt)) ;;
  entry <- (if negb (empty =? 0) then ret (Z.shiftl empty 8)
            else if negb (zero =? 0) then
              let entry := Z.shiftl zero 8 in
              o <- swap_hash_find entry ;;
              p <- deref o ;;
              pg <- get_page p ;; assert (PageSwap pg) ;;
              swap_list_del p ;;
              (if ref pg =? 0 then swap_free_page p else swap_page_del p) ;;
              set_map zero SWAP_UNUSED ;;
              ret entry
            else ret 0) ;;
  (if entry =? 0 then modify (upd_sw (fun w => set_failed (u32 (failed_counter w + 1)) w)) else ret tt) ;;
  ret entry.

Definition swap_page_add (p entry : Z) : M mem bool :=
  pg <- get_page p ;; assert (negb (PageSwap pg)) ;;
  entry' <- (if entry =? 0 then
               e <- try_alloc_swap_entry ;;
               if e =? 0 then ret 0
               else
                 off <- swap_offset e ;; c <- get_map off ;;
                 assert (c =? SWAP_UNUSED) ;;
                 set_map off 0 ;; update_page (set_dirty true) p ;; ret e
             else ret entry) ;;
  if entry' =? 0 then ret false
  else
    update_page (set_swap true) p ;;
    update_page (set_index entry') p ;;
    m <- get ;;
    l <- deref (hash_list (sw m) !! entry_hashfn entry') ;;
    modify (upd_sw (set_hash_list <[entry_hashfn entry' := p :: l]>)) ;;
    ret true.

Definition swap_remove_entry (entry : Z) : M mem unit :=
  off <- swap_offset entry ;;
  c <- get_map off ;;
  assert (0 <? c) ;;
  set_map off (c - 1) ;;
  if c - 1 =? 0 then
    o <- swap_hash_find entry ;;
    match o with
    | Some p =>
        pg <- get_page p ;;
        if negb (ref pg =? 0) then ret tt
        else swap_list_del p ;; swap_free_page p ;; set_map off SWAP_UNUSED
    | None => set_map off SWAP_UNUSED
    end
  else ret tt.

Definition swap_page_count (p : Z) : M mem Z :=
  pg <- get_page p ;;
  if negb (PageSwap pg) then ret 0
  else off <- swap_offset (index pg) ;; c <- get_map off ;; assert (0 <=? c) ;; ret c.

(** [mem_map] holds [unsigned short]s. *)
Definition swap_duplicate (entry : Z) : M mem unit :=
  off <- swap_offset entry ;;
  c <- get_map off ;;
  assert ((0 <=? c) && (c <? MAX_SWAP_REF)) ;;
  set_map off (c + 1).

(** ** Swapping in *)

Definition next_io : M mem Z :=
  m <- get ;;
  modify (upd_sw (fun w => set_disk id (tail (io w)) w)) ;;
  ret (default 0 (List.head (io (sw m)))).

Definition swapfs_read (entry p : Z) : M mem Z :=
  off <- swap_offset entry ;; KADDR p ;;
  r <- next_io ;;
  (if r =? 0 then
     m <- get ;; modify (upd_frames <[p := default ∅ (disk (sw m) !! off)]>)
   else ret tt) ;;
  ret r.

Definition swapfs_write (entry p : Z) : M mem Z :=
  off <- swap_offset entry ;; KADDR p ;;
  r <- next_io ;;
  (if r =? 0 then
     m <- get ;;
     modify (upd_sw (fun w => set_disk <[off := default ∅ (frames m !! p)]> (io w) w))
   else ret tt) ;;
  ret r.

(** The error code and [*pagep]. *)
Definition swap_in_page (entry : Z) : M mem (Z * Z) :=
  off <- swap_offset entry ;;
  c <- get_map off ;;
  assert (0 <=? c) ;;
  o <- swap_hash_find entry ;;
  match o with
  | Some p => ret (0, p)
  | None =>
      newpage <- alloc_page ;;
      o <- swap_hash_find entry ;;
      match o with
      | Some p =>
          match newpage with Some np => free_page np | None => ret tt end ;; ret (0, p)
      | None =>
          match newpage with
          | None => ret (- E_NO_MEM, 0)
          | Some p =>
              r <- swapfs_read entry p ;;
              if negb (r =? 0) then free_page p ;; ret (- E_SWAP_FAULT, 0)
              else
                swap_page_add p entry ;;
                swap_active_list_add p ;;
                ret (0, p)
          end
      end
  end.

(** The error code and [*store]. *)
Definition swap_copy_entry (entry : Z) : M mem (Z * Z) :=
  swap_duplicate entry ;;
  newpage <- alloc_page ;;
  r <- match newpage with
       | None => ret (- E_NO_MEM, 0)
       | Some np =>
           '(r, p) <- swap_in_page entry ;;
           if negb (r =? 0) then free_page np ;; ret (r, 0)
           else
             ok <- swap_page_add np 0 ;;
             if negb ok then free_page np ;; ret (- E_NO_MEM, 0)
             else
               swap_active_list_add np ;;
               copy_frame np p ;;
               pg <- get_page np ;;
               ret (0, index pg)
       end ;;
  swap_remove_entry entry ;;
  ret r.

(** ** Replacement *)

Definition try_free_swap_entry (entry : Z) : M mem bool :=
  off <- swap_offset entry ;;
  c <- get_map off ;;
  if c =? 0 then set_map off SWAP_UNUSED ;; ret true else ret false.

(** The entry after [x] in a list, none at the end. *)
Fixpoint entry_after (l : list Z) (x : Z) : option Z :=
  match l with [] => None | y :: l' => if y =? x then List.head l' else entry_after l' x end.

(** The body of the loop of [page_launder]: whether the page was freed. *)
Definition launder_page (p : Z) : M mem bool :=
  pg <- get_page p ;;
  assert (PageSwap pg && negb (PageActive pg)) ;;
  swap_list_del p ;;
  if negb (ref pg =? 0) then swap_active_list_add p ;; ret false
  else
    let entry := index pg in
    freed <- try_free_swap_entry entry ;;
    keep <- (if negb freed && PageDirty pg then
               update_page (set_dirty false) p ;;
               swap_duplicate entry ;;
               r <- swapfs_write entry p ;;
               (if negb (r =? 0) then update_page (set_dirty true) p else ret tt) ;;
               off <- swap_offset entry ;;
               c <- get_map off ;; set_map off (c - 1) ;;
               pg <- get_page p ;;
               if negb (ref pg =? 0) then swap_active_list_add p ;; ret true
               else if PageDirty pg then swap_inactive_list_add p ;; ret true
               else try_free_swap_entry entry ;; ret false
             else ret false) ;;
    if (keep : bool) then ret false else swap_free_page p ;; ret true.

Fixpoint launder_loop (maxscan : nat) (le : option Z) (free_count : Z) : M mem Z :=
  match maxscan, le with
  | S maxscan, Some p =>
      m <- get ;;
      let le := entry_after (inactive_list (sw m)) p in
      b <- launder_page p ;;
      launder_loop maxscan le (if (b : bool) then free_count + 1 else free_count)
  | _, _ => ret free_count
  end.

Definition page_launder : M mem Z :=
  m <- get ;;
  launder_loop (Z.to_nat (nr_inactive_pages (sw m))) (List.head (inactive_list (sw m))) 0.

Fixpoint refill_loop (maxscan : nat) (le : option Z) : M mem unit :=
  match maxscan, le with
  | S maxscan, Some p =>
      m <- get ;;
      let le := entry_after (active_list (sw m)) p in
      pg <- get_page p ;;
      assert (PageSwap pg && PageActive pg) ;;
      (if ref pg =? 0 then swap_list_del p ;; swap_inactive_list_add p else ret tt) ;;
      refill_loop maxscan le
  | _, _ => ret tt
  end.

Definition refill_inactive_scan : M mem unit :=
  m <- get ;;
  refill_loop (Z.to_nat (nr_active_pages (sw m))) (List.head (active_list (sw m))).

End Swap.
