(* ===== verification/Pmm.v ===== *)
(** * Page tables (kern/mm/pmm.c)

    A page directory is the number of its frame, and a pointer to an entry of a
    directory or table is a frame and an index.  Invalidating the TLB is an
    instruction of the machine with no effect on this state. *)

From S2P Require Import Prelude Vmm Swap.
Open Scope Z_scope.

Module Pmm.
Import Swap.

Definition PTSIZE : Z := PGSIZE * 1024.
Definition PTE_P : Z := 0x001.
Definition PTE_W : Z := 0x002.
Definition PTE_U : Z := 0x004.
Definition PTE_A : Z := 0x020.
Definition PTE_D : Z := 0x040.
Definition PTE_SWAP : Z := Z.lor PTE_A PTE_D.
Definition PTE_USER : Z := Z.lor (Z.lor PTE_U PTE_W) PTE_P.

Definition PDX (la : Z) : Z := Z.land (Z.shiftr la 22) 0x3FF.
Definition PTX (la : Z) : Z := Z.land (Z.shiftr la 12) 0x3FF.
Definition PPN (la : Z) : Z := Z.shiftr la 12.
(** [~0xFFF] in 32 bits. *)
Definition PTE_ADDR (pte : Z) : Z := Z.land pte 0xFFFFF000.

Definition page2pa (p : Z) : Z := Z.shiftl p 12.
Definition pa2page (pa : Z) : M mem Z := m <- get ;; assert (PPN pa <? npage m) ;; ret (PPN pa).
Definition pte2page (pte : Z) : M mem Z := assert (has pte PTE_P) ;; pa2page (PTE_ADDR pte).
Definition pde2page (pde : Z) : M mem Z := pa2page (PTE_ADDR pde).

Definition rd_pte (ptep : Z * Z) : M mem Z := rd_word (fst ptep) (snd ptep).
Definition wr_pte (ptep : Z * Z) (w : Z) : M mem unit := wr_word (fst ptep) (snd ptep) w.

Definition get_pte (pgdir la : Z) (create : bool) : M mem (option (Z * Z)) :=
  pde <- rd_word pgdir (PDX la) ;;
  ok <- (if has pde PTE_P then ret true
         else if negb create then ret false
         else
           o <- alloc_page ;;
           match o with
           | None => ret false
           | Some p =>
               set_page_ref p 1 ;;
               zero_frame p ;;
               wr_word pgdir (PDX la) (Z.lor (Z.lor (Z.lor (page2pa p) PTE_U) PTE_W) PTE_P) ;;
               ret true
           end) ;;
  if (ok : bool) then
    pde <- rd_word pgdir (PDX la) ;;
    KADDR (PPN (PTE_ADDR pde)) ;;
    ret (Some (PPN (PTE_ADDR pde), PTX la))
  else ret None.

(** The page and [*ptep_store]. *)
Definition get_page (pgdir la : Z) : M mem (option Z * option (Z * Z)) :=
  o <- get_pte pgdir la false ;;
  match o with
  | None => ret (None, None)
  | Some ptep =>
      pte <- rd_pte ptep ;;
      if has pte PTE_P then p <- pa2page pte ;; ret (Some p, Some ptep) else ret (None, Some ptep)
  end.

Definition page_remove_pte (pgdir la : Z) (ptep : Z * Z) : M mem unit :=
  pte <- rd_pte ptep ;;
  if has pte PTE_P then
    p <- pte2page pte ;;
    pg <- Swap.get_page p ;;
    (if negb (PageSwap pg) then
       n <- page_ref_dec p ;; if n =? 0 then free_page p else ret tt
     else
       (if has pte PTE_D then update_page (set_dirty true) p else ret tt) ;;
       page_ref_dec p ;; ret tt) ;;
    wr_pte ptep 0
  else if negb (pte =? 0) then
    swap_remove_entry pte ;; wr_pte ptep 0
  else ret tt.

Definition page_remove (pgdir la : Z) : M mem unit :=
  o <- get_pte pgdir la false ;;
  match o with Some ptep => page_remove_pte pgdir la ptep | None => ret tt end.

Definition page_insert (pgdir p la perm : Z) : M mem Z :=
  o <- get_pte pgdir la true ;;
  match o with
  | None => ret (- E_NO_MEM)
  | Some ptep =>
      page_ref_inc p ;;
      pte <- rd_pte ptep ;;
      (if negb (pte =? 0) then
         same <- (if has pte PTE_P then q <- pte2page pte ;; ret (q =? p) else ret false) ;;
         if (same : bool) then page_ref_dec p ;; ret tt
         else page_remove_pte pgdir la ptep
       else ret tt) ;;
      wr_pte ptep (Z.lor (Z.lor (page2pa p) PTE_P) perm) ;;
      ret 0
  end.

Definition pgdir_alloc_page (pgdir la perm : Z) : M mem (option Z) :=
  o <- alloc_page ;;
  match o with
  | None => ret None
  | Some p =>
      r <- page_insert pgdir p la perm ;;
      if negb (r =? 0) then free_page p ;; ret None else ret (Some p)
  end.

(** The three range loops are [do ... while (start != 0 && start < end)]; [next] is
    where the next round starts. *)

Fixpoint unmap_loop (fuel : nat) (pgdir start end_ : Z) : M mem unit :=
  match fuel with
  | O => out_of_fuel
  | S fuel =>
      o <- get_pte pgdir start false ;;
      next <- match o with
              | None => ret (ROUNDDOWN (u32 (start + PTSIZE)) PTSIZE)
              | Some ptep =>
                  pte <- rd_pte ptep ;;
                  (if negb (pte =? 0) then page_remove_pte pgdir start ptep else ret tt) ;;
                  ret (u32 (start + PGSIZE))
              end ;;
      if negb (next =? 0) && (next <? end_) then unmap_loop fuel pgdir next end_ else ret tt
  end.

(** Rounds enough for a range: one per page. *)
Definition range_fuel (start end_ : Z) : nat := S (Z.to_nat ((end_ - start) / PGSIZE)).

Definition unmap_range (pgdir start end_ : Z) : M mem unit :=
  assert ((start mod PGSIZE =? 0) && (end_ mod PGSIZE =? 0)) ;;
  assert (USER_ACCESS start end_) ;;
  unmap_loop (range_fuel start end_) pgdir start end_.

Fixpoint exit_loop (fuel : nat) (pgdir start end_ : Z) : M mem unit :=
  match fuel with
  | O => out_of_fuel
  | S fuel =>
      let pde_idx := PDX start in
      pde <- rd_word pgdir pde_idx ;;
      (if has pde PTE_P then
         p <- pde2page pde ;; free_page p ;; wr_word pgdir pde_idx 0
       else ret tt) ;;
      let next := u32 (start + PTSIZE) in
      if negb (next =? 0) && (next <? end_) then exit_loop fuel pgdir next end_ else ret tt
  end.

Definition exit_range (pgdir start end_ : Z) : M mem unit :=
  assert ((start mod PGSIZE =? 0) && (end_ mod PGSIZE =? 0)) ;;
  assert (USER_ACCESS start end_) ;;
  exit_loop (range_fuel start end_) pgdir (ROUNDDOWN start PTSIZE) end_.

(** One entry of [copy_range], which is not zero: the error code. *)
Definition copy_pte (to from start : Z) (share : bool) (ptep : Z * Z) : M mem Z :=
  o <- get_pte to start true ;;
  match o with
  | None => ret (- E_NO_MEM)
  | Some nptep =>
      pte <- rd_pte ptep ;;
      npte <- rd_pte nptep ;;
      assert (negb (pte =? 0) && (npte =? 0)) ;;
      if has pte PTE_P then
        let perm := Z.land pte PTE_USER in
        p <- pte2page pte ;;
        perm <- (if negb share && has pte PTE_W then
                   let perm := Z.ldiff perm PTE_W in
                   page_insert from p start (Z.lor perm (Z.land pte PTE_SWAP)) ;; ret perm
                 else ret perm) ;;
        r <- page_insert to p start perm ;;
        assert (r =? 0) ;;
        ret 0
      else
        swap_duplicate pte ;;
        wr_pte nptep pte ;;
        ret 0
  end.

Fixpoint copy_loop (fuel : nat) (to from start end_ : Z) (share : bool) : M mem Z :=
  match fuel with
  | O => out_of_fuel
  | S fuel =>
      o <- get_pte from start false ;;
      '(r, next) <- match o with
              | None => ret (0, ROUNDDOWN (u32 (start + PTSIZE)) PTSIZE)
              | Some ptep =>
                  pte <- rd_pte ptep ;;
                  r <- (if negb (pte =? 0) then copy_pte to from start share ptep else ret 0) ;;
                  ret (r, u32 (start + PGSIZE))
              end ;;
      if negb (r =? 0) then ret r
      else if negb (next =? 0) && (next <? end_) then copy_loop fuel to from next end_ share else ret 0
  end.

Definition copy_range (to from start end_ : Z) (share : bool) : M mem Z :=
  assert ((start mod PGSIZE =? 0) && (end_ mod PGSIZE =? 0)) ;;
  assert (USER_ACCESS start end_) ;;
  copy_loop (range_fuel start end_) to from start end_ share.

End Pmm.
