(* ===== verification/PmmInv.v ===== *)
(** * Page tables: reference counts and address maps

    [inv m D T A]: the directories [D] and their tables [T] in memory [m] hold the
    address map [A], which sends a directory and a page number to an entry; every page
    frame counts the entries that map it, every swap slot the entries that name it,
    and the swap cache is in order.  The routines of kern/mm/pmm.c act on [A] as on a
    finite map and keep [inv]. *)

From S2P Require Import Prelude CString Vmm Swap Pmm.
Open Scope Z_scope.

Module PmmInv.
Import Swap Pmm.

(** ** Entries as bit patterns *)

Definition present (w : Z) : bool := has w PTE_P.
Definition frame_of (w : Z) : Z := PPN (PTE_ADDR w).
Definition slot_of (w : Z) : Z := Z.shiftr w 8.

(** The entry [page2pa(p) | PTE_P | perm]. *)
Definition entry (p perm : Z) : Z := Z.lor (Z.lor (page2pa p) PTE_P) perm.

Lemma has_bit w k : 0 <= k -> has w (2 ^ k) = Z.testbit w k.
Proof.
  intros Hk. unfold has. destruct (Z.testbit w k) eqn:Hb.
  - apply negb_true_iff, Z.eqb_neq. intros H0.
    apply (f_equal (fun x => Z.testbit x k)) in H0.
    rewrite Z.land_spec, Z.pow2_bits_true, Z.bits_0, Hb in H0 by done. done.
  - apply negb_false_iff, Z.eqb_eq. apply Z.bits_inj_0. intros n.
    rewrite Z.land_spec. destruct (Z.eq_dec k n) as [->|Hne]; [by rewrite Hb|].
    by rewrite Z.pow2_bits_false, andb_false_r.
Qed.

Lemma present_bit w : present w = Z.testbit w 0.
Proof. exact (has_bit w 0 ltac:(lia)). Qed.

Lemma present_entry p perm : present (entry p perm) = true.
Proof.
  rewrite present_bit. unfold entry. rewrite !Z.lor_spec.
  change (Z.testbit PTE_P 0) with true. by rewrite orb_true_r.
Qed.

Lemma frame_bits w n : 0 <= n < 20 -> Z.testbit (frame_of w) n = Z.testbit w (n + 12).
Proof.
  intros Hn. unfold frame_of, PPN, PTE_ADDR. rewrite Z.shiftr_spec, Z.land_spec by lia.
  assert (Hm : Z.testbit 0xFFFFF000 (n + 12) = true).
  { change 0xFFFFF000 with (Z.shiftl (Z.ones 20) 12). rewrite Z.shiftl_spec, Z.ones_spec_low by lia. done. }
  by rewrite Hm, andb_true_r.
Qed.

Lemma high_bits x n k : 0 <= x < 2 ^ n -> 0 <= n <= k -> Z.testbit x k = false.
Proof.
  intros Hx Hn. destruct (Z.eq_dec x 0) as [->|]; [apply Z.bits_0|].
  apply Z.bits_above_log2; [lia|]. apply Z.log2_lt_pow2; [lia|].
  apply (Z.lt_le_trans _ (2 ^ n)); [lia|]. apply Z.pow_le_mono_r; lia.
Qed.

Lemma frame_range w : 0 <= frame_of w < 2 ^ 20.
Proof.
  unfold frame_of, PPN, PTE_ADDR. rewrite Z.shiftr_div_pow2 by lia.
  assert (0 <= Z.land w 0xFFFFF000 < 2 ^ 32).
  { split; [apply Z.land_nonneg; lia|].
    destruct (Z.eq_dec (Z.land w 0xFFFFF000) 0) as [->|Hne]; [lia|].
    apply Z.log2_lt_pow2; [pose proof (proj2 (Z.land_nonneg w 0xFFFFF000) ltac:(lia)); lia|].
    destruct (Z.lt_ge_cases (Z.log2 (Z.land w 0xFFFFF000)) 32) as [|Hge]; [done|].
    exfalso. pose proof (Z.bit_log2 (Z.land w 0xFFFFF000)) as Hb.
    rewrite Z.land_spec, (high_bits 0xFFFFF000 32), andb_false_r in Hb by lia.
    pose proof (proj2 (Z.land_nonneg w 0xFFFFF000) ltac:(lia)). by specialize (Hb ltac:(lia)). }
  split; [apply Z.div_pos; lia|apply Z.div_lt_upper_bound; lia].
Qed.

Lemma frame_entry p perm : 0 <= p < 2 ^ 20 -> 0 <= perm < 4096 -> frame_of (entry p perm) = p.
Proof.
  intros Hp Hperm. apply Z.bits_inj'. intros n Hn.
  destruct (Z.lt_ge_cases n 20) as [Hlt|Hge].
  - rewrite frame_bits by lia. unfold entry, page2pa. rewrite !Z.lor_spec, Z.shiftl_spec by lia.
    rewrite (high_bits PTE_P 12), (high_bits perm 12) by (unfold PTE_P; lia).
    rewrite !orb_false_r. f_equal. lia.
  - rewrite (high_bits (frame_of (entry p perm)) 20), (high_bits p 20); [done|lia..| |lia].
    apply frame_range.
Qed.

Lemma entry_nonzero p perm : entry p perm <> 0.
Proof. intros H. pose proof (present_entry p perm) as Hp. by rewrite H in Hp. Qed.

Lemma slot_shift off : 0 <= off -> slot_of (Z.shiftl off 8) = off /\ present (Z.shiftl off 8) = false.
Proof.
  intros Ho. unfold slot_of. rewrite Z.shiftr_shiftl_l by lia. split; [apply Z.shiftl_0_r|].
  rewrite present_bit, Z.shiftl_spec_low by lia. done.
Qed.

(** ** Counting entries *)

Section Count.
Context (P : Z -> bool).

(** The number of entries of an address map that satisfy [P]. *)
Definition count (A : gmap (Z * Z) Z) : Z :=
  Z.of_nat (size (filter (fun kw => P (snd kw) = true) A)).

Lemma count_nonneg A : 0 <= count A.
Proof. unfold count. lia. Qed.

Lemma count_insert A k w :
  A !! k = None -> count (<[k := w]> A) = (if P w then 1 else 0) + count A.
Proof.
  intros Hk. unfold count. destruct (P w) eqn:Hw.
  - rewrite map_filter_insert_True by done. rewrite map_size_insert_None; [lia|].
    apply map_lookup_filter_None. by left.
  - rewrite map_filter_insert_False by (cbn; congruence). rewrite delete_id by done. lia.
Qed.

Lemma count_delete A k w :
  A !! k = Some w -> count (delete k A) = count A - (if P w then 1 else 0).
Proof.
  intros Hk. pose proof (count_insert (delete k A) k w (lookup_delete_eq _ _)) as H.
  rewrite insert_delete_id in H by done. lia.
Qed.

Lemma count_pos A k w : A !! k = Some w -> P w = true -> 0 < count A.
Proof.
  intros Hk Hw. pose proof (count_delete A k w Hk) as H. rewrite Hw in H.
  pose proof (count_nonneg (delete k A)). lia.
Qed.

Lemma count_none A : (forall k w, A !! k = Some w -> P w = false) -> count A = 0.
Proof.
  intros H. unfold count. rewrite (proj2 (map_empty (filter _ A))); [done|]. intros k.
  apply map_lookup_filter_None. right. intros w Hk Hw. cbn in Hw. rewrite (H k w Hk) in Hw. done.
Qed.

Lemma count_mono A B : A ⊆ B -> count A <= count B.
Proof.
  intros H. unfold count. apply Nat2Z.inj_le, map_subseteq_size.
  apply map_subseteq_spec. intros k w. rewrite !map_lookup_filter_Some. intros [Hk Hw].
  split; [by apply (lookup_weaken A)|done].
Qed.

(** Putting [w] in place of whatever is at [k]. *)
Lemma count_put A k w :
  count (<[k := w]> A) =
  (if P w then 1 else 0) + count A - match A !! k with Some w0 => if P w0 then 1 else 0 | None => 0 end.
Proof.
  destruct (A !! k) as [w0|] eqn:Hk.
  - rewrite <- insert_delete_eq, count_insert by apply lookup_delete_eq.
    rewrite (count_delete A k w0) by done. lia.
  - rewrite count_insert by done. lia.
Qed.
End Count.

Definition maps_to (p w : Z) : bool := present w && (frame_of w =? p).
Definition swaps_to (off w : Z) : bool := negb (present w) && (slot_of w =? off).

(** ** The invariant *)

(** Entries of a directory below [USERTOP]. *)
Definition NUPDE : Z := 704.

(** A page that is neither a directory nor a table. *)
Definition data_page (D : gset Z) (T : gmap (Z * Z) Z) (p : Z) : Prop :=
  (p ∉ D) /\ forall k, T !! k <> Some p.

(** The tables in memory hold the address map. *)
Record tables_ok (m : mem) (D : gset Z) (T : gmap (Z * Z) Z) (A : gmap (Z * Z) Z) : Prop := {
  t_npage : 0 <= npage m <= 2 ^ 20;
  t_dir : forall d, d ∈ D -> 0 <= d < npage m /\ d ∉ free m;
  t_tab : forall d i t, T !! (d, i) = Some t ->
    d ∈ D /\ 0 <= i < NUPDE /\ 0 <= t < npage m /\ (t ∉ free m) /\ t ∉ D;
  t_inj : forall k k' t, T !! k = Some t -> T !! k' = Some t -> k = k';
  t_pde : forall d i, d ∈ D -> 0 <= i < NUPDE ->
    match T !! (d, i) with
    | Some t => present (word m d i) = true /\ frame_of (word m d i) = t
    | None => present (word m d i) = false
    end;
  t_pte : forall d i t j, T !! (d, i) = Some t -> 0 <= j < 1024 ->
    word m t j = default 0 (A !! (d, i * 1024 + j));
  t_dom : forall d v w, A !! (d, v) = Some w -> w <> 0 /\ 0 <= v /\ is_Some (T !! (d, v / 1024))
}.

(** The swap cache: which pages are in it and where they are linked. *)
Record cache_ok (m : mem) : Prop := {
  c_hash : forall e, exists l, hash_list (sw m) !! entry_hashfn e = Some l /\ NoDup l /\
    forall p, p ∈ l <-> exists pg, pages m !! p = Some pg /\ PageSwap pg = true /\
                          entry_hashfn (index pg) = entry_hashfn e;
  c_other : forall b l p, hash_list (sw m) !! b = Some l -> p ∈ l ->
    exists pg, pages m !! p = Some pg /\ PageSwap pg = true /\ entry_hashfn (index pg) = b;
  c_index : forall p pg, pages m !! p = Some pg -> PageSwap pg = true ->
    exists off c, index pg = Z.shiftl off 8 /\ 0 < off < max_swap_offset (sw m) /\
      mem_map (sw m) !! off = Some c /\ c <> SWAP_UNUSED;
  c_inj : forall p q pg qg, pages m !! p = Some pg -> pages m !! q = Some qg ->
    PageSwap pg = true -> PageSwap qg = true -> index pg = index qg -> p = q;
  c_active : NoDup (active_list (sw m)) /\ nr_active_pages (sw m) = Z.of_nat (length (active_list (sw m))) /\
    forall p, p ∈ active_list (sw m) <->
      exists pg, pages m !! p = Some pg /\ PageSwap pg = true /\ PageActive pg = true;
  c_inactive : NoDup (inactive_list (sw m)) /\ nr_inactive_pages (sw m) = Z.of_nat (length (inactive_list (sw m))) /\
    forall p, p ∈ inactive_list (sw m) <->
      exists pg, pages m !! p = Some pg /\ PageSwap pg = true /\ PageActive pg = false;
  (** an unreferenced slot is kept by its page *)
  c_zero : forall off, mem_map (sw m) !! off = Some 0 ->
    exists p pg, pages m !! p = Some pg /\ PageSwap pg = true /\ index pg = Z.shiftl off 8;
  c_map : forall off, 0 < off < max_swap_offset (sw m) -> exists c, mem_map (sw m) !! off = Some c /\ 0 <= c <= SWAP_UNUSED
}.

(** Reference counts: [ext] and [sext] are the references other than those of [A]
    (shared memory, pages being worked on). *)
Record counts_ok (m : mem) (D : gset Z) (T : gmap (Z * Z) Z) (A : gmap (Z * Z) Z) (ext sext : Z -> Z) : Prop := {
  n_ref : forall p pg, data_page D T p -> pages m !! p = Some pg -> ref pg = count (maps_to p) A + ext p;
  n_slot : forall off c, mem_map (sw m) !! off = Some c ->
    (if c =? SWAP_UNUSED then 0 else c) = count (swaps_to off) A + sext off;
  n_ext : forall p, 0 <= ext p /\ 0 <= sext p;
  n_free : forall p, p ∈ free m -> 0 <= p < npage m /\
    exists pg, pages m !! p = Some pg /\ ref pg = 0 /\ PageSwap pg = false /\ PageReserved pg = false;
  n_present : forall d v w, A !! (d, v) = Some w -> present w = true ->
    0 <= frame_of w < npage m /\ data_page D T (frame_of w) /\
    exists pg, pages m !! frame_of w = Some pg /\ PageReserved pg = false;
  n_swapped : forall d v w, A !! (d, v) = Some w -> present w = false ->
    w = Z.shiftl (slot_of w) 8 /\ 0 < slot_of w < max_swap_offset (sw m);
  n_table : forall d i t, T !! (d, i) = Some t -> exists pg, pages m !! t = Some pg /\ PageReserved pg = false;
  n_cached : forall p pg, pages m !! p = Some pg -> PageSwap pg = true ->
    data_page D T p /\ 0 <= p < npage m /\ PageReserved pg = false
}.

Record inv (m : mem) (D : gset Z) (T A : gmap (Z * Z) Z) (ext sext : Z -> Z) : Prop := {
  inv_tables : tables_ok m D T A;
  inv_cache : cache_ok m;
  inv_counts : counts_ok m D T A ext sext
}.

(** ** What each part depends on *)

Lemma tables_frame m m' D T A :
  npage m' = npage m -> frames m' = frames m ->
  (forall p, p ∈ free m' -> p ∈ free m \/ data_page D T p) ->
  tables_ok m D T A -> tables_ok m' D T A.
Proof.
  intros Hn Hf Hfree [H1 H2 H3 H4 H5 H6 H7].
  assert (Hw : forall p i, word m' p i = word m p i) by (intros; unfold word; by rewrite Hf).
  split; rewrite ?Hn; try done.
  - intros d Hd. destruct (H2 d Hd) as [? Hnf]. split; [done|].
    intros [?|[Hdp _]]%Hfree; [done|]. by apply Hdp.
  - intros d i t Ht. destruct (H3 d i t Ht) as (? & ? & ? & Hnf & ?).
    do 3 (split; [done|]). split; [|done]. intros [?|[_ Hdp]]%Hfree; [done|]. by apply (Hdp (d, i)).
  - intros d i. rewrite Hw. apply H5.
  - intros d i t j. rewrite Hw. apply H6.
Qed.

(** An entry written into a table: the address map with that entry put in. *)
Definition put_entry (k : Z * Z) (w : Z) (A : gmap (Z * Z) Z) : gmap (Z * Z) Z :=
  if w =? 0 then delete k A else <[k := w]> A.

Lemma lookup_put_entry k w A k' :
  default 0 (put_entry k w A !! k') = if bool_decide (k = k') then w else default 0 (A !! k').
Proof.
  unfold put_entry. destruct (Z.eqb_spec w 0) as [->|Hw]; case_bool_decide as Hk.
  - subst. by rewrite lookup_delete_eq.
  - by rewrite lookup_delete_ne.
  - subst. by rewrite lookup_insert_eq.
  - by rewrite lookup_insert_ne.
Qed.

Definition set_word (p i w : Z) (m : mem) : mem :=
  upd_frames (fun fs => <[p := <[i := w]> (default ∅ (fs !! p))]> fs) m.

Lemma word_set_word m p i w q j :
  word (set_word p i w m) q j = if bool_decide (p = q /\ i = j) then w else word m q j.
Proof.
  unfold word, set_word, upd_frames. cbn [frames]. case_bool_decide as Hc.
  - destruct Hc as [-> ->]. by rewrite lookup_insert_eq; cbn; rewrite lookup_insert_eq.
  - destruct (Z.eq_dec p q) as [->|Hp].
    + rewrite lookup_insert_eq. cbn. by rewrite lookup_insert_ne by naive_solver.
    + by rewrite lookup_insert_ne.
Qed.

Lemma tables_put m D T A d i t j w :
  tables_ok m D T A -> T !! (d, i) = Some t -> 0 <= j < 1024 ->
  tables_ok (set_word t j w m) D T (put_entry (d, i * 1024 + j) w A).
Proof.
  intros [H1 H2 H3 H4 H5 H6 H7] Ht Hj. destruct (H3 d i t Ht) as (Hd & Hi & Hnp & _ & HtD).
  split; try done.
  - intros d' i' Hd' Hi'. rewrite word_set_word, bool_decide_false by (intros [-> _]; done).
    by apply H5.
  - intros d' i' t' j' Ht' Hj'. rewrite word_set_word, lookup_put_entry.
    assert (Hiff : (d, i * 1024 + j) = (d', i' * 1024 + j') <-> t = t' /\ j = j').
    { split.
      - intros [= -> He]. assert (i = i' /\ j = j') as [-> ->] by lia. split; congruence.
      - intros [<- <-]. by pose proof (H4 _ _ _ Ht Ht') as [= -> ->]. }
    rewrite (bool_decide_ext _ _ Hiff). case_bool_decide; [done|]. by apply H6.
  - intros d' v w' Hv. unfold put_entry in Hv. destruct (Z.eqb_spec w 0) as [->|Hw].
    + apply lookup_delete_Some in Hv as [_ Hv]. by apply H7.
    + apply lookup_insert_Some in Hv as [[[= <- <-] <-]|[_ Hv]]; [|by apply H7].
      split_and!; [done|lia|]. rewrite Z.div_add_l, (Z.div_small j), Z.add_0_r by lia. by rewrite Ht.
Qed.

(** What the swap cache sees of a page. *)
Definition cached (pg : page) : option (bool * Z) :=
  if PageSwap pg then Some (PageActive pg, index pg) else None.

Lemma cached_iff m p (Q : bool -> Z -> Prop) :
  (exists pg, pages m !! p = Some pg /\ PageSwap pg = true /\ Q (PageActive pg) (index pg)) <->
  exists a i, pages m !! p ≫= cached = Some (a, i) /\ Q a i.
Proof.
  split.
  - intros (pg & Hpg & Hsw & HQ). exists (PageActive pg), (index pg). split; [|done].
    rewrite Hpg. cbn. unfold cached. by rewrite Hsw.
  - intros (a & i & Hc & HQ). destruct (pages m !! p) as [pg|]; [|done]. cbn in Hc. unfold cached in Hc.
    destruct (PageSwap pg) eqn:Hsw; [|done]. injection Hc as <- <-. eauto.
Qed.

Lemma cache_frame m m' :
  sw m' = sw m -> (forall p, pages m' !! p ≫= cached = pages m !! p ≫= cached) ->
  cache_ok m -> cache_ok m'.
Proof.
  intros Hs Hp Hc.
  assert (Hiff : forall p (Q : bool -> Z -> Prop),
    (exists pg, pages m !! p = Some pg /\ PageSwap pg = true /\ Q (PageActive pg) (index pg)) <->
    (exists pg, pages m' !! p = Some pg /\ PageSwap pg = true /\ Q (PageActive pg) (index pg))).
  { intros p Q. by rewrite !cached_iff, Hp. }
  destruct Hc as [H1 H2 H3 H4 H5 H6 H7 H8]. split; rewrite ?Hs; try done.
  - intros e. destruct (H1 e) as (l & Hl & Hnd & Hin). exists l. split_and!; [done..|].
    intros p. rewrite Hin. exact (Hiff p (fun _ i => entry_hashfn i = entry_hashfn e)).
  - intros b l p Hl Hin. apply (Hiff p (fun _ i => entry_hashfn i = b)). by apply (H2 b l).
  - intros p pg Hpg Hsw.
    destruct (proj2 (Hiff p (fun _ i => i = index pg))) as (pg' & Hpg' & Hsw' & <-); [eauto|].
    by apply (H3 p).
  - intros p q pg qg Hpg Hqg Hps Hqs Hi.
    destruct (proj2 (Hiff p (fun _ i => i = index pg))) as (pg' & Hpg' & Hsw' & Hi1); [eauto|].
    destruct (proj2 (Hiff q (fun _ i => i = index qg))) as (qg' & Hqg' & Hqw' & Hi2); [eauto|].
    apply (H4 p q pg' qg'); congruence.
  - destruct H5 as (? & ? & Hin). split_and!; [done..|]. intros p. rewrite Hin.
    exact (Hiff p (fun a _ => a = true)).
  - destruct H6 as (? & ? & Hin). split_and!; [done..|]. intros p. rewrite Hin.
    exact (Hiff p (fun a _ => a = false)).
  - intros off Hoff. destruct (H7 off Hoff) as (p & Hpg). exists p.
    by apply (Hiff p (fun _ i => i = Z.shiftl off 8)).
Qed.

(** ** Running the primitives *)

(** Run the first three calls of a sequence together. *)
Lemma bind_step3 {S A B C X} (m : M S A) (f : A -> M S B) (g : A -> B -> M S C) (h : C -> M S X) s c s' :
  bind m (fun a => bind (f a) (fun b => g a b)) s = Ret (c, s') ->
  bind m (fun a => bind (f a) (fun b => bind (g a b) h)) s = h c s'.
Proof.
  unfold bind. destruct (m s) as [[a s1]| |]; [|done|done].
  destruct (f a s1) as [[b s2]| |]; [|done|done]. by intros ->.
Qed.

Lemma get_page_step {B} m p pg (k : page -> M mem B) :
  Swap.pages m !! p = Some pg -> bind (Swap.get_page p) k m = k pg m.
Proof. intros H. unfold Swap.get_page, bind, get, deref, ret. by rewrite H. Qed.

Definition set_page (p : Z) (pg : page) (m : mem) : mem := upd_pages <[p := pg]> m.

Lemma update_page_run m p pg f :
  pages m !! p = Some pg -> update_page f p m = Ret (tt, set_page p (f pg) m).
Proof. intros H. unfold update_page. by rewrite (get_page_step _ _ _ _ H). Qed.

Lemma KADDR_run m p : 0 <= p < npage m -> KADDR p m = Ret (tt, m).
Proof.
  intros Hp. unfold KADDR. rewrite bind_get. unfold assert.
  by rewrite (proj2 (Z.leb_le 0 p)), (proj2 (Z.ltb_lt p (npage m))) by lia.
Qed.

Lemma rd_word_run m p i : 0 <= p < npage m -> rd_word p i m = Ret (word m p i, m).
Proof. intros Hp. unfold rd_word. by rewrite (bind_step _ _ _ _ _ (KADDR_run m p Hp)). Qed.

Lemma wr_word_run m p i w : 0 <= p < npage m -> wr_word p i w m = Ret (tt, set_word p i w m).
Proof. intros Hp. unfold wr_word. by rewrite (bind_step _ _ _ _ _ (KADDR_run m p Hp)). Qed.

Lemma pte2page_run m w :
  present w = true -> frame_of w < npage m -> pte2page w m = Ret (frame_of w, m).
Proof.
  intros Hw Hf. unfold pte2page, pa2page. fold (present w). rewrite Hw.
  unfold assert at 1. rewrite bind_ret, bind_get. unfold assert. fold (frame_of w).
  by rewrite (proj2 (Z.ltb_lt _ _) Hf).
Qed.

Lemma page_ref_dec_run m p pg :
  pages m !! p = Some pg -> page_ref_dec p m = Ret (ref pg - 1, set_page p (set_ref (ref pg - 1) pg) m).
Proof.
  intros H. unfold page_ref_dec. rewrite (get_page_step _ _ _ _ H).
  by rewrite (bind_step _ _ _ _ _ (update_page_run _ _ _ _ H)).
Qed.

Lemma page_ref_inc_run m p pg :
  pages m !! p = Some pg -> page_ref_inc p m = Ret (ref pg + 1, set_page p (set_ref (ref pg + 1) pg) m).
Proof.
  intros H. unfold page_ref_inc. rewrite (get_page_step _ _ _ _ H).
  by rewrite (bind_step _ _ _ _ _ (update_page_run _ _ _ _ H)).
Qed.

Definition freed_page (pg : page) : page := mk_page 0 false false false false (index pg).

Lemma free_page_run m p pg :
  pages m !! p = Some pg -> PageReserved pg = false ->
  free_page p m = Ret (tt, upd_free ({[p]} ∪.) (set_page p (freed_page pg) m)).
Proof.
  intros H Hr. unfold free_page. rewrite (get_page_step _ _ _ _ H), Hr.
  rewrite assert_true by done. by rewrite (bind_step _ _ _ _ _ (update_page_run _ _ _ _ H)).
Qed.

(** The contents of pages other than directories and tables. *)
Definition same_data (D : gset Z) (T : gmap (Z * Z) Z) (m m' : mem) : Prop :=
  forall q j, data_page D T q -> word m' q j = word m q j.

Lemma same_data_frames D T m m' : frames m' = frames m -> same_data D T m m'.
Proof. intros H q j _. unfold word. by rewrite H. Qed.

Lemma same_data_table D T k t j w m : T !! k = Some t -> same_data D T m (set_word t j w m).
Proof.
  intros HT q i [_ Hq]. rewrite word_set_word, bool_decide_false; [done|]. intros [-> _]. by apply (Hq k).
Qed.

Lemma data_page_sub D T T' q : T ⊆ T' -> data_page D T' q -> data_page D T q.
Proof. intros HT [HD Hq]. split; [done|]. intros k Hk. apply (Hq k). by apply (lookup_weaken T). Qed.

Lemma same_data_trans D T T' m1 m2 m3 :
  T ⊆ T' -> same_data D T m1 m2 -> same_data D T' m2 m3 -> same_data D T' m1 m3.
Proof. intros HT H H' q j Hq. rewrite H' by done. apply H. by apply (data_page_sub D T T'). Qed.

(** Pages that may be freed stay so. *)
Definition keeps (m m' : mem) : Prop := forall q qg, pages m !! q = Some qg -> PageReserved qg = false ->
  exists qg', pages m' !! q = Some qg' /\ PageReserved qg' = false.

Lemma keeps_refl m m' : pages m' = pages m -> keeps m m'.
Proof. intros H q qg Hq Hr. rewrite H. eauto. Qed.

Lemma keeps_trans m1 m2 m3 : keeps m1 m2 -> keeps m2 m3 -> keeps m1 m3.
Proof. intros H H' q qg Hq Hr. destruct (H q qg Hq Hr) as (qg' & Hq' & Hr'). by apply (H' q qg'). Qed.

Lemma keeps_put m m' p pg : pages m' = <[p := pg]> (pages m) -> PageReserved pg = false -> keeps m m'.
Proof.
  intros Hp Hres q qg Hq Hr. rewrite Hp. destruct (decide (p = q)) as [<-|].
  - exists pg. by rewrite lookup_insert_eq.
  - exists qg. by rewrite lookup_insert_ne.
Qed.

(** No page enters the swap cache. *)
Definition settles (m m' : mem) : Prop := keeps m m' /\ forall q qg', pages m' !! q = Some qg' -> PageSwap qg' = true ->
  exists qg, pages m !! q = Some qg /\ PageSwap qg = true /\ index qg = index qg'.

Lemma settles_refl m m' : pages m' = pages m -> settles m m'.
Proof. intros H. split; [by apply keeps_refl|]. rewrite H. eauto. Qed.

Lemma settles_trans m1 m2 m3 : settles m1 m2 -> settles m2 m3 -> settles m1 m3.
Proof.
  intros [H1 H2] [H3 H4]. split; [by apply (keeps_trans m1 m2)|]. intros q qg Hq Hs.
  destruct (H4 q qg Hq Hs) as (qg2 & Hq2 & Hs2 & <-). by apply H2.
Qed.

Lemma settles_put m m' p pg0 pg :
  pages m !! p = Some pg0 -> pages m' = <[p := pg]> (pages m) -> PageReserved pg = false ->
  (PageSwap pg = true -> PageSwap pg0 = true /\ index pg0 = index pg) -> settles m m'.
Proof.
  intros H0 Hp Hres Hs. split; [by apply (keeps_put m m' p pg)|]. intros q qg Hq Hqs. rewrite Hp in Hq.
  apply lookup_insert_Some in Hq as [[<- <-]|[_ Hq]]; [|eauto]. destruct (Hs Hqs). eauto.
Qed.

(** A page that nothing references, that caches no slot and that is not free: no one
    will ever free it. *)
Definition lost (m : mem) (q : Z) : Prop :=
  (q ∉ free m) /\ exists qg, pages m !! q = Some qg /\ ref qg = 0 /\ PageSwap qg = false.

(** Free pages stay free, and no page gets lost. *)
Definition no_loss (m m' : mem) : Prop := free m ⊆ free m' /\ forall q, lost m' q -> lost m q.

Lemma no_loss_refl m m' : pages m' = pages m -> free m' = free m -> no_loss m m'.
Proof. intros Hp Hf. unfold no_loss, lost. rewrite Hp, Hf. done. Qed.

Lemma no_loss_trans m1 m2 m3 : no_loss m1 m2 -> no_loss m2 m3 -> no_loss m1 m3.
Proof. intros [H1 H2] [H3 H4]. split; [set_solver|auto]. Qed.

Lemma no_loss_put m m' p pg :
  pages m' = <[p := pg]> (pages m) -> free m ⊆ free m' ->
  (ref pg = 0 -> PageSwap pg = false -> p ∈ free m') -> no_loss m m'.
Proof.
  intros Hp Hf Hpg. split; [done|]. intros q [Hq (qg & Hqg & Hr & Hs)]. rewrite Hp in Hqg.
  apply lookup_insert_Some in Hqg as [[<- <-]|[_ Hqg]]; [by destruct Hq; apply Hpg|].
  split; [set_solver|eauto].
Qed.

(** ** Dropping the reference of an entry *)

Section Drop.
Context (D : gset Z) (T A : gmap (Z * Z) Z) (ext sext : Z -> Z).

(** A mapped page counts the reference of the entry. *)
Lemma mapped_ref m k w pg :
  counts_ok m D T A ext sext -> A !! k = Some w -> present w = true -> pages m !! frame_of w = Some pg -> 0 < ref pg.
Proof using Type.
  intros Hc Hk Hw Hpg. destruct k as [d v].
  destruct (n_present _ _ _ _ _ _ Hc d v w Hk Hw) as (_ & Hdp & _).
  rewrite (n_ref _ _ _ _ _ _ Hc _ pg Hdp Hpg).
  pose proof (count_pos (maps_to (frame_of w)) A (d, v) w Hk) as Hpos.
  unfold maps_to in Hpos at 1. rewrite Hw, Z.eqb_refl in Hpos. specialize (Hpos eq_refl).
  pose proof (n_ext _ _ _ _ _ _ Hc (frame_of w)). lia.
Qed.

(** A mapped page is not free. *)
Lemma mapped_not_free m k w :
  counts_ok m D T A ext sext -> A !! k = Some w -> present w = true -> frame_of w ∉ free m.
Proof using Type.
  intros Hc Hk Hw Hin. destruct (n_free _ _ _ _ _ _ Hc _ Hin) as (_ & pg & Hpg & Href & _).
  pose proof (mapped_ref m k w pg Hc Hk Hw Hpg). lia.
Qed.

Lemma counts_drop m m' k w pg pg' :
  counts_ok m D T A ext sext -> A !! k = Some w -> present w = true ->
  let p := frame_of w in
  pages m !! p = Some pg -> npage m' = npage m -> sw m' = sw m -> pages m' = <[p := pg']> (pages m) ->
  ref pg' = ref pg - 1 -> PageReserved pg' = false ->
  (free m' = free m \/ free m' = {[p]} ∪ free m /\ ref pg' = 0 /\ PageSwap pg' = false) ->
  counts_ok m' D T (delete k A) ext sext.
Proof using Type.
  intros Hc Hk Hw p Hpg Hn Hs Hps Href Hres Hfree. destruct k as [d v].
  destruct (n_present _ _ _ _ _ _ Hc d v w Hk Hw) as (Hrange & Hdp & _).
  pose proof (mapped_not_free m (d, v) w Hc Hk Hw) as Hnf. fold p in Hrange, Hdp, Hnf.
  destruct Hc as [H1 H2 H3 H4 H5 H6 H7 H8].
  split; rewrite ?Hn, ?Hs; try done.
  - intros q qg Hq Hqg. rewrite (count_delete _ _ _ _ Hk). unfold maps_to at 2. rewrite Hw. cbn [andb].
    rewrite Hps in Hqg. apply lookup_insert_Some in Hqg as [[<- <-]|[Hne Hqg]].
    + fold p. rewrite Z.eqb_refl. pose proof (H1 p pg Hdp Hpg). lia.
    + fold p. rewrite (proj2 (Z.eqb_neq p q)) by done. pose proof (H1 q qg Hq Hqg). lia.
  - intros off c Hoff. rewrite (count_delete _ _ _ _ Hk). unfold swaps_to at 2. rewrite Hw. cbn [andb negb].
    rewrite Z.sub_0_r. by apply H2.
  - intros q Hq. assert (q ∈ free m -> q <> p) as Hne by (intros ? ->; done).
    destruct Hfree as [Hf|(Hf & Hr0 & Hsw0)]; rewrite Hf in Hq.
    + destruct (H4 q Hq) as (? & qg & Hqg & ?). split; [done|]. exists qg. rewrite Hps.
      rewrite lookup_insert_ne by (intros <-; by apply Hne). done.
    + apply elem_of_union in Hq as [->%elem_of_singleton|Hq].
      * split; [done|]. exists pg'. by rewrite Hps, lookup_insert_eq.
      * destruct (H4 q Hq) as (? & qg & Hqg & ?). split; [done|]. exists qg. rewrite Hps.
        rewrite lookup_insert_ne by (intros <-; by apply Hne). done.
  - intros d' v' w' [_ Hk']%lookup_delete_Some Hw'. destruct (H5 d' v' w' Hk' Hw') as (? & ? & qg & Hqg & ?).
    do 2 (split; [done|]). rewrite Hps. destruct (Z.eq_dec p (frame_of w')) as [<-|].
    + exists pg'. by rewrite lookup_insert_eq.
    + exists qg. by rewrite lookup_insert_ne.
  - intros d' v' w' [_ Hk']%lookup_delete_Some. by apply (H6 d' v').
  - intros d' i t Ht. destruct (H7 d' i t Ht) as (qg & Hqg & ?). exists qg. rewrite Hps.
    rewrite lookup_insert_ne; [done|]. intros <-. by apply (proj2 Hdp (d', i)).
  - intros q qg Hqg Hqs. rewrite Hps in Hqg.
    apply lookup_insert_Some in Hqg as [[<- <-]|[Hne Hqg]]; [done|by apply H8].
Qed.
End Drop.

(** ** The swap cache *)

Lemma swap_offset_run m w :
  0 < slot_of w < max_swap_offset (sw m) -> swap_offset w m = Ret (slot_of w, m).
Proof.
  intros H. unfold swap_offset. rewrite bind_get. fold (slot_of w).
  rewrite assert_true; [done|]. apply andb_true_intro. by rewrite !Z.ltb_lt.
Qed.

Lemma get_map_run m off c : mem_map (sw m) !! off = Some c -> get_map off m = Ret (c, m).
Proof. intros H. unfold get_map. rewrite bind_get. unfold deref. by rewrite H. Qed.

Lemma hash_find_loop_run m l e :
  (forall p, p ∈ l -> exists pg, pages m !! p = Some pg) ->
  exists o, hash_find_loop l e m = Ret (o, m) /\
    match o with
    | Some p => p ∈ l /\ exists pg, pages m !! p = Some pg /\ index pg = e
    | None => forall p pg, p ∈ l -> pages m !! p = Some pg -> index pg <> e
    end.
Proof.
  induction l as [|p l IH]; intros Hl; cbn [hash_find_loop].
  - exists None. split; [done|]. by intros p pg ?%not_elem_of_nil.
  - destruct (Hl p) as [pg Hpg]; [set_solver|]. rewrite (get_page_step _ _ _ _ Hpg).
    destruct (Z.eqb_spec (index pg) e) as [He|He].
    + exists (Some p). split; [done|]. split; [set_solver|eauto].
    + destruct IH as (o & Hr & Ho); [set_solver|]. exists o. split; [done|].
      destruct o as [q|]; [destruct Ho; split; [set_solver|done]|].
      intros q qg [->|Hq]%elem_of_cons Hqg; [congruence|by apply (Ho q)].
Qed.

(** [swap_hash_find] finds the page that caches a slot. *)
Lemma swap_hash_find_run m m1 e :
  cache_ok m -> hash_list (sw m1) = hash_list (sw m) -> pages m1 = pages m ->
  exists o, swap_hash_find e m1 = Ret (o, m1) /\
    match o with
    | Some p => exists pg, pages m !! p = Some pg /\ PageSwap pg = true /\ index pg = e
    | None => forall p pg, pages m !! p = Some pg -> PageSwap pg = true -> index pg <> e
    end.
Proof.
  intros Hc Hh Hp. destruct (c_hash _ Hc e) as (l & Hl & _ & Hin).
  unfold swap_hash_find. rewrite bind_get, Hh, Hl. unfold deref. rewrite bind_ret.
  destruct (hash_find_loop_run m1 l e) as (o & Hr & Ho).
  { intros p (pg & Hpg & _)%Hin. rewrite Hp. eauto. }
  exists o. split; [done|]. destruct o as [p|].
  - destruct Ho as [(pg & Hpg & Hsw & _)%Hin (pg' & Hpg' & Hi)]. rewrite Hp, Hpg in Hpg'.
    injection Hpg' as <-. eauto.
  - intros p pg Hpg Hsw Hi. apply (Ho p pg); [|by rewrite Hp|done]. apply Hin. exists pg.
    split_and!; [done|done|by rewrite Hi].
Qed.

Lemma elem_of_unlink (p q : Z) l : q ∈ List.remove Z.eq_dec p l <-> q ∈ l /\ q <> p.
Proof.
  induction l as [|x l IH]; cbn.
  - split; [by intros ?%not_elem_of_nil|]. intros [?%not_elem_of_nil _]. done.
  - destruct (Z.eq_dec p x) as [->|Hne]; rewrite ?elem_of_cons, IH; naive_solver.
Qed.

Lemma NoDup_unlink (p : Z) l : NoDup l -> NoDup (List.remove Z.eq_dec p l).
Proof.
  induction 1 as [|x l Hx Hnd IH]; cbn; [constructor|].
  destruct (Z.eq_dec p x); [done|]. constructor; [|done]. rewrite elem_of_unlink. tauto.
Qed.

Lemma length_unlink (p : Z) l : NoDup l ->
  Z.of_nat (length (List.remove Z.eq_dec p l)) =
  Z.of_nat (length l) - (if bool_decide (p ∈ l) then 1 else 0).
Proof.
  induction 1 as [|x l Hx Hnd IH]; cbn [List.remove length].
  - rewrite bool_decide_false by apply not_elem_of_nil. lia.
  - destruct (Z.eq_dec p x) as [->|Hne].
    + rewrite (bool_decide_true (x ∈ x :: l)) by set_solver.
      rewrite (bool_decide_false (x ∈ l)) in IH by done. lia.
    + cbn [length]. rewrite (bool_decide_ext (p ∈ x :: l) (p ∈ l)) by set_solver. lia.
Qed.

(** A page leaves the cache: it is unlinked and its slot is given up. *)
Definition uncache (p off : Z) (act : bool) (w : swap_state) : swap_state :=
  mk_swap (max_swap_offset w)
    (List.remove Z.eq_dec p (active_list w)) (if act then nr_active_pages w - 1 else nr_active_pages w)
    (List.remove Z.eq_dec p (inactive_list w)) (if act then nr_inactive_pages w else nr_inactive_pages w - 1)
    (<[off := SWAP_UNUSED]> (mem_map w)) (List.remove Z.eq_dec p <$> hash_list w)
    (next w) (failed_counter w) (disk w) (io w).

Lemma cache_uncache m m' p pg pg' off :
  cache_ok m -> pages m !! p = Some pg -> PageSwap pg = true -> index pg = Z.shiftl off 8 ->
  sw m' = uncache p off (PageActive pg) (sw m) -> pages m' = <[p := pg']> (pages m) ->
  PageSwap pg' = false -> cache_ok m'.
Proof.
  intros Hc Hpg Hsw Hidx Hs Hps Hsw'.
  assert (Hpages : forall q qg, (pages m' !! q = Some qg /\ PageSwap qg = true) <->
    pages m !! q = Some qg /\ PageSwap qg = true /\ q <> p).
  { intros q qg. rewrite Hps, lookup_insert_Some. split.
    - intros [[[-> <-]|[Hne Hq]] Hqs]; [congruence|]. naive_solver.
    - intros (Hq & Hqs & Hne). split; [right; naive_solver|done]. }
  assert (Hoff : forall q qg, pages m !! q = Some qg -> PageSwap qg = true -> q <> p ->
    forall o, index qg = Z.shiftl o 8 -> o <> off).
  { intros q qg Hq Hqs Hne o Ho ->. apply Hne. by apply (c_inj _ Hc q p qg pg); [..|congruence]. }
  destruct (c_active _ Hc) as (Ha1 & Ha2 & Ha3). destruct (c_inactive _ Hc) as (Hi1 & Hi2 & Hi3).
  split; rewrite ?Hs; cbn [uncache hash_list mem_map active_list inactive_list nr_active_pages
    nr_inactive_pages max_swap_offset].
  - intros e. destruct (c_hash _ Hc e) as (l & Hl & Hnd & Hin). exists (List.remove Z.eq_dec p l).
    rewrite lookup_fmap, Hl. split_and!; [done|by apply NoDup_unlink|].
    intros q. rewrite elem_of_unlink, Hin. split.
    + intros [(qg & Hq & Hqs & He) Hne]. exists qg. destruct (proj2 (Hpages q qg)); done.
    + intros (qg & Hq & Hqs & He). destruct (proj1 (Hpages q qg)) as (? & ? & ?); [done|]. eauto 10.
  - intros b l q Hl Hin. rewrite lookup_fmap in Hl. destruct (hash_list (sw m) !! b) as [l0|] eqn:Hl0; [|done].
    injection Hl as <-. apply elem_of_unlink in Hin as [Hin Hne].
    destruct (c_other _ Hc b l0 q Hl0 Hin) as (qg & Hq & Hqs & Hb).
    exists qg. destruct (proj2 (Hpages q qg)); done.
  - intros q qg Hq Hqs. destruct (proj1 (Hpages q qg)) as (Hq' & Hqs' & Hne); [done|].
    destruct (c_index _ Hc q qg Hq' Hqs') as (o & c & Ho & Hr & Hm & Hu). exists o, c.
    split_and!; [done|lia..| |done]. rewrite lookup_insert_ne; [done|]. intros ->.
    by apply (Hoff q qg Hq' Hqs' Hne o).
  - intros q1 q2 g1 g2 Hq1 Hq2 Hs1 Hs2 Hi.
    destruct (proj1 (Hpages q1 g1)) as (? & ? & ?); [done|]. destruct (proj1 (Hpages q2 g2)) as (? & ? & ?); [done|].
    by apply (c_inj _ Hc q1 q2 g1 g2).
  - assert (Hmem : p ∈ active_list (sw m) <-> PageActive pg = true) by (rewrite Ha3; naive_solver).
    split_and!; [by apply NoDup_unlink| |].
    + rewrite length_unlink, (bool_decide_ext _ _ Hmem), Ha2 by done.
      case_bool_decide; destruct (PageActive pg); try done; lia.
    + intros q. rewrite elem_of_unlink, Ha3. split.
      * intros [(qg & Hq & Hqs & He) Hne]. exists qg. destruct (proj2 (Hpages q qg)); done.
      * intros (qg & Hq & Hqs & He). destruct (proj1 (Hpages q qg)) as (? & ? & ?); [done|]. eauto 10.
  - assert (Hmem : p ∈ inactive_list (sw m) <-> PageActive pg = false) by (rewrite Hi3; naive_solver).
    split_and!; [by apply NoDup_unlink| |].
    + rewrite length_unlink, (bool_decide_ext _ _ Hmem), Hi2 by done.
      case_bool_decide; destruct (PageActive pg); try done; lia.
    + intros q. rewrite elem_of_unlink, Hi3. split.
      * intros [(qg & Hq & Hqs & He) Hne]. exists qg. destruct (proj2 (Hpages q qg)); done.
      * intros (qg & Hq & Hqs & He). destruct (proj1 (Hpages q qg)) as (? & ? & ?); [done|]. eauto 10.
  - intros o Ho. apply lookup_insert_Some in Ho as [[_ ?]|[Hne Ho]]; [done|].
    destruct (c_zero _ Hc o Ho) as (q & qg & Hq & Hqs & Hi). exists q, qg.
    assert (q <> p).
    { intros ->. apply Hne. rewrite Hpg in Hq. injection Hq as <-. rewrite Hidx in Hi.
      rewrite !Z.shiftl_mul_pow2 in Hi by lia. lia. }
    destruct (proj2 (Hpages q qg)); done.
  - intros o Ho. destruct (decide (off = o)) as [->|].
    + exists SWAP_UNUSED. rewrite lookup_insert_eq. split; [done|]. unfold SWAP_UNUSED. lia.
    + rewrite lookup_insert_ne by done. by apply (c_map _ Hc).
Qed.

(** The count of a slot changes. *)
Lemma cache_set_map m m' off c :
  cache_ok m -> pages m' = pages m -> sw m' = set_mem_map <[off := c]> (sw m) -> 0 <= c <= SWAP_UNUSED ->
  (c = SWAP_UNUSED -> forall p pg, pages m !! p = Some pg -> PageSwap pg = true -> index pg <> Z.shiftl off 8) ->
  (c = 0 -> exists p pg, pages m !! p = Some pg /\ PageSwap pg = true /\ index pg = Z.shiftl off 8) ->
  cache_ok m'.
Proof.
  intros Hc Hp Hs Hrange Hu H0. split; rewrite ?Hs, ?Hp; cbn [set_mem_map hash_list active_list inactive_list
    nr_active_pages nr_inactive_pages mem_map max_swap_offset].
  - apply (c_hash _ Hc).
  - apply (c_other _ Hc).
  - intros p pg Hpg Hsw. destruct (c_index _ Hc p pg Hpg Hsw) as (o & c' & Ho & Hr & Hm & Hcu).
    destruct (decide (off = o)) as [->|Hne].
    + exists o, c. rewrite lookup_insert_eq. split_and!; [done|lia..|done|]. intros ->.
      by apply (Hu eq_refl p pg).
    + exists o, c'. by rewrite lookup_insert_ne.
  - apply (c_inj _ Hc).
  - apply (c_active _ Hc).
  - apply (c_inactive _ Hc).
  - intros o Ho. apply lookup_insert_Some in Ho as [[<- ->]|[_ Ho]]; [by apply H0|by apply (c_zero _ Hc)].
  - intros o Ho. destruct (decide (off = o)) as [->|Hne].
    + exists c. by rewrite lookup_insert_eq.
    + rewrite lookup_insert_ne by done. by apply (c_map _ Hc).
Qed.

(** The count of slots, read back. *)
Definition slot_refs (c : Z) : Z := if c =? SWAP_UNUSED then 0 else c.

(** The reference of a swapped entry is dropped: the slot counts one less, and a page
    of the cache without references may be freed. *)
Lemma counts_unslot m m' D T A ext sext k w c c' :
  counts_ok m D T A ext sext -> A !! k = Some w -> present w = false ->
  mem_map (sw m) !! slot_of w = Some c ->
  npage m' = npage m -> max_swap_offset (sw m') = max_swap_offset (sw m) ->
  mem_map (sw m') = <[slot_of w := c']> (mem_map (sw m)) -> slot_refs c' = slot_refs c - 1 ->
  (pages m' = pages m /\ free m' = free m \/
   exists p pg, pages m !! p = Some pg /\ PageSwap pg = true /\ ref pg = 0 /\
     pages m' = <[p := freed_page pg]> (pages m) /\ free m' = {[p]} ∪ free m) ->
  counts_ok m' D T (delete k A) ext sext.
Proof.
  intros Hc Hk Hw Hm Hn Hmax Hmm Hrefs Hpages. destruct Hc as [H1 H2 H3 H4 H5 H6 H7 H8].
  assert (Hpg : forall q qg', pages m' !! q = Some qg' -> exists qg, pages m !! q = Some qg /\
    ref qg' = ref qg /\ (PageSwap qg' = true -> qg' = qg)).
  { intros q qg' Hq. destruct Hpages as [[Hp _]|(p & pg & Hpg & Hsw & Hr & Hp & _)]; rewrite Hp in Hq; [eauto|].
    apply lookup_insert_Some in Hq as [[<- <-]|[_ Hq]]; [|eauto]. exists pg. by rewrite Hr. }
  assert (Hpg' : forall q qg, pages m !! q = Some qg -> PageReserved qg = false ->
    exists qg', pages m' !! q = Some qg' /\ PageReserved qg' = false).
  { intros q qg Hq Hr. destruct Hpages as [[Hp _]|(p & pg & Hpg0 & _ & _ & Hp & _)]; rewrite Hp; [eauto|].
    destruct (decide (p = q)) as [->|]; [rewrite lookup_insert_eq; eauto|rewrite lookup_insert_ne by done; eauto]. }
  split; rewrite ?Hn, ?Hmax; try done.
  - intros q qg' Hq Hqg. destruct (Hpg q qg' Hqg) as (qg & Hqg0 & -> & _).
    rewrite (count_delete _ _ _ _ Hk). unfold maps_to at 2. rewrite Hw. cbn [andb]. rewrite Z.sub_0_r. by apply H1.
  - intros o co Ho. rewrite (count_delete _ _ _ _ Hk). unfold swaps_to at 2. rewrite Hw. cbn [andb negb].
    rewrite Hmm in Ho. fold (slot_refs co). apply lookup_insert_Some in Ho as [[<- <-]|[Hne Ho]].
    + rewrite Z.eqb_refl, Hrefs. pose proof (H2 _ _ Hm) as Hh. fold (slot_refs c) in Hh. lia.
    + rewrite (proj2 (Z.eqb_neq (slot_of w) o)) by done. pose proof (H2 _ _ Ho) as Hh.
      fold (slot_refs co) in Hh. lia.
  - intros q Hq. destruct Hpages as [[Hp Hf]|(p & pg & Hpg0 & Hsw & Hr & Hp & Hf)]; rewrite Hf in Hq; rewrite Hp.
    + by apply H4.
    + apply elem_of_union in Hq as [->%elem_of_singleton|Hq].
      * destruct (H8 p pg Hpg0 Hsw) as (_ & ? & _). split; [done|]. eexists. by rewrite lookup_insert_eq.
      * destruct (H4 q Hq) as (? & qg & Hqg & ? & ? & ?). split; [done|]. exists qg.
        rewrite lookup_insert_ne; [done|]. intros <-. congruence.
  - intros d v w' [_ Hk']%lookup_delete_Some Hw'. destruct (H5 d v w' Hk' Hw') as (? & ? & qg & Hqg & Hres).
    do 2 (split; [done|]). by apply (Hpg' _ qg).
  - intros d v w' [_ Hk']%lookup_delete_Some. by apply (H6 d v).
  - intros d i t Ht. destruct (H7 d i t Ht) as (qg & Hqg & Hres). by apply (Hpg' _ qg).
  - intros q qg' Hq Hqs. destruct (Hpg q qg' Hq) as (qg & Hqg & _ & Heq).
    rewrite (Heq Hqs). rewrite (Heq Hqs) in Hqs. by apply (H8 q).
Qed.

(** A page of the cache that nothing references is unlinked and freed. *)
Lemma drop_cached_run m p pg off :
  pages m !! p = Some pg -> PageSwap pg = true -> ref pg = 0 -> PageReserved pg = false ->
  exists m', (swap_list_del p ;; swap_free_page p ;; set_map off SWAP_UNUSED) m = Ret (tt, m') /\
    npage m' = npage m /\ frames m' = frames m /\ sw m' = uncache p off (PageActive pg) (sw m) /\
    pages m' = <[p := freed_page pg]> (pages m) /\ free m' = {[p]} ∪ free m.
Proof.
  intros Hpg Hsw Hr Hres. eexists. split.
  - unfold swap_list_del, swap_free_page, swap_page_del, free_page, update_page, Swap.get_page, set_map.
    unfold bind, get, modify, deref, assert, ret. cbn [pages upd_sw upd_pages upd_free].
    rewrite Hpg. cbn. rewrite Hsw. cbn. rewrite Hpg. cbn. rewrite Hsw, Hr. cbn. rewrite Hpg. cbn.
    rewrite Hsw. cbn. rewrite Hpg. cbn. rewrite lookup_insert_eq. cbn. rewrite Hres. cbn.
    rewrite lookup_insert_eq. cbn. reflexivity.
  - cbn. split_and!; try done.
    + unfold uncache. by destruct (PageActive pg).
    + by rewrite insert_insert_eq.
Qed.

(** [swap_remove_entry] of a slot an entry names. *)
Lemma swap_remove_entry_run m D T A ext sext k w :
  inv m D T A ext sext -> A !! k = Some w -> present w = false ->
  exists m', swap_remove_entry w m = Ret (tt, m') /\ npage m' = npage m /\ frames m' = frames m /\
    (forall p, p ∈ free m' -> p ∈ free m \/ data_page D T p) /\ (settles m m' /\ no_loss m m') /\
    cache_ok m' /\ counts_ok m' D T (delete k A) ext sext.
Proof.
  intros [Ht Hc Hn] Hk Hw. destruct k as [d v].
  destruct (n_swapped _ _ _ _ _ _ Hn d v w Hk Hw) as [Hshape Hrange].
  destruct (c_map _ Hc _ Hrange) as (c & Hm & Hcr).
  assert (Hpos : 0 < slot_refs c).
  { pose proof (n_slot _ _ _ _ _ _ Hn _ _ Hm) as Hs. fold (slot_refs c) in Hs. rewrite Hs.
    pose proof (count_pos (swaps_to (slot_of w)) A (d, v) w Hk) as Hp. unfold swaps_to in Hp at 1.
    rewrite Hw, Z.eqb_refl in Hp. specialize (Hp eq_refl).
    pose proof (n_ext _ _ _ _ _ _ Hn (slot_of w)). lia. }
  assert (Hcu : c <> SWAP_UNUSED /\ 0 < c).
  { unfold slot_refs in Hpos. destruct (Z.eqb_spec c SWAP_UNUSED); [lia|]. done. }
  destruct Hcu as [Hcu Hc0]. assert (Hrc : slot_refs c = c).
  { unfold slot_refs. by rewrite (proj2 (Z.eqb_neq _ _) Hcu). }
  unfold swap_remove_entry. rewrite (bind_step _ _ _ _ _ (swap_offset_run m w Hrange)).
  rewrite (bind_step _ _ _ _ _ (get_map_run m _ c Hm)).
  rewrite assert_true by (by apply Z.ltb_lt). unfold set_map at 1. rewrite bind_modify.
  set (m1 := upd_sw (set_mem_map <[slot_of w := c - 1]>) m).
  destruct (Z.eqb_spec (c - 1) 0) as [H0|H0].
  - destruct (swap_hash_find_run m m1 w Hc eq_refl eq_refl) as (o & Hr & Ho).
    rewrite (bind_step _ _ _ _ _ Hr). clear Hr.
    assert (Hu : slot_refs SWAP_UNUSED = slot_refs c - 1) by (rewrite Hrc, H0; done).
    destruct o as [p|].
    + destruct Ho as (pg & Hpg & Hsw & Hidx). assert (Hpg1 : pages m1 !! p = Some pg) by done.
      rewrite (get_page_step _ _ _ _ Hpg1). destruct (Z.eqb_spec (ref pg) 0) as [Hr0|Hr0]; cbn [negb].
      * destruct (n_cached _ _ _ _ _ _ Hn p pg Hpg Hsw) as (Hdp & Hpr & Hres).
        destruct (drop_cached_run m1 p pg (slot_of w) Hpg Hsw Hr0 Hres) as (m2 & Hr & Hn2 & Hf2 & Hs2 & Hp2 & Hfr2).
        assert (Hs2' : sw m2 = uncache p (slot_of w) (PageActive pg) (sw m)).
        { rewrite Hs2. unfold m1, uncache, upd_sw, set_mem_map. cbn. by rewrite insert_insert_eq. }
        exists m2. split_and!; [exact Hr|done|done| |by apply (settles_put m m2 p pg (freed_page pg))|apply (no_loss_put m m2 p (freed_page pg)); [done|..]; rewrite Hfr2; set_solver| |].
        -- intros q. rewrite Hfr2. intros [->%elem_of_singleton|?]%elem_of_union; [by right|by left].
        -- apply (cache_uncache m m2 p pg (freed_page pg) (slot_of w)); try done. by rewrite <- Hshape.
        -- apply (counts_unslot m m2 D T A ext sext (d, v) w c SWAP_UNUSED); try done; [by rewrite Hs2'..|].
           right. exists p, pg. done.
      * exists m1. split_and!; [done|done|done|by left|by apply settles_refl|by apply no_loss_refl| |].
        -- apply (cache_set_map m m1 (slot_of w) (c - 1)); try done; [lia|lia|]. intros _.
           exists p, pg. by rewrite <- Hshape.
        -- apply (counts_unslot m m1 D T A ext sext (d, v) w c (c - 1)); try done; [|by left].
           rewrite Hrc, H0. done.
    + unfold set_map. eexists. split_and!; [done|done|done|by left|by apply settles_refl|by apply no_loss_refl| |].
      * apply (cache_set_map m _ (slot_of w) SWAP_UNUSED); [done|done| |unfold SWAP_UNUSED; lia|..].
        -- unfold m1, upd_sw, set_mem_map. cbn. by rewrite insert_insert_eq.
        -- intros _. rewrite <- Hshape. exact Ho.
        -- done.
      * apply (counts_unslot m _ D T A ext sext (d, v) w c SWAP_UNUSED); try done; [|by left].
        unfold m1, upd_sw, set_mem_map. cbn. by rewrite insert_insert_eq.
  - exists m1. split_and!; [done|done|done|by left|by apply settles_refl|by apply no_loss_refl| |].
    + apply (cache_set_map m m1 (slot_of w) (c - 1)); try done; lia.
    + apply (counts_unslot m m1 D T A ext sext (d, v) w c (c - 1)); try done; [|by left].
      rewrite Hrc. unfold slot_refs. rewrite (proj2 (Z.eqb_neq _ _)) by lia. done.
Qed.

(** ** [page_remove_pte] *)

(** Writing an entry does not concern the counts. *)
Lemma counts_set_word m D T A ext sext p i w :
  counts_ok m D T A ext sext -> counts_ok (set_word p i w m) D T A ext sext.
Proof. by intros [H1 H2 H3 H4 H5 H6 H7 H8]. Qed.

Lemma cache_set_word m p i w : cache_ok m -> cache_ok (set_word p i w m).
Proof. by apply cache_frame. Qed.

Lemma put_zero k A : put_entry k 0 A = delete k A.
Proof. done. Qed.

(** The reference of a present entry: the page drops it, and is freed with the last
    one unless it is in the swap cache. *)
Lemma drop_present_run m D T A ext sext k w :
  inv m D T A ext sext -> A !! k = Some w -> present w = true ->
  exists m', (p <- pte2page w ;;
    pg <- Swap.get_page p ;;
    (if negb (PageSwap pg) then
       n <- page_ref_dec p ;; if n =? 0 then free_page p else ret tt
     else
       (if has w PTE_D then update_page (set_dirty true) p else ret tt) ;;
       page_ref_dec p ;; ret tt)) m = Ret (tt, m') /\
    npage m' = npage m /\ frames m' = frames m /\
    (forall p, p ∈ free m' -> p ∈ free m \/ data_page D T p) /\ (settles m m' /\ no_loss m m') /\
    cache_ok m' /\ counts_ok m' D T (delete k A) ext sext.
Proof.
  intros [Ht Hc Hn] Hk Hw. destruct k as [d v].
  destruct (n_present _ _ _ _ _ _ Hn d v w Hk Hw) as (Hrange & Hdp & pg & Hpg & Hres).
  rewrite (bind_step _ _ _ _ _ (pte2page_run m w Hw ltac:(lia))).
  rewrite (get_page_step _ _ _ _ Hpg).
  set (p := frame_of w) in *. destruct (PageSwap pg) eqn:Hsw; cbn [negb].
  - set (pg1 := if has w PTE_D then set_dirty true pg else pg).
    assert (Hpg1 : PageSwap pg1 = true /\ ref pg1 = ref pg /\ PageReserved pg1 = false /\
      PageActive pg1 = PageActive pg /\ index pg1 = index pg) by (unfold pg1; by destruct (has w PTE_D)).
    destruct Hpg1 as (Hsw1 & Hr1 & Hres1 & Ha1 & Hi1).
    assert (Hrun : (if has w PTE_D then update_page (set_dirty true) p else ret tt) m = Ret (tt, set_page p pg1 m)).
    { unfold pg1. destruct (has w PTE_D); [by apply update_page_run|].
      unfold set_page, upd_pages. rewrite insert_id by done. by destruct m. }
    rewrite (bind_step _ _ _ _ _ Hrun).
    assert (Hl : pages (set_page p pg1 m) !! p = Some pg1) by apply lookup_insert_eq.
    rewrite (bind_step _ _ _ _ _ (page_ref_dec_run _ _ _ Hl)).
    eexists. split_and!; [done|done|done|by left| | | |].
    { apply (settles_put _ _ p pg (set_ref (ref pg1 - 1) pg1)); [done| |done|done]. cbn. by rewrite insert_insert_eq. }
    { apply (no_loss_put _ _ p (set_ref (ref pg1 - 1) pg1)); [|done|cbn; congruence]. cbn. by rewrite insert_insert_eq. }
    + apply (cache_frame m); [done| |done]. intros q. cbn. rewrite insert_insert_eq.
      destruct (decide (p = q)) as [<-|]; [|by rewrite lookup_insert_ne].
      rewrite lookup_insert_eq, Hpg. cbn. unfold cached. cbn. by rewrite Hsw, Hsw1, Ha1, Hi1.
    + apply (counts_drop D T A ext sext m _ (d, v) w pg (set_ref (ref pg1 - 1) pg1)); try done.
      * cbn. by rewrite insert_insert_eq.
      * cbn. by rewrite Hr1.
      * by left.
  - rewrite (bind_step _ _ _ _ _ (page_ref_dec_run _ _ _ Hpg)).
    destruct (Z.eqb_spec (ref pg - 1) 0) as [H0|H0].
    + assert (Hl : pages (set_page p (set_ref (ref pg - 1) pg) m) !! p = Some (set_ref (ref pg - 1) pg))
        by apply lookup_insert_eq.
      rewrite (free_page_run _ _ _ Hl) by done.
      eexists. split_and!; [done|done|done| | | | |].
      * cbn. intros q [->%elem_of_singleton|?]%elem_of_union; [by right|by left].
      * apply (settles_put _ _ p pg (freed_page (set_ref (ref pg - 1) pg))); [done| |done|done]. cbn. by rewrite insert_insert_eq.
      * apply (no_loss_put _ _ p (freed_page (set_ref (ref pg - 1) pg))); [|cbn; set_solver..]. cbn. by rewrite insert_insert_eq.
      * apply (cache_frame m); [done| |done]. intros q. cbn. rewrite insert_insert_eq.
        destruct (decide (p = q)) as [<-|]; [|by rewrite lookup_insert_ne].
        rewrite lookup_insert_eq, Hpg. cbn. unfold cached. cbn. by rewrite Hsw.
      * apply (counts_drop D T A ext sext m _ (d, v) w pg (freed_page (set_ref (ref pg - 1) pg))); try done.
        -- cbn. by rewrite insert_insert_eq.
        -- by right.
    + eexists. split_and!; [done|done|done|by left|by apply (settles_put _ _ p pg (set_ref (ref pg - 1) pg))|by apply (no_loss_put _ _ p (set_ref (ref pg - 1) pg))| |].
      * apply (cache_frame m); [done| |done]. intros q. cbn.
        destruct (decide (p = q)) as [<-|]; [|by rewrite lookup_insert_ne].
        rewrite lookup_insert_eq, Hpg. cbn. unfold cached. cbn. by rewrite Hsw.
      * apply (counts_drop D T A ext sext m _ (d, v) w pg (set_ref (ref pg - 1) pg)); try done. by left.
Qed.

Lemma remove_pte_run m D T A ext sext d i t j la :
  inv m D T A ext sext -> T !! (d, i) = Some t -> 0 <= j < 1024 ->
  exists m', page_remove_pte d la (t, j) m = Ret (tt, m') /\
    inv m' D T (delete (d, i * 1024 + j) A) ext sext /\ npage m' = npage m /\ settles m m' /\
    same_data D T m m' /\ no_loss m m'.
Proof.
  intros Hinv Ht Hj. pose proof Hinv as [Htab Hc Hn]. set (k := (d, i * 1024 + j)).
  destruct (t_tab _ _ _ _ Htab d i t Ht) as (_ & _ & Htr & _).
  unfold page_remove_pte, rd_pte, wr_pte. cbn [fst snd].
  rewrite (bind_step _ _ _ _ _ (rd_word_run m t j Htr)).
  rewrite (t_pte _ _ _ _ Htab d i t j Ht Hj). fold k.
  assert (Hfin : forall m1 A', npage m1 = npage m -> frames m1 = frames m ->
    (forall p, p ∈ free m1 -> p ∈ free m \/ data_page D T p) -> settles m m1 /\ no_loss m m1 -> cache_ok m1 ->
    counts_ok m1 D T A' ext sext -> A' = delete k A ->
    exists m', wr_word t j 0 m1 = Ret (tt, m') /\ inv m' D T (delete k A) ext sext /\ npage m' = npage m /\
      settles m m' /\ same_data D T m m' /\ no_loss m m').
  { intros m1 A' Hn1 Hf1 Hfr1 Hkp Hc1 Hcn1 ->. exists (set_word t j 0 m1).
    rewrite wr_word_run by (by rewrite Hn1). split; [done|]. split.
    2:{ split_and!; [done|exact (proj1 Hkp)| |exact (proj2 Hkp)]. apply (same_data_trans D T T m m1); [done|by apply same_data_frames|].
        by apply (same_data_table D T (d, i)). }
    split.
    - apply (tables_put m1 D T A d i t j 0); [|done|done]. by apply (tables_frame m).
    - by apply cache_set_word.
    - by apply counts_set_word. }
  destruct (A !! k) as [w|] eqn:Hk; cbn [default from_option id].
  - destruct (t_dom _ _ _ _ Htab d (i * 1024 + j) w Hk) as [Hw0 _].
    fold (present w). destruct (present w) eqn:Hw.
    + destruct (drop_present_run m D T A ext sext k w Hinv Hk Hw) as (m1 & Hr & Hn1 & Hf1 & Hfr1 & Hkp & Hc1 & Hcn1).
      destruct (Hfin m1 _ Hn1 Hf1 Hfr1 Hkp Hc1 Hcn1 eq_refl) as (m2 & Hw2 & Hinv2).
      exists m2. split; [|done]. rewrite (bind_step3 _ _ _ _ _ _ _ Hr). exact Hw2.
    + rewrite (proj2 (Z.eqb_neq w 0)) by done. cbn [negb].
      destruct (swap_remove_entry_run m D T A ext sext k w Hinv Hk Hw) as (m1 & Hr & Hn1 & Hf1 & Hfr1 & Hkp & Hc1 & Hcn1).
      rewrite (bind_step _ _ _ _ _ Hr). by apply (Hfin m1 (delete k A)).
  - exists m. split; [done|]. split; [|split_and!; [done|by apply settles_refl|by apply same_data_frames|by apply no_loss_refl]]. rewrite delete_id by done. done.
Qed.

(** ** Addresses *)

Lemma PDX_div la : 0 <= la < 2 ^ 32 -> PDX la = la / 4096 / 1024.
Proof.
  intros H. unfold PDX. change 0x3FF with (Z.ones 10). rewrite Z.land_ones, Z.shiftr_div_pow2 by lia.
  rewrite Z.div_div by lia. apply Z.mod_small.
  split; [apply Z.div_pos; lia|apply Z.div_lt_upper_bound; lia].
Qed.

Lemma PTX_mod la : PTX la = (la / 4096) mod 1024.
Proof.
  unfold PTX. change 0x3FF with (Z.ones 10). by rewrite Z.land_ones, Z.shiftr_div_pow2 by lia.
Qed.

(** A user address: its directory index, its table index, its page. *)
Lemma user_index la : 0 <= la < USERTOP ->
  0 <= PDX la < NUPDE /\ 0 <= PTX la < 1024 /\ PDX la * 1024 + PTX la = la / 4096.
Proof.
  unfold USERTOP, NUPDE. intros H. rewrite PDX_div, PTX_mod by lia. split_and!; dlia.
Qed.

(** ** [get_pte] *)

Lemma get_pte_look m D T A d la :
  tables_ok m D T A -> d ∈ D -> 0 <= la < USERTOP ->
  get_pte d la false m = Ret ((fun t => (t, PTX la)) <$> T !! (d, PDX la), m).
Proof.
  intros Ht Hd Hla. destruct (user_index la Hla) as (Hi & Hj & _).
  destruct (t_dir _ _ _ _ Ht d Hd) as [Hdr _]. pose proof (t_pde _ _ _ _ Ht d _ Hd Hi) as Hpde.
  unfold get_pte. rewrite (bind_step _ _ _ _ _ (rd_word_run m d _ Hdr)). fold (present (word m d (PDX la))).
  destruct (T !! (d, PDX la)) as [t|] eqn:HT.
  - destruct Hpde as [-> Hf]. rewrite bind_ret. rewrite (bind_step _ _ _ _ _ (rd_word_run m d _ Hdr)).
    fold (frame_of (word m d (PDX la))). rewrite Hf.
    destruct (t_tab _ _ _ _ Ht d _ t HT) as (_ & _ & Htr & _).
    by rewrite (bind_step _ _ _ _ _ (KADDR_run m t Htr)).
  - by rewrite Hpde.
Qed.

(** ** [unmap_range] *)

Definition in_range (d s e : Z) (k : Z * Z) : bool := (fst k =? d) && (s <=? snd k * 4096) && (snd k * 4096 <? e).

(** The address map without the pages of a range. *)
Definition unmapped (d s e : Z) (A : gmap (Z * Z) Z) : gmap (Z * Z) Z :=
  filter (fun kw => in_range d s e (fst kw) = false) A.

Lemma lookup_unmapped d s e A k : unmapped d s e A !! k = if in_range d s e k then None else A !! k.
Proof.
  unfold unmapped. destruct (in_range d s e k) eqn:Hr.
  - apply map_lookup_filter_None. right. intros w _. cbn. congruence.
  - destruct (A !! k) as [w|] eqn:Hk; [by apply map_lookup_filter_Some|].
    apply map_lookup_filter_None. by left.
Qed.

(** A step over one page: the entry of the page goes. *)
Lemma unmapped_step d s e A :
  0 <= s -> s mod 4096 = 0 -> s < e ->
  unmapped d s e A = unmapped d (s + 4096) e (delete (d, s / 4096) A).
Proof.
  intros H0 Ha He. apply map_eq. intros [d' v]. rewrite !lookup_unmapped. unfold in_range. cbn [fst snd].
  destruct (decide ((d, s / 4096) = (d', v))) as [[= <- <-]|Hne].
  - rewrite lookup_delete_eq. assert (s / 4096 * 4096 = s) as -> by dlia.
    rewrite Z.eqb_refl, (proj2 (Z.leb_le s s)), (proj2 (Z.ltb_lt s e)) by lia. cbn.
    by destruct (_ && _).
  - rewrite lookup_delete_ne by done. destruct (Z.eqb_spec d' d) as [->|]; [|done]. cbn [andb].
    assert (v <> s / 4096) by congruence.
    destruct (Z.leb_spec s (v * 4096)), (Z.leb_spec (s + 4096) (v * 4096)); try done; exfalso; dlia.
Qed.

(** A step over a table that is not there: there is no entry to remove. *)
Lemma unmapped_skip m D T A d s s' e :
  tables_ok m D T A -> T !! (d, s / 4096 / 1024) = None ->
  (forall v, 0 <= v -> s <= v * 4096 < s' -> v / 1024 = s / 4096 / 1024) -> s <= s' ->
  unmapped d s e A = unmapped d s' e A.
Proof.
  intros Ht HT Hv Hle. apply map_eq. intros [d' v]. rewrite !lookup_unmapped. unfold in_range. cbn [fst snd].
  destruct (A !! (d', v)) as [w|] eqn:Hk; [|by do 2 destruct (_ && _)].
  destruct (Z.eqb_spec d' d) as [->|]; [|done]. cbn [andb].
  destruct (t_dom _ _ _ _ Ht d v w Hk) as (_ & Hv0 & HT').
  destruct (Z.leb_spec s (v * 4096)), (Z.leb_spec s' (v * 4096)); try done; [|lia].
  rewrite (Hv v Hv0) in HT' by lia. rewrite HT in HT'. by destruct HT'.
Qed.

Lemma unmapped_done d s e A : e <= s -> unmapped d s e A = A.
Proof.
  intros H. apply map_eq. intros k. rewrite lookup_unmapped. unfold in_range.
  destruct (Z.leb_spec s (snd k * 4096)), (Z.ltb_spec (snd k * 4096) e); rewrite ?andb_false_r; try done. lia.
Qed.

(** The start of the table after the one of [s]. *)
Lemma next_table s : 0 <= s < USERTOP ->
  let s' := ROUNDDOWN (u32 (s + PTSIZE)) PTSIZE in
  s < s' /\ s' mod 4096 = 0 /\ s' <= s + PTSIZE /\
  forall v, 0 <= v -> s <= v * 4096 < s' -> v / 1024 = s / 4096 / 1024.
Proof.
  intros H s'. unfold s', ROUNDDOWN, PTSIZE, Vmm.PGSIZE, USERTOP in *.
  rewrite u32_small by (unfold is_u32; lia). split_and!; [dlia..|]. intros v Hv Hr. dlia.
Qed.

Lemma unmap_loop_run D T ext sext d e : forall fuel s m A,
  inv m D T A ext sext -> d ∈ D -> 0 <= s < e -> e <= USERTOP -> s mod 4096 = 0 ->
  ((e - s) / PGSIZE < Z.of_nat fuel) ->
  exists m', unmap_loop fuel d s e m = Ret (tt, m') /\ inv m' D T (unmapped d s e A) ext sext /\
    npage m' = npage m /\ no_loss m m'.
Proof.
  induction fuel as [|fuel IH]; intros s m A Hinv Hd Hs He Ha Hf.
  { exfalso. unfold PGSIZE, Vmm.PGSIZE in Hf. dlia. }
  pose proof Hinv as [Ht _ _]. destruct (user_index s ltac:(lia)) as (Hi & Hj & Hv).
  cbn [unmap_loop]. rewrite (bind_step _ _ _ _ _ (get_pte_look m D T A d s Ht Hd ltac:(lia))).
  assert (Hgo : forall m1 A1 nxt, inv m1 D T A1 ext sext -> npage m1 = npage m -> no_loss m m1 -> s < nxt <= s + PTSIZE ->
    nxt mod 4096 = 0 -> unmapped d s e A = unmapped d nxt e A1 ->
    exists m', (if negb (nxt =? 0) && (nxt <? e) then unmap_loop fuel d nxt e else ret tt) m1 = Ret (tt, m') /\
      inv m' D T (unmapped d s e A) ext sext /\ npage m' = npage m /\ no_loss m m').
  { intros m1 A1 nxt Hinv1 Hn1 Hl1 Hnx Hna Heq. rewrite (proj2 (Z.eqb_neq nxt 0)) by lia. cbn [negb andb].
    rewrite Heq. destruct (Z.ltb_spec nxt e) as [Hlt|Hge].
    - destruct (IH nxt m1 A1) as (m' & Hr & Hinv' & Hn' & Hl'); [done|done|lia|done|done| |].
      + unfold PGSIZE, Vmm.PGSIZE, PTSIZE in *. dlia.
      + exists m'. rewrite Hn'. split_and!; [done..|]. by apply (no_loss_trans m m1).
    - exists m1. rewrite unmapped_done by done. done. }
  destruct (T !! (d, PDX s)) as [t|] eqn:HT; cbn [fmap option_fmap option_map].
  - destruct (t_tab _ _ _ _ Ht d _ t HT) as (_ & _ & Htr & _). unfold rd_pte. cbn [fst snd].
    assert (Hstep : exists m1, (pte <- rd_word t (PTX s) ;;
       (if negb (pte =? 0) then page_remove_pte d s (t, PTX s) else ret tt) ;;
       ret (u32 (s + PGSIZE))) m = Ret (s + 4096, m1) /\
       inv m1 D T (delete (d, s / 4096) A) ext sext /\ npage m1 = npage m /\ no_loss m m1).
    { rewrite (bind_step _ _ _ _ _ (rd_word_run m t _ Htr)).
      rewrite (t_pte _ _ _ _ Ht d _ t _ HT Hj), Hv.
      assert (Hu : u32 (s + PGSIZE) = s + 4096).
      { apply u32_small. unfold is_u32, PGSIZE, Vmm.PGSIZE, USERTOP in *. lia. }
      rewrite Hu. destruct (Z.eqb_spec (default 0 (A !! (d, s / 4096))) 0) as [H0|H0]; cbn [negb].
      - exists m. split; [done|]. split; [|split; [done|by apply no_loss_refl]]. rewrite delete_id; [done|].
        destruct (A !! (d, s / 4096)) as [w|] eqn:Hk; [|done]. cbn in H0.
        by destruct (t_dom _ _ _ _ Ht d _ w Hk).
      - destruct (remove_pte_run m D T A ext sext d (PDX s) t (PTX s) s Hinv HT Hj) as (m1 & Hr & Hi1 & Hn1 & _ & _ & Hl1).
        rewrite (bind_step _ _ _ _ _ Hr). exists m1. rewrite Hv in Hi1. done. }
    destruct Hstep as (m1 & Hr & Hinv1 & Hn1 & Hl1). rewrite (bind_step _ _ _ _ _ Hr).
    apply (Hgo m1 (delete (d, s / 4096) A)); [done|done|done|unfold PTSIZE, PGSIZE, Vmm.PGSIZE; lia|dlia|].
    apply unmapped_step; lia.
  - rewrite bind_ret. destruct (next_table s ltac:(lia)) as (Hn1 & Hn2 & Hn3 & Hn4).
    apply (Hgo m A); [done|done|by apply no_loss_refl|lia|done|].
    apply (unmapped_skip m D T); [done| |done|lia]. by rewrite <- PDX_div by (unfold USERTOP in *; lia).
Qed.

Lemma unmap_range_run m D T A ext sext d s e :
  inv m D T A ext sext -> d ∈ D -> USER_ACCESS s e = true -> s mod 4096 = 0 -> e mod 4096 = 0 ->
  exists m', unmap_range d s e m = Ret (tt, m') /\ inv m' D T (unmapped d s e A) ext sext /\ npage m' = npage m /\
    no_loss m m'.
Proof.
  intros Hinv Hd Hacc Hs He. unfold unmap_range.
  rewrite assert_true by (unfold PGSIZE, Vmm.PGSIZE; by rewrite Hs, He). rewrite assert_true by done.
  unfold USER_ACCESS, Vmm.USER_ACCESS, Vmm.USERBASE in Hacc.
  apply andb_prop in Hacc as [[H1%Z.leb_le H2%Z.ltb_lt]%andb_prop H3%Z.leb_le].
  apply unmap_loop_run; [done|done|lia|done|done|].
  unfold range_fuel. rewrite Nat2Z.inj_succ, Z2Nat.id; [lia|]. unfold PGSIZE, Vmm.PGSIZE. dlia.
Qed.

(** ** Allocation *)

(** Fewer free pages: the invariant does not notice. *)
Lemma inv_shrink m m' D T A ext sext :
  npage m' = npage m -> frames m' = frames m -> pages m' = pages m -> sw m' = sw m -> free m' ⊆ free m ->
  inv m D T A ext sext -> inv m' D T A ext sext.
Proof.
  intros Hn Hf Hp Hs Hfr [Ht Hc Hcn]. split.
  - apply (tables_frame m); [done..| |done]. set_solver.
  - apply (cache_frame m); [done| |done]. intros q. by rewrite Hp.
  - destruct Hcn as [H1 H2 H3 H4 H5 H6 H7 H8]. split; rewrite ?Hn, ?Hp, ?Hs; try done.
    intros q Hq. apply H4. set_solver.
Qed.

Lemma alloc_page_run m :
  exists o m', alloc_page m = Ret (o, m') /\ npage m' = npage m /\ frames m' = frames m /\
    pages m' = pages m /\ sw m' = sw m /\
    match o with Some p => p ∈ free m /\ free m' = free m ∖ {[p]} | None => free m' = free m end.
Proof.
  unfold alloc_page. rewrite bind_get. destruct (answers m) as [|[p|] l].
  - exists None, m. done.
  - rewrite bind_modify. case_bool_decide.
    + rewrite bind_modify. eexists (Some p), _. split; [reflexivity|]. done.
    + eexists None, _. split; [reflexivity|]. done.
  - rewrite bind_modify. eexists None, _. split; [reflexivity|]. done.
Qed.

(** A page that is neither free nor a directory or a table keeps its descriptor and its
    contents. *)
Definition untouched (D : gset Z) (T T' : gmap (Z * Z) Z) (m m' : mem) : Prop :=
  free m' ⊆ free m /\ forall q, q ∉ free m -> data_page D T q ->
    data_page D T' q /\ pages m' !! q = pages m !! q /\ forall j, word m' q j = word m q j.

(** A free page becomes the table of a directory entry. *)
Lemma new_table m m1 D T A ext sext d i p pg :
  inv m D T A ext sext -> d ∈ D -> 0 <= i < NUPDE -> T !! (d, i) = None -> p ∈ free m ->
  pages m !! p = Some pg -> npage m1 = npage m -> sw m1 = sw m -> free m1 = free m ∖ {[p]} ->
  pages m1 = <[p := set_ref 1 pg]> (pages m) ->
  frames m1 = frames (set_word d i (entry p (Z.lor PTE_U PTE_W)) (upd_frames <[p := ∅]> m)) ->
  inv m1 D (<[(d, i) := p]> T) A ext sext /\ untouched D T (<[(d, i) := p]> T) m m1.
Proof.
  intros [Ht Hc Hn] Hd Hi HT Hpf Hpg Hnp Hsw Hfr Hpages Hframes.
  destruct (n_free _ _ _ _ _ _ Hn p Hpf) as (Hpr & pg' & Hpg' & Href & Hs0 & Hres).
  rewrite Hpg in Hpg'. injection Hpg' as <-.
  assert (HpD : p ∉ D) by (intros HD; by apply (t_dir _ _ _ _ Ht p HD)).
  assert (HpT : forall k, T !! k <> Some p).
  { intros [d' i'] Hk. by destruct (t_tab _ _ _ _ Ht d' i' p Hk) as (_ & _ & _ & ? & _). }
  assert (Hword : forall q j, word m1 q j = if bool_decide (d = q /\ i = j) then entry p (Z.lor PTE_U PTE_W)
    else if bool_decide (p = q) then 0 else word m q j).
  { intros q j. assert (Hw : word m1 q j = word (set_word d i (entry p (Z.lor PTE_U PTE_W)) (upd_frames <[p := ∅]> m)) q j)
      by (unfold word; by rewrite Hframes).
    rewrite Hw, word_set_word. case_bool_decide; [done|]. unfold word, upd_frames. cbn [frames].
    case_bool_decide; [subst; by rewrite lookup_insert_eq|by rewrite lookup_insert_ne]. }
  assert (Hdata : forall q, q <> p -> data_page D T q -> data_page D (<[(d, i) := p]> T) q).
  { intros q Hq [HqD HqT]. split; [done|]. intros k. rewrite lookup_insert_Some. intros [[_ ?]|[_ ?]]; [done|].
    by apply (HqT k). }
  assert (Hdata' : forall q, data_page D (<[(d, i) := p]> T) q -> q <> p /\ data_page D T q).
  { intros q [HqD HqT]. split.
    - intros ->. apply (HqT (d, i)). by rewrite lookup_insert_eq.
    - split; [done|]. intros k Hk. apply (HqT k). rewrite lookup_insert_ne; [done|]. intros <-. congruence. }
  split; [split|].
  - pose proof (t_npage _ _ _ _ Ht) as Hnpg. split; rewrite ?Hnp, ?Hfr.
    + done.
    + intros d' Hd'. destruct (t_dir _ _ _ _ Ht d' Hd'). set_solver.
    + intros d' i' t Hk. apply lookup_insert_Some in Hk as [[[= <- <-] <-]|[_ Hk]].
      * split_and!; [done|lia..|set_solver|done].
      * destruct (t_tab _ _ _ _ Ht d' i' t Hk) as (? & ? & ? & ? & ?). split_and!; [done|lia..|set_solver|done].
    + intros k k' t Hk Hk'. apply lookup_insert_Some in Hk as [[<- <-]|[_ Hk]];
        apply lookup_insert_Some in Hk' as [[<- Ht']|[_ Hk']]; try done; try (by apply HpT in Hk'); subst;
        try (by apply HpT in Hk). by apply (t_inj _ _ _ _ Ht k k' t).
    + intros d' i' Hd' Hi'. rewrite Hword. pose proof (t_pde _ _ _ _ Ht d' i' Hd' Hi') as Hp.
      rewrite (bool_decide_false (p = d')) by (intros ->; done).
      destruct (decide ((d, i) = (d', i'))) as [[= <- <-]|Hne].
      * rewrite bool_decide_true, lookup_insert_eq by done. split; [apply present_entry|].
        apply frame_entry; [lia|done].
      * rewrite bool_decide_false, lookup_insert_ne by naive_solver. done.
    + intros d' i' t j Hk Hj. rewrite Hword.
      assert (HtD : t ∉ D).
      { apply lookup_insert_Some in Hk as [[_ <-]|[_ Hk]]; [done|]. by apply (t_tab _ _ _ _ Ht d' i' t) in Hk as (_ & _ & _ & _ & ?). }
      rewrite (bool_decide_false (d = t /\ i = j)) by (intros [-> _]; done).
      apply lookup_insert_Some in Hk as [[[= <- <-] <-]|[_ Hk]].
      * rewrite bool_decide_true by done. destruct (A !! (d, i * 1024 + j)) as [w|] eqn:HA; [|done].
        destruct (t_dom _ _ _ _ Ht d _ w HA) as (_ & _ & [t Ht']).
        rewrite Z.div_add_l, (Z.div_small j), Z.add_0_r, HT in Ht' by lia. done.
      * rewrite bool_decide_false by (intros ->; by apply HpT in Hk). by apply (t_pte _ _ _ _ Ht).
    + intros d' v w HA. destruct (t_dom _ _ _ _ Ht d' v w HA) as (? & ? & [t Ht']). split_and!; [done..|].
      destruct (decide ((d, i) = (d', v / 1024))) as [<-|]; [rewrite lookup_insert_eq; eauto|].
      rewrite lookup_insert_ne by done. eauto.
  - apply (cache_frame m); [done| |done]. intros q. rewrite Hpages.
    destruct (decide (p = q)) as [<-|]; [|by rewrite lookup_insert_ne].
    rewrite lookup_insert_eq, Hpg. cbn. unfold cached. cbn. by rewrite Hs0.
  - split; rewrite ?Hnp, ?Hsw, ?Hfr; try apply Hn.
    + intros q qg [Hne Hq]%Hdata'. rewrite Hpages, lookup_insert_ne by done. by apply Hn.
    + intros q [Hq Hne]%elem_of_difference. destruct (n_free _ _ _ _ _ _ Hn q Hq) as (? & qg & ?).
      split; [done|]. exists qg. rewrite Hpages, lookup_insert_ne; [done|]. set_solver.
    + intros d' v w HA Hw. destruct (n_present _ _ _ _ _ _ Hn d' v w HA Hw) as (? & Hdp & qg & Hq & Hr').
      pose proof (mapped_not_free D T A ext sext m (d', v) w Hn HA Hw) as Hnf.
      assert (frame_of w <> p) by (intros Heq; rewrite Heq in Hnf; done).
      split; [done|]. split; [by apply Hdata|]. exists qg. by rewrite Hpages, lookup_insert_ne.
    + intros d' i' t Hk. rewrite Hpages. apply lookup_insert_Some in Hk as [[[= <- <-] <-]|[_ Hk]].
      * exists (set_ref 1 pg). by rewrite lookup_insert_eq.
      * destruct (n_table _ _ _ _ _ _ Hn d' i' t Hk) as (qg & ?). exists qg.
        rewrite lookup_insert_ne; [done|]. intros <-. by apply HpT in Hk.
    + intros q qg Hq Hqs. rewrite Hpages in Hq. apply lookup_insert_Some in Hq as [[<- <-]|[Hne Hq]]; [cbn in Hqs; congruence|].
      destruct (n_cached _ _ _ _ _ _ Hn q qg Hq Hqs) as (? & ? & ?). split; [by apply Hdata|done].
  - split; [rewrite Hfr; set_solver|]. intros q Hq Hqd. assert (q <> p) by (intros ->; done).
    split; [by apply Hdata|]. split; [by rewrite Hpages, lookup_insert_ne|]. intros j. rewrite Hword.
    rewrite (bool_decide_false (p = q)), bool_decide_false; [done| |done]. intros [-> _]. by destruct Hqd.
Qed.

Lemma pde_entry p : Z.lor (Z.lor (Z.lor (page2pa p) PTE_U) PTE_W) PTE_P = entry p (Z.lor PTE_U PTE_W).
Proof.
  unfold entry. apply Z.bits_inj'. intros n Hn. rewrite !Z.lor_spec.
  destruct (Z.testbit (page2pa p) n), (Z.testbit PTE_U n), (Z.testbit PTE_W n), (Z.testbit PTE_P n); done.
Qed.

Lemma get_pte_there m D T A d la t :
  tables_ok m D T A -> d ∈ D -> 0 <= la < USERTOP -> T !! (d, PDX la) = Some t ->
  get_pte d la true m = Ret (Some (t, PTX la), m).
Proof.
  intros Ht Hd Hla HT. destruct (user_index la Hla) as (Hi & _). destruct (t_dir _ _ _ _ Ht d Hd) as [Hdr _].
  pose proof (get_pte_look m D T A d la Ht Hd Hla) as Hl. rewrite HT in Hl. cbn in Hl. rewrite <- Hl.
  unfold get_pte. rewrite !(bind_step _ _ _ _ _ (rd_word_run m d _ Hdr)).
  pose proof (t_pde _ _ _ _ Ht d _ Hd Hi) as Hp. rewrite HT in Hp. destruct Hp as [Hp _].
  unfold present in Hp. by rewrite Hp.
Qed.

(** [get_pte] with [create]: the table is there, or is made of a free page, or there
    is no page. *)
Lemma get_pte_create m D T A ext sext d la :
  inv m D T A ext sext -> d ∈ D -> 0 <= la < USERTOP ->
  exists o m' T', get_pte d la true m = Ret (o, m') /\ o = (fun t => (t, PTX la)) <$> T' !! (d, PDX la) /\
    T ⊆ T' /\ inv m' D T' A ext sext /\ npage m' = npage m /\ untouched D T T' m m'.
Proof.
  intros Hinv Hd Hla. pose proof Hinv as [Ht _ Hn]. destruct (user_index la Hla) as (Hi & Hj & _).
  destruct (t_dir _ _ _ _ Ht d Hd) as [Hdr _].
  destruct (T !! (d, PDX la)) as [t|] eqn:HT.
  { exists (Some (t, PTX la)), m, T. rewrite HT. split; [|split_and!; done]. by apply (get_pte_there m D T A). }
  unfold get_pte. rewrite (bind_step _ _ _ _ _ (rd_word_run m d _ Hdr)). fold (present (word m d (PDX la))).
  pose proof (t_pde _ _ _ _ Ht d _ Hd Hi) as Hp. rewrite HT in Hp. rewrite Hp. cbn [negb].
  destruct (alloc_page_run m) as (o & m1 & Hr & Hnp & Hf1 & Hp1 & Hs1 & Ho).
  destruct o as [p|].
  - destruct Ho as [Hpf Hfr1]. destruct (n_free _ _ _ _ _ _ Hn p Hpf) as (Hpr & pg & Hpg & _).
    assert (Hpg1 : pages m1 !! p = Some pg) by (by rewrite Hp1).
    set (m2 := set_word d (PDX la) (entry p (Z.lor PTE_U PTE_W)) (upd_frames <[p := ∅]> (set_page p (set_ref 1 pg) m1))).
    assert (Hrun : (o <- alloc_page ;; match o with
           | None => ret false
           | Some p =>
               set_page_ref p 1 ;; zero_frame p ;;
               wr_word d (PDX la) (Z.lor (Z.lor (Z.lor (page2pa p) PTE_U) PTE_W) PTE_P) ;; ret true
           end) m = Ret (true, m2)).
    { rewrite (bind_step _ _ _ _ _ Hr). unfold set_page_ref.
      rewrite (bind_step _ _ _ _ _ (update_page_run _ _ _ _ Hpg1)).
      unfold zero_frame. erewrite bind_step; [|erewrite bind_step; [reflexivity|apply KADDR_run; cbn; by rewrite Hnp]].
      erewrite bind_step; [|apply wr_word_run; cbn; by rewrite Hnp]. by rewrite pde_entry. }
    rewrite (bind_step _ _ _ _ _ Hrun). clear Hrun.
    destruct (new_table m m2 D T A ext sext d (PDX la) p pg Hinv Hd Hi HT Hpf Hpg) as [Hinv2 Hu2].
    + done.
    + done.
    + done.
    + cbn. by rewrite Hp1.
    + cbn. by rewrite Hf1.
    + exists (Some (p, PTX la)), m2, (<[(d, PDX la) := p]> T). rewrite lookup_insert_eq.
      split; [|split_and!; [done|by apply insert_subseteq|done|done|done..]].
      rewrite (bind_step _ _ _ _ _ (rd_word_run m2 d _ ltac:(cbn; by rewrite Hnp))).
      unfold m2 at 1. rewrite word_set_word, bool_decide_true by done.
      pose proof (t_npage _ _ _ _ Ht). fold (frame_of (entry p (Z.lor PTE_U PTE_W))).
      rewrite frame_entry by (done || lia).
      rewrite (bind_step _ _ _ _ _ (KADDR_run m2 p ltac:(cbn; by rewrite Hnp))).
      unfold m2 at 1. rewrite word_set_word, bool_decide_true by done.
      fold (frame_of (entry p (Z.lor PTE_U PTE_W))). rewrite frame_entry by (done || lia). done.
  - exists None, m1, T. rewrite HT. split; [by erewrite bind_step by (rewrite (bind_step _ _ _ _ _ Hr); reflexivity)|].
    split_and!; try done.
    + apply (inv_shrink m); try done. by rewrite Ho.
    + split; [by rewrite Ho|]. intros q _ Hq. rewrite Hp1. split_and!; [done..|]. intros j. unfold word. by rewrite Hf1.
Qed.
End PmmInv.
