(* ===== verification/PmmMap.v ===== *)
(** * Page tables: mapping and copying

    [page_insert] puts one entry into the address map, [copy_range] copies a range of it
    with copy-on-write; both keep the reference counts exact. *)

From S2P Require Import Prelude CString Vmm Swap Pmm PmmInv.
Open Scope Z_scope.

Module PmmMap.
Import Swap Pmm PmmInv.

(** One more reference held outside the address map. *)
Definition add_ext (p x : Z) (ext : Z -> Z) (q : Z) : Z := if q =? p then ext q + x else ext q.

Section Insert.
Context (D : gset Z).

(** The reference count of a page changes together with the outside references. *)
Lemma inv_ref m T A ext sext p pg x :
  inv m D T A ext sext -> pages m !! p = Some pg -> p ∉ free m -> 0 <= ext p + x ->
  inv (set_page p (set_ref (ref pg + x) pg) m) D T A (add_ext p x ext) sext.
Proof using Type.
  intros [Ht Hc Hn] Hpg Hpf Hx. split.
  - apply (tables_frame m); [done..|by left|done].
  - apply (cache_frame m); [done| |done]. intros q. cbn.
    destruct (decide (p = q)) as [<-|]; [|by rewrite lookup_insert_ne]. by rewrite lookup_insert_eq, Hpg.
  - assert (Hlook : forall q qg, pages m !! q = Some qg -> PageReserved qg = false ->
      exists qg', pages (set_page p (set_ref (ref pg + x) pg) m) !! q = Some qg' /\ PageReserved qg' = false).
    { intros q qg Hq Hr. cbn. destruct (decide (p = q)) as [<-|].
      - rewrite lookup_insert_eq. rewrite Hpg in Hq. injection Hq as ->. eauto.
      - rewrite lookup_insert_ne by done. eauto. }
    destruct Hn as [H1 H2 H3 H4 H5 H6 H7 H8]. split; try done.
    + intros q qg Hq Hqg. cbn in Hqg. unfold add_ext.
      apply lookup_insert_Some in Hqg as [[<- <-]|[Hne Hqg]].
      * rewrite Z.eqb_refl. cbn. rewrite (H1 p pg Hq Hpg). lia.
      * rewrite (proj2 (Z.eqb_neq q p)) by done. by apply H1.
    + intros q. unfold add_ext. destruct (Z.eqb_spec q p) as [->|]; [|done]. destruct (H3 p). lia.
    + intros q Hq. destruct (H4 q Hq) as (? & qg & ?). split; [done|]. exists qg. cbn.
      rewrite lookup_insert_ne; [done|]. by intros <-.
    + intros d v w Hk Hw. destruct (H5 d v w Hk Hw) as (? & ? & qg & Hq & Hr).
      do 2 (split; [done|]). by apply (Hlook _ qg).
    + intros d i t Ht0. destruct (H7 d i t Ht0) as (qg & Hq & Hr). by apply (Hlook _ qg).
    + intros q qg Hq Hqs. cbn in Hq. apply lookup_insert_Some in Hq as [[<- <-]|[_ Hq]]; [by apply (H8 p pg)|by apply H8].
Qed.

(** An entry for page [p] is put in place of none, or of another entry for [p]. *)
Lemma counts_enter m T A ext sext k p pg perm :
  counts_ok m D T A (if A !! k is Some _ then ext else add_ext p 1 ext) sext -> 0 <= p < 2 ^ 20 -> p < npage m ->
  0 <= perm < 4096 -> data_page D T p -> pages m !! p = Some pg -> PageReserved pg = false ->
  (forall w, A !! k = Some w -> present w = true /\ frame_of w = p) -> (forall q, 0 <= ext q) ->
  counts_ok m D T (<[k := entry p perm]> A) ext sext.
Proof using Type.
  intros Hn Hp Hpn Hperm Hdp Hpg Hres HA Hext.
  assert (Hmt : forall q, maps_to q (entry p perm) = (p =? q)).
  { intros q. unfold maps_to. by rewrite present_entry, frame_entry. }
  assert (Hst : forall o, swaps_to o (entry p perm) = false).
  { intros o. unfold swaps_to. by rewrite present_entry. }
  assert (Hcount : forall q, count (maps_to q) (<[k := entry p perm]> A) + ext q =
    count (maps_to q) A + (if A !! k is Some _ then ext else add_ext p 1 ext) q).
  { intros q. rewrite count_put, Hmt. destruct (A !! k) as [w|] eqn:Hk.
    - destruct (HA w eq_refl) as [Hw Hf]. unfold maps_to at 2. rewrite Hw, Hf. cbn [andb]. lia.
    - unfold add_ext. rewrite (Z.eqb_sym p q). destruct (q =? p); lia. }
  assert (Hcount' : forall o, count (swaps_to o) (<[k := entry p perm]> A) = count (swaps_to o) A).
  { intros o. rewrite count_put, Hst. destruct (A !! k) as [w|] eqn:Hk; [|lia].
    destruct (HA w eq_refl) as [Hw Hf]. unfold swaps_to at 2. rewrite Hw. cbn. lia. }
  destruct Hn as [H1 H2 H3 H4 H5 H6 H7 H8]. split; try done.
  - intros q qg Hq Hqg. rewrite Hcount. by apply H1.
  - intros o c Ho. rewrite Hcount'. by apply H2.
  - intros q. split; [done|]. apply H3.
  - intros d v w Hk Hw. apply lookup_insert_Some in Hk as [[_ <-]|[_ Hk]]; [|by apply (H5 d v)].
    rewrite frame_entry by done. split; [lia|]. split; [done|]. eauto.
  - intros d v w Hk Hw. apply lookup_insert_Some in Hk as [[_ <-]|[_ Hk]]; [|by apply (H6 d v)].
    by rewrite present_entry in Hw.
Qed.

(** What [page_insert] does after [get_pte]. *)
Lemma insert_at_run m T A ext sext d la t p pg perm :
  inv m D T A ext sext -> T !! (d, PDX la) = Some t -> 0 <= la < USERTOP -> 0 <= perm < 4096 ->
  pages m !! p = Some pg -> p ∉ free m -> data_page D T p -> 0 <= p < npage m -> PageReserved pg = false ->
  exists m', (page_ref_inc p ;;
      pte <- rd_pte (t, PTX la) ;;
      (if negb (pte =? 0) then
         same <- (if has pte PTE_P then q <- pte2page pte ;; ret (q =? p) else ret false) ;;
         if (same : bool) then page_ref_dec p ;; ret tt
         else page_remove_pte d la (t, PTX la)
       else ret tt) ;;
      wr_pte (t, PTX la) (Z.lor (Z.lor (page2pa p) PTE_P) perm) ;;
      ret 0) m = Ret (0, m') /\
    inv m' D T (<[(d, la / 4096) := entry p perm]> A) ext sext /\ npage m' = npage m /\ same_data D T m m' /\ settles m m'.
Proof using Type.
  intros Hinv HT Hla Hperm Hpg Hpf Hdp Hpr Hres. destruct (user_index la Hla) as (Hi & Hj & Hv).
  pose proof Hinv as [Ht Hc Hn]. destruct (t_tab _ _ _ _ Ht d _ t HT) as (_ & _ & Htr & _).
  pose proof (t_npage _ _ _ _ Ht) as Hnp. set (k := (d, la / 4096)).
  assert (Hext : forall q, 0 <= ext q) by (intros q; apply (n_ext _ _ _ _ _ _ Hn)).
  rewrite (bind_step _ _ _ _ _ (page_ref_inc_run _ _ _ Hpg)).
  set (pg1 := set_ref (ref pg + 1) pg). set (m1 := set_page p pg1 m).
  assert (Hst1 : settles m m1) by (by apply (settles_put m m1 p pg pg1)).
  assert (Hinv1 : inv m1 D T A (add_ext p 1 ext) sext).
  { apply inv_ref; try done. specialize (Hext p). lia. }
  unfold rd_pte, wr_pte. cbn [fst snd]. rewrite (bind_step _ _ _ _ _ (rd_word_run m1 t _ Htr)).
  change (word m1 t (PTX la)) with (word m t (PTX la)).
  rewrite (t_pte _ _ _ _ Ht d _ t _ HT Hj), Hv. fold k. fold (entry p perm).
  assert (Hfin : forall m2 A2 pg2, tables_ok m2 D T A2 -> cache_ok m2 -> npage m2 = npage m -> same_data D T m m2 -> settles m m2 ->
    <[k := entry p perm]> A2 = <[k := entry p perm]> A ->
    counts_ok m2 D T A2 (if A2 !! k is Some _ then ext else add_ext p 1 ext) sext ->
    pages m2 !! p = Some pg2 -> PageReserved pg2 = false ->
    (forall w, A2 !! k = Some w -> present w = true /\ frame_of w = p) ->
    exists m', (wr_word t (PTX la) (entry p perm) ;; ret 0) m2 = Ret (0, m') /\
      inv m' D T (<[k := entry p perm]> A) ext sext /\ npage m' = npage m /\ same_data D T m m' /\ settles m m').
  { intros m2 A2 pg2 Ht2 Hc2 Hn2 Hsd2 Hst2 HA2 Hcn2 Hpg2 Hres2 Hk2.
    rewrite (bind_step _ _ _ _ _ (wr_word_run m2 t _ _ ltac:(by rewrite Hn2))).
    eexists. split; [done|]. split.
    2:{ split; [done|]. split; [|exact Hst2]. apply (same_data_trans D T T m m2); [done..|]. by apply (same_data_table D T (d, PDX la)). }
    rewrite <- HA2. split.
    - pose proof (tables_put m2 D T A2 d (PDX la) t (PTX la) (entry p perm) Ht2 HT Hj) as Hput.
      unfold put_entry in Hput. rewrite (proj2 (Z.eqb_neq _ _) (entry_nonzero p perm)), Hv in Hput. exact Hput.
    - by apply cache_set_word.
    - apply counts_set_word. apply (counts_enter m2 T A2 ext sext k p pg2 perm); try done; [lia|]. rewrite Hn2. lia. }
  destruct (A !! k) as [w|] eqn:Hk; cbn [default from_option id].
  2:{ change (negb (0 =? 0)) with false. cbv iota. rewrite bind_ret. destruct Hinv1 as [Ht1 Hc1 Hn1]. apply (Hfin m1 A pg1); try done.
      - by rewrite Hk.
      - apply lookup_insert_eq.
      - by rewrite Hk. }
  destruct (t_dom _ _ _ _ Ht d (la / 4096) w Hk) as (Hw0 & _). rewrite (proj2 (Z.eqb_neq w 0) Hw0). cbn [negb].
  assert (Hsame : exists b, (if has w PTE_P then q <- pte2page w ;; ret (q =? p) else ret false) m1 = Ret (b, m1) /\
    (b = true <-> present w = true /\ frame_of w = p)).
  { fold (present w). destruct (present w) eqn:Hw; [|exists false; split; [done|by split; [|intros []]]].
    destruct (n_present _ _ _ _ _ _ Hn d (la / 4096) w Hk Hw) as (Hfr & _).
    rewrite (bind_step _ _ _ _ _ (pte2page_run m1 w Hw ltac:(cbn; lia))).
    exists (frame_of w =? p). split; [done|]. rewrite Z.eqb_eq. naive_solver. }
  destruct Hsame as (b & Hrun & Hb). destruct b.
  - destruct (proj1 Hb eq_refl) as [Hw Hf].
    assert (Hl : pages m1 !! p = Some pg1) by apply lookup_insert_eq.
    rewrite (bind_step _ _ _ tt (set_page p (set_ref (ref pg1 - 1) pg1) m1)).
    2:{ rewrite (bind_step _ _ _ _ _ Hrun). by rewrite (bind_step _ _ _ _ _ (page_ref_dec_run _ _ _ Hl)). }
    assert (Hm : set_page p (set_ref (ref pg1 - 1) pg1) m1 = m).
    { unfold m1, set_page, upd_pages, pg1. cbn. rewrite insert_insert_eq.
      assert (set_ref (ref pg + 1 - 1) (set_ref (ref pg + 1) pg) = pg) as ->.
      { destruct pg. unfold set_ref. cbn. f_equal. lia. }
      rewrite insert_id by done. by destruct m. }
    rewrite Hm. apply (Hfin m A pg); try done; [by apply settles_refl|by rewrite Hk|]. intros w' Hw'. rewrite Hk in Hw'. by injection Hw' as <-.
  - destruct (remove_pte_run m1 D T A (add_ext p 1 ext) sext d (PDX la) t (PTX la) la Hinv1 HT Hj)
      as (m2 & Hr & Hinv2 & Hn2 & Hst & Hsd & _). rewrite Hv in Hinv2. fold k in Hinv2.
    rewrite (bind_step _ _ _ tt m2) by (by rewrite (bind_step _ _ _ _ _ Hrun)).
    destruct Hinv2 as [Ht2 Hc2 Hcn2].
    assert (exists pg2, pages m2 !! p = Some pg2 /\ PageReserved pg2 = false) as (pg2 & Hpg2 & Hres2).
    { apply (proj1 Hst p pg1); [apply lookup_insert_eq|done]. }
    apply (Hfin m2 (delete k A) pg2); try done.
    + by apply (settles_trans m m1 m2).
    + by rewrite insert_delete_eq.
    + by rewrite lookup_delete_eq.
    + by rewrite lookup_delete_eq.
Qed.

Lemma page_insert_run m T A ext sext d la p pg perm :
  inv m D T A ext sext -> d ∈ D -> 0 <= la < USERTOP -> 0 <= perm < 4096 ->
  pages m !! p = Some pg -> p ∉ free m -> data_page D T p -> 0 <= p < npage m -> PageReserved pg = false ->
  exists r m' T', page_insert d p la perm m = Ret (r, m') /\ T ⊆ T' /\ npage m' = npage m /\
    (forall q, data_page D T q -> q ∉ free m -> forall j, word m' q j = word m q j) /\
    (forall q qg, data_page D T q -> q ∉ free m -> pages m !! q = Some qg -> PageReserved qg = false ->
       data_page D T' q /\ exists qg', pages m' !! q = Some qg' /\ PageReserved qg' = false /\
         (PageSwap qg' = true -> PageSwap qg = true /\ index qg = index qg')) /\
    match T' !! (d, PDX la) with
    | Some _ => r = 0 /\ inv m' D T' (<[(d, la / 4096) := entry p perm]> A) ext sext
    | None => r = - E_NO_MEM /\ inv m' D T' A ext sext /\ untouched D T T' m m'
    end.
Proof using Type.
  intros Hinv Hd Hla Hperm Hpg Hpf Hdp Hpr Hres.
  destruct (get_pte_create m D T A ext sext d la Hinv Hd Hla) as (o & m1 & T1 & Hr & -> & HT1 & Hinv1 & Hn1 & Hun0).
  pose proof Hun0 as [Hfr1 Hun].
  unfold page_insert. rewrite (bind_step _ _ _ _ _ Hr). destruct (Hun p Hpf Hdp) as (Hdp1 & Hpg1 & _).
  destruct (T1 !! (d, PDX la)) as [t|] eqn:HT; cbn [fmap option_fmap option_map].
  - destruct (insert_at_run m1 T1 A ext sext d la t p pg perm) as (m2 & Hr2 & Hinv2 & Hn2 & Hsd2 & Hst2); try done.
    + by rewrite Hpg1.
    + set_solver.
    + by rewrite Hn1.
    + exists 0, m2, T1. rewrite HT. split; [exact Hr2|]. split_and!; [done|congruence| | |done|done].
      * intros q Hq Hqf j. destruct (Hun q Hqf Hq) as (Hq1 & _ & Hw). by rewrite Hsd2.
      * intros q qg Hq Hqf Hqg Hqr. destruct (Hun q Hqf Hq) as (Hq1 & Hpq & _). split; [done|]. rewrite <- Hpq in Hqg.
        destruct (proj1 Hst2 q qg Hqg Hqr) as (qg' & Hqg' & Hqr'). exists qg'. split_and!; [done..|]. intros Hs.
        destruct (proj2 Hst2 q qg' Hqg' Hs) as (qg0 & Hqg0 & ? & ?). rewrite Hqg in Hqg0. by injection Hqg0 as <-.
  - exists (- E_NO_MEM), m1, T1. rewrite HT. split_and!; try done.
    + intros q Hq Hqf. by apply Hun.
    + intros q qg Hq Hqf Hqg Hqr. destruct (Hun q Hqf Hq) as (Hq1 & Hpq & _). split; [done|]. exists qg. by rewrite Hpq.
Qed.

(** A page without references goes back to the allocator. *)
Lemma inv_free m T A ext sext p pg :
  inv m D T A ext sext -> pages m !! p = Some pg -> ref pg = 0 -> PageSwap pg = false -> PageReserved pg = false ->
  data_page D T p -> 0 <= p < npage m ->
  free_page p m = Ret (tt, upd_free ({[p]} ∪.) (set_page p (freed_page pg) m)) /\
  inv (upd_free ({[p]} ∪.) (set_page p (freed_page pg) m)) D T A ext sext.
Proof using Type.
  intros [Ht Hc Hn] Hpg Href Hsw Hres Hdp Hpr. split; [by apply free_page_run|]. split.
  - apply (tables_frame m); [done..| |done]. cbn. intros q [->%elem_of_singleton|?]%elem_of_union; [by right|by left].
  - apply (cache_frame m); [done| |done]. intros q. cbn.
    destruct (decide (p = q)) as [<-|]; [|by rewrite lookup_insert_ne].
    rewrite lookup_insert_eq, Hpg. cbn. unfold cached. cbn. by rewrite Hsw.
  - assert (Hkp : keeps m (upd_free ({[p]} ∪.) (set_page p (freed_page pg) m))) by (by apply (keeps_put _ _ p (freed_page pg))).
    destruct Hn as [H1 H2 H3 H4 H5 H6 H7 H8]. split; try done.
    + intros q qg Hq Hqg. cbn in Hqg. apply lookup_insert_Some in Hqg as [[<- <-]|[_ Hqg]]; [|by apply H1].
      rewrite <- (H1 p pg) by done. done.
    + intros q Hq. cbn. destruct (decide (p = q)) as [<-|Hne].
      * split; [done|]. eexists. by rewrite lookup_insert_eq.
      * rewrite lookup_insert_ne by done. apply H4. cbn in Hq. set_solver.
    + intros d v w Hk Hw. destruct (H5 d v w Hk Hw) as (? & ? & qg & Hq & Hr). do 2 (split; [done|]). by apply (Hkp _ qg).
    + intros d i t Hk. destruct (H7 d i t Hk) as (qg & Hq & Hr). by apply (Hkp _ qg).
    + intros q qg Hq Hqs. cbn in Hq. apply lookup_insert_Some in Hq as [[<- <-]|[_ Hq]]; [done|by apply H8].
Qed.

(** A page from the allocator. *)
Lemma fresh_page m m1 T A ext sext p :
  inv m D T A ext sext -> p ∈ free m -> npage m1 = npage m -> frames m1 = frames m -> pages m1 = pages m ->
  sw m1 = sw m -> free m1 = free m ∖ {[p]} ->
  inv m1 D T A ext sext /\ data_page D T p /\ 0 <= p < npage m1 /\ (p ∉ free m1) /\
  exists pg, pages m1 !! p = Some pg /\ ref pg = 0 /\ PageSwap pg = false /\ PageReserved pg = false.
Proof using Type.
  intros Hinv Hpf Hnp Hf1 Hp1 Hs1 Hfr1. pose proof Hinv as [Ht _ Hn].
  destruct (n_free _ _ _ _ _ _ Hn p Hpf) as (Hpr & Hpg). rewrite Hnp, Hp1, Hfr1.
  split; [apply (inv_shrink m); try done; rewrite Hfr1; set_solver|]. split; [|split_and!; [lia..|set_solver|done]].
  split; [intros HD; by apply (t_dir _ _ _ _ Ht p HD)|]. intros [d i] Hk.
  by destruct (t_tab _ _ _ _ Ht d i p Hk) as (_ & _ & _ & ? & _).
Qed.

Lemma pgdir_alloc_page_run m T A ext sext d la perm :
  inv m D T A ext sext -> d ∈ D -> 0 <= la < USERTOP -> 0 <= perm < 4096 ->
  exists o m' T', pgdir_alloc_page d la perm m = Ret (o, m') /\ T ⊆ T' /\ npage m' = npage m /\
    match o with
    | Some p => p ∈ free m /\ inv m' D T' (<[(d, la / 4096) := entry p perm]> A) ext sext
    | None => inv m' D T' A ext sext
    end.
Proof using Type.
  intros Hinv Hd Hla Hperm. destruct (alloc_page_run m) as (o & m1 & Hr & Hnp & Hf1 & Hp1 & Hs1 & Ho).
  unfold pgdir_alloc_page. rewrite (bind_step _ _ _ _ _ Hr). destruct o as [p|].
  2:{ exists None, m1, T. split_and!; [done..|]. apply (inv_shrink m); try done. by rewrite Ho. }
  destruct Ho as [Hpf Hfr1].
  destruct (fresh_page m m1 T A ext sext p) as (Hinv1 & Hdp & Hpr & Hnf & pg & Hpg & Href & Hsw & Hres); try done.
  destruct (page_insert_run m1 T A ext sext d la p pg perm) as (r & m2 & T2 & Hr2 & HT2 & Hn2 & _ & _ & Hcase); try done.
  rewrite (bind_step _ _ _ _ _ Hr2). destruct (T2 !! (d, PDX la)) as [t|].
  - destruct Hcase as [-> Hinv2]. exists (Some p), m2, T2. split_and!; try done. congruence.
  - destruct Hcase as (-> & Hinv2 & Hfr2 & Hun). destruct (Hun p Hnf Hdp) as (Hdp2 & Hpg2 & _). rewrite Hpg in Hpg2.
    destruct (inv_free m2 T2 A ext sext p pg) as [Hr3 Hinv3]; try done; [by rewrite Hn2|].
    exists None. eexists _, T2. cbn [Z.eqb Z.opp negb]. change (negb (- E_NO_MEM =? 0)) with true. cbv iota.
    rewrite (bind_step _ _ _ _ _ Hr3). split_and!; [done|done| |done]. cbn. congruence.
Qed.

(** A page that is mapped can be mapped again. *)
Lemma page_insert_mapped m T A ext sext d la k w perm :
  inv m D T A ext sext -> d ∈ D -> is_Some (T !! (d, PDX la)) -> 0 <= la < USERTOP -> 0 <= perm < 4096 ->
  A !! k = Some w -> present w = true ->
  exists m' T', page_insert d (frame_of w) la perm m = Ret (0, m') /\ T ⊆ T' /\ npage m' = npage m /\
    inv m' D T' (<[(d, la / 4096) := entry (frame_of w) perm]> A) ext sext.
Proof using Type.
  intros Hinv Hd [t HT] Hla Hperm Hk Hw. destruct k as [d0 v0]. pose proof Hinv as [_ _ Hn].
  destruct (n_present _ _ _ _ _ _ Hn d0 v0 w Hk Hw) as (Hpr & Hdp & pg & Hpg & Hres).
  pose proof (mapped_not_free D T A ext sext m (d0, v0) w Hn Hk Hw) as Hnf.
  destruct (page_insert_run m T A ext sext d la (frame_of w) pg perm) as (r & m' & T' & Hr & HTT & Hnp & _ & _ & Hcase); try done.
  rewrite (lookup_weaken _ _ _ _ HT HTT) in Hcase. destruct Hcase as [-> Hinv']. by exists m', T'.
Qed.
End Insert.

(** ** [copy_range] *)

(** The entries that parent and child have after the copy of an entry: unless the page
    is shared, a writable page is writable in neither. *)
Definition cow (share : bool) (w : Z) : bool := negb share && has w PTE_W.
Definition child_perm (share : bool) (w : Z) : Z :=
  let perm := Z.land w PTE_USER in if cow share w then Z.ldiff perm PTE_W else perm.
Definition child_entry (share : bool) (w : Z) : Z :=
  if present w then entry (frame_of w) (child_perm share w) else w.
Definition parent_entry (share : bool) (w : Z) : Z :=
  if present w && cow share w then entry (frame_of w) (Z.lor (child_perm share w) (Z.land w PTE_SWAP)) else w.

(** [A'] is [A] after the copy of the pages of [from] in a range to [to]. *)
Definition is_copy (share : bool) (to from s e : Z) (A A' : gmap (Z * Z) Z) : Prop :=
  forall d v, A' !! (d, v) =
    if (s <=? v * 4096) && (v * 4096 <? e) then
      if d =? to then child_entry share <$> A !! (from, v)
      else if d =? from then parent_entry share <$> A !! (from, v)
      else A !! (d, v)
    else A !! (d, v).

(** The entries of one directory in a range. *)
Definition part (d s e : Z) (A : gmap (Z * Z) Z) : gmap (Z * Z) Z :=
  filter (fun kw => in_range d s e (fst kw) = true) A.

Lemma lookup_part d s e A k : part d s e A !! k = if in_range d s e k then A !! k else None.
Proof.
  unfold part. destruct (in_range d s e k) eqn:Hr.
  - destruct (A !! k) as [w|] eqn:Hk; [by apply map_lookup_filter_Some|].
    apply map_lookup_filter_None. by left.
  - apply map_lookup_filter_None. right. intros w _. cbn. congruence.
Qed.

(** The page at [s] and the rest of the range. *)
Lemma part_step d s e A :
  0 <= s -> s mod 4096 = 0 -> s < e ->
  delete (d, s / 4096) (part d s e A) = part d (s + 4096) e A.
Proof.
  intros H0 Ha He. apply map_eq. intros [d' v]. rewrite lookup_part.
  destruct (decide ((d, s / 4096) = (d', v))) as [[= <- <-]|Hne].
  - rewrite lookup_delete_eq. unfold in_range. cbn [fst snd].
    rewrite (proj2 (Z.leb_gt (s + 4096) (s / 4096 * 4096))) by dlia. by rewrite andb_false_r.
  - rewrite lookup_delete_ne, lookup_part by done. unfold in_range. cbn [fst snd].
    destruct (Z.eqb_spec d' d) as [->|]; [|done]. cbn [andb]. assert (v <> s / 4096) by congruence.
    destruct (Z.leb_spec s (v * 4096)), (Z.leb_spec (s + 4096) (v * 4096)); try done; exfalso; dlia.
Qed.

Lemma part_first d s e A : s mod 4096 = 0 -> s < e -> part d s e A !! (d, s / 4096) = A !! (d, s / 4096).
Proof.
  intros Ha He. rewrite lookup_part. unfold in_range. cbn [fst snd].
  by rewrite Z.eqb_refl, (proj2 (Z.leb_le _ _)), (proj2 (Z.ltb_lt _ _)) by dlia.
Qed.

Lemma is_copy_app share to from s x e A A1 A' :
  to <> from -> s <= x <= e -> is_copy share to from s x A A1 -> is_copy share to from x e A1 A' ->
  is_copy share to from s e A A'.
Proof.
  intros Hne Hx H1 H2 d v. rewrite H2.
  destruct (Z.leb_spec x (v * 4096)) as [Hv|Hv], (Z.ltb_spec (v * 4096) e) as [Hv'|Hv']; cbn [andb].
  - rewrite !H1, (proj2 (Z.ltb_ge _ _) Hv), andb_false_r, (proj2 (Z.leb_le s _)) by lia. done.
  - rewrite H1, (proj2 (Z.ltb_ge _ _) Hv), !andb_false_r. done.
  - rewrite H1, (proj2 (Z.ltb_lt _ _) Hv). by rewrite andb_true_r.
  - lia.
Qed.

Lemma is_copy_nil share to from s e A : e <= s -> is_copy share to from s e A A.
Proof.
  intros H d v. destruct (Z.leb_spec s (v * 4096)), (Z.ltb_spec (v * 4096) e); cbn [andb]; try done. lia.
Qed.

(** No entries, no copy. *)
Lemma is_copy_empty share to from s e A :
  (forall v, s <= v * 4096 < e -> A !! (from, v) = None /\ A !! (to, v) = None) -> is_copy share to from s e A A.
Proof.
  intros H d v. destruct (Z.leb_spec s (v * 4096)), (Z.ltb_spec (v * 4096) e); cbn [andb]; try done.
  destruct (H v ltac:(lia)) as [-> Ht]. destruct (Z.eqb_spec d to) as [->|]; [done|].
  destruct (Z.eqb_spec d from) as [->|]; [|done]. by destruct (H v ltac:(lia)) as [-> _].
Qed.

(** One page. *)
Lemma is_copy_one share to from s A w :
  to <> from -> s mod 4096 = 0 -> A !! (from, s / 4096) = Some w ->
  is_copy share to from s (s + 4096) A
    (<[(to, s / 4096) := child_entry share w]> (<[(from, s / 4096) := parent_entry share w]> A)).
Proof.
  intros Hne Ha Hw d v. destruct (decide (v = s / 4096)) as [->|Hv].
  - rewrite (proj2 (Z.leb_le _ _)), (proj2 (Z.ltb_lt _ _)) by dlia. cbn [andb]. rewrite Hw.
    destruct (Z.eqb_spec d to) as [->|]; [by rewrite lookup_insert_eq|]. rewrite lookup_insert_ne by congruence.
    destruct (Z.eqb_spec d from) as [->|]; [by rewrite lookup_insert_eq|]. by rewrite lookup_insert_ne by congruence.
  - rewrite !lookup_insert_ne by congruence.
    destruct (Z.leb_spec s (v * 4096)), (Z.ltb_spec (v * 4096) (s + 4096)); try done. exfalso. dlia.
Qed.

(** ** Permission bits *)

Lemma below_bits x n : 0 <= n -> 0 <= x -> (forall k, n <= k -> Z.testbit x k = false) -> 0 <= x < 2 ^ n.
Proof.
  intros Hn Hx Hb. split; [done|]. destruct (Z.eq_dec x 0) as [->|]; [lia|].
  apply Z.log2_lt_pow2; [lia|]. destruct (Z.lt_ge_cases (Z.log2 x) n) as [|Hge]; [done|].
  specialize (Hb _ Hge). rewrite Z.bit_log2 in Hb by lia. done.
Qed.

Lemma child_perm_range share w : 0 <= child_perm share w < 4096.
Proof.
  assert (0 <= Z.land w PTE_USER) by (apply Z.land_nonneg; right; done).
  change 4096 with (2 ^ 12). apply below_bits; [lia| |].
  - unfold child_perm. destruct (cow share w); [apply Z.ldiff_nonneg; auto|done].
  - intros k Hk. unfold child_perm. destruct (cow share w); rewrite ?Z.ldiff_spec, Z.land_spec;
      rewrite (high_bits PTE_USER 12) by done; by rewrite andb_false_r.
Qed.

Lemma parent_perm_range share w : 0 <= Z.lor (child_perm share w) (Z.land w PTE_SWAP) < 4096.
Proof.
  pose proof (child_perm_range share w). change 4096 with (2 ^ 12). apply below_bits; [lia| |].
  - apply Z.lor_nonneg. split; [lia|]. apply Z.land_nonneg. right. done.
  - intros k Hk. rewrite Z.lor_spec, Z.land_spec.
    rewrite (high_bits (child_perm share w) 12), (high_bits PTE_SWAP 12) by (done || lia). by rewrite andb_false_r.
Qed.

Lemma parent_frame share w : present w = true ->
  present (parent_entry share w) = true /\ frame_of (parent_entry share w) = frame_of w.
Proof.
  intros Hw. unfold parent_entry. rewrite Hw. cbn [andb]. destruct (cow share w); [|done].
  split; [apply present_entry|]. apply frame_entry; [apply frame_range|apply parent_perm_range].
Qed.

(** ** Copying a swapped entry *)

Lemma slot_share_run m D T A ext sext k k' w :
  inv m D T A ext sext -> A !! k = Some w -> present w = false -> A !! k' = None ->
  count (swaps_to (slot_of w)) A + sext (slot_of w) < MAX_SWAP_REF ->
  exists m', swap_duplicate w m = Ret (tt, m') /\ npage m' = npage m /\ frames m' = frames m /\ free m' = free m /\
    cache_ok m' /\ counts_ok m' D T (<[k' := w]> A) ext sext.
Proof.
  intros [Ht Hc Hn] Hk Hw Hk' Hroom. destruct k as [d v]. destruct k' as [d' v'].
  destruct (n_swapped _ _ _ _ _ _ Hn d v w Hk Hw) as [Hshape Hrange].
  destruct (c_map _ Hc _ Hrange) as (c & Hm & Hcr). pose proof (n_slot _ _ _ _ _ _ Hn _ _ Hm) as Hs.
  pose proof (count_pos (swaps_to (slot_of w)) A (d, v) w Hk) as Hp. unfold swaps_to in Hp at 1.
  rewrite Hw, Z.eqb_refl in Hp. specialize (Hp eq_refl).
  pose proof (n_ext _ _ _ _ _ _ Hn (slot_of w)) as Hext. unfold MAX_SWAP_REF in *.
  assert (Hcu : c <> SWAP_UNUSED /\ c = count (swaps_to (slot_of w)) A + sext (slot_of w)).
  { destruct (Z.eqb_spec c SWAP_UNUSED); [lia|]. done. }
  destruct Hcu as [Hcu Hcc]. unfold swap_duplicate.
  rewrite (bind_step _ _ _ _ _ (swap_offset_run m w Hrange)), (bind_step _ _ _ _ _ (get_map_run m _ c Hm)).
  rewrite assert_true by (apply andb_true_intro; split; [apply Z.leb_le|apply Z.ltb_lt; unfold MAX_SWAP_REF]; lia).
  unfold set_map. eexists. split_and!; [reflexivity|done|done|done| |].
  - apply (cache_set_map m _ (slot_of w) (c + 1)); try done; unfold SWAP_UNUSED; lia.
  - destruct Hn as [H1 H2 H3 H4 H5 H6 H7 H8]. split; try done.
    + intros q qg Hq Hqg. rewrite count_insert by done. unfold maps_to at 1. rewrite Hw. cbn [andb].
      rewrite Z.add_0_l. by apply H1.
    + intros o co Ho. rewrite count_insert by done. unfold swaps_to at 1. rewrite Hw. cbn [andb negb].
      cbn in Ho. apply lookup_insert_Some in Ho as [[<- <-]|[Hne Ho]].
      * rewrite Z.eqb_refl, (proj2 (Z.eqb_neq (c + 1) SWAP_UNUSED)) by (unfold SWAP_UNUSED; lia). lia.
      * rewrite (proj2 (Z.eqb_neq (slot_of w) o)) by done. rewrite Z.add_0_l. by apply H2.
    + intros d0 v0 w0 Hk0 Hw0. apply lookup_insert_Some in Hk0 as [[_ <-]|[_ Hk0]]; [congruence|by apply (H5 d0 v0)].
    + intros d0 v0 w0 Hk0 Hw0. apply lookup_insert_Some in Hk0 as [[_ <-]|[_ Hk0]]; [done|by apply (H6 d0 v0)].
Qed.

Section Copy.
Context (D : gset Z) (ext sext : Z -> Z) (to from : Z) (share : bool).
Hypothesis Hne : to <> from.
Hypothesis Hto : to ∈ D.
Hypothesis Hfrom : from ∈ D.

(** A present entry of [from] is copied to [to]. *)
Lemma copy_present_run m T A s w :
  inv m D T A ext sext -> 0 <= s < USERTOP -> A !! (from, s / 4096) = Some w -> present w = true ->
  is_Some (T !! (to, PDX s)) ->
  exists m' T', (
        let perm := Z.land w PTE_USER in
        p <- pte2page w ;;
        perm <- (if negb share && has w PTE_W then
                   let perm := Z.ldiff perm PTE_W in
                   page_insert from p s (Z.lor perm (Z.land w PTE_SWAP)) ;; ret perm
                 else ret perm) ;;
        r <- page_insert to p s perm ;;
        assert (r =? 0) ;;
        ret 0) m = Ret (0, m') /\ T ⊆ T' /\ npage m' = npage m /\
    inv m' D T' (<[(to, s / 4096) := child_entry share w]> (<[(from, s / 4096) := parent_entry share w]> A)) ext sext.
Proof using All.
  intros Hinv Hs Hk Hw HT. pose proof Hinv as [Ht _ Hn].
  destruct (n_present _ _ _ _ _ _ Hn from _ w Hk Hw) as (Hpr & _).
  destruct (t_dom _ _ _ _ Ht from _ w Hk) as (_ & _ & HTf). rewrite <- PDX_div in HTf by (unfold USERTOP in *; lia).
  cbv zeta. rewrite (bind_step _ _ _ _ _ (pte2page_run m w Hw ltac:(lia))).
  assert (Hpar : exists m1 T1, (if negb share && has w PTE_W then
                   page_insert from (frame_of w) s (Z.lor (Z.ldiff (Z.land w PTE_USER) PTE_W) (Z.land w PTE_SWAP)) ;;
                   ret (Z.ldiff (Z.land w PTE_USER) PTE_W)
                 else ret (Z.land w PTE_USER)) m = Ret (child_perm share w, m1) /\ T ⊆ T1 /\ npage m1 = npage m /\
     inv m1 D T1 (<[(from, s / 4096) := parent_entry share w]> A) ext sext).
  { unfold parent_entry. rewrite Hw. cbn [andb]. pose proof (parent_perm_range share w) as Hpp.
    unfold child_perm in *. fold (cow share w). destruct (cow share w).
    - destruct (page_insert_mapped D m T A ext sext from s (from, s / 4096) w
        (Z.lor (Z.ldiff (Z.land w PTE_USER) PTE_W) (Z.land w PTE_SWAP))) as (m1 & T1 & Hr & HT1 & Hn1 & Hinv1); try done.
      rewrite (bind_step _ _ _ _ _ Hr). by exists m1, T1.
    - exists m, T. rewrite insert_id by done. done. }
  destruct Hpar as (m1 & T1 & Hr1 & HT1 & Hn1 & Hinv1). rewrite (bind_step _ _ _ _ _ Hr1).
  destruct (parent_frame share w Hw) as [Hpw Hpf].
  destruct (page_insert_mapped D m1 T1 (<[(from, s / 4096) := parent_entry share w]> A) ext sext to s
    (from, s / 4096) (parent_entry share w) (child_perm share w)) as (m2 & T2 & Hr2 & HT2 & Hn2 & Hinv2);
    [done..| |done|apply child_perm_range|apply lookup_insert_eq|done|].
  - destruct HT as [t HT]. exists t. by apply (lookup_weaken T).
  - rewrite Hpf in Hr2, Hinv2. rewrite (bind_step _ _ _ _ _ Hr2). exists m2, T2.
    split; [done|]. split; [by trans T1|]. split; [congruence|]. unfold child_entry. by rewrite Hw.
Qed.

(** What [copy_pte] leads to: the entry is copied, or there is no page for a table. *)
Lemma copy_pte_run m T A s t w :
  inv m D T A ext sext -> 0 <= s < USERTOP -> T !! (from, PDX s) = Some t ->
  A !! (from, s / 4096) = Some w -> A !! (to, s / 4096) = None ->
  (present w = false -> count (swaps_to (slot_of w)) A + sext (slot_of w) < MAX_SWAP_REF) ->
  exists r m' T', copy_pte to from s share (t, PTX s) m = Ret (r, m') /\ T ⊆ T' /\ npage m' = npage m /\
    (r = 0 /\ inv m' D T' (<[(to, s / 4096) := child_entry share w]> (<[(from, s / 4096) := parent_entry share w]> A)) ext sext
     \/ r = - E_NO_MEM /\ inv m' D T' A ext sext).
Proof using All.
  intros Hinv Hs HT Hk Hk' Hroom. destruct (user_index s Hs) as (Hi & Hj & Hv).
  destruct (get_pte_create m D T A ext sext to s Hinv Hto Hs) as (o & m1 & T1 & Hr & -> & HT1 & Hinv1 & Hn1 & _).
  unfold copy_pte. rewrite (bind_step _ _ _ _ _ Hr).
  destruct (T1 !! (to, PDX s)) as [t'|] eqn:HTt; cbn [fmap option_fmap option_map].
  2:{ exists (- E_NO_MEM), m1, T1. split_and!; [done..|by right]. }
  pose proof (lookup_weaken _ _ _ _ HT HT1) as HTf. pose proof Hinv1 as [Ht1 Hc1 Hcn1].
  destruct (t_tab _ _ _ _ Ht1 _ _ _ HTf) as (_ & _ & Htr & _). destruct (t_tab _ _ _ _ Ht1 _ _ _ HTt) as (_ & _ & Htr' & _).
  unfold rd_pte. cbn [fst snd].
  rewrite (bind_step _ _ _ _ _ (rd_word_run m1 t _ Htr)), (bind_step _ _ _ _ _ (rd_word_run m1 t' _ Htr')).
  rewrite (t_pte _ _ _ _ Ht1 _ _ _ _ HTf Hj), (t_pte _ _ _ _ Ht1 _ _ _ _ HTt Hj), Hv, Hk, Hk'. cbn [default from_option id].
  destruct (t_dom _ _ _ _ Ht1 _ _ w Hk) as (Hw0 & _).
  rewrite assert_true by (by rewrite (proj2 (Z.eqb_neq w 0) Hw0)). fold (present w).
  destruct (present w) eqn:Hw.
  - destruct (copy_present_run m1 T1 A s w Hinv1 Hs Hk Hw) as (m2 & T2 & Hr2 & HT2 & Hn2 & Hinv2); [by eexists|].
    exists 0, m2, T2. split; [exact Hr2|]. split; [by trans T1|]. split; [congruence|by left].
  - destruct (slot_share_run m1 D T1 A ext sext (from, s / 4096) (to, s / 4096) w Hinv1 Hk Hw Hk' (Hroom eq_refl))
      as (m2 & Hr2 & Hn2 & Hf2 & Hfr2 & Hc2 & Hcn2).
    rewrite (bind_step _ _ _ _ _ Hr2). unfold wr_pte. cbn [fst snd].
    rewrite (bind_step _ _ _ _ _ (wr_word_run m2 t' (PTX s) w ltac:(by rewrite Hn2))).
    exists 0, (set_word t' (PTX s) w m2), T1. split_and!; [done|done|by rewrite <- Hn1|left]. split; [done|].
    assert (Hpar : parent_entry share w = w) by (unfold parent_entry; by rewrite Hw).
    unfold child_entry. rewrite Hw, Hpar, (insert_id A) by done. split.
    + assert (Ht2 : tables_ok m2 D T1 A) by (apply (tables_frame m1); [done..| |done]; rewrite Hfr2; by left).
      pose proof (tables_put m2 D T1 A to (PDX s) t' (PTX s) w Ht2 HTt Hj) as Hput.
      unfold put_entry in Hput. by rewrite (proj2 (Z.eqb_neq w 0) Hw0), Hv in Hput.
    + by apply cache_set_word.
    + by apply counts_set_word.
Qed.

(** Every slot has room for the entries still to be copied. *)
Definition room (s e : Z) (A : gmap (Z * Z) Z) : Prop :=
  forall off, count (swaps_to off) A + sext off + count (swaps_to off) (part from s e A) <= MAX_SWAP_REF.

Lemma room_entry s e A w :
  room s e A -> 0 <= s < e -> s mod 4096 = 0 -> A !! (from, s / 4096) = Some w -> present w = false ->
  count (swaps_to (slot_of w)) A + sext (slot_of w) < MAX_SWAP_REF.
Proof using Type.
  intros Hroom Hs Ha Hk Hw. specialize (Hroom (slot_of w)).
  pose proof (count_pos (swaps_to (slot_of w)) (part from s e A) (from, s / 4096) w) as Hp.
  rewrite part_first in Hp by (done || lia). unfold swaps_to in Hp at 1. rewrite Hw, Z.eqb_refl in Hp.
  specialize (Hp Hk eq_refl). lia.
Qed.

Lemma room_mono s s' e A : s <= s' -> room s e A -> room s' e A.
Proof using Type.
  intros Hle Hroom off. specialize (Hroom off).
  assert (count (swaps_to off) (part from s' e A) <= count (swaps_to off) (part from s e A)); [|lia].
  apply count_mono. apply map_subseteq_spec. intros k w. rewrite !lookup_part. unfold in_range.
  destruct (fst k =? from); [|done]. cbn [andb].
  destruct (Z.leb_spec s' (snd k * 4096)); [|done]. by rewrite (proj2 (Z.leb_le s _)) by lia.
Qed.

Lemma room_next s e A w :
  room s e A -> 0 <= s < e -> s mod 4096 = 0 -> A !! (from, s / 4096) = Some w -> A !! (to, s / 4096) = None ->
  room (s + 4096) e (<[(to, s / 4096) := child_entry share w]> (<[(from, s / 4096) := parent_entry share w]> A)).
Proof using Hne ext.
  intros Hroom Hs Ha Hk Hk' off. specialize (Hroom off).
  set (A1 := <[(to, s / 4096) := _]> _).
  assert (Hpart : part from (s + 4096) e A1 = delete (from, s / 4096) (part from s e A)).
  { rewrite part_step by (done || lia). apply map_eq. intros [d v]. rewrite !lookup_part.
    destruct (in_range from (s + 4096) e (d, v)) eqn:Hr; [|done]. unfold in_range in Hr. cbn [fst snd] in Hr.
    apply andb_prop in Hr as [[Hd%Z.eqb_eq Hv%Z.leb_le]%andb_prop _]. subst d. unfold A1.
    rewrite !lookup_insert_ne; [done|intros [= He]; dlia|intros [= He]; done]. }
  rewrite Hpart, (count_delete _ _ (from, s / 4096) w) by (rewrite part_first by (done || lia); done).
  unfold A1. rewrite !count_put, lookup_insert_ne, Hk, Hk' by congruence.
  assert (Hpar : swaps_to off (parent_entry share w) = swaps_to off w /\ swaps_to off (child_entry share w) = swaps_to off w).
  { unfold parent_entry, child_entry, swaps_to. destruct (present w) eqn:Hw; cbn [andb].
    - rewrite present_entry. cbn. destruct (cow share w); [by rewrite present_entry|by rewrite Hw].
    - by rewrite Hw. }
  destruct Hpar as [-> ->]. lia.
Qed.

Lemma copy_loop_run e : forall fuel s m T A,
  inv m D T A ext sext -> 0 <= s < e -> e <= USERTOP -> s mod 4096 = 0 -> e mod 4096 = 0 ->
  (forall v, s <= v * 4096 < e -> A !! (to, v) = None) -> room s e A ->
  ((e - s) / PGSIZE < Z.of_nat fuel) ->
  exists r m' T' A' e', copy_loop fuel to from s e share m = Ret (r, m') /\ T ⊆ T' /\ npage m' = npage m /\
    inv m' D T' A' ext sext /\ is_copy share to from s e' A A' /\
    (r = 0 /\ e' = e \/ r = - E_NO_MEM /\ s <= e' < e).
Proof using All.
  induction fuel as [|fuel IH]; intros s m T A Hinv Hs He Ha Hea Hempty Hroom Hf.
  { exfalso. unfold PGSIZE, Vmm.PGSIZE in Hf. dlia. }
  pose proof Hinv as [Ht _ _]. destruct (user_index s ltac:(lia)) as (Hi & Hj & Hv).
  cbn [copy_loop]. rewrite (bind_step _ _ _ _ _ (get_pte_look m D T A from s Ht Hfrom ltac:(lia))).
  assert (Hgo : forall m1 T1 A1 nxt, inv m1 D T1 A1 ext sext -> npage m1 = npage m -> T ⊆ T1 -> s < nxt <= s + PTSIZE ->
    nxt mod 4096 = 0 -> is_copy share to from s (Z.min nxt e) A A1 -> room nxt e A1 ->
    (forall v, nxt <= v * 4096 < e -> A1 !! (to, v) = None) ->
    exists r m' T' A' e', (if negb (nxt =? 0) && (nxt <? e) then copy_loop fuel to from nxt e share else ret 0) m1 = Ret (r, m') /\
      T ⊆ T' /\ npage m' = npage m /\ inv m' D T' A' ext sext /\ is_copy share to from s e' A A' /\
      (r = 0 /\ e' = e \/ r = - E_NO_MEM /\ s <= e' < e)).
  { intros m1 T1 A1 nxt Hinv1 Hn1 HT1 Hnx Hna Hcopy Hroom1 Hempty1.
    rewrite (proj2 (Z.eqb_neq nxt 0)) by lia. cbn [negb andb]. destruct (Z.ltb_spec nxt e) as [Hlt|Hge].
    - rewrite Z.min_l in Hcopy by lia. destruct (IH nxt m1 T1 A1) as (r & m' & T' & A' & e' & Hr & HT' & Hn' & Hinv' & Hc' & Hres);
        [done|lia|done|done|done|done|done|unfold PGSIZE, Vmm.PGSIZE, PTSIZE in *; dlia|].
      exists r, m', T', A', e'. split; [done|]. split; [by trans T1|]. split; [congruence|]. split; [done|].
      assert (nxt <= e') by (destruct Hres; lia).
      split; [apply (is_copy_app share to from s nxt e' A A1); try done; lia|]. destruct Hres as [?|[-> ?]]; [by left|right; lia].
    - rewrite Z.min_r in Hcopy by lia. exists 0, m1, T1, A1, e. split_and!; try done. by left. }
  destruct (T !! (from, PDX s)) as [t|] eqn:HT; cbn [fmap option_fmap option_map].
  - destruct (t_tab _ _ _ _ Ht from _ t HT) as (_ & _ & Htr & _).
    assert (Hu : u32 (s + PGSIZE) = s + 4096).
    { apply u32_small. unfold is_u32, PGSIZE, Vmm.PGSIZE, USERTOP in *. lia. }
    assert (Hstep : exists r m1 T1 A1, (pte <- rd_pte (t, PTX s) ;;
       r <- (if negb (pte =? 0) then copy_pte to from s share (t, PTX s) else ret 0) ;;
       ret (r, u32 (s + PGSIZE))) m = Ret ((r, s + 4096), m1) /\
       T ⊆ T1 /\ npage m1 = npage m /\ inv m1 D T1 A1 ext sext /\
       (r = 0 /\ is_copy share to from s (s + 4096) A A1 /\ room (s + 4096) e A1 \/ r = - E_NO_MEM /\ A1 = A)).
    { unfold rd_pte. cbn [fst snd]. rewrite (bind_step _ _ _ _ _ (rd_word_run m t _ Htr)).
      rewrite (t_pte _ _ _ _ Ht from _ t _ HT Hj), Hv, Hu.
      assert (Hk' : A !! (to, s / 4096) = None) by (apply Hempty; dlia).
      destruct (A !! (from, s / 4096)) as [w|] eqn:Hk; cbn [default from_option id].
      - destruct (t_dom _ _ _ _ Ht from _ w Hk) as [Hw0 _]. rewrite (proj2 (Z.eqb_neq w 0) Hw0). cbn [negb].
        destruct (copy_pte_run m T A s t w) as (r & m1 & T1 & Hr & HT1 & Hn1 & Hcase); try done; [lia| |].
        { intros Hw. by apply (room_entry s e). }
        rewrite (bind_step _ _ _ _ _ Hr). destruct Hcase as [[-> Hinv1]|[-> Hinv1]].
        + eexists 0, m1, T1, _. split_and!; try done. left. split; [done|]. split; [by apply is_copy_one|by apply room_next].
        + exists (- E_NO_MEM), m1, T1, A. split_and!; try done. by right.
      - exists 0, m, T, A. split_and!; try done. left. split; [done|]. split; [|by apply (room_mono s); [lia|]].
        apply is_copy_empty. intros v Hvr. assert (v = s / 4096) as -> by dlia. done. }
    destruct Hstep as (r & m1 & T1 & A1 & Hr & HT1 & Hn1 & Hinv1 & Hcase). rewrite (bind_step _ _ _ _ _ Hr).
    destruct Hcase as [(-> & Hc1 & Hroom1)|[-> ->]].
    + apply (Hgo m1 T1 A1); try done; [unfold PTSIZE, PGSIZE, Vmm.PGSIZE; lia|dlia|by rewrite Z.min_l by dlia|].
      intros v Hvr. rewrite Hc1, (proj2 (Z.ltb_ge (v * 4096) _)), andb_false_r by lia. apply Hempty. lia.
    + exists (- E_NO_MEM), m1, T1, A, s. split_and!; try done; [by apply is_copy_nil|right; lia].
  - rewrite bind_ret. destruct (next_table s ltac:(lia)) as (Hn1 & Hn2 & Hn3 & Hn4).
    apply (Hgo m T A); try done; [|by apply (room_mono s); [lia|]|intros v Hvr; apply Hempty; lia].
    apply is_copy_empty. intros v Hvr. split; [|apply Hempty; lia].
    destruct (A !! (from, v)) as [w|] eqn:Hk; [|done]. destruct (t_dom _ _ _ _ Ht from v w Hk) as (_ & Hv0 & HT').
    rewrite (Hn4 v Hv0), <- PDX_div, HT in HT' by (unfold USERTOP in *; lia). by destruct HT'.
Qed.

Lemma copy_range_run m T A s e :
  inv m D T A ext sext -> USER_ACCESS s e = true -> s mod 4096 = 0 -> e mod 4096 = 0 ->
  (forall v, s <= v * 4096 < e -> A !! (to, v) = None) -> room s e A ->
  exists r m' T' A' e', copy_range to from s e share m = Ret (r, m') /\ T ⊆ T' /\ npage m' = npage m /\
    inv m' D T' A' ext sext /\ is_copy share to from s e' A A' /\
    (r = 0 /\ e' = e \/ r = - E_NO_MEM /\ s <= e' < e).
Proof using All.
  intros Hinv Hacc Hs He Hempty Hroom. unfold copy_range.
  rewrite assert_true by (unfold PGSIZE, Vmm.PGSIZE; by rewrite Hs, He). rewrite assert_true by done.
  unfold USER_ACCESS, Vmm.USER_ACCESS, Vmm.USERBASE in Hacc.
  apply andb_prop in Hacc as [[H1%Z.leb_le H2%Z.ltb_lt]%andb_prop H3%Z.leb_le].
  apply copy_loop_run; try done; [lia|].
  unfold range_fuel. rewrite Nat2Z.inj_succ, Z2Nat.id; [lia|]. unfold PGSIZE, Vmm.PGSIZE. dlia.
Qed.
End Copy.

(** ** [exit_range] *)

(** A table without entries is given back. *)
Lemma drop_table m m1 D T A ext sext d i t pg :
  inv m D T A ext sext -> T !! (d, i) = Some t -> (forall j, 0 <= j < 1024 -> A !! (d, i * 1024 + j) = None) ->
  ext t = 0 -> pages m !! t = Some pg -> npage m1 = npage m -> sw m1 = sw m -> free m1 = {[t]} ∪ free m ->
  pages m1 = <[t := freed_page pg]> (pages m) -> frames m1 = frames (set_word d i 0 m) ->
  inv m1 D (delete (d, i) T) A ext sext.
Proof.
  intros [Ht Hc Hn] HT HA Hext Hpg Hnp Hsw Hfr Hpages Hframes.
  destruct (t_tab _ _ _ _ Ht d i t HT) as (Hd & Hi & Htr & Htf & HtD).
  assert (Hword : forall q j, word m1 q j = if bool_decide (d = q /\ i = j) then 0 else word m q j).
  { intros q j. rewrite <- word_set_word. unfold word. by rewrite Hframes. }
  assert (Hdata : forall q, data_page D (delete (d, i) T) q <-> data_page D T q \/ q = t).
  { intros q. split.
    - intros [HqD HqT]. destruct (decide (q = t)) as [->|Hq]; [by right|left]. split; [done|]. intros k Hk.
      apply (HqT k). rewrite lookup_delete_ne; [done|]. intros <-. congruence.
    - intros [[HqD HqT]| ->]; (split; [done|]); intros k [Hk Hk']%lookup_delete_Some; [by apply (HqT k)|].
      apply Hk. by apply (t_inj _ _ _ _ Ht _ _ t). }
  assert (Hmap : forall k w, A !! k = Some w -> maps_to t w = false).
  { intros [d' v] w Hk. unfold maps_to. destruct (present w) eqn:Hw; [|done]. cbn [andb]. apply Z.eqb_neq. intros Hf.
    destruct (n_present _ _ _ _ _ _ Hn d' v w Hk Hw) as (_ & [_ Hdp] & _). rewrite Hf in Hdp. by apply (Hdp (d, i)). }
  assert (Hrest : forall d' i' t', delete (d, i) T !! (d', i') = Some t' -> (d', i') <> (d, i) /\ T !! (d', i') = Some t' /\ t' <> t).
  { intros d' i' t' [Hk Hk']%lookup_delete_Some. split_and!; [done..|]. intros ->. apply Hk. by apply (t_inj _ _ _ _ Ht _ _ t). }
  split.
  - split; rewrite ?Hnp, ?Hfr.
    + apply (t_npage _ _ _ _ Ht).
    + intros d' Hd'. destruct (t_dir _ _ _ _ Ht d' Hd'). split; [done|]. set_solver.
    + intros d' i' t' (_ & Hk & Hne)%Hrest. destruct (t_tab _ _ _ _ Ht d' i' t' Hk) as (? & ? & ? & ? & ?).
      split_and!; [done|lia..|set_solver|done].
    + intros k k' t' [_ Hk]%lookup_delete_Some [_ Hk']%lookup_delete_Some. by apply (t_inj _ _ _ _ Ht k k' t').
    + intros d' i' Hd' Hi'. rewrite Hword. pose proof (t_pde _ _ _ _ Ht d' i' Hd' Hi') as Hp.
      destruct (decide ((d, i) = (d', i'))) as [[= <- <-]|Hne].
      * by rewrite bool_decide_true, lookup_delete_eq.
      * by rewrite bool_decide_false, lookup_delete_ne by naive_solver.
    + intros d' i' t' j (_ & Hk & _)%Hrest Hj. rewrite Hword, bool_decide_false; [by apply (t_pte _ _ _ _ Ht)|].
      intros [-> _]. by destruct (t_tab _ _ _ _ Ht d' i' t' Hk) as (_ & _ & _ & _ & ?).
    + intros d' v w Hk. destruct (t_dom _ _ _ _ Ht d' v w Hk) as (? & ? & HT'). split_and!; [done..|].
      rewrite lookup_delete_ne; [done|]. intros [= <- Hiv]. specialize (HA (v mod 1024) ltac:(dlia)).
      replace (i * 1024 + v mod 1024) with v in HA by dlia. congruence.
  - apply (cache_frame m); [done| |done]. intros q. rewrite Hpages.
    destruct (decide (t = q)) as [<-|]; [|by rewrite lookup_insert_ne].
    rewrite lookup_insert_eq, Hpg. cbn. unfold cached. cbn. destruct (PageSwap pg) eqn:Hsw'; [|done].
    destruct (n_cached _ _ _ _ _ _ Hn t pg Hpg Hsw') as ([_ Hdp] & _). by destruct (Hdp (d, i)).
  - split; rewrite ?Hnp, ?Hsw, ?Hfr; try apply Hn.
    + intros q qg Hq Hqg. rewrite Hpages in Hqg. apply Hdata in Hq. destruct (decide (t = q)) as [<-|Hne].
      * rewrite lookup_insert_eq in Hqg. injection Hqg as <-. rewrite Hext. cbn.
        rewrite (count_none (maps_to t) A); [done|]. intros k w Hk. by apply (Hmap k).
      * rewrite lookup_insert_ne in Hqg by done. apply (n_ref _ _ _ _ _ _ Hn q qg); [by destruct Hq|done].
    + intros q Hq. rewrite Hpages. destruct (decide (t = q)) as [<-|Hne].
      * split; [done|]. eexists. by rewrite lookup_insert_eq.
      * rewrite lookup_insert_ne by done. apply (n_free _ _ _ _ _ _ Hn). set_solver.
    + intros d' v w Hk Hw. destruct (n_present _ _ _ _ _ _ Hn d' v w Hk Hw) as (? & Hdp & qg & Hq & Hr').
      split; [done|]. split; [apply Hdata; by left|]. exists qg. rewrite Hpages, lookup_insert_ne; [done|].
      intros Heq. rewrite <- Heq in Hdp. by apply (proj2 Hdp (d, i)).
    + intros d' i' t' (_ & Hk & Hne)%Hrest. rewrite Hpages, lookup_insert_ne by done. by apply (n_table _ _ _ _ _ _ Hn d' i').
    + intros q qg Hq Hqs. rewrite Hpages in Hq. apply lookup_insert_Some in Hq as [[<- <-]|[Hne Hq]]; [done|].
      destruct (n_cached _ _ _ _ _ _ Hn q qg Hq Hqs) as (? & ? & ?). split; [apply Hdata; by left|done].
Qed.

(** The tables of [d] that cover a range. *)
Definition covers (d s e : Z) (k : Z * Z) : bool :=
  (fst k =? d) && (s / PTSIZE <=? snd k) && (snd k * PTSIZE <? e).
Definition without_tables (d s e : Z) (T : gmap (Z * Z) Z) : gmap (Z * Z) Z :=
  filter (fun kt => covers d s e (fst kt) = false) T.

Lemma lookup_without d s e T k : without_tables d s e T !! k = if covers d s e k then None else T !! k.
Proof.
  unfold without_tables. destruct (covers d s e k) eqn:Hr.
  - apply map_lookup_filter_None. right. intros w _. cbn. congruence.
  - destruct (T !! k) as [w|] eqn:Hk; [by apply map_lookup_filter_Some|].
    apply map_lookup_filter_None. by left.
Qed.

Lemma without_step d s e T :
  s mod PTSIZE = 0 -> s < e ->
  without_tables d s e T = without_tables d (s + PTSIZE) e (delete (d, s / PTSIZE) T).
Proof.
  intros Ha He. apply map_eq. intros [d' i]. rewrite !lookup_without. unfold covers, PTSIZE, PGSIZE, Vmm.PGSIZE in *. cbn [fst snd] in *.
  replace ((s + 4096 * 1024) / (4096 * 1024)) with (s / (4096 * 1024) + 1) by dlia.
  destruct (Z.eqb_spec d' d) as [->|]; cbn [andb].
  2:{ by rewrite lookup_delete_ne by congruence. }
  destruct (decide (i = s / (4096 * 1024))) as [->|Hi0].
  - rewrite lookup_delete_eq, (proj2 (Z.leb_le _ _)), (proj2 (Z.ltb_lt _ _)) by dlia. cbn. by destruct (_ && _).
  - rewrite lookup_delete_ne by congruence.
    destruct (Z.leb_spec (s / (4096 * 1024)) i), (Z.leb_spec (s / (4096 * 1024) + 1) i); try done; lia.
Qed.

Lemma without_done d s e T : e <= s -> s mod PTSIZE = 0 -> without_tables d s e T = T.
Proof.
  intros H Ha. apply map_eq. intros k. rewrite lookup_without. unfold covers, PTSIZE, PGSIZE, Vmm.PGSIZE in *.
  destruct (Z.leb_spec (s / (4096 * 1024)) (snd k)), (Z.ltb_spec (snd k * (4096 * 1024)) e);
    rewrite ?andb_false_r; try done. exfalso. dlia.
Qed.

Lemma exit_loop_run D A ext sext d e : d ∈ D -> e <= USERTOP ->
  forall fuel s m T,
  inv m D T A ext sext -> (forall k t, T !! k = Some t -> ext t = 0) -> 0 <= s < e -> s mod PTSIZE = 0 ->
  (forall v, covers d s e (d, v / 1024) = true -> A !! (d, v) = None) ->
  ((e - s) / PTSIZE < Z.of_nat fuel) ->
  exists m', exit_loop fuel d s e m = Ret (tt, m') /\ inv m' D (without_tables d s e T) A ext sext /\
    npage m' = npage m.
Proof.
  intros Hd He. induction fuel as [|fuel IH]; intros s m T Hinv Hheld Hs Ha Hempty Hf.
  { exfalso. unfold PTSIZE, PGSIZE, Vmm.PGSIZE in Hf. dlia. }
  pose proof Hinv as [Ht _ Hn]. destruct (user_index s ltac:(lia)) as (Hi & _ & _).
  assert (Hps : PDX s = s / PTSIZE).
  { rewrite PDX_div by (unfold USERTOP in *; lia). unfold PTSIZE, PGSIZE, Vmm.PGSIZE. dlia. }
  destruct (t_dir _ _ _ _ Ht d Hd) as [Hdr _]. pose proof (t_pde _ _ _ _ Ht d _ Hd Hi) as Hpde.
  cbn [exit_loop]. cbv zeta. rewrite (bind_step _ _ _ _ _ (rd_word_run m d _ Hdr)).
  assert (Hu : u32 (s + PTSIZE) = s + PTSIZE).
  { apply u32_small. unfold is_u32, PTSIZE, PGSIZE, Vmm.PGSIZE, USERTOP in *. lia. }
  rewrite Hu. fold (present (word m d (PDX s))).
  assert (Hstep : exists m1, (if present (word m d (PDX s)) then
         p <- pde2page (word m d (PDX s)) ;; free_page p ;; wr_word d (PDX s) 0
       else ret tt) m = Ret (tt, m1) /\ inv m1 D (delete (d, s / PTSIZE) T) A ext sext /\ npage m1 = npage m).
  { destruct (T !! (d, PDX s)) as [t|] eqn:HT.
    - destruct Hpde as [Hp Hfr]. rewrite Hp. destruct (t_tab _ _ _ _ Ht d _ t HT) as (_ & _ & Htr & _).
      destruct (n_table _ _ _ _ _ _ Hn d _ t HT) as (pg & Hpg & Hres).
      assert (Hr : pde2page (word m d (PDX s)) m = Ret (t, m)).
      { unfold pde2page, pa2page. rewrite bind_get. fold (frame_of (word m d (PDX s))). rewrite Hfr.
        by rewrite assert_true by (apply Z.ltb_lt; lia). }
      rewrite (bind_step _ _ _ _ _ Hr), (bind_step _ _ _ _ _ (free_page_run m t pg Hpg Hres)).
      rewrite wr_word_run by (cbn; lia). eexists. split; [done|]. split; [|done]. rewrite <- Hps.
      apply (drop_table m _ D T A ext sext d (PDX s) t pg); try done.
      + intros j Hj. apply Hempty. unfold covers. cbn [fst snd]. rewrite Z.eqb_refl.
        replace ((PDX s * 1024 + j) / 1024) with (PDX s) by dlia. rewrite Hps.
        rewrite (proj2 (Z.leb_le _ _)), (proj2 (Z.ltb_lt _ _)); [done|unfold PTSIZE, PGSIZE, Vmm.PGSIZE in *; dlia|lia].
      + by apply (Hheld (d, PDX s)).
    - rewrite Hpde. exists m. rewrite delete_id by (by rewrite <- Hps). done. }
  destruct Hstep as (m1 & Hr & Hinv1 & Hn1). rewrite (bind_step _ _ _ _ _ Hr).
  rewrite (without_step d s e T) by (done || lia).
  rewrite (proj2 (Z.eqb_neq (s + PTSIZE) 0)) by (unfold PTSIZE, PGSIZE, Vmm.PGSIZE; lia). cbn [negb andb].
  destruct (Z.ltb_spec (s + PTSIZE) e) as [Hlt|Hge].
  - destruct (IH (s + PTSIZE) m1 (delete (d, s / PTSIZE) T)) as (m' & Hr' & Hinv' & Hn');
      [done| |unfold PTSIZE, PGSIZE, Vmm.PGSIZE in *; lia|unfold PTSIZE, PGSIZE, Vmm.PGSIZE in *; dlia| | |].
    + intros k t [_ Hk]%lookup_delete_Some. by apply (Hheld k).
    + intros v Hv. apply Hempty. unfold covers in *. cbn [fst snd] in *.
      apply andb_prop in Hv as [[Hv1 Hv2%Z.leb_le]%andb_prop Hv3]. rewrite Hv1, Hv3.
      rewrite (proj2 (Z.leb_le _ _)); [done|]. unfold PTSIZE, PGSIZE, Vmm.PGSIZE in *. dlia.
    + unfold PTSIZE, PGSIZE, Vmm.PGSIZE in *. dlia.
    + exists m'. by rewrite Hn'.
  - exists m1. rewrite without_done; [done|lia|]. unfold PTSIZE, PGSIZE, Vmm.PGSIZE in *. dlia.
Qed.

Lemma exit_range_run m D T A ext sext d s e :
  inv m D T A ext sext -> d ∈ D -> USER_ACCESS s e = true -> s mod 4096 = 0 -> e mod 4096 = 0 ->
  (forall k t, T !! k = Some t -> ext t = 0) ->
  (forall v, covers d s e (d, v / 1024) = true -> A !! (d, v) = None) ->
  exists m', exit_range d s e m = Ret (tt, m') /\ inv m' D (without_tables d s e T) A ext sext /\ npage m' = npage m.
Proof.
  intros Hinv Hd Hacc Hs He Hheld Hempty. unfold exit_range.
  rewrite assert_true by (unfold PGSIZE, Vmm.PGSIZE; by rewrite Hs, He). rewrite assert_true by done.
  unfold USER_ACCESS, Vmm.USER_ACCESS, Vmm.USERBASE in Hacc.
  apply andb_prop in Hacc as [[H1%Z.leb_le H2%Z.ltb_lt]%andb_prop H3%Z.leb_le].
  assert (Hrd : ROUNDDOWN s PTSIZE / PTSIZE = s / PTSIZE /\ ROUNDDOWN s PTSIZE mod PTSIZE = 0 /\ 0 <= ROUNDDOWN s PTSIZE <= s).
  { unfold ROUNDDOWN, Vmm.ROUNDDOWN, PTSIZE, PGSIZE, Vmm.PGSIZE. split_and!; dlia. }
  destruct Hrd as (Hq & Hm & Hle).
  assert (Hcov : forall k, covers d (ROUNDDOWN s PTSIZE) e k = covers d s e k) by (intros k; unfold covers; by rewrite Hq).
  destruct (exit_loop_run D A ext sext d e Hd H3 (range_fuel s e) (ROUNDDOWN s PTSIZE) m T) as (m' & Hr & Hinv' & Hn'); try done; [lia| | |].
  - intros v. rewrite Hcov. apply Hempty.
  - unfold range_fuel. rewrite Nat2Z.inj_succ, Z2Nat.id by (unfold PGSIZE, Vmm.PGSIZE; dlia).
    unfold ROUNDDOWN, Vmm.ROUNDDOWN, PTSIZE, PGSIZE, Vmm.PGSIZE in *. dlia.
  - exists m'. split; [done|]. split; [|done]. replace (without_tables d s e T) with (without_tables d (ROUNDDOWN s PTSIZE) e T); [done|].
    apply map_eq. intros k. by rewrite !lookup_without, Hcov.
Qed.
End PmmMap.
