(* ===== verification/PmmSpec.v ===== *)
(** * Page tables: what the routines of kern/mm/pmm.c do to address spaces

    The theorems state the routines on the address map [A] of [PmmInv.inv]: the entry
    of every page of every directory.  [ex_mem] is a memory with two directories, one
    present and one swapped entry. *)

From S2P Require Import Prelude CString CStringInv Vmm Swap Pmm PmmInv PmmMap.
Open Scope Z_scope.

Module PmmSpec.
Import Swap Pmm PmmInv PmmMap.

(** ** Copy-on-write *)

Lemma write_bit w : has w PTE_W = Z.testbit w 1.
Proof. exact (has_bit w 1 ltac:(lia)). Qed.

Lemma entry_write p perm : has (entry p perm) PTE_W = has perm PTE_W.
Proof.
  rewrite !write_bit. unfold entry, page2pa. rewrite !Z.lor_spec, Z.shiftl_spec_low by lia. done.
Qed.

(** After a copy that does not share, neither side may write to the page. *)
Lemma cow_readonly w :
  (present (child_entry false w) = true -> has (child_entry false w) PTE_W = false) /\
  (present (parent_entry false w) = true -> has (parent_entry false w) PTE_W = false).
Proof.
  assert (Hc : has (child_perm false w) PTE_W = false).
  { unfold child_perm, cow. cbn [negb andb]. rewrite !write_bit.
    destruct (Z.testbit w 1) eqn:Hb.
    - rewrite Z.ldiff_spec. by rewrite andb_false_r.
    - by rewrite Z.land_spec, Hb. }
  unfold child_entry, parent_entry. destruct (present w) eqn:Hw; cbn [andb].
  2:{ by rewrite Hw. }
  split; intros _; [by rewrite entry_write|].
  destruct (cow false w) eqn:Hcow; [|by unfold cow in Hcow].
  rewrite entry_write, write_bit, Z.lor_spec, <- write_bit, Hc, Z.land_spec. by rewrite andb_false_r.
Qed.

(** ** The routines *)

(** C11: [unmap_range] on a page-aligned user range of a directory ends, removes exactly
    the entries of that range from the address map, and keeps every reference count,
    the swap cache and the free list right.  The free list only grows; a page whose
    entry is removed and that is left with no reference and outside the swap cache is
    free afterwards, whether it was mapped or cached a slot; and no page gets lost: a
    page that nothing references, caches and lists as free was so before the call. *)
Theorem unmap_range_spec m D T A ext sext d s e :
  inv m D T A ext sext -> d ∈ D -> USER_ACCESS s e = true -> s mod 4096 = 0 -> e mod 4096 = 0 ->
  exists m', unmap_range d s e m = Ret (tt, m') /\ inv m' D T (unmapped d s e A) ext sext /\ npage m' = npage m /\
    free m ⊆ free m' /\ (forall p, lost m' p -> lost m p) /\
    (forall v w pg, s <= v * 4096 < e -> A !! (d, v) = Some w -> present w = true ->
      pages m' !! frame_of w = Some pg -> ref pg = 0 -> PageSwap pg = false -> frame_of w ∈ free m').
Proof.
  intros Hinv Hd Hacc Hs He.
  destruct (unmap_range_run m D T A ext sext d s e Hinv Hd Hacc Hs He) as (m' & Hr & Hinv' & Hn & Hfree & Hlost).
  exists m'. split_and!; [done..|]. intros v w pg _ Hk Hw Hpg H0 Hsw.
  destruct (decide (frame_of w ∈ free m')) as [|Hnf]; [done|]. exfalso.
  destruct (Hlost (frame_of w)) as (_ & pg0 & Hpg0 & Hr0 & _); [split; eauto|].
  pose proof (mapped_ref D T A ext sext m (d, v) w pg0 (inv_counts _ _ _ _ _ _ Hinv) Hk Hw Hpg0). lia.
Qed.

(** [page_insert] maps the page at the address, in place of what was there, whose
    reference is dropped; it fails with [-E_NO_MEM] only when there is no table for the
    address and no page to make one, and then changes no mapping. *)
Theorem page_insert_spec m D T A ext sext d la p pg perm :
  inv m D T A ext sext -> d ∈ D -> 0 <= la < USERTOP -> 0 <= perm < 4096 ->
  pages m !! p = Some pg -> p ∉ free m -> data_page D T p -> 0 <= p < npage m -> PageReserved pg = false ->
  exists r m' T', page_insert d p la perm m = Ret (r, m') /\ T ⊆ T' /\ npage m' = npage m /\
    (forall q, data_page D T q -> q ∉ free m -> forall j, word m' q j = word m q j) /\
    match T' !! (d, PDX la) with
    | Some _ => r = 0 /\ inv m' D T' (<[(d, la / 4096) := entry p perm]> A) ext sext
    | None => r = - E_NO_MEM /\ inv m' D T' A ext sext /\ untouched D T T' m m'
    end.
Proof.
  intros Hinv Hd Hla Hperm Hpg Hpf Hdp Hpr Hres.
  destruct (page_insert_run D m T A ext sext d la p pg perm) as (r & m' & T' & H1 & H2 & H3 & H4 & _ & H5); try done.
  by exists r, m', T'.
Qed.

(** C10: [copy_range] copies the pages of a range from one directory to an empty range
    of another: a present page is mapped by both and, unless it is shared, writable in
    neither; a swapped page has one more reference on its slot.  When a table cannot be
    allocated the result is [-E_NO_MEM] and a prefix of the range has been copied.  All
    counts stay exact. *)
Theorem copy_range_spec m D T A ext sext to from share s e :
  to <> from -> to ∈ D -> from ∈ D ->
  inv m D T A ext sext -> USER_ACCESS s e = true -> s mod 4096 = 0 -> e mod 4096 = 0 ->
  (forall v, s <= v * 4096 < e -> A !! (to, v) = None) -> room sext from s e A ->
  exists r m' T' A' e', copy_range to from s e share m = Ret (r, m') /\ T ⊆ T' /\ npage m' = npage m /\
    inv m' D T' A' ext sext /\ is_copy share to from s e' A A' /\
    (r = 0 /\ e' = e \/ r = - E_NO_MEM /\ s <= e' < e) /\
    (share = false -> forall d v w, d = to \/ d = from -> s <= v * 4096 < e' -> A' !! (d, v) = Some w ->
      present w = true -> has w PTE_W = false).
Proof.
  intros Hne Hto Hfrom Hinv Hacc Hs He Hempty Hroom.
  destruct (copy_range_run D ext sext to from share Hne Hto Hfrom m T A s e Hinv Hacc Hs He Hempty Hroom)
    as (r & m' & T' & A' & e' & Hr & HT & Hn & Hinv' & Hcopy & Hres).
  exists r, m', T', A', e'. split_and!; [done..|]. intros -> d v w Hd Hv Hk Hw. rewrite Hcopy in Hk.
  rewrite (proj2 (Z.leb_le _ _)), (proj2 (Z.ltb_lt _ _)) in Hk by lia. cbn [andb] in Hk.
  destruct (A !! (from, v)) as [w0|] eqn:Hw0; destruct (cow_readonly (default 0 (A !! (from, v)))) as [H1 H2];
    rewrite Hw0 in H1, H2; cbn in H1, H2; destruct Hd as [->| ->]; revert Hk;
    rewrite ?Z.eqb_refl, ?(proj2 (Z.eqb_neq from to)), ?Z.eqb_refl by done; intros [= <-]; auto.
Qed.

(** [exit_range] gives the tables of an unmapped range back and keeps the others. *)
Theorem exit_range_spec m D T A ext sext d s e :
  inv m D T A ext sext -> d ∈ D -> USER_ACCESS s e = true -> s mod 4096 = 0 -> e mod 4096 = 0 ->
  (forall k t, T !! k = Some t -> ext t = 0) ->
  (forall v, covers d s e (d, v / 1024) = true -> A !! (d, v) = None) ->
  exists m', exit_range d s e m = Ret (tt, m') /\ inv m' D (without_tables d s e T) A ext sext /\ npage m' = npage m.
Proof. apply exit_range_run. Qed.

(** ** A memory *)

(** Eight pages: directories 1 and 5, tables 2 and 3 of directory 1, page 4 mapped
    at 0x200000 and slot 1 at 0x201000; pages 6 and 7 are free. *)
Definition ex_swap : swap_state :=
  mk_swap 2 [] 0 [] 0 {[1 := 1]} (list_to_map ((fun b => (b, [])) <$> seqZ 0 1024)) 1 0 ∅ [].
Definition ex_frames : gmap Z (gmap Z Z) :=
  {[1 := {[0 := entry 2 6; 1 := entry 3 6]}; 2 := {[512 := entry 4 6; 513 := 256]}]}.
Definition used (r : Z) : page := mk_page r false false false false 0.
Definition ex_pages : gmap Z page :=
  {[1 := used 1; 2 := used 1; 3 := used 1; 4 := used 1; 5 := used 1; 6 := used 0; 7 := used 0]}.
Definition ex_mem : mem := mk_mem 8 ex_frames ex_pages {[6; 7]} [Some 6; Some 7; None] ex_swap.
Definition ex_D : gset Z := {[1; 5]}.
Definition ex_T : gmap (Z * Z) Z := {[(1, 0) := 2; (1, 1) := 3]}.
Definition ex_A : gmap (Z * Z) Z := {[(1, 512) := entry 4 6; (1, 513) := 256]}.
Definition none (_ : Z) : Z := 0.

Lemma ex_swapped p pg : ex_pages !! p = Some pg -> PageSwap pg = false /\ PageReserved pg = false.
Proof.
  intros H. unfold ex_pages in H. repeat (apply lookup_insert_Some in H as [[<- <-]|[_ H]]; [done|]).
  by apply lookup_singleton_Some in H as [<- <-].
Qed.

Lemma ex_hash e : hash_list ex_swap !! entry_hashfn e = Some [].
Proof.
  unfold ex_swap. cbn [hash_list]. apply elem_of_list_to_map_1.
  - rewrite <- list_fmap_compose. rewrite (list_fmap_ext _ id) by done. rewrite list_fmap_id. apply NoDup_seqZ.
  - apply list_elem_of_fmap. exists (entry_hashfn e). split; [done|]. apply elem_of_seqZ.
    unfold entry_hashfn. pose proof (CStringInv.hash32_range e 10 ltac:(lia)). lia.
Qed.

Lemma ex_cache : cache_ok ex_mem.
Proof.
  assert (Hno : forall p pg, pages ex_mem !! p = Some pg -> PageSwap pg = true -> False).
  { intros p pg Hp Hs. destruct (ex_swapped p pg Hp). congruence. }
  split.
  - intros e. exists []. split; [apply ex_hash|]. split; [constructor|]. intros p. split; [by intros ?%not_elem_of_nil|].
    intros (pg & Hp & Hs & _). by destruct (Hno p pg).
  - intros b l p Hl Hin. exfalso. cbn in Hl. apply elem_of_list_to_map_2, list_elem_of_fmap in Hl as (x & [= -> ->] & _).
    by apply not_elem_of_nil in Hin.
  - intros p pg Hp Hs. by destruct (Hno p pg).
  - intros p q pg qg Hp _ Hs. by destruct (Hno p pg).
  - split; [constructor|]. split; [done|]. intros p. split; [by intros ?%not_elem_of_nil|].
    intros (pg & Hp & Hs & _). by destruct (Hno p pg).
  - split; [constructor|]. split; [done|]. intros p. split; [by intros ?%not_elem_of_nil|].
    intros (pg & Hp & Hs & _). by destruct (Hno p pg).
  - intros off Ho. cbn in Ho. apply lookup_singleton_Some in Ho as [_ ?]. done.
  - intros off Ho. cbn in Ho. assert (off = 1) as -> by lia. exists 1. split; [done|]. unfold SWAP_UNUSED. lia.
Qed.

Lemma ex_A_lookup d v w : ex_A !! (d, v) = Some w -> d = 1 /\ (v = 512 /\ w = entry 4 6 \/ v = 513 /\ w = 256).
Proof.
  unfold ex_A. rewrite lookup_insert_Some, lookup_singleton_Some.
  intros [[[= <- <-] <-]|[_ [[= <- <-] <-]]]; auto.
Qed.

Lemma ex_T_lookup d i t : ex_T !! (d, i) = Some t -> d = 1 /\ (i = 0 /\ t = 2 \/ i = 1 /\ t = 3).
Proof.
  unfold ex_T. rewrite lookup_insert_Some, lookup_singleton_Some.
  intros [[[= <- <-] <-]|[_ [[= <- <-] <-]]]; auto.
Qed.

Lemma ex_tables : tables_ok ex_mem ex_D ex_T ex_A.
Proof.
  pose proof ex_T_lookup as HT.
  split.
  - cbn. lia.
  - intros d Hd. unfold ex_D in Hd. cbn.
    assert (d = 1 \/ d = 5) as [->| ->] by set_solver; (split; [lia|]); set_solver.
  - intros d i t (-> & [[-> ->]|[-> ->]])%HT; cbn; unfold NUPDE;
      (split_and!; [set_solver|lia..| |]; set_solver).
  - intros [d i] [d' i'] t (-> & [[-> ->]|[-> ->]])%HT (-> & [[-> Ht]|[-> Ht]])%HT; done.
  - intros d i Hd Hi. destruct (ex_T !! (d, i)) as [t|] eqn:HTd.
    + apply HT in HTd as (-> & [[-> ->]|[-> ->]]); (split; [vm_compute; done|vm_compute; done]).
    + assert (Hw : word ex_mem d i = 0); [|by rewrite Hw].
      unfold ex_D in Hd. assert (d = 1 \/ d = 5) as [->| ->] by set_solver; [|done].
      unfold word. change (frames ex_mem !! 1) with (Some ({[0 := entry 2 6; 1 := entry 3 6]} : gmap Z Z)). cbn [default from_option id].
      rewrite lookup_insert_ne, lookup_singleton_ne; [done|intros <-; vm_compute in HTd; done..].
  - intros d i t j (-> & [[-> ->]|[-> ->]])%HT Hj; rewrite ?Z.mul_0_l, ?Z.add_0_l; unfold word.
    + change (frames ex_mem !! 2) with (Some ({[512 := entry 4 6; 513 := 256]} : gmap Z Z)). cbn [default from_option id].
      unfold ex_A. destruct (decide (j = 512)) as [->|]; [done|]. destruct (decide (j = 513)) as [->|]; [done|].
      by rewrite !lookup_insert_ne, !lookup_singleton_ne by congruence.
    + change (frames ex_mem !! 3) with (None : option (gmap Z Z)). unfold ex_A.
      by rewrite !lookup_insert_ne, !lookup_singleton_ne by (intros [= ?]; lia).
  - intros d v w (-> & [[-> ->]|[-> ->]])%ex_A_lookup; (split; [done|]; split; [lia|]); by eexists.
Qed.

Lemma ex_counts : counts_ok ex_mem ex_D ex_T ex_A none none.
Proof.
  split.
  - intros p pg [HD HT] Hp. cbn in Hp. unfold ex_pages in Hp.
    repeat (apply lookup_insert_Some in Hp as [[<- <-]|[_ Hp]]; [first [vm_compute; done|exfalso; apply HD; vm_compute; done|by destruct (HT (1, 0))|by destruct (HT (1, 1))]|]).
    apply lookup_singleton_Some in Hp as [<- <-]. vm_compute. done.
  - intros off c Ho. cbn in Ho. apply lookup_singleton_Some in Ho as [<- <-]. vm_compute. done.
  - done.
  - intros p Hp. cbn in Hp. assert (p = 6 \/ p = 7) as [->| ->] by set_solver;
      (split; [cbn; lia|]; by eexists).
  - intros d v w (-> & [[-> ->]|[-> ->]])%ex_A_lookup Hw; [|done]. change (frame_of (entry 4 6)) with 4. cbn [npage ex_mem].
    split; [lia|]. split; [|by eexists]. split; [set_solver|].
    intros [d i] (_ & [[_ ?]|[_ ?]])%ex_T_lookup; done.
  - intros d v w (-> & [[-> ->]|[-> ->]])%ex_A_lookup Hw; [done|]. cbn. split; [done|]. vm_compute. done.
  - intros d i t (_ & [[_ ->]|[_ ->]])%ex_T_lookup; by eexists.
  - intros p pg Hp Hs. destruct (ex_swapped p pg Hp). congruence.
Qed.

Lemma ex_inv : inv ex_mem ex_D ex_T ex_A none none.
Proof. split; [apply ex_tables|apply ex_cache|apply ex_counts]. Qed.

Lemma unmap_range_spec_witness : exists m', unmap_range 1 0x200000 0x202000 ex_mem = Ret (tt, m') /\
  inv m' ex_D ex_T (unmapped 1 0x200000 0x202000 ex_A) none none /\ npage m' = 8 /\
  free ex_mem ⊆ free m' /\ (forall p, lost m' p -> lost ex_mem p) /\
  (forall v w pg, 0x200000 <= v * 4096 < 0x202000 -> ex_A !! (1, v) = Some w -> present w = true ->
    pages m' !! frame_of w = Some pg -> ref pg = 0 -> PageSwap pg = false -> frame_of w ∈ free m').
Proof. apply (unmap_range_spec ex_mem); [apply ex_inv|vm_compute; done..]. Defined.

Lemma page_insert_spec_witness : exists r m' T', page_insert 5 4 0x200000 6 ex_mem = Ret (r, m') /\ ex_T ⊆ T' /\ npage m' = 8 /\
  (forall q, data_page ex_D ex_T q -> q ∉ free ex_mem -> forall j, word m' q j = word ex_mem q j) /\
  match T' !! (5, PDX 0x200000) with
  | Some _ => r = 0 /\ inv m' ex_D T' (<[(5, 512) := entry 4 6]> ex_A) none none
  | None => r = - E_NO_MEM /\ inv m' ex_D T' ex_A none none /\ untouched ex_D ex_T T' ex_mem m'
  end.
Proof.
  apply (page_insert_spec ex_mem ex_D ex_T ex_A none none 5 0x200000 4 (used 1) 6);
    [apply ex_inv|vm_compute; done|unfold USERTOP, Vmm.USERTOP; lia|lia|done|cbn; set_solver| |cbn; lia|done].
  apply (n_present _ _ _ _ _ _ ex_counts 1 512 (entry 4 6)); done.
Defined.

Lemma copy_range_spec_witness : exists r m' T' A' e', copy_range 5 1 0x200000 0x202000 false ex_mem = Ret (r, m') /\
  ex_T ⊆ T' /\ npage m' = 8 /\ inv m' ex_D T' A' none none /\ is_copy false 5 1 0x200000 e' ex_A A' /\
  (r = 0 /\ e' = 0x202000 \/ r = - E_NO_MEM /\ 0x200000 <= e' < 0x202000) /\
  (false = false -> forall d v w, d = 5 \/ d = 1 -> 0x200000 <= v * 4096 < e' -> A' !! (d, v) = Some w ->
    present w = true -> has w PTE_W = false).
Proof.
  apply (copy_range_spec ex_mem ex_D ex_T ex_A none none 5 1 false 0x200000 0x202000);
    [lia|vm_compute; done|vm_compute; done|apply ex_inv|vm_compute; done..| |].
  - intros v _. destruct (ex_A !! (5, v)) as [w|] eqn:Hk; [|done]. by apply ex_A_lookup in Hk as [? _].
  - intros off. unfold MAX_SWAP_REF, none.
    assert (Hb : forall A, count (swaps_to off) A <= Z.of_nat (size A)).
    { intros A. unfold count. apply Nat2Z.inj_le, map_subseteq_size, map_filter_subseteq. }
    pose proof (Hb ex_A). pose proof (Hb (part 1 0x200000 0x202000 ex_A)).
    change (size ex_A) with 2%nat in *. change (size (part 1 0x200000 0x202000 ex_A)) with 2%nat in *. lia.
Defined.

Lemma exit_range_spec_witness : exists m', exit_range 1 0x400000 0x402000 ex_mem = Ret (tt, m') /\
  inv m' ex_D (without_tables 1 0x400000 0x402000 ex_T) ex_A none none /\ npage m' = 8.
Proof.
  apply (exit_range_spec ex_mem); [apply ex_inv|vm_compute; done..| ].
  intros v Hc. destruct (ex_A !! (1, v)) as [w|] eqn:Hk; [|done].
  apply ex_A_lookup in Hk as [_ [[-> _]|[-> _]]]; vm_compute in Hc; done.
Defined.
End PmmSpec.
