(* ===== verification/Shmem.v ===== *)
(** * Shared memory (kern/mm/shmem.c)

    A shared object keeps a sorted list of blocks; a block has a frame with 1024
    entries.  [sh_kmallocs] is what the next calls of [kmalloc] return, 0 for [NULL].
    The semaphore [shmem_sem] is left out: the routines are run one at a time. *)

From S2P Require Import Prelude Vmm Swap Pmm.
Open Scope Z_scope.

Module Shmem.
Import Swap Pmm.
Export Vmm(rest_after, add_after).

Definition SHMN_NENTRY : Z := 1024.

(** [shmn_entry]: the number of the page of [entry]. *)
Record shmn_t := mk_shmn { shmn_start : Z; shmn_end : Z; shmn_entry : Z }.

Record shmem_struct := mk_shmem { shmn_list : list Z; shmn_cache : Z; len : Z; shmem_ref : Z }.

Record shm_state := mk_shm {
  sh_mem : mem; shmems : gmap Z shmem_struct; shmns : gmap Z shmn_t; sh_kmallocs : list Z }.

Definition set_mem m s := mk_shm m (shmems s) (shmns s) (sh_kmallocs s).
Definition upd_shmems f s := mk_shm (sh_mem s) (f (shmems s)) (shmns s) (sh_kmallocs s).
Definition upd_shmns f s := mk_shm (sh_mem s) (shmems s) (f (shmns s)) (sh_kmallocs s).

(** Run a routine of the memory below. *)
Definition on_mem {A} (c : M mem A) : M shm_state A := fun s =>
  match c (sh_mem s) with
  | Ret (a, m) => Ret (a, set_mem m s)
  | Panic => Panic
  | OutOfFuel => OutOfFuel
  end.

Definition kmalloc : M shm_state Z :=
  s <- get ;;
  match sh_kmallocs s with
  | [] => ret 0
  | a :: l => put (mk_shm (sh_mem s) (shmems s) (shmns s) l) ;; ret a
  end.

Definition get_shmem (a : Z) : M shm_state shmem_struct := s <- get ;; deref (shmems s !! a).
Definition get_shmn (a : Z) : M shm_state shmn_t := s <- get ;; deref (shmns s !! a).
Definition set_shmem (a : Z) (x : shmem_struct) : M shm_state unit := modify (upd_shmems <[a := x]>).

Definition shmem_create (len : Z) : M shm_state Z :=
  a <- kmalloc ;;
  if negb (a =? 0) then set_shmem a (mk_shmem [] 0 len 0) ;; ret a else ret a.

(** The assertion reads [start % PGSIZE * SHMN_NENTRY == 0]. *)
Definition shmn_create (start : Z) : M shm_state Z :=
  assert ((start mod PGSIZE) * SHMN_NENTRY =? 0) ;;
  a <- kmalloc ;;
  if a =? 0 then ret 0
  else
    o <- on_mem alloc_page ;;
    match o with
    | Some p =>
        on_mem (KADDR p) ;;
        modify (upd_shmns <[a := mk_shmn start (u32 (start + PGSIZE * SHMN_NENTRY)) p]>) ;;
        on_mem (zero_frame p) ;;
        ret a
    | None => ret 0
    end.

Definition shmem_remove_entry_pte (ptep : Z * Z) : M mem unit :=
  pte <- rd_pte ptep ;;
  if has pte PTE_P then
    p <- pte2page pte ;;
    pg <- Swap.get_page p ;;
    (if negb (PageSwap pg) then
       n <- page_ref_dec p ;; if n =? 0 then free_page p else ret tt
     else
       (if has pte PTE_D then update_page (set_dirty true) p else ret tt) ;;
       page_ref_dec p ;; ret tt) ;;
    wr_pte ptep 0
  else if negb (pte =? 0) then
    swap_remove_entry pte ;; wr_pte ptep 0
  else ret tt.

(** The entries from [i] on. *)
Fixpoint remove_entries (n : nat) (p i : Z) : M mem unit :=
  match n with
  | O => ret tt
  | S n => shmem_remove_entry_pte (p, i) ;; remove_entries n p (i + 1)
  end.

Definition shmn_destroy (a : Z) : M shm_state unit :=
  n <- get_shmn a ;;
  on_mem (remove_entries (Z.to_nat SHMN_NENTRY) (shmn_entry n) 0) ;;
  on_mem (free_page (shmn_entry n)) ;;
  modify (upd_shmns (delete a)).

Fixpoint find_shmn_loop (l : list Z) (addr : Z) : M shm_state Z :=
  match l with
  | [] => ret 0
  | a :: l =>
      tmp <- get_shmn a ;;
      if (shmn_start tmp <=? addr) && (addr <? shmn_end tmp) then ret a else find_shmn_loop l addr
  end.

Definition find_shmn (shmem addr : Z) : M shm_state Z :=
  x <- get_shmem shmem ;;
  let shmn := shmn_cache x in
  hit <- (if shmn =? 0 then ret false
          else n <- get_shmn shmn ;; ret ((shmn_start n <=? addr) && (addr <? shmn_end n))) ;;
  shmn <- (if (hit : bool) then ret shmn else find_shmn_loop (shmn_list x) addr) ;;
  (if negb (shmn =? 0) then set_shmem shmem (mk_shmem (shmn_list x) shmn (len x) (shmem_ref x)) else ret tt) ;;
  ret shmn.

Definition check_shmn_overlap (prev next : shmn_t) : M shm_state unit :=
  assert (shmn_start prev <? shmn_end prev) ;;
  assert (shmn_end prev <=? shmn_start next) ;;
  assert (shmn_start next <? shmn_end next).

(** The last block of [l] that does not start above [start], [le_prev] if there is none. *)
Fixpoint find_prev (l : list Z) (start le_prev : Z) : M shm_state Z :=
  match l with
  | [] => ret le_prev
  | a :: l => n <- get_shmn a ;; if start <? shmn_start n then ret le_prev else find_prev l start a
  end.

Definition insert_shmn (shmem shmn : Z) : M shm_state unit :=
  x <- get_shmem shmem ;;
  n <- get_shmn shmn ;;
  le_prev <- find_prev (shmn_list x) (shmn_start n) 0 ;;
  (if negb (le_prev =? 0) then p <- get_shmn le_prev ;; check_shmn_overlap p n else ret tt) ;;
  match rest_after (shmn_list x) le_prev with
  | [] => ret tt
  | le_next :: _ => q <- get_shmn le_next ;; check_shmn_overlap n q
  end ;;
  set_shmem shmem (mk_shmem (add_after (shmn_list x) le_prev shmn) (shmn_cache x) (len x) (shmem_ref x)).

Fixpoint destroy_list (l : list Z) : M shm_state unit :=
  match l with [] => ret tt | a :: l => shmn_destroy a ;; destroy_list l end.

Definition shmem_destroy (shmem : Z) : M shm_state unit :=
  x <- get_shmem shmem ;;
  destroy_list (shmn_list x) ;;
  modify (upd_shmems (delete shmem)).

Definition shmem_get_entry (shmem addr : Z) (create : bool) : M shm_state (option (Z * Z)) :=
  x <- get_shmem shmem ;;
  assert (addr <? len x) ;;
  let addr := ROUNDDOWN addr PGSIZE in
  shmn <- find_shmn shmem addr ;;
  (if shmn =? 0 then ret tt
   else n <- get_shmn shmn ;; assert ((shmn_start n <=? addr) && (addr <? shmn_end n))) ;;
  shmn <- (if shmn =? 0 then
             if negb create then ret 0
             else
               shmn <- shmn_create (ROUNDDOWN addr (PGSIZE * SHMN_NENTRY)) ;;
               if shmn =? 0 then ret 0 else insert_shmn shmem shmn ;; ret shmn
           else ret shmn) ;;
  if shmn =? 0 then ret None
  else
    n <- get_shmn shmn ;;
    let index := (addr - shmn_start n) / PGSIZE in
    let ptep := (shmn_entry n, index) in
    pte <- on_mem (rd_pte ptep) ;;
    (if (pte =? 0) && create then
       o <- on_mem alloc_page ;;
       match o with
       | Some p => on_mem (wr_pte ptep (Z.lor (page2pa p) PTE_P)) ;; on_mem (page_ref_inc p) ;; ret tt
       | None => ret tt
       end
     else ret tt) ;;
    ret (Some ptep).

Definition shmem_insert_entry (shmem addr entry : Z) : M shm_state Z :=
  o <- shmem_get_entry shmem addr true ;;
  match o with
  | None => ret (- E_NO_MEM)
  | Some ptep =>
      pte <- on_mem (rd_pte ptep) ;;
      (if negb (pte =? 0) then on_mem (shmem_remove_entry_pte ptep) else ret tt) ;;
      (if has entry PTE_P then p <- on_mem (pte2page entry) ;; on_mem (page_ref_inc p) ;; ret tt
       else if negb (entry =? 0) then on_mem (swap_duplicate entry)
       else ret tt) ;;
      on_mem (wr_pte ptep entry) ;;
      ret 0
  end.

Definition shmem_remove_entry (shmem addr : Z) : M shm_state Z := shmem_insert_entry shmem addr 0.

End Shmem.
