(* ===== verification/Pgfault.v ===== *)
(** * Page faults (kern/mm/vmm.c, [do_pgfault])

    The areas of an address space are those of Vmm.v, with the page tables and shared
    objects of Shmem.v below; the tree of areas is any implementation of
    [Vmm.RbTree].  The lock of the address space and of a shared object are left out:
    a fault is handled without others in between. *)

From S2P Require Import Prelude Vmm Swap Pmm Shmem.
Open Scope Z_scope.

Module Pgfault.
Import Swap Pmm.

Section Pgfault.
Context {T : Type} {RB : Vmm.RbTree T}.
Abbreviation state := (Vmm.vstate T Shmem.shm_state).

Definition on_shm {A} (c : M Shmem.shm_state A) : M state A := fun s =>
  match c (Vmm.pages s) with
  | Ret (a, p) => Ret (a, Vmm.upd_pages (fun _ => p) s)
  | Panic => Panic
  | OutOfFuel => OutOfFuel
  end.
Definition on_mem {A} (c : M mem A) : M state A := on_shm (Shmem.on_mem c).

(** The entry is zero and the area is shared: the error code. *)
Definition fault_shared (pgdir addr perm : Z) (v : Vmm.vma_struct) (ptep : Z * Z) : M state Z :=
  let shmem_addr := u32 (addr - Vmm.vm_start v + Vmm.shmem_off v) in
  o <- on_shm (Shmem.shmem_get_entry (Vmm.shmem v) shmem_addr true) ;;
  match o with
  | None => ret (- E_NO_MEM)
  | Some sh_ptep =>
      sh_pte <- on_mem (rd_pte sh_ptep) ;;
      if sh_pte =? 0 then ret (- E_NO_MEM)
      else
        (if has sh_pte PTE_P then
           p <- on_mem (pa2page sh_pte) ;; on_mem (page_insert pgdir p addr perm) ;; ret tt
         else
           pte <- on_mem (rd_pte ptep) ;; on_mem (swap_duplicate pte) ;;
           sh_pte <- on_mem (rd_pte sh_ptep) ;; on_mem (wr_pte ptep sh_pte)) ;;
        ret 0
  end.

(** The entry is not zero: copy on write, or a page that is swapped out. *)
Definition fault_present (pgdir error_code addr perm : Z) (v : Vmm.vma_struct) (ptep : Z * Z) : M mem Z :=
  pte <- rd_pte ptep ;;
  let cow := Z.land (Vmm.vm_flags v) (Z.lor Vmm.VM_SHARE Vmm.VM_WRITE) =? Vmm.VM_WRITE in
  assert (negb (has pte PTE_P) || (has error_code 2 && negb (has pte PTE_W) && cow)) ;;
  newpage <- (if cow then alloc_page else ret None) ;;
  pte <- rd_pte ptep ;;
  (** the code so far, the page, [perm] and [may_copy] *)
  '(r, p, perm, may_copy) <-
    (if has pte PTE_P then p <- pte2page pte ;; ret (- E_NO_MEM, p, perm, true)
     else
       '(r, p) <- swap_in_page pte ;;
       if (r =? 0) && negb (has error_code 2) && cow then ret (r, p, Z.ldiff perm PTE_W, false)
       else ret (r, p, perm, true)) ;;
  if negb (has pte PTE_P) && negb (r =? 0) then
    match newpage with Some np => free_page np | None => ret tt end ;; ret r
  else
    shared <- (if cow && may_copy then
                 n <- page_ref p ;; c <- swap_page_count p ;; ret (1 <? n + c)
               else ret false) ;;
    match newpage with
    | None => if (shared : bool) then ret r else page_insert pgdir p addr perm ;; ret 0
    | Some np =>
        if (shared : bool) then copy_frame np p ;; page_insert pgdir np addr perm ;; ret 0
        else page_insert pgdir p addr perm ;; free_page np ;; ret 0
    end.

(** Whether the area permits the access, [error_code] being the one of the processor. *)
Definition fault_allowed (error_code addr : Z) (v : Vmm.vma_struct) : bool :=
  if addr <? Vmm.vm_start v then false
  else if has (Vmm.vm_flags v) Vmm.VM_STACK && (addr <? u32 (Vmm.vm_start v + PGSIZE)) then false
  else
    let e := Z.land error_code 3 in
    if e =? 1 then false
    else if e =? 0 then has (Vmm.vm_flags v) (Z.lor Vmm.VM_READ Vmm.VM_EXEC)
    else has (Vmm.vm_flags v) Vmm.VM_WRITE.

Definition fault_perm (v : Vmm.vma_struct) : Z :=
  if has (Vmm.vm_flags v) Vmm.VM_WRITE then Z.lor PTE_U PTE_W else PTE_U.

Definition do_pgfault (mm error_code addr : Z) : M state Z :=
  if mm =? 0 then panic
  else
    vma <- Vmm.find_vma mm addr ;;
    if vma =? 0 then ret (- E_INVAL)
    else
      v <- Vmm.get_vma vma ;;
      if negb (fault_allowed error_code addr v) then ret (- E_INVAL)
      else
        let perm := fault_perm v in
        let addr := ROUNDDOWN addr PGSIZE in
        m <- Vmm.get_mm mm ;;
        o <- on_mem (get_pte (Vmm.pgdir m) addr true) ;;
        match o with
        | None => ret (- E_NO_MEM)
        | Some ptep =>
            pte <- on_mem (rd_pte ptep) ;;
            if pte =? 0 then
              if negb (has (Vmm.vm_flags v) Vmm.VM_SHARE) then
                o <- on_mem (pgdir_alloc_page (Vmm.pgdir m) addr perm) ;;
                match o with None => ret (- E_NO_MEM) | Some _ => ret 0 end
              else fault_shared (Vmm.pgdir m) addr perm v ptep
            else on_mem (fault_present (Vmm.pgdir m) error_code addr perm v ptep)
        end.
End Pgfault.
End Pgfault.
