(* ===== verification/PgfaultInv.v ===== *)
(** * Page faults: demand paging and copy on write

    A fault on an address maps its page with the contents its entry stood for, and a
    page that becomes writable in a private area is referenced by nobody else. *)

From S2P Require Import Prelude Vmm Swap Pmm PmmInv PmmMap Shmem Pgfault.
Open Scope Z_scope.

Module PgfaultInv.
Import Swap Pmm PmmInv PmmMap.

(** What an entry stands for: the frame it maps, the page that caches its slot, or the
    slot on the disk. *)
Inductive data_of (m : mem) (w : Z) (f : Z -> Z) : Prop :=
| data_present :
    present w = true -> (forall j, word m (frame_of w) j = f j) -> data_of m w f
| data_cached p pg :
    present w = false -> pages m !! p = Some pg -> PageSwap pg = true -> index pg = w ->
    (forall j, word m p j = f j) -> data_of m w f
| data_disk :
    present w = false -> (forall p pg, pages m !! p = Some pg -> PageSwap pg = true -> index pg <> w) ->
    (forall j, default 0 (default ∅ (disk (sw m) !! slot_of w) !! j) = f j) -> data_of m w f.

(** ** Swapping in *)

(** A page enters the cache under a slot that no page caches. *)
Lemma cache_enter m m' p pg pg' off c l :
  cache_ok m -> pages m !! p = Some pg -> PageSwap pg = false ->
  pages m' = <[p := pg']> (pages m) -> PageSwap pg' = true -> PageActive pg' = true -> index pg' = Z.shiftl off 8 ->
  0 < off < max_swap_offset (sw m) -> mem_map (sw m) !! off = Some c -> c <> SWAP_UNUSED ->
  (forall q qg, pages m !! q = Some qg -> PageSwap qg = true -> index qg <> Z.shiftl off 8) ->
  hash_list (sw m) !! entry_hashfn (Z.shiftl off 8) = Some l ->
  hash_list (sw m') = <[entry_hashfn (Z.shiftl off 8) := p :: l]> (hash_list (sw m)) ->
  max_swap_offset (sw m') = max_swap_offset (sw m) -> mem_map (sw m') = mem_map (sw m) ->
  active_list (sw m') = active_list (sw m) ++ [p] -> nr_active_pages (sw m') = nr_active_pages (sw m) + 1 ->
  inactive_list (sw m') = inactive_list (sw m) -> nr_inactive_pages (sw m') = nr_inactive_pages (sw m) ->
  cache_ok m'.
Proof.
  intros Hc Hpg Hsw Hps Hsw' Hact' Hidx' Hoff Hm Hcu Hnew Hl Hh Hmax Hmm Hal Han Hil Hin.
  assert (Hpages : forall q qg, (pages m' !! q = Some qg /\ PageSwap qg = true) <->
    (q = p /\ qg = pg') \/ (pages m !! q = Some qg /\ PageSwap qg = true /\ q <> p)).
  { intros q qg. rewrite Hps, lookup_insert_Some. split.
    - intros [[[-> <-]|[Hne Hq]] Hqs]; [by left|right]. split_and!; [done..|congruence].
    - intros [[-> ->]|(Hq & Hqs & Hne)]; [split; [by left|done]|]. split; [right; by split; [congruence|]|done]. }
  assert (Hnp : forall q qg, pages m !! q = Some qg -> PageSwap qg = true -> q <> p) by (intros q qg Hq Hqs ->; congruence).
  assert (Hcase : forall (Q : bool -> Z -> Prop) q,
    (exists qg, pages m' !! q = Some qg /\ PageSwap qg = true /\ Q (PageActive qg) (index qg)) <->
    (q = p /\ Q true (Z.shiftl off 8)) \/
    exists qg, pages m !! q = Some qg /\ PageSwap qg = true /\ Q (PageActive qg) (index qg)).
  { intros Q q. split.
    - intros (qg & Hq & Hqs & HQ). destruct (proj1 (Hpages q qg) (conj Hq Hqs)) as [[-> ->]|(? & ? & ?)]; [|right; eauto].
      left. split; [done|]. by rewrite <- Hact', <- Hidx'.
    - intros [[-> HQ]|(qg & Hq & Hqs & HQ)].
      + exists pg'. destruct (proj2 (Hpages p pg')) as [? ?]; [by left|]. rewrite Hact', Hidx'. done.
      + exists qg. destruct (proj2 (Hpages q qg)) as [? ?]; [right; eauto|]. done. }
  destruct (c_active _ Hc) as (Ha1 & Ha2 & Ha3). destruct (c_inactive _ Hc) as (Hi1 & Hi2 & Hi3).
  assert (Hpl : p ∉ active_list (sw m)) by (rewrite Ha3; intros (qg & Hq & Hqs & _); by apply (Hnp p qg)).
  split; rewrite ?Hmax, ?Hmm, ?Hal, ?Han, ?Hil, ?Hin, ?Hh.
  - intros e. destruct (c_hash _ Hc e) as (le & Hle & Hnd & Hin').
    destruct (decide (entry_hashfn (Z.shiftl off 8) = entry_hashfn e)) as [He|He].
    + rewrite He, lookup_insert_eq. rewrite He, Hle in Hl. injection Hl as <-. exists (p :: le).
      split; [done|]. split.
      * constructor; [|done]. rewrite Hin'. intros (qg & Hq & Hqs & _). by apply (Hnp p qg).
      * intros q. rewrite elem_of_cons, (Hcase (fun _ i => entry_hashfn i = entry_hashfn e) q), Hin'. clear - He. tauto.
    + rewrite lookup_insert_ne by done. exists le. split_and!; [done..|]. intros q.
      rewrite (Hcase (fun _ i => entry_hashfn i = entry_hashfn e) q), Hin'. clear - He. tauto.
  - intros b lb q Hb Hq. apply (Hcase (fun _ i => entry_hashfn i = b) q).
    apply lookup_insert_Some in Hb as [[<- <-]|[_ Hb]]; [|right; by apply (c_other _ Hc b lb)].
    apply elem_of_cons in Hq as [->|Hq]; [by left|right; by apply (c_other _ Hc _ l)].
  - intros q qg Hq Hqs. destruct (proj1 (Hpages q qg) (conj Hq Hqs)) as [[-> ->]|(Hq' & Hqs' & _)].
    + exists off, c. done.
    + by apply (c_index _ Hc q).
  - intros q1 q2 g1 g2 Hq1 Hq2 Hs1 Hs2 Heq.
    destruct (proj1 (Hpages q1 g1) (conj Hq1 Hs1)) as [[-> ->]|(Hq1' & Hs1' & _)];
      destruct (proj1 (Hpages q2 g2) (conj Hq2 Hs2)) as [[-> ->]|(Hq2' & Hs2' & _)]; try done.
    + exfalso. apply (Hnew q2 g2); [done..|]. by rewrite <- Heq.
    + exfalso. apply (Hnew q1 g1); [done..|]. by rewrite Heq.
    + by apply (c_inj _ Hc q1 q2 g1 g2).
  - split; [|split].
    + apply NoDup_app. split_and!; [done| |apply NoDup_singleton]. intros q Hq ->%list_elem_of_singleton. done.
    + rewrite length_app, Ha2. cbn. lia.
    + intros q. rewrite elem_of_app, list_elem_of_singleton, Ha3, (Hcase (fun a _ => a = true) q). clear. intuition.
  - split; [done|]. split; [done|]. intros q. rewrite Hi3, (Hcase (fun a _ => a = false) q). clear. intuition congruence.
  - intros o Ho. destruct (c_zero _ Hc o Ho) as (q & qg & Hq & Hqs & Hi). exists q, qg.
    destruct (proj2 (Hpages q qg)) as [? ?]; [right; split_and!; eauto|]. done.
  - apply (c_map _ Hc).
Qed.

Lemma page_add_run m p pg w l :
  w <> 0 -> pages m !! p = Some pg -> PageSwap pg = false -> hash_list (sw m) !! entry_hashfn w = Some l ->
  exists m', (swap_page_add p w ;; swap_active_list_add p ;; ret (0, p)) m = Ret ((0, p), m') /\
    npage m' = npage m /\ frames m' = frames m /\ free m' = free m /\
    pages m' = <[p := mk_page (ref pg) (PageReserved pg) true true (PageDirty pg) w]> (pages m) /\
    hash_list (sw m') = <[entry_hashfn w := p :: l]> (hash_list (sw m)) /\
    max_swap_offset (sw m') = max_swap_offset (sw m) /\ mem_map (sw m') = mem_map (sw m) /\
    active_list (sw m') = active_list (sw m) ++ [p] /\ nr_active_pages (sw m') = nr_active_pages (sw m) + 1 /\
    inactive_list (sw m') = inactive_list (sw m) /\ nr_inactive_pages (sw m') = nr_inactive_pages (sw m) /\
    disk (sw m') = disk (sw m).
Proof.
  intros Hw Hpg Hsw Hl. apply Z.eqb_neq in Hw. eexists. split.
  - unfold swap_page_add, swap_active_list_add, update_page, Swap.get_page.
    unfold bind, get, modify, deref, assert, ret. rewrite Hpg. cbn. rewrite Hsw. cbn. rewrite Hw. cbn. rewrite Hw. cbn.
    rewrite Hpg. cbn. rewrite !lookup_insert_eq. cbn. rewrite Hl. cbn. rewrite !lookup_insert_eq. cbn.
    rewrite !lookup_insert_eq. cbn. reflexivity.
  - cbn. split_and!; try done. by rewrite !insert_insert_eq.
Qed.

(** The counts when a page without references enters the cache. *)
Lemma counts_cache m m' D T A ext sext p pg w :
  counts_ok m D T A ext sext -> pages m !! p = Some pg -> PageReserved pg = false -> p ∉ free m ->
  data_page D T p -> 0 <= p < npage m -> npage m' = npage m -> free m' = free m ->
  pages m' = <[p := mk_page (ref pg) (PageReserved pg) true true (PageDirty pg) w]> (pages m) ->
  max_swap_offset (sw m') = max_swap_offset (sw m) -> mem_map (sw m') = mem_map (sw m) ->
  counts_ok m' D T A ext sext.
Proof.
  intros [H1 H2 H3 H4 H5 H6 H7 H8] Hpg Hres Hpf Hdp Hpr Hn Hf Hps Hmax Hmm.
  assert (Hkp : keeps m m') by (by apply (keeps_put m m' p _ Hps)).
  split; rewrite ?Hn, ?Hf, ?Hmax, ?Hmm; try done.
  - intros q qg Hq Hqg. rewrite Hps in Hqg. apply lookup_insert_Some in Hqg as [[<- <-]|[_ Hqg]]; [|by apply H1].
    by apply (H1 p pg).
  - intros q Hq. rewrite Hps, lookup_insert_ne by (intros <-; done). by apply H4.
  - intros d v w' Hk Hw. destruct (H5 d v w' Hk Hw) as (? & ? & qg & Hq & Hr). do 2 (split; [done|]). by apply (Hkp _ qg).
  - intros d i t Hk. destruct (H7 d i t Hk) as (qg & Hq & Hr). by apply (Hkp _ qg).
  - intros q qg Hq Hqs. rewrite Hps in Hq. apply lookup_insert_Some in Hq as [[<- <-]|[_ Hq]]; [done|by apply H8].
Qed.

(** The pages that are not free keep their descriptor and contents. *)
Definition used_same (m m' : mem) : Prop :=
  free m' ⊆ free m /\ forall q, q ∉ free m -> pages m' !! q = pages m !! q /\ forall j, word m' q j = word m q j.

(** The contents of one page and the state of transfers are replaced. *)
Lemma inv_data m m' D T A ext sext p :
  inv m D T A ext sext -> data_page D T p -> npage m' = npage m -> free m' = free m -> pages m' = pages m ->
  (forall q j, q <> p -> word m' q j = word m q j) ->
  (exists dk l, sw m' = set_disk dk l (sw m)) -> inv m' D T A ext sext.
Proof.
  intros [Ht Hc Hn] [HpD HpT] Hnp Hfr Hpg Hw (dk & l & Hs). split.
  - destruct Ht as [H1 H2 H3 H4 H5 H6 H7]. split; rewrite ?Hnp, ?Hfr; try done.
    + intros d i Hd Hi. rewrite Hw by (intros ->; done). by apply H5.
    + intros d i t j Ht Hj. rewrite Hw by (intros ->; by apply (HpT (d, i))). by apply H6.
  - destruct Hc as [H1 H2 H3 H4 H5 H6 H7 H8]. split; rewrite ?Hpg, ?Hs; done.
  - destruct Hn as [H1 H2 H3 H4 H5 H6 H7 H8]. split; rewrite ?Hnp, ?Hfr, ?Hpg, ?Hs; done.
Qed.

(** Reading a slot from the disk into a page. *)
Lemma swapfs_read_run m D T A ext sext w p :
  inv m D T A ext sext -> 0 < slot_of w < max_swap_offset (sw m) -> data_page D T p -> 0 <= p < npage m ->
  exists r m', swapfs_read w p m = Ret (r, m') /\ inv m' D T A ext sext /\ npage m' = npage m /\
    free m' = free m /\ pages m' = pages m /\ (exists dk l, sw m' = set_disk dk l (sw m)) /\
    (forall q j, q <> p -> word m' q j = word m q j) /\ mem_map (sw m') = mem_map (sw m) /\
    (r = 0 -> forall j, word m' p j = default 0 (default ∅ (disk (sw m) !! slot_of w) !! j)).
Proof.
  intros Hinv Hoff Hdp Hpr. unfold swapfs_read. rewrite (bind_step _ _ _ _ _ (swap_offset_run m w Hoff)).
  rewrite (bind_step _ _ _ _ _ (KADDR_run m p Hpr)).
  set (r := default 0 (List.head (io (sw m)))). set (m1 := upd_sw (fun w => set_disk id (tail (io w)) w) m).
  assert (Hio : next_io m = Ret (r, m1)) by done. rewrite (bind_step _ _ _ _ _ Hio).
  assert (Hinv1 : inv m1 D T A ext sext) by (apply (inv_data m m1 D T A ext sext p); try done; by eexists _, _).
  destruct (Z.eqb_spec r 0) as [Hr|Hr].
  - set (m2 := upd_frames <[p := default ∅ (disk (sw m1) !! slot_of w)]> m1).
    assert (Hw2 : forall q j, q <> p -> word m2 q j = word m q j).
    { intros q j Hq. unfold word, m2. cbn. by rewrite lookup_insert_ne. }
    exists r, m2. split; [done|]. split_and!; try done.
    + apply (inv_data m1 m2 D T A ext sext p); try done. exists id, (io (sw m1)). by destruct (sw m).
    + by eexists _, _.
    + intros _ j. unfold word, m2. cbn. by rewrite lookup_insert_eq.
  - exists r, m1. split; [done|]. split_and!; try done. by eexists _, _.
Qed.

Lemma swap_in_page_run m D T A ext sext k w f :
  inv m D T A ext sext -> A !! k = Some w -> present w = false -> data_of m w f ->
  exists r p m', swap_in_page w m = Ret ((r, p), m') /\ inv m' D T A ext sext /\ npage m' = npage m /\
    used_same m m' /\ mem_map (sw m') = mem_map (sw m) /\
    (r = 0 /\ (exists pg, pages m' !! p = Some pg /\ PageSwap pg = true /\ index pg = w) /\ (p ∉ free m') /\
       (forall j, word m' p j = f j) \/
     r = - E_NO_MEM \/ r = - E_SWAP_FAULT).
Proof.
  intros Hinv Hk Hw Hf. pose proof Hinv as [Ht Hc Hn]. destruct k as [d v].
  destruct (n_swapped _ _ _ _ _ _ Hn d v w Hk Hw) as [Hshape Hrange].
  destruct (c_map _ Hc _ Hrange) as (c & Hm & Hcr). destruct (t_dom _ _ _ _ Ht d v w Hk) as (Hw0 & _).
  assert (Hcu : c <> SWAP_UNUSED).
  { intros ->. pose proof (n_slot _ _ _ _ _ _ Hn _ _ Hm) as Hs. rewrite Z.eqb_refl in Hs.
    pose proof (count_pos (swaps_to (slot_of w)) A (d, v) w Hk) as Hp. unfold swaps_to in Hp at 1.
    rewrite Hw, Z.eqb_refl in Hp. specialize (Hp eq_refl). pose proof (n_ext _ _ _ _ _ _ Hn (slot_of w)). lia. }
  unfold swap_in_page. rewrite (bind_step _ _ _ _ _ (swap_offset_run m w Hrange)), (bind_step _ _ _ _ _ (get_map_run m _ c Hm)).
  rewrite assert_true by (apply Z.leb_le; lia).
  destruct (swap_hash_find_run m m w Hc eq_refl eq_refl) as (o & Hr & Ho). rewrite (bind_step _ _ _ _ _ Hr).
  assert (Huse : used_same m m) by (split; [done|by split]).
  destruct o as [p|].
  { destruct Ho as (pg & Hpg & Hsw & Hidx). exists 0, p, m. split_and!; try done. left. split_and!; eauto.
    - intros Hfr. destruct (n_free _ _ _ _ _ _ Hn p Hfr) as (_ & pg' & Hpg' & _ & Hs' & _). congruence.
    - destruct Hf as [?|q qg _ Hq Hqs Hqi Hqf|_ Hno _]; [congruence| |by destruct (Hno p pg)].
      by rewrite (c_inj _ Hc p q pg qg) by congruence. }
  destruct (alloc_page_run m) as (o & m1 & Hr1 & Hnp1 & Hf1 & Hp1 & Hs1 & Hal). rewrite (bind_step _ _ _ _ _ Hr1).
  destruct (swap_hash_find_run m m1 w Hc) as (o2 & Hr2 & Ho2); [by rewrite Hs1|done|]. rewrite (bind_step _ _ _ _ _ Hr2).
  destruct o2 as [q|]; [destruct Ho2 as (qg & Hq & Hqs & Hqi); by destruct (Ho q qg)|]. clear Hr2 Ho2.
  assert (Hw1 : forall q j, word m1 q j = word m q j) by (intros; unfold word; by rewrite Hf1).
  destruct o as [p|].
  2:{ exists (- E_NO_MEM), 0, m1. split_and!; try done; [|split; [by rewrite Hal|intros q _; by rewrite Hp1]|by rewrite Hs1|by right; left].
      apply (inv_shrink m); try done. by rewrite Hal. }
  destruct Hal as [Hpf Hfr1].
  destruct (fresh_page D m m1 T A ext sext p) as (Hinv1 & Hdp & Hpr & Hnf & pg & Hpg & Href & Hsw & Hres); try done.
  destruct (swapfs_read_run m1 D T A ext sext w p) as (r & m2 & Hr2 & Hinv2 & Hn2 & Hfr2 & Hp2 & (dk & lio & Hs2) & Hw2 & Hmm2 & Hd2);
    [done|by rewrite Hs1|done|done|].
  rewrite (bind_step _ _ _ _ _ Hr2). rewrite <- Hp2 in Hpg.
  destruct (Z.eqb_spec r 0) as [Hr0|Hr0]; cbn [negb].
  - destruct (c_hash _ Hc w) as (l & Hl & _).
    destruct (page_add_run m2 p pg w l) as (m3 & Hr3 & Hn3 & Hf3 & Hfr3 & Hp3 & Hh3 & Hmax3 & Hmm3 & Hal3 & Han3 & Hil3 & Hin3 & Hdk3);
      [done|done|done|by rewrite Hs2, Hs1|].
    exists 0, p, m3. split; [exact Hr3|]. pose proof Hinv2 as [Ht2 Hc2 Hcn2].
    assert (Hw3 : forall q j, word m3 q j = word m2 q j) by (intros; unfold word; by rewrite Hf3).
    split_and!; [|congruence|..].
    + split.
      * apply (tables_frame m2); [done..| |done]. rewrite Hfr3. by left.
      * rewrite Hshape in Hp3, Hh3.
        eapply (cache_enter m2 m3 p pg _ (slot_of w) c l); try done; rewrite ?Hs2, ?Hs1, <- ?Hshape; try done.
        intros q qg Hq Hqs. rewrite Hp2, Hp1 in Hq. by apply (Ho q qg).
      * apply (counts_cache m2 m3 D T A ext sext p pg w); try done; [by rewrite Hfr2|by rewrite Hn2].
    + split; [rewrite Hfr3, Hfr2, Hfr1; clear; set_solver|]. intros q Hq. assert (p <> q) by (intros ->; done). split.
      * by rewrite Hp3, lookup_insert_ne, Hp2, Hp1.
      * intros j. by rewrite Hw3, Hw2, Hw1.
    + by rewrite Hmm3, Hmm2, Hs1.
    + left. split_and!; [done| |by rewrite Hfr3, Hfr2|].
      * eexists. rewrite Hp3, lookup_insert_eq. done.
      * intros j. rewrite Hw3, (Hd2 Hr0), Hs1. destruct Hf as [?|q qg _ Hq Hqs Hqi _|_ _ Hdk]; [congruence|by destruct (Ho q qg)|done].
  - destruct (inv_free D m2 T A ext sext p pg) as [Hr3 Hinv3]; try done; [by rewrite Hn2|].
    rewrite (bind_step _ _ _ _ _ Hr3). exists (- E_SWAP_FAULT), 0. eexists. split; [reflexivity|].
    split_and!; [done|by rewrite <- Hnp1, <- Hn2|..].
    + split; [cbn; rewrite Hfr2, Hfr1; clear - Hpf; set_solver|]. intros q Hq. assert (p <> q) by (intros ->; done).
      cbn. rewrite lookup_insert_ne by done. rewrite Hp2, Hp1. split; [done|].
      intros j. rewrite <- Hw1, <- Hw2 by done. done.
    + cbn. by rewrite Hmm2, Hs1.
    + right. by right.
Qed.

(** ** Private areas *)

(** Nobody else refers to page [p], by an entry or by the slot it caches. *)
Definition sole (m : mem) (A : gmap (Z * Z) Z) (ext sext : Z -> Z) (p : Z) : Prop :=
  count (maps_to p) A + ext p = 1 /\
  forall pg off, pages m !! p = Some pg -> PageSwap pg = true -> index pg = Z.shiftl off 8 ->
    count (swaps_to off) A + sext off = 0.

Section Fault.
Context (D : gset Z) (ext sext : Z -> Z) (d la t : Z).
Hypothesis Hd : d ∈ D.
Hypothesis Hla : 0 <= la < USERTOP.
Abbreviation k := (d, la / 4096).

(** The page is mapped: there is a table, so this does not fail. *)
Lemma map_page m T A p pg perm :
  inv m D T A ext sext -> T !! (d, PDX la) = Some t -> 0 <= perm < 4096 ->
  pages m !! p = Some pg -> p ∉ free m -> data_page D T p -> 0 <= p < npage m -> PageReserved pg = false ->
  exists m' T', page_insert d p la perm m = Ret (0, m') /\ T ⊆ T' /\ npage m' = npage m /\
    inv m' D T' (<[k := entry p perm]> A) ext sext /\ (forall j, word m' p j = word m p j) /\
    (forall q qg, data_page D T q -> q ∉ free m -> pages m !! q = Some qg -> PageReserved qg = false ->
       data_page D T' q /\ exists qg', pages m' !! q = Some qg' /\ PageReserved qg' = false /\
         (PageSwap qg' = true -> PageSwap qg = true /\ index qg = index qg')).
Proof using Hd Hla.
  intros Hinv HT Hperm Hpg Hpf Hdp Hpr Hres.
  destruct (page_insert_run D m T A ext sext d la p pg perm) as (r & m' & T' & H1 & H2 & H3 & H4 & H5 & H6); try done.
  rewrite (lookup_weaken _ _ _ _ HT H2) in H6. destruct H6 as [-> H6]. exists m', T'. split_and!; try done. by apply H4.
Qed.

(** [swap_page_count] of a page: the references of the slot it caches. *)
Lemma swap_page_count_run m T A p pg :
  inv m D T A ext sext -> pages m !! p = Some pg ->
  exists c, swap_page_count p m = Ret (c, m) /\ 0 <= c /\
    forall off, PageSwap pg = true -> index pg = Z.shiftl off 8 -> c = count (swaps_to off) A + sext off.
Proof using Type.
  intros [_ Hc Hn] Hpg. unfold swap_page_count. rewrite (get_page_step _ _ _ _ Hpg).
  destruct (PageSwap pg) eqn:Hsw; cbn [negb]; [|exists 0; split_and!; done].
  destruct (c_index _ Hc p pg Hpg Hsw) as (off & c & Hi & Hr & Hm & Hu). rewrite Hi.
  destruct (slot_shift off) as [Hs _]; [lia|].
  rewrite (bind_step _ _ _ _ _ (swap_offset_run m (Z.shiftl off 8) ltac:(by rewrite Hs))), Hs.
  rewrite (bind_step _ _ _ _ _ (get_map_run m off c Hm)).
  pose proof (n_slot _ _ _ _ _ _ Hn off c Hm) as Hcnt. rewrite (proj2 (Z.eqb_neq c SWAP_UNUSED) Hu) in Hcnt.
  assert (0 <= c). { rewrite Hcnt. pose proof (count_nonneg (swaps_to off) A). destruct (n_ext _ _ _ _ _ _ Hn off). lia. }
  rewrite assert_true by (by apply Z.leb_le). exists c. split_and!; [done..|]. intros off' _ Heq.
  rewrite !Z.shiftl_mul_pow2 in Heq by lia. by assert (off = off') as <- by lia.
Qed.

(** The entries after the fault. *)
Lemma sole_mapped m m' T A w p pg pg' perm c :
  inv m D T A ext sext -> A !! k = Some w -> data_page D T p -> pages m !! p = Some pg ->
  (present w = true /\ frame_of w = p \/ present w = false /\ PageSwap pg = true /\ index pg = w) ->
  (forall off, PageSwap pg = true -> index pg = Z.shiftl off 8 -> c = count (swaps_to off) A + sext off) ->
  0 <= c -> ref pg + c <= 1 -> 0 <= p < 2 ^ 20 -> 0 <= perm < 4096 ->
  pages m' !! p = Some pg' -> (PageSwap pg' = true -> PageSwap pg = true /\ index pg = index pg') ->
  sole m' (<[k := entry p perm]> A) ext sext p.
Proof using Type.
  intros Hinv Hk Hdp Hpg Hw Hc Hc0 Href Hpr Hperm Hpg' Hs. pose proof Hinv as [_ _ Hn].
  pose proof (n_ref _ _ _ _ _ _ Hn p pg Hdp Hpg) as Hr. destruct (n_ext _ _ _ _ _ _ Hn p) as [He _].
  pose proof (count_nonneg (maps_to p) A) as Hc1.
  assert (Hmt : maps_to p (entry p perm) = true) by (unfold maps_to; by rewrite present_entry, frame_entry, Z.eqb_refl).
  assert (Hst : forall off, swaps_to off (entry p perm) = false) by (intros; unfold swaps_to; by rewrite present_entry).
  unfold sole. rewrite count_put, Hk, Hmt. destruct Hw as [[Hw Hf]|(Hw & Hsw & Hidx)].
  - pose proof (count_pos (maps_to p) A _ _ Hk) as Hp. unfold maps_to in Hp at 1. unfold maps_to at 2.
    rewrite Hw, Hf, Z.eqb_refl in *. cbn [andb] in *. specialize (Hp eq_refl).
    split; [lia|]. intros qg off Hq Hqs Hi. rewrite Hpg' in Hq. injection Hq as <-. destruct (Hs Hqs) as [Hs1 Hi1].
    rewrite <- Hi1 in Hi. specialize (Hc off Hs1 Hi). rewrite count_put, Hk, Hst. unfold swaps_to at 2. rewrite Hw. cbn. lia.
  - assert (Hone : forall off, w = Z.shiftl off 8 -> 0 < count (swaps_to off) A).
    { intros off Ho. apply (count_pos _ A _ _ Hk). unfold swaps_to. rewrite Hw. cbn. rewrite Ho. apply Z.eqb_eq.
      unfold slot_of. rewrite Z.shiftr_shiftl_l by lia. apply Z.shiftl_0_r. }
    destruct (n_swapped _ _ _ _ _ _ Hn d _ w Hk Hw) as [Hshape _].
    assert (Hc2 : c = count (swaps_to (slot_of w)) A + sext (slot_of w)) by (apply Hc; [done|congruence]).
    pose proof (Hone (slot_of w) Hshape). destruct (n_ext _ _ _ _ _ _ Hn (slot_of w)) as [_ He2].
    unfold maps_to at 2. rewrite Hw. cbn [andb]. split; [lia|].
    intros qg off Hq Hqs Hi. rewrite Hpg' in Hq. injection Hq as <-. destruct (Hs Hqs) as [_ Hi1].
    assert (Hw' : w = Z.shiftl off 8) by congruence. pose proof (Hone off Hw').
    rewrite count_put, Hk, Hst. unfold swaps_to at 2. rewrite Hw. cbn [andb negb].
    assert (slot_of w = off) as Hso.
    { rewrite Hw'. unfold slot_of. rewrite Z.shiftr_shiftl_l by lia. apply Z.shiftl_0_r. }
    rewrite Hso, Z.eqb_refl in *. destruct (n_ext _ _ _ _ _ _ Hn off). lia.
Qed.

Lemma sole_fresh m m' T A w p pg pg' perm :
  inv m D T A ext sext -> A !! k = Some w -> data_page D T p -> pages m !! p = Some pg -> ref pg = 0 -> PageSwap pg = false ->
  0 <= p < 2 ^ 20 -> 0 <= perm < 4096 ->
  pages m' !! p = Some pg' -> (PageSwap pg' = true -> PageSwap pg = true /\ index pg = index pg') ->
  sole m' (<[k := entry p perm]> A) ext sext p.
Proof using Type.
  intros Hinv Hk Hdp Hpg Href Hsw Hpr Hperm Hpg' Hs. pose proof Hinv as [_ _ Hn].
  pose proof (n_ref _ _ _ _ _ _ Hn p pg Hdp Hpg) as Hr. destruct (n_ext _ _ _ _ _ _ Hn p) as [He _].
  pose proof (count_nonneg (maps_to p) A) as Hc1. split.
  - rewrite count_put, Hk. unfold maps_to at 1. rewrite present_entry, frame_entry, Z.eqb_refl by done. cbn [andb].
    destruct (maps_to p w) eqn:Hm; [|lia]. pose proof (count_pos (maps_to p) A _ _ Hk Hm). lia.
  - intros qg off Hq Hqs _. rewrite Hpg' in Hq. injection Hq as <-. destruct (Hs Hqs). congruence.
Qed.

(** A page taken from the allocator and not used yet. *)
Definition fresh (m : mem) (T : gmap (Z * Z) Z) (p : Z) : Prop :=
  (p ∉ free m) /\ data_page D T p /\ 0 <= p < npage m /\
  exists pg, pages m !! p = Some pg /\ ref pg = 0 /\ PageSwap pg = false /\ PageReserved pg = false.

(** Map a page and give a fresh one back. *)
Lemma map_free m T A p pg np perm w :
  inv m D T A ext sext -> T !! (d, PDX la) = Some t -> A !! k = Some w -> 0 <= perm < 4096 ->
  pages m !! p = Some pg -> p ∉ free m -> data_page D T p -> 0 <= p < npage m -> PageReserved pg = false ->
  fresh m T np -> p <> np ->
  exists m' T', (page_insert d p la perm ;; free_page np ;; ret 0) m = Ret (0, m') /\ T ⊆ T' /\ npage m' = npage m /\
    inv m' D T' (<[k := entry p perm]> A) ext sext /\ (forall j, word m' p j = word m p j) /\
    exists pg', pages m' !! p = Some pg' /\ (PageSwap pg' = true -> PageSwap pg = true /\ index pg = index pg').
Proof using Hd Hla.
  intros Hinv HT Hk Hperm Hpg Hpf Hdp Hpr Hres (Hnf & Hndp & Hnr & npg & Hnpg & Hnref & Hnsw & Hnres) Hne.
  pose proof (t_npage _ _ _ _ (inv_tables _ _ _ _ _ _ Hinv)) as Hmax.
  destruct (map_page m T A p pg perm) as (m1 & T1 & Hr1 & HT1 & Hn1 & Hinv1 & Hw1 & Hpages1); try done.
  rewrite (bind_step _ _ _ _ _ Hr1).
  destruct (Hpages1 np npg Hndp Hnf Hnpg Hnres) as (Hndp1 & npg1 & Hnpg1 & Hnres1 & Hnsw1).
  assert (Hns : PageSwap npg1 = false) by (destruct (PageSwap npg1); [destruct (Hnsw1 eq_refl); congruence|done]).
  assert (Href1 : ref npg1 = 0).
  { rewrite (n_ref _ _ _ _ _ _ (inv_counts _ _ _ _ _ _ Hinv1) np npg1 Hndp1 Hnpg1), count_put, Hk.
    pose proof (n_ref _ _ _ _ _ _ (inv_counts _ _ _ _ _ _ Hinv) np npg Hndp Hnpg) as Hr0.
    destruct (n_ext _ _ _ _ _ _ (inv_counts _ _ _ _ _ _ Hinv) np) as [He0 _].
    pose proof (count_nonneg (maps_to np) A). unfold maps_to at 1. rewrite present_entry, frame_entry by (done || lia).
    rewrite (proj2 (Z.eqb_neq p np) Hne). cbn [andb].
    destruct (maps_to np w) eqn:Hm; [|lia]. pose proof (count_pos (maps_to np) A _ _ Hk Hm). lia. }
  destruct (inv_free D m1 T1 (<[k := entry p perm]> A) ext sext np npg1) as [Hr2 Hinv2]; try done; [by rewrite Hn1|].
  rewrite (bind_step _ _ _ _ _ Hr2). eexists _, T1. split_and!; [reflexivity|done|done|done|done|].
  destruct (Hpages1 p pg Hdp Hpf Hpg Hres) as (_ & pg1 & Hpg1 & _ & Hs1). exists pg1. cbn.
  by rewrite lookup_insert_ne by done.
Qed.

(** Copy a page into a fresh one and map that. *)
Lemma copy_map m T A p np perm :
  inv m D T A ext sext -> T !! (d, PDX la) = Some t -> 0 <= perm < 4096 -> 0 <= p < npage m -> fresh m T np ->
  exists m' T', (copy_frame np p ;; page_insert d np la perm ;; ret 0) m = Ret (0, m') /\ T ⊆ T' /\ npage m' = npage m /\
    inv m' D T' (<[k := entry np perm]> A) ext sext /\ (forall j, word m' np j = word m p j) /\
    exists pg', pages m' !! np = Some pg' /\ PageSwap pg' = false.
Proof using Hd Hla.
  intros Hinv HT Hperm Hpr (Hnf & Hndp & Hnr & npg & Hnpg & Hnref & Hnsw & Hnres). unfold copy_frame.
  set (m1 := upd_frames (fun fs => <[np := default ∅ (fs !! p)]> fs) m).
  assert (Hr : (KADDR np ;; KADDR p ;; modify (upd_frames (fun fs => <[np := default ∅ (fs !! p)]> fs))) m = Ret (tt, m1)).
  { by rewrite (bind_step _ _ _ _ _ (KADDR_run m np Hnr)), (bind_step _ _ _ _ _ (KADDR_run m p Hpr)). }
  rewrite (bind_step _ _ _ _ _ Hr). clear Hr.
  assert (Hinv1 : inv m1 D T A ext sext).
  { apply (inv_data m m1 D T A ext sext np); try done.
    - intros q j Hq. unfold word, m1. cbn. by rewrite lookup_insert_ne.
    - exists id, (io (sw m)). unfold m1; cbn; by destruct (sw m). }
  destruct (map_page m1 T A np npg perm) as (m2 & T2 & Hr2 & HT2 & Hn2 & Hinv2 & Hw2 & Hpages2); try done.
  rewrite (bind_step _ _ _ _ _ Hr2). exists m2, T2. split_and!; try done.
  - intros j. rewrite Hw2. unfold word, m1. cbn. by rewrite lookup_insert_eq.
  - destruct (Hpages2 np npg Hndp Hnf Hnpg Hnres) as (_ & pg1 & Hpg1 & _ & Hs1). exists pg1. split; [done|].
    destruct (PageSwap pg1); [destruct (Hs1 eq_refl); congruence|done].
Qed.

(** The allocator has no page to give. *)
Definition starved (m : mem) : Prop := match answers m with Some p :: _ => p ∉ free m | _ => True end.

(** The spare page of [do_pgfault]. *)
Lemma spare_run m T A (cow : bool) :
  inv m D T A ext sext ->
  exists o m1, (if cow then alloc_page else ret None) m = Ret (o, m1) /\ inv m1 D T A ext sext /\
    npage m1 = npage m /\ frames m1 = frames m /\ pages m1 = pages m /\ sw m1 = sw m /\ free m1 ⊆ free m /\
    match o with
    | Some np => fresh m1 T np /\ np ∈ free m /\ cow = true
    | None => cow = true -> starved m
    end.
Proof using Type.
  intros Hinv. destruct cow; [|by exists None, m].
  destruct (alloc_page_run m) as (o & m1 & Hr & Hn1 & Hf1 & Hp1 & Hs1 & Ho). exists o, m1.
  destruct o as [np|].
  - destruct Ho as [Hnp Hfr]. destruct (fresh_page D m m1 T A ext sext np) as (? & ? & ? & ? & ?); try done.
    split_and!; try done. rewrite Hfr. clear. set_solver.
  - split_and!; try done; [|by rewrite Ho|].
    + apply (inv_shrink m); try done. by rewrite Ho.
    + intros _. unfold alloc_page in Hr. rewrite bind_get in Hr. unfold starved.
      destruct (answers m) as [|[p|] l]; try done. rewrite bind_modify in Hr. case_bool_decide as Hb; [|done].
      rewrite bind_modify in Hr. done.
Qed.

(** What the entry stands for does not change with the free list. *)
Lemma data_of_same m m1 w f : frames m1 = frames m -> pages m1 = pages m -> sw m1 = sw m -> data_of m w f -> data_of m1 w f.
Proof using Type.
  intros Hf Hp Hs H. assert (Hw : forall q j, word m1 q j = word m q j) by (intros; unfold word; by rewrite Hf).
  destruct H as [Hw0 H|p pg Hw0 Hpg Hsw Hi H|Hw0 Hno H].
  - apply data_present; [done|]. intros j. by rewrite Hw.
  - apply (data_cached m1 w f p pg); try done; [by rewrite Hp|]. intros j. by rewrite Hw.
  - apply data_disk; [done| |]; [by rewrite Hp|by rewrite Hs].
Qed.

(** The fault is served by page [p]. *)
Definition served (m : mem) (T A : gmap (Z * Z) Z) (p perm : Z) (f : Z -> Z) : Prop :=
  inv m D T (<[k := entry p perm]> A) ext sext /\ (forall j, word m p j = f j) /\
  (has perm PTE_W = true -> sole m (<[k := entry p perm]> A) ext sext p).

Definition user_perm (write : bool) : Z := if write then Z.lor PTE_U PTE_W else PTE_U.

Lemma user_perm_range b : 0 <= user_perm b < 4096.
Proof using Type. by destruct b. Qed.

Lemma user_perm_write b : has (user_perm b) PTE_W = b.
Proof using Type. by destruct b. Qed.

(** The end of [do_pgfault] once the page [p] with the contents is known: [write] says
    whether it is to be writable, which is decided by its references. *)
Lemma settle_run m T A w p pg o (write : bool) r f :
  inv m D T A ext sext -> T !! (d, PDX la) = Some t -> A !! k = Some w ->
  pages m !! p = Some pg -> p ∉ free m -> data_page D T p -> 0 <= p < npage m -> PageReserved pg = false ->
  (forall j, word m p j = f j) ->
  (present w = true /\ frame_of w = p \/ present w = false /\ PageSwap pg = true /\ index pg = w) ->
  match o with Some np => fresh m T np /\ p <> np | None => True end ->
  exists r' m' T', (
    shared <- (if write then n <- page_ref p ;; c <- swap_page_count p ;; ret (1 <? n + c) else ret false) ;;
    match o with
    | None => if (shared : bool) then ret r else page_insert d p la (user_perm write) ;; ret 0
    | Some np =>
        if (shared : bool) then copy_frame np p ;; page_insert d np la (user_perm write) ;; ret 0
        else page_insert d p la (user_perm write) ;; free_page np ;; ret 0
    end) m = Ret (r', m') /\ T ⊆ T' /\ npage m' = npage m /\
    ((exists p', r' = 0 /\ served m' T' A p' (user_perm write) f) \/
     (r' = r /\ write = true /\ o = None /\ inv m' D T' A ext sext)).
Proof using Hd Hla.
  intros Hinv HT Hk Hpg Hpf Hdp Hpr Hres Hf Hw Ho. pose proof (t_npage _ _ _ _ (inv_tables _ _ _ _ _ _ Hinv)) as Hmax.
  pose proof (user_perm_range write) as Hperm.
  destruct (swap_page_count_run m T A p pg Hinv Hpg) as (c & Hrc & Hc0 & Hc).
  assert (Hsh : exists b, (if write then n <- page_ref p ;; c <- swap_page_count p ;; ret (1 <? n + c) else ret false) m
      = Ret (b, m) /\ (b = true -> write = true) /\ (b = false -> write = true -> ref pg + c <= 1)).
  { destruct write; [|by exists false]. unfold page_ref. rewrite (bind_step _ _ _ (ref pg) m).
    - rewrite (bind_step _ _ _ _ _ Hrc). eexists. split; [done|]. split; [done|]. intros Hb _. by apply Z.ltb_ge in Hb.
    - by rewrite (get_page_step _ _ _ _ Hpg). }
  destruct Hsh as (b & Hb & Hbt & Hbf). rewrite (bind_step _ _ _ _ _ Hb).
  assert (Hsole : forall m' pg', b = false -> pages m' !! p = Some pg' ->
    (PageSwap pg' = true -> PageSwap pg = true /\ index pg = index pg') ->
    has (user_perm write) PTE_W = true -> sole m' (<[k := entry p (user_perm write)]> A) ext sext p).
  { intros m' pg' Hb0 Hpg' Hs' Hwr. rewrite user_perm_write in Hwr.
    apply (sole_mapped m m' T A w p pg pg' (user_perm write) c); try done; [by apply Hbf|lia]. }
  destruct o as [np|].
  - destruct Ho as [Hfresh Hne]. destruct b.
    + destruct (copy_map m T A p np (user_perm write)) as (m1 & T1 & Hr1 & HT1 & Hn1 & Hinv1 & Hw1 & pg1 & Hpg1 & Hs1); try done.
      exists 0, m1, T1. split_and!; try done. left. exists np. split; [done|]. split_and!; [done| |].
      * intros j. by rewrite Hw1.
      * intros _. destruct Hfresh as (_ & Hndp & Hnr & npg & Hnpg & Hnref & Hnsw & _).
        apply (sole_fresh m m1 T A w np npg pg1); try done; [lia|]. congruence.
    + destruct (map_free m T A p pg np (user_perm write) w) as (m1 & T1 & Hr1 & HT1 & Hn1 & Hinv1 & Hw1 & pg1 & Hpg1 & Hs1); try done.
      exists 0, m1, T1. split_and!; try done. left. exists p. split; [done|]. split_and!; [done| |].
      * intros j. by rewrite Hw1.
      * by apply (Hsole m1 pg1).
  - destruct b; [exists r, m, T; split_and!; try done; right; split_and!; try done; by apply Hbt|].
    destruct (map_page m T A p pg (user_perm write)) as (m1 & T1 & Hr1 & HT1 & Hn1 & Hinv1 & Hw1 & Hpages1); try done.
    rewrite (bind_step _ _ _ _ _ Hr1). exists 0, m1, T1. split_and!; try done. left. exists p. split; [done|].
    destruct (Hpages1 p pg Hdp Hpf Hpg Hres) as (_ & pg1 & Hpg1 & _ & Hs1). split_and!; [done| |].
    * intros j. by rewrite Hw1.
    * by apply (Hsole m1 pg1).
Qed.

Lemma cow_flag f : has f Vmm.VM_SHARE = false ->
  (Z.land f (Z.lor Vmm.VM_SHARE Vmm.VM_WRITE) =? Vmm.VM_WRITE) = has f Vmm.VM_WRITE.
Proof using Type.
  intros Hs. rewrite Z.land_lor_distr_r. unfold has in Hs. apply negb_false_iff, Z.eqb_eq in Hs. rewrite Hs, Z.lor_0_l.
  change Vmm.VM_WRITE with (2 ^ 1). rewrite has_bit by lia. destruct (Z.testbit f 1) eqn:Hb.
  - apply Z.eqb_eq. apply Z.bits_inj'. intros n Hn. rewrite Z.land_spec. destruct (Z.eq_dec 1 n) as [<-|Hne].
    + by rewrite Hb.
    + rewrite Z.pow2_bits_false by done. by rewrite andb_false_r.
  - apply Z.eqb_neq. intros Heq. apply (f_equal (fun x => Z.testbit x 1)) in Heq. rewrite Z.land_spec, Hb in Heq. done.
Qed.

(** A fault at an address that has an entry, in a private area. *)
Lemma fault_present_run m T A w ec v f :
  inv m D T A ext sext -> T !! (d, PDX la) = Some t -> A !! k = Some w ->
  has (Vmm.vm_flags v) Vmm.VM_SHARE = false -> data_of m w f ->
  (present w = true -> has ec 2 = true /\ has w PTE_W = false /\ has (Vmm.vm_flags v) Vmm.VM_WRITE = true) ->
  let write := has (Vmm.vm_flags v) Vmm.VM_WRITE && (present w || has ec 2) in
  exists r m' T', Pgfault.fault_present d ec la (Pgfault.fault_perm v) v (t, PTX la) m = Ret (r, m') /\
    T ⊆ T' /\ npage m' = npage m /\
    ((exists p, r = 0 /\ served m' T' A p (user_perm write) f) \/
     (inv m' D T' A ext sext /\
      (r = - E_NO_MEM \/ r = - E_SWAP_FAULT /\ present w = false \/
       r = 0 /\ present w = false /\ write = true /\ starved m))).
Proof using Hd Hla.
  intros Hinv HT Hk Hsh Hf Hpres write. pose proof Hinv as [Ht _ Hn].
  destruct (user_index la Hla) as (_ & Hj & Hv). destruct (t_tab _ _ _ _ Ht d _ t HT) as (_ & _ & Htr & _).
  assert (Hpte : forall m1, frames m1 = frames m -> npage m1 = npage m -> rd_pte (t, PTX la) m1 = Ret (w, m1)).
  { intros m1 Hf1 Hn1. unfold rd_pte. cbn [fst snd]. rewrite rd_word_run by (by rewrite Hn1).
    assert (Hw1 : word m1 t (PTX la) = word m t (PTX la)) by (unfold word; by rewrite Hf1).
    by rewrite Hw1, (t_pte _ _ _ _ Ht d _ t _ HT Hj), Hv, Hk. }
  unfold Pgfault.fault_present. rewrite (bind_step _ _ _ _ _ (Hpte m eq_refl eq_refl)). rewrite cow_flag by done.
  set (cow := has (Vmm.vm_flags v) Vmm.VM_WRITE) in *. fold (present w).
  rewrite assert_true.
  2:{ destruct (present w); [|done]. destruct (Hpres eq_refl) as (-> & -> & ->). done. }
  destruct (spare_run m T A cow Hinv) as (o & m1 & Hr1 & Hinv1 & Hn1 & Hf1 & Hp1 & Hs1 & Hfr1 & Ho).
  rewrite (bind_step _ _ _ _ _ Hr1), (bind_step _ _ _ _ _ (Hpte m1 Hf1 Hn1)). fold (present w).
  assert (Hperm : Pgfault.fault_perm v = user_perm cow) by done. rewrite Hperm.
  pose proof (data_of_same m m1 w f Hf1 Hp1 Hs1 Hf) as Hf'. clear Hr1 Hf.
  destruct (present w) eqn:Hw; cbn [negb andb orb] in *.
  - destruct (Hpres eq_refl) as (_ & _ & Hcow). subst write. rewrite Hcow in *. cbn [andb].
    pose proof Hinv1 as [_ _ Hcn1]. destruct (n_present _ _ _ _ _ _ Hcn1 d _ w Hk Hw) as (Hpr & Hdp & pg & Hpg & Hres).
    erewrite bind_step; [|rewrite (bind_step _ _ _ _ _ (pte2page_run m1 w Hw ltac:(lia))); reflexivity].
    destruct (settle_run m1 T A w (frame_of w) pg o true (- E_NO_MEM) f) as (r & m2 & T2 & Hr2 & HT2 & Hn2 & Hres2); try done.
    + by apply (mapped_not_free D T A ext sext m1 k).
    + destruct Hf' as [_ Hd'|? ? ?|?]; [done|congruence..].
    + by left.
    + destruct o as [np|]; [|done]. destruct Ho as (Hfresh & Hnp & _). split; [done|]. intros <-.
      by apply (mapped_not_free D T A ext sext m k w).
    + exists r, m2, T2. split; [exact Hr2|]. split_and!; [done|congruence|].
      destruct Hres2 as [H|(-> & _ & _ & Hi)]; [by left|right]. split; [done|by left].
  - destruct (swap_in_page_run m1 D T A ext sext k w f Hinv1 Hk Hw Hf')
      as (r & p & m2 & Hr2 & Hinv2 & Hn2 & [Hfr2 Huse2] & Hmm2 & Hcase).
    assert (Hfresh2 : match o with Some np => fresh m2 T np | None => True end).
    { destruct o as [np|]; [|done]. destruct Ho as ((Hnf & Hndp & Hnr & npg & Hnpg) & _). destruct (Huse2 np Hnf) as [Hpn _].
      split_and!; [by intros ?%Hfr2|done|lia|rewrite Hn2; lia|]. exists npg. by rewrite Hpn. }
    destruct (Z.eqb_spec r 0) as [Hr0|Hr0].
    + assert (exists pg, (r = 0 /\ pages m2 !! p = Some pg /\ PageSwap pg = true /\ index pg = w) /\ (p ∉ free m2) /\ forall j, word m2 p j = f j)
        as (pg & (-> & Hpg & Hsw & Hidx) & Hpf & Hd').
      { destruct Hcase as [(-> & (pg & ?) & ? & ?)|[?|?]]; [by exists pg|subst; done..]. }
      pose proof Hinv2 as [_ _ Hcn2]. destruct (n_cached _ _ _ _ _ _ Hcn2 p pg Hpg Hsw) as (Hdp & Hpr & Hres).
      assert (Hwr : exists may, (if (0 =? 0) && negb (has ec 2) && cow then ret (0, p, Z.ldiff (user_perm cow) PTE_W, false)
          else ret (0, p, user_perm cow, true)) m2 = Ret ((0, p, user_perm write, may), m2) /\ cow && may = write).
      { unfold write. destruct cow, (has ec 2); cbn [andb negb Z.eqb]; eexists; (split; [reflexivity|done]). }
      destruct Hwr as (may & Hrm & Hmay). cbn [Z.eqb] in Hrm.
      erewrite bind_step; [|rewrite (bind_step _ _ _ _ _ Hr2); cbn [Z.eqb]; exact Hrm]. cbn [Z.eqb negb]. rewrite Hmay.
      destruct (settle_run m2 T A w p pg o write 0 f) as (r & m3 & T3 & Hr3 & HT3 & Hn3 & Hres3); try done.
      * right. done.
      * destruct o as [np|]; [|done]. split; [done|]. intros <-. destruct Hfresh2 as (_ & _ & _ & qg & Hq & _ & Hqs & _). congruence.
      * exists r, m3, T3. split; [exact Hr3|]. split_and!; [done|congruence|].
        destruct Hres3 as [H|(-> & Hwt & -> & Hi)]; [by left|right]. split; [done|]. right. right.
        split_and!; try done. apply Ho. unfold write in Hwt. by apply andb_prop in Hwt as [? _].
    + erewrite bind_step; [|rewrite (bind_step _ _ _ _ _ Hr2), (proj2 (Z.eqb_neq r 0) Hr0); reflexivity].
      cbv beta iota. rewrite (proj2 (Z.eqb_neq r 0) Hr0). cbn [negb].
      assert (Hrr : r = - E_NO_MEM \/ r = - E_SWAP_FAULT /\ false = false).
      { destruct Hcase as [[? _]|[?|?]]; [done|by left|by right]. }
      destruct o as [np|].
      * destruct Hfresh2 as (Hnf & Hndp & Hnr & npg & Hnpg & Hnref & Hnsw & Hnres).
        destruct (inv_free D m2 T A ext sext np npg) as [Hr3 Hinv3]; try done. rewrite (bind_step _ _ _ _ _ Hr3).
        eexists r, _, T. split; [reflexivity|]. split_and!; [done|cbn; congruence|]. right. split; [done|]. tauto.
      * exists r, m2, T. split; [reflexivity|]. split_and!; [done|congruence|]. right. split; [done|]. tauto.
Qed.
End Fault.
End PgfaultInv.
