(* ===== verification/PgfaultSpec.v ===== *)
(** * Page faults: [do_pgfault] on private areas, and what it does wrong

    [do_pgfault_spec] composes the areas of an address space (VmmInv), its page tables
    (PmmInv) and the swap cache; the examples run the handler on a memory with the
    red-black trees of RbSpec. *)

From S2P Require Import Prelude CString Vmm VmmInv RbPure RbSpec Swap Pmm PmmInv PmmMap PmmSpec Shmem Pgfault PgfaultInv.
Open Scope Z_scope.

Module PgfaultSpec.
Import Swap Pmm PmmInv PmmMap Pgfault PgfaultInv.

Section Spec.
Context {T : Type} {RB : Vmm.RbTree T}.
Implicit Types s : Vmm.vstate T Shmem.shm_state.

Definition memory s : mem := Shmem.sh_mem (Vmm.pages s).
Definition with_memory (m : mem) s : Vmm.vstate T Shmem.shm_state :=
  Vmm.upd_pages (fun _ => Shmem.set_mem m (Vmm.pages s)) s.

Lemma on_mem_run {A} (c : M mem A) s a m' :
  c (memory s) = Ret (a, m') -> on_mem c s = Ret (a, with_memory m' s).
Proof using Type. intros H. unfold on_mem, on_shm, Shmem.on_mem. fold (memory s). by rewrite H. Qed.

Lemma with_memory_same m s : memory s = m -> with_memory m s = s.
Proof using Type. intros <-. by destruct s as [? ? ? ? []]. Qed.

Lemma space_with_memory m s mm x avs : VmmInv.space s mm x avs -> VmmInv.space (with_memory m s) mm x avs.
Proof using Type. by intros [H1 H2 H3 H4 H5 H6 H7]. Qed.

(** How a fault that its area allows ends, [k] being the page and [m] the memory before. *)
Inductive fault_result (D : gset Z) (ext sext : Z -> Z) (d la ec : Z) (v : Vmm.vma_struct) (f : Z -> Z)
    (m : mem) (A : gmap (Z * Z) Z) (m' : mem) (T' : gmap (Z * Z) Z) : Z -> Prop :=
(** a page for an address without one *)
| fault_new p : A !! (d, la / 4096) = None -> p ∈ free m ->
    inv m' D T' (<[(d, la / 4096) := entry p (fault_perm v)]> A) ext sext ->
    fault_result D ext sext d la ec v f m A m' T' 0
(** the page of the entry, or a copy of it, with its contents *)
| fault_served w p : A !! (d, la / 4096) = Some w ->
    served D ext sext d la m' T' A p (user_perm (has (Vmm.vm_flags v) Vmm.VM_WRITE && (present w || has ec 2))) f ->
    fault_result D ext sext d la ec v f m A m' T' 0
| fault_failed r : inv m' D T' A ext sext ->
    r = - E_NO_MEM \/ r = - E_SWAP_FAULT /\ (exists w, A !! (d, la / 4096) = Some w /\ present w = false) ->
    fault_result D ext sext d la ec v f m A m' T' r
(** a write to a shared slot with no page for the copy: 0 is returned, nothing is mapped *)
| fault_lost w : A !! (d, la / 4096) = Some w -> present w = false -> has (Vmm.vm_flags v) Vmm.VM_WRITE = true ->
    starved m -> inv m' D T' A ext sext ->
    fault_result D ext sext d la ec v f m A m' T' 0.

Lemma write_allowed ec a v : fault_allowed ec a v = true -> has ec 2 = true -> has (Vmm.vm_flags v) Vmm.VM_WRITE = true.
Proof using Type.
  unfold fault_allowed. destruct (a <? _); [done|]. destruct (_ && _); [done|]. intros H Hw.
  change 2 with (2 ^ 1) in Hw. rewrite has_bit in Hw by lia.
  assert (Hb : Z.testbit (Z.land ec 3) 1 = true) by (by rewrite Z.land_spec, Hw).
  destruct (Z.eqb_spec (Z.land ec 3) 1) as [E|]; [by rewrite E in Hb|].
  destruct (Z.eqb_spec (Z.land ec 3) 0) as [E|]; [by rewrite E in Hb|done].
Qed.

Lemma rounddown_page a : 0 <= a < USERTOP ->
  0 <= ROUNDDOWN a PGSIZE < USERTOP /\ ROUNDDOWN a PGSIZE / 4096 = a / 4096.
Proof using Type.
  unfold ROUNDDOWN, Vmm.ROUNDDOWN, PGSIZE, Vmm.PGSIZE, USERTOP, Vmm.USERTOP. intros H. split; [dlia|dlia].
Qed.

(** C7: a page fault in a private area.  Outside every area, or against the rights of
    its area, the fault is refused with [-E_INVAL] and the memory is as before.
    Otherwise the page is mapped with exactly the contents its entry stood for (the
    frame, the cached page or the slot on disk) and the rights of the area, and a page
    that becomes writable has no other reference; or there is no memory or a disk
    error, and no mapping changes; or a copy of a swapped page cannot be made, and the
    code says 0.  Counts, swap cache and areas stay consistent. *)
Theorem do_pgfault_spec s mm x avs D Tb A ext sext ec a f :
  VmmInv.space s mm x avs -> mm <> 0 -> inv (memory s) D Tb A ext sext -> Vmm.pgdir x ∈ D -> 0 <= a < USERTOP ->
  (forall p, p ∈ avs -> Vmm.vm_start (snd p) <= a < Vmm.vm_end (snd p) -> has (Vmm.vm_flags (snd p)) Vmm.VM_SHARE = false) ->
  (forall w, A !! (Vmm.pgdir x, a / 4096) = Some w -> data_of (memory s) w f /\
     (present w = true -> has ec 2 = true /\ has w PTE_W = false)) ->
  exists r s' x', do_pgfault mm ec a s = Ret (r, s') /\ VmmInv.space s' mm x' avs /\ Vmm.pgdir x' = Vmm.pgdir x /\
    match VmmInv.first_above avs a with
    | Some (_, v) =>
        if fault_allowed ec a v then
          exists T', Tb ⊆ T' /\ npage (memory s') = npage (memory s) /\
            fault_result D ext sext (Vmm.pgdir x) (ROUNDDOWN a PGSIZE) ec v f (memory s) A (memory s') T' r
        else r = - E_INVAL /\ memory s' = memory s
    | None => r = - E_INVAL /\ memory s' = memory s
    end.
Proof using Type.
  intros Hsp Hmm Hinv Hd Ha Hpriv Hent. unfold do_pgfault. rewrite (proj2 (Z.eqb_neq mm 0) Hmm).
  destruct (VmmInv.find_vma_ok s mm x avs a Hsp Hmm) as (s1 & x1 & Hr1 & Hsp1 & Hs1 & Hpg1).
  rewrite (bind_step _ _ _ _ _ Hr1). clear Hr1.
  assert (Hm1 : memory s1 = memory s) by (rewrite Hs1; by destruct (VmmInv.first_above avs a)).
  destruct (VmmInv.first_above avs a) as [[va v]|] eqn:Hfa; cbn [VmmInv.addr_of fst].
  2:{ exists (- E_INVAL), s1, x1. done. }
  destruct (VmmInv.first_above_elem _ _ _ Hfa) as [Hin Hend]. cbn [snd] in Hend.
  pose proof (proj1 (Forall_forall _ _) (VmmInv.sp_areas _ _ _ _ Hsp1) _ Hin) as (Hva & Hva0 & _). cbn [fst snd] in Hva, Hva0.
  rewrite (proj2 (Z.eqb_neq va 0) Hva0). rewrite (bind_step _ _ _ v s1) by (unfold Vmm.get_vma; rewrite bind_get, Hva; done).
  destruct (fault_allowed ec a v) eqn:Hall; cbn [negb].
  2:{ exists (- E_INVAL), s1, x1. done. }
  rewrite (bind_step _ _ _ x1 s1) by (unfold Vmm.get_mm; rewrite bind_get, (VmmInv.sp_mm _ _ _ _ Hsp1); done).
  assert (Hsh : has (Vmm.vm_flags v) Vmm.VM_SHARE = false).
  { apply (Hpriv (va, v) Hin). cbn. split; [|done]. unfold fault_allowed in Hall.
    destruct (Z.ltb_spec a (Vmm.vm_start v)); [done|lia]. }
  destruct (rounddown_page a Ha) as [Hla Hpage]. set (la := ROUNDDOWN a PGSIZE) in *. rewrite Hpg1.
  set (d := Vmm.pgdir x) in *. rewrite <- Hm1 in Hinv. rewrite <- Hpage in Hent. rewrite <- Hm1 in Hent |- *.
  destruct (user_index la Hla) as (Hi & Hj & Hv).
  (** the rest, with a table [t] in memory [m2] *)
  assert (Hrest : forall m2 T2 t, inv m2 D T2 A ext sext -> Tb ⊆ T2 -> npage m2 = npage (memory s1) -> free m2 ⊆ free (memory s1) ->
    T2 !! (d, PDX la) = Some t -> (is_Some (A !! (d, la / 4096)) -> m2 = memory s1) ->
    exists r s' x', (pte <- on_mem (rd_pte (t, PTX la)) ;;
            if pte =? 0 then
              if negb (has (Vmm.vm_flags v) Vmm.VM_SHARE) then
                o <- on_mem (pgdir_alloc_page d la (fault_perm v)) ;;
                match o with None => ret (- E_NO_MEM) | Some _ => ret 0 end
              else fault_shared d la (fault_perm v) v (t, PTX la)
            else on_mem (fault_present d ec la (fault_perm v) v (t, PTX la))) (with_memory m2 s1) = Ret (r, s') /\
      VmmInv.space s' mm x' avs /\ Vmm.pgdir x' = d /\
      exists T', Tb ⊆ T' /\ npage (memory s') = npage (memory s1) /\
        fault_result D ext sext d la ec v f (memory s1) A (memory s') T' r).
  { intros m2 T2 t Hinv2 HT2 Hn2 Hfr2 Ht2 Hsame. pose proof Hinv2 as [Htab2 _ _].
    destruct (t_tab _ _ _ _ Htab2 d _ t Ht2) as (_ & _ & Htr & _).
    erewrite bind_step; [|apply on_mem_run; unfold rd_pte; cbn [fst snd memory with_memory]; apply (rd_word_run m2 t _ Htr)].
    rewrite (t_pte _ _ _ _ Htab2 d _ t _ Ht2 Hj), Hv.
    destruct (A !! (d, la / 4096)) as [w|] eqn:Hk; cbn [default from_option id].
    - destruct (t_dom _ _ _ _ Htab2 d _ w Hk) as (Hw0 & _). rewrite (proj2 (Z.eqb_neq w 0) Hw0).
      destruct (Hent w eq_refl) as [Hf Hpres]. specialize (Hsame (ex_intro _ w eq_refl)). subst m2.
      destruct (fault_present_run D ext sext d la t Hd Hla (memory s1) T2 A w ec v f) as (r & m3 & T3 & Hr3 & HT3 & Hn3 & Hres); try done.
      { intros Hw. destruct (Hpres Hw) as [He Hw']. split_and!; [done..|]. by apply (write_allowed ec a). }
      eexists r, _, x1. split; [apply on_mem_run; exact Hr3|]. split; [exact (space_with_memory _ _ _ _ _ (space_with_memory _ _ _ _ _ Hsp1))|]. split; [done|].
      exists T3. split; [by trans T2|]. split; [done|].
      destruct Hres as [(p & -> & Hserved)|(Hi3 & [->|[[-> Hw]|(-> & Hw & Hwr & Hst)]])].
      + by apply (fault_served _ _ _ _ _ _ _ _ _ _ _ _ w p).
      + apply fault_failed; [done|by left].
      + apply fault_failed; [done|]. right. split; [done|]. by exists w.
      + apply (fault_lost _ _ _ _ _ _ _ _ _ _ _ _ w); try done. by apply andb_prop in Hwr as [? _].
    - change (0 =? 0) with true. cbv iota. rewrite Hsh. cbn [negb].
      destruct (pgdir_alloc_page_run D m2 T2 A ext sext d la (fault_perm v)) as (o & m3 & T3 & Hr3 & HT3 & Hn3 & Hcase); try done.
      { apply user_perm_range. }
      erewrite bind_step; [|apply on_mem_run; exact Hr3].
      destruct o as [p|]; eexists _, _, x1; (split; [reflexivity|]; split; [exact (space_with_memory _ _ _ _ _ (space_with_memory _ _ _ _ _ Hsp1))|]; split; [done|]);
        exists T3; (split; [by trans T2|]); (split; [cbn; congruence|]).
      + destruct Hcase as [Hp Hi3]. apply (fault_new _ _ _ _ _ _ _ _ _ _ _ _ p); [done|by apply Hfr2|done].
      + apply fault_failed; [done|by left]. }
  destruct (Tb !! (d, PDX la)) as [t|] eqn:Ht.
  - erewrite bind_step; [|apply on_mem_run; apply (get_pte_there (memory s1) D Tb A d la t); [apply Hinv|done..]].
    apply (Hrest (memory s1) Tb t); done.
  - destruct (get_pte_create (memory s1) D Tb A ext sext d la Hinv Hd Hla) as (o & m2 & T2 & Hr2 & -> & HT2 & Hinv2 & Hn2 & Hfr2 & _).
    erewrite bind_step; [|apply on_mem_run; exact Hr2].
    destruct (T2 !! (d, PDX la)) as [t|] eqn:Ht2; cbn [fmap option_fmap option_map].
    + apply (Hrest m2 T2 t); try done. intros [w Hw].
      destruct (t_dom _ _ _ _ (inv_tables _ _ _ _ _ _ Hinv) d _ w Hw) as (_ & _ & [t0 Ht0]).
      rewrite <- PDX_div, Ht in Ht0 by (unfold USERTOP, Vmm.USERTOP in *; lia). done.
    + eexists (- E_NO_MEM), _, x1. split; [reflexivity|]. split; [by apply space_with_memory|]. split; [done|].
      exists T2. split; [done|]. split; [done|]. apply fault_failed; [done|by left].
Qed.

(** A fault on a page of a shared area whose entry in the shared object is swapped
    out stops the kernel: [do_pgfault] counts a reference on the slot of the faulting
    entry, which is zero, instead of the slot of the shared one. *)
Theorem shared_swapped_fault_panics s s1 d la perm v ptep sh w :
  on_shm (Shmem.shmem_get_entry (Vmm.shmem v) (u32 (la - Vmm.vm_start v + Vmm.shmem_off v)) true) s = Ret (Some sh, s1) ->
  on_mem (rd_pte sh) s1 = Ret (w, s1) -> w <> 0 -> present w = false -> on_mem (rd_pte ptep) s1 = Ret (0, s1) ->
  fault_shared d la perm v ptep s = Panic.
Proof using Type.
  intros H1 H2 Hw0 Hw H3. unfold fault_shared. rewrite (bind_step _ _ _ _ _ H1), (bind_step _ _ _ _ _ H2).
  rewrite (proj2 (Z.eqb_neq w 0) Hw0). fold (present w). rewrite Hw. unfold bind at 1. rewrite (bind_step _ _ _ _ _ H3). done.
Qed.
End Spec.

(** ** Examples *)

#[local] Existing Instance RbSpec.rb_tree_interface.

(** Address space 9 on directory 1 of [PmmSpec.ex_mem], one writable area. *)
Definition ex_area : Vmm.vma_struct := Vmm.mk_vma 9 0x200000 0x210000 3 0 0.
Definition ex_x : Vmm.mm_struct RbPure.tree := Vmm.mk_mm [10] (Some (RbPure.T false RbPure.E 10 RbPure.E)) 10 1 1 0 0 0 0 0.
Definition ex_state (m : mem) : Vmm.vstate RbPure.tree Shmem.shm_state :=
  Vmm.mk_vstate {[10 := ex_area]} {[9 := ex_x]} ∅ [] (Shmem.mk_shm m ∅ ∅ []).

Lemma ex_areas m : VmmInv.space (ex_state m) 9 ex_x [(10, ex_area)].
Proof.
  split; try done.
  - repeat constructor; cbn; lia.
  - repeat constructor.
  - intros t [= <-]. done.
  - right. left.
Qed.

(** The page at 0x201000 is in slot 1. *)
Lemma ex_data : data_of PmmSpec.ex_mem 256 (fun _ => 0).
Proof.
  apply data_disk; [done| |done]. intros p pg Hp Hs. destruct (PmmSpec.ex_swapped p pg Hp). congruence.
Qed.

Lemma do_pgfault_spec_witness : exists r s' x', do_pgfault 9 2 0x201abc (ex_state PmmSpec.ex_mem) = Ret (r, s') /\
  VmmInv.space s' 9 x' [(10, ex_area)] /\ Vmm.pgdir x' = 1 /\
  exists T', PmmSpec.ex_T ⊆ T' /\ npage (memory s') = 8 /\
    fault_result PmmSpec.ex_D PmmSpec.none PmmSpec.none 1 (ROUNDDOWN 0x201abc PGSIZE) 2 ex_area (fun _ => 0)
      PmmSpec.ex_mem PmmSpec.ex_A (memory s') T' r.
Proof.
  apply (do_pgfault_spec (ex_state PmmSpec.ex_mem) 9 ex_x [(10, ex_area)] PmmSpec.ex_D PmmSpec.ex_T PmmSpec.ex_A
    PmmSpec.none PmmSpec.none 2 0x201abc (fun _ => 0)).
  - apply ex_areas.
  - lia.
  - apply PmmSpec.ex_inv.
  - vm_compute. done.
  - unfold USERTOP, Vmm.USERTOP. lia.
  - intros p ->%list_elem_of_singleton _. done.
  - intros w Hw. vm_compute in Hw. injection Hw as <-. split; [apply ex_data|done].
Defined.

(** The fault of the witness is served by page 7, read from the disk: page 6 is kept
    for a copy that is not needed, and the slot is given up. *)
Example ex_fault_served :
  (fun o => match o with Ret (r, s) => Some (r, word (memory s) 2 513, mem_map (sw (memory s)) !! 1, bool_decide (6 ∈ free (memory s))) | _ => None end)
    (do_pgfault 9 2 0x201abc (ex_state PmmSpec.ex_mem)) = Some (0, entry 7 6, Some 0, true).
Proof. vm_compute. reflexivity. Qed.

(** Two entries name the slot and the allocator has one page only: the fault is said to
    be served, with the entry as it was. *)
Definition ex_short : mem := mk_mem 8 PmmSpec.ex_frames PmmSpec.ex_pages {[6]} [None; Some 6]
  (set_mem_map <[1 := 2]> PmmSpec.ex_swap).

Example ex_fault_lost :
  (fun o => match o with Ret (r, s) => Some (r, word (memory s) 2 513) | _ => None end)
    (do_pgfault 9 2 0x201abc (ex_state ex_short)) = Some (0, 256).
Proof. vm_compute. reflexivity. Qed.

(** A shared area on an object whose first page is in slot 1: block 40 with its entries
    in frame 3. *)
Definition ex_shared : Vmm.vma_struct := Vmm.mk_vma 9 0x202000 0x203000 (Z.lor 3 Vmm.VM_SHARE) 50 0.
Definition ex_shm : Shmem.shm_state :=
  Shmem.mk_shm (upd_frames <[3 := {[0 := 256]}]> PmmSpec.ex_mem) {[50 := Shmem.mk_shmem [40] 40 4096 1]}
    {[40 := Shmem.mk_shmn 0 0x400000 3]} [].
Definition ex_shared_state : Vmm.vstate RbPure.tree Shmem.shm_state :=
  Vmm.mk_vstate {[10 := ex_shared]} {[9 := ex_x]} ∅ [] ex_shm.

Lemma shared_swapped_fault_panics_witness : fault_shared 1 0x202000 6 ex_shared (2, 514) ex_shared_state = Panic.
Proof.
  apply (shared_swapped_fault_panics ex_shared_state ex_shared_state 1 0x202000 6 ex_shared (2, 514) (3, 0) 256);
    [vm_compute; reflexivity|vm_compute; reflexivity|lia|reflexivity|vm_compute; reflexivity].
Defined.

Example ex_shared_fault : do_pgfault 9 0 0x202000 ex_shared_state = Panic.
Proof. vm_compute. reflexivity. Qed.
End PgfaultSpec.
