(* ===== verification/Kswapd.v ===== *)
(** * The paging daemon (kern/mm/swap.c: swap_out_vma, swap_out_mm, kswapd_main)

    Module [Kswapd] is the code: the scan of an address space for pages that have not
    been accessed, and one round of [kswapd_main].  Module [KswapdInv] treats what a
    round does to memory: an entry is swapped out, a page is laundered, the lists are
    refilled; none of them changes what an entry stands for. *)

From S2P Require Import Prelude CString Vmm Swap Pmm PmmInv PmmMap Shmem Pgfault PgfaultInv.
Open Scope Z_scope.

Module Kswapd.
Import Swap Pmm Pgfault.

(** The body of the loop of [swap_out_vma] for one entry: the page and the swap entry
    that took its place, none when the entry stays. *)
Definition swap_out_pte (ptep : Z * Z) : M mem (option (Z * Z)) :=
  pte <- rd_pte ptep ;;
  if negb (has pte PTE_P) then ret None
  else
    p <- pte2page pte ;;
    pg <- Swap.get_page p ;; assert (negb (PageReserved pg)) ;;
    if has pte PTE_A then wr_pte ptep (Z.ldiff pte PTE_A) ;; ret None
    else
      ok <- (if negb (PageSwap pg) then
               ok <- swap_page_add p 0 ;;
               if (ok : bool) then swap_active_list_add p ;; ret true else ret false
             else
               (if has pte PTE_D then update_page (set_dirty true) p else ret tt) ;; ret true) ;;
      if negb ok then ret None
      else
        pg <- Swap.get_page p ;;
        let entry := index pg in
        swap_duplicate entry ;;
        page_ref_dec p ;;
        wr_pte ptep entry ;;
        ret (Some (p, entry)).

Section Kswapd.
Context {T : Type} {RB : Vmm.RbTree T}.
Abbreviation state := (Vmm.vstate T Shmem.shm_state).

Definition set_swap_address a (m : Vmm.mm_struct T) : Vmm.mm_struct T :=
  Vmm.mk_mm (Vmm.mmap_list m) (Vmm.mmap_tree m) (Vmm.mmap_cache m) (Vmm.pgdir m) (Vmm.map_count m) a
    (Vmm.mm_count m) (Vmm.locked_by m) (Vmm.brk_start m) (Vmm.brk m).

(** The last reference to a page of a shared area is the one of its shared object. *)
Definition swap_out_shared (v : Vmm.vma_struct) (addr p entry : Z) : M state unit :=
  n <- on_mem (page_ref p) ;;
  if negb (n =? 1) then ret tt
  else
    let shmem_addr := u32 (addr - Vmm.vm_start v + Vmm.shmem_off v) in
    o <- on_shm (Shmem.shmem_get_entry (Vmm.shmem v) shmem_addr false) ;;
    sh_ptep <- deref o ;;
    sh_pte <- on_mem (rd_pte sh_ptep) ;;
    assert (negb (sh_pte =? 0)) ;;
    if has sh_pte PTE_P then on_shm (Shmem.shmem_insert_entry (Vmm.shmem v) shmem_addr entry) ;; ret tt
    else ret tt.

Fixpoint swap_out_loop (fuel : nat) (mm : Z) (v : Vmm.vma_struct) (addr end_ require free_count : Z) : M state Z :=
  match fuel with
  | O => out_of_fuel
  | S fuel =>
      if negb ((addr <? end_) && negb (require =? 0)) then ret free_count
      else
        m <- Vmm.get_mm mm ;;
        o <- on_mem (get_pte (Vmm.pgdir m) addr false) ;;
        match o with
        | None => swap_out_loop fuel mm v (ROUNDDOWN (u32 (addr + PTSIZE)) PTSIZE) end_ require free_count
        | Some ptep =>
            r <- on_mem (swap_out_pte ptep) ;;
            match r with
            | None => swap_out_loop fuel mm v (u32 (addr + PGSIZE)) end_ require free_count
            | Some (p, entry) =>
                Vmm.update_mm (set_swap_address (u32 (addr + PGSIZE))) mm ;;
                (if has (Vmm.vm_flags v) Vmm.VM_SHARE then swap_out_shared v addr p entry else ret tt) ;;
                swap_out_loop fuel mm v (u32 (addr + PGSIZE)) end_ (require - 1) (free_count + 1)
            end
        end
  end.

Definition swap_out_vma (mm vma addr require : Z) : M state Z :=
  v <- Vmm.get_vma vma ;;
  if (require =? 0) || negb ((Vmm.vm_start v <=? addr) && (addr <? Vmm.vm_end v)) then ret 0
  else
    let addr := ROUNDDOWN addr PGSIZE in
    let end_ := ROUNDUP (Vmm.vm_end v) PGSIZE in
    swap_out_loop (S (range_fuel addr end_)) mm v addr end_ require 0.

(** The [for] of [swap_out_mm]: the areas in turn, the first after the last. *)
Fixpoint swap_out_areas (n : nat) (mm vma addr require free_count : Z) : M state Z :=
  match n with
  | O => ret free_count
  | S n =>
      r <- swap_out_vma mm vma addr require ;;
      if require - r =? 0 then ret (free_count + r)
      else
        m <- Vmm.get_mm mm ;;
        vma <- deref (match entry_after (Vmm.mmap_list m) vma with
                      | Some x => Some x | None => List.head (Vmm.mmap_list m) end) ;;
        v <- Vmm.get_vma vma ;;
        swap_out_areas n mm vma (Vmm.vm_start v) (require - r) (free_count + r)
  end.

Definition swap_out_mm (mm require : Z) : M state Z :=
  assert (negb (mm =? 0)) ;;
  m <- Vmm.get_mm mm ;;
  if (require =? 0) || (Vmm.map_count m =? 0) then ret 0
  else
    assert (match Vmm.mmap_list m with [] => false | _ => true end) ;;
    let addr := Vmm.swap_address m in
    vma <- Vmm.find_vma mm addr ;;
    '(addr, vma) <- (if vma =? 0 then
                       Vmm.update_mm (set_swap_address 0) mm ;;
                       vma <- deref (List.head (Vmm.mmap_list m)) ;; ret (0, vma)
                     else ret (addr, vma)) ;;
    v <- Vmm.get_vma vma ;;
    assert (addr <=? Vmm.vm_end v) ;;
    let addr := if addr <? Vmm.vm_start v then Vmm.vm_start v else addr in
    swap_out_areas (Z.to_nat (Vmm.map_count m + 1)) mm vma addr require 0.

(** The daemon: [pressure], its local [guard], and [proc_mm_list] with the address
    spaces. *)
Record kstate := mk_kstate { pressure : Z; guard : Z; proc_mm_list : list Z; vm : state }.

Definition on_vm {A} (c : M state A) : M kstate A := fun k =>
  match c (vm k) with
  | Ret (a, s) => Ret (a, mk_kstate (pressure k) (guard k) (proc_mm_list k) s)
  | Panic => Panic
  | OutOfFuel => OutOfFuel
  end.

(** The inner loop: the first address space goes to the end of the list. *)
Fixpoint kswapd_loop (rounds : nat) (needs : Z) : M kstate unit :=
  match rounds with
  | O => ret tt
  | S rounds =>
      if needs <=? 0 then ret tt
      else
        k <- get ;;
        mm <- deref (List.head (proc_mm_list k)) ;;
        modify (fun k => mk_kstate (pressure k) (guard k) (tail (proc_mm_list k) ++ [mm]) (vm k)) ;;
        n <- on_vm (swap_out_mm mm (if needs <? 32 then needs else 32)) ;;
        kswapd_loop rounds (needs - n)
  end.

(** One round of [kswapd_main]: true when it ends by waking those who wait for pages
    and sleeping. *)
Definition kswapd_round : M kstate bool :=
  k <- get ;;
  (if 0 <? pressure k then
     assert (match proc_mm_list k with [] => false | _ => true end) ;;
     kswapd_loop 16 (s32 (Z.shiftl (pressure k) 5))
   else ret tt) ;;
  n <- on_vm (on_mem page_launder) ;;
  modify (fun k => mk_kstate (s32 (pressure k - n)) (guard k) (proc_mm_list k) (vm k)) ;;
  on_vm (on_mem refill_inactive_scan) ;;
  k <- get ;;
  if 0 <? pressure k then
    modify (fun k => mk_kstate (pressure k) (if 1000 <=? guard k + 1 then 0 else guard k + 1) (proc_mm_list k) (vm k)) ;;
    ret false
  else
    modify (fun k => mk_kstate 0 0 (proc_mm_list k) (vm k)) ;;
    ret true.
End Kswapd.
End Kswapd.

Module KswapdInv.
Import Swap Pmm PmmInv PmmMap PgfaultInv.

(** ** What entries stand for *)

(** The slot a page caches. *)
Definition caches (m : mem) (p : Z) : option Z :=
  pages m !! p ≫= fun pg => if PageSwap pg then Some (index pg) else None.
Definition disk_word (m : mem) (w j : Z) : Z := default 0 (default ∅ (disk (sw m) !! slot_of w) !! j).

Lemma caches_Some m p w : caches m p = Some w <-> exists pg, pages m !! p = Some pg /\ PageSwap pg = true /\ index pg = w.
Proof.
  unfold caches. destruct (pages m !! p) as [pg|]; cbn; [|split; [done|by intros (? & ? & _)]]. split.
  - intros H. exists pg. destruct (PageSwap pg); [|done]. by injection H.
  - intros (qg & [= <-] & -> & <-). done.
Qed.

Lemma caches_page m p pg : pages m !! p = Some pg -> PageSwap pg = true -> caches m p = Some (index pg).
Proof. intros H Hs. apply caches_Some. eauto. Qed.

Lemma data_caches m w f : data_of m w f <->
  if present w then forall j, word m (frame_of w) j = f j
  else (exists p, caches m p = Some w /\ forall j, word m p j = f j) \/
       (forall p, caches m p <> Some w) /\ forall j, disk_word m w j = f j.
Proof.
  split.
  - intros [-> Hf|p pg -> Hp Hs Hi Hf| -> Hno Hf]; [done|left; exists p; rewrite caches_Some; eauto|right].
    split; [|done]. intros p (pg & Hp & Hs & Hi)%caches_Some. by apply (Hno p pg).
  - destruct (present w) eqn:Hw; [by apply data_present|].
    intros [(p & (pg & Hp & Hs & Hi)%caches_Some & Hf)|[Hno Hf]]; [by apply (data_cached m w f p pg)|].
    apply data_disk; [done| |done]. intros p pg Hp Hs Hi. apply (Hno p), caches_Some. eauto.
Qed.

(** ** The lists of the cache *)

(** A page is taken off its list and linked at the end of one of them. *)
Record relinked (m m' : mem) (p : Z) (pg pg' : page) : Prop := {
  l_pages : pages m' = <[p := pg']> (pages m);
  l_same : PageSwap pg' = true /\ index pg' = index pg /\ ref pg' = ref pg /\ PageReserved pg' = PageReserved pg /\ PageDirty pg' = PageDirty pg;
  l_max : max_swap_offset (sw m') = max_swap_offset (sw m);
  l_map : mem_map (sw m') = mem_map (sw m);
  l_hash : hash_list (sw m') = hash_list (sw m);
  l_active : active_list (sw m') = List.remove Z.eq_dec p (active_list (sw m)) ++ (if PageActive pg' then [p] else []);
  l_inactive : inactive_list (sw m') = List.remove Z.eq_dec p (inactive_list (sw m)) ++ (if PageActive pg' then [] else [p]);
  l_nr : nr_active_pages (sw m') = nr_active_pages (sw m) - (if PageActive pg then 1 else 0) + (if PageActive pg' then 1 else 0) /\
         nr_inactive_pages (sw m') = nr_inactive_pages (sw m) - (if PageActive pg then 0 else 1) + (if PageActive pg' then 0 else 1);
  l_rest : npage m' = npage m /\ frames m' = frames m /\ free m' = free m /\ next (sw m') = next (sw m) /\ disk (sw m') = disk (sw m) }.

Lemma list_relink (l : list Z) (p : Z) (b b' : bool) (P P' : Z -> Prop) :
  NoDup l -> (forall q, q ∈ l <-> P q) -> (P p <-> b = true) -> (P' p <-> b' = true) -> (forall q, q <> p -> P q <-> P' q) ->
  let l' := List.remove Z.eq_dec p l ++ (if b' then [p] else []) in
  NoDup l' /\ Z.of_nat (length l') = Z.of_nat (length l) - (if b then 1 else 0) + (if b' then 1 else 0) /\
  forall q, q ∈ l' <-> P' q.
Proof.
  intros Hnd Hin Hp Hp' Hq l'. unfold l'. split_and!.
  - apply NoDup_app. split_and!; [by apply NoDup_unlink| |destruct b'; [apply NoDup_singleton|apply NoDup_nil_2]].
    intros q [_ Hne]%elem_of_unlink. destruct b'; [by intros ->%list_elem_of_singleton|by intros ?%not_elem_of_nil].
  - rewrite length_app, Nat2Z.inj_add, length_unlink by done.
    rewrite (bool_decide_ext (p ∈ l) (b = true)) by (by rewrite Hin). case_bool_decide; destruct b, b'; cbn; try done; lia.
  - intros q. rewrite elem_of_app, elem_of_unlink, Hin. destruct (decide (q = p)) as [->|Hne].
    + rewrite Hp'. destruct b'; rewrite ?list_elem_of_singleton; [tauto|]. split; [|done].
      intros [[_ ?]|?%not_elem_of_nil]; done.
    + rewrite (Hq q Hne). destruct b'; rewrite ?list_elem_of_singleton; [tauto|]. split; [|tauto].
      intros [[? _]|?%not_elem_of_nil]; done.
Qed.

(** Pages other than one, and that one. *)
Lemma lookup_put m m' p (pg' : page) (Q : page -> Prop) q :
  pages m' = <[p := pg']> (pages m) ->
  (exists qg, pages m' !! q = Some qg /\ Q qg) <-> (q = p /\ Q pg') \/ (q <> p /\ exists qg, pages m !! q = Some qg /\ Q qg).
Proof.
  intros ->. destruct (decide (p = q)) as [<-|Hne].
  - rewrite lookup_insert_eq. split; [intros (qg & [= <-] & HQ); by left|]. intros [[_ HQ]|[? _]]; [eauto|done].
  - rewrite lookup_insert_ne by done. split; [intros H; right; split; [congruence|done]|]. intros [[-> _]|[_ H]]; done.
Qed.

Lemma cache_relink m m' p pg pg' :
  cache_ok m -> pages m !! p = Some pg -> PageSwap pg = true -> relinked m m' p pg pg' -> cache_ok m'.
Proof.
  intros Hc Hpg Hsw [Hps (Hsw' & Hi & _) Hmax Hmap Hhash Hal Hil [Hna Hni] _].
  assert (Hsame : forall (Q : Z -> Prop) q,
    (exists qg, pages m' !! q = Some qg /\ PageSwap qg = true /\ Q (index qg)) <->
    (exists qg, pages m !! q = Some qg /\ PageSwap qg = true /\ Q (index qg))).
  { intros Q q. rewrite (lookup_put m m' p pg' (fun qg => PageSwap qg = true /\ Q (index qg)) q Hps), Hi.
    destruct (decide (q = p)) as [->|]; [|tauto]. split; [intros [[_ [_ ?]]|[? _]]; [eauto|done]|].
    intros (qg & Hq & _ & ?). left. by simplify_eq. }
  assert (Hback : forall q qg', pages m' !! q = Some qg' -> PageSwap qg' = true ->
    exists qg, pages m !! q = Some qg /\ PageSwap qg = true /\ index qg = index qg').
  { intros q qg' Hq Hqs. apply (Hsame (fun i => i = index qg')). eauto. }
  destruct (c_active _ Hc) as (Ha1 & Ha2 & Ha3). destruct (c_inactive _ Hc) as (Hi1 & Hi2 & Hi3).
  split; rewrite ?Hmax, ?Hmap, ?Hhash, ?Hal, ?Hil, ?Hna, ?Hni, ?Ha2, ?Hi2.
  - intros e. destruct (c_hash _ Hc e) as (l & Hl & Hnd & Hin). exists l. split_and!; [done..|]. intros q.
    rewrite Hin. symmetry. apply (Hsame (fun i => entry_hashfn i = entry_hashfn e)).
  - intros b l q Hl Hin. apply (Hsame (fun i => entry_hashfn i = b)). by apply (c_other _ Hc b l).
  - intros q qg Hq Hqs. destruct (Hback q qg Hq Hqs) as (qg0 & Hq0 & Hs0 & <-). by apply (c_index _ Hc q).
  - intros q1 q2 g1 g2 Hq1 Hq2 Hs1 Hs2 Heq. destruct (Hback q1 g1 Hq1 Hs1) as (h1 & ? & ? & ?).
    destruct (Hback q2 g2 Hq2 Hs2) as (h2 & ? & ? & ?). apply (c_inj _ Hc q1 q2 h1 h2); congruence.
  - edestruct (list_relink (active_list (sw m)) p (PageActive pg) (PageActive pg')) as (H1 & H2 & H3); [done|exact Ha3|..].
    4:{ split; [exact H1|]. split; [by rewrite H2|]. exact H3. }
    + split; [intros (qg & Hq & _ & ?); by simplify_eq|eauto].
    + rewrite (lookup_put m m' p pg' (fun qg => PageSwap qg = true /\ PageActive qg = true) p Hps). clear - Hsw'. tauto.
    + intros q Hne. rewrite (lookup_put m m' p pg' (fun qg => PageSwap qg = true /\ PageActive qg = true) q Hps). clear - Hne. tauto.
  - edestruct (list_relink (inactive_list (sw m)) p (negb (PageActive pg)) (negb (PageActive pg'))) as (H1 & H2 & H3); [done|exact Hi3|..].
    4:{ replace (if PageActive pg' then [] else [p]) with (if negb (PageActive pg') then [p] else []) by (by destruct (PageActive pg')).
        split; [exact H1|]. split; [rewrite H2; by destruct (PageActive pg), (PageActive pg')|]. exact H3. }
    + rewrite negb_true_iff. split; [intros (qg & Hq & _ & ?); by simplify_eq|eauto].
    + rewrite (lookup_put m m' p pg' (fun qg => PageSwap qg = true /\ PageActive qg = false) p Hps), negb_true_iff. clear - Hsw'. tauto.
    + intros q Hne. rewrite (lookup_put m m' p pg' (fun qg => PageSwap qg = true /\ PageActive qg = false) q Hps). clear - Hne. tauto.
  - intros off Ho. destruct (c_zero _ Hc off Ho) as (q & Hq). exists q. by apply (Hsame (fun i => i = Z.shiftl off 8)).
  - apply (c_map _ Hc).
Qed.

(** ** Running the routines of the cache *)

Definition unlink (p : Z) (act : bool) (w : swap_state) : swap_state :=
  mk_swap (max_swap_offset w)
    (List.remove Z.eq_dec p (active_list w)) (if act then nr_active_pages w - 1 else nr_active_pages w)
    (List.remove Z.eq_dec p (inactive_list w)) (if act then nr_inactive_pages w else nr_inactive_pages w - 1)
    (mem_map w) (hash_list w) (next w) (failed_counter w) (disk w) (io w).

Lemma list_del_run m p pg : pages m !! p = Some pg -> PageSwap pg = true ->
  swap_list_del p m = Ret (tt, upd_sw (unlink p (PageActive pg)) m).
Proof.
  intros Hpg Hsw. unfold swap_list_del. rewrite (get_page_step _ _ _ _ Hpg), assert_true by done.
  unfold modify. by destruct (PageActive pg).
Qed.

Lemma active_add_run m p pg : pages m !! p = Some pg -> PageSwap pg = true ->
  swap_active_list_add p m = Ret (tt, upd_sw (fun w => set_active_list (active_list w ++ [p]) (nr_active_pages w + 1) w)
    (set_page p (set_active true pg) m)).
Proof.
  intros Hpg Hsw. unfold swap_active_list_add. rewrite (get_page_step _ _ _ _ Hpg), assert_true by done.
  by rewrite (bind_step _ _ _ _ _ (update_page_run _ _ _ _ Hpg)).
Qed.

Lemma inactive_add_run m p pg : pages m !! p = Some pg -> PageSwap pg = true ->
  swap_inactive_list_add p m = Ret (tt, upd_sw (fun w => set_inactive_list (inactive_list w ++ [p]) (nr_inactive_pages w + 1) w)
    (set_page p (set_active false pg) m)).
Proof.
  intros Hpg Hsw. unfold swap_inactive_list_add. rewrite (get_page_step _ _ _ _ Hpg), assert_true by done.
  by rewrite (bind_step _ _ _ _ _ (update_page_run _ _ _ _ Hpg)).
Qed.

Lemma swap_free_run m p pg : pages m !! p = Some pg -> PageSwap pg = true -> ref pg = 0 -> PageReserved pg = false ->
  exists m', swap_free_page p m = Ret (tt, m') /\ npage m' = npage m /\ frames m' = frames m /\
    pages m' = <[p := freed_page pg]> (pages m) /\ free m' = {[p]} ∪ free m /\
    sw m' = set_hash_list (fmap (List.remove Z.eq_dec p)) (sw m).
Proof.
  intros Hpg Hsw Hr Hres. unfold swap_free_page, swap_page_del. rewrite (get_page_step _ _ _ _ Hpg), Hsw, Hr, assert_true by done.
  set (m1 := upd_sw (set_hash_list (fmap (List.remove Z.eq_dec p))) (set_page p (set_swap false pg) m)).
  erewrite (bind_step _ _ _ tt m1).
  - assert (Hl : pages m1 !! p = Some (set_swap false pg)) by apply lookup_insert_eq.
    rewrite (free_page_run _ _ _ Hl Hres). eexists. split; [reflexivity|]. cbn. by rewrite insert_insert_eq.
  - rewrite (get_page_step _ _ _ _ Hpg), assert_true by done. by rewrite (bind_step _ _ _ _ _ (update_page_run _ _ _ _ Hpg)).
Qed.

Section Slot.
Context (m : mem) (off c : Z).
Hypothesis Hoff : 0 < off < max_swap_offset (sw m).
Hypothesis Hm : mem_map (sw m) !! off = Some c.

Lemma slot_offset_run : swap_offset (Z.shiftl off 8) m = Ret (off, m).
Proof using Hoff.
  destruct (slot_shift off ltac:(lia)) as [Hs _]. rewrite <- Hs at 2. apply swap_offset_run. by rewrite Hs.
Qed.

Lemma duplicate_run : 0 <= c < MAX_SWAP_REF -> swap_duplicate (Z.shiftl off 8) m = Ret (tt, upd_sw (set_mem_map <[off := c + 1]>) m).
Proof using Hoff Hm.
  intros Hc. unfold swap_duplicate. rewrite (bind_step _ _ _ _ _ slot_offset_run), (bind_step _ _ _ _ _ (get_map_run m _ c Hm)).
  rewrite assert_true; [done|]. apply andb_true_intro. split; [apply Z.leb_le|apply Z.ltb_lt]; lia.
Qed.

Lemma try_free_run : try_free_swap_entry (Z.shiftl off 8) m =
  Ret (c =? 0, if c =? 0 then upd_sw (set_mem_map <[off := SWAP_UNUSED]>) m else m).
Proof using Hoff Hm.
  unfold try_free_swap_entry. rewrite (bind_step _ _ _ _ _ slot_offset_run), (bind_step _ _ _ _ _ (get_map_run m _ c Hm)).
  by destruct (c =? 0).
Qed.

Lemma swapfs_write_run p : 0 <= p < npage m -> exists r, swapfs_write (Z.shiftl off 8) p m =
  Ret (r, upd_sw (set_disk (if r =? 0 then <[off := default ∅ (frames m !! p)]> else id) (tail (io (sw m)))) m).
Proof using Hoff.
  intros Hp. unfold swapfs_write. rewrite (bind_step _ _ _ _ _ slot_offset_run), (bind_step _ _ _ _ _ (KADDR_run m p Hp)).
  set (r := default 0 (List.head (io (sw m)))). exists r.
  assert (Hio : next_io m = Ret (r, upd_sw (fun w => set_disk id (tail (io w)) w) m)) by done.
  rewrite (bind_step _ _ _ _ _ Hio). by destruct (r =? 0).
Qed.
End Slot.

(** A dirty page is written: it stays in the cache when that fails. *)
Definition write_out (p entry : Z) : M mem bool :=
  update_page (set_dirty false) p ;;
  swap_duplicate entry ;;
  r <- swapfs_write entry p ;;
  (if negb (r =? 0) then update_page (set_dirty true) p else ret tt) ;;
  off <- swap_offset entry ;;
  c <- get_map off ;; set_map off (c - 1) ;;
  pg <- Swap.get_page p ;;
  if negb (ref pg =? 0) then swap_active_list_add p ;; ret true
  else if PageDirty pg then swap_inactive_list_add p ;; ret true
  else try_free_swap_entry entry ;; ret false.

Lemma write_out_run m p pg off c :
  pages m !! p = Some pg -> PageSwap pg = true -> ref pg = 0 -> PageDirty pg = true -> 0 <= p < npage m ->
  0 < off < max_swap_offset (sw m) -> mem_map (sw m) !! off = Some c -> 0 < c < MAX_SWAP_REF ->
  exists keep m', write_out p (Z.shiftl off 8) m = Ret (keep, m') /\ npage m' = npage m /\ frames m' = frames m /\ free m' = free m /\
    if (keep : bool) then pages m' = <[p := set_active false pg]> (pages m) /\
      exists l, sw m' = set_disk id l (set_inactive_list (inactive_list (sw m) ++ [p]) (nr_inactive_pages (sw m) + 1) (sw m))
    else pages m' = <[p := set_dirty false pg]> (pages m) /\
      exists l, sw m' = set_disk <[off := default ∅ (frames m !! p)]> l (sw m).
Proof.
  intros Hpg Hsw Hr Hd Hpr Hoff Hm Hc. unfold write_out. rewrite (bind_step _ _ _ _ _ (update_page_run _ _ _ _ Hpg)).
  set (m1 := set_page p (set_dirty false pg) m). rewrite (bind_step _ _ _ _ _ (duplicate_run m1 off c Hoff Hm ltac:(lia))).
  set (m2 := upd_sw (set_mem_map <[off := c + 1]>) m1).
  destruct (swapfs_write_run m2 off Hoff p Hpr) as (r & Hw). rewrite (bind_step _ _ _ _ _ Hw). clear Hw.
  set (m3 := upd_sw (set_disk _ _) m2).
  assert (Hp3 : pages m3 !! p = Some (set_dirty false pg)) by apply lookup_insert_eq.
  assert (Hback : <[off := c]> (<[off := c + 1]> (mem_map (sw m))) = mem_map (sw m)) by (by rewrite insert_insert_eq, insert_id).
  destruct (r =? 0); cbn [negb].
  - rewrite bind_ret, (bind_step _ _ _ _ _ (slot_offset_run m3 off Hoff)).
    rewrite (bind_step _ _ _ _ _ (get_map_run m3 off (c + 1) (lookup_insert_eq _ _ _))). unfold set_map at 1. rewrite bind_modify.
    set (m4 := upd_sw (set_mem_map <[off := c + 1 - 1]>) m3). rewrite (get_page_step m4 p _ _ Hp3). cbn [ref set_dirty PageDirty].
    rewrite Hr. cbn [negb Z.eqb].
    assert (Hm4 : mem_map (sw m4) !! off = Some c) by (cbn; rewrite lookup_insert_eq; f_equal; lia).
    rewrite (bind_step _ _ _ _ _ (try_free_run m4 off c Hoff Hm4)), (proj2 (Z.eqb_neq c 0)) by lia.
    exists false, m4. split; [done|]. do 3 (split; [done|]). split; [done|]. exists (tail (io (sw m))).
    unfold m4, m3, upd_sw, set_mem_map, set_disk. cbn. replace (c + 1 - 1) with c by lia. by rewrite Hback.
  - rewrite (bind_step _ _ _ _ _ (update_page_run _ _ _ _ Hp3)). set (m3' := set_page p _ m3).
    assert (Hp3' : pages m3' !! p = Some pg).
    { unfold m3'. cbn. rewrite lookup_insert_eq. rewrite <- Hd. by destruct pg. }
    rewrite (bind_step _ _ _ _ _ (slot_offset_run m3' off Hoff)).
    rewrite (bind_step _ _ _ _ _ (get_map_run m3' off (c + 1) (lookup_insert_eq _ _ _))). unfold set_map at 1. rewrite bind_modify.
    set (m4 := upd_sw (set_mem_map <[off := c + 1 - 1]>) m3'). assert (Hp4 : pages m4 !! p = Some pg) by done.
    rewrite (get_page_step m4 p _ _ Hp4), Hr, Hd. cbn [negb Z.eqb].
    rewrite (bind_step _ _ _ _ _ (inactive_add_run m4 p pg Hp4 Hsw)). eexists true, _. split; [reflexivity|].
    do 3 (split; [done|]). split; [cbn; by rewrite !insert_insert_eq|]. exists (tail (io (sw m))).
    unfold m4, m3', m3, upd_sw, set_mem_map, set_disk, set_inactive_list. cbn. replace (c + 1 - 1) with c by lia. by rewrite Hback.
Qed.

Lemma entry_after_next l x y : NoDup l -> entry_after l x = Some y -> y ∈ l /\ y <> x.
Proof.
  induction 1 as [|z l Hz Hnd IH]; cbn; [done|]. destruct (Z.eqb_spec z x) as [->|Hne].
  - destruct l as [|y' l']; [done|]. intros [= ->]. split; [set_solver|]. intros ->. set_solver.
  - intros [Hy ?]%IH. split; [set_solver|done].
Qed.

(** The search for a slot goes once around. *)
Definition slot_is (m : mem) (v off : Z) : Prop := off = 0 \/ 0 < off < max_swap_offset (sw m) /\ mem_map (sw m) !! off = Some v.

Lemma scan_slots_run m end_ :
  (forall off, 0 < off < max_swap_offset (sw m) -> exists c, mem_map (sw m) !! off = Some c) -> 1 <= end_ < max_swap_offset (sw m) ->
  forall fuel nxt z, 1 <= nxt < max_swap_offset (sw m) -> slot_is m 0 z ->
  (if nxt <? end_ then end_ - nxt else max_swap_offset (sw m) - 1 - nxt + end_) <= Z.of_nat fuel ->
  exists e' z' n', scan_entries fuel nxt 0 z end_ m = Ret ((e', z', n'), m) /\
    slot_is m SWAP_UNUSED e' /\ slot_is m 0 z' /\ 1 <= n' < max_swap_offset (sw m).
Proof.
  intros Hall Hend. induction fuel as [|fuel IH]; intros nxt z Hn Hz Hfuel; [destruct (Z.ltb_spec nxt end_); lia|].
  cbn [scan_entries]. destruct (Hall nxt ltac:(lia)) as [c Hc]. rewrite (bind_step _ _ _ _ _ (get_map_run m nxt c Hc)), bind_get.
  set (z1 := if (c =? 0) && (z =? 0) then nxt else z).
  set (n1 := if nxt + 1 =? max_swap_offset (sw m) then 1 else nxt + 1).
  assert (Hz1 : slot_is m 0 z1).
  { unfold z1. destruct (Z.eqb_spec c 0) as [->|]; [|done]. destruct (z =? 0); [|done]. cbn [andb]. right. split; [lia|done]. }
  assert (Hn1 : 1 <= n1 < max_swap_offset (sw m)) by (unfold n1; destruct (Z.eqb_spec (nxt + 1) (max_swap_offset (sw m))); lia).
  destruct (Z.eqb_spec c SWAP_UNUSED) as [->|Hcu].
  - rewrite (proj2 (Z.eqb_neq nxt 0)) by lia. cbn [andb]. exists nxt, z1, n1. split_and!; [done|right; split; [lia|done]|done|lia..].
  - cbn [Z.eqb andb]. destruct (Z.eqb_spec n1 end_) as [He|He]; cbn [negb].
    + exists 0, z1, n1. split_and!; [done|by left|done|lia..].
    + apply IH; [done..|]. revert He Hfuel. unfold n1.
      destruct (Z.eqb_spec (nxt + 1) (max_swap_offset (sw m))), (Z.ltb_spec nxt end_); intros; case_bool; lia.
Qed.

Lemma page_del_run m p pg : pages m !! p = Some pg -> PageSwap pg = true ->
  swap_page_del p m = Ret (tt, upd_sw (set_hash_list (fmap (List.remove Z.eq_dec p))) (set_page p (set_swap false pg) m)).
Proof.
  intros Hpg Hsw. unfold swap_page_del. rewrite (get_page_step _ _ _ _ Hpg), assert_true by done.
  by rewrite (bind_step _ _ _ _ _ (update_page_run _ _ _ _ Hpg)).
Qed.

(** A page and its slot enter the cache, the slot not counted yet. *)
Record entered (m m' : mem) (p : Z) (pg : page) (off : Z) : Prop := {
  r_pages : pages m' = <[p := mk_page (ref pg) (PageReserved pg) true true true (Z.shiftl off 8)]> (pages m);
  r_map : mem_map (sw m') = <[off := 0]> (mem_map (sw m));
  r_hash : exists l, hash_list (sw m) !! entry_hashfn (Z.shiftl off 8) = Some l /\
    hash_list (sw m') = <[entry_hashfn (Z.shiftl off 8) := p :: l]> (hash_list (sw m));
  r_lists : active_list (sw m') = active_list (sw m) ++ [p] /\ nr_active_pages (sw m') = nr_active_pages (sw m) + 1 /\
    inactive_list (sw m') = inactive_list (sw m) /\ nr_inactive_pages (sw m') = nr_inactive_pages (sw m);
  r_rest : npage m' = npage m /\ frames m' = frames m /\ free m' = free m /\ disk (sw m') = disk (sw m) /\
    next (sw m') = next (sw m) /\ max_swap_offset (sw m') = max_swap_offset (sw m) }.

(** [swap_page_add] with a new slot, and the link into the list of active pages. *)
Definition add_page (p : Z) : M mem bool :=
  ok <- swap_page_add p 0 ;; if (ok : bool) then swap_active_list_add p ;; ret true else ret false.

Lemma page_add_none m m1 p pg :
  pages m !! p = Some pg -> PageSwap pg = false -> try_alloc_swap_entry m = Ret (0, m1) -> add_page p m = Ret (false, m1).
Proof.
  intros Hpg Hsw Hrun. unfold add_page, swap_page_add, Swap.get_page.
  unfold bind, get, deref, assert, ret. rewrite Hpg. cbn -[try_alloc_swap_entry]. rewrite Hsw. cbn -[try_alloc_swap_entry].
  by rewrite Hrun.
Qed.

Lemma page_add_some m m1 p pg off l :
  pages m !! p = Some pg -> PageSwap pg = false -> try_alloc_swap_entry m = Ret (Z.shiftl off 8, m1) ->
  pages m1 !! p = Some pg -> 0 < off < max_swap_offset (sw m1) -> mem_map (sw m1) !! off = Some SWAP_UNUSED ->
  hash_list (sw m1) !! entry_hashfn (Z.shiftl off 8) = Some l ->
  exists m', add_page p m = Ret (true, m') /\ entered m1 m' p pg off.
Proof.
  intros Hpg Hsw Hrun Hp1 Hoff Hm Hl. assert (He : (Z.shiftl off 8 =? 0) = false) by (apply Z.eqb_neq; rewrite Z.shiftl_mul_pow2 by lia; lia).
  pose proof (slot_offset_run m1 off Hoff) as Hso. set (e := Z.shiftl off 8) in *. eexists. split.
  - unfold add_page, swap_page_add, swap_active_list_add, update_page, set_map, get_map, Swap.get_page.
    unfold bind, get, modify, deref, assert, ret. rewrite Hpg. cbn -[try_alloc_swap_entry swap_offset]. rewrite Hsw. cbn -[try_alloc_swap_entry swap_offset].
    rewrite Hrun, He, Hso, Hm. cbn -[entry_hashfn]. rewrite Hp1. cbn -[entry_hashfn]. rewrite He. cbn -[entry_hashfn].
    rewrite lookup_insert_eq. cbn -[entry_hashfn]. rewrite lookup_insert_eq. cbn -[entry_hashfn]. rewrite Hl. cbn -[entry_hashfn].
    rewrite !lookup_insert_eq. cbn -[entry_hashfn]. rewrite !lookup_insert_eq. cbn -[entry_hashfn]. reflexivity.
  - split; cbn -[entry_hashfn]; try done; [by rewrite !insert_insert_eq|]. by exists l.
Qed.

Section Round.
Context (D : gset Z) (T : gmap (Z * Z) Z) (ext sext : Z -> Z).
Implicit Types A : gmap (Z * Z) Z.

(** An entry somebody holds: it maps a page, or names a slot that is counted. *)
Definition live (m : mem) (w : Z) : Prop :=
  if present w then data_page D T (frame_of w)
  else w = Z.shiftl (slot_of w) 8 /\ exists c, mem_map (sw m) !! slot_of w = Some c /\ 0 < c /\ c <> SWAP_UNUSED.

(** A cached page that is not dirty, nor mapped by an entry with [PTE_D], is as on disk. *)
Definition clean (m : mem) A : Prop := forall p pg, pages m !! p = Some pg -> PageSwap pg = true -> PageDirty pg = false ->
  (forall k w, A !! k = Some w -> present w = true -> frame_of w = p -> has w PTE_D = false) ->
  forall j, word m p j = disk_word m (index pg) j.

(** References to a page and to its slot together fit in the count of the slot. *)
Definition slot_count (m : mem) (pg : page) : Z :=
  if PageSwap pg then default 0 (mem_map (sw m) !! slot_of (index pg)) else 0.
Definition fits (m : mem) : Prop := forall p pg, pages m !! p = Some pg -> ref pg + slot_count m pg < MAX_SWAP_REF.

Record good (m : mem) A : Prop := {
  g_inv : inv m D T A ext sext;
  g_clean : clean m A;
  g_fits : fits m;
  g_next : 1 <= next (sw m) < max_swap_offset (sw m) }.

(** What becomes of an entry: it stays, loses its accessed bit, or is swapped out. *)
Definition aged (w w' : Z) : Prop := w' = w \/ present w = true /\ (w' = Z.ldiff w PTE_A \/ present w' = false).

(** From [m] and [A] to [m'] and [A']: every entry stands for the same contents. *)
Record moved (m : mem) A (m' : mem) A' : Prop := {
  v_live : forall w, live m w -> live m' w;
  v_data : forall w f, live m w -> data_of m w f -> data_of m' w f;
  v_paged : forall k, match A !! k, A' !! k with
    | Some w, Some w' => aged w w' /\ forall f, data_of m w f -> data_of m' w' f
    | None, None => True
    | _, _ => False end;
  v_npage : npage m' = npage m;
  v_free : free m ⊆ free m' }.

Lemma paged_refl m A : moved m A m A.
Proof using Type. split; try done. intros k. destruct (A !! k); [|done]. split; [by left|done]. Qed.

Lemma aged_trans w1 w2 w3 : aged w1 w2 -> aged w2 w3 -> aged w1 w3.
Proof using Type.
  intros [->|[Hw [->|Hw2]]]; [done|..].
  - intros [->|[_ [->|?]]]; right; (split; [done|]); [by left| |by right].
    left. by rewrite Z.ldiff_ldiff_l, Z.lor_diag.
  - intros [->|[? _]]; [|congruence]. right. split; [done|by right].
Qed.

Lemma paged_trans m1 A1 m2 A2 m3 A3 : moved m1 A1 m2 A2 -> moved m2 A2 m3 A3 -> moved m1 A1 m3 A3.
Proof using Type.
  intros H H'. split.
  - intros w Hw. by apply (v_live _ _ _ _ H'), (v_live _ _ _ _ H).
  - intros w f Hw Hf. apply (v_data _ _ _ _ H'); [by apply (v_live _ _ _ _ H)|by apply (v_data _ _ _ _ H)].
  - intros k. pose proof (v_paged _ _ _ _ H k) as Hk. pose proof (v_paged _ _ _ _ H' k) as Hk'.
    destruct (A1 !! k), (A2 !! k), (A3 !! k); try done. destruct Hk as [Ha Hd], Hk' as [Ha' Hd'].
    split; [by eapply aged_trans|]. intros f Hf. by apply Hd', Hd.
  - by rewrite (v_npage _ _ _ _ H'), (v_npage _ _ _ _ H).
  - etrans; [apply (v_free _ _ _ _ H)|apply (v_free _ _ _ _ H')].
Qed.

(** The slot of an entry in use. *)
Lemma slot_used m A k w : inv m D T A ext sext -> A !! k = Some w -> live m w.
Proof using Type.
  intros [Ht Hc Hn] Hk. destruct k as [d v]. unfold live. destruct (present w) eqn:Hw.
  - by destruct (n_present _ _ _ _ _ _ Hn d v w Hk Hw) as (_ & ? & _).
  - destruct (n_swapped _ _ _ _ _ _ Hn d v w Hk Hw) as [Hshape Hrange]. split; [done|].
    destruct (c_map _ Hc _ Hrange) as (c & Hm & Hcr). exists c. split; [done|].
    pose proof (n_slot _ _ _ _ _ _ Hn _ _ Hm) as Hs. pose proof (n_ext _ _ _ _ _ _ Hn (slot_of w)).
    pose proof (count_pos (swaps_to (slot_of w)) A (d, v) w Hk) as Hp. unfold swaps_to in Hp at 1.
    rewrite Hw, Z.eqb_refl in Hp. specialize (Hp eq_refl).
    destruct (Z.eqb_spec c SWAP_UNUSED); lia.
Qed.

(** The contents of live entries survive when pages keep theirs, and a page leaves the
    cache only with its contents on the disk. *)
Lemma data_kept m m' :
  (forall w, live m w -> live m' w) -> same_data D T m m' ->
  (forall p w, caches m p = Some w -> live m w -> data_page D T p /\ (caches m' p = Some w \/
     (forall q, caches m' q <> Some w) /\ forall j, disk_word m' w j = word m p j)) ->
  (forall w, live m w -> present w = false -> (forall p, caches m p <> Some w) ->
     (forall p, caches m' p <> Some w) /\ forall j, disk_word m' w j = disk_word m w j) ->
  forall w f, live m w -> data_of m w f -> data_of m' w f.
Proof using Type.
  intros Hlive Hsame Hin Hout w f Hw. rewrite !data_caches. destruct (present w) eqn:Hp.
  - intros Hf j. rewrite Hsame; [done|]. unfold live in Hw. by rewrite Hp in Hw.
  - intros [(p & Hc & Hf)|[Hno Hf]].
    + destruct (Hin p w Hc Hw) as [Hdp [Hc'|[Hno Hd]]].
      * left. exists p. split; [done|]. intros j. by rewrite Hsame.
      * right. split; [done|]. intros j. by rewrite Hd.
    + destruct (Hout w Hw Hp Hno) as [Hno' Hd]. right. split; [done|]. intros j. by rewrite Hd.
Qed.

Lemma moved_same m m' A :
  inv m D T A ext sext -> (forall w, live m w -> live m' w) ->
  (forall w f, live m w -> data_of m w f -> data_of m' w f) -> npage m' = npage m -> free m ⊆ free m' ->
  moved m A m' A.
Proof using Type.
  intros Hinv Hl Hd Hn Hf. split; try done. intros k. destruct (A !! k) as [w|] eqn:Hk; [|done].
  split; [by left|]. intros f. apply Hd. by apply (slot_used m A k).
Qed.

(** A step that leaves the frames of pages, the slots and what is cached. *)
Lemma moved_frame m m' A :
  inv m D T A ext sext -> same_data D T m m' -> (forall p, caches m' p = caches m p) ->
  mem_map (sw m') = mem_map (sw m) -> disk (sw m') = disk (sw m) -> npage m' = npage m -> free m ⊆ free m' ->
  moved m A m' A.
Proof using Type.
  intros Hinv Hs Hc Hm Hd Hn Hf.
  assert (Hl : forall w, live m w -> live m' w) by (intros w; unfold live; by rewrite Hm).
  apply moved_same; try done. apply data_kept; try done.
  - intros p w Hp _. split; [|left; by rewrite Hc].
    apply caches_Some in Hp as (pg & Hp & Hps & _). by apply (n_cached _ _ _ _ _ _ (inv_counts _ _ _ _ _ _ Hinv) p pg).
  - intros w _ _ Hno. split; [intros p; by rewrite Hc|]. intros j. unfold disk_word. by rewrite Hd.
Qed.

(** ** One page changes *)

Lemma counts_page m m' A p pg pg' :
  counts_ok m D T A ext sext -> pages m !! p = Some pg -> pages m' = <[p := pg']> (pages m) ->
  ref pg' = ref pg -> PageReserved pg' = false -> (PageSwap pg' = true -> data_page D T p /\ 0 <= p < npage m) ->
  npage m' = npage m -> max_swap_offset (sw m') = max_swap_offset (sw m) ->
  (forall off c', mem_map (sw m') !! off = Some c' -> exists c, mem_map (sw m) !! off = Some c /\ slot_refs c' = slot_refs c) ->
  (free m' = free m /\ p ∉ free m \/ free m' = {[p]} ∪ free m /\ ref pg = 0 /\ PageSwap pg' = false /\ 0 <= p < npage m) ->
  counts_ok m' D T A ext sext.
Proof using Type.
  intros [H1 H2 H3 H4 H5 H6 H7 H8] Hpg Hps Href Hres Hsw Hn Hmax Hmm Hfr.
  assert (Hkp : keeps m m') by (by apply (keeps_put m m' p pg')).
  split; rewrite ?Hn, ?Hmax; try done.
  - intros q qg Hq Hqg. rewrite Hps in Hqg. apply lookup_insert_Some in Hqg as [[<- <-]|[_ Hqg]]; [|by apply H1].
    rewrite Href. by apply H1.
  - intros off c' Ho. destruct (Hmm off c' Ho) as (c & Hc & Heq). fold (slot_refs c'). rewrite Heq. by apply H2.
  - intros q Hq. rewrite Hps. destruct Hfr as [[Hf Hpf]|(Hf & Hr0 & Hs0 & Hpr)]; rewrite Hf in Hq.
    + rewrite lookup_insert_ne by (intros <-; done). by apply H4.
    + destruct (decide (p = q)) as [<-|Hne].
      * split; [done|]. exists pg'. rewrite lookup_insert_eq, Href. done.
      * rewrite lookup_insert_ne by done. apply H4. set_solver.
  - intros d v w Hk Hw. destruct (H5 d v w Hk Hw) as (? & ? & qg & Hq & Hr). do 2 (split; [done|]). by apply (Hkp _ qg).
  - intros d i t Hk. destruct (H7 d i t Hk) as (qg & Hq & Hr). by apply (Hkp _ qg).
  - intros q qg Hq Hqs. rewrite Hps in Hq. apply lookup_insert_Some in Hq as [[<- <-]|[_ Hq]]; [|by apply H8].
    destruct (Hsw Hqs). done.
Qed.

(** A cached page: what the invariant says of it. *)
Lemma cached_page m A p pg :
  inv m D T A ext sext -> pages m !! p = Some pg -> PageSwap pg = true ->
  (p ∉ free m) /\ data_page D T p /\ 0 <= p < npage m /\ PageReserved pg = false /\
  exists off c, index pg = Z.shiftl off 8 /\ slot_of (index pg) = off /\ 0 < off < max_swap_offset (sw m) /\
    mem_map (sw m) !! off = Some c /\ 0 <= c < SWAP_UNUSED.
Proof using Type.
  intros [_ Hc Hn] Hpg Hsw. destruct (n_cached _ _ _ _ _ _ Hn p pg Hpg Hsw) as (Hdp & Hpr & Hres).
  split_and!; try done; [|lia..|].
  - intros Hf. destruct (n_free _ _ _ _ _ _ Hn p Hf) as (_ & qg & Hq & _ & Hqs & _). congruence.
  - destruct (c_index _ Hc p pg Hpg Hsw) as (off & c & Hi & Hr & Hm & Hu). exists off, c.
    destruct (c_map _ Hc off Hr) as (c' & Hm' & Hcr). rewrite Hm in Hm'. injection Hm' as <-.
    split_and!; [done| |lia..|done|lia|lia]. rewrite Hi. apply slot_shift. lia.
Qed.

(** The pages of the cache are told apart by their slots. *)
Lemma other_slot m A p q pg qg :
  inv m D T A ext sext -> pages m !! p = Some pg -> PageSwap pg = true -> pages m !! q = Some qg -> PageSwap qg = true ->
  q <> p -> slot_of (index qg) <> slot_of (index pg).
Proof using Type.
  intros Hinv Hp Hps Hq Hqs Hne Heq.
  destruct (cached_page m A p pg Hinv Hp Hps) as (_ & _ & _ & _ & o1 & c1 & Hi1 & Ho1 & _).
  destruct (cached_page m A q qg Hinv Hq Hqs) as (_ & _ & _ & _ & o2 & c2 & Hi2 & Ho2 & _).
  apply Hne. apply (c_inj _ (inv_cache _ _ _ _ _ _ Hinv) q p qg pg); [done..|]. congruence.
Qed.

Lemma relink_good m m' A p pg pg' :
  good m A -> pages m !! p = Some pg -> PageSwap pg = true -> relinked m m' p pg pg' ->
  good m' A /\ moved m A m' A.
Proof using Type.
  intros [Hinv Hcl Hfit Hnx] Hpg Hsw Hre. pose proof Hinv as [Ht Hc Hn].
  destruct (cached_page m A p pg Hinv Hpg Hsw) as (Hpf & Hdp & Hpr & Hres & _).
  pose proof (cache_relink m m' p pg pg' Hc Hpg Hsw Hre) as Hc'.
  destruct Hre as [Hps (Hs' & Hi' & Hr' & Hres' & Hd') Hmax Hmap _ _ _ _ (Hnp & Hf & Hfr & Hnext & Hdk)].
  assert (Hinv' : inv m' D T A ext sext).
  { split; [apply (tables_frame m); [done..|rewrite Hfr; by left|done]|done|].
    apply (counts_page m m' A p pg pg'); try done; [congruence| |by left]. rewrite Hmap. eauto. }
  assert (Hback : forall q qg', pages m' !! q = Some qg' -> exists qg, pages m !! q = Some qg /\ PageSwap qg' = PageSwap qg /\
    index qg' = index qg /\ ref qg' = ref qg /\ PageDirty qg' = PageDirty qg).
  { intros q qg' Hq. rewrite Hps in Hq. apply lookup_insert_Some in Hq as [[<- <-]|[_ Hq]]; [|eauto 10].
    exists pg. split_and!; congruence. }
  split; [split; [done|..]|].
  - intros q qg' Hq Hqs Hqd Hnd j. destruct (Hback q qg' Hq) as (qg & Hq0 & Hs0 & Hi0 & _ & Hd0).
    unfold word, disk_word. rewrite Hf, Hdk, Hi0. apply (Hcl q qg); [done|congruence|congruence|done].
  - intros q qg' Hq. destruct (Hback q qg' Hq) as (qg & Hq0 & Hs0 & Hi0 & Hr0 & _).
    unfold slot_count. rewrite Hs0, Hi0, Hr0, Hmap. by apply Hfit with q.
  - by rewrite Hnext, Hmax.
  - apply (moved_frame m m' A); try done; [by apply same_data_frames| |by rewrite Hfr]. intros q. unfold caches. rewrite Hps.
    destruct (decide (p = q)) as [<-|Hne]; [|by rewrite lookup_insert_ne]. rewrite lookup_insert_eq, Hpg. cbn.
    by rewrite Hs', Hsw, Hi'.
Qed.

(** ** A page leaves the cache *)

(** Its slot is given up, or is counted by others and holds its contents. *)
Record leaves (m m' : mem) (p off : Z) (pg pg' : page) (c c' : Z) : Prop := {
  e_pages : pages m' = <[p := pg']> (pages m);
  e_page : PageSwap pg' = false /\ ref pg' = ref pg /\ PageReserved pg' = false;
  e_sw : exists dk l, sw m' = set_disk dk l (set_mem_map <[off := c']> (uncache p off (PageActive pg) (sw m)));
  e_rest : npage m' = npage m /\ frames m' = frames m;
  e_free : free m' = free m \/ free m' = {[p]} ∪ free m /\ ref pg = 0;
  e_disk : forall o, o <> off -> disk (sw m') !! o = disk (sw m) !! o;
  e_slot : c = 0 /\ c' = SWAP_UNUSED \/ 0 < c /\ c' = c /\ forall j, disk_word m' (index pg) j = word m p j }.

Lemma leave_inv m m' A p off pg pg' c c' :
  inv m D T A ext sext -> pages m !! p = Some pg -> PageSwap pg = true -> index pg = Z.shiftl off 8 ->
  mem_map (sw m) !! off = Some c -> leaves m m' p off pg pg' c c' -> inv m' D T A ext sext.
Proof using Type.
  intros Hinv Hpg Hsw Hi Hm [Hps (Hs' & Hr' & Hres') (dk & l & Hsw') [Hnp Hf] Hfr _ Hslot].
  destruct (cached_page m A p pg Hinv Hpg Hsw) as (Hpf & Hdp & Hpr & Hres & off' & c0 & Hi' & _ & _ & Hm' & Hcr).
  assert (off' = off) as ->. { rewrite Hi in Hi'. rewrite !Z.shiftl_mul_pow2 in Hi' by lia. lia. }
  rewrite Hm in Hm'. injection Hm' as <-. pose proof Hinv as [Ht Hc Hn]. split.
  - apply (tables_frame m); [done..| |done]. intros q Hq. destruct Hfr as [Hfr|[Hfr _]]; rewrite Hfr in Hq; [by left|].
    apply elem_of_union in Hq as [->%elem_of_singleton|?]; [by right|by left].
  - set (m0 := mk_mem (npage m) (frames m) (<[p := pg']> (pages m)) (free m) (answers m) (uncache p off (PageActive pg) (sw m))).
    assert (Hc0 : cache_ok m0) by (by apply (cache_uncache m m0 p pg pg' off)).
    set (m1 := upd_sw (set_mem_map <[off := c']>) m0).
    assert (Hc1 : cache_ok m1).
    { apply (cache_set_map m0 m1 off c'); [done..|lia| |lia]. intros _ q qg Hq Hqs Hqi. cbn in Hq.
      apply lookup_insert_Some in Hq as [[<- <-]|[Hne Hq]]; [congruence|]. apply Hne. symmetry.
      apply (c_inj _ Hc q p qg pg); [done..|congruence]. }
    destruct Hc1 as [H1 H2 H3 H4 H5 H6 H7 H8]. split; rewrite ?Hps, ?Hsw'; done.
  - apply (counts_page m m' A p pg pg'); try done; [by rewrite Hsw'| |].
    + intros o co Ho. rewrite Hsw' in Ho. cbn in Ho. rewrite insert_insert_eq in Ho. apply lookup_insert_Some in Ho as [[<- <-]|[_ Ho]]; [|eauto].
      exists c. split; [done|]. destruct Hslot as [[-> ->]|(_ & -> & _)]; done.
    + destruct Hfr as [?|[? ?]]; [by left|by right].
Qed.

Lemma leave_good m m' A p off pg pg' c c' :
  good m A -> pages m !! p = Some pg -> PageSwap pg = true -> index pg = Z.shiftl off 8 ->
  mem_map (sw m) !! off = Some c -> leaves m m' p off pg pg' c c' -> good m' A /\ moved m A m' A.
Proof using Type.
  intros [Hinv Hcl Hfit Hnx] Hpg Hsw Hi Hm Hlv. pose proof (leave_inv m m' A p off pg pg' c c' Hinv Hpg Hsw Hi Hm Hlv) as Hinv'.
  destruct Hlv as [Hps (Hs' & Hr' & Hres') (dk & l & Hsw') [Hnp Hf] Hfr Hdk Hslot].
  destruct (cached_page m A p pg Hinv Hpg Hsw) as (Hpf & Hdp & Hpr & Hres & off' & c0 & Hi' & Ho & Hor & Hm' & Hcr).
  assert (off' = off) as ->. { rewrite Hi in Hi'. rewrite !Z.shiftl_mul_pow2 in Hi' by lia. lia. }
  rewrite Hm in Hm'. injection Hm' as <-.
  assert (Hmap : forall o, o <> off -> mem_map (sw m') !! o = mem_map (sw m) !! o).
  { intros o Hne. rewrite Hsw'. cbn. by rewrite insert_insert_eq, lookup_insert_ne. }
  assert (Hback : forall q qg, pages m' !! q = Some qg -> PageSwap qg = true ->
    q <> p /\ pages m !! q = Some qg /\ slot_of (index qg) <> off).
  { intros q qg Hq Hqs. rewrite Hps in Hq. apply lookup_insert_Some in Hq as [[<- <-]|[Hne Hq]]; [congruence|].
    split; [done|]. split; [done|]. rewrite <- Ho. by apply (other_slot m A p q). }
  assert (Hlive : forall w, live m w -> live m' w).
  { intros w. unfold live. destruct (present w); [done|]. intros (Hw & x & Hx & Hx0 & Hxu). split; [done|].
    exists x. split; [|done]. destruct (decide (slot_of w = off)) as [He|]; [|by rewrite Hmap].
    rewrite He in *. rewrite Hm in Hx. injection Hx as <-. rewrite Hsw'. cbn. rewrite insert_insert_eq, lookup_insert_eq.
    destruct Hslot as [[? _]|(_ & -> & _)]; [lia|done]. }
  split; [split; [done|..]|].
  - intros q qg Hq Hqs Hqd Hnd j. destruct (Hback q qg Hq Hqs) as (Hne & Hq0 & Hso).
    unfold word, disk_word. rewrite Hf, Hdk by done. by apply (Hcl q qg).
  - intros q qg Hq. destruct (PageSwap qg) eqn:Hqs.
    + destruct (Hback q qg Hq Hqs) as (_ & Hq0 & Hso). pose proof (Hfit q qg Hq0) as Hb. unfold slot_count in *.
      by rewrite Hqs, Hmap in * by done.
    + unfold slot_count. rewrite Hqs. rewrite Hps in Hq. apply lookup_insert_Some in Hq as [[<- <-]|[_ Hq]].
      * pose proof (Hfit p pg Hpg) as Hb. unfold slot_count in Hb. rewrite Hsw, Ho, Hm in Hb. cbn in Hb. lia.
      * pose proof (Hfit q qg Hq) as Hb. unfold slot_count in Hb. by rewrite Hqs in Hb.
  - by rewrite Hsw'.
  - apply moved_same; try done.
    2:{ destruct Hfr as [->|[-> _]]; [done|set_solver]. }
    apply data_kept; [done|by apply same_data_frames|..].
    + intros q w (qg & Hq & Hqs & <-)%caches_Some Hlw. split; [by apply (cached_page m A q qg)|].
      destruct (decide (q = p)) as [->|Hne].
      * right. rewrite Hpg in Hq. injection Hq as <-. split.
        -- intros q (qg & Hq & Hqs' & Hqi)%caches_Some. destruct (Hback q qg Hq Hqs') as (_ & _ & Hno). rewrite Hqi in Hno. by apply Hno.
        -- destruct Hslot as [[Hc0 _]|(_ & _ & Hd)]; [|done]. unfold live in Hlw. rewrite Hi in Hlw.
           destruct (slot_shift off ltac:(lia)) as [Hsl Hpr0]. rewrite Hpr0, Hsl in Hlw.
           destruct Hlw as (_ & x & Hx & Hx0 & _). rewrite Hm in Hx. injection Hx as <-. lia.
      * left. apply caches_Some. exists qg. by rewrite Hps, lookup_insert_ne.
    + intros w Hlw Hw Hno. split.
      * intros q (qg & Hq & Hqs & Hqi)%caches_Some. destruct (Hback q qg Hq Hqs) as (_ & Hq0 & _).
        apply (Hno q). apply caches_Some. eauto.
      * intros j. unfold disk_word. rewrite Hdk; [done|]. intros He. apply (Hno p). apply caches_Some. exists pg.
        split_and!; [done..|]. unfold live in Hlw. rewrite Hw in Hlw. destruct Hlw as [Hshape _]. by rewrite Hshape, He.
Qed.

(** ** Laundering *)

(** A step of the two scans: the other pages stay on the list. *)
Definition scanned (L : swap_state -> list Z) (m : mem) A (m' : mem) (p n : Z) : Prop :=
  good m' A /\ moved m A m' A /\ (forall q, q ∈ L (sw m) -> q <> p -> q ∈ L (sw m')) /\
  Z.of_nat (size (free m')) = Z.of_nat (size (free m)) + n.

(** The page is freed: its slot is given up, or its contents are on the disk. *)
Lemma free_cached_run m m1 A p pg pg1 off c c' :
  good m A -> pages m !! p = Some pg -> PageSwap pg = true -> PageActive pg = false -> ref pg = 0 ->
  index pg = Z.shiftl off 8 -> mem_map (sw m) !! off = Some c ->
  npage m1 = npage m -> frames m1 = frames m -> free m1 = free m -> pages m1 = <[p := pg1]> (pages m) ->
  PageSwap pg1 = true -> ref pg1 = 0 -> PageReserved pg1 = false ->
  (exists dk l, sw m1 = set_disk dk l (set_mem_map <[off := c']> (unlink p false (sw m)))) ->
  (forall o, o <> off -> disk (sw m1) !! o = disk (sw m) !! o) ->
  (c = 0 /\ c' = SWAP_UNUSED \/ 0 < c /\ c' = c /\ forall j, disk_word m1 (index pg) j = word m p j) ->
  exists m', (swap_free_page p ;; ret true) m1 = Ret (true, m') /\ scanned inactive_list m A m' p 1.
Proof using Type.
  intros Hg Hpg Hsw Hact Hr Hi Hm Hn1 Hf1 Hfr1 Hp1 Hsw1 Hr1 Hres1 (dk & l & Hs1) Hdk Hslot.
  destruct (cached_page m A p pg (g_inv _ _ Hg) Hpg Hsw) as (Hpf & _).
  destruct (swap_free_run m1 p pg1) as (m2 & Hrun & Hn2 & Hf2 & Hp2 & Hfr2 & Hs2); [rewrite Hp1; apply lookup_insert_eq|done..|].
  rewrite (bind_step _ _ _ _ _ Hrun). exists m2. split; [done|].
  destruct (leave_good m m2 A p off pg (freed_page pg1) c c') as [Hg2 Hmv]; try done.
  { split.
    - by rewrite Hp2, Hp1, insert_insert_eq.
    - cbn. by rewrite Hr.
    - exists dk, l. rewrite Hs2, Hs1, Hact. unfold set_hash_list, set_disk, set_mem_map, uncache, unlink. cbn. by rewrite insert_insert_eq.
    - by rewrite Hn2, Hf2.
    - right. by rewrite Hfr2, Hfr1.
    - intros o Ho. rewrite Hs2. by apply Hdk.
    - destruct Hslot as [?|(? & ? & Hj)]; [by left|right]. split_and!; [done..|]. intros j. rewrite <- Hj. unfold disk_word. by rewrite Hs2. }
  split; [done|]. split; [done|]. split.
  - intros q Hq Hne. rewrite Hs2, Hs1. cbn. by apply elem_of_unlink.
  - rewrite Hfr2, Hfr1, size_union, size_singleton by set_solver. lia.
Qed.

Lemma launder_page_run m A p pg :
  good m A -> pages m !! p = Some pg -> PageSwap pg = true -> PageActive pg = false ->
  exists (b : bool) m', launder_page p m = Ret (b, m') /\ scanned inactive_list m A m' p (if b then 1 else 0).
Proof using Type.
  intros Hg Hpg Hsw Hact. pose proof (g_inv _ _ Hg) as Hinv.
  destruct (cached_page m A p pg Hinv Hpg Hsw) as (Hpf & Hdp & Hpr & Hres & off & c & Hi & Hso & Hor & Hm & Hcr).
  unfold launder_page. rewrite (get_page_step _ _ _ _ Hpg), Hsw, Hact, assert_true by done.
  rewrite (bind_step _ _ _ _ _ (list_del_run m p pg Hpg Hsw)), Hact. set (m1 := upd_sw (unlink p false) m).
  assert (Hp1 : pages m1 !! p = Some pg) by done. assert (Hpid : <[p := pg]> (pages m) = pages m) by (by apply insert_id).
  assert (Hmid : <[off := c]> (mem_map (sw m)) = mem_map (sw m)) by (by apply insert_id).
  destruct (Z.eqb_spec (ref pg) 0) as [Hr|Hr]; cbn [negb].
  2:{ rewrite (bind_step _ _ _ _ _ (active_add_run m1 p pg Hp1 Hsw)). eexists false, _. split; [reflexivity|].
      destruct (relink_good m (upd_sw (fun w => set_active_list (active_list w ++ [p]) (nr_active_pages w + 1) w) (set_page p (set_active true pg) m1))
        A p pg (set_active true pg)) as [Hg' Hmv]; try done.
      { split; try done; cbn; rewrite ?Hact, ?app_nil_r; try done. split; lia. }
      split; [done|]. split; [done|]. split; [|cbn; lia]. intros q Hq Hne. cbn. by apply elem_of_unlink. }
  rewrite Hi, (bind_step _ _ _ _ _ (try_free_run m1 off c Hor Hm)).
  destruct (Z.eqb_spec c 0) as [Hc0|Hc0]; cbn [negb andb].
  { rewrite bind_ret. set (m2 := upd_sw (set_mem_map <[off := SWAP_UNUSED]>) m1). exists true.
    apply (free_cached_run m m2 A p pg pg off c SWAP_UNUSED); try done; [|by left].
    exists id, (io (sw m)). by unfold m2, m1, upd_sw, set_disk, set_mem_map. }
  destruct (PageDirty pg) eqn:Hd.
  - pose proof (g_fits _ _ Hg p pg Hpg) as Hfit. unfold slot_count in Hfit. rewrite Hsw, Hso, Hm, Hr in Hfit. cbn in Hfit.
    destruct (write_out_run m1 p pg off c) as (keep & m2 & Hrun & Hn2 & Hf2 & Hfr2 & Hcase); try done; [lia|].
    unfold write_out in Hrun. rewrite (bind_step _ _ _ _ _ Hrun). destruct keep; cbv iota; destruct Hcase as [Hp2 (l & Hs2)].
    + exists false, m2. split; [done|].
      destruct (relink_good m m2 A p pg (set_active false pg)) as [Hg' Hmv]; try done.
      { split; try done; rewrite Hs2; cbn; rewrite ?Hact, ?app_nil_r; try done. split; lia. }
      split; [done|]. split; [done|]. split; [|rewrite Hfr2; cbn; lia]. intros q Hq Hne. rewrite Hs2. cbn.
      apply elem_of_app. left. by apply elem_of_unlink.
    + exists true. apply (free_cached_run m m2 A p pg (set_dirty false pg) off c c); try done.
      * exists <[off := default ∅ (frames m !! p)]>, l. rewrite Hs2. unfold m1, upd_sw, set_disk, set_mem_map. cbn. by rewrite Hmid.
      * intros o Ho. rewrite Hs2. cbn. by rewrite lookup_insert_ne.
      * right. split; [lia|]. split; [done|]. intros j. unfold disk_word. rewrite Hs2, Hso. cbn. by rewrite lookup_insert_eq.
  - rewrite bind_ret. exists true. apply (free_cached_run m m1 A p pg pg off c c); try done.
    + exists id, (io (sw m)). unfold m1, upd_sw, set_disk, set_mem_map. cbn. by rewrite Hmid.
    + right. split; [lia|]. split; [done|]. intros j. symmetry. apply (g_clean _ _ Hg p pg); [done..|].
      intros k w Hk Hw Hfw. exfalso. pose proof (count_pos (maps_to p) A k w Hk) as Hpos. unfold maps_to in Hpos at 1.
      rewrite Hw, Hfw, Z.eqb_refl in Hpos. specialize (Hpos eq_refl).
      pose proof (n_ref _ _ _ _ _ _ (inv_counts _ _ _ _ _ _ Hinv) p pg Hdp Hpg).
      pose proof (n_ext _ _ _ _ _ _ (inv_counts _ _ _ _ _ _ Hinv) p). lia.
Qed.

Lemma launder_loop_run n : forall m A le x,
  good m A -> (forall p, le = Some p -> p ∈ inactive_list (sw m)) ->
  exists r m', launder_loop n le x m = Ret (x + r, m') /\ good m' A /\ moved m A m' A /\ 0 <= r /\
    Z.of_nat (size (free m')) = Z.of_nat (size (free m)) + r.
Proof using Type.
  induction n as [|n IH]; intros m A le x Hg Hle; [|destruct le as [p|]]; cbn [launder_loop].
  1,3: exists 0, m; rewrite Z.add_0_r; split_and!; [done|done|apply paged_refl|lia..].
  destruct (c_inactive _ (inv_cache _ _ _ _ _ _ (g_inv _ _ Hg))) as (Hnd & _ & Hin).
  destruct (proj1 (Hin p) (Hle p eq_refl)) as (pg & Hpg & Hsw & Hact). rewrite bind_get.
  destruct (launder_page_run m A p pg Hg Hpg Hsw Hact) as (b & m1 & Hrun & Hg1 & Hmv1 & Hl1 & Hsz1).
  rewrite (bind_step _ _ _ _ _ Hrun).
  destruct (IH m1 A (entry_after (inactive_list (sw m)) p) (if b then x + 1 else x) Hg1) as (r & m2 & Hr2 & Hg2 & Hmv2 & Hr0 & Hsz2).
  { intros q [Hq Hne]%entry_after_next; [|done]. by apply Hl1. }
  exists ((if b then 1 else 0) + r), m2. rewrite Hr2. split_and!; [|done|by apply (paged_trans m A m1 A)|destruct b; lia|lia].
  do 2 f_equal. destruct b; lia.
Qed.

Lemma page_launder_run m A : good m A ->
  exists r m', page_launder m = Ret (r, m') /\ good m' A /\ moved m A m' A /\ 0 <= r /\
    Z.of_nat (size (free m')) = Z.of_nat (size (free m)) + r.
Proof using Type.
  intros Hg. unfold page_launder. rewrite bind_get. apply launder_loop_run; [done|]. intros p Hp.
  destruct (inactive_list (sw m)) as [|q l]; [discriminate Hp|]. injection Hp as ->. left.
Qed.

Lemma refill_loop_run n : forall m A le,
  good m A -> (forall p, le = Some p -> p ∈ active_list (sw m)) ->
  exists m', refill_loop n le m = Ret (tt, m') /\ good m' A /\ moved m A m' A /\ free m' = free m.
Proof using Type.
  induction n as [|n IH]; intros m A le Hg Hle; [|destruct le as [p|]]; cbn [refill_loop].
  1,3: exists m; split_and!; [done|done|apply paged_refl|done].
  destruct (c_active _ (inv_cache _ _ _ _ _ _ (g_inv _ _ Hg))) as (Hnd & _ & Hin).
  destruct (proj1 (Hin p) (Hle p eq_refl)) as (pg & Hpg & Hsw & Hact). rewrite bind_get.
  assert (Hnx : forall q, entry_after (active_list (sw m)) p = Some q -> q ∈ active_list (sw m) /\ q <> p) by (intros q; by apply entry_after_next).
  rewrite (get_page_step _ _ _ _ Hpg), Hsw, Hact, assert_true by done. destruct (Z.eqb_spec (ref pg) 0) as [Hr|Hr].
  - set (m1 := upd_sw (unlink p true) m).
    set (m2 := upd_sw (fun w => set_inactive_list (inactive_list w ++ [p]) (nr_inactive_pages w + 1) w) (set_page p (set_active false pg) m1)).
    assert (Hrun : (swap_list_del p ;; swap_inactive_list_add p) m = Ret (tt, m2)).
    { rewrite (bind_step _ _ _ _ _ (list_del_run m p pg Hpg Hsw)), Hact. by apply (inactive_add_run m1). }
    rewrite (bind_step _ _ _ _ _ Hrun).
    destruct (relink_good m m2 A p pg (set_active false pg)) as [Hg2 Hmv2]; try done.
    { split; try done; cbn; rewrite ?Hact, ?app_nil_r; try done. split; lia. }
    destruct (IH m2 A (entry_after (active_list (sw m)) p) Hg2) as (m' & Hr' & Hg' & Hmv' & Hf').
    { intros q [Hq Hne]%Hnx. cbn. by apply elem_of_unlink. }
    exists m'. split_and!; [done|done|by apply (paged_trans m A m2 A)|by rewrite Hf'].
  - rewrite bind_ret. apply IH; [done|]. intros q [Hq _]%Hnx. done.
Qed.

Lemma refill_inactive_scan_run m A : good m A ->
  exists m', refill_inactive_scan m = Ret (tt, m') /\ good m' A /\ moved m A m' A /\ free m' = free m.
Proof using Type.
  intros Hg. unfold refill_inactive_scan. rewrite bind_get. apply refill_loop_run; [done|]. intros p Hp.
  destruct (active_list (sw m)) as [|q l] eqn:He; [discriminate Hp|]. injection Hp as ->. left.
Qed.

(** ** A slot for a page *)

(** The counters of the search are all that changes. *)
Lemma good_counters m m' A n x :
  good m A -> m' = upd_sw (fun w => set_failed x (set_next n w)) m -> 1 <= n < max_swap_offset (sw m) ->
  good m' A /\ moved m A m' A.
Proof using Type.
  intros [Hinv Hcl Hfit Hnx] -> Hn. pose proof Hinv as [Ht Hc Hcn]. split; [split; try done|].
  - split; [by apply (tables_frame m); [..|by left|]|by destruct Hc|by destruct Hcn].
  - by apply moved_frame.
Qed.

Lemma try_alloc_run m A : good m A ->
  exists e m', try_alloc_swap_entry m = Ret (e, m') /\ good m' A /\ moved m A m' A /\ frames m' = frames m /\
    (forall p pg, pages m !! p = Some pg -> PageSwap pg = false -> pages m' !! p = Some pg) /\
    (e = 0 \/ exists off, e = Z.shiftl off 8 /\ 0 < off < max_swap_offset (sw m') /\ mem_map (sw m') !! off = Some SWAP_UNUSED).
Proof using Type.
  intros Hg. pose proof (g_next _ _ Hg) as Hnx. pose proof (g_inv _ _ Hg) as Hinv. pose proof (inv_cache _ _ _ _ _ _ Hinv) as Hc.
  unfold try_alloc_swap_entry. rewrite bind_get.
  destruct (scan_slots_run m (next (sw m))) with (fuel := Z.to_nat (max_swap_offset (sw m))) (nxt := next (sw m)) (z := 0)
    as (e & z & n & Hscan & He & Hz & Hn); [intros off Hoff; destruct (c_map _ Hc off Hoff) as (c & ? & _); eauto|lia|lia|by left| |].
  { rewrite Z.ltb_irrefl. lia. }
  rewrite (bind_step _ _ _ _ _ Hscan), bind_modify. cbv beta iota. set (m1 := upd_sw (set_next n) m).
  destruct (good_counters m m1 A n (failed_counter (sw m)) Hg) as [Hg1 Hmv1]; [by destruct m as [? ? ? ? ? []]|done|].
  assert (Hdone : forall off, 0 < off < max_swap_offset (sw m) -> (Z.shiftl off 8 =? 0) = false).
  { intros off Ho. apply Z.eqb_neq. rewrite Z.shiftl_mul_pow2 by lia. lia. }
  destruct He as [->|[Hor Hm]]; cbn [Z.eqb negb].
  2:{ rewrite (proj2 (Z.eqb_neq e 0)) by lia. cbn [negb]. rewrite bind_ret, (Hdone e Hor), bind_ret.
      exists (Z.shiftl e 8), m1. split; [done|]. split; [done|]. split; [done|]. split; [done|]. split; [done|]. right. by exists e. }
  destruct Hz as [->|[Hzr Hzm]]; cbn [Z.eqb negb].
  { rewrite bind_ret. cbn [Z.eqb]. rewrite bind_modify. set (m2 := upd_sw _ m1). exists 0, m2.
    destruct (good_counters m m2 A n (u32 (failed_counter (sw m) + 1)) Hg) as [Hg2 Hmv2]; [done..|].
    split_and!; try done. by left. }
  rewrite (proj2 (Z.eqb_neq z 0)) by lia. cbn [negb].
  destruct (c_zero _ Hc z Hzm) as (q & qg & Hq & Hqs & Hqi).
  destruct (cached_page m A q qg Hinv Hq Hqs) as (Hqf & _ & _ & Hqr & _).
  destruct (swap_hash_find_run m m1 (Z.shiftl z 8) Hc eq_refl eq_refl) as (o & Hfind & Ho).
  assert (o = Some q) as ->.
  { destruct o as [p|]; [|by destruct (Ho q qg)]. destruct Ho as (pg & Hp & Hps & Hpi). f_equal. apply (c_inj _ Hc p q pg qg); congruence. }
  assert (Hq1 : pages m1 !! q = Some qg) by done. set (m2 := upd_sw (unlink q (PageActive qg)) m1).
  assert (Hout : exists m3 qg', (if ref qg =? 0 then swap_free_page q else swap_page_del q) m2 = Ret (tt, m3) /\
    npage m3 = npage m /\ frames m3 = frames m /\ pages m3 = <[q := qg']> (pages m) /\
    PageSwap qg' = false /\ ref qg' = ref qg /\ PageReserved qg' = false /\
    (free m3 = free m \/ free m3 = {[q]} ∪ free m /\ ref qg = 0) /\ sw m3 = set_hash_list (fmap (List.remove Z.eq_dec q)) (sw m2)).
  { destruct (Z.eqb_spec (ref qg) 0) as [Hr|Hr].
    - destruct (swap_free_run m2 q qg) as (m3 & H1 & H2 & H3 & H4 & H5 & H6); [done..|]. exists m3, (freed_page qg).
      split_and!; try done. by right.
    - eexists _, (set_swap false qg). split; [by apply (page_del_run m2)|]. split_and!; try done. by left. }
  destruct Hout as (m3 & qg' & Hrun3 & Hn3 & Hf3 & Hp3 & Hs3 & Hr3 & Hres3 & Hfr3 & Hsw3).
  set (m4 := upd_sw (set_mem_map <[z := SWAP_UNUSED]>) m3).
  assert (Hrun : (o <- swap_hash_find (Z.shiftl z 8) ;; p <- deref o ;; pg <- Swap.get_page p ;; assert (PageSwap pg) ;;
    swap_list_del p ;; (if ref pg =? 0 then swap_free_page p else swap_page_del p) ;; set_map z SWAP_UNUSED ;; ret (Z.shiftl z 8)) m1
    = Ret (Z.shiftl z 8, m4)).
  { rewrite (bind_step _ _ _ _ _ Hfind). unfold deref. rewrite bind_ret, (get_page_step _ _ _ _ Hq1), assert_true by done.
    rewrite (bind_step _ _ _ _ _ (list_del_run m1 q qg Hq1 Hqs)). by rewrite (bind_step _ _ _ _ _ Hrun3). }
  rewrite (bind_step _ _ _ _ _ Hrun), (Hdone z Hzr), bind_ret. exists (Z.shiftl z 8), m4. split; [done|].
  destruct (leave_good m1 m4 A q z qg qg' 0 SWAP_UNUSED) as [Hg4 Hmv4]; try done.
  { split; try done.
    - exists id, (io (sw m)). unfold m4, upd_sw. cbn. rewrite Hsw3. unfold set_hash_list, set_disk, set_mem_map, uncache, unlink. cbn. by rewrite insert_insert_eq.
    - intros o _. unfold m4, upd_sw. cbn. by rewrite Hsw3.
    - by left. }
  split; [done|]. split; [by apply (paged_trans m A m1 A)|]. split; [done|]. split.
  - intros p pg Hp Hps. cbn. rewrite Hp3, lookup_insert_ne; [done|]. intros ->. congruence.
  - right. exists z. split; [done|]. unfold m4, upd_sw. cbn. rewrite Hsw3. cbn. split; [done|]. apply lookup_insert_eq.
Qed.

(** An entry is replaced by one that stands for the same. *)
Lemma paged_put m m' A k w w' :
  moved m A m' A -> A !! k = Some w -> aged w w' -> (forall f, data_of m w f -> data_of m' w' f) -> moved m A m' (<[k := w']> A).
Proof using Type.
  intros [H1 H2 H3 H4 H5] Hk Hag Hf. split; try done. intros k'. destruct (decide (k = k')) as [<-|Hne].
  - rewrite Hk, lookup_insert_eq. done.
  - rewrite lookup_insert_ne by done. apply H3.
Qed.

(** ** The accessed bit *)

Lemma ldiff_bit w n : n <> 5 -> Z.testbit (Z.ldiff w PTE_A) n = Z.testbit w n.
Proof using Type.
  intros Hn. rewrite Z.ldiff_spec. change PTE_A with (2 ^ 5). rewrite Z.pow2_bits_false by lia. by rewrite andb_true_r.
Qed.

Lemma accessed_same w : present (Z.ldiff w PTE_A) = present w /\ frame_of (Z.ldiff w PTE_A) = frame_of w /\
  has (Z.ldiff w PTE_A) PTE_D = has w PTE_D.
Proof using Type.
  split_and!.
  - by rewrite !present_bit, ldiff_bit.
  - apply Z.bits_inj'. intros n Hn. destruct (Z.lt_ge_cases n 20).
    + rewrite !frame_bits, ldiff_bit by lia. done.
    + by rewrite !(high_bits _ 20) by (try apply frame_range; lia).
  - change PTE_D with (2 ^ 6). by rewrite !has_bit, ldiff_bit by lia.
Qed.

(** ** Swapping a page out *)

(** A slot is counted once more, on behalf of an entry that is about to name it. *)
Lemma hold_slot m A off c c' :
  inv m D T A ext sext -> mem_map (sw m) !! off = Some c -> c' = slot_refs c + 1 -> c' < SWAP_UNUSED ->
  inv (upd_sw (set_mem_map <[off := c']>) m) D T A ext (add_ext off 1 sext).
Proof using Type.
  intros [Ht Hc Hn] Hm Hc' Hcu. pose proof (n_slot _ _ _ _ _ _ Hn off c Hm) as Hs. fold (slot_refs c) in Hs.
  pose proof (count_nonneg (swaps_to off) A). pose proof (n_ext _ _ _ _ _ _ Hn off).
  split; [by apply (tables_frame m); [..|by left|]|apply (cache_set_map m _ off c'); try done; lia|].
  destruct Hn as [H1 H2 H3 H4 H5 H6 H7 H8]. split; try done.
  - intros o x Ho. cbn in Ho. fold (slot_refs x). unfold add_ext. apply lookup_insert_Some in Ho as [[<- <-]|[Hne Ho]].
    + rewrite Z.eqb_refl. unfold slot_refs at 1. rewrite (proj2 (Z.eqb_neq c' _)) by lia. lia.
    + rewrite (proj2 (Z.eqb_neq o off)) by done. by apply H2.
  - intros o. unfold add_ext. destruct (H3 o). destruct (o =? off); lia.
Qed.

Lemma inv_dirty m A p pg b sx : inv m D T A ext sx -> pages m !! p = Some pg -> p ∉ free m -> PageReserved pg = false ->
  inv (set_page p (set_dirty b pg) m) D T A ext sx.
Proof using Type.
  intros [Ht Hc Hn] Hpg Hpf Hres. split; [by apply (tables_frame m); [..|by left|]| |].
  - apply (cache_frame m); [done| |done]. intros q. cbn. destruct (decide (p = q)) as [<-|]; [|by rewrite lookup_insert_ne].
    by rewrite lookup_insert_eq, Hpg.
  - assert (Hkp : keeps m (set_page p (set_dirty b pg) m)) by (by apply (keeps_put _ _ p (set_dirty b pg))).
    destruct Hn as [H1 H2 H3 H4 H5 H6 H7 H8]. split; try done.
    + intros q qg Hq Hqg. cbn in Hqg. apply lookup_insert_Some in Hqg as [[<- <-]|[_ Hqg]]; [by apply (H1 p pg)|by apply H1].
    + intros q Hq. cbn. rewrite lookup_insert_ne by (intros <-; done). by apply H4.
    + intros d v w Hk Hw. destruct (H5 d v w Hk Hw) as (? & ? & qg & Hq & Hr). do 2 (split; [done|]). by apply (Hkp _ qg).
    + intros d i t Hk. destruct (H7 d i t Hk) as (qg & Hq & Hr). by apply (Hkp _ qg).
    + intros q qg Hq Hqs. cbn in Hq. apply lookup_insert_Some in Hq as [[<- <-]|[_ Hq]]; [by apply (H8 p pg)|by apply H8].
Qed.

Lemma add_page_run m A p pg :
  good m A -> pages m !! p = Some pg -> PageSwap pg = false ->
  exists ok m', add_page p m = Ret (ok, m') /\
    if (ok : bool) then exists m1 off, good m1 A /\ moved m A m1 A /\ frames m1 = frames m /\ pages m1 !! p = Some pg /\
      0 < off < max_swap_offset (sw m1) /\ mem_map (sw m1) !! off = Some SWAP_UNUSED /\ entered m1 m' p pg off
    else good m' A /\ moved m A m' A.
Proof using Type.
  intros Hg Hpg Hsw. destruct (try_alloc_run m A Hg) as (e & m1 & Hrun & Hg1 & Hmv1 & Hf1 & Hp1 & He).
  destruct He as [->|(off & -> & Hoff & Hm)].
  - exists false, m1. split; [by apply (page_add_none m m1 p pg)|done].
  - destruct (c_hash _ (inv_cache _ _ _ _ _ _ (g_inv _ _ Hg1)) (Z.shiftl off 8)) as (l & Hl & _).
    destruct (page_add_some m m1 p pg off l) as (m' & Hr & He); try done; [by apply Hp1|].
    exists true, m'. split; [done|]. exists m1, off. split_and!; try done; [by apply Hp1|lia..].
Qed.

(** Counted, the slot and its page are part of a consistent memory. *)
Lemma enter_inv m m' A p pg off :
  inv m D T A ext sext -> pages m !! p = Some pg -> PageSwap pg = false -> PageReserved pg = false -> p ∉ free m ->
  data_page D T p -> 0 <= p < npage m -> 0 < off < max_swap_offset (sw m) -> mem_map (sw m) !! off = Some SWAP_UNUSED ->
  entered m m' p pg off -> inv (upd_sw (set_mem_map <[off := 1]>) m') D T A ext (add_ext off 1 sext).
Proof using Type.
  intros Hinv Hpg Hsw Hres Hpf Hdp Hpr Hoff Hm [Hps Hmm (l & Hl & Hh) (Hal & Han & Hil & Hin) (Hnp & Hf & Hfr & _ & _ & Hmax)].
  set (mA := upd_sw (set_mem_map <[off := 1]>) m). set (mB := set_page p (set_dirty true pg) mA). set (m2 := upd_sw _ m').
  assert (HinvB : inv mB D T A ext (add_ext off 1 sext)).
  { apply inv_dirty; [|done..]. by apply (hold_slot m A off SWAP_UNUSED 1). }
  destruct HinvB as [HtB HcB HnB].
  assert (HpB : pages mB !! p = Some (set_dirty true pg)) by apply lookup_insert_eq.
  assert (Hp2 : pages m2 = <[p := mk_page (ref pg) (PageReserved pg) true true true (Z.shiftl off 8)]> (pages mB)).
  { cbn. by rewrite Hps, insert_insert_eq. }
  assert (Hm2 : mem_map (sw m2) = mem_map (sw mB)) by (cbn; by rewrite Hmm, insert_insert_eq).
  split.
  - apply (tables_frame mB); [done..| |done]. cbn. rewrite Hfr. by left.
  - eapply (cache_enter mB m2 p (set_dirty true pg) _ off 1 l); try done; [apply lookup_insert_eq|].
    intros q qg Hq Hqs Hqi. cbn in Hq. apply lookup_insert_Some in Hq as [[<- <-]|[_ Hq]]; [cbn in Hqs; congruence|].
    destruct (cached_page m A q qg Hinv Hq Hqs) as (_ & _ & _ & _ & o & x & Hi & _ & _ & Hx & Hxr).
    rewrite Hi, !Z.shiftl_mul_pow2 in Hqi by lia. assert (o = off) as -> by lia. rewrite Hm in Hx. injection Hx as <-. lia.
  - apply (counts_cache mB m2 D T A ext (add_ext off 1 sext) p (set_dirty true pg) (Z.shiftl off 8)); done.
Qed.

Section Entry.
Context (d i t j : Z).
Hypothesis HT : T !! (d, i) = Some t.
Hypothesis Hj : 0 <= j < 1024.
Abbreviation k := (d, i * 1024 + j).

Lemma put_some w A : w <> 0 -> put_entry k w A = <[k := w]> A.
Proof using Type. intros Hw. unfold put_entry. by rewrite (proj2 (Z.eqb_neq w 0) Hw). Qed.

Lemma present_nonzero w : present w = true -> w <> 0.
Proof using Type. intros Hw ->. done. Qed.

Lemma unaccess_good m A w :
  good m A -> A !! k = Some w -> present w = true ->
  good (set_word t j (Z.ldiff w PTE_A) m) (<[k := Z.ldiff w PTE_A]> A) /\
  moved m A (set_word t j (Z.ldiff w PTE_A) m) (<[k := Z.ldiff w PTE_A]> A).
Proof using HT Hj.
  intros [Hinv Hcl Hfit Hnx] Hk Hw. set (w' := Z.ldiff w PTE_A). destruct (accessed_same w) as (Hp & Hf & Hd). fold w' in Hp, Hf, Hd.
  rewrite Hw in Hp. pose proof Hinv as [Ht Hc Hn]. set (m' := set_word t j w' m).
  assert (Hsame : same_data D T m m') by (by apply (same_data_table D T (d, i))).
  assert (Hinv' : inv m' D T (<[k := w']> A) ext sext).
  { split.
    - rewrite <- put_some by (by apply present_nonzero). by apply tables_put.
    - by apply cache_set_word.
    - apply counts_set_word. destruct Hn as [H1 H2 H3 H4 H5 H6 H7 H8].
      assert (Hcount : forall q, maps_to q w' = maps_to q w) by (intros q; unfold maps_to; by rewrite Hp, Hw, Hf).
      assert (Hcount' : forall o, swaps_to o w' = swaps_to o w) by (intros q; unfold swaps_to; by rewrite Hp, Hw).
      split; try done.
      + intros q qg Hq Hqg. rewrite count_put, Hk, Hcount. rewrite (H1 q qg Hq Hqg). lia.
      + intros o c Ho. rewrite count_put, Hk, Hcount'. rewrite (H2 o c Ho). lia.
      + intros d' v' x Hx Hxp. apply lookup_insert_Some in Hx as [[_ <-]|[_ Hx]]; [|by apply (H5 d' v')].
        rewrite Hf. by apply (H5 d (i * 1024 + j)).
      + intros d' v' x Hx Hxp. apply lookup_insert_Some in Hx as [[_ <-]|[_ Hx]]; [congruence|by apply (H6 d' v')]. }
  split; [split; try done|].
  - intros q qg Hq Hqs Hqd Hnd jj. destruct (cached_page m A q qg Hinv Hq Hqs) as (_ & Hdq & _).
    rewrite Hsame by done. apply (Hcl q qg); [done..|]. intros k' x Hx Hxp Hxf.
    destruct (decide (k = k')) as [<-|Hne].
    + rewrite Hk in Hx. injection Hx as <-. rewrite <- Hd. apply (Hnd k); [apply lookup_insert_eq|done|congruence].
    + apply (Hnd k'); [by rewrite lookup_insert_ne|done..].
  - apply (paged_put m m' A k w); [by apply moved_frame|done|right; split; [done|by left]|].
    intros f. rewrite !data_caches, Hw, Hp, Hf. intros Hff jj. rewrite Hsame; [done|].
    by destruct (n_present _ _ _ _ _ _ Hn d (i * 1024 + j) w Hk Hw) as (_ & ? & _).
Qed.
(** The entry names the slot instead of the page. *)
Lemma release_inv m A w pg off :
  inv m D T A ext (add_ext off 1 sext) -> (forall o, 0 <= sext o) -> A !! k = Some w -> present w = true ->
  pages m !! frame_of w = Some pg -> 0 < off < max_swap_offset (sw m) ->
  inv (set_word t j (Z.shiftl off 8) (set_page (frame_of w) (set_ref (ref pg - 1) pg) m)) D T (<[k := Z.shiftl off 8]> A) ext sext.
Proof using HT Hj.
  intros [Ht Hc Hn] Hsx Hk Hw Hpg Hoff. set (m1 := set_page _ _ m). destruct (slot_shift off ltac:(lia)) as [Hso Hpe].
  assert (He : Z.shiftl off 8 <> 0) by (rewrite Z.shiftl_mul_pow2 by lia; lia).
  destruct (n_present _ _ _ _ _ _ Hn d (i * 1024 + j) w Hk Hw) as (_ & _ & pg0 & Hpg0 & Hres).
  rewrite Hpg in Hpg0. injection Hpg0 as <-. split.
  - rewrite <- put_some by done. apply tables_put; [|done..]. by apply (tables_frame m); [..|by left|].
  - apply cache_set_word, (cache_frame m); [done| |done]. intros q. cbn.
    destruct (decide (frame_of w = q)) as [<-|]; [|by rewrite lookup_insert_ne]. by rewrite lookup_insert_eq, Hpg.
  - apply counts_set_word.
    assert (Hn1 : counts_ok m1 D T (delete k A) ext (add_ext off 1 sext)).
    { apply (counts_drop D T A ext _ m m1 k w pg (set_ref (ref pg - 1) pg)); try done. by left. }
    rewrite <- insert_delete_eq. assert (Hno : delete k A !! k = None) by apply lookup_delete_eq.
    revert Hn1 Hno. generalize (delete k A). intros B [H1 H2 H3 H4 H5 H6 H7 H8] Hno. split; try done.
    + intros q qg Hq Hqg. rewrite count_insert by done. unfold maps_to at 1. rewrite Hpe. by apply H1.
    + intros o x Ho. rewrite count_insert by done. unfold swaps_to at 1. rewrite Hpe, Hso. cbn [negb andb].
      rewrite (H2 o x Ho). unfold add_ext. rewrite (Z.eqb_sym off o). destruct (o =? off); lia.
    + intros q. destruct (H3 q). done.
    + intros d' v' x Hx Hxp. apply lookup_insert_Some in Hx as [[_ <-]|[_ Hx]]; [congruence|by apply (H5 d' v')].
    + intros d' v' x Hx Hxp. apply lookup_insert_Some in Hx as [[_ <-]|[_ Hx]]; [|by apply (H6 d' v')].
      rewrite Hso. done.
Qed.

(** How the memory after the exchange differs from the one before. *)
Record swapped_out (m m' : mem) (w : Z) (pg pg' : page) (off c : Z) : Prop := {
  o_pages : pages m' = <[frame_of w := pg']> (pages m);
  o_page : PageSwap pg' = true /\ index pg' = Z.shiftl off 8 /\ ref pg' = ref pg - 1;
  o_slot : 0 < off < max_swap_offset (sw m) /\ mem_map (sw m) !! off = Some c /\ mem_map (sw m') = <[off := slot_refs c + 1]> (mem_map (sw m));
  o_data : same_data D T m m' /\ disk (sw m') = disk (sw m);
  o_rest : npage m' = npage m /\ free m' = free m /\ next (sw m') = next (sw m) /\ max_swap_offset (sw m') = max_swap_offset (sw m);
  o_case : PageSwap pg = false /\ c = SWAP_UNUSED /\ PageDirty pg' = true \/
    PageSwap pg = true /\ index pg = Z.shiftl off 8 /\ c <> SWAP_UNUSED /\
      (PageDirty pg' = true \/ PageDirty pg' = PageDirty pg /\ has w PTE_D = false) }.

(** Slots other than that of the page are those of other pages. *)
Lemma swapped_slots m m' A w pg pg' off c :
  good m A -> A !! k = Some w -> present w = true -> pages m !! frame_of w = Some pg -> swapped_out m m' w pg pg' off c ->
  forall q qg, q <> frame_of w -> pages m !! q = Some qg -> PageSwap qg = true -> slot_of (index qg) <> off.
Proof using Type.
  intros Hg Hk Hw Hpg [_ _ (Hoff & Hm & _) _ _ Hcase] q qg Hne Hq Hqs Heq.
  destruct (cached_page m A q qg (g_inv _ _ Hg) Hq Hqs) as (_ & _ & _ & _ & o & x & Hi & Ho & _ & Hx & Hxr).
  rewrite Ho in Heq. subst o. destruct Hcase as [(_ & -> & _)|(Hs & Hip & _)].
  - rewrite Hm in Hx. injection Hx as <-. lia.
  - apply Hne. apply (c_inj _ (inv_cache _ _ _ _ _ _ (g_inv _ _ Hg)) q _ qg pg); congruence.
Qed.

Lemma swapped_good m m' A w pg pg' off c :
  good m A -> A !! k = Some w -> present w = true -> pages m !! frame_of w = Some pg -> swapped_out m m' w pg pg' off c ->
  inv m' D T (<[k := Z.shiftl off 8]> A) ext sext -> good m' (<[k := Z.shiftl off 8]> A).
Proof using Type.
  intros Hg Hk Hw Hpg Hso Hinv'. pose proof (swapped_slots _ _ _ _ _ _ _ _ Hg Hk Hw Hpg Hso) as Hother.
  destruct Hg as [Hinv Hcl Hfit Hnx]. destruct Hso as [Hps (Hs' & Hi' & Hr') (Hoff & Hm & Hmm) (Hsd & Hdk) (Hnp & Hfr & Hnext & Hmax) Hcase].
  destruct (slot_shift off ltac:(lia)) as [Hsl Hpe].
  assert (Hback : forall q qg', pages m' !! q = Some qg' -> q = frame_of w /\ qg' = pg' \/ q <> frame_of w /\ pages m !! q = Some qg').
  { intros q qg' Hq. rewrite Hps in Hq. apply lookup_insert_Some in Hq as [[<- <-]|[Hne Hq]]; [by left|by right]. }
  split; [done| | |by rewrite Hnext, Hmax].
  - intros q qg' Hq Hqs Hqd Hnd jj. destruct (Hback q qg' Hq) as [[-> ->]|[Hne Hq0]].
    + destruct Hcase as [(_ & _ & ?)|(Hs & Hip & _ & [?|[Hd Hnod]])]; [congruence..|].
      destruct (cached_page m A _ pg Hinv Hpg Hs) as (_ & Hdq & _). rewrite Hsd by done. unfold disk_word. rewrite Hdk, Hi', <- Hip.
      apply (Hcl (frame_of w) pg); [done..|congruence|]. intros k' x Hx Hxp Hxf.
      destruct (decide (k = k')) as [<-|Hne]; [congruence|]. apply (Hnd k'); [by rewrite lookup_insert_ne|done..].
    + destruct (cached_page m A q qg' Hinv Hq0 Hqs) as (_ & Hdq & _). rewrite Hsd by done. unfold disk_word. rewrite Hdk.
      apply (Hcl q qg'); [done..|]. intros k' x Hx Hxp Hxf.
      destruct (decide (k = k')) as [<-|Hnk]; [congruence|]. apply (Hnd k'); [by rewrite lookup_insert_ne|done..].
  - intros q qg' Hq. unfold slot_count. rewrite Hmm. destruct (Hback q qg' Hq) as [[-> ->]|[Hne Hq0]].
    + rewrite Hs', Hi', Hsl, lookup_insert_eq, Hr'. cbn. pose proof (Hfit _ pg Hpg) as Hb. unfold slot_count in Hb.
      destruct Hcase as [(Hs & -> & _)|(Hs & Hip & Hcu & _)]; rewrite Hs in Hb; [unfold slot_refs; cbn; lia|].
      rewrite Hip, Hsl, Hm in Hb. cbn in Hb. unfold slot_refs. rewrite (proj2 (Z.eqb_neq _ _) Hcu). lia.
    + pose proof (Hfit q qg' Hq0) as Hb. unfold slot_count in Hb. destruct (PageSwap qg') eqn:Hqs; [|done].
      rewrite lookup_insert_ne; [done|]. intros He. by apply (Hother q qg').
Qed.

Lemma swapped_moved m m' A w pg pg' off c :
  good m A -> A !! k = Some w -> present w = true -> pages m !! frame_of w = Some pg -> swapped_out m m' w pg pg' off c ->
  moved m A m' (<[k := Z.shiftl off 8]> A).
Proof using Type.
  intros Hg Hk Hw Hpg Hso. pose proof (swapped_slots _ _ _ _ _ _ _ _ Hg Hk Hw Hpg Hso) as Hother.
  destruct Hg as [Hinv Hcl Hfit Hnx]. destruct Hso as [Hps (Hs' & Hi' & Hr') (Hoff & Hm & Hmm) (Hsd & Hdk) (Hnp & Hfr & Hnext & Hmax) Hcase].
  destruct (slot_shift off ltac:(lia)) as [Hsl Hpe].
  destruct (n_present _ _ _ _ _ _ (inv_counts _ _ _ _ _ _ Hinv) d (i * 1024 + j) w Hk Hw) as (_ & Hdp & _).
  assert (Hnew : caches m' (frame_of w) = Some (Z.shiftl off 8)) by (apply caches_Some; exists pg'; by rewrite Hps, lookup_insert_eq).
  assert (Hsame : forall q, q <> frame_of w -> caches m' q = caches m q) by (intros q Hne; unfold caches; by rewrite Hps, lookup_insert_ne).
  assert (Hlive : forall x, live m x -> live m' x).
  { intros x. unfold live. destruct (present x); [done|]. intros (Hx & y & Hy & Hy0 & Hyu). split; [done|]. rewrite Hmm.
    destruct (decide (off = slot_of x)) as [He|Hne]; [|exists y; by rewrite lookup_insert_ne]. rewrite <- He, lookup_insert_eq.
    rewrite <- He, Hm in Hy. injection Hy as <-. pose proof (Hfit _ pg Hpg) as Hb. unfold slot_count in Hb.
    destruct Hcase as [(_ & ? & _)|(Hs & Hip & _)]; [done|]. rewrite Hs, Hip, Hsl, Hm in Hb. cbn in Hb.
    assert (0 < ref pg).
    { rewrite (n_ref _ _ _ _ _ _ (inv_counts _ _ _ _ _ _ Hinv) _ pg Hdp Hpg). pose proof (count_pos (maps_to (frame_of w)) A k w Hk) as Hp.
      unfold maps_to in Hp at 1. rewrite Hw, Z.eqb_refl in Hp. specialize (Hp eq_refl). pose proof (n_ext _ _ _ _ _ _ (inv_counts _ _ _ _ _ _ Hinv) (frame_of w)). lia. }
    exists (c + 1). unfold slot_refs. rewrite (proj2 (Z.eqb_neq _ _) Hyu). unfold MAX_SWAP_REF, SWAP_UNUSED in *. split_and!; [done|lia|lia]. }
  apply (paged_put m m' A k w).
  - apply moved_same; try done; [|by rewrite Hfr]. apply data_kept; try done.
    + intros q x Hx Hlx. pose proof Hx as (qg & Hq & Hqs & Hqi)%caches_Some. split; [by apply (cached_page m A q qg)|]. left.
      destruct (decide (q = frame_of w)) as [->|Hne]; [|by rewrite Hsame]. rewrite Hpg in Hq. injection Hq as <-.
      destruct Hcase as [(? & _)|(_ & Hip & _)]; [congruence|]. rewrite Hnew. congruence.
    + intros x Hlx Hx Hno. split; [|intros jj; unfold disk_word; by rewrite Hdk]. intros q Hq.
      destruct (decide (q = frame_of w)) as [->|Hne]; [|rewrite Hsame in Hq by done; by apply (Hno q)].
      rewrite Hnew in Hq. injection Hq as <-. destruct Hcase as [(_ & -> & _)|(Hs & Hip & _)].
      * unfold live in Hlx. rewrite Hpe, Hsl in Hlx. destruct Hlx as (_ & y & Hy & _ & ?). congruence.
      * apply (Hno (frame_of w)). rewrite <- Hip. by apply caches_page.
  - done.
  - right. split; [done|by right].
  - intros f. rewrite !data_caches, Hw, Hpe. intros Hf. left. exists (frame_of w). split; [done|]. intros jj. by rewrite Hsd.
Qed.
(** The end of the exchange: the slot is counted, the page dropped, the entry written. *)
Definition exchange (ptep : Z * Z) (p : Z) : M mem (option (Z * Z)) :=
  pg <- Swap.get_page p ;;
  swap_duplicate (index pg) ;;
  page_ref_dec p ;;
  wr_pte ptep (index pg) ;;
  ret (Some (p, index pg)).

Lemma exchange_run m p pg off c :
  pages m !! p = Some pg -> index pg = Z.shiftl off 8 -> 0 < off < max_swap_offset (sw m) -> mem_map (sw m) !! off = Some c ->
  0 <= c < MAX_SWAP_REF -> 0 <= t < npage m ->
  exchange (t, j) p m = Ret (Some (p, Z.shiftl off 8),
    set_word t j (Z.shiftl off 8) (set_page p (set_ref (ref pg - 1) pg) (upd_sw (set_mem_map <[off := c + 1]>) m))).
Proof using Type.
  intros Hpg Hi Hoff Hm Hc Ht. unfold exchange. rewrite (get_page_step _ _ _ _ Hpg), Hi.
  rewrite (bind_step _ _ _ _ _ (duplicate_run m off c Hoff Hm Hc)). set (m1 := upd_sw _ m).
  assert (Hp1 : pages m1 !! p = Some pg) by done. rewrite (bind_step _ _ _ _ _ (page_ref_dec_run _ _ _ Hp1)).
  unfold wr_pte. cbn [fst snd]. by rewrite (bind_step _ _ _ _ _ (wr_word_run (set_page p (set_ref (ref pg - 1) pg) m1) t j (Z.shiftl off 8) Ht)).
Qed.

(** What one entry becomes, and the answer. *)
Definition out_result A A' (r : option (Z * Z)) : Prop :=
  match r with
  | Some (p, e) => exists w, A !! k = Some w /\ present w = true /\ has w PTE_A = false /\ frame_of w = p /\
      present e = false /\ A' = <[k := e]> A
  | None => A' = A \/ exists w, A !! k = Some w /\ present w = true /\ has w PTE_A = true /\ A' = <[k := Z.ldiff w PTE_A]> A
  end.

Lemma swap_out_new m A w pg :
  good m A -> A !! k = Some w -> present w = true -> pages m !! frame_of w = Some pg -> PageSwap pg = false ->
  exists r m' A', (ok <- add_page (frame_of w) ;; if negb ok then ret None else exchange (t, j) (frame_of w)) m = Ret (r, m') /\
    good m' A' /\ moved m A m' A' /\ (r = None /\ A' = A \/ exists e, r = Some (frame_of w, e) /\ present e = false /\ A' = <[k := e]> A).
Proof using HT Hj.
  intros Hg Hk Hw Hpg Hsw. destruct (add_page_run m A (frame_of w) pg Hg Hpg Hsw) as (ok & m2 & Hrun & Hok).
  rewrite (bind_step _ _ _ _ _ Hrun). destruct ok; cbn [negb].
  2:{ destruct Hok. exists None, m2, A. split; [done|]. split; [done|]. split; [done|]. by left. }
  destruct Hok as (m1 & off & Hg1 & Hmv1 & Hf1 & Hp1 & Hoff & Hm & Hen). pose proof (g_inv _ _ Hg1) as Hinv1.
  destruct (n_present _ _ _ _ _ _ (inv_counts _ _ _ _ _ _ Hinv1) d (i * 1024 + j) w Hk Hw) as (Hpr & Hdp & pg0 & Hpg0 & Hres).
  rewrite Hp1 in Hpg0. injection Hpg0 as <-.
  pose proof (mapped_not_free D T A ext sext m1 k w (inv_counts _ _ _ _ _ _ Hinv1) Hk Hw) as Hpf.
  pose proof (enter_inv m1 m2 A (frame_of w) pg off Hinv1 Hp1 Hsw Hres Hpf Hdp Hpr Hoff Hm Hen) as Hinv2.
  destruct (t_tab _ _ _ _ (inv_tables _ _ _ _ _ _ Hinv1) d i t HT) as (_ & _ & Htr & _).
  destruct Hen as [Hps Hmm _ _ (Hnp & Hf & Hfr & Hdk & Hnext & Hmax)].
  set (pg2 := mk_page (ref pg) (PageReserved pg) true true true (Z.shiftl off 8)) in *.
  assert (Hp2 : pages m2 !! frame_of w = Some pg2) by (rewrite Hps; apply lookup_insert_eq).
  rewrite (exchange_run m2 (frame_of w) pg2 off 0 Hp2 eq_refl); [|by rewrite Hmax|rewrite Hmm; apply lookup_insert_eq|done|by rewrite Hnp].
  set (m3 := upd_sw _ m2). set (m4 := set_word _ _ _ _).
  assert (Hinv4 : inv m4 D T (<[k := Z.shiftl off 8]> A) ext sext).
  { apply (release_inv m3 A w pg2 off); try done; [intros o; apply (n_ext _ _ _ _ _ _ (inv_counts _ _ _ _ _ _ Hinv1))|cbn; by rewrite Hmax]. }
  assert (Hso : swapped_out m1 m4 w pg (set_ref (ref pg2 - 1) pg2) off SWAP_UNUSED).
  { split; try done.
    - cbn. by rewrite Hps, insert_insert_eq.
    - split_and!; [lia..|done|]. cbn. by rewrite Hmm, insert_insert_eq.
    - split; [|cbn; done]. apply (same_data_trans D T T m1 (set_page (frame_of w) (set_ref (ref pg2 - 1) pg2) m3)); [done|by apply same_data_frames|]. by apply (same_data_table D T (d, i)).
    - left. done. }
  exists (Some (frame_of w, Z.shiftl off 8)), m4, (<[k := Z.shiftl off 8]> A). split; [done|].
  split; [by apply (swapped_good m1 m4 A w pg (set_ref (ref pg2 - 1) pg2) off SWAP_UNUSED)|].
  split; [apply (paged_trans m A m1 A); [done|]; by apply (swapped_moved m1 m4 A w pg (set_ref (ref pg2 - 1) pg2) off SWAP_UNUSED)|].
  right. exists (Z.shiftl off 8). split_and!; [done| |done]. apply slot_shift. lia.
Qed.

Lemma swap_out_cached m A w pg :
  good m A -> A !! k = Some w -> present w = true -> pages m !! frame_of w = Some pg -> PageSwap pg = true ->
  exists e m', ((if has w PTE_D then update_page (set_dirty true) (frame_of w) else ret tt) ;; exchange (t, j) (frame_of w)) m
      = Ret (Some (frame_of w, e), m') /\
    present e = false /\ good m' (<[k := e]> A) /\ moved m A m' (<[k := e]> A).
Proof using HT Hj.
  intros Hg Hk Hw Hpg Hsw. pose proof (g_inv _ _ Hg) as Hinv.
  destruct (cached_page m A (frame_of w) pg Hinv Hpg Hsw) as (Hpf & Hdp & Hpr & Hres & off & c & Hi & Hsl & Hoff & Hm & Hcr).
  destruct (t_tab _ _ _ _ (inv_tables _ _ _ _ _ _ Hinv) d i t HT) as (_ & _ & Htr & _).
  pose proof (g_fits _ _ Hg _ pg Hpg) as Hfit. unfold slot_count in Hfit. rewrite Hsw, Hsl, Hm in Hfit. cbn in Hfit.
  assert (Href : 0 < ref pg).
  { rewrite (n_ref _ _ _ _ _ _ (inv_counts _ _ _ _ _ _ Hinv) _ pg Hdp Hpg). pose proof (count_pos (maps_to (frame_of w)) A k w Hk) as Hp.
    unfold maps_to in Hp at 1. rewrite Hw, Z.eqb_refl in Hp. specialize (Hp eq_refl).
    pose proof (n_ext _ _ _ _ _ _ (inv_counts _ _ _ _ _ _ Hinv) (frame_of w)). lia. }
  set (b := if has w PTE_D then true else PageDirty pg). set (pg1 := set_dirty b pg). set (m1 := set_page (frame_of w) pg1 m).
  assert (Hrun : (if has w PTE_D then update_page (set_dirty true) (frame_of w) else ret tt) m = Ret (tt, m1)).
  { unfold m1, pg1, b. destruct (has w PTE_D); [by apply update_page_run|].
    unfold set_page, upd_pages. rewrite insert_id; [by destruct m|]. rewrite Hpg. by destruct pg. }
  rewrite (bind_step _ _ _ _ _ Hrun). assert (Hp1 : pages m1 !! frame_of w = Some pg1) by apply lookup_insert_eq.
  rewrite (exchange_run m1 (frame_of w) pg1 off c Hp1 Hi Hoff Hm); [|lia|done].
  set (m2 := upd_sw _ m1). set (m3 := set_word _ _ _ _).
  assert (Hc1 : slot_refs c = c) by (unfold slot_refs; by rewrite (proj2 (Z.eqb_neq c _)) by lia).
  assert (Hinv2 : inv m2 D T A ext (add_ext off 1 sext)).
  { apply (inv_dirty (upd_sw (set_mem_map <[off := c + 1]>) m) A (frame_of w) pg b); [|done..].
    apply (hold_slot m A off c (c + 1)); try done; [by rewrite Hc1|unfold MAX_SWAP_REF, SWAP_UNUSED in *; lia]. }
  assert (Hinv3 : inv m3 D T (<[k := Z.shiftl off 8]> A) ext sext).
  { apply (release_inv m2 A w pg1 off); try done. intros o. apply (n_ext _ _ _ _ _ _ (inv_counts _ _ _ _ _ _ Hinv)). }
  assert (Hso : swapped_out m m3 w pg (set_ref (ref pg1 - 1) pg1) off c).
  { split; try done.
    - cbn. by rewrite insert_insert_eq.
    - split_and!; [lia..|done|]. cbn. by rewrite Hc1.
    - split; [|done]. apply (same_data_trans D T T m (set_page (frame_of w) (set_ref (ref pg1 - 1) pg1) m2)); [done|by apply same_data_frames|]. by apply (same_data_table D T (d, i)).
    - right. split_and!; [done..|lia|]. cbn. unfold b. destruct (has w PTE_D); [by left|by right]. }
  exists (Z.shiftl off 8), m3. split; [done|]. split; [apply slot_shift; lia|].
  split; [by apply (swapped_good m m3 A w pg (set_ref (ref pg1 - 1) pg1) off c)|].
  by apply (swapped_moved m m3 A w pg (set_ref (ref pg1 - 1) pg1) off c).
Qed.

Lemma swap_out_pte_run m A : good m A ->
  exists r m' A', Kswapd.swap_out_pte (t, j) m = Ret (r, m') /\ good m' A' /\ moved m A m' A' /\ out_result A A' r.
Proof using HT Hj.
  intros Hg. pose proof (g_inv _ _ Hg) as Hinv. pose proof (inv_tables _ _ _ _ _ _ Hinv) as Ht.
  destruct (t_tab _ _ _ _ Ht d i t HT) as (_ & _ & Htr & _).
  unfold Kswapd.swap_out_pte, rd_pte. cbn [fst snd]. rewrite (bind_step _ _ _ _ _ (rd_word_run m t j Htr)).
  rewrite (t_pte _ _ _ _ Ht d i t j HT Hj). destruct (A !! k) as [w|] eqn:Hk; cbn [default from_option id].
  2:{ exists None, m, A. split; [done|]. split; [done|]. split; [apply paged_refl|by left]. }
  change (has w PTE_P) with (present w). destruct (present w) eqn:Hw; cbn [negb].
  2:{ exists None, m, A. split; [done|]. split; [done|]. split; [apply paged_refl|by left]. }
  destruct (n_present _ _ _ _ _ _ (inv_counts _ _ _ _ _ _ Hinv) d (i * 1024 + j) w Hk Hw) as (Hpr & Hdp & pg & Hpg & Hres).
  rewrite (bind_step _ _ _ _ _ (pte2page_run m w Hw ltac:(lia))), (get_page_step _ _ _ _ Hpg), Hres, assert_true by done.
  destruct (has w PTE_A) eqn:Ha.
  { unfold wr_pte. cbn [fst snd]. rewrite (bind_step _ _ _ _ _ (wr_word_run m t j _ Htr)).
    destruct (unaccess_good m A w Hg Hk Hw) as [Hg' Hmv]. eexists None, _, _. split; [reflexivity|].
    split; [exact Hg'|]. split; [exact Hmv|]. right. by exists w. }
  destruct (PageSwap pg) eqn:Hsw; cbn [negb].
  - destruct (swap_out_cached m A w pg Hg Hk Hw Hpg Hsw) as (e & m' & Hrun & He & Hg' & Hmv).
    exists (Some (frame_of w, e)), m', (<[k := e]> A). split; [|split; [done|split; [done|by exists w]]].
    rewrite <- Hrun. unfold bind, ret. destruct (has w PTE_D); [|done]. by destruct (update_page _ _ m) as [[[] ?]| |].
  - destruct (swap_out_new m A w pg Hg Hk Hw Hpg Hsw) as (r & m' & A' & Hrun & Hg' & Hmv & Hres').
    exists r, m', A'. split; [exact Hrun|]. split; [done|]. split; [done|].
    destruct Hres' as [[-> ->]|(e & -> & He & ->)]; [by left|]. by exists w.
Qed.
End Entry.

End Round.
End KswapdInv.
