(* ===== verification/KswapdSpec.v ===== *)
(** * The paging daemon is invisible

    A round of [kswapd_main] on address spaces with private areas returns, keeps the
    page tables, reference counts and the swap cache consistent, and every entry goes
    on standing for the same contents; what it takes off [pressure] are pages that
    have become free. *)

From S2P Require Import Prelude CString Vmm VmmInv RbPure RbSpec Swap Pmm PmmInv PmmMap PmmSpec Shmem Pgfault PgfaultInv PgfaultSpec Kswapd.
Open Scope Z_scope.

Module KswapdSpec.
Import Swap Pmm PmmInv PmmMap Pgfault PgfaultInv PgfaultSpec Kswapd KswapdInv.

Lemma next_page addr : 0 <= addr < USERTOP -> addr mod 4096 = 0 ->
  u32 (addr + PGSIZE) = addr + 4096 /\ (addr + 4096) mod 4096 = 0.
Proof.
  unfold USERTOP, Vmm.USERTOP, PGSIZE, Vmm.PGSIZE. intros H Ha. rewrite u32_small by (unfold is_u32; lia). split; [lia|dlia].
Qed.

Lemma next_table_addr addr : 0 <= addr < USERTOP -> addr mod 4096 = 0 ->
  addr + 4096 <= ROUNDDOWN (u32 (addr + PTSIZE)) PTSIZE /\ ROUNDDOWN (u32 (addr + PTSIZE)) PTSIZE mod 4096 = 0.
Proof.
  unfold USERTOP, Vmm.USERTOP, PTSIZE, PGSIZE, Vmm.PGSIZE, ROUNDDOWN, Vmm.ROUNDDOWN. intros H Ha.
  rewrite u32_small by (unfold is_u32; lia). change (4096 * 1024) with 4194304. split; dlia.
Qed.

Section Spec.
Context {T : Type} {RB : Vmm.RbTree T}.
Context (D : gset Z) (Tb : gmap (Z * Z) Z) (ext sext : Z -> Z).
Implicit Types (s : Vmm.vstate T Shmem.shm_state) (A : gmap (Z * Z) Z).
Abbreviation good := (KswapdInv.good D Tb ext sext).
Abbreviation moved := (KswapdInv.moved D Tb).

(** ** Address spaces *)

(** Address spaces are as before, but for the cache of the last area and the place
    the scan has reached. *)
Definition keeps_spaces s s' : Prop := forall mm x avs, VmmInv.space s mm x avs ->
  exists x', VmmInv.space s' mm x' avs /\ Vmm.pgdir x' = Vmm.pgdir x.

Lemma keeps_spaces_refl s : keeps_spaces s s.
Proof using Type. intros mm x avs H. eauto. Qed.

Lemma keeps_spaces_trans s1 s2 s3 : keeps_spaces s1 s2 -> keeps_spaces s2 s3 -> keeps_spaces s1 s3.
Proof using Type.
  intros H H' mm x avs Hsp. destruct (H mm x avs Hsp) as (x2 & Hsp2 & E2). destruct (H' mm x2 avs Hsp2) as (x3 & Hsp3 & E3).
  exists x3. split; [done|]. by rewrite E3.
Qed.

Lemma keeps_spaces_memory m s : keeps_spaces s (with_memory m s).
Proof using Type. intros mm x avs H. exists x. split; [by apply space_with_memory|done]. Qed.

(** A field of one address space that its areas do not depend on. *)
Lemma keeps_spaces_alter s mm f :
  (forall x avs, VmmInv.space s mm x avs -> Vmm.pgdir (f x) = Vmm.pgdir x /\ Vmm.mmap_list (f x) = Vmm.mmap_list x /\
     Vmm.mmap_tree (f x) = Vmm.mmap_tree x /\ Vmm.map_count (f x) = Vmm.map_count x /\
     (Vmm.mmap_cache (f x) = Vmm.mmap_cache x \/ Vmm.mmap_cache (f x) ∈ Vmm.mmap_list x)) ->
  keeps_spaces s (Vmm.upd_mms (alter f mm) s).
Proof using Type.
  intros Hf mm' x avs Hsp. destruct (decide (mm = mm')) as [<-|Hne].
  - destruct (Hf x avs Hsp) as (H1 & H2 & H3 & H4 & H5). exists (f x). split; [|done].
    destruct Hsp as [E1 E2 E3 E4 E5 E6 E7]. split; rewrite ?H2, ?H3, ?H4; try done.
    + cbn. by rewrite lookup_alter_eq, E1.
    + destruct H5 as [->|H5]; [done|right]. by rewrite <- E2.
  - exists x. split; [|done]. destruct Hsp as [E1 E2 E3 E4 E5 E6 E7]. split; try done. cbn. by rewrite lookup_alter_ne.
Qed.

Definition private (p : Z * Vmm.vma_struct) : Prop :=
  has (Vmm.vm_flags (snd p)) Vmm.VM_SHARE = false /\ 0 <= Vmm.vm_start (snd p) /\ Vmm.vm_end (snd p) <= USERTOP.

(** The result of a part of the scan: [n] entries swapped out of the [req] asked for. *)
Definition scan_done s A (req : Z) s' (n : Z) : Prop :=
  0 <= n <= req /\ keeps_spaces s s' /\ exists A', good (memory s') A' /\ moved (memory s) A (memory s') A'.

(** ** One area *)

Section Area.
Context (mm d end_ : Z) (v : Vmm.vma_struct).
Hypothesis Hd : d ∈ D.
Hypothesis Hsh : has (Vmm.vm_flags v) Vmm.VM_SHARE = false.
Hypothesis Hend : end_ <= USERTOP.

Lemma swap_out_loop_run fuel : forall s A x addr req cnt,
  good (memory s) A -> Vmm.mms s !! mm = Some x -> Vmm.pgdir x = d -> 0 <= addr -> addr mod 4096 = 0 -> 0 <= req ->
  Z.max 0 (end_ - addr) <= 4096 * (Z.of_nat fuel - 1) ->
  exists n s', swap_out_loop fuel mm v addr end_ req cnt s = Ret (cnt + n, s') /\ scan_done s A req s' n.
Proof using Hd Hsh Hend.
  induction fuel as [|fuel IH]; intros s A x addr req cnt Hg Hx Hxd Ha Hal Hreq Hfuel; [lia|]. cbn [swap_out_loop].
  destruct (Z.ltb_spec addr end_) as [Hlt|Hge]; cbn [andb negb].
  2:{ exists 0, s. rewrite Z.add_0_r. split; [done|]. split; [lia|]. split; [apply keeps_spaces_refl|]. exists A. split; [done|apply paged_refl]. }
  destruct (Z.eqb_spec req 0) as [->|Hr0]; cbn [negb].
  { exists 0, s. rewrite Z.add_0_r. split; [done|]. split; [lia|]. split; [apply keeps_spaces_refl|]. exists A. split; [done|apply paged_refl]. }
  assert (Hla : 0 <= addr < USERTOP) by lia. rewrite (bind_step _ _ _ _ _ (VmmInv.get_mm_ok _ _ _ Hx)), Hxd.
  pose proof (g_inv _ _ _ _ _ _ Hg) as Hinv.
  erewrite bind_step; [|apply on_mem_run, (get_pte_look (memory s) D Tb A d addr); [apply Hinv|done..]].
  rewrite with_memory_same by done. destruct (next_page addr Hla Hal) as [Hnp Hna]. destruct (next_table_addr addr Hla Hal) as [Hnt Hnta].
  destruct (Tb !! (d, PDX addr)) as [t|] eqn:Ht; cbn [fmap option_fmap option_map].
  2:{ apply (IH s A x); try done; lia. }
  destruct (user_index addr Hla) as (_ & Hj & _).
  destruct (swap_out_pte_run D Tb ext sext d (PDX addr) t (PTX addr) Ht Hj (memory s) A Hg) as (r & m' & A' & Hrun & Hg' & Hmv & _).
  erewrite bind_step; [|apply on_mem_run; exact Hrun]. rewrite Hnp. destruct r as [[p e]|].
  - rewrite (bind_step _ _ _ _ _ (VmmInv.update_mm_ok (with_memory m' s) mm x _ Hx)), Hsh, bind_ret.
    set (s2 := Vmm.upd_mms _ (with_memory m' s)).
    destruct (IH s2 A' (set_swap_address (addr + 4096) x) (addr + 4096) (req - 1) (cnt + 1)) as (n & s' & Hr & Hn & Hks & A2 & Hg2 & Hmv2);
      try done; [cbn; by rewrite lookup_alter_eq, Hx|lia..|].
    exists (1 + n), s'. rewrite Z.add_assoc. split; [done|]. split; [lia|]. split.
    + apply (keeps_spaces_trans s (with_memory m' s)); [apply keeps_spaces_memory|]. apply (keeps_spaces_trans _ s2); [|done].
      apply keeps_spaces_alter. intros y avs _. split_and!; try done. by left.
    + exists A2. split; [done|]. by apply (paged_trans D Tb _ A m' A').
  - destruct (IH (with_memory m' s) A' x (addr + 4096) req cnt) as (n & s' & Hr & Hn & Hks & A2 & Hg2 & Hmv2); try done; [lia..|].
    exists n, s'. split; [done|]. split; [done|]. split; [|exists A2; split; [done|by apply (paged_trans D Tb _ A m' A')]].
    apply (keeps_spaces_trans s (with_memory m' s)); [apply keeps_spaces_memory|done].
Qed.
End Area.

(** ** One address space *)

(** The area after one, around the list. *)
Lemma next_area (avs : list (Z * Vmm.vma_struct)) (x : Vmm.mm_struct T) vma : Vmm.mmap_list x = avs.*1 -> vma ∈ avs.*1 ->
  exists vma' v', match entry_after (Vmm.mmap_list x) vma with Some y => Some y | None => List.head (Vmm.mmap_list x) end = Some vma' /\
    (vma', v') ∈ avs.
Proof using Type.
  intros -> Hin. assert (Hel : forall y, y ∈ avs.*1 -> exists v', (y, v') ∈ avs).
  { intros y Hy. apply list_elem_of_fmap in Hy as ([y' v'] & -> & ?). eauto. }
  assert (Hn : forall l y, entry_after l vma = Some y -> y ∈ l).
  { induction l as [|z l IH]; intros y; cbn; [done|]. destruct (z =? vma); [|intros; right; by apply IH].
    destruct l; [done|]. intros [= ->]. right. left. }
  destruct (entry_after avs.*1 vma) as [y|] eqn:He.
  - destruct (Hel y (Hn _ _ He)) as [v' ?]. eauto.
  - destruct avs as [|[y v'] l]; [by apply not_elem_of_nil in Hin|]. exists y, v'. split; [done|left].
Qed.

Section Space.
Context (mm : Z) (avs : list (Z * Vmm.vma_struct)).
Hypothesis Hmm : mm <> 0.
Hypothesis Hpriv : Forall private avs.

Lemma swap_out_vma_run s A x vma v addr req :
  good (memory s) A -> VmmInv.space s mm x avs -> Vmm.pgdir x ∈ D -> (vma, v) ∈ avs -> 0 <= req ->
  exists n s', swap_out_vma mm vma addr req s = Ret (n, s') /\ scan_done s A req s' n.
Proof using Hpriv.
  intros Hg Hsp Hd Hin Hreq. destruct (proj1 (Forall_forall _ _) Hpriv _ Hin) as (Hsh & Hst & Hen).
  destruct (proj1 (Forall_forall _ _) (VmmInv.sp_areas _ _ _ _ Hsp) _ Hin) as (Hv & _ & _ & Hlt & _ & Hal). cbn [fst snd] in *.
  unfold swap_out_vma. rewrite (bind_step _ _ _ _ _ (VmmInv.get_vma_ok _ _ _ Hv)).
  destruct ((req =? 0) || _) eqn:Hc.
  { exists 0, s. split; [done|]. split; [lia|]. split; [apply keeps_spaces_refl|]. exists A. split; [done|apply paged_refl]. }
  apply orb_false_elim in Hc as [_ Hc]. apply negb_false_iff, andb_prop in Hc as [H1%Z.leb_le H2%Z.ltb_lt].
  assert (He : ROUNDUP (Vmm.vm_end v) PGSIZE = Vmm.vm_end v).
  { unfold ROUNDUP, Vmm.ROUNDUP, Vmm.ROUNDDOWN, PGSIZE, Vmm.PGSIZE, USERTOP, Vmm.USERTOP in *. rewrite u32_small by (unfold is_u32; lia). dlia. }
  rewrite He. assert (Hra : 0 <= ROUNDDOWN addr PGSIZE /\ ROUNDDOWN addr PGSIZE mod 4096 = 0 /\ ROUNDDOWN addr PGSIZE <= addr).
  { unfold ROUNDDOWN, Vmm.ROUNDDOWN, PGSIZE, Vmm.PGSIZE. split_and!; dlia. }
  destruct Hra as (Hra & Hrm & Hrl).
  destruct (swap_out_loop_run mm (Vmm.pgdir x) (Vmm.vm_end v) v Hd Hsh Hen
    (S (range_fuel (ROUNDDOWN addr PGSIZE) (Vmm.vm_end v))) s A x (ROUNDDOWN addr PGSIZE) req 0) as (n & s' & Hr & Hdone); try done.
  - apply Hsp.
  - unfold range_fuel. unfold PGSIZE, Vmm.PGSIZE in *. rewrite !Nat2Z.inj_succ, Z2Nat.id by (apply Z.div_pos; lia). dlia.
  - exists n, s'. split; [exact Hr|done].
Qed.

Lemma swap_out_areas_run n : forall s A x vma v addr req cnt,
  good (memory s) A -> VmmInv.space s mm x avs -> Vmm.pgdir x ∈ D -> (vma, v) ∈ avs -> 0 <= req ->
  exists r s', swap_out_areas n mm vma addr req cnt s = Ret (cnt + r, s') /\ scan_done s A req s' r.
Proof using Hpriv.
  induction n as [|n IH]; intros s A x vma v addr req cnt Hg Hsp Hd Hin Hreq; cbn [swap_out_areas].
  { exists 0, s. rewrite Z.add_0_r. split; [done|]. split; [lia|]. split; [apply keeps_spaces_refl|]. exists A. split; [done|apply paged_refl]. }
  destruct (swap_out_vma_run s A x vma v addr req Hg Hsp Hd Hin Hreq) as (r & s1 & Hr & Hrb & Hks & A1 & Hg1 & Hmv1).
  rewrite (bind_step _ _ _ _ _ Hr). destruct (Z.eqb_spec (req - r) 0) as [He|He].
  { exists r, s1. split; [done|]. split; [lia|]. split; [done|]. by exists A1. }
  destruct (Hks mm x avs Hsp) as (x1 & Hsp1 & Hx1). rewrite (bind_step _ _ _ _ _ (VmmInv.get_mm_ok _ _ _ (VmmInv.sp_mm _ _ _ _ Hsp1))).
  destruct (next_area avs x1 vma (VmmInv.sp_list _ _ _ _ Hsp1)) as (vma' & v' & Hnx & Hin'); [by apply (list_elem_of_fmap_2 fst avs (vma, v))|].
  rewrite (bind_deref _ _ _ _ Hnx).
  destruct (proj1 (Forall_forall _ _) (VmmInv.sp_areas _ _ _ _ Hsp1) _ Hin') as (Hv & _). cbn [fst snd] in Hv.
  rewrite (bind_step _ _ _ _ _ (VmmInv.get_vma_ok _ _ _ Hv)).
  destruct (IH s1 A1 x1 vma' v' (Vmm.vm_start v') (req - r) (cnt + r)) as (r2 & s2 & Hr2 & Hrb2 & Hks2 & A2 & Hg2 & Hmv2); try done; [by rewrite Hx1|lia|].
  exists (r + r2), s2. rewrite Z.add_assoc. split; [done|]. split; [lia|]. split; [by apply (keeps_spaces_trans s s1)|].
  exists A2. split; [done|]. by apply (paged_trans D Tb _ A (memory s1) A1).
Qed.

(** [find_vma] is one of the updates that keep address spaces. *)
Lemma find_vma_keeps s s1 x addr :
  VmmInv.space s mm x avs ->
  s1 = match VmmInv.first_above avs addr with Some p => VmmInv.cached s mm (fst p) x | None => s end -> keeps_spaces s s1.
Proof using Type.
  intros Hsp ->. destruct (VmmInv.first_above avs addr) as [p|] eqn:Hfa; [|apply keeps_spaces_refl].
  destruct (VmmInv.first_above_elem _ _ _ Hfa) as [Hp _]. apply keeps_spaces_alter. intros y avs' Hy. split_and!; try done. right.
  assert (y = x) as -> by (pose proof (VmmInv.sp_mm _ _ _ _ Hy); pose proof (VmmInv.sp_mm _ _ _ _ Hsp); congruence).
  rewrite (VmmInv.sp_list _ _ _ _ Hsp). change (Vmm.mmap_cache _) with (fst p). by apply list_elem_of_fmap_2.
Qed.

Lemma swap_out_mm_run s A x req :
  good (memory s) A -> VmmInv.space s mm x avs -> Vmm.pgdir x ∈ D -> 0 <= req ->
  exists n s', swap_out_mm mm req s = Ret (n, s') /\ scan_done s A req s' n.
Proof using Hmm Hpriv.
  intros Hg Hsp Hd Hreq. unfold swap_out_mm. rewrite assert_true by (by apply negb_true_iff, Z.eqb_neq).
  rewrite (bind_step _ _ _ _ _ (VmmInv.get_mm_ok _ _ _ (VmmInv.sp_mm _ _ _ _ Hsp))).
  destruct ((req =? 0) || _) eqn:Hc.
  { exists 0, s. split; [done|]. split; [lia|]. split; [apply keeps_spaces_refl|]. exists A. split; [done|apply paged_refl]. }
  apply orb_false_elim in Hc as [_ Hc%Z.eqb_neq]. rewrite (VmmInv.sp_count _ _ _ _ Hsp) in Hc.
  rewrite (VmmInv.sp_list _ _ _ _ Hsp). assert (Hav : exists a0 v0, List.head avs.*1 = Some a0 /\ (a0, v0) ∈ avs).
  { destruct avs as [|[a0 v0] l]; [done|]. exists a0, v0. split; [done|left]. }
  destruct Hav as (a0 & v0 & Hhd & Hin0). rewrite assert_true by (by destruct avs).
  destruct (VmmInv.find_vma_ok s mm x avs (Vmm.swap_address x) Hsp Hmm) as (s1 & x1 & Hr1 & Hsp1 & Hs1 & Hpg1).
  rewrite (bind_step _ _ _ _ _ Hr1). pose proof (find_vma_keeps s s1 x _ Hsp Hs1) as Hks1.
  assert (Hm1 : memory s1 = memory s) by (rewrite Hs1; by destruct (VmmInv.first_above avs _)).
  assert (Hcase : exists vma v addr s2 x2, (if VmmInv.addr_of (VmmInv.first_above avs (Vmm.swap_address x)) 0 =? 0 then
       Vmm.update_mm (set_swap_address 0) mm ;; vma <- deref (List.head avs.*1) ;; ret (0, vma)
     else ret (Vmm.swap_address x, VmmInv.addr_of (VmmInv.first_above avs (Vmm.swap_address x)) 0)) s1 = Ret ((addr, vma), s2) /\
     (vma, v) ∈ avs /\ addr <= Vmm.vm_end v /\ keeps_spaces s1 s2 /\ memory s2 = memory s1 /\ VmmInv.space s2 mm x2 avs /\ Vmm.pgdir x2 = Vmm.pgdir x1).
  { destruct (VmmInv.first_above avs (Vmm.swap_address x)) as [[va v]|] eqn:Hfa; cbn [VmmInv.addr_of fst].
    - destruct (VmmInv.first_above_elem _ _ _ Hfa) as [Hin Hlt]. cbn [snd] in Hlt.
      destruct (proj1 (Forall_forall _ _) (VmmInv.sp_areas _ _ _ _ Hsp1) _ Hin) as (_ & Hnz & _). cbn [fst] in Hnz.
      rewrite (proj2 (Z.eqb_neq va 0) Hnz). exists va, v, (Vmm.swap_address x), s1, x1. split_and!; try done; [lia|apply keeps_spaces_refl].
    - cbn [Z.eqb]. rewrite (bind_step _ _ _ _ _ (VmmInv.update_mm_ok s1 mm x1 _ (VmmInv.sp_mm _ _ _ _ Hsp1))), (bind_deref _ _ _ _ Hhd).
      assert (Hk2 : keeps_spaces s1 (Vmm.upd_mms (alter (set_swap_address 0) mm) s1)).
      { apply keeps_spaces_alter. intros y l _. split_and!; try done. by left. }
      destruct (Hk2 mm x1 avs Hsp1) as (x2 & Hsp2 & E2). eexists a0, v0, 0, _, x2. split_and!; try done.
      destruct (proj1 (Forall_forall _ _) Hpriv _ Hin0) as (_ & ? & _).
      destruct (proj1 (Forall_forall _ _) (VmmInv.sp_areas _ _ _ _ Hsp) _ Hin0) as (_ & _ & _ & ? & _). cbn [snd] in *. lia. }
  destruct Hcase as (vma & v & addr & s2 & x2 & Hr2 & Hin & Hle & Hks2 & Hm2 & Hsp2 & Hpg2). rewrite (bind_step _ _ _ _ _ Hr2).
  destruct (proj1 (Forall_forall _ _) (VmmInv.sp_areas _ _ _ _ Hsp2) _ Hin) as (Hv & _). cbn [fst snd] in Hv.
  rewrite (bind_step _ _ _ _ _ (VmmInv.get_vma_ok _ _ _ Hv)), assert_true by (by apply Z.leb_le).
  rewrite <- Hm1, <- Hm2 in Hg.
  destruct (swap_out_areas_run (Z.to_nat (Vmm.map_count x + 1)) s2 A x2 vma v (if addr <? Vmm.vm_start v then Vmm.vm_start v else addr) req 0)
    as (r & s' & Hr & Hrb & Hks & A' & Hg' & Hmv); try done; [by rewrite Hpg2, Hpg1|].
  exists r, s'. split; [exact Hr|]. split; [done|]. split; [apply (keeps_spaces_trans s s1); [done|]; by apply (keeps_spaces_trans s1 s2)|].
  exists A'. split; [done|]. by rewrite <- Hm1, <- Hm2.
Qed.
End Space.
(** ** A round *)

Definition spaces_ok s (l : list Z) : Prop := forall mm, mm ∈ l -> mm <> 0 /\
  exists x avs, VmmInv.space s mm x avs /\ Vmm.pgdir x ∈ D /\ Forall private avs.

Lemma spaces_ok_keep s s' l l' : spaces_ok s l -> keeps_spaces s s' -> l' ≡ₚ l -> spaces_ok s' l'.
Proof using Type.
  intros H Hk Hl mm Hin. rewrite Hl in Hin. destruct (H mm Hin) as (Hmm & x & avs & Hsp & Hd & Hp). split; [done|].
  destruct (Hk mm x avs Hsp) as (x' & Hsp' & E). exists x', avs. by rewrite E.
Qed.

Lemma on_vm_run {X} (c : M (Vmm.vstate T Shmem.shm_state) X) k a s' :
  c (vm k) = Ret (a, s') -> on_vm c k = Ret (a, mk_kstate (pressure k) (guard k) (proc_mm_list k) s').
Proof using Type. intros H. unfold on_vm. by rewrite H. Qed.

Lemma on_vm_mem {X} (c : M mem X) (k : kstate (T := T)) a m' :
  c (memory (vm k)) = Ret (a, m') ->
  on_vm (on_mem c) k = Ret (a, mk_kstate (pressure k) (guard k) (proc_mm_list k) (with_memory m' (vm k))).
Proof using Type. intros H. by apply on_vm_run, on_mem_run. Qed.

(** A part of a round: pages move, address spaces and the list of them stay. *)
Definition round_step (k : kstate (T := T)) A (k' : kstate (T := T)) A' : Prop :=
  good (memory (vm k')) A' /\ moved (memory (vm k)) A (memory (vm k')) A' /\ keeps_spaces (vm k) (vm k') /\
  proc_mm_list k' ≡ₚ proc_mm_list k.

Lemma kswapd_loop_run rounds : forall (k : kstate (T := T)) A needs,
  good (memory (vm k)) A -> spaces_ok (vm k) (proc_mm_list k) -> proc_mm_list k <> [] ->
  exists k' A', kswapd_loop rounds needs k = Ret (tt, k') /\ round_step k A k' A' /\ pressure k' = pressure k /\ guard k' = guard k.
Proof using Type.
  induction rounds as [|rounds IH]; intros k A needs Hg Hsp Hne; cbn [kswapd_loop].
  { exists k, A. split; [done|]. split; [|done]. split; [done|]. split; [apply paged_refl|]. split; [apply keeps_spaces_refl|done]. }
  destruct (Z.leb_spec needs 0) as [Hle|Hgt].
  { exists k, A. split; [done|]. split; [|done]. split; [done|]. split; [apply paged_refl|]. split; [apply keeps_spaces_refl|done]. }
  rewrite bind_get. destruct (proc_mm_list k) as [|mm l] eqn:Hl; [done|]. cbn [List.head deref]. rewrite bind_ret, bind_modify.
  rewrite Hl. cbn [tail]. set (k1 := mk_kstate _ _ _ _).
  destruct (Hsp mm) as (Hmm & x & avs & Hspace & Hd & Hpriv); [left|]. set (req := if needs <? 32 then needs else 32).
  assert (Hreq : 0 <= req) by (unfold req; destruct (needs <? 32); lia).
  destruct (swap_out_mm_run mm avs Hmm Hpriv (vm k) A x req Hg Hspace Hd Hreq) as (n & s' & Hr & Hn & Hks & A1 & Hg1 & Hmv1).
  rewrite (bind_step _ _ _ _ _ (on_vm_run _ k1 n s' Hr)). set (k2 := mk_kstate _ _ _ _).
  assert (Hperm : proc_mm_list k2 ≡ₚ mm :: l) by (cbn; by rewrite Permutation_app_comm).
  destruct (IH k2 A1 (needs - n)) as (k' & A' & Hr' & (Hg' & Hmv' & Hks' & Hp') & Hpr & Hgd); try done.
  - by apply (spaces_ok_keep (vm k) _ (mm :: l)).
  - cbn. by destruct l.
  - exists k', A'. split; [done|]. split; [|done]. split; [done|]. split; [by apply (paged_trans D Tb _ A (memory s') A1)|].
    split; [by apply (keeps_spaces_trans _ s')|]. by rewrite Hp', Hl.
Qed.

Lemma free_bound m A : inv m D Tb A ext sext -> Z.of_nat (size (free m)) <= 2 ^ 20.
Proof using Type.
  intros [Ht _ Hn]. assert (Hsub : free m ⊆ list_to_set (seqZ 0 (npage m))).
  { intros p Hp. destruct (n_free _ _ _ _ _ _ Hn p Hp) as [? _]. apply elem_of_list_to_set, elem_of_seqZ. lia. }
  pose proof (t_npage _ _ _ _ Ht). apply subseteq_size in Hsub. rewrite size_list_to_set, length_seqZ in Hsub by apply NoDup_seqZ. lia.
Qed.

(** C8: the paging daemon is invisible to the programs it takes pages from.  A round of
    [kswapd_main], started when page tables, reference counts and swap cache are
    consistent, returns without a panic; they are consistent after it; every entry of
    every address space is as it was, has only lost its accessed bit, or names a swap
    slot, and stands for the same contents; every entry held elsewhere (shared memory)
    stands for the same contents too.  What is taken off [pressure] is covered by pages
    that have become free, and the waiting processes are woken when it is used up. *)
Theorem kswapd_spec (k : kstate (T := T)) A :
  good (memory (vm k)) A -> spaces_ok (vm k) (proc_mm_list k) -> 0 <= pressure k < 2 ^ 26 ->
  (0 < pressure k -> proc_mm_list k <> []) ->
  exists b k' A' n, kswapd_round k = Ret (b, k') /\ round_step k A k' A' /\
    0 <= n /\ Z.of_nat (size (free (memory (vm k)))) + n <= Z.of_nat (size (free (memory (vm k')))) /\
    pressure k' = Z.max 0 (pressure k - n) /\ b = (pressure k <=? n).
Proof using Type.
  intros Hg Hsp Hpr Hne. unfold kswapd_round. rewrite bind_get.
  assert (Hfirst : exists k1 A1, (if 0 <? pressure k then
      assert (match proc_mm_list k with [] => false | _ => true end) ;; kswapd_loop 16 (s32 (Z.shiftl (pressure k) 5)) else ret tt) k = Ret (tt, k1) /\
    round_step k A k1 A1 /\ pressure k1 = pressure k /\ guard k1 = guard k).
  { destruct (Z.ltb_spec 0 (pressure k)) as [Hlt|_].
    - specialize (Hne Hlt). rewrite assert_true by (by destruct (proc_mm_list k)). by apply kswapd_loop_run.
    - exists k, A. split; [done|]. split; [|done]. split; [done|]. split; [apply paged_refl|]. split; [apply keeps_spaces_refl|done]. }
  destruct Hfirst as (k1 & A1 & Hr1 & (Hg1 & Hmv1 & Hks1 & Hl1) & Hp1 & Hgd1). rewrite (bind_step _ _ _ _ _ Hr1).
  destruct (page_launder_run D Tb ext sext (memory (vm k1)) A1 Hg1) as (n & m2 & Hr2 & Hg2 & Hmv2 & Hn & Hsz).
  rewrite (bind_step _ _ _ _ _ (on_vm_mem _ k1 n m2 Hr2)), bind_modify. set (k2 := mk_kstate _ _ _ _).
  destruct (refill_inactive_scan_run D Tb ext sext m2 A1 Hg2) as (m3 & Hr3 & Hg3 & Hmv3 & Hf3).
  rewrite (bind_step _ _ _ _ _ (on_vm_mem _ k2 tt m3 Hr3)), bind_get.
  pose proof (free_bound m2 A1 (g_inv _ _ _ _ _ _ Hg2)) as Hbound.
  assert (Hs32 : s32 (pressure k1 - n) = pressure k - n) by (rewrite Hp1; apply s32_small; unfold is_s32; lia).
  assert (Hstep : forall k', vm k' = with_memory m3 (with_memory m2 (vm k1)) -> proc_mm_list k' = proc_mm_list k1 -> round_step k A k' A1).
  { intros k' Hv Hl. unfold round_step. rewrite Hv, Hl. cbn [memory]. split; [done|]. split; [|split; [|done]].
    - apply (paged_trans D Tb _ A (memory (vm k1)) A1); [done|]. by apply (paged_trans D Tb _ A1 m2 A1).
    - apply (keeps_spaces_trans _ (vm k1)); [done|].
      apply (keeps_spaces_trans _ (with_memory m2 (vm k1))); apply keeps_spaces_memory. }
  assert (Hfree : Z.of_nat (size (free (memory (vm k)))) + n <= Z.of_nat (size (free m3))).
  { rewrite Hf3, Hsz. pose proof (subseteq_size _ _ (v_free _ _ _ _ _ _ Hmv1)). lia. }
  cbn [pressure k2]. rewrite Hs32. destruct (Z.ltb_spec 0 (pressure k - n)) as [Hlt|Hge]; rewrite bind_modify.
  - eexists false, _, A1, n. split; [reflexivity|]. split; [by apply Hstep|]. cbn [pressure vm memory with_memory].
    split_and!; [done|exact Hfree|lia|symmetry; apply Z.leb_gt; lia].
  - eexists true, _, A1, n. split; [reflexivity|]. split; [by apply Hstep|]. cbn [pressure vm memory with_memory].
    split_and!; [done|exact Hfree|lia|symmetry; apply Z.leb_le; lia].
Qed.
End Spec.

(** ** Two rounds on a memory *)

#[local] Existing Instance RbSpec.rb_tree_interface.

(** Address space 9 of [PgfaultSpec.ex_state] on the memory of [PmmSpec.ex_mem], with a
    second slot and 77 in the first word of page 4. *)
Definition ex_swap2 : swap_state :=
  mk_swap 3 [] 0 [] 0 {[1 := 1; 2 := SWAP_UNUSED]} (hash_list PmmSpec.ex_swap) 1 0 ∅ [].
Definition ex_mem2 : mem := mk_mem 8 (<[4 := {[0 := 77]}]> PmmSpec.ex_frames) PmmSpec.ex_pages {[6; 7]} [] ex_swap2.
Definition ex_k : kstate := mk_kstate 1 0 [9] (PgfaultSpec.ex_state ex_mem2).

Lemma ex_inv2 : inv ex_mem2 PmmSpec.ex_D PmmSpec.ex_T PmmSpec.ex_A PmmSpec.none PmmSpec.none.
Proof.
  assert (H1 : inv (mk_mem 8 (<[4 := {[0 := 77]}]> PmmSpec.ex_frames) PmmSpec.ex_pages {[6; 7]} [] PmmSpec.ex_swap)
    PmmSpec.ex_D PmmSpec.ex_T PmmSpec.ex_A PmmSpec.none PmmSpec.none).
  { apply (inv_data PmmSpec.ex_mem _ _ _ _ _ _ 4); [apply PmmSpec.ex_inv| |reflexivity..| |].
    - split; [vm_compute; done|]. intros [d i] Hk. apply PmmSpec.ex_T_lookup in Hk as (_ & [[_ ?]|[_ ?]]); done.
    - intros q j Hq. unfold word. cbn [frames]. by rewrite lookup_insert_ne.
    - by exists id, []. }
  destruct H1 as [Ht [C1 C2 C3 C4 C5 C6 C7 C8] [N1 N2 N3 N4 N5 N6 N7 N8]].
  assert (Hno : forall p pg, PmmSpec.ex_pages !! p = Some pg -> PageSwap pg = true -> False).
  { intros p pg Hp Hs. destruct (PmmSpec.ex_swapped p pg Hp). congruence. }
  split; [|split|split]; try done.
  - by apply (tables_frame (mk_mem 8 (<[4 := {[0 := 77]}]> PmmSpec.ex_frames) PmmSpec.ex_pages {[6; 7]} [] PmmSpec.ex_swap)); [..|by left|].
  - intros p pg Hp Hs. by destruct (Hno p pg).
  - intros off Ho. cbn in Ho. apply lookup_insert_Some in Ho as [[_ ?]|[_ [_ ?]%lookup_singleton_Some]]; done.
  - intros off Ho. cbn in Ho. assert (off = 1 \/ off = 2) as [->| ->] by lia; eexists; (split; [reflexivity|]); unfold SWAP_UNUSED; lia.
  - intros off c Ho. cbn in Ho. apply lookup_insert_Some in Ho as [[<- <-]|[_ [<- <-]%lookup_singleton_Some]]; vm_compute; done.
  - intros d v w Hk Hw. destruct (N6 d v w Hk Hw) as [? Hr]. cbn in Hr |- *. split; [done|lia].
Qed.

Lemma ex_good : KswapdInv.good PmmSpec.ex_D PmmSpec.ex_T PmmSpec.none PmmSpec.none ex_mem2 PmmSpec.ex_A.
Proof.
  split; [apply ex_inv2| | |cbn; lia].
  - intros p pg Hp Hs. destruct (PmmSpec.ex_swapped p pg Hp). congruence.
  - intros p pg Hp. unfold slot_count. destruct (PmmSpec.ex_swapped p pg Hp) as [-> _]. cbn in Hp. unfold PmmSpec.ex_pages in Hp.
    repeat (apply lookup_insert_Some in Hp as [[<- <-]|[_ Hp]]; [cbn; unfold MAX_SWAP_REF; lia|]).
    apply lookup_singleton_Some in Hp as [<- <-]. cbn. unfold MAX_SWAP_REF. lia.
Qed.

Lemma kswapd_spec_witness : exists b k' A' n, kswapd_round ex_k = Ret (b, k') /\
  round_step PmmSpec.ex_D PmmSpec.ex_T PmmSpec.none PmmSpec.none ex_k PmmSpec.ex_A k' A' /\
  0 <= n /\ 2 + n <= Z.of_nat (size (free (memory (vm k')))) /\ pressure k' = Z.max 0 (1 - n) /\ b = (1 <=? n).
Proof.
  apply (kswapd_spec PmmSpec.ex_D PmmSpec.ex_T PmmSpec.none PmmSpec.none ex_k PmmSpec.ex_A); [apply ex_good| |cbn; lia|done].
  intros mm ->%list_elem_of_singleton. split; [lia|]. exists PgfaultSpec.ex_x, [(10, PgfaultSpec.ex_area)].
  split; [apply PgfaultSpec.ex_areas|]. split; [vm_compute; done|]. constructor; [|constructor].
  split; [done|]. cbn. unfold USERTOP, Vmm.USERTOP. lia.
Defined.

(** The first round swaps page 4 out to slot 2, the second writes and frees it. *)
Example ex_two_rounds :
  (fun o => match o with
    | Ret (b, k) => Some (b, word (memory (vm k)) 2 512, bool_decide (4 ∈ free (memory (vm k))),
        (fun f => default 0 (f !! 0)) <$> disk (sw (memory (vm k))) !! 2)
    | _ => None end) ((kswapd_round ;; kswapd_round) ex_k) = Some (true, 512, true, Some 77).
Proof. vm_compute. reflexivity. Qed.
End KswapdSpec.
