(* ===== verification/Slab.v ===== *)
(** * Slab allocator (kern/mm/slab.c)

    A cache is named by its index in [slab_cache]; a slab by the kernel address of its
    control area, whose [kmem_bufctl_t] array is part of the record.  The lists
    [slabs_full] and [slabs_notfull] are lists of slabs; [page_link] of a page of a slab
    holds its cache and its slab.

    [alloc_pages] gives a block of free pages or [NULL]: which one is the next of
    [answers], so every behaviour of the buddy allocator is covered. *)

From S2P Require Import Prelude Vmm.
Open Scope Z_scope.

Module Slab.
Export Vmm(PGSIZE, KERNBASE, ROUNDUP).

Definition BUFCTL_END : Z := 0xFFFFFFFF.
Definition SLAB_LIMIT : Z := 0xFFFFFFFE.
Definition MIN_SIZE_ORDER : Z := 5.
Definition MAX_SIZE_ORDER : Z := 17.
Definition SLAB_CACHE_NUM : Z := MAX_SIZE_ORDER - MIN_SIZE_ORDER + 1.
Definition KMALLOC_MAX_ORDER : Z := 10.
(** [sizeof(slab_t)] and [sizeof(kmem_bufctl_t)] on the 32-bit machine. *)
Definition sizeof_slab_t : Z := 24.
Definition sizeof_bufctl : Z := 4.

Record slab_t := mk_slab {
  s_mem : Z; inuse : Z; s_offset : Z; s_free : Z; slab_bufctl : gmap Z Z }.

Record kmem_cache := mk_cache {
  slabs_full : list Z; slabs_notfull : list Z; objsize : Z; num : Z; c_offset : Z;
  off_slab : bool; page_order : Z; slab_cachep : Z }.

(** The parts of [struct Page] the allocator uses. *)
Record page := mk_page { PageSlab : bool; page_cache : Z; page_slab : Z }.

Record state := mk_state {
  slab_cache : gmap Z kmem_cache; slabs : gmap Z slab_t;
  pages : gmap Z page; npage : Z; free : gset Z; answers : list (option Z) }.

Definition upd_caches f s := mk_state (f (slab_cache s)) (slabs s) (pages s) (npage s) (free s) (answers s).
Definition upd_slabs f s := mk_state (slab_cache s) (f (slabs s)) (pages s) (npage s) (free s) (answers s).
Definition upd_pages f s := mk_state (slab_cache s) (slabs s) (f (pages s)) (npage s) (free s) (answers s).
Definition upd_free f s := mk_state (slab_cache s) (slabs s) (pages s) (npage s) (f (free s)) (answers s).
Definition upd_answers f s := mk_state (slab_cache s) (slabs s) (pages s) (npage s) (free s) (f (answers s)).

Definition set_lists full notfull c :=
  mk_cache full notfull (objsize c) (num c) (c_offset c) (off_slab c) (page_order c) (slab_cachep c).

Definition get_cache (i : Z) : M state kmem_cache := s <- get ;; deref (slab_cache s !! i).
Definition get_slab (a : Z) : M state slab_t := s <- get ;; deref (slabs s !! a).
Definition get_page (p : Z) : M state page := s <- get ;; deref (pages s !! p).
Definition set_cache (i : Z) (c : kmem_cache) : M state unit := modify (upd_caches <[i := c]>).
Definition set_slab (a : Z) (x : slab_t) : M state unit := modify (upd_slabs <[a := x]>).
Definition set_page (p : Z) (x : page) : M state unit := modify (upd_pages <[p := x]>).

(** ** Pages *)

Definition block (p n : Z) : gset Z := list_to_set (seqZ p n).

Definition alloc_pages (n : Z) : M state (option Z) :=
  s <- get ;;
  match answers s with
  | [] => ret None
  | o :: l =>
      modify (upd_answers (fun _ => l)) ;;
      match o with
      | Some p =>
          if bool_decide (block p n ⊆ free s) then modify (upd_free (.∖ block p n)) ;; ret (Some p) else ret None
      | None => ret None
      end
  end.

Definition free_pages (p n : Z) : M state unit := modify (upd_free (block p n ∪.)).

Definition page2kva (p : Z) : Z := p * PGSIZE + KERNBASE.
(** [kva2page] through [PADDR] and [pa2page], which panic. *)
Definition kva2page (a : Z) : M state Z :=
  s <- get ;;
  assert (KERNBASE <=? a) ;;
  let p := (a - KERNBASE) / PGSIZE in
  assert (p <? npage s) ;; ret p.

(** ** Sizes *)

Definition slab_mgmt_size (num align : Z) : Z := ROUNDUP (u32 (sizeof_slab_t + num * sizeof_bufctl)) align.

(** The loop of [cache_estimate]. *)
Fixpoint shrink_objs (fuel : nat) (nr_objs objsize align slab_size : Z) : M state Z :=
  match fuel with
  | O => out_of_fuel
  | S fuel =>
      if slab_size <? u32 (slab_mgmt_size nr_objs align + nr_objs * objsize)
      then shrink_objs fuel (u32 (nr_objs - 1)) objsize align slab_size
      else ret nr_objs
  end.

(** [*remainder] and [*num]. *)
Definition cache_estimate (order objsize align : Z) (off_slab : bool) : M state (Z * Z) :=
  let slab_size := u32 (Z.shiftl PGSIZE order) in
  if off_slab then
    let nr_objs := Z.min (slab_size / objsize) SLAB_LIMIT in
    ret (u32 (slab_size - nr_objs * objsize), nr_objs)
  else
    let nr_objs := u32 (slab_size - sizeof_slab_t) / u32 (objsize + sizeof_bufctl) in
    nr_objs <- shrink_objs (S (Z.to_nat nr_objs)) nr_objs objsize align slab_size ;;
    let nr_objs := Z.min nr_objs SLAB_LIMIT in
    ret (u32 (slab_size - nr_objs * objsize - slab_mgmt_size nr_objs align), nr_objs).

(** The loop of [calculate_slab_order] from [order] on: [num], [page_order] and
    [*left_over]. *)
Fixpoint slab_order_loop (n : nat) (order objsize align : Z) (off_slab : bool) : M state (Z * Z * Z) :=
  match n with
  | O => panic
  | S n =>
      '(remainder, num) <- cache_estimate order objsize align off_slab ;;
      (if negb (num =? 0) && off_slab
       then assert (num <=? u32 (objsize - sizeof_slab_t) / sizeof_bufctl) else ret tt) ;;
      if negb (num =? 0) && (u32 (remainder * 8) <=? u32 (Z.shiftl PGSIZE order))
      then ret (num, order, remainder)
      else slab_order_loop n (order + 1) objsize align off_slab
  end.

Definition calculate_slab_order (objsize align : Z) (off_slab : bool) : M state (Z * Z * Z) :=
  slab_order_loop (S (Z.to_nat KMALLOC_MAX_ORDER)) 0 objsize align off_slab.

Fixpoint getorder_loop (k : nat) (order order_size n : Z) : M state Z :=
  match k with
  | O => panic
  | S k => if n <=? order_size then ret order else getorder_loop k (order + 1) (u32 (Z.shiftl order_size 1)) n
  end.

Definition getorder (n : Z) : M state Z :=
  getorder_loop (Z.to_nat SLAB_CACHE_NUM) MIN_SIZE_ORDER (Z.shiftl 1 MIN_SIZE_ORDER) n.

Definition init_kmem_cache (i objsize align : Z) : M state unit :=
  let objsize := ROUNDUP objsize align in
  let off := Z.shiftr PGSIZE 3 <=? objsize in
  '(num, order, left_over) <- calculate_slab_order objsize align off ;;
  assert (0 <? num) ;;
  let mgmt_size := slab_mgmt_size num align in
  let off := off && negb (mgmt_size <=? left_over) in
  if off then
    o <- getorder mgmt_size ;;
    set_cache i (mk_cache [] [] objsize num 0 true order (o - MIN_SIZE_ORDER))
  else set_cache i (mk_cache [] [] objsize num mgmt_size false order 0).

Fixpoint slab_init_loop (n : nat) (i : Z) : M state unit :=
  match n with
  | O => ret tt
  | S n => init_kmem_cache i (u32 (Z.shiftl 1 (i + MIN_SIZE_ORDER))) 16 ;; slab_init_loop n (i + 1)
  end.

(** [slab_init] without the self-test [check_slab]. *)
Definition slab_init : M state unit := slab_init_loop (Z.to_nat SLAB_CACHE_NUM) 0.

(** ** Allocation *)

(** The loop of [kmem_cache_grow] over the pages of the block. *)
Fixpoint mark_pages (n : nat) (p cachep slabp : Z) : M state unit :=
  match n with
  | O => ret tt
  | S n => get_page p ;; set_page p (mk_page true cachep slabp) ;; mark_pages n (p + 1) cachep slabp
  end.

(** [slab_bufctl(slabp)[i] = i + 1] for every [i], and the end mark in the last. *)
Definition bufctl_init (num : Z) : gmap Z Z :=
  <[num - 1 := BUFCTL_END]> (array num (fun i => i + 1)).

Definition kmem_cache_alloc_one (cachep slabp : Z) : M state Z :=
  c <- get_cache cachep ;;
  x <- get_slab slabp ;;
  let objp := u32 (s_mem x + s_free x * objsize c) in
  next <- deref (slab_bufctl x !! s_free x) ;;
  set_slab slabp (mk_slab (s_mem x) (inuse x + 1) (s_offset x) next (slab_bufctl x)) ;;
  (if next =? BUFCTL_END then
     set_cache cachep (set_lists (slabp :: List.remove Z.eq_dec slabp (slabs_full c))
                         (List.remove Z.eq_dec slabp (slabs_notfull c)) c)
   else ret tt) ;;
  ret objp.

(** [kmem_cache_slabmgmt] and [kmem_cache_grow] take [kmem_cache_alloc] as an argument:
    the control area of a slab may itself be allocated. *)
Definition kmem_cache_slabmgmt (alloc : Z -> M state Z) (cachep page : Z) : M state Z :=
  c <- get_cache cachep ;;
  s <- get ;; assert (page <? npage s) ;;
  let objp := page2kva page in
  slabp <- (if off_slab c then alloc (slab_cachep c) else ret (page2kva page)) ;;
  if slabp =? 0 then ret 0
  else set_slab slabp (mk_slab (objp + c_offset c) 0 (c_offset c) 0 ∅) ;; ret slabp.

Definition kmem_cache_grow (alloc : Z -> M state Z) (cachep : Z) : M state bool :=
  c <- get_cache cachep ;;
  o <- alloc_pages (Z.shiftl 1 (page_order c)) ;;
  match o with
  | None => ret false
  | Some page =>
      slabp <- kmem_cache_slabmgmt alloc cachep page ;;
      if slabp =? 0 then free_pages page (Z.shiftl 1 (page_order c)) ;; ret false
      else
        mark_pages (Z.to_nat (Z.shiftl 1 (page_order c))) page cachep slabp ;;
        x <- get_slab slabp ;;
        set_slab slabp (mk_slab (s_mem x) (inuse x) (s_offset x) 0 (bufctl_init (num c))) ;;
        c <- get_cache cachep ;;
        set_cache cachep (set_lists (slabs_full c) (slabp :: slabs_notfull c) c) ;;
        ret true
  end.

(** After a new slab the search starts again; [fuel] counts this and the allocation of
    control areas. *)
Fixpoint kmem_cache_alloc (fuel : nat) (cachep : Z) : M state Z :=
  match fuel with
  | O => out_of_fuel
  | S fuel =>
      c <- get_cache cachep ;;
      match slabs_notfull c with
      | slabp :: _ => kmem_cache_alloc_one cachep slabp
      | [] =>
          grown <- kmem_cache_grow (kmem_cache_alloc fuel) cachep ;;
          if (grown : bool) then kmem_cache_alloc fuel cachep else ret 0
      end
  end.

Definition alloc_fuel : nat := 4.

Definition kmalloc (size : Z) : M state Z :=
  assert (0 <? size) ;;
  order <- getorder size ;;
  if MAX_SIZE_ORDER <? order then ret 0
  else kmem_cache_alloc alloc_fuel (order - MIN_SIZE_ORDER).

(** ** Release *)

(** The loop of [kmem_slab_destroy]. *)
Fixpoint clear_pages (n : nat) (p : Z) : M state unit :=
  match n with
  | O => ret tt
  | S n =>
      x <- get_page p ;; assert (PageSlab x) ;;
      set_page p (mk_page false (page_cache x) (page_slab x)) ;; clear_pages n (p + 1)
  end.

(** [kmem_slab_destroy] and [kmem_cache_free_one] take [kmem_cache_free] as an argument:
    the control area of a slab may have been allocated. *)
Definition kmem_slab_destroy (kfree : Z -> Z -> M state unit) (cachep slabp : Z) : M state unit :=
  c <- get_cache cachep ;;
  x <- get_slab slabp ;;
  page <- kva2page (s_mem x - s_offset x) ;;
  clear_pages (Z.to_nat (Z.shiftl 1 (page_order c))) page ;;
  free_pages page (Z.shiftl 1 (page_order c)) ;;
  if off_slab c then kfree (slab_cachep c) slabp else ret tt.

Definition kmem_cache_free_one (kfree : Z -> Z -> M state unit) (cachep slabp objp : Z) : M state unit :=
  c <- get_cache cachep ;;
  x <- get_slab slabp ;;
  let objnr := (objp - s_mem x) / objsize c in
  set_slab slabp (mk_slab (s_mem x) (inuse x - 1) (s_offset x) objnr (<[objnr := s_free x]> (slab_bufctl x))) ;;
  if inuse x - 1 =? 0 then
    set_cache cachep (set_lists (List.remove Z.eq_dec slabp (slabs_full c))
                        (List.remove Z.eq_dec slabp (slabs_notfull c)) c) ;;
    kmem_slab_destroy kfree cachep slabp
  else if inuse x - 1 =? num c - 1 then
    set_cache cachep (set_lists (List.remove Z.eq_dec slabp (slabs_full c))
                        (slabp :: List.remove Z.eq_dec slabp (slabs_notfull c)) c)
  else ret tt.

(** [fuel] counts the control areas freed on the way. *)
Fixpoint kmem_cache_free (fuel : nat) (cachep objp : Z) : M state unit :=
  match fuel with
  | O => out_of_fuel
  | S fuel =>
      p <- kva2page objp ;;
      pg <- get_page p ;;
      assert (PageSlab pg) ;;
      kmem_cache_free_one (kmem_cache_free fuel) cachep (page_slab pg) objp
  end.

Definition free_fuel : nat := 2.

Definition kfree (objp : Z) : M state unit :=
  p <- kva2page objp ;;
  pg <- get_page p ;;
  kmem_cache_free free_fuel (page_cache pg) objp.

(** ** Accounting *)

Fixpoint inuse_loop (l : list Z) (objsize total : Z) : M state Z :=
  match l with
  | [] => ret total
  | a :: l => x <- get_slab a ;; inuse_loop l objsize (u32 (total + inuse x * objsize))
  end.

Fixpoint allocated_loop (n : nat) (i total : Z) : M state Z :=
  match n with
  | O => ret total
  | S n =>
      c <- get_cache i ;;
      let total := fold_left (fun t _ => u32 (t + num c * objsize c)) (slabs_full c) total in
      total <- inuse_loop (slabs_notfull c) (objsize c) total ;;
      allocated_loop n (i + 1) total
  end.

Definition slab_allocated : M state Z := allocated_loop (Z.to_nat SLAB_CACHE_NUM) 0 0.

End Slab.
