(* ===== verification/SlabInv.v ===== *)
(** * Slab allocator: every object is its own

    [inv s B U P]: the slabs in use are [B], each with its cache, its first page and the
    chain of its free objects; [U] are the objects handed out, and the pages [P] are
    free or belong to exactly one slab.  [kmalloc] and [kfree] act on [U] as on a set. *)

From S2P Require Import Prelude Vmm Slab.
Open Scope Z_scope.

Module SlabInv.
Import Slab.

(** The slabs: cache, first page, free objects. *)
Abbreviation slabmap := (gmap Z (Z * Z * list Z)).

Section Slabs.
(** The sizes of the caches, which do not change after [slab_init]; the lists of [G i]
    are not used. *)
Context (G : Z -> kmem_cache).

Definition npages (i : Z) : Z := Z.shiftl 1 (page_order (G i)).
Definition is_cache (i : Z) : Prop := 0 <= i < SLAB_CACHE_NUM.

(** Objects fit into the pages of a slab, behind the control area when it is there. *)
Record geometry : Prop := {
  g_size : forall i, is_cache i -> 0 < objsize (G i) /\ 0 < num (G i) < 2 ^ 31 /\ 0 <= page_order (G i) /\ 0 <= c_offset (G i);
  g_fit : forall i, is_cache i -> c_offset (G i) + num (G i) * objsize (G i) <= npages i * PGSIZE;
  g_on : forall i, is_cache i -> off_slab (G i) = false -> sizeof_slab_t + num (G i) * sizeof_bufctl <= c_offset (G i);
  g_off : forall i, is_cache i -> off_slab (G i) = true ->
    is_cache (slab_cachep (G i)) /\ off_slab (G (slab_cachep (G i))) = false /\
    sizeof_slab_t + num (G i) * sizeof_bufctl <= objsize (G (slab_cachep (G i)))
}.

Definition obj (i b j : Z) : Z := page2kva b + c_offset (G i) + j * objsize (G i).

(** [a] is an object of cache [i] that is not free. *)
Definition allocated (B : slabmap) (i a : Z) : Prop :=
  exists sp b fl j, B !! sp = Some (i, b, fl) /\ 0 <= j < num (G i) /\ (j ∉ fl) /\ a = obj i b j.

(** [a] is the control area of a slab, allocated from another cache. *)
Definition control (B : slabmap) (a : Z) : Prop :=
  exists i b fl, B !! a = Some (i, b, fl) /\ off_slab (G i) = true.

Definition in_block (i b q : Z) : Prop := b <= q < b + npages i.

(** The chain of free objects in the control area. *)
Fixpoint chain (bufctl : gmap Z Z) (f : Z) (fl : list Z) : Prop :=
  match fl with
  | [] => f = BUFCTL_END
  | j :: fl => f = j /\ exists next, bufctl !! j = Some next /\ chain bufctl next fl
  end.

Record slab_ok (i b : Z) (fl : list Z) (x : slab_t) : Prop := {
  k_mem : s_mem x = page2kva b + c_offset (G i);
  k_offset : s_offset x = c_offset (G i);
  k_inuse : inuse x = num (G i) - Z.of_nat (length fl);
  k_nodup : NoDup fl;
  k_range : forall j, j ∈ fl -> 0 <= j < num (G i);
  k_chain : chain (slab_bufctl x) (s_free x) fl
}.

(** [E]: the slabs that may be without an object in use. *)
Record inv (s : state) (B : slabmap) (U E P : gset Z) : Prop := {
  i_npage : 0 <= npage s /\ npage s * PGSIZE + KERNBASE <= 2 ^ 32;
  i_cache : forall i, is_cache i -> exists full notfull,
    slab_cache s !! i = Some (set_lists full notfull (G i)) /\ NoDup (full ++ notfull) /\
    (forall sp, sp ∈ full <-> exists b, B !! sp = Some (i, b, [])) /\
    (forall sp, sp ∈ notfull <-> exists b j fl, B !! sp = Some (i, b, j :: fl));
  i_slab : forall sp i b fl, B !! sp = Some (i, b, fl) -> is_cache i /\ sp <> 0 /\
    (exists x, slabs s !! sp = Some x /\ slab_ok i b fl x) /\ (off_slab (G i) = false -> sp = page2kva b) /\
    (sp ∉ E -> Z.of_nat (length fl) < num (G i));
  i_page : forall sp i b fl q, B !! sp = Some (i, b, fl) -> in_block i b q ->
    pages s !! q = Some (mk_page true i sp) /\ (q ∉ free s) /\ 0 <= q < npage s;
  i_free : forall q, q ∈ free s -> 0 <= q < npage s /\ is_Some (pages s !! q);
  i_used : forall a, (exists i, allocated B i a) <-> a ∈ U \/ control B a;
  i_apart : forall a, a ∈ U -> ~ control B a;
  i_control : forall sp i b fl, B !! sp = Some (i, b, fl) -> off_slab (G i) = true -> allocated B (slab_cachep (G i)) sp;
  i_total : forall q, q ∈ P <-> q ∈ free s \/ exists sp i b fl, B !! sp = Some (i, b, fl) /\ in_block i b q
}.

Hypothesis HG : geometry.

Lemma npages_pos i : is_cache i -> 0 < npages i.
Proof using HG.
  intros Hi. unfold npages. destruct (g_size HG i Hi) as (_ & _ & Ho & _).
  rewrite Z.shiftl_mul_pow2 by done. pose proof (Z.pow_pos_nonneg 2 (page_order (G i))). lia.
Qed.

(** An object lies in the pages of its slab. *)
Lemma obj_page i b j x : is_cache i -> 0 <= j < num (G i) -> 0 <= x < objsize (G i) ->
  let a := obj i b j + x in
  page2kva b <= a < page2kva b + npages i * PGSIZE /\ in_block i b ((a - KERNBASE) / PGSIZE).
Proof using HG.
  intros Hi Hj Hx a. destruct (g_size HG i Hi) as (H1 & H2 & H3 & H4). pose proof (g_fit HG i Hi) as Hf.
  assert (page2kva b <= a < page2kva b + npages i * PGSIZE).
  { unfold a, obj. assert (j * objsize (G i) + objsize (G i) <= num (G i) * objsize (G i)) by nia. nia. }
  split; [done|]. unfold in_block. unfold page2kva, PGSIZE, Vmm.PGSIZE in *.
  split; [apply Z.div_le_lower_bound; lia|apply Z.div_lt_upper_bound; lia].
Qed.

(** Two slabs share no page. *)
Lemma blocks_apart s B U E P sp i b fl sp' i' b' fl' q :
  inv s B U E P -> B !! sp = Some (i, b, fl) -> B !! sp' = Some (i', b', fl') ->
  in_block i b q -> in_block i' b' q -> sp = sp'.
Proof using Type.
  intros Hinv H H' Hq Hq'. destruct (i_page _ _ _ _ _ Hinv sp i b fl q H Hq) as [E1 _].
  destruct (i_page _ _ _ _ _ Hinv sp' i' b' fl' q H' Hq') as [E2 _]. congruence.
Qed.

(** An object determines its slab and its index. *)
Lemma obj_inj s B U E P sp i b fl j x sp' i' b' fl' j' x' :
  inv s B U E P -> B !! sp = Some (i, b, fl) -> B !! sp' = Some (i', b', fl') ->
  0 <= j < num (G i) -> 0 <= j' < num (G i') -> 0 <= x < objsize (G i) -> 0 <= x' < objsize (G i') ->
  obj i b j + x = obj i' b' j' + x' -> sp = sp' /\ i = i' /\ j = j' /\ x = x'.
Proof using HG.
  intros Hinv H H' Hj Hj' Hx Hx' Heq.
  destruct (i_slab _ _ _ _ _ Hinv sp i b fl H) as (Hi & _). destruct (i_slab _ _ _ _ _ Hinv sp' i' b' fl' H') as (Hi' & _).
  destruct (obj_page i b j x Hi Hj Hx) as [_ Hq]. destruct (obj_page i' b' j' x' Hi' Hj' Hx') as [_ Hq'].
  rewrite Heq in Hq. assert (sp = sp') as <- by (by apply (blocks_apart s B U E P _ i b fl _ i' b' fl' ((obj i' b' j' + x' - KERNBASE) / PGSIZE))).
  rewrite H in H'. injection H' as <- <- <-. do 2 (split; [done|]). unfold obj in Heq.
  assert (j * objsize (G i) + x = j' * objsize (G i) + x') by lia.
  assert (j = j') as -> by nia. split; [done|lia].
Qed.

(** The lists of a cache hold its slabs. *)
Definition lists_ok (B : slabmap) (i : Z) (full notfull : list Z) : Prop :=
  NoDup (full ++ notfull) /\ (forall sp, sp ∈ full <-> exists b, B !! sp = Some (i, b, [])) /\
  (forall sp, sp ∈ notfull <-> exists b j fl, B !! sp = Some (i, b, j :: fl)).

Lemma elem_unlink (x y : Z) l : y ∈ List.remove Z.eq_dec x l <-> y ∈ l /\ y <> x.
Proof using Type.
  induction l as [|z l IH]; cbn.
  - split; [by intros ?%not_elem_of_nil|]. intros [?%not_elem_of_nil _]. done.
  - destruct (Z.eq_dec x z) as [->|Hne]; rewrite ?elem_of_cons, IH; naive_solver.
Qed.

Lemma nodup_unlink (x : Z) l : NoDup l -> NoDup (List.remove Z.eq_dec x l).
Proof using Type.
  induction 1 as [|z l Hz Hnd IH]; cbn; [constructor|].
  destruct (Z.eq_dec x z); [done|]. constructor; [|done]. rewrite elem_unlink. tauto.
Qed.

(** A slab of the cache gets another chain: it is on the list the chain says. *)
Lemma lists_chain B i full notfull sp b fl fl' full' notfull' :
  lists_ok B i full notfull -> B !! sp = Some (i, b, fl) ->
  full' = (if decide (fl' = []) then sp :: List.remove Z.eq_dec sp full else List.remove Z.eq_dec sp full) ->
  notfull' = (if decide (fl' = []) then List.remove Z.eq_dec sp notfull else sp :: List.remove Z.eq_dec sp notfull) ->
  lists_ok (<[sp := (i, b, fl')]> B) i full' notfull'.
Proof using Type.
  intros (Hnd & Hf & Hn) HB -> ->. apply NoDup_app in Hnd as (Hnf & Hdis & Hnn).
  assert (Hfull : forall sp', sp' <> sp -> (exists b0, <[sp := (i, b, fl')]> B !! sp' = Some (i, b0, [])) <-> sp' ∈ full).
  { intros sp' Hne. rewrite Hf. by setoid_rewrite lookup_insert_ne; [|done]. }
  assert (Hnot : forall sp', sp' <> sp -> (exists b0 j fl0, <[sp := (i, b, fl')]> B !! sp' = Some (i, b0, j :: fl0)) <-> sp' ∈ notfull).
  { intros sp' Hne. rewrite Hn. by setoid_rewrite lookup_insert_ne; [|done]. }
  assert (Hsp : forall l, (exists b0, <[sp := (i, b, fl')]> B !! sp = Some (i, b0, l)) <-> fl' = l).
  { intros l. setoid_rewrite lookup_insert_eq. split; [by intros [b0 [= -> ->]]|intros ->; by exists b]. }
  destruct (decide (fl' = [])) as [->|Hfl].
  - split_and!.
    + apply NoDup_cons. rewrite elem_of_app, !elem_unlink. split; [tauto|]. apply NoDup_app.
      split_and!; [by apply nodup_unlink| |by apply nodup_unlink]. intros y [Hy _]%elem_unlink [Hy' _]%elem_unlink.
      by apply (Hdis y).
    + intros sp'. rewrite elem_of_cons, elem_unlink. destruct (decide (sp' = sp)) as [->|Hne].
      * rewrite Hsp. tauto.
      * rewrite Hfull by done. tauto.
    + intros sp'. rewrite elem_unlink. destruct (decide (sp' = sp)) as [->|Hne].
      * rewrite lookup_insert_eq. split; [tauto|]. by intros (? & ? & ? & ?).
      * rewrite Hnot by done. tauto.
  - split_and!.
    + apply NoDup_app. split_and!; [by apply nodup_unlink| |].
      * intros y [Hy Hne]%elem_unlink [->|[Hy' _]%elem_unlink]%elem_of_cons; [done|]. by apply (Hdis y).
      * apply NoDup_cons. rewrite elem_unlink. split; [tauto|]. by apply nodup_unlink.
    + intros sp'. rewrite elem_unlink. destruct (decide (sp' = sp)) as [->|Hne].
      * rewrite Hsp. tauto.
      * rewrite Hfull by done. tauto.
    + intros sp'. rewrite elem_of_cons, elem_unlink. destruct (decide (sp' = sp)) as [->|Hne].
      * split; [|by left]. intros _. destruct fl' as [|j fl0]; [done|]. exists b, j, fl0. by rewrite lookup_insert_eq.
      * rewrite Hnot by done. tauto.
Qed.

(** The same when the slab stays on its list. *)
Lemma lists_stay B i full notfull sp b j fl j' fl' :
  lists_ok B i full notfull -> B !! sp = Some (i, b, j :: fl) -> lists_ok (<[sp := (i, b, j' :: fl')]> B) i full notfull.
Proof using Type.
  intros (Hnd & Hf & Hn) HB. split_and!; [done|..]; intros sp'; destruct (decide (sp = sp')) as [<-|Hne].
  - rewrite Hf, HB, lookup_insert_eq. split; intros [b0 H]; congruence.
  - rewrite lookup_insert_ne by done. apply Hf.
  - rewrite Hn, HB, lookup_insert_eq. split; intros _; eauto.
  - rewrite lookup_insert_ne by done. apply Hn.
Qed.

(** Another cache does not notice. *)
Lemma lists_other B i i0 full notfull sp b fl fl' :
  lists_ok B i0 full notfull -> B !! sp = Some (i, b, fl) -> i0 <> i -> lists_ok (<[sp := (i, b, fl')]> B) i0 full notfull.
Proof using Type.
  intros (Hnd & Hf & Hn) HB Hi. split_and!; [done|..]; intros sp'; destruct (decide (sp = sp')) as [<-|Hne].
  - rewrite Hf, HB, lookup_insert_eq. split; intros [b0 H]; congruence.
  - rewrite lookup_insert_ne by done. apply Hf.
  - rewrite Hn, HB, lookup_insert_eq. split; intros (b0 & ? & ? & H); congruence.
  - rewrite lookup_insert_ne by done. apply Hn.
Qed.

Lemma control_chain B sp i b fl fl' a :
  B !! sp = Some (i, b, fl) -> control (<[sp := (i, b, fl')]> B) a <-> control B a.
Proof using Type.
  intros HB. unfold control. destruct (decide (sp = a)) as [<-|Hne].
  - rewrite lookup_insert_eq, HB. split; intros (i0 & b0 & fl0 & [= <- <- <-] & Ho); eauto.
  - by rewrite lookup_insert_ne.
Qed.

Lemma inv_chain s s' B U U' E E' P sp i b fl fl' x' full full' notfull notfull' :
  inv s B U E P -> B !! sp = Some (i, b, fl) -> slab_ok i b fl' x' ->
  slab_cache s !! i = Some (set_lists full notfull (G i)) ->
  slabs s' = <[sp := x']> (slabs s) -> pages s' = pages s -> npage s' = npage s -> free s' = free s ->
  slab_cache s' = <[i := set_lists full' notfull' (G i)]> (slab_cache s) ->
  lists_ok (<[sp := (i, b, fl')]> B) i full' notfull' ->
  (sp ∉ E' -> Z.of_nat (length fl') < num (G i)) -> (forall q, q ∉ E' -> q ∉ E \/ q = sp) ->
  (forall i' a, allocated (<[sp := (i, b, fl')]> B) i' a -> a ∈ U' \/ control B a) ->
  (forall a, a ∈ U' -> exists i', allocated (<[sp := (i, b, fl')]> B) i' a) ->
  (forall sp' i' b' fl0, B !! sp' = Some (i', b', fl0) -> off_slab (G i') = true ->
     allocated (<[sp := (i, b, fl')]> B) (slab_cachep (G i')) sp') ->
  (forall a, a ∈ U' -> ~ control B a) ->
  inv s' (<[sp := (i, b, fl')]> B) U' E' P.
Proof using HG.
  intros Hinv HB Hx' Hc0 Hsl Hpg Hnp Hfr Hca Hlists Hlen HE Hal1 Hal2 Hctl Hap.
  pose proof Hinv as [H1 H2 H3 H4 H5 H6 H7 H8 H9].
  assert (Hcases : forall sp' i' b' fl0, <[sp := (i, b, fl')]> B !! sp' = Some (i', b', fl0) ->
    (sp' = sp /\ i' = i /\ b' = b /\ fl0 = fl') \/ (sp' <> sp /\ B !! sp' = Some (i', b', fl0))).
  { intros sp' i' b' fl0 [[<- [= -> -> ->]]|[Hne H]]%lookup_insert_Some; [by left|right; done]. }
  split; rewrite ?Hpg, ?Hnp, ?Hfr; try done.
  - intros i0 Hi0. rewrite Hca. destruct (decide (i0 = i)) as [->|Hne].
    + exists full', notfull'. by rewrite lookup_insert_eq.
    + destruct (H2 i0 Hi0) as (f0 & n0 & Hc & Hl). exists f0, n0. rewrite lookup_insert_ne by done. split; [done|].
      by apply (lists_other B i i0 f0 n0 sp b fl).
  - intros sp' i' b' fl0 H. rewrite Hsl. apply Hcases in H as [(-> & -> & -> & ->)|[Hne H]].
    + destruct (H3 sp i b fl HB) as (? & ? & _ & ? & _). split_and!; try done. exists x'. by rewrite lookup_insert_eq.
    + destruct (H3 sp' i' b' fl0 H) as (? & ? & (x & Hx & Hok) & ? & Hlt). split_and!; try done.
      * exists x. by rewrite lookup_insert_ne.
      * intros HE'. apply Hlt. destruct (HE sp' HE') as [|]; done.
  - intros sp' i' b' fl0 q H Hq. apply Hcases in H as [(-> & -> & -> & ->)|[Hne H]]; [by apply (H4 sp i b fl)|by apply (H4 sp' i' b' fl0)].
  - intros a. rewrite (control_chain B sp i b fl fl' a HB). split; [intros [i' Ha]; by apply (Hal1 i')|].
    intros [Ha|(i' & b' & fl0 & Ha & Ho)]; [by apply Hal2|]. eexists. by apply (Hctl a i' b' fl0).
  - intros a Ha. rewrite (control_chain B sp i b fl fl' a HB). by apply Hap.
  - intros sp' i' b' fl0 H Ho. apply Hcases in H as [(-> & -> & -> & ->)|[Hne H]]; [by apply (Hctl sp i b fl)|by apply (Hctl sp' i' b' fl0)].
  - intros q. rewrite H9. split; (intros [|(sp' & i' & b' & fl0 & H & Hq)]; [by left|right]).
    + destruct (decide (sp = sp')) as [<-|Hne].
      * rewrite HB in H. injection H as <- <- <-. exists sp, i, b, fl'. by rewrite lookup_insert_eq.
      * exists sp', i', b', fl0. by rewrite lookup_insert_ne.
    + apply Hcases in H as [(-> & -> & -> & ->)|[Hne H]]; [by exists sp, i, b, fl|by exists sp', i', b', fl0].
Qed.

(** ** Taking an object *)

Lemma range_length n (l : list Z) : 0 <= n -> NoDup l -> (forall j, j ∈ l -> 0 <= j < n) -> Z.of_nat (length l) <= n.
Proof using Type.
  intros Hn Hnd Hr. assert (Hs : l ⊆+ seqZ 0 n) by (apply NoDup_submseteq; [done|]; intros j Hj; apply elem_of_seqZ; specialize (Hr j Hj); lia).
  apply submseteq_length in Hs. rewrite length_seqZ in Hs. lia.
Qed.

Lemma allocated_take B sp i b j fl i' a :
  B !! sp = Some (i, b, j :: fl) -> NoDup (j :: fl) -> 0 <= j < num (G i) ->
  allocated (<[sp := (i, b, fl)]> B) i' a <-> allocated B i' a \/ (i' = i /\ a = obj i b j).
Proof using Type.
  intros HB [Hj _]%NoDup_cons Hr. split.
  - intros (sp' & b' & fl' & j' & H & Hj' & Hn & ->). apply lookup_insert_Some in H as [[<- [= <- <- <-]]|[Hne H]].
    + destruct (decide (j' = j)) as [->|]; [by right|left]. exists sp, b, (j :: fl), j'. split_and!; try done; [lia..|].
      by intros [?|?]%elem_of_cons.
    + left. by exists sp', b', fl', j'.
  - intros [(sp' & b' & fl' & j' & H & Hj' & Hn & ->)|[-> ->]].
    + destruct (decide (sp = sp')) as [<-|Hne].
      * rewrite HB in H. injection H as <- <- <-. exists sp, b, fl, j'. rewrite lookup_insert_eq. split_and!; try done; [lia..|].
        intros ?. apply Hn. by right.
      * exists sp', b', fl', j'. by rewrite lookup_insert_ne.
    + exists sp, b, fl, j. by rewrite lookup_insert_eq.
Qed.

(** Addresses of a slab in use do not wrap. *)
Lemma slab_addr s B U E P sp i b fl a :
  inv s B U E P -> B !! sp = Some (i, b, fl) -> page2kva b <= a < page2kva b + npages i * PGSIZE ->
  is_u32 a /\ KERNBASE <= a /\ 0 <= b.
Proof using HG.
  intros Hinv HB Ha. destruct (i_slab _ _ _ _ _ Hinv sp i b fl HB) as (Hi & _). pose proof (npages_pos i Hi) as Hn.
  destruct (i_page _ _ _ _ _ Hinv sp i b fl b HB) as (_ & _ & Hb); [unfold in_block; lia|].
  destruct (i_page _ _ _ _ _ Hinv sp i b fl (b + npages i - 1) HB) as (_ & _ & Hl); [unfold in_block; lia|].
  destruct (i_npage _ _ _ _ _ Hinv) as [_ Hmax]. unfold is_u32, page2kva, PGSIZE, Vmm.PGSIZE in *.
  assert (0 <= KERNBASE) by done. lia.
Qed.

Lemma get_cache_run s i c : slab_cache s !! i = Some c -> get_cache i s = Ret (c, s).
Proof using Type. intros H. unfold get_cache. rewrite bind_get. by rewrite H. Qed.
Lemma get_slab_run s a x : slabs s !! a = Some x -> get_slab a s = Ret (x, s).
Proof using Type. intros H. unfold get_slab. rewrite bind_get. by rewrite H. Qed.
Lemma get_page_run s p x : pages s !! p = Some x -> get_page p s = Ret (x, s).
Proof using Type. intros H. unfold get_page. rewrite bind_get. by rewrite H. Qed.

Lemma alloc_one_run s B U E P i full sp notfull :
  inv s B U E P -> slab_cache s !! i = Some (set_lists full (sp :: notfull) (G i)) -> lists_ok B i full (sp :: notfull) ->
  exists b j fl s', B !! sp = Some (i, b, j :: fl) /\ kmem_cache_alloc_one i sp s = Ret (obj i b j, s') /\
    (obj i b j ∉ U) /\ allocated (<[sp := (i, b, fl)]> B) i (obj i b j) /\
    inv s' (<[sp := (i, b, fl)]> B) ({[obj i b j]} ∪ U) (E ∖ {[sp]}) P.
Proof using HG.
  intros Hinv Hc Hl. pose proof Hl as (_ & _ & Hn). destruct (proj1 (Hn sp)) as (b & j & fl & HB); [left|].
  destruct (i_slab _ _ _ _ _ Hinv sp i b _ HB) as (Hi & Hsp0 & (x & Hx & [K1 K2 K3 K4 K5 K6]) & Hon & _).
  assert (Hj : 0 <= j < num (G i)) by (apply K5; left). destruct (g_size HG i Hi) as (G1 & G2 & G3 & G4).
  destruct K6 as (Hfree & next & Hnext & Hchain).
  assert (Hdone : next = BUFCTL_END <-> fl = []).
  { destruct fl as [|j' fl]; cbn in Hchain; [done|]. destruct Hchain as [-> _]. split; [|done].
    assert (0 <= j' < num (G i)) by (apply K5; right; left). unfold BUFCTL_END. lia. }
  set (x' := mk_slab (s_mem x) (inuse x + 1) (s_offset x) next (slab_bufctl x)).
  assert (Hx' : slab_ok i b fl x').
  { apply NoDup_cons in K4 as [_ K4]. split; cbn; try done; [rewrite K3; cbn [length]; lia|]. intros q Hq. apply K5. by right. }
  pose proof (allocated_take B sp i b j fl) as Htake.
  assert (Hnew : ~ exists i', allocated B i' (obj i b j)).
  { intros (i' & sp' & b' & fl' & j' & H' & Hj' & Hn' & Heq).
    destruct (i_slab _ _ _ _ _ Hinv sp' i' b' fl' H') as (Hi' & _). destruct (g_size HG i' Hi') as (G1' & _).
    destruct (obj_inj s B U E P sp i b (j :: fl) j 0 sp' i' b' fl' j' 0) as (<- & <- & <- & _); try done; [lia..|].
    rewrite HB in H'. injection H' as <- <-. apply Hn'. left. }
  exists b, j, fl. unfold kmem_cache_alloc_one. rewrite (bind_step _ _ _ _ _ (get_cache_run s i _ Hc)).
  rewrite (bind_step _ _ _ _ _ (get_slab_run s sp x Hx)), Hfree, Hnext. unfold deref. rewrite bind_ret.
  unfold set_slab at 1. rewrite bind_modify. cbn [objsize set_lists slabs_full slabs_notfull].
  assert (Haddr : u32 (s_mem x + j * objsize (G i)) = obj i b j).
  { rewrite u32_small; [by rewrite K1|]. rewrite K1. fold (obj i b j). apply (slab_addr s B U E P sp i b (j :: fl)); try done.
    rewrite <- (Z.add_0_r (obj i b j)). by apply obj_page. }
  rewrite Haddr. fold x'. set (s1 := upd_slabs <[sp := x']> s).
  set (full' := if decide (fl = []) then sp :: List.remove Z.eq_dec sp full else full).
  set (notfull' := if decide (fl = []) then List.remove Z.eq_dec sp (sp :: notfull) else sp :: notfull).
  set (s2 := upd_caches <[i := set_lists full' notfull' (G i)]> s1).
  assert (Hrun : (if next =? BUFCTL_END then
      set_cache i (set_lists (sp :: List.remove Z.eq_dec sp full) (List.remove Z.eq_dec sp (sp :: notfull)) (set_lists full (sp :: notfull) (G i)))
      else ret tt) s1 = Ret (tt, s2)).
  { unfold s2, full', notfull'. destruct (Z.eqb_spec next BUFCTL_END) as [He|He].
    - rewrite !decide_True by (by apply Hdone). done.
    - rewrite !decide_False by (by rewrite <- Hdone). unfold upd_caches, ret. rewrite insert_id by done. done. }
  exists s2. split; [done|]. split; [by rewrite (bind_step _ _ _ _ _ Hrun)|].
  split; [intros HU; apply Hnew, (i_used _ _ _ _ _ Hinv); by left|].
  split; [apply Htake; [done..|by right]|].
  apply (inv_chain s s2 B U _ E _ P sp i b (j :: fl) fl x' full full' (sp :: notfull) notfull'); try done.
  - unfold full', notfull'. destruct (decide (fl = [])) as [->|Hfl].
    + apply (lists_chain B i full (sp :: notfull) sp b [j] []); done.
    + destruct fl as [|j' fl]; [done|]. by apply (lists_stay B i full (sp :: notfull) sp b j (j' :: fl)).
  - intros _. pose proof (k_inuse _ _ _ _ Hx') as Hin. cbn in Hin. cbn [length] in K3.
    assert (Z.of_nat (length (j :: fl)) <= num (G i)); [|cbn [length] in *; lia].
    apply (range_length (num (G i))); [lia|done|done].
  - intros q Hq. destruct (decide (q = sp)) as [->|Hne]; [by right|left].
    intros HE. apply Hq, elem_of_difference. by rewrite elem_of_singleton.
  - intros i' a Ha. apply Htake in Ha as [Ha|[-> ->]]; [|left; set_solver|done..].
    destruct (proj1 (i_used _ _ _ _ _ Hinv a)) as [HU|Hct]; [by exists i'|left; set_solver|by right].
  - intros a [->%elem_of_singleton|HU]%elem_of_union.
    + exists i. apply Htake; [done..|]. by right.
    + destruct (proj2 (i_used _ _ _ _ _ Hinv a)) as [i' Ha]; [by left|]. exists i'. apply Htake; [done..|]. by left.
  - intros sp' i' b' fl0 H Ho. apply Htake; [done..|]. left. by apply (i_control _ _ _ _ _ Hinv sp' i' b' fl0).
  - intros a [->%elem_of_singleton|HU]%elem_of_union; [|by apply (i_apart _ _ _ _ _ Hinv)].
    intros Hct. apply Hnew. apply (i_used _ _ _ _ _ Hinv). by right.
Qed.

(** ** A new slab *)

Lemma mark_pages_run cachep slabp : forall n s p,
  (forall q, p <= q < p + Z.of_nat n -> is_Some (pages s !! q)) ->
  exists s', mark_pages n p cachep slabp s = Ret (tt, s') /\ slab_cache s' = slab_cache s /\ slabs s' = slabs s /\
    npage s' = npage s /\ free s' = free s /\
    forall q, pages s' !! q = if (p <=? q) && (q <? p + Z.of_nat n) then Some (mk_page true cachep slabp) else pages s !! q.
Proof using Type.
  induction n as [|n IH]; intros s p Hp; cbn [mark_pages].
  - exists s. split_and!; try done. intros q. destruct (Z.leb_spec p q), (Z.ltb_spec q (p + Z.of_nat 0)); try done. lia.
  - destruct (Hp p) as [x Hx]; [lia|]. rewrite (bind_step _ _ _ _ _ (get_page_run s p x Hx)).
    unfold set_page. rewrite bind_modify.
    destruct (IH (upd_pages <[p := mk_page true cachep slabp]> s) (p + 1)) as (s' & Hr & H1 & H2 & H3 & H4 & H5).
    { intros q Hq. cbn. rewrite lookup_insert_ne by lia. apply Hp. lia. }
    exists s'. split_and!; try done. intros q. rewrite H5. cbn.
    destruct (decide (p = q)) as [<-|Hne].
    + rewrite (proj2 (Z.leb_gt (p + 1) p)), lookup_insert_eq, (proj2 (Z.leb_le p p)), (proj2 (Z.ltb_lt p (p + Z.of_nat (S n)))) by lia. done.
    + rewrite lookup_insert_ne by done.
      destruct (Z.leb_spec (p + 1) q), (Z.leb_spec p q); try lia; cbn [andb]; try done.
      destruct (Z.ltb_spec q (p + 1 + Z.of_nat n)), (Z.ltb_spec q (p + Z.of_nat (S n))); try done; lia.
Qed.

Lemma in_blockset i b q : q ∈ block b (npages i) <-> in_block i b q.
Proof using Type. unfold block, in_block. rewrite elem_of_list_to_set, elem_of_seqZ. done. Qed.

(** The chain of a new slab. *)
Lemma chain_init n : 0 < n < 2 ^ 31 -> chain (bufctl_init n) 0 (seqZ 0 n).
Proof using Type.
  intros Hn. assert (H : forall k j, 0 <= j -> j + Z.of_nat k = n -> (k > 0)%nat -> chain (bufctl_init n) j (seqZ j (Z.of_nat k))).
  { induction k as [|k IH]; intros j Hj Hk Hpos; [lia|]. rewrite seqZ_cons by lia. cbn [chain]. split; [done|].
    unfold bufctl_init. destruct k as [|k].
    - assert (j = n - 1) as -> by lia. exists BUFCTL_END. rewrite lookup_insert_eq. split; [done|].
      by rewrite seqZ_nil by lia.
    - exists (j + 1). rewrite lookup_insert_ne by lia. split.
      + destruct (array n (fun i => i + 1) !! j) as [v|] eqn:Hv; [by apply array_lookup in Hv as [_ ->]|].
        exfalso. revert Hv. apply not_eq_None_Some. exists (j + 1). apply array_lookup. lia.
      + replace (Z.pred (Z.of_nat (S (S k)))) with (Z.of_nat (S k)) by lia. replace (Z.succ j) with (j + 1) by lia.
        apply IH; lia. }
  replace n with (Z.of_nat (Z.to_nat n)) at 2 by lia. apply H; lia.
Qed.

Lemma lists_new B i full notfull sp b j fl :
  lists_ok B i full notfull -> B !! sp = None -> lists_ok (<[sp := (i, b, j :: fl)]> B) i full (sp :: notfull).
Proof using Type.
  intros (Hnd & Hf & Hn) HB.
  assert (Hnew : (sp ∉ full) /\ sp ∉ notfull).
  { split; [rewrite Hf; intros [b0 H0]|rewrite Hn; intros (b0 & j0 & fl0 & H0)]; congruence. }
  destruct Hnew as [Hn1 Hn2]. apply NoDup_app in Hnd as (Hnd1 & Hdis & Hnd2). split_and!.
  - apply NoDup_app. split_and!; [done| |by constructor]. intros y Hy [->|Hy']%elem_of_cons; [done|]. by apply (Hdis y).
  - intros sp'. destruct (decide (sp = sp')) as [<-|Hne].
    + rewrite lookup_insert_eq. split; [done|]. by intros [b0 H0].
    + rewrite lookup_insert_ne by done. apply Hf.
  - intros sp'. rewrite elem_of_cons. destruct (decide (sp = sp')) as [<-|Hne].
    + rewrite lookup_insert_eq. split; [eauto|by left].
    + rewrite lookup_insert_ne by done. rewrite Hn. split; [intros [?|?]; [done|done]|by right].
Qed.

Lemma lists_new_other B i i0 full notfull sp b fl :
  lists_ok B i0 full notfull -> B !! sp = None -> i0 <> i -> lists_ok (<[sp := (i, b, fl)]> B) i0 full notfull.
Proof using Type.
  intros (Hnd & Hf & Hn) HB Hi. split_and!; [done|..]; intros sp'; destruct (decide (sp = sp')) as [<-|Hne].
  - rewrite Hf, HB, lookup_insert_eq. split; intros [b0 H]; congruence.
  - rewrite lookup_insert_ne by done. apply Hf.
  - rewrite Hn, HB, lookup_insert_eq. split; intros (b0 & ? & ? & H); congruence.
  - rewrite lookup_insert_ne by done. apply Hn.
Qed.

(** A slab without allocated objects. *)
Lemma allocated_new B sp i b i' a :
  B !! sp = None -> allocated (<[sp := (i, b, seqZ 0 (num (G i)))]> B) i' a <-> allocated B i' a.
Proof using Type.
  intros HB. split.
  - intros (sp' & b' & fl' & j' & H & Hj' & Hn & ->). apply lookup_insert_Some in H as [[<- [= <- <- <-]]|[Hne H]].
    + exfalso. apply Hn, elem_of_seqZ. lia.
    + by exists sp', b', fl', j'.
  - intros (sp' & b' & fl' & j' & H & Hj' & Hn & ->). exists sp', b', fl', j'. rewrite lookup_insert_ne; [done|].
    intros <-. congruence.
Qed.

Lemma add_slab s s' B U U' P i p sp x full notfull :
  inv s B U ∅ P -> is_cache i -> B !! sp = None -> sp <> 0 ->
  (forall q, in_block i p q -> (q ∉ P) /\ 0 <= q < npage s) ->
  (if off_slab (G i) then U = {[sp]} ∪ U' /\ (sp ∉ U') /\ allocated B (slab_cachep (G i)) sp else U' = U /\ sp = page2kva p) ->
  slab_ok i p (seqZ 0 (num (G i))) x -> lists_ok B i full notfull ->
  npage s' = npage s -> free s' = free s -> slabs s' = <[sp := x]> (slabs s) ->
  slab_cache s' = <[i := set_lists full (sp :: notfull) (G i)]> (slab_cache s) ->
  (forall q, in_block i p q -> pages s' !! q = Some (mk_page true i sp)) ->
  (forall q, ~ in_block i p q -> pages s' !! q = pages s !! q) ->
  inv s' (<[sp := (i, p, seqZ 0 (num (G i)))]> B) U' {[sp]} (P ∪ block p (npages i)).
Proof using HG.
  intros Hinv Hi HB Hsp0 Hblk Hmode Hx Hlists Hnp Hfr Hsl Hca Hpg1 Hpg2.
  pose proof Hinv as [H1 H2 H3 H4 H5 H6 H7 H8 H9]. destruct (g_size HG i Hi) as (_ & G2 & _).
  assert (Hout : forall sp' i' b' fl' q, B !! sp' = Some (i', b', fl') -> in_block i' b' q -> ~ in_block i p q).
  { intros sp' i' b' fl' q H Hq Hq'. destruct (Hblk q Hq') as [HP _]. apply HP, H9. right. by exists sp', i', b', fl'. }
  assert (Hcases : forall sp' i' b' fl0, <[sp := (i, p, seqZ 0 (num (G i)))]> B !! sp' = Some (i', b', fl0) ->
    (sp' = sp /\ i' = i /\ b' = p /\ fl0 = seqZ 0 (num (G i))) \/ (sp' <> sp /\ B !! sp' = Some (i', b', fl0))).
  { intros sp' i' b' fl0 [[<- [= -> -> ->]]|[Hne H]]%lookup_insert_Some; [by left|right; done]. }
  assert (Hctl : forall a, control (<[sp := (i, p, seqZ 0 (num (G i)))]> B) a <-> control B a \/ (a = sp /\ off_slab (G i) = true)).
  { intros a. unfold control. destruct (decide (sp = a)) as [<-|Hne].
    - rewrite lookup_insert_eq, HB. split; [intros (? & ? & ? & [= <- <- <-] & ?); by right|].
      intros [(? & ? & ? & ? & _)|[_ ?]]; [done|eauto].
    - rewrite lookup_insert_ne by done. split; [by left|]. intros [?|[? _]]; [done|congruence]. }
  split; rewrite ?Hnp, ?Hfr; try done.
  - intros i0 Hi0. rewrite Hca. destruct (decide (i0 = i)) as [->|Hne].
    + exists full, (sp :: notfull). rewrite lookup_insert_eq. split; [done|].
      rewrite seqZ_cons by lia. by apply lists_new.
    + destruct (H2 i0 Hi0) as (f0 & n0 & Hc & Hl). exists f0, n0. rewrite lookup_insert_ne by done. split; [done|].
      by apply lists_new_other.
  - intros sp' i' b' fl0 H. rewrite Hsl. apply Hcases in H as [(-> & -> & -> & ->)|[Hne H]].
    + split_and!; try done.
      * exists x. by rewrite lookup_insert_eq.
      * intros Ho. rewrite Ho in Hmode. by destruct Hmode.
      * intros HE. exfalso. apply HE. by apply elem_of_singleton.
    + destruct (H3 sp' i' b' fl0 H) as (? & ? & (x0 & Hx0 & Hok) & ? & Hlt). split_and!; try done.
      * exists x0. by rewrite lookup_insert_ne.
      * intros _. apply Hlt. apply not_elem_of_empty.
  - intros sp' i' b' fl0 q H Hq. apply Hcases in H as [(-> & -> & -> & ->)|[Hne H]].
    + rewrite Hpg1 by done. destruct (Hblk q Hq) as [HP Hr]. split_and!; [done| |lia..]. intros Hf. apply HP, H9. by left.
    + rewrite Hpg2 by (by apply (Hout sp' i' b' fl0)). by apply (H4 sp' i' b' fl0).
  - intros q Hq. destruct (H5 q Hq) as [? Hs]. split; [done|]. rewrite Hpg2; [done|]. intros Hq'.
    destruct (Hblk q Hq') as [HP _]. apply HP, H9. by left.
  - intros a. rewrite Hctl. setoid_rewrite (allocated_new B sp i p); [|done]. rewrite H6.
    destruct (off_slab (G i)).
    + destruct Hmode as (-> & _ & _). rewrite elem_of_union, elem_of_singleton. clear. intuition.
    + destruct Hmode as [-> _]. clear. intuition congruence.
  - intros a Ha. rewrite Hctl. intros [Hc|[-> Ho]].
    + apply (H7 a); [|done]. destruct (off_slab (G i)); [destruct Hmode as (-> & _); set_solver|by destruct Hmode as [-> _]].
    + rewrite Ho in Hmode. by destruct Hmode as (_ & ? & _).
  - intros sp' i' b' fl0 H Ho. apply allocated_new; [done|]. apply Hcases in H as [(-> & -> & -> & ->)|[Hne H]].
    + rewrite Ho in Hmode. by destruct Hmode as (_ & _ & ?).
    + by apply (H8 sp' i' b' fl0).
  - intros q. rewrite elem_of_union, in_blockset, H9. split.
    + intros [[?|(sp' & i' & b' & fl0 & H & Hq)]|Hq]; [by left|right..].
      * exists sp', i', b', fl0. rewrite lookup_insert_ne; [done|]. intros <-. congruence.
      * eexists sp, i, p, _. by rewrite lookup_insert_eq.
    + intros [?|(sp' & i' & b' & fl0 & H & Hq)]; [by left; left|].
      apply Hcases in H as [(-> & -> & -> & ->)|[Hne H]]; [by right|]. left. right. by exists sp', i', b', fl0.
Qed.

(** ** Growing a cache *)

Lemma alloc_pages_run s n :
  exists o s1, alloc_pages n s = Ret (o, s1) /\ slab_cache s1 = slab_cache s /\ slabs s1 = slabs s /\
    pages s1 = pages s /\ npage s1 = npage s /\
    match o with Some p => block p n ⊆ free s /\ free s1 = free s ∖ block p n | None => free s1 = free s end.
Proof using Type.
  unfold alloc_pages. rewrite bind_get. destruct (answers s) as [|[p|] l].
  - by exists None, s.
  - rewrite bind_modify. case_bool_decide.
    + rewrite bind_modify. eexists (Some p), _. split; [reflexivity|]. done.
    + eexists None, _. split; [reflexivity|]. done.
  - rewrite bind_modify. eexists None, _. split; [reflexivity|]. done.
Qed.

(** Pages leave the free pages, and come back. *)
Lemma inv_reserve s s1 B U E P bl :
  inv s B U E P -> bl ⊆ free s -> free s1 = free s ∖ bl -> slab_cache s1 = slab_cache s -> slabs s1 = slabs s ->
  pages s1 = pages s -> npage s1 = npage s -> inv s1 B U E (P ∖ bl).
Proof using Type.
  intros [H1 H2 H3 H4 H5 H6 H7 H8 H9] Hbl Hf Hc Hs Hp Hn. split; rewrite ?Hf, ?Hc, ?Hs, ?Hp, ?Hn; try done.
  - intros sp i b fl q HB Hq. destruct (H4 sp i b fl q HB Hq) as (? & ? & ?). split_and!; [done| |lia..].
    rewrite elem_of_difference. tauto.
  - intros q [Hq _]%elem_of_difference. by apply H5.
  - intros q. rewrite !elem_of_difference, H9. split; [tauto|]. intros [?|(sp & i & b & fl & HB & Hq)]; [tauto|].
    split; [right; by exists sp, i, b, fl|]. intros Hb. destruct (H4 sp i b fl q HB Hq) as (_ & Hnf & _). by apply Hnf, Hbl.
Qed.

Lemma inv_release s s1 B U E P bl :
  inv s B U E P -> (forall q, q ∈ bl -> (q ∉ P) /\ 0 <= q < npage s /\ is_Some (pages s !! q)) -> free s1 = bl ∪ free s ->
  slab_cache s1 = slab_cache s -> slabs s1 = slabs s -> pages s1 = pages s -> npage s1 = npage s -> inv s1 B U E (P ∪ bl).
Proof using Type.
  intros [H1 H2 H3 H4 H5 H6 H7 H8 H9] Hbl Hf Hc Hs Hp Hn. split; rewrite ?Hf, ?Hc, ?Hs, ?Hp, ?Hn; try done.
  - intros sp i b fl q HB Hq. destruct (H4 sp i b fl q HB Hq) as (? & ? & ?). split_and!; [done| |lia..].
    intros [Hb|?]%elem_of_union; [|done]. destruct (Hbl q Hb) as [HP _]. apply HP, H9. right. by exists sp, i, b, fl.
  - intros q [Hq|Hq]%elem_of_union; [by destruct (Hbl q Hq)|by apply H5].
  - intros q. rewrite !elem_of_union, H9. tauto.
Qed.

(** A control area that is an object handed out is not yet one of a slab. *)
Lemma object_fresh s B U E P a : inv s B U E P -> a ∈ U -> B !! a = None.
Proof using HG.
  intros Hinv Ha. destruct (B !! a) as [[[i b] fl]|] eqn:HB; [|done]. exfalso.
  destruct (i_slab _ _ _ _ _ Hinv a i b fl HB) as (Hi & _ & _ & Hon & _).
  destruct (off_slab (G i)) eqn:Ho; [apply (i_apart _ _ _ _ _ Hinv a Ha); by exists i, b, fl|].
  specialize (Hon eq_refl). destruct (proj2 (i_used _ _ _ _ _ Hinv a)) as (i' & sp' & b' & fl' & j & HB' & Hj & _ & Heq); [by left|].
  destruct (i_slab _ _ _ _ _ Hinv sp' i' b' fl' HB') as (Hi' & _ & _ & Hon' & _).
  destruct (g_size HG i' Hi') as (G1 & _ & _ & G4). destruct (obj_page i' b' j 0 Hi' Hj ltac:(lia)) as [_ Hq].
  rewrite Z.add_0_r, <- Heq, Hon in Hq. unfold page2kva in Hq at 1.
  replace ((b * PGSIZE + KERNBASE - KERNBASE) / PGSIZE) with b in Hq by (unfold PGSIZE, Vmm.PGSIZE; dlia).
  assert (a = sp') as <-.
  { apply (blocks_apart s B U E P _ i b fl _ i' b' fl' b); try done. pose proof (npages_pos i Hi). unfold in_block. lia. }
  rewrite HB in HB'. injection HB' as <- <- <-. pose proof (g_on HG i Hi Ho) as Hc. destruct (g_size HG i Hi) as (G1' & G2' & _).
  unfold obj, sizeof_slab_t, sizeof_bufctl in *. nia.
Qed.

(** The start of a block outside the slabs is not a control area. *)
Lemma block_fresh s B U E P p : inv s B U E P -> p ∉ P -> B !! page2kva p = None.
Proof using HG.
  intros Hinv HP. destruct (B !! page2kva p) as [[[i b] fl]|] eqn:HB; [|done]. exfalso. apply HP.
  apply (i_total _ _ _ _ _ Hinv). right. destruct (i_slab _ _ _ _ _ Hinv _ i b fl HB) as (Hi & _ & _ & Hon & _).
  destruct (off_slab (G i)) eqn:Ho.
  - destruct (i_control _ _ _ _ _ Hinv _ i b fl HB Ho) as (sp' & b' & fl' & j & HB' & Hj & _ & Heq).
    destruct (i_slab _ _ _ _ _ Hinv _ _ _ _ HB') as (Hi' & _). destruct (g_size HG _ Hi') as (G1 & _).
    destruct (obj_page _ b' j 0 Hi' Hj ltac:(lia)) as [_ Hq]. rewrite Z.add_0_r, <- Heq in Hq. unfold page2kva in Hq.
    replace ((p * PGSIZE + KERNBASE - KERNBASE) / PGSIZE) with p in Hq by (unfold PGSIZE, Vmm.PGSIZE; dlia).
    by eexists sp', _, b', fl'.
  - specialize (Hon eq_refl). unfold page2kva, PGSIZE, Vmm.PGSIZE in Hon. assert (b = p) as -> by lia.
    exists (page2kva p), i, p, fl. split; [done|]. pose proof (npages_pos i Hi). unfold in_block. lia.
Qed.

Definition pages_stay (s s' : state) : Prop :=
  npage s' = npage s /\ forall q, is_Some (pages s !! q) -> is_Some (pages s' !! q).

(** What an allocation of cache [i] does. *)
Definition alloc_spec (alloc : Z -> M state Z) (i : Z) : Prop := forall s B U P, inv s B U ∅ P ->
  exists a s' B', alloc i s = Ret (a, s') /\ pages_stay s s' /\
    (a = 0 /\ free s' = free s /\ inv s' B U ∅ P \/
     a <> 0 /\ (a ∉ U) /\ allocated B' i a /\ inv s' B' ({[a]} ∪ U) ∅ P).

Lemma cache_lists s B U E P i : inv s B U E P -> is_cache i ->
  exists full notfull, slab_cache s !! i = Some (set_lists full notfull (G i)) /\ lists_ok B i full notfull.
Proof using Type. intros Hinv Hi. by apply (i_cache _ _ _ _ _ Hinv). Qed.

Lemma mgmt_run alloc s B U P i p :
  is_cache i -> (off_slab (G i) = true -> alloc_spec alloc (slab_cachep (G i))) -> inv s B U ∅ P ->
  (forall q, in_block i p q -> (q ∉ P) /\ 0 <= q < npage s) ->
  exists sp s' s2 B' U2, kmem_cache_slabmgmt alloc i p s = Ret (sp, s') /\ pages_stay s s2 /\
    (sp = 0 /\ s' = s2 /\ free s2 = free s /\ inv s2 B U ∅ P \/
     sp <> 0 /\ s' = upd_slabs <[sp := mk_slab (page2kva p + c_offset (G i)) 0 (c_offset (G i)) 0 ∅]> s2 /\
     inv s2 B' U2 ∅ P /\ B' !! sp = None /\
     (if off_slab (G i) then U2 = {[sp]} ∪ U /\ (sp ∉ U) /\ allocated B' (slab_cachep (G i)) sp else U2 = U /\ sp = page2kva p)).
Proof using HG.
  intros Hi Halloc Hinv Hblk. destruct (cache_lists s B U ∅ P i Hinv Hi) as (full & notfull & Hc & _).
  pose proof (npages_pos i Hi) as Hnp. destruct (Hblk p) as [HpP Hpr]; [unfold in_block; lia|].
  unfold kmem_cache_slabmgmt. rewrite (bind_step _ _ _ _ _ (get_cache_run s i _ Hc)), bind_get.
  rewrite assert_true by (apply Z.ltb_lt; lia). cbn [off_slab set_lists c_offset slab_cachep].
  assert (Hstay : pages_stay s s) by done.
  destruct (off_slab (G i)) eqn:Ho.
  - destruct (Halloc eq_refl s B U P Hinv) as (a & s2 & B' & Hr & Hst & Hcase). rewrite (bind_step _ _ _ _ _ Hr).
    destruct (Z.eqb_spec a 0) as [->|Ha].
    + destruct Hcase as [(_ & Hf & Hi2)|[? _]]; [|done]. exists 0, s2, s2, B, U. split_and!; try done. by left.
    + destruct Hcase as [[? _]|(_ & HaU & Hal & Hi2)]; [done|].
      eexists a, _, s2, B', _. split; [reflexivity|]. split; [done|]. right. split_and!; try done.
      apply (object_fresh s2 B' ({[a]} ∪ U) ∅ P); [done|set_solver].
  - rewrite bind_ret. assert (Hkva : page2kva p <> 0) by (unfold page2kva, PGSIZE, Vmm.PGSIZE, KERNBASE, Vmm.KERNBASE; lia).
    rewrite (proj2 (Z.eqb_neq _ 0) Hkva). eexists (page2kva p), _, s, B, U. split; [reflexivity|]. split; [done|]. right.
    split_and!; try done. by apply (block_fresh s B U ∅ P).
Qed.

Lemma grow_run alloc s B U P i :
  is_cache i -> (off_slab (G i) = true -> alloc_spec alloc (slab_cachep (G i))) -> inv s B U ∅ P ->
  exists (r : bool) s' B' sp full notfull, kmem_cache_grow alloc i s = Ret (r, s') /\ pages_stay s s' /\
    if r then inv s' B' U {[sp]} P /\ slab_cache s' !! i = Some (set_lists full (sp :: notfull) (G i)) /\ lists_ok B' i full (sp :: notfull)
    else free s' = free s /\ inv s' B U ∅ P.
Proof using HG.
  intros Hi Halloc Hinv. destruct (cache_lists s B U ∅ P i Hinv Hi) as (full & notfull & Hc & _).
  unfold kmem_cache_grow. rewrite (bind_step _ _ _ _ _ (get_cache_run s i _ Hc)). cbn [page_order set_lists num]. fold (npages i).
  destruct (alloc_pages_run s (npages i)) as (o & s1 & Hr1 & Hc1 & Hs1 & Hp1 & Hn1 & Ho). rewrite (bind_step _ _ _ _ _ Hr1).
  destruct o as [p|].
  2:{ exists false, s1, B, 0, [], []. split; [done|]. split; [split; [done|by rewrite Hp1]|]. split; [done|].
      pose proof (inv_reserve s s1 B U ∅ P ∅ Hinv) as H. rewrite !difference_empty_L in H. by apply H. }
  destruct Ho as [Hbl Hf1]. pose proof (inv_reserve s s1 B U ∅ P _ Hinv Hbl Hf1 Hc1 Hs1 Hp1 Hn1) as Hinv1.
  assert (Hin : forall q, in_block i p q -> q ∈ free s) by (intros q Hq; apply Hbl; by apply in_blockset).
  assert (HblP : block p (npages i) ⊆ P) by (intros q Hq; apply (i_total _ _ _ _ _ Hinv); left; by apply Hbl).
  assert (Hblk : forall q, in_block i p q -> (q ∉ P ∖ block p (npages i)) /\ 0 <= q < npage s1).
  { intros q Hq. rewrite elem_of_difference, in_blockset. split; [tauto|]. rewrite Hn1. by apply (i_free _ _ _ _ _ Hinv), Hin. }
  assert (HP : P ∖ block p (npages i) ∪ block p (npages i) = P) by (rewrite union_comm_L; by rewrite <- union_difference_L).
  destruct (mgmt_run alloc s1 B U (P ∖ block p (npages i)) i p Hi Halloc Hinv1 Hblk)
    as (sp & s3 & s2 & B' & U2 & Hr2 & [Hn2 Hp2] & Hcase). rewrite (bind_step _ _ _ _ _ Hr2).
  assert (Hsome : forall q, in_block i p q -> is_Some (pages s2 !! q)).
  { intros q Hq. apply Hp2. rewrite Hp1. by apply (i_free _ _ _ _ _ Hinv), Hin. }
  destruct Hcase as [(-> & -> & Hf2 & Hinv2)|(Hsp & Hs3 & Hinv2 & HB' & Hmode)].
  - cbn [Z.eqb]. unfold free_pages. rewrite bind_modify.
    eexists false, _, B, 0, [], []. split; [reflexivity|]. split; [split; [cbn; congruence|]|split].
    + cbn. intros q Hq. apply Hp2. by rewrite Hp1.
    + cbn. rewrite Hf2, Hf1. by rewrite <- union_difference_L.
    + rewrite <- HP. apply (inv_release s2); try done. intros q Hq%in_blockset. destruct (Hblk q Hq) as [? ?].
      split_and!; [done|lia|rewrite Hn2; lia|by apply Hsome].
  - rewrite (proj2 (Z.eqb_neq sp 0) Hsp). pose proof (npages_pos i Hi) as Hnpos.
    destruct (mark_pages_run i sp (Z.to_nat (npages i)) s3 p) as (s4 & Hr4 & Hc4 & Hs4 & Hn4 & Hf4 & Hp4).
    { intros q Hq. rewrite Hs3. cbn. apply Hsome. unfold in_block. lia. }
    rewrite (bind_step _ _ _ _ _ Hr4).
    assert (Hx4 : slabs s4 !! sp = Some (mk_slab (page2kva p + c_offset (G i)) 0 (c_offset (G i)) 0 ∅)).
    { rewrite Hs4, Hs3. cbn. apply lookup_insert_eq. }
    rewrite (bind_step _ _ _ _ _ (get_slab_run s4 sp _ Hx4)). unfold set_slab. rewrite bind_modify.
    set (x := mk_slab _ _ _ _ _). set (s5 := upd_slabs <[sp := x]> s4).
    destruct (cache_lists s2 B' U2 ∅ _ i Hinv2 Hi) as (full2 & notfull2 & Hc2 & Hl2).
    assert (Hc5 : slab_cache s5 !! i = Some (set_lists full2 notfull2 (G i))) by (cbn; by rewrite Hc4, Hs3).
    rewrite (bind_step _ _ _ _ _ (get_cache_run s5 i _ Hc5)). unfold set_cache. rewrite bind_modify.
    set (s6 := upd_caches _ s5). destruct (g_size HG i Hi) as (G1 & G2 & G3 & G4).
    assert (Hpg : forall q, pages s6 !! q = if (p <=? q) && (q <? p + npages i) then Some (mk_page true i sp) else pages s2 !! q).
    { intros q. cbn. rewrite Hp4, Z2Nat.id by lia. by rewrite Hs3. }
    eexists true, s6, _, sp, full2, notfull2. split; [reflexivity|]. split; [split; [cbn; rewrite Hn4, Hs3; cbn; congruence|]|].
    { intros q Hq. rewrite Hpg. destruct (_ && _); [done|]. apply Hp2. by rewrite Hp1. }
    split.
    + rewrite <- HP. apply (add_slab s2 s6 B' U2 U _ i p sp x full2 notfull2); try done.
      * intros q Hq. rewrite Hn2. by apply Hblk.
      * destruct (off_slab (G i)); [done|]. destruct Hmode. done.
      * split; cbn; try done; [rewrite length_seqZ; lia|apply NoDup_seqZ|intros q ?%elem_of_seqZ; lia|by apply chain_init].
      * cbn. by rewrite Hn4, Hs3.
      * cbn. by rewrite Hf4, Hs3.
      * cbn. rewrite Hs4, Hs3. cbn. by rewrite insert_insert_eq.
      * cbn. by rewrite Hc4, Hs3.
      * intros q [Hq1 Hq2]. rewrite Hpg, (proj2 (Z.leb_le _ _)), (proj2 (Z.ltb_lt _ _)) by lia. done.
      * intros q Hq. rewrite Hpg. unfold in_block in Hq. destruct (Z.leb_spec p q), (Z.ltb_spec q (p + npages i)); try done. lia.
    + split; [cbn; by rewrite lookup_insert_eq|]. rewrite seqZ_cons by lia. by apply lists_new.
Qed.

(** One more level of [kmem_cache_alloc]. *)
Lemma alloc_level n i :
  is_cache i -> (off_slab (G i) = true -> alloc_spec (kmem_cache_alloc (S n)) (slab_cachep (G i))) ->
  alloc_spec (kmem_cache_alloc (S (S n))) i.
Proof using HG.
  intros Hi Hsub s B U P Hinv.
  assert (Hone : forall s0 B0 E0 full sp notfull, inv s0 B0 U E0 P -> E0 ⊆ {[sp]} -> pages_stay s s0 ->
    slab_cache s0 !! i = Some (set_lists full (sp :: notfull) (G i)) -> lists_ok B0 i full (sp :: notfull) ->
    exists a s' B', kmem_cache_alloc_one i sp s0 = Ret (a, s') /\ pages_stay s s' /\
      (a = 0 /\ free s' = free s /\ inv s' B U ∅ P \/ a <> 0 /\ (a ∉ U) /\ allocated B' i a /\ inv s' B' ({[a]} ∪ U) ∅ P)).
  { intros s0 B0 E0 full sp notfull Hinv0 HE [Hst1 Hst2] Hc Hl.
    destruct (alloc_one_run s0 B0 U E0 P i full sp notfull Hinv0 Hc Hl) as (b & j & fl & s' & HB & Hr & HnU & Hal & Hinv').
    assert (E0 ∖ {[sp]} = ∅) as HE0 by (clear - HE; set_solver). rewrite HE0 in Hinv'.
    exists (obj i b j), s', (<[sp := (i, b, fl)]> B0). split; [done|]. split.
    - revert Hr. unfold kmem_cache_alloc_one. rewrite (bind_step _ _ _ _ _ (get_cache_run s0 i _ Hc)).
      destruct (i_slab _ _ _ _ _ Hinv0 sp i b _ HB) as (_ & _ & (x & Hx & _) & _).
      rewrite (bind_step _ _ _ _ _ (get_slab_run s0 sp x Hx)). unfold deref. destruct (slab_bufctl x !! s_free x); [|done].
      rewrite bind_ret. unfold set_slab. rewrite bind_modify. destruct (_ =? BUFCTL_END); intros [= _ <-]; done.
    - right. split_and!; try done.
      assert (HB' : <[sp := (i, b, fl)]> B0 !! sp = Some (i, b, fl)) by apply lookup_insert_eq.
      destruct (i_slab _ _ _ _ _ Hinv0 sp i b _ HB) as (_ & _ & (x & _ & [_ _ _ _ K5 _]) & _).
      assert (Hj : 0 <= j < num (G i)) by (apply K5; left). destruct (g_size HG i Hi) as (G1 & _).
      destruct (obj_page i b j 0 Hi Hj ltac:(lia)) as [Ha _]. rewrite Z.add_0_r in Ha.
      destruct (slab_addr s' _ _ _ _ sp i b fl _ Hinv' HB' Ha) as (_ & Hk & _). unfold KERNBASE, Vmm.KERNBASE in Hk. lia. }
  cbn [kmem_cache_alloc]. destruct (cache_lists s B U ∅ P i Hinv Hi) as (full & notfull & Hc & Hl).
  rewrite (bind_step _ _ _ _ _ (get_cache_run s i _ Hc)). cbn [slabs_notfull set_lists].
  destruct notfull as [|sp notfull]; [|by apply (Hone s B ∅ full sp notfull)].
  destruct (grow_run (kmem_cache_alloc (S n)) s B U P i Hi Hsub Hinv) as (r & s1 & B1 & sp & full1 & notfull1 & Hr & Hst & Hcase).
  rewrite (bind_step _ _ _ _ _ Hr). destruct r.
  - destruct Hcase as (Hinv1 & Hc1 & Hl1). cbn [kmem_cache_alloc]. rewrite (bind_step _ _ _ _ _ (get_cache_run s1 i _ Hc1)).
    cbn [slabs_notfull set_lists]. by apply (Hone s1 B1 {[sp]} full1 sp notfull1).
  - destruct Hcase as [Hf Hinv1]. exists 0, s1, B. split; [done|]. split; [done|]. left. done.
Qed.

Lemma kmem_cache_alloc_ok n i : is_cache i -> alloc_spec (kmem_cache_alloc (S (S (S n)))) i.
Proof using HG.
  intros Hi. apply alloc_level; [done|]. intros Ho. destruct (g_off HG i Hi Ho) as (Hi' & Ho' & _).
  apply alloc_level; [done|]. congruence.
Qed.

(** ** Giving an object back *)

Lemma chain_frame bufctl j v : forall fl f, j ∉ fl -> chain bufctl f fl -> chain (<[j := v]> bufctl) f fl.
Proof using Type.
  induction fl as [|k fl IH]; intros f Hj H; [done|]. destruct H as (-> & next & Hn & H).
  split; [done|]. exists next. rewrite lookup_insert_ne by (intros ->; apply Hj; left).
  split; [done|]. apply IH; [|done]. intros ?. apply Hj. by right.
Qed.

Lemma range_full n (l : list Z) j :
  NoDup l -> (forall j, j ∈ l -> 0 <= j < n) -> Z.of_nat (length l) = n -> 0 <= j < n -> j ∈ l.
Proof using Type.
  intros Hnd Hr Hlen Hj.
  assert (Hp : l ≡ₚ seqZ 0 n).
  { apply submseteq_length_Permutation.
    - apply NoDup_submseteq; [done|]. intros k Hk. apply elem_of_seqZ. specialize (Hr k Hk). lia.
    - rewrite length_seqZ. lia. }
  rewrite Hp. apply elem_of_seqZ. lia.
Qed.

Lemma clear_pages_run : forall n s p,
  (forall q, p <= q < p + Z.of_nat n -> exists x, pages s !! q = Some x /\ PageSlab x = true) ->
  exists s', clear_pages n p s = Ret (tt, s') /\ slab_cache s' = slab_cache s /\ slabs s' = slabs s /\
    npage s' = npage s /\ free s' = free s /\ (forall q, is_Some (pages s !! q) -> is_Some (pages s' !! q)) /\
    forall q, ~ p <= q < p + Z.of_nat n -> pages s' !! q = pages s !! q.
Proof using Type.
  induction n as [|n IH]; intros s p Hp; cbn [clear_pages].
  - by exists s.
  - destruct (Hp p) as (x & Hx & Hs); [lia|]. rewrite (bind_step _ _ _ _ _ (get_page_run s p x Hx)).
    rewrite assert_true by done. unfold set_page. rewrite bind_modify.
    destruct (IH (upd_pages <[p := mk_page false (page_cache x) (page_slab x)]> s) (p + 1)) as (s' & Hr & H1 & H2 & H3 & H4 & H5 & H6).
    { intros q Hq. cbn. rewrite lookup_insert_ne by lia. apply Hp. lia. }
    exists s'. split_and!; try done.
    + intros q Hq. apply H5. cbn. destruct (decide (p = q)) as [<-|]; [by rewrite lookup_insert_eq|by rewrite lookup_insert_ne].
    + intros q Hq. rewrite H6 by lia. cbn. by rewrite lookup_insert_ne by lia.
Qed.

(** The page of an object. *)
Lemma object_page s B U E P sp i b fl j :
  inv s B U E P -> B !! sp = Some (i, b, fl) -> 0 <= j < num (G i) ->
  let p := (obj i b j - KERNBASE) / PGSIZE in
  kva2page (obj i b j) s = Ret (p, s) /\ pages s !! p = Some (mk_page true i sp).
Proof using HG.
  intros Hinv HB Hj p. destruct (i_slab _ _ _ _ _ Hinv sp i b fl HB) as (Hi & _). destruct (g_size HG i Hi) as (G1 & _).
  destruct (obj_page i b j 0 Hi Hj ltac:(lia)) as [Ha Hq]. rewrite Z.add_0_r in Ha, Hq.
  destruct (i_page _ _ _ _ _ Hinv sp i b fl _ HB Hq) as (Hp & _ & Hr). split; [|done].
  destruct (slab_addr s B U E P sp i b fl _ Hinv HB Ha) as (_ & Hk & _).
  unfold kva2page. rewrite bind_get, assert_true by (by apply Z.leb_le). fold p in Hr |- *.
  by rewrite assert_true by (apply Z.ltb_lt; lia).
Qed.

Lemma lists_drop B i full notfull sp b fl :
  lists_ok B i full notfull -> B !! sp = Some (i, b, fl) ->
  lists_ok (delete sp B) i (List.remove Z.eq_dec sp full) (List.remove Z.eq_dec sp notfull).
Proof using Type.
  intros (Hnd & Hf & Hn) HB. apply NoDup_app in Hnd as (Hn1 & Hdis & Hn2). split_and!.
  - apply NoDup_app. split_and!; [by apply nodup_unlink| |by apply nodup_unlink].
    intros y [Hy _]%elem_unlink [Hy' _]%elem_unlink. by apply (Hdis y).
  - intros sp'. rewrite elem_unlink, Hf. destruct (decide (sp = sp')) as [<-|Hne].
    + rewrite lookup_delete_eq. split; [tauto|]. by intros [? ?].
    + rewrite lookup_delete_ne by done. split; [tauto|]. intros ?. split; [done|congruence].
  - intros sp'. rewrite elem_unlink, Hn. destruct (decide (sp = sp')) as [<-|Hne].
    + rewrite lookup_delete_eq. split; [tauto|]. by intros (? & ? & ? & ?).
    + rewrite lookup_delete_ne by done. split; [tauto|]. intros ?. split; [done|congruence].
Qed.

Lemma lists_drop_other B i i0 full notfull sp b fl :
  lists_ok B i0 full notfull -> B !! sp = Some (i, b, fl) -> i0 <> i -> lists_ok (delete sp B) i0 full notfull.
Proof using Type.
  intros (Hnd & Hf & Hn) HB Hi. split_and!; [done|..]; intros sp'; destruct (decide (sp = sp')) as [<-|Hne].
  - rewrite Hf, HB, lookup_delete_eq. split; [intros [b0 H]; congruence|by intros [? ?]].
  - rewrite lookup_delete_ne by done. apply Hf.
  - rewrite Hn, HB, lookup_delete_eq. split; [intros (b0 & ? & ? & H); congruence|by intros (? & ? & ? & ?)].
  - rewrite lookup_delete_ne by done. apply Hn.
Qed.

(** The last object of a slab goes, and the slab with it; its control area, if it was
    allocated, is handed out as an object again. *)
Lemma inv_drop s s' B U P sp i b fl j full notfull :
  inv s B U ∅ P -> B !! sp = Some (i, b, fl) -> 0 <= j < num (G i) -> j ∉ fl -> obj i b j ∈ U ->
  Z.of_nat (length fl) = num (G i) - 1 -> slab_cache s !! i = Some (set_lists full notfull (G i)) -> lists_ok B i full notfull ->
  npage s' = npage s -> free s' = block b (npages i) ∪ free s -> (forall q, q <> sp -> slabs s' !! q = slabs s !! q) ->
  slab_cache s' = <[i := set_lists (List.remove Z.eq_dec sp full) (List.remove Z.eq_dec sp notfull) (G i)]> (slab_cache s) ->
  (forall q, is_Some (pages s !! q) -> is_Some (pages s' !! q)) -> (forall q, ~ in_block i b q -> pages s' !! q = pages s !! q) ->
  inv s' (delete sp B) ((if off_slab (G i) then {[sp]} else ∅) ∪ U ∖ {[obj i b j]}) ∅ P.
Proof using HG.
  intros Hinv HB Hj Hjf HaU Hlen Hc Hl Hnp Hfr Hsl Hca Hsome Hout. pose proof Hinv as [H1 H2 H3 H4 H5 H6 H7 H8 H9].
  destruct (H3 sp i b fl HB) as (Hi & Hsp0 & (x & Hx & [K1 K2 K3 K4 K5 K6]) & Hon & _). destruct (g_size HG i Hi) as (G1 & _).
  assert (Hcases : forall sp' i' b' fl', delete sp B !! sp' = Some (i', b', fl') -> sp' <> sp /\ B !! sp' = Some (i', b', fl')).
  { intros sp' i' b' fl' [Hne H]%lookup_delete_Some. done. }
  assert (Hal : forall i' a, allocated (delete sp B) i' a <-> allocated B i' a /\ a <> obj i b j).
  { intros i' a. split.
    - intros (sp' & b' & fl' & j' & H & Hj' & Hn' & ->). apply Hcases in H as [Hne H]. split; [by exists sp', b', fl', j'|].
      intros Heq. destruct (H3 sp' i' b' fl' H) as (Hi' & _). destruct (g_size HG i' Hi') as (G1' & _).
      destruct (obj_inj s B U ∅ P sp' i' b' fl' j' 0 sp i b fl j 0) as (? & _); try done; lia.
    - intros [(sp' & b' & fl' & j' & H & Hj' & Hn' & ->) Hneq]. exists sp', b', fl', j'. rewrite lookup_delete_ne; [done|].
      intros <-. rewrite HB in H. injection H as <- <- <-. apply Hneq. f_equal.
      assert (Hin : j' ∈ j :: fl).
      { apply (range_full (num (G i))); [by constructor| |cbn [length]; lia|done]. intros k [->|Hk]%elem_of_cons; [done|by apply K5]. }
      by apply elem_of_cons in Hin as [->|?]. }
  assert (Hct : forall a, control (delete sp B) a <-> control B a /\ a <> sp).
  { intros a. unfold control. split.
    - intros (i' & b' & fl' & H & Ho). apply Hcases in H as [Hne H]. split; [by exists i', b', fl'|done].
    - intros [(i' & b' & fl' & H & Ho) Hne]. exists i', b', fl'. by rewrite lookup_delete_ne. }
  assert (Hsp : control B sp <-> off_slab (G i) = true).
  { split; [intros (i' & b' & fl' & H & Ho); congruence|]. intros Ho. by exists i, b, fl. }
  assert (Hna : ~ control B (obj i b j)) by (by apply H7).
  split; rewrite ?Hnp, ?Hfr; try done.
  - intros i0 Hi0. rewrite Hca. destruct (decide (i0 = i)) as [->|Hne].
    + eexists _, _. rewrite lookup_insert_eq. split; [done|]. by apply (lists_drop B i full notfull sp b fl).
    + destruct (H2 i0 Hi0) as (f0 & n0 & Hc0 & Hl0). exists f0, n0. rewrite lookup_insert_ne by done. split; [done|].
      by apply (lists_drop_other B i i0 f0 n0 sp b fl).
  - intros sp' i' b' fl' H. apply Hcases in H as [Hne H]. rewrite Hsl by done. by apply H3.
  - intros sp' i' b' fl' q H Hq. apply Hcases in H as [Hne H]. destruct (H4 sp' i' b' fl' q H Hq) as (? & ? & ?).
    assert (~ in_block i b q) by (intros Hq'; apply Hne; by apply (blocks_apart s B U ∅ P _ i' b' fl' _ i b fl q)).
    rewrite Hout by done. split_and!; [done| |lia..]. rewrite elem_of_union, in_blockset. tauto.
  - intros q [Hq%in_blockset|Hq]%elem_of_union.
    + destruct (H4 sp i b fl q HB Hq) as (Hp & _ & Hr). split; [done|]. apply Hsome. by rewrite Hp.
    + destruct (H5 q Hq) as [? ?]. split; [done|]. by apply Hsome.
  - intros a. rewrite Hct. setoid_rewrite Hal. rewrite elem_of_union, elem_of_difference, elem_of_singleton.
    assert (Hex : (exists i', allocated B i' a /\ a <> obj i b j) <-> (a ∈ U \/ control B a) /\ a <> obj i b j).
    { rewrite <- H6. split; [intros (i' & ? & ?); eauto|intros [[i' ?] ?]; eauto]. }
    rewrite Hex. assert (a = obj i b j -> ~ control B a) by (by intros ->).
    destruct (decide (a = sp)) as [->|Hne].
    + assert (off_slab (G i) = true -> sp <> obj i b j) by (intros Ho ->; by apply Hna, Hsp). destruct (off_slab (G i)) eqn:Ho.
      * rewrite elem_of_singleton. tauto.
      * assert (~ control B sp) by (rewrite Hsp; done). rewrite elem_of_empty. tauto.
    + assert (a ∈ (if off_slab (G i) then {[sp]} else ∅ : gset Z) <-> False) as -> by (destruct (off_slab (G i)); set_solver). tauto.
  - intros a. rewrite Hct, elem_of_union, elem_of_difference. intros [Ha|[Ha _]] [Hc' Hne]; [|by apply (H7 a)].
    destruct (off_slab (G i)); set_solver.
  - intros sp' i' b' fl' H Ho. apply Hcases in H as [Hne H]. apply Hal. split; [by apply (H8 sp' i' b' fl')|].
    intros ->. apply Hna. by exists i', b', fl'.
  - intros q. rewrite H9, elem_of_union, in_blockset. split.
    + intros [?|(sp' & i' & b' & fl' & H & Hq)]; [by left; right|]. destruct (decide (sp' = sp)) as [->|Hne].
      * rewrite HB in H. injection H as <- <- <-. by left; left.
      * right. exists sp', i', b', fl'. by rewrite lookup_delete_ne.
    + intros [[?|?]|(sp' & i' & b' & fl' & H & Hq)]; [right; by exists sp, i, b, fl|by left|].
      apply Hcases in H as [_ H]. right. by exists sp', i', b', fl'.
Qed.

Lemma allocated_give s B U E P sp i b j fl i' a :
  inv s B U E P -> B !! sp = Some (i, b, fl) -> 0 <= j < num (G i) ->
  allocated (<[sp := (i, b, j :: fl)]> B) i' a <-> allocated B i' a /\ a <> obj i b j.
Proof using HG.
  intros Hinv HB Hj. destruct (i_slab _ _ _ _ _ Hinv sp i b fl HB) as (Hi & _). destruct (g_size HG i Hi) as (G1 & _). split.
  - intros (sp' & b' & fl' & j' & H & Hj' & Hn & ->). apply lookup_insert_Some in H as [[<- [= <- <- <-]]|[Hne H]].
    + apply not_elem_of_cons in Hn as [Hjj Hn]. split; [by exists sp, b, fl, j'|]. unfold obj. intros Heq. apply Hjj. nia.
    + split; [by exists sp', b', fl', j'|]. intros Heq.
      destruct (i_slab _ _ _ _ _ Hinv sp' i' b' fl' H) as (Hi' & _). destruct (g_size HG i' Hi') as (G1' & _).
      destruct (obj_inj s B U E P sp' i' b' fl' j' 0 sp i b fl j 0) as (? & _); try done; lia.
  - intros [(sp' & b' & fl' & j' & H & Hj' & Hn & ->) Hneq]. destruct (decide (sp = sp')) as [<-|Hne].
    + rewrite HB in H. injection H as <- <- <-. exists sp, b, (j :: fl), j'. rewrite lookup_insert_eq. split_and!; try done; [lia..|].
      intros [->|?]%elem_of_cons; done.
    + exists sp', b', fl', j'. by rewrite lookup_insert_ne.
Qed.

(** What a release of an object of cache [i] does. *)
Definition free_spec (kf : Z -> Z -> M state unit) (i : Z) : Prop := forall s B U P a,
  inv s B U ∅ P -> a ∈ U -> allocated B i a ->
  exists s' B', kf i a s = Ret (tt, s') /\ pages_stay s s' /\ inv s' B' (U ∖ {[a]}) ∅ P.

Lemma free_one_run kf s B U P sp i b fl j :
  (off_slab (G i) = true -> free_spec kf (slab_cachep (G i))) ->
  inv s B U ∅ P -> B !! sp = Some (i, b, fl) -> 0 <= j < num (G i) -> j ∉ fl -> obj i b j ∈ U ->
  exists s' B', kmem_cache_free_one kf i sp (obj i b j) s = Ret (tt, s') /\ pages_stay s s' /\ inv s' B' (U ∖ {[obj i b j]}) ∅ P.
Proof using HG.
  intros Hkf Hinv HB Hj Hjf HaU. destruct (i_slab _ _ _ _ _ Hinv sp i b fl HB) as (Hi & Hsp0 & (x & Hx & Hok) & Hon & Hlt).
  destruct (g_size HG i Hi) as (G1 & G2 & G3 & G4). destruct (cache_lists s B U ∅ P i Hinv Hi) as (full & notfull & Hc & Hl).
  pose proof Hok as [K1 K2 K3 K4 K5 K6].
  unfold kmem_cache_free_one. rewrite (bind_step _ _ _ _ _ (get_cache_run s i _ Hc)), (bind_step _ _ _ _ _ (get_slab_run s sp x Hx)).
  cbn [objsize num set_lists slabs_full slabs_notfull].
  assert (Hnr : (obj i b j - s_mem x) / objsize (G i) = j).
  { rewrite K1. unfold obj. replace (page2kva b + c_offset (G i) + j * objsize (G i) - (page2kva b + c_offset (G i))) with (j * objsize (G i)) by lia.
    apply Z.div_mul. lia. }
  rewrite Hnr. unfold set_slab. rewrite bind_modify.
  set (x' := mk_slab (s_mem x) (inuse x - 1) (s_offset x) j (<[j := s_free x]> (slab_bufctl x))).
  set (s1 := upd_slabs <[sp := x']> s).
  assert (Hx' : slab_ok i b (j :: fl) x').
  { split; cbn; try done.
    - rewrite K3. lia.
    - by constructor.
    - intros k [->|Hk]%elem_of_cons; [done|by apply K5].
    - split; [done|]. exists (s_free x). rewrite lookup_insert_eq. split; [done|]. by apply chain_frame. }
  assert (Hkeep : forall s2 full' notfull', slab_cache s2 = <[i := set_lists full' notfull' (G i)]> (slab_cache s) ->
    slabs s2 = slabs s1 -> pages s2 = pages s -> npage s2 = npage s -> free s2 = free s ->
    lists_ok (<[sp := (i, b, j :: fl)]> B) i full' notfull' -> Z.of_nat (length (j :: fl)) < num (G i) ->
    exists B', pages_stay s s2 /\ inv s2 B' (U ∖ {[obj i b j]}) ∅ P).
  { intros s2 full' notfull' Hc2 Hs2 Hp2 Hn2 Hf2 Hl2 Hlen. exists (<[sp := (i, b, j :: fl)]> B).
    split; [split; [done|by rewrite Hp2]|]. pose proof (allocated_give s B U ∅ P sp i b j fl) as Hgive.
    apply (inv_chain s s2 B U _ ∅ ∅ P sp i b fl (j :: fl) x' full full' notfull notfull'); try done.
    - by left.
    - intros i' a Ha. apply Hgive in Ha as [Ha Hne]; [|done..]. destruct (proj1 (i_used _ _ _ _ _ Hinv a)) as [?|?]; [by exists i'| |by right].
      left. apply elem_of_difference. by rewrite elem_of_singleton.
    - intros a [Ha Hne]%elem_of_difference. rewrite elem_of_singleton in Hne.
      destruct (proj2 (i_used _ _ _ _ _ Hinv a)) as [i' Hal]; [by left|]. exists i'. by apply Hgive.
    - intros sp' i' b' fl0 H Ho. apply Hgive; try done. split; [by apply (i_control _ _ _ _ _ Hinv sp' i' b' fl0)|].
      intros ->. apply (i_apart _ _ _ _ _ Hinv (obj i b j) HaU). by exists i', b', fl0.
    - intros a [Ha _]%elem_of_difference. by apply (i_apart _ _ _ _ _ Hinv). }
  destruct (Z.eqb_spec (inuse x - 1) 0) as [H0|H0].
  - unfold set_cache. rewrite bind_modify. set (s2 := upd_caches _ s1).
    assert (Hc2 : slab_cache s2 !! i = Some (set_lists (List.remove Z.eq_dec sp full) (List.remove Z.eq_dec sp notfull) (G i))).
    { cbn. by rewrite lookup_insert_eq. }
    assert (Hx2 : slabs s2 !! sp = Some x') by (cbn; by rewrite lookup_insert_eq).
    unfold kmem_slab_destroy. rewrite (bind_step _ _ _ _ _ (get_cache_run s2 i _ Hc2)), (bind_step _ _ _ _ _ (get_slab_run s2 sp _ Hx2)).
    cbn [page_order off_slab slab_cachep set_lists s_mem s_offset x']. fold (npages i).
    pose proof (npages_pos i Hi) as Hnpos.
    destruct (i_page _ _ _ _ _ Hinv sp i b fl b HB) as (_ & _ & Hb); [unfold in_block; lia|].
    assert (Hkv : kva2page (s_mem x - s_offset x) s2 = Ret (b, s2)).
    { rewrite K1, K2. unfold kva2page. rewrite bind_get. unfold page2kva.
      rewrite assert_true by (apply Z.leb_le; unfold PGSIZE, Vmm.PGSIZE; lia).
      replace ((b * PGSIZE + KERNBASE + c_offset (G i) - c_offset (G i) - KERNBASE) / PGSIZE) with b by (unfold PGSIZE, Vmm.PGSIZE; dlia).
      by rewrite assert_true by (apply Z.ltb_lt; cbn; lia). }
    rewrite (bind_step _ _ _ _ _ Hkv).
    destruct (clear_pages_run (Z.to_nat (npages i)) s2 b) as (s3 & Hr3 & Hc3 & Hs3 & Hn3 & Hf3 & Hp3 & Hp3').
    { intros q Hq. destruct (i_page _ _ _ _ _ Hinv sp i b fl q HB) as (Hp & _); [unfold in_block; lia|]. by eexists. }
    rewrite (bind_step _ _ _ _ _ Hr3). unfold free_pages. rewrite bind_modify. set (s4 := upd_free _ s3).
    assert (Hinv4 : inv s4 (delete sp B) ((if off_slab (G i) then {[sp]} else ∅) ∪ U ∖ {[obj i b j]}) ∅ P).
    { apply (inv_drop s s4 B U P sp i b fl j full notfull); try done.
      - lia.
      - cbn. by rewrite Hf3.
      - intros q Hq. cbn. rewrite Hs3. cbn. by rewrite lookup_insert_ne.
      - intros q Hq. cbn. rewrite Hp3'; [done|]. rewrite Z2Nat.id by lia. done. }
    assert (Hst : pages_stay s s4) by (by split).
    destruct (off_slab (G i)) eqn:Ho.
    + assert (Hspn : sp <> obj i b j).
      { intros Heq. apply (i_apart _ _ _ _ _ Hinv (obj i b j) HaU). rewrite <- Heq. by exists i, b, fl. }
      assert (Hal4 : allocated (delete sp B) (slab_cachep (G i)) sp).
      { destruct (i_control _ _ _ _ _ Hinv sp i b fl HB Ho) as (sp' & b' & fl' & j' & HB' & Hj' & Hn' & Heq).
        exists sp', b', fl', j'. rewrite lookup_delete_ne; [done|]. intros <-. rewrite HB in HB'. injection HB' as Hii <- <-.
        destruct (g_off HG i Hi Ho) as (_ & Ho' & _). rewrite <- Hii in Ho'. congruence. }
      destruct (Hkf eq_refl s4 (delete sp B) _ P sp Hinv4) as (s5 & B5 & Hr5 & [Hst5 Hst5'] & Hinv5); [set_solver|done|].
      exists s5, B5. split; [done|]. split; [split; [rewrite Hst5; by destruct Hst|intros q Hq; apply Hst5'; by apply Hst]|].
      assert (Hset : ({[sp]} ∪ U ∖ {[obj i b j]}) ∖ {[sp]} = U ∖ {[obj i b j]}); [|by rewrite <- Hset].
      assert (sp ∉ U) by (intros HU; apply (i_apart _ _ _ _ _ Hinv sp HU); by exists i, b, fl). set_solver.
    + exists s4, (delete sp B). split; [done|]. split; [done|]. by rewrite union_empty_l_L in Hinv4.
  - assert (Hpos : Z.of_nat (length (j :: fl)) < num (G i)).
    { cbn [length]. pose proof (range_length (num (G i)) (j :: fl) ltac:(lia) (k_nodup _ _ _ _ Hx') (k_range _ _ _ _ Hx')). cbn [length] in *. lia. }
    destruct (Z.eqb_spec (inuse x - 1) (num (G i) - 1)) as [Hm|Hm].
    + assert (fl = []) as -> by (destruct fl; [done|cbn [length] in *; lia]).
      destruct (Hkeep (upd_caches <[i := set_lists (List.remove Z.eq_dec sp full) (sp :: List.remove Z.eq_dec sp notfull) (G i)]> s1)
        (List.remove Z.eq_dec sp full) (sp :: List.remove Z.eq_dec sp notfull)) as (B' & Hst & Hi'); try done.
      * apply (lists_chain B i full notfull sp b [] [j]); done.
      * eexists _, B'. split; [reflexivity|]. done.
    + destruct fl as [|j0 fl]; [cbn [length] in *; lia|].
      destruct (Hkeep s1 full notfull) as (B' & Hst & Hi'); try done.
      * cbn. by rewrite insert_id.
      * by apply (lists_stay B i full notfull sp b j0 fl).
      * by exists s1, B'.
Qed.

Lemma free_level n i :
  is_cache i -> (off_slab (G i) = true -> free_spec (kmem_cache_free n) (slab_cachep (G i))) ->
  free_spec (kmem_cache_free (S n)) i.
Proof using HG.
  intros Hi Hsub s B U P a Hinv Ha (sp & b & fl & j & HB & Hj & Hn & ->). cbn [kmem_cache_free].
  destruct (object_page s B U ∅ P sp i b fl j Hinv HB Hj) as [Hr Hp].
  rewrite (bind_step _ _ _ _ _ Hr), (bind_step _ _ _ _ _ (get_page_run s _ _ Hp)). rewrite assert_true by done.
  by apply (free_one_run _ s B U P sp i b fl j).
Qed.

Lemma kmem_cache_free_ok n i : is_cache i -> free_spec (kmem_cache_free (S (S n))) i.
Proof using HG.
  intros Hi. apply free_level; [done|]. intros Ho. destruct (g_off HG i Hi Ho) as (Hi' & Ho' & _).
  apply free_level; [done|]. congruence.
Qed.
End Slabs.
End SlabInv.
