(* ===== verification/SlabSpec.v ===== *)
(** * Slab allocator: [kmalloc] and [kfree]

    The theorems about the allocator with the caches that [slab_init] sets up. *)

From S2P Require Import Prelude Vmm Slab SlabInv.
Open Scope Z_scope.

Module SlabSpec.
Import Slab SlabInv.

(** The caches after [slab_init], which computes these numbers. *)
Definition sizes (i : Z) : kmem_cache :=
  nth (Z.to_nat i)
    [mk_cache [] [] 32 113 480 false 0 0; mk_cache [] [] 64 59 272 false 0 0;
     mk_cache [] [] 128 30 144 false 0 0; mk_cache [] [] 256 15 96 false 0 0;
     mk_cache [] [] 512 8 0 true 0 1; mk_cache [] [] 1024 4 0 true 0 1;
     mk_cache [] [] 2048 2 0 true 0 0; mk_cache [] [] 4096 1 0 true 0 0;
     mk_cache [] [] 8192 1 0 true 1 0; mk_cache [] [] 16384 1 0 true 2 0;
     mk_cache [] [] 32768 1 0 true 3 0; mk_cache [] [] 65536 1 0 true 4 0;
     mk_cache [] [] 131072 1 0 true 5 0] (mk_cache [] [] 0 0 0 false 0 0).

(** A statement about every cache, by going through them. *)
Ltac each_cache i :=
  match goal with Hi : is_cache i |- _ =>
    unfold is_cache, SLAB_CACHE_NUM, MAX_SIZE_ORDER, MIN_SIZE_ORDER in Hi;
    let H := fresh in
    assert (H : i ∈ seqZ 0 13) by (apply elem_of_seqZ; lia); clear Hi;
    cbn in H; repeat (apply elem_of_cons in H as [->|H]); [..|by apply not_elem_of_nil in H]
  end.

Lemma sizes_ok : geometry sizes.
Proof.
  split; intros i Hi.
  - each_cache i; vm_compute; repeat split; done.
  - each_cache i; vm_compute; done.
  - each_cache i; cbn; unfold sizeof_slab_t, sizeof_bufctl; (done || lia).
  - intros Ho. unfold is_cache at 1. each_cache i; cbn in Ho |- *; try done;
      unfold SLAB_CACHE_NUM, MAX_SIZE_ORDER, MIN_SIZE_ORDER, sizeof_slab_t, sizeof_bufctl; (split; [lia|split; [done|lia]]).
Qed.

Lemma sizes_align i : is_cache i -> objsize (sizes i) mod 16 = 0 /\ c_offset (sizes i) mod 16 = 0.
Proof. intros Hi. each_cache i; vm_compute; done. Qed.

(** ** Initialisation *)

Lemma init_cache_run i s : is_cache i ->
  init_kmem_cache i (u32 (Z.shiftl 1 (i + MIN_SIZE_ORDER))) 16 s = Ret (tt, upd_caches <[i := sizes i]> s).
Proof. intros Hi. each_cache i; reflexivity. Qed.

Lemma init_loop_run : forall n i s, 0 <= i -> i + Z.of_nat n = SLAB_CACHE_NUM ->
  exists s', slab_init_loop n i s = Ret (tt, s') /\ slabs s' = slabs s /\ pages s' = pages s /\ npage s' = npage s /\
    free s' = free s /\ forall k, is_cache k -> slab_cache s' !! k = if i <=? k then Some (sizes k) else slab_cache s !! k.
Proof.
  induction n as [|n IH]; intros i s Hi Hn; cbn [slab_init_loop].
  - exists s. split_and!; try done. intros k Hk. unfold is_cache in Hk. by rewrite (proj2 (Z.leb_gt i k)) by lia.
  - rewrite (bind_step _ _ _ _ _ (init_cache_run i s ltac:(unfold is_cache; lia))).
    destruct (IH (i + 1) (upd_caches <[i := sizes i]> s)) as (s' & Hr & H1 & H2 & H3 & H4 & H5); [lia|lia|].
    exists s'. split_and!; try done. intros k Hk. rewrite H5 by done. cbn. destruct (Z.leb_spec (i + 1) k), (Z.leb_spec i k); try done; try lia.
    + assert (k = i) as -> by lia. by rewrite lookup_insert_eq.
    + by rewrite lookup_insert_ne by lia.
Qed.

Lemma slab_init_run s :
  0 <= npage s -> npage s * PGSIZE + KERNBASE <= 2 ^ 32 ->
  (forall q, q ∈ free s -> 0 <= q < npage s /\ is_Some (pages s !! q)) ->
  exists s', slab_init s = Ret (tt, s') /\ inv sizes s' ∅ ∅ ∅ (free s) /\ free s' = free s.
Proof.
  intros Hn1 Hn2 Hf. destruct (init_loop_run (Z.to_nat SLAB_CACHE_NUM) 0 s) as (s' & Hr & H1 & H2 & H3 & H4 & H5); [lia|done|].
  exists s'. split; [exact Hr|]. split; [|exact H4]. clear Hr. split; rewrite ?H1, ?H2, ?H3, ?H4.
  - by split.
  - intros i Hi. exists [], []. rewrite H5 by done. rewrite (proj2 (Z.leb_le 0 i)) by (unfold is_cache in Hi; lia).
    split; [each_cache i; reflexivity|]. split; [constructor|].
    split; intros sp; (split; [intros []%not_elem_of_nil|]); [intros [b H]|intros (b & j & fl & H)]; by rewrite lookup_empty in H.
  - intros sp i b fl H. by rewrite lookup_empty in H.
  - intros sp i b fl q H. by rewrite lookup_empty in H.
  - exact Hf.
  - intros a. split; [intros (i & sp & b & fl & j & H & _); by rewrite lookup_empty in H|].
    intros [?%not_elem_of_empty|(i & b & fl & H & _)]; [done|by rewrite lookup_empty in H].
  - intros a H. by apply not_elem_of_empty in H.
  - intros sp i b fl H. by rewrite lookup_empty in H.
  - intros q. split; [by left|]. intros [?|(sp & i & b & fl & H & _)]; [done|by rewrite lookup_empty in H].
Qed.

(** ** Objects do not overlap *)

Section Apart.
Context (s : state) (B : slabmap) (U E P : gset Z).
Hypothesis Hinv : inv sizes s B U E P.

Lemma objects_apart i a i' a' :
  allocated sizes B i a -> allocated sizes B i' a' -> a <> a' ->
  a + objsize (sizes i) <= a' \/ a' + objsize (sizes i') <= a.
Proof using Hinv.
  intros (sp & b & fl & j & HB & Hj & Hn & ->) (sp' & b' & fl' & j' & HB' & Hj' & Hn' & ->) Hne.
  destruct (Z.le_gt_cases (obj sizes i b j + objsize (sizes i)) (obj sizes i' b' j')) as [|H1]; [by left|].
  destruct (Z.le_gt_cases (obj sizes i' b' j' + objsize (sizes i')) (obj sizes i b j)) as [|H2]; [by right|]. exfalso. apply Hne.
  set (y := Z.max (obj sizes i b j) (obj sizes i' b' j')).
  destruct (i_slab _ _ _ _ _ _ Hinv sp i b fl HB) as (Hi & _). destruct (i_slab _ _ _ _ _ _ Hinv sp' i' b' fl' HB') as (Hi' & _).
  pose proof (g_size _ sizes_ok i Hi) as (G1 & _). pose proof (g_size _ sizes_ok i' Hi') as (G1' & _).
  destruct (obj_inj sizes sizes_ok s B U E P sp i b fl j (y - obj sizes i b j) sp' i' b' fl' j' (y - obj sizes i' b' j'))
    as (-> & -> & -> & _); try done; [lia..|]. congruence.
Qed.

(** The control area of a slab, wherever it is. *)
Lemma control_apart i a sp' i' b' fl' :
  allocated sizes B i a -> a ∈ U -> B !! sp' = Some (i', b', fl') ->
  a + objsize (sizes i) <= sp' \/ sp' + sizeof_slab_t + num (sizes i') * sizeof_bufctl <= a.
Proof using Hinv.
  intros Hal HaU HB'. destruct (i_slab _ _ _ _ _ _ Hinv sp' i' b' fl' HB') as (Hi' & _ & _ & Hon & _).
  destruct (off_slab (sizes i')) eqn:Ho.
  - pose proof (i_control _ _ _ _ _ _ Hinv sp' i' b' fl' HB' Ho) as Hc.
    destruct (g_off _ sizes_ok i' Hi' Ho) as (_ & _ & Hfit).
    destruct (objects_apart i a (slab_cachep (sizes i')) sp' Hal Hc) as [|]; [|by left|right; lia].
    intros ->. apply (i_apart _ _ _ _ _ _ Hinv sp' HaU). by exists i', b', fl'.
  - specialize (Hon eq_refl). pose proof (g_on _ sizes_ok i' Hi' Ho) as Hfit.
    destruct Hal as (sp & b & fl & j & HB & Hj & Hn & ->).
    destruct (i_slab _ _ _ _ _ _ Hinv sp i b fl HB) as (Hi & _). pose proof (g_size _ sizes_ok i Hi) as (G1 & _ & _ & G4).
    destruct (g_size _ sizes_ok i' Hi') as (G1' & G2' & _ & _). pose proof (g_fit _ sizes_ok i' Hi') as Hf'.
    destruct (Z.le_gt_cases (obj sizes i b j + objsize (sizes i)) sp') as [|H1]; [by left|right].
    destruct (Z.le_gt_cases (sp' + sizeof_slab_t + num (sizes i') * sizeof_bufctl) (obj sizes i b j)) as [|H2]; [done|exfalso].
    set (y := Z.max (obj sizes i b j) sp').
    destruct (obj_page sizes sizes_ok i b j (y - obj sizes i b j) Hi Hj ltac:(lia)) as [_ Hq].
    replace (obj sizes i b j + (y - obj sizes i b j)) with y in Hq by lia.
    assert (0 <= num (sizes i') * objsize (sizes i')) by (apply Z.mul_nonneg_nonneg; lia).
    assert (0 < sizeof_slab_t + num (sizes i') * sizeof_bufctl) by (unfold sizeof_slab_t, sizeof_bufctl; lia).
    assert (Hy : page2kva b' <= y < page2kva b' + npages sizes i' * PGSIZE) by (rewrite <- Hon; lia).
    assert (Hq' : in_block sizes i' b' ((y - KERNBASE) / PGSIZE)).
    { unfold in_block. unfold page2kva, PGSIZE, Vmm.PGSIZE in *. split; [apply Z.div_le_lower_bound; lia|apply Z.div_lt_upper_bound; lia]. }
    assert (sp = sp') as <- by (by apply (blocks_apart sizes s B U E P _ i b fl _ i' b' fl' ((y - KERNBASE) / PGSIZE))).
    rewrite HB in HB'. injection HB' as <- <- <-. unfold obj in H2. nia.
Qed.
End Apart.

(** ** [getorder] *)

Lemma getorder_loop_run n s : forall k o sz, sz = 2 ^ o -> 0 <= o -> o + Z.of_nat k <= 31 -> (o = 5 \/ 2 ^ (o - 1) < n) -> n <= 2 ^ (o + Z.of_nat k - 1) -> (0 < k)%nat ->
  exists r, getorder_loop k o sz n s = Ret (r, s) /\ o <= r < o + Z.of_nat k /\ n <= 2 ^ r /\ (r = 5 \/ 2 ^ (r - 1) < n).
Proof.
  induction k as [|k IH]; intros o sz -> Ho Hk Hlow Hn Hpos; [lia|]. cbn [getorder_loop].
  destruct (Z.leb_spec n (2 ^ o)) as [Hle|Hgt]; [exists o; split_and!; (done || lia)|].
  destruct k as [|k]; [replace (o + Z.of_nat 1 - 1) with o in Hn by lia; lia|].
  assert (Hsh : u32 (Z.shiftl (2 ^ o) 1) = 2 ^ (o + 1)).
  { rewrite Z.shiftl_mul_pow2, <- Z.pow_add_r by lia. apply u32_small. unfold is_u32. split; [apply Z.pow_nonneg; lia|].
    apply Z.pow_lt_mono_r; lia. }
  rewrite Hsh. destruct (IH (o + 1) (2 ^ (o + 1))) as (r & Hr & H1 & H2 & H3); [done|lia|lia| |
    by replace (o + 1 + Z.of_nat (S k) - 1) with (o + Z.of_nat (S (S k)) - 1) by lia|lia|].
  - right. by replace (o + 1 - 1) with o by lia.
  - exists r. split_and!; try done; lia.
Qed.

Lemma getorder_run n s : 0 < n <= 2 ^ 17 ->
  exists r, getorder n s = Ret (r, s) /\ 5 <= r <= 17 /\ n <= 2 ^ r /\ (r = 5 \/ 2 ^ (r - 1) < n).
Proof.
  intros Hn. destruct (getorder_loop_run n s 13 5 (2 ^ 5)) as (r & Hr & H1 & H2 & H3); [done|lia|lia|by left|cbn; lia|lia|].
  exists r. split; [exact Hr|]. split_and!; (done || lia).
Qed.

Lemma objsize_order i : is_cache i -> objsize (sizes i) = 2 ^ (i + 5).
Proof. intros Hi. each_cache i; reflexivity. Qed.

Lemma kmalloc_run s B U P size :
  inv sizes s B U ∅ P -> 0 < size <= 2 ^ 17 ->
  exists a s' B' i, kmalloc size s = Ret (a, s') /\ is_cache i /\ size <= objsize (sizes i) /\ (i = 0 \/ objsize (sizes i) < 2 * size) /\
    (a = 0 /\ free s' = free s /\ inv sizes s' B U ∅ P \/
     a <> 0 /\ (a ∉ U) /\ allocated sizes B' i a /\ inv sizes s' B' ({[a]} ∪ U) ∅ P).
Proof.
  intros Hinv Hsz. unfold kmalloc. rewrite assert_true by (apply Z.ltb_lt; lia).
  destruct (getorder_run size s Hsz) as (r & Hr & Hrange & Hle & Hlow). rewrite (bind_step _ _ _ _ _ Hr).
  rewrite (proj2 (Z.ltb_ge _ _)) by (unfold MAX_SIZE_ORDER; lia).
  assert (Hi : is_cache (r - MIN_SIZE_ORDER)) by (unfold is_cache, SLAB_CACHE_NUM, MAX_SIZE_ORDER, MIN_SIZE_ORDER; lia).
  destruct (kmem_cache_alloc_ok sizes sizes_ok 1 _ Hi s B U P Hinv) as (a & s' & B' & Hra & _ & Hcase).
  exists a, s', B', (r - MIN_SIZE_ORDER). split; [done|]. split; [done|]. rewrite objsize_order by done. unfold MIN_SIZE_ORDER in *.
  replace (r - 5 + 5) with r by lia. split; [done|]. split; [|done]. destruct Hlow as [->|Hlow]; [by left|right].
  replace r with (r - 1 + 1) by lia. rewrite Z.pow_add_r by lia. lia.
Qed.

Lemma kfree_run s B U P a :
  inv sizes s B U ∅ P -> a ∈ U -> exists s' B', kfree a s = Ret (tt, s') /\ inv sizes s' B' (U ∖ {[a]}) ∅ P.
Proof.
  intros Hinv Ha. destruct (proj2 (i_used _ _ _ _ _ _ Hinv a)) as (i & Hal); [by left|].
  pose proof Hal as (sp & b & fl & j & HB & Hj & Hn & ->).
  destruct (object_page sizes sizes_ok s B U ∅ P sp i b fl j Hinv HB Hj) as [Hr Hp].
  destruct (i_slab _ _ _ _ _ _ Hinv sp i b fl HB) as (Hi & _). unfold kfree.
  rewrite (bind_step _ _ _ _ _ Hr), (bind_step _ _ _ _ _ (get_page_run s _ _ Hp)). cbn [page_cache].
  destruct (kmem_cache_free_ok sizes sizes_ok 0 i Hi s B U P _ Hinv Ha Hal) as (s' & B' & Hr' & _ & Hinv').
  by exists s', B'.
Qed.

(** ** The allocator *)

(** C19: [kmalloc] of up to 128K returns an object not in use, at least as large as asked
    for and less than twice as large (or 32 bytes), aligned to 16, that overlaps neither
    another object in use nor the control area of any slab; or [NULL], when there are no
    pages, with nothing changed.  It always ends, and neither loses nor duplicates
    pages. *)
Theorem kmalloc_spec s B U P size :
  inv sizes s B U ∅ P -> 0 < size <= 2 ^ 17 ->
  exists a s' B' i, kmalloc size s = Ret (a, s') /\ is_cache i /\ size <= objsize (sizes i) /\ (i = 0 \/ objsize (sizes i) < 2 * size) /\
    (a = 0 /\ free s' = free s /\ inv sizes s' B U ∅ P \/
     a <> 0 /\ (a ∉ U) /\ a mod 16 = 0 /\ inv sizes s' B' ({[a]} ∪ U) ∅ P /\
     (forall i' a', a' ∈ U -> allocated sizes B' i' a' -> a + objsize (sizes i) <= a' \/ a' + objsize (sizes i') <= a) /\
     (forall sp i' b fl, B' !! sp = Some (i', b, fl) ->
        a + objsize (sizes i) <= sp \/ sp + sizeof_slab_t + num (sizes i') * sizeof_bufctl <= a)).
Proof.
  intros Hinv Hsz. destruct (kmalloc_run s B U P size Hinv Hsz) as (a & s' & B' & i & Hr & Hi & H1 & H2 & Hcase).
  exists a, s', B', i. split_and!; try done. destruct Hcase as [H|(Ha & HaU & Hal & Hinv')]; [by left|right].
  split_and!; try done.
  - destruct Hal as (sp & b & fl & j & _ & _ & _ & ->). destruct (sizes_align i Hi) as [A1 A2].
    unfold obj, page2kva, PGSIZE, Vmm.PGSIZE, KERNBASE, Vmm.KERNBASE.
    apply Z.mod_divide in A1 as [x Hx]; [|done]. apply Z.mod_divide in A2 as [y Hy]; [|done]. rewrite Hx, Hy.
    replace (b * 4096 + 0xC0000000 + y * 16 + j * (x * 16)) with ((b * 256 + 0xC000000 + y + j * x) * 16) by lia.
    apply Z.mod_mul. done.
  - intros i' a' Ha' Hal'. apply (objects_apart s' B' _ _ _ Hinv' i a i' a' Hal Hal'). by intros ->.
  - intros sp i' b fl HB. apply (control_apart s' B' _ _ _ Hinv' i a sp i' b fl Hal); [set_solver|done].
Qed.

(** C20: [kfree] of an object in use ends and takes exactly it out of use; a slab that
    becomes empty gives its pages back, and its control area where that was allocated. *)
Theorem kfree_spec s B U P a :
  inv sizes s B U ∅ P -> a ∈ U -> exists s' B', kfree a s = Ret (tt, s') /\ inv sizes s' B' (U ∖ {[a]}) ∅ P.
Proof. apply kfree_run. Qed.

(** When no object is in use there is no slab, and all pages are free. *)
Lemma no_objects_no_slabs s B P : inv sizes s B ∅ ∅ P -> B = ∅ /\ free s = P.
Proof.
  intros Hinv.
  assert (Hin : forall sp i b fl, B !! sp = Some (i, b, fl) -> exists a, allocated sizes B i a /\ control sizes B a).
  { intros sp i b fl HB. destruct (i_slab _ _ _ _ _ _ Hinv sp i b fl HB) as (Hi & _ & (x & _ & [_ _ _ K4 K5 _]) & _ & Hlt).
    specialize (Hlt (not_elem_of_empty _)). pose proof (g_size _ sizes_ok i Hi) as (_ & G2 & _).
    destruct (decide (Exists (fun j => j ∉ fl) (seqZ 0 (num (sizes i))))) as [(j & Hj & Hn)%Exists_exists|Hno].
    - apply elem_of_seqZ in Hj. exists (obj sizes i b j). assert (Hal : allocated sizes B i (obj sizes i b j)) by (exists sp, b, fl, j; split_and!; (done || lia)).
      split; [done|]. destruct (proj1 (i_used _ _ _ _ _ _ Hinv (obj sizes i b j))) as [?%not_elem_of_empty|]; [by exists i|done|done].
    - exfalso. assert (Hs : seqZ 0 (num (sizes i)) ⊆+ fl).
      { apply NoDup_submseteq; [apply NoDup_seqZ|]. intros j Hj. destruct (decide (j ∈ fl)); [done|]. exfalso. apply Hno, Exists_exists. by exists j. }
      apply submseteq_length in Hs. rewrite length_seqZ in Hs. lia. }
  assert (Hoff : forall sp i b fl, B !! sp = Some (i, b, fl) -> off_slab (sizes i) = true -> False).
  { intros sp i b fl HB Ho. destruct (Hin sp i b fl HB) as (a & Hal & (i' & b' & fl' & HB' & Ho')).
    destruct (i_control _ _ _ _ _ _ Hinv a i' b' fl' HB' Ho') as (sp2 & b2 & fl2 & j2 & HB2 & Hj2 & Hn2 & Heq).
    destruct Hal as (sp3 & b3 & fl3 & j3 & HB3 & Hj3 & Hn3 & ->).
    destruct (i_slab _ _ _ _ _ _ Hinv _ _ _ _ HB2) as (Hi2 & _). destruct (i_slab _ _ _ _ _ _ Hinv _ _ _ _ HB3) as (Hi3 & _).
    pose proof (g_size _ sizes_ok _ Hi2) as (G2 & _). pose proof (g_size _ sizes_ok _ Hi3) as (G3 & _).
    destruct (obj_inj sizes sizes_ok s B ∅ ∅ P sp3 i b3 fl3 j3 0 sp2 (slab_cachep (sizes i')) b2 fl2 j2 0) as (_ & Hii & _); try done; [lia..|].
    destruct (i_slab _ _ _ _ _ _ Hinv _ _ _ _ HB') as (Hi' & _). destruct (g_off _ sizes_ok i' Hi' Ho') as (_ & Hon & _).
    rewrite <- Hii in Hon. congruence. }
  assert (HB0 : B = ∅).
  { apply map_empty. intros sp. destruct (B !! sp) as [[[i b] fl]|] eqn:HB; [|done]. exfalso.
    destruct (Hin sp i b fl HB) as (a & _ & (i' & b' & fl' & HB' & Ho')). by apply (Hoff a i' b' fl'). }
  split; [done|]. apply set_eq. intros q. rewrite (i_total _ _ _ _ _ _ Hinv q). split; [by left|].
  intros [?|(sp & i & b & fl & HB & _)]; [done|]. by rewrite HB0, lookup_empty in HB.
Qed.

(** *** Clients *)

(** What a user of the allocator asks for: memory, or to give back the [k]-th of the
    objects it holds. *)
Inductive request := Malloc (size : Z) | Free (k : nat).

Definition fits (r : request) : Prop := match r with Malloc size => 0 < size <= 2 ^ 17 | Free _ => True end.

(** The objects held after a series of requests; [kmalloc] may have answered some with
    [NULL]. *)
Fixpoint client (l : list request) (held : list Z) : M state (list Z) :=
  match l with
  | [] => ret held
  | Malloc size :: l => a <- kmalloc size ;; client l (if a =? 0 then held else a :: held)
  | Free k :: l =>
      match held !! k with
      | Some a => kfree a ;; client l (delete k held)
      | None => client l held
      end
  end.

Fixpoint free_all (l : list Z) : M state unit :=
  match l with [] => ret tt | a :: l => kfree a ;; free_all l end.

Lemma held_delete held k (a : Z) : NoDup held -> held !! k = Some a ->
  NoDup (delete k held) /\ list_to_set (delete k held) =@{gset Z} list_to_set held ∖ {[a]}.
Proof.
  intros Hnd Hk. pose proof (delete_Permutation held k a Hk) as Hp. rewrite Hp in Hnd.
  apply NoDup_cons in Hnd as [Ha Hnd]. split; [done|]. rewrite (list_to_set_perm_L _ _ Hp). cbn [list_to_set].
  apply set_eq. intros x. rewrite elem_of_difference, elem_of_union, elem_of_singleton, elem_of_list_to_set.
  split; [intros Hx; split; [by right|by intros ->]|tauto].
Qed.

Lemma client_run P : forall l s B held,
  inv sizes s B (list_to_set held) ∅ P -> NoDup held -> Forall fits l ->
  exists held' s' B', client l held s = Ret (held', s') /\ NoDup held' /\ inv sizes s' B' (list_to_set held') ∅ P.
Proof.
  induction l as [|[size|k] l IH]; intros s B held Hinv Hnd Hl; cbn [client].
  - by exists held, s, B.
  - apply Forall_cons in Hl as [Hsz Hl].
    destruct (kmalloc_run s B _ P size Hinv Hsz) as (a & s1 & B1 & i & Hr & _ & _ & _ & Hcase).
    rewrite (bind_step _ _ _ _ _ Hr). destruct Hcase as [(-> & _ & Hinv1)|(Ha & HaU & _ & Hinv1)].
    + rewrite Z.eqb_refl. by apply (IH s1 B).
    + rewrite (proj2 (Z.eqb_neq a 0)) by done. apply (IH s1 B1); [done| |done].
      apply NoDup_cons. split; [|done]. by rewrite <- (elem_of_list_to_set (C := gset Z)).
  - apply Forall_cons in Hl as [_ Hl]. destruct (held !! k) as [a|] eqn:Hk; [|by apply (IH s B)].
    destruct (held_delete held k a Hnd Hk) as [Hnd' Hset].
    destruct (kfree_run s B _ P a Hinv) as (s1 & B1 & Hr & Hinv1).
    { apply elem_of_list_to_set. by apply list_elem_of_lookup_2 in Hk. }
    rewrite (bind_step _ _ _ _ _ Hr). apply (IH s1 B1); [by rewrite Hset|done|done].
Qed.

Lemma free_all_run P : forall l s B, inv sizes s B (list_to_set l) ∅ P -> NoDup l ->
  exists s' B', free_all l s = Ret (tt, s') /\ inv sizes s' B' ∅ ∅ P.
Proof.
  induction l as [|a l IH]; intros s B Hinv Hnd; cbn [free_all]; [by exists s, B|].
  destruct (held_delete (a :: l) 0 a Hnd eq_refl) as [Hnd' Hset].
  destruct (kfree_run s B _ P a Hinv) as (s1 & B1 & Hr & Hinv1); [set_solver|].
  rewrite (bind_step _ _ _ _ _ Hr). apply (IH s1 B1); [by rewrite <- Hset in Hinv1|done].
Qed.

(** C21: from [slab_init] on, any series of calls of [kmalloc] (up to 128K each) and
    [kfree] (of objects held) returns, the pages that are free at any time being among
    those that were free at the start; and once the objects still held are given back,
    in any order, every page is free again: no page, slab or control area is lost,
    whatever allocations failed on the way. *)
Theorem slab_no_leak s l :
  0 <= npage s -> npage s * PGSIZE + KERNBASE <= 2 ^ 32 ->
  (forall q, q ∈ free s -> 0 <= q < npage s /\ is_Some (pages s !! q)) -> Forall fits l ->
  exists held s1, (slab_init ;; client l []) s = Ret (held, s1) /\ NoDup held /\ free s1 ⊆ free s /\
    forall held', held' ≡ₚ held -> exists s2, free_all held' s1 = Ret (tt, s2) /\ free s2 = free s.
Proof.
  intros Hn Hmax Hfree Hl. destruct (slab_init_run s Hn Hmax Hfree) as (s0 & Hr0 & Hinv0 & _).
  destruct (client_run (free s) l s0 ∅ [] Hinv0) as (held & s1 & B1 & Hr1 & Hnd & Hinv1); [constructor|done|].
  exists held, s1. split_and!; [by rewrite (bind_step _ _ _ _ _ Hr0)|done| |].
  - intros q Hq. apply (i_total _ _ _ _ _ _ Hinv1). by left.
  - intros held' Hp. rewrite <- Hp in Hnd. rewrite <- (list_to_set_perm_L _ _ Hp) in Hinv1.
    destruct (free_all_run (free s) held' s1 B1 Hinv1 Hnd) as (s2 & B2 & Hr2 & Hinv2).
    exists s2. split; [done|]. exact (proj2 (no_objects_no_slabs s2 B2 _ Hinv2)).
Qed.

(** [slab_init] sets up the thirteen caches, in which objects and control areas fit
    their pages; the allocator then owns no page. *)
Theorem slab_init_spec s :
  0 <= npage s -> npage s * PGSIZE + KERNBASE <= 2 ^ 32 ->
  (forall q, q ∈ free s -> 0 <= q < npage s /\ is_Some (pages s !! q)) ->
  geometry sizes /\ exists s', slab_init s = Ret (tt, s') /\ inv sizes s' ∅ ∅ ∅ (free s) /\ free s' = free s.
Proof. intros. split; [apply sizes_ok|by apply slab_init_run]. Qed.

(** A request for more than 128K stops the kernel in [getorder]: the test of
    [kmalloc] that would return [NULL] is never reached. *)
Theorem kmalloc_too_big_panics s size : 2 ^ 17 < size -> kmalloc size s = Panic.
Proof.
  intros Hs. unfold kmalloc. rewrite assert_true by (apply Z.ltb_lt; lia).
  assert (Hno : forall k o sz, sz = 2 ^ o -> 0 <= o -> o + Z.of_nat k <= 18 -> getorder_loop k o sz size s = Panic).
  { induction k as [|k IH]; intros o sz -> Ho Hk; [done|]. cbn [getorder_loop].
    assert (2 ^ o <= 2 ^ 17) by (apply Z.pow_le_mono_r; lia). rewrite (proj2 (Z.leb_gt _ _)) by lia.
    apply IH; [|lia|lia]. rewrite Z.shiftl_mul_pow2, <- Z.pow_add_r by lia. apply u32_small. unfold is_u32.
    split; [apply Z.pow_nonneg; lia|]. apply Z.pow_lt_mono_r; lia. }
  unfold bind, getorder. by rewrite Hno.
Qed.

(** ** Witnesses: a machine with 64 pages *)

Definition ex_start : state :=
  mk_state ∅ ∅ (array 64 (fun _ => mk_page false 0 0)) 64 (block 1 63) [Some 8; Some 3; Some 4; None].

Definition ex_ready : state := match slab_init ex_start with Ret (_, s) => s | _ => ex_start end.

Lemma ex_start_ok q : q ∈ free ex_start -> 0 <= q < npage ex_start /\ is_Some (pages ex_start !! q).
Proof.
  intros Hq. cbn in Hq. apply elem_of_list_to_set, elem_of_seqZ in Hq. cbn [npage ex_start]. split; [lia|].
  eexists. apply array_lookup. split; [lia|reflexivity].
Qed.

Lemma ex_ready_run : slab_init ex_start = Ret (tt, ex_ready) /\ inv sizes ex_ready ∅ ∅ ∅ (block 1 63).
Proof.
  destruct (slab_init_run ex_start) as (s' & Hr & Hinv & _); [done|done|apply ex_start_ok|].
  unfold ex_ready. rewrite Hr. by split.
Qed.

(** Two objects of 600 bytes: the slab takes page 8, its control area an object of the
    cache of 64 bytes, whose slab takes page 3. *)
Example ex_large_objects :
  match (a <- kmalloc 600 ;; b <- kmalloc 600 ;; n <- slab_allocated ;; ret (a, b, n)) ex_ready with
  | Ret (r, s) => r = (0xC0008000, 0xC0008400, 2 * 1024 + 64) /\ (8 ∉ free s) /\ (3 ∉ free s) /\ 4 ∈ free s
  | _ => False
  end.
Proof. vm_compute. split_and!; try done; (intros H; discriminate H). Qed.

Lemma ex_nonzero a s : kmalloc 600 ex_ready = Ret (a, s) -> a <> 0.
Proof.
  intros H. assert (Hc : match kmalloc 600 ex_ready with Ret (a, _) => a | _ => 1 end = 0xC0008000) by (vm_compute; reflexivity).
  rewrite H in Hc. by rewrite Hc.
Qed.

Lemma kmalloc_spec_witness : exists a s' B', kmalloc 600 ex_ready = Ret (a, s') /\ a mod 16 = 0 /\ inv sizes s' B' {[a]} ∅ (block 1 63).
Proof.
  destruct (kmalloc_spec ex_ready ∅ ∅ (block 1 63) 600 (proj2 ex_ready_run) ltac:(lia))
    as (a & s' & B' & i & Hr & _ & _ & _ & [(H0 & _)|(_ & _ & Hal & Hinv & _)]).
  - by apply ex_nonzero in Hr.
  - exists a, s', B'. rewrite union_empty_r_L in Hinv. by split_and!.
Defined.

(** The object of the examples, by the lemma behind [kmalloc_spec]. *)
Lemma ex_object : exists a s B, kmalloc 600 ex_ready = Ret (a, s) /\ inv sizes s B {[a]} ∅ (block 1 63).
Proof.
  destruct (kmalloc_run ex_ready ∅ ∅ (block 1 63) 600 (proj2 ex_ready_run) ltac:(lia))
    as (a & s' & B' & i & Hr & _ & _ & _ & [(H0 & _)|(_ & _ & _ & Hinv)]); [by apply ex_nonzero in Hr|].
  exists a, s', B'. rewrite union_empty_r_L in Hinv. by split.
Qed.

Lemma kfree_spec_witness : exists a s1 s2 B, kmalloc 600 ex_ready = Ret (a, s1) /\ kfree a s1 = Ret (tt, s2) /\
  inv sizes s2 B ∅ ∅ (block 1 63).
Proof.
  destruct ex_object as (a & s1 & B1 & Hr & Hinv).
  destruct (kfree_spec s1 B1 {[a]} (block 1 63) a Hinv) as (s2 & B2 & Hr2 & Hinv2); [by apply elem_of_singleton|].
  exists a, s1, s2, B2. rewrite difference_diag_L in Hinv2. by split_and!.
Defined.

(** Two objects of 600 bytes and one of 20, the second of the three given back. *)
Definition ex_requests : list request := [Malloc 600; Malloc 20; Malloc 600; Free 1; Free 7].

Example ex_client : match client ex_requests [] ex_ready with
  | Ret (held, _) => held = [0xC0008400; 0xC0008000] | _ => False end.
Proof. vm_compute. reflexivity. Qed.

Lemma slab_no_leak_witness : exists held s1 s2, (slab_init ;; client ex_requests []) ex_start = Ret (held, s1) /\
  free_all held s1 = Ret (tt, s2) /\ free s2 = block 1 63.
Proof.
  destruct (slab_no_leak ex_start ex_requests) as (held & s1 & Hr & _ & _ & Hall);
    [done|done|apply ex_start_ok|repeat constructor; cbn; lia|].
  destruct (Hall held (Permutation_refl held)) as (s2 & Hr2 & Hf).
  exists held, s1, s2. split; [exact Hr|split; [exact Hr2|exact Hf]].
Defined.

Lemma slab_init_spec_witness : exists s', slab_init ex_start = Ret (tt, s') /\ inv sizes s' ∅ ∅ ∅ (free ex_start).
Proof.
  destruct (slab_init_spec ex_start) as (_ & s' & Hr & Hinv & _); [done|done|apply ex_start_ok|]. by exists s'.
Defined.

Lemma kmalloc_too_big_panics_witness : kmalloc 131073 ex_ready = Panic.
Proof. apply kmalloc_too_big_panics. reflexivity. Defined.
End SlabSpec.
