(* ===== verification/Proc.v ===== *)
(** * Processes (kern/process/proc.c)

    The fields of [struct proc_struct] that scheduling and IPC use are in [Kern]; the
    others are the record [pinfo] here, under the same address.  [proc_list] and the
    hash lists are lists of processes, a thread group is the ring of its threads, as a
    list from any of them.  Semaphore queues are those of [Sem]; the address space and
    the open files of a process are behind the interface [Resources], whose operations
    are those of vmm.c, slab.c, pmm.c and fs.c.  Names and the saved kernel registers are left out, but for
    the two that [copy_thread] sets. *)

From S2P Require Import Prelude Kern Sched Wait Sem Event CString.
Import Kern Sched.
Open Scope Z_scope.

(** Run a routine on a part of the state. *)
Definition zoom {S T A} (g : T -> S) (p : S -> T -> T) (m : M S A) : M T A := fun t =>
  match m (g t) with Ret (a, s) => Ret (a, p s t) | Panic => Panic | OutOfFuel => OutOfFuel end.

Fixpoint rzoom_res {S T A} (g : T -> S) (p : S -> T -> T) (r : res S A) (t : T) : res T A :=
  match r with
  | Ok a s => Ok a (p s t)
  | Stop => Stop
  | NoFuel => NoFuel
  | Sleep s k => Sleep (p s t) (fun t' => rzoom_res g p (k (g t')) t')
  end.

Definition rzoom {S T A} (g : T -> S) (p : S -> T -> T) (m : R S A) : R T A :=
  fun t => rzoom_res g p (m (g t)) t.

Module Proc.

Definition PROC_NAME_LEN : Z := 15.
Definition MAX_PROCESS : Z := 4096.
Definition MAX_PID : Z := MAX_PROCESS * 2.
Definition HASH_SHIFT : Z := 10.
Definition HASH_LIST_SIZE : Z := Z.shiftl 1 HASH_SHIFT.
Definition pid_hashfn (x : Z) : Z := CString.hash32 x HASH_SHIFT.
Definition PF_EXITING : Z := 1.
Definition CLONE_VM : Z := 0x100.
Definition CLONE_THREAD : Z := 0x200.
Definition CLONE_SEM : Z := 0x400.
Definition CLONE_FS : Z := 0x800.
Definition KSTACKPAGE : Z := 2.
Definition KSTACKSIZE : Z := KSTACKPAGE * 4096.
Definition FL_IF : Z := 0x200.
(** [sizeof(struct proc_struct)] and [sizeof(struct trapframe)]. *)
Definition sizeof_proc : Z := 188.
Definition sizeof_tf : Z := 76.

Record trapframe := mk_tf { reg_eax : Z; tf_eip : Z; tf_esp : Z; tf_eflags : Z; tf_rest : list Z }.

Record pinfo := mk_info {
  parent : Z; kstack : Z; mm : Z; cr3 : Z; flags : Z; exit_code : Z;
  cptr : Z; yptr : Z; optr : Z; fs_struct : Z;
  tf : option trapframe; context : Z * Z }.

Definition set_parent v x := mk_info v (kstack x) (mm x) (cr3 x) (flags x) (exit_code x) (cptr x) (yptr x) (optr x) (fs_struct x) (tf x) (context x).
Definition set_kstack v x := mk_info (parent x) v (mm x) (cr3 x) (flags x) (exit_code x) (cptr x) (yptr x) (optr x) (fs_struct x) (tf x) (context x).
Definition set_mm v x := mk_info (parent x) (kstack x) v (cr3 x) (flags x) (exit_code x) (cptr x) (yptr x) (optr x) (fs_struct x) (tf x) (context x).
Definition set_cr3 v x := mk_info (parent x) (kstack x) (mm x) v (flags x) (exit_code x) (cptr x) (yptr x) (optr x) (fs_struct x) (tf x) (context x).
Definition set_pflags v x := mk_info (parent x) (kstack x) (mm x) (cr3 x) v (exit_code x) (cptr x) (yptr x) (optr x) (fs_struct x) (tf x) (context x).
Definition set_exit_code v x := mk_info (parent x) (kstack x) (mm x) (cr3 x) (flags x) v (cptr x) (yptr x) (optr x) (fs_struct x) (tf x) (context x).
Definition set_cptr v x := mk_info (parent x) (kstack x) (mm x) (cr3 x) (flags x) (exit_code x) v (yptr x) (optr x) (fs_struct x) (tf x) (context x).
Definition set_yptr v x := mk_info (parent x) (kstack x) (mm x) (cr3 x) (flags x) (exit_code x) (cptr x) v (optr x) (fs_struct x) (tf x) (context x).
Definition set_optr v x := mk_info (parent x) (kstack x) (mm x) (cr3 x) (flags x) (exit_code x) (cptr x) (yptr x) v (fs_struct x) (tf x) (context x).
Definition set_fs v x := mk_info (parent x) (kstack x) (mm x) (cr3 x) (flags x) (exit_code x) (cptr x) (yptr x) (optr x) v (tf x) (context x).
Definition set_tf v c x := mk_info (parent x) (kstack x) (mm x) (cr3 x) (flags x) (exit_code x) (cptr x) (yptr x) (optr x) (fs_struct x) v c.

(** What processes hold: memory, address spaces and open files.  NULL is 0. *)
Class Resources (X : Type) := {
  kmalloc : Z -> M X Z;
  kfree : Z -> M X unit;
  (** [page2kva(alloc_pages(n))], [free_pages(kva2page(a), n)] *)
  alloc_stack : Z -> M X Z;
  free_stack : Z -> Z -> M X unit;
  mm_create : M X Z;
  setup_pgdir : Z -> M X Z;
  lock_mm : Z -> R X unit;
  unlock_mm : Z -> M X unit;
  dup_mmap : Z -> Z -> M X Z;
  exit_mmap : Z -> M X unit;
  put_pgdir : Z -> M X unit;
  mm_destroy : Z -> M X unit;
  mm_count_inc : Z -> M X Z;
  mm_count_dec : Z -> M X Z;
  (** [PADDR(mm->pgdir)], and [to->brk_start], [to->brk] from those of [from] *)
  mm_cr3 : Z -> M X Z;
  copy_brk : Z -> Z -> M X unit;
  user_mem_check : Z -> Z -> Z -> bool -> M X bool;
  copy_int_to_user : Z -> Z -> Z -> M X bool;
  fs_create : M X Z;
  dup_fs : Z -> Z -> R X Z;
  fs_destroy : Z -> R X unit;
  fs_count_inc : Z -> M X Z;
  fs_count_dec : Z -> M X Z
}.

Section Processes.
Context {X : Type} `{Resources X}.
Variable sc : sched_class.
(** The addresses [boot_cr3], [bootstack] and [forkret]. *)
Variables boot_cr3 bootstack forkret : Z.

Record state := mk_state {
  kern : kstate; info : gmap Z pinfo; thread_groups : list (list Z);
  proc_list : list Z; hash_list : gmap Z (list Z); nr_process : Z;
  last_pid : Z; next_safe : Z; initproc : Z; proc_mm_list : list Z; ext : X }.

Definition put_kern k s := mk_state k (info s) (thread_groups s) (proc_list s) (hash_list s) (nr_process s) (last_pid s) (next_safe s) (initproc s) (proc_mm_list s) (ext s).
Definition upd_info f s := mk_state (kern s) (f (info s)) (thread_groups s) (proc_list s) (hash_list s) (nr_process s) (last_pid s) (next_safe s) (initproc s) (proc_mm_list s) (ext s).
Definition upd_groups f s := mk_state (kern s) (info s) (f (thread_groups s)) (proc_list s) (hash_list s) (nr_process s) (last_pid s) (next_safe s) (initproc s) (proc_mm_list s) (ext s).
Definition upd_proc_list f s := mk_state (kern s) (info s) (thread_groups s) (f (proc_list s)) (hash_list s) (nr_process s) (last_pid s) (next_safe s) (initproc s) (proc_mm_list s) (ext s).
Definition upd_hash f s := mk_state (kern s) (info s) (thread_groups s) (proc_list s) (f (hash_list s)) (nr_process s) (last_pid s) (next_safe s) (initproc s) (proc_mm_list s) (ext s).
Definition upd_nr f s := mk_state (kern s) (info s) (thread_groups s) (proc_list s) (hash_list s) (f (nr_process s)) (last_pid s) (next_safe s) (initproc s) (proc_mm_list s) (ext s).
Definition put_pids l n s := mk_state (kern s) (info s) (thread_groups s) (proc_list s) (hash_list s) (nr_process s) l n (initproc s) (proc_mm_list s) (ext s).
Definition put_initproc p s := mk_state (kern s) (info s) (thread_groups s) (proc_list s) (hash_list s) (nr_process s) (last_pid s) (next_safe s) p (proc_mm_list s) (ext s).
Definition upd_mm_list f s := mk_state (kern s) (info s) (thread_groups s) (proc_list s) (hash_list s) (nr_process s) (last_pid s) (next_safe s) (initproc s) (f (proc_mm_list s)) (ext s).
Definition put_ext x s := mk_state (kern s) (info s) (thread_groups s) (proc_list s) (hash_list s) (nr_process s) (last_pid s) (next_safe s) (initproc s) (proc_mm_list s) x.

(** Calls into the other components. *)
Definition kcall {A} : M kstate A -> M state A := zoom kern put_kern.
Definition xcall {A} : M X A -> M state A := zoom ext put_ext.
Definition krun {A} : R kstate A -> R state A := rzoom kern put_kern.
Definition xrun {A} : R X A -> R state A := rzoom ext put_ext.

Definition get_current : M state Z := s <- get ;; ret (current (kern s)).
Definition get_info (p : Z) : M state pinfo := s <- get ;; deref (info s !! p).
Definition set_info (f : pinfo -> pinfo) (p : Z) : M state unit :=
  _ <- get_info p ;; modify (upd_info (alter f p)).

(** ** The process table *)

Definition set_pid (v : Z) (p : proc) : proc :=
  mk_proc (pstate p) v (runs p) (need_resched p) (wait_state p) (prq p) (time_slice p) (event p) (psem_queue p).
Definition set_sem_queue (v : option Z) (p : proc) : proc :=
  mk_proc (pstate p) (pid p) (runs p) (need_resched p) (wait_state p) (prq p) (time_slice p) (event p) v.

(** What [alloc_proc] sets; [exit_code], which it leaves as it is, is written before it is
    read, and starts as 0. *)
Definition new_proc : proc := mk_proc PROC_UNINIT (-1) 0 false 0 None 0 0 None.
Definition new_info : pinfo := mk_info 0 0 0 boot_cr3 0 0 0 0 0 0 None (0, 0).

Definition alloc_proc : M state Z :=
  p <- xcall (kmalloc sizeof_proc) ;;
  if p =? 0 then ret 0
  else
    kcall (modify (upd_procs <[p := new_proc]>)) ;;
    modify (upd_info <[p := new_info]>) ;;
    modify (upd_groups (cons [p])) ;;
    kcall (Event.event_box_init p) ;;
    ret p.

(** [kfree(proc)]: the structure and the links in it are gone. *)
Definition free_proc (p : Z) : M state unit :=
  kcall (modify (upd_procs (delete p))) ;;
  modify (upd_info (delete p)) ;;
  modify (upd_groups (base.filter (fun r => r <> [p]))) ;;
  kcall (modify (upd_wqueues (delete (event_wait_queue p)))) ;;
  xcall (kfree p).

Definition set_links (p : Z) : M state unit :=
  modify (upd_proc_list (cons p)) ;;
  set_info (set_yptr 0) p ;;
  x <- get_info p ;;
  par <- get_info (parent x) ;;
  set_info (set_optr (cptr par)) p ;;
  (if negb (cptr par =? 0) then set_info (set_yptr p) (cptr par) else ret tt) ;;
  set_info (set_cptr p) (parent x) ;;
  modify (upd_nr (fun n => s32 (n + 1))).

Definition remove_links (p : Z) : M state unit :=
  modify (upd_proc_list (remove p)) ;;
  x <- get_info p ;;
  (if negb (optr x =? 0) then set_info (set_yptr (yptr x)) (optr x) else ret tt) ;;
  (if negb (yptr x =? 0) then set_info (set_optr (optr x)) (yptr x)
   else set_info (set_cptr (optr x)) (parent x)) ;;
  modify (upd_nr (fun n => s32 (n - 1))).

(** One walk of [get_pid] over the processes: does it go to [repeat]? *)
Fixpoint pid_scan (l : list Z) : M state bool :=
  match l with
  | [] => ret false
  | p :: l =>
      pr <- kcall (get_proc p) ;;
      s <- get ;;
      if pid pr =? last_pid s then
        let last := last_pid s + 1 in
        if next_safe s <=? last
        then modify (put_pids (if MAX_PID <=? last then 1 else last) MAX_PID) ;; ret true
        else modify (put_pids last (next_safe s)) ;; pid_scan l
      else if (last_pid s <? pid pr) && (pid pr <? next_safe s)
      then modify (put_pids (last_pid s) (pid pr)) ;; pid_scan l
      else pid_scan l
  end.

Fixpoint pid_repeat (fuel : nat) : M state unit :=
  match fuel with
  | O => out_of_fuel
  | S fuel =>
      s <- get ;;
      again <- pid_scan (proc_list s) ;;
      if (again : bool) then pid_repeat fuel else ret tt
  end.

Definition pid_fuel : nat := Z.to_nat (2 * MAX_PID).

Definition get_pid : M state Z :=
  s <- get ;;
  let last := last_pid s + 1 in
  (if MAX_PID <=? last then modify (put_pids 1 MAX_PID) ;; pid_repeat pid_fuel
   else if next_safe s <=? last then modify (put_pids last MAX_PID) ;; pid_repeat pid_fuel
   else modify (put_pids last (next_safe s))) ;;
  s <- get ;; ret (last_pid s).

Definition hash_proc (p : Z) : M state unit :=
  pr <- kcall (get_proc p) ;;
  s <- get ;;
  l <- deref (hash_list s !! pid_hashfn (pid pr)) ;;
  modify (upd_hash <[pid_hashfn (pid pr) := p :: l]>).

Definition unhash_proc (p : Z) : M state unit := modify (upd_hash (fmap (remove p))).

Fixpoint hash_find (l : list Z) (n : Z) : M state Z :=
  match l with
  | [] => ret 0
  | p :: l => pr <- kcall (get_proc p) ;; if pid pr =? n then ret p else hash_find l n
  end.

Definition find_proc (n : Z) : M state Z :=
  if (0 <? n) && (n <? MAX_PID) then
    s <- get ;; l <- deref (hash_list s !! pid_hashfn n) ;; hash_find l n
  else ret 0.

(** ** Thread groups *)

Definition ring_of (gs : list (list Z)) (p : Z) : option (list Z) :=
  List.find (fun r => bool_decide (p ∈ r)) gs.

Definition next_thread (p : Z) : M state Z :=
  s <- get ;; r <- deref (ring_of (thread_groups s) p) ;; deref (ring_next r p).

(** The threads of the group of [p], from [p] on. *)
Fixpoint ring_from (r : list Z) (before : list Z) (p : Z) : list Z :=
  match r with
  | [] => []
  | x :: r' => if x =? p then x :: r' ++ rev before else ring_from r' (x :: before) p
  end.

Definition threads_from (p : Z) : M state (list Z) :=
  s <- get ;; r <- deref (ring_of (thread_groups s) p) ;; ret (ring_from r [] p).

Definition de_thread (p : Z) : M state unit :=
  s <- get ;;
  r <- deref (ring_of (thread_groups s) p) ;;
  if bool_decide (r = [p]) then ret tt
  else modify (upd_groups (fun gs => [p] :: (remove p <$> gs))).

Definition insert_before (q p : Z) (r : list Z) : list Z :=
  flat_map (fun x => if x =? q then [p; x] else [x]) r.

(** [list_add_before(&(q->thread_group), &(p->thread_group))]; were [p] in another ring
    already, that ring would be corrupted, and the model stops. *)
Definition join_thread (q p : Z) : M state unit :=
  s <- get ;;
  assert (bool_decide (ring_of (thread_groups s) p = Some [p])) ;;
  modify (upd_groups (fun gs => insert_before q p <$> base.filter (fun r => r <> [p]) gs)).

(** ** Creation *)

Definition setup_kstack (p : Z) : M state Z :=
  a <- xcall (alloc_stack KSTACKPAGE) ;;
  if negb (a =? 0) then set_info (set_kstack a) p ;; ret 0 else ret (- E_NO_MEM).

Definition put_kstack (p : Z) : M state unit :=
  x <- get_info p ;; xcall (free_stack (kstack x) KSTACKPAGE).

Definition set_flag (f c : Z) : bool := negb (Z.land f c =? 0).

Definition copy_mm (clone_flags p : Z) : R state Z :=
  cur <~ lift get_current ;;
  c <~ lift (get_info cur) ;;
  let oldmm := mm c in
  let good_mm m : R state Z :=
    (if negb (m =? oldmm)
     then lift (xcall (copy_brk m oldmm)) ;;~ lift (modify (upd_mm_list (cons m))) else rret tt) ;;~
    lift (xcall (mm_count_inc m)) ;;~
    lift (set_info (set_mm m) p) ;;~
    r <~ lift (xcall (mm_cr3 m)) ;;
    lift (set_info (set_cr3 r) p) ;;~
    rret 0 in
  if oldmm =? 0 then rret 0
  else if set_flag clone_flags CLONE_VM then good_mm oldmm
  else
    m <~ lift (xcall mm_create) ;;
    if m =? 0 then rret (- E_NO_MEM)
    else
      r <~ lift (xcall (setup_pgdir m)) ;;
      if negb (r =? 0) then lift (xcall (mm_destroy m)) ;;~ rret (- E_NO_MEM)
      else
        xrun (lock_mm oldmm) ;;~
        r <~ lift (xcall (dup_mmap m oldmm)) ;;
        lift (xcall (unlock_mm oldmm)) ;;~
        if negb (r =? 0) then
          lift (xcall (exit_mmap m)) ;;~ lift (xcall (put_pgdir m)) ;;~ lift (xcall (mm_destroy m)) ;;~ rret r
        else good_mm m.

Definition copy_thread (p esp : Z) (t : trapframe) : M state unit :=
  x <- get_info p ;;
  set_info (set_tf (Some (mk_tf 0 (tf_eip t) esp (Z.lor (tf_eflags t) FL_IF) (tf_rest t)))
              (forkret, u32 (kstack x + KSTACKSIZE - sizeof_tf))) p.

(** [w] is the address of the local wait of [down]. *)
Definition copy_sem (clone_flags p w : Z) : R state Z :=
  cur <~ lift get_current ;;
  c <~ lift (kcall (get_proc cur)) ;;
  let good_sem_queue q : R state Z :=
    lift (kcall (update_semq (fun x => mk_semq (s32 (sq_count x + 1)) (semu_list x)) q)) ;;~
    lift (kcall (update_proc (set_sem_queue (Some q)) p)) ;;~
    rret 0 in
  match psem_queue c with
  | None => rret 0
  | Some old =>
      if set_flag clone_flags CLONE_SEM then good_sem_queue old
      else
        q <~ lift (kcall Sem.sem_queue_create) ;;
        match q with
        | None => rret (- E_NO_MEM)
        | Some q =>
            krun (Sem.down old w) ;;~
            r <~ lift (kcall (Sem.dup_sem_queue q old)) ;;
            lift (kcall (Sem.up sc old)) ;;~
            if negb (r =? 0) then
              lift (kcall (Sem.exit_sem_queue q)) ;;~ lift (kcall (Sem.sem_queue_destroy q)) ;;~ rret r
            else good_sem_queue q
        end
  end.

Definition put_sem_queue (p : Z) : M state unit :=
  c <- kcall (get_proc p) ;;
  match psem_queue c with
  | None => ret tt
  | Some q =>
      kcall (update_semq (fun x => mk_semq (s32 (sq_count x - 1)) (semu_list x)) q) ;;
      x <- kcall (get_semq q) ;;
      if sq_count x =? 0 then kcall (Sem.exit_sem_queue q) ;; kcall (Sem.sem_queue_destroy q) else ret tt
  end.

Definition copy_fs (clone_flags p : Z) : R state Z :=
  cur <~ lift get_current ;;
  c <~ lift (get_info cur) ;;
  let old := fs_struct c in
  let good_fs_struct f : R state Z :=
    lift (xcall (fs_count_inc f)) ;;~ lift (set_info (set_fs f) p) ;;~ rret 0 in
  lift (assert (negb (old =? 0))) ;;~
  if set_flag clone_flags CLONE_FS then good_fs_struct old
  else
    f <~ lift (xcall fs_create) ;;
    if f =? 0 then rret (- E_NO_MEM)
    else
      r <~ xrun (dup_fs f old) ;;
      if negb (r =? 0) then xrun (fs_destroy f) ;;~ rret r else good_fs_struct f.

Definition put_fs (p : Z) : R state unit :=
  x <~ lift (get_info p) ;;
  if negb (fs_struct x =? 0) then
    n <~ lift (xcall (fs_count_dec (fs_struct x))) ;;
    if n =? 0 then xrun (fs_destroy (fs_struct x)) else rret tt
  else rret tt.

(** The new process takes half of the time slice of its parent. *)
Definition fork_prepare (p : Z) : M state unit :=
  cur <- get_current ;;
  set_info (set_parent cur) p ;;
  c <- kcall (get_proc cur) ;;
  assert (wait_state c =? 0) ;;
  assert (0 <=? time_slice c) ;;
  kcall (update_proc (set_time_slice (time_slice c ÷ 2)) p) ;;
  kcall (update_proc (set_time_slice (time_slice c - time_slice c ÷ 2)) cur).

(** The block of [do_fork] with interrupts off, and the wake-up. *)
Definition fork_publish (clone_flags p : Z) : M state Z :=
  n <- get_pid ;;
  kcall (update_proc (set_pid n) p) ;;
  hash_proc p ;;
  set_links p ;;
  cur <- get_current ;;
  (if set_flag clone_flags CLONE_THREAD then join_thread cur p else ret tt) ;;
  kcall (wakeup_proc sc p) ;;
  pr <- kcall (get_proc p) ;;
  ret (pid pr).

(** [do_fork] up to the kernel stack: the code, and the structure, or 0. *)
Definition fork_start : M state (Z * Z) :=
  s <- get ;;
  if MAX_PROCESS <=? nr_process s then ret (- E_NO_FREE_PROC, 0)
  else
    p <- alloc_proc ;;
    if p =? 0 then ret (- E_NO_MEM, 0)
    else
      fork_prepare p ;;
      r <- setup_kstack p ;;
      if negb (r =? 0) then free_proc p ;; ret (- E_NO_MEM, 0) else ret (0, p).

(** The copies, with what [bad_fork_cleanup_fs] and [bad_fork_cleanup_sem] undo. *)
Definition fork_copy (clone_flags p w : Z) : R state Z :=
  r <~ copy_sem clone_flags p w ;;
  if negb (r =? 0) then rret r
  else
    r <~ copy_fs clone_flags p ;;
    if negb (r =? 0) then lift (put_sem_queue p) ;;~ rret r
    else
      r <~ copy_mm clone_flags p ;;
      if negb (r =? 0) then put_fs p ;;~ lift (put_sem_queue p) ;;~ rret r else rret 0.

(** After the copies, [ret] being their code: [bad_fork_cleanup_kstack] and on, or the
    publication. *)
Definition fork_end (clone_flags p stack : Z) (t : trapframe) (r : Z) : M state Z :=
  if negb (r =? 0) then put_kstack p ;; free_proc p ;; ret (- E_NO_MEM)
  else copy_thread p stack t ;; fork_publish clone_flags p.

Definition do_fork (clone_flags stack : Z) (t : trapframe) (w : Z) : R state Z :=
  rp <~ lift fork_start ;;
  if snd rp =? 0 then rret (fst rp)
  else r <~ fork_copy clone_flags (snd rp) w ;; lift (fork_end clone_flags (snd rp) stack t r).

(** [fn] and [arg] in [ebx] and [edx], the kernel's segments and the entry point are the
    registers [regs]. *)
Definition kernel_thread (entry : Z) (regs : list Z) (clone_flags w : Z) : R state Z :=
  do_fork (Z.lor clone_flags CLONE_VM) 0 (mk_tf 0 entry 0 0 regs) w.

(** ** The end of a process *)

(** The first loop of the block of [__do_exit], over the threads of the parent. *)
Fixpoint wake_waiting (l : list Z) : M state unit :=
  match l with
  | [] => ret tt
  | q :: l =>
      c <- kcall (get_proc q) ;;
      (if wait_state c =? WT_CHILD then kcall (wakeup_proc sc q) else ret tt) ;;
      wake_waiting l
  end.

(** [while (current->cptr != NULL)]. *)
Fixpoint reparent_loop (fuel : nat) (cur par : Z) : M state unit :=
  match fuel with
  | O => out_of_fuel
  | S fuel =>
      c <- get_info cur ;;
      if cptr c =? 0 then ret tt
      else
        let p := cptr c in
        x <- get_info p ;;
        set_info (set_cptr (optr x)) cur ;;
        set_info (set_yptr 0) p ;;
        y <- get_info par ;;
        set_info (set_optr (cptr y)) p ;;
        (if negb (cptr y =? 0) then set_info (set_yptr p) (cptr y) else ret tt) ;;
        set_info (set_parent par) p ;;
        set_info (set_cptr p) par ;;
        pr <- kcall (get_proc p) ;;
        q <- kcall (get_proc par) ;;
        (if is_state (pstate pr) PROC_ZOMBIE && (wait_state q =? WT_CHILD)
         then kcall (wakeup_proc sc par) else ret tt) ;;
        reparent_loop fuel cur par
  end.

(** The part of [__do_exit] with interrupts off. *)
Definition exit_block : M state unit :=
  cur <- get_current ;;
  c <- get_info cur ;;
  l <- threads_from (parent c) ;;
  wake_waiting l ;;
  n <- next_thread cur ;;
  s <- get ;;
  let par := if n =? cur then initproc s else n in
  de_thread cur ;;
  s <- get ;;
  reparent_loop (S (length (proc_list s))) cur par ;;
  kcall (Wait.wakeup_queue sc (event_wait_queue cur) WT_INTERRUPTED true).

(** Giving up the address space, in [__do_exit] and [do_execve]. *)
Definition put_mm (cur : Z) : M state unit :=
  c <- get_info cur ;;
  if negb (mm c =? 0) then
    n <- xcall (mm_count_dec (mm c)) ;;
    (if n =? 0 then
       xcall (exit_mmap (mm c)) ;; xcall (put_pgdir (mm c)) ;;
       modify (upd_mm_list (remove (mm c))) ;;
       xcall (mm_destroy (mm c))
     else ret tt) ;;
    set_info (set_mm 0) cur
  else ret tt.

Definition __do_exit : R state unit :=
  s <~ lift get ;;
  let cur := current (kern s) in
  lift (assert (negb (cur =? idleproc (kern s)))) ;;~
  lift (assert (negb (cur =? initproc s))) ;;~
  lift (put_mm cur) ;;~
  put_fs cur ;;~
  lift (put_sem_queue cur) ;;~
  lift (kcall (update_proc (set_pstate PROC_ZOMBIE) cur) ;; exit_block) ;;~
  sleep ;;~
  lift panic.

Definition do_exit_thread (error_code : Z) : R state unit :=
  cur <~ lift get_current ;;
  lift (set_info (set_exit_code error_code) cur) ;;~
  __do_exit.

Definition may_killed : R state unit :=
  cur <~ lift get_current ;;
  c <~ lift (get_info cur) ;;
  if set_flag (flags c) PF_EXITING then __do_exit else rret tt.

Definition __do_kill (p error_code : Z) : M state Z :=
  c <- get_info p ;;
  if negb (set_flag (flags c) PF_EXITING) then
    set_info (set_pflags (Z.lor (flags c) PF_EXITING)) p ;;
    set_info (set_exit_code error_code) p ;;
    pr <- kcall (get_proc p) ;;
    (if set_flag (wait_state pr) WT_INTERRUPTED then kcall (wakeup_proc sc p) else ret tt) ;;
    ret 0
  else ret (- E_KILLED).

Definition do_kill (n error_code : Z) : M state Z :=
  p <- find_proc n ;;
  if negb (p =? 0) then __do_kill p error_code else ret (- E_INVAL).

Fixpoint kill_threads (l : list Z) (error_code : Z) : M state unit :=
  match l with
  | [] => ret tt
  | p :: l => _ <- __do_kill p error_code ;; kill_threads l error_code
  end.

Definition do_exit (error_code : Z) : R state unit :=
  cur <~ lift get_current ;;
  l <~ lift (threads_from cur) ;;
  lift (kill_threads (List.tl l) error_code) ;;~
  do_exit_thread error_code.

(** ** Waiting for a child *)

(** Is [p] a child of one of the threads [l], and is it a zombie? *)
Fixpoint wait_pid_loop (l : list Z) (p : Z) : M state (option bool) :=
  match l with
  | [] => ret None
  | cproc :: l =>
      x <- get_info p ;;
      if parent x =? cproc then
        pr <- kcall (get_proc p) ;; ret (Some (is_state (pstate pr) PROC_ZOMBIE))
      else wait_pid_loop l p
  end.

(** [for (; proc != NULL; proc = proc->optr)]: a zombie among the children from [p] on,
    else 0, and whether there was any child. *)
Fixpoint wait_children (fuel : nat) (p : Z) (haskid : bool) : M state (Z * bool) :=
  match fuel with
  | O => out_of_fuel
  | S fuel =>
      if p =? 0 then ret (0, haskid)
      else
        pr <- kcall (get_proc p) ;;
        if is_state (pstate pr) PROC_ZOMBIE then ret (p, true)
        else x <- get_info p ;; wait_children fuel (optr x) true
  end.

Fixpoint wait_any_loop (l : list Z) (haskid : bool) : M state (Z * bool) :=
  match l with
  | [] => ret (0, haskid)
  | cproc :: l =>
      x <- get_info cproc ;;
      s <- get ;;
      r <- wait_children (S (length (proc_list s))) (cptr x) haskid ;;
      if negb (fst r =? 0) then ret r else wait_any_loop l (snd r)
  end.

(** From [repeat] to [found]: the zombie, or 0, and [haskid]. *)
Definition wait_search (n : Z) : M state (Z * bool) :=
  cur <- get_current ;;
  if negb (n =? 0) then
    p <- find_proc n ;;
    if negb (p =? 0) then
      l <- threads_from cur ;;
      o <- wait_pid_loop l p ;;
      match o with
      | Some true => ret (p, true)
      | Some false => ret (0, true)
      | None => ret (0, false)
      end
    else ret (0, false)
  else l <- threads_from cur ;; wait_any_loop l false.

(** From [found] on, up to the copy of the exit code. *)
Definition wait_reap (p : Z) : M state Z :=
  s <- get ;;
  assert (negb ((p =? idleproc (kern s)) || (p =? initproc s))) ;;
  x <- get_info p ;;
  unhash_proc p ;;
  remove_links p ;;
  put_kstack p ;;
  free_proc p ;;
  ret (exit_code x).

(** [fuel] bounds the number of times the process sleeps. *)
Fixpoint wait_loop (fuel : nat) (n mm code_store : Z) : R state Z :=
  match fuel with
  | O => lift out_of_fuel
  | S fuel =>
      r <~ lift (wait_search n) ;;
      if negb (fst r =? 0) then
        code <~ lift (wait_reap (fst r)) ;;
        if negb (code_store =? 0) then
          xrun (lock_mm mm) ;;~
          ok <~ lift (xcall (copy_int_to_user mm code_store code)) ;;
          lift (xcall (unlock_mm mm)) ;;~
          rret (if (ok : bool) then 0 else - E_INVAL)
        else rret 0
      else if (snd r : bool) then
        cur <~ lift get_current ;;
        lift (kcall (update_proc (set_pstate PROC_SLEEPING) cur)) ;;~
        lift (kcall (update_proc (set_wait_state WT_CHILD) cur)) ;;~
        sleep ;;~
        may_killed ;;~
        wait_loop fuel n mm code_store
      else rret (- E_BAD_PROC)
  end.

Definition do_wait (fuel : nat) (n code_store : Z) : R state Z :=
  cur <~ lift get_current ;;
  c <~ lift (get_info cur) ;;
  ok <~ (if negb (code_store =? 0) then lift (xcall (user_mem_check (mm c) code_store 4 true)) else rret true) ;;
  if (ok : bool) then wait_loop fuel n (mm c) code_store else rret (- E_INVAL).

(** ** Sleeping *)

Definition do_yield : M state Z :=
  cur <- get_current ;; kcall (update_proc (set_need_resched true) cur) ;; ret 0.

(** [t] is the address of the local timer. *)
Definition do_sleep (time t : Z) : R state Z :=
  if time =? 0 then rret 0
  else
    cur <~ lift get_current ;;
    lift (kcall (timer_init t cur time)) ;;~
    lift (kcall (update_proc (set_pstate PROC_SLEEPING) cur)) ;;~
    lift (kcall (update_proc (set_wait_state WT_TIMER) cur)) ;;~
    lift (kcall (add_timer t)) ;;~
    sleep ;;~
    lift (kcall (del_timer t)) ;;~
    rret 0.

(** ** Start-up *)

(** [proc_init] up to the creation of [init_main]: [entry] and [regs] describe it. *)
Definition proc_init (entry : Z) (regs : list Z) (w : Z) : R state unit :=
  lift (modify (upd_proc_list (fun _ => []))) ;;~
  lift (modify (upd_mm_list (fun _ => []))) ;;~
  lift (modify (upd_hash (fun _ => array HASH_LIST_SIZE (fun _ => [])))) ;;~
  p <~ lift alloc_proc ;;
  lift (assert (negb (p =? 0))) ;;~
  lift (kcall (modify (fun k => mk_kstate (procs k) (current k) p (rqs k) (rq_ring k) (timers k) (timer_list k) (waits k) (wqueues k) (ticks k) (ipc k)))) ;;~
  lift (kcall (update_proc (set_pid 0) p)) ;;~
  lift (kcall (update_proc (set_pstate PROC_RUNNABLE) p)) ;;~
  lift (set_info (set_kstack bootstack) p) ;;~
  lift (kcall (update_proc (set_need_resched true) p)) ;;~
  f <~ lift (xcall fs_create) ;;
  lift (assert (negb (f =? 0))) ;;~
  lift (set_info (set_fs f) p) ;;~
  lift (xcall (fs_count_inc f)) ;;~
  lift (modify (upd_nr (fun n => s32 (n + 1)))) ;;~
  lift (kcall (modify (upd_current p))) ;;~
  n <~ kernel_thread entry regs 0 w ;;
  lift (assert (0 <? n)) ;;~
  q <~ lift (find_proc n) ;;
  lift (modify (put_initproc q)) ;;~
  x <~ lift (kcall (get_proc p)) ;;
  lift (assert (pid x =? 0)) ;;~
  lift (assert (negb (q =? 0))) ;;~
  y <~ lift (kcall (get_proc q)) ;;
  lift (assert (pid y =? 1)).

End Processes.
End Proc.
