(* ===== verification/ProcTable.v ===== *)
(** * The process table: pids, hash lists, families and thread groups

    Lemmas about the parts of proc.c that keep the table: [get_pid], [find_proc],
    [set_links], [remove_links] and the rings of threads. *)

From S2P Require Import Prelude Kern Sched Proc.
Import Kern Sched Proc.
Open Scope Z_scope.

Module ProcTable.

(** Decide the tests the hypotheses settle. *)
Ltac settle :=
  repeat match goal with
  | |- context [decide ?P] =>
      first [rewrite (decide_True (P := P)) by (congruence || (split; congruence))
            |rewrite (decide_False (P := P)) by (congruence || (intros [? ?]; congruence))]
  end.

Lemma lookup_alter_at {A} (f : A -> A) (m : gmap Z A) i j :
  alter f i m !! j = (if decide (j = i) then f <$> m !! j else m !! j).
Proof. rewrite lookup_alter. destruct (decide (i = j)) as [->|]; [by rewrite decide_True|by rewrite decide_False by congruence]. Qed.

Section Table.
Context {X : Type}.
#[local] Abbreviation state := (state (X := X)).

Lemma put_kern_id (s : state) : put_kern (kern s) s = s.
Proof using Type. by destruct s. Qed.

Lemma put_pids_put a b a' b' (s : state) : put_pids a b (put_pids a' b' s) = put_pids a b s.
Proof using Type. done. Qed.

Lemma put_pids_id (s : state) : put_pids (last_pid s) (next_safe s) s = s.
Proof using Type. by destruct s. Qed.

Lemma kcall_run {A} (m : M kstate A) (s : state) a k : m (kern s) = Ret (a, k) -> kcall m s = Ret (a, put_kern k s).
Proof using Type. intros Hm. unfold kcall, zoom. by rewrite Hm. Qed.

Lemma kget_run (s : state) p x : procs (kern s) !! p = Some x -> kcall (get_proc p) s = Ret (x, s).
Proof using Type. intros Hx. rewrite (kcall_run _ s x (kern s)) by (by apply get_proc_ok). by rewrite put_kern_id. Qed.

Lemma get_info_run (s : state) p x : info s !! p = Some x -> get_info p s = Ret (x, s).
Proof using Type. intros Hx. unfold get_info. rewrite bind_get, Hx. done. Qed.

Lemma set_info_run (s : state) f p : is_Some (info s !! p) -> set_info f p s = Ret (tt, upd_info (alter f p) s).
Proof using Type. intros [x Hx]. unfold set_info. by rewrite (bind_step _ _ _ _ _ (get_info_run s p x Hx)). Qed.

(** ** Pids *)

Definition pid_is (s : state) (p n : Z) : Prop := pid <$> procs (kern s) !! p = Some n.

(** [n] is the pid of one of [l]. *)
Definition used (s : state) (l : list Z) (n : Z) : Prop := exists p, p ∈ l /\ pid_is s p n.

Definition known (s : state) (l : list Z) : Prop := forall p, p ∈ l -> is_Some (procs (kern s) !! p).

Lemma used_cons s p l n x : procs (kern s) !! p = Some x -> used s (p :: l) n <-> n = pid x \/ used s l n.
Proof using Type.
  intros Hx. unfold used, pid_is. split.
  - intros (q & [->|Hq]%elem_of_cons & Hn); [rewrite Hx in Hn; injection Hn as <-; by left|right; by exists q].
  - intros [->|(q & Hq & Hn)]; [exists p; rewrite Hx; split; [left|done]|exists q; split; [by right|done]].
Qed.

Lemma scan_run : forall (l : list Z) (s : state), known s l ->
  1 <= last_pid s < next_safe s -> next_safe s <= MAX_PID ->
  exists again k ns, last_pid s <= k <= MAX_PID /\ (forall n, last_pid s <= n < k -> used s l n) /\
    pid_scan l s = Ret (again, put_pids (if (again : bool) && (MAX_PID <=? k) then 1 else k) ns s) /\
    if again then ns = MAX_PID /\ last_pid s < k
    else k < ns <= next_safe s /\ forall n, used s l n -> ~ k <= n < ns.
Proof using Type.
  induction l as [|p l IH]; intros s Hk Hl Hn; cbn [pid_scan].
  - exists false, (last_pid s), (next_safe s). cbn [andb]. rewrite put_pids_id. split_and!; try done; try lia.
    intros n (q & ?%not_elem_of_nil & _). done.
  - destruct (Hk p) as [x Hx]; [left|]. rewrite (bind_step _ _ _ _ _ (kget_run s p x Hx)), bind_get. cbv zeta.
    assert (Hk' : known s l) by (intros q Hq; apply Hk; by right).
    assert (Hu : forall a b (n : Z), used (put_pids a b s) l n <-> used s l n) by done.
    destruct (Z.eqb_spec (pid x) (last_pid s)) as [He|Hne].
    + destruct (Z.leb_spec (next_safe s) (last_pid s + 1)) as [Hge|Hlt].
      * exists true, (last_pid s + 1), MAX_PID. cbn [andb]. split; [lia|]. split; [|split; [by rewrite bind_modify|lia]].
        intros n Hr. apply (used_cons s p l n x Hx). left. lia.
      * rewrite bind_modify.
        destruct (IH (put_pids (last_pid s + 1) (next_safe s) s)) as (again & k & ns & H1 & H2 & H3 & H4); [done|cbn; lia..|].
        exists again, k, ns. cbn [last_pid next_safe put_pids] in *. rewrite put_pids_put in H3.
        split; [lia|]. split; [|split; [done|]].
        -- intros n Hr. apply (used_cons s p l n x Hx). destruct (decide (n = pid x)); [by left|right]. apply (H2 n). lia.
        -- destruct again; [lia|]. destruct H4 as [H4 H5]. split; [done|]. intros n Hu'.
           apply (used_cons s p l n x Hx) in Hu' as [->|Hu']; [lia|by apply H5].
    + assert (Hgo : forall ns0, last_pid s < ns0 <= next_safe s -> ~ last_pid s <= pid x < ns0 ->
        exists again k ns, last_pid s <= k <= MAX_PID /\ (forall n, last_pid s <= n < k -> used s (p :: l) n) /\
          pid_scan l (put_pids (last_pid s) ns0 s) = Ret (again, put_pids (if (again : bool) && (MAX_PID <=? k) then 1 else k) ns s) /\
          if again then ns = MAX_PID /\ last_pid s < k
          else k < ns <= next_safe s /\ forall n, used s (p :: l) n -> ~ k <= n < ns).
      { intros ns0 Hr Hout. destruct (IH (put_pids (last_pid s) ns0 s)) as (again & k & ns & H1 & H2 & H3 & H4); [done|cbn; lia..|].
        exists again, k, ns. cbn [last_pid next_safe put_pids] in *. rewrite put_pids_put in H3. split; [done|]. split; [|split; [done|]].
        - intros n Hrn. apply (used_cons s p l n x Hx). right. by apply H2.
        - destruct again; [done|]. destruct H4 as [H4 H5]. split; [lia|]. intros n Hu'.
          apply (used_cons s p l n x Hx) in Hu' as [->|Hu']; [lia|by apply H5]. }
      destruct ((last_pid s <? pid x) && (pid x <? next_safe s)) eqn:Hc.
      * apply andb_true_iff in Hc as [?%Z.ltb_lt ?%Z.ltb_lt]. rewrite bind_modify. apply Hgo; lia.
      * specialize (Hgo (next_safe s)). rewrite put_pids_id in Hgo. apply Hgo; [lia|].
        apply andb_false_iff in Hc as [?%Z.ltb_ge|?%Z.ltb_ge]; lia.
Qed.

(** What the loop of [get_pid] leaves: no process has a pid from [n] up to [ns]. *)
Definition pid_found (s : state) (n ns : Z) : Prop :=
  1 <= n < ns /\ ns <= MAX_PID /\ forall m, used s (proc_list s) m -> ~ n <= m < ns.

Lemma repeat_free f : forall fuel (s : state), known s (proc_list s) -> next_safe s = MAX_PID ->
  1 <= last_pid s <= f -> f < MAX_PID -> ~ used s (proc_list s) f -> f - last_pid s < Z.of_nat fuel ->
  exists n ns, pid_repeat fuel s = Ret (tt, put_pids n ns s) /\ pid_found s n ns.
Proof using Type.
  induction fuel as [|fuel IH]; intros s Hk Hs Hl Hf Hu Hfuel; [lia|]. cbn [pid_repeat]. rewrite bind_get.
  destruct (scan_run (proc_list s) s Hk) as ([|] & k & ns & H1 & H2 & H3 & H4); [lia|lia|..]; rewrite (bind_step _ _ _ _ _ H3).
  - assert (k <= f). { destruct (Z.le_gt_cases k f); [done|]. exfalso. apply Hu, H2. lia. }
    rewrite (proj2 (Z.leb_gt MAX_PID k)) by lia. cbn [andb]. destruct H4 as [-> H4].
    destruct (IH (put_pids k MAX_PID s)) as (n & ns & Hr & Hp); [done|done|cbn; lia|done|done|cbn; lia|]. by exists n, ns.
  - exists k, ns. split; [done|]. destruct H4. split; [lia|]. split; [lia|done].
Qed.

Lemma repeat_run f : forall fuel (s : state), known s (proc_list s) -> next_safe s = MAX_PID ->
  1 <= last_pid s < MAX_PID -> 1 <= f < MAX_PID -> ~ used s (proc_list s) f -> MAX_PID - last_pid s + f < Z.of_nat fuel ->
  exists n ns, pid_repeat fuel s = Ret (tt, put_pids n ns s) /\ pid_found s n ns.
Proof using Type.
  induction fuel as [|fuel IH]; intros s Hk Hs Hl Hf Hu Hfuel; [lia|]. cbn [pid_repeat]. rewrite bind_get.
  destruct (scan_run (proc_list s) s Hk) as ([|] & k & ns & H1 & H2 & H3 & H4); [lia|lia|..]; rewrite (bind_step _ _ _ _ _ H3).
  - destruct H4 as [-> H4]. destruct (Z.leb_spec MAX_PID k) as [Hw|Hw]; cbn [andb].
    + destruct (repeat_free f fuel (put_pids 1 MAX_PID s)) as (n & ns & Hr & Hp); [done|done|cbn; lia|lia|done|cbn; lia|]. by exists n, ns.
    + destruct (IH (put_pids k MAX_PID s)) as (n & ns & Hr & Hp); [done|done|cbn; lia|done|done|cbn; lia|]. by exists n, ns.
  - exists k, ns. split; [done|]. destruct H4. split; [lia|]. split; [lia|done].
Qed.

(** Fewer processes than pids leave one free. *)
Lemma free_pid (s : state) l : Z.of_nat (length l) < MAX_PID - 1 -> exists f, 1 <= f < MAX_PID /\ ~ used s l f.
Proof using Type.
  intros Hlen. set (pids := omap (fun p => pid <$> procs (kern s) !! p) l).
  assert (Hp : forall n, used s l n -> n ∈ pids).
  { intros n (p & Hp & Hn). apply list_elem_of_omap. by exists p. }
  assert (Hle : (length pids <= length l)%nat) by (unfold pids; clear; induction l as [|p l IH]; cbn; [done|]; destruct (procs (kern s) !! p); cbn; lia).
  destruct (decide (Exists (fun n => n ∉ pids) (seqZ 1 (MAX_PID - 1)))) as [(f & Hf & Hn)%Exists_exists|Hno].
  - apply elem_of_seqZ in Hf. exists f. split; [lia|]. intros Hu. by apply Hn, Hp.
  - exfalso. assert (Hs : seqZ 1 (MAX_PID - 1) ⊆+ pids).
    { apply NoDup_submseteq; [apply NoDup_seqZ|]. intros n Hn. destruct (decide (n ∈ pids)); [done|]. exfalso. apply Hno, Exists_exists. by exists n. }
    apply submseteq_length in Hs. rewrite length_seqZ in Hs. lia.
Qed.

(** Between calls: no process has a pid strictly between [last_pid] and [next_safe]. *)
Definition pids_ok (s : state) : Prop :=
  1 <= last_pid s <= MAX_PID /\ next_safe s <= MAX_PID /\
  forall n, used s (proc_list s) n -> ~ last_pid s < n < next_safe s.

Lemma get_pid_run (s : state) :
  pids_ok s -> known s (proc_list s) -> Z.of_nat (length (proc_list s)) < MAX_PID - 1 ->
  exists n ns, get_pid s = Ret (n, put_pids n ns s) /\ pid_found s n ns.
Proof using Type.
  intros (Hl & Hn & Hgap) Hk Hlen. destruct (free_pid s (proc_list s) Hlen) as (f & Hf & Hu).
  unfold get_pid. rewrite bind_get. cbv zeta.
  assert (Hfuel : Z.of_nat pid_fuel = 2 * MAX_PID) by (unfold pid_fuel; rewrite Z2Nat.id; [done|unfold MAX_PID, MAX_PROCESS; lia]).
  assert (Hrep : forall l, 1 <= l < MAX_PID -> exists n ns, (modify (put_pids l MAX_PID) ;; pid_repeat pid_fuel) s = Ret (tt, put_pids n ns s) /\ pid_found s n ns).
  { intros l Hr. rewrite bind_modify. destruct (repeat_run f pid_fuel (put_pids l MAX_PID s)) as (n & ns & Hrun & Hp); [done|done|done|done|done|cbn [last_pid put_pids]; lia|].
    by exists n, ns. }
  destruct (Z.leb_spec MAX_PID (last_pid s + 1)) as [Hw|Hw].
  - destruct (Hrep 1) as (n & ns & Hrun & Hp); [unfold MAX_PID, MAX_PROCESS; lia|]. exists n, ns. by rewrite (bind_step _ _ _ _ _ Hrun).
  - destruct (Z.leb_spec (next_safe s) (last_pid s + 1)) as [Hs|Hs].
    + destruct (Hrep (last_pid s + 1)) as (n & ns & Hrun & Hp); [lia|]. exists n, ns. by rewrite (bind_step _ _ _ _ _ Hrun).
    + exists (last_pid s + 1), (next_safe s). rewrite bind_modify. split; [done|]. split; [lia|]. split; [done|].
      intros m Hm Hr. apply (Hgap m Hm). lia.
Qed.

(** ** Families

    [sibs i par y first l]: from [first] on, the children of [par] are [l], linked by
    [optr] and back by [yptr]; the first has the younger sibling [y]. *)

Fixpoint sibs (i : gmap Z pinfo) (par y first : Z) (l : list Z) : Prop :=
  match l with
  | [] => first = 0
  | c :: l => first = c /\ exists x, i !! c = Some x /\ parent x = par /\ yptr x = y /\ sibs i par c (optr x) l
  end.

Definition links (x : pinfo) : Z * Z * Z := (parent x, yptr x, optr x).

Lemma sibs_ext i i' par : forall l y f,
  (forall c, c ∈ l -> links <$> i' !! c = links <$> i !! c) -> sibs i par y f l -> sibs i' par y f l.
Proof using Type.
  induction l as [|c l IH]; intros y f Hext; cbn [sibs]; [done|]. intros (-> & x & Hx & Hp & Hy & Hl). split; [done|].
  pose proof (Hext c ltac:(left)) as E. rewrite Hx in E. apply fmap_Some in E as (x' & Hx' & E).
  unfold links in E. injection E as E1 E2 E3. exists x'. rewrite <- E1, <- E2, <- E3. split_and!; try done.
  apply IH; [|done]. intros d Hd. apply Hext. by right.
Qed.

Lemma sibs_known i par : forall l y f c, sibs i par y f l -> c ∈ l -> exists x, i !! c = Some x /\ parent x = par.
Proof using Type.
  induction l as [|d l IH]; intros y f c; [by intros _ ?%not_elem_of_nil|]. cbn [sibs].
  intros (-> & x & Hx & Hp & _ & Hl) [->|Hc]%elem_of_cons; [by exists x|]. by apply (IH _ _ _ Hl).
Qed.

Lemma sibs_head i par y f l : sibs i par y f l -> f = hd 0 l.
Proof using Type. destruct l; cbn; [done|by intros [-> _]]. Qed.

Lemma last_shift (l : list Z) : forall d y, List.last (d :: l) y = List.last l d.
Proof using Type.
  induction l as [|e l IH]; intros d y; [done|]. change (List.last (d :: e :: l) y) with (List.last (e :: l) y). by rewrite (IH e y), (IH e d).
Qed.

Lemma last_or (l : list Z) d : List.last l d = default d (last l).
Proof using Type. revert d. induction l as [|e l IH]; intros d; [done|]. rewrite last_shift, IH, last_cons. by destruct (last l). Qed.

Lemma sibs_ends i par c x l2 : forall l1 y f, sibs i par y f (l1 ++ c :: l2) -> i !! c = Some x ->
  yptr x = List.last l1 y /\ optr x = hd 0 l2.
Proof using Type.
  induction l1 as [|d l1 IH]; intros y f; cbn [app sibs]; intros (-> & x1 & Hx1 & _ & Hy & Hl) Hx.
  - rewrite Hx in Hx1. injection Hx1 as <-. split; [done|]. by apply sibs_head in Hl.
  - rewrite last_shift. by apply (IH _ _ Hl).
Qed.

(** A child taken out of the list: the links around it are closed. *)
Lemma sibs_unlink i i' par c x l2 : forall l1 y f,
  NoDup (l1 ++ c :: l2) -> sibs i par y f (l1 ++ c :: l2) -> i !! c = Some x ->
  (forall e x0, e ∈ l1 ++ l2 -> i !! e = Some x0 -> exists x', i' !! e = Some x' /\ parent x' = parent x0 /\
     yptr x' = (if decide (head l2 = Some e) then yptr x else yptr x0) /\
     optr x' = (if decide (last l1 = Some e) then optr x else optr x0)) ->
  yptr x = List.last l1 y /\ optr x = hd 0 l2 /\
  sibs i' par y (if l1 is [] then optr x else f) (l1 ++ l2).
Proof using Type.
  induction l1 as [|d l1 IH]; intros y f Hnd Hs Hx Hrel; cbn [app] in *.
  - destruct Hs as (-> & x1 & Hx1 & Hp & Hy & Hl). rewrite Hx in Hx1. injection Hx1 as <-.
    pose proof (sibs_head _ _ _ _ _ Hl) as Ho. split_and!; [done|done|]. destruct l2 as [|e l2]; [exact Hl|].
    cbn [sibs] in Hl |- *. destruct Hl as (-> & x2 & Hx2 & Hp2 & Hy2 & Hl). split; [done|].
    destruct (Hrel e x2) as (x' & Hx' & E1 & E2 & E3); [left|done|]. cbn [head] in E2. rewrite decide_True in E2 by done.
    rewrite decide_False in E3 by done. exists x'. rewrite E1, E2, E3. split_and!; try done.
    apply (sibs_ext i); [|done]. intros g Hg. apply NoDup_cons in Hnd as [Hn1 [Hn2 _]%NoDup_cons].
    destruct (sibs_known _ _ _ _ _ g Hl Hg) as (x3 & Hx3 & _). destruct (Hrel g x3) as (x4 & Hx4 & F1 & F2 & F3); [by right|done|].
    cbn [head] in F2. rewrite decide_False in F2 by (intros [= ->]; done). rewrite decide_False in F3 by done.
    rewrite Hx3, Hx4. cbn. unfold links. by rewrite F1, F2, F3.
  - destruct Hs as (-> & x1 & Hx1 & Hp & Hy & Hl). apply NoDup_cons in Hnd as [Hn Hnd].
    destruct (IH d (optr x1) Hnd Hl Hx) as (R1 & R2 & R3).
    { intros e x0 He Hx0. destruct (Hrel e x0) as (x' & Hx' & F1 & F2 & F3); [by right|done|]. exists x'. split_and!; try done.
      rewrite F3. destruct l1 as [|d1 l1]; [|done]. cbn. rewrite (decide_False (P := Some d = Some e)); [done|].
      intros [= ->]. apply Hn. set_solver. }
    split_and!; [by rewrite last_shift|done|].
    cbn [sibs]. split; [done|]. destruct (Hrel d x1) as (x' & Hx' & F1 & F2 & F3); [left|done|]. exists x'.
    rewrite F1, F2, F3. rewrite decide_False; [|intros Hh; apply Hn; destruct l2; [done|injection Hh as ->; set_solver]].
    split_and!; try done. destruct l1 as [|d1 l1]; cbn in R3 |- *.
    + by rewrite decide_True.
    + rewrite decide_False; [done|]. intros Hh. apply Hn. apply elem_of_app. left. by apply last_Some_elem_of.
Qed.

(** The children of everyone; [y p] is the younger sibling the youngest child of [p]
    has, which is NULL but while children are moved. *)
Record fam_at (y : Z -> Z) (i : gmap Z pinfo) (ch : Z -> list Z) : Prop := {
  f_zero : i !! 0 = None;
  f_children : forall p x, i !! p = Some x -> sibs i p (y p) (cptr x) (ch p);
  f_nodup : forall p, NoDup (ch p);
  f_none : forall p, i !! p = None -> ch p = []
}.

Definition fam : gmap Z pinfo -> (Z -> list Z) -> Prop := fam_at (fun _ => 0).

Definition set_ch (ch : Z -> list Z) (p : Z) (l : list Z) (q : Z) : list Z := if q =? p then l else ch q.

Lemma set_ch_eq ch p l : set_ch ch p l p = l.
Proof using Type. unfold set_ch. by rewrite Z.eqb_refl. Qed.

Lemma set_ch_ne ch p l q : q <> p -> set_ch ch p l q = ch q.
Proof using Type. intros Hq. unfold set_ch. by rewrite (proj2 (Z.eqb_neq q p) Hq). Qed.

Lemma child_parent y0 i ch p c : fam_at y0 i ch -> c ∈ ch p -> exists x, i !! c = Some x /\ parent x = p /\ is_Some (i !! p).
Proof using Type.
  intros F Hc. destruct (i !! p) as [y|] eqn:Hp; [|rewrite (f_none _ _ _ F p Hp) in Hc; by apply not_elem_of_nil in Hc].
  destruct (sibs_known _ _ _ _ _ c (f_children _ _ _ F p y Hp) Hc) as (x & Hx & Hpx). by exists x.
Qed.

(** The fields that do not belong to the family. *)
Definition outer (x : pinfo) := (kstack x, mm x, cr3 x, flags x, exit_code x, fs_struct x, tf x, context x).

(** [i'] is [i] with the links of each process [q] changed as given. *)
Definition relinked (i i' : gmap Z pinfo) (par y o c : Z -> pinfo -> Z) : Prop :=
  forall q, match i !! q with
    | None => i' !! q = None
    | Some x => exists x', i' !! q = Some x' /\ parent x' = par q x /\ yptr x' = y q x /\ optr x' = o q x /\
        cptr x' = c q x /\ outer x' = outer x
    end.

Lemma relinked_some i i' f g h k q x : relinked i i' f g h k -> i !! q = Some x ->
  exists x', i' !! q = Some x' /\ parent x' = f q x /\ yptr x' = g q x /\ optr x' = h q x /\ cptr x' = k q x /\ outer x' = outer x.
Proof using Type. intros Hr Hx. specialize (Hr q). by rewrite Hx in Hr. Qed.

Lemma relinked_inv i i' f g h k q x' : relinked i i' f g h k -> i' !! q = Some x' ->
  exists x, i !! q = Some x /\ parent x' = f q x /\ yptr x' = g q x /\ optr x' = h q x /\ cptr x' = k q x /\ outer x' = outer x.
Proof using Type.
  intros Hr Hx'. specialize (Hr q). destruct (i !! q) as [x|]; [|congruence]. destruct Hr as (x1 & H1 & ?).
  rewrite Hx' in H1. injection H1 as <-. by exists x.
Qed.

Lemma relinked_dom i i' f g h k q : relinked i i' f g h k -> is_Some (i' !! q) <-> is_Some (i !! q).
Proof using Type.
  intros Hr. specialize (Hr q). destruct (i !! q) as [x|]; [destruct Hr as (x' & -> & _); by split|rewrite Hr; done].
Qed.

Lemma relinked_outer i i' f g h k q : relinked i i' f g h k -> outer <$> i' !! q = outer <$> i !! q.
Proof using Type.
  intros Hr. specialize (Hr q). destruct (i !! q) as [x|]; [|by rewrite Hr]. destruct Hr as (x' & -> & _ & _ & _ & _ & E). cbn. by rewrite E.
Qed.

(** Siblings whose links stay. *)
Lemma sibs_relinked i i' f g h k par l y first : relinked i i' f g h k ->
  (forall c x, c ∈ l -> i !! c = Some x -> f c x = parent x /\ g c x = yptr x /\ h c x = optr x) ->
  sibs i par y first l -> sibs i' par y first l.
Proof using Type.
  intros Hr Hk Hs. apply (sibs_ext i); [|done]. intros c Hc. destruct (sibs_known _ _ _ _ _ c Hs Hc) as (x & Hx & _).
  destruct (relinked_some _ _ _ _ _ _ _ _ Hr Hx) as (x' & -> & E1 & E2 & E3 & _). destruct (Hk c x Hc Hx) as (K1 & K2 & K3).
  rewrite Hx. cbn. unfold links. congruence.
Qed.

(** The only child of two parents is no child. *)
Lemma child_unique y0 i ch p q c : fam_at y0 i ch -> c ∈ ch p -> c ∈ ch q -> p = q.
Proof using Type.
  intros F H1 H2. destruct (child_parent y0 i ch p c F H1) as (x & Hx & <- & _).
  destruct (child_parent y0 i ch q c F H2) as (x' & Hx' & <- & _). congruence.
Qed.

(** *** [set_links] *)

Definition link_map (p par c0 : Z) (i : gmap Z pinfo) : gmap Z pinfo :=
  alter (set_cptr p) par ((if negb (c0 =? 0) then alter (set_yptr p) c0 else id) (alter (set_optr c0) p (alter (set_yptr 0) p i))).

Lemma link_map_relinked p par c0 i : c0 <> p -> i !! 0 = None ->
  relinked i (link_map p par c0 i) (fun _ x => parent x) (fun q x => if decide (q = p) then 0 else if decide (q = c0) then p else yptr x)
    (fun q x => if decide (q = p) then c0 else optr x) (fun q x => if decide (q = par) then p else cptr x).
Proof using Type.
  intros Hne H0 q. unfold link_map. destruct (i !! q) as [x|] eqn:Hq.
  - assert (q <> 0) by congruence.
    destruct (Z.eqb_spec c0 0), (decide (q = p)), (decide (q = c0)), (decide (q = par)); try congruence; cbn [negb];
      unfold id; rewrite !lookup_alter_at; settle; rewrite Hq; cbn; eexists; split_and!; reflexivity.
  - destruct (c0 =? 0); cbn [negb]; unfold id; by rewrite !lookup_alter_None.
Qed.

Lemma set_links_run (s : state) p x y :
  info s !! p = Some x -> info s !! parent x = Some y -> parent x <> p -> info s !! 0 = None ->
  (cptr y <> 0 -> cptr y <> p /\ is_Some (info s !! cptr y)) ->
  set_links p s = Ret (tt, upd_nr (fun n => s32 (n + 1)) (upd_info (link_map p (parent x) (cptr y)) (upd_proc_list (cons p) s))).
Proof using Type.
  intros Hx Hy Hne H0 Hc. unfold set_links. rewrite bind_modify.
  erewrite bind_step; [|apply set_info_run; cbn; by rewrite Hx].
  erewrite bind_step; [|apply get_info_run; cbn; rewrite lookup_alter_eq, Hx; reflexivity]. cbn [parent set_yptr].
  erewrite bind_step; [|apply get_info_run; cbn; rewrite lookup_alter_ne, Hy by done; reflexivity].
  erewrite bind_step; [|apply set_info_run; cbn; rewrite lookup_alter_eq, Hx; by eexists].
  unfold link_map. destruct (Z.eqb_spec (cptr y) 0) as [He|Hn]; cbn [negb].
  - rewrite bind_ret. erewrite bind_step; [|apply set_info_run; cbn; rewrite !lookup_alter_ne, Hy by done; by eexists].
    rewrite He. done.
  - destruct (Hc Hn) as [Hcp [z Hz]].
    erewrite bind_step; [|apply set_info_run; cbn; rewrite !lookup_alter_ne by congruence; by rewrite Hz].
    erewrite bind_step; [|apply set_info_run; cbn; apply lookup_alter_is_Some; rewrite !lookup_alter_ne by done; by rewrite Hy].
    done.
Qed.

Lemma fam_link i ch p x y : fam i ch -> i !! p = Some x -> i !! parent x = Some y -> parent x <> p ->
  ch p = [] -> (forall q, p ∉ ch q) ->
  fam (link_map p (parent x) (cptr y) i) (set_ch ch (parent x) (p :: ch (parent x))).
Proof using Type.
  intros F Hx Hy Hne Hcp Hno. pose proof (f_children _ _ _ F _ _ Hy) as Hs. pose proof (sibs_head _ _ _ _ _ Hs) as Hh.
  assert (Hc : cptr y <> p).
  { intros E. destruct (ch (parent x)) as [|e l] eqn:He; cbn in Hh; [pose proof (f_zero _ _ _ F); congruence|]. apply (Hno (parent x)). rewrite He, <- E, Hh. left. }
  pose proof (link_map_relinked p (parent x) (cptr y) i Hc (f_zero _ _ _ F)) as Hr.
  assert (Hpk : p <> 0) by (intros ->; rewrite (f_zero _ _ _ F) in Hx; done).
  split.
  - pose proof (f_zero _ _ _ F) as H0. specialize (Hr 0). by rewrite H0 in Hr.
  - intros q x' Hx'. destruct (relinked_inv _ _ _ _ _ _ _ _ Hr Hx') as (x0 & Hx0 & _ & _ & _ & Ec & _). destruct (decide (q = parent x)) as [->|Hq].
    + rewrite set_ch_eq, Ec. cbn [sibs]. split; [done|].
      destruct (relinked_some _ _ _ _ _ _ _ _ Hr Hx) as (xp & Hxp & E1 & E2 & E3 & _). rewrite decide_True in E2, E3 by done.
      exists xp. split_and!; try done. rewrite E3. destruct (ch (parent x)) as [|e l] eqn:He; cbn [sibs] in Hs |- *; [done|].
      destruct Hs as (Hce & xe & Hxe & P1 & P2 & P3). split; [done|].
      destruct (relinked_some _ _ _ _ _ _ _ _ Hr Hxe) as (xe' & Hxe' & F1 & F2 & F3 & _). cbn in Hh. rewrite decide_False, decide_True in F2 by congruence. rewrite decide_False in F3 by congruence.
      exists xe'. split_and!; try congruence. rewrite F3. apply (sibs_relinked _ _ _ _ _ _ _ _ _ _ Hr); [|done].
      intros c z Hcl Hz. pose proof (f_nodup _ _ _ F (parent x)) as Hnd. rewrite He in Hnd. apply NoDup_cons in Hnd as [Hnd _].
      assert (c <> p) by (intros ->; apply (Hno (parent x)); rewrite He; by right). rewrite !decide_False by congruence. done.
    + rewrite set_ch_ne by done. rewrite Ec. apply (sibs_relinked _ _ _ _ _ _ _ _ _ _ Hr); [|by apply F].
      intros c z Hcl Hz. assert (c <> p) by (intros ->; by apply (Hno q)). rewrite !decide_False; try done.
      intros ->. apply Hq. apply (child_unique _ i ch q (parent x) (cptr y) F Hcl). destruct (ch (parent x)) as [|e l]; cbn in Hh; rewrite Hh in *; [|left].
      rewrite (f_zero _ _ _ F) in Hz. done.
  - intros q. destruct (decide (q = parent x)) as [->|Hq]; [rewrite set_ch_eq|rewrite set_ch_ne by done; apply F].
    apply NoDup_cons. split; [apply Hno|apply F].
  - intros q Hq. assert (i !! q = None). { destruct (i !! q) eqn:E; [|done]. exfalso. apply (eq_None_not_Some (link_map p (parent x) (cptr y) i !! q)); [done|]. apply (relinked_dom _ _ _ _ _ _ q Hr). by rewrite E. }
    rewrite set_ch_ne; [by apply F|]. congruence.
Qed.

(** *** [remove_links] *)

Definition unlink_map (p : Z) (x : pinfo) (i : gmap Z pinfo) : gmap Z pinfo :=
  (if negb (yptr x =? 0) then alter (set_optr (optr x)) (yptr x) else alter (set_cptr (optr x)) (parent x))
    ((if negb (optr x =? 0) then alter (set_yptr (yptr x)) (optr x) else id) i).

Lemma unlink_map_relinked p x i : i !! 0 = None ->
  relinked i (unlink_map p x i) (fun _ z => parent z) (fun q z => if decide (q = optr x) then yptr x else yptr z)
    (fun q z => if decide (q = yptr x) then optr x else optr z)
    (fun q z => if decide (q = parent x /\ yptr x = 0) then optr x else cptr z).
Proof using Type.
  intros H0 q. unfold unlink_map. destruct (i !! q) as [z|] eqn:Hq.
  - assert (q <> 0) by congruence.
    destruct (Z.eqb_spec (optr x) 0), (Z.eqb_spec (yptr x) 0), (decide (q = optr x)), (decide (q = yptr x)), (decide (q = parent x));
      try congruence; cbn [negb]; unfold id; rewrite !lookup_alter_at; settle; rewrite Hq; cbn; eexists; split_and!; reflexivity.
  - destruct (optr x =? 0), (yptr x =? 0); cbn [negb]; unfold id; by rewrite !lookup_alter_None.
Qed.

Lemma remove_links_run (s : state) p x :
  info s !! p = Some x -> (optr x <> 0 -> is_Some (info s !! optr x)) -> (yptr x <> 0 -> is_Some (info s !! yptr x)) ->
  is_Some (info s !! parent x) ->
  remove_links p s = Ret (tt, upd_nr (fun n => s32 (n - 1)) (upd_info (unlink_map p x) (upd_proc_list (remove p) s))).
Proof using Type.
  intros Hx Ho Hy Hp. unfold remove_links, unlink_map. rewrite bind_modify.
  erewrite bind_step; [|apply get_info_run; exact Hx].
  destruct (Z.eqb_spec (optr x) 0) as [Ho0|Ho0]; cbn [negb].
  - rewrite bind_ret. destruct (Z.eqb_spec (yptr x) 0) as [Hy0|Hy0]; cbn [negb];
      (erewrite bind_step; [|apply set_info_run; cbn; auto]); done.
  - erewrite bind_step; [|apply set_info_run; cbn; auto].
    destruct (Z.eqb_spec (yptr x) 0) as [Hy0|Hy0]; cbn [negb];
      (erewrite bind_step; [|apply set_info_run; cbn; apply lookup_alter_is_Some; auto]); done.
Qed.

Lemma fam_unlink i ch p x l1 l2 : fam i ch -> i !! p = Some x -> ch (parent x) = l1 ++ p :: l2 ->
  (optr x <> 0 -> is_Some (i !! optr x)) /\ (yptr x <> 0 -> is_Some (i !! yptr x)) /\
  fam (unlink_map p x i) (set_ch ch (parent x) (l1 ++ l2)).
Proof using Type.
  intros F Hx Hch. pose proof (unlink_map_relinked p x i (f_zero _ _ _ F)) as Hr.
  assert (Hmem : forall c, c ∈ l1 ++ p :: l2 -> c ∈ ch (parent x)) by (intros c; by rewrite Hch).
  assert (Hknown : forall c, c ∈ l1 ++ p :: l2 -> is_Some (i !! c)).
  { intros c Hc%Hmem. destruct (child_parent _ _ _ _ _ F Hc) as (z & -> & _). by eexists. }
  destruct (child_parent _ _ _ _ p F ltac:(rewrite Hch; set_solver)) as (_ & _ & _ & [y Hy]).
  pose proof (f_children _ _ _ F _ _ Hy) as Hs. pose proof (f_nodup _ _ _ F (parent x)) as Hnd. rewrite Hch in Hs, Hnd.
  assert (Hnz : forall c, c ∈ l1 ++ p :: l2 -> c <> 0) by (intros c Hc%Hknown ->; rewrite (f_zero _ _ _ F) in Hc; by destruct Hc).
  destruct (sibs_unlink i (unlink_map p x i) (parent x) p x l2 l1 0 (cptr y) Hnd Hs Hx) as (Ey & Eo & Hs').
  { intros e x0 He Hx0. destruct (relinked_some _ _ _ _ _ _ _ _ Hr Hx0) as (x' & Hx' & E1 & E2 & E3 & _). exists x'. split_and!; try done.
    all: assert (He' : e ∈ l1 ++ p :: l2) by set_solver.
    - rewrite E2. destruct (sibs_ends _ _ _ _ _ _ _ _ Hs Hx) as [_ ->]. destruct l2 as [|d l2]; cbn; [|settle; destruct (decide (e = d)); settle; done].
      rewrite decide_False by (intros ->; by apply (Hnz 0)). done.
    - rewrite E3. destruct (sibs_ends _ _ _ _ _ _ _ _ Hs Hx) as [-> _]. rewrite last_or. destruct (last l1) as [d|]; cbn.
      + destruct (decide (e = d)); settle; done.
      + rewrite decide_False by (intros ->; by apply (Hnz 0)). done. }
  assert (Hy0 : yptr x = 0 <-> l1 = []).
  { rewrite Ey, last_or. destruct l1 as [|d l1]; [done|]. split; [|done]. intros E. exfalso.
    destruct (last (d :: l1)) as [e|] eqn:El; [|by apply last_None in El]. cbn in E. apply (Hnz e); [|done].
    apply elem_of_app. left. by apply last_Some_elem_of. }
  assert (Hin : forall c, c = optr x \/ c = yptr x -> c <> 0 -> c ∈ l1 ++ p :: l2).
  { intros c [-> | ->] Hc.
    - rewrite Eo in *. destruct l2; [done|]. set_solver.
    - rewrite Ey, last_or in *. destruct (last l1) as [e|] eqn:El; [|done]. apply elem_of_app. left. by apply last_Some_elem_of. }
  split_and!; [intros Hc; by apply Hknown, Hin; [left|]|intros Hc; by apply Hknown, Hin; [right|]|].
  split.
  - pose proof (f_zero _ _ _ F) as H0. specialize (Hr 0). by rewrite H0 in Hr.
  - intros q x' Hx'. destruct (relinked_inv _ _ _ _ _ _ _ _ Hr Hx') as (x0 & Hx0 & _ & _ & _ & Ec & _). destruct (decide (q = parent x)) as [->|Hq].
    + rewrite set_ch_eq. rewrite Hy in Hx0. injection Hx0 as <-. rewrite Ec. destruct l1 as [|d l1].
      * by rewrite decide_True by (split; [done|by apply Hy0]).
      * rewrite decide_False by (intros [_ ?%Hy0]; done). done.
    + rewrite set_ch_ne by done. rewrite decide_False in Ec by tauto. rewrite Ec. apply (sibs_relinked _ _ _ _ _ _ _ _ _ _ Hr); [|by apply F].
      intros c z Hcl Hz. assert (Hc0 : c <> 0) by (intros ->; rewrite (f_zero _ _ _ F) in Hz; done).
      rewrite !decide_False; [done|..]; intros ->; apply Hq; (eapply (child_unique _ i ch); [exact F|exact Hcl|]);
        rewrite Hch; apply Hin; tauto.
  - intros q. destruct (decide (q = parent x)) as [->|Hq]; [rewrite set_ch_eq|rewrite set_ch_ne by done; apply F].
    apply NoDup_app in Hnd as (N1 & N2 & [_ N3]%NoDup_cons). apply NoDup_app. split_and!; [done| |done]. intros c Hc Hc2. apply (N2 c Hc). by right.
  - intros q Hq. assert (i !! q = None).
    { apply eq_None_not_Some. intros Hs2. apply (relinked_dom _ _ _ _ _ _ q Hr) in Hs2. rewrite Hq in Hs2. by destruct Hs2. }
    rewrite set_ch_ne; [by apply F|]. congruence.
Qed.


(** *** Processes that come and go *)

Lemma fam_ext y y' i i' ch ch' :
  (forall q, y q = y' q) -> (forall q, (fun x => (links x, cptr x)) <$> i' !! q = (fun x => (links x, cptr x)) <$> i !! q) ->
  (forall q, ch q = ch' q) -> fam_at y i ch -> fam_at y' i' ch'.
Proof using Type.
  intros Hy Hi Hc F.
  assert (Hd : forall q, i' !! q = None -> i !! q = None) by (intros q Hq; specialize (Hi q); rewrite Hq in Hi; symmetry in Hi; by apply fmap_None in Hi).
  split.
  - pose proof (f_zero _ _ _ F) as H0. specialize (Hi 0). rewrite H0 in Hi. by apply fmap_None in Hi.
  - intros q x' Hx'. rewrite <- Hy, <- Hc. pose proof (Hi q) as E. rewrite Hx' in E. symmetry in E. apply fmap_Some in E as (x & Hx & E).
    injection E as E1 E2 E3 E4. rewrite E4. apply (sibs_ext i); [|by apply F]. intros c _. specialize (Hi c).
    destruct (i' !! c), (i !! c); cbn in Hi |- *; congruence.
  - intros q. rewrite <- Hc. apply F.
  - intros q Hq. rewrite <- Hc. by apply F, Hd.
Qed.

Lemma fam_new i ch p x : fam i ch -> i !! p = None -> p <> 0 -> cptr x = 0 -> fam (<[p := x]> i) ch.
Proof using Type.
  intros F Hp H0 Hx. split.
  - rewrite lookup_insert_ne by done. apply F.
  - intros q z Hz. destruct (decide (q = p)) as [->|Hq].
    + rewrite lookup_insert_eq in Hz. injection Hz as <-. by rewrite (f_none _ _ _ F p Hp).
    + rewrite lookup_insert_ne in Hz by done. apply (sibs_ext i); [|by apply F]. intros c Hc.
      rewrite lookup_insert_ne; [done|]. intros <-. destruct (child_parent _ _ _ _ _ F Hc) as (? & ? & _). congruence.
  - apply F.
  - intros q [Hq _]%lookup_insert_None. by apply F.
Qed.

Lemma fam_delete i ch p : fam i ch -> ch p = [] -> (forall q, p ∉ ch q) -> fam (delete p i) ch.
Proof using Type.
  intros F Hp Hno. split.
  - apply lookup_delete_None. right. apply F.
  - intros q z [Hne Hz]%lookup_delete_Some. apply (sibs_ext i); [|by apply F]. intros c Hc.
    rewrite lookup_delete_ne; [done|]. intros <-. by apply (Hno q).
  - apply F.
  - intros q [->|Hq]%lookup_delete_None; [done|]. by apply F.
Qed.

(** *** Children that get another parent *)

Definition move_map (cur par p o c0 : Z) (i : gmap Z pinfo) : gmap Z pinfo :=
  alter (set_cptr p) par (alter (set_parent par) p
    ((if negb (c0 =? 0) then alter (set_yptr p) c0 else id) (alter (set_optr c0) p (alter (set_yptr 0) p (alter (set_cptr o) cur i))))).

Lemma move_map_relinked cur par p o c0 i : c0 <> p -> cur <> par -> i !! 0 = None ->
  relinked i (move_map cur par p o c0 i) (fun q x => if decide (q = p) then par else parent x)
    (fun q x => if decide (q = p) then 0 else if decide (q = c0) then p else yptr x)
    (fun q x => if decide (q = p) then c0 else optr x)
    (fun q x => if decide (q = par) then p else if decide (q = cur) then o else cptr x).
Proof using Type.
  intros Hne Hcp H0 q. unfold move_map. destruct (i !! q) as [x|] eqn:Hq.
  - assert (q <> 0) by congruence.
    destruct (Z.eqb_spec c0 0), (decide (q = p)), (decide (q = c0)), (decide (q = par)), (decide (q = cur)); try congruence; cbn [negb];
      unfold id; rewrite !lookup_alter_at; settle; rewrite Hq; cbn; eexists; split_and!; reflexivity.
  - destruct (c0 =? 0); cbn [negb]; unfold id; by rewrite !lookup_alter_None.
Qed.

(** The youngest child [q] of [cur] has the younger sibling [v]. *)
Definition y_at (cur v q : Z) : Z := if q =? cur then v else 0.

Lemma fam_move i ch cur v par p l x y :
  fam_at (y_at cur v) i ch -> ch cur = p :: l -> cur <> par -> i !! p = Some x -> i !! par = Some y ->
  fam_at (y_at cur p) (move_map cur par p (optr x) (cptr y) i) (set_ch (set_ch ch cur l) par (p :: ch par)).
Proof using Type.
  intros F Hcur Hne Hx Hy.
  assert (Hp : p ∈ ch cur) by (rewrite Hcur; left).
  assert (Hs : sibs i par 0 (cptr y) (ch par)).
  { pose proof (f_children _ _ _ F _ _ Hy) as Hs. unfold y_at in Hs. by rewrite (proj2 (Z.eqb_neq par cur)) in Hs by done. }
  pose proof (sibs_head _ _ _ _ _ Hs) as Hh.
  assert (Hc0 : cptr y <> 0 -> cptr y ∈ ch par) by (destruct (ch par); cbn in Hh; [done|rewrite Hh; left]).
  assert (Hcp : cptr y <> p).
  { intros E. assert (p <> 0) by (intros ->; rewrite (f_zero _ _ _ F) in Hx; done). rewrite E in Hc0.
    apply Hne, (child_unique _ i ch cur par p F Hp). auto. }
  pose proof (move_map_relinked cur par p (optr x) (cptr y) i Hcp Hne (f_zero _ _ _ F)) as Hr.
  pose proof (f_nodup _ _ _ F cur) as Hnd. rewrite Hcur in Hnd. apply NoDup_cons in Hnd as [Hpl Hnd].
  assert (Hkeep : forall q c z, c ∈ ch q -> c <> p -> q <> par -> i !! c = Some z -> c <> cptr y).
  { intros q c z Hc _ Hq Hz ->. apply Hq. apply (child_unique _ i ch q par (cptr y) F Hc), Hc0. intros E. rewrite E, (f_zero _ _ _ F) in Hz. done. }
  split.
  - pose proof (f_zero _ _ _ F) as H0. specialize (Hr 0). by rewrite H0 in Hr.
  - intros q x' Hx'. destruct (relinked_inv _ _ _ _ _ _ _ _ Hr Hx') as (x0 & Hx0 & _ & _ & _ & Ec & _).
    destruct (decide (q = par)) as [->|Hq]; [|destruct (decide (q = cur)) as [->|Hq2]].
    + rewrite set_ch_eq, Ec. unfold y_at. rewrite (proj2 (Z.eqb_neq par cur)) by done. cbn [sibs]. split; [done|].
      destruct (relinked_some _ _ _ _ _ _ _ _ Hr Hx) as (xp & Hxp & E1 & E2 & E3 & _). rewrite decide_True in E1, E2, E3 by done.
      exists xp. split_and!; try done. rewrite E3. destruct (ch par) as [|e m] eqn:He; cbn [sibs] in Hs |- *; [done|].
      destruct Hs as (Hce & xe & Hxe & P1 & P2 & P3). split; [done|]. assert (e <> p) by congruence.
      destruct (relinked_some _ _ _ _ _ _ _ _ Hr Hxe) as (xe' & Hxe' & F1 & F2 & F3 & _).
      rewrite decide_False in F1, F3 by done. rewrite decide_False, decide_True in F2 by congruence.
      exists xe'. split_and!; try congruence. rewrite F3. apply (sibs_relinked _ _ _ _ _ _ _ _ _ _ Hr); [|done].
      intros c z Hc Hz. pose proof (f_nodup _ _ _ F par) as Hnd2. rewrite He in Hnd2. apply NoDup_cons in Hnd2 as [Hnd2 _].
      assert (c <> p) by (intros ->; apply Hne, (child_unique _ i ch cur par p F Hp); rewrite He; by right).
      rewrite !decide_False by congruence. done.
    + rewrite set_ch_ne, set_ch_eq by done. rewrite Ec. pose proof (f_children _ _ _ F _ _ Hx0) as Hsc. rewrite Hcur in Hsc.
      cbn [sibs] in Hsc. destruct Hsc as (_ & x1 & Hx1 & _ & _ & Hsc). rewrite Hx in Hx1. injection Hx1 as <-.
      unfold y_at. rewrite Z.eqb_refl. apply (sibs_relinked _ _ _ _ _ _ _ _ _ _ Hr); [|done].
      intros c z Hc Hz. assert (c <> p) by congruence.
      rewrite !decide_False; try done. apply (Hkeep cur c z); try done. rewrite Hcur. by right.
    + rewrite !set_ch_ne by done. rewrite Ec. unfold y_at. rewrite (proj2 (Z.eqb_neq q cur)) by done.
      pose proof (f_children _ _ _ F _ _ Hx0) as Hsc. unfold y_at in Hsc. rewrite (proj2 (Z.eqb_neq q cur)) in Hsc by done.
      apply (sibs_relinked _ _ _ _ _ _ _ _ _ _ Hr); [|done]. intros c z Hc Hz.
      assert (c <> p) by (intros ->; apply Hq2, (child_unique _ i ch q cur p F Hc Hp)).
      rewrite !decide_False; try done. by apply (Hkeep q c z).
  - intros q. destruct (decide (q = par)) as [->|Hq]; [rewrite set_ch_eq|rewrite set_ch_ne by done].
    + apply NoDup_cons. split; [|apply F]. intros Hin. by apply Hne, (child_unique _ i ch cur par p F Hp).
    + destruct (decide (q = cur)) as [->|Hq2]; [by rewrite set_ch_eq|rewrite set_ch_ne by done; apply F].
  - intros q Hq. assert (Hn : i !! q = None).
    { apply eq_None_not_Some. intros Hs2. apply (relinked_dom _ _ _ _ _ _ q Hr) in Hs2. rewrite Hq in Hs2. by destruct Hs2. }
    assert (q <> par) by congruence. rewrite set_ch_ne by done. destruct (decide (q = cur)) as [->|Hq2].
    + pose proof (f_none _ _ _ F _ Hn). congruence.
    + rewrite set_ch_ne by done. by apply F.
Qed.
End Table.
End ProcTable.
