(* ===== verification/ProcInv.v ===== *)
(** * The invariant of the process table

    [table_inv s ch]: the scheduler's invariant, the family tree [ch], thread groups,
    pids, hash lists and counters all describe the same set of processes; zombies hold
    nothing; everyone who may be woken is alive. *)

From S2P Require Import Prelude Kern Sched SchedInv Wait CString Proc ProcTable.
Import Kern Sched SchedInv WaitInv Proc ProcTable.
Open Scope Z_scope.

Module ProcInv.

Definition zombie (k : kstate) (p : Z) : Prop := proc_is k p PROC_ZOMBIE.

(** Only sleeping processes have a wait state. *)
Definition calm (k : kstate) : Prop :=
  forall p x, procs k !! p = Some x -> pstate x <> PROC_SLEEPING -> wait_state x = 0.

(** ** The effect of wake-ups *)

Record kwakes (k k' : kstate) : Prop := {
  kw_current : current k' = current k;
  kw_idle : idleproc k' = idleproc k;
  kw_step : forall p x, procs k !! p = Some x -> exists x', procs k' !! p = Some x' /\ wake_step x x';
  kw_none : forall p, procs k !! p = None -> procs k' !! p = None;
  kw_new : forall p, proc_is k p PROC_UNINIT -> proc_is k' p PROC_UNINIT
}.

(** Neither a zombie nor still being created. *)
Definition grown (k : kstate) (p : Z) : Prop := alive k p /\ ~ proc_is k p PROC_UNINIT.

#[export] Instance kwakes_preorder : PreOrder kwakes.
Proof.
  split; [intros k; constructor; try done; intros p x Hx; by exists x|].
  intros k1 k2 k3 [A1 A2 A3 A4 A5] [B1 B2 B3 B4 B5]. constructor; try congruence; try by auto.
  intros p x Hx. destruct (A3 p x Hx) as (y & Hy & S1). destruct (B3 p y Hy) as (z & Hz & S2).
  exists z. split; [done|]. by transitivity y.
Qed.

Lemma woken_kwakes p k k' : woken p k k' -> grown k p -> kwakes k k'.
Proof.
  intros W [(y & Hy & _) Hn]. constructor; [apply (wk_rest _ _ _ W)|apply (wk_rest _ _ _ W)|apply (wk_step _ _ _ W)|..].
  2:{ intros q Hq. assert (q <> p) by congruence. unfold proc_is. by rewrite (core_eq_pstate _ _ (wk_other _ _ _ W q ltac:(done))). }
  intros q Hq. assert (q <> p) by congruence. pose proof (wk_other _ _ _ W q ltac:(done)) as E. rewrite Hq in E. by apply fmap_None in E.
Qed.

Lemma kwakes_dom k k' p : kwakes k k' -> is_Some (procs k' !! p) <-> is_Some (procs k !! p).
Proof.
  intros W. destruct (procs k !! p) as [x|] eqn:Hp; [|by rewrite (kw_none _ _ W p Hp)].
  destruct (kw_step _ _ W p x Hp) as (x' & -> & _). by split.
Qed.

Lemma kwakes_calm k k' : kwakes k k' -> calm k -> calm k'.
Proof.
  intros W Hc p x' Hx' Hs. destruct (procs k !! p) as [x|] eqn:Hp; [|rewrite (kw_none _ _ W p Hp) in Hx'; done].
  destruct (kw_step _ _ W p x Hp) as (y & Hy & _ & _ & _ & [[E1 E2]|(_ & _ & E)]); rewrite Hx' in Hy; injection Hy as <-; [|done].
  rewrite E2. apply (Hc p x Hp). congruence.
Qed.

Lemma kwakes_pid k k' p : kwakes k k' -> pid <$> procs k' !! p = pid <$> procs k !! p.
Proof.
  intros W. destruct (procs k !! p) as [x|] eqn:Hp; [|by rewrite (kw_none _ _ W p Hp)].
  destruct (kw_step _ _ W p x Hp) as (y & -> & E & _). cbn. by rewrite E.
Qed.

(** Wake-ups neither make zombies nor raise them; who runs goes on running. *)
Lemma kwakes_zombie k k' p : kwakes k k' -> zombie k' p <-> zombie k p.
Proof.
  intros W. unfold zombie, proc_is. destruct (procs k !! p) as [x|] eqn:Hp; [|by rewrite (kw_none _ _ W p Hp)].
  destruct (kw_step _ _ W p x Hp) as (y & Hy & _ & _ & _ & E). rewrite Hy. cbn.
  destruct E as [[-> _]|(Hz & -> & _)]; [done|]. split; [done|]. intros [= ?]. done.
Qed.

Lemma kwakes_runnable k k' p : kwakes k k' -> proc_is k p PROC_RUNNABLE -> proc_is k' p PROC_RUNNABLE.
Proof.
  intros W H. unfold proc_is in *. destruct (procs k !! p) as [x|] eqn:Hp; [|done]. cbn in H. injection H as Hx.
  destruct (kw_step _ _ W p x Hp) as (y & Hy & _ & _ & _ & E). rewrite Hy. cbn. destruct E as [[-> _]|(_ & -> & _)]; [by rewrite Hx|done].
Qed.

Lemma kwakes_alive k k' p : kwakes k k' -> alive k p -> alive k' p.
Proof.
  intros W (x & Hx & Hz). destruct (kw_step _ _ W p x Hx) as (y & Hy & _ & _ & _ & [[E _]|(_ & E & _)]); exists y; (split; [done|congruence]).
Qed.

Lemma kwakes_grown k k' p : kwakes k k' -> grown k p -> grown k' p.
Proof.
  intros W [Ha Hn]. split; [by apply (kwakes_alive k)|]. destruct Ha as (x & Hx & _).
  unfold proc_is in *. rewrite Hx in Hn. destruct (kw_step _ _ W p x Hx) as (y & Hy & _ & _ & _ & E). rewrite Hy. cbn in *.
  destruct E as [[-> _]|(_ & -> & _)]; done.
Qed.

Lemma alive_zombie k p : is_Some (procs k !! p) -> alive k p <-> ~ zombie k p.
Proof.
  intros [x Hx]. unfold alive, zombie, proc_is. rewrite Hx. cbn. split.
  - intros (y & [= <-] & H) [= E]. done.
  - intros H. exists x. split; [done|]. intros E. apply H. by rewrite E.
Qed.

(** ** Thread groups *)

Record groups_ok (gs : list (list Z)) (i : gmap Z pinfo) : Prop := {
  g_nodup : forall r, r ∈ gs -> NoDup r;
  g_uniq : forall r r' p, r ∈ gs -> r' ∈ gs -> p ∈ r -> p ∈ r' -> r = r';
  g_dom : forall p, is_Some (i !! p) <-> exists r, r ∈ gs /\ p ∈ r
}.

Lemma ring_of_some gs i p r : groups_ok gs i -> r ∈ gs -> p ∈ r -> ring_of gs p = Some r.
Proof.
  intros G Hr Hp. unfold ring_of. destruct (List.find _ gs) as [r'|] eqn:E.
  - apply List.find_some in E as [Hr'%list_elem_of_In Hp'%bool_decide_eq_true]. f_equal. by apply (g_uniq _ _ G r' r p).
  - apply list_elem_of_In in Hr. pose proof (List.find_none _ _ E r Hr) as Hn. cbn in Hn. rewrite bool_decide_eq_true_2 in Hn; done.
Qed.

Lemma ring_of_in gs p r : ring_of gs p = Some r -> r ∈ gs /\ p ∈ r.
Proof. intros E. apply List.find_some in E as [?%list_elem_of_In ?%bool_decide_eq_true]. done. Qed.

Lemma elem_rev (x : Z) l : x ∈ rev l <-> x ∈ l.
Proof. rewrite !list_elem_of_In. symmetry. apply List.in_rev. Qed.

Lemma elem_ring_from p : forall r before x, p ∈ r -> x ∈ ring_from r before p <-> x ∈ r \/ x ∈ before.
Proof.
  induction r as [|y r IH]; intros before x Hp; [by apply not_elem_of_nil in Hp|]. cbn [ring_from].
  destruct (Z.eqb_spec y p) as [->|Hne].
  - rewrite !elem_of_cons, elem_of_app, elem_rev. tauto.
  - rewrite IH by set_solver. set_solver.
Qed.

Lemma ring_from_split p a b : forall before, p ∉ a -> ring_from (a ++ p :: b) before p = p :: b ++ rev before ++ a.
Proof.
  induction a as [|x a IH]; intros before Hp; cbn [app ring_from].
  - by rewrite Z.eqb_refl, app_nil_r.
  - rewrite (proj2 (Z.eqb_neq x p)) by set_solver. rewrite IH by set_solver. cbn [rev]. by rewrite <- app_assoc.
Qed.

Lemma next_in_split f p a b : p ∉ a -> next_in (a ++ p :: b) f p = Some (hd f b).
Proof.
  induction a as [|x a IH]; intros Hp; cbn [app next_in]; [by rewrite Z.eqb_refl|].
  rewrite (proj2 (Z.eqb_neq x p)) by set_solver. apply IH. set_solver.
Qed.

Lemma ring_next_some r p : p ∈ r -> NoDup r -> exists n, ring_next r p = Some n /\ n ∈ r /\ (n = p <-> r = [p]).
Proof.
  intros (a & b & ->)%list_elem_of_split Hnd. apply NoDup_app in Hnd as (_ & Hd & [Hb _]%NoDup_cons).
  assert (Ha : p ∉ a) by (intros H; apply (Hd p H); left).
  exists (hd (hd p (a ++ [p])) b). split; [|split].
  - unfold ring_next. destruct a as [|x a]; cbn [app]; [apply (next_in_split p p [] b Ha)|]. by apply (next_in_split x p (x :: a) b).
  - destruct b as [|y b]; cbn; [destruct a; cbn; set_solver|set_solver].
  - destruct b as [|y b]; [destruct a as [|x a]|]; cbn; [done|..].
    + split; [intros ->; set_solver|]. intros [= -> E]. by destruct a.
    + split; [intros ->; set_solver|]. intros E%(f_equal length). rewrite length_app in E. cbn in E. lia.
Qed.

Lemma nodup_remove_one (p : Z) l : NoDup l -> NoDup (remove p l).
Proof. apply NoDup_filter. Qed.

Lemma groups_detach gs i p : groups_ok gs i -> is_Some (i !! p) -> groups_ok ([p] :: (remove p <$> gs)) i.
Proof.
  intros G Hp. split.
  - intros r [->|(r0 & -> & Hr)%list_elem_of_fmap]%elem_of_cons; [apply NoDup_singleton|]. by apply nodup_remove_one, G.
  - intros r r' q [->|(r0 & -> & Hr)%list_elem_of_fmap]%elem_of_cons [->|(r1 & -> & Hr1)%list_elem_of_fmap]%elem_of_cons; rewrite ?elem_of_remove, ?list_elem_of_singleton.
    + done.
    + intros -> [? _]. done.
    + intros [H1 _] ->. done.
    + intros [_ H1] [_ H2]. f_equal. by apply (g_uniq _ _ G r0 r1 q).
  - intros q. split.
    + intros Hq. destruct (decide (q = p)) as [->|Hne]; [exists [p]; split; [left|left]|].
      apply (g_dom _ _ G) in Hq as (r & Hr & Hq). exists (remove p r). split; [right; by apply list_elem_of_fmap_2|]. by apply elem_of_remove.
    + intros (r & [->|(r0 & -> & Hr)%list_elem_of_fmap]%elem_of_cons & Hq).
      * by apply list_elem_of_singleton in Hq as ->.
      * apply elem_of_remove in Hq as [_ Hq]. apply (g_dom _ _ G). by exists r0.
Qed.

Lemma elem_insert_before q p r x : x ∈ insert_before q p r <-> x ∈ r \/ x = p /\ q ∈ r.
Proof.
  unfold insert_before. induction r as [|y r IH]; cbn; [set_solver|]. rewrite elem_of_app, IH.
  destruct (Z.eqb_spec y q) as [->|Hne]; set_solver.
Qed.

Lemma nodup_insert_before q p r : NoDup r -> p ∉ r -> NoDup (insert_before q p r).
Proof.
  unfold insert_before. induction r as [|y r IH]; cbn; [done|]. intros [Hy Hr]%NoDup_cons Hp. fold (insert_before q p r) in *.
  assert (Hnd : NoDup (insert_before q p r)) by (apply IH; set_solver).
  apply NoDup_app. destruct (Z.eqb_spec y q) as [->|Hne].
  - split_and!; [|intros z Hz; rewrite elem_insert_before; set_solver|done].
    apply NoDup_cons. split; [set_solver|apply NoDup_singleton].
  - split_and!; [apply NoDup_singleton|intros z Hz; rewrite elem_insert_before; set_solver|done].
Qed.

Lemma groups_join gs i q p : groups_ok gs i -> [p] ∈ gs -> is_Some (i !! q) -> q <> p ->
  groups_ok (insert_before q p <$> base.filter (fun r => r <> [p]) gs) i.
Proof.
  intros G Hp Hq Hne.
  assert (Hno : forall r, r ∈ gs -> r <> [p] -> p ∉ r). { intros r Hr Hn Hin. apply Hn. apply (g_uniq _ _ G r [p] p); try done. left. }
  split.
  - intros r (r0 & -> & [Hn Hr]%list_elem_of_filter)%list_elem_of_fmap. apply nodup_insert_before; [by apply G|by apply Hno].
  - intros r r' x (r0 & -> & [Hn Hr]%list_elem_of_filter)%list_elem_of_fmap (r1 & -> & [Hn1 Hr1]%list_elem_of_filter)%list_elem_of_fmap.
    rewrite !elem_insert_before. intros [H1|[-> H1]] [H2|[E H2]]; subst; f_equal; try (by apply (g_uniq _ _ G r0 r1 x)); try (by apply (g_uniq _ _ G r0 r1 q)).
    + by apply Hno in H1.
    + by apply Hno in H2.
  - intros x. split.
    + intros Hx. apply (g_dom _ _ G) in Hq as (rq & Hrq & Hq). assert (rq <> [p]) by (intros ->; apply list_elem_of_singleton in Hq; done).
      destruct (decide (x = p)) as [->|Hxp].
      * exists (insert_before q p rq). split; [apply list_elem_of_fmap_2, list_elem_of_filter; done|]. apply elem_insert_before. by right.
      * apply (g_dom _ _ G) in Hx as (r & Hr & Hx). exists (insert_before q p r). split; [|apply elem_insert_before; by left].
        apply list_elem_of_fmap_2, list_elem_of_filter. split; [|done]. intros ->. apply list_elem_of_singleton in Hx. done.
    + intros (r & (r0 & -> & [Hn Hr]%list_elem_of_filter)%list_elem_of_fmap & Hx). apply elem_insert_before in Hx as [Hx|[-> _]]; apply (g_dom _ _ G).
      * by exists r0.
      * exists [p]. split; [done|left].
Qed.

(** ** The invariant *)

(** Waits and event queues: who is on a queue is alive. *)
Record events_ok (k : kstate) (i : gmap Z pinfo) : Prop := {
  eo_waits : waits_ok k;
  eo_owner : forall q l u p, wqueues k !! q = Some l -> u ∈ l -> owner k u p -> grown k p;
  eo_event : forall p, is_Some (i !! p) -> is_Some (wqueues k !! event_wait_queue p)
}.

Lemma pid_hashfn_range n : 0 <= pid_hashfn n < HASH_LIST_SIZE.
Proof.
  unfold pid_hashfn, CString.hash32, HASH_SHIFT. change (Z.land (u32 (32 - 10)) 31) with 22.
  pose proof (u32_range (n * CString.GOLDEN_RATIO_PRIME_32)) as Hr. unfold is_u32 in Hr. rewrite Z.shiftr_div_pow2 by lia.
  unfold HASH_LIST_SIZE, HASH_SHIFT. change (Z.shiftl 1 10) with 1024. change (2 ^ 22) with 4194304.
  change (2 ^ 32) with 4294967296 in Hr. split; [apply Z.div_pos; lia|apply Z.div_lt_upper_bound; lia].
Qed.

Section Inv.
Context {X : Type} {sc : sched_class} {I : kstate -> Prop} {Hsp : SchedPolicy sc I}.
#[local] Abbreviation state := (state (X := X)).

Record table_inv (s : state) (ch : Z -> list Z) : Prop := {
  pi_sched : sched_inv I (kern s);
  pi_events : events_ok (kern s) (info s);
  pi_calm : calm (kern s);
  pi_dom : forall p, is_Some (info s !! p) <-> is_Some (procs (kern s) !! p);
  pi_fam : fam (info s) ch;
  pi_groups : groups_ok (thread_groups s) (info s);
  pi_nodup : NoDup (proc_list s);
  pi_list : forall c, c ∈ proc_list s <-> exists p, c ∈ ch p;
  pi_pids : pids_ok s;
  pi_range : forall p n, p ∈ proc_list s -> pid_is s p n -> 1 <= n < MAX_PID;
  pi_inj : forall p q n, p ∈ proc_list s -> q ∈ proc_list s -> pid_is s p n -> pid_is s q n -> p = q;
  pi_nr : nr_process s = 1 + Z.of_nat (length (proc_list s));
  pi_max : Z.of_nat (length (proc_list s)) < MAX_PID;
  pi_hash : forall h, 0 <= h < HASH_LIST_SIZE -> exists l, hash_list s !! h = Some l /\ NoDup l /\
    forall p, p ∈ l <-> p ∈ proc_list s /\ exists n, pid_is s p n /\ pid_hashfn n = h;
  (** zombies have no children and no threads, and nobody waits for an event of theirs *)
  pi_zombie : forall z, zombie (kern s) z -> z ∈ proc_list s /\ ch z = [] /\ [z] ∈ thread_groups s /\
    wqueues (kern s) !! event_wait_queue z = Some [];
  (** a process that is being created *)
  pi_private : forall p, is_Some (info s !! p) -> p ∉ proc_list s -> p <> idleproc (kern s) ->
    ch p = [] /\ [p] ∈ thread_groups s /\ proc_is (kern s) p PROC_UNINIT;
  pi_idle : (idleproc (kern s) ∉ proc_list s) /\ proc_is (kern s) (idleproc (kern s)) PROC_RUNNABLE;
  pi_init : initproc s ∈ proc_list s /\ ~ zombie (kern s) (initproc s)
}.

(** A process runs: the invariant between two calls of [schedule]. *)
Definition proc_inv (s : state) (ch : Z -> list Z) : Prop :=
  table_inv s ch /\ (current (kern s) ∈ proc_list s \/ current (kern s) = idleproc (kern s)) /\
  proc_is (kern s) (current (kern s)) PROC_RUNNABLE.

Lemma list_known s ch p : table_inv s ch -> p ∈ proc_list s -> is_Some (info s !! p).
Proof using Type. intros P Hp. apply (pi_list _ _ P) in Hp as (q & Hq). destruct (child_parent _ _ _ _ _ (pi_fam _ _ P) Hq) as (x & -> & _). by eexists. Qed.

Lemma table_known s ch : table_inv s ch -> known s (proc_list s).
Proof using Type. intros P p Hp. by apply (pi_dom _ _ P), (list_known _ _ _ P). Qed.

(** A child's parent is known and alive. *)
Lemma parent_alive s ch p c : table_inv s ch -> c ∈ ch p -> alive (kern s) p.
Proof using Type.
  intros P Hc. destruct (child_parent _ _ _ _ _ (pi_fam _ _ P) Hc) as (x & Hx & _ & Hp). apply alive_zombie; [by apply (pi_dom _ _ P)|].
  intros Hz. apply (pi_zombie _ _ P) in Hz as (_ & E & _). rewrite E in Hc. by apply not_elem_of_nil in Hc.
Qed.

(** What the kernel may do to the processes [l] while the table stays as it is. *)
Record quiet (l : list Z) (k k' : kstate) : Prop := {
  q_idle : idleproc k' = idleproc k;
  q_dom : forall p, is_Some (procs k' !! p) <-> is_Some (procs k !! p);
  q_pid : forall p, pid <$> procs k' !! p = pid <$> procs k !! p;
  q_zombie : forall p, zombie k' p <-> zombie k p;
  q_run : proc_is k (idleproc k) PROC_RUNNABLE -> proc_is k' (idleproc k) PROC_RUNNABLE;
  q_new : forall p, p ∉ l -> proc_is k p PROC_UNINIT -> proc_is k' p PROC_UNINIT
}.

Lemma kwakes_quiet l k k' : kwakes k k' -> quiet l k k'.
Proof using Type.
  intros W. split; [apply W|intros p; by apply kwakes_dom|intros p; by apply kwakes_pid|intros p; by apply kwakes_zombie| |].
  - by apply kwakes_runnable.
  - intros p _. apply W.
Qed.

Lemma inv_quiet s ch k' : table_inv s ch -> quiet (proc_list s) (kern s) k' -> sched_inv I k' -> events_ok k' (info s) -> calm k' ->
  (forall z, zombie (kern s) z -> wqueues (kern s) !! event_wait_queue z = Some [] -> wqueues k' !! event_wait_queue z = Some []) ->
  table_inv (put_kern k' s) ch.
Proof using Type.
  intros P W Hi He Hcalm Hev.
  assert (Hpid : forall p n, pid_is (put_kern k' s) p n <-> pid_is s p n).
  { intros p n. unfold pid_is. cbn. by rewrite (q_pid _ _ _ W). }
  assert (Hused : forall l n, used (put_kern k' s) l n -> used s l n) by (intros l n (p & Hp & Hn); exists p; by rewrite <- Hpid).
  destruct P. split; cbn [kern info thread_groups proc_list hash_list nr_process last_pid next_safe initproc put_kern]; try done.
  - intros p. by rewrite (q_dom _ _ _ W).
  - destruct pi_pids0 as (A & B & C). split; [done|]. split; [done|]. intros n Hn. by apply C, Hused.
  - intros p n Hp Hn. by apply (pi_range0 p n Hp), Hpid.
  - intros p q n Hp Hq Hn Hm. apply (pi_inj0 p q n Hp Hq); by apply Hpid.
  - intros h Hh. destruct (pi_hash0 h Hh) as (l & A & B & C). exists l. split_and!; try done. intros p. rewrite C.
    by setoid_rewrite Hpid.
  - intros z Hz%(q_zombie _ _ _ W). destruct (pi_zombie0 z Hz) as (A & B & C & D). split_and!; try done. by apply Hev.
  - intros p Hp Hl Hid. rewrite (q_idle _ _ _ W) in Hid. destruct (pi_private0 p Hp Hl Hid) as (A & B & C). split_and!; try done. by apply (q_new _ _ _ W).
  - rewrite (q_idle _ _ _ W). destruct pi_idle0. split; [done|]. by apply (q_run _ _ _ W).
  - destruct pi_init0. split; [done|]. by rewrite (q_zombie _ _ _ W).
Qed.

(** What the wake-ups of a block rely on and keep. *)
Definition ready (k : kstate) (i : gmap Z pinfo) : Prop := sched_inv I k /\ events_ok k i /\ calm k.

Lemma events_wakes k k' i : rest_same k k' -> kwakes k k' -> events_ok k i -> events_ok k' i.
Proof using Type.
  intros R W E. split.
  - apply (waits_ok_same k); [apply E|apply R|apply R|]. intros p. by rewrite (kwakes_dom _ _ _ W).
  - intros q l u p. rewrite (rs_wqueues _ _ R). unfold owner. rewrite (rs_waits _ _ R). intros Hq Hu Ho.
    apply (kwakes_grown k k' p W). by apply (eo_owner _ _ E q l u).
  - intros p Hp. rewrite (rs_wqueues _ _ R). by apply E.
Qed.

Lemma wakeup_run k i p : ready k i -> grown k p ->
  exists k', wakeup_proc sc p k = Ret (tt, k') /\ ready k' i /\ rest_same k k' /\ kwakes k k' /\ proc_is k' p PROC_RUNNABLE.
Proof using Hsp.
  intros (Hi & He & Hc) Hgr. pose proof Hgr as [(x & Hx & Hz) _]. destruct (wakeup_proc_woken k p x Hi Hx Hz) as (k' & Hr & Hi' & W).
  pose proof (woken_kwakes p k k' W Hgr) as Hw. pose proof (wk_rest _ _ _ W) as R.
  exists k'. split; [done|]. split; [|split_and!; [done|done|apply W]].
  split_and!; [done|by apply (events_wakes k)|by apply (kwakes_calm k)].
Qed.

(** A wake-up that depends on a test. *)
Lemma wake_if_run (b : bool) (s : state) i p : ready (kern s) i -> (b = true -> grown (kern s) p) ->
  exists k', (if b then kcall (wakeup_proc sc p) else ret tt) s = Ret (tt, put_kern k' s) /\ ready k' i /\
    rest_same (kern s) k' /\ kwakes (kern s) k' /\ (b = true -> proc_is k' p PROC_RUNNABLE).
Proof using Hsp.
  intros Hr Ha. destruct b.
  - destruct (wakeup_run (kern s) i p Hr) as (k' & Hrun & H1 & H2 & H3 & H4); [by apply Ha|]. exists k'.
    rewrite (kcall_run _ s tt k' Hrun). by split_and!.
  - exists (kern s). rewrite put_kern_id. split_and!; try done; reflexivity.
Qed.

Lemma waiting_grown k p x : calm k -> procs k !! p = Some x -> wait_state x <> 0 -> grown k p.
Proof using Type.
  intros Hc Hx Hw. split.
  - exists x. split; [done|]. intros E. apply Hw. apply (Hc p x Hx). by rewrite E.
  - unfold proc_is. rewrite Hx. intros [= E]. apply Hw. apply (Hc p x Hx). by rewrite E.
Qed.

(** ** The end of a process *)

Lemma wake_waiting_run i : forall l (s : state), ready (kern s) i -> known s l ->
  exists k', wake_waiting sc l s = Ret (tt, put_kern k' s) /\ ready k' i /\ rest_same (kern s) k' /\ kwakes (kern s) k' /\
    forall q x, q ∈ l -> procs (kern s) !! q = Some x -> wait_state x = WT_CHILD -> proc_is k' q PROC_RUNNABLE.
Proof using Hsp.
  induction l as [|q l IH]; intros s Hr Hk; cbn [wake_waiting].
  - exists (kern s). rewrite put_kern_id. split_and!; try done; try reflexivity. by intros q x ?%not_elem_of_nil.
  - destruct (Hk q) as [x Hx]; [left|]. rewrite (bind_step _ _ _ _ _ (kget_run s q x Hx)).
    destruct (wake_if_run (wait_state x =? WT_CHILD) s i q Hr) as (k1 & Hr1 & R1 & S1 & W1 & G1).
    { intros E%Z.eqb_eq. apply (waiting_grown _ _ x); [apply Hr|done|by rewrite E]. }
    rewrite (bind_step _ _ _ _ _ Hr1).
    destruct (IH (put_kern k1 s) R1) as (k2 & Hr2 & R2 & S2 & W2 & G2).
    { intros p Hp. apply (kwakes_dom _ _ _ W1), Hk. by right. }
    exists k2. split; [exact Hr2|]. split; [done|]. split; [by transitivity k1|]. split; [by transitivity k1|].
    intros p y [->|Hp]%elem_of_cons Hy Hw.
    + rewrite Hx in Hy. injection Hy as <-. apply (kwakes_runnable _ _ _ W2), G1. by apply Z.eqb_eq.
    + destruct (kw_step _ _ W1 p y Hy) as (y' & Hy' & E1 & E2 & E3 & [[E4 E5]|(E4 & E5 & E6)]).
      * apply (G2 p y' Hp Hy'). congruence.
      * apply (kwakes_runnable _ _ _ W2). change (proc_is k1 p PROC_RUNNABLE). unfold proc_is. rewrite Hy'. cbn. by rewrite E5.
Qed.

Lemma fam_settle cur v i ch : fam_at (y_at cur v) i ch -> ch cur = [] -> fam i ch.
Proof using Type.
  intros F Hc. split; [apply F| |apply F|apply F]. intros p x Hx. pose proof (f_children _ _ _ F p x Hx) as Hs. unfold y_at in Hs.
  destruct (Z.eqb_spec p cur) as [->|]; [rewrite Hc in *; exact Hs|exact Hs].
Qed.

Lemma move_run {A} (K : M state A) (s : state) cur par p x y :
  info s !! p = Some x -> is_Some (info s !! cur) -> info s !! par = Some y -> cur <> par -> cptr y <> p ->
  (cptr y <> 0 -> is_Some (info s !! cptr y)) ->
  (x <- get_info p ;; set_info (set_cptr (optr x)) cur ;; set_info (set_yptr 0) p ;; y <- get_info par ;;
   set_info (set_optr (cptr y)) p ;; (if negb (cptr y =? 0) then set_info (set_yptr p) (cptr y) else ret tt) ;;
   set_info (set_parent par) p ;; set_info (set_cptr p) par ;; K) s
  = K (upd_info (move_map cur par p (optr x) (cptr y)) s).
Proof using Type.
  intros Hx Hc Hy Hne Hyp Hc0. erewrite bind_step; [|apply get_info_run; exact Hx].
  erewrite bind_step; [|apply set_info_run; exact Hc].
  erewrite bind_step; [|apply set_info_run; cbn; rewrite lookup_alter_is_Some; by rewrite Hx].
  assert (exists y', alter (set_yptr 0) p (alter (set_cptr (optr x)) cur (info s)) !! par = Some y' /\ cptr y' = cptr y) as (y' & Hy' & Ey).
  { rewrite !lookup_alter_at, Hy. rewrite (decide_False (P := par = cur)) by congruence. case_decide; cbn; by eexists. }
  erewrite bind_step; [|apply get_info_run; exact Hy']. rewrite Ey.
  erewrite bind_step; [|apply set_info_run; cbn; rewrite !lookup_alter_is_Some; by rewrite Hx]. unfold move_map.
  destruct (Z.eqb_spec (cptr y) 0) as [E0|E0]; cbn [negb].
  - rewrite bind_ret. erewrite bind_step; [|apply set_info_run; cbn; rewrite !lookup_alter_is_Some; by rewrite Hx].
    erewrite bind_step; [|apply set_info_run; cbn; rewrite !lookup_alter_is_Some; by rewrite Hy]. done.
  - erewrite bind_step; [|apply set_info_run; cbn; rewrite !lookup_alter_is_Some; by apply Hc0].
    erewrite bind_step; [|apply set_info_run; cbn; rewrite !lookup_alter_is_Some; by rewrite Hx].
    erewrite bind_step; [|apply set_info_run; cbn; rewrite !lookup_alter_is_Some; by rewrite Hy]. done.
Qed.

Lemma adopt_run cur par i0 : forall l fuel (s : state) ch v,
  (length l < fuel)%nat -> ch cur = l -> fam_at (y_at cur v) (info s) ch -> cur <> par ->
  is_Some (info s !! cur) -> is_Some (info s !! par) ->
  (forall p, is_Some (info s !! p) <-> is_Some (procs (kern s) !! p)) -> ready (kern s) i0 -> alive (kern s) par ->
  exists k' i', reparent_loop sc fuel cur par s = Ret (tt, put_kern k' (upd_info (fun _ => i') s)) /\
    fam i' (set_ch (set_ch ch cur []) par (rev l ++ ch par)) /\ (forall q, is_Some (i' !! q) <-> is_Some (info s !! q)) /\
    (forall q, outer <$> i' !! q = outer <$> info s !! q) /\ ready k' i0 /\ rest_same (kern s) k' /\ kwakes (kern s) k' /\
    forall z x, z ∈ l -> zombie (kern s) z -> procs (kern s) !! par = Some x -> wait_state x = WT_CHILD -> proc_is k' par PROC_RUNNABLE.
Proof using Hsp.
  induction l as [|p l IH]; intros fuel s ch v Hf Hch F Hne [c Hc] [y Hy] Hdom Hr Hal; (destruct fuel as [|fuel]; [cbn in Hf; lia|]);
    cbn [reparent_loop]; erewrite bind_step; try (apply get_info_run; exact Hc);
    pose proof (sibs_head _ _ _ _ _ (f_children _ _ _ F _ _ Hc)) as Hh; rewrite Hch in Hh; cbn in Hh; rewrite Hh.
  - exists (kern s), (info s). split; [by destruct s|]. split.
    + apply (fam_settle cur v) in F; [|done]. apply (fam_ext (fun _ => 0) _ (info s) _ ch); try done. intros q.
      destruct (decide (q = par)) as [->|]; [by rewrite set_ch_eq|]. rewrite set_ch_ne by done.
      destruct (decide (q = cur)) as [->|]; [by rewrite set_ch_eq|by rewrite set_ch_ne].
    + split_and!; try done; try reflexivity; try apply Hr. by intros z x ?%not_elem_of_nil.
  - assert (Hp : p ∈ ch cur) by (rewrite Hch; left). destruct (child_parent _ _ _ _ _ F Hp) as (x & Hx & _ & _).
    assert (p <> 0) by (intros ->; rewrite (f_zero _ _ _ F) in Hx; done). rewrite (proj2 (Z.eqb_neq p 0)) by done. cbv zeta.
    assert (Hs : sibs (info s) par 0 (cptr y) (ch par)).
    { pose proof (f_children _ _ _ F _ _ Hy) as Hs. unfold y_at in Hs. by rewrite (proj2 (Z.eqb_neq par cur)) in Hs by done. }
    pose proof (sibs_head _ _ _ _ _ Hs) as Hh2.
    assert (Hc0 : cptr y <> 0 -> cptr y ∈ ch par) by (destruct (ch par); cbn in Hh2; [done|rewrite Hh2; left]).
    assert (Hyp : cptr y <> p).
    { intros E. rewrite E in Hc0. apply Hne, (child_unique _ (info s) ch cur par p F Hp). auto. }
    rewrite (move_run _ s cur par p x y); [|done|by rewrite Hc|done|done|done|].
    2:{ intros Hz. destruct (child_parent _ _ _ _ _ F (Hc0 Hz)) as (z & -> & _). by eexists. }
    set (i1 := move_map cur par p (optr x) (cptr y) (info s)).
    pose proof (move_map_relinked cur par p (optr x) (cptr y) (info s) Hyp Hne (f_zero _ _ _ F)) as Hrel. fold i1 in Hrel.
    pose proof (fam_move _ _ _ _ _ _ _ _ _ F Hch Hne Hx Hy) as F1. fold i1 in F1.
    assert (is_Some (procs (kern s) !! p)) as [pp Hpp] by (apply Hdom; by rewrite Hx).
    assert (is_Some (procs (kern s) !! par)) as [pq Hpq] by (apply Hdom; by rewrite Hy).
    change (upd_info (move_map cur par p (optr x) (cptr y)) s) with (upd_info (fun _ => i1) s).
    rewrite (bind_step _ _ _ _ _ (kget_run (upd_info (fun _ => i1) s) p pp Hpp)), (bind_step _ _ _ _ _ (kget_run (upd_info (fun _ => i1) s) par pq Hpq)).
    destruct (wake_if_run (is_state (pstate pp) PROC_ZOMBIE && (wait_state pq =? WT_CHILD)) (upd_info (fun _ => i1) s) i0 par Hr)
      as (k1 & Hr1 & R1 & S1 & W1 & G1).
    { intros [_ E%Z.eqb_eq]%andb_true_iff. apply (waiting_grown _ _ pq); [apply Hr|done|by rewrite E]. }
    rewrite (bind_step _ _ _ _ _ Hr1).
    assert (Hch1 : set_ch (set_ch ch cur l) par (p :: ch par) cur = l) by (rewrite set_ch_ne, set_ch_eq by done; done).
    destruct (IH fuel (put_kern k1 (upd_info (fun _ => i1) s)) _ p ltac:(cbn in Hf; lia) Hch1 F1 Hne)
      as (k2 & i2 & Hr2 & F2 & D2 & O2 & R2 & S2 & W2 & G2).
    + apply (relinked_dom _ _ _ _ _ _ _ Hrel). by rewrite Hc.
    + apply (relinked_dom _ _ _ _ _ _ _ Hrel). by rewrite Hy.
    + intros q. cbn. rewrite (relinked_dom _ _ _ _ _ _ _ Hrel), Hdom. by rewrite (kwakes_dom _ _ _ W1).
    + done.
    + by apply (kwakes_alive _ _ _ W1).
    + exists k2, i2. split; [rewrite Hr2; done|]. split; [|split_and!].
      * apply (fam_ext (fun _ => 0) _ i2 _ (set_ch (set_ch (set_ch (set_ch ch cur l) par (p :: ch par)) cur []) par
          (rev l ++ set_ch (set_ch ch cur l) par (p :: ch par) par))); [done|done| |done].
        intros q. destruct (decide (q = par)) as [->|Hq]; [by rewrite !set_ch_eq; cbn; rewrite <- app_assoc|].
        destruct (decide (q = cur)) as [->|Hq2]; [by rewrite !(set_ch_ne _ par) by done; rewrite !set_ch_eq|]. by rewrite !set_ch_ne by done.
      * intros q. rewrite D2. apply (relinked_dom _ _ _ _ _ _ _ Hrel).
      * intros q. rewrite O2. apply (relinked_outer _ _ _ _ _ _ _ Hrel).
      * apply R2.
      * by transitivity k1.
      * by transitivity k1.
      * intros z x0 [->|Hz]%elem_of_cons Hzz Hx0 Hw.
        -- apply (kwakes_runnable _ _ _ W2), G1. rewrite Hpq in Hx0. injection Hx0 as <-. unfold zombie, proc_is in Hzz. rewrite Hpp in Hzz.
           cbn in Hzz. injection Hzz as E. rewrite E, Hw. done.
        -- destruct (kw_step _ _ W1 par x0 Hx0) as (x1 & Hx1 & _ & _ & _ & [[E4 E5]|(E4 & E5 & E6)]).
           ++ apply (G2 z x1 Hz); [by apply (kwakes_zombie _ _ _ W1)|done|congruence].
           ++ apply (kwakes_runnable _ _ _ W2). change (proc_is k1 par PROC_RUNNABLE). unfold proc_is. rewrite Hx1. cbn. by rewrite E5.
Qed.
End Inv.
End ProcInv.

(** * The end of a process: [__do_exit] and [do_wait]

    The blocks of proc.c that run with interrupts off, against the invariant. *)

Import Kern Sched SchedInv WaitInv Proc ProcTable ProcInv.

Module ProcExit.

Section Exit.
Context {X : Type} {sc : sched_class} {I : kstate -> Prop} {Hsp : SchedPolicy sc I}.
#[local] Abbreviation state := (state (X := X)).
#[local] Abbreviation table_inv := (table_inv (X := X) (I := I)).
#[local] Abbreviation proc_inv := (proc_inv (X := X) (I := I)).
#[local] Abbreviation ready := (ready (I := I)).

(** The kernel's part of the state when [cur] has become a zombie. *)
Definition dying (cur : Z) (k : kstate) : kstate := upd_procs (alter (set_pstate PROC_ZOMBIE) cur) k.

Lemma dying_zombie k cur p : is_Some (procs k !! cur) -> zombie (dying cur k) p <-> p = cur \/ zombie k p.
Proof using Type.
  intros [x Hx]. unfold zombie, dying. rewrite proc_is_alter. case_decide as E; [subst|naive_solver].
  split; [by left|]. intros _. by exists x.
Qed.

Lemma dying_alive k cur p : p <> cur -> alive k p -> alive (dying cur k) p.
Proof using Type. intros Hne (x & Hx & Hz). exists x. split; [|done]. cbn. by rewrite lookup_alter_ne. Qed.

Lemma dying_ready s ch :
  let cur := current (kern s) in
  proc_inv s ch -> cur <> idleproc (kern s) ->
  (forall q l u, wqueues (kern s) !! q = Some l -> u ∈ l -> ~ owner (kern s) u cur) ->
  ready (dying cur (kern s)) (info s).
Proof using Hsp.
  intros cur (P & _ & Hrun) Hid Hown. pose proof (pi_sched _ _ P) as Hi. pose proof (pi_events _ _ P) as He.
  assert (Hst : forall p, p <> cur -> forall st, proc_is (dying cur (kern s)) p st <-> proc_is (kern s) p st).
  { intros p Hp st. unfold dying. rewrite proc_is_alter. case_decide; [done|done]. }
  split; [|split].
  - split.
    + apply (sp_stable (kern s)); [|apply Hi]. split; try done. intros q. cbn. rewrite lookup_alter_at. case_decide; [|done]. by destruct (procs (kern s) !! q).
    + apply known_alter, Hi.
    + apply known_alter, Hi.
    + intros p Hq. destruct (si_queued _ _ Hi p Hq) as (A & B & C). split_and!; try done. by apply Hst.
    + intros p Hp Hc Hd. apply (si_runnable _ _ Hi p); try done. by apply Hst in Hp.
  - split.
    + apply (waits_ok_same (kern s)); [apply He|done|done|]. intros p Hp. by apply known_alter.
    + intros q l u p Hq Hu Ho. assert (Hp : p <> cur) by (intros ->; by apply (Hown q l u)).
      destruct (eo_owner _ _ He q l u p Hq Hu Ho) as [H1 H2]. split; [by apply dying_alive|]. by rewrite Hst.
    + apply He.
  - intros p x. cbn. rewrite lookup_alter_at. case_decide as E; [subst p|apply (pi_calm _ _ P)].
    intros (y & Hy & ->)%fmap_Some _. cbn. apply (pi_calm _ _ P cur y Hy). unfold proc_is in Hrun. fold cur in Hrun. rewrite Hy in Hrun. cbn in Hrun. by injection Hrun as ->.
Qed.

(** Threads share a ring only with the living. *)
Lemma mate_alive s ch r p n : table_inv s ch -> r ∈ thread_groups s -> p ∈ r -> n ∈ r -> n <> p ->
  alive (kern s) n /\ (n ∈ proc_list s \/ n = idleproc (kern s)).
Proof using Type.
  intros P Hr Hp Hn Hne. pose proof (pi_groups _ _ P) as G.
  assert (Hk : is_Some (info s !! n)) by (apply (g_dom _ _ G); by exists r).
  assert (Hno : [n] ∈ thread_groups s -> False).
  { intros Hs. pose proof (g_uniq _ _ G r [n] n Hr Hs Hn ltac:(left)) as ->. by apply list_elem_of_singleton in Hp. }
  split.
  - apply alive_zombie; [by apply (pi_dom _ _ P)|]. intros (_ & _ & Hs & _)%(pi_zombie _ _ P). done.
  - destruct (decide (n ∈ proc_list s)); [by left|]. destruct (decide (n = idleproc (kern s))); [by right|]. exfalso.
    by destruct (pi_private _ _ P n) as (_ & Hs & _).
Qed.

Lemma ring_from_known s ch r p : table_inv s ch -> r ∈ thread_groups s -> p ∈ r -> known s (ring_from r [] p).
Proof using Type.
  intros P Hr Hp q Hq. apply elem_ring_from in Hq as [Hq|?%not_elem_of_nil]; [|done|done].
  apply (pi_dom _ _ P), (g_dom _ _ (pi_groups _ _ P)). by exists r.
Qed.

Lemma children_fit s ch p : table_inv s ch -> (length (ch p) <= length (proc_list s))%nat.
Proof using Type.
  intros P. apply submseteq_length, NoDup_submseteq; [apply (pi_fam _ _ P)|]. intros c Hc. apply (pi_list _ _ P). by exists p.
Qed.

(** Detaching the thread, as a function of the groups. *)
Lemma de_thread_run (s : state) cur r : groups_ok (thread_groups s) (info s) -> r ∈ thread_groups s -> cur ∈ r ->
  exists gs, de_thread cur s = Ret (tt, upd_groups (fun _ => gs) s) /\ groups_ok gs (info s) /\ [cur] ∈ gs /\
    (forall z, z <> cur -> [z] ∈ thread_groups s -> [z] ∈ gs) /\
    (forall p q, p <> cur -> q <> cur -> (exists g, g ∈ gs /\ p ∈ g /\ q ∈ g) <-> exists g, g ∈ thread_groups s /\ p ∈ g /\ q ∈ g).
Proof using Type.
  intros G Hr Hc. unfold de_thread. rewrite bind_get, (ring_of_some _ _ _ _ G Hr Hc).
  rewrite (bind_deref _ r) by done. case_bool_decide as E.
  - subst r. exists (thread_groups s). split; [by destruct s|]. split_and!; try done.
  - exists ([cur] :: (remove cur <$> thread_groups s)). split; [done|]. split; [|split; [left|split]].
    + apply groups_detach; [done|]. apply (g_dom _ _ G). by exists r.
    + intros z Hz Hin. right. replace [z] with (remove cur [z]); [by apply list_elem_of_fmap_2|].
      apply remove_notin. rewrite list_elem_of_singleton. congruence.
    + intros p q Hp Hq. split.
      * intros (g & [->|(g0 & -> & Hg)%list_elem_of_fmap]%elem_of_cons & H1 & H2); [by apply list_elem_of_singleton in H1|].
        apply elem_of_remove in H1 as [_ H1]. apply elem_of_remove in H2 as [_ H2]. by exists g0.
      * intros (g & Hg & H1 & H2). exists (remove cur g). split; [right; by apply list_elem_of_fmap_2|]. by rewrite !elem_of_remove.
Qed.

(** What the block of [__do_exit] does. *)
Record exited (s : state) (ch : Z -> list Z) (cur par : Z) (k' : kstate) (i' : gmap Z pinfo) (gs : list (list Z)) : Prop := {
  x_par : par <> cur /\ alive (kern s) par /\ (par ∈ proc_list s \/ par = idleproc (kern s));
  x_heir : (par = initproc s /\ [cur] ∈ thread_groups s) \/ exists r, r ∈ thread_groups s /\ cur ∈ r /\ par ∈ r;
  x_groups : groups_ok gs (info s) /\ [cur] ∈ gs /\ (forall z, z <> cur -> [z] ∈ thread_groups s -> [z] ∈ gs);
  x_mates : forall p q, p <> cur -> q <> cur -> (exists g, g ∈ gs /\ p ∈ g /\ q ∈ g) <-> exists g, g ∈ thread_groups s /\ p ∈ g /\ q ∈ g;
  x_fam : fam i' (set_ch (set_ch ch cur []) par (rev (ch cur) ++ ch par));
  x_dom : forall q, is_Some (i' !! q) <-> is_Some (info s !! q);
  x_outer : forall q, outer <$> i' !! q = outer <$> info s !! q;
  x_wakes : kwakes (dying cur (kern s)) k';
  x_sched : sched_inv I k';
  x_events : events_ok k' (info s);
  x_queues : wqueues k' = <[event_wait_queue cur := []]> (wqueues (kern s));
  x_woken : forall p r q x, cur ∈ ch p -> r ∈ thread_groups s -> p ∈ r -> q ∈ r ->
    procs (dying cur (kern s)) !! q = Some x -> wait_state x = WT_CHILD -> proc_is k' q PROC_RUNNABLE;
  x_heir_woken : forall z x, z ∈ ch cur -> zombie (dying cur (kern s)) z -> procs (kern s) !! par = Some x -> wait_state x = WT_CHILD ->
    proc_is k' par PROC_RUNNABLE
}.

Lemma all_woken_kwakes q f l k k' : (forall u p, u ∈ l -> owner k u p -> grown k p) ->
  all_woken q f l k k' -> kwakes k k'.
Proof using Type.
  intros Ho A. constructor; [apply A|apply A|apply A|..].
  2:{ intros p Hp. unfold proc_is. rewrite (core_eq_pstate _ _ (aw_other _ _ _ _ _ A p ltac:(intros u Hu Hup; by destruct (Ho u p Hu Hup)))). done. }
  intros p Hp. pose proof (aw_other _ _ _ _ _ A p) as E.
  rewrite Hp in E. assert (E' : core_of <$> procs k' !! p = None).
  { apply E. intros u Hu Hup. destruct (Ho u p Hu Hup) as [(? & ? & _) _]. congruence. }
  by apply fmap_None in E'.
Qed.

Lemma exit_run s ch :
  let cur := current (kern s) in
  proc_inv s ch -> cur <> idleproc (kern s) -> cur <> initproc s ->
  (forall q l u, wqueues (kern s) !! q = Some l -> u ∈ l -> ~ owner (kern s) u cur) ->
  exists par k' i' gs,
    (kcall (update_proc (set_pstate PROC_ZOMBIE) cur) ;; exit_block sc) s =
      Ret (tt, put_kern k' (upd_info (fun _ => i') (upd_groups (fun _ => gs) s))) /\
    exited s ch cur par k' i' gs.
Proof using Hsp.
  intros cur Hinv Hid Hin Hown. pose proof (dying_ready s ch Hinv Hid Hown) as Hr0. destruct Hinv as (P & Hcur & Hrun). fold cur in Hr0, Hcur, Hrun.
  pose proof (pi_groups _ _ P) as G.
  assert (Hcl : cur ∈ proc_list s) by (by destruct Hcur). pose proof (list_known _ _ _ P Hcl) as [c Hc].
  assert (Hck : is_Some (procs (kern s) !! cur)) by (apply (pi_dom _ _ P); by rewrite Hc).
  apply (pi_list _ _ P) in Hcl as Hpp. destruct Hpp as (pp & Hpp).
  destruct (child_parent _ _ _ _ _ (pi_fam _ _ P) Hpp) as (c' & Hc' & Epp & Hppk). rewrite Hc in Hc'. injection Hc' as <-.
  set (k0 := dying cur (kern s)). set (s0 := put_kern k0 s).
  rewrite (bind_step _ _ s tt s0) by (apply kcall_run, update_proc_ok; done).
  unfold exit_block. rewrite (bind_step get_current _ s0 cur s0) by reflexivity.
  erewrite bind_step; [|apply get_info_run; exact Hc]. rewrite Epp.
  apply (g_dom _ _ G) in Hppk as (r & Hrg & Hpr). unfold threads_from.
  erewrite bind_step; [|rewrite bind_get; cbn [thread_groups s0 put_kern]; rewrite (ring_of_some _ _ _ _ G Hrg Hpr); reflexivity].
  destruct (wake_waiting_run (sc := sc) (info s) (ring_from r [] pp) s0 Hr0) as (k1 & Hr1 & R1 & S1 & W1 & G1).
  { intros q Hq. apply known_alter. by apply (ring_from_known s ch r pp P Hrg Hpr). }
  rewrite (bind_step _ _ _ _ _ Hr1). clear Hr1.
  assert (is_Some (info s !! cur)) as Hci by (by rewrite Hc). apply (g_dom _ _ G) in Hci as (rc & Hrcg & Hcr).
  destruct (ring_next_some rc cur Hcr (g_nodup _ _ G rc Hrcg)) as (n & Hn & Hnr & Hnc).
  erewrite bind_step; [|unfold next_thread; rewrite bind_get; cbn [thread_groups s0 put_kern]; rewrite (ring_of_some _ _ _ _ G Hrcg Hcr), (bind_deref _ rc) by done; rewrite Hn; reflexivity].
  rewrite bind_get. cbn [initproc s0 put_kern]. cbv zeta.
  set (par := if n =? cur then initproc s else n).
  assert (Hpar : par <> cur /\ alive (kern s) par /\ (par ∈ proc_list s \/ par = idleproc (kern s)) /\
     ((par = initproc s /\ [cur] ∈ thread_groups s) \/ exists r, r ∈ thread_groups s /\ cur ∈ r /\ par ∈ r)).
  { unfold par. destruct (Z.eqb_spec n cur) as [E|E].
    - destruct (pi_init _ _ P) as [I1 I2]. split; [congruence|]. split; [|split; [by left|left]].
      + apply alive_zombie; [|done]. by apply (pi_dom _ _ P), (list_known _ _ _ P).
      + apply Hnc in E as ->. done.
    - destruct (mate_alive s ch rc cur n P Hrcg Hcr Hnr E) as [A1 A2]. split_and!; try done. right. by exists rc. }
  destruct Hpar as (Hpne & Hpal & Hpin & Hheir).
  destruct (de_thread_run (put_kern k1 s0) cur rc G Hrcg Hcr) as (gs & Hr2 & G2 & Hg1 & Hg2 & Hg3). rewrite (bind_step _ _ _ _ _ Hr2). clear Hr2.
  rewrite bind_get. set (s2 := upd_groups (fun _ => gs) (put_kern k1 s0)).
  destruct (adopt_run (sc := sc) cur par (info s) (ch cur) (S (length (proc_list s2))) s2 ch 0)
    as (k2 & i2 & Hr3 & F3 & D3 & O3 & R3 & S3 & W3 & G3).
  { apply Nat.lt_succ_r. by apply (children_fit s ch cur). }
  { done. }
  { apply (fam_ext (fun _ => 0) _ (info s) _ ch); try done; [|apply P]. intros q. unfold y_at. by destruct (q =? cur). }
  { congruence. }
  { cbn. by rewrite Hc. }
  { apply (pi_dom _ _ P). destruct Hpal as (x & -> & _). by eexists. }
  { intros p. cbn. rewrite (pi_dom _ _ P p), (kwakes_dom _ _ _ W1). symmetry. apply known_alter. }
  { exact R1. }
  { apply (kwakes_alive _ _ _ W1). by apply dying_alive. }
  rewrite (bind_step _ _ _ _ _ Hr3). clear Hr3.
  assert (Hq : wqueues k2 = wqueues (kern s)) by (rewrite (rs_wqueues _ _ S3); cbn; by rewrite (rs_wqueues _ _ S1)).
  destruct (eo_event _ _ (pi_events _ _ P) cur) as [lq Hlq]; [by rewrite Hc|].
  destruct R3 as (Hi3 & He3 & Hc3).
  assert (Hgr3 : forall u p, u ∈ lq -> owner k2 u p -> grown k2 p).
  { intros u p Hu Ho. apply (eo_owner _ _ He3 (event_wait_queue cur) lq u p); [by rewrite Hq|done|done]. }
  assert (Hal3 : forall u p, u ∈ lq -> owner k2 u p -> alive k2 p) by (intros u p Hu Ho; by apply (Hgr3 u p)).
  destruct (wakeup_queue_ok (sc := sc) k2 (event_wait_queue cur) lq WT_INTERRUPTED Hi3 (eo_waits _ _ He3) ltac:(by rewrite Hq) Hal3)
    as (k3 & Hr4 & Hi4 & Ho4 & A4).
  assert (W4 : kwakes k2 k3).
  { by apply (all_woken_kwakes (event_wait_queue cur) WT_INTERRUPTED lq). }
  exists par, k3, i2, gs. rewrite (kcall_run _ (put_kern k2 (upd_info (fun _ => i2) s2)) tt k3 Hr4). split; [done|]. split; try done.
  - transitivity k1; [done|]. transitivity k2; done.
  - split; [done| |].
    + intros q l u p Hql Hu Ho. rewrite (aw_queues _ _ _ _ _ A4) in Hql.
      apply lookup_insert_Some in Hql as [[<- <-]|[Hne Hql]]; [by apply not_elem_of_nil in Hu|].
      apply (kwakes_grown _ _ _ W4). apply (eo_owner _ _ He3 q l u p Hql Hu). unfold owner in *. rewrite (aw_flags _ _ _ _ _ A4) in Ho.
      destruct (waits k2 !! u); [|done]. cbn in Ho |- *. by case_decide.
    + intros p Hp. rewrite (aw_queues _ _ _ _ _ A4). apply lookup_insert_is_Some'. right. rewrite Hq. by apply (pi_events _ _ P).
  - by rewrite (aw_queues _ _ _ _ _ A4), Hq.
  - intros p r' q x Hp Hr' Hpr' Hqr' Hx Hw. rewrite (child_unique _ _ _ p pp cur (pi_fam _ _ P) Hp Hpp) in Hpr'.
    pose proof (g_uniq _ _ G r' r pp Hr' Hrg Hpr' Hpr) as ->.
    apply (kwakes_runnable _ _ _ W4), (kwakes_runnable _ _ _ W3). apply (G1 q x); [|done|done]. apply elem_ring_from; [done|by left].
  - intros z x Hz Hzz Hx Hw.
    assert (Hx0 : procs k0 !! par = Some x) by (unfold k0, dying; cbn; by rewrite lookup_alter_ne).
    apply (kwakes_runnable _ _ _ W4). destruct (kw_step _ _ W1 par x Hx0) as (x1 & Hx1 & _ & _ & _ & [[E4 E5]|(E4 & E5 & E6)]).
    + apply (G3 z x1 Hz); [by apply (kwakes_zombie _ _ _ W1)|done|congruence].
    + apply (kwakes_runnable _ _ _ W3). change (proc_is k1 par PROC_RUNNABLE). unfold proc_is. rewrite Hx1. cbn. by rewrite E5.
Qed.

Definition heirs (ch : Z -> list Z) (cur par : Z) : Z -> list Z := set_ch (set_ch ch cur []) par (rev (ch cur) ++ ch par).

Lemma heirs_par ch cur par : heirs ch cur par par = rev (ch cur) ++ ch par.
Proof using Type. apply set_ch_eq. Qed.

Lemma heirs_cur ch cur par : par <> cur -> heirs ch cur par cur = [].
Proof using Type. intros. unfold heirs. by rewrite set_ch_ne, set_ch_eq. Qed.

Lemma heirs_other ch cur par p : p <> cur -> p <> par -> heirs ch cur par p = ch p.
Proof using Type. intros. unfold heirs. by rewrite !set_ch_ne. Qed.

Lemma heirs_elem ch cur par c : par <> cur -> (exists p, c ∈ heirs ch cur par p) <-> exists p, c ∈ ch p.
Proof using Type.
  intros Hne. split; intros (p & Hp).
  - destruct (decide (p = par)) as [->|H1]; [rewrite heirs_par in Hp; apply elem_of_app in Hp as [Hp|Hp]; [rewrite elem_rev in Hp; by exists cur|by exists par]|].
    destruct (decide (p = cur)) as [->|H2]; [rewrite heirs_cur in Hp by done; by apply not_elem_of_nil in Hp|].
    rewrite heirs_other in Hp by done. by exists p.
  - destruct (decide (p = par)) as [->|H1]; [exists par; rewrite heirs_par; apply elem_of_app; by right|].
    destruct (decide (p = cur)) as [->|H2]; [exists par; rewrite heirs_par; apply elem_of_app; left; by apply elem_rev|].
    exists p. by rewrite heirs_other.
Qed.

Lemma exit_inv s ch cur par k' i' gs :
  cur = current (kern s) -> proc_inv s ch -> cur <> idleproc (kern s) -> cur <> initproc s -> exited s ch cur par k' i' gs ->
  table_inv (put_kern k' (upd_info (fun _ => i') (upd_groups (fun _ => gs) s))) (heirs ch cur par).
Proof using Type.
  intros Ec (P & Hcur & Hrun) Hid Hin E. rewrite <- Ec in Hcur, Hrun. assert (Hcl : cur ∈ proc_list s) by (by destruct Hcur).
  destruct (x_par _ _ _ _ _ _ _ E) as (Hpne & Hpal & Hpin). pose proof (x_wakes _ _ _ _ _ _ _ E) as W.
  assert (Hck : is_Some (procs (kern s) !! cur)) by (by apply (pi_dom _ _ P), (list_known _ _ _ P)).
  assert (Hpid : forall p n, pid <$> procs k' !! p = Some n <-> pid_is s p n).
  { intros p n. unfold pid_is. rewrite (kwakes_pid _ _ _ W). cbn. rewrite lookup_alter_at. case_decide; [|done]. by destruct (procs (kern s) !! p). }
  assert (Hz : forall z, zombie k' z <-> z = cur \/ zombie (kern s) z).
  { intros z. by rewrite (kwakes_zombie _ _ _ W), dying_zombie. }
  assert (Hevq : forall z, wqueues (kern s) !! event_wait_queue z = Some [] -> wqueues k' !! event_wait_queue z = Some []).
  { intros z Hq. rewrite (x_queues _ _ _ _ _ _ _ E), lookup_insert. by case_decide. }
  split; cbn [kern info thread_groups proc_list hash_list nr_process last_pid next_safe initproc put_kern upd_info upd_groups].
  - apply E.
  - destruct (x_events _ _ _ _ _ _ _ E) as [A B C]. split; try done. intros p Hp. apply C. by apply (x_dom _ _ _ _ _ _ _ E).
  - apply (kwakes_calm _ _ W). intros p x. cbn. rewrite lookup_alter_at. case_decide; [subst|apply P]. intros (y & Hy & ->)%fmap_Some _.
    cbn. apply (pi_calm _ _ P _ y Hy). unfold proc_is in Hrun. rewrite Hy in Hrun. injection Hrun as ->. done.
  - intros p. rewrite (x_dom _ _ _ _ _ _ _ E), (pi_dom _ _ P), (kwakes_dom _ _ _ W). symmetry. apply known_alter.
  - apply E.
  - destruct (x_groups _ _ _ _ _ _ _ E) as ([A B C] & _). split; try done. intros p. by rewrite (x_dom _ _ _ _ _ _ _ E).
  - apply (pi_nodup _ _ P).
  - intros c. rewrite (pi_list _ _ P). symmetry. by apply heirs_elem.
  - destruct (pi_pids _ _ P) as (A & B & C). split; [done|]. split; [done|]. intros n (p & Hp & Hn). apply C. exists p. split; [done|]. by apply Hpid.
  - intros p n Hp Hn. apply (pi_range _ _ P p n Hp). by apply Hpid.
  - intros p q n Hp Hq Hn Hm. apply (pi_inj _ _ P p q n Hp Hq); by apply Hpid.
  - apply (pi_nr _ _ P).
  - apply (pi_max _ _ P).
  - intros h Hh. destruct (pi_hash _ _ P h Hh) as (l & A & B & C). exists l. split_and!; try done. intros p. rewrite C.
    split; intros [? (n & Hn & ?)]; (split; [done|]; exists n; split; [by apply Hpid|done]).
  - destruct (x_groups _ _ _ _ _ _ _ E) as (_ & G1 & G2). intros z [->|Hzz]%Hz.
    + split_and!; [done|by apply heirs_cur|done|]. rewrite (x_queues _ _ _ _ _ _ _ E). apply lookup_insert_eq.
    + destruct (pi_zombie _ _ P z Hzz) as (A & B & C & D). assert (z <> cur).
      { intros ->. unfold zombie, proc_is in *. rewrite Hrun in Hzz. done. }
      assert (z <> par). { intros ->. apply alive_zombie in Hpal; [done|]. by apply (pi_dom _ _ P), (list_known _ _ _ P). }
      split_and!; [done|by rewrite heirs_other|by apply G2|by apply Hevq].
  - destruct (x_groups _ _ _ _ _ _ _ E) as (_ & G1 & G2). intros p Hp Hl Hpid'. rewrite (kw_idle _ _ W) in Hpid'. cbn in Hpid'.
    apply (x_dom _ _ _ _ _ _ _ E) in Hp. destruct (pi_private _ _ P p Hp Hl Hpid') as (A & B & C).
    assert (p <> cur) by congruence. split_and!; [|by apply G2|].
    + rewrite heirs_other; [done|done|]. intros ->. by destruct Hpin.
    + apply W. unfold dying. apply proc_is_alter. by rewrite decide_False by congruence.
  - rewrite (kw_idle _ _ W). cbn. destruct (pi_idle _ _ P) as [A B]. split; [done|]. apply (kwakes_runnable _ _ _ W). unfold dying. rewrite proc_is_alter.
    by rewrite decide_False by congruence.
  - destruct (pi_init _ _ P) as [A B]. split; [done|]. rewrite Hz. intros [?|?]; [congruence|done].
Qed.
End Exit.
End ProcExit.
