(* ===== verification/ProcReap.v ===== *)
(** * Finding processes and waiting for children: [find_proc], [do_wait]

    [ProcWait] is about finding processes, [ProcReap] about the children. *)

From S2P Require Import Prelude Kern Sched SchedInv Wait Proc ProcTable ProcInv.
Import Kern Sched SchedInv WaitInv Proc ProcTable ProcInv.
Open Scope Z_scope.

Module ProcWait.

Section Search.
Context {X : Type} {I : kstate -> Prop}.
#[local] Abbreviation state := (state (X := X)).
#[local] Abbreviation table_inv := (table_inv (X := X) (I := I)).

Lemma hash_find_run (s : state) n : forall l, known s l ->
  exists p, hash_find l n s = Ret (p, s) /\ ((p ∈ l /\ pid_is s p n) \/ (p = 0 /\ forall q, q ∈ l -> ~ pid_is s q n)).
Proof using Type.
  induction l as [|q l IH]; intros Hk; cbn [hash_find].
  - exists 0. split; [done|]. right. split; [done|]. by intros q ?%not_elem_of_nil.
  - destruct (Hk q) as [x Hx]; [left|]. rewrite (bind_step _ _ _ _ _ (kget_run s q x Hx)).
    destruct (Z.eqb_spec (pid x) n) as [E|E].
    + exists q. split; [done|]. left. split; [left|]. unfold pid_is. rewrite Hx. cbn. by rewrite E.
    + destruct IH as (p & Hr & H); [intros r Hr; apply Hk; by right|]. exists p. split; [done|].
      destruct H as [[H1 H2]|[-> H]]; [left; split; [by right|done]|right]. split; [done|].
      intros r [->|Hr2]%elem_of_cons; [|by apply H]. unfold pid_is. rewrite Hx. cbn. congruence.
Qed.

(** [find_proc] gives the process with the pid, if there is one. *)
Lemma find_run (s : state) ch n : table_inv s ch ->
  exists p, find_proc n s = Ret (p, s) /\
    ((p <> 0 /\ p ∈ proc_list s /\ pid_is s p n) \/ (p = 0 /\ forall q, q ∈ proc_list s -> ~ pid_is s q n)).
Proof using Type.
  intros P. unfold find_proc. destruct ((0 <? n) && (n <? MAX_PID)) eqn:E.
  - rewrite bind_get. destruct (pi_hash _ _ P (pid_hashfn n) (pid_hashfn_range n)) as (l & Hl & Hnd & Hmem).
    rewrite Hl, (bind_deref _ l) by done.
    destruct (hash_find_run s n l) as (p & Hr & H).
    { intros q Hq. apply Hmem in Hq as [Hq _]. by apply (table_known _ _ P). }
    exists p. split; [done|]. destruct H as [[H1 H2]|[-> H]].
    + left. apply Hmem in H1 as [H1 _]. split_and!; try done. intros ->. destruct (list_known _ _ _ P H1) as [x Hx].
      rewrite (f_zero _ _ _ (pi_fam _ _ P)) in Hx. done.
    + right. split; [done|]. intros q Hq Hn. apply (H q); [|done]. apply Hmem. split; [done|]. by exists n.
  - exists 0. split; [done|]. right. split; [done|]. intros q Hq Hn. pose proof (pi_range _ _ P q n Hq Hn) as [? ?].
    apply andb_false_iff in E as [?%Z.ltb_ge|?%Z.ltb_ge]; lia.
Qed.

(** ** The search of [do_wait] *)

(** The children of the threads in the group of [p], and which of them [do_wait(n)] is
    about. *)
Definition kid (s : state) (ch : Z -> list Z) (p c : Z) : Prop :=
  exists r t, r ∈ thread_groups s /\ p ∈ r /\ t ∈ r /\ c ∈ ch t.
Definition target (s : state) (n c : Z) : Prop := n = 0 \/ pid_is s c n.

(** The outcome of a search among the processes of which [K] holds: [z] is a zombie, or
    there is none. *)
Definition found (s : state) (K : Z -> Prop) (z : Z) (haskid : bool) : Prop :=
  (z <> 0 /\ haskid = true /\ K z /\ zombie (kern s) z) \/
  (z = 0 /\ (forall c, K c -> ~ zombie (kern s) c) /\ (haskid = true <-> exists c, K c)).

Lemma children_run (s : state) par : forall l y f fuel b, (length l < fuel)%nat -> sibs (info s) par y f l -> info s !! 0 = None ->
  known s l -> exists z b', wait_children fuel f b s = Ret ((z, b'), s) /\
    ((z <> 0 /\ b' = true /\ z ∈ l /\ zombie (kern s) z) \/
     (z = 0 /\ (forall c, c ∈ l -> ~ zombie (kern s) c) /\ (b' = true <-> b = true \/ exists c, c ∈ l))).
Proof using Type.
  induction l as [|c l IH]; intros y f fuel b Hf Hs H0 Hk; (destruct fuel as [|fuel]; [cbn in Hf; lia|]); cbn [wait_children sibs] in *.
  - rewrite Hs. exists 0, b. split; [done|]. right. split_and!; [done|by intros c ?%not_elem_of_nil|].
    split; [by left|]. intros [?|(c & ?%not_elem_of_nil)]; done.
  - destruct Hs as (-> & x & Hx & _ & _ & Hl). assert (Hc0 : c <> 0) by congruence. rewrite (proj2 (Z.eqb_neq c 0)) by done.
    destruct (Hk c) as [pr Hpr]; [left|]. rewrite (bind_step _ _ _ _ _ (kget_run s c pr Hpr)). unfold is_state. case_bool_decide as E.
    + exists c, true. split; [done|]. left. split_and!; try done; [left|]. unfold zombie, proc_is. rewrite Hpr. cbn. by rewrite E.
    + erewrite bind_step; [|apply get_info_run; exact Hx].
      destruct (IH c (optr x) fuel true ltac:(cbn in Hf; lia) Hl H0) as (z & b' & Hr & H); [intros q Hq; apply Hk; by right|].
      exists z, b'. split; [done|]. destruct H as [(A & B & C & D)|(-> & A & B)]; [left|right].
      * split_and!; try done. by right.
      * split_and!; [done| |].
        -- intros d [->|Hd]%elem_of_cons; [|by apply A]. unfold zombie, proc_is. rewrite Hpr. cbn. congruence.
        -- rewrite B. split; [intros _; right; exists c; left|by left].
Qed.

Lemma any_run (s : state) ch : table_inv s ch -> forall l b, (forall t, t ∈ l -> is_Some (info s !! t)) ->
  exists z b', wait_any_loop l b s = Ret ((z, b'), s) /\
    ((z <> 0 /\ b' = true /\ (exists t, t ∈ l /\ z ∈ ch t) /\ zombie (kern s) z) \/
     (z = 0 /\ (forall t c, t ∈ l -> c ∈ ch t -> ~ zombie (kern s) c) /\ (b' = true <-> b = true \/ exists t c, t ∈ l /\ c ∈ ch t))).
Proof using Type.
  intros P. induction l as [|t l IH]; intros b Hk; cbn [wait_any_loop].
  - exists 0, b. split; [done|]. right. split_and!; [done|by intros t c ?%not_elem_of_nil|].
    split; [by left|]. intros [?|(t & c & ?%not_elem_of_nil & _)]; done.
  - destruct (Hk t) as [x Hx]; [left|]. erewrite bind_step; [|apply get_info_run; exact Hx]. rewrite bind_get.
    assert (Hin : forall c, c ∈ ch t -> c ∈ proc_list s) by (intros c Hc; apply (pi_list _ _ P); by exists t).
    destruct (children_run s t (ch t) 0 (cptr x) (S (length (proc_list s))) b) as (z & b' & Hr & H).
    { apply Nat.lt_succ_r, submseteq_length, NoDup_submseteq; [apply (pi_fam _ _ P)|done]. }
    { by apply (pi_fam _ _ P). }
    { apply (pi_fam _ _ P). }
    { intros c Hc. apply (table_known _ _ P). by apply Hin. }
    rewrite (bind_step _ _ _ _ _ Hr). cbn [fst snd]. destruct H as [(A & B & C & D)|(-> & A & B)].
    + rewrite (proj2 (Z.eqb_neq z 0)) by done. cbn [negb]. exists z, b'. split; [done|]. left. split_and!; try done. exists t. split; [left|done].
    + rewrite Z.eqb_refl. cbn [negb]. destruct (IH b') as (z2 & b2 & Hr2 & H2); [intros q Hq; apply Hk; by right|].
      exists z2, b2. split; [done|]. destruct H2 as [(A2 & B2 & (t2 & C2 & C3) & D2)|(-> & A2 & B2)]; [left|right].
      * split_and!; try done. exists t2. split; [by right|done].
      * split_and!; [done| |].
        -- intros t2 c [->|Ht]%elem_of_cons Hc; [by apply A|by apply (A2 t2)].
        -- rewrite B2, B. split.
           ++ intros [[?|(c & Hc)]|(t2 & c & Ht & Hc)]; [by left|right; exists t, c; split; [left|done]|right; exists t2, c; split; [by right|done]].
           ++ intros [?|(t2 & c & [->|Ht]%elem_of_cons & Hc)]; [by left; left|left; right; by exists c|right; by exists t2, c].
Qed.

Lemma pid_loop_run (s : state) p x pr : info s !! p = Some x -> procs (kern s) !! p = Some pr -> forall l,
  wait_pid_loop l p s = Ret (if decide (parent x ∈ l) then Some (is_state (pstate pr) PROC_ZOMBIE) else None, s).
Proof using Type.
  intros Hx Hp. induction l as [|t l IH]; cbn [wait_pid_loop].
  - by rewrite decide_False by (apply not_elem_of_nil).
  - erewrite bind_step; [|apply get_info_run; exact Hx]. destruct (Z.eqb_spec (parent x) t) as [E|E].
    + rewrite (bind_step _ _ _ _ _ (kget_run s p pr Hp)). rewrite decide_True by (rewrite E; left). done.
    + rewrite IH. do 2 f_equal. destruct (decide (parent x ∈ l)); [by rewrite decide_True by (by right)|]. rewrite decide_False; [done|]. set_solver.
Qed.

Lemma search_run (s : state) ch n : table_inv s ch ->
  exists z b, wait_search n s = Ret ((z, b), s) /\
    found s (fun c => kid s ch (current (kern s)) c /\ target s n c) z b.
Proof using Type.
  intros P. unfold wait_search. rewrite (bind_step get_current _ s (current (kern s)) s) by reflexivity.
  pose proof (pi_groups _ _ P) as G. set (cur := current (kern s)).
  assert (is_Some (info s !! cur)) as Hcur by (apply (pi_dom _ _ P), (si_current _ _ (pi_sched _ _ P))).
  apply (g_dom _ _ G) in Hcur as (r & Hr & Hcr).
  assert (Hth : threads_from cur s = Ret (ring_from r [] cur, s)).
  { unfold threads_from. rewrite bind_get, (ring_of_some _ _ _ _ G Hr Hcr). done. }
  assert (Hmem : forall t, t ∈ ring_from r [] cur <-> t ∈ r).
  { intros t. rewrite elem_ring_from by done. split; [intros [?|?%not_elem_of_nil]; done|by left]. }
  assert (Hkid : forall c, kid s ch cur c <-> exists t, t ∈ r /\ c ∈ ch t).
  { intros c. split; [intros (r' & t & Hr' & H1 & H2 & H3)|intros (t & H1 & H2); by exists r, t].
    rewrite (g_uniq _ _ G r' r cur Hr' Hr H1 Hcr) in H2. by exists t. }
  destruct (Z.eqb_spec n 0) as [->|Hn]; cbn [negb].
  - rewrite (bind_step _ _ _ _ _ Hth).
    destruct (any_run s ch P (ring_from r [] cur) false) as (z & b & Hrun & H).
    { intros t Ht%Hmem. apply (g_dom _ _ G). by exists r. }
    exists z, b. split; [done|]. destruct H as [(A & B & (t & C1%Hmem & C2) & D)|(-> & A & B)]; [left|right].
    + split_and!; try done; [|by left]. apply Hkid. by exists t.
    + split_and!; [done| |].
      * intros c [(t & Ht & Hc)%Hkid _]. apply (A t); [by apply Hmem|done].
      * rewrite B. split; [intros [?|(t & c & Ht%Hmem & Hc)]; [done|]; exists c; split; [apply Hkid; by exists t|by left]|].
        intros (c & (t & Ht & Hc)%Hkid & _). right. exists t, c. by rewrite Hmem.
  - destruct (find_run s ch n P) as (p & Hf & H). rewrite (bind_step _ _ _ _ _ Hf). destruct H as [(Hp0 & Hpl & Hpn)|[-> H]].
    + rewrite (proj2 (Z.eqb_neq p 0)) by done. cbn [negb]. rewrite (bind_step _ _ _ _ _ Hth).
      apply (pi_list _ _ P) in Hpl as Hc. destruct Hc as (par & Hc). destruct (child_parent _ _ _ _ _ (pi_fam _ _ P) Hc) as (x & Hx & Ex & _).
      destruct (table_known _ _ P p Hpl) as [pr Hpr]. rewrite (bind_step _ _ _ _ _ (pid_loop_run s p x pr Hx Hpr _)).
      assert (Hkp : kid s ch cur p <-> parent x ∈ ring_from r [] cur).
      { rewrite Hmem, Hkid, Ex. split; [intros (t & Ht & Hpt); by rewrite (child_unique _ _ _ par t p (pi_fam _ _ P) Hc Hpt)|intros ?; by exists par]. }
      assert (Hone : forall c, kid s ch cur c -> target s n c -> c = p).
      { intros c (t & Ht & Hct)%Hkid [?|Hcn]; [done|]. apply (pi_inj _ _ P c p n); try done. apply (pi_list _ _ P). by exists t. }
      destruct (decide (parent x ∈ ring_from r [] cur)) as [Hin|Hin].
      * unfold is_state. case_bool_decide as E.
        -- exists p, true. split; [done|]. left. split_and!; try done; [by apply Hkp|by right|]. unfold zombie, proc_is. rewrite Hpr. cbn. by rewrite E.
        -- exists 0, true. split; [done|]. right. split_and!; [done| |].
           ++ intros c [H1 H2]. rewrite (Hone c H1 H2). unfold zombie, proc_is. rewrite Hpr. cbn. congruence.
           ++ split; [|done]. intros _. exists p. split; [by apply Hkp|by right].
      * exists 0, false. split; [done|]. right. split_and!; [done| |].
        -- intros c [H1 H2]. rewrite (Hone c H1 H2) in H1. by apply Hkp in H1.
        -- split; [done|]. intros (c & H1 & H2). rewrite (Hone c H1 H2) in H1. by apply Hkp in H1.
    + rewrite Z.eqb_refl. cbn [negb]. exists 0, false. split; [done|]. right.
      assert (Hnone : forall c, kid s ch cur c -> target s n c -> False).
      { intros c (t & Ht & Hct)%Hkid [?|Hcn]; [done|]. apply (H c); [|done]. apply (pi_list _ _ P). by exists t. }
      split_and!; [done|intros c [H1 H2]; exfalso; by apply (Hnone c)|]. split; [done|]. intros (c & H1 & H2). exfalso. by apply (Hnone c).
Qed.
End Search.
End ProcWait.

(** * Process structures: allocation and release

    [alloc_proc], [free_proc] and the last part of [do_wait], against the laws of the
    memory allocators. *)

Import Kern Sched SchedInv WaitInv Proc ProcTable ProcInv.

Module ProcReap.

(** What the allocators promise: they give out what is not in use, and take back what
    is. *)
Class ResourceLaws (X : Type) `{Resources X} := {
  objs : X -> gset Z;
  stacks : X -> gset Z;
  kmalloc_law : forall n x, exists a x', kmalloc n x = Ret (a, x') /\ stacks x' = stacks x /\
    ((a = 0 /\ objs x' = objs x) \/ (a <> 0 /\ (a ∉ objs x) /\ objs x' = {[a]} ∪ objs x));
  kfree_law : forall a x, a ∈ objs x -> exists x', kfree a x = Ret (tt, x') /\ stacks x' = stacks x /\ objs x' = objs x ∖ {[a]};
  alloc_stack_law : forall n x, exists a x', alloc_stack n x = Ret (a, x') /\ objs x' = objs x /\
    ((a = 0 /\ stacks x' = stacks x) \/ (a <> 0 /\ (a ∉ stacks x) /\ stacks x' = {[a]} ∪ stacks x));
  free_stack_law : forall a n x, a ∈ stacks x -> exists x', free_stack a n x = Ret (tt, x') /\ objs x' = objs x /\ stacks x' = stacks x ∖ {[a]}
}.

Section Reap.
Context {X : Type} `{HL : ResourceLaws X} {sc : sched_class} {I : kstate -> Prop} {Hsp : SchedPolicy sc I}.
#[local] Abbreviation state := (state (X := X)).
#[local] Abbreviation table_inv := (table_inv (X := X) (I := I)).
#[local] Abbreviation proc_inv := (proc_inv (X := X) (I := I)).

(** Process structures and kernel stacks in use are those of the processes, of those in
    the making too; the idle process runs on the boot stack. *)
Record mem_inv (s : state) : Prop := {
  m_objs : forall p, is_Some (info s !! p) -> p ∈ objs (ext s);
  m_stacks : forall p x, info s !! p = Some x -> p <> idleproc (kern s) -> kstack x ∈ stacks (ext s);
  m_inj : forall p q x y, info s !! p = Some x -> info s !! q = Some y -> p <> idleproc (kern s) -> q <> idleproc (kern s) ->
    kstack x = kstack y -> p = q
}.

Lemma xcall_run {A} (m : M X A) (s : state) a x : m (ext s) = Ret (a, x) -> xcall m s = Ret (a, put_ext x s).
Proof using Type. intros Hm. unfold xcall, zoom. by rewrite Hm. Qed.

Lemma event_queue_inj p q : event_wait_queue p = event_wait_queue q -> p = q.
Proof using Type. by intros [= ->]. Qed.

(** The kernel without the process [z]. *)
Definition without (z : Z) (k : kstate) : kstate := upd_wqueues (delete (event_wait_queue z)) (upd_procs (delete z) k).

Lemma without_events k i i' z : events_ok k i -> ~ alive k z -> (forall p, is_Some (i' !! p) -> is_Some (i !! p) /\ p <> z) ->
  events_ok (without z k) i'.
Proof using Type.
  intros [[W1 W2] Ho He] Hz Hi. split.
  - split; cbn.
    + intros q l [_ Hq]%lookup_delete_Some. by apply (W1 q).
    + intros q l w [_ Hq]%lookup_delete_Some Hw. destruct (W2 q l w Hq Hw) as (x & p & A & B & C & D). exists x, p. split_and!; try done.
      rewrite lookup_delete_ne; [done|]. intros <-. destruct (Ho q l w z Hq Hw) as [? _]; [|done]. unfold owner. by rewrite A.
  - intros q l u p. cbn. intros [_ Hq]%lookup_delete_Some Hu Hup. destruct (Ho q l u p Hq Hu Hup) as [(x & Hx & Hxz) Hn].
    assert (p <> z) by (intros ->; apply Hz; by exists x). split; [exists x; split; [|done]; cbn; by rewrite lookup_delete_ne|].
    unfold proc_is in *. cbn. by rewrite lookup_delete_ne.
  - intros p Hp. destruct (Hi p Hp) as [Hp1 Hp2]. cbn. rewrite lookup_delete_ne; [by apply He|]. intros E%event_queue_inj. done.
Qed.

Lemma without_sched k z : sched_inv I k -> ~ proc_is k z PROC_RUNNABLE -> z <> current k -> z <> idleproc k -> sched_inv I (without z k).
Proof using Hsp.
  intros Hi Hz Hc Hid.
  assert (Hq : queued k z = false). { destruct (queued k z) eqn:E; [|done]. by apply (si_queued _ _ Hi) in E as [? _]. }
  assert (Hst : forall p st, proc_is (without z k) p st <-> p <> z /\ proc_is k p st).
  { intros p st. unfold proc_is. cbn. destruct (decide (p = z)) as [->|Hne]; [rewrite lookup_delete_eq; naive_solver|].
    rewrite lookup_delete_ne by done. tauto. }
  split.
  - apply (sp_stable (upd_procs (delete z) k)); [by split|]. apply (sp_slot k z None (si_policy _ _ Hi) Hq). done.
  - cbn. rewrite lookup_delete_ne by done. apply Hi.
  - cbn. rewrite lookup_delete_ne by done. apply Hi.
  - intros p Hp. destruct (si_queued _ _ Hi p Hp) as (A & B & C). split_and!; try done. apply Hst. split; [|done]. intros ->. done.
  - intros p [Hne Hp]%Hst. by apply Hi.
Qed.

Lemma groups_drop gs i i' z : groups_ok gs i -> [z] ∈ gs -> (forall p, is_Some (i' !! p) <-> is_Some (i !! p) /\ p <> z) ->
  groups_ok (base.filter (fun r => r <> [z]) gs) i'.
Proof using Type.
  intros G Hz Hi. split.
  - intros r [_ Hr]%list_elem_of_filter. by apply G.
  - intros r r' p [_ Hr]%list_elem_of_filter [_ Hr']%list_elem_of_filter. by apply G.
  - intros p. rewrite Hi, (g_dom _ _ G). split.
    + intros [(r & Hr & Hp) Hne]. exists r. split; [|done]. apply list_elem_of_filter. split; [|done]. intros ->. by apply list_elem_of_singleton in Hp.
    + intros (r & [Hn Hr]%list_elem_of_filter & Hp). split; [by exists r|]. intros ->. apply Hn. apply (g_uniq _ _ G r [z] z); try done. left.
Qed.

(** The table without the zombie [z], a child of [par]. *)
Definition reaped (z : Z) (k : kstate) (i : gmap Z pinfo) (s : state) : state :=
  put_kern k (upd_info (fun _ => i) (upd_groups (base.filter (fun r => r <> [z])) (upd_proc_list (remove z)
    (upd_hash (fmap (remove z)) (upd_nr (fun n => s32 (n - 1)) s))))).

Lemma reap_inv s ch par z i' :
  proc_inv s ch -> zombie (kern s) z -> z ∈ ch par -> fam i' (set_ch ch par (remove z (ch par))) ->
  (forall p, is_Some (i' !! p) <-> is_Some (info s !! p) /\ p <> z) ->
  proc_inv (reaped z (without z (kern s)) i' s) (set_ch ch par (remove z (ch par))).
Proof using Hsp.
  intros (P & Hcur & Hrun) Hz Hpar F Hi. destruct (pi_zombie _ _ P z Hz) as (Hzl & Hzc & Hzg & Hze).
  assert (Hcz : current (kern s) <> z) by (intros E; rewrite E in Hrun; unfold zombie, proc_is in *; congruence).
  assert (Hiz : idleproc (kern s) <> z) by (intros E; by apply (pi_idle _ _ P); rewrite E).
  assert (Hnz : ~ alive (kern s) z) by (intros (x & Hx & H1); unfold zombie, proc_is in Hz; rewrite Hx in Hz; injection Hz as ?; done).
  assert (Hin : forall c, c ∈ remove z (proc_list s) <-> c <> z /\ c ∈ proc_list s) by (intros c; apply elem_of_remove).
  assert (Hpid : forall p n, p <> z -> pid <$> procs (without z (kern s)) !! p = Some n <-> pid_is s p n).
  { intros p n Hne. unfold pid_is. cbn. by rewrite lookup_delete_ne. }
  assert (Hst : forall p st, p <> z -> proc_is (without z (kern s)) p st <-> proc_is (kern s) p st).
  { intros p st Hne. unfold proc_is. cbn. by rewrite lookup_delete_ne. }
  assert (Hlen : Z.of_nat (length (proc_list s)) = 1 + Z.of_nat (length (remove z (proc_list s)))).
  { apply list_elem_of_split in Hzl as (a & b & E). pose proof (pi_nodup _ _ P) as Hnd. rewrite E in Hnd |- *.
    apply NoDup_app in Hnd as (_ & N1 & [N2 _]%NoDup_cons). rewrite remove_middle; [rewrite !length_app; cbn; lia| |done]. intros Ha. apply (N1 z Ha). left. }
  assert (Hchz : forall p, p <> z -> ch p = [] -> set_ch ch par (remove z (ch par)) p = []).
  { intros p _ Hp. destruct (decide (p = par)) as [->|Hne]; [rewrite Hp in Hpar; by apply not_elem_of_nil in Hpar|by rewrite set_ch_ne]. }
  split; [|split].
  - split; cbn [reaped kern info thread_groups proc_list hash_list nr_process last_pid next_safe initproc put_kern upd_info upd_groups upd_proc_list upd_hash upd_nr].
    + apply without_sched; [apply P|unfold zombie, proc_is in *; congruence|congruence|congruence].
    + apply (without_events _ (info s)); [apply P|done|]. intros p Hp. by apply Hi.
    + intros p x Hx. change (delete z (procs (kern s)) !! p = Some x) in Hx. apply lookup_delete_Some in Hx as [_ Hx]. by apply (pi_calm _ _ P p x Hx).
    + intros p. rewrite Hi, (pi_dom _ _ P). cbn. rewrite lookup_delete_is_Some. split; intros [? ?]; (split; congruence).
    + done.
    + by apply (groups_drop _ (info s)); [apply P| |].
    + apply nodup_remove_one, (pi_nodup _ _ P).
    + intros c. rewrite Hin, (pi_list _ _ P). split.
      * intros (Hne & p & Hp). destruct (decide (p = par)) as [->|Hpp]; [exists par; rewrite set_ch_eq; by apply elem_of_remove|exists p; by rewrite set_ch_ne].
      * intros (p & Hp). destruct (decide (p = par)) as [->|Hpp].
        -- rewrite set_ch_eq in Hp. apply elem_of_remove in Hp as [? ?]. split; [done|by exists par].
        -- rewrite set_ch_ne in Hp by done. split; [|by exists p]. intros ->. by apply Hpp, (child_unique _ _ _ p par z (pi_fam _ _ P)).
    + destruct (pi_pids _ _ P) as (A & B & C). split; [done|]. split; [done|]. intros n (p & [Hne Hp]%Hin & Hn). apply C. exists p. split; [done|]. by apply (Hpid p n Hne).
    + intros p n [Hne Hp]%Hin Hn. apply (pi_range _ _ P p n Hp). by apply (Hpid p n Hne).
    + intros p q n [Hne Hp]%Hin [Hne2 Hq]%Hin Hn Hm. apply (pi_inj _ _ P p q n Hp Hq); [by apply (Hpid p n Hne)|by apply (Hpid q n Hne2)].
    + rewrite (pi_nr _ _ P). pose proof (pi_max _ _ P). unfold MAX_PID, MAX_PROCESS in *. rewrite s32_small by (unfold is_s32; lia). lia.
    + pose proof (pi_max _ _ P). lia.
    + intros h Hh. destruct (pi_hash _ _ P h Hh) as (l & A & B & C). exists (remove z l). rewrite lookup_fmap, A. split; [done|]. split; [by apply nodup_remove_one|].
      intros p. rewrite elem_of_remove, Hin, C. split.
      * intros (Hne & Hp & n & Hn & E). split; [done|]. exists n. split; [by apply (Hpid p n Hne)|done].
      * intros ([Hne Hp] & n & Hn & E). split; [done|]. split; [done|]. exists n. split; [by apply (Hpid p n Hne)|done].
    + intros y Hy. assert (Hne : y <> z) by (intros ->; unfold zombie, proc_is in Hy; cbn in Hy; by rewrite lookup_delete_eq in Hy).
      apply (Hst _ _ Hne) in Hy. destruct (pi_zombie _ _ P y Hy) as (A & B & C & D). split_and!; [by apply Hin|by apply Hchz|..].
      * apply list_elem_of_filter. split; [|done]. by intros [= ->].
      * cbn. rewrite lookup_delete_ne; [done|]. intros E%event_queue_inj. done.
    + intros p [Hp Hne]%Hi Hl Hid. destruct (pi_private _ _ P p Hp) as (A & B & C); [intros Hpl; apply Hl, Hin; by split|done|]. split_and!; [by apply Hchz| |by apply Hst].
      apply list_elem_of_filter. split; [|done]. by intros [= ->].
    + destruct (pi_idle _ _ P) as [A B]. split; [|by apply Hst]. intros [_ ?]%Hin. done.
    + destruct (pi_init _ _ P) as [A B]. assert (Hne : initproc s <> z) by (intros E; by rewrite E in B). split; [by apply Hin|]. intros Hy. apply B. by apply (Hst _ _ Hne).
  - cbn. destruct Hcur as [?|?]; [left; by apply Hin|by right].
  - by apply Hst.
Qed.

(** The table without the structure [p] of a process that was never published. *)
Lemma discard_inv s ch p :
  proc_inv s ch -> is_Some (info s !! p) -> p ∉ proc_list s -> p <> idleproc (kern s) ->
  proc_inv (put_kern (without p (kern s)) (upd_groups (base.filter (fun r => r <> [p])) (upd_info (delete p) s))) ch.
Proof using Hsp.
  intros (P & Hcur & Hrun) Hp Hpl Hpi. destruct (pi_private _ _ P p Hp Hpl Hpi) as (Hch & Hg & Hst0).
  assert (Hcp : current (kern s) <> p) by (intros E; rewrite E in Hrun; unfold proc_is in *; congruence).
  assert (Hno : forall q, p ∉ ch q) by (intros q Hq; apply Hpl, (pi_list _ _ P); by exists q).
  assert (Hne : forall q, q ∈ proc_list s -> q <> p) by (intros q Hq ->; done).
  assert (Hpid : forall q n, q ∈ proc_list s -> pid <$> procs (without p (kern s)) !! q = Some n <-> pid_is s q n).
  { intros q n Hq%Hne. unfold pid_is. cbn. by rewrite lookup_delete_ne. }
  assert (Hst : forall q st, q <> p -> proc_is (without p (kern s)) q st <-> proc_is (kern s) q st).
  { intros q st Hq. unfold proc_is. cbn. by rewrite lookup_delete_ne. }
  assert (Hd : forall q, is_Some (delete p (info s) !! q) <-> is_Some (info s !! q) /\ q <> p).
  { intros q. rewrite lookup_delete_is_Some. split; intros [? ?]; (split; congruence). }
  (** the owner of a wait is grown, so it is not [p] *)
  assert (Hev : events_ok (without p (kern s)) (delete p (info s))).
  { destruct (pi_events _ _ P) as [[W1 W2] Ho He].
    assert (Hown : forall q l u r, wqueues (kern s) !! q = Some l -> u ∈ l -> owner (kern s) u r -> r <> p).
    { intros q l u r Hq Hu Hr ->. by apply (Ho q l u p Hq Hu Hr). }
    split.
    - split; cbn; [intros q l [_ Hq]%lookup_delete_Some; by apply (W1 q)|].
      intros q l w [_ Hq]%lookup_delete_Some Hw. destruct (W2 q l w Hq Hw) as (x & r & A & B & C & D). exists x, r. split_and!; try done.
      assert (r <> p) by (apply (Hown q l w); try done; unfold owner; by rewrite A). by rewrite lookup_delete_ne.
    - intros q l u r. cbn. intros [_ Hq]%lookup_delete_Some Hu Hr. pose proof (Hown q l u r Hq Hu Hr) as Hrp.
      destruct (Ho q l u r Hq Hu Hr) as [(x & Hx & Hxz) Hn]. split; [exists x; split; [|done]; cbn; by rewrite lookup_delete_ne|by rewrite Hst].
    - intros q [Hq Hqp]%Hd. cbn. rewrite lookup_delete_ne; [by apply He|]. intros E%event_queue_inj. done. }
  split; [|split].
  - split; cbn [kern info thread_groups proc_list hash_list nr_process last_pid next_safe initproc put_kern upd_info upd_groups].
    + apply without_sched; [apply P| |by symmetry|done]. intros E. unfold proc_is in E, Hst0. rewrite E in Hst0. done.
    + done.
    + intros q x Hx. change (delete p (procs (kern s)) !! q = Some x) in Hx. apply lookup_delete_Some in Hx as [_ Hx]. by apply (pi_calm _ _ P q x Hx).
    + intros q. rewrite Hd, (pi_dom _ _ P). cbn. rewrite lookup_delete_is_Some. split; intros [? ?]; (split; congruence).
    + apply fam_delete; [apply P|done|done].
    + by apply (groups_drop _ (info s)); [apply P| |].
    + apply (pi_nodup _ _ P).
    + apply (pi_list _ _ P).
    + destruct (pi_pids _ _ P) as (A & B & C). split; [done|]. split; [done|]. intros n (q & Hq & Hn). apply C. exists q. split; [done|]. by apply Hpid.
    + intros q n Hq Hn. apply (pi_range _ _ P q n Hq). by apply Hpid.
    + intros q r n Hq Hr Hn Hm. apply (pi_inj _ _ P q r n Hq Hr); by apply Hpid.
    + apply (pi_nr _ _ P).
    + apply (pi_max _ _ P).
    + intros h Hh. destruct (pi_hash _ _ P h Hh) as (l & A & B & C). exists l. split_and!; try done. intros q. rewrite C.
      split; intros [Hq (n & Hn & ?)]; (split; [done|]; exists n; split; [by apply (Hpid q n Hq)|done]).
    + intros z Hz. assert (Hzp : z <> p) by (intros ->; unfold zombie, proc_is in Hz; cbn in Hz; by rewrite lookup_delete_eq in Hz).
      apply (Hst _ _ Hzp) in Hz. destruct (pi_zombie _ _ P z Hz) as (A & B & C & D). split_and!; [done|done|..].
      * apply list_elem_of_filter. split; [|done]. by intros [= ->].
      * cbn. rewrite lookup_delete_ne; [done|]. intros E%event_queue_inj. done.
    + intros q [Hq Hqp]%Hd Hl Hid. destruct (pi_private _ _ P q Hq Hl Hid) as (A & B & C). split_and!; [done| |by apply Hst].
      apply list_elem_of_filter. split; [|done]. by intros [= ->].
    + destruct (pi_idle _ _ P) as [A B]. split; [done|]. apply Hst; [by symmetry|done].
    + destruct (pi_init _ _ P) as [A B]. split; [done|]. intros Hz. apply B. by apply (Hst _ _ (Hne _ A)).
  - done.
  - by apply Hst.
Qed.

Lemma inv_ext (s : state) ch x : proc_inv s ch -> proc_inv (put_ext x s) ch.
Proof using Type. intros ([] & ?). split; [by split|done]. Qed.

Lemma put_kstack_run (s : state) p y : info s !! p = Some y -> kstack y ∈ stacks (ext s) ->
  exists x', put_kstack p s = Ret (tt, put_ext x' s) /\ objs x' = objs (ext s) /\ stacks x' = stacks (ext s) ∖ {[kstack y]}.
Proof using Type.
  intros Hy Hs. destruct (free_stack_law (kstack y) KSTACKPAGE (ext s) Hs) as (x' & Hr & H1 & H2). exists x'. split; [|done].
  unfold put_kstack. erewrite bind_step; [|apply get_info_run; exact Hy]. by apply xcall_run.
Qed.

Lemma free_proc_run (s : state) p : p ∈ objs (ext s) ->
  exists x', free_proc p s = Ret (tt, put_ext x' (put_kern (without p (kern s)) (upd_groups (base.filter (fun r => r <> [p])) (upd_info (delete p) s)))) /\
    stacks x' = stacks (ext s) /\ objs x' = objs (ext s) ∖ {[p]}.
Proof using Type.
  intros Ho. destruct (kfree_law p (ext s) Ho) as (x' & Hr & H1 & H2). exists x'. split; [|done]. unfold free_proc.
  rewrite (bind_step _ _ s tt (put_kern (upd_procs (delete p) (kern s)) s)) by reflexivity. rewrite !bind_modify.
  erewrite bind_step; [|apply kcall_run; reflexivity]. erewrite xcall_run; [|exact Hr]. reflexivity.
Qed.

Lemma reap_run s ch par z x :
  proc_inv s ch -> mem_inv s -> zombie (kern s) z -> z ∈ ch par -> info s !! z = Some x ->
  exists i' x', wait_reap z s = Ret (exit_code x, put_ext x' (reaped z (without z (kern s)) i' s)) /\
    proc_inv (put_ext x' (reaped z (without z (kern s)) i' s)) (set_ch ch par (remove z (ch par))) /\
    mem_inv (put_ext x' (reaped z (without z (kern s)) i' s)) /\
    objs x' = objs (ext s) ∖ {[z]} /\ stacks x' = stacks (ext s) ∖ {[kstack x]} /\
    (forall p, is_Some (i' !! p) <-> is_Some (info s !! p) /\ p <> z) /\
    (forall p, p <> z -> outer <$> i' !! p = outer <$> info s !! p).
Proof using Hsp.
  intros Hinv Hm Hz Hzp Hx. destruct Hinv as (P & Hcur & Hrun). destruct (pi_zombie _ _ P z Hz) as (Hzl & Hzc & Hzg & Hze).
  pose proof (pi_fam _ _ P) as F. destruct (child_parent _ _ _ _ _ F Hzp) as (x0 & Hx0 & Epar & Hpk). rewrite Hx in Hx0. injection Hx0 as <-.
  apply list_elem_of_split in Hzp as Hsplit. destruct Hsplit as (l1 & l2 & Hl). rewrite <- Epar in Hl.
  destruct (fam_unlink (info s) ch z x l1 l2 F Hx Hl) as (Ho & Hy & F1).
  pose proof (f_nodup _ _ _ F (parent x)) as Hnd. rewrite Hl in Hnd. apply NoDup_app in Hnd as (_ & N1 & [N2 _]%NoDup_cons).
  assert (Hz1 : z ∉ l1) by (intros H1; apply (N1 z H1); left).
  assert (Hrem : remove z (ch par) = l1 ++ l2) by (rewrite <- Epar, Hl; by apply remove_middle).
  pose proof (unlink_map_relinked z x (info s) (f_zero _ _ _ F)) as Hr.
  set (i1 := unlink_map z x (info s)) in *. set (i' := delete z i1).
  assert (Hz0 : forall q, z ∉ set_ch ch (parent x) (l1 ++ l2) q).
  { intros q Hq. destruct (decide (q = parent x)) as [->|Hne].
    - rewrite set_ch_eq in Hq. apply elem_of_app in Hq as [?|?]; done.
    - rewrite set_ch_ne in Hq by done. apply Hne. rewrite Epar. by apply (child_unique _ _ _ q par z F). }
  assert (F2 : fam i' (set_ch ch par (remove z (ch par)))).
  { rewrite Hrem, <- Epar. apply fam_delete; [done| |done]. destruct (decide (z = parent x)) as [E|E]; [|by rewrite set_ch_ne].
    exfalso. rewrite <- E, Hzc in Hl. by destruct l1. }
  assert (Hi : forall p, is_Some (i' !! p) <-> is_Some (info s !! p) /\ p <> z).
  { intros p. unfold i'. rewrite lookup_delete_is_Some, (relinked_dom _ _ _ _ _ _ p Hr). split; intros [? ?]; (split; congruence). }
  assert (Hout : forall p, p <> z -> outer <$> i' !! p = outer <$> info s !! p).
  { intros p Hne. unfold i'. rewrite lookup_delete_ne by done. apply (relinked_outer _ _ _ _ _ _ p Hr). }
  destruct (relinked_some _ _ _ _ _ _ z x Hr Hx) as (xz & Hxz & _ & _ & _ & _ & Eo).
  assert (Ek : kstack xz = kstack x) by (unfold outer in Eo; congruence).
  assert (Hzi : z <> idleproc (kern s)) by (intros E; apply (pi_idle _ _ P); by rewrite <- E).
  unfold wait_reap. rewrite bind_get, assert_true.
  2:{ apply negb_true_iff, orb_false_iff. destruct (pi_idle _ _ P), (pi_init _ _ P). split; apply Z.eqb_neq; intros ->; done. }
  erewrite bind_step; [|apply get_info_run; exact Hx]. unfold unhash_proc. rewrite bind_modify.
  erewrite bind_step; [|apply remove_links_run; [exact Hx|exact Ho|exact Hy|cbn; rewrite Epar; exact Hpk]].
  fold i1.
  set (s1 := upd_nr _ _).
  destruct (put_kstack_run s1 z xz) as (x1 & Hr1 & O1 & S1); [exact Hxz|rewrite Ek; by apply (m_stacks _ Hm z x)|].
  rewrite (bind_step _ _ _ _ _ Hr1).
  destruct (free_proc_run (put_ext x1 s1) z) as (x2 & Hr2 & S2 & O2).
  { cbn. rewrite O1. apply (m_objs _ Hm). by rewrite Hx. }
  rewrite (bind_step _ _ _ _ _ Hr2). exists i', x2. split; [done|].
  cbn in S1, S2, O1, O2. rewrite Ek in S1. split; [by apply inv_ext, reap_inv|]. split; [|split_and!; [by rewrite O2, O1|by rewrite S2, S1|done|done]].
  split; cbn [info ext put_ext reaped put_kern upd_info upd_groups upd_proc_list upd_hash upd_nr proc_list].
  - intros p [Hp Hne]%Hi. rewrite O2, O1. apply elem_of_difference. split; [by apply Hm|]. by rewrite elem_of_singleton.
  - intros p y Hyp Hpl. assert (Hne : p <> z) by (apply (Hi p); by rewrite Hyp). pose proof (Hout p Hne) as E. rewrite Hyp in E. symmetry in E. apply fmap_Some in E as (y0 & Hy0 & E).
    replace (kstack y) with (kstack y0) by (unfold outer in E; congruence). rewrite S2, S1. apply elem_of_difference. split; [by apply (m_stacks _ Hm p)|].
    rewrite elem_of_singleton. intros E2. apply Hne. by apply (m_inj _ Hm p z y0 x).
  - intros p q y y' Hyp Hyq Hpl Hql Ekk.
    assert (Hne : p <> z) by (apply (Hi p); by rewrite Hyp). assert (Hne2 : q <> z) by (apply (Hi q); by rewrite Hyq).
    pose proof (Hout p Hne) as E. rewrite Hyp in E. symmetry in E. apply fmap_Some in E as (y0 & Hy0 & E).
    pose proof (Hout q Hne2) as E'. rewrite Hyq in E'. symmetry in E'. apply fmap_Some in E' as (y0' & Hy0' & E').
    apply (m_inj _ Hm p q y0 y0'); try done. unfold outer in E, E'. congruence.
Qed.
End Reap.
End ProcReap.
