(* ===== verification/ProcFork.v ===== *)
(** * The birth of a process: the part of [do_fork] that publishes it *)

From S2P Require Import Prelude Kern Sched SchedInv Wait Proc ProcTable ProcInv ProcReap.
Import Kern Sched SchedInv WaitInv Proc ProcTable ProcInv ProcReap.
Open Scope Z_scope.

Module ProcFork.

Section Fork.
Context {X : Type} {sc : sched_class} {I : kstate -> Prop} {Hsp : SchedPolicy sc I}.
#[local] Abbreviation state := (state (X := X)).
#[local] Abbreviation table_inv := (table_inv (X := X) (I := I)).
#[local] Abbreviation proc_inv := (proc_inv (X := X) (I := I)).

(** What the other processes can see of a process. *)
Definition face (x : proc) : proc_state * Z * Z := (pstate x, wait_state x, pid x).

Lemma core_face (o o' : option proc) : core_of <$> o' = core_of <$> o -> face <$> o' = face <$> o.
Proof using Type. unfold core_of, face. destruct o, o'; cbn; congruence. Qed.

(** A process being created by the running one. *)
Record newborn (s : state) (p : Z) (x : pinfo) : Prop := {
  n_info : info s !! p = Some x;
  n_parent : parent x = current (kern s);
  n_unlisted : p ∉ proc_list s;
  n_idle : p <> idleproc (kern s);
  n_state : proc_is (kern s) p PROC_UNINIT
}.

(** The state with [p] in all tables, under the pid [n]. *)
Definition listed (p n ns : Z) (l : list Z) (i : gmap Z pinfo) (gs : list (list Z)) (s : state) : state :=
  put_kern (upd_procs (alter (set_pid n) p) (kern s)) (upd_info (fun _ => i) (upd_groups (fun _ => gs) (upd_proc_list (cons p)
    (upd_hash <[pid_hashfn n := p :: l]> (upd_nr (fun m => s32 (m + 1)) (put_pids n ns s)))))).

Lemma proc_is_fmap k q n st : (exists x, procs k !! q = Some x /\ pstate (set_pid n x) = st) <-> proc_is k q st.
Proof using Type. unfold proc_is. destruct (procs k !! q); cbn; naive_solver. Qed.

Lemma set_pid_sched k p n : sched_inv I k -> sched_inv I (upd_procs (alter (set_pid n) p) k).
Proof using Hsp.
  intros Hi. assert (Hst : forall q st, proc_is (upd_procs (alter (set_pid n) p) k) q st <-> proc_is k q st).
  { intros q st. rewrite proc_is_alter. case_decide; [subst|done]. apply proc_is_fmap. }
  split.
  - by apply (sp_stable k); [apply slots_alter|apply Hi].
  - apply known_alter, Hi.
  - apply known_alter, Hi.
  - intros q Hq. rewrite Hst. by apply Hi.
  - intros q. rewrite Hst. apply Hi.
Qed.

Lemma listed_inv s ch p x n ns l i' gs :
  let cur := current (kern s) in
  let ch' := set_ch ch cur (p :: ch cur) in
  proc_inv s ch -> newborn s p x -> Z.of_nat (length (proc_list s)) < MAX_PID - 1 -> pid_found s n ns ->
  hash_list s !! pid_hashfn n = Some l -> fam i' ch' -> (forall q, is_Some (i' !! q) <-> is_Some (info s !! q)) ->
  groups_ok gs i' -> (forall q, q <> cur -> q <> p -> [q] ∈ thread_groups s -> [q] ∈ gs) ->
  table_inv (listed p n ns l i' gs s) ch'.
Proof using Hsp.
  intros cur ch' (P & Hcur & Hrun) [Hx Hpar Hpl Hpi Hst] Hlen (Hn & Hns & Hfree) Hl F Hd G Hg.
  fold cur in Hcur, Hrun, Hpar.
  set (k1 := upd_procs (alter (set_pid n) p) (kern s)).
  assert (Hpk : is_Some (procs (kern s) !! p)) by (apply (pi_dom _ _ P); by rewrite Hx).
  assert (Hpid : forall q m, pid <$> procs k1 !! q = Some m <-> (q = p /\ m = n) \/ (q <> p /\ pid_is s q m)).
  { intros q m. unfold k1, pid_is. cbn. rewrite lookup_alter_at. case_decide as E; [subst|tauto]. destruct Hpk as [y ->]. cbn.
    split; [intros [= <-]; by left|intros [[_ ->]|[? _]]; done]. }
  assert (Hps : forall q st, proc_is k1 q st <-> proc_is (kern s) q st).
  { intros q st. unfold k1. rewrite proc_is_alter. case_decide; [subst|done]. apply proc_is_fmap. }
  assert (Hne : forall q, q ∈ proc_list s -> q <> p) by (intros q Hq ->; done).
  assert (Hcz : forall z, zombie (kern s) z -> z <> cur /\ z <> p).
  { intros z Hz. unfold zombie, proc_is in *. split; intros ->; [rewrite Hrun in Hz|rewrite Hst in Hz]; done. }
  split; cbn [listed kern info thread_groups proc_list hash_list nr_process last_pid next_safe initproc put_kern upd_info upd_groups upd_proc_list upd_hash upd_nr put_pids].
  - apply set_pid_sched, P.
  - destruct (pi_events _ _ P) as [A B C]. split.
    + apply (waits_ok_same (kern s)); try done. intros q. apply known_alter.
    + intros q m u r Hq Hu Ho. destruct (B q m u r Hq Hu Ho) as [(y & Hy & Hyz) Hgr]. split; [|change (~ proc_is k1 r PROC_UNINIT); by rewrite Hps].
      apply alive_zombie; [by apply known_alter; rewrite Hy|].
      change (~ proc_is k1 r PROC_ZOMBIE). rewrite Hps. unfold proc_is. rewrite Hy. cbn. congruence.
    + intros q Hq%Hd. by apply C.
  - intros q y. change (alter (set_pid n) p (procs (kern s)) !! q = Some y -> pstate y <> PROC_SLEEPING -> wait_state y = 0). rewrite lookup_alter_at.
    case_decide; [subst|apply (pi_calm _ _ P)]. intros (y0 & Hy0 & ->)%fmap_Some. cbn. by apply (pi_calm _ _ P p).
  - intros q. rewrite Hd, (pi_dom _ _ P). symmetry. apply known_alter.
  - done.
  - done.
  - apply NoDup_cons. split; [done|apply (pi_nodup _ _ P)].
  - intros c. rewrite elem_of_cons, (pi_list _ _ P). unfold ch'. split.
    + intros [->|(q & Hq)]; [exists cur; rewrite set_ch_eq; left|].
      destruct (decide (q = cur)) as [->|Hqc]; [exists cur; rewrite set_ch_eq; by right|exists q; by rewrite set_ch_ne].
    + intros (q & Hq). destruct (decide (q = cur)) as [->|Hqc]; [rewrite set_ch_eq in Hq; apply elem_of_cons in Hq as [?|?]; [by left|right; by exists cur]|].
      rewrite set_ch_ne in Hq by done. right. by exists q.
  - split; cbn [last_pid listed put_kern upd_info upd_groups upd_proc_list upd_hash upd_nr put_pids]; [lia|]. split; [done|].
    intros m (q & [->|Hq]%elem_of_cons & Hm%Hpid); [destruct Hm as [[_ ->]|[? _]]; [cbn; lia|done]|].
    destruct Hm as [[? _]|[_ Hm]]; [by apply Hne in Hq|]. cbn. intros Hr. apply (Hfree m); [by exists q|lia].
  - intros q m [->|Hq]%elem_of_cons Hm%Hpid.
    + destruct Hm as [[_ ->]|[? _]]; [lia|done].
    + destruct Hm as [[? _]|[_ Hm]]; [by apply Hne in Hq|]. by apply (pi_range _ _ P q).
  - assert (Hnew : forall q, q ∈ proc_list s -> pid_is s q n -> False) by (intros q Hq Hm; apply (Hfree n); [by exists q|lia]).
    intros q r m [->|Hq]%elem_of_cons [->|Hr]%elem_of_cons Hm%Hpid Hm2%Hpid; [done|..].
    + exfalso. destruct Hm as [[_ ->]|[? _]]; [|done]. destruct Hm2 as [[? _]|[_ Hm2]]; [by apply Hne in Hr|]. by apply (Hnew r).
    + exfalso. destruct Hm2 as [[_ ->]|[? _]]; [|done]. destruct Hm as [[? _]|[_ Hm]]; [by apply Hne in Hq|]. by apply (Hnew q).
    + destruct Hm as [[? _]|[_ Hm]]; [by apply Hne in Hq|]. destruct Hm2 as [[? _]|[_ Hm2]]; [by apply Hne in Hr|]. by apply (pi_inj _ _ P q r m).
  - rewrite (pi_nr _ _ P). unfold MAX_PID, MAX_PROCESS in *. rewrite s32_small by (unfold is_s32; lia). cbn [length]. lia.
  - cbn [length]. unfold MAX_PID, MAX_PROCESS in *. lia.
  - intros h Hh. destruct (decide (h = pid_hashfn n)) as [->|Hhn].
    + exists (p :: l). rewrite lookup_insert_eq. destruct (pi_hash _ _ P _ Hh) as (l' & A & B & C). rewrite Hl in A. injection A as <-.
      split; [done|]. split; [apply NoDup_cons; split; [intros [? _]%C; done|done]|]. intros q. rewrite !elem_of_cons, C. split.
      * intros [->|(Hq & m & Hm & E)]; [split; [by left|exists n; split; [apply Hpid; by left|done]]|].
        split; [by right|]. exists m. split; [apply Hpid; right; split; [by apply Hne|done]|done].
      * intros ([->|Hq] & m & Hm%Hpid & E); [by left|right]. split; [done|]. destruct Hm as [[? _]|[_ Hm]]; [by apply Hne in Hq|]. by exists m.
    + destruct (pi_hash _ _ P _ Hh) as (l' & A & B & C). exists l'. rewrite lookup_insert_ne by done. split_and!; try done. intros q. rewrite elem_of_cons, C. split.
      * intros (Hq & m & Hm & E). split; [by right|]. exists m. split; [apply Hpid; right; split; [by apply Hne|done]|done].
      * intros ([->|Hq] & m & Hm%Hpid & E).
        -- destruct Hm as [[_ ->]|[? _]]; done.
        -- split; [done|]. destruct Hm as [[? _]|[_ Hm]]; [by apply Hne in Hq|]. by exists m.
  - intros z Hz%Hps. destruct (Hcz z Hz) as [Hz1 Hz2]. destruct (pi_zombie _ _ P z Hz) as (A & B & C & D). split_and!; [by right| |by apply Hg|done].
    unfold ch'. by rewrite set_ch_ne.
  - intros q Hq%Hd Hql Hqi. apply not_elem_of_cons in Hql as [Hqp Hql]. assert (q <> cur) by (intros ->; by destruct Hcur).
    destruct (pi_private _ _ P q Hq Hql Hqi) as (A & B & C). split_and!; [unfold ch'; by rewrite set_ch_ne|by apply Hg|by apply Hps].
  - destruct (pi_idle _ _ P) as [A B]. split; [|by apply Hps]. cbn. by apply not_elem_of_cons.
  - destruct (pi_init _ _ P) as [A B]. split; [by right|]. change (~ proc_is k1 (initproc s) PROC_ZOMBIE). by rewrite Hps.
Qed.

(** The first wake-up of a process. *)
Section Born.
Context (p : Z) (x : proc) (k k' : kstate).
Hypothesis Hw : woken p k k'.
Hypothesis Hx : procs k !! p = Some x.
Hypothesis Hz : pstate x <> PROC_ZOMBIE.

Lemma born_dom q : is_Some (procs k' !! q) <-> is_Some (procs k !! q).
Proof using Hw Hx.
  destruct (decide (q = p)) as [->|Hne].
  - destruct (wk_step _ _ _ Hw p x Hx) as (x' & -> & _). rewrite Hx. by split.
  - rewrite <- (fmap_is_Some core_of), (wk_other _ _ _ Hw q Hne), fmap_is_Some. done.
Qed.

Lemma born_other q st : q <> p -> proc_is k' q st <-> proc_is k q st.
Proof using Hw. intros Hq. unfold proc_is. by rewrite (core_eq_pstate _ _ (wk_other _ _ _ Hw q Hq)). Qed.

Lemma born_quiet l : p ∈ l -> quiet l k k'.
Proof using Hw Hx Hz.
  intros Hl. pose proof (wk_self _ _ _ Hw) as Hs. split; [apply (wk_rest _ _ _ Hw)|apply born_dom|..].
  - intros q. destruct (procs k !! q) as [y|] eqn:Hy.
    + destruct (wk_step _ _ _ Hw q y Hy) as (y' & -> & E & _). cbn. by rewrite E.
    + assert (Hn : procs k' !! q = None); [|by rewrite Hn]. apply eq_None_not_Some. rewrite born_dom, Hy. by intros [? ?].
  - intros q. destruct (decide (q = p)) as [->|Hne]; [|by apply born_other]. unfold zombie, proc_is in *. rewrite Hs, Hx. cbn. split; [done|congruence].
  - intros Hr. destruct (decide (idleproc k = p)) as [->|Hne]; [done|]. by apply born_other.
  - intros q Hq. assert (q <> p) by congruence. by apply born_other.
Qed.

Lemma born_grown q : grown k q -> grown k' q.
Proof using Hw Hx.
  intros [(y & Hy & Hyz) Hn]. destruct (decide (q = p)) as [->|Hne].
  - pose proof (wk_self _ _ _ Hw) as Hs. unfold proc_is in Hs. apply fmap_Some in Hs as (y' & Hy' & E). split.
    + exists y'. split; [done|congruence].
    + unfold proc_is. rewrite Hy'. cbn. congruence.
  - split; [|by rewrite born_other]. apply alive_zombie; [apply born_dom; by rewrite Hy|]. unfold zombie. rewrite born_other by done.
    unfold proc_is. rewrite Hy. cbn. congruence.
Qed.

Lemma born_events i : events_ok k i -> events_ok k' i.
Proof using Hw Hx.
  pose proof (wk_rest _ _ _ Hw) as R. intros [A B C]. split.
  - apply (waits_ok_same k); [done|apply R|apply R|]. intros q. by rewrite born_dom.
  - intros q l u r. rewrite (rs_wqueues _ _ R). unfold owner. rewrite (rs_waits _ _ R). intros Hq Hu Ho. apply born_grown. by apply (B q l u).
  - intros q Hq. rewrite (rs_wqueues _ _ R). by apply C.
Qed.

Lemma born_calm : calm k -> calm k'.
Proof using Hw Hx.
  intros Hc q y' Hy' Hs. assert (is_Some (procs k !! q)) as [y Hy] by (apply born_dom; by rewrite Hy').
  destruct (wk_step _ _ _ Hw q y Hy) as (z & Hz' & _ & _ & _ & E). rewrite Hy' in Hz'. injection Hz' as <-.
  destruct E as [[E1 E2]|(_ & _ & E)]; [|done]. rewrite E2. apply (Hc q y Hy). congruence.
Qed.
End Born.

(** The thread groups after the birth of [p]. *)
Definition joined (f cur p : Z) (gs : list (list Z)) : list (list Z) :=
  if set_flag f CLONE_THREAD then insert_before cur p <$> base.filter (fun r => r <> [p]) gs else gs.

Lemma join_run (s : state) f cur p : groups_ok (thread_groups s) (info s) -> [p] ∈ thread_groups s ->
  (if set_flag f CLONE_THREAD then join_thread cur p else ret tt) s = Ret (tt, upd_groups (joined f cur p) s).
Proof using Type.
  intros G Hp. unfold joined. destruct (set_flag f CLONE_THREAD); [|by destruct s].
  unfold join_thread. rewrite bind_get, assert_true; [done|]. apply bool_decide_eq_true. apply (ring_of_some _ _ _ _ G Hp). left.
Qed.

Lemma joined_groups (gs : list (list Z)) i f cur p : groups_ok gs i -> [p] ∈ gs -> is_Some (i !! cur) -> cur <> p ->
  groups_ok (joined f cur p gs) i /\ forall q, q <> cur -> q <> p -> [q] ∈ gs -> [q] ∈ joined f cur p gs.
Proof using Type.
  intros G Hp Hc Hne. unfold joined. destruct (set_flag f CLONE_THREAD); [|by split]. split; [by apply groups_join|].
  intros q Hq1 Hq2 Hin. replace [q] with (insert_before cur p [q]) by (cbn; by rewrite (proj2 (Z.eqb_neq q cur))).
  apply list_elem_of_fmap_2, list_elem_of_filter. split; [|done]. intros [= ->]. done.
Qed.

Lemma groups_dom gs i i' : groups_ok gs i -> (forall q, is_Some (i' !! q) <-> is_Some (i !! q)) -> groups_ok gs i'.
Proof using Type. intros [A B C] Hd. split; [done|done|]. intros p. by rewrite Hd. Qed.

Lemma publish_run s ch p x f :
  let cur := current (kern s) in
  let ch' := set_ch ch cur (p :: ch cur) in
  proc_inv s ch -> newborn s p x -> Z.of_nat (length (proc_list s)) < MAX_PID - 1 ->
  exists n ns l i' k', let s' := put_kern k' (listed p n ns l i' (joined f cur p (thread_groups s)) s) in
    fork_publish sc f p s = Ret (n, s') /\ pid_found s n ns /\ proc_inv s' ch' /\
    proc_is k' p PROC_RUNNABLE /\ pid_is s' p n /\ (forall q, outer <$> i' !! q = outer <$> info s !! q) /\
    (forall q, is_Some (i' !! q) <-> is_Some (info s !! q)) /\
    (forall q, q <> p -> core_of <$> procs k' !! q = core_of <$> procs (kern s) !! q) /\
    rest_same (kern s) k' /\ psem_queue <$> procs k' !! p = psem_queue <$> procs (kern s) !! p.
Proof using Hsp.
  intros cur ch' Hinv Hnb Hlen. pose proof Hinv as (P & Hcur & Hrun). pose proof Hnb as [Hx Hpar Hpl Hpi Hst]. fold cur in Hcur, Hrun, Hpar.
  pose proof (pi_fam _ _ P) as F.
  destruct (get_pid_run s (pi_pids _ _ P) (table_known _ _ P) Hlen) as (n & ns & Hgp & Hfound).
  assert (Hcp : cur <> p) by (intros E; destruct Hcur as [H1|H1]; [apply Hpl|apply Hpi]; congruence).
  assert (is_Some (info s !! cur)) as [y Hy] by (apply (pi_dom _ _ P); destruct (procs (kern s) !! cur) eqn:E; [by eexists|]; unfold proc_is in Hrun; rewrite E in Hrun; done).
  assert (is_Some (procs (kern s) !! p)) as [pp Hpp] by (apply (pi_dom _ _ P); by rewrite Hx).
  destruct (pi_private _ _ P p) as (Hchp & Hgp0 & _); [by rewrite Hx|done|done|].
  assert (Hno : forall q, p ∉ ch q) by (intros q Hq; apply Hpl, (pi_list _ _ P); by exists q).
  destruct (pi_hash _ _ P (pid_hashfn n) (pid_hashfn_range n)) as (l & Hl & _).
  assert (Hc0 : cptr y <> 0 -> cptr y <> p /\ is_Some (info s !! cptr y)).
  { intros Hc. pose proof (sibs_head _ _ _ _ _ (f_children _ _ _ F _ _ Hy)) as Hh. destruct (ch cur) as [|e m] eqn:He; cbn in Hh; [done|].
    assert (Hin : cptr y ∈ ch cur) by (rewrite He, Hh; left). split; [intros E; apply (Hno cur); by rewrite <- E|].
    destruct (child_parent _ _ _ _ _ F Hin) as (w & -> & _). by eexists. }
  set (i' := link_map p cur (cptr y) (info s)).
  assert (F1 : fam i' ch'). { unfold i', ch'. rewrite <- Hpar. apply fam_link; [done|done|by rewrite Hpar|congruence|done|done]. }
  assert (Hc0' : cptr y <> p). { destruct (decide (cptr y = 0)) as [E|E]; [|by apply Hc0]. rewrite E. intros <-. rewrite (f_zero _ _ _ F) in Hx. done. }
  pose proof (link_map_relinked p cur (cptr y) (info s) Hc0' (f_zero _ _ _ F)) as Hr. fold i' in Hr.
  pose proof (fun q => relinked_dom _ _ _ _ _ _ q Hr) as Hd. pose proof (fun q => relinked_outer _ _ _ _ _ _ q Hr) as Ho.
  destruct (joined_groups (thread_groups s) (info s) f cur p (pi_groups _ _ P) Hgp0 ltac:(by rewrite Hy) Hcp) as [G1 G2].
  set (gs := joined f cur p (thread_groups s)) in *.
  pose proof (listed_inv s ch p x n ns l i' gs Hinv Hnb Hlen Hfound Hl F1 Hd (groups_dom _ _ _ G1 Hd) G2) as P1. fold cur in P1. fold ch' in P1.
  set (s5 := listed p n ns l i' gs s) in *.
  assert (Hpp5 : procs (kern s5) !! p = Some (set_pid n pp)) by (cbn; by rewrite lookup_alter_eq, Hpp).
  assert (Hpz : pstate (set_pid n pp) <> PROC_ZOMBIE) by (unfold proc_is in Hst; rewrite Hpp in Hst; cbn in Hst |- *; congruence).
  destruct (wakeup_proc_woken (sc := sc) (kern s5) p _ (pi_sched _ _ P1) Hpp5 Hpz) as (k' & Hwk & Hi & Hw).
  pose proof (wk_rest _ _ _ Hw) as Hrest. pose proof (wk_self _ _ _ Hw) as Hpr.
  assert (P2 : table_inv (put_kern k' s5) ch').
  { apply inv_quiet; [done|apply (born_quiet p (set_pid n pp)); try done; left|done|by apply (born_events p (set_pid n pp) (kern s5)), P1|by apply (born_calm p (set_pid n pp) (kern s5)), P1|].
    intros z Hz Hq. by rewrite (rs_wqueues _ _ Hrest). }
  destruct (wk_step _ _ _ Hw p _ Hpp5) as (pp' & Hpp' & Epid & _ & Esem & _).
  exists n, ns, l, i', k'. split; [|split_and!; try done].
  - unfold fork_publish. rewrite (bind_step _ _ _ _ _ Hgp). erewrite bind_step; [|apply kcall_run, update_proc_ok; cbn; by rewrite Hpp].
    unfold hash_proc. erewrite bind_step; [|erewrite bind_step; [|apply kget_run; cbn; rewrite lookup_alter_eq, Hpp; reflexivity];
      rewrite bind_get; cbn [pid set_pid hash_list put_kern put_pids]; rewrite Hl; reflexivity].
    erewrite bind_step; [|apply (set_links_run _ p x y); [exact Hx|cbn; rewrite Hpar; exact Hy|congruence|apply F|exact Hc0]].
    rewrite Hpar. fold i'. erewrite bind_step; [|reflexivity]. erewrite bind_step; [|apply join_run; [|exact Hgp0]].
    2:{ cbn. apply (groups_dom _ (info s)); [apply P|]. intros q. apply (Hd q). }
    erewrite bind_step; [|apply kcall_run; exact Hwk].
    erewrite bind_step; [|apply kget_run; cbn; exact Hpp']. cbn [ret]. unfold ret. rewrite Epid. reflexivity.
  - split; [done|]. cbn [kern put_kern]. rewrite (rs_current _ _ Hrest), (rs_idle _ _ Hrest). cbn. split.
    + destruct Hcur as [?|?]; [left; by right|by right].
    + apply (born_other p (kern s5) k' Hw); [done|]. cbn. unfold listed, put_kern. cbn. apply proc_is_alter. rewrite decide_False; [exact Hrun|]. intros E. apply Hcp. symmetry. exact E.
  - unfold pid_is. cbn. rewrite Hpp'. cbn. by rewrite Epid.
  - intros q Hq. rewrite (wk_other _ _ _ Hw q Hq). cbn. by rewrite lookup_alter_ne.
  - etransitivity; [|exact Hrest]. by split.
  - rewrite Hpp', Hpp. cbn. by rewrite Esem.
Qed.

(** ** A new structure *)

Lemma core_is k k' q st : core_of <$> procs k' !! q = core_of <$> procs k !! q -> proc_is k' q st <-> proc_is k q st.
Proof using Type. intros E. unfold proc_is. by rewrite (core_eq_pstate _ _ E). Qed.

Lemma core_pid (o o' : option proc) : core_of <$> o' = core_of <$> o -> pid <$> o' = pid <$> o.
Proof using Type. unfold core_of. destruct o, o'; cbn; congruence. Qed.

Lemma fresh_inv s ch p kp x k' :
  proc_inv s ch -> info s !! p = None -> p <> 0 -> cptr x = 0 ->
  procs k' !! p = Some kp -> pstate kp = PROC_UNINIT -> wait_state kp = 0 ->
  (forall q, q <> p -> core_of <$> procs k' !! q = core_of <$> procs (kern s) !! q) ->
  current k' = current (kern s) -> idleproc k' = idleproc (kern s) -> waits k' = waits (kern s) ->
  wqueues k' = <[event_wait_queue p := []]> (wqueues (kern s)) -> sched_inv I k' ->
  proc_inv (put_kern k' (upd_info <[p := x]> (upd_groups (cons [p]) s))) ch.
Proof using Hsp.
  intros (P & Hcur & Hrun) Hp Hp0 Hx Hkp Hst Hws Hother Ec Eid Ew Eq Hi.
  assert (Hpk : procs (kern s) !! p = None).
  { apply eq_None_not_Some. intros H1. apply (pi_dom _ _ P) in H1. rewrite Hp in H1. by destruct H1. }
  assert (Hpl : p ∉ proc_list s) by (intros H1; destruct (list_known _ _ _ P H1); congruence).
  assert (Hidp : idleproc (kern s) <> p) by (intros E; destruct (si_idle _ _ (pi_sched _ _ P)); congruence).
  assert (Hcp : current (kern s) <> p) by (intros E; destruct (si_current _ _ (pi_sched _ _ P)); congruence).
  assert (Hps : forall q st, q <> p -> proc_is k' q st <-> proc_is (kern s) q st) by (intros q st Hq; by apply core_is, Hother).
  assert (Hd : forall q, is_Some (procs k' !! q) <-> q = p \/ is_Some (procs (kern s) !! q)).
  { intros q. destruct (decide (q = p)) as [->|Hq]; [rewrite Hkp; split; [by left|by eexists]|].
    rewrite <- (fmap_is_Some core_of), (Hother q Hq), fmap_is_Some. tauto. }
  assert (Hpid : forall q n, q ∈ proc_list s -> pid <$> procs k' !! q = Some n <-> pid_is s q n).
  { intros q n Hq. assert (Hne : q <> p) by congruence. unfold pid_is. by rewrite (core_pid _ _ (Hother q Hne)). }
  assert (Hz : forall z, zombie k' z -> z <> p /\ zombie (kern s) z).
  { intros z Hz. assert (z <> p) by (intros ->; unfold zombie, proc_is in Hz; rewrite Hkp in Hz; cbn in Hz; congruence). split; [done|]. by apply Hps. }
  assert (Hev : forall q, q <> p -> wqueues k' !! event_wait_queue q = wqueues (kern s) !! event_wait_queue q).
  { intros q Hq. rewrite Eq, lookup_insert_ne; [done|]. intros E%event_queue_inj. done. }
  split; [|split].
  - split; cbn [kern info thread_groups proc_list hash_list nr_process last_pid next_safe initproc put_kern upd_info upd_groups].
    + done.
    + destruct (pi_events _ _ P) as [[A1 A2] B C]. split.
      * split; rewrite Eq; [intros q l [[<- <-]|[_ Hq]]%lookup_insert_Some; [constructor|by apply (A1 q)]|].
        intros q l w [[<- <-]|[_ Hq]]%lookup_insert_Some Hw; [by apply not_elem_of_nil in Hw|]. rewrite Ew. destruct (A2 q l w Hq Hw) as (y & r & D1 & D2 & D3 & D4).
        exists y, r. split_and!; try done. apply Hd. by right.
      * intros q l u r. rewrite Eq. unfold owner. rewrite Ew. intros [[<- <-]|[_ Hq]]%lookup_insert_Some Hu Ho; [by apply not_elem_of_nil in Hu|].
        destruct (B q l u r Hq Hu Ho) as [(y & Hy & Hyz) D]. assert (Hr : r <> p) by congruence. split; [|by rewrite Hps].
        apply alive_zombie; [apply Hd; right; by rewrite Hy|]. intros [_ H1]%Hz. unfold zombie, proc_is in H1. rewrite Hy in H1. injection H1 as ?. done.
      * intros q. rewrite lookup_insert_is_Some'. intros [<-|Hq]; [rewrite Eq, lookup_insert_eq; by eexists|]. rewrite Eq. apply lookup_insert_is_Some'. right. by apply C.
    + intros q y Hy Hs. destruct (decide (q = p)) as [->|Hq]; [congruence|]. pose proof (Hother q Hq) as E. rewrite Hy in E. symmetry in E.
      apply fmap_Some in E as (y0 & Hy0 & E). unfold core_of in E. injection E as ? ? ? ? ? ?. replace (wait_state y) with (wait_state y0) by congruence.
      apply (pi_calm _ _ P q y0 Hy0). congruence.
    + intros q. rewrite lookup_insert_is_Some', Hd, (pi_dom _ _ P). split; intros [?|?]; auto.
    + apply fam_new; try done. apply P.
    + destruct (pi_groups _ _ P) as [A B C]. assert (Hnot : forall r, r ∈ thread_groups s -> p ∉ r).
      { intros r Hr Hin. assert (is_Some (info s !! p)) as [? ?] by (apply C; by exists r). congruence. }
      split.
      * intros r [->|Hr]%elem_of_cons; [apply NoDup_singleton|by apply A].
      * intros r r' q [->|Hr]%elem_of_cons [->|Hr']%elem_of_cons; rewrite ?list_elem_of_singleton; [done|intros -> H1; by apply Hnot in H1|intros H1 ->; by apply Hnot in H1|by apply B].
      * intros q. rewrite lookup_insert_is_Some', C. split.
        -- intros [<-|(r & Hr & Hq)]; [exists [p]; split; left|exists r; split; [by right|done]].
        -- intros (r & [->|Hr]%elem_of_cons & Hq); [left; by apply list_elem_of_singleton in Hq|right; by exists r].
    + apply (pi_nodup _ _ P).
    + apply (pi_list _ _ P).
    + destruct (pi_pids _ _ P) as (A & B & C). split; [done|]. split; [done|]. intros n (q & Hq & Hn). apply C. exists q. split; [done|]. by apply Hpid.
    + intros q n Hq Hn. apply (pi_range _ _ P q n Hq). by apply Hpid.
    + intros q r n Hq Hr Hn Hm. apply (pi_inj _ _ P q r n Hq Hr); by apply Hpid.
    + apply (pi_nr _ _ P).
    + apply (pi_max _ _ P).
    + intros h Hh. destruct (pi_hash _ _ P h Hh) as (l & A & B & C). exists l. split_and!; try done. intros q. rewrite C.
      split; intros [Hq (n & Hn & ?)]; (split; [done|]; exists n; split; [by apply (Hpid q n Hq)|done]).
    + intros z [Hzp Hzz]%Hz. destruct (pi_zombie _ _ P z Hzz) as (A & B & C & D). split_and!; [done|done|by right|by rewrite Hev].
    + intros q [<-|Hq]%lookup_insert_is_Some' Hl Hid.
      * split_and!; [by apply (f_none _ _ _ (pi_fam _ _ P))|left|]. unfold proc_is. rewrite Hkp. cbn. by rewrite Hst.
      * rewrite Eid in Hid. destruct (pi_private _ _ P q Hq Hl Hid) as (A & B & C). split_and!; [done|by right|]. apply Hps; [|done]. intros ->. destruct Hq. congruence.
    + rewrite Eid. destruct (pi_idle _ _ P) as [A B]. split; [done|]. by apply Hps.
    + destruct (pi_init _ _ P) as [A B]. split; [done|]. intros [_ ?]%Hz. done.
  - cbn. by rewrite Ec, Eid.
  - cbn. rewrite Ec. by apply Hps.
Qed.
End Fork.
End ProcFork.
