(* ===== verification/ProcClone.v ===== *)
(** * [do_fork], from the first allocation to the last link

    Its start ([start_run]) and its end ([publish_end_run], [abandon_run]) for any clone
    flags, and the whole call ([clone_run]) of a thread that shares everything. *)

From S2P Require Import Prelude Kern Sched SchedInv Wait Sem Event Proc ProcTable ProcInv ProcReap ProcFork.
Import Kern Sched SchedInv WaitInv Proc ProcTable ProcInv ProcReap ProcFork ProcWait.
Open Scope Z_scope.

Module ProcClone.

(** What a thread shares has a count of its users that can be raised: [fs_refs] and
    [mm_refs] are the counts. *)
Class ShareLaws (X : Type) `{HL : ResourceLaws X} := {
  fs_live : X -> Z -> Prop;
  mm_live : X -> Z -> Prop;
  fs_refs : X -> Z -> Z;
  mm_refs : X -> Z -> Z;
  (** the allocators' own changes are no concern of these *)
  live_same : forall x x' a, (exists n, kmalloc n x = Ret (a, x')) \/ (exists n, alloc_stack n x = Ret (a, x')) ->
    (forall f, fs_live x f -> fs_live x' f) /\ (forall m, mm_live x m -> mm_live x' m);
  refs_same : forall x x' a,
    (exists n, kmalloc n x = Ret (a, x')) \/ (exists n, alloc_stack n x = Ret (a, x')) \/ kfree a x = Ret (tt, x') ->
    (forall f, fs_refs x' f = fs_refs x f) /\ (forall m, mm_refs x' m = mm_refs x m);
  fs_count_inc_law : forall f x, fs_live x f -> exists x', fs_count_inc f x = Ret (fs_refs x f + 1, x') /\
    objs x' = objs x /\ stacks x' = stacks x /\ (forall m, mm_live x m -> mm_live x' m) /\
    (forall g, fs_refs x' g = fs_refs x g + (if g =? f then 1 else 0)) /\ (forall m, mm_refs x' m = mm_refs x m);
  mm_count_inc_law : forall m x, mm_live x m -> exists x', mm_count_inc m x = Ret (mm_refs x m + 1, x') /\
    objs x' = objs x /\ stacks x' = stacks x /\ mm_live x' m /\
    (forall g, mm_refs x' g = mm_refs x g + (if g =? m then 1 else 0)) /\ (forall f, fs_refs x' f = fs_refs x f);
  mm_cr3_law : forall m x, mm_live x m -> exists c, mm_cr3 m x = Ret (c, x)
}.

(** The counts of what is shared. *)
Definition same_refs {X} `{ShareLaws X} (x x' : X) : Prop :=
  (forall f, fs_refs x' f = fs_refs x f) /\ (forall m, mm_refs x' m = mm_refs x m).

Section Clone.
Context {X : Type} `{HS : ShareLaws X} {sc : sched_class} {I : kstate -> Prop} {Hsp : SchedPolicy sc I}.
Context (boot_cr3 forkret : Z).
#[local] Abbreviation state := (state (X := X)).
#[local] Abbreviation table_inv := (table_inv (X := X) (I := I)).
#[local] Abbreviation proc_inv := (proc_inv (X := X) (I := I)).

Lemma alter_insert_id {A} (f : A -> A) (m : gmap Z A) i x : m !! i = Some x -> alter f i m = <[i := f x]> m.
Proof using Type.
  intros Hx. apply map_eq. intros j. rewrite lookup_alter_at, lookup_insert. destruct (decide (j = i)) as [->|Hne]; settle; [by rewrite Hx|done].
Qed.

(** The kernel's part of the state when the structure [p] has been set up and has taken
    [t] ticks of the running process [c]. *)
Definition begun (p t : Z) (c : proc) (k : kstate) : kstate :=
  upd_wqueues <[event_wait_queue p := []]> (upd_procs (fun m => <[current k := set_time_slice (time_slice c - t) c]> (<[p := set_time_slice t new_proc]> m)) k).

Lemma begun_sched k p t c : sched_inv I k -> procs k !! p = None -> procs k !! current k = Some c -> 0 <= t <= time_slice c ->
  sched_inv I (begun p t c k).
Proof using Hsp.
  intros Hi Hp Hc Ht. assert (Hcp : current k <> p) by congruence. assert (Hidp : idleproc k <> p) by (intros E; destruct (si_idle _ _ Hi); congruence).
  assert (Hq : queued k p = false).
  { destruct (queued k p) eqn:E; [|done]. apply (si_queued _ _ Hi) in E as [E _]. unfold proc_is in E. by rewrite Hp in E. }
  assert (Hqc : queued k (current k) = false).
  { destruct (queued k (current k)) eqn:E; [|done]. by apply (si_queued _ _ Hi) in E as (_ & ? & _). }
  assert (Hst : forall q st, st <> PROC_UNINIT -> proc_is (begun p t c k) q st <-> proc_is k q st).
  { intros q st Hst. unfold proc_is. cbn. rewrite !lookup_insert. destruct (decide (current k = q)) as [<-|H1]; [by rewrite Hc|].
    destruct (decide (p = q)) as [<-|H2]; [rewrite Hp; cbn; split; congruence|done]. }
  split.
  - apply (sp_stable (upd_procs (fun m => <[current k := set_time_slice (time_slice c - t) c]> (<[p := set_time_slice t new_proc]> m)) k)); [by split|].
    set (k1 := upd_procs <[p := set_time_slice t new_proc]> k).
    assert (H1 : I k1). { apply (sp_slot k p (Some _) (si_policy _ _ Hi) Hq). intros x [= <-]. cbn. split; [lia|by left]. }
    apply (sp_slot k1 (current k) (Some _) H1 Hqc). intros x [= <-]. cbn. split; [lia|right]. by rewrite lookup_insert_ne, Hc by done.
  - cbn. rewrite lookup_insert_eq. by eexists.
  - cbn. rewrite !lookup_insert_is_Some'. right. right. apply Hi.
  - intros q Hqq. rewrite Hst by done. by apply Hi.
  - intros q. rewrite Hst by done. apply Hi.
Qed.

(** The first steps: a structure whose parent is the running process. *)
Lemma begin_run s ch : proc_inv s ch -> mem_inv s ->
  exists p x', (p <- alloc_proc boot_cr3 ;; if p =? 0 then ret 0 else fork_prepare p ;; ret p) s =
      Ret (p, if p =? 0 then put_ext x' s else
        put_ext x' (put_kern (begun p (match procs (kern s) !! current (kern s) with Some c => time_slice c ÷ 2 | None => 0 end)
          (default new_proc (procs (kern s) !! current (kern s))) (kern s))
          (upd_info <[p := set_parent (current (kern s)) (new_info boot_cr3)]> (upd_groups (cons [p]) s)))) /\
    kmalloc sizeof_proc (ext s) = Ret (p, x') /\ stacks x' = stacks (ext s) /\
    ((p = 0 /\ objs x' = objs (ext s)) \/ (p <> 0 /\ (p ∉ objs (ext s)) /\ info s !! p = None /\ objs x' = {[p]} ∪ objs (ext s))).
Proof using Hsp.
  intros (P & Hcur & Hrun) Hm. destruct (kmalloc_law sizeof_proc (ext s)) as (p & x' & Hk & Hst & Hcase). exists p, x'.
  assert (Hfresh : p ∉ objs (ext s) -> info s !! p = None).
  { intros Hn. apply eq_None_not_Some. intros Hs. by apply Hn, (m_objs _ Hm). }
  split; [|split; [done|split; [done|]]].
  2:{ destruct Hcase as [?|(? & ? & ?)]; [by left|right]. split_and!; try done. by apply Hfresh. }
  unfold alloc_proc. destruct Hcase as [[-> Ho]|(Hp & Hn & Ho)].
  - erewrite bind_step; [|erewrite bind_step; [|by apply xcall_run]; reflexivity]. done.
  - rewrite (proj2 (Z.eqb_neq p 0)) by done. specialize (Hfresh Hn).
    assert (is_Some (procs (kern s) !! current (kern s))) as [c Hc] by apply (pi_sched _ _ P). rewrite Hc. cbn [default].
    assert (Hpk : procs (kern s) !! p = None).
    { apply eq_None_not_Some. intros H1. apply (pi_dom _ _ P) in H1. rewrite Hfresh in H1. by destruct H1. }
    assert (Hcp : current (kern s) <> p) by congruence.
    assert (Hw0 : wait_state c = 0). { apply (pi_calm _ _ P _ c Hc). unfold proc_is in Hrun. rewrite Hc in Hrun. injection Hrun as ->. done. }
    pose proof (sp_slice (kern s) _ c (si_policy _ _ (pi_sched _ _ P)) Hc) as Hts.
    erewrite bind_step; [|erewrite bind_step; [|by apply xcall_run]; rewrite (proj2 (Z.eqb_neq p 0)) by done;
      erewrite bind_step; [|apply kcall_run; reflexivity]; rewrite !bind_modify; erewrite bind_step; [|apply kcall_run; reflexivity]; reflexivity].
    rewrite (proj2 (Z.eqb_neq p 0)) by done. unfold fork_prepare. erewrite bind_step; [|
      rewrite (bind_step get_current _ _ _ _ eq_refl); erewrite bind_step; [|apply set_info_run; cbn; rewrite lookup_insert_eq; by eexists];
      erewrite bind_step; [|apply kget_run; cbn; rewrite lookup_insert_ne by congruence; exact Hc];
      rewrite assert_true by (by rewrite Hw0); rewrite assert_true by (by apply Z.leb_le);
      erewrite bind_step; [|apply kcall_run, update_proc_ok; cbn; rewrite lookup_insert_eq; by eexists];
      apply kcall_run, update_proc_ok; cbn; rewrite lookup_alter_is_Some, lookup_insert_is_Some'; right; by rewrite Hc].
    unfold ret. do 3 f_equal.
    cbv [put_ext put_kern upd_info upd_groups kern info thread_groups proc_list hash_list nr_process last_pid next_safe initproc proc_mm_list ext]. fold (kern s) (info s). f_equal.
    + unfold begun, upd_wqueues, upd_procs. cbn. f_equal. rewrite (alter_insert_id _ _ _ c).
      * f_equal. by rewrite (alter_insert_id _ _ _ new_proc), insert_insert_eq by (by rewrite lookup_insert_eq).
      * rewrite lookup_alter_ne, lookup_insert_ne by congruence. done.
    + by rewrite (alter_insert_id _ _ _ (new_info boot_cr3)), insert_insert_eq by (by rewrite lookup_insert_eq).
Qed.

(** Changes that touch neither families nor the table. *)
Lemma table_outer (s : state) ch i' :
  (forall q, (fun x => (links x, cptr x)) <$> i' !! q = (fun x => (links x, cptr x)) <$> info s !! q) ->
  table_inv s ch -> table_inv (upd_info (fun _ => i') s) ch.
Proof using Type.
  intros Hi []. assert (Hd : forall q, is_Some (i' !! q) <-> is_Some (info s !! q)).
  { intros q. specialize (Hi q). destruct (i' !! q), (info s !! q); cbn in Hi; try done; (split; intros [? ?]; done). }
  split; cbn [kern info thread_groups proc_list hash_list nr_process last_pid next_safe initproc upd_info]; try done.
  - destruct pi_events0 as [A B C]. split; try done. intros p Hp%Hd. by apply C.
  - intros p. by rewrite Hd.
  - by apply (fam_ext (fun _ => 0) _ (info s) _ ch).
  - by apply (groups_dom _ (info s)).
  - intros p Hp%Hd. by apply pi_private0.
Qed.

Lemma inv_outer (s : state) ch i' :
  (forall q, (fun x => (links x, cptr x)) <$> i' !! q = (fun x => (links x, cptr x)) <$> info s !! q) ->
  proc_inv s ch -> proc_inv (upd_info (fun _ => i') s) ch.
Proof using Type. intros Hi [P Hc]. split; [by apply table_outer|done]. Qed.

(** The kernel with the count of the queue [q] raised, which [p] shares. *)
Definition shared_sem (p q : Z) (k : kstate) : kstate :=
  upd_procs (alter (set_sem_queue (Some q)) p) (upd_semqs (alter (fun x => mk_semq (s32 (sq_count x + 1)) (semu_list x)) q) k).

Lemma shared_sem_inv (s : state) ch p q : proc_inv s ch -> proc_inv (put_kern (shared_sem p q (kern s)) s) ch.
Proof using Hsp.
  intros (P & Hcur & Hrun). set (k' := shared_sem p q (kern s)).
  assert (Hps : forall r st, proc_is k' r st <-> proc_is (kern s) r st).
  { intros r st. unfold k', shared_sem. rewrite proc_is_alter. case_decide; [subst|done]. unfold proc_is. cbn. destruct (procs (kern s) !! r); cbn; naive_solver. }
  assert (Hd : forall r, is_Some (procs k' !! r) <-> is_Some (procs (kern s) !! r)) by (intros r; unfold k', shared_sem; rewrite known_alter; done).
  split; [|split; [done|by apply Hps]]. apply inv_quiet; try done.
  - split; try done; [|intros r; apply Hps|by intros ?%Hps|intros r _; by apply Hps]. intros r. unfold k', shared_sem. cbn. rewrite lookup_alter_at. case_decide; [|done]. by destruct (procs (kern s) !! r).
  - destruct (pi_sched _ _ P) as [A B C D E]. split; [|by apply Hd|by apply Hd|intros r Hr; rewrite Hps; by apply D|intros r; rewrite Hps; apply E].
    apply (sp_stable (kern s)); [|done]. split; try done. intros r. unfold k', shared_sem. cbn. rewrite lookup_alter_at. case_decide; [|done]. by destruct (procs (kern s) !! r).
  - destruct (pi_events _ _ P) as [A B C]. split; [apply (waits_ok_same (kern s)); try done; intros r; by rewrite Hd| |done].
    intros r l u v Hr Hu Ho. destruct (B r l u v Hr Hu Ho) as [H1 H2]. split; [|by rewrite Hps]. pose proof H1 as (x & Hx & _).
    apply alive_zombie; [apply Hd; by rewrite Hx|]. unfold zombie. rewrite Hps. apply alive_zombie in H1; [done|by rewrite Hx].
  - intros r x. change (alter (set_sem_queue (Some q)) p (procs (kern s)) !! r = Some x -> pstate x <> PROC_SLEEPING -> wait_state x = 0).
    rewrite lookup_alter_at. case_decide; [|apply (pi_calm _ _ P)]. intros (y & Hy & ->)%fmap_Some. cbn. by apply (pi_calm _ _ P r).
Qed.

(** ** Sharing *)

Section Share.
Context (f p : Z).
Hypothesis Hvm : set_flag f CLONE_VM = true.
Hypothesis Hsem : set_flag f CLONE_SEM = true.
Hypothesis Hfs : set_flag f CLONE_FS = true.

Lemma copy_sem_run (s : state) w c :
  procs (kern s) !! current (kern s) = Some c -> is_Some (procs (kern s) !! p) ->
  (forall q, psem_queue c = Some q -> is_Some (semqs (ipc (kern s)) !! q)) ->
  copy_sem sc f p w s = Ok 0 (match psem_queue c with Some q => put_kern (shared_sem p q (kern s)) s | None => s end).
Proof using Hsem.
  intros Hc Hp Hq. unfold copy_sem. erewrite rbind_lift; [|reflexivity]. erewrite rbind_lift; [|apply kget_run; exact Hc].
  destruct (psem_queue c) as [q|] eqn:E; [|done]. rewrite Hsem.
  erewrite rbind_lift; [|apply kcall_run, update_semq_ok, Hq; done].
  erewrite rbind_lift; [|apply kcall_run, update_proc_ok; exact Hp]. done.
Qed.

Lemma copy_fs_run (s : state) ci : info s !! current (kern s) = Some ci -> fs_struct ci <> 0 -> fs_live (ext s) (fs_struct ci) -> is_Some (info s !! p) ->
  exists x', copy_fs f p s = Ok 0 (put_ext x' (upd_info (alter (set_fs (fs_struct ci)) p) s)) /\
    objs x' = objs (ext s) /\ stacks x' = stacks (ext s) /\ (forall m, mm_live (ext s) m -> mm_live x' m) /\
    (forall g, fs_refs x' g = fs_refs (ext s) g + (if g =? fs_struct ci then 1 else 0)) /\ (forall m, mm_refs x' m = mm_refs (ext s) m).
Proof using Hfs.
  intros Hc H0 Hl Hp. destruct (fs_count_inc_law _ _ Hl) as (x' & Hr & H1). exists x'. split; [|done].
  unfold copy_fs. erewrite rbind_lift; [|reflexivity]. erewrite rbind_lift; [|apply get_info_run; exact Hc]. cbv zeta.
  erewrite rbind_lift; [|apply assert_Ret; split; [apply negb_true_iff; by apply Z.eqb_neq|reflexivity]]. rewrite Hfs.
  erewrite rbind_lift; [|apply xcall_run; exact Hr]. erewrite rbind_lift; [|apply set_info_run; exact Hp]. done.
Qed.

(** Is [m] the address space of the parent? *)
Definition its_mm (ci : pinfo) (m : Z) : bool := negb (mm ci =? 0) && (m =? mm ci).

Lemma copy_mm_run (s : state) ci : info s !! current (kern s) = Some ci -> (mm ci <> 0 -> mm_live (ext s) (mm ci)) -> is_Some (info s !! p) ->
  exists x' g, copy_mm f p s = Ok 0 (put_ext x' (upd_info (alter g p) s)) /\ objs x' = objs (ext s) /\ stacks x' = stacks (ext s) /\
    (forall m, mm_refs x' m = mm_refs (ext s) m + (if its_mm ci m then 1 else 0)) /\ (forall h, fs_refs x' h = fs_refs (ext s) h) /\
    forall x, links (g x) = links x /\ cptr (g x) = cptr x /\ kstack (g x) = kstack x /\ fs_struct (g x) = fs_struct x /\
      mm (g x) = (if mm ci =? 0 then mm x else mm ci).
Proof using Hvm.
  intros Hc Hl Hp. unfold copy_mm, its_mm. erewrite rbind_lift; [|reflexivity]. erewrite rbind_lift; [|apply get_info_run; exact Hc]. cbv zeta.
  destruct (Z.eqb_spec (mm ci) 0) as [E|E].
  - exists (ext s), id. split; [|split_and!; try done; intros m; cbn; lia]. unfold rret. f_equal. unfold put_ext, upd_info. destruct s; cbn. f_equal.
    apply map_eq. intros j. rewrite lookup_alter_at. case_decide; [|done]. by rewrite option_fmap_id.
  - rewrite Hvm. destruct (mm_count_inc_law _ _ (Hl E)) as (x' & Hr & H1 & H2 & H3 & H5 & H6). destruct (mm_cr3_law _ _ H3) as (c3 & H4).
    exists x', (fun x => set_cr3 c3 (set_mm (mm ci) x)). split; [|split_and!; done].
    rewrite Z.eqb_refl. cbn [negb]. rewrite rbind_rret. erewrite rbind_lift; [|apply xcall_run; exact Hr].
    erewrite rbind_lift; [|apply set_info_run; exact Hp]. erewrite rbind_lift; [|apply xcall_run; exact H4].
    erewrite rbind_lift; [|apply set_info_run; cbn; by apply lookup_alter_is_Some]. unfold rret, upd_info, put_ext. cbn. do 2 f_equal.
    apply alter_alter_eq.
Qed.
End Share.

Lemma setup_kstack_run (s : state) p : is_Some (info s !! p) ->
  exists a x', setup_kstack p s = Ret (if a =? 0 then - E_NO_MEM else 0, if a =? 0 then put_ext x' s else put_ext x' (upd_info (alter (set_kstack a) p) s)) /\
    alloc_stack KSTACKPAGE (ext s) = Ret (a, x') /\ objs x' = objs (ext s) /\
    ((a = 0 /\ stacks x' = stacks (ext s)) \/ (a <> 0 /\ (a ∉ stacks (ext s)) /\ stacks x' = {[a]} ∪ stacks (ext s))).
Proof using Type.
  intros Hp. destruct (alloc_stack_law KSTACKPAGE (ext s)) as (a & x' & Hr & Ho & Hc). exists a, x'. split; [|done].
  unfold setup_kstack. erewrite bind_step; [|apply xcall_run; exact Hr]. destruct (Z.eqb_spec a 0); cbn [negb]; [done|].
  erewrite bind_step; [|apply set_info_run; exact Hp]. done.
Qed.

(** The kernel after the semaphores are shared. *)
Definition with_sem (p : Z) (c : proc) (k : kstate) : kstate :=
  match psem_queue c with Some q => shared_sem p q k | None => k end.

(** The copies of a thread that shares everything. *)
Lemma share_run (s : state) ch f p x c ci w :
  set_flag f CLONE_VM = true -> set_flag f CLONE_SEM = true -> set_flag f CLONE_FS = true ->
  proc_inv s ch -> newborn s p x -> mm x = 0 ->
  procs (kern s) !! current (kern s) = Some c -> info s !! current (kern s) = Some ci ->
  (forall q, psem_queue c = Some q -> is_Some (semqs (ipc (kern s)) !! q)) ->
  fs_struct ci <> 0 -> fs_live (ext s) (fs_struct ci) -> (mm ci <> 0 -> mm_live (ext s) (mm ci)) ->
  exists x' g, let s' := put_ext x' (put_kern (with_sem p c (kern s)) (upd_info (alter g p) s)) in
    fork_copy sc f p w s = Ok 0 s' /\ proc_inv s' ch /\ newborn s' p (g x) /\
    (kstack (g x) = kstack x /\ mm (g x) = mm ci /\ fs_struct (g x) = fs_struct ci /\ cptr (g x) = cptr x /\ links (g x) = links x) /\
    objs x' = objs (ext s) /\ stacks x' = stacks (ext s) /\
    (forall h, fs_refs x' h = fs_refs (ext s) h + (if h =? fs_struct ci then 1 else 0)) /\
    (forall m, mm_refs x' m = mm_refs (ext s) m + (if its_mm ci m then 1 else 0)).
Proof using Hsp.
  intros Hvm Hsem Hfs Hinv Hnb Hm0 Hc Hci Hq Hf0 Hfl Hml. pose proof Hnb as [Hx Hpar Hpl Hpi Hst].
  assert (Hcp : current (kern s) <> p) by (intros E; rewrite <- E, Hci in Hx; injection Hx as ->; destruct Hinv as (_ & _ & Hr); rewrite E in Hr; unfold proc_is in *; congruence).
  set (k' := with_sem p c (kern s)).
  assert (Ek : (match psem_queue c with Some q => put_kern (shared_sem p q (kern s)) s | None => s end) = put_kern k' s) by (unfold k', with_sem; destruct (psem_queue c); by destruct s).
  assert (P1 : proc_inv (put_kern k' s) ch). { unfold k', with_sem. destruct (psem_queue c); [by apply shared_sem_inv|by rewrite put_kern_id]. }
  assert (Hkc : current k' = current (kern s) /\ idleproc k' = idleproc (kern s)) by (unfold k', with_sem; by destruct (psem_queue c)).
  destruct Hkc as [Hkc Hki].
  destruct (copy_fs_run f p Hfs (put_kern k' s) ci) as (x1 & Hr1 & O1 & S1 & L1 & F1 & M1); [cbn; by rewrite Hkc|done|done|cbn; by rewrite Hx|].
  set (s1 := put_ext x1 (upd_info (alter (set_fs (fs_struct ci)) p) (put_kern k' s))) in *.
  destruct (copy_mm_run f p Hvm s1 ci) as (x2 & g & Hr2 & O2 & S2 & M2 & F2 & Hg).
  { cbn. by rewrite Hkc, lookup_alter_ne. }
  { intros Hm. by apply L1, Hml. }
  { cbn. rewrite lookup_alter_eq, Hx. by eexists. }
  set (h := fun y => g (set_fs (fs_struct ci) y)). destruct (Hg (set_fs (fs_struct ci) x)) as (G1 & G2 & G3 & G4 & G5).
  assert (Hi : alter h p (info s) = alter g p (alter (set_fs (fs_struct ci)) p (info s))) by (by rewrite !alter_alter_eq).
  assert (Hlk : forall q, (fun x => (links x, cptr x)) <$> alter h p (info s) !! q = (fun x => (links x, cptr x)) <$> info s !! q).
  { intros q. rewrite lookup_alter_at. case_decide; [subst|done]. rewrite Hx. cbn. unfold h. f_equal. unfold links in *. cbn in *. congruence. }
  exists x2, h. cbv zeta. cbn [ext put_ext s1 upd_info put_kern] in O1, O2, S1, S2, F1, F2, M1, M2. split; [|split_and!].
  - assert (is_Some (procs (kern s) !! p)) as Hpk by (unfold proc_is in Hst; destruct (procs (kern s) !! p); [by eexists|done]). unfold fork_copy.
    unfold rbind at 1. rewrite (copy_sem_run f p Hsem s w c Hc Hpk Hq). rewrite Ek. cbn [rthen]. rewrite Z.eqb_refl. cbn [negb]. unfold rbind at 1. rewrite Hr1. cbn [rthen]. rewrite Z.eqb_refl. cbn [negb].
    unfold rbind at 1. fold s1. rewrite Hr2. cbn [rthen]. rewrite Z.eqb_refl. cbn [negb]. unfold rret. f_equal. unfold s1, put_ext, put_kern, upd_info. cbn. by rewrite Hi.
  - apply inv_ext. change (proc_inv (upd_info (fun _ => alter h p (info s)) (put_kern k' s)) ch). by apply inv_outer.
  - split; cbn; rewrite ?Hkc, ?Hki; try done.
    + by rewrite lookup_alter_eq, Hx.
    + unfold h. unfold links in G1. cbn in *. congruence.
    + unfold k', with_sem. destruct (psem_queue c); [|done]. unfold shared_sem. apply proc_is_alter. rewrite decide_True by done.
      unfold proc_is in Hst. cbn. destruct (procs (kern s) !! p); [|done]. injection Hst as E. eexists. split; [done|]. done.
  - done.
  - unfold h. rewrite G5. destruct (Z.eqb_spec (mm ci) 0) as [E|]; [by rewrite E|done].
  - done.
  - exact G2.
  - exact G1.
  - congruence.
  - congruence.
  - intros y. by rewrite F2.
  - intros y. by rewrite M2, M1.
Qed.

(** ** Before the copies *)

Lemma fresh_groups (s : state) p : groups_ok (thread_groups s) (info s) -> info s !! p = None ->
  base.filter (fun r => r <> [p]) ([p] :: thread_groups s) = thread_groups s.
Proof using Type.
  intros G Hp. rewrite filter_cons_False by (intros H1; by apply H1).
  assert (Hn : forall r, r ∈ thread_groups s -> r <> [p]).
  { intros r Hr ->. assert (is_Some (info s !! p)) as [? ?] by (apply (g_dom _ _ G); exists [p]; split; [done|left]). congruence. }
  clear G. induction (thread_groups s) as [|r gs IH]; [done|]. rewrite filter_cons_True by (apply Hn; left). f_equal. apply IH. intros r' Hr'. apply Hn. by right.
Qed.

(** The state with a structure that is set up as far as its kernel stack. *)
Definition begun_state (p : Z) (c : proc) (x' : X) (s : state) : state :=
  put_ext x' (put_kern (begun p (time_slice c ÷ 2) c (kern s)) (upd_info <[p := set_parent (current (kern s)) (new_info boot_cr3)]> (upd_groups (cons [p]) s))).

Lemma begun_inv (s : state) ch p c x' : proc_inv s ch -> p <> 0 -> info s !! p = None -> procs (kern s) !! current (kern s) = Some c ->
  proc_inv (begun_state p c x' s) ch /\ newborn (begun_state p c x' s) p (set_parent (current (kern s)) (new_info boot_cr3)).
Proof using Hsp.
  intros Hinv Hp Hi Hc. pose proof Hinv as (P & Hcur & Hrun). 
  assert (Hpk : procs (kern s) !! p = None).
  { apply eq_None_not_Some. intros H1. apply (pi_dom _ _ P) in H1. rewrite Hi in H1. by destruct H1. }
  assert (Hcp : current (kern s) <> p) by congruence.
  pose proof (sp_slice (kern s) _ c (si_policy _ _ (pi_sched _ _ P)) Hc) as Hts.
  assert (Hpp : procs (begun p (time_slice c ÷ 2) c (kern s)) !! p = Some (set_time_slice (time_slice c ÷ 2) new_proc)).
  { cbn. by rewrite lookup_insert_ne, lookup_insert_eq by done. }
  split.
  - unfold begun_state. apply inv_ext, (fresh_inv s ch p (set_time_slice (time_slice c ÷ 2) new_proc)); try done.
    + intros q Hq. cbn. rewrite lookup_insert. case_decide as E; [subst; by rewrite Hc|]. by rewrite lookup_insert_ne.
    + apply begun_sched; try done; [apply P|]. rewrite Z.quot_div_nonneg by lia. split; [apply Z.div_pos; lia|]. apply Z.div_le_upper_bound; lia.
  - split; try done.
    + cbn. by rewrite lookup_insert_eq.
    + cbn. intros H1. destruct (list_known _ _ _ P H1). congruence.
    + cbn. intros ->. destruct (si_idle _ _ (pi_sched _ _ P)). congruence.
    + unfold proc_is. cbn [kern begun_state put_ext put_kern]. by rewrite Hpp.
Qed.

(** What happens to the memory of the table when nothing is given up. *)
Lemma mem_same (s s' : state) :
  (forall q, kstack <$> info s' !! q = kstack <$> info s !! q) -> idleproc (kern s') = idleproc (kern s) ->
  objs (ext s) ⊆ objs (ext s') -> stacks (ext s) ⊆ stacks (ext s') -> mem_inv s -> mem_inv s'.
Proof using Type.
  intros Hi Hl Ho Hst [A B C].
  assert (Hold : forall q x, info s' !! q = Some x -> exists y, info s !! q = Some y /\ kstack y = kstack x).
  { intros q x Hx. specialize (Hi q). rewrite Hx in Hi. symmetry in Hi. apply fmap_Some in Hi as (y & Hy & E). by exists y. }
  split; rewrite ?Hl.
  - intros p [x Hx]. destruct (Hold p x Hx) as (y & Hy & _). apply Ho, A. by rewrite Hy.
  - intros p x Hx Hp. destruct (Hold p x Hx) as (y & Hy & <-). by apply Hst, (B p).
  - intros p q x y Hx Hy Hp Hq E. destruct (Hold p x Hx) as (x0 & Hx0 & E1), (Hold q y Hy) as (y0 & Hy0 & E2). apply (C p q x0 y0); try done. congruence.
Qed.

(** The memory of the table with one structure more, or less. *)
Lemma mem_born (s s' : state) p y :
  mem_inv s -> info s !! p = None -> info s' = <[p := y]> (info s) -> idleproc (kern s') = idleproc (kern s) -> (kstack y ∉ stacks (ext s)) ->
  objs (ext s') = {[p]} ∪ objs (ext s) -> stacks (ext s') = {[kstack y]} ∪ stacks (ext s) -> mem_inv s'.
Proof using Hsp.
  intros [A B C] Hp Hi Hid Ha O S. split; rewrite Hi, ?Hid.
  - intros q [z Hz]. rewrite O. apply lookup_insert_Some in Hz as [[<- _]|[_ Hz]]; [set_solver|]. apply elem_of_union_r, A. by rewrite Hz.
  - intros q z Hz Hq. rewrite S. apply lookup_insert_Some in Hz as [[_ <-]|[_ Hz]]; [set_solver|]. apply elem_of_union_r. by apply (B q).
  - intros q r z w [[<- <-]|[Hne Hz]]%lookup_insert_Some [[<- <-]|[Hne' Hw]]%lookup_insert_Some Hq Hr E; [done|..].
    + exfalso. apply Ha. rewrite E. by apply (B r).
    + exfalso. apply Ha. rewrite <- E. by apply (B q).
    + by apply (C q r z w).
Qed.

Lemma mem_gone (s s' : state) p y :
  mem_inv s -> info s !! p = Some y -> p <> idleproc (kern s) -> info s' = delete p (info s) -> idleproc (kern s') = idleproc (kern s) ->
  objs (ext s') = objs (ext s) ∖ {[p]} -> stacks (ext s') = stacks (ext s) ∖ {[kstack y]} -> mem_inv s'.
Proof using Hsp.
  intros [A B C] Hp Hpi Hi Hid O S. split; rewrite Hi, ?Hid.
  - intros q [z [Hne Hz]%lookup_delete_Some]. rewrite O. apply elem_of_difference. split; [apply A; by rewrite Hz|]. rewrite elem_of_singleton. congruence.
  - intros q z [Hne Hz]%lookup_delete_Some Hq. rewrite S. apply elem_of_difference. split; [by apply (B q)|]. rewrite elem_of_singleton. intros E.
    by apply Hne, (C p q y z).
  - intros q r z w [_ Hz]%lookup_delete_Some [_ Hw]%lookup_delete_Some. by apply C.
Qed.

(** A start that comes to nothing: only the running process may have lost half of its
    time slice. *)
Record undone (s s' : state) (ch : Z -> list Z) (c : proc) : Prop := {
  u_proc : proc_inv s' ch;
  u_mem : mem_inv s';
  u_info : info s' = info s;
  u_groups : thread_groups s' = thread_groups s;
  u_list : proc_list s' = proc_list s;
  u_init : initproc s' = initproc s;
  u_procs : forall q, q <> current (kern s) -> procs (kern s') !! q = procs (kern s) !! q;
  u_slice : procs (kern s') !! current (kern s) = Some c \/
    procs (kern s') !! current (kern s) = Some (set_time_slice (time_slice c - time_slice c ÷ 2) c);
  u_ipc : ipc (kern s') = ipc (kern s);
  u_objs : objs (ext s') = objs (ext s);
  u_stacks : stacks (ext s') = stacks (ext s);
  u_refs : same_refs (ext s) (ext s')
}.

(** A structure with a kernel stack, not in any table yet. *)
Record launched (s s' : state) (ch : Z -> list Z) (c : proc) (p : Z) (y : pinfo) : Prop := {
  l_room : nr_process s < MAX_PROCESS;
  l_nonzero : p <> 0;
  l_proc : proc_inv s' ch;
  l_mem : mem_inv s';
  l_newborn : newborn s' p y;
  l_fresh : info s !! p = None;
  l_info : info s' = <[p := y]> (info s);
  l_mm : mm y = 0;
  l_groups : thread_groups s' = [p] :: thread_groups s;
  l_list : proc_list s' = proc_list s;
  l_init : initproc s' = initproc s;
  l_kern : kern s' = begun p (time_slice c ÷ 2) c (kern s);
  l_objs : objs (ext s') = {[p]} ∪ objs (ext s);
  l_new_stack : kstack y ∉ stacks (ext s);
  l_stacks : stacks (ext s') = {[kstack y]} ∪ stacks (ext s);
  l_live : (forall f, fs_live (ext s) f -> fs_live (ext s') f) /\ (forall m, mm_live (ext s) m -> mm_live (ext s') m);
  l_refs : same_refs (ext s) (ext s')
}.

Inductive started (s : state) (ch : Z -> list Z) (c : proc) : Z * Z -> state -> Prop :=
| started_full : MAX_PROCESS <= nr_process s -> started s ch c (- E_NO_FREE_PROC, 0) s
| started_no_mem s' : undone s s' ch c -> started s ch c (- E_NO_MEM, 0) s'
| started_new s' p y : launched s s' ch c p y -> started s ch c (0, p) s'.

(** No kernel stack: the structure is given back. *)
Lemma unfork_run (s : state) ch p c x' x2 : proc_inv s ch -> mem_inv s -> p <> 0 -> info s !! p = None -> procs (kern s) !! current (kern s) = Some c ->
  p ∉ objs (ext s) -> objs x2 = {[p]} ∪ objs (ext s) -> stacks x2 = stacks (ext s) -> same_refs (ext s) x2 ->
  exists s', free_proc p (put_ext x2 (begun_state p c x' s)) = Ret (tt, s') /\ undone s s' ch c.
Proof using Hsp.
  intros Hinv Hm Hp Hi Hc Hn Ho Hs [R1 R2]. destruct (begun_inv s ch p c x2 Hinv Hp Hi Hc) as [P1 N1].
  destruct (kfree_law p x2) as (x3 & Hr & S3 & O3); [rewrite Ho; set_solver|]. destruct (refs_same _ _ _ (or_intror (or_intror Hr))) as [R3 R4].
  assert (Hfr : free_proc p (begun_state p c x2 s) = Ret (tt, put_ext x3 (put_kern (without p (kern (begun_state p c x2 s)))
    (upd_groups (base.filter (fun r => r <> [p])) (upd_info (delete p) (begun_state p c x2 s)))))).
  { unfold free_proc. erewrite bind_step; [|apply kcall_run; reflexivity]. rewrite !bind_modify. erewrite bind_step; [|apply kcall_run; reflexivity]. by apply xcall_run. }
  change (put_ext x2 (begun_state p c x' s)) with (begun_state p c x2 s). eexists. split; [exact Hfr|].
  pose proof (discard_inv _ ch p P1) as P2.
  assert (Hinfo : delete p (<[p := set_parent (current (kern s)) (new_info boot_cr3)]> (info s)) = info s) by (by apply delete_insert_id).
  assert (Hobj : objs x3 = objs (ext s)) by (rewrite O3, Ho; set_solver).
  assert (Hpk : procs (kern s) !! p = None).
  { apply eq_None_not_Some. intros H1. apply (pi_dom _ _ (proj1 Hinv)) in H1. rewrite Hi in H1. by destruct H1. }
  assert (Hcp : current (kern s) <> p) by congruence.
  split; try done; [apply inv_ext, P2; [rewrite (n_info _ _ _ N1); by eexists|apply N1|apply N1]|..].
  - destruct Hm as [A B C]. split; cbn; rewrite Hinfo, ?Hobj, ?S3, ?Hs; done.
  - by apply fresh_groups; [apply Hinv|].
  - intros q Hq. cbn. rewrite lookup_delete. destruct (decide (p = q)) as [<-|Hpq]; [done|]. by rewrite !lookup_insert_ne.
  - right. cbn. by rewrite lookup_delete_ne, lookup_insert_eq.
  - cbn. congruence.
  - split; intros y; cbn; [by rewrite R3|by rewrite R4].
Qed.

(** The first part of [do_fork]. *)
Lemma start_run (s : state) ch c : proc_inv s ch -> mem_inv s -> procs (kern s) !! current (kern s) = Some c ->
  exists r s', fork_start boot_cr3 s = Ret (r, s') /\ started s ch c r s'.
Proof using Hsp.
  intros Hinv Hm Hc. unfold fork_start. rewrite bind_get.
  destruct (Z.leb_spec MAX_PROCESS (nr_process s)) as [Hfull|Hroom]; [eexists _, s; split; [reflexivity|by apply started_full]|].
  destruct (begin_run s ch Hinv Hm) as (p & x' & Hb & Hk & S1 & Hcase). rewrite Hc in Hb. cbn [default] in Hb.
  pose proof (live_same _ _ _ (or_introl (ex_intro _ _ Hk))) as [L1 L2]. pose proof (refs_same _ _ _ (or_introl (ex_intro _ _ Hk))) as [R1 R2].
  assert (Hgo : forall B (a : M state B) (b : Z -> M state B), (p <- alloc_proc boot_cr3 ;; if p =? 0 then a else fork_prepare p ;; b p) s =
    (p <- (p <- alloc_proc boot_cr3 ;; if p =? 0 then ret 0 else fork_prepare p ;; ret p) ;; if p =? 0 then a else b p) s).
  { intros B a b. unfold bind. destruct (alloc_proc boot_cr3 s) as [[q s1]| |]; [|done|done]. destruct (Z.eqb_spec q 0) as [->|Hq]; [done|].
    destruct (fork_prepare q s1) as [[[] s2]| |]; [|done|done]. unfold ret. by rewrite (proj2 (Z.eqb_neq q 0)). }
  rewrite Hgo, (bind_step _ _ _ _ _ Hb). destruct Hcase as [[-> O1]|(Hp & Hn & Hi & O1)].
  { cbn [Z.eqb]. eexists _, _. split; [reflexivity|]. apply started_no_mem. split; try done; [by apply inv_ext| |by left].
    destruct Hm as [A B C]. by split; cbn; rewrite ?O1, ?S1. }
  rewrite (proj2 (Z.eqb_neq p 0)) by done. change (put_ext x' (put_kern _ _)) with (begun_state p c x' s).
  destruct (begun_inv s ch p c x' Hinv Hp Hi Hc) as [P1 N1].
  destruct (setup_kstack_run (begun_state p c x' s) p) as (a & x2 & Hr2 & Ha & O2 & Hcase); [rewrite (n_info _ _ _ N1); by eexists|].
  pose proof (live_same _ _ _ (or_intror (ex_intro _ _ Ha))) as [L3 L4]. pose proof (refs_same _ _ _ (or_intror (or_introl (ex_intro _ _ Ha)))) as [R3 R4].
  cbn [ext begun_state put_ext] in O2, Hcase, L3, L4, R3, R4. rewrite O1 in O2. rewrite S1 in Hcase.
  assert (Hrf : same_refs (ext s) x2) by (split; intros y; [by rewrite R3|by rewrite R4]).
  rewrite (bind_step _ _ _ _ _ Hr2). destruct Hcase as [[-> S2]|(Ha0 & Han & S2)].
  { change (negb ((if 0 =? 0 then - E_NO_MEM else 0) =? 0)) with true. cbv iota. change (if 0 =? 0 then ?a else ?b) with a.
    destruct (unfork_run s ch p c x' x2) as (s' & Hr & U); try done. rewrite (bind_step _ _ _ _ _ Hr). eexists _, _. split; [reflexivity|]. by apply started_no_mem. }
  rewrite (proj2 (Z.eqb_neq a 0)) by done. cbn [Z.eqb negb]. eexists _, _. split; [reflexivity|].
  set (y := set_kstack a (set_parent (current (kern s)) (new_info boot_cr3))).
  assert (Hal : alter (set_kstack a) p (<[p := set_parent (current (kern s)) (new_info boot_cr3)]> (info s)) = <[p := y]> (info s)).
  { by rewrite (alter_insert_id _ _ _ (set_parent (current (kern s)) (new_info boot_cr3))), insert_insert_eq by (by rewrite lookup_insert_eq). }
  apply (started_new s ch c _ p y). split; try done; cbn [info put_ext upd_info begun_state].
  - apply inv_ext, (inv_outer (begun_state p c x' s) ch (alter (set_kstack a) p (info (begun_state p c x' s)))); [|done].
    intros q. rewrite lookup_alter_at. case_decide; [|done]. by destruct (info _ !! q).
  - by apply (mem_born s _ p y).
  - destruct N1. split; try done. cbn. by rewrite Hal, lookup_insert_eq.
  - split; auto.
Qed.

(** ** After the copies *)

(** The trap frame of the new process. *)
Definition child_tf (t : trapframe) (stack : Z) : trapframe := mk_tf 0 (tf_eip t) stack (Z.lor (tf_eflags t) FL_IF) (tf_rest t).

(** The process [p], which was in the making, is in all tables. *)
Record published (s s' : state) (ch : Z -> list Z) (f p stack : Z) (t : trapframe) (y : pinfo) (n : Z) : Prop := {
  b_proc : proc_inv s' (set_ch ch (current (kern s)) (p :: ch (current (kern s))));
  b_mem : mem_inv s';
  b_range : 1 <= n < MAX_PID;
  b_unused : ~ used s (proc_list s) n;
  b_list : proc_list s' = p :: proc_list s;
  b_init : initproc s' = initproc s;
  b_others : forall q, q <> p -> core_of <$> procs (kern s') !! q = core_of <$> procs (kern s) !! q;
  b_rest : rest_same (kern s) (kern s');
  b_pid : pid_is s' p n;
  b_state : proc_is (kern s') p PROC_RUNNABLE;
  b_sem : psem_queue <$> procs (kern s') !! p = psem_queue <$> procs (kern s) !! p;
  b_info : exists x, info s' !! p = Some x /\ kstack x = kstack y /\ mm x = mm y /\ fs_struct x = fs_struct y /\ tf x = Some (child_tf t stack);
  b_groups : thread_groups s' = joined f (current (kern s)) p (thread_groups s);
  b_ext : ext s' = ext s
}.

Lemma publish_end_run (s : state) ch f p y stack t :
  proc_inv s ch -> mem_inv s -> newborn s p y -> Z.of_nat (length (proc_list s)) < MAX_PID - 1 ->
  exists n s', fork_end sc forkret f p stack t 0 s = Ret (n, s') /\ published s s' ch f p stack t y n.
Proof using Hsp.
  intros Hinv Hm Hnb Hlen. pose proof (n_info _ _ _ Hnb) as Hy. unfold fork_end. cbn [Z.eqb negb].
  set (g := set_tf (Some (child_tf t stack)) (forkret, u32 (kstack y + KSTACKSIZE - sizeof_tf))). set (s1 := upd_info (alter g p) s).
  assert (Hct : copy_thread forkret p stack t s = Ret (tt, s1)).
  { unfold copy_thread. erewrite bind_step; [|apply get_info_run; exact Hy]. apply set_info_run. by rewrite Hy. }
  rewrite (bind_step _ _ _ _ _ Hct).
  assert (P1 : proc_inv s1 ch).
  { apply (inv_outer s ch (alter g p (info s))); [|done]. intros q. rewrite lookup_alter_at. case_decide; [|done]. by destruct (info s !! q). }
  assert (N1 : newborn s1 p (g y)) by (destruct Hnb; split; try done; cbn; by rewrite lookup_alter_eq, Hy).
  destruct (publish_run s1 ch p (g y) f P1 N1 Hlen) as (n & ns & l & i' & k' & Hpub & (Hn1 & Hn2 & Hfree) & P4 & Hrun4 & Hpid & Hout & Hdom & Hcore & Hrest & Hsem).
  eexists n, _. split; [exact Hpub|]. split; try done.
  - revert Hm. apply mem_same; try done; [|apply Hrest]. intros q. cbn. specialize (Hout q). cbn in Hout. rewrite lookup_alter_at in Hout.
    apply (f_equal (fmap (fun o => o.1.1.1.1.1.1.1))) in Hout. rewrite <- !option_fmap_compose in Hout. etransitivity; [exact Hout|].
    case_decide; [|done]. by destruct (info s !! q).
  - lia.
  - intros Hu. assert (used s1 (proc_list s1) n) as Hu1 by done. apply Hfree in Hu1. lia.
  - pose proof (Hout p) as E. cbn in E. rewrite lookup_alter_eq, Hy in E. apply fmap_Some in E as (z & Hz & E). exists z. unfold outer in E. cbn in E. split_and!; try done; congruence.
Qed.

(** The process [p] is given up, with its stack. *)
Record abandoned (s s' : state) (p : Z) (y : pinfo) : Prop := {
  d_info : info s' = delete p (info s);
  d_groups : thread_groups s' = base.filter (fun r => r <> [p]) (thread_groups s);
  d_list : proc_list s' = proc_list s;
  d_init : initproc s' = initproc s;
  d_kern : kern s' = without p (kern s);
  d_objs : objs (ext s') = objs (ext s) ∖ {[p]};
  d_stacks : stacks (ext s') = stacks (ext s) ∖ {[kstack y]}
}.

Lemma abandon_run (s : state) ch f p y stack t r :
  proc_inv s ch -> mem_inv s -> info s !! p = Some y -> p ∉ proc_list s -> p <> idleproc (kern s) -> r <> 0 ->
  exists s', fork_end sc forkret f p stack t r s = Ret (- E_NO_MEM, s') /\ abandoned s s' p y /\ proc_inv s' ch /\ mem_inv s'.
Proof using Hsp.
  intros Hinv Hm Hy Hpl Hpi Hr. unfold fork_end. rewrite (proj2 (Z.eqb_neq r 0)) by done. cbn [negb].
  destruct (put_kstack_run s p y Hy) as (x1 & Hr1 & O1 & S1); [by apply (m_stacks _ Hm p)|]. rewrite (bind_step _ _ _ _ _ Hr1).
  destruct (free_proc_run (put_ext x1 s) p) as (x2 & Hr2 & S2 & O2); [cbn; rewrite O1; apply (m_objs _ Hm); by rewrite Hy|].
  rewrite (bind_step _ _ _ _ _ Hr2). cbn [ext put_ext] in S2, O2. eexists. split; [reflexivity|].
  assert (A : abandoned s (put_ext x2 (put_kern (without p (kern (put_ext x1 s))) (upd_groups (base.filter (fun r => r <> [p])) (upd_info (delete p) (put_ext x1 s))))) p y)
    by (split; cbn; try done; congruence).
  split; [done|]. split.
  - apply inv_ext, discard_inv; try done; [by apply inv_ext].
  - destruct A. by apply (mem_gone s _ p y).
Qed.

(** ** The whole call *)

(** What [do_fork] of a thread that shares everything comes to. *)
Inductive forked (s : state) (ch : Z -> list Z) (f stack : Z) (t : trapframe) (c : proc) (ci : pinfo) : Z -> state -> Prop :=
| forked_full : MAX_PROCESS <= nr_process s -> forked s ch f stack t c ci (- E_NO_FREE_PROC) s
| forked_no_mem s' : undone s s' ch c -> forked s ch f stack t c ci (- E_NO_MEM) s'
| forked_new s1 s2 s' p n y g : launched s s1 ch c p y ->
    s2 = put_ext (ext s2) (put_kern (with_sem p c (kern s1)) (upd_info (alter g p) s1)) ->
    mm (g y) = mm ci -> fs_struct (g y) = fs_struct ci -> kstack (g y) = kstack y -> cptr (g y) = cptr y -> links (g y) = links y ->
    objs (ext s2) = objs (ext s1) -> stacks (ext s2) = stacks (ext s1) ->
    (forall h, fs_refs (ext s2) h = fs_refs (ext s) h + (if h =? fs_struct ci then 1 else 0)) ->
    (forall m, mm_refs (ext s2) m = mm_refs (ext s) m + (if its_mm ci m then 1 else 0)) ->
    proc_inv s2 ch -> mem_inv s2 -> newborn s2 p (g y) -> published s2 s' ch f p stack t (g y) n ->
    forked s ch f stack t c ci n s'.

Lemma clone_run (s : state) ch f stack t w c ci :
  set_flag f CLONE_VM = true -> set_flag f CLONE_SEM = true -> set_flag f CLONE_FS = true ->
  proc_inv s ch -> mem_inv s ->
  procs (kern s) !! current (kern s) = Some c -> info s !! current (kern s) = Some ci ->
  (forall q, psem_queue c = Some q -> is_Some (semqs (ipc (kern s)) !! q)) ->
  fs_struct ci <> 0 -> fs_live (ext s) (fs_struct ci) -> (mm ci <> 0 -> mm_live (ext s) (mm ci)) ->
  exists r s', do_fork sc boot_cr3 forkret f stack t w s = Ok r s' /\ forked s ch f stack t c ci r s'.
Proof using Hsp.
  intros Hvm Hsem Hfs Hinv Hm Hc Hci Hq Hf0 Hfl Hml. destruct (start_run s ch c Hinv Hm Hc) as (r & s1 & Hr & St).
  unfold do_fork. erewrite rbind_lift; [|exact Hr]. destruct St as [Hfull|s1 U|s1 p y L]; cbn [fst snd]; [eexists _, _; split; [reflexivity|by constructor]..|].
  rewrite (proj2 (Z.eqb_neq p 0)) by apply L. destruct (l_refs _ _ _ _ _ _ L) as [R1 R2]. destruct (l_live _ _ _ _ _ _ L) as [L1 L2].
  assert (Hcp : current (kern s) <> p) by (intros E; rewrite E, (l_fresh _ _ _ _ _ _ L) in Hci; done).
  assert (Ec : current (kern s1) = current (kern s)) by (by rewrite (l_kern _ _ _ _ _ _ L)).
  destruct (share_run s1 ch f p y (set_time_slice (time_slice c - time_slice c ÷ 2) c) ci w) as (x2 & g & Hr2 & P2 & N2 & (G1 & G2 & G3 & G4 & G5) & O2 & S2 & F2 & M2); try done; try apply L; try tauto.
  { rewrite Ec, (l_kern _ _ _ _ _ _ L). cbn. by rewrite lookup_insert_eq. }
  { by rewrite Ec, (l_info _ _ _ _ _ _ L), lookup_insert_ne. }
  { intros q. rewrite (l_kern _ _ _ _ _ _ L). apply Hq. }
  { intros H0. by apply L2, Hml. }
  set (s2 := put_ext x2 _) in *. unfold rbind at 1. rewrite Hr2. cbn [rthen].
  assert (Hm2 : mem_inv s2).
  { apply (mem_same s1 s2); try done; [|cbn; unfold with_sem; by destruct (psem_queue _)|by rewrite <- O2|by rewrite <- S2|apply L].
    intros q. cbn. rewrite lookup_alter_at. case_decide; [subst|done]. rewrite (n_info _ _ _ (l_newborn _ _ _ _ _ _ L)). cbn. by rewrite G1. }
  destruct (publish_end_run s2 ch f p (g y) stack t P2 Hm2 N2) as (n & s' & Hr3 & B).
  - cbn. rewrite (l_list _ _ _ _ _ _ L). pose proof (pi_nr _ _ (proj1 Hinv)). pose proof (l_room _ _ _ _ _ _ L). unfold MAX_PID, MAX_PROCESS in *. lia.
  - eexists n, s'. split; [unfold lift; by rewrite Hr3|]. apply (forked_new _ _ _ _ _ _ _ s1 s2 s' p n y g); try done.
    + intros h. cbn. by rewrite F2, R1.
    + intros m. cbn. by rewrite M2, R2.
Qed.
End Clone.
End ProcClone.
