(* ===== verification/ProcSys.v ===== *)
(** * The process system as a whole

    Calls of proc.c as steps of one system, each from the moment a process has the CPU
    to the moment it gives it up or may do so (a fork is its start, its copies and its
    end, between which others run), and the invariant of all runs: the tables stay
    consistent, and a process that sleeps in [do_wait] has a child to wait for, none of
    which is a zombie yet. *)

From stdpp Require Import relations.
From S2P Require Import Prelude Kern Sched SchedInv Wait Sem Event Proc ProcTable ProcInv ProcReap ProcFork ProcClone.
Import Kern Sched SchedInv WaitInv Proc ProcTable ProcInv ProcExit ProcWait ProcReap ProcFork ProcClone.
Open Scope Z_scope.

Module ProcSys.

(** [p] sleeps in [do_wait]. *)
Definition waiting (k : kstate) (p : Z) : Prop :=
  (fun x => (pstate x, wait_state x)) <$> procs k !! p = Some (PROC_SLEEPING, WT_CHILD).

Section System.
Context {X : Type} `{HS : ShareLaws X} {sc : sched_class} {I : kstate -> Prop} {Hsp : SchedPolicy sc I}.
Context (boot_cr3 forkret : Z).
#[local] Abbreviation state := (state (X := X)).
#[local] Abbreviation table_inv := (table_inv (X := X) (I := I)).
#[local] Abbreviation proc_inv := (proc_inv (X := X) (I := I)).

(** What the call that puts [p] to sleep waits for is the argument [W p] of [do_wait]. *)
Definition watching (s : state) (ch : Z -> list Z) (W : Z -> Z) : Prop :=
  forall p, waiting (kern s) p ->
    (exists c, kid s ch p c /\ target s (W p) c) /\
    forall c, kid s ch p c -> target s (W p) c -> ~ zombie (kern s) c.

Record sys_inv (s : state) (ch : Z -> list Z) (W : Z -> Z) : Prop := {
  y_proc : proc_inv s ch;
  y_mem : mem_inv s;
  y_watch : watching s ch W;
  y_init : [initproc s] ∈ thread_groups s
}.

(** What other parts of the kernel do between: they leave the tables alone, put nobody to
    sleep in [do_wait] and make no zombies.  The copies that [do_fork] makes are of this
    kind. *)
Record beside (s s' : state) : Prop := {
  a_quiet : quiet (proc_list s) (kern s) (kern s');
  a_sched : sched_inv I (kern s');
  a_events : events_ok (kern s') (info s);
  a_calm : calm (kern s');
  a_zombies : forall z, zombie (kern s) z -> wqueues (kern s') !! event_wait_queue z = Some [];
  a_same : current (kern s') = current (kern s);
  a_waiting : forall p, waiting (kern s') p -> waiting (kern s) p;
  a_info : forall q, (fun x => (links x, cptr x, kstack x)) <$> info s' !! q = (fun x => (links x, cptr x, kstack x)) <$> info s !! q;
  a_groups : thread_groups s' = thread_groups s;
  a_list : proc_list s' = proc_list s;
  a_hash : hash_list s' = hash_list s;
  a_nr : nr_process s' = nr_process s;
  a_last : last_pid s' = last_pid s;
  a_safe : next_safe s' = next_safe s;
  a_init : initproc s' = initproc s;
  a_objs : objs (ext s) ⊆ objs (ext s');
  a_stacks : stacks (ext s) ⊆ stacks (ext s')
}.

(** ... and the running process goes on. *)
Record aside (s s' : state) : Prop := {
  a_beside : beside s s';
  a_current : current (kern s') = current (kern s) /\ proc_is (kern s') (current (kern s)) PROC_RUNNABLE
}.

(** The resources of the running process can be shared. *)
Record sharable (s : state) (c : proc) (ci : pinfo) : Prop := {
  sh_proc : procs (kern s) !! current (kern s) = Some c;
  sh_info : info s !! current (kern s) = Some ci;
  sh_sem : forall q, psem_queue c = Some q -> is_Some (semqs (ipc (kern s)) !! q);
  sh_fs : fs_struct ci <> 0 /\ fs_live (ext s) (fs_struct ci);
  sh_mm : mm ci <> 0 -> mm_live (ext s) (mm ci)
}.

(** The end of [__do_exit]. *)
Definition last_steps : M state unit :=
  cur <- get_current ;;
  (kcall (update_proc (set_pstate PROC_ZOMBIE) cur) ;; exit_block sc) ;;
  kcall (schedule sc).

(** [do_wait] goes to sleep. *)
Definition nap : M state unit :=
  cur <- get_current ;;
  kcall (update_proc (set_pstate PROC_SLEEPING) cur) ;;
  kcall (update_proc (set_wait_state WT_CHILD) cur) ;;
  kcall (schedule sc).

Definition note (W : Z -> Z) (p n : Z) : Z -> Z := fun q => if q =? p then n else W q.

(** One step: the running process starts a fork, or comes to its end; it ends, takes a
    zombie, goes to sleep in [do_wait(n)], kills, gives up the CPU, or goes to sleep for
    something else than a child; or something else happens.  The copies of a fork, which
    may sleep, come between its start and its end, whatever the clone flags.  At its end
    the table must have room for a pid: [nr_process] was looked at when it started. *)
Inductive step : state * (Z -> Z) -> state * (Z -> Z) -> Prop :=
| step_fork_start s W r s' : fork_start boot_cr3 s = Ret (r, s') -> step (s, W) (s', W)
| step_fork_end s W f p y stack t r n s' :
    newborn s p y -> (set_flag f CLONE_THREAD = true -> current (kern s) <> initproc s) ->
    Z.of_nat (length (proc_list s)) < MAX_PID - 1 ->
    fork_end sc forkret f p stack t r s = Ret (n, s') -> step (s, W) (s', W)
| step_exit s W s' :
    current (kern s) <> idleproc (kern s) -> current (kern s) <> initproc s ->
    (forall q l u, wqueues (kern s) !! q = Some l -> u ∈ l -> ~ owner (kern s) u (current (kern s))) ->
    last_steps s = Ret (tt, s') -> step (s, W) (s', W)
| step_reap s W n z b code s' :
    wait_search n s = Ret ((z, b), s) -> z <> 0 -> wait_reap z s = Ret (code, s') -> step (s, W) (s', W)
| step_wait s W n s' :
    current (kern s) <> idleproc (kern s) ->
    wait_search n s = Ret ((0, true), s) -> nap s = Ret (tt, s') -> step (s, W) (s', note W (current (kern s)) n)
| step_kill s W n e r s' : do_kill sc n e s = Ret (r, s') -> step (s, W) (s', W)
| step_yield s W s' : kcall (schedule sc) s = Ret (tt, s') -> step (s, W) (s', W)
| step_block s W s1 s' : beside s s1 -> kcall (schedule sc) s1 = Ret (tt, s') -> step (s, W) (s', W)
| step_aside s W s' : aside s s' -> step (s, W) (s', W).

(** ** The CPU is given up *)

Lemma switched_state n k k' p : switched n k k' ->
  (fun x => (pstate x, wait_state x, pid x)) <$> procs k' !! p = (fun x => (pstate x, wait_state x, pid x)) <$> procs k !! p.
Proof using Type.
  intros Sw. apply (switched_fmap (fun c => (c.1.1.1.1.1, c.1.1.2, c.1.1.1.1.2)) n); [by intros [[[[[] ?] ?] ?] ?]|done].
Qed.
Lemma switched_is n k k' p st : switched n k k' -> proc_is k' p st <-> proc_is k p st.
Proof using Type.
  intros Sw. pose proof (switched_state n k k' p Sw) as E. unfold proc_is. destruct (procs k !! p), (procs k' !! p); cbn in *; try done.
  injection E as -> _ _. done.
Qed.

Lemma switched_waiting n k k' p : switched n k k' -> waiting k' p <-> waiting k p.
Proof using Type.
  intros Sw. pose proof (switched_state n k k' p Sw) as E. unfold waiting. destruct (procs k !! p), (procs k' !! p); cbn in *; try done.
  injection E as -> -> _. done.
Qed.

Lemma yield_run (s : state) ch : table_inv s ch ->
  exists k', kcall (schedule sc) s = Ret (tt, put_kern k' s) /\ proc_inv (put_kern k' s) ch /\ switched (current k') (kern s) k'.
Proof using Hsp.
  intros P. destruct (schedule_ok (kern s) (pi_sched _ _ P)) as (k' & Hr & Hi & Sw & Hc & _). exists k'. split; [by apply kcall_run|]. split; [|done].
  pose proof (sw_rest _ _ _ Sw) as R. pose proof (fun p st => switched_is _ _ _ p st Sw) as Hst.
  assert (Hd : forall p, is_Some (procs k' !! p) <-> is_Some (procs (kern s) !! p)).
  { intros p. rewrite <- (fmap_is_Some core_of), (sw_procs _ _ _ Sw), fmap_is_Some. done. }
  assert (Hcr : proc_is (kern s) (current k') PROC_RUNNABLE).
  { destruct (decide (current k' = idleproc (kern s))) as [->|E]; [apply (pi_idle _ _ P)|by apply Hc]. }
  split; [|split].
  - apply inv_quiet; [done|split| | |..]; cbn.
    + apply R.
    + done.
    + intros p. pose proof (switched_state _ _ _ p Sw) as E. destruct (procs (kern s) !! p), (procs k' !! p); cbn in *; try done. by injection E as _ _ ->.
    + intros p. apply Hst.
    + intros ?. by apply Hst.
    + intros p _. apply Hst.
    + done.
    + destruct (pi_events _ _ P) as [A B C]. split.
      * apply (waits_ok_same (kern s)); [done|apply R|apply R|]. intros p. by rewrite Hd.
      * intros q l u p. rewrite (rs_wqueues _ _ R). unfold owner. rewrite (rs_waits _ _ R). intros Hq Hu Ho. destruct (B q l u p Hq Hu Ho) as [D E].
        split; [|by rewrite Hst]. pose proof D as (x & Hx & _). apply alive_zombie; [apply Hd; by rewrite Hx|]. unfold zombie. rewrite Hst.
        apply alive_zombie in D; [done|by rewrite Hx].
      * intros p Hp. rewrite (rs_wqueues _ _ R). by apply C.
    + intros p x Hx Hs. pose proof (switched_state _ _ _ p Sw) as E. rewrite Hx in E. destruct (procs (kern s) !! p) as [y|] eqn:Hy; [|done]. cbn in E.
      injection E as E1 E2 _. rewrite E2. apply (pi_calm _ _ P p y Hy). congruence.
    + intros z _. by rewrite (rs_wqueues _ _ R).
  - cbn. rewrite (rs_idle _ _ R). cbn. destruct (decide (current k' = idleproc (kern s))) as [|E]; [by right|]. left.
    destruct (decide (current k' ∈ proc_list s)) as [|Hn]; [done|]. exfalso.
    assert (Hk : is_Some (info s !! current k')) by (apply (pi_dom _ _ P); by eapply proc_is_known).
    destruct (pi_private _ _ P _ Hk Hn E) as (_ & _ & Hu). unfold proc_is in *. congruence.
  - by apply Hst.
Qed.

(** ** Nothing lost *)

(** Sleepers stay satisfied as long as their children and the zombies among them do not
    change. *)
Lemma watch_same (s s' : state) ch W :
  (forall p, waiting (kern s') p -> waiting (kern s) p) -> thread_groups s' = thread_groups s ->
  (forall c n, pid_is s' c n <-> pid_is s c n) -> (forall c, zombie (kern s') c -> zombie (kern s) c) ->
  watching s ch W -> watching s' ch W.
Proof using Type.
  intros Hw Hg Hp Hz Hwat p Hwp. destruct (Hwat p (Hw p Hwp)) as [(c & Hk & Ht) Hn].
  assert (Hkid : forall c, kid s' ch p c <-> kid s ch p c) by (intros; unfold kid; by rewrite Hg).
  assert (Htar : forall c, target s' (W p) c <-> target s (W p) c) by (intros; unfold target; by rewrite Hp).
  split; [exists c; by rewrite Hkid, Htar|]. intros d. rewrite Hkid, Htar. intros H1 H2 H3. by apply (Hn d H1 H2), Hz.
Qed.

Lemma yield_watch (s : state) ch W k' : switched (current k') (kern s) k' -> watching s ch W -> watching (put_kern k' s) ch W.
Proof using Type.
  intros Sw. apply watch_same; cbn; [intros p; by apply (switched_waiting _ _ _ p Sw)|done| |intros c; by apply (switched_is _ _ _ c _ Sw)].
  intros c n. unfold pid_is. cbn. pose proof (switched_state _ _ _ c Sw) as E. destruct (procs (kern s) !! c), (procs k' !! c); cbn in *; try done. by injection E as _ _ ->.
Qed.
Lemma kwakes_waiting k k' p : kwakes k k' -> waiting k' p -> waiting k p.
Proof using Type.
  intros Wk. unfold waiting. destruct (procs k !! p) as [x|] eqn:Hx; [|by rewrite (kw_none _ _ Wk p Hx)].
  destruct (kw_step _ _ Wk p x Hx) as (x' & -> & _ & _ & _ & [[E1 E2]|(_ & E & _)]); cbn; congruence.
Qed.

Lemma waiting_some k p : waiting k p -> exists x, procs k !! p = Some x /\ pstate x = PROC_SLEEPING /\ wait_state x = WT_CHILD.
Proof using Type. unfold waiting. destruct (procs k !! p) as [x|]; [|done]. cbn. intros [= ? ?]. by exists x. Qed.

Lemma waiting_not k p st : waiting k p -> st <> PROC_SLEEPING -> ~ proc_is k p st.
Proof using Type. intros (x & Hx & E & _)%waiting_some Hst. unfold proc_is. rewrite Hx. cbn. congruence. Qed.

(** The children of a group after one of its threads, or another process, has ended. *)
Lemma heirs_kid (s : state) ch cur par k' i' gs p c :
  table_inv s ch -> exited (I := I) s ch cur par k' i' gs -> p <> cur ->
  let s1 := put_kern k' (upd_info (fun _ => i') (upd_groups (fun _ => gs) s)) in
  (kid s ch p c -> kid s1 (heirs ch cur par) p c) /\
  (kid s1 (heirs ch cur par) p c -> kid s ch p c \/ (c ∈ ch cur /\ par = initproc s /\ exists g, g ∈ thread_groups s /\ p ∈ g /\ par ∈ g)).
Proof using Type.
  intros P E Hp s1. destruct (x_par _ _ _ _ _ _ _ E) as (Hpc & _). pose proof (pi_groups _ _ P) as G.
  pose proof (x_mates _ _ _ _ _ _ _ E) as Hm. pose proof (x_heir _ _ _ _ _ _ _ E) as Hh. split.
  - intros (r & t & Hr & Hpr & Htr & Hc). destruct (decide (t = cur)) as [->|Ht].
    + destruct Hh as [[_ Hone]|(r0 & Hr0 & Hcr & Hpar)].
      * exfalso. apply Hp. rewrite (g_uniq _ _ G r [cur] cur Hr Hone Htr ltac:(left)) in Hpr. by apply list_elem_of_singleton in Hpr.
      * rewrite (g_uniq _ _ G r r0 cur Hr Hr0 Htr Hcr) in Hpr. destruct (proj2 (Hm p par Hp Hpc)) as (g & Hg & H1 & H2); [by exists r0|].
        exists g, par. split_and!; try done. rewrite heirs_par. apply elem_of_app. left. by apply elem_rev.
    + destruct (proj2 (Hm p t Hp Ht)) as (g & Hg & H1 & H2); [by exists r|]. exists g, t. split_and!; try done.
      destruct (decide (t = par)) as [->|Htp]; [rewrite heirs_par; apply elem_of_app; by right|by rewrite heirs_other].
  - intros (g & t & Hg & Hpg & Htg & Hc). destruct (decide (t = cur)) as [->|Ht]; [rewrite heirs_cur in Hc by done; by apply not_elem_of_nil in Hc|].
    destruct (proj1 (Hm p t Hp Ht)) as (r & Hr & H1 & H2); [by exists g|]. destruct (decide (t = par)) as [->|Htp].
    + rewrite heirs_par in Hc. apply elem_of_app in Hc as [Hc|Hc]; [rewrite elem_rev in Hc|left; by exists r, par].
      destruct Hh as [[Hi _]|(r0 & Hr0 & Hcr & Hpar)]; [right; split_and!; try done; by exists r|left].
      exists r, cur. split_and!; try done. by rewrite (g_uniq _ _ G r r0 par Hr Hr0 H2 Hpar).
    + rewrite heirs_other in Hc by done. left. by exists r, t.
Qed.

Lemma exit_watch (s : state) ch W cur par k' i' gs :
  cur = current (kern s) -> proc_inv s ch -> watching s ch W -> [initproc s] ∈ thread_groups s -> exited (I := I) s ch cur par k' i' gs ->
  watching (put_kern k' (upd_info (fun _ => i') (upd_groups (fun _ => gs) s))) (heirs ch cur par) W.
Proof using Type.
  intros Ec (P & _ & Hrun) Hwat Hone E p Hwp. pose proof (x_wakes _ _ _ _ _ _ _ E) as Wk. rewrite <- Ec in Hrun. cbn [kern put_kern] in *.
  pose proof (kwakes_waiting _ _ _ Wk Hwp) as Hwd. assert (Hck : is_Some (procs (kern s) !! cur)) by (by eapply proc_is_known).
  assert (Hpc : p <> cur).
  { intros ->. apply (waiting_not _ _ PROC_ZOMBIE Hwd); [done|]. apply dying_zombie; [done|by left]. }
  assert (Hw : waiting (kern s) p) by (unfold waiting, dying in *; cbn in Hwd; by rewrite lookup_alter_ne in Hwd).
  destruct (waiting_some _ _ Hwd) as (x & Hx & _ & Ex). destruct (Hwat p Hw) as [(c & Hk & Ht) Hn].
  assert (Htar : forall c, target (put_kern k' (upd_info (fun _ => i') (upd_groups (fun _ => gs) s))) (W p) c <-> target s (W p) c).
  { intros d. unfold target, pid_is. cbn. rewrite (kwakes_pid _ _ _ Wk). cbn. rewrite lookup_alter_at. case_decide; [|done]. by destruct (procs (kern s) !! d). }
  split.
  - exists c. rewrite Htar. split; [|done]. by apply (heirs_kid s ch cur par k' i' gs).
  - intros d Hd. rewrite Htar. intros Htd Hz. apply (kwakes_zombie _ _ _ Wk) in Hz as Hzd. apply (waiting_not _ _ PROC_RUNNABLE Hwp); [done|].
    destruct (proj2 (heirs_kid s ch cur par k' i' gs p d P E Hpc) Hd) as [Hkd|(Hdc & Hpar & g & Hg & Hpg & Hparg)].
    + apply dying_zombie in Hzd as [->|Hzk]; [|by destruct (Hn d Hkd Htd)|done]. destruct Hkd as (r & t & Hr & H1 & H2 & H3).
      by apply (x_woken _ _ _ _ _ _ _ E t r p x).
    + assert (p = par) as ->.
      { rewrite (g_uniq _ _ (pi_groups _ _ P) g [initproc s] par Hg Hone Hparg) in Hpg by (rewrite Hpar; left).
        apply list_elem_of_singleton in Hpg. congruence. }
      apply (x_heir_woken _ _ _ _ _ _ _ E d x); try done. cbn in Hx. by rewrite lookup_alter_ne in Hx.
Qed.
(** The memory of the table when another process runs, and after an exit. *)
Lemma yield_mem (s : state) k' : switched (current k') (kern s) k' -> mem_inv s -> mem_inv (put_kern k' s).
Proof using Type. intros Sw. apply mem_same; try done. apply (sw_rest _ _ _ Sw). Qed.

Lemma exit_mem (s : state) ch cur par k' i' gs : exited (I := I) s ch cur par k' i' gs -> mem_inv s ->
  mem_inv (put_kern k' (upd_info (fun _ => i') (upd_groups (fun _ => gs) s))).
Proof using Type.
  intros E. apply mem_same; try done; [|by apply (kw_idle _ _ (x_wakes _ _ _ _ _ _ _ E))]. intros q. cbn. pose proof (x_outer _ _ _ _ _ _ _ E q) as Ho.
  destruct (i' !! q), (info s !! q); cbn in *; try done. unfold outer in Ho. congruence.
Qed.

(** [__do_exit] ends, the tables are right again and another process runs. *)
Lemma end_run (s : state) ch W : sys_inv s ch W ->
  current (kern s) <> idleproc (kern s) -> current (kern s) <> initproc s ->
  (forall q l u, wqueues (kern s) !! q = Some l -> u ∈ l -> ~ owner (kern s) u (current (kern s))) ->
  exists s' par k' i' gs, last_steps s = Ret (tt, s') /\ sys_inv s' (heirs ch (current (kern s)) par) W /\
    exited (I := I) s ch (current (kern s)) par k' i' gs /\ info s' = i' /\ thread_groups s' = gs /\ proc_list s' = proc_list s /\ ext s' = ext s /\
    (forall p st, proc_is (kern s') p st <-> proc_is k' p st).
Proof using Hsp.
  intros [Hp Hm Hwat Hone] Hid Hin Hown. destruct (exit_run s ch Hp Hid Hin Hown) as (par & k' & i' & gs & Hr & E).
  pose proof (exit_inv s ch _ par k' i' gs eq_refl Hp Hid Hin E) as P1.
  pose proof (exit_watch s ch W _ par k' i' gs eq_refl Hp Hwat Hone E) as W1.
  destruct (yield_run _ _ P1) as (k2 & Hr2 & P2 & Sw). eexists _, par, k', i', gs. split.
  { unfold last_steps. rewrite (bind_step get_current _ s (current (kern s)) s) by reflexivity. rewrite (bind_step _ _ _ _ _ Hr). exact Hr2. }
  split; [|split_and!; try done; intros p st; by apply (switched_is _ _ _ p st Sw)]. split; [done| |by apply yield_watch|].
  - by apply yield_mem, (exit_mem _ ch (current (kern s)) par).
  - cbn. apply (x_groups _ _ _ _ _ _ _ E); [|done]. congruence.
Qed.

(** The running process falls asleep. *)
Definition asleep (cur : Z) (k : kstate) : kstate := upd_procs (alter (fun x => set_wait_state WT_CHILD (set_pstate PROC_SLEEPING x)) cur) k.

Lemma napping_inv (s : state) ch : proc_inv s ch -> current (kern s) <> idleproc (kern s) ->
  table_inv (put_kern (asleep (current (kern s)) (kern s)) s) ch.
Proof using Hsp.
  intros (P & _ & Hrun) Hid. set (cur := current (kern s)) in *. set (k' := asleep cur (kern s)).
  assert (Hst : forall p st, p <> cur -> proc_is k' p st <-> proc_is (kern s) p st) by (intros p st Hp; unfold k', asleep; rewrite proc_is_alter; by case_decide).
  assert (Hcur : forall st, proc_is k' cur st -> st = PROC_SLEEPING).
  { intros st. unfold k', asleep. rewrite proc_is_alter, decide_True by done. intros (x & _ & <-). done. }
  assert (Hd : forall p, is_Some (procs k' !! p) <-> is_Some (procs (kern s) !! p)) by (intros p; apply known_alter).
  assert (Hz : forall p, zombie k' p <-> zombie (kern s) p).
  { intros p. destruct (decide (p = cur)) as [->|Hp]; [|by apply Hst]. split; [by intros ?%Hcur|]. unfold zombie, proc_is in *. congruence. }
  assert (Hp2 : forall {A} (f : proc -> A) q, (forall x, f (set_wait_state WT_CHILD (set_pstate PROC_SLEEPING x)) = f x) -> f <$> procs k' !! q = f <$> procs (kern s) !! q).
  { intros A f q Hf. unfold k', asleep. cbn. rewrite lookup_alter_at. case_decide; [|done]. destruct (procs (kern s) !! q); [|done]. cbn. by rewrite Hf. }
  apply inv_quiet; [done|split| | |..].
  - done.
  - done.
  - intros p. by apply Hp2.
  - done.
  - intros _. apply Hst; [by symmetry|]. apply (pi_idle _ _ P).
  - intros p _ Hu. apply Hst; [|done]. intros ->. unfold proc_is in *. congruence.
  - destruct (pi_sched _ _ P) as [A B C D E]. split; [|by apply Hd|by apply Hd| |].
    + apply (sp_stable (kern s)); [|done]. split; try done. intros q. by apply Hp2.
    + intros p Hq. destruct (D p Hq) as (F1 & F2 & F3). split_and!; try done. by apply Hst.
    + intros p Hp Hc Hi. apply E; try done. by apply Hst in Hp.
  - destruct (pi_events _ _ P) as [A B C]. split; [apply (waits_ok_same (kern s)); try done; intros p; by rewrite Hd| |done].
    intros q l u p Hq Hu Ho. destruct (B q l u p Hq Hu Ho) as [H1 H2]. pose proof H1 as (x & Hx & _). split.
    + apply alive_zombie; [apply Hd; by rewrite Hx|]. rewrite Hz. apply alive_zombie in H1; [done|by rewrite Hx].
    + intros Hu'. destruct (decide (p = cur)) as [->|Hp]; [by apply Hcur in Hu'|]. by apply Hst in Hu'.
  - intros p x. unfold k', asleep. cbn. rewrite lookup_alter_at. case_decide; [|apply (pi_calm _ _ P)]. by intros (y & _ & ->)%fmap_Some.
  - done.
Qed.

Lemma nap_run (s : state) ch W n : sys_inv s ch W -> current (kern s) <> idleproc (kern s) ->
  wait_search n s = Ret ((0, true), s) ->
  exists s', nap s = Ret (tt, s') /\ sys_inv s' ch (note W (current (kern s)) n) /\ waiting (kern s') (current (kern s)) /\
    info s' = info s /\ proc_list s' = proc_list s /\ ext s' = ext s.
Proof using Hsp.
  intros [Hp Hm Hwat Hone] Hid Hs. pose proof Hp as (P & _ & Hrun). pose proof (napping_inv s ch Hp Hid) as P1. set (cur := current (kern s)) in *.
  assert (Hck : is_Some (procs (kern s) !! cur)) by (by eapply proc_is_known).
  destruct (search_run s ch n P) as (z & b & Hr & Hf). rewrite Hs in Hr. injection Hr as <- <-. destruct Hf as [(? & _)|(_ & Hnone & Hex)]; [done|].
  destruct (yield_run _ _ P1) as (k2 & Hr2 & P2 & Sw). exists (put_kern k2 (put_kern (asleep cur (kern s)) s)).
  assert (Hwc : waiting (asleep cur (kern s)) cur).
  { unfold waiting, asleep. cbn. rewrite lookup_alter_eq. destruct Hck as [x ->]. done. }
  split; [|split; [|split_and!; try done; by apply (switched_waiting _ _ _ _ Sw)]].
  - unfold nap. rewrite (bind_step get_current _ s cur s) by reflexivity. rewrite (bind_step _ _ _ _ _ (kcall_run _ s tt _ (update_proc_ok _ _ _ Hck))).
    erewrite bind_step; [|apply kcall_run, update_proc_ok; cbn; by rewrite lookup_alter_is_Some].
    rewrite <- Hr2. f_equal. unfold put_kern, asleep, upd_procs. cbn. do 2 f_equal. apply alter_alter_eq.
  - split; [done| |apply yield_watch; [done|]|done]; [by apply yield_mem; [|revert Hm; apply mem_same]|].
    intros p Hwp. assert (Hz : forall c, zombie (asleep cur (kern s)) c -> zombie (kern s) c).
    { intros c. unfold zombie, asleep. rewrite proc_is_alter. case_decide; [|done]. by intros (x & _ & ?). }
    assert (Htar : forall m c, target (put_kern (asleep cur (kern s)) s) m c <-> target s m c).
    { intros m c. unfold target, pid_is. cbn. rewrite lookup_alter_at. case_decide; [|done]. by destruct (procs (kern s) !! c). }
    unfold note. destruct (Z.eqb_spec p cur) as [->|Hpc].
    + destruct (proj1 Hex eq_refl) as (c & Hc1 & Hc2). split; [exists c; by rewrite Htar|]. intros d Hd1. rewrite Htar. intros Hd2 Hd3%Hz. by apply (Hnone d).
    + assert (Hw : waiting (kern s) p) by (unfold waiting, asleep in *; cbn in Hwp; by rewrite lookup_alter_ne in Hwp).
      destruct (Hwat p Hw) as [(c & Hc1 & Hc2) Hn]. split; [exists c; by rewrite Htar|]. intros d Hd1. rewrite Htar. intros Hd2 Hd3%Hz. by apply (Hn d).
Qed.

(** ** Taking a zombie *)

Lemma reap_step (s : state) ch W n z b : sys_inv s ch W -> wait_search n s = Ret ((z, b), s) -> z <> 0 ->
  exists x par s', info s !! z = Some x /\ wait_reap z s = Ret (exit_code x, s') /\
    sys_inv s' (set_ch ch par (remove z (ch par))) W /\ zombie (kern s) z /\ kid s ch (current (kern s)) z /\ target s n z /\ z ∈ ch par /\
    (forall p, is_Some (info s' !! p) <-> is_Some (info s !! p) /\ p <> z) /\ proc_list s' = remove z (proc_list s) /\
    objs (ext s') = objs (ext s) ∖ {[z]} /\ stacks (ext s') = stacks (ext s) ∖ {[kstack x]}.
Proof using Hsp.
  intros [Hp Hm Hwat Hone] Hs Hz0. pose proof Hp as (P & _). destruct (search_run s ch n P) as (z' & b' & Hr & Hf). rewrite Hs in Hr. injection Hr as <- <-.
  destruct Hf as [(_ & _ & [Hk Ht] & Hz)|(? & _)]; [|done]. pose proof Hk as (r & par & Hr & Hcr & Hpr & Hzp).
  destruct (pi_zombie _ _ P z Hz) as (Hzl & _ & Hzg & _). destruct (list_known _ _ _ P Hzl) as [x Hx].
  destruct (reap_run s ch par z x Hp Hm Hz Hzp Hx) as (i' & x' & Hrun & P1 & M1 & Ho & Hst & Hi & _).
  exists x, par, (put_ext x' (reaped z (without z (kern s)) i' s)). split; [done|]. split; [done|]. split; [|split_and!; try done].
  assert (Hin : initproc s <> z) by (intros E; apply (pi_init _ _ P); by rewrite E).
  split; [done|done| |cbn; apply list_elem_of_filter; split; [congruence|done]].
  intros p Hwp. assert (Hpz : p <> z) by (intros ->; unfold waiting in Hwp; cbn in Hwp; by rewrite lookup_delete_eq in Hwp).
  assert (Hw : waiting (kern s) p) by (unfold waiting in *; cbn in Hwp; by rewrite lookup_delete_ne in Hwp).
  destruct (Hwat p Hw) as [(c & Hc1 & Hc2) Hn]. set (s1 := put_ext x' (reaped z (without z (kern s)) i' s)). fold s1 in Hwp.
  assert (Htar : forall m c, c <> z -> target s1 m c <-> target s m c).
  { intros m d Hd. unfold target, pid_is. cbn. by rewrite lookup_delete_ne. }
  assert (Hrem : forall t d, d ∈ set_ch ch par (remove z (ch par)) t <-> d ∈ ch t /\ d <> z).
  { intros t d. destruct (decide (t = par)) as [->|Htp]; [rewrite set_ch_eq, elem_of_remove; tauto|]. rewrite set_ch_ne by done.
    split; [|by intros [? _]]. intros Hd. split; [done|]. intros ->. apply Htp. by apply (child_unique _ _ _ t par z (pi_fam _ _ P)). }
  assert (Hkid : forall d, kid s1 (set_ch ch par (remove z (ch par))) p d <-> kid s ch p d /\ d <> z).
  { intros d. unfold kid. setoid_rewrite Hrem. cbn. setoid_rewrite list_elem_of_filter. split.
    - intros (g & t & [_ Hg] & H1 & H2 & H3 & H4). split; [by exists g, t|done].
    - intros [(g & t & Hg & H1 & H2 & H3) H4]. exists g, t. split_and!; try done. intros ->. by apply list_elem_of_singleton in H1. }
  split.
  - assert (c <> z) by (intros ->; by apply (Hn z)). exists c. by rewrite Hkid, Htar.
  - intros d [Hd1 Hd2]%Hkid. rewrite Htar by done. intros Hd3 Hd4. apply (Hn d Hd1 Hd3). unfold zombie, proc_is in *. cbn in Hd4. by rewrite lookup_delete_ne in Hd4.
Qed.
(** ** Other steps *)

Lemma beside_step (s s' : state) ch W : beside s s' -> sys_inv s ch W ->
  table_inv s' ch /\ mem_inv s' /\ watching s' ch W /\ [initproc s'] ∈ thread_groups s'.
Proof using Type.
  intros [] [Hp Hm Hwat Hone]. pose proof Hp as (P & Hcur & Hrun).
  assert (Hid : idleproc (kern s') = idleproc (kern s)) by apply (q_idle _ _ _ a_quiet0).
  assert (Hpr : table_inv (put_kern (kern s') s) ch) by (apply inv_quiet; try done; intros z Hz _; by apply a_zombies0).
  assert (Hlk : forall q, (fun x => (links x, cptr x)) <$> info s' !! q = (fun x => (links x, cptr x)) <$> info s !! q).
  { intros q. pose proof (a_info0 q) as E. destruct (info s' !! q), (info s !! q); cbn in *; congruence. }
  split_and!.
  - apply (table_outer _ _ (info s')) in Hpr; [|done].
    destruct s as [k i gs pl hl nr lp ns ip ml x], s' as [k' i' gs' pl' hl' nr' lp' ns' ip' ml' x']. cbn in *. subst. destruct Hpr. by split.
  - revert Hm. apply mem_same; try done. intros q. pose proof (a_info0 q) as E. destruct (info s' !! q), (info s !! q); cbn in *; congruence.
  - revert Hwat. apply watch_same; try done; [|intros c; by apply a_quiet0]. intros c n. unfold pid_is. by rewrite (q_pid _ _ _ a_quiet0).
  - by rewrite a_init0, a_groups0.
Qed.

Lemma aside_step (s s' : state) ch W : aside s s' -> sys_inv s ch W -> sys_inv s' ch W.
Proof using Type.
  intros [B [Ec Hr]] Hs. destruct (beside_step s s' ch W B Hs) as (P & Hm & Hw & Hi). split; try done.
  destruct (y_proc _ _ _ Hs) as (_ & Hcur & _). split; [done|]. rewrite Ec, (a_list _ _ B), (q_idle _ _ _ (a_quiet _ _ B)). done.
Qed.

Lemma block_step (s s1 s' : state) ch W : beside s s1 -> sys_inv s ch W -> kcall (schedule sc) s1 = Ret (tt, s') -> sys_inv s' ch W.
Proof using Hsp.
  intros B Hs Hr. destruct (beside_step s s1 ch W B Hs) as (P & Hm & Hw & Hi). destruct (yield_run s1 ch P) as (k' & Hr' & P' & Sw).
  rewrite Hr in Hr'. injection Hr' as ->. split; [done|by apply yield_mem|by apply yield_watch|done].
Qed.

(** ** Forks *)

(** What a sleeper in [do_wait] sees of a process. *)
Lemma core_seen (k k' : kstate) q : core_of <$> procs k' !! q = core_of <$> procs k !! q ->
  (waiting k' q <-> waiting k q) /\ (zombie k' q <-> zombie k q) /\ pid <$> procs k' !! q = pid <$> procs k !! q.
Proof using Type.
  unfold waiting, zombie, proc_is, core_of. destruct (procs k !! q), (procs k' !! q); cbn; try done. intros [= -> -> _ -> _ _]. done.
Qed.

(** A sleeper stays satisfied when its children, their pids and the zombies among them stay. *)
Lemma watch_keep (s s' : state) ch ch' W :
  (forall q, waiting (kern s') q -> waiting (kern s) q /\ (forall c, kid s ch q c -> kid s' ch' q c) /\
    (forall c, kid s' ch' q c -> zombie (kern s') c -> kid s ch q c) /\
    (forall c n, kid s ch q c -> pid_is s' c n <-> pid_is s c n) /\ (forall c, zombie (kern s') c -> zombie (kern s) c)) ->
  watching s ch W -> watching s' ch' W.
Proof using Type.
  intros Hk Hwat q Hq. destruct (Hk q Hq) as (Hw & K1 & K2 & K3 & K4). destruct (Hwat q Hw) as [(c & Hc & Ht) Hn]. split.
  - exists c. split; [by apply K1|]. destruct Ht as [?|Ht]; [by left|right]. by apply K3.
  - intros d Hd Htd Hz. pose proof (K2 d Hd Hz) as Hd'. apply (Hn d Hd'); [|by apply K4]. destruct Htd as [?|Htd]; [by left|right]. by apply K3.
Qed.

Lemma begun_core p t c k q : procs k !! current k = Some c -> q <> p -> core_of <$> procs (begun p t c k) !! q = core_of <$> procs k !! q.
Proof using Type. intros Hc Hq. cbn. rewrite lookup_insert. case_decide as E; [subst; by rewrite Hc|]. by rewrite lookup_insert_ne. Qed.

Lemma undone_step (s s' : state) ch W c : sys_inv s ch W -> procs (kern s) !! current (kern s) = Some c -> undone (I := I) s s' ch c -> sys_inv s' ch W.
Proof using Type.
  intros [Hp Hm Hwat Hone] Hc []. split; try done; [|by rewrite u_init0, u_groups0].
  assert (Hcore : forall q, core_of <$> procs (kern s') !! q = core_of <$> procs (kern s) !! q).
  { intros q. destruct (decide (q = current (kern s))) as [->|Hq]; [|by rewrite u_procs0]. rewrite Hc. by destruct u_slice0 as [-> | ->]. }
  revert Hwat. apply watch_same; try done; intros q.
  - by apply core_seen.
  - intros n. unfold pid_is. by rewrite (proj2 (proj2 (core_seen _ _ q (Hcore q)))).
  - by apply core_seen.
Qed.

(** A process in the making is nobody's concern. *)
Lemma launch_step (s s' : state) ch W c p y : sys_inv s ch W -> procs (kern s) !! current (kern s) = Some c ->
  launched (I := I) s s' ch c p y -> sys_inv s' ch W.
Proof using Type.
  intros [Hp Hm Hwat Hone] Hc L. pose proof Hp as (P & _). split; [apply L|apply L| |rewrite (l_init _ _ _ _ _ _ L), (l_groups _ _ _ _ _ _ L); by right].
  pose proof (l_fresh _ _ _ _ _ _ L) as Hi.
  assert (Hcore : forall q, q <> p -> core_of <$> procs (kern s') !! q = core_of <$> procs (kern s) !! q).
  { intros q Hq. rewrite (l_kern _ _ _ _ _ _ L). by apply begun_core. }
  assert (Hpu : proc_is (kern s') p PROC_UNINIT) by apply (n_state _ _ _ (l_newborn _ _ _ _ _ _ L)).
  assert (Hnot : forall g, g ∈ thread_groups s -> p ∉ g).
  { intros g Hg Hpg. assert (is_Some (info s !! p)) as [? ?] by (apply (g_dom _ _ (pi_groups _ _ P)); by exists g). congruence. }
  revert Hwat. apply watch_keep. intros q Hq. assert (Hqp : q <> p) by (intros ->; by apply (waiting_not _ _ _ Hq) in Hpu).
  assert (Hkid : forall c, kid s' ch q c <-> kid s ch q c).
  { intros d. unfold kid. rewrite (l_groups _ _ _ _ _ _ L). split; [|intros (g & t & ? & ?); exists g, t; split; [by right|done]].
    intros (g & t & [->|Hg]%elem_of_cons & H1 & H2); [by apply list_elem_of_singleton in H1|by exists g, t]. }
  split_and!; [by apply (core_seen _ _ q (Hcore q Hqp))|intros d; by apply Hkid|intros d Hd _; by apply Hkid| |].
  - intros d n (g & t & Hg & _ & _ & Hd). assert (d <> p). { intros ->. destruct (child_parent _ _ _ _ _ (pi_fam _ _ P) Hd) as (? & ? & _). congruence. }
    unfold pid_is. by rewrite (proj2 (proj2 (core_seen _ _ d (Hcore d ltac:(done))))).
  - intros d Hz. destruct (decide (d = p)) as [->|Hd]; [unfold zombie, proc_is in *; congruence|]. by apply (core_seen _ _ d (Hcore d Hd)).
Qed.

Lemma joined_mates (gs : list (list Z)) f cur p q t : q <> p ->
  (exists g, g ∈ joined f cur p gs /\ q ∈ g /\ t ∈ g) -> (exists g, g ∈ gs /\ q ∈ g /\ t ∈ g) \/ t = p.
Proof using Type.
  intros Hq (g & Hg & H1 & H2). destruct (decide (t = p)) as [|Ht]; [by right|]. left. revert Hg. unfold joined. destruct (set_flag f CLONE_THREAD); [|by exists g].
  intros (g0 & -> & [Hne Hg]%list_elem_of_filter)%list_elem_of_fmap. exists g0. split; [done|].
  apply elem_insert_before in H1 as [?|[? _]]; [|done]. apply elem_insert_before in H2 as [?|[? _]]; done.
Qed.

Lemma joined_keep (gs : list (list Z)) f cur p g : g <> [p] -> g ∈ gs -> exists g', g' ∈ joined f cur p gs /\ forall x, x ∈ g -> x ∈ g'.
Proof using Type.
  intros Hne Hg. unfold joined. destruct (set_flag f CLONE_THREAD); [|by exists g].
  exists (insert_before cur p g). split; [|intros x Hx; apply elem_insert_before; by left].
  by apply list_elem_of_fmap_2, list_elem_of_filter.
Qed.

(** A process that was in the making is RUNNABLE. *)
Lemma publish_step (s s' : state) ch W f p stack t y n :
  sys_inv s ch W -> newborn s p y -> (set_flag f CLONE_THREAD = true -> current (kern s) <> initproc s) ->
  published (I := I) s s' ch f p stack t y n -> exists ch', sys_inv s' ch' W.
Proof using Type.
  intros [Hp Hm Hwat Hone] Hnb Hth B. pose proof Hp as (P & Hcur & Hrun). set (cur := current (kern s)) in *. exists (set_ch ch cur (p :: ch cur)).
  destruct (pi_private _ _ P p) as (Hch & Hgp & _); [rewrite (n_info _ _ _ Hnb); by eexists|apply Hnb|apply Hnb|].
  assert (Hno : forall q, p ∉ ch q) by (intros q Hq; apply (n_unlisted _ _ _ Hnb), (pi_list _ _ P); by exists q).
  pose proof (b_others _ _ _ _ _ _ _ _ _ B) as Hcore. pose proof (b_state _ _ _ _ _ _ _ _ _ B) as Hpr. pose proof (b_groups _ _ _ _ _ _ _ _ _ B) as Hg.
  split; [apply B|apply B| |].
  - revert Hwat. apply watch_keep. intros q Hq. assert (Hqp : q <> p) by (intros ->; by apply (waiting_not _ _ _ Hq) in Hpr).
    split_and!; [by apply (core_seen _ _ q (Hcore q Hqp))|..].
    + intros d (g & u & Hgg & H1 & H2 & H3). destruct (joined_keep (thread_groups s) f cur p g) as (g' & Hg' & Hsub); [by intros ->; apply list_elem_of_singleton in H1|done|].
      exists g', u. rewrite Hg. split_and!; [done|by apply Hsub|by apply Hsub|]. destruct (decide (u = cur)) as [->|Huc]; [rewrite set_ch_eq; by right|by rewrite set_ch_ne].
    + intros d (g' & v & Hg' & K1 & K2 & K3) Hz. destruct (decide (d = p)) as [->|Hdp]; [unfold zombie, proc_is in *; congruence|]. rewrite Hg in Hg'.
      assert (Hdv : d ∈ ch v). { destruct (decide (v = cur)) as [->|Hvc]; [rewrite set_ch_eq in K3; by apply elem_of_cons in K3 as [?|?]|by rewrite set_ch_ne in K3]. }
      destruct (joined_mates (thread_groups s) f cur p q v Hqp) as [(g0 & Hg0 & L1 & L2)| ->]; [by exists g'|by exists g0, v|].
      rewrite Hch in Hdv. by apply not_elem_of_nil in Hdv.
    + intros d m (g & u & _ & _ & _ & Hd). assert (Hdp : d <> p) by (intros ->; by apply (Hno u)).
      unfold pid_is. by rewrite (proj2 (proj2 (core_seen _ _ d (Hcore d Hdp)))).
    + intros d Hz. destruct (decide (d = p)) as [->|Hd]; [unfold zombie, proc_is in *; congruence|]. by apply (core_seen _ _ d (Hcore d Hd)).
  - rewrite (b_init _ _ _ _ _ _ _ _ _ B), Hg. unfold joined. fold cur. destruct (set_flag f CLONE_THREAD) eqn:E; [|done].
    replace [initproc s] with (insert_before cur p [initproc s]) by (cbn; rewrite (proj2 (Z.eqb_neq _ _)); [done|intros E2; by apply Hth]).
    apply list_elem_of_fmap_2, list_elem_of_filter. split; [|done]. intros [= E2]. apply (n_unlisted _ _ _ Hnb). rewrite <- E2. apply (pi_init _ _ P).
Qed.

(** A process that was in the making is no more. *)
Lemma abandon_step (s s' : state) ch W p y : sys_inv s ch W -> newborn s p y -> abandoned s s' p y -> proc_inv s' ch -> mem_inv s' -> sys_inv s' ch W.
Proof using Type.
  intros [Hp Hm Hwat Hone] Hnb [] P' M'. pose proof Hp as (P & _).
  assert (Hno : forall q, p ∉ ch q) by (intros q Hq; apply (n_unlisted _ _ _ Hnb), (pi_list _ _ P); by exists q).
  assert (Hlk : forall q, q <> p -> procs (kern s') !! q = procs (kern s) !! q) by (intros q Hq; rewrite d_kern0; cbn; by rewrite lookup_delete_ne).
  assert (Hnone : procs (kern s') !! p = None) by (rewrite d_kern0; cbn; apply lookup_delete_eq).
  split; try done.
  - revert Hwat. apply watch_keep. intros q Hq. assert (Hqp : q <> p) by (intros ->; unfold waiting in Hq; by rewrite Hnone in Hq).
    assert (Hkid : forall c, kid s' ch q c <-> kid s ch q c).
    { intros d. unfold kid. rewrite d_groups0. setoid_rewrite list_elem_of_filter. split; [intros (g & t & [_ ?] & ?); by exists g, t|].
      intros (g & t & Hg & H1 & H2). exists g, t. split; [|done]. split; [|done]. intros ->. by apply list_elem_of_singleton in H1. }
    split_and!; [unfold waiting in *; by rewrite <- (Hlk q Hqp)|intros d; by apply Hkid|intros d Hd _; by apply Hkid| |].
    + intros d n (g & t & _ & _ & _ & Hd). unfold pid_is. rewrite Hlk; [done|]. intros ->. by apply (Hno t).
    + intros d Hz. unfold zombie, proc_is in *. destruct (decide (d = p)) as [->|Hd]; [by rewrite Hnone in Hz|]. by rewrite <- (Hlk d Hd).
  - rewrite d_init0, d_groups0. apply list_elem_of_filter. split; [|done]. intros [= E2]. apply (n_unlisted _ _ _ Hnb). rewrite <- E2. apply (pi_init _ _ P).
Qed.

(** The start and the end of a fork, whatever is copied between. *)
Lemma fork_start_step (s : state) ch W : sys_inv s ch W ->
  exists r s' c, fork_start boot_cr3 s = Ret (r, s') /\ started (I := I) s ch c r s' /\ sys_inv s' ch W.
Proof using Hsp.
  intros Hs. destruct (proj1 (y_proc _ _ _ Hs)) as [[_ [c Hc] _ _ _] _ _ _ _ _ _ _ _ _ _ _ _ _ _ _ _ _].
  destruct (start_run boot_cr3 s ch c (y_proc _ _ _ Hs) (y_mem _ _ _ Hs) Hc) as (r & s' & Hr & St). exists r, s', c. split; [done|]. split; [done|].
  destruct St as [|s' U|s' p y L]; [done|by apply (undone_step s s' ch W c)|by apply (launch_step s s' ch W c p y)].
Qed.

Lemma fork_end_step (s : state) ch W f p y stack t r :
  sys_inv s ch W -> newborn s p y -> (set_flag f CLONE_THREAD = true -> current (kern s) <> initproc s) ->
  Z.of_nat (length (proc_list s)) < MAX_PID - 1 ->
  exists n s' ch', fork_end sc forkret f p stack t r s = Ret (n, s') /\ sys_inv s' ch' W.
Proof using Hsp.
  intros Hs Hnb Hth Hlen. pose proof (y_proc _ _ _ Hs) as Hp. pose proof (y_mem _ _ _ Hs) as Hm. destruct (decide (r = 0)) as [->|Hr].
  - destruct (publish_end_run forkret s ch f p y stack t Hp Hm Hnb Hlen) as (n & s' & Hr & B). exists n, s'.
    destruct (publish_step s s' ch W f p stack t y n Hs Hnb Hth B) as (ch' & Hs'). by exists ch'.
  - destruct (abandon_run forkret s ch f p y stack t r Hp Hm (n_info _ _ _ Hnb) (n_unlisted _ _ _ Hnb) (n_idle _ _ _ Hnb) Hr) as (s' & Hrun & A & P' & M').
    exists (- E_NO_MEM), s', ch. split; [done|]. by apply (abandon_step s s' ch W p y).
Qed.

(** The outcome of [do_kill]. *)
Inductive killed (s : state) (n e : Z) : Z -> state -> Prop :=
| killed_none : (forall p, p ∈ proc_list s -> ~ pid_is s p n) -> killed s n e (- E_INVAL) s
| killed_twice p x : p ∈ proc_list s -> pid_is s p n -> info s !! p = Some x -> set_flag (flags x) PF_EXITING = true -> killed s n e (- E_KILLED) s
| killed_now p x y pr s' : p ∈ proc_list s -> pid_is s p n -> info s !! p = Some x -> set_flag (flags x) PF_EXITING = false ->
    info s' !! p = Some y -> set_flag (flags y) PF_EXITING = true -> exit_code y = e ->
    procs (kern s) !! p = Some pr -> (set_flag (wait_state pr) WT_INTERRUPTED = true -> proc_is (kern s') p PROC_RUNNABLE) -> aside s s' -> killed s n e 0 s'.

Lemma flag_set a : set_flag (Z.lor a PF_EXITING) PF_EXITING = true.
Proof using Type.
  unfold set_flag, PF_EXITING. apply negb_true_iff, Z.eqb_neq. intros E. apply (f_equal (fun z => Z.testbit z 0)) in E.
  rewrite Z.land_spec, Z.lor_spec in E. cbn in E. by rewrite orb_true_r in E.
Qed.

Lemma kill_run (s : state) ch n e : proc_inv s ch -> exists r s', do_kill sc n e s = Ret (r, s') /\ killed s n e r s'.
Proof using Hsp.
  intros (P & Hcur & Hrun). destruct (find_run s ch n P) as (p & Hf & Hp). unfold do_kill. rewrite (bind_step _ _ _ _ _ Hf).
  destruct Hp as [(Hp0 & Hpl & Hpid)|(-> & Hno)]; [|exists (- E_INVAL), s; by split; [|apply killed_none]].
  rewrite (proj2 (Z.eqb_neq p 0)) by done. cbn [negb]. destruct (list_known _ _ _ P Hpl) as [x Hx]. destruct (table_known _ _ P p Hpl) as [pr Hpr].
  unfold __do_kill. erewrite bind_step; [|apply get_info_run; exact Hx]. destruct (set_flag (flags x) PF_EXITING) eqn:Hfl; cbn [negb].
  { exists (- E_KILLED), s. split; [done|]. by apply (killed_twice _ _ _ p x). }
  erewrite bind_step; [|apply set_info_run; by rewrite Hx]. erewrite bind_step; [|apply set_info_run; cbn; rewrite lookup_alter_is_Some; by rewrite Hx].
  erewrite bind_step; [|apply kget_run; cbn; exact Hpr]. set (s1 := upd_info (alter (set_exit_code e) p) (upd_info (alter (set_pflags (Z.lor (flags x) PF_EXITING)) p) s)).
  assert (Hready : ready (I := I) (kern s1) (info s)) by (split_and!; apply P).
  destruct (wake_if_run (sc := sc) (set_flag (wait_state pr) WT_INTERRUPTED) s1 (info s) p Hready) as (k' & Hr & Hrd & Rs & Wk & Hwake).
  { intros Hw. apply (waiting_grown _ _ pr); [apply P|done|]. intros E. rewrite E in Hw. done. }
  rewrite (bind_step _ _ _ _ _ Hr). exists 0, (put_kern k' s1). split; [done|].
  apply (killed_now _ _ _ p x (set_exit_code e (set_pflags (Z.lor (flags x) PF_EXITING) x)) pr); try done.
  - cbn. by rewrite !lookup_alter_eq, Hx.
  - apply flag_set.
  - destruct Hrd as (H1 & H2 & H3). assert (Ec : current k' = current (kern s)) by apply Rs. split; [split|split]; cbn; try done.
    + by apply kwakes_quiet.
    + intros z Hz. rewrite (rs_wqueues _ _ Rs). by apply (pi_zombie _ _ P).
    + intros q. by apply kwakes_waiting.
    + intros q. rewrite !lookup_alter_at. case_decide; [subst; by rewrite Hx|done].
    + by apply (kwakes_runnable _ _ _ Wk).
Qed.

(** ** All runs *)

(** The copies of a thread that shares everything are aside. *)
Lemma share_aside (s1 s2 : state) ch p c y g x2 :
  proc_inv s1 ch -> newborn s1 p y -> s2 = put_ext x2 (put_kern (with_sem p c (kern s1)) (upd_info (alter g p) s1)) -> proc_inv s2 ch -> newborn s2 p (g y) ->
  cptr (g y) = cptr y -> kstack (g y) = kstack y -> links (g y) = links y -> objs x2 = objs (ext s1) -> stacks x2 = stacks (ext s1) -> aside s1 s2.
Proof using Type.
  intros P1 N1 -> P2 N2 E1 E2 E3 O S. assert (Hseen : forall q, (fun x => (pstate x, wait_state x, pid x)) <$> procs (with_sem p c (kern s1)) !! q =
    (fun x => (pstate x, wait_state x, pid x)) <$> procs (kern s1) !! q).
  { intros q. unfold with_sem. destruct (psem_queue c); [|done]. cbn. rewrite lookup_alter_at. case_decide; [|done]. by destruct (procs (kern s1) !! q). }
  assert (Hst : forall q st, proc_is (with_sem p c (kern s1)) q st <-> proc_is (kern s1) q st).
  { intros q st. unfold proc_is. specialize (Hseen q). destruct (procs (with_sem p c (kern s1)) !! q), (procs (kern s1) !! q); cbn in *; try done. by injection Hseen as -> _ _. }
  assert (Hk : current (with_sem p c (kern s1)) = current (kern s1) /\ idleproc (with_sem p c (kern s1)) = idleproc (kern s1) /\
    wqueues (with_sem p c (kern s1)) = wqueues (kern s1)) by (unfold with_sem; by destruct (psem_queue c)).
  destruct Hk as (Ek1 & Ek2 & Ek3). destruct P2 as (T2 & _ & Hr2).
  assert (Hil : forall q, (fun x => (links x, cptr x, kstack x)) <$> alter g p (info s1) !! q = (fun x => (links x, cptr x, kstack x)) <$> info s1 !! q).
  { intros q. rewrite lookup_alter_at. case_decide; [subst|done]. rewrite (n_info _ _ _ N1). cbn. by rewrite E1, E2, E3. }
  split; [split|split]; cbn; try done.
  - split; try done; [|intros q|intros q; apply Hst|by intros ?%Hst|intros q _; by apply Hst].
    + intros q. specialize (Hseen q). destruct (procs (with_sem p c (kern s1)) !! q), (procs (kern s1) !! q); cbn in *; try done; (split; intros [? ?]; done).
    + specialize (Hseen q). destruct (procs (with_sem p c (kern s1)) !! q), (procs (kern s1) !! q); cbn in *; congruence.
  - apply (pi_sched _ _ T2).
  - destruct (pi_events _ _ T2) as [A B C]. split; try done. intros q [z Hz]. apply C. cbn. specialize (Hil q). rewrite Hz in Hil. destruct (alter g p (info s1) !! q); [by eexists|done].
  - apply (pi_calm _ _ T2).
  - intros z Hz. rewrite Ek3. by apply (pi_zombie _ _ (proj1 P1)).
  - intros q. unfold waiting. specialize (Hseen q). destruct (procs (with_sem p c (kern s1)) !! q), (procs (kern s1) !! q); cbn in *; congruence.
  - by rewrite O.
  - by rewrite S.
  - cbn in Hr2. by rewrite Ek1 in Hr2.
Qed.

Lemma fork_run (s : state) ch W f stack t w c ci :
  set_flag f CLONE_VM = true -> set_flag f CLONE_SEM = true -> set_flag f CLONE_FS = true ->
  sys_inv s ch W -> sharable s c ci -> exists r s', do_fork sc boot_cr3 forkret f stack t w s = Ok r s' /\ forked (I := I) s ch f stack t c ci r s'.
Proof using Hsp. intros Hvm Hsem Hfs Hs Hc. apply (clone_run boot_cr3 forkret s ch f stack t w c ci); try done; apply Hs || apply Hc. Qed.

Lemma fork_step (s : state) ch W f stack t c ci r s' :
  sys_inv s ch W -> (set_flag f CLONE_THREAD = true -> current (kern s) <> initproc s) -> procs (kern s) !! current (kern s) = Some c ->
  forked (I := I) s ch f stack t c ci r s' -> exists ch', sys_inv s' ch' W.
Proof using Type.
  intros Hs Hth Hc F. destruct F as [Hfull|s' U|s1 s2 s' p n y g L E G1 G2 G3 G4 G5 O S F1 M1 P2 M2 N2 B]; [by exists ch|exists ch; by apply (undone_step s s' ch W c)|].
  pose proof (launch_step s s1 ch W c p y Hs Hc L) as Hs1.
  assert (Ha : aside s1 s2). { apply (share_aside s1 s2 ch p c y g (ext s2)); try done; apply L || done. }
  pose proof (aside_step s1 s2 ch W Ha Hs1) as Hs2. apply (publish_step s2 s' ch W f p stack t (g y) n); try done.
  intros Hf. rewrite (a_same _ _ (a_beside _ _ Ha)), (a_init _ _ (a_beside _ _ Ha)), (l_init _ _ _ _ _ _ L), (l_kern _ _ _ _ _ _ L). by apply Hth.
Qed.

(** A fork whose copies are aside is a run of three steps. *)
Lemma do_fork_steps (s s1 s2 s' : state) W f stack t w r0 p y r n : p <> 0 ->
  fork_start boot_cr3 s = Ret ((r0, p), s1) -> fork_copy sc f p w s1 = Ok r s2 -> aside s1 s2 -> newborn s2 p y ->
  (set_flag f CLONE_THREAD = true -> current (kern s2) <> initproc s2) -> Z.of_nat (length (proc_list s2)) < MAX_PID - 1 ->
  fork_end sc forkret f p stack t r s2 = Ret (n, s') ->
  do_fork sc boot_cr3 forkret f stack t w s = Ok n s' /\ rtc step (s, W) (s', W).
Proof using Type.
  intros Hp H1 H2 Ha Hnb Hth Hlen H3. split.
  - unfold do_fork. erewrite rbind_lift; [|exact H1]. cbn [fst snd]. rewrite (proj2 (Z.eqb_neq p 0)) by done.
    unfold rbind. rewrite H2. cbn [rthen]. unfold lift. by rewrite H3.
  - eapply rtc_l; [by eapply step_fork_start|]. eapply rtc_l; [by apply step_aside|]. eapply rtc_l; [by eapply step_fork_end|]. apply rtc_refl.
Qed.

Lemma sys_step_inv a b : step a b -> (exists ch, sys_inv a.1 ch a.2) -> exists ch, sys_inv b.1 ch b.2.
Proof using HS Hsp.
  intros Hstep (ch & Hs). destruct Hstep as [s W r s' Hrun|s W f p y stack t r n s' Hnb Hth Hlen Hrun|s W s' Hid Hin Hown Hrun|s W n z b code s' Hse Hz Hrun|s W n s' Hid Hse Hrun|s W n e r s' Hrun|s W s' Hrun|s W s1 s' Hb Hrun|s W s' Ha]; cbn [fst snd] in *.
  - destruct (fork_start_step s ch W Hs) as (r' & s2 & c & Hr & _ & Hs2). rewrite Hrun in Hr. injection Hr as <- <-. by exists ch.
  - destruct (fork_end_step s ch W f p y stack t r Hs Hnb Hth Hlen) as (n' & s2 & ch' & Hr & Hs2). rewrite Hrun in Hr. injection Hr as <- <-. by exists ch'.
  - destruct (end_run s ch W Hs Hid Hin Hown) as (s2 & par & k' & i' & gs & Hr & H2 & _). rewrite Hrun in Hr. injection Hr as <-. by eexists.
  - destruct (reap_step s ch W n z b Hs Hse Hz) as (x & par & s2 & _ & Hr & H2 & _). rewrite Hrun in Hr. injection Hr as _ <-. by eexists.
  - destruct (nap_run s ch W n Hs Hid Hse) as (s2 & Hr & H2 & _). rewrite Hrun in Hr. injection Hr as <-. by eexists.
  - destruct (kill_run s ch n e (y_proc _ _ _ Hs)) as (r' & s2 & Hr & F). rewrite Hrun in Hr. injection Hr as <- <-. exists ch. destruct F; try done. by apply (aside_step s).
  - destruct Hs as [Hp Hm Hwat Hone]. destruct (yield_run s ch (proj1 Hp)) as (k' & Hr & P2 & Sw). rewrite Hrun in Hr. injection Hr as ->. exists ch.
    split; [done|by apply yield_mem|by apply yield_watch|done].
  - exists ch. by apply (block_step s s1).
  - exists ch. by apply (aside_step s).
Qed.
End System.
End ProcSys.
