(* ===== verification/ProcSpec.v ===== *)
(** * What proc.c promises

    The theorems on process creation, exit, [do_wait] and [do_kill], and a system of five
    processes on which they are tried. *)

From stdpp Require Import relations.
From S2P Require Import Prelude Kern Sched SchedInv SchedPolicies Wait Sem Event Proc ProcTable ProcInv ProcReap ProcFork ProcClone ProcSys.
Import Kern Sched SchedInv SchedPolicies WaitInv Proc ProcTable ProcInv ProcExit ProcWait ProcReap ProcFork ProcClone ProcSys.
Open Scope Z_scope.

Module ProcSpec.

Section Spec.
Context {X : Type} `{HS : ShareLaws X} {sc : sched_class} {I : kstate -> Prop} {Hsp : SchedPolicy sc I}.
Context (boot_cr3 forkret : Z).
#[local] Abbreviation state := (state (X := X)).
#[local] Abbreviation proc_inv := (proc_inv (X := X) (I := I)).
#[local] Abbreviation sys_inv := (sys_inv (X := X) (I := I)).
#[local] Abbreviation aside := (aside (X := X) (I := I)).
#[local] Abbreviation step := (step (X := X) (sc := sc) (I := I) boot_cr3 forkret).

Lemma rbind_ok {A B} (m : R state A) (k : A -> R state B) s b s' : rbind m k s = Ok b s' ->
  exists a s1, m s = Ok a s1 /\ k a s1 = Ok b s'.
Proof using Type. unfold rbind. destruct (m s) as [a s1| | |]; cbn; try done. intros Hk. by exists a, s1. Qed.

Lemma aside_refl (s : state) ch : proc_inv s ch -> aside s s.
Proof using Type.
  intros (P & Hcur & Hrun). split; [split|split]; try done; [apply (pi_sched _ _ P)|apply (pi_events _ _ P)|apply (pi_calm _ _ P)|]. intros z Hz. by apply (pi_zombie _ _ P).
Qed.

Lemma aside_ext (s : state) ch x : proc_inv s ch -> objs (ext s) ⊆ objs x -> stacks (ext s) ⊆ stacks x -> aside s (put_ext x s).
Proof using Type. intros P Ho Hs. destruct (aside_refl s ch P) as [[] ?]. split; [by split|done]. Qed.

(** A file structure of its own for the process in the making is no concern of others. *)
Lemma aside_fs (s : state) ch p f x : proc_inv s ch -> objs (ext s) ⊆ objs x -> stacks (ext s) ⊆ stacks x ->
  aside s (put_ext x (upd_info (alter (set_fs f) p) s)).
Proof using Type.
  intros P Ho Hs. destruct (aside_refl s ch P) as [[] ?]. split; [split; try done|done].
  intros q. cbn. rewrite lookup_alter_at. case_decide; [|done]. by destruct (info s !! q).
Qed.

Lemma newborn_fs (s : state) p y f x : newborn s p y -> newborn (put_ext x (upd_info (alter (set_fs f) p) s)) p (set_fs f y).
Proof using Type. intros [Hi H1 H2 H3 H4]. split; cbn; [by rewrite lookup_alter_eq, Hi|done..]. Qed.

(** C27: [get_pid] comes to an end and gives a pid from 1 to MAX_PID - 1 that no process
    has, and leaves a gap above it in which no pid is in use, whatever the pids of the
    processes are, as long as there are fewer than MAX_PID - 1 of them. *)
Theorem get_pid_spec (s : state) ch : proc_inv s ch -> Z.of_nat (length (proc_list s)) < MAX_PID - 1 ->
  exists n ns, get_pid s = Ret (n, put_pids n ns s) /\ 1 <= n < ns /\ ns <= MAX_PID /\
    forall p m, p ∈ proc_list s -> pid_is s p m -> ~ n <= m < ns.
Proof using Type.
  intros (P & _) Hlen. destruct (get_pid_run s (pi_pids _ _ P) (table_known _ _ P) Hlen) as (n & ns & Hr & Hn & Hns & Hfree).
  exists n, ns. split_and!; try done; try lia. intros p m Hp Hm. apply Hfree. by exists p.
Qed.

(** C26: [do_fork] of a thread that shares memory, semaphores and files ends in one of
    three ways.  The table is full, and nothing has changed.  Memory is short, and the
    structure and the stack that were allocated are given back: no table, no process, no
    semaphore queue and no count of users has changed, but the running process may have
    lost half of its time slice to the child that never was.  Or there is a new RUNNABLE
    child of the running process, with a pid nobody had, its own stack and a copy of the
    trap frame with eax 0, in all tables and, for CLONE_THREAD, in the thread group; it
    has the address space, the open files and the semaphore queue of its parent, each of
    which counts exactly one user more, while no other count has changed. *)
Theorem do_fork_spec (s : state) ch W f stack t w c ci :
  set_flag f CLONE_VM = true -> set_flag f CLONE_SEM = true -> set_flag f CLONE_FS = true ->
  (set_flag f CLONE_THREAD = true -> current (kern s) <> initproc s) ->
  sys_inv s ch W -> sharable s c ci ->
  exists r s', do_fork sc boot_cr3 forkret f stack t w s = Ok r s' /\ (exists ch', sys_inv s' ch' W) /\
    ((r = - E_NO_FREE_PROC /\ s' = s /\ MAX_PROCESS <= nr_process s) \/
     (r = - E_NO_MEM /\ info s' = info s /\ thread_groups s' = thread_groups s /\ proc_list s' = proc_list s /\
      objs (ext s') = objs (ext s) /\ stacks (ext s') = stacks (ext s) /\
      (forall q, q <> current (kern s) -> procs (kern s') !! q = procs (kern s) !! q) /\
      (procs (kern s') !! current (kern s) = Some c \/
       procs (kern s') !! current (kern s) = Some (set_time_slice (time_slice c - time_slice c ÷ 2) c)) /\
      ipc (kern s') = ipc (kern s) /\
      (forall h, fs_refs (ext s') h = fs_refs (ext s) h) /\ (forall m, mm_refs (ext s') m = mm_refs (ext s) m)) \/
     exists p x, 1 <= r < MAX_PID /\ (forall q, q ∈ proc_list s -> ~ pid_is s q r) /\
      pid_is s' p r /\ proc_is (kern s') p PROC_RUNNABLE /\ proc_list s' = p :: proc_list s /\
      info s' !! p = Some x /\ parent x = current (kern s) /\ mm x = mm ci /\ fs_struct x = fs_struct ci /\
      tf x = Some (mk_tf 0 (tf_eip t) stack (Z.lor (tf_eflags t) FL_IF) (tf_rest t)) /\
      (kstack x ∉ stacks (ext s)) /\ stacks (ext s') = {[kstack x]} ∪ stacks (ext s) /\
      (set_flag f CLONE_THREAD = true -> exists g, g ∈ thread_groups s' /\ p ∈ g /\ current (kern s) ∈ g) /\
      psem_queue <$> procs (kern s') !! p = Some (psem_queue c) /\
      semqs (ipc (kern s')) =
        match psem_queue c with
        | Some q => alter (fun z => mk_semq (s32 (sq_count z + 1)) (semu_list z)) q (semqs (ipc (kern s)))
        | None => semqs (ipc (kern s))
        end /\
      (forall h, fs_refs (ext s') h = fs_refs (ext s) h + (if h =? fs_struct ci then 1 else 0)) /\
      (forall m, mm_refs (ext s') m = mm_refs (ext s) m + (if negb (mm ci =? 0) && (m =? mm ci) then 1 else 0))).
Proof using Hsp.
  intros Hvm Hsem Hfs Hth Hs Hc. destruct (fork_run boot_cr3 forkret s ch W f stack t w c ci Hvm Hsem Hfs Hs Hc) as (r & s' & Hr & F).
  exists r, s'. split; [done|]. split; [by apply (fork_step s ch W f stack t c ci r); [..|apply Hc|]|].
  destruct F as [Hfull|s' []|s1 s2 s' p n y g L E G1 G2 G3 G4 G5 O S F1 M1 P2 M2 N2 B].
  - by left.
  - right. left. destruct u_refs0. by split_and!.
  - right. right. destruct (b_info _ _ _ _ _ _ _ _ _ B) as (x & Hx & K1 & K2 & K3 & K4). exists p, x.
    assert (Hkn : kern s2 = with_sem p c (kern s1)) by (by rewrite E).
    assert (Hpl : proc_list s2 = proc_list s) by (rewrite E; cbn; apply L).
    assert (Hgr : thread_groups s2 = [p] :: thread_groups s) by (rewrite E; cbn; apply L).
    assert (Hcur : current (kern s2) = current (kern s)).
    { rewrite Hkn, (l_kern _ _ _ _ _ _ L). unfold with_sem. by destruct (psem_queue c). }
    assert (Hcp : current (kern s) <> p) by (intros E2; pose proof (sh_info _ _ _ Hc) as Hi; by rewrite E2, (l_fresh _ _ _ _ _ _ L) in Hi).
    rewrite (b_ext _ _ _ _ _ _ _ _ _ B). pose proof (b_state _ _ _ _ _ _ _ _ _ B) as Hrun. pose proof (b_range _ _ _ _ _ _ _ _ _ B) as [Hr1 Hr2]. pose proof (b_pid _ _ _ _ _ _ _ _ _ B) as Hpid.
    split_and!; try done; try congruence.
    + intros q Hq Hqr. apply (b_unused _ _ _ _ _ _ _ _ _ B). exists q. rewrite Hpl. split; [done|]. unfold pid_is in *.
      assert (Hqp : q <> p). { intros ->. destruct (list_known _ _ _ (proj1 (y_proc _ _ _ Hs)) Hq). pose proof (l_fresh _ _ _ _ _ _ L). congruence. }
      rewrite <- Hqr, Hkn. rewrite <- (proj2 (proj2 (core_seen _ _ q (begun_core p (time_slice c ÷ 2) c (kern s) q (sh_proc _ _ _ Hc) Hqp)))), <- (l_kern _ _ _ _ _ _ L).
      unfold with_sem. destruct (psem_queue c); [|done]. cbn. by rewrite lookup_alter_ne.
    + by rewrite (b_list _ _ _ _ _ _ _ _ _ B), Hpl.
    + assert (Hin2 : p ∈ set_ch ch (current (kern s2)) (p :: ch (current (kern s2))) (current (kern s2))) by (rewrite set_ch_eq; left).
      destruct (child_parent _ _ _ _ _ (pi_fam _ _ (proj1 (b_proc _ _ _ _ _ _ _ _ _ B))) Hin2) as (z & Hz & E2 & _). congruence.
    + rewrite K1, G3. apply L.
    + rewrite S, (l_stacks _ _ _ _ _ _ L). congruence.
    + intros Hf. assert (is_Some (info s !! current (kern s))) as Hci by (by rewrite (sh_info _ _ _ Hc)).
      apply (g_dom _ _ (pi_groups _ _ (proj1 (y_proc _ _ _ Hs)))) in Hci as (g0 & Hgg & Hcg).
      exists (insert_before (current (kern s)) p g0). rewrite (b_groups _ _ _ _ _ _ _ _ _ B), Hcur. unfold joined. rewrite Hf. split_and!.
      * apply list_elem_of_fmap_2, list_elem_of_filter. split; [by intros ->; apply list_elem_of_singleton in Hcg|]. rewrite Hgr. by right.
      * apply elem_insert_before. by right.
      * apply elem_insert_before. by left.
    + rewrite (b_sem _ _ _ _ _ _ _ _ _ B), Hkn, (l_kern _ _ _ _ _ _ L). unfold with_sem.
      destruct (psem_queue c); cbn; rewrite ?lookup_alter_eq, lookup_insert_ne, lookup_insert_eq by done; done.
    + rewrite (rs_ipc _ _ (b_rest _ _ _ _ _ _ _ _ _ B)), Hkn, (l_kern _ _ _ _ _ _ L). unfold with_sem. by destruct (psem_queue c).
Qed.

(** The first part of [__do_exit] gives up what the process holds. *)
Definition release (cur : Z) : R state unit := lift (put_mm cur) ;;~ put_fs cur ;;~ lift (put_sem_queue cur).

Lemma __do_exit_run (s s0 s1 : state) :
  current (kern s) <> idleproc (kern s) -> current (kern s) <> initproc s -> release (current (kern s)) s = Ok tt s0 ->
  (kcall (update_proc (set_pstate PROC_ZOMBIE) (current (kern s))) ;; exit_block sc) s0 = Ret (tt, s1) ->
  __do_exit sc s = Sleep s1 (fun _ => Stop).
Proof using Type.
  intros Hid Hin Hrel Hr. unfold __do_exit. erewrite rbind_lift; [|reflexivity].
  erewrite rbind_lift; [|apply assert_Ret; split; [apply negb_true_iff; by apply Z.eqb_neq|reflexivity]].
  erewrite rbind_lift; [|apply assert_Ret; split; [apply negb_true_iff; by apply Z.eqb_neq|reflexivity]].
  unfold release in Hrel. apply rbind_ok in Hrel as ([] & u1 & H1 & Hrel). apply rbind_ok in Hrel as ([] & u2 & H2 & H3).
  unfold rbind at 1. rewrite H1. cbn [rthen]. unfold rbind at 1. rewrite H2. cbn [rthen]. unfold rbind at 1. rewrite H3. cbn [rthen].
  erewrite rbind_lift; [|exact Hr]. reflexivity.
Qed.

(** C5: [__do_exit] of a process that is neither idle nor init gives up its resources,
    makes it a zombie and never returns to it.  Its children go, zombies included, to
    another thread of its group, or to init when it was the last one; every thread that
    sleeps in [do_wait] for the process is woken, so is init when it inherits a zombie;
    the exit code and the kernel stack stay for the parent, and when the next process
    runs all tables are consistent and no sleeper has missed a zombie. *)
Theorem do_exit_spec (s s0 : state) ch W :
  let cur := current (kern s) in
  sys_inv s ch W -> cur <> idleproc (kern s) -> cur <> initproc s ->
  release cur s = Ok tt s0 -> aside s s0 ->
  (forall q l u, wqueues (kern s0) !! q = Some l -> u ∈ l -> ~ owner (kern s0) u cur) ->
  exists s1 s2 heir,
    __do_exit sc s = Sleep s1 (fun _ => Stop) /\ kcall (schedule sc) s1 = Ret (tt, s2) /\
    sys_inv s2 (heirs ch cur heir) W /\ zombie (kern s2) cur /\ current (kern s2) <> cur /\
    (heir = initproc s /\ [cur] ∈ thread_groups s \/ exists r, r ∈ thread_groups s /\ cur ∈ r /\ heir ∈ r /\ heir <> cur) /\
    [cur] ∈ thread_groups s2 /\
    (forall p, waiting (kern s0) p -> kid s ch p cur -> proc_is (kern s2) p PROC_RUNNABLE) /\
    (forall z, waiting (kern s0) heir -> z ∈ ch cur -> zombie (kern s) z -> proc_is (kern s2) heir PROC_RUNNABLE) /\
    (forall p, outer <$> info s2 !! p = outer <$> info s0 !! p) /\ proc_list s2 = proc_list s /\ ext s2 = ext s0.
Proof using Hsp.
  intros cur Hs Hid Hin Hrel Ha Hown. pose proof (aside_step _ _ _ _ Ha Hs) as Hs0.
  assert (Ec : current (kern s0) = cur) by apply (a_current _ _ Ha).
  assert (Eid : idleproc (kern s0) = idleproc (kern s)) by apply (q_idle _ _ _ (a_quiet _ _ (a_beside _ _ Ha))). assert (Ein : initproc s0 = initproc s) by apply (a_init _ _ (a_beside _ _ Ha)).
  destruct Hs0 as [Hp Hm Hwat Hone]. rewrite <- Ec in Hown.
  destruct (exit_run (sc := sc) s0 ch Hp) as (par & k' & i' & gs & Hr & E); [congruence|congruence|done|].
  pose proof (exit_inv s0 ch _ par k' i' gs eq_refl Hp ltac:(congruence) ltac:(congruence) E) as P1.
  pose proof (exit_watch s0 ch W _ par k' i' gs eq_refl Hp Hwat Hone E) as W1.
  destruct (yield_run (sc := sc) _ _ P1) as (k2 & Hr2 & P2 & Sw). rewrite Ec in *.
  set (s1 := put_kern k' (upd_info (fun _ => i') (upd_groups (fun _ => gs) s0))) in *.
  pose proof (x_wakes _ _ _ _ _ _ _ E) as Wk. assert (Hck : is_Some (procs (kern s0) !! cur)) by (rewrite <- Ec; eapply proc_is_known; apply Hp).
  assert (Hzc : zombie k' cur) by (apply (kwakes_zombie _ _ _ Wk), dying_zombie; [done|by left]).
  assert (Hwd : forall p, waiting (kern s0) p -> exists x, procs (dying cur (kern s0)) !! p = Some x /\ wait_state x = WT_CHILD).
  { intros p Hw. destruct (waiting_some _ _ Hw) as (x & Hx & Ex1 & Ex2). destruct (decide (p = cur)) as [->|Hpc].
    - exists (set_pstate PROC_ZOMBIE x). cbn. by rewrite lookup_alter_eq, Hx.
    - exists x. cbn. by rewrite lookup_alter_ne. }
  exists s1, (put_kern k2 s1), par. split; [by apply (__do_exit_run s s0)|]. split; [done|]. split.
  { split; [done|by apply yield_mem, (exit_mem (I := I) _ ch cur par)|by apply yield_watch|].
    - cbn. apply (x_groups _ _ _ _ _ _ _ E); [congruence|done]. }
  split; [by apply (switched_is _ _ _ cur _ Sw)|]. split.
  { intros E2. destruct P2 as (_ & _ & Hrun). cbn [kern put_kern] in *. rewrite E2 in Hrun. apply (switched_is _ _ _ cur _ Sw) in Hrun. unfold zombie, proc_is, s1 in *. cbn in Hrun. congruence. }
  split.
  { rewrite <- (a_groups _ _ (a_beside _ _ Ha)), <- Ein. destruct (x_heir _ _ _ _ _ _ _ E) as [?|(r & ? & ? & ?)]; [by left|right]. exists r. split_and!; try done. apply E. }
  split; [by destruct (x_groups _ _ _ _ _ _ _ E) as (_ & ? & _)|]. split; [|split].
  - intros p Hw (r & t & Hrr & H1 & H2 & H3). apply (switched_is _ _ _ p _ Sw). destruct (Hwd p Hw) as (x & Hx & Ex). rewrite <- (a_groups _ _ (a_beside _ _ Ha)) in Hrr.
    by apply (x_woken _ _ _ _ _ _ _ E t r p x).
  - intros z Hw Hz Hzz. apply (switched_is _ _ _ par _ Sw). destruct (waiting_some _ _ Hw) as (x & Hx & _ & Ex).
    apply (x_heir_woken _ _ _ _ _ _ _ E z x); try done. apply dying_zombie; [done|right]. by apply (q_zombie _ _ _ (a_quiet _ _ (a_beside _ _ Ha))).
  - split; [apply E|]. split; [apply (a_list _ _ (a_beside _ _ Ha))|done].
Qed.

(** C22: [do_wait(n)] of a running process, with no place to store the exit code, takes a
    zombie among the children of its threads that has the pid n (any child for n = 0):
    its structure and its stack are freed and it is in no table any more.  Without such a
    child it fails with -E_BAD_PROC; with one, but none that is a zombie, it goes to
    sleep, and the next process runs with all tables consistent. *)
Theorem do_wait_spec (s : state) ch W n fuel :
  let cur := current (kern s) in
  sys_inv s ch W -> cur <> idleproc (kern s) ->
  (exists z x s' ch', kid s ch cur z /\ target s n z /\ zombie (kern s) z /\ info s !! z = Some x /\
     do_wait sc (S fuel) n 0 s = Ok 0 s' /\ sys_inv s' ch' W /\
     (forall p, is_Some (info s' !! p) <-> is_Some (info s !! p) /\ p <> z) /\ proc_list s' = remove z (proc_list s) /\
     objs (ext s') = objs (ext s) ∖ {[z]} /\ stacks (ext s') = stacks (ext s) ∖ {[kstack x]}) \/
  ((forall c, kid s ch cur c -> ~ target s n c) /\ do_wait sc (S fuel) n 0 s = Ok (- E_BAD_PROC) s) \/
  ((exists c, kid s ch cur c /\ target s n c) /\ (forall c, kid s ch cur c -> target s n c -> ~ zombie (kern s) c) /\
   exists s1 k s2, do_wait sc (S fuel) n 0 s = Sleep s1 k /\ waiting (kern s1) cur /\
     kcall (schedule sc) s1 = Ret (tt, s2) /\ sys_inv s2 ch (note W cur n)).
Proof using Hsp.
  intros cur Hs Hid. pose proof (proj1 (y_proc _ _ _ Hs)) as P.
  assert (is_Some (info s !! cur)) as [ci Hci] by (apply (pi_dom _ _ P), (si_current _ _ (pi_sched _ _ P))).
  destruct (search_run s ch n P) as (z & b & Hr & Hf).
  assert (Hdo : do_wait sc (S fuel) n 0 s = wait_loop sc (S fuel) n (mm ci) 0 s).
  { unfold do_wait. erewrite rbind_lift; [|reflexivity]. erewrite rbind_lift; [|apply get_info_run; exact Hci]. reflexivity. }
  rewrite Hdo. cbn [wait_loop]. erewrite rbind_lift; [|exact Hr]. cbn [fst snd].
  destruct Hf as [(Hz0 & Hb & [Hk Ht] & Hz)|(-> & Hnone & Hex)].
  - left. rewrite (proj2 (Z.eqb_neq z 0)) by done. cbn [negb].
    destruct (reap_step s ch W n z b Hs Hr Hz0) as (x & par & s' & Hx & Hrun & Hs' & _ & _ & _ & _ & Hi & Hl & Ho & Hst).
    exists z, x, s', (set_ch ch par (remove z (ch par))). split_and!; try done. erewrite rbind_lift; [|exact Hrun]. reflexivity.
  - right. cbn [Z.eqb negb]. destruct b.
    + right. split; [by apply Hex|]. split; [by intros c ? ?; apply Hnone|]. destruct (nap_run (sc := sc) s ch W n Hs Hid Hr) as (s2 & Hnap & Hs2 & _).
      unfold nap in Hnap. rewrite (bind_step get_current _ s cur s) in Hnap by reflexivity.
      assert (Hck : is_Some (procs (kern s) !! cur)) by apply (si_current _ _ (pi_sched _ _ P)).
      rewrite (bind_step _ _ _ _ _ (kcall_run _ s tt _ (update_proc_ok _ _ _ Hck))) in Hnap.
      assert (Hck2 : is_Some (procs (kern (put_kern (upd_procs (alter (set_pstate PROC_SLEEPING) cur) (kern s)) s)) !! cur)) by (cbn; by rewrite lookup_alter_is_Some).
      rewrite (bind_step _ _ _ _ _ (kcall_run _ _ tt _ (update_proc_ok _ _ _ Hck2))) in Hnap.
      eexists _, _, s2. split.
      { erewrite rbind_lift; [|reflexivity]. erewrite rbind_lift; [|exact (kcall_run _ s tt _ (update_proc_ok _ _ _ Hck))].
        erewrite rbind_lift; [|exact (kcall_run _ _ tt _ (update_proc_ok _ _ _ Hck2))]. rewrite rbind_sleep. reflexivity. }
      split; [|by split]. unfold waiting. cbn. rewrite !lookup_alter_eq. destruct Hck as [c ->]. reflexivity.
    + left. split; [|done]. intros c Hc1 Hc2. discriminate (proj2 Hex (ex_intro _ c (conj Hc1 Hc2))).
Qed.

(** [do_kill] finds the process by its pid; one that is not exiting yet gets the flag
    and the exit code and is woken if its sleep can be interrupted, a second kill fails
    with -E_KILLED and an unknown pid with -E_INVAL; no other process is touched. *)
Theorem do_kill_spec (s : state) ch W n e : sys_inv s ch W ->
  exists r s', do_kill sc n e s = Ret (r, s') /\ sys_inv s' ch W /\
    ((r = - E_INVAL /\ s' = s /\ forall p, p ∈ proc_list s -> ~ pid_is s p n) \/
     exists p x, p ∈ proc_list s /\ pid_is s p n /\ info s !! p = Some x /\
       ((r = - E_KILLED /\ s' = s /\ set_flag (flags x) PF_EXITING = true) \/
        (r = 0 /\ set_flag (flags x) PF_EXITING = false /\ exists y, info s' !! p = Some y /\ set_flag (flags y) PF_EXITING = true /\ exit_code y = e /\
          forall pr, procs (kern s) !! p = Some pr -> set_flag (wait_state pr) WT_INTERRUPTED = true -> proc_is (kern s') p PROC_RUNNABLE))).
Proof using Hsp.
  intros Hs. destruct (kill_run (sc := sc) s ch n e (y_proc _ _ _ Hs)) as (r & s' & Hr & K). exists r, s'. split; [done|].
  destruct K as [Hno|p x Hp Hn Hx Hf|p x y pr s' Hp Hn Hx Hf Hy Hfy Ey Hpr Hw Ha].
  - split; [done|by left].
  - split; [done|]. right. exists p, x. split_and!; try done. by left.
  - split; [by apply (aside_step s)|]. right. exists p, x. split_and!; try done. right. split_and!; try done. exists y. split_and!; try done. intros pr' Hpr'. rewrite Hpr in Hpr'. by injection Hpr' as <-.
Qed.

(** C1: whatever sequence of forks, exits, waits, kills, context switches and sleeps runs,
    a process that sleeps in [do_wait(n)] has a child with the pid n (any child for n = 0)
    in its thread group, and no such child is a zombie: no sleeper waits for what has
    happened already, nor without a child to wait for.  (That child can be the sleeper
    itself: [thread_waits_for_itself].)  Forks are those of any clone flags, [fork] and
    [kernel_thread] included, in the three parts of [do_fork]: the start and the end are
    steps, and what is copied between, which may sleep, is any step that leaves the
    process tables alone; other processes run in between, and may fork themselves.  (A
    fork ends while fewer than MAX_PID - 1 processes are listed, without which no pid is
    left, and init makes no threads.)  The process table, the hash lists, the families and the thread groups stay consistent, no
    two processes have one pid, and no structure or stack in use, of processes in the
    making included, is free. *)
Theorem wait_never_misses s0 W0 s W : (exists ch, sys_inv s0 ch W0) -> rtc step (s0, W0) (s, W) ->
  exists ch, sys_inv s ch W /\
    (forall p, waiting (kern s) p -> exists c, kid s ch p c /\ target s (W p) c) /\
    (forall p c, waiting (kern s) p -> kid s ch p c -> target s (W p) c -> ~ zombie (kern s) c) /\
    (forall p q n, p ∈ proc_list s -> q ∈ proc_list s -> pid_is s p n -> pid_is s q n -> p = q).
Proof using HS Hsp.
  intros H0 Hrun. assert (exists ch, sys_inv s ch W) as (ch & Hs).
  { change (exists ch, sys_inv (s, W).1 ch (s, W).2). revert H0. change (exists ch, sys_inv s0 ch W0) with (exists ch, sys_inv (s0, W0).1 ch (s0, W0).2).
    induction Hrun as [|a b c Hab _ IH]; [done|]. intros Ha. by apply IH, (sys_step_inv boot_cr3 forkret a). }
  exists ch. split; [done|]. destruct Hs as [Hp Hm Hwat Hone]. split_and!.
  - intros p Hw. by destruct (Hwat p Hw).
  - intros p c Hw. by apply Hwat.
  - intros p q n. apply (pi_inj _ _ (proj1 Hp)).
Qed.
End Spec.

(** ** A system of five processes

    1 idles; 2 is init and sleeps in [do_wait(0)]; its child 3 runs and has two children,
    the thread 5 of its own group and the zombie 4. *)

(** Memory that never runs out, and the counts of users of open files and address
    spaces. *)
Record pool := mk_pool { heap : gset Z; kstacks : gset Z; fs_users : gmap Z Z; mm_users : gmap Z Z }.
Definition upd_heap f x := mk_pool (f (heap x)) (kstacks x) (fs_users x) (mm_users x).
Definition upd_kstacks f x := mk_pool (heap x) (f (kstacks x)) (fs_users x) (mm_users x).
Definition users (m : gmap Z Z) (a : Z) : Z := default 0 (m !! a).
Definition upd_fs (a d : Z) (x : pool) : pool := mk_pool (heap x) (kstacks x) (<[a := users (fs_users x) a + d]> (fs_users x)) (mm_users x).
Definition upd_mm (a d : Z) (x : pool) : pool := mk_pool (heap x) (kstacks x) (fs_users x) (<[a := users (mm_users x) a + d]> (mm_users x)).

Definition top (u : gset Z) : Z := foldr Z.max 0 (elements u) + 1.

Lemma top_fresh u : top u <> 0 /\ (top u ∉ u).
Proof.
  assert (Hb : forall l : list Z, 0 <= foldr Z.max 0 l /\ forall a, a ∈ l -> a <= foldr Z.max 0 l).
  { induction l as [|b l [IH1 IH2]]; cbn; [split; [done|by intros a ?%not_elem_of_nil]|]. split; [lia|]. intros a [->|Ha]%elem_of_cons; [lia|]. specialize (IH2 a Ha). lia. }
  unfold top. destruct (Hb (elements u)) as [H1 H2]. split; [lia|]. intros Hin%elem_of_elements%H2. lia.
Qed.

#[export] Instance pool_resources : Resources pool := {|
  kmalloc _ x := Ret (top (heap x), upd_heap ({[top (heap x)]} ∪.) x);
  kfree a x := Ret (tt, upd_heap (.∖ {[a]}) x);
  alloc_stack _ x := Ret (top (kstacks x), upd_kstacks ({[top (kstacks x)]} ∪.) x);
  free_stack a _ x := Ret (tt, upd_kstacks (.∖ {[a]}) x);
  mm_create := ret 0; setup_pgdir _ := ret 0; lock_mm _ := rret tt; unlock_mm _ := ret tt;
  dup_mmap _ _ := ret 0; exit_mmap _ := ret tt; put_pgdir _ := ret tt; mm_destroy _ := ret tt;
  mm_count_inc a x := Ret (users (mm_users x) a + 1, upd_mm a 1 x);
  mm_count_dec a x := Ret (users (mm_users x) a - 1, upd_mm a (-1) x);
  mm_cr3 _ := ret 0; copy_brk _ _ := ret tt;
  user_mem_check _ _ _ _ := ret false; copy_int_to_user _ _ _ := ret false;
  fs_create := ret 8; dup_fs _ _ := rret 0; fs_destroy _ := rret tt;
  fs_count_inc a x := Ret (users (fs_users x) a + 1, upd_fs a 1 x);
  fs_count_dec a x := Ret (users (fs_users x) a - 1, upd_fs a (-1) x) |}.

#[export] Instance pool_laws : ResourceLaws pool.
Proof.
  refine {| objs := heap; stacks := kstacks |}.
  - intros n x. exists (top (heap x)). eexists. split; [reflexivity|]. split; [done|]. right. destruct (top_fresh (heap x)). done.
  - intros a x _. by eexists.
  - intros n x. exists (top (kstacks x)). eexists. split; [reflexivity|]. split; [done|]. right. destruct (top_fresh (kstacks x)). done.
  - intros a n x _. by eexists.
Defined.

Lemma users_insert m a d b : users (<[a := users m a + d]> m) b = users m b + (if b =? a then d else 0).
Proof.
  unfold users at 1. rewrite lookup_insert. destruct (Z.eqb_spec b a) as [->|Hne]; case_decide; try congruence; [done|]. unfold users. lia.
Qed.

#[export] Instance pool_share : ShareLaws pool.
Proof.
  refine {| fs_live := fun _ f => f <> 0; mm_live := fun _ m => m <> 0; fs_refs x := users (fs_users x); mm_refs x := users (mm_users x) |}.
  - done.
  - intros x x' a [[n Hr]|[[n Hr]|Hr]]; (injection Hr as <- <- || injection Hr as <-); done.
  - intros f x _. exists (upd_fs f 1 x). split_and!; try done. intros g. apply users_insert.
  - intros m x Hm. exists (upd_mm m 1 x). split_and!; try done. intros g. apply users_insert.
  - intros m x _. by exists 0.
Defined.

Definition ex_kern : kstate := mk_kstate
  (list_to_map [(1, mk_proc PROC_RUNNABLE 0 1 true 0 None 0 0 None);
                (2, mk_proc PROC_SLEEPING 1 3 false WT_CHILD (Some 1) 3 0 None);
                (3, mk_proc PROC_RUNNABLE 2 4 false 0 (Some 0) 7 0 None);
                (4, mk_proc PROC_ZOMBIE 3 2 false 0 (Some 1) 3 0 None);
                (5, mk_proc PROC_RUNNABLE 4 7 false 0 (Some 1) 5 0 None)])
  3 1
  (list_to_map [(0, mk_rq [] 0 8); (1, mk_rq [5] 1 16); (2, mk_rq [] 0 32); (3, mk_rq [] 0 64)])
  kernel_ring ∅ [] ∅
  (list_to_map [(event_wait_queue 1, []); (event_wait_queue 2, []); (event_wait_queue 3, []); (event_wait_queue 4, []); (event_wait_queue 5, [])])
  0 (mk_ipc ∅ ∅ ∅ []).

Definition ex_info : gmap Z pinfo := list_to_map
  [(1, mk_info 0 501 0 0 0 0 2 0 0 9 None (0, 0)); (2, mk_info 1 502 0 0 0 0 3 0 0 9 None (0, 0));
   (3, mk_info 2 503 0 0 0 0 5 0 0 9 None (0, 0)); (4, mk_info 3 504 0 0 0 42 0 5 0 9 None (0, 0));
   (5, mk_info 3 505 0 0 0 0 0 0 4 9 None (0, 0))].

Definition ex_pids : list (Z * Z) := [(5, 4); (4, 3); (3, 2); (2, 1)].

Definition ex_sys : state (X := pool) := mk_state ex_kern ex_info [[1]; [2]; [3; 5]; [4]] [5; 4; 3; 2]
  (array HASH_LIST_SIZE (fun h => fst <$> List.filter (fun a : Z * Z => pid_hashfn a.2 =? h) ex_pids))
  5 4 MAX_PID 2 [] (mk_pool (list_to_set [1; 2; 3; 4; 5]) (list_to_set [501; 502; 503; 504; 505]) {[9 := 5]} ∅).

Definition ex_ch (p : Z) : list Z :=
  if p =? 1 then [2] else if p =? 2 then [3] else if p =? 3 then [5; 4] else [].

Definition ex_W (p : Z) : Z := 0.

Lemma ex_kern_sched : sched_inv (queues_ok kernel_ring) ex_kern.
Proof.
  assert (Hq : forall p, queued ex_kern p = (p =? 5)).
  { intros p. apply Bool.eq_true_iff_eq. rewrite queued_true, Z.eqb_eq. split.
    - intros (i & q & Hq & Hp). by enum_map Hq; cbn in Hp; enum_list Hp.
    - intros ->. exists 1, (mk_rq [5] 1 16). split; [done|left]. }
  constructor.
  - constructor; [done|..].
    + intros i. split; [intros [q Hi]; enum_map Hi; apply (bool_decide_unpack _); reflexivity|intros Hi; enum_list Hi; by eexists].
    + intros i q Hi. enum_map Hi; apply (bool_decide_unpack _); reflexivity.
    + intros i q Hi. by enum_map Hi.
    + intros i q Hi. by enum_map Hi.
    + intros i q p Hi Hp. enum_map Hi; cbn in Hp; enum_list Hp. eexists. split; [reflexivity|]. cbn. split; [done|lia].
    + intros p x Hp. enum_map Hp; cbn; (split; [lia|]); intros i [= <-]; apply (bool_decide_unpack _); reflexivity.
  - by eexists.
  - by eexists.
  - intros p. rewrite Hq, Z.eqb_eq. intros ->. done.
  - intros p Hr Hc Hi. rewrite Hq. unfold proc_is in Hr. apply fmap_Some in Hr as (x & Hx & Hr). by enum_map Hx.
Qed.
Lemma ex_known p : is_Some (ex_info !! p) <-> p ∈ [1; 2; 3; 4; 5].
Proof.
  split.
  - intros [x Hx]. enum_map Hx; apply (bool_decide_unpack _); reflexivity.
  - intros Hp. enum_list Hp; by eexists.
Qed.

Lemma ex_procs p : is_Some (procs ex_kern !! p) <-> p ∈ [1; 2; 3; 4; 5].
Proof.
  split.
  - intros [x Hx]. enum_map Hx; apply (bool_decide_unpack _); reflexivity.
  - intros Hp. enum_list Hp; by eexists.
Qed.

Lemma ex_children p c : c ∈ ex_ch p -> (p, c) ∈ [(1, 2); (2, 3); (3, 5); (3, 4)].
Proof.
  unfold ex_ch. destruct (Z.eqb_spec p 1) as [->|_]; [|destruct (Z.eqb_spec p 2) as [->|_]; [|destruct (Z.eqb_spec p 3) as [->|_]]]; intros Hc; enum_list Hc;
    apply (bool_decide_unpack _); reflexivity.
Qed.

Lemma ex_pid p n : p ∈ [5; 4; 3; 2] -> pid_is ex_sys p n <-> (p, n) ∈ ex_pids.
Proof.
  intros Hp. split.
  - unfold pid_is. intros Hn. enum_list Hp; cbn in Hn; injection Hn as <-; apply (bool_decide_unpack _); reflexivity.
  - intros Hn. enum_list Hn; injection Hn as -> ->; reflexivity.
Qed.

Lemma ex_groups : groups_ok [[1]; [2]; [3; 5]; [4]] ex_info.
Proof.
  split.
  - intros r Hr. enum_list Hr; apply (bool_decide_unpack _); reflexivity.
  - intros r r' p Hr Hr' Hp Hp'. enum_list Hr; enum_list Hr'; try done; enum_list Hp; by enum_list Hp'.
  - intros p. rewrite ex_known. split.
    + intros Hp. enum_list Hp; [exists [1]|exists [2]|exists [3; 5]|exists [4]|exists [3; 5]]; (split; apply (bool_decide_unpack _); reflexivity).
    + intros (r & Hr & Hp). enum_list Hr; enum_list Hp; apply (bool_decide_unpack _); reflexivity.
Qed.

Lemma ex_fam : fam ex_info ex_ch.
Proof.
  split.
  - reflexivity.
  - intros p x Hx. enum_map Hx; cbn; repeat (split; [done|]; eexists; split; [reflexivity|]; cbn; split; [done|]; split; [done|]); done.
  - intros p. unfold ex_ch. repeat case_match; apply (bool_decide_unpack _); reflexivity.
  - intros p Hp. unfold ex_ch. destruct (Z.eqb_spec p 1) as [->|_]; [done|]. destruct (Z.eqb_spec p 2) as [->|_]; [done|]. by destruct (Z.eqb_spec p 3) as [->|_].
Qed.

Lemma ex_sys_table : table_inv (I := queues_ok kernel_ring) ex_sys ex_ch.
Proof.
  split; cbn [kern info thread_groups proc_list hash_list nr_process last_pid next_safe initproc ex_sys].
  - exact ex_kern_sched.
  - split.
    + split; [intros q l Hq; enum_map Hq; constructor|]. intros q l w Hq Hw. enum_map Hq; by apply not_elem_of_nil in Hw.
    + intros q l u p Hq Hu. enum_map Hq; by apply not_elem_of_nil in Hu.
    + intros p Hp%ex_known. enum_list Hp; by eexists.
  - intros p x Hx. by enum_map Hx.
  - intros p. by rewrite ex_known, ex_procs.
  - exact ex_fam.
  - exact ex_groups.
  - apply (bool_decide_unpack _); reflexivity.
  - intros c. split.
    + intros Hc. enum_list Hc; [exists 3|exists 3|exists 2|exists 1]; apply (bool_decide_unpack _); reflexivity.
    + intros (p & Hp%ex_children). enum_list Hp; injection Hp as -> ->; apply (bool_decide_unpack _); reflexivity.
  - split; [cbn; unfold MAX_PID, MAX_PROCESS; lia|]. split; [done|]. intros n (p & Hp & Hn). apply (ex_pid p n Hp) in Hn. cbn. enum_list Hn; injection Hn as -> ->; lia.
  - intros p n Hp Hn. apply (ex_pid p n Hp) in Hn. unfold MAX_PID, MAX_PROCESS. enum_list Hn; injection Hn as -> ->; lia.
  - intros p q n Hp Hq Hn Hm. apply (ex_pid p n Hp) in Hn. apply (ex_pid q n Hq) in Hm. enum_list Hn; injection Hn as -> ->; enum_list Hm; congruence.
  - reflexivity.
  - done.
  - intros h Hh. eexists. split; [apply array_lookup; split; [done|reflexivity]|]. split.
    + unfold ex_pids. cbn. repeat case_match; apply (bool_decide_unpack _); reflexivity.
    + intros p. rewrite list_elem_of_fmap. split.
      * intros ([q n] & -> & [Ha He]%list_elem_of_In%List.filter_In). apply list_elem_of_In in Ha. apply Z.eqb_eq in He. cbn in *.
        assert (Hq : q ∈ [5; 4; 3; 2]) by (enum_list Ha; injection Ha as -> ->; apply (bool_decide_unpack _); reflexivity).
        split; [done|]. exists n. split; [|done]. by apply ex_pid.
      * intros (Hp & n & Hn & He). apply (ex_pid p n Hp) in Hn. exists (p, n). split; [done|]. apply list_elem_of_In, List.filter_In.
        split; [by apply list_elem_of_In|]. by apply Z.eqb_eq.
  - intros z Hz. unfold zombie, proc_is in Hz. apply fmap_Some in Hz as (x & Hx & Hs). enum_map Hx; try done. split_and!; try done; apply (bool_decide_unpack _); reflexivity.
  - intros p Hp%ex_known Hl Hi. exfalso. enum_list Hp; try done; apply Hl; apply (bool_decide_unpack _); reflexivity.
  - split; [apply (bool_decide_unpack _); reflexivity|done].
  - split; [apply (bool_decide_unpack _); reflexivity|]. by unfold zombie, proc_is.
Qed.

Lemma ex_sys_inv : sys_inv (I := queues_ok kernel_ring) ex_sys ex_ch ex_W.
Proof.
  split.
  - split; [exact ex_sys_table|]. split; [left; apply (bool_decide_unpack _); reflexivity|done].
  - split.
    + intros p Hp%ex_known. enum_list Hp; apply (bool_decide_unpack _); reflexivity.
    + intros p x Hx Hp. enum_map Hx; apply (bool_decide_unpack _); reflexivity.
    + intros p q x y Hx Hy Hp Hq E. enum_map Hx; by enum_map Hy.
  - intros p Hw. assert (p = 2) as ->. { destruct (waiting_some _ _ Hw) as (x & Hx & Es & _). by enum_map Hx. }
    split; [exists 3; split; [exists [2], 2; split_and!; apply (bool_decide_unpack _); reflexivity|by left]|].
    intros c (r & t & Hr & H1 & H2 & H3) _. cbn in Hr. enum_list Hr; enum_list H1; try done. enum_list H2. apply ex_children in H3. enum_list H3; try done. injection H3 as ->. done.
  - apply (bool_decide_unpack _); reflexivity.
Qed.
#[local] Abbreviation mlfq := MLFQ_sched_class.
#[local] Abbreviation ex_step := (step (X := pool) (sc := mlfq) (I := queues_ok kernel_ring) 0 0).

Lemma get_pid_spec_witness : exists n ns, get_pid ex_sys = Ret (n, put_pids n ns ex_sys) /\ 1 <= n < ns.
Proof.
  destruct (get_pid_spec (I := queues_ok kernel_ring) ex_sys ex_ch (y_proc _ _ _ ex_sys_inv)) as (n & ns & Hr & Hn & _).
  - cbn. unfold MAX_PID, MAX_PROCESS. lia.
  - exists n, ns. exact (conj Hr Hn).
Defined.

Lemma do_fork_spec_witness : exists r s',
  do_fork mlfq 0 0 0xf00 4096 (mk_tf 1 2 3 4 []) 0 ex_sys = Ok r s' /\ exists ch', sys_inv (I := queues_ok kernel_ring) s' ch' ex_W.
Proof.
  destruct (do_fork_spec (sc := mlfq) (I := queues_ok kernel_ring) 0 0 ex_sys ex_ch ex_W 0xf00 4096 (mk_tf 1 2 3 4 []) 0
    (mk_proc PROC_RUNNABLE 2 4 false 0 (Some 0) 7 0 None) (mk_info 2 503 0 0 0 0 5 0 0 9 None (0, 0))) as (r & s' & Hr & Hs & _);
    [reflexivity|reflexivity|reflexivity|intros _; discriminate|exact ex_sys_inv|split; [reflexivity|reflexivity|discriminate|split; discriminate|intros Hm; exfalso; apply Hm; reflexivity]|]. exists r, s'. exact (conj Hr Hs).
Defined.

Lemma do_exit_spec_witness : exists s1 s2 heir, __do_exit mlfq ex_sys = Sleep s1 (fun _ => Stop) /\
  kcall (schedule mlfq) s1 = Ret (tt, s2) /\ sys_inv (I := queues_ok kernel_ring) s2 (heirs ex_ch 3 heir) ex_W /\ zombie (kern s2) 3.
Proof.
  destruct (do_exit_spec (sc := mlfq) (I := queues_ok kernel_ring) ex_sys (put_ext (upd_fs 9 (-1) (ext ex_sys)) ex_sys) ex_ch ex_W ex_sys_inv) as (s1 & s2 & heir & H1 & H2 & H3 & H4 & _).
  - discriminate.
  - discriminate.
  - reflexivity.
  - apply (aside_ext ex_sys ex_ch); [apply ex_sys_inv|done|done].
  - intros q l u Hq Hu. enum_map Hq; by apply not_elem_of_nil in Hu.
  - exists s1, s2, heir. exact (conj H1 (conj H2 (conj H3 H4))).
Defined.

Lemma do_wait_spec_witness : exists s', do_wait mlfq 1 0 0 ex_sys = Ok 0 s'.
Proof.
  destruct (do_wait_spec (sc := mlfq) (I := queues_ok kernel_ring) ex_sys ex_ch ex_W 0 0 ex_sys_inv) as [(z & x & s' & ch' & _ & _ & _ & _ & Hr & _)|[[Hno _]|(_ & Hno & _)]].
  - discriminate.
  - exists s'. exact Hr.
  - exfalso. apply (Hno 4); [exists [3; 5], 3; split_and!; apply (bool_decide_unpack _); reflexivity|by left].
  - exfalso. apply (Hno 4); [exists [3; 5], 3; split_and!; apply (bool_decide_unpack _); reflexivity|by left|reflexivity].
Defined.

Lemma do_kill_spec_witness : exists r s', do_kill mlfq 1 7 ex_sys = Ret (r, s') /\ sys_inv (I := queues_ok kernel_ring) s' ex_ch ex_W.
Proof.
  destruct (do_kill_spec (sc := mlfq) (I := queues_ok kernel_ring) ex_sys ex_ch ex_W 1 7 ex_sys_inv) as (r & s' & Hr & Hs & _). exists r, s'. exact (conj Hr Hs).
Defined.

(** [fork], as [sys_fork] calls it: no clone flag is set, the child has files of its
    own, and the call is a run of steps. *)
Definition ex_tf : trapframe := mk_tf 1 2 3 4 [].
Definition ex_made : state (X := pool) := match fork_start 0 ex_sys with Ret (_, s) => s | _ => ex_sys end.
Definition ex_copied : state (X := pool) := put_ext (upd_fs 8 1 (ext ex_made)) (upd_info (alter (set_fs 8) 6) ex_made).

Lemma ex_made_run : fork_start 0 ex_sys = Ret ((0, 6), ex_made).
Proof.
  unfold ex_made. destruct (fork_start 0 ex_sys) as [[r s]| |] eqn:E.
  - assert (H : match fork_start 0 ex_sys with Ret (r, _) => r | _ => (1, 1) end = (0, 6)) by (vm_compute; reflexivity). rewrite E in H. by rewrite H.
  - assert (H : match fork_start 0 ex_sys with Panic => true | _ => false end = false) by (vm_compute; reflexivity). by rewrite E in H.
  - assert (H : match fork_start 0 ex_sys with OutOfFuel => true | _ => false end = false) by (vm_compute; reflexivity). by rewrite E in H.
Qed.

Lemma ex_copied_run : fork_copy mlfq 0 6 0 ex_made = Ok 0 ex_copied.
Proof. vm_compute. reflexivity. Qed.

Lemma ex_made_inv : sys_inv (I := queues_ok kernel_ring) ex_made ex_ch ex_W /\ exists y, newborn ex_made 6 y.
Proof.
  destruct (fork_start_step (sc := mlfq) (I := queues_ok kernel_ring) 0 ex_sys ex_ch ex_W ex_sys_inv) as (r & s & c & Hr & St & Hs).
  rewrite ex_made_run in Hr. injection Hr as <- <-. split; [exact Hs|]. inversion St as [| |? ? y L]; subst. exists y. apply L.
Qed.

Lemma ex_copied_aside : aside (I := queues_ok kernel_ring) ex_made ex_copied.
Proof. apply (aside_fs ex_made ex_ch 6 8); [apply ex_made_inv|done|done]. Qed.

Lemma ex_fork : exists n s', do_fork mlfq 0 0 0 4096 ex_tf 0 ex_sys = Ok n s' /\ rtc ex_step (ex_sys, ex_W) (s', ex_W).
Proof.
  destruct ex_made_inv as (Hs & y & Hnb). pose proof (aside_step _ _ _ _ ex_copied_aside Hs) as Hs2.
  assert (Hlen : Z.of_nat (length (proc_list ex_copied)) < MAX_PID - 1) by (apply Z.ltb_lt; vm_compute; reflexivity).
  assert (Hnb2 : newborn ex_copied 6 (set_fs 8 y)).
  { exact (newborn_fs ex_made 6 y 8 (upd_fs 8 1 (ext ex_made)) Hnb). }
  assert (Hth : set_flag 0 CLONE_THREAD = true -> current (kern ex_copied) <> initproc ex_copied) by discriminate.
  destruct (fork_end_step (sc := mlfq) 0 ex_copied ex_ch ex_W 0 6 (set_fs 8 y) 4096 ex_tf 0 Hs2 Hnb2 Hth Hlen) as (n & s' & ch' & Hr & _).
  exists n, s'. exact (do_fork_steps 0 0 ex_sys ex_made ex_copied s' ex_W 0 4096 ex_tf 0 0 6 (set_fs 8 y) 0 n ltac:(discriminate)
    ex_made_run ex_copied_run ex_copied_aside Hnb2 Hth Hlen Hr).
Qed.

Lemma wait_never_misses_witness : exists n s, do_fork mlfq 0 0 0 4096 ex_tf 0 ex_sys = Ok n s /\
  rtc ex_step (ex_sys, ex_W) (s, ex_W) /\ exists ch, sys_inv (I := queues_ok kernel_ring) s ch ex_W.
Proof.
  destruct ex_fork as (n & s & Hf & Hrun). exists n, s. split; [exact Hf|]. split; [exact Hrun|].
  destruct (wait_never_misses (sc := mlfq) (I := queues_ok kernel_ring) 0 0 ex_sys ex_W s ex_W (ex_intro _ ex_ch ex_sys_inv) Hrun) as (ch & Hs & _). exists ch. exact Hs.
Defined.

#[local] Instance waiting_dec k p : Decision (waiting k p).
Proof. unfold waiting. apply _. Defined.

(** ** A thread that waits for itself

    When the process 3 ends, its child 5, a thread of the same group, inherits its
    children, itself included. *)
Definition ex_orphan : option (state (X := pool)) :=
  match __do_exit mlfq ex_sys with
  | Sleep s1 _ => match kcall (schedule mlfq) s1 with Ret (_, s2) => Some s2 | _ => None end
  | _ => None
  end.

(** 5 takes the zombie 4 and calls [do_wait] again. *)
Definition ex_alone : option (state (X := pool)) :=
  match ex_orphan with
  | Some s => match do_wait mlfq 1 0 0 (put_kern (upd_current 5 (kern s)) s) with
              | Ok _ s' => match do_wait mlfq 1 0 0 s' with Sleep s2 _ => Some s2 | _ => None end
              | _ => None end
  | None => None
  end.

(** When the first thread of a group ends, a thread that is its child becomes its own
    parent; with no other child left, its next [do_wait(0)] does not fail with
    -E_BAD_PROC but sleeps for its own end, for ever. *)
Theorem thread_waits_for_itself : exists s2, ex_alone = Some s2 /\ waiting (kern s2) 5 /\
  (fun x => (parent x, cptr x, optr x)) <$> info s2 !! 5 = Some (5, 5, 0) /\ ring_of (thread_groups s2) 5 = Some [5].
Proof.
  assert (Hall : (fun s => (bool_decide (waiting (kern s) 5), (fun x => (parent x, cptr x, optr x)) <$> info s !! 5, ring_of (thread_groups s) 5)) <$> ex_alone
    = Some (true, Some (5, 5, 0), Some [5])) by (vm_compute; reflexivity).
  destruct ex_alone as [s2|]; [|discriminate]. exists s2. split; [reflexivity|]. cbn in Hall. injection Hall as H1 H2 H3. split; [exact (bool_decide_eq_true_1 _ H1)|]. split; [exact H2|exact H3].
Qed.
End ProcSpec.
