(* ===== verification/SfsDisk.v ===== *)
(** * The simple file system: its disk (kern/fs/sfs/sfs.h, sfs_io.c)

    The state of a mounted file system, the layout of its blocks in bytes, and the
    transfers of blocks and of parts of blocks.  The device gives a code for every
    transfer, the next of [io_results], 0 when these are used up; memory likewise from
    [mem_results].  The device is at most 2 GB long, so that positions fit [off_t].  The
    semaphores of a file system are left out: every operation runs alone. *)

From S2P Require Import Prelude Bitmap CString.
Open Scope Z_scope.

Module SfsDisk.

Definition SFS_MAGIC : Z := 0x2f8dbe2a.
Definition SFS_BLKSIZE : Z := 4096.
Definition SFS_NDIRECT : Z := 12.
Definition SFS_MAX_INFO_LEN : Z := 31.
Definition SFS_MAX_FNAME_LEN : Z := 255.
Definition SFS_MAX_FILE_SIZE : Z := 1024 * 1024 * 128.
Definition SFS_BLKN_SUPER : Z := 0.
Definition SFS_BLKN_ROOT : Z := 1.
Definition SFS_BLKN_FREEMAP : Z := 2.
Definition SFS_BLKBITS : Z := SFS_BLKSIZE * 8.
Definition SFS_BLK_NENTRY : Z := SFS_BLKSIZE / 4.
Definition SFS_TYPE_INVAL : Z := 0.
Definition SFS_TYPE_FILE : Z := 1.
Definition SFS_TYPE_DIR : Z := 2.
Definition SFS_TYPE_LINK : Z := 3.
Definition SFS_HLIST_SHIFT : Z := 10.
Definition SFS_HLIST_SIZE : Z := Z.shiftl 1 SFS_HLIST_SHIFT.
Definition sin_hashfn (x : Z) : Z := CString.hash32 x SFS_HLIST_SHIFT.
Definition MAX_INODE_COUNT : Z := 0x10000.

Definition u16 (v : Z) : Z := v mod 2 ^ 16.

(** ** Bytes *)

(** A little-endian word of [n] bytes, and back. *)
Fixpoint le_bytes (n : nat) (v : Z) : list Z :=
  match n with O => [] | S n => v mod 256 :: le_bytes n (v / 256) end.

Fixpoint le_val (l : list Z) : Z := match l with [] => 0 | b :: l => b + 256 * le_val l end.

Definition bytes_at (l : list Z) (o n : Z) : list Z := take (Z.to_nat n) (drop (Z.to_nat o) l).
Definition word_at (l : list Z) (o : Z) : Z := le_val (bytes_at l o 4).
Definition half_at (l : list Z) (o : Z) : Z := le_val (bytes_at l o 2).

(** [l] with [d] at the position [o]. *)
Definition splice (l : list Z) (o : Z) (d : list Z) : list Z :=
  take (Z.to_nat o) l ++ d ++ drop (Z.to_nat o + length d) l.

Definition zeros (n : Z) : list Z := replicate (Z.to_nat n) 0.

(** A C string: the bytes up to the first 0. *)
Fixpoint cstr (l : list Z) : list Z :=
  match l with [] => [] | b :: l => if b =? 0 then [] else b :: cstr l end.

(** ** Structures on disk *)

(** [struct sfs_disk_inode]: [info0] is the size of a file or the number of entries of a
    directory, which share a place. *)
Record sfs_disk_inode := mk_din {
  info0 : Z; dir_parent : Z; type : Z; nlinks : Z; blocks : Z; direct : list Z; indirect : Z; db_indirect : Z }.

Definition sizeof_din : Z := 72.

Definition din_bytes (d : sfs_disk_inode) : list Z :=
  le_bytes 4 (info0 d) ++ le_bytes 4 (dir_parent d) ++ le_bytes 2 (type d) ++ le_bytes 2 (nlinks d) ++ le_bytes 4 (blocks d) ++
  concat (le_bytes 4 <$> direct d) ++ le_bytes 4 (indirect d) ++ le_bytes 4 (db_indirect d).

Definition bytes_din (l : list Z) : sfs_disk_inode :=
  mk_din (word_at l 0) (word_at l 4) (half_at l 8) (half_at l 10) (word_at l 12)
    ((fun i => word_at l (16 + 4 * Z.of_nat i)) <$> seq 0 12) (word_at l 64) (word_at l 68).

Definition set_info0 v d := mk_din v (dir_parent d) (type d) (nlinks d) (blocks d) (direct d) (indirect d) (db_indirect d).
Definition set_dir_parent v d := mk_din (info0 d) v (type d) (nlinks d) (blocks d) (direct d) (indirect d) (db_indirect d).
Definition set_nlinks v d := mk_din (info0 d) (dir_parent d) (type d) v (blocks d) (direct d) (indirect d) (db_indirect d).
Definition set_blocks v d := mk_din (info0 d) (dir_parent d) (type d) (nlinks d) v (direct d) (indirect d) (db_indirect d).
Definition set_direct i v d := mk_din (info0 d) (dir_parent d) (type d) (nlinks d) (blocks d) (<[Z.to_nat i := v]> (direct d)) (indirect d) (db_indirect d).
Definition set_indirect v d := mk_din (info0 d) (dir_parent d) (type d) (nlinks d) (blocks d) (direct d) v (db_indirect d).
Definition set_db_indirect v d := mk_din (info0 d) (dir_parent d) (type d) (nlinks d) (blocks d) (direct d) (indirect d) v.

(** [struct sfs_disk_entry]; the name is an array of 256 bytes. *)
Record sfs_disk_entry := mk_entry { ent_ino : Z; ent_name : list Z }.

Definition sizeof_entry : Z := 260.
Definition sfs_dentry_size : Z := 256.

Definition entry_bytes (e : sfs_disk_entry) : list Z := le_bytes 4 (ent_ino e) ++ ent_name e.
Definition bytes_entry (l : list Z) : sfs_disk_entry := mk_entry (word_at l 0) (bytes_at l 4 256).

(** [memset(entry, 0, ...)], then [strcpy(entry->name, name)]. *)
Definition named (name : list Z) : list Z := name ++ zeros (256 - Z.of_nat (length name)).

(** ** The state *)

(** An inode in memory: [struct inode] with [struct sfs_inode]. *)
Record inode := mk_inode {
  ref_count : Z; open_count : Z;
  din : sfs_disk_inode; ino : Z; removed : bool; dirty : bool; reclaim_count : Z }.

Definition set_ref v x := mk_inode v (open_count x) (din x) (ino x) (removed x) (dirty x) (reclaim_count x).
Definition set_open v x := mk_inode (ref_count x) v (din x) (ino x) (removed x) (dirty x) (reclaim_count x).
Definition upd_din f x := mk_inode (ref_count x) (open_count x) (f (din x)) (ino x) (removed x) (dirty x) (reclaim_count x).
Definition set_removed x := mk_inode (ref_count x) (open_count x) (din x) (ino x) true (dirty x) (reclaim_count x).
Definition set_dirty v x := mk_inode (ref_count x) (open_count x) (din x) (ino x) (removed x) v (reclaim_count x).
Definition set_reclaim v x := mk_inode (ref_count x) (open_count x) (din x) (ino x) (removed x) (dirty x) v.

Record sfs_fs := mk_sfs {
  super_blocks : Z; unused_blocks : Z; super_info : list Z; super_dirty : bool; freemap : Bitmap.bitmap;
  inode_list : list Z; hash_list : gmap Z (list Z); nodes : gmap Z inode;
  disk : gmap Z (list Z); io_results : list Z; mem_results : list bool }.

Definition put_super b u i s := mk_sfs b u i (super_dirty s) (freemap s) (inode_list s) (hash_list s) (nodes s) (disk s) (io_results s) (mem_results s).
Definition upd_unused f s := mk_sfs (super_blocks s) (f (unused_blocks s)) (super_info s) (super_dirty s) (freemap s) (inode_list s) (hash_list s) (nodes s) (disk s) (io_results s) (mem_results s).
Definition put_super_dirty v s := mk_sfs (super_blocks s) (unused_blocks s) (super_info s) v (freemap s) (inode_list s) (hash_list s) (nodes s) (disk s) (io_results s) (mem_results s).
Definition put_freemap v s := mk_sfs (super_blocks s) (unused_blocks s) (super_info s) (super_dirty s) v (inode_list s) (hash_list s) (nodes s) (disk s) (io_results s) (mem_results s).
Definition upd_lists f g s := mk_sfs (super_blocks s) (unused_blocks s) (super_info s) (super_dirty s) (freemap s) (f (inode_list s)) (g (hash_list s)) (nodes s) (disk s) (io_results s) (mem_results s).
Definition upd_nodes f s := mk_sfs (super_blocks s) (unused_blocks s) (super_info s) (super_dirty s) (freemap s) (inode_list s) (hash_list s) (f (nodes s)) (disk s) (io_results s) (mem_results s).
Definition upd_disk f s := mk_sfs (super_blocks s) (unused_blocks s) (super_info s) (super_dirty s) (freemap s) (inode_list s) (hash_list s) (nodes s) (f (disk s)) (io_results s) (mem_results s).
Definition put_io l s := mk_sfs (super_blocks s) (unused_blocks s) (super_info s) (super_dirty s) (freemap s) (inode_list s) (hash_list s) (nodes s) (disk s) l (mem_results s).
Definition put_mem l s := mk_sfs (super_blocks s) (unused_blocks s) (super_info s) (super_dirty s) (freemap s) (inode_list s) (hash_list s) (nodes s) (disk s) (io_results s) l.

(** The code of the next transfer, and whether the next allocation succeeds. *)
Definition io_result : M sfs_fs Z :=
  s <- get ;; match io_results s with [] => ret 0 | r :: l => modify (put_io l) ;; ret r end.

Definition kmalloc : M sfs_fs bool :=
  s <- get ;; match mem_results s with [] => ret true | b :: l => modify (put_mem l) ;; ret b end.

(** A call on the bitmap. *)
Definition on_freemap {A} (m : M Bitmap.bitmap A) : M sfs_fs A := fun s =>
  match m (freemap s) with Ret (a, b) => Ret (a, put_freemap b s) | Panic => Panic | OutOfFuel => OutOfFuel end.

(** ** Transfers (sfs_io.c) *)

(** The contents of the buffer afterwards come with the code. *)
Definition sfs_rwblock_nolock (buf : list Z) (blkno : Z) (write check : bool) : M sfs_fs (Z * list Z) :=
  s <- get ;;
  assert ((negb (blkno =? 0) || negb check) && (blkno <? super_blocks s)) ;;
  r <- io_result ;;
  if negb (r =? 0) then ret (r, buf)
  else if write then modify (upd_disk <[blkno := buf]>) ;; ret (0, buf)
  else b <- deref (disk s !! blkno) ;; ret (0, b).

(** [while (nblks != 0)], reading or writing. *)
Fixpoint rblock_loop (nblks : nat) (blkno : Z) (buf : list Z) : M sfs_fs (Z * list Z) :=
  match nblks with
  | O => ret (0, [])
  | S n =>
      '(r, b) <- sfs_rwblock_nolock (bytes_at buf 0 SFS_BLKSIZE) blkno false true ;;
      if negb (r =? 0) then ret (r, buf)
      else '(r, l) <- rblock_loop n (blkno + 1) (drop (Z.to_nat SFS_BLKSIZE) buf) ;; ret (r, b ++ l)
  end.

Fixpoint wblock_loop (nblks : nat) (blkno : Z) (buf : list Z) : M sfs_fs Z :=
  match nblks with
  | O => ret 0
  | S n =>
      '(r, _) <- sfs_rwblock_nolock (bytes_at buf 0 SFS_BLKSIZE) blkno true true ;;
      if negb (r =? 0) then ret r else wblock_loop n (blkno + 1) (drop (Z.to_nat SFS_BLKSIZE) buf)
  end.

Definition sfs_rblock (buf : list Z) (blkno nblks : Z) : M sfs_fs (Z * list Z) := rblock_loop (Z.to_nat nblks) blkno buf.
Definition sfs_wblock (buf : list Z) (blkno nblks : Z) : M sfs_fs Z := wblock_loop (Z.to_nat nblks) blkno buf.

(** [len] bytes of a block from [offset] on; nothing when the transfer fails. *)
Definition sfs_rbuf (len blkno offset : Z) : M sfs_fs (Z * list Z) :=
  assert ((0 <=? offset) && (offset <? SFS_BLKSIZE) && (offset + len <=? SFS_BLKSIZE)) ;;
  '(r, b) <- sfs_rwblock_nolock [] blkno false true ;;
  if r =? 0 then ret (0, bytes_at b offset len) else ret (r, []).

Definition sfs_wbuf (buf : list Z) (blkno offset : Z) : M sfs_fs Z :=
  assert ((0 <=? offset) && (offset <? SFS_BLKSIZE) && (offset + Z.of_nat (length buf) <=? SFS_BLKSIZE)) ;;
  '(r, b) <- sfs_rwblock_nolock [] blkno false true ;;
  if r =? 0 then '(r, _) <- sfs_rwblock_nolock (splice b offset buf) blkno true true ;; ret r else ret r.

Definition super_bytes (s : sfs_fs) : list Z :=
  le_bytes 4 SFS_MAGIC ++ le_bytes 4 (super_blocks s) ++ le_bytes 4 (unused_blocks s) ++ super_info s.

Definition sfs_sync_super : M sfs_fs Z :=
  s <- get ;;
  '(r, _) <- sfs_rwblock_nolock (splice (zeros SFS_BLKSIZE) 0 (super_bytes s)) SFS_BLKN_SUPER true false ;;
  ret r.

Definition sfs_freemap_bits (blocks : Z) : Z := u32 (u32 (blocks + SFS_BLKBITS) - 1) / SFS_BLKBITS * SFS_BLKBITS.
Definition sfs_freemap_blocks (blocks : Z) : Z := Bitmap.ROUNDUP_DIV blocks SFS_BLKBITS.

Definition freemap_bytes (b : Bitmap.bitmap) : list Z := concat (le_bytes 4 <$> fst (Bitmap.bitmap_getdata b)).

Definition sfs_sync_freemap : M sfs_fs Z :=
  s <- get ;; sfs_wblock (freemap_bytes (freemap s)) SFS_BLKN_FREEMAP (sfs_freemap_blocks (super_blocks s)).

Fixpoint clear_loop (nblks : nat) (blkno : Z) : M sfs_fs Z :=
  match nblks with
  | O => ret 0
  | S n =>
      '(r, _) <- sfs_rwblock_nolock (zeros SFS_BLKSIZE) blkno true true ;;
      if negb (r =? 0) then ret r else clear_loop n (blkno + 1)
  end.

Definition sfs_clear_block (blkno nblks : Z) : M sfs_fs Z := clear_loop (Z.to_nat nblks) blkno.

End SfsDisk.
