(* ===== verification/Sfs.v ===== *)
(** * The simple file system: inodes, files and directories (kern/fs/sfs/sfs_inode.c,
    sfs_fs.c, and the counts of kern/fs/vfs/inode.c)

    A name is the list of its bytes, without the final 0.  Results that the code stores
    through pointers come in pairs with its return value. *)

From S2P Require Import Prelude Bitmap CString SfsDisk.
Import SfsDisk.
Open Scope Z_scope.

Module Sfs.

Definition S_IFREG : Z := 0x1000.
Definition S_IFDIR : Z := 0x2000.
Definition S_IFLNK : Z := 0x3000.
Definition O_RDONLY : Z := 0.
Definition O_ACCMODE : Z := 3.
Definition O_APPEND : Z := 0x20.

Definition get_node (a : Z) : M sfs_fs inode := s <- get ;; deref (nodes s !! a).
Definition set_node (f : inode -> inode) (a : Z) : M sfs_fs unit :=
  _ <- get_node a ;; modify (upd_nodes (alter f a)).

(** ** Locks: only the test of the flag is left *)

Definition trylock_sin (a : Z) : M sfs_fs Z :=
  x <- get_node a ;; ret (if removed x then - E_NOENT else 0).

(** ** Inodes in memory *)

(** The type of an inode selects its table of operations; no other type has one. *)
Definition sfs_get_ops (t : Z) : M sfs_fs bool :=
  if t =? SFS_TYPE_DIR then ret true else if t =? SFS_TYPE_FILE then ret false else panic.

Definition sfs_set_links (a : Z) : M sfs_fs unit :=
  x <- get_node a ;;
  s <- get ;;
  l <- deref (hash_list s !! sin_hashfn (ino x)) ;;
  modify (upd_lists (cons a) <[sin_hashfn (ino x) := a :: l]>).

Definition sfs_remove_links (a : Z) : M sfs_fs unit :=
  modify (upd_lists (base.filter (fun x => x <> a)) (fmap (base.filter (fun x => x <> a)))).

(** ** Free blocks *)

Definition sfs_block_inuse (b : Z) : M sfs_fs bool :=
  s <- get ;;
  if negb (b =? 0) && (b <? super_blocks s)
  then t <- on_freemap (Bitmap.bitmap_test b) ;; ret (negb t)
  else panic.

(** [assert(sfs_block_inuse(sfs, b))]. *)
Definition assert_inuse (b : Z) : M sfs_fs unit := u <- sfs_block_inuse b ;; assert u.

Definition sfs_block_alloc : M sfs_fs (Z * Z) :=
  '(r, o) <- on_freemap Bitmap.bitmap_alloc ;;
  if negb (r =? 0) then ret (r, 0)
  else
    b <- deref o ;;
    s <- get ;;
    assert (0 <? unused_blocks s) ;;
    modify (upd_unused (fun u => u - 1)) ;;
    modify (put_super_dirty true) ;;
    assert_inuse b ;;
    r <- sfs_clear_block b 1 ;;
    ret (r, b).

Definition sfs_block_free (b : Z) : M sfs_fs unit :=
  assert_inuse b ;;
  on_freemap (Bitmap.bitmap_free b) ;;
  modify (upd_unused (fun u => u32 (u + 1))) ;;
  modify (put_super_dirty true).

(** An address that holds no inode. *)
Definition new_addr (m : gmap Z inode) : Z := foldr Z.max 0 (fst <$> map_to_list m) + 1.

(** NULL is 0. *)
Definition sfs_create_inode (d : sfs_disk_inode) (n : Z) : M sfs_fs (Z * Z) :=
  ok <- kmalloc ;;
  if (ok : bool) then
    _ <- sfs_get_ops (type d) ;;
    s <- get ;;
    let a := new_addr (nodes s) in
    modify (upd_nodes <[a := mk_inode 1 0 d n false false 1]>) ;;
    ret (0, a)
  else ret (- E_NO_MEM, 0).

Fixpoint lookup_loop (l : list Z) (n : Z) : M sfs_fs Z :=
  match l with
  | [] => ret 0
  | a :: l =>
      x <- get_node a ;;
      if ino x =? n then
        let r := s32 (ref_count x + 1) in
        set_node (set_ref r) a ;;
        (if r =? 1 then set_node (set_reclaim (s32 (reclaim_count x + 1))) a else ret tt) ;;
        ret a
      else lookup_loop l n
  end.

Definition lookup_sfs_nolock (n : Z) : M sfs_fs Z :=
  s <- get ;; l <- deref (hash_list s !! sin_hashfn n) ;; lookup_loop l n.

Definition sfs_load_inode (n : Z) : M sfs_fs (Z * Z) :=
  a <- lookup_sfs_nolock n ;;
  if negb (a =? 0) then ret (0, a)
  else
    ok <- kmalloc ;;
    if negb ok then ret (- E_NO_MEM, 0)
    else
      assert_inuse n ;;
      '(r, b) <- sfs_rbuf sizeof_din n 0 ;;
      if negb (r =? 0) then ret (r, 0)
      else
        let d := bytes_din b in
        assert (negb (nlinks d =? 0)) ;;
        '(r, a) <- sfs_create_inode d n ;;
        if negb (r =? 0) then ret (r, 0)
        else sfs_set_links a ;; ret (0, a).

(** ** The blocks of a file *)

(** The entry of an index block [ent] (0: none yet), made if [create]: the code, [*entp]
    and [*ino_store]. *)
Definition sfs_bmap_get_sub_nolock (ent index : Z) (create : bool) : M sfs_fs (Z * Z * Z) :=
  assert (index <? SFS_BLK_NENTRY) ;;
  let offset := u32 (index * 4) in
  let fill e : M sfs_fs (Z * Z * Z) :=
    let failed_cleanup r : M sfs_fs (Z * Z * Z) :=
      (if negb (e =? ent) then sfs_block_free e else ret tt) ;; ret (r, ent, 0) in
    '(r, b) <- sfs_block_alloc ;;
    if negb (r =? 0) then failed_cleanup r
    else
      r <- sfs_wbuf (le_bytes 4 b) e offset ;;
      if negb (r =? 0) then sfs_block_free b ;; failed_cleanup r
      else ret (0, e, b) in
  if negb (ent =? 0) then
    '(r, l) <- sfs_rbuf 4 ent offset ;;
    if negb (r =? 0) then ret (r, ent, 0)
    else
      let b := le_val l in
      if negb (b =? 0) || negb create then ret (0, ent, b) else fill ent
  else if negb create then ret (0, ent, 0)
  else
    '(r, e) <- sfs_block_alloc ;;
    if negb (r =? 0) then ret (r, ent, 0) else fill e.

(** [assert(ino == 0 || sfs_block_inuse(sfs, ino))]. *)
Definition bmap_out (b : Z) : M sfs_fs (Z * Z) :=
  (if b =? 0 then ret tt else assert_inuse b) ;; ret (0, b).

Definition sfs_bmap_get_nolock (a index : Z) (create : bool) : M sfs_fs (Z * Z) :=
  x <- get_node a ;;
  if index <? SFS_NDIRECT then
    b <- deref (direct (din x) !! Z.to_nat index) ;;
    if (b =? 0) && create then
      '(r, b) <- sfs_block_alloc ;;
      if negb (r =? 0) then ret (r, 0)
      else
        set_node (upd_din (set_direct index b)) a ;;
        set_node (set_dirty true) a ;;
        bmap_out b
    else bmap_out b
  else
    let index := index - SFS_NDIRECT in
    if index <? SFS_BLK_NENTRY then
      '(r, ent, b) <- sfs_bmap_get_sub_nolock (indirect (din x)) index create ;;
      if negb (r =? 0) then ret (r, 0)
      else
        (if negb (ent =? indirect (din x)) then
           assert (indirect (din x) =? 0) ;;
           set_node (upd_din (set_indirect ent)) a ;;
           set_node (set_dirty true) a
         else ret tt) ;;
        bmap_out b
    else
      let index := index - SFS_BLK_NENTRY in
      '(r, ent, b) <- sfs_bmap_get_sub_nolock (db_indirect (din x)) (index / SFS_BLK_NENTRY) create ;;
      if negb (r =? 0) then ret (r, 0)
      else
        (if negb (ent =? db_indirect (din x)) then
           assert (db_indirect (din x) =? 0) ;;
           set_node (upd_din (set_db_indirect ent)) a ;;
           set_node (set_dirty true) a
         else ret tt) ;;
        if negb (b =? 0) then
          '(r, _, b) <- sfs_bmap_get_sub_nolock b (index mod SFS_BLK_NENTRY) create ;;
          if negb (r =? 0) then ret (r, 0) else bmap_out b
        else bmap_out b.

Definition sfs_bmap_free_sub_nolock (ent index : Z) : M sfs_fs Z :=
  u <- sfs_block_inuse ent ;;
  assert (u && (index <? SFS_BLK_NENTRY)) ;;
  let offset := u32 (index * 4) in
  '(r, l) <- sfs_rbuf 4 ent offset ;;
  if negb (r =? 0) then ret r
  else
    let b := le_val l in
    if negb (b =? 0) then
      r <- sfs_wbuf (le_bytes 4 0) ent offset ;;
      if negb (r =? 0) then ret r else sfs_block_free b ;; ret 0
    else ret 0.

Definition sfs_bmap_free_nolock (a index : Z) : M sfs_fs Z :=
  x <- get_node a ;;
  if index <? SFS_NDIRECT then
    b <- deref (direct (din x) !! Z.to_nat index) ;;
    if negb (b =? 0) then
      sfs_block_free b ;;
      set_node (upd_din (set_direct index 0)) a ;;
      set_node (set_dirty true) a ;;
      ret 0
    else ret 0
  else
    let index := index - SFS_NDIRECT in
    if index <? SFS_BLK_NENTRY then
      if negb (indirect (din x) =? 0) then sfs_bmap_free_sub_nolock (indirect (din x)) index else ret 0
    else
      let index := index - SFS_BLK_NENTRY in
      if negb (db_indirect (din x) =? 0) then
        '(r, _, b) <- sfs_bmap_get_sub_nolock (db_indirect (din x)) (index / SFS_BLK_NENTRY) false ;;
        if negb (r =? 0) then ret r
        else if negb (b =? 0) then sfs_bmap_free_sub_nolock b (index mod SFS_BLK_NENTRY) else ret 0
      else ret 0.

Definition sfs_bmap_load_nolock (a index : Z) : M sfs_fs (Z * Z) :=
  x <- get_node a ;;
  assert (index <=? blocks (din x)) ;;
  let create := index =? blocks (din x) in
  '(r, b) <- sfs_bmap_get_nolock a index create ;;
  if negb (r =? 0) then ret (r, 0)
  else
    assert_inuse b ;;
    (if create then set_node (upd_din (fun d => set_blocks (u32 (blocks d + 1)) d)) a else ret tt) ;;
    ret (0, b).

Definition sfs_bmap_truncate_nolock (a : Z) : M sfs_fs Z :=
  x <- get_node a ;;
  assert (negb (blocks (din x) =? 0)) ;;
  r <- sfs_bmap_free_nolock a (blocks (din x) - 1) ;;
  if negb (r =? 0) then ret r
  else
    set_node (upd_din (fun d => set_blocks (blocks d - 1) d)) a ;;
    set_node (set_dirty true) a ;;
    ret 0.

(** ** Reading and writing *)

Definition sfs_buf_op (write : bool) (data : list Z) (size b blkoff : Z) : M sfs_fs (Z * list Z) :=
  if write then r <- sfs_wbuf (bytes_at data 0 size) b blkoff ;; ret (r, []) else sfs_rbuf size b blkoff.

Definition sfs_block_op (write : bool) (data : list Z) (b : Z) : M sfs_fs (Z * list Z) :=
  if write then r <- sfs_wblock (bytes_at data 0 SFS_BLKSIZE) b 1 ;; ret (r, [])
  else '(r, l) <- sfs_rblock [] b 1 ;; ret (r, if r =? 0 then l else []).

(** [while (nblks != 0)]: the code, the number of bytes moved and those read. *)
Fixpoint io_loop (nblks : nat) (a : Z) (write : bool) (data : list Z) (blkno : Z) : M sfs_fs (Z * Z * list Z) :=
  match nblks with
  | O => ret (0, 0, [])
  | S n =>
      '(r, b) <- sfs_bmap_load_nolock a blkno ;;
      if negb (r =? 0) then ret (r, 0, [])
      else
        '(r, l) <- sfs_block_op write data b ;;
        if negb (r =? 0) then ret (r, 0, [])
        else
          '(r, alen, l') <- io_loop n a write (drop (Z.to_nat SFS_BLKSIZE) data) (blkno + 1) ;;
          ret (r, SFS_BLKSIZE + alen, l ++ l')
  end.

(** The first, incomplete block. *)
Definition io_head (a : Z) (write : bool) (data : list Z) (size blkno blkoff : Z) : M sfs_fs (Z * Z * list Z) :=
  '(r, b) <- sfs_bmap_load_nolock a blkno ;;
  if negb (r =? 0) then ret (r, 0, [])
  else
    '(r, l) <- sfs_buf_op write data size b blkoff ;;
    if negb (r =? 0) then ret (r, 0, []) else ret (0, size, l).

(** The full blocks and the last, incomplete one. *)
Definition io_rest (a : Z) (write : bool) (data : list Z) (blkno nblks endpos : Z) : M sfs_fs (Z * Z * list Z) :=
  '(r, alen, l) <- io_loop (Z.to_nat nblks) a write data blkno ;;
  if negb (r =? 0) then ret (r, alen, l)
  else
    let size := endpos mod SFS_BLKSIZE in
    if negb (size =? 0) then
      '(r, alen', l') <- io_head a write (drop (Z.to_nat alen) data) size (blkno + nblks) 0 ;;
      ret (r, alen + alen', l ++ l')
    else ret (0, alen, l).

(** The transfers: the code, [alen] and the bytes read. *)
Definition io_parts (a : Z) (write : bool) (data : list Z) (offset endpos : Z) : M sfs_fs (Z * Z * list Z) :=
  let blkno := offset / SFS_BLKSIZE in
  let nblks := endpos / SFS_BLKSIZE - blkno in
  let blkoff := offset mod SFS_BLKSIZE in
  if negb (blkoff =? 0) then
    let size := if negb (nblks =? 0) then SFS_BLKSIZE - blkoff else endpos - offset in
    '(r, alen, l) <- io_head a write data size blkno blkoff ;;
    if negb (r =? 0) then ret (r, alen, l)
    else if nblks =? 0 then ret (0, alen, l)
    else
      '(r, alen', l') <- io_rest a write (drop (Z.to_nat size) data) (blkno + 1) (nblks - 1) endpos ;;
      ret (r, alen + alen', l ++ l')
  else io_rest a write data blkno nblks endpos.

(** The return value, [*alenp] and the bytes read; [data] are the bytes at [buf]. *)
Definition sfs_io_nolock (a : Z) (data : list Z) (offset alen : Z) (write : bool) : M sfs_fs (Z * Z * list Z) :=
  x <- get_node a ;;
  assert (negb (type (din x) =? SFS_TYPE_DIR)) ;;
  let endpos := s32 (offset + alen) in
  if (offset <? 0) || (SFS_MAX_FILE_SIZE <=? offset) || (endpos <? offset) then ret (- E_INVAL, 0, [])
  else if offset =? endpos then ret (0, 0, [])
  else
    let endpos := if SFS_MAX_FILE_SIZE <? endpos then SFS_MAX_FILE_SIZE else endpos in
    if negb write && (info0 (din x) <=? offset) then ret (0, 0, [])
    else
      let endpos := if negb write && (info0 (din x) <? endpos) then info0 (din x) else endpos in
      '(r, alen, l) <- io_parts a write data offset endpos ;;
      x <- get_node a ;;
      (if info0 (din x) <? offset + alen then
         set_node (upd_din (set_info0 (offset + alen))) a ;;
         set_node (set_dirty true) a
       else ret tt) ;;
      ret (r, alen, l).

(** The descriptor is its offset and what is left to transfer. *)
Definition sfs_io (a : Z) (data : list Z) (io_offset io_resid : Z) (write : bool) : M sfs_fs (Z * Z * Z * list Z) :=
  r <- trylock_sin a ;;
  if negb (r =? 0) then ret (r, io_offset, io_resid, [])
  else
    '(r, alen, l) <- sfs_io_nolock a data io_offset io_resid write ;;
    ret (r, s32 (io_offset + alen), u32 (io_resid - alen), l).

Definition sfs_read a o n := sfs_io a [] o n false.
Definition sfs_write a data o := sfs_io a data o (Z.of_nat (length data)) true.
End Sfs.
