(* ===== verification/SfsDir.v ===== *)
(** * The simple file system: directories, paths and the life of an inode
    (kern/fs/sfs/sfs_inode.c, sfs_fs.c, and the counts of kern/fs/vfs/inode.c) *)

From S2P Require Import Prelude Bitmap CString SfsDisk Sfs.
Import SfsDisk Sfs.
Open Scope Z_scope.

Module SfsDir.

(** ** Writing back, and the end of an inode *)

(** The checks before every operation on an inode. *)
Definition inode_check (a : Z) : M sfs_fs unit :=
  x <- get_node a ;;
  assert ((open_count x <=? ref_count x) && (0 <=? open_count x)) ;;
  assert ((ref_count x <? MAX_INODE_COUNT) && (open_count x <? MAX_INODE_COUNT)).

Definition sfs_fsync (a : Z) : M sfs_fs Z :=
  x <- get_node a ;;
  if (nlinks (din x) =? 0) || negb (dirty x) then ret 0
  else
    r <- trylock_sin a ;;
    if negb (r =? 0) then ret r
    else
      set_node (set_dirty false) a ;;
      r <- sfs_wbuf (din_bytes (din x)) (ino x) 0 ;;
      (if negb (r =? 0) then set_node (set_dirty true) a else ret tt) ;;
      ret r.

(** [for (nblks = blocks; nblks != 0; nblks --)]; errors are ignored. *)
Fixpoint truncate_all (nblks : nat) (a : Z) : M sfs_fs unit :=
  match nblks with O => ret tt | S n => _ <- sfs_bmap_truncate_nolock a ;; truncate_all n a end.

Fixpoint free_subs (n : nat) (ent i : Z) : M sfs_fs unit :=
  match n with O => ret tt | S n => _ <- sfs_bmap_free_sub_nolock ent i ;; free_subs n ent (i + 1) end.

Definition inode_kill (a : Z) : M sfs_fs unit :=
  x <- get_node a ;;
  assert (ref_count x =? 0) ;;
  assert (open_count x =? 0) ;;
  modify (upd_nodes (delete a)).

(** The blocks an inode without links still holds. *)
Definition reclaim_blocks (a : Z) : M sfs_fs unit :=
  x <- get_node a ;;
  sfs_block_free (ino x) ;;
  (if negb (indirect (din x) =? 0) then sfs_block_free (indirect (din x)) else ret tt) ;;
  (if negb (db_indirect (din x) =? 0) then
     free_subs (Z.to_nat SFS_BLK_NENTRY) (db_indirect (din x)) 0 ;; sfs_block_free (db_indirect (din x))
   else ret tt).

Definition sfs_reclaim (a : Z) : M sfs_fs Z :=
  x <- get_node a ;;
  assert (0 <? reclaim_count x) ;;
  set_node (set_reclaim (reclaim_count x - 1)) a ;;
  if negb (reclaim_count x - 1 =? 0) then ret (- E_BUSY)
  else
    assert ((ref_count x =? 0) && (open_count x =? 0)) ;;
    r <- (if nlinks (din x) =? 0 then truncate_all (Z.to_nat (blocks (din x))) a ;; ret 0
          else if dirty x then inode_check a ;; sfs_fsync a else ret 0) ;;
    if negb (r =? 0) then ret r
    else
      sfs_remove_links a ;;
      x <- get_node a ;;
      (if nlinks (din x) =? 0 then reclaim_blocks a else ret tt) ;;
      inode_kill a ;;
      ret 0.

Definition vop_ref_inc (a : Z) : M sfs_fs Z :=
  x <- get_node a ;; set_node (set_ref (s32 (ref_count x + 1))) a ;; ret (s32 (ref_count x + 1)).

(** [inode_ref_dec]: what [vop_reclaim] returns is only printed. *)
Definition vop_ref_dec (a : Z) : M sfs_fs Z :=
  x <- get_node a ;;
  assert (0 <? ref_count x) ;;
  let r := ref_count x - 1 in
  set_node (set_ref r) a ;;
  (if r =? 0 then inode_check a ;; _ <- sfs_reclaim a ;; ret tt else ret tt) ;;
  ret r.

Definition vop_open_inc (a : Z) : M sfs_fs Z :=
  x <- get_node a ;; set_node (set_open (s32 (open_count x + 1))) a ;; ret (s32 (open_count x + 1)).

Definition sfs_close (a : Z) : M sfs_fs Z := inode_check a ;; sfs_fsync a.

Definition vop_open_dec (a : Z) : M sfs_fs Z :=
  x <- get_node a ;;
  assert (0 <? open_count x) ;;
  let r := open_count x - 1 in
  set_node (set_open r) a ;;
  (if r =? 0 then inode_check a ;; _ <- sfs_close a ;; ret tt else ret tt) ;;
  ret r.

Definition sfs_opendir (open_flags : Z) : Z :=
  if negb (Z.land open_flags O_ACCMODE =? O_RDONLY) then - E_ISDIR
  else if negb (Z.land open_flags O_APPEND =? 0) then - E_ISDIR else 0.

Definition sfs_openfile (open_flags : Z) : Z := 0.

(** ** Directories: one entry in each block *)

Definition assert_dir_slot (a slot : Z) (ok : Z -> bool) : M sfs_fs unit :=
  x <- get_node a ;; assert ((type (din x) =? SFS_TYPE_DIR) && ((0 <=? slot) && ok (blocks (din x)))).

Definition sfs_dirent_read_nolock (a slot : Z) : M sfs_fs (Z * sfs_disk_entry) :=
  assert_dir_slot a slot (fun n => slot <? n) ;;
  '(r, b) <- sfs_bmap_load_nolock a slot ;;
  if negb (r =? 0) then ret (r, mk_entry 0 [])
  else
    assert_inuse b ;;
    '(r, l) <- sfs_rbuf sizeof_entry b 0 ;;
    if negb (r =? 0) then ret (r, mk_entry 0 [])
    else
      let e := bytes_entry l in
      ret (0, mk_entry (ent_ino e) (<[Z.to_nat SFS_MAX_FNAME_LEN := 0]> (ent_name e))).

(** An entry for [n], or an empty one when [n] is 0. *)
Definition sfs_dirent_write_nolock (a slot n : Z) (name : list Z) : M sfs_fs Z :=
  assert_dir_slot a slot (fun k => slot <=? k) ;;
  ok <- kmalloc ;;
  if negb ok then ret (- E_NO_MEM)
  else
    (if negb (n =? 0) then assert (Z.of_nat (length name) <=? SFS_MAX_FNAME_LEN) else ret tt) ;;
    let e := if negb (n =? 0) then mk_entry n (named name) else mk_entry 0 (zeros 256) in
    '(r, b) <- sfs_bmap_load_nolock a slot ;;
    if negb (r =? 0) then ret r
    else
      assert_inuse b ;;
      sfs_wbuf (entry_bytes e) b 0.

(** A link more, or one less, in the directory [a] and in the inode [l]. *)
Definition count_link (a l : Z) (d : Z) : M sfs_fs unit :=
  set_node (set_dirty true) a ;;
  set_node (upd_din (fun x => set_info0 (u32 (info0 x + d)) x)) a ;;
  set_node (set_dirty true) l ;;
  set_node (upd_din (fun x => set_nlinks (u16 (nlinks x + d)) x)) l.

Definition sfs_dirent_link_nolock (a slot l : Z) (name : list Z) : M sfs_fs Z :=
  y <- get_node l ;;
  r <- sfs_dirent_write_nolock a slot (ino y) name ;;
  if negb (r =? 0) then ret r else count_link a l 1 ;; ret 0.

Definition sfs_dirent_unlink_nolock (a slot l : Z) : M sfs_fs Z :=
  r <- sfs_dirent_write_nolock a slot 0 [] ;;
  if negb (r =? 0) then ret r
  else
    x <- get_node a ;;
    y <- get_node l ;;
    assert (negb (info0 (din x) =? 0) && negb (nlinks (din y) =? 0)) ;;
    count_link a l (-1) ;;
    ret 0.

(** What the search stores: [*ino_store], [*slot] and [*empty_slot]. *)
Record found := mk_found { f_ino : Z; f_slot : Z; f_empty : Z }.

Fixpoint search_loop (n : nat) (a : Z) (name : list Z) (i empty : Z) : M sfs_fs (Z * found) :=
  match n with
  | O => ret (- E_NOENT, mk_found 0 0 empty)
  | S n =>
      '(r, e) <- sfs_dirent_read_nolock a i ;;
      if negb (r =? 0) then ret (r, mk_found 0 0 empty)
      else if ent_ino e =? 0 then search_loop n a name (i + 1) i
      else if bool_decide (name = cstr (ent_name e)) then ret (0, mk_found (ent_ino e) i empty)
      else search_loop n a name (i + 1) empty
  end.

Definition sfs_dirent_search_nolock (a : Z) (name : list Z) : M sfs_fs (Z * found) :=
  assert (Z.of_nat (length name) <=? SFS_MAX_FNAME_LEN) ;;
  ok <- kmalloc ;;
  if negb ok then ret (- E_NO_MEM, mk_found 0 0 0)
  else
    x <- get_node a ;;
    search_loop (Z.to_nat (blocks (din x))) a name 0 (blocks (din x)).

Fixpoint findino_loop (n : nat) (a want i : Z) : M sfs_fs (Z * sfs_disk_entry) :=
  match n with
  | O => ret (- E_NOENT, mk_entry 0 [])
  | S n =>
      '(r, e) <- sfs_dirent_read_nolock a i ;;
      if negb (r =? 0) then ret (r, e)
      else if ent_ino e =? want then ret (0, e)
      else findino_loop n a want (i + 1)
  end.

Definition sfs_dirent_findino_nolock (a want : Z) : M sfs_fs (Z * sfs_disk_entry) :=
  x <- get_node a ;; findino_loop (Z.to_nat (blocks (din x))) a want 0.

Definition sfs_dirent_create_inode (t : Z) : M sfs_fs (Z * Z) :=
  ok <- kmalloc ;;
  if negb ok then ret (- E_NO_MEM, 0)
  else
    '(r, n) <- sfs_block_alloc ;;
    if negb (r =? 0) then ret (r, 0)
    else
      '(r, a) <- sfs_create_inode (mk_din 0 0 t 0 0 (zeros SFS_NDIRECT) 0 0) n ;;
      if negb (r =? 0) then sfs_block_free n ;; ret (r, 0)
      else sfs_set_links a ;; ret (0, a).

Definition sfs_load_parent (a : Z) : M sfs_fs (Z * Z) :=
  x <- get_node a ;; sfs_load_inode (dir_parent (din x)).

Definition sfs_lookup_once (a : Z) (name : list Z) : M sfs_fs (Z * Z) :=
  r <- trylock_sin a ;;
  if negb (r =? 0) then ret (r, 0)
  else
    '(r, f) <- sfs_dirent_search_nolock a name ;;
    if negb (r =? 0) then ret (r, 0) else sfs_load_inode (f_ino f).

(** ** Operations on directories *)

Definition sfs_nlinks_inc_nolock (a : Z) : M sfs_fs unit :=
  set_node (set_dirty true) a ;; set_node (upd_din (fun d => set_nlinks (u16 (nlinks d + 1)) d)) a.

Definition sfs_nlinks_dec_nolock (a : Z) : M sfs_fs unit :=
  x <- get_node a ;;
  assert (negb (nlinks (din x) =? 0)) ;;
  set_node (set_dirty true) a ;; set_node (upd_din (fun d => set_nlinks (nlinks d - 1) d)) a.

Definition sfs_dirinfo_set_parent (a p : Z) : M sfs_fs unit :=
  y <- get_node p ;; set_node (set_dirty true) a ;; set_node (upd_din (set_dir_parent (ino y))) a.

(** The code of a search that should not find the name. *)
Definition exists_or (r : Z) : Z := if negb (r =? 0) then r else - E_EXISTS.

Definition sfs_mkdir_nolock (a : Z) (name : list Z) : M sfs_fs Z :=
  '(r, f) <- sfs_dirent_search_nolock a name ;;
  if negb (r =? - E_NOENT) then ret (exists_or r)
  else
    '(r, l) <- sfs_dirent_create_inode SFS_TYPE_DIR ;;
    if negb (r =? 0) then ret r
    else
      r <- sfs_dirent_link_nolock a (f_empty f) l name ;;
      (if negb (r =? 0) then
         y <- get_node l ;;
         assert (nlinks (din y) =? 0) ;;
         assert ((ref_count y =? 1) && (open_count y =? 0))
       else
         sfs_dirinfo_set_parent l a ;; sfs_nlinks_inc_nolock l ;; sfs_nlinks_inc_nolock a) ;;
      _ <- vop_ref_dec l ;;
      ret r.

Definition dot : list Z := [46].
Definition dotdot : list Z := [46; 46].
Definition is_dots (name : list Z) : bool := bool_decide (name = dot) || bool_decide (name = dotdot).
Definition too_long (name : list Z) : bool := SFS_MAX_FNAME_LEN <? Z.of_nat (length name).

(** [m] with the inode locked. *)
Definition locked (a : Z) (m : M sfs_fs Z) : M sfs_fs Z :=
  r <- trylock_sin a ;; if r =? 0 then m else ret r.

Definition sfs_mkdir (a : Z) (name : list Z) : M sfs_fs Z :=
  if too_long name then ret (- E_TOO_BIG)
  else if is_dots name then ret (- E_EXISTS)
  else locked a (sfs_mkdir_nolock a name).

Definition sfs_link_nolock (a l : Z) (name : list Z) : M sfs_fs Z :=
  '(r, f) <- sfs_dirent_search_nolock a name ;;
  if negb (r =? - E_NOENT) then ret (exists_or r)
  else sfs_dirent_link_nolock a (f_empty f) l name.

Definition sfs_link (a : Z) (name : list Z) (l : Z) : M sfs_fs Z :=
  if too_long name then ret (- E_TOO_BIG)
  else if is_dots name then ret (- E_EXISTS)
  else
    y <- get_node l ;;
    if type (din y) =? SFS_TYPE_DIR then ret (- E_ISDIR)
    else locked a (sfs_link_nolock a l name).

Definition sfs_rename1_nolock (a : Z) (name new_name : list Z) : M sfs_fs Z :=
  if bool_decide (name = new_name) then ret 0
  else
    '(r, f) <- sfs_dirent_search_nolock a name ;;
    if negb (r =? 0) then ret r
    else
      '(r, _) <- sfs_dirent_search_nolock a new_name ;;
      if negb (r =? - E_NOENT) then ret (exists_or r)
      else sfs_dirent_write_nolock a (f_slot f) (f_ino f) new_name.

Definition sfs_rename2_nolock (a : Z) (name : list Z) (a' : Z) (new_name : list Z) : M sfs_fs Z :=
  '(r, f) <- sfs_dirent_search_nolock a name ;;
  if negb (r =? 0) then ret r
  else
    '(r, f') <- sfs_dirent_search_nolock a' new_name ;;
    if negb (r =? - E_NOENT) then ret (exists_or r)
    else
      '(r, l) <- sfs_load_inode (f_ino f) ;;
      if negb (r =? 0) then ret r
      else
        r <- (r <- sfs_dirent_unlink_nolock a (f_slot f) l ;;
              if negb (r =? 0) then ret r
              else
                y <- get_node l ;;
                let isdir := type (din y) =? SFS_TYPE_DIR in
                (if isdir then sfs_nlinks_dec_nolock a else ret tt) ;;
                r <- sfs_dirent_link_nolock a' (f_empty f') l new_name ;;
                if negb (r =? 0) then
                  e <- sfs_dirent_link_nolock a (f_slot f) l name ;;
                  (if (e =? 0) && isdir then sfs_nlinks_inc_nolock a else ret tt) ;;
                  ret r
                else
                  (if isdir then sfs_nlinks_inc_nolock a' ;; sfs_dirinfo_set_parent l a' else ret tt) ;;
                  ret 0) ;;
        _ <- vop_ref_dec l ;;
        ret r.

Definition sfs_rename (a : Z) (name : list Z) (a' : Z) (new_name : list Z) : M sfs_fs Z :=
  if too_long name || too_long new_name then ret (- E_TOO_BIG)
  else if is_dots name then ret (- E_INVAL)
  else if is_dots new_name then ret (- E_EXISTS)
  else
    locked a (if a =? a' then sfs_rename1_nolock a name new_name
              else locked a' (sfs_rename2_nolock a name a' new_name)).

Definition sfs_create_nolock (a : Z) (name : list Z) (excl : bool) : M sfs_fs (Z * Z) :=
  '(r, f) <- sfs_dirent_search_nolock a name ;;
  if negb (r =? - E_NOENT) then
    if negb (r =? 0) then ret (r, 0)
    else if excl then ret (- E_EXISTS, 0)
    else
      '(r, l) <- sfs_load_inode (f_ino f) ;;
      if negb (r =? 0) then ret (r, 0)
      else
        y <- get_node l ;;
        if type (din y) =? SFS_TYPE_FILE then ret (0, l)
        else _ <- vop_ref_dec l ;; ret (- E_EXISTS, 0)
  else
    '(r, l) <- sfs_dirent_create_inode SFS_TYPE_FILE ;;
    if negb (r =? 0) then ret (r, 0)
    else
      r <- sfs_dirent_link_nolock a (f_empty f) l name ;;
      if negb (r =? 0) then _ <- vop_ref_dec l ;; ret (r, 0) else ret (0, l).

Definition sfs_create (a : Z) (name : list Z) (excl : bool) : M sfs_fs (Z * Z) :=
  if too_long name then ret (- E_TOO_BIG, 0)
  else if is_dots name then ret (- E_EXISTS, 0)
  else
    r <- trylock_sin a ;;
    if r =? 0 then sfs_create_nolock a name excl else ret (r, 0).

Definition sfs_unlink_nolock (a : Z) (name : list Z) : M sfs_fs Z :=
  '(r, f) <- sfs_dirent_search_nolock a name ;;
  if negb (r =? 0) then ret r
  else
    '(r, l) <- sfs_load_inode (f_ino f) ;;
    if negb (r =? 0) then ret r
    else
      y <- get_node l ;;
      r <- (if negb (type (din y) =? SFS_TYPE_DIR) then sfs_dirent_unlink_nolock a (f_slot f) l
            else
              locked l
                (if negb (info0 (din y) =? 0) then ret (- E_NOTEMPTY)
                 else
                   r <- sfs_dirent_unlink_nolock a (f_slot f) l ;;
                   if r =? 0 then
                     set_node set_removed l ;; sfs_nlinks_dec_nolock l ;; sfs_nlinks_dec_nolock a ;; ret 0
                   else ret r)) ;;
      _ <- vop_ref_dec l ;;
      ret r.

Definition sfs_unlink (a : Z) (name : list Z) : M sfs_fs Z :=
  if too_long name then ret (- E_TOO_BIG)
  else if is_dots name then ret (- E_ISDIR)
  else locked a (sfs_unlink_nolock a name).
(** ** Attributes and sizes *)

Definition sfs_gettype (a : Z) : M sfs_fs (Z * Z) :=
  x <- get_node a ;;
  if type (din x) =? SFS_TYPE_DIR then ret (0, S_IFDIR)
  else if type (din x) =? SFS_TYPE_FILE then ret (0, S_IFREG)
  else if type (din x) =? SFS_TYPE_LINK then ret (0, S_IFLNK)
  else panic.

(** [struct stat]: mode, links, blocks and size. *)
Definition sfs_fstat (a : Z) : M sfs_fs (Z * (Z * Z * Z * Z)) :=
  inode_check a ;;
  '(r, mode) <- sfs_gettype a ;;
  if negb (r =? 0) then ret (r, (0, 0, 0, 0))
  else
    x <- get_node a ;;
    let d := din x in
    ret (0, (mode, nlinks d, blocks d,
             if negb (type d =? SFS_TYPE_DIR) then info0 d else u32 (u32 (info0 d + 2) * sfs_dentry_size))).

(** [while (nblks != tblks)] of [sfs_truncfile], growing or shrinking. *)
Fixpoint grow_loop (n : nat) (a nblks : Z) : M sfs_fs Z :=
  match n with
  | O => ret 0
  | S n => '(r, _) <- sfs_bmap_load_nolock a nblks ;; if negb (r =? 0) then ret r else grow_loop n a (nblks + 1)
  end.

Fixpoint shrink_loop (n : nat) (a : Z) : M sfs_fs Z :=
  match n with
  | O => ret 0
  | S n => r <- sfs_bmap_truncate_nolock a ;; if negb (r =? 0) then ret r else shrink_loop n a
  end.

Definition sfs_truncfile (a len : Z) : M sfs_fs Z :=
  if (len <? 0) || (SFS_MAX_FILE_SIZE <? len) then ret (- E_INVAL)
  else
    x <- get_node a ;;
    assert (negb (type (din x) =? SFS_TYPE_DIR)) ;;
    let tblks := Bitmap.ROUNDUP_DIV len SFS_BLKSIZE in
    if info0 (din x) =? len then assert (tblks =? blocks (din x)) ;; ret 0
    else
      locked a
        (let nblks := blocks (din x) in
         r <- (if nblks <? tblks then grow_loop (Z.to_nat (tblks - nblks)) a nblks
               else shrink_loop (Z.to_nat (nblks - tblks)) a) ;;
         if negb (r =? 0) then ret r
         else
           x <- get_node a ;;
           assert (blocks (din x) =? tblks) ;;
           set_node (upd_din (set_info0 len)) a ;;
           set_node (set_dirty true) a ;;
           ret 0).

Definition sfs_tryseek (a pos : Z) : M sfs_fs Z :=
  if (pos <? 0) || (SFS_MAX_FILE_SIZE <=? pos) then ret (- E_INVAL)
  else
    x <- get_node a ;;
    if info0 (din x) <? pos then inode_check a ;; sfs_truncfile a pos else ret 0.

(** ** Reading a directory *)

Fixpoint getdirentry_loop (n : nat) (a slot i : Z) : M sfs_fs (Z * sfs_disk_entry) :=
  match n with
  | O => ret (- E_NOENT, mk_entry 0 [])
  | S n =>
      '(r, e) <- sfs_dirent_read_nolock a i ;;
      if negb (r =? 0) then ret (r, e)
      else if negb (ent_ino e =? 0) then
        if slot =? 0 then ret (0, e) else getdirentry_loop n a (slot - 1) (i + 1)
      else getdirentry_loop n a slot (i + 1)
  end.

Definition sfs_getdirentry_sub_nolock (a slot : Z) : M sfs_fs (Z * sfs_disk_entry) :=
  x <- get_node a ;; getdirentry_loop (Z.to_nat (blocks (din x))) a slot 0.

(** The name that [iobuf_move] then copies, [sfs_dentry_size] bytes of it. *)
Definition sfs_getdirentry (a offset : Z) : M sfs_fs (Z * list Z) :=
  ok <- kmalloc ;;
  if negb ok then ret (- E_NO_MEM, [])
  else if (offset <? 0) || negb (offset mod sfs_dentry_size =? 0) then ret (- E_INVAL, [])
  else
    x <- get_node a ;;
    let slot := offset / sfs_dentry_size in
    if u32 (info0 (din x) + 2) <=? slot then ret (- E_NOENT, [])
    else if slot =? 0 then ret (0, dot)
    else if slot =? 1 then ret (0, dotdot)
    else
      r <- trylock_sin a ;;
      if negb (r =? 0) then ret (r, [])
      else
        '(r, e) <- sfs_getdirentry_sub_nolock a (slot - 2) ;;
        ret (r, if r =? 0 then cstr (ent_name e) else []).

(** ** Paths *)

(** The first component, and the rest after its slashes when there is one. *)
Fixpoint sfs_lookup_subpath (path : list Z) : list Z * option (list Z) :=
  match path with
  | [] => ([], None)
  | c :: p =>
      if c =? 47 then
        ([], let fix skip p := match p with [] => None | c :: q => if c =? 47 then skip q else Some p end in skip p)
      else let '(d, r) := sfs_lookup_subpath p in (c :: d, r)
  end.

(** The inode a component leads to. *)
Definition lookup_step (a : Z) (path : list Z) : M sfs_fs (Z * Z) :=
  if bool_decide (path = dotdot) then
    r <- sfs_load_parent a ;; _ <- vop_ref_dec a ;; ret r
  else if too_long path then _ <- vop_ref_dec a ;; ret (- E_TOO_BIG, 0)
  else r <- sfs_lookup_once a path ;; _ <- vop_ref_dec a ;; ret r.

(** One round per component; [fuel] of the length of the path is enough. *)
Fixpoint lookup_path (fuel : nat) (a : Z) (path : list Z) : M sfs_fs (Z * Z) :=
  match fuel with
  | O => out_of_fuel
  | S fuel =>
      x <- get_node a ;;
      if negb (type (din x) =? SFS_TYPE_DIR) then _ <- vop_ref_dec a ;; ret (- E_NOTDIR, 0)
      else
        let '(d, sub) := sfs_lookup_subpath path in
        if bool_decide (d = dot) then
          match sub with Some p => lookup_path fuel a p | None => ret (0, a) end
        else
          '(r, n) <- lookup_step a d ;;
          if negb (r =? 0) then ret (r, 0)
          else match sub with Some p => lookup_path fuel n p | None => ret (0, n) end
  end.

Definition starts_ok (path : list Z) : bool :=
  match path with [] => false | c :: _ => negb (c =? 47) end.

Definition sfs_lookup (a : Z) (path : list Z) : M sfs_fs (Z * Z) :=
  assert (starts_ok path) ;;
  _ <- vop_ref_inc a ;;
  lookup_path (S (length path)) a path.

(** The directory of the last component, and that component. *)
Fixpoint parent_path (fuel : nat) (a : Z) (path : list Z) : M sfs_fs (Z * Z * list Z) :=
  match fuel with
  | O => out_of_fuel
  | S fuel =>
      x <- get_node a ;;
      if negb (type (din x) =? SFS_TYPE_DIR) then _ <- vop_ref_dec a ;; ret (- E_NOTDIR, 0, [])
      else
        let '(d, sub) := sfs_lookup_subpath path in
        match sub with
        | None => ret (0, a, d)
        | Some p =>
            if bool_decide (d = dot) then parent_path fuel a p
            else
              '(r, n) <- lookup_step a d ;;
              if negb (r =? 0) then ret (r, 0, []) else parent_path fuel n p
        end
  end.

Definition sfs_lookup_parent (a : Z) (path : list Z) : M sfs_fs (Z * Z * list Z) :=
  assert (starts_ok path) ;;
  _ <- vop_ref_inc a ;;
  parent_path (S (length path)) a path.

(** The loop of [sfs_namefile] up to the root: the code and the path, built from its end
    with a slash after each name; [resid] bytes are left.  [fuel] bounds the depth. *)
Fixpoint namefile_loop (fuel : nat) (a : Z) (acc : list Z) (resid : Z) : M sfs_fs (Z * list Z) :=
  match fuel with
  | O => out_of_fuel
  | S fuel =>
      x <- get_node a ;;
      if ino x =? SFS_BLKN_ROOT then _ <- vop_ref_dec a ;; ret (0, acc)
      else
        '(r, p) <- sfs_load_parent a ;;
        if negb (r =? 0) then _ <- vop_ref_dec a ;; ret (r, [])
        else
          _ <- vop_ref_dec a ;;
          y <- get_node p ;;
          assert (negb (ino x =? ino y) && (type (din y) =? SFS_TYPE_DIR)) ;;
          r <- trylock_sin p ;;
          if negb (r =? 0) then _ <- vop_ref_dec p ;; ret (r, [])
          else
            '(r, e) <- sfs_dirent_findino_nolock p (ino x) ;;
            if negb (r =? 0) then _ <- vop_ref_dec p ;; ret (r, [])
            else
              let name := cstr (ent_name e) in
              let alen := Z.of_nat (length name) + 1 in
              if resid <? alen then _ <- vop_ref_dec p ;; ret (- E_NO_MEM, [])
              else namefile_loop fuel p (name ++ 47 :: acc) (resid - alen)
  end.

(** The code, the string written at [io_base], and by how much the descriptor moves. *)
Definition sfs_namefile (fuel : nat) (a io_resid : Z) : M sfs_fs (Z * list Z * Z) :=
  if io_resid <=? 2 then ret (- E_NO_MEM, [], 0)
  else
    ok <- kmalloc ;;
    if negb ok then ret (- E_NO_MEM, [], 0)
    else
      _ <- vop_ref_inc a ;;
      '(r, path) <- namefile_loop fuel a [] (io_resid - 2) ;;
      if negb (r =? 0) then ret (r, [], 0) else ret (0, 47 :: path, Z.of_nat (length path)).

(** ** The file system (sfs_fs.c) *)

Fixpoint sync_loop (l : list Z) : M sfs_fs unit :=
  match l with [] => ret tt | a :: l => inode_check a ;; _ <- sfs_fsync a ;; sync_loop l end.

Definition sfs_sync : M sfs_fs Z :=
  s <- get ;;
  sync_loop (inode_list s) ;;
  s <- get ;;
  if super_dirty s then
    modify (put_super_dirty false) ;;
    r <- sfs_sync_super ;;
    if negb (r =? 0) then modify (put_super_dirty true) ;; ret r
    else
      r <- sfs_sync_freemap ;;
      if negb (r =? 0) then modify (put_super_dirty true) ;; ret r else ret 0
  else ret 0.

Definition sfs_get_root : M sfs_fs Z :=
  '(r, a) <- sfs_load_inode SFS_BLKN_ROOT ;;
  if negb (r =? 0) then panic else ret a.

Definition sfs_unmount : M sfs_fs Z :=
  s <- get ;;
  if bool_decide (inode_list s <> []) then ret (- E_BUSY)
  else assert (negb (super_dirty s)) ;; ret 0.

(** At most 32 attempts. *)
Fixpoint cleanup_loop (n : nat) : M sfs_fs Z :=
  match n with
  | O => ret 0
  | S n => r <- sfs_sync ;; if r =? 0 then ret 0 else match n with O => ret r | _ => cleanup_loop n end
  end.

Definition sfs_cleanup : M sfs_fs Z := cleanup_loop 32.

(** Mounting: the state is the structure being set up. *)
Definition sfs_init_read (blkno : Z) : M sfs_fs (Z * list Z) :=
  r <- io_result ;;
  if negb (r =? 0) then ret (r, [])
  else s <- get ;; b <- deref (disk s !! blkno) ;; ret (0, b).

Fixpoint init_freemap_loop (nblks : nat) (blkno : Z) (acc : list Z) : M sfs_fs (Z * list Z) :=
  match nblks with
  | O => ret (0, acc)
  | S n => '(r, b) <- sfs_init_read blkno ;; if negb (r =? 0) then ret (r, []) else init_freemap_loop n (blkno + 1) (acc ++ b)
  end.

(** The words of the bitmap from the bytes read. *)
Definition words_of (l : list Z) : list Z := (fun i => word_at l (4 * Z.of_nat i)) <$> seq 0 (length l / 4).

Definition sfs_init_freemap (blkno nblks : Z) : M sfs_fs Z :=
  s <- get ;;
  let b := freemap s in
  assert (snd (Bitmap.bitmap_getdata b) =? u32 (nblks * SFS_BLKSIZE)) ;;
  '(r, l) <- init_freemap_loop (Z.to_nat nblks) blkno [] ;;
  if negb (r =? 0) then ret r
  else modify (put_freemap (Bitmap.mk_bitmap (Bitmap.nbits b) (Bitmap.nwords b) (words_of l))) ;; ret 0.

Fixpoint count_free (n : nat) (i u : Z) : M sfs_fs Z :=
  match n with
  | O => ret u
  | S n => t <- on_freemap (Bitmap.bitmap_test i) ;; count_free n (i + 1) (if (t : bool) then u + 1 else u)
  end.

Definition sfs_do_mount (d_blocksize d_blocks : Z) : M sfs_fs Z :=
  if negb (d_blocksize =? SFS_BLKSIZE) then ret (- E_NA_DEV)
  else
    ok <- kmalloc ;;
    if negb ok then ret (- E_NO_MEM)
    else
      ok <- kmalloc ;;
      if negb ok then ret (- E_NO_MEM)
      else
        '(r, b) <- sfs_init_read SFS_BLKN_SUPER ;;
        if negb (r =? 0) then ret r
        else if negb (word_at b 0 =? SFS_MAGIC) then ret (- E_INVAL)
        else if d_blocks <? word_at b 4 then ret (- E_INVAL)
        else
          modify (put_super (word_at b 4) (word_at b 8) (<[Z.to_nat SFS_MAX_INFO_LEN := 0]> (bytes_at b 12 32))) ;;
          ok <- kmalloc ;;
          if negb ok then ret (- E_NO_MEM)
          else
            modify (upd_lists id (fun _ => array SFS_HLIST_SIZE (fun _ => []))) ;;
            s <- get ;;
            ok1 <- kmalloc ;;
            ok2 <- kmalloc ;;
            match Bitmap.bitmap_create ok1 ok2 (sfs_freemap_bits (super_blocks s)) with
            | Panic => panic
            | OutOfFuel => out_of_fuel
            | Ret None => ret (- E_NO_MEM)
            | Ret (Some m) =>
                modify (put_freemap m) ;;
                r <- sfs_init_freemap SFS_BLKN_FREEMAP (sfs_freemap_blocks (super_blocks s)) ;;
                if negb (r =? 0) then ret r
                else
                  u <- count_free (Z.to_nat (sfs_freemap_bits (super_blocks s))) 0 0 ;;
                  assert (u =? unused_blocks s) ;;
                  modify (put_super_dirty false) ;;
                  modify (upd_lists (fun _ => []) id) ;;
                  ret 0
            end.
End SfsDir.
