(* ===== verification/SfsInv.v ===== *)
(** * The simple file system: blocks in use and transfers

    Lemmas on bytes and words, the invariant of the free map, and what [sfs_block_alloc],
    [sfs_block_free] and the transfers do when the device works. *)

From S2P Require Import Prelude Bitmap CString SfsDisk Sfs.
Import SfsDisk Sfs.
Open Scope Z_scope.

Module SfsInv.

(** ** Bytes and words *)

Definition is_byte (b : Z) : Prop := 0 <= b < 256.

Lemma length_le n : forall v, length (le_bytes n v) = n.
Proof. induction n as [|n IH]; intros v; cbn; [done|]. by rewrite IH. Qed.

Lemma le_bytes_byte n : forall v, Forall is_byte (le_bytes n v).
Proof. induction n as [|n IH]; intros v; cbn; constructor; [|done]. apply Z.mod_pos_bound. lia. Qed.

Lemma le_roundtrip n : forall v, 0 <= v < 256 ^ Z.of_nat n -> le_val (le_bytes n v) = v.
Proof.
  induction n as [|n IH]; intros v Hv; cbn [le_bytes le_val]; [cbn in Hv; lia|].
  rewrite Nat2Z.inj_succ, Z.pow_succ_r in Hv by lia. rewrite IH; [pose proof (Z.div_mod v 256); lia|].
  split; [apply Z.div_pos; lia|]. apply Z.div_lt_upper_bound; lia.
Qed.

Lemma word_roundtrip v : is_u32 v -> le_val (le_bytes 4 v) = v.
Proof. intros Hv. apply le_roundtrip. unfold is_u32 in Hv. change (256 ^ Z.of_nat 4) with (2 ^ 32). lia. Qed.

Lemma le_val_range l : Forall is_byte l -> 0 <= le_val l < 256 ^ Z.of_nat (length l).
Proof.
  induction 1 as [|b l Hb _ IH]; [cbn; lia|]. cbn [le_val length]. rewrite Nat2Z.inj_succ, Z.pow_succ_r by lia. unfold is_byte in Hb. lia.
Qed.

Lemma bytes_at_length l o n : 0 <= o -> 0 <= n -> o + n <= Z.of_nat (length l) -> length (bytes_at l o n) = Z.to_nat n.
Proof. intros. unfold bytes_at. rewrite length_take, length_drop. lia. Qed.

Lemma bytes_at_byte l o n : Forall is_byte l -> Forall is_byte (bytes_at l o n).
Proof. intros. by apply Forall_take, Forall_drop. Qed.

Lemma lookup_bytes_at l o n i : 0 <= o -> 0 <= i < n -> bytes_at l o n !! Z.to_nat i = l !! Z.to_nat (o + i).
Proof. intros. unfold bytes_at. rewrite lookup_take_lt, lookup_drop by lia. f_equal. lia. Qed.

Lemma length_splice l o d : 0 <= o -> o + Z.of_nat (length d) <= Z.of_nat (length l) -> length (splice l o d) = length l.
Proof. intros. unfold splice. rewrite !length_app, length_take, length_drop. lia. Qed.

Lemma splice_byte l o d : Forall is_byte l -> Forall is_byte d -> Forall is_byte (splice l o d).
Proof. intros. apply Forall_app; split; [by apply Forall_take|]. apply Forall_app; split; [done|by apply Forall_drop]. Qed.

Lemma lookup_splice l o d i : 0 <= o -> o + Z.of_nat (length d) <= Z.of_nat (length l) -> 0 <= i ->
  splice l o d !! Z.to_nat i = if bool_decide (o <= i < o + Z.of_nat (length d)) then d !! Z.to_nat (i - o) else l !! Z.to_nat i.
Proof.
  intros Ho Hd Hi. unfold splice. destruct (decide (i < o)) as [H1|H1].
  - rewrite lookup_app_l by (rewrite length_take; lia). rewrite lookup_take_lt by lia. case_bool_decide; [lia|done].
  - rewrite lookup_app_r by (rewrite length_take; lia). rewrite length_take, Nat.min_l by lia. destruct (decide (i < o + Z.of_nat (length d))) as [H2|H2].
    + rewrite lookup_app_l by lia. case_bool_decide; [|lia]. f_equal. lia.
    + rewrite lookup_app_r, lookup_drop by lia. case_bool_decide; [lia|]. f_equal. lia.
Qed.

(** Two windows that do not overlap, and the window itself. *)
Lemma bytes_at_splice_same l o d : 0 <= o -> o + Z.of_nat (length d) <= Z.of_nat (length l) -> bytes_at (splice l o d) o (Z.of_nat (length d)) = d.
Proof.
  intros Ho Hd. unfold bytes_at, splice. rewrite Nat2Z.id. rewrite drop_app_ge by (rewrite length_take; lia). rewrite length_take, Nat.min_l, Nat.sub_diag, drop_0 by lia.
  by rewrite take_app_le, take_ge by lia.
Qed.

Lemma bytes_at_splice_other l o d p n : 0 <= o -> o + Z.of_nat (length d) <= Z.of_nat (length l) -> 0 <= p -> 0 <= n -> p + n <= Z.of_nat (length l) ->
  p + n <= o \/ o + Z.of_nat (length d) <= p -> bytes_at (splice l o d) p n = bytes_at l p n.
Proof.
  intros Ho Hd Hp Hn Hl Hout. apply list_eq. intros k. destruct (decide (k < Z.to_nat n)%nat) as [Hk|Hk].
  - replace k with (Z.to_nat (Z.of_nat k)) by lia. rewrite !lookup_bytes_at, lookup_splice by lia. case_bool_decide; [lia|done].
  - rewrite !lookup_ge_None_2; [done|..]; rewrite bytes_at_length by (rewrite ?length_splice; lia); lia.
Qed.

Lemma word_at_range l o : 0 <= o -> o + 4 <= Z.of_nat (length l) -> Forall is_byte l -> is_u32 (word_at l o).
Proof.
  intros Ho Hl Hb. unfold word_at. pose proof (le_val_range (bytes_at l o 4) (bytes_at_byte _ _ _ Hb)) as H.
  rewrite bytes_at_length in H by lia. change (256 ^ Z.of_nat (Z.to_nat 4)) with (2 ^ 32) in H. exact H.
Qed.

(** A block is 4096 bytes. *)
Definition is_block (l : list Z) : Prop := length l = Z.to_nat SFS_BLKSIZE /\ Forall is_byte l.

Lemma zeros_block : is_block (zeros SFS_BLKSIZE).
Proof. split; [apply length_replicate|]. apply Forall_replicate. unfold is_byte. lia. Qed.

Lemma block_len l : is_block l -> Z.of_nat (length l) = SFS_BLKSIZE.
Proof. intros [-> _]. done. Qed.

Lemma splice_block l o d : is_block l -> 0 <= o -> o + Z.of_nat (length d) <= SFS_BLKSIZE -> Forall is_byte d -> is_block (splice l o d).
Proof. intros Hl Ho Hd Hb. pose proof (block_len _ Hl). split; [rewrite length_splice by lia; apply Hl|apply splice_byte; [apply Hl|done]]. Qed.

(** The entries of an index block. *)
Definition ent (l : list Z) (i : Z) : Z := word_at l (4 * i).

Lemma ent_zeros i : ent (zeros SFS_BLKSIZE) i = 0.
Proof.
  unfold ent, word_at, bytes_at, zeros. rewrite drop_replicate, take_replicate. generalize (Z.to_nat 4 `min` (Z.to_nat SFS_BLKSIZE - Z.to_nat (4 * i)))%nat.
  intros n. induction n as [|n IH]; [done|]. cbn [replicate le_val]. rewrite IH. done.
Qed.

Lemma ent_range l i : is_block l -> 0 <= i < SFS_BLK_NENTRY -> is_u32 (ent l i).
Proof. intros Hl Hi. pose proof (block_len _ Hl) as E. unfold SFS_BLK_NENTRY, SFS_BLKSIZE in *. apply word_at_range; [lia| |apply Hl]. change (4096 / 4) with 1024 in Hi. lia. Qed.

Lemma ent_set l i v j : is_block l -> 0 <= i < SFS_BLK_NENTRY -> 0 <= j < SFS_BLK_NENTRY -> is_u32 v ->
  ent (splice l (4 * i) (le_bytes 4 v)) j = if j =? i then v else ent l j.
Proof.
  intros Hl Hi Hj Hv. pose proof (block_len _ Hl) as E. unfold SFS_BLK_NENTRY, SFS_BLKSIZE in *. change (4096 / 4) with 1024 in *. unfold ent, word_at. destruct (Z.eqb_spec j i) as [->|Hne].
  - pose proof (bytes_at_splice_same l (4 * i) (le_bytes 4 v)) as Hs. rewrite length_le in Hs. change (Z.of_nat 4) with 4 in Hs. rewrite Hs by lia. by apply word_roundtrip.
  - rewrite bytes_at_splice_other; [done|lia|rewrite length_le; lia|lia|lia|lia|]. rewrite length_le. lia.
Qed.
(** ** Free blocks *)

Definition nfree (m : Bitmap.bitmap) : Z := Z.of_nat (length (List.filter (fun i => Bitmap.bit m (Z.of_nat i)) (seq 0 (Z.to_nat (Bitmap.nbits m))))).

Lemma filter_flip (f g : nat -> bool) k n :
  (k < n)%nat -> f k = true -> g k = false -> (forall i, i <> k -> g i = f i) ->
  length (List.filter f (seq 0 n)) = S (length (List.filter g (seq 0 n))).
Proof.
  intros Hk Hf Hg He. replace n with (k + S (n - k - 1))%nat by lia. rewrite seq_app, !List.filter_app, !length_app. cbn [seq List.filter].
  rewrite Nat.add_0_l, Hf, Hg. cbn [length].
  assert (Ha : forall a m, (forall i, a <= i < a + m -> i <> k)%nat -> List.filter f (seq a m) = List.filter g (seq a m)).
  { intros a m Hn. apply List.filter_ext_in. intros i Hi%List.in_seq. symmetry. apply He, Hn. lia. }
  rewrite (Ha 0%nat k) by lia. rewrite (Ha (S k)) by lia. lia.
Qed.

Lemma nfree_bounds m : Bitmap.wf m -> 0 <= nfree m <= Bitmap.nbits m.
Proof.
  intros Hm. unfold nfree. pose proof (List.filter_length_le (fun i => Bitmap.bit m (Z.of_nat i)) (seq 0 (Z.to_nat (Bitmap.nbits m)))) as H.
  rewrite length_seq in H. pose proof (Bitmap.wf_nbits _ Hm). lia.
Qed.

Lemma nfree_flip m b : Bitmap.wf m -> 0 <= b < Bitmap.nbits m ->
  nfree (Bitmap.flip m b) = if Bitmap.bit m b then nfree m - 1 else nfree m + 1.
Proof.
  intros Hm Hb. unfold nfree. cbn [Bitmap.nbits Bitmap.flip]. pose proof (Bitmap.bit_in_range m b Hm Hb) as Hr.
  assert (Hbit : forall i, Bitmap.bit (Bitmap.flip m b) (Z.of_nat i) = xorb (Bitmap.bit m (Z.of_nat i)) (b =? Z.of_nat i)).
  { intros i. apply Bitmap.bit_flip; [lia|lia|done]. }
  assert (Hself : Bitmap.bit (Bitmap.flip m b) (Z.of_nat (Z.to_nat b)) = negb (Bitmap.bit m (Z.of_nat (Z.to_nat b)))).
  { rewrite Hbit, Z2Nat.id, Z.eqb_refl by lia. apply xorb_true_r. }
  assert (Hother : forall i, i <> Z.to_nat b -> Bitmap.bit (Bitmap.flip m b) (Z.of_nat i) = Bitmap.bit m (Z.of_nat i)).
  { intros i Hi. rewrite Hbit, (proj2 (Z.eqb_neq b (Z.of_nat i))) by lia. apply xorb_false_r. }
  rewrite Z2Nat.id in Hself by lia.
  destruct (Bitmap.bit m b) eqn:E.
  - rewrite (filter_flip (fun i => Bitmap.bit m (Z.of_nat i)) (fun i => Bitmap.bit (Bitmap.flip m b) (Z.of_nat i)) (Z.to_nat b)); [lia|lia|by rewrite Z2Nat.id by lia|by rewrite Z2Nat.id by lia|done].
  - rewrite (filter_flip (fun i => Bitmap.bit (Bitmap.flip m b) (Z.of_nat i)) (fun i => Bitmap.bit m (Z.of_nat i)) (Z.to_nat b)); [lia|lia|by rewrite Z2Nat.id by lia|by rewrite Z2Nat.id by lia|].
    intros i Hi. symmetry. by apply Hother.
Qed.

(** The free map and the disk of a file system whose device works. *)
Record fs_ok (s : sfs_fs) : Prop := {
  fo_io : io_results s = [];
  fo_map : Bitmap.wf (freemap s);
  fo_bits : super_blocks s <= Bitmap.nbits (freemap s);
  fo_free : forall b, Bitmap.is_free (freemap s) b -> 0 < b < super_blocks s;
  fo_disk : forall b, 0 <= b < super_blocks s -> exists l, disk s !! b = Some l /\ is_block l;
  fo_count : unused_blocks s = nfree (freemap s)
}.

Definition used (s : sfs_fs) (b : Z) : Prop := 0 < b < super_blocks s /\ Bitmap.bit (freemap s) b = false.
Definition free (s : sfs_fs) (b : Z) : Prop := Bitmap.is_free (freemap s) b.
Definition blk (s : sfs_fs) (b : Z) : list Z := default [] (disk s !! b).

Lemma blk_ok s b : fs_ok s -> 0 <= b < super_blocks s -> disk s !! b = Some (blk s b) /\ is_block (blk s b).
Proof. intros F Hb. destruct (fo_disk _ F b Hb) as (l & Hl & Hb'). unfold blk. rewrite Hl. done. Qed.

Lemma io_none s : io_results s = [] -> io_result s = Ret (0, s).
Proof. intros E. unfold io_result. rewrite bind_get, E. done. Qed.

Lemma rblk_run s buf b : fs_ok s -> 0 < b < super_blocks s -> sfs_rwblock_nolock buf b false true s = Ret ((0, blk s b), s).
Proof.
  intros F Hb. unfold sfs_rwblock_nolock. rewrite bind_get, assert_true.
  - rewrite (bind_step _ _ _ _ _ (io_none s (fo_io _ F))). cbn [negb Z.eqb]. destruct (blk_ok s b F) as [E _]; [lia|]. rewrite (bind_deref _ _ _ _ E). done.
  - rewrite (proj2 (Z.eqb_neq b 0)), (proj2 (Z.ltb_lt b _)) by lia. done.
Qed.

Definition written (b : Z) (l : list Z) (s : sfs_fs) : sfs_fs := upd_disk <[b := l]> s.

Lemma wblk_run s buf b : fs_ok s -> 0 < b < super_blocks s -> sfs_rwblock_nolock buf b true true s = Ret ((0, buf), written b buf s).
Proof.
  intros F Hb. unfold sfs_rwblock_nolock. rewrite bind_get, assert_true.
  - rewrite (bind_step _ _ _ _ _ (io_none s (fo_io _ F))). done.
  - rewrite (proj2 (Z.eqb_neq b 0)), (proj2 (Z.ltb_lt b _)) by lia. done.
Qed.

Lemma written_ok s b l : fs_ok s -> is_block l -> fs_ok (written b l s).
Proof.
  intros [] Hl. split; try done. cbn. intros c Hc. rewrite lookup_insert. case_decide; [by exists l|by apply fo_disk0].
Qed.

Lemma blk_written s b l c : blk (written b l s) c = if c =? b then l else blk s c.
Proof. unfold blk, written. cbn. rewrite lookup_insert. destruct (Z.eqb_spec c b) as [->|Hne]; [by rewrite decide_True|by rewrite decide_False]. Qed.

Lemma rbuf_run s len b o : fs_ok s -> 0 < b < super_blocks s -> 0 <= o < SFS_BLKSIZE -> o + len <= SFS_BLKSIZE ->
  sfs_rbuf len b o s = Ret ((0, bytes_at (blk s b) o len), s).
Proof.
  intros F Hb Ho Hl. unfold sfs_rbuf. rewrite assert_true.
  - rewrite (bind_step _ _ _ _ _ (rblk_run s [] b F Hb)). done.
  - rewrite (proj2 (Z.leb_le _ _)), (proj2 (Z.ltb_lt _ _)), (proj2 (Z.leb_le _ _)) by lia. done.
Qed.

Lemma wbuf_run s d b o : fs_ok s -> 0 < b < super_blocks s -> 0 <= o < SFS_BLKSIZE -> o + Z.of_nat (length d) <= SFS_BLKSIZE -> Forall is_byte d ->
  sfs_wbuf d b o s = Ret (0, written b (splice (blk s b) o d) s) /\ fs_ok (written b (splice (blk s b) o d) s).
Proof.
  intros F Hb Ho Hl Hd. destruct (blk_ok s b F) as [_ Hbl]; [lia|]. split; [|apply written_ok; [done|apply splice_block; try done; lia]].
  unfold sfs_wbuf. rewrite assert_true.
  - rewrite (bind_step _ _ _ _ _ (rblk_run s [] b F Hb)). cbn [Z.eqb]. rewrite (bind_step _ _ _ _ _ (wblk_run s _ b F Hb)). done.
  - rewrite (proj2 (Z.leb_le _ _)), (proj2 (Z.ltb_lt _ _)), (proj2 (Z.leb_le _ _)) by lia. done.
Qed.

Lemma on_freemap_run {A} (m : M Bitmap.bitmap A) s a b : m (freemap s) = Ret (a, b) -> on_freemap m s = Ret (a, put_freemap b s).
Proof. intros E. unfold on_freemap. by rewrite E. Qed.

Lemma put_freemap_id s : put_freemap (freemap s) s = s.
Proof. by destruct s. Qed.

Lemma inuse_run s b : fs_ok s -> 0 < b < super_blocks s -> sfs_block_inuse b s = Ret (negb (Bitmap.bit (freemap s) b), s).
Proof.
  intros F Hb. pose proof (fo_bits _ F). unfold sfs_block_inuse. rewrite bind_get, (proj2 (Z.eqb_neq b 0)), (proj2 (Z.ltb_lt b _)) by lia. cbn [negb andb].
  erewrite bind_step; [|apply on_freemap_run, Bitmap.bitmap_test_ok; [apply F|lia]]. by rewrite put_freemap_id.
Qed.

Lemma assert_inuse_run s b : fs_ok s -> used s b -> assert_inuse b s = Ret (tt, s).
Proof. intros F [Hb Hu]. unfold assert_inuse. rewrite (bind_step _ _ _ _ _ (inuse_run s b F Hb)), Hu. done. Qed.

(** The state with the free block [b] taken and cleared, or with [b] given back. *)
Definition taken (b : Z) (s : sfs_fs) : sfs_fs :=
  written b (zeros SFS_BLKSIZE) (put_super_dirty true (upd_unused (fun u => u - 1) (put_freemap (Bitmap.flip (freemap s) b) s))).
Definition given (b : Z) (s : sfs_fs) : sfs_fs :=
  put_super_dirty true (upd_unused (fun u => u + 1) (put_freemap (Bitmap.flip (freemap s) b) s)).

Lemma flip_bit s b c : fs_ok s -> 0 <= b < super_blocks s -> 0 <= c -> Bitmap.bit (Bitmap.flip (freemap s) b) c = xorb (Bitmap.bit (freemap s) c) (b =? c).
Proof. intros F Hb Hc. pose proof (fo_bits _ F). apply Bitmap.bit_flip; [lia|done|]. apply Bitmap.bit_in_range; [apply F|lia]. Qed.

Lemma taken_ok s b : fs_ok s -> free s b -> fs_ok (taken b s).
Proof.
  intros F Hb. pose proof (fo_free _ F b Hb) as Hr. pose proof (fo_bits _ F) as Hn. apply written_ok; [|apply zeros_block]. pose proof F as [A B C D E G]. split; cbn; try done.
  - apply Bitmap.flip_wf; [done|lia].
  - intros c [Hc Hcb]. rewrite flip_bit in Hcb by (done || lia). apply D. split; [done|]. destruct (Z.eqb_spec b c) as [->|_]; [|by rewrite xorb_false_r in Hcb].
    destruct Hb as [_ Hb]. by rewrite Hb in Hcb.
  - rewrite nfree_flip by (done || lia). destruct Hb as [_ ->]. lia.
Qed.

Lemma given_ok s b : fs_ok s -> used s b -> fs_ok (given b s).
Proof.
  intros F [Hr Hb]. pose proof (fo_bits _ F) as Hn. pose proof F as [A B C D E G]. split; cbn; try done.
  - apply Bitmap.flip_wf; [done|lia].
  - intros c [Hc Hcb]. rewrite flip_bit in Hcb by (done || lia). destruct (Z.eqb_spec b c) as [->|_]; [lia|]. rewrite xorb_false_r in Hcb. by apply D.
  - rewrite nfree_flip by (done || lia). rewrite Hb. lia.
Qed.

Lemma alloc_run s : fs_ok s ->
  (sfs_block_alloc s = Ret ((- E_NO_MEM, 0), s) /\ forall b, ~ free s b) \/
  (exists b, free s b /\ sfs_block_alloc s = Ret ((0, b), taken b s) /\ fs_ok (taken b s)).
Proof.
  intros F. pose proof (fo_map _ F) as Hm. pose proof (Bitmap.wf_nbits _ Hm). pose proof (Bitmap.wf_nwords _ Hm). unfold sfs_block_alloc.
  destruct (Bitmap.bitmap_alloc_loop_spec (freemap s) (Z.to_nat (Bitmap.nwords (freemap s))) 0 Hm) as [(b & Hr & Hf & _)|[Hr Hno]]; [lia|rewrite Z2Nat.id; dlia|intros i [Hi _]; dlia|..].
  - right. exists b. split; [done|]. pose proof (taken_ok s b F Hf) as F'. split; [|done]. pose proof (fo_free _ F b Hf) as Hb.
    assert (Hp : 0 < nfree (freemap s)).
    { pose proof (fo_bits _ F). pose proof (nfree_flip (freemap s) b Hm ltac:(lia)) as E. destruct Hf as [_ Hf]. rewrite Hf in E.
      pose proof (nfree_bounds (Bitmap.flip (freemap s) b) (Bitmap.flip_wf (freemap s) b Hm ltac:(lia))). lia. }
    erewrite bind_step; [|apply on_freemap_run; unfold Bitmap.bitmap_alloc; rewrite bind_get; exact Hr]. cbn [negb Z.eqb]. rewrite (bind_deref _ b) by done.
    rewrite bind_get, assert_true by (apply Z.ltb_lt; cbn; rewrite (fo_count _ F); lia). rewrite !bind_modify.
    set (s1 := put_super_dirty true (upd_unused (fun u => u - 1) (put_freemap (Bitmap.flip (freemap s) b) s))).
    assert (F1 : fs_ok s1).
    { destruct F' as [A B C D E G]. split; try done. intros c Hc. destruct (fo_disk _ F c Hc) as (l & ? & ?). by exists l. }
    erewrite bind_step; [|apply assert_inuse_run; [exact F1|]].
    2:{ split; [done|]. cbn. rewrite flip_bit by (done || lia). destruct Hf as [_ ->]. by rewrite Z.eqb_refl. }
    erewrite bind_step; [|unfold sfs_clear_block; change (Z.to_nat 1) with 1%nat; cbn [clear_loop]; erewrite bind_step; [|apply wblk_run; [exact F1|exact Hb]]; reflexivity].
    reflexivity.
  - left. split; [|exact Hno]. erewrite bind_step; [|apply on_freemap_run; unfold Bitmap.bitmap_alloc; rewrite bind_get; exact Hr]. rewrite put_freemap_id. reflexivity.
Qed.

Lemma free_run s b : fs_ok s -> used s b -> sfs_block_free b s = Ret (tt, given b s) /\ fs_ok (given b s).
Proof.
  intros F Hu. pose proof (given_ok s b F Hu) as F'. split; [|done]. destruct Hu as [Hr Hb]. pose proof (fo_bits _ F).
  unfold sfs_block_free. rewrite (bind_step _ _ _ _ _ (assert_inuse_run s b F (conj Hr Hb))).
  erewrite bind_step; [|apply on_freemap_run; rewrite Bitmap.bitmap_free_ok by (apply F || lia); rewrite Hb; reflexivity].
  rewrite bind_modify. unfold given, modify. do 3 f_equal. unfold upd_unused. cbn. f_equal. rewrite u32_small; [done|].
  rewrite (fo_count _ F). pose proof (nfree_bounds _ (fo_map _ F)). pose proof (Bitmap.wf_nbits _ (fo_map _ F)). unfold is_u32. lia.
Qed.
End SfsInv.
