(* ===== verification/SfsBmap.v ===== *)
(** * The simple file system: the blocks of a file

    A file holds blocks in several roles: its data blocks, the index block, the
    double-index block and the index blocks below it.  The invariant of a file is that
    different roles have different blocks, all in use; every operation of the block map
    changes one role at a time. *)

From S2P Require Import Prelude Bitmap CString SfsDisk Sfs SfsInv.
Import SfsDisk Sfs SfsInv.
Open Scope Z_scope.

Module SfsBmap.

Inductive role := Data (i : Z) | Ind | Dbl | Inner (k : Z).

#[export] Instance role_eq : EqDecision role.
Proof. solve_decision. Defined.

(** The number of blocks a file can have. *)
Definition MAX_BLOCKS : Z := SFS_NDIRECT + SFS_BLK_NENTRY + SFS_BLK_NENTRY * SFS_BLK_NENTRY.

Definition valid (r : role) : Prop :=
  match r with
  | Data i => 0 <= i < MAX_BLOCKS
  | Inner k => 0 <= k < SFS_BLK_NENTRY
  | _ => True
  end.

(** The entry of an index block that may be missing. *)
Definition ent0 (s : sfs_fs) (e i : Z) : Z := if e =? 0 then 0 else ent (blk s e) i.

(** The data block with an index; 0: none. *)
Definition bmap (s : sfs_fs) (d : sfs_disk_inode) (i : Z) : Z :=
  if i <? SFS_NDIRECT then default 0 (direct d !! Z.to_nat i)
  else if i - SFS_NDIRECT <? SFS_BLK_NENTRY then ent0 s (indirect d) (i - SFS_NDIRECT)
  else
    let j := i - SFS_NDIRECT - SFS_BLK_NENTRY in
    ent0 s (ent0 s (db_indirect d) (j / SFS_BLK_NENTRY)) (j mod SFS_BLK_NENTRY).

Definition place (s : sfs_fs) (d : sfs_disk_inode) (r : role) : Z :=
  match r with
  | Data i => bmap s d i
  | Ind => indirect d
  | Dbl => db_indirect d
  | Inner k => ent0 s (db_indirect d) k
  end.

Record tree_ok (s : sfs_fs) (d : sfs_disk_inode) : Prop := {
  t_direct : length (direct d) = Z.to_nat SFS_NDIRECT;
  t_used : forall r, valid r -> place s d r <> 0 -> used s (place s d r);
  t_inj : forall r r', valid r -> valid r' -> place s d r = place s d r' -> place s d r <> 0 -> r = r'
}.

(** The data blocks are those below [blocks]. *)
Record file_ok (s : sfs_fs) (d : sfs_disk_inode) : Prop := {
  k_tree : tree_ok s d;
  k_map : forall i, 0 <= i < MAX_BLOCKS -> bmap s d i <> 0 <-> i < blocks d;
  k_blocks : 0 <= blocks d <= MAX_BLOCKS
}.

Lemma nentry : SFS_BLK_NENTRY = 1024.
Proof. reflexivity. Qed.

Lemma place_used s d r : tree_ok s d -> valid r -> place s d r = 0 \/ used s (place s d r).
Proof. intros T Hr. destruct (decide (place s d r = 0)); [by left|right; by apply T]. Qed.

Lemma used_pos s b : used s b -> b <> 0.
Proof. intros [? _]. lia. Qed.

Lemma used_free s b : used s b -> ~ free s b.
Proof. intros [_ H] [_ H']. congruence. Qed.

(** ** One change of role *)

Definition moved (s : sfs_fs) (d : sfs_disk_inode) (s' : sfs_fs) (d' : sfs_disk_inode) (R : role) (v : Z) : Prop :=
  forall r, valid r -> place s' d' r = if decide (r = R) then v else place s d r.

(** A role without a block gets a free one. *)
Lemma attach_ok s d s' d' R v :
  tree_ok s d -> length (direct d') = length (direct d) -> valid R -> place s d R = 0 -> free s v -> v <> 0 ->
  moved s d s' d' R v -> (forall c, used s c -> used s' c) -> used s' v -> tree_ok s' d'.
Proof.
  intros T Hl HR H0 Hf Hv Hm Hu Huv. split.
  - rewrite Hl. apply T.
  - intros r Hr. rewrite (Hm r Hr). case_decide; [done|]. intros Hne. by apply Hu, T.
  - intros r r' Hr Hr'. rewrite (Hm r Hr), (Hm r' Hr'). repeat case_decide; intros E Hne; subst; try done.
    + exfalso. apply (used_free s (place s d r')); [apply T; [done|congruence]|congruence].
    + exfalso. apply (used_free s (place s d r)); [by apply T|done].
    + by apply T.
Qed.

(** A role gives its block up. *)
Lemma detach_ok s d s' d' R :
  tree_ok s d -> length (direct d') = length (direct d) -> valid R -> moved s d s' d' R 0 ->
  (forall c, used s c -> c <> place s d R -> used s' c) -> tree_ok s' d'.
Proof.
  intros T Hl HR Hm Hu. split.
  - rewrite Hl. apply T.
  - intros r Hr. rewrite (Hm r Hr). case_decide as E; [done|]. intros Hne. apply Hu; [by apply T|]. intros E2. apply E. by apply (t_inj _ _ T r R).
  - intros r r' Hr Hr'. rewrite (Hm r Hr), (Hm r' Hr'). repeat case_decide; intros E Hne; subst; try done. by apply T.
Qed.

(** ** The places after a change of the disk or of the inode *)

Lemma ent0_same s s' e i : (e <> 0 -> blk s' e = blk s e) -> ent0 s' e i = ent0 s e i.
Proof. intros H. unfold ent0. destruct (Z.eqb_spec e 0); [done|]. by rewrite H. Qed.

Lemma inner_index j : 0 <= j < SFS_BLK_NENTRY * SFS_BLK_NENTRY -> 0 <= j / SFS_BLK_NENTRY < SFS_BLK_NENTRY /\ 0 <= j mod SFS_BLK_NENTRY < SFS_BLK_NENTRY.
Proof. rewrite nentry. intros Hj. split; [|apply Z.mod_pos_bound; lia]. split; [apply Z.div_pos; lia|apply Z.div_lt_upper_bound; lia]. Qed.

(** Which index block a data block hangs on. *)
Lemma bmap_parent s d i : 0 <= i < MAX_BLOCKS ->
  (i < SFS_NDIRECT /\ bmap s d i = default 0 (direct d !! Z.to_nat i)) \/
  (exists j, 0 <= j < SFS_BLK_NENTRY /\ i = SFS_NDIRECT + j /\ bmap s d i = ent0 s (place s d Ind) j) \/
  (exists k j, 0 <= k < SFS_BLK_NENTRY /\ 0 <= j < SFS_BLK_NENTRY /\ i = SFS_NDIRECT + SFS_BLK_NENTRY + SFS_BLK_NENTRY * k + j /\
     bmap s d i = ent0 s (place s d (Inner k)) j).
Proof.
  unfold MAX_BLOCKS, bmap, SFS_NDIRECT. rewrite nentry. intros Hi. destruct (Z.ltb_spec i 12); [by left|right].
  destruct (Z.ltb_spec (i - 12) 1024); [left; exists (i - 12); split_and!; try done; lia|right].
  set (j := i - 12 - 1024). exists (j / 1024), (j mod 1024). pose proof (inner_index j) as [? ?]; [rewrite nentry; lia|]. rewrite nentry in *.
  split_and!; try done; try lia. pose proof (Z.div_mod j 1024). lia.
Qed.

(** Index blocks are untouched. *)
Lemma place_same s s' d r : (forall q, match q with Data _ => False | _ => True end -> valid q -> place s d q <> 0 -> blk s' (place s d q) = blk s (place s d q)) ->
  valid r -> place s' d r = place s d r.
Proof.
  intros Hq. assert (Hk : forall k, 0 <= k < SFS_BLK_NENTRY -> place s' d (Inner k) = place s d (Inner k)).
  { intros k Hk. cbn. apply ent0_same. intros Hne. by apply (Hq Dbl). }
  destruct r as [i| | |k]; intros Hr; [|done|done|by apply Hk]. change (bmap s' d i = bmap s d i).
  destruct (bmap_parent s d i Hr) as [[Hi E]|[(j & Hj & Ei & E)|(k & j & Hkk & Hj & Ei & E)]].
  - unfold bmap. by rewrite (proj2 (Z.ltb_lt i SFS_NDIRECT)).
  - destruct (bmap_parent s' d i Hr) as [[? _]|[(j' & Hj' & Ei' & E')|(k' & j' & ? & ? & ? & _)]]; [lia| |rewrite nentry in *; lia].
    rewrite E, E'. assert (j' = j) as -> by lia. cbn. apply ent0_same. intros Hne. by apply (Hq Ind).
  - destruct (bmap_parent s' d i Hr) as [[? _]|[(j' & ? & ? & _)|(k' & j' & Hk' & Hj' & Ei' & E')]]; [rewrite nentry in *; lia|rewrite nentry in *; lia|].
    assert (k' = k /\ j' = j) as [-> ->] by (rewrite nentry in *; lia). rewrite E, E', (Hk k Hkk). apply ent0_same. intros Hne. by apply (Hq (Inner k)).
Qed.
(** The role below an entry of an index block. *)
Definition child (q : role) (j : Z) : role :=
  match q with
  | Ind => Data (SFS_NDIRECT + j)
  | Dbl => Inner j
  | Inner k => Data (SFS_NDIRECT + SFS_BLK_NENTRY + SFS_BLK_NENTRY * k + j)
  | Data i => Data i
  end.

Definition is_index (q : role) : Prop := match q with Data _ => False | _ => True end.

Lemma child_valid q j : is_index q -> valid q -> 0 <= j < SFS_BLK_NENTRY -> valid (child q j).
Proof. unfold MAX_BLOCKS. destruct q; cbn; unfold MAX_BLOCKS, SFS_NDIRECT; rewrite ?nentry; try done; lia. Qed.

Lemma child_place s d q j : is_index q -> valid q -> 0 <= j < SFS_BLK_NENTRY -> place s d (child q j) = ent0 s (place s d q) j.
Proof.
  intros Hq Hv Hj. destruct q as [i| | |k]; [done| |done|].
  - change (bmap s d (SFS_NDIRECT + j) = ent0 s (place s d Ind) j). destruct (bmap_parent s d (SFS_NDIRECT + j)) as [[? _]|[(j' & ? & ? & ->)|(k' & j' & ? & ? & ? & _)]];
      [unfold MAX_BLOCKS, SFS_NDIRECT; rewrite nentry in *; lia|lia|f_equal; lia|rewrite nentry in *; lia].
  - change (bmap s d (SFS_NDIRECT + SFS_BLK_NENTRY + SFS_BLK_NENTRY * k + j) = ent0 s (place s d (Inner k)) j). cbn in Hv.
    destruct (bmap_parent s d (SFS_NDIRECT + SFS_BLK_NENTRY + SFS_BLK_NENTRY * k + j)) as [[? _]|[(j' & ? & ? & _)|(k' & j' & ? & ? & ? & ->)]];
      [unfold MAX_BLOCKS, SFS_NDIRECT; rewrite nentry in *; lia|rewrite nentry in *; lia|rewrite nentry in *; lia|].
    assert (k' = k /\ j' = j) as [-> ->] by (rewrite nentry in *; lia). done.
Qed.

(** Every role is direct, at the root, or below an index block. *)
Lemma role_cases r : valid r -> (exists i, r = Data i /\ 0 <= i < SFS_NDIRECT) \/ r = Ind \/ r = Dbl \/
  exists q j, is_index q /\ valid q /\ 0 <= j < SFS_BLK_NENTRY /\ r = child q j.
Proof.
  destruct r as [i| | |k]; cbn [valid]; intros Hr; [|auto|auto|right; right; right; by exists Dbl, k].
  destruct (bmap_parent (mk_sfs 0 0 [] false (Bitmap.mk_bitmap 0 0 []) [] ∅ ∅ ∅ [] []) (mk_din 0 0 0 0 0 [] 0 0) i Hr) as [[Hi _]|[(j & Hj & Ei & _)|(k & j & Hk & Hj & Ei & _)]].
  - left. exists i. split; [done|lia].
  - right. right. right. exists Ind, j. split_and!; try done; try lia. cbn. by rewrite Ei.
  - right. right. right. exists (Inner k), j. split_and!; try done; try lia. cbn. by rewrite Ei.
Qed.

Lemma child_inj q j q' j' : is_index q -> is_index q' -> valid q -> valid q' -> 0 <= j < SFS_BLK_NENTRY -> 0 <= j' < SFS_BLK_NENTRY ->
  child q j = child q' j' -> q = q' /\ j = j'.
Proof.
  destruct q as [|  | |k], q' as [| | |k']; cbn; try done; rewrite ?nentry; unfold SFS_NDIRECT; intros _ _ Hv Hv' Hj Hj' E; injection E as E; try lia.
  all: try (split; [done|lia]). split; [f_equal; lia|lia].
Qed.

(** An entry of the index block in the role [q] is set to [v]; what is below the entry
    stays as it was. *)
Lemma moved_entry s d s' q j v :
  tree_ok s d -> is_index q -> valid q -> 0 <= j < SFS_BLK_NENTRY -> place s d q <> 0 -> is_block (blk s (place s d q)) -> is_u32 v ->
  blk s' (place s d q) = splice (blk s (place s d q)) (4 * j) (le_bytes 4 v) ->
  (forall p, is_index p -> valid p -> place s d p <> 0 -> p <> q -> p <> child q j -> blk s' (place s d p) = blk s (place s d p)) ->
  (q = Dbl -> forall i, 0 <= i < SFS_BLK_NENTRY -> ent0 s' v i = ent0 s (place s d (Inner j)) i) ->
  moved s d s' d (child q j) v.
Proof.
  intros T Hq Hvq Hj Hne Hb Hv He Ho Hd.
  assert (Hent : forall i, 0 <= i < SFS_BLK_NENTRY -> ent0 s' (place s d q) i = if i =? j then v else ent0 s (place s d q) i).
  { intros i Hi. unfold ent0. rewrite (proj2 (Z.eqb_neq _ 0)) by done. rewrite He. by apply ent_set. }
  (** an index block other than [q] and the one below the entry *)
  assert (Hother : forall p i, is_index p -> valid p -> p <> q -> p <> child q j -> ent0 s' (place s d p) i = ent0 s (place s d p) i).
  { intros p i Hp Hvp Hpq Hpc. apply ent0_same. intros Hp0. by apply Ho. }
  assert (Hinner : forall k, 0 <= k < SFS_BLK_NENTRY -> place s' d (Inner k) = if decide (Inner k = child q j) then v else place s d (Inner k)).
  { intros k Hk. destruct (decide (q = Dbl)) as [->|Hqd].
    - cbn [child]. change (ent0 s' (place s d Dbl) k = if decide (Inner k = Inner j) then v else ent0 s (place s d Dbl) k). rewrite (Hent k Hk).
      destruct (Z.eqb_spec k j) as [->|Hkj]; [by rewrite decide_True|rewrite decide_False; [done|congruence]].
    - rewrite decide_False by (destruct q; cbn; congruence). change (ent0 s' (place s d Dbl) k = ent0 s (place s d Dbl) k).
      apply Hother; [done|done|congruence|destruct q; cbn; congruence]. }
  intros r Hr. destruct (role_cases r Hr) as [(i & -> & Hi)|[->|[->|(p & i & Hp & Hvp & Hi & ->)]]].
  - assert (Hc : Data i <> child q j) by (destruct q; cbn; try done; intros [= E]; rewrite ?nentry in *; cbn in Hvq; unfold SFS_NDIRECT in *; lia).
    rewrite decide_False by done. cbn. unfold bmap. by rewrite (proj2 (Z.ltb_lt i SFS_NDIRECT)) by lia.
  - rewrite decide_False; [done|]. destruct q; cbn; congruence.
  - rewrite decide_False; [done|]. destruct q; cbn; congruence.
  - rewrite !child_place by done. destruct (decide (p = q)) as [->|Hpq].
    + assert (Epl : place s' d q = place s d q).
      { destruct q as [| | |k]; try done. rewrite (Hinner k Hvq). rewrite decide_False; [done|]. cbn. congruence. }
      rewrite Epl, (Hent i Hi). destruct (Z.eqb_spec i j) as [->|Hij]; [by rewrite decide_True|].
      rewrite decide_False; [done|]. intros E. apply child_inj in E as [_ E]; try done.
    + rewrite decide_False by (intros E; apply child_inj in E as [E _]; try done). destruct p as [| | |k]; [done|apply (Hother Ind i); [done|done|done|by destruct q]|apply (Hother Dbl i); [done|done|done|by destruct q]|].
      rewrite (Hinner k Hvp). destruct (decide (Inner k = child q j)) as [E|E]; [|by apply Hother].
      destruct q; cbn in E; try done. injection E as ->. by apply Hd.
Qed.

(** A root of the tree is set to [v]. *)
Lemma moved_ind s d s' v :
  (forall p, is_index p -> valid p -> place s d p <> 0 -> p <> Ind -> blk s' (place s d p) = blk s (place s d p)) ->
  (forall i, 0 <= i < SFS_BLK_NENTRY -> ent0 s' v i = ent0 s (indirect d) i) -> moved s d s' (set_indirect v d) Ind v.
Proof.
  intros Ho Hv r Hr. assert (Hinner : forall k, 0 <= k < SFS_BLK_NENTRY -> place s' (set_indirect v d) (Inner k) = place s d (Inner k)).
  { intros k Hk. cbn. apply ent0_same. intros Hne. by apply (Ho Dbl). }
  destruct (role_cases r Hr) as [(i & -> & Hi)|[->|[->|(p & i & Hp & Hvp & Hi & ->)]]].
  - cbn. unfold bmap. by rewrite (proj2 (Z.ltb_lt i SFS_NDIRECT)) by lia.
  - by rewrite decide_True.
  - by rewrite decide_False.
  - rewrite decide_False by (destruct p; cbn; congruence). rewrite !child_place by done. destruct p as [| | |k]; [done|by apply Hv| |].
    + apply ent0_same. intros Hne. by apply (Ho Dbl).
    + rewrite (Hinner k Hvp). apply ent0_same. intros Hne. by apply (Ho (Inner k)).
Qed.

Lemma moved_dbl s d s' v :
  (forall p, is_index p -> valid p -> place s d p <> 0 -> p <> Dbl -> blk s' (place s d p) = blk s (place s d p)) ->
  (forall i, 0 <= i < SFS_BLK_NENTRY -> ent0 s' v i = ent0 s (db_indirect d) i) -> moved s d s' (set_db_indirect v d) Dbl v.
Proof.
  intros Ho Hv r Hr. assert (Hinner : forall k, 0 <= k < SFS_BLK_NENTRY -> place s' (set_db_indirect v d) (Inner k) = place s d (Inner k)) by (intros k Hk; by apply Hv).
  destruct (role_cases r Hr) as [(i & -> & Hi)|[->|[->|(p & i & Hp & Hvp & Hi & ->)]]].
  - cbn. unfold bmap. by rewrite (proj2 (Z.ltb_lt i SFS_NDIRECT)) by lia.
  - by rewrite decide_False.
  - by rewrite decide_True.
  - rewrite decide_False by (destruct p; cbn; congruence). rewrite !child_place by done. destruct p as [| | |k]; [done| |by apply Hv|].
    + apply ent0_same. intros Hne. by apply (Ho Ind).
    + rewrite (Hinner k Hvp). apply ent0_same. intros Hne. by apply (Ho (Inner k)).
Qed.

Lemma moved_direct s d s' i v : length (direct d) = Z.to_nat SFS_NDIRECT -> 0 <= i < SFS_NDIRECT ->
  (forall p, is_index p -> valid p -> place s d p <> 0 -> blk s' (place s d p) = blk s (place s d p)) -> moved s d s' (set_direct i v d) (Data i) v.
Proof.
  intros Hl Hi Ho r Hr. assert (E : forall q, q <> Data i -> valid q -> place s' (set_direct i v d) q = place s' d q).
  { intros q Hq Hvq. destruct q as [j| | |k]; try done. cbn. unfold bmap. destruct (Z.ltb_spec j SFS_NDIRECT); [|done]. cbn in *.
    rewrite list_lookup_insert_ne; [done|]. intros E. apply Hq. f_equal. lia. }
  case_decide as D.
  - subst. cbn. unfold bmap. rewrite (proj2 (Z.ltb_lt i SFS_NDIRECT)) by lia. cbn. by rewrite list_lookup_insert_eq by lia.
  - rewrite (E r D Hr). apply place_same; [|done]. intros q Hq. by apply Ho.
Qed.
End SfsBmap.

(** * The simple file system: finding and making the block of an index *)

Import SfsDisk Sfs SfsInv SfsBmap.

Module SfsGet.

(** ** Blocks taken, given back, and entries set *)

Lemma blk_taken s b c : blk (taken b s) c = if c =? b then zeros SFS_BLKSIZE else blk s c.
Proof. unfold taken. by rewrite blk_written. Qed.

Lemma blk_given s b c : blk (given b s) c = blk s c.
Proof. reflexivity. Qed.

Lemma free_range s b : fs_ok s -> free s b -> 0 < b < super_blocks s.
Proof. intros F Hb. by apply (fo_free _ F). Qed.

Lemma used_written s b l c : used (written b l s) c <-> used s c.
Proof. done. Qed.

Lemma used_taken s b c : fs_ok s -> free s b -> used (taken b s) c <-> used s c \/ c = b.
Proof.
  intros F Hb. pose proof (free_range s b F Hb) as Hr. unfold used. cbn. split.
  - intros [Hc Hbit]. rewrite flip_bit in Hbit by (done || lia). destruct (Z.eqb_spec b c) as [->|Hne]; [by right|]. rewrite xorb_false_r in Hbit. by left.
  - intros [[Hc Hbit]| ->]; (split; [done|]); rewrite flip_bit by (done || lia).
    + rewrite Hbit. destruct (Z.eqb_spec b c) as [->|]; [|done]. destruct Hb as [_ Hb]. congruence.
    + destruct Hb as [_ ->]. by rewrite Z.eqb_refl.
Qed.

Lemma free_taken s b c : fs_ok s -> free s b -> free (taken b s) c -> free s c /\ c <> b.
Proof.
  intros F Hb Hc. pose proof (free_range s b F Hb) as Hr. destruct Hc as [Hc Hbit]. cbn in Hbit. rewrite flip_bit in Hbit by (done || lia).
  destruct (Z.eqb_spec b c) as [->|Hne]; [destruct Hb as [_ Hb]; rewrite Hb in Hbit; done|]. rewrite xorb_false_r in Hbit. split; [by split|congruence].
Qed.

Lemma used_given s b c : fs_ok s -> used s b -> used (given b s) c <-> used s c /\ c <> b.
Proof.
  intros F [Hr Hb]. unfold used. cbn. split.
  - intros [Hc Hbit]. rewrite flip_bit in Hbit by (done || lia). destruct (Z.eqb_spec b c) as [->|Hne]; [rewrite Hb in Hbit; done|]. rewrite xorb_false_r in Hbit. done.
  - intros [[Hc Hbit] Hne]. split; [done|]. rewrite flip_bit by (done || lia). rewrite Hbit. destruct (Z.eqb_spec b c) as [->|]; [congruence|done].
Qed.

(** Entry [j] of the index block [e] is [b]. *)
Definition hung (e j b : Z) (s : sfs_fs) : sfs_fs := written e (splice (blk s e) (4 * j) (le_bytes 4 b)) s.

Lemma used_u32 s b : fs_ok s -> used s b -> is_u32 b.
Proof. intros F [Hb _]. pose proof (fo_bits _ F). pose proof (Bitmap.wf_nbits _ (fo_map _ F)). unfold is_u32. lia. Qed.

Lemma entry_offset j : 0 <= j < SFS_BLK_NENTRY -> u32 (j * 4) = 4 * j /\ 0 <= 4 * j < SFS_BLKSIZE /\ 4 * j + 4 <= SFS_BLKSIZE.
Proof. rewrite nentry. intros Hj. unfold SFS_BLKSIZE. rewrite u32_small by (unfold is_u32; lia). lia. Qed.

Lemma hang_run s e j b : fs_ok s -> used s e -> 0 <= j < SFS_BLK_NENTRY ->
  sfs_wbuf (le_bytes 4 b) e (u32 (j * 4)) s = Ret (0, hung e j b s) /\ fs_ok (hung e j b s).
Proof.
  intros F [He _] Hj. destruct (entry_offset j Hj) as (-> & H1 & H2). apply wbuf_run; [done|done|done|rewrite length_le; lia|apply le_bytes_byte].
Qed.

Lemma entry_run s e j : fs_ok s -> used s e -> 0 <= j < SFS_BLK_NENTRY ->
  sfs_rbuf 4 e (u32 (j * 4)) s = Ret ((0, bytes_at (blk s e) (4 * j) 4), s).
Proof. intros F [He _] Hj. destruct (entry_offset j Hj) as (-> & H1 & H2). by apply rbuf_run. Qed.

(** ** One level *)

(** Looking an entry up. *)
Lemma sub_get s e j : fs_ok s -> e = 0 \/ used s e -> 0 <= j < SFS_BLK_NENTRY ->
  sfs_bmap_get_sub_nolock e j false s = Ret ((0, e, ent0 s e j), s).
Proof.
  intros F He Hj. unfold sfs_bmap_get_sub_nolock, ent0. rewrite assert_true by (apply Z.ltb_lt; lia). cbv zeta.
  destruct (Z.eqb_spec e 0) as [->|Hne]; cbn [negb]; [done|]. destruct He as [?|He]; [done|].
  rewrite (bind_step _ _ _ _ _ (entry_run s e j F He Hj)). cbn [negb Z.eqb]. by rewrite orb_true_r.
Qed.

(** An entry that is there already. *)
Lemma sub_there s e j : fs_ok s -> used s e -> 0 <= j < SFS_BLK_NENTRY -> ent0 s e j <> 0 ->
  sfs_bmap_get_sub_nolock e j true s = Ret ((0, e, ent0 s e j), s).
Proof.
  intros F He Hj Hn. pose proof (used_pos _ _ He) as Hne. unfold sfs_bmap_get_sub_nolock. rewrite assert_true by (apply Z.ltb_lt; lia). cbv zeta.
  unfold ent0 in *. rewrite (proj2 (Z.eqb_neq e 0)) in * by done. cbn [negb].
  rewrite (bind_step _ _ _ _ _ (entry_run s e j F He Hj)). cbn [negb Z.eqb]. fold (word_at (blk s e) (4 * j)). fold (ent (blk s e) j).
  by rewrite (proj2 (Z.eqb_neq (ent (blk s e) j) 0)).
Qed.

(** A new entry of an index block that exists. *)
Lemma sub_new s e j : fs_ok s -> used s e -> 0 <= j < SFS_BLK_NENTRY -> ent0 s e j = 0 ->
  sfs_bmap_get_sub_nolock e j true s = Ret ((- E_NO_MEM, e, 0), s) \/
  exists b, free s b /\ sfs_bmap_get_sub_nolock e j true s = Ret ((0, e, b), hung e j b (taken b s)) /\ fs_ok (hung e j b (taken b s)).
Proof.
  intros F He Hj Hn. pose proof (used_pos _ _ He) as Hne. unfold sfs_bmap_get_sub_nolock. rewrite assert_true by (apply Z.ltb_lt; lia). cbv zeta.
  unfold ent0 in *. rewrite (proj2 (Z.eqb_neq e 0)) in * by done. cbn [negb].
  rewrite (bind_step _ _ _ _ _ (entry_run s e j F He Hj)). cbn [negb Z.eqb]. fold (word_at (blk s e) (4 * j)). fold (ent (blk s e) j). rewrite Hn. cbn [negb Z.eqb orb].
  destruct (alloc_run s F) as [[Hr _]|(b & Hb & Hr & F1)]; rewrite (bind_step _ _ _ _ _ Hr).
  - left. change (negb (- E_NO_MEM =? 0)) with true. cbv iota. rewrite Z.eqb_refl. done.
  - right. exists b. split; [done|]. cbn [negb Z.eqb]. assert (He1 : used (taken b s) e) by (apply used_taken; [done|done|by left]).
    destruct (hang_run (taken b s) e j b F1 He1 Hj) as [Hw F2]. rewrite (bind_step _ _ _ _ _ Hw). done.
Qed.

(** A new index block with a new entry. *)
Lemma sub_new_block s j : fs_ok s -> 0 <= j < SFS_BLK_NENTRY ->
  (exists s', sfs_bmap_get_sub_nolock 0 j true s = Ret ((- E_NO_MEM, 0, 0), s') /\
    (s' = s \/ exists e, free s e /\ s' = given e (taken e s) /\ fs_ok s')) \/
  exists e b, free s e /\ free (taken e s) b /\ fs_ok (taken e s) /\
    sfs_bmap_get_sub_nolock 0 j true s = Ret ((0, e, b), hung e j b (taken b (taken e s))) /\ fs_ok (hung e j b (taken b (taken e s))).
Proof.
  intros F Hj. unfold sfs_bmap_get_sub_nolock. rewrite assert_true by (apply Z.ltb_lt; lia). cbv zeta. change (negb (0 =? 0)) with false. cbv iota.
  change (negb true) with false. cbv iota.
  destruct (alloc_run s F) as [[Hr _]|(e & He & Hr & F1)]; rewrite (bind_step _ _ _ _ _ Hr); [left; exists s; by split; [|left]|].
  change (negb (0 =? 0)) with false. cbv iota. assert (Hue : used (taken e s) e) by (apply used_taken; [done|done|by right]). pose proof (used_pos _ _ Hue) as He0.
  destruct (alloc_run (taken e s) F1) as [[Hr2 _]|(b & Hb & Hr2 & F2)]; rewrite (bind_step _ _ _ _ _ Hr2).
  - left. change (negb (- E_NO_MEM =? 0)) with true. cbv iota. rewrite (proj2 (Z.eqb_neq e 0)) by done. cbn [negb].
    destruct (free_run (taken e s) e F1 Hue) as [Hf F3]. rewrite (bind_step _ _ _ _ _ Hf). eexists. split; [reflexivity|]. right. by exists e.
  - right. exists e, b. split; [done|]. split; [done|]. split; [done|]. change (negb (0 =? 0)) with false. cbv iota.
    assert (Hue2 : used (taken b (taken e s)) e) by (apply used_taken; [done|done|by left]).
    destruct (hang_run (taken b (taken e s)) e j b F2 Hue2 Hj) as [Hw F3]. rewrite (bind_step _ _ _ _ _ Hw). done.
Qed.
End SfsGet.
