(* ===== verification/SfsMake.v ===== *)
(** * The simple file system: a file that grows

    Making the block of an index adds blocks to a file, one role after the other: the
    relation [grow] says what any number of such steps keeps, on the file and on the rest
    of the disk. *)

From S2P Require Import Prelude Bitmap CString SfsDisk Sfs SfsInv SfsBmap.
Import SfsDisk Sfs SfsInv SfsBmap SfsGet.
Open Scope Z_scope.

Module SfsGrow.

(** What the block map leaves alone in the file system and in an inode. *)
Definition rest (s : sfs_fs) := (super_blocks s, super_info s, inode_list s, hash_list s, mem_results s).
Definition facts (d : sfs_disk_inode) := (dir_parent d, type d, nlinks d).

(** The blocks of a file. *)
Definition owned (s : sfs_fs) (d : sfs_disk_inode) (c : Z) : Prop := exists r, valid r /\ place s d r = c /\ c <> 0.
Definition indexing (s : sfs_fs) (d : sfs_disk_inode) (c : Z) : Prop := exists q, is_index q /\ valid q /\ place s d q = c.

Record grow (s : sfs_fs) (d : sfs_disk_inode) (s' : sfs_fs) (d' : sfs_disk_inode) : Prop := {
  g_fs : fs_ok s';
  g_tree : tree_ok s' d';
  g_keep : forall r, valid r -> place s d r <> 0 -> place s' d' r = place s d r;
  g_new : forall r, valid r -> place s d r = 0 -> place s' d' r <> 0 -> free s (place s' d' r);
  g_zero : forall i, 0 <= i < MAX_BLOCKS -> bmap s d i = 0 -> bmap s' d' i <> 0 -> blk s' (bmap s' d' i) = zeros SFS_BLKSIZE;
  g_used : forall c, used s' c <-> used s c \/ owned s' d' c;
  g_blk : forall c, used s c -> ~ indexing s d c -> blk s' c = blk s c;
  g_rest : rest s' = rest s;
  g_facts : facts d' = facts d;
  g_blocks : blocks d' = blocks d;
  g_info0 : info0 d' = info0 d
}.

Lemma owned_used s d c : tree_ok s d -> owned s d c -> used s c.
Proof. intros T (r & Hr & <- & Hc). by apply T. Qed.

Lemma rest_blocks s s' : rest s' = rest s -> super_blocks s' = super_blocks s.
Proof. unfold rest. congruence. Qed.

Lemma free_unused s b : fs_ok s -> 0 < b < super_blocks s -> ~ used s b -> free s b.
Proof.
  intros F Hb Hn. pose proof (fo_bits _ F). split; [lia|]. destruct (Bitmap.bit (freemap s) b) eqn:E; [done|]. by destruct Hn.
Qed.

Lemma grow_free s d s' d' b : fs_ok s -> grow s d s' d' -> free s' b -> free s b.
Proof.
  intros F G Hb. pose proof (fo_free _ (g_fs _ _ _ _ G) b Hb) as Hr. rewrite (rest_blocks _ _ (g_rest _ _ _ _ G)) in Hr.
  apply free_unused; [done|done|]. intros Hu. apply (used_free s' b); [|done]. apply G. by left.
Qed.

Lemma grow_refl s d : fs_ok s -> tree_ok s d -> grow s d s d.
Proof. intros F T. split; try done. intros c. split; [by left|]. intros [Hc|Hc]; [done|by eapply owned_used]. Qed.

Lemma grow_owned s d s' d' c : grow s d s' d' -> owned s d c -> owned s' d' c.
Proof. intros G (r & Hr & <- & Hc). exists r. split; [done|]. split; [by apply G|done]. Qed.

Lemma grow_indexing s d s' d' c : grow s d s' d' -> used s c -> indexing s' d' c -> indexing s d c.
Proof.
  intros G Hc (q & Hq & Hv & E). pose proof (used_pos _ _ Hc). exists q. split; [done|]. split; [done|]. destruct (decide (place s d q = 0)) as [E0|E0].
  - exfalso. apply (used_free s c Hc). rewrite <- E. apply G; [done|done|congruence].
  - rewrite <- E. symmetry. by apply G.
Qed.

Lemma data_indexing s d i : tree_ok s d -> 0 <= i < MAX_BLOCKS -> bmap s d i <> 0 -> ~ indexing s d (bmap s d i).
Proof. intros T Hi Hn (q & Hq & Hv & E). assert (q = Data i) as -> by (apply (t_inj _ _ T); [done|done|done|cbn in *; congruence]). done. Qed.

Lemma grow_trans s d s1 d1 s2 d2 : fs_ok s -> tree_ok s d -> grow s d s1 d1 -> grow s1 d1 s2 d2 -> grow s d s2 d2.
Proof.
  intros F T G1 G2. split; try apply G2.
  - intros r Hr Hn. rewrite <- (g_keep _ _ _ _ G1 r Hr Hn). apply G2; [done|]. by rewrite (g_keep _ _ _ _ G1 r Hr Hn).
  - intros r Hr H0 Hn. destruct (decide (place s1 d1 r = 0)) as [E|E].
    + eapply grow_free; [done|exact G1|]. by apply G2.
    + rewrite (g_keep _ _ _ _ G2 r Hr E) in *. by apply G1.
  - intros i Hi H0 Hn. destruct (decide (bmap s1 d1 i = 0)) as [E|E]; [by apply G2|].
    pose proof (g_keep _ _ _ _ G2 (Data i) Hi E) as Ek. cbn in Ek. rewrite Ek. rewrite (g_blk _ _ _ _ G2); [by apply G1|by apply (t_used _ _ (g_tree _ _ _ _ G1) (Data i))|].
    by apply data_indexing; [apply G1|..].
  - intros c. rewrite (g_used _ _ _ _ G2), (g_used _ _ _ _ G1). split; [intros [[?|H]|?]|intros [?|?]]; auto. right. by eapply grow_owned.
  - intros c Hc Hi. rewrite (g_blk _ _ _ _ G2); [by apply G1| |]; [apply G1; by left|]. intros Hx. apply Hi. by eapply grow_indexing.
  - rewrite (g_rest _ _ _ _ G2). apply G1.
  - rewrite (g_facts _ _ _ _ G2). apply G1.
  - rewrite (g_blocks _ _ _ _ G2). apply G1.
  - rewrite (g_info0 _ _ _ _ G2). apply G1.
Qed.

(** One role gets a block. *)
Lemma grow_attach s d s' d' R v :
  fs_ok s -> tree_ok s d -> fs_ok s' -> valid R -> place s d R = 0 -> free s v -> moved s d s' d' R v ->
  (forall c, used s' c <-> used s c \/ c = v) -> (forall c, used s c -> ~ indexing s d c -> blk s' c = blk s c) ->
  blk s' v = zeros SFS_BLKSIZE -> rest s' = rest s -> facts d' = facts d -> blocks d' = blocks d -> info0 d' = info0 d -> length (direct d') = length (direct d) -> grow s d s' d'.
Proof.
  intros F T F' HR H0 Hv Hm Hu Hb Hz Hr Hf Hk Hin Hl. pose proof (free_range s v F Hv) as Hvr.
  split; try done.
  - eapply attach_ok; try done; [lia|intros c Hc; apply Hu; by left|apply Hu; by right].
  - intros r Hvr' Hn. rewrite (Hm r Hvr'). case_decide; [subst; done|done].
  - intros r Hvr' E. rewrite (Hm r Hvr'). by case_decide.
  - intros i Hi E. change (bmap s' d' i) with (place s' d' (Data i)). rewrite (Hm (Data i) Hi). by case_decide.
  - intros c. rewrite Hu. split; (intros [?|Hc]; [by left|]).
    + right. exists R. split; [done|]. rewrite (Hm R HR), decide_True by done. split; [done|lia].
    + destruct Hc as (r & Hvr' & E & Hc). rewrite (Hm r Hvr') in E. case_decide; [by right|]. left. rewrite <- E. apply T; [done|congruence].
Qed.

(** Nothing but free blocks changes. *)
Lemma grow_idle s d s' : fs_ok s -> tree_ok s d -> fs_ok s' -> (forall c, used s' c <-> used s c) -> (forall c, used s c -> blk s' c = blk s c) ->
  rest s' = rest s -> grow s d s' d /\ forall r, valid r -> place s' d r = place s d r.
Proof.
  intros F T F' Hu Hb Hr. assert (Hp : forall r, valid r -> place s' d r = place s d r).
  { intros r Hv. apply place_same; [|done]. intros q _ Hvq Hn. by apply Hb, T. }
  split; [|done]. split; try done.
  - split; [apply T| |].
    + intros r Hv. rewrite (Hp r Hv). intros Hn. by apply Hu, T.
    + intros r r' Hv Hv'. rewrite (Hp r Hv), (Hp r' Hv'). by apply T.
  - intros r Hv Hn. by apply Hp.
  - intros r Hv H0. rewrite (Hp r Hv). done.
  - intros i Hi H0. change (bmap s' d i) with (place s' d (Data i)). by rewrite (Hp (Data i) Hi).
  - intros c. rewrite Hu. split; [by left|]. intros [?|(r & Hv & E & Hc)]; [done|]. rewrite (Hp r Hv) in E. rewrite <- E. apply T; [done|congruence].
  - intros c Hc _. by apply Hb.
Qed.

(** ** The steps *)

Lemma free_ne s b c : free s b -> used s c -> c <> b.
Proof. intros Hb Hc ->. by eapply used_free. Qed.

Lemma blk_hung s e j b c : blk (hung e j b (taken b s)) c =
  if c =? e then splice (blk (taken b s) e) (4 * j) (le_bytes 4 b) else if c =? b then zeros SFS_BLKSIZE else blk s c.
Proof. unfold hung. rewrite blk_written. destruct (c =? e); [done|]. apply blk_taken. Qed.

Lemma hung_rest s e j b : rest (hung e j b (taken b s)) = rest s.
Proof. reflexivity. Qed.

(** A new block below an index block. *)
Lemma attach_entry s d q j b :
  fs_ok s -> tree_ok s d -> is_index q -> valid q -> 0 <= j < SFS_BLK_NENTRY -> used s (place s d q) -> ent0 s (place s d q) j = 0 -> free s b ->
  fs_ok (hung (place s d q) j b (taken b s)) ->
  grow s d (hung (place s d q) j b (taken b s)) d /\ moved s d (hung (place s d q) j b (taken b s)) d (child q j) b.
Proof.
  intros F T Hq Hv Hj He H0 Hb F'. set (e := place s d q) in *. set (s' := hung e j b (taken b s)) in *.
  pose proof (free_ne s b e Hb He) as Hne. pose proof (used_pos _ _ He) as He0. pose proof (free_range s b F Hb) as Hbr. destruct He as [Her _].
  destruct (blk_ok s e F) as [_ Hbe]; [lia|].
  assert (Hblk : forall c, used s c -> c <> e -> blk s' c = blk s c).
  { intros c Hc Hce. unfold s'. rewrite blk_hung, (proj2 (Z.eqb_neq c e)) by done. by rewrite (proj2 (Z.eqb_neq c b)) by (by apply (free_ne s)). }
  assert (Hm : moved s d s' d (child q j) b).
  { apply moved_entry; try done.
    - apply (used_u32 (taken b s)); [by apply taken_ok|]. apply used_taken; [done|done|by right].
    - unfold s'. rewrite blk_hung. fold e. rewrite Z.eqb_refl, blk_taken, (proj2 (Z.eqb_neq e b)) by done. done.
    - intros p Hp Hvp Hn Hpq _. apply Hblk; [by apply T|]. intros E. apply Hpq. by apply (t_inj _ _ T).
    - intros -> i Hi. cbn [child] in *. change (place s d (Inner j)) with (ent0 s e j). rewrite H0. unfold ent0 at 2. cbn.
      unfold ent0. destruct (Z.eqb_spec b 0); [done|]. unfold s'. rewrite blk_hung, Z.eqb_refl. rewrite (proj2 (Z.eqb_neq b e)) by congruence. apply ent_zeros. }
  split; [|done]. apply (grow_attach s d s' d (child q j) b); try done.
  - by apply child_valid.
  - by rewrite child_place.
  - intros c. unfold s', hung. rewrite used_written. by apply used_taken.
  - intros c Hc Hi. apply Hblk; [done|]. intros ->. apply Hi. by exists q.
  - unfold s'. rewrite blk_hung, Z.eqb_refl. by rewrite (proj2 (Z.eqb_neq b e)) by congruence.
Qed.

Lemma taken_frame s b c : free s b -> used s c -> blk (taken b s) c = blk s c.
Proof. intros Hb Hc. rewrite blk_taken. by rewrite (proj2 (Z.eqb_neq c b)) by (by apply (free_ne s)). Qed.

Lemma taken_ent0 s b i : ent0 (taken b s) b i = 0.
Proof. unfold ent0. destruct (b =? 0); [done|]. rewrite blk_taken, Z.eqb_refl. apply ent_zeros. Qed.

(** A new direct block, index block or double-index block. *)
Lemma attach_top s d d' R b :
  fs_ok s -> tree_ok s d -> valid R -> place s d R = 0 -> free s b -> moved s d (taken b s) d' R b ->
  facts d' = facts d -> blocks d' = blocks d -> info0 d' = info0 d -> length (direct d') = length (direct d) -> grow s d (taken b s) d'.
Proof.
  intros F T HR H0 Hb Hm Hf Hk Hin Hl. eapply grow_attach; try done; [by apply taken_ok|intros c; by apply used_taken| |].
  - intros c Hc _. by apply taken_frame.
  - by rewrite blk_taken, Z.eqb_refl.
Qed.

Lemma attach_direct s d i b : fs_ok s -> tree_ok s d -> 0 <= i < SFS_NDIRECT -> bmap s d i = 0 -> free s b ->
  grow s d (taken b s) (set_direct i b d) /\ moved s d (taken b s) (set_direct i b d) (Data i) b.
Proof.
  intros F T Hi H0 Hb. assert (Hm : moved s d (taken b s) (set_direct i b d) (Data i) b).
  { apply moved_direct; [apply T|done|]. intros p _ Hp Hn. apply taken_frame; [done|by apply T]. }
  split; [|done]. apply (attach_top s d _ (Data i) b); try done; [|cbn; apply length_insert].
  cbn. unfold MAX_BLOCKS, SFS_NDIRECT in *. rewrite nentry. lia.
Qed.

Lemma attach_ind s d b : fs_ok s -> tree_ok s d -> indirect d = 0 -> free s b ->
  grow s d (taken b s) (set_indirect b d) /\ moved s d (taken b s) (set_indirect b d) Ind b.
Proof.
  intros F T H0 Hb. assert (Hm : moved s d (taken b s) (set_indirect b d) Ind b).
  { apply moved_ind; [intros p _ Hp Hn _; apply taken_frame; [done|by apply T]|]. intros i _. by rewrite taken_ent0, H0. }
  split; [|done]. by apply (attach_top s d _ Ind b).
Qed.

Lemma attach_dbl s d b : fs_ok s -> tree_ok s d -> db_indirect d = 0 -> free s b ->
  grow s d (taken b s) (set_db_indirect b d) /\ moved s d (taken b s) (set_db_indirect b d) Dbl b.
Proof.
  intros F T H0 Hb. assert (Hm : moved s d (taken b s) (set_db_indirect b d) Dbl b).
  { apply moved_dbl; [intros p _ Hp Hn _; apply taken_frame; [done|by apply T]|]. intros i _. by rewrite taken_ent0, H0. }
  split; [|done]. by apply (attach_top s d _ Dbl b).
Qed.
End SfsGrow.

(** * The simple file system: [sfs_bmap_get_nolock] and [sfs_bmap_load_nolock]

    Looking the block of an index up, and making it: the block map of the file gets the one
    new block, cleared, or stays as it was when no block is free. *)

Import SfsDisk Sfs SfsInv SfsBmap SfsGet SfsGrow.

Module SfsMake.

(** ** Inodes in memory *)

Definition at_node (a : Z) (x : inode) (s : sfs_fs) : sfs_fs := upd_nodes <[a := x]> s.

(** The inode with its new disk part: dirty unless nothing changed. *)
Definition saved (x : inode) (d : sfs_disk_inode) (x' : inode) : Prop :=
  (x' = x /\ d = din x) \/ x' = set_dirty true (upd_din (fun _ => d) x).

Lemma saved_din x d x' : saved x d x' -> din x' = d.
Proof. intros [[-> ->]| ->]; done. Qed.

Lemma saved_trans x d x' d' x'' : saved x d x' -> saved x' d' x'' -> saved x d' x''.
Proof. intros [[-> ->]| ->] [[-> ->]| ->]; [by left|by right|by right|by right]. Qed.

Lemma at_node_id a x s : nodes s !! a = Some x -> at_node a x s = s.
Proof. intros H. destruct s. unfold at_node, upd_nodes. cbn in *. by rewrite insert_id. Qed.

Lemma at_node_twice a x y s : at_node a x (at_node a y s) = at_node a x s.
Proof. unfold at_node, upd_nodes. cbn. by rewrite insert_insert_eq. Qed.

Lemma at_node_ok a x s : fs_ok (at_node a x s) <-> fs_ok s.
Proof. split; intros []; by split. Qed.

Lemma get_node_run a x s : nodes s !! a = Some x -> get_node a s = Ret (x, s).
Proof. intros H. unfold get_node. by rewrite bind_get, H. Qed.

Lemma set_node_run f a x s : nodes s !! a = Some x -> set_node f a s = Ret (tt, at_node a (f x) s).
Proof.
  intros H. unfold set_node. rewrite (bind_step _ _ _ _ _ (get_node_run a x s H)). unfold modify, at_node, upd_nodes. do 3 f_equal.
  apply map_eq. intros k. destruct (decide (k = a)) as [->|Hk]; [by rewrite lookup_alter_eq, lookup_insert_eq, H|by rewrite lookup_alter_ne, lookup_insert_ne].
Qed.

Lemma lookup_at_node a x s : nodes (at_node a x s) !! a = Some x.
Proof. apply lookup_insert_eq. Qed.

(** [sin->din->... = ...; sin->dirty = 1]. *)
Lemma save_run {B} f a x s (k : unit -> M sfs_fs B) : nodes s !! a = Some x ->
  (set_node (upd_din f) a ;; bind (set_node (set_dirty true) a) k) s = k tt (at_node a (set_dirty true (upd_din f x)) s).
Proof.
  intros H. rewrite (bind_step _ _ _ _ _ (set_node_run _ a x s H)). rewrite (bind_step _ _ _ _ _ (set_node_run _ a _ _ (lookup_at_node a _ s))).
  by rewrite at_node_twice.
Qed.

(** ** Looking up *)

Lemma bmap_out_run s b : fs_ok s -> b = 0 \/ used s b -> bmap_out b s = Ret ((0, b), s).
Proof.
  intros F Hb. unfold bmap_out. destruct (Z.eqb_spec b 0) as [->|Hn]; [done|]. destruct Hb as [?|Hb]; [done|].
  by rewrite (bind_step _ _ _ _ _ (assert_inuse_run s b F Hb)).
Qed.

Lemma get_run s a x i : fs_ok s -> nodes s !! a = Some x -> tree_ok s (din x) -> 0 <= i < MAX_BLOCKS ->
  sfs_bmap_get_nolock a i false s = Ret ((0, bmap s (din x) i), s).
Proof.
  intros F Hx T Hi. pose proof (place_used s (din x) (Data i) T Hi) as Hu. cbn in Hu. unfold sfs_bmap_get_nolock.
  rewrite (bind_step _ _ _ _ _ (get_node_run a x s Hx)). unfold bmap in *. destruct (Z.ltb_spec i SFS_NDIRECT) as [H1|H1].
  - destruct (lookup_lt_is_Some_2 (direct (din x)) (Z.to_nat i)) as [b Hb]; [rewrite (t_direct _ _ T); lia|]. rewrite (bind_deref _ _ _ _ Hb), andb_false_r.
    rewrite Hb in *. by apply bmap_out_run.
  - destruct (Z.ltb_spec (i - SFS_NDIRECT) SFS_BLK_NENTRY) as [H2|H2].
    + assert (Hj : 0 <= i - SFS_NDIRECT < SFS_BLK_NENTRY) by lia. rewrite (bind_step _ _ _ _ _ (sub_get s _ _ F (place_used s (din x) Ind T I) Hj)). cbn [negb Z.eqb]. rewrite Z.eqb_refl. cbn [negb]. rewrite bind_ret.
      by apply bmap_out_run.
    + set (j := i - SFS_NDIRECT - SFS_BLK_NENTRY) in *. destruct (inner_index j) as [Hk Hj]; [unfold MAX_BLOCKS in Hi; lia|].
      rewrite (bind_step _ _ _ _ _ (sub_get s _ _ F (place_used s (din x) Dbl T I) Hk)). cbn [negb Z.eqb place]. rewrite Z.eqb_refl. cbn [negb]. rewrite bind_ret.
      pose proof (place_used s (din x) (Inner (j / SFS_BLK_NENTRY)) T Hk) as Hin. cbn in Hin.
      destruct (Z.eqb_spec (ent0 s (db_indirect (din x)) (j / SFS_BLK_NENTRY)) 0) as [E|E]; cbn [negb].
      * rewrite bmap_out_run by (done || by left). unfold ent0 at 2. by rewrite E.
      * rewrite (bind_step _ _ _ _ _ (sub_get s _ _ F Hin Hj)). cbn [negb Z.eqb]. by apply bmap_out_run.
Qed.

(** ** Making *)

Definition set_root (q : role) (e : Z) (d : sfs_disk_inode) : sfs_disk_inode :=
  match q with Ind => set_indirect e d | Dbl => set_db_indirect e d | _ => d end.

Lemma set_root_id s q d : set_root q (place s d q) d = d.
Proof. by destruct q, d. Qed.

(** The places after an entry of the index block [q] was made, and the index block if
    there was none. *)
Definition made s d s' d' q j e b : Prop :=
  forall p, valid p -> place s' d' p = if decide (p = child q j) then b else if decide (p = q) then e else place s d p.

Lemma child_ne q j : is_index q -> child q j <> q.
Proof. by destruct q. Qed.

(** Taking a block and giving it back. *)
Lemma back_idle s d e : fs_ok s -> tree_ok s d -> free s e -> fs_ok (given e (taken e s)) ->
  grow s d (given e (taken e s)) d /\ forall r, valid r -> place (given e (taken e s)) d r = place s d r.
Proof.
  intros F T He F'. assert (Hue : used (taken e s) e) by (apply used_taken; [done|done|by right]). apply grow_idle; try done.
  - intros c. rewrite used_given by (by apply taken_ok || done). rewrite used_taken by done. split; [intros [[?| ->] ?]; done|].
    intros Hc. split; [by left|]. intros ->. by eapply used_free.
  - intros c Hc. rewrite blk_given. by apply taken_frame.
Qed.

(** A new index block gets its first entry. *)
Lemma attach_pair s d q j e b : fs_ok s -> tree_ok s d -> is_index q -> (forall k, q <> Inner k) -> valid q -> 0 <= j < SFS_BLK_NENTRY -> place s d q = 0 ->
  free s e -> free (taken e s) b -> fs_ok (taken e s) -> fs_ok (hung e j b (taken b (taken e s))) ->
  grow s d (hung e j b (taken b (taken e s))) (set_root q e d) /\ made s d (hung e j b (taken b (taken e s))) (set_root q e d) q j e b.
Proof.
  intros F T Hq Hk Hv Hj H0 He Hb F1 F2. pose proof (free_range s e F He) as Her.
  assert (G1 : grow s d (taken e s) (set_root q e d) /\ moved s d (taken e s) (set_root q e d) q e).
  { destruct q as [| | |k]; [done|by apply attach_ind|by apply attach_dbl|by destruct (Hk k)]. }
  destruct G1 as [G1 M1]. assert (Ep : place (taken e s) (set_root q e d) q = e) by (rewrite (M1 q Hv); by rewrite decide_True).
  assert (Hue : used (taken e s) e) by (apply used_taken; [done|done|by right]).
  destruct (attach_entry (taken e s) (set_root q e d) q j b) as [G2 M2]; try done.
  - apply G1.
  - by rewrite Ep.
  - rewrite Ep. apply taken_ent0.
  - by rewrite Ep.
  - rewrite Ep in G2, M2. split; [by eapply grow_trans|]. intros p Hp. rewrite (M2 p Hp). case_decide; [done|]. by apply M1.
Qed.

Lemma sub_make s d q j : fs_ok s -> tree_ok s d -> is_index q -> valid q -> 0 <= j < SFS_BLK_NENTRY ->
  ent0 s (place s d q) j = 0 -> (forall k, q = Inner k -> place s d q <> 0) ->
  exists r e b s', sfs_bmap_get_sub_nolock (place s d q) j true s = Ret ((r, e, b), s') /\ nodes s' = nodes s /\ grow s d s' (set_root q e d) /\
    (place s d q <> 0 -> e = place s d q) /\
    ((r = 0 /\ e <> 0 /\ b <> 0 /\ made s d s' (set_root q e d) q j e b) \/
     (r = - E_NO_MEM /\ e = place s d q /\ forall p, valid p -> place s' d p = place s d p)).
Proof.
  intros F T Hq Hv Hj H0 Hk. destruct (decide (place s d q = 0)) as [E|E].
  - assert (Hk' : forall k, q <> Inner k) by (intros k Ek; by apply (Hk k)). rewrite E. destruct (sub_new_block s j F Hj) as [(s' & Hr & Hs)|(e & b & He & Hb & F1 & Hr & F2)].
    + exists (- E_NO_MEM), 0, 0, s'. split; [done|]. split; [by destruct Hs as [-> |(e & ? & -> & ?)]|]. replace (set_root q 0 d) with d by (rewrite <- E; by rewrite set_root_id).
      destruct Hs as [-> |(e & He & -> & F')].
      * split; [by apply grow_refl|]. split; [done|]. by right.
      * destruct (back_idle s d e F T He F') as [G P]. split; [done|]. split; [done|]. by right.
    + exists 0, e, b, (hung e j b (taken b (taken e s))). pose proof (free_range s e F He). pose proof (free_range _ b F1 Hb).
      destruct (attach_pair s d q j e b) as [G M]; try done. split; [done|]. split; [done|]. split; [done|]. split; [done|]. left. split_and!; try done; lia.
  - assert (He : used s (place s d q)) by (by apply T). destruct (sub_new s _ j F He Hj H0) as [Hr|(b & Hb & Hr & F')].
    + exists (- E_NO_MEM), (place s d q), 0, s. rewrite set_root_id. split; [done|]. split; [done|]. split; [by apply grow_refl|]. split; [done|]. by right.
    + pose proof (free_range s b F Hb). exists 0, (place s d q), b, (hung (place s d q) j b (taken b s)). destruct (attach_entry s d q j b) as [G M]; try done.
      rewrite set_root_id. split; [done|]. split; [done|]. split; [done|]. split; [done|]. left. split_and!; [done|done|lia|].
      intros p Hp. rewrite (M p Hp). case_decide; [done|]. case_decide; [by subst|done].
Qed.

(** Inodes in memory do not matter to the blocks. *)
Lemma tree_at_node a x s d : tree_ok (at_node a x s) d <-> tree_ok s d.
Proof. split; intros []; by split. Qed.

Lemma grow_from_node a x s d s' d' : grow (at_node a x s) d s' d' -> grow s d s' d'.
Proof. intros []. by split. Qed.

Lemma grow_to_node a x s d s' d' : grow s d s' d' -> grow s d (at_node a x s') d'.
Proof. intros []. split; try done; [by apply at_node_ok|by apply tree_at_node]. Qed.

(** What making the block [i] comes to: the new block, or no change of the block map. *)
Definition one_more (s : sfs_fs) (d : sfs_disk_inode) (s' : sfs_fs) (d' : sfs_disk_inode) (i r b : Z) : Prop :=
  (r = 0 /\ b <> 0 /\ forall j, 0 <= j < MAX_BLOCKS -> bmap s' d' j = if j =? i then b else bmap s d j) \/
  (r = - E_NO_MEM /\ b = 0 /\ forall j, 0 <= j < MAX_BLOCKS -> bmap s' d' j = bmap s d j).

Definition make_post (s : sfs_fs) (a : Z) (x : inode) (i : Z) (res : outcome ((Z * Z) * sfs_fs)) : Prop :=
  exists r b s' x', res = Ret ((r, b), s') /\ nodes s' = <[a := x']> (nodes s) /\ saved x (din x') x' /\
    grow s (din x) s' (din x') /\ one_more s (din x) s' (din x') i r b.

Lemma saved_id x : saved x (din x) x.
Proof. by left. Qed.

Lemma make_failed s a x i s' : nodes s !! a = Some x -> nodes s' = nodes s -> grow s (din x) s' (din x) ->
  (forall p, valid p -> place s' (din x) p = place s (din x) p) -> make_post s a x i (Ret ((- E_NO_MEM, 0), s')).
Proof.
  intros Hx En G P. exists (- E_NO_MEM), 0, s', x. split; [done|]. split; [rewrite En; by rewrite insert_id|]. split; [apply saved_id|]. split; [done|].
  right. split; [done|]. split; [done|]. intros j Hj. by apply (P (Data j)).
Qed.

Lemma make_direct s a x i : fs_ok s -> nodes s !! a = Some x -> tree_ok s (din x) -> 0 <= i < SFS_NDIRECT -> bmap s (din x) i = 0 ->
  make_post s a x i (sfs_bmap_get_nolock a i true s).
Proof.
  intros F Hx T Hi H0. assert (Hvi : valid (Data i)) by (cbn; unfold MAX_BLOCKS, SFS_NDIRECT in *; rewrite nentry; lia). unfold sfs_bmap_get_nolock.
  rewrite (bind_step _ _ _ _ _ (get_node_run a x s Hx)), (proj2 (Z.ltb_lt i SFS_NDIRECT)) by lia.
  destruct (lookup_lt_is_Some_2 (direct (din x)) (Z.to_nat i)) as [b0 Hb0]; [rewrite (t_direct _ _ T); lia|]. rewrite (bind_deref _ _ _ _ Hb0).
  assert (b0 = 0) as ->. { unfold bmap in H0. rewrite (proj2 (Z.ltb_lt i SFS_NDIRECT)) in H0 by lia. by rewrite Hb0 in H0. } cbn [Z.eqb andb].
  destruct (alloc_run s F) as [[Hr _]|(b & Hb & Hr & F1)]; rewrite (bind_step _ _ _ _ _ Hr).
  - apply make_failed; try done. by apply grow_refl.
  - cbn [negb Z.eqb]. rewrite (save_run _ a x) by done. destruct (attach_direct s (din x) i b F T Hi H0 Hb) as [G M]. pose proof (free_range s b F Hb).
    set (s1 := at_node a _ _). assert (G' : grow s (din x) s1 (set_direct i b (din x))) by (by apply grow_to_node).
    assert (Hu : used s1 b) by (apply (used_taken s b b F Hb); by right). rewrite bmap_out_run; [|apply G'|by right].
    exists 0, b, s1, (set_dirty true (upd_din (set_direct i b) x)). split; [done|]. split; [done|]. split; [by right|]. split; [done|].
    left. split; [done|]. split; [lia|]. intros j Hj. pose proof (M (Data j) Hj) as E. cbn in E. change (bmap s1 ?d j) with (bmap (taken b s) d j). cbn. rewrite E.
    destruct (Z.eqb_spec j i) as [->|Hne]; [by rewrite decide_True|rewrite decide_False; congruence].
Qed.

(** A root of the block map is stored in the inode when it is new. *)
Lemma root_run {B} v f e a x s (k : unit -> M sfs_fs B) : nodes s !! a = Some x -> (v <> 0 -> e = v) -> (e = v -> f e (din x) = din x) ->
  exists x', saved x (f e (din x)) x' /\
    bind (if negb (e =? v) then assert (v =? 0) ;; set_node (upd_din (f e)) a ;; set_node (set_dirty true) a else ret tt) k s = k tt (at_node a x' s).
Proof.
  intros Hx Hv Hf. destruct (Z.eqb_spec e v) as [->|Hne]; cbn [negb].
  - exists x. split; [left; by rewrite Hf|]. rewrite bind_ret. by rewrite at_node_id.
  - exists (set_dirty true (upd_din (f e) x)). split; [by right|]. destruct (Z.eqb_spec v 0) as [->|]; [|naive_solver].
    apply bind_step. change (assert true) with (@ret sfs_fs unit tt). rewrite bind_ret. rewrite (bind_step _ _ _ _ _ (set_node_run _ a x s Hx)).
    rewrite (set_node_run _ a _ _ (lookup_at_node a _ s)). by rewrite at_node_twice.
Qed.

Lemma make_ind s a x j : fs_ok s -> nodes s !! a = Some x -> tree_ok s (din x) -> 0 <= j < SFS_BLK_NENTRY -> bmap s (din x) (SFS_NDIRECT + j) = 0 ->
  make_post s a x (SFS_NDIRECT + j) (sfs_bmap_get_nolock a (SFS_NDIRECT + j) true s).
Proof.
  intros F Hx T Hj H0. unfold sfs_bmap_get_nolock. rewrite (bind_step _ _ _ _ _ (get_node_run a x s Hx)), (proj2 (Z.ltb_ge _ _)) by lia.
  replace (SFS_NDIRECT + j - SFS_NDIRECT) with j by lia. rewrite (proj2 (Z.ltb_lt j _)) by lia.
  change (bmap s (din x) (SFS_NDIRECT + j)) with (place s (din x) (child Ind j)) in H0. rewrite (child_place s (din x) Ind j) in H0 by done.
  destruct (sub_make s (din x) Ind j F T I I Hj H0 ltac:(done)) as (r & e & b & s1 & Hr & En & G & He & Hp). cbn [place set_root] in *.
  rewrite (bind_step _ _ _ _ _ Hr). destruct Hp as [(-> & He0 & Hb & P)|(-> & -> & P)]; cbn [negb Z.eqb].
  - destruct (root_run (indirect (din x)) set_indirect e a x s1 (fun _ => bmap_out b)) as (x' & Sx & ->); [by rewrite En|done|intros ->; by destruct (din x)|].
    assert (G' : grow s (din x) (at_node a x' s1) (set_indirect e (din x))) by (by apply grow_to_node).
    pose proof (P (child Ind j) (child_valid Ind j I I Hj)) as Eb. rewrite decide_True in Eb by done.
    rewrite bmap_out_run; [|apply G'|right; rewrite <- Eb; apply G; [by apply child_valid|congruence]].
    exists 0, b, (at_node a x' s1), x'. rewrite (saved_din _ _ _ Sx). split; [done|]. split; [cbn; by rewrite En|]. split; [done|]. split; [done|].
    left. split; [done|]. split; [done|]. intros i Hi. change (bmap (at_node a x' s1) ?d i) with (place s1 d (Data i)). rewrite (P (Data i) Hi).
    destruct (Z.eqb_spec i (SFS_NDIRECT + j)) as [->|Hne]; [by rewrite decide_True|]. rewrite decide_False by (cbn; congruence). by rewrite decide_False.
  - apply make_failed; try done. by destruct (din x).
Qed.

(** The index block below the double-index block. *)
Lemma make_inner s a x k : fs_ok s -> nodes s !! a = Some x -> tree_ok s (din x) -> 0 <= k < SFS_BLK_NENTRY ->
  exists r e b s1, sfs_bmap_get_sub_nolock (db_indirect (din x)) k true s = Ret ((r, e, b), s1) /\ nodes s1 = nodes s /\
    grow s (din x) s1 (set_db_indirect e (din x)) /\ (db_indirect (din x) <> 0 -> e = db_indirect (din x)) /\
    (forall i, 0 <= i < MAX_BLOCKS -> place s1 (set_db_indirect e (din x)) (Data i) = place s (din x) (Data i)) /\
    ((r = 0 /\ b <> 0 /\ place s1 (set_db_indirect e (din x)) (Inner k) = b) \/ (r = - E_NO_MEM /\ e = db_indirect (din x) /\ forall p, valid p -> place s1 (din x) p = place s (din x) p)).
Proof.
  intros F Hx T Hk. assert (Hid : set_db_indirect (db_indirect (din x)) (din x) = din x) by (by destruct (din x)).
  destruct (decide (place s (din x) (Inner k) = 0)) as [E|E].
  - destruct (sub_make s (din x) Dbl k F T I I Hk) as (r & e & b & s1 & Hr & En & G & He & Hp); [done|done|]. cbn [set_root] in *. change (place s (din x) Dbl) with (db_indirect (din x)) in *.
    exists r, e, b, s1. split; [done|]. split; [done|]. split; [done|]. split; [done|]. destruct Hp as [(-> & He0 & Hb & P)|(-> & -> & P)].
    + split; [|left; split; [done|split; [done|]]].
      * intros i Hi. rewrite (P (Data i) Hi). by rewrite !decide_False.
      * rewrite (P (Inner k) Hk). by rewrite decide_True.
    + rewrite Hid. split; [intros i Hi; by apply (P (Data i))|]. by right.
  - assert (Hd : used s (db_indirect (din x))).
    { apply (t_used _ _ T Dbl); [done|]. cbn in *. unfold ent0 in E. by destruct (Z.eqb_spec (db_indirect (din x)) 0). }
    exists 0, (db_indirect (din x)), (place s (din x) (Inner k)), s. rewrite Hid. split; [by apply sub_there|].
    split; [done|]. split; [by apply grow_refl|]. split; [done|]. split; [done|]. by left.
Qed.

Lemma make_dbl s a x k j : fs_ok s -> nodes s !! a = Some x -> tree_ok s (din x) -> 0 <= k < SFS_BLK_NENTRY -> 0 <= j < SFS_BLK_NENTRY ->
  let i := SFS_NDIRECT + SFS_BLK_NENTRY + SFS_BLK_NENTRY * k + j in bmap s (din x) i = 0 -> make_post s a x i (sfs_bmap_get_nolock a i true s).
Proof.
  intros F Hx T Hk Hj i H0. assert (Hvi : 0 <= i < MAX_BLOCKS) by (apply (child_valid (Inner k) j); done).
  unfold sfs_bmap_get_nolock. rewrite (bind_step _ _ _ _ _ (get_node_run a x s Hx)). unfold i in *.
  rewrite (proj2 (Z.ltb_ge _ _)) by (rewrite nentry in *; lia). cbv zeta. rewrite (proj2 (Z.ltb_ge _ _)) by (rewrite nentry in *; lia).
  replace (SFS_NDIRECT + SFS_BLK_NENTRY + SFS_BLK_NENTRY * k + j - SFS_NDIRECT - SFS_BLK_NENTRY) with (j + k * SFS_BLK_NENTRY) by lia.
  rewrite Z.div_add, Z.mod_add, Z.div_small, Z.mod_small, Z.add_0_l by (rewrite nentry in *; lia).
  destruct (make_inner s a x k F Hx T Hk) as (r & e & b & s1 & Hr & En & G & He & Hd & Hp). rewrite (bind_step _ _ _ _ _ Hr).
  destruct Hp as [(-> & Hb & Eb)|(-> & -> & P)]; cbn [negb Z.eqb]; [|apply make_failed; try done; by destruct (din x)].
  match goal with |- make_post _ _ _ _ (bind _ ?k s1) => destruct (root_run (db_indirect (din x)) set_db_indirect e a x s1 k) as (x1 & Sx & ->) end;
    [by rewrite En|done|intros ->; by destruct (din x)|].
  rewrite (proj2 (Z.eqb_neq b 0)) by done. cbn [negb]. set (d1 := set_db_indirect e (din x)) in *. set (s2 := at_node a x1 s1).
  assert (G1 : grow s (din x) s2 d1) by (by apply grow_to_node).
  assert (E0 : ent0 s2 (place s2 d1 (Inner k)) j = 0).
  { rewrite <- (child_place s2 d1 (Inner k)) by done. change (place s2 d1 ?p) with (place s1 d1 p). cbn [child]. by rewrite (Hd _ Hvi). }
  destruct (sub_make s2 d1 (Inner k) j) as (r2 & e2 & b2 & s3 & Hr2 & En2 & G2 & He2 & Hp2); try done; [apply G1|apply G1|intros k' _; by rewrite <- Eb in Hb|].
  change (place s2 d1 (Inner k)) with (place s1 d1 (Inner k)) in *. rewrite Eb in *. rewrite (bind_step _ _ _ _ _ Hr2). cbn [set_root] in *.
  assert (G' : grow s (din x) s3 d1) by (by eapply grow_trans).
  assert (En3 : nodes s3 = <[a := x1]> (nodes s)) by (rewrite En2; cbn; by rewrite En).
  destruct Hp2 as [(-> & He3 & Hb2 & P)|(-> & -> & P)]; cbn [negb Z.eqb].
  - pose proof (P (child (Inner k) j) (child_valid (Inner k) j I Hk Hj)) as Eb2. rewrite decide_True in Eb2 by done.
    rewrite bmap_out_run; [|apply G'|right; rewrite <- Eb2; apply G'; [by apply child_valid|congruence]].
    exists 0, b2, s3, x1. rewrite (saved_din _ _ _ Sx). split; [done|]. split; [done|]. split; [done|]. split; [done|].
    left. split; [done|]. split; [done|]. intros i' Hi'. change (bmap s3 d1 i') with (place s3 d1 (Data i')). rewrite (P (Data i') Hi').
    destruct (Z.eqb_spec i' (SFS_NDIRECT + SFS_BLK_NENTRY + SFS_BLK_NENTRY * k + j)) as [->|Hne]; [by rewrite decide_True|].
    rewrite decide_False by (cbn; congruence). rewrite decide_False by done. by apply Hd.
  - exists (- E_NO_MEM), 0, s3, x1. rewrite (saved_din _ _ _ Sx). split; [done|]. split; [done|]. split; [done|]. split; [done|].
    right. split; [done|]. split; [done|]. intros i' Hi'. change (bmap s3 d1 i') with (place s3 d1 (Data i')). rewrite (P (Data i') Hi'). by apply Hd.
Qed.

Lemma get_make s a x i : fs_ok s -> nodes s !! a = Some x -> tree_ok s (din x) -> 0 <= i < MAX_BLOCKS -> bmap s (din x) i = 0 ->
  make_post s a x i (sfs_bmap_get_nolock a i true s).
Proof.
  intros F Hx T Hi H0. destruct (bmap_parent s (din x) i Hi) as [[H1 _]|[(j & Hj & -> & _)|(k & j & Hk & Hj & -> & _)]].
  - apply make_direct; (done || lia).
  - by apply make_ind.
  - by apply make_dbl.
Qed.
End SfsMake.
