(* ===== verification/SfsFile.v ===== *)
(** * The simple file system: the bytes of a file

    [fbyte] reads a file at a position.  The relation [fstep] says what writing to a file
    and growing it keep: the invariant of the file, the blocks it has, and every block of
    another owner. *)

From S2P Require Import Prelude Bitmap CString SfsDisk Sfs SfsInv SfsBmap SfsMake.
Import SfsDisk Sfs SfsInv SfsBmap SfsGet SfsGrow SfsMake.
Open Scope Z_scope.

Module SfsFile.

Definition fbyte (s : sfs_fs) (d : sfs_disk_inode) (p : Z) : Z :=
  default 0 (blk s (bmap s d (p / SFS_BLKSIZE)) !! Z.to_nat (p mod SFS_BLKSIZE)).

Record fstep (s : sfs_fs) (d : sfs_disk_inode) (s' : sfs_fs) (d' : sfs_disk_inode) : Prop := {
  w_fs : fs_ok s';
  w_file : file_ok s' d';
  w_more : blocks d <= blocks d';
  w_used : forall c, used s' c <-> used s c \/ owned s' d' c;
  w_owned : forall c, owned s d c -> owned s' d' c;
  w_new : forall c, owned s' d' c -> owned s d c \/ free s c;
  w_frame : forall c, used s c -> ~ owned s d c -> blk s' c = blk s c;
  w_rest : rest s' = rest s;
  w_facts : facts d' = facts d
}.

Lemma fstep_refl s d : fs_ok s -> file_ok s d -> fstep s d s d.
Proof.
  intros F K. split; try done; [|by left]. intros c. split; [by left|]. intros [?|Hc]; [done|]. eapply owned_used; [apply K|done].
Qed.

Lemma unused_free s s' c : fs_ok s -> fs_ok s' -> rest s' = rest s -> (forall b, used s b -> used s' b) -> free s' c -> free s c.
Proof.
  intros F F' Hr Hu Hc. pose proof (fo_free _ F' c Hc) as Hb. rewrite (rest_blocks _ _ Hr) in Hb. apply free_unused; [done|done|].
  intros Hx. eapply used_free; [apply Hu, Hx|done].
Qed.

Lemma fstep_trans s d s1 d1 s2 d2 : fs_ok s -> file_ok s d -> fstep s d s1 d1 -> fstep s1 d1 s2 d2 -> fstep s d s2 d2.
Proof.
  intros F K A B. split; try apply B.
  - pose proof (w_more _ _ _ _ A). pose proof (w_more _ _ _ _ B). lia.
  - intros c. rewrite (w_used _ _ _ _ B), (w_used _ _ _ _ A). split; [intros [[?|H]|?]; auto; right; by apply B|intros [?|?]; auto].
  - intros c Hc. by apply B, A.
  - intros c Hc. destruct (w_new _ _ _ _ B c Hc) as [H|H]; [by apply A|]. right. eapply unused_free; [done|apply A|apply A| |done].
    intros b Hb. apply A. by left.
  - intros c Hc Hn. rewrite (w_frame _ _ _ _ B); [by apply A| |]; [apply A; by left|]. intros Ho. destruct (w_new _ _ _ _ A c Ho) as [?|Hf]; [done|]. by eapply used_free.
  - rewrite (w_rest _ _ _ _ B). apply A.
  - rewrite (w_facts _ _ _ _ B). apply A.
Qed.

(** What holds of every change to one file: blocks of other owners stay as they are. *)
Record local (s : sfs_fs) (d : sfs_disk_inode) (s' : sfs_fs) (d' : sfs_disk_inode) : Prop := {
  l_blk : forall c, used s c -> ~ owned s d c -> used s' c /\ blk s' c = blk s c;
  l_new : forall c, owned s' d' c -> owned s d c \/ free s c
}.

Lemma fstep_local s d s' d' : fstep s d s' d' -> local s d s' d'.
Proof. intros St. split; [|apply St]. intros c Hc Ho. split; [apply St; by left|by apply St]. Qed.

Lemma used_blk s b : fs_ok s -> used s b -> is_block (blk s b).
Proof. intros F [Hb _]. apply (blk_ok s b F). lia. Qed.

(** ** The block map through [sfs_bmap_load_nolock] *)

Lemma data_used s d i : file_ok s d -> 0 <= i < blocks d -> used s (bmap s d i).
Proof.
  intros K Hi. pose proof (k_blocks _ _ K). apply (t_used _ _ (k_tree _ _ K) (Data i)); [cbn; lia|]. apply (k_map _ _ K); lia.
Qed.

Lemma load_there s a x i : fs_ok s -> nodes s !! a = Some x -> file_ok s (din x) -> 0 <= i < blocks (din x) ->
  sfs_bmap_load_nolock a i s = Ret ((0, bmap s (din x) i), s).
Proof.
  intros F Hx K Hi. pose proof (k_blocks _ _ K). unfold sfs_bmap_load_nolock. rewrite (bind_step _ _ _ _ _ (get_node_run a x s Hx)).
  rewrite assert_true by (apply Z.leb_le; lia). cbv zeta. rewrite (proj2 (Z.eqb_neq i _)) by lia.
  rewrite (bind_step _ _ _ _ _ (get_run s a x i F Hx (k_tree _ _ K) ltac:(lia))). cbn [negb Z.eqb].
  rewrite (bind_step _ _ _ _ _ (assert_inuse_run s _ F (data_used s _ i K Hi))). done.
Qed.

(** The inode in memory keeps its counts and its number, and stays dirty. *)
Definition same_node (x x' : inode) : Prop :=
  ref_count x' = ref_count x /\ open_count x' = open_count x /\ ino x' = ino x /\ removed x' = removed x /\
  reclaim_count x' = reclaim_count x /\ (dirty x = true -> dirty x' = true).

Lemma same_node_refl x : same_node x x.
Proof. by split_and!. Qed.

Lemma same_node_trans x y z : same_node x y -> same_node y z -> same_node x z.
Proof. intros (? & ? & ? & ? & ? & ?) (? & ? & ? & ? & ? & ?). split_and!; try congruence. auto. Qed.

Lemma saved_same x d x' : saved x d x' -> same_node x x'.
Proof. intros [[-> _]| ->]; by split_and!. Qed.

Lemma same_node_din x f : same_node x (upd_din f x).
Proof. by split_and!. Qed.

Lemma place_blocks s n d r : place s (set_blocks n d) r = place s d r.
Proof. by destruct r. Qed.

Lemma tree_blocks s n d : tree_ok s d -> tree_ok s (set_blocks n d).
Proof. intros []. split; [done|..]; intros *; rewrite !place_blocks; auto. Qed.

Lemma owned_blocks s n d c : owned s (set_blocks n d) c <-> owned s d c.
Proof. split; intros (r & ? & E & ?); exists r; rewrite place_blocks in *; done. Qed.

Lemma grow_fstep s d s' d' n : fs_ok s -> file_ok s d -> grow s d s' d' -> blocks d <= n -> file_ok s' (set_blocks n d') -> fstep s d s' (set_blocks n d').
Proof.
  intros F K G Hn K'. split; try done; try apply G.
  - intros c Hc. rewrite owned_blocks. by eapply grow_owned.
  - intros c Hc. rewrite owned_blocks in Hc. destruct Hc as (r & Hr & E & Hc). destruct (decide (place s d r = 0)) as [E0|E0].
    + right. rewrite <- E. apply G; [done|done|congruence].
    + left. exists r. split; [done|]. rewrite <- E. split; [symmetry; by apply G|congruence].
  - intros c Hc Ho. apply G; [done|]. intros (q & Hq & Hv & E). apply Ho. exists q. split; [done|]. split; [done|]. by apply (used_pos s).
Qed.

(** The map after a block was made, or not. *)
Lemma made_file s d s' d' i r b : file_ok s d -> blocks d < MAX_BLOCKS -> i = blocks d -> tree_ok s' d' -> blocks d' = blocks d -> one_more s d s' d' i r b ->
  file_ok s' (set_blocks (if r =? 0 then blocks d + 1 else blocks d) d').
Proof.
  intros K Hm -> T Eb Ho. pose proof (k_blocks _ _ K). split; [by apply tree_blocks| |cbn; destruct (r =? 0); lia].
  intros j Hj. change (bmap s' (set_blocks ?n d') j) with (bmap s' d' j). cbn. destruct Ho as [(-> & Hb & P)|(-> & -> & P)]; rewrite (P j Hj); cbn.
  - destruct (Z.eqb_spec j (blocks d)) as [->|Hne]; [split; [lia|done]|]. rewrite (k_map _ _ K j Hj). lia.
  - apply (k_map _ _ K j Hj).
Qed.

Lemma set_blocks_id d n : blocks d = n -> set_blocks n d = d.
Proof. intros <-. by destruct d. Qed.

Lemma fbyte_grow s d s' d' p : file_ok s d -> grow s d s' d' -> 0 <= p < blocks d * SFS_BLKSIZE -> fbyte s' d' p = fbyte s d p.
Proof.
  intros K G Hp. assert (Hi : 0 <= p / SFS_BLKSIZE < blocks d).
  { unfold SFS_BLKSIZE in *. split; [apply Z.div_pos; lia|apply Z.div_lt_upper_bound; lia]. }
  pose proof (k_blocks _ _ K). assert (Hn : bmap s d (p / SFS_BLKSIZE) <> 0) by (apply (k_map _ _ K); lia).
  unfold fbyte. pose proof (g_keep _ _ _ _ G (Data (p / SFS_BLKSIZE)) ltac:(cbn; lia) Hn) as E. cbn in E. rewrite E.
  rewrite (g_blk _ _ _ _ G); [done|by apply (data_used s d)|]. apply data_indexing; [apply K|lia|done].
Qed.

(** ** Writing at a position *)

(** The byte at [p] when [l] is laid over a file from [pos] on. *)
Definition over (l : list Z) (pos p old : Z) : Z := if pos <=? p then default old (l !! Z.to_nat (p - pos)) else old.

Lemma over_app l1 l2 pos p old : over (l1 ++ l2) pos p old = over l2 (pos + Z.of_nat (length l1)) p (over l1 pos p old).
Proof.
  unfold over. destruct (Z.leb_spec pos p) as [H|H]; destruct (Z.leb_spec (pos + Z.of_nat (length l1)) p) as [H'|H']; [| |lia|done].
  - rewrite lookup_app_r by lia. replace (Z.to_nat (p - pos) - length l1)%nat with (Z.to_nat (p - (pos + Z.of_nat (length l1)))) by lia.
    rewrite (lookup_ge_None_2 l1) by lia. done.
  - rewrite lookup_app_l by lia. done.
Qed.

Lemma over_out l pos p old : p < pos \/ pos + Z.of_nat (length l) <= p -> over l pos p old = old.
Proof. intros H. unfold over. destruct (Z.leb_spec pos p); [|done]. by rewrite lookup_ge_None_2 by lia. Qed.

Lemma over_in l pos p old : pos <= p < pos + Z.of_nat (length l) -> l !! Z.to_nat (p - pos) = Some (over l pos p old).
Proof.
  intros H. unfold over. rewrite (proj2 (Z.leb_le pos p)) by lia. destruct (lookup_lt_is_Some_2 l (Z.to_nat (p - pos))) as [v Hv]; [lia|]. by rewrite Hv.
Qed.

(** A file before the write, with zeros beyond its blocks. *)
Definition before (s : sfs_fs) (d : sfs_disk_inode) (p : Z) : Z := if p <? blocks d * SFS_BLKSIZE then fbyte s d p else 0.

Record wrote (s : sfs_fs) (d : sfs_disk_inode) (s' : sfs_fs) (d' : sfs_disk_inode) (pos : Z) (l : list Z) : Prop := {
  o_step : fstep s d s' d';
  o_bytes : forall p, 0 <= p < blocks d' * SFS_BLKSIZE -> fbyte s' d' p = over l pos p (before s d p);
  o_fits : l = [] \/ pos + Z.of_nat (length l) <= blocks d' * SFS_BLKSIZE;
  o_info0 : info0 d' = info0 d
}.

Lemma wrote_nil s d pos : fs_ok s -> file_ok s d -> wrote s d s d pos [].
Proof.
  intros F K. split; [by apply fstep_refl| |by left|done]. intros p Hp. rewrite over_out by (cbn; lia). unfold before. by rewrite (proj2 (Z.ltb_lt p _)) by lia.
Qed.

Lemma wrote_app s d s1 d1 s2 d2 pos l1 l2 : fs_ok s -> file_ok s d -> wrote s d s1 d1 pos l1 -> wrote s1 d1 s2 d2 (pos + Z.of_nat (length l1)) l2 -> wrote s d s2 d2 pos (l1 ++ l2).
Proof.
  intros F K A B. pose proof (w_more _ _ _ _ (o_step _ _ _ _ _ _ A)) as M1. pose proof (w_more _ _ _ _ (o_step _ _ _ _ _ _ B)) as M2. unfold SFS_BLKSIZE in *. split.
  - eapply fstep_trans; [done|done|apply A|apply B].
  - intros p Hp. rewrite (o_bytes _ _ _ _ _ _ B p Hp), over_app. f_equal. unfold before at 1. destruct (Z.ltb_spec p (blocks d1 * SFS_BLKSIZE)) as [H|H].
    + apply A. lia.
    + assert (before s d p = 0) as E by (unfold before; rewrite (proj2 (Z.ltb_ge p _)) by (unfold SFS_BLKSIZE in *; lia); done). rewrite E. symmetry. destruct (o_fits _ _ _ _ _ _ A) as [->|Hf]; [unfold over; by destruct (pos <=? p)|].
      apply over_out. unfold SFS_BLKSIZE in *. lia.
  - rewrite length_app. destruct (o_fits _ _ _ _ _ _ A) as [->|Hf], (o_fits _ _ _ _ _ _ B) as [->|Hf']; unfold SFS_BLKSIZE in *; cbn [length app] in *; [by left|right; lia|right; lia|right; lia].
  - rewrite (o_info0 _ _ _ _ _ _ B). apply A.
Qed.

(** A block of the file in full or in part. *)
Lemma written_file s d i l : fs_ok s -> file_ok s d -> 0 <= i < blocks d -> is_block l ->
  fstep s d (written (bmap s d i) l s) d /\ forall j, 0 <= j < blocks d -> bmap (written (bmap s d i) l s) d j = bmap s d j.
Proof.
  intros F K Hi Hl. pose proof (k_blocks _ _ K) as Hb. set (b := bmap s d i). set (s' := written b l s).
  assert (Hu : used s b) by (by apply data_used). assert (Hbn : b <> 0) by (by apply (used_pos s)).
  assert (Hp : forall r, valid r -> place s' d r = place s d r).
  { intros r Hr. apply place_same; [|done]. intros q Hq Hv Hn. unfold s'. rewrite blk_written. destruct (Z.eqb_spec (place s d q) b) as [E|]; [|done].
    exfalso. apply (data_indexing s d i (k_tree _ _ K)); [lia|done|]. by exists q. }
  assert (Ho : forall c, owned s' d c <-> owned s d c).
  { intros c. split; intros (r & Hr & E & Hc); exists r; rewrite (Hp r Hr) in *; done. }
  split; [|intros j Hj; apply (Hp (Data j)); cbn; lia]. split; try done.
  - by apply written_ok.
  - split; [|intros j Hj; change (bmap s' d j) with (place s' d (Data j)); rewrite (Hp (Data j) Hj); apply (k_map _ _ K j Hj)|done].
    destruct (k_tree _ _ K) as [A B C]. split; [done|intros r Hr; rewrite (Hp r Hr); by apply B|intros r r' Hr Hr'; rewrite (Hp r Hr), (Hp r' Hr'); by apply C].
  - intros c. rewrite Ho. split; [by left|]. intros [?|Hc]; [done|]. eapply (owned_used s d); [apply K|done].
  - intros c Hc. by apply Ho.
  - intros c Hc. left. by apply Ho.
  - intros c Hc Hn. unfold s'. rewrite blk_written. destruct (Z.eqb_spec c b) as [->|]; [|done]. exfalso. apply Hn. exists (Data i). by split; [cbn; lia|].
Qed.

Lemma wrote_block s d i o l : fs_ok s -> file_ok s d -> 0 <= i < blocks d -> 0 <= o -> o + Z.of_nat (length l) <= SFS_BLKSIZE -> Forall is_byte l ->
  wrote s d (written (bmap s d i) (splice (blk s (bmap s d i)) o l) s) d (i * SFS_BLKSIZE + o) l.
Proof.
  intros F K Hi Ho Hl Hbl. set (b := bmap s d i) in *. assert (Hb : is_block (blk s b)) by (apply used_blk; [done|by apply data_used]).
  destruct (written_file s d i (splice (blk s b) o l) F K Hi) as [St Hm]; [by apply splice_block|]. fold b in St, Hm. split; [done| |right; unfold SFS_BLKSIZE in *; lia|done].
  intros p Hp. pose proof (Z.div_mod p SFS_BLKSIZE) as Dp. pose proof (Z.mod_pos_bound p SFS_BLKSIZE) as Mp. set (k := p / SFS_BLKSIZE) in *. set (m := p mod SFS_BLKSIZE) in *.
  assert (Hk : 0 <= k < blocks d) by (unfold SFS_BLKSIZE in *; lia). pose proof (block_len _ Hb) as Lb.
  unfold before. rewrite (proj2 (Z.ltb_lt p _)) by lia. unfold fbyte at 1. fold k m. rewrite (Hm k Hk), blk_written. destruct (Z.eqb_spec (bmap s d k) b) as [E|E].
  - assert (k = i) as Ek. { pose proof (k_blocks _ _ K). assert (Data k = Data i) as [= ->]; [|done]. apply (t_inj _ _ (k_tree _ _ K)); [cbn; lia|cbn; lia|done|]. cbn. apply (used_pos s). by apply data_used. }
    rewrite lookup_splice by (unfold SFS_BLKSIZE in *; lia). case_bool_decide as Hw.
    + replace (m - o) with (p - (i * SFS_BLKSIZE + o)) by (unfold SFS_BLKSIZE in *; lia). rewrite (over_in l _ p (fbyte s d p)); [done|]. unfold SFS_BLKSIZE in *. lia.
    + rewrite over_out by (unfold SFS_BLKSIZE in *; lia). unfold fbyte. fold k m. by rewrite E.
  - rewrite over_out; [done|]. assert (k <> i) by (intros ->; done). unfold SFS_BLKSIZE in *. lia.
Qed.
End SfsFile.
