(* ===== verification/SfsWrite.v ===== *)
(** * The simple file system: reading and writing

    [SfsWrite] is about the parts of a transfer that writes, [SfsRead] about reading. *)

From S2P Require Import Prelude Bitmap CString SfsDisk Sfs SfsInv SfsBmap SfsMake SfsFile.
Import SfsDisk Sfs SfsInv SfsBmap SfsGet SfsGrow SfsMake SfsFile.
Open Scope Z_scope.

Module SfsWrite.

(** ** Part of a write *)

(** The bytes [l] were written at [pos]; the inode is dirty if it changed, unless the
    bytes go beyond the blocks the file had. *)
Record piece (s : sfs_fs) (a : Z) (x : inode) (s' : sfs_fs) (x' : inode) (pos : Z) (l : list Z) : Prop := {
  p_nodes : nodes s' = <[a := x']> (nodes s);
  p_same : same_node x x';
  p_wrote : wrote s (din x) s' (din x') pos l;
  p_dirty : din x' = din x \/ dirty x' = true \/ blocks (din x) * SFS_BLKSIZE < pos + Z.of_nat (length l);
  p_exact : blocks (din x') = blocks (din x) \/ blocks (din x') * SFS_BLKSIZE < pos + Z.of_nat (length l) + SFS_BLKSIZE
}.

Lemma piece_fs s a x s' x' pos l : piece s a x s' x' pos l -> fs_ok s'.
Proof. intros P. apply (p_wrote _ _ _ _ _ _ _ P). Qed.

Lemma piece_file s a x s' x' pos l : piece s a x s' x' pos l -> file_ok s' (din x').
Proof. intros P. apply (p_wrote _ _ _ _ _ _ _ P). Qed.

Lemma piece_node s a x s' x' pos l : piece s a x s' x' pos l -> nodes s' !! a = Some x'.
Proof. intros P. rewrite (p_nodes _ _ _ _ _ _ _ P). apply lookup_insert_eq. Qed.

Lemma piece_more s a x s' x' pos l : piece s a x s' x' pos l -> blocks (din x) <= blocks (din x').
Proof. intros P. apply (p_wrote _ _ _ _ _ _ _ P). Qed.

Lemma piece_nil s a x pos : fs_ok s -> nodes s !! a = Some x -> file_ok s (din x) -> piece s a x s x pos [].
Proof. intros F Hx K. split; [by rewrite insert_id|apply same_node_refl|by apply wrote_nil|by left|by left]. Qed.

Lemma piece_app s a x s1 x1 s2 x2 pos l1 l2 : fs_ok s -> file_ok s (din x) ->
  piece s a x s1 x1 pos l1 -> piece s1 a x1 s2 x2 (pos + Z.of_nat (length l1)) l2 -> piece s a x s2 x2 pos (l1 ++ l2).
Proof.
  intros F K A B. pose proof (piece_more _ _ _ _ _ _ _ A) as Hm. split.
  - rewrite (p_nodes _ _ _ _ _ _ _ B), (p_nodes _ _ _ _ _ _ _ A). apply insert_insert_eq.
  - eapply same_node_trans; [apply A|apply B].
  - eapply wrote_app; [done|done|apply A|apply B].
  - rewrite length_app. destruct (p_dirty _ _ _ _ _ _ _ B) as [E|[?|?]]; [|by right; left|right; right; unfold SFS_BLKSIZE in *; lia].
    destruct (p_dirty _ _ _ _ _ _ _ A) as [E'|[Hd|?]]; [left; congruence| |right; right; lia]. right. left. by apply (p_same _ _ _ _ _ _ _ B).
  - rewrite length_app. destruct (p_exact _ _ _ _ _ _ _ B) as [E2|?], (p_exact _ _ _ _ _ _ _ A) as [E1|?]; [left; congruence|right; rewrite ?E2; lia..].
Qed.

(** The block of an index: there, made, or not to be had. *)
Lemma load_make s a x : fs_ok s -> nodes s !! a = Some x -> file_ok s (din x) -> blocks (din x) < MAX_BLOCKS ->
  exists r b s' x', sfs_bmap_load_nolock a (blocks (din x)) s = Ret ((r, b), s') /\ nodes s' = <[a := x']> (nodes s) /\ same_node x x' /\
    (forall pos, wrote s (din x) s' (din x') pos []) /\
    ((r = 0 /\ b = bmap s' (din x') (blocks (din x)) /\ blocks (din x') = blocks (din x) + 1) \/ (r = - E_NO_MEM /\ b = 0 /\ blocks (din x') = blocks (din x) /\ (din x' = din x \/ dirty x' = true))).
Proof.
  intros F Hx K Hm. pose proof (k_blocks _ _ K) as Hb. set (i := blocks (din x)) in *.
  assert (H0 : bmap s (din x) i = 0). { destruct (decide (bmap s (din x) i = 0)) as [|E]; [done|]. apply (k_map _ _ K) in E; [|lia]. unfold i in E. lia. }
  destruct (get_make s a x i F Hx (k_tree _ _ K)) as (r & b & s1 & x1 & Hr & En & Sx & G & Ho); [lia|done|].
  assert (Hx1 : nodes s1 !! a = Some x1) by (rewrite En; apply lookup_insert_eq). pose proof (g_blocks _ _ _ _ G) as Eb. fold i in Eb.
  pose proof (made_file s (din x) s1 (din x1) i r b K Hm eq_refl (g_tree _ _ _ _ G) Eb Ho) as K1. fold i in K1.
  unfold sfs_bmap_load_nolock. rewrite (bind_step _ _ _ _ _ (get_node_run a x s Hx)). rewrite assert_true by (apply Z.leb_le; lia). cbv zeta. fold i. rewrite Z.eqb_refl.
  rewrite (bind_step _ _ _ _ _ Hr). destruct Ho as [(-> & Hbn & P)|(-> & -> & P)].
  - cbn [negb Z.eqb] in *. set (d2 := set_blocks (i + 1) (din x1)) in *. assert (Ebi : bmap s1 (din x1) i = b) by (rewrite (P i), Z.eqb_refl; [done|lia]).
    assert (Hu : used s1 b) by (rewrite <- Ebi; apply (t_used _ _ (g_tree _ _ _ _ G) (Data i)); [cbn; lia|cbn; by rewrite Ebi]).
    rewrite (bind_step _ _ _ _ _ (assert_inuse_run s1 b (g_fs _ _ _ _ G) Hu)). rewrite (bind_step _ _ _ _ _ (set_node_run _ a x1 s1 Hx1)).
    set (x2 := upd_din _ x1). assert (Ex2 : din x2 = d2).
    { cbn. unfold d2. rewrite Eb, u32_small; [done|]. unfold is_u32. unfold MAX_BLOCKS, SFS_NDIRECT in Hm. rewrite nentry in Hm. lia. }
    exists 0, b, (at_node a x2 s1), x2. split; [done|]. split; [cbn; by rewrite En, insert_insert_eq|]. split; [eapply same_node_trans; [by eapply saved_same|apply same_node_din]|]. rewrite Ex2.
    assert (St : fstep s (din x) (at_node a x2 s1) d2).
    { apply (grow_fstep s (din x) (at_node a x2 s1) (din x1) (i + 1)); [done|done|by apply grow_to_node|unfold i; lia|]. destruct K1. split; [by apply tree_at_node|done|done]. }
    split; [|left; split_and!; [done|by rewrite <- Ebi|done]]. intros pos. split; [done| |by left|apply G].
    intros p Hp. rewrite over_out by (cbn; lia). change (fbyte (at_node a x2 s1) d2 p) with (fbyte s1 (din x1) p). unfold before. fold i. cbn in Hp. unfold SFS_BLKSIZE in Hp.
    destruct (Z.ltb_spec p (i * SFS_BLKSIZE)) as [Hlt|Hge]; [apply (fbyte_grow s); [done|done|unfold i in Hlt; lia]|]. unfold SFS_BLKSIZE in Hge.
    unfold fbyte. assert (p / SFS_BLKSIZE = i) as -> by (unfold SFS_BLKSIZE; symmetry; apply Z.div_unique with (p - i * 4096); lia).
    rewrite (g_zero _ _ _ _ G i) by (done || lia || congruence). unfold zeros. rewrite lookup_replicate_2; [done|]. pose proof (Z.mod_pos_bound p SFS_BLKSIZE). unfold SFS_BLKSIZE in *. lia.
  - change (negb (- E_NO_MEM =? 0)) with true. change (- E_NO_MEM =? 0) with false in K1. cbv iota in *. rewrite set_blocks_id in K1 by done.
    exists (- E_NO_MEM), 0, s1, x1. split; [done|]. split; [done|]. split; [by eapply saved_same|].
    pose proof (grow_fstep s (din x) s1 (din x1) i F K G) as St. rewrite set_blocks_id in St by done. specialize (St ltac:(lia) K1).
    split; [|right; split_and!; [done|done|done|destruct Sx as [[-> _]| ->]; [by left|by right]]].
    intros pos. split; [done| |by left|apply G]. intros p Hp. rewrite over_out by (cbn; lia). unfold before. fold i. rewrite Eb in Hp. rewrite (proj2 (Z.ltb_lt p _)) by lia.
    apply (fbyte_grow s); [done|done|]. fold i. lia.
Qed.

Lemma load_run s a x i pos : fs_ok s -> nodes s !! a = Some x -> file_ok s (din x) -> 0 <= i <= blocks (din x) -> i < MAX_BLOCKS ->
  exists r b s' x', sfs_bmap_load_nolock a i s = Ret ((r, b), s') /\ nodes s' = <[a := x']> (nodes s) /\ same_node x x' /\ wrote s (din x) s' (din x') pos [] /\
    ((r = 0 /\ b = bmap s' (din x') i /\ i < blocks (din x') /\ (din x' = din x \/ (i = blocks (din x) /\ blocks (din x') = i + 1))) \/ (r = - E_NO_MEM /\ blocks (din x') = blocks (din x) /\ (din x' = din x \/ dirty x' = true))).
Proof.
  intros F Hx K Hi Hm. destruct (decide (i = blocks (din x))) as [->|Hne].
  - destruct (load_make s a x F Hx K Hm) as (r & b & s' & x' & Hr & En & Sx & W & Hd). exists r, b, s', x'. split_and!; try done.
    destruct Hd as [(-> & -> & Hlt)|(-> & _ & Hd)]; [left; split_and!; auto; lia|by right].
  - exists 0, (bmap s (din x) i), s, x. split; [apply load_there; try done; lia|]. split; [by rewrite insert_id|]. split; [apply same_node_refl|]. split; [by apply wrote_nil|].
    left. split_and!; [done|done|lia|by left].
Qed.

(** The outcome of writing the first [n] bytes of [data] at [pos]: all of them, or those
    before the disk was full. *)
Definition wr_post (s : sfs_fs) (a : Z) (x : inode) (data : list Z) (pos : Z) (n : nat) (res : outcome ((Z * Z * list Z) * sfs_fs)) : Prop :=
  exists r k s' x', res = Ret ((r, Z.of_nat k, []), s') /\ piece s a x s' x' pos (take k data) /\
    ((r = 0 /\ k = n) \/ (r = - E_NO_MEM /\ (k < n)%nat)).

Lemma take_len {A} (l : list A) k : (k <= length l)%nat -> length (take k l) = k.
Proof. intros. rewrite length_take. lia. Qed.

(** A write after another one. *)
Lemma wr_join s a x s1 x1 data pos k n m2 : fs_ok s -> file_ok s (din x) -> (k <= length data)%nat ->
  piece s a x s1 x1 pos (take k data) -> wr_post s1 a x1 (drop k data) (pos + Z.of_nat k) n (m2 s1) ->
  wr_post s a x data pos (k + n) (bind m2 (fun '(r, alen, l) => ret (r, Z.of_nat k + alen, l)) s1).
Proof.
  intros F K Hk P (r & k' & s2 & x2 & Hr & P2 & Hd). rewrite (bind_step _ _ _ _ _ Hr). exists r, (k + k')%nat, s2, x2. split; [unfold ret; do 4 f_equal; lia|]. split; [|destruct Hd as [[-> ->]|[-> ?]]; [by left|right; split; [done|lia]]].
  rewrite <- take_take_drop. apply (piece_app s a x s1 x1 s2 x2); try done. by rewrite take_len.
Qed.

(** The block is there; the rest of the piece is one transfer. *)
Lemma block_piece s a x s1 x1 i o l : fs_ok s -> file_ok s (din x) -> nodes s1 = <[a := x1]> (nodes s) -> same_node x x1 ->
  wrote s (din x) s1 (din x1) (i * SFS_BLKSIZE + o) [] -> 0 <= i < blocks (din x1) -> din x1 = din x \/ (i = blocks (din x) /\ blocks (din x1) = i + 1) ->
  0 <= o -> 0 < Z.of_nat (length l) -> o + Z.of_nat (length l) <= SFS_BLKSIZE -> Forall is_byte l ->
  piece s a x (written (bmap s1 (din x1) i) (splice (blk s1 (bmap s1 (din x1) i)) o l) s1) x1 (i * SFS_BLKSIZE + o) l.
Proof.
  intros F K En Sx W Hi Hd Ho Hl Hol Hbl. split; [done|done| | |].
  - apply (wrote_app s (din x) s1 (din x1) _ _ _ [] l); try done. cbn [length Z.of_nat]. rewrite Z.add_0_r. apply wrote_block; try done; apply W.
  - destruct Hd as [?|[-> _]]; [by left|]. right. right. unfold SFS_BLKSIZE in *. lia.
  - destruct Hd as [->|[-> ->]]; [by left|]. right. unfold SFS_BLKSIZE in *. lia.
Qed.

Lemma head_write s a x data size i o : fs_ok s -> nodes s !! a = Some x -> file_ok s (din x) -> 0 <= i <= blocks (din x) -> i < MAX_BLOCKS ->
  0 <= o -> 0 < size -> o + size <= SFS_BLKSIZE -> size <= Z.of_nat (length data) -> Forall is_byte data ->
  wr_post s a x data (i * SFS_BLKSIZE + o) (Z.to_nat size) (io_head a true data size i o s).
Proof.
  intros F Hx K Hi Hm Ho Hs Hos Hd Hb. unfold io_head. destruct (load_run s a x i (i * SFS_BLKSIZE + o) F Hx K Hi Hm) as (r & b & s1 & x1 & Hr & En & Sx & W & Hp).
  rewrite (bind_step _ _ _ _ _ Hr). destruct Hp as [(-> & -> & Hlt & Hd1)|(-> & Hbk & Hd1)].
  - cbn [negb Z.eqb sfs_buf_op]. unfold bytes_at. change (Z.to_nat 0) with 0%nat. rewrite drop_0. set (l := take (Z.to_nat size) data).
    assert (Ll : Z.of_nat (length l) = size) by (unfold l; rewrite take_len; lia).
    assert (F1 : fs_ok s1) by apply W. assert (K1 : file_ok s1 (din x1)) by apply W. destruct (data_used s1 (din x1) i K1 ltac:(lia)) as [Hbr _].
    assert (Hlb : Forall is_byte l) by (by apply Forall_take).
    destruct (wbuf_run s1 l (bmap s1 (din x1) i) o F1 Hbr) as [Hw _]; [lia|lia|done|]. erewrite bind_step; [|rewrite (bind_step _ _ _ _ _ Hw); reflexivity].
    cbn [negb Z.eqb].
    eexists 0, (Z.to_nat size), _, x1. split; [unfold ret; rewrite Z2Nat.id by lia; reflexivity|]. split; [|by left].
    apply (block_piece s a x s1 x1); try done; fold l; lia.
  - change (negb (- E_NO_MEM =? 0)) with true. cbv iota. exists (- E_NO_MEM), 0%nat, s1, x1. split; [done|]. split; [|right; split; [done|lia]].
    split; [done|done|done| |by left]. destruct Hd1; auto.
Qed.

Lemma block_write s a x data i : fs_ok s -> nodes s !! a = Some x -> file_ok s (din x) -> 0 <= i <= blocks (din x) -> i < MAX_BLOCKS ->
  SFS_BLKSIZE <= Z.of_nat (length data) -> Forall is_byte data ->
  exists r b s1 x1, sfs_bmap_load_nolock a i s = Ret ((r, b), s1) /\
   ((r = 0 /\ exists s2, sfs_block_op true data b s1 = Ret ((0, []), s2) /\ piece s a x s2 x1 (i * SFS_BLKSIZE) (take (Z.to_nat SFS_BLKSIZE) data)) \/
    (r = - E_NO_MEM /\ piece s a x s1 x1 (i * SFS_BLKSIZE) [])).
Proof.
  intros F Hx K Hi Hm Hd Hb. destruct (load_run s a x i (i * SFS_BLKSIZE) F Hx K Hi Hm) as (r & b & s1 & x1 & Hr & En & Sx & W & Hp).
  exists r, b, s1, x1. split; [done|]. destruct Hp as [(-> & -> & Hlt & Hd1)|(-> & Hbk & Hd1)].
  - left. split; [done|]. unfold sfs_block_op, bytes_at. change (Z.to_nat 0) with 0%nat. rewrite drop_0. set (l := take (Z.to_nat SFS_BLKSIZE) data).
    assert (Ll : Z.of_nat (length l) = SFS_BLKSIZE) by (unfold l; rewrite take_len; unfold SFS_BLKSIZE in *; lia).
    assert (F1 : fs_ok s1) by apply W. assert (K1 : file_ok s1 (din x1)) by apply W. pose proof (data_used s1 (din x1) i K1 ltac:(lia)) as Hu. destruct Hu as [Hbr Hu].
    assert (Hbl : is_block (blk s1 (bmap s1 (din x1) i))) by (apply used_blk; [done|by split]).
    exists (written (bmap s1 (din x1) i) l s1). split.
    + unfold sfs_wblock. change (Z.to_nat 1) with 1%nat. cbn [wblock_loop]. unfold bytes_at at 1. change (Z.to_nat 0) with 0%nat. rewrite drop_0, (take_ge l) by lia.
      erewrite bind_step; [reflexivity|]. rewrite (bind_step _ _ _ _ _ (wblk_run s1 l _ F1 Hbr)). done.
    + replace l with (splice (blk s1 (bmap s1 (din x1) i)) 0 l) at 1; [replace (i * SFS_BLKSIZE) with (i * SFS_BLKSIZE + 0) by lia|].
      * apply (block_piece s a x s1 x1); try done; [by rewrite Z.add_0_r|lia|unfold SFS_BLKSIZE in *; lia|lia|by apply Forall_take].
      * unfold splice. cbn [take]. change (Z.to_nat 0) with 0%nat. cbn [take app]. pose proof (block_len _ Hbl). rewrite drop_ge by lia. by rewrite app_nil_r.
  - right. split; [done|]. split; [done|done|done| |by left]. destruct Hd1; auto.
Qed.

Lemma loop_write n : forall s a x data i, fs_ok s -> nodes s !! a = Some x -> file_ok s (din x) -> 0 <= i <= blocks (din x) -> i + Z.of_nat n <= MAX_BLOCKS ->
  SFS_BLKSIZE * Z.of_nat n <= Z.of_nat (length data) -> Forall is_byte data ->
  wr_post s a x data (i * SFS_BLKSIZE) (Z.to_nat SFS_BLKSIZE * n) (io_loop n a true data i s).
Proof.
  induction n as [|n IH]; intros s a x data i F Hx K Hi Hm Hd Hb; cbn [io_loop].
  - exists 0, 0%nat, s, x. split; [done|]. split; [by apply piece_nil|]. left. split; [done|lia].
  - destruct (block_write s a x data i F Hx K Hi) as (r & b & s1 & x1 & Hr & Hp); [lia|unfold SFS_BLKSIZE in *; lia|done|]. rewrite (bind_step _ _ _ _ _ Hr).
    destruct Hp as [(-> & s2 & Hw & P)|(-> & P)].
    + change (negb (0 =? 0)) with false. cbv iota. rewrite (bind_step _ _ _ _ _ Hw). change (negb (0 =? 0)) with false. cbv iota. cbn [app].
      replace (Z.to_nat SFS_BLKSIZE * S n)%nat with (Z.to_nat SFS_BLKSIZE + Z.to_nat SFS_BLKSIZE * n)%nat by lia.
      apply (wr_join s a x s2 x1 data _ (Z.to_nat SFS_BLKSIZE)); try done; [unfold SFS_BLKSIZE in *; lia|].
      replace (i * SFS_BLKSIZE + Z.of_nat (Z.to_nat SFS_BLKSIZE)) with ((i + 1) * SFS_BLKSIZE) by (unfold SFS_BLKSIZE; lia).
      pose proof (o_fits _ _ _ _ _ _ (p_wrote _ _ _ _ _ _ _ P)) as Hf. rewrite take_len in Hf by (unfold SFS_BLKSIZE in *; lia).
      apply IH; [by eapply piece_fs|by eapply piece_node|by eapply piece_file| |lia|rewrite length_drop; unfold SFS_BLKSIZE in *; lia|by apply Forall_drop].
      destruct Hf as [Hf|Hf]; [apply (f_equal length) in Hf; rewrite take_len in Hf by (unfold SFS_BLKSIZE in *; lia); done|]. unfold SFS_BLKSIZE in *. lia.
    + change (negb (- E_NO_MEM =? 0)) with true. cbv iota. exists (- E_NO_MEM), 0%nat, s1, x1. split; [done|]. split; [done|]. right. split; [done|unfold SFS_BLKSIZE; lia].
Qed.

Lemma wr_then s a x data pos n1 n2 (m1 : M sfs_fs (Z * Z * list Z)) (m2 : Z -> M sfs_fs (Z * Z * list Z)) :
  fs_ok s -> file_ok s (din x) -> (n1 <= length data)%nat -> wr_post s a x data pos n1 (m1 s) ->
  (forall s1 x1, piece s a x s1 x1 pos (take n1 data) -> wr_post s1 a x1 (drop n1 data) (pos + Z.of_nat n1) n2 (m2 (Z.of_nat n1) s1)) ->
  wr_post s a x data pos (n1 + n2)
    (bind m1 (fun '(r, alen, l) => if negb (r =? 0) then ret (r, alen, l) else '(r, alen', l') <- m2 alen ;; ret (r, alen + alen', l ++ l')) s).
Proof.
  intros F K Hn (r & k & s1 & x1 & Hr & P & Hd) H2. rewrite (bind_step _ _ _ _ _ Hr). destruct Hd as [[-> ->]|[-> Hk]].
  - cbn [negb Z.eqb app]. apply (wr_join s a x s1 x1); try done. by apply H2.
  - change (negb (- E_NO_MEM =? 0)) with true. cbv iota. exists (- E_NO_MEM), k, s1, x1. split; [done|]. split; [done|]. right. split; [done|lia].
Qed.

(** The same when nothing follows. *)
Lemma wr_last s a x data pos n (m : M sfs_fs (Z * Z * list Z)) : wr_post s a x data pos n (m s) ->
  wr_post s a x data pos n (bind m (fun '(r, alen, l) => if negb (r =? 0) then ret (r, alen, l) else ret (0, alen, l)) s).
Proof.
  intros (r & k & s1 & x1 & Hr & P & Hd). rewrite (bind_step _ _ _ _ _ Hr). exists r, k, s1, x1. split; [|done]. destruct (Z.eqb_spec r 0) as [->|]; done.
Qed.

Lemma max_file i : i * SFS_BLKSIZE <= SFS_MAX_FILE_SIZE -> i < MAX_BLOCKS.
Proof. unfold SFS_BLKSIZE, SFS_MAX_FILE_SIZE, MAX_BLOCKS, SFS_NDIRECT. rewrite nentry. lia. Qed.

Lemma wrote_reach s a x s1 x1 pos l i : piece s a x s1 x1 pos l -> 0 <= i -> i * SFS_BLKSIZE <= pos + Z.of_nat (length l) -> l <> [] \/ i <= blocks (din x) -> i <= blocks (din x1).
Proof.
  intros P Hi Hl Hn. pose proof (piece_more _ _ _ _ _ _ _ P). destruct Hn as [Hn|?]; [|lia]. destruct (o_fits _ _ _ _ _ _ (p_wrote _ _ _ _ _ _ _ P)) as [->|Hf]; [done|].
  unfold SFS_BLKSIZE in *. lia.
Qed.

Lemma rest_write s a x data i nb endpos : fs_ok s -> nodes s !! a = Some x -> file_ok s (din x) -> 0 <= i <= blocks (din x) -> 0 <= nb ->
  (i + nb) * SFS_BLKSIZE <= SFS_MAX_FILE_SIZE -> nb * SFS_BLKSIZE + endpos mod SFS_BLKSIZE <= Z.of_nat (length data) -> Forall is_byte data ->
  wr_post s a x data (i * SFS_BLKSIZE) (Z.to_nat (nb * SFS_BLKSIZE + endpos mod SFS_BLKSIZE)) (io_rest a true data i nb endpos s).
Proof.
  intros F Hx K Hi Hn Hm Hd Hb. pose proof (Z.mod_pos_bound endpos SFS_BLKSIZE eq_refl) as Hs. pose proof (max_file _ Hm) as Hmax. unfold io_rest. cbv zeta.
  assert (L : wr_post s a x data (i * SFS_BLKSIZE) (Z.to_nat SFS_BLKSIZE * Z.to_nat nb) (io_loop (Z.to_nat nb) a true data i s)).
  { apply loop_write; try done; unfold SFS_BLKSIZE in *; lia. }
  destruct (Z.eqb_spec (endpos mod SFS_BLKSIZE) 0) as [E|E]; cbn [negb].
  - apply wr_last. rewrite E. replace (Z.to_nat (nb * SFS_BLKSIZE + 0)) with (Z.to_nat SFS_BLKSIZE * Z.to_nat nb)%nat by (unfold SFS_BLKSIZE; lia). done.
  - replace (Z.to_nat (nb * SFS_BLKSIZE + endpos mod SFS_BLKSIZE)) with (Z.to_nat SFS_BLKSIZE * Z.to_nat nb + Z.to_nat (endpos mod SFS_BLKSIZE))%nat by (unfold SFS_BLKSIZE in *; lia).
    apply (wr_then s a x data _ _ _ _ (fun alen => io_head a true (drop (Z.to_nat alen) data) (endpos mod SFS_BLKSIZE) (i + nb) 0)); try done; [unfold SFS_BLKSIZE in *; lia|].
    intros s1 x1 P. rewrite Nat2Z.id. replace (i * SFS_BLKSIZE + _) with ((i + nb) * SFS_BLKSIZE + 0) by (unfold SFS_BLKSIZE; lia).
    apply head_write; [by eapply piece_fs|by eapply piece_node|by eapply piece_file| |done|done|lia|unfold SFS_BLKSIZE in *; lia|rewrite length_drop; unfold SFS_BLKSIZE in *; lia|by apply Forall_drop].
    split; [lia|]. eapply wrote_reach; [exact P|lia|rewrite take_len; unfold SFS_BLKSIZE in *; lia|]. destruct (decide (nb = 0)) as [->|Hnb]; [right; lia|left].
    intros E2. apply (f_equal length) in E2. rewrite take_len in E2; [cbn in E2|]; unfold SFS_BLKSIZE in *; lia.
Qed.

Lemma parts_write s a x data offset endpos : fs_ok s -> nodes s !! a = Some x -> file_ok s (din x) -> 0 <= offset < endpos -> endpos <= SFS_MAX_FILE_SIZE ->
  offset / SFS_BLKSIZE <= blocks (din x) -> endpos - offset <= Z.of_nat (length data) -> Forall is_byte data ->
  wr_post s a x data offset (Z.to_nat (endpos - offset)) (io_parts a true data offset endpos s).
Proof.
  intros F Hx K Ho He Hi Hd Hb. unfold io_parts. cbv zeta.
  pose proof (Z.div_mod offset SFS_BLKSIZE ltac:(done)) as Eo. pose proof (Z.mod_pos_bound offset SFS_BLKSIZE eq_refl) as Mo.
  pose proof (Z.div_mod endpos SFS_BLKSIZE ltac:(done)) as Ee. pose proof (Z.mod_pos_bound endpos SFS_BLKSIZE eq_refl) as Me.
  set (i := offset / SFS_BLKSIZE) in *. set (j := endpos / SFS_BLKSIZE) in *. set (o := offset mod SFS_BLKSIZE) in *.
  assert (Hij : 0 <= i <= j) by (unfold SFS_BLKSIZE in *; lia). assert (Hmi : i < MAX_BLOCKS) by (apply max_file; unfold SFS_BLKSIZE in *; lia).
  destruct (Z.eqb_spec o 0) as [E|E]; cbn [negb].
  - replace (endpos - offset) with ((j - i) * SFS_BLKSIZE + endpos mod SFS_BLKSIZE) by lia. replace offset with (i * SFS_BLKSIZE) by lia.
    apply rest_write; try done; unfold SFS_BLKSIZE in *; lia.
  - destruct (Z.eqb_spec (j - i) 0) as [E'|E']; cbn [negb].
    + apply wr_last. replace offset with (i * SFS_BLKSIZE + o) at 1 by lia. apply head_write; try done; unfold SFS_BLKSIZE in *; lia.
    + replace (Z.to_nat (endpos - offset)) with (Z.to_nat (SFS_BLKSIZE - o) + Z.to_nat ((j - i - 1) * SFS_BLKSIZE + endpos mod SFS_BLKSIZE))%nat by (unfold SFS_BLKSIZE in *; lia).
      apply (wr_then s a x data _ _ _ _ (fun _ => io_rest a true (drop (Z.to_nat (SFS_BLKSIZE - o)) data) (i + 1) (j - i - 1) endpos)); try done; [unfold SFS_BLKSIZE in *; lia| |].
      * replace offset with (i * SFS_BLKSIZE + o) at 1 by lia. apply head_write; try done; unfold SFS_BLKSIZE in *; lia.
      * intros s1 x1 P. replace (offset + _) with ((i + 1) * SFS_BLKSIZE) by (unfold SFS_BLKSIZE in *; lia).
        apply rest_write; [by eapply piece_fs|by eapply piece_node|by eapply piece_file| |lia|unfold SFS_BLKSIZE in *; lia|rewrite length_drop; unfold SFS_BLKSIZE in *; lia|by apply Forall_drop].
        split; [lia|]. eapply wrote_reach; [exact P|lia|rewrite take_len; unfold SFS_BLKSIZE in *; lia|]. left. intros E2. apply (f_equal length) in E2. rewrite take_len in E2; [cbn in E2|]; unfold SFS_BLKSIZE in *; lia.
Qed.
End SfsWrite.

(** * The simple file system: the contents of a file

    [sfs_io] against the contents: reading gives a part of them, writing lays the bytes
    over them. *)

Import SfsDisk Sfs SfsInv SfsBmap SfsGet SfsGrow SfsMake SfsFile SfsWrite.

Module SfsRead.

(** [n] bytes of a file from [pos] on. *)
Definition fbytes (s : sfs_fs) (d : sfs_disk_inode) (pos : Z) (n : nat) : list Z := (fun k => fbyte s d (pos + Z.of_nat k)) <$> seq 0 n.

Lemma length_fbytes s d pos n : length (fbytes s d pos n) = n.
Proof. unfold fbytes. by rewrite length_fmap, length_seq. Qed.

Lemma lookup_fbytes s d pos n k : (k < n)%nat -> fbytes s d pos n !! k = Some (fbyte s d (pos + Z.of_nat k)).
Proof. intros Hk. unfold fbytes. rewrite list_lookup_fmap, lookup_seq_lt by done. done. Qed.

Lemma fbytes_app s d pos n m : fbytes s d pos (n + m) = fbytes s d pos n ++ fbytes s d (pos + Z.of_nat n) m.
Proof.
  unfold fbytes. rewrite seq_app, fmap_app, Nat.add_0_l. f_equal. rewrite <- (Nat.add_0_r n) at 1. rewrite <- fmap_add_seq, <- list_fmap_compose. apply list_fmap_ext. intros i k _. cbn. f_equal. lia.
Qed.

(** A block of the file, as bytes of the file. *)
Lemma block_bytes s d i o size : fs_ok s -> file_ok s d -> 0 <= i < blocks d -> 0 <= o -> 0 <= size -> o + size <= SFS_BLKSIZE ->
  bytes_at (blk s (bmap s d i)) o size = fbytes s d (i * SFS_BLKSIZE + o) (Z.to_nat size).
Proof.
  intros F K Hi Ho Hs Hos. pose proof (used_blk s _ F (data_used s d i K Hi)) as Hb. pose proof (block_len _ Hb) as Lb. apply list_eq. intros k.
  destruct (decide (k < Z.to_nat size)%nat) as [Hk|Hk]; [|rewrite !lookup_ge_None_2; [done|rewrite length_fbytes; lia|rewrite bytes_at_length by lia; lia]].
  rewrite lookup_fbytes by done. pose proof (lookup_bytes_at (blk s (bmap s d i)) o size (Z.of_nat k) Ho ltac:(lia)) as E. rewrite Nat2Z.id in E. rewrite E. unfold fbyte.
  assert ((i * SFS_BLKSIZE + o + Z.of_nat k) / SFS_BLKSIZE = i) as -> by (unfold SFS_BLKSIZE in *; symmetry; apply Z.div_unique with (o + Z.of_nat k); lia).
  assert ((i * SFS_BLKSIZE + o + Z.of_nat k) mod SFS_BLKSIZE = o + Z.of_nat k) as -> by (unfold SFS_BLKSIZE in *; symmetry; apply Z.mod_unique with i; lia).
  destruct (lookup_lt_is_Some_2 (blk s (bmap s d i)) (Z.to_nat (o + Z.of_nat k))) as [v Hv]; [lia|]. by rewrite Hv.
Qed.

Section Reading.
Context (s : sfs_fs) (a : Z) (x : inode) (F : fs_ok s) (Hx : nodes s !! a = Some x) (K : file_ok s (din x)).

Lemma head_read data size i o : 0 <= i < blocks (din x) -> 0 <= o -> 0 < size -> o + size <= SFS_BLKSIZE ->
  io_head a false data size i o s = Ret ((0, size, fbytes s (din x) (i * SFS_BLKSIZE + o) (Z.to_nat size)), s).
Proof using F Hx K.
  intros Hi Ho Hs Hos. unfold io_head. rewrite (bind_step _ _ _ _ _ (load_there s a x i F Hx K Hi)). cbn [negb Z.eqb sfs_buf_op].
  pose proof (data_used s (din x) i K Hi) as [Hb _]. rewrite (bind_step _ _ _ _ _ (rbuf_run s size _ o F Hb ltac:(lia) Hos)). cbn [negb Z.eqb].
  rewrite (block_bytes s (din x) i o size) by (done || lia). done.
Qed.

Lemma loop_read n : forall data i, 0 <= i -> i + Z.of_nat n <= blocks (din x) ->
  io_loop n a false data i s = Ret ((0, SFS_BLKSIZE * Z.of_nat n, fbytes s (din x) (i * SFS_BLKSIZE) (Z.to_nat SFS_BLKSIZE * n)), s).
Proof using F Hx K.
  induction n as [|n IH]; intros data i Hi Hn; cbn [io_loop]; [by rewrite Nat.mul_0_r|].
  assert (Hib : 0 <= i < blocks (din x)) by lia. rewrite (bind_step _ _ _ _ _ (load_there s a x i F Hx K Hib)). change (negb (0 =? 0)) with false. cbv iota. unfold sfs_block_op.
  pose proof (data_used s (din x) i K Hib) as Hu. pose proof (used_blk s _ F Hu) as Hbl. destruct Hu as [Hb _]. unfold sfs_rblock. change (Z.to_nat 1) with 1%nat.
  erewrite bind_step; [|cbn [rblock_loop]; erewrite bind_step; [|rewrite (bind_step _ _ _ _ _ (rblk_run s _ _ F Hb)); reflexivity]; reflexivity].
  cbn [negb Z.eqb].
  rewrite (bind_step _ _ _ _ _ (IH _ (i + 1) ltac:(lia) ltac:(lia))). unfold ret.
  pose proof (block_bytes s (din x) i 0 SFS_BLKSIZE F K Hib) as E. unfold bytes_at in E. change (Z.to_nat 0) with 0%nat in E.
  rewrite drop_0, take_ge in E by (pose proof (block_len _ Hbl); unfold SFS_BLKSIZE in *; lia). rewrite app_nil_r.
  replace (Z.to_nat SFS_BLKSIZE * S n)%nat with (Z.to_nat SFS_BLKSIZE + Z.to_nat SFS_BLKSIZE * n)%nat by lia. rewrite fbytes_app, E by (unfold SFS_BLKSIZE; lia). rewrite Z.add_0_r.
  replace ((i + 1) * SFS_BLKSIZE) with (i * SFS_BLKSIZE + Z.of_nat (Z.to_nat SFS_BLKSIZE)) by (unfold SFS_BLKSIZE; lia). do 4 f_equal. lia.
Qed.

Lemma rest_read data i nb endpos : 0 <= i -> 0 <= nb -> (i + nb) * SFS_BLKSIZE + endpos mod SFS_BLKSIZE <= blocks (din x) * SFS_BLKSIZE ->
  io_rest a false data i nb endpos s =
    Ret ((0, nb * SFS_BLKSIZE + endpos mod SFS_BLKSIZE, fbytes s (din x) (i * SFS_BLKSIZE) (Z.to_nat (nb * SFS_BLKSIZE + endpos mod SFS_BLKSIZE))), s).
Proof using F Hx K.
  intros Hi Hn Hb. pose proof (Z.mod_pos_bound endpos SFS_BLKSIZE eq_refl) as Hs. unfold io_rest.
  rewrite (bind_step _ _ _ _ _ (loop_read (Z.to_nat nb) data i Hi ltac:(unfold SFS_BLKSIZE in *; lia))). cbn [negb Z.eqb]. cbv zeta.
  destruct (Z.eqb_spec (endpos mod SFS_BLKSIZE) 0) as [E|E]; cbn [negb].
  - rewrite E. unfold ret, SFS_BLKSIZE. do 4 f_equal; [lia|f_equal; lia].
  - rewrite (bind_step _ _ _ _ _ (head_read _ (endpos mod SFS_BLKSIZE) (i + nb) 0 ltac:(unfold SFS_BLKSIZE in *; lia) ltac:(lia) ltac:(lia) ltac:(lia))). unfold ret.
    replace (Z.to_nat (nb * SFS_BLKSIZE + endpos mod SFS_BLKSIZE)) with (Z.to_nat SFS_BLKSIZE * Z.to_nat nb + Z.to_nat (endpos mod SFS_BLKSIZE))%nat by (unfold SFS_BLKSIZE in *; lia).
    rewrite fbytes_app. replace (i * SFS_BLKSIZE + Z.of_nat _) with ((i + nb) * SFS_BLKSIZE + 0) by (unfold SFS_BLKSIZE; lia).
    replace (SFS_BLKSIZE * Z.of_nat (Z.to_nat nb)) with (nb * SFS_BLKSIZE) by (unfold SFS_BLKSIZE; lia). done.
Qed.

Lemma parts_read data offset endpos : 0 <= offset < endpos -> endpos <= blocks (din x) * SFS_BLKSIZE ->
  io_parts a false data offset endpos s = Ret ((0, endpos - offset, fbytes s (din x) offset (Z.to_nat (endpos - offset))), s).
Proof using F Hx K.
  intros Ho He. unfold io_parts. cbv zeta.
  pose proof (Z.div_mod offset SFS_BLKSIZE ltac:(done)) as Eo. pose proof (Z.mod_pos_bound offset SFS_BLKSIZE eq_refl) as Mo.
  pose proof (Z.div_mod endpos SFS_BLKSIZE ltac:(done)) as Ee. pose proof (Z.mod_pos_bound endpos SFS_BLKSIZE eq_refl) as Me.
  set (i := offset / SFS_BLKSIZE) in *. set (j := endpos / SFS_BLKSIZE) in *. set (o := offset mod SFS_BLKSIZE) in *.
  assert (Hij : 0 <= i <= j) by (unfold SFS_BLKSIZE in *; lia). destruct (Z.eqb_spec o 0) as [E|E]; cbn [negb].
  - rewrite rest_read by (unfold SFS_BLKSIZE in *; lia). replace (i * SFS_BLKSIZE) with offset by lia.
    replace ((j - i) * SFS_BLKSIZE + endpos mod SFS_BLKSIZE) with (endpos - offset) by lia. done.
  - destruct (Z.eqb_spec (j - i) 0) as [E'|E']; cbn [negb].
    + rewrite (bind_step _ _ _ _ _ (head_read data (endpos - offset) i o ltac:(unfold SFS_BLKSIZE in *; lia) ltac:(lia) ltac:(lia) ltac:(unfold SFS_BLKSIZE in *; lia))).
      cbn [negb Z.eqb]. by replace (i * SFS_BLKSIZE + o) with offset by lia.
    + rewrite (bind_step _ _ _ _ _ (head_read data (SFS_BLKSIZE - o) i o ltac:(unfold SFS_BLKSIZE in *; lia) ltac:(lia) ltac:(lia) ltac:(lia))). cbn [negb Z.eqb].
      erewrite bind_step; [|apply rest_read; unfold SFS_BLKSIZE in *; lia]. unfold ret.
      replace (Z.to_nat (endpos - offset)) with (Z.to_nat (SFS_BLKSIZE - o) + Z.to_nat ((j - i - 1) * SFS_BLKSIZE + endpos mod SFS_BLKSIZE))%nat by (unfold SFS_BLKSIZE in *; lia).
      rewrite fbytes_app. replace (i * SFS_BLKSIZE + o) with offset by lia. replace (offset + Z.of_nat (Z.to_nat (SFS_BLKSIZE - o))) with ((i + 1) * SFS_BLKSIZE) by (unfold SFS_BLKSIZE in *; lia).
      do 4 f_equal. lia.
Qed.
End Reading.
End SfsRead.
