(* ===== verification/SfsIo.v ===== *)
(** * The simple file system: [sfs_io] against the contents of files

    The contents of a file are a list of bytes as long as its size.  A read returns a part
    of the list, a write lays bytes over it, and files without common blocks do not see
    each other's writes. *)

From S2P Require Import Prelude Bitmap CString SfsDisk Sfs SfsInv SfsBmap SfsMake SfsFile SfsWrite.
Import SfsDisk Sfs SfsInv SfsBmap SfsGet SfsGrow SfsMake SfsFile SfsWrite SfsRead.
Open Scope Z_scope.

Module SfsIo.

Definition contents (s : sfs_fs) (d : sfs_disk_inode) : list Z := fbytes s d 0 (Z.to_nat (info0 d)).

(** A file whose size its blocks hold. *)
Record regular (s : sfs_fs) (d : sfs_disk_inode) : Prop := {
  r_file : file_ok s d;
  r_size : 0 <= info0 d <= blocks d * SFS_BLKSIZE;
  r_max : info0 d <= SFS_MAX_FILE_SIZE;
  r_type : type d = SFS_TYPE_FILE
}.

(** It has no more blocks than its size needs. *)
Definition exact (d : sfs_disk_inode) : Prop := blocks d * SFS_BLKSIZE < info0 d + SFS_BLKSIZE.

(** Two files have no block in common. *)
Definition apart (s : sfs_fs) (d d' : sfs_disk_inode) : Prop := forall c, owned s d c -> owned s d' c -> False.

(** ** What a step on one file leaves of another *)

Section Frame.
Context (s : sfs_fs) (d e : sfs_disk_inode) (s' : sfs_fs) (d' : sfs_disk_inode).
Context (F : fs_ok s) (St : local s d s' d') (Ke : file_ok s e) (Ha : apart s d e).

Lemma other_place r : valid r -> place s' e r = place s e r.
Proof using St Ke Ha.
  intros Hr. apply place_same; [|done]. intros q _ Hv Hn. assert (Hu : used s (place s e q)) by (by apply (k_tree _ _ Ke)).
  apply (l_blk _ _ _ _ St); [done|]. intros Ho. apply (Ha _ Ho). by exists q.
Qed.

Lemma other_owned c : owned s' e c <-> owned s e c.
Proof using St Ke Ha. split; intros (r & Hr & E & Hc); exists r; rewrite (other_place r Hr) in *; done. Qed.

Lemma other_file : file_ok s' e.
Proof using St Ke Ha.
  pose proof Ke as [[A B C] Hm Hb]. split; [split; [done|..]| |done].
  - intros r Hr. rewrite (other_place r Hr). intros Hn. apply (l_blk _ _ _ _ St); [by apply B|]. intros Ho. apply (Ha _ Ho). by exists r.
  - intros r r' Hr Hr'. rewrite (other_place r Hr), (other_place r' Hr'). by apply C.
  - intros i Hi. change (bmap s' e i) with (place s' e (Data i)). rewrite (other_place (Data i) Hi). by apply Hm.
Qed.

Lemma other_apart : apart s' d' e.
Proof using F St Ke Ha.
  intros c Hd He. apply other_owned in He. destruct (l_new _ _ _ _ St c Hd) as [Ho|Hf]; [by apply (Ha c)|].
  apply (used_free s c); [|done]. eapply owned_used; [apply Ke|done].
Qed.

Lemma other_byte p : 0 <= p < blocks e * SFS_BLKSIZE -> fbyte s' e p = fbyte s e p.
Proof using St Ke Ha.
  intros Hp. assert (Hi : 0 <= p / SFS_BLKSIZE < blocks e).
  { unfold SFS_BLKSIZE in *. split; [apply Z.div_pos; lia|apply Z.div_lt_upper_bound; lia]. }
  pose proof (k_blocks _ _ Ke). assert (Hv : valid (Data (p / SFS_BLKSIZE))) by (cbn; lia). pose proof (data_used s e _ Ke Hi) as Hu. unfold fbyte.
  change (bmap s' e ?i) with (place s' e (Data i)). rewrite (other_place _ Hv). change (place s e (Data ?i)) with (bmap s e i). rewrite (proj2 (l_blk _ _ _ _ St _ Hu ltac:(intros Ho; apply (Ha _ Ho); exists (Data (p / SFS_BLKSIZE)); split; [done|]; split; [done|]; by apply (used_pos s)))). done.
Qed.

Lemma other_regular : regular s e -> regular s' e /\ contents s' e = contents s e.
Proof using St Ke Ha.
  intros R. split; [split; [apply other_file|apply R..]|]. unfold contents, fbytes. apply list_fmap_ext. intros i k Hk. apply lookup_seq in Hk as [-> Hk].
  pose proof (r_size _ _ R). apply other_byte. lia.
Qed.
End Frame.

(** ** Sizes *)

Lemma place_info0 s n d r : place s (set_info0 n d) r = place s d r.
Proof. by destruct r. Qed.

Lemma file_info0 s n d : file_ok s d -> file_ok s (set_info0 n d).
Proof. intros [[A B C] Hm Hb]. split; [split; [done|..]|done|done]; intros *; rewrite !place_info0; auto. Qed.

Lemma info0_at_node a x s d : file_ok (at_node a x s) d <-> file_ok s d.
Proof. split; intros []; split; try done; by (eapply tree_at_node || apply (tree_at_node a x)). Qed.

(** The last step of a write: the size. *)
Lemma size_fstep s d s' d' a x n : fstep s d s' d' -> fstep s d (at_node a x s') (set_info0 n d').
Proof. intros []. split; try done; [by apply at_node_ok|]. apply info0_at_node. by apply file_info0. Qed.

(** ** Reading *)

Lemma trylock_run s a x : nodes s !! a = Some x -> removed x = false -> trylock_sin a s = Ret (0, s).
Proof. intros Hx Hr. unfold trylock_sin. rewrite (bind_step _ _ _ _ _ (get_node_run a x s Hx)). by rewrite Hr. Qed.

Lemma fbytes_part s d n o k : o + Z.of_nat k <= Z.of_nat n -> 0 <= o -> fbytes s d o k = take k (drop (Z.to_nat o) (fbytes s d 0 n)).
Proof.
  intros Hk Ho. apply list_eq. intros i. destruct (decide (i < k)%nat) as [Hi|Hi].
  - rewrite lookup_take_lt, lookup_drop, !lookup_fbytes by lia. do 2 f_equal. lia.
  - rewrite !lookup_ge_None_2; [done|rewrite length_take; lia|rewrite length_fbytes; lia].
Qed.

Lemma length_contents s d : 0 <= info0 d -> Z.of_nat (length (contents s d)) = info0 d.
Proof. intros H. unfold contents. rewrite length_fbytes. lia. Qed.

Lemma endpos_run o n : 0 <= o -> 0 <= n -> o + n < 2 ^ 31 -> s32 (o + n) = o + n.
Proof. intros. apply s32_small. unfold is_s32. lia. Qed.

(** The part of the contents a read of [n] bytes at [o] gives. *)
Definition part (c : list Z) (o n : Z) : list Z := bytes_at c o n.

Lemma length_part c o n : 0 <= o -> 0 <= n -> Z.of_nat (length (part c o n)) = Z.max 0 (Z.min n (Z.of_nat (length c) - o)).
Proof. intros. unfold part, bytes_at. rewrite length_take, length_drop. lia. Qed.

Lemma io_read_run s a x o n : fs_ok s -> nodes s !! a = Some x -> regular s (din x) -> 0 <= o < SFS_MAX_FILE_SIZE -> 0 <= n -> o + n < 2 ^ 31 ->
  let l := part (contents s (din x)) o n in
  sfs_io_nolock a [] o n false s = Ret ((0, Z.of_nat (length l), l), s).
Proof.
  intros F Hx R Ho Hn Hov l. pose proof (length_part (contents s (din x)) o n ltac:(lia) Hn) as Ll. fold l in Ll. pose proof (r_size _ _ R) as Hs. pose proof (r_max _ _ R) as Hmx.
  rewrite length_contents in Ll by lia. unfold sfs_io_nolock. rewrite (bind_step _ _ _ _ _ (get_node_run a x s Hx)), (r_type _ _ R), assert_true by done. cbv zeta.
  rewrite endpos_run by lia. rewrite (proj2 (Z.ltb_ge o 0)), (proj2 (Z.leb_gt SFS_MAX_FILE_SIZE o)), (proj2 (Z.ltb_ge (o + n) o)) by lia. cbn [orb negb andb].
  assert (Hz : Z.of_nat (length l) = 0 -> l = []) by (intros E; apply length_zero_iff_nil; lia).
  destruct (Z.eqb_spec o (o + n)) as [E|E]; [rewrite Hz by lia; done|]. destruct (Z.leb_spec (info0 (din x)) o) as [E'|E']; [rewrite Hz by lia; done|].
  set (e1 := if SFS_MAX_FILE_SIZE <? o + n then _ else _). set (e := if info0 (din x) <? e1 then _ else _).
  assert (Ee : e = Z.min (o + n) (info0 (din x))).
  { unfold e, e1. destruct (Z.ltb_spec SFS_MAX_FILE_SIZE (o + n)); match goal with |- context [?u <? ?v] => destruct (Z.ltb_spec u v) end; lia. }
  rewrite (bind_step _ _ _ _ _ (parts_read s a x F Hx (r_file _ _ R) [] o e ltac:(lia) ltac:(lia))). rewrite (bind_step _ _ _ _ _ (get_node_run a x s Hx)).
  rewrite (proj2 (Z.ltb_ge _ _)) by lia. rewrite bind_ret. unfold ret.
  assert (fbytes s (din x) o (Z.to_nat (e - o)) = l) as ->.
  { rewrite (fbytes_part s (din x) (Z.to_nat (info0 (din x)))) by lia. unfold l, part, bytes_at, contents. destruct (decide (n <= info0 (din x) - o)); [do 2 f_equal; lia|].
    rewrite !take_ge; [done|rewrite length_drop, length_fbytes; lia|rewrite length_drop, length_fbytes; lia]. }
  do 4 f_equal. lia.
Qed.

Lemma read_run s a x o n : fs_ok s -> nodes s !! a = Some x -> removed x = false -> regular s (din x) -> 0 <= o < SFS_MAX_FILE_SIZE -> 0 <= n -> o + n < 2 ^ 31 ->
  let l := part (contents s (din x)) o n in
  sfs_read a o n s = Ret ((0, o + Z.of_nat (length l), n - Z.of_nat (length l), l), s).
Proof.
  intros F Hx Hr R Ho Hn Hov l. unfold sfs_read, sfs_io. rewrite (bind_step _ _ _ _ _ (trylock_run s a x Hx Hr)). cbn [negb Z.eqb].
  rewrite (bind_step _ _ _ _ _ (io_read_run s a x o n F Hx R Ho Hn Hov)). fold l. unfold ret.
  pose proof (length_part (contents s (din x)) o n ltac:(lia) Hn) as Ll. fold l in Ll.
  rewrite s32_small, u32_small by (unfold is_u32, is_s32; lia). done.
Qed.

(** ** Writing *)

(** A write lays the bytes over the contents. *)
Lemma wrote_contents s d s' d' o l : regular s d -> wrote s d s' d' o l -> 0 <= o <= info0 d ->
  fbytes s' d' 0 (Z.to_nat (Z.max (info0 d) (o + Z.of_nat (length l)))) = splice (contents s d) o l.
Proof.
  intros R W Ho. pose proof (r_size _ _ R) as Hs. pose proof (w_more _ _ _ _ (o_step _ _ _ _ _ _ W)) as Hm. set (n := Z.max _ _).
  assert (Hn : n <= blocks d' * SFS_BLKSIZE). { unfold n. unfold SFS_BLKSIZE in *. destruct (o_fits _ _ _ _ _ _ W) as [->|Hf]; [cbn; lia|unfold SFS_BLKSIZE in *; lia]. }
  assert (Lc : length (contents s d) = Z.to_nat (info0 d)) by apply length_fbytes.
  apply list_eq. intros i. destruct (decide (i < Z.to_nat n)%nat) as [Hi|Hi].
  - rewrite lookup_fbytes by done. rewrite (o_bytes _ _ _ _ _ _ W) by lia. unfold splice. destruct (decide (Z.of_nat i < o)) as [H1|H1].
    + rewrite over_out by lia. rewrite lookup_app_l by (rewrite length_take; lia). rewrite lookup_take_lt by lia. unfold contents. rewrite lookup_fbytes by lia. unfold before. rewrite (proj2 (Z.ltb_lt _ _)) by lia. done.
    + rewrite lookup_app_r by (rewrite length_take; lia). rewrite length_take, Lc, Nat.min_l by lia. destruct (decide (Z.of_nat i < o + Z.of_nat (length l))) as [H2|H2].
      * rewrite lookup_app_l by lia. rewrite <- (over_in l o (0 + Z.of_nat i) (before s d (0 + Z.of_nat i))) by lia. f_equal. lia.
      * rewrite lookup_app_r, lookup_drop by lia. rewrite over_out by lia. unfold contents. rewrite lookup_fbytes by lia. unfold before. rewrite (proj2 (Z.ltb_lt _ _)) by lia. do 2 f_equal. lia.
  - rewrite !lookup_ge_None_2; [done| |rewrite length_fbytes; lia]. unfold splice. rewrite !length_app, length_take, length_drop, Lc. lia.
Qed.

(** The first [k] bytes of [data] are in the file at [o]. *)
Record stored (s : sfs_fs) (a : Z) (x : inode) (s' : sfs_fs) (x' : inode) (o : Z) (l : list Z) : Prop := {
  st_nodes : nodes s' = <[a := x']> (nodes s);
  st_same : same_node x x';
  st_step : fstep s (din x) s' (din x');
  st_regular : regular s' (din x');
  st_contents : contents s' (din x') = splice (contents s (din x)) o l;
  st_exact : exact (din x) -> exact (din x');
  st_dirty : din x' = din x \/ dirty x' = true
}.

Lemma splice_nil c o : splice c o [] = c.
Proof. unfold splice. cbn [length app]. rewrite Nat.add_0_r. apply take_drop. Qed.

Lemma stored_nil s a x o : fs_ok s -> nodes s !! a = Some x -> regular s (din x) -> stored s a x s x o [].
Proof.
  intros F Hx R. split; [by rewrite insert_id|apply same_node_refl|apply fstep_refl; [done|apply R]|done|by rewrite splice_nil|done|by left].
Qed.

Lemma fstep_type s d s' d' : fstep s d s' d' -> type d' = type d.
Proof. intros St. pose proof (w_facts _ _ _ _ St) as E. unfold facts in E. congruence. Qed.

(** The bytes are written; the size is adjusted. *)
Lemma size_run s a x s1 x1 o l : regular s (din x) -> piece s a x s1 x1 o l -> 0 <= o <= info0 (din x) -> o + Z.of_nat (length l) <= SFS_MAX_FILE_SIZE ->
  exists s' x', stored s a x s' x' o l /\
    forall B (k : unit -> M sfs_fs B),
    bind (if info0 (din x1) <? o + Z.of_nat (length l) then set_node (upd_din (set_info0 (o + Z.of_nat (length l)))) a ;; set_node (set_dirty true) a else ret tt) k s1 = k tt s'.
Proof.
  intros R P Ho Hmx. pose proof (p_wrote _ _ _ _ _ _ _ P) as W. pose proof (o_info0 _ _ _ _ _ _ W) as Ei. pose proof (wrote_contents _ _ _ _ _ _ R W Ho) as Ec.
  pose proof (o_step _ _ _ _ _ _ W) as St. pose proof (r_size _ _ R) as Hs. pose proof (r_max _ _ R). pose proof (w_more _ _ _ _ St) as Hm. pose proof (piece_node _ _ _ _ _ _ _ P) as Hx1.
  destruct (Z.ltb_spec (info0 (din x1)) (o + Z.of_nat (length l))) as [Hlt|Hge].
  - set (n := o + Z.of_nat (length l)) in *. set (x' := set_dirty true (upd_din (set_info0 n) x1)). exists (at_node a x' s1), x'.
    assert (St' : fstep s (din x) (at_node a x' s1) (din x')) by (by apply size_fstep). split.
    + split; [cbn; by rewrite (p_nodes _ _ _ _ _ _ _ P), insert_insert_eq| |done| | | |by right].
      * eapply same_node_trans; [apply P|]. by split_and!.
      * split; [apply St'| |done|rewrite (fstep_type _ _ _ _ St'); apply R]; cbn. split; [lia|]. destruct (o_fits _ _ _ _ _ _ W) as [->|Hf]; [|done]. cbn in *. unfold n in Hlt. lia.
      * rewrite <- Ec. unfold contents. cbn [din x' set_dirty upd_din info0 set_info0]. rewrite Z.max_r by lia. done.
      * unfold exact. cbn. intros Hx. fold n. destruct (p_exact _ _ _ _ _ _ _ P) as [->|?]; lia.
    + intros B k. apply bind_step. rewrite (bind_step _ _ _ _ _ (set_node_run _ a x1 s1 Hx1)). rewrite (set_node_run _ a _ _ (lookup_at_node a _ s1)). by rewrite at_node_twice.
  - exists s1, x1. split; [|intros B k; by rewrite bind_ret]. split; [apply P|apply P|done| | | |].
    + split; [apply St|rewrite Ei; unfold SFS_BLKSIZE in *; lia|lia|rewrite (fstep_type _ _ _ _ St); apply R].
    + rewrite <- Ec. unfold contents. rewrite Z.max_l, Ei by lia. done.
    + unfold exact. rewrite Ei. intros Hx. destruct (p_exact _ _ _ _ _ _ _ P) as [->|?]; lia.
    + destruct (p_dirty _ _ _ _ _ _ _ P) as [?|[?|?]]; [by left|by right|]. lia.
Qed.

Lemma io_write_run s a x data o : fs_ok s -> nodes s !! a = Some x -> regular s (din x) -> 0 <= o <= info0 (din x) -> o < SFS_MAX_FILE_SIZE ->
  o + Z.of_nat (length data) < 2 ^ 31 -> Forall is_byte data ->
  let n := Z.to_nat (Z.min (Z.of_nat (length data)) (SFS_MAX_FILE_SIZE - o)) in
  exists r k s' x', sfs_io_nolock a data o (Z.of_nat (length data)) true s = Ret ((r, Z.of_nat k, []), s') /\ stored s a x s' x' o (take k data) /\
    ((r = 0 /\ k = n) \/ (r = - E_NO_MEM /\ (k < n)%nat)).
Proof.
  intros F Hx R Ho Hmx Hov Hb n. pose proof (r_size _ _ R) as Hs. unfold sfs_io_nolock. rewrite (bind_step _ _ _ _ _ (get_node_run a x s Hx)), (r_type _ _ R), assert_true by done. cbv zeta.
  rewrite endpos_run by lia. rewrite (proj2 (Z.ltb_ge o 0)), (proj2 (Z.leb_gt SFS_MAX_FILE_SIZE o)), (proj2 (Z.ltb_ge (o + _) o)) by lia. cbn [orb negb andb].
  destruct (Z.eqb_spec o (o + Z.of_nat (length data))) as [E|E].
  { exists 0, 0%nat, s, x. split; [done|]. split; [by apply stored_nil|]. left. split; [done|]. unfold n. lia. }
  set (e := if SFS_MAX_FILE_SIZE <? _ then _ else _). assert (Ee : e = o + Z.of_nat n).
  { unfold e, n. destruct (Z.ltb_spec SFS_MAX_FILE_SIZE (o + Z.of_nat (length data))); lia. }
  assert (Hd : o / SFS_BLKSIZE <= blocks (din x)). { unfold SFS_BLKSIZE in *. apply Z.div_le_upper_bound; lia. }
  destruct (parts_write s a x data o e F Hx (r_file _ _ R)) as (r & k & s1 & x1 & Hr & P & Hk); [lia|lia|done|unfold n in Ee; lia|done|].
  replace (Z.to_nat (e - o)) with n in Hk by lia. assert (Hkn : (k <= n)%nat) by (destruct Hk as [[_ ->]|[_ ?]]; lia).
  assert (Lk : Z.of_nat (length (take k data)) = Z.of_nat k) by (rewrite take_len; unfold n in *; lia).
  destruct (size_run s a x s1 x1 o (take k data) R P) as (s' & x' & S' & Hz); [lia|unfold n in *; lia|].
  rewrite (bind_step _ _ _ _ _ Hr). rewrite (bind_step _ _ _ _ _ (get_node_run a x1 s1 (piece_node _ _ _ _ _ _ _ P))). rewrite Lk in Hz. rewrite Hz.
  exists r, k, s', x'. done.
Qed.

Lemma write_run s a x data o : fs_ok s -> nodes s !! a = Some x -> removed x = false -> regular s (din x) -> 0 <= o <= info0 (din x) -> o < SFS_MAX_FILE_SIZE ->
  o + Z.of_nat (length data) < 2 ^ 31 -> Forall is_byte data ->
  let n := Z.to_nat (Z.min (Z.of_nat (length data)) (SFS_MAX_FILE_SIZE - o)) in
  exists r k s' x', sfs_write a data o s = Ret ((r, o + Z.of_nat k, Z.of_nat (length data) - Z.of_nat k, []), s') /\ stored s a x s' x' o (take k data) /\
    ((r = 0 /\ k = n) \/ (r = - E_NO_MEM /\ (k < n)%nat)).
Proof.
  intros F Hx Hrm R Ho Hmx Hov Hb n. destruct (io_write_run s a x data o F Hx R Ho Hmx Hov Hb) as (r & k & s' & x' & Hr & S' & Hk). fold n in Hk.
  exists r, k, s', x'. split; [|done]. unfold sfs_write, sfs_io. rewrite (bind_step _ _ _ _ _ (trylock_run s a x Hx Hrm)). cbn [negb Z.eqb].
  rewrite (bind_step _ _ _ _ _ Hr). unfold ret. assert (Hkn : (k <= n)%nat) by (destruct Hk as [[_ ->]|[_ ?]]; lia).
  rewrite s32_small, u32_small by (unfold is_u32, is_s32, n in *; lia). done.
Qed.
End SfsIo.
