(* ===== verification/SfsFree.v ===== *)
(** * The simple file system: giving blocks back

    [sfs_bmap_free_nolock], [sfs_bmap_truncate_nolock] and the end of an inode without
    links.  The relation [shed] says what giving up roles keeps. *)

From S2P Require Import Prelude Bitmap CString SfsDisk Sfs SfsDir SfsInv SfsBmap SfsMake SfsFile.
Import SfsDisk Sfs SfsDir SfsInv SfsBmap SfsGet SfsGrow SfsMake SfsFile.
Open Scope Z_scope.

Module SfsFree.

Record shed (s : sfs_fs) (d : sfs_disk_inode) (s' : sfs_fs) (d' : sfs_disk_inode) : Prop := {
  h_fs : fs_ok s';
  h_tree : tree_ok s' d';
  h_place : forall r, valid r -> place s' d' r = place s d r \/ place s' d' r = 0;
  h_used : forall c, used s' c <-> used s c /\ (owned s d c -> owned s' d' c);
  h_blk : forall c, used s' c -> ~ indexing s d c -> blk s' c = blk s c;
  h_rest : rest s' = rest s;
  h_facts : facts d' = facts d;
  h_blocks : blocks d' = blocks d;
  h_info0 : info0 d' = info0 d
}.

Lemma shed_refl s d : fs_ok s -> tree_ok s d -> shed s d s d.
Proof. intros F T. split; try done; [by left|]. intros c. split; [done|]. by intros [? _]. Qed.

Lemma shed_owned s d s' d' c : shed s d s' d' -> owned s' d' c -> owned s d c.
Proof. intros H (r & Hr & E & Hc). exists r. split; [done|]. destruct (h_place _ _ _ _ H r Hr) as [<-|E0]; [done|congruence]. Qed.

Lemma shed_indexing s d s' d' c : shed s d s' d' -> c <> 0 -> indexing s' d' c -> indexing s d c.
Proof. intros H Hc (q & Hq & Hv & E). exists q. split; [done|]. split; [done|]. destruct (h_place _ _ _ _ H q Hv) as [<-|E0]; [done|congruence]. Qed.

Lemma indexing_owned s d c : c <> 0 -> indexing s d c -> owned s d c.
Proof. intros Hc (q & _ & Hv & E). by exists q. Qed.

Lemma shed_less s d s' d' c : shed s d s' d' -> used s' c -> used s c.
Proof. intros H Hc. by apply (h_used _ _ _ _ H) in Hc as [? _]. Qed.

Lemma shed_trans s d s1 d1 s2 d2 : shed s d s1 d1 -> shed s1 d1 s2 d2 -> shed s d s2 d2.
Proof.
  intros A B. split; try apply B.
  - intros r Hr. destruct (h_place _ _ _ _ B r Hr) as [->|?]; [by apply A|by right].
  - intros c. rewrite (h_used _ _ _ _ B), (h_used _ _ _ _ A). split; [intros [[Hu H1] H2]; split; [done|auto]|].
    intros [Hu Ho]. split; [split; [done|]|]; intros Hx; [eapply shed_owned; [exact B|]; by apply Ho|]. apply Ho. by eapply shed_owned.
  - intros c Hc Hi. pose proof (shed_less _ _ _ _ _ B Hc) as Hu. rewrite (h_blk _ _ _ _ B); [by apply A|done|]. intros Hx. apply Hi.
    eapply shed_indexing; [exact A| |done]. by apply (used_pos s1).
  - rewrite (h_rest _ _ _ _ B). apply A.
  - rewrite (h_facts _ _ _ _ B). apply A.
  - rewrite (h_blocks _ _ _ _ B). apply A.
  - rewrite (h_info0 _ _ _ _ B). apply A.
Qed.

(** One role gives its block up. *)
Lemma shed_detach s d s' d' R :
  fs_ok s -> tree_ok s d -> fs_ok s' -> valid R -> place s d R <> 0 -> moved s d s' d' R 0 ->
  (forall c, used s' c <-> used s c /\ c <> place s d R) -> (forall c, used s' c -> ~ indexing s d c -> blk s' c = blk s c) ->
  rest s' = rest s -> facts d' = facts d -> blocks d' = blocks d -> info0 d' = info0 d -> length (direct d') = length (direct d) -> shed s d s' d'.
Proof.
  intros F T F' HR Hn Hm Hu Hb Hr Hf Hk Hi Hl. split; try done.
  - eapply detach_ok; try done. intros c Hc Hne. apply Hu. done.
  - intros r Hv. rewrite (Hm r Hv). case_decide; [by right|by left].
  - intros c. rewrite Hu. split; (intros [Hc Hx]; split; [done|]).
    + intros (r & Hv & E & Hc0). exists r. split; [done|]. rewrite (Hm r Hv). case_decide; [subst; congruence|done].
    + intros ->. destruct Hx as (r & Hv & E & _); [by exists R|]. rewrite (Hm r Hv) in E. case_decide; [congruence|]. apply H. apply (t_inj _ _ T); [done|done|done|congruence].
Qed.

Lemma blk_cut s e j v c : blk (given v (hung e j 0 s)) c = if c =? e then splice (blk s e) (4 * j) (le_bytes 4 0) else blk s c.
Proof. unfold hung. rewrite blk_given. apply blk_written. Qed.

(** The entry of an index block is cleared. *)
Lemma detach_entry s d q j : fs_ok s -> tree_ok s d -> is_index q -> valid q -> 0 <= j < SFS_BLK_NENTRY -> place s d q <> 0 ->
  ent0 s (place s d q) j <> 0 -> (q = Dbl -> forall i, 0 <= i < SFS_BLK_NENTRY -> ent0 s (place s d (Inner j)) i = 0) ->
  let s' := given (ent0 s (place s d q) j) (hung (place s d q) j 0 s) in
  fs_ok s' -> shed s d s' d /\ moved s d s' d (child q j) 0.
Proof.
  intros F T Hq Hv Hj He Hn Hin s' F'. set (e := place s d q) in *. set (v := ent0 s e j) in *. pose proof (child_place s d q j Hq Hv Hj) as Ev. fold e v in Ev.
  assert (Hue : used s e) by (by apply T). assert (Huv : used s v) by (rewrite <- Ev; apply T; [by apply child_valid|by rewrite Ev]). pose proof (used_blk s e F Hue) as Hbe.
  assert (Hm : moved s d s' d (child q j) 0).
  { apply moved_entry; try done; [unfold s'; rewrite blk_cut; fold e; by rewrite Z.eqb_refl| |].
    - intros p Hp Hvp Hpn Hpq _. unfold s'. rewrite blk_cut. destruct (Z.eqb_spec (place s d p) e) as [E|]; [|done]. exfalso. apply Hpq. by apply (t_inj _ _ T).
    - intros Eq i Hi. unfold ent0 at 1. cbn. symmetry. by apply Hin. }
  split; [|done]. apply (shed_detach s d s' d (child q j)); try done.
  - by apply child_valid.
  - by rewrite Ev.
  - intros c. rewrite Ev. unfold s'. rewrite used_given; [unfold hung; by rewrite used_written| |by unfold hung; rewrite used_written]. apply written_ok; [done|].
    apply splice_block; [done|lia|rewrite length_le; unfold SFS_BLKSIZE; rewrite nentry in Hj; lia|apply le_bytes_byte].
  - intros c Hc Hx. unfold s'. rewrite blk_cut. destruct (Z.eqb_spec c e) as [->|]; [|done]. exfalso. apply Hx. by exists q.
Qed.

(** A root gives its block up. *)
Lemma detach_top s d d' R : fs_ok s -> tree_ok s d -> valid R -> place s d R <> 0 -> moved s d (given (place s d R) s) d' R 0 ->
  facts d' = facts d -> blocks d' = blocks d -> info0 d' = info0 d -> length (direct d') = length (direct d) -> shed s d (given (place s d R) s) d'.
Proof.
  intros F T HR Hn Hm. intros. assert (Hu : used s (place s d R)) by (by apply T). apply (shed_detach s d _ d' R); try done; [by apply given_ok|]. intros c. by apply used_given.
Qed.

Lemma detach_direct s d i : fs_ok s -> tree_ok s d -> 0 <= i < SFS_NDIRECT -> bmap s d i <> 0 ->
  shed s d (given (bmap s d i) s) (set_direct i 0 d) /\ moved s d (given (bmap s d i) s) (set_direct i 0 d) (Data i) 0.
Proof.
  intros F T Hi Hn. assert (Hm : moved s d (given (bmap s d i) s) (set_direct i 0 d) (Data i) 0) by (apply moved_direct; [apply T|done|done]).
  split; [|done]. apply (detach_top s d _ (Data i)); try done; [|cbn; apply length_insert]. cbn. unfold MAX_BLOCKS, SFS_NDIRECT in *. rewrite nentry. lia.
Qed.

Lemma detach_ind s d : fs_ok s -> tree_ok s d -> indirect d <> 0 -> (forall i, 0 <= i < SFS_BLK_NENTRY -> ent0 s (indirect d) i = 0) ->
  shed s d (given (indirect d) s) (set_indirect 0 d) /\ moved s d (given (indirect d) s) (set_indirect 0 d) Ind 0.
Proof.
  intros F T Hn H0. assert (Hm : moved s d (given (indirect d) s) (set_indirect 0 d) Ind 0) by (apply moved_ind; [done|intros i Hi; by rewrite H0]).
  split; [|done]. by apply (detach_top s d _ Ind).
Qed.

Lemma detach_dbl s d : fs_ok s -> tree_ok s d -> db_indirect d <> 0 -> (forall i, 0 <= i < SFS_BLK_NENTRY -> ent0 s (db_indirect d) i = 0) ->
  shed s d (given (db_indirect d) s) (set_db_indirect 0 d) /\ moved s d (given (db_indirect d) s) (set_db_indirect 0 d) Dbl 0.
Proof.
  intros F T Hn H0. assert (Hm : moved s d (given (db_indirect d) s) (set_db_indirect 0 d) Dbl 0) by (apply moved_dbl; [done|intros i Hi; by rewrite H0]).
  split; [|done]. by apply (detach_top s d _ Dbl).
Qed.

(** ** The calls *)

Lemma free_sub_none s e j : fs_ok s -> used s e -> 0 <= j < SFS_BLK_NENTRY -> ent0 s e j = 0 -> sfs_bmap_free_sub_nolock e j s = Ret (0, s).
Proof.
  intros F He Hj H0. pose proof (used_pos _ _ He) as Hn. unfold sfs_bmap_free_sub_nolock. rewrite (bind_step _ _ _ _ _ (inuse_run s e F (proj1 He))), (proj2 He).
  rewrite assert_true by (apply Z.ltb_lt; lia). cbv zeta. rewrite (bind_step _ _ _ _ _ (entry_run s e j F He Hj)). cbn [negb Z.eqb].
  unfold ent0 in H0. rewrite (proj2 (Z.eqb_neq e 0)) in H0 by done. unfold ent, word_at in H0. by rewrite H0.
Qed.

Lemma free_sub_some s d q j : fs_ok s -> tree_ok s d -> is_index q -> valid q -> 0 <= j < SFS_BLK_NENTRY -> place s d q <> 0 -> ent0 s (place s d q) j <> 0 ->
  let s' := given (ent0 s (place s d q) j) (hung (place s d q) j 0 s) in
  sfs_bmap_free_sub_nolock (place s d q) j s = Ret (0, s') /\ fs_ok s'.
Proof.
  intros F T Hq Hv Hj He Hn s'. set (e := place s d q) in *. set (v := ent0 s e j) in *. pose proof (child_place s d q j Hq Hv Hj) as Ev. fold e v in Ev.
  assert (Hue : used s e) by (by apply T). assert (Huv : used s v) by (rewrite <- Ev; apply T; [by apply child_valid|by rewrite Ev]).
  destruct (hang_run s e j 0 F Hue Hj) as [Hw F1]. destruct (free_run (hung e j 0 s) v F1) as [Hf F2]; [done|]. split; [|done].
  unfold sfs_bmap_free_sub_nolock. rewrite (bind_step _ _ _ _ _ (inuse_run s e F (proj1 Hue))), (proj2 Hue). rewrite assert_true by (apply Z.ltb_lt; lia). cbv zeta.
  rewrite (bind_step _ _ _ _ _ (entry_run s e j F Hue Hj)). cbn [negb Z.eqb]. assert (le_val (bytes_at (blk s e) (4 * j) 4) = v) as ->.
  { unfold v, ent0. by rewrite (proj2 (Z.eqb_neq e 0)). }
  rewrite (proj2 (Z.eqb_neq v 0)) by done. cbn [negb]. rewrite (bind_step _ _ _ _ _ Hw). cbn [negb Z.eqb]. by rewrite (bind_step _ _ _ _ _ Hf).
Qed.

(** The block of an index is given back; an index that has none is left alone. *)
Definition dropped (s : sfs_fs) (a : Z) (x : inode) (i : Z) (res : outcome (Z * sfs_fs)) : Prop :=
  exists s' x', res = Ret (0, s') /\ nodes s' = <[a := x']> (nodes s) /\ saved x (din x') x' /\ shed s (din x) s' (din x') /\
    forall j, 0 <= j < MAX_BLOCKS -> bmap s' (din x') j = if j =? i then 0 else bmap s (din x) j.

Lemma shed_at_node a x s d s' d' : shed s d s' d' -> shed s d (at_node a x s') d'.
Proof. intros []. split; try done; [by apply at_node_ok|by apply tree_at_node]. Qed.

Lemma moved_data s d s' d' i j : moved s d s' d' (Data i) 0 -> 0 <= j < MAX_BLOCKS -> bmap s' d' j = if j =? i then 0 else bmap s d j.
Proof.
  intros Hm Hj. pose proof (Hm (Data j) Hj) as E. cbn in E. rewrite E. destruct (Z.eqb_spec j i) as [->|]; [by rewrite decide_True|rewrite decide_False; congruence].
Qed.

Lemma drop_entry s a x q j i : fs_ok s -> nodes s !! a = Some x -> tree_ok s (din x) -> is_index q -> valid q -> q <> Dbl -> 0 <= j < SFS_BLK_NENTRY ->
  child q j = Data i -> bmap s (din x) i <> 0 -> dropped s a x i (sfs_bmap_free_sub_nolock (place s (din x) q) j s) /\ place s (din x) q <> 0.
Proof.
  intros F Hx T Hq Hv Hd Hj Ei Hn. pose proof (child_place s (din x) q j Hq Hv Hj) as Ev. rewrite Ei in Ev. cbn in Ev. rewrite Ev in Hn.
  assert (He : place s (din x) q <> 0) by (intros E; by rewrite E in Hn). split; [|done].
  destruct (free_sub_some s (din x) q j F T Hq Hv Hj He Hn) as [-> F']. set (s' := given _ _) in *. destruct (detach_entry s (din x) q j F T Hq Hv Hj He Hn) as [H M]; [done|done|].
  fold s' in H, M. exists s', x. split; [done|]. split; [by rewrite insert_id|]. split; [by left|]. split; [done|]. intros k Hk. rewrite Ei in M. by apply moved_data.
Qed.

Lemma free_nolock_run s a x i : fs_ok s -> nodes s !! a = Some x -> tree_ok s (din x) -> 0 <= i < MAX_BLOCKS -> bmap s (din x) i <> 0 ->
  dropped s a x i (sfs_bmap_free_nolock a i s).
Proof.
  intros F Hx T Hi Hn. unfold sfs_bmap_free_nolock. rewrite (bind_step _ _ _ _ _ (get_node_run a x s Hx)). destruct (bmap_parent s (din x) i Hi) as [[H1 E]|[(j & Hj & Ei & E)|(k & j & Hk & Hj & Ei & E)]].
  - rewrite (proj2 (Z.ltb_lt i _)) by lia. destruct (lookup_lt_is_Some_2 (direct (din x)) (Z.to_nat i)) as [b Hb]; [rewrite (t_direct _ _ T); lia|]. rewrite (bind_deref _ _ _ _ Hb).
    rewrite Hb in E. cbn in E. rewrite E in Hn. rewrite (proj2 (Z.eqb_neq b 0)) by done. cbn [negb]. destruct (free_run s b F) as [Hf F']; [rewrite <- E; apply (t_used _ _ T (Data i)); [done|cbn; congruence]|].
    rewrite (bind_step _ _ _ _ _ Hf), (save_run _ a x) by done. destruct (detach_direct s (din x) i F T ltac:(lia)) as [H M]; [congruence|]. rewrite E in H, M.
    eexists _, (set_dirty true (upd_din (set_direct i 0) x)). split; [reflexivity|]. split; [done|]. split; [by right|]. split; [by apply shed_at_node|]. intros j Hj. by apply (moved_data s (din x) (given b s)).
  - rewrite (proj2 (Z.ltb_ge i _)) by lia. cbv zeta. rewrite (proj2 (Z.ltb_lt (i - _) _)) by lia. replace (i - SFS_NDIRECT) with j by lia.
    destruct (drop_entry s a x Ind j i) as [D Hp]; try done; [cbn; by rewrite Ei|]. cbn in Hp. by rewrite (proj2 (Z.eqb_neq _ 0)).
  - rewrite (proj2 (Z.ltb_ge i _)) by (rewrite nentry in *; lia). cbv zeta. rewrite (proj2 (Z.ltb_ge (i - _) _)) by (rewrite nentry in *; lia).
    replace (i - SFS_NDIRECT - SFS_BLK_NENTRY) with (j + k * SFS_BLK_NENTRY) by lia. rewrite Z.div_add, Z.mod_add, Z.div_small, Z.mod_small, Z.add_0_l by (rewrite nentry in *; lia).
    destruct (drop_entry s a x (Inner k) j i) as [D Hp]; try done; [cbn; by rewrite Ei|]. assert (Hd : db_indirect (din x) <> 0) by (intros Ed; cbn in Hp; by rewrite Ed in Hp).
    rewrite (proj2 (Z.eqb_neq _ 0)) by done. cbn [negb]. rewrite (bind_step _ _ _ _ _ (sub_get s _ k F (place_used s (din x) Dbl T I) Hk)). cbn [negb Z.eqb]. cbn [place] in *.
    by rewrite (proj2 (Z.eqb_neq _ 0)).
Qed.

(** ** Files that get shorter *)

Record cut (s : sfs_fs) (d : sfs_disk_inode) (s' : sfs_fs) (d' : sfs_disk_inode) : Prop := {
  c_fs : fs_ok s';
  c_file : file_ok s' d';
  c_less : blocks d' <= blocks d;
  c_used : forall c, used s' c <-> used s c /\ (owned s d c -> owned s' d' c);
  c_owned : forall c, owned s' d' c -> owned s d c;
  c_blk : forall c, used s c -> ~ owned s d c -> blk s' c = blk s c;
  c_byte : forall p, 0 <= p < blocks d' * SFS_BLKSIZE -> fbyte s' d' p = fbyte s d p;
  c_rest : rest s' = rest s;
  c_facts : facts d' = facts d;
  c_info0 : info0 d' = info0 d
}.

Lemma cut_local s d s' d' : cut s d s' d' -> local s d s' d'.
Proof. intros C. split; [|intros c Hc; left; by apply C]. intros c Hc Ho. split; [by apply C|by apply C]. Qed.

Lemma cut_refl s d : fs_ok s -> file_ok s d -> cut s d s d.
Proof. intros F K. split; try done. intros c. split; [done|]. by intros [? _]. Qed.

Lemma cut_trans s d s1 d1 s2 d2 : cut s d s1 d1 -> cut s1 d1 s2 d2 -> cut s d s2 d2.
Proof.
  intros A B. pose proof (c_less _ _ _ _ A). pose proof (c_less _ _ _ _ B). split; try apply B.
  - lia.
  - intros c. rewrite (c_used _ _ _ _ B), (c_used _ _ _ _ A). split; [intros [[Hu H1] H2]; split; [done|auto]|].
    intros [Hu Ho]. split; [split; [done|]|]; intros Hx; [by apply B, Ho|]. by apply Ho, A.
  - intros c Hc. by apply A, B.
  - intros c Hc Ho. rewrite (c_blk _ _ _ _ B); [by apply A|by apply A|]. intros Hx. by apply Ho, A.
  - intros p Hp. rewrite (c_byte _ _ _ _ B p Hp). apply A. unfold SFS_BLKSIZE in *. lia.
  - rewrite (c_rest _ _ _ _ B). apply A.
  - rewrite (c_facts _ _ _ _ B). apply A.
  - rewrite (c_info0 _ _ _ _ B). apply A.
Qed.

(** The last block goes. *)
Lemma shed_cut s d s' d' a x : fs_ok s -> file_ok s d -> 0 < blocks d -> shed s d s' d' ->
  (forall j, 0 <= j < MAX_BLOCKS -> bmap s' d' j = if j =? blocks d - 1 then 0 else bmap s d j) ->
  cut s d (at_node a x s') (set_blocks (blocks d - 1) d').
Proof.
  intros F K Hb H M. pose proof (k_blocks _ _ K) as Hm. split; try apply H.
  - apply at_node_ok, H.
  - split; [apply tree_blocks, tree_at_node, H| |cbn; lia]. intros i Hi. change (bmap (at_node a x s') (set_blocks ?n d') i) with (bmap s' d' i). rewrite (M i Hi). cbn.
    destruct (Z.eqb_spec i (blocks d - 1)) as [->|Hne]; [split; [done|lia]|]. rewrite (k_map _ _ K i Hi). lia.
  - cbn. lia.
  - intros c Hc. apply (shed_owned s d s' d'); [done|]. by apply owned_blocks in Hc.
  - intros c Hc Ho. apply (h_blk _ _ _ _ H).
    + apply (h_used _ _ _ _ H). done.
    + intros Hx. apply Ho. apply indexing_owned; [by apply (used_pos s)|done].
  - cbn. intros p Hp. change (fbyte (at_node a x s') (set_blocks ?n d') p) with (fbyte s' d' p). unfold fbyte.
    assert (Hi : 0 <= p / SFS_BLKSIZE < blocks d - 1) by (unfold SFS_BLKSIZE in *; split; [apply Z.div_pos; lia|apply Z.div_lt_upper_bound; lia]).
    assert (E : bmap s' d' (p / SFS_BLKSIZE) = bmap s d (p / SFS_BLKSIZE)) by (rewrite M by lia; by rewrite (proj2 (Z.eqb_neq _ _)) by lia).
    assert (Hn : bmap s d (p / SFS_BLKSIZE) <> 0) by (apply (k_map _ _ K); lia). rewrite E, (h_blk _ _ _ _ H); [done| |apply data_indexing; [apply K|lia|done]].
    rewrite <- E. apply (t_used _ _ (h_tree _ _ _ _ H) (Data _)); [cbn; lia|cbn; congruence].
Qed.

Lemma truncate_run s a x : fs_ok s -> nodes s !! a = Some x -> file_ok s (din x) -> 0 < blocks (din x) ->
  exists s' x', sfs_bmap_truncate_nolock a s = Ret (0, s') /\ nodes s' = <[a := x']> (nodes s) /\ same_node x x' /\ dirty x' = true /\
    cut s (din x) s' (din x') /\ blocks (din x') = blocks (din x) - 1.
Proof.
  intros F Hx K Hb. pose proof (k_blocks _ _ K). set (i := blocks (din x) - 1). unfold sfs_bmap_truncate_nolock. rewrite (bind_step _ _ _ _ _ (get_node_run a x s Hx)).
  rewrite assert_true by (rewrite (proj2 (Z.eqb_neq _ 0)) by lia; done). fold i.
  destruct (free_nolock_run s a x i F Hx (k_tree _ _ K)) as (s1 & x1 & Hr & En & Sx & H1 & M); [unfold i; lia|apply (k_map _ _ K); unfold i; lia|].
  rewrite (bind_step _ _ _ _ _ Hr). cbn [negb Z.eqb]. assert (Hx1 : nodes s1 !! a = Some x1) by (rewrite En; apply lookup_insert_eq). rewrite (save_run _ a x1) by done.
  set (x2 := set_dirty true _). exists (at_node a x2 s1), x2. assert (Ed : din x2 = set_blocks i (din x1)) by (cbn; rewrite (h_blocks _ _ _ _ H1); done).
  split; [done|]. split; [cbn; by rewrite En, insert_insert_eq|]. split; [|split; [done|]].
  - eapply same_node_trans; [by eapply saved_same|]. by split_and!.
  - rewrite Ed. split; [by apply shed_cut|done].
Qed.

(** [n] blocks from the end. *)
Lemma shrink_run n : forall s a x, fs_ok s -> nodes s !! a = Some x -> file_ok s (din x) -> Z.of_nat n <= blocks (din x) ->
  exists s' x', shrink_loop n a s = Ret (0, s') /\ truncate_all n a s = Ret (tt, s') /\ nodes s' = <[a := x']> (nodes s) /\ same_node x x' /\ (n <> 0%nat -> dirty x' = true) /\
    cut s (din x) s' (din x') /\ blocks (din x') = blocks (din x) - Z.of_nat n.
Proof.
  induction n as [|n IH]; intros s a x F Hx K Hn; cbn [shrink_loop truncate_all].
  - exists s, x. split; [done|]. split; [done|]. split; [by rewrite insert_id|]. split; [apply same_node_refl|]. split; [done|]. split; [by apply cut_refl|lia].
  - destruct (truncate_run s a x F Hx K ltac:(lia)) as (s1 & x1 & Hr & En & Sx & Dx & C & Eb). rewrite !(bind_step _ _ _ _ _ Hr). cbn [negb Z.eqb].
    destruct (IH s1 a x1) as (s2 & x2 & Hr2 & Hr3 & En2 & Sx2 & Dx2 & C2 & Eb2); [apply C|rewrite En; apply lookup_insert_eq|apply C|lia|].
    exists s2, x2. split; [done|]. split; [done|]. split; [by rewrite En2, En, insert_insert_eq|]. split; [by eapply same_node_trans|].
    split; [intros _; by apply Sx2|]. split; [by eapply cut_trans|lia].
Qed.
End SfsFree.
