(* ===== verification/SfsSize.v ===== *)
(** * The simple file system: changing the size of a file, and its end

    [sfs_truncfile] and [sfs_reclaim]. *)

From S2P Require Import Prelude Bitmap CString SfsDisk Sfs SfsDir SfsInv SfsBmap SfsMake SfsFile SfsWrite SfsIo SfsFree.
Import SfsDisk Sfs SfsDir SfsInv SfsBmap SfsGet SfsGrow SfsMake SfsFile SfsWrite SfsRead SfsIo SfsFree.
Open Scope Z_scope.

Module SfsSize.

(** ** Growing *)

Lemma extend_run n : forall s a x, fs_ok s -> nodes s !! a = Some x -> file_ok s (din x) -> blocks (din x) + Z.of_nat n <= MAX_BLOCKS ->
  exists r s' x', grow_loop n a (blocks (din x)) s = Ret (r, s') /\ nodes s' = <[a := x']> (nodes s) /\ same_node x x' /\ wrote s (din x) s' (din x') 0 [] /\
    ((r = 0 /\ blocks (din x') = blocks (din x) + Z.of_nat n) \/ (r = - E_NO_MEM /\ blocks (din x') < blocks (din x) + Z.of_nat n)).
Proof.
  induction n as [|n IH]; intros s a x F Hx K Hn; cbn [grow_loop].
  - exists 0, s, x. split; [done|]. split; [by rewrite insert_id|]. split; [apply same_node_refl|]. split; [by apply wrote_nil|]. left. split; [done|lia].
  - destruct (load_make s a x F Hx K ltac:(lia)) as (r & b & s1 & x1 & Hr & En & Sx & W & Hp). specialize (W 0). rewrite (bind_step _ _ _ _ _ Hr).
    destruct Hp as [(-> & -> & Eb)|(-> & -> & Eb & _)].
    + cbn [negb Z.eqb]. rewrite <- Eb. destruct (IH s1 a x1) as (r & s2 & x2 & Hr2 & En2 & Sx2 & W2 & Hp2); [apply W|rewrite En; apply lookup_insert_eq|apply W|lia|].
      exists r, s2, x2. split; [done|]. split; [by rewrite En2, En, insert_insert_eq|]. split; [by eapply same_node_trans|].
      split; [by apply (wrote_app s (din x) s1 (din x1) s2 (din x2) 0 [] [])|]. destruct Hp2 as [[-> ?]|[-> ?]]; [left|right]; (split; [done|lia]).
    + exists (- E_NO_MEM), s1, x1. split; [done|]. split; [done|]. split; [done|]. split; [done|]. right. split; [done|lia].
Qed.

(** ** [sfs_truncfile] *)

(** The blocks that [len] bytes need. *)
Lemma roundup_blocks len : 0 <= len <= SFS_MAX_FILE_SIZE ->
  let t := Bitmap.ROUNDUP_DIV len SFS_BLKSIZE in 0 <= t < MAX_BLOCKS /\ len <= t * SFS_BLKSIZE < len + SFS_BLKSIZE.
Proof.
  intros Hl t. unfold t, Bitmap.ROUNDUP_DIV. unfold SFS_MAX_FILE_SIZE in *. rewrite !u32_small by (rewrite ?u32_small; unfold is_u32, SFS_BLKSIZE; lia).
  assert (E : len + SFS_BLKSIZE - 1 = SFS_BLKSIZE * ((len + SFS_BLKSIZE - 1) / SFS_BLKSIZE) + (len + SFS_BLKSIZE - 1) mod SFS_BLKSIZE) by (by apply Z.div_mod).
  pose proof (Z.mod_pos_bound (len + SFS_BLKSIZE - 1) SFS_BLKSIZE eq_refl) as M. unfold MAX_BLOCKS, SFS_NDIRECT. rewrite nentry. unfold SFS_BLKSIZE in *. lia.
Qed.

(** A file cut or filled up with zeros, in blocks. *)
Definition resized (s : sfs_fs) (d : sfs_disk_inode) (len : Z) : list Z := (fun k => before s d (Z.of_nat k)) <$> seq 0 (Z.to_nat len).

Lemma resized_fbytes s d s' d' len : 0 <= len -> (forall p, 0 <= p < len -> fbyte s' d' p = before s d p) -> fbytes s' d' 0 (Z.to_nat len) = resized s d len.
Proof. intros Hl H. unfold fbytes, resized. apply list_fmap_ext. intros i k Hk. apply lookup_seq in Hk as [-> Hk]. apply H. lia. Qed.

Lemma fstep_cut_local s a x s' x' n : local s (din x) s' (din x') -> file_ok s' (din x') -> local s (din x) (at_node a (set_dirty true (upd_din (set_info0 n) x')) s') (set_info0 n (din x')).
Proof. intros L K. destruct L as [A B]. split; done. Qed.

(** The loop of [sfs_truncfile]: the blocks the new size needs, or all there were. *)
Lemma resize_run s a x len : fs_ok s -> nodes s !! a = Some x -> file_ok s (din x) -> 0 <= len <= SFS_MAX_FILE_SIZE ->
  let t := Bitmap.ROUNDUP_DIV len SFS_BLKSIZE in let n := blocks (din x) in
  exists r s' x', (if n <? t then grow_loop (Z.to_nat (t - n)) a n else shrink_loop (Z.to_nat (n - t)) a) s = Ret (r, s') /\
    nodes s' = <[a := x']> (nodes s) /\ same_node x x' /\ fs_ok s' /\ file_ok s' (din x') /\ local s (din x) s' (din x') /\ info0 (din x') = info0 (din x) /\ type (din x') = type (din x) /\
    (forall p, 0 <= p < blocks (din x') * SFS_BLKSIZE -> fbyte s' (din x') p = before s (din x) p) /\
    ((r = 0 /\ blocks (din x') = t) \/ (r = - E_NO_MEM /\ n <= blocks (din x'))).
Proof.
  intros F Hx K Hl t n. destruct (roundup_blocks len Hl) as [Ht _]. fold t in Ht. destruct (Z.ltb_spec n t) as [Hlt|Hge].
  - destruct (extend_run (Z.to_nat (t - n)) s a x F Hx K) as (r & s' & x' & Hr & En & Sx & W & Hp); [unfold n in *; lia|]. pose proof (o_step _ _ _ _ _ _ W) as St.
    exists r, s', x'. split; [done|]. split; [done|]. split; [done|]. split; [apply W|]. split; [apply W|]. split; [by apply fstep_local|]. split; [apply W|]. split; [by eapply fstep_type|].
    split; [|destruct Hp as [[-> E]|[-> E]]; [left; split; [done|unfold n in *; lia]|right; split; [done|apply St]]]. intros p Hp'. rewrite (o_bytes _ _ _ _ _ _ W p Hp'). apply over_out. cbn. lia.
  - pose proof (k_blocks _ _ K). destruct (shrink_run (Z.to_nat (n - t)) s a x F Hx K) as (s' & x' & Hr & _ & En & Sx & _ & C & Eb); [unfold n in *; lia|].
    exists 0, s', x'. split; [done|]. split; [done|]. split; [done|]. split; [apply C|]. split; [apply C|]. split; [by apply cut_local|]. split; [apply C|].
    split; [pose proof (c_facts _ _ _ _ C) as Ef; unfold facts in Ef; congruence|]. split; [|left; split; [done|unfold n in *; lia]].
    intros p Hp. rewrite (c_byte _ _ _ _ C p Hp). unfold before. rewrite (proj2 (Z.ltb_lt p _)); [done|]. pose proof (c_less _ _ _ _ C). unfold SFS_BLKSIZE in *. lia.
Qed.

(** The file after [sfs_truncfile]. *)
Record truncated (s : sfs_fs) (a : Z) (x : inode) (s' : sfs_fs) (x' : inode) : Prop := {
  tr_nodes : nodes s' = <[a := x']> (nodes s);
  tr_same : same_node x x';
  tr_fs : fs_ok s';
  tr_regular : regular s' (din x');
  tr_local : local s (din x) s' (din x')
}.

Lemma truncfile_run s a x len : fs_ok s -> nodes s !! a = Some x -> removed x = false -> regular s (din x) -> exact (din x) -> 0 <= len <= SFS_MAX_FILE_SIZE ->
  exists r s' x', sfs_truncfile a len s = Ret (r, s') /\ truncated s a x s' x' /\
    ((r = 0 /\ exact (din x') /\ contents s' (din x') = resized s (din x) len) \/ (r = - E_NO_MEM /\ contents s' (din x') = contents s (din x))).
Proof.
  intros F Hx Hrm R Hex Hl. destruct (roundup_blocks len Hl) as [Ht Htl]. pose proof (r_size _ _ R) as Hs. unfold exact in Hex. pose proof (r_file _ _ R) as K. unfold sfs_truncfile.
  rewrite (proj2 (Z.ltb_ge len 0)), (proj2 (Z.ltb_ge SFS_MAX_FILE_SIZE len)) by lia. cbn [orb]. rewrite (bind_step _ _ _ _ _ (get_node_run a x s Hx)), (r_type _ _ R), assert_true by done. cbv zeta.
  set (t := Bitmap.ROUNDUP_DIV len SFS_BLKSIZE) in *. destruct (Z.eqb_spec (info0 (din x)) len) as [E|E].
  - rewrite assert_true by (apply Z.eqb_eq; unfold SFS_BLKSIZE in *; lia). exists 0, s, x. split; [done|]. split.
    + split; [by rewrite insert_id|apply same_node_refl|done|done|apply fstep_local; by apply fstep_refl].
    + left. split; [done|]. split; [done|]. unfold contents. rewrite E. apply resized_fbytes; [lia|]. intros p Hp. unfold before. rewrite (proj2 (Z.ltb_lt p _)); [done|lia].
  - unfold locked. rewrite (bind_step _ _ _ _ _ (trylock_run s a x Hx Hrm)). change (0 =? 0) with true. cbv iota.
    destruct (resize_run s a x len F Hx K Hl) as (r & s1 & x1 & Hr & En & Sx & F1 & K1 & L & Ei & Ety & Hb & Hp). fold t in Hr, Hp. rewrite (bind_step _ _ _ _ _ Hr).
    assert (Hx1 : nodes s1 !! a = Some x1) by (rewrite En; apply lookup_insert_eq). destruct Hp as [[-> Eb]|[-> Eb]].
    + cbn [negb Z.eqb]. rewrite (bind_step _ _ _ _ _ (get_node_run a x1 s1 Hx1)), assert_true by (by apply Z.eqb_eq). rewrite (save_run _ a x1) by done. set (x2 := set_dirty true _).
      exists 0, (at_node a x2 s1), x2. split; [done|]. split; [split|left; split; [done|split]].
      * cbn. by rewrite En, insert_insert_eq.
      * eapply same_node_trans; [done|]. by split_and!.
      * by apply at_node_ok.
      * split; cbn; [apply info0_at_node; by apply file_info0|rewrite Eb; lia|lia|rewrite Ety; apply R].
      * by apply fstep_cut_local.
      * unfold exact. cbn. rewrite Eb. lia.
      * unfold contents. cbn [din x2 set_dirty upd_din info0 set_info0]. apply resized_fbytes; [lia|]. intros p Hp. apply Hb. rewrite Eb. lia.
    + change (negb (- E_NO_MEM =? 0)) with true. cbv iota. exists (- E_NO_MEM), s1, x1. split; [done|]. split; [|right; split; [done|]].
      * split; try done. split; [done|rewrite Ei; unfold SFS_BLKSIZE in *; lia|rewrite Ei; apply R|rewrite Ety; apply R].
      * unfold contents. rewrite Ei. unfold fbytes. apply list_fmap_ext. intros i k Hk. apply lookup_seq in Hk as [-> Hk]. rewrite Hb by (unfold SFS_BLKSIZE in *; lia).
        unfold before. by rewrite (proj2 (Z.ltb_lt _ _)) by lia.
Qed.

(** ** The end of an inode without links *)

Definition no_data (s : sfs_fs) (d : sfs_disk_inode) : Prop := forall i, 0 <= i < MAX_BLOCKS -> bmap s d i = 0.

Lemma shed_no_data s d s' d' : shed s d s' d' -> no_data s d -> no_data s' d'.
Proof. intros H N i Hi. pose proof (h_place _ _ _ _ H (Data i) Hi) as [E|E]; cbn in E; [|done]. rewrite E. by apply N. Qed.

Lemma no_data_entry s d q j : no_data s d -> is_index q -> valid q -> q <> Dbl -> 0 <= j < SFS_BLK_NENTRY -> ent0 s (place s d q) j = 0.
Proof.
  intros N Hq Hv Hd Hj. rewrite <- (child_place s d q j Hq Hv Hj). pose proof (child_valid q j Hq Hv Hj) as Hc. destruct q; try done; by apply N.
Qed.

(** The loop over the double-index block. *)
Lemma subs_run n : forall s d j, fs_ok s -> tree_ok s d -> no_data s d -> db_indirect d <> 0 -> 0 <= j -> j + Z.of_nat n = SFS_BLK_NENTRY ->
  (forall k, 0 <= k < j -> place s d (Inner k) = 0) ->
  exists s', free_subs n (db_indirect d) j s = Ret (tt, s') /\ shed s d s' d /\ nodes s' = nodes s /\ forall k, 0 <= k < SFS_BLK_NENTRY -> place s' d (Inner k) = 0.
Proof.
  induction n as [|n IH]; intros s d j F T N Hd Hj Hn Hk; cbn [free_subs].
  - exists s. split; [done|]. split; [by apply shed_refl|]. split; [done|]. intros k Hk'. apply Hk. lia.
  - assert (Hu : used s (db_indirect d)) by (by apply (t_used _ _ T Dbl)). assert (Hjn : 0 <= j < SFS_BLK_NENTRY) by lia.
    destruct (decide (ent0 s (db_indirect d) j = 0)) as [E|E].
    + rewrite (bind_step _ _ _ _ _ (free_sub_none s _ j F Hu Hjn E)). apply IH; try done; [lia|lia|]. intros k Hk'. destruct (decide (k = j)) as [->|]; [done|]. apply Hk. lia.
    + destruct (free_sub_some s d Dbl j F T I I Hjn Hd E) as [Hr F']. cbn [place] in Hr, F'. set (s1 := given _ _) in *. rewrite (bind_step _ _ _ _ _ Hr).
      destruct (detach_entry s d Dbl j F T I I Hjn Hd E) as [H M]; [intros _ i Hi; by apply (no_data_entry s d (Inner j))|done|]. cbn [place] in H, M. fold s1 in H, M.
      destruct (IH s1 d (j + 1)) as (s' & Hr' & H' & En & Hz); try done; [apply H|by eapply shed_no_data|lia|lia| |].
      * intros k Hk'. rewrite (M (Inner k)) by (cbn; lia). cbn [child]. case_decide as Ek; [done|]. apply Hk. assert (k <> j) by congruence. lia.
      * exists s'. split; [done|]. split; [by eapply shed_trans|]. done.
Qed.

(** The blocks of the inode and of the block map. *)
Definition all_free (s s' : sfs_fs) (d : sfs_disk_inode) : Prop :=
  fs_ok s' /\ (forall c, used s' c <-> used s c /\ ~ owned s d c) /\ (forall c, used s' c -> blk s' c = blk s c) /\ rest s' = rest s /\ nodes s' = nodes s.

Lemma shed_all_free s d s' d' : fs_ok s -> tree_ok s d -> shed s d s' d' -> nodes s' = nodes s -> (forall r, valid r -> place s' d' r = 0) -> all_free s s' d.
Proof.
  intros F T H En Hz. assert (Hno : forall c, ~ owned s' d' c) by (intros c (r & Hr & E & Hc); rewrite (Hz r Hr) in E; congruence).
  split; [apply H|]. split; [|split; [|split; [apply H|done]]].
  - intros c. rewrite (h_used _ _ _ _ H). split; intros [Hc Ho]; (split; [done|]); [intros Hx; by apply (Hno c), Ho|done].
  - intros c Hc. apply H; [done|]. intros Hx. apply (h_used _ _ _ _ H) in Hc as [Hc Ho]. apply (Hno c), Ho. apply indexing_owned; [by apply (used_pos s)|done].
Qed.

Lemma roots_run s d : fs_ok s -> tree_ok s d -> no_data s d ->
  exists s', ((if negb (indirect d =? 0) then sfs_block_free (indirect d) else ret tt) ;;
    (if negb (db_indirect d =? 0) then free_subs (Z.to_nat SFS_BLK_NENTRY) (db_indirect d) 0 ;; sfs_block_free (db_indirect d) else ret tt)) s = Ret (tt, s') /\ all_free s s' d.
Proof.
  intros F T N.
  assert (S1 : exists s1 d1, (if negb (indirect d =? 0) then sfs_block_free (indirect d) else ret tt) s = Ret (tt, s1) /\ shed s d s1 d1 /\ nodes s1 = nodes s /\
    indirect d1 = 0 /\ db_indirect d1 = db_indirect d).
  { destruct (Z.eqb_spec (indirect d) 0) as [E|E]; cbn [negb]; [exists s, d; split_and!; try done; by apply shed_refl|].
    destruct (free_run s (indirect d) F) as [Hr _]; [by apply (t_used _ _ T Ind)|]. destruct (detach_ind s d F T E) as [H _]; [intros i Hi; by apply (no_data_entry s d Ind)|].
    by exists (given (indirect d) s), (set_indirect 0 d). }
  destruct S1 as (s1 & d1 & Hr1 & H1 & En1 & Ei & Ed). rewrite (bind_step _ _ _ _ _ Hr1). rewrite <- Ed. pose proof (h_fs _ _ _ _ H1) as F1. pose proof (h_tree _ _ _ _ H1) as T1.
  pose proof (shed_no_data _ _ _ _ H1 N) as N1. destruct (Z.eqb_spec (db_indirect d1) 0) as [E|E]; cbn [negb].
  - exists s1. split; [done|]. apply (shed_all_free s d s1 d1); try done. intros r Hr. destruct r as [i| | |k]; [by apply N1|done|done|]. cbn. by rewrite E.
  - destruct (subs_run (Z.to_nat SFS_BLK_NENTRY) s1 d1 0) as (s2 & Hr2 & H2 & En2 & Hz); try done; [intros; lia|]. rewrite (bind_step _ _ _ _ _ Hr2).
    assert (Hu : used s2 (db_indirect d1)) by (by apply (t_used _ _ (h_tree _ _ _ _ H2) Dbl)). destruct (free_run s2 (db_indirect d1) (h_fs _ _ _ _ H2) Hu) as [Hr3 _].
    destruct (detach_dbl s2 d1 (h_fs _ _ _ _ H2) (h_tree _ _ _ _ H2) E) as [H3 M3]; [intros i Hi; by apply (Hz i)|].
    exists (given (db_indirect d1) s2). split; [done|]. apply (shed_all_free s d _ (set_db_indirect 0 d1)); try done.
    + eapply shed_trans; [exact H1|]. by eapply shed_trans.
    + cbn. by rewrite En2.
    + intros r Hr. rewrite (M3 r Hr). case_decide; [done|]. destruct r as [i| | |k]; [by apply (shed_no_data _ _ _ _ H2)|done|done|by apply Hz].
Qed.

(** An inode block in use that belongs to no file. *)
Lemma tree_given s d b : fs_ok s -> tree_ok s d -> used s b -> ~ owned s d b -> tree_ok (given b s) d.
Proof.
  intros F T Hb Ho. pose proof T as [A B C]. split; [done| |intros r r' Hr Hr' E Hn; by apply C]. intros r Hr Hn. change (place (given b s) d r) with (place s d r) in *.
  apply used_given; [done|done|]. split; [by apply B|]. intros <-. apply Ho. by exists r.
Qed.

(** The inode at [a] is gone, with its block and the blocks of its file. *)
Record reclaimed (s : sfs_fs) (a : Z) (x : inode) (s' : sfs_fs) : Prop := {
  rc_fs : fs_ok s';
  rc_nodes : nodes s' = delete a (nodes s);
  rc_list : inode_list s' = base.filter (fun b => b <> a) (inode_list s);
  rc_hash : hash_list s' = base.filter (fun b => b <> a) <$> hash_list s;
  rc_used : forall c, used s' c <-> used s c /\ ~ owned s (din x) c /\ c <> ino x;
  rc_blk : forall c, used s' c -> blk s' c = blk s c
}.

Lemma reclaim_blocks_run s a x : fs_ok s -> nodes s !! a = Some x -> tree_ok s (din x) -> no_data s (din x) -> used s (ino x) -> ~ owned s (din x) (ino x) ->
  exists s', reclaim_blocks a s = Ret (tt, s') /\ fs_ok s' /\ rest s' = rest s /\ nodes s' = nodes s /\
    (forall c, used s' c <-> used s c /\ c <> ino x /\ ~ owned s (din x) c) /\ (forall c, used s' c -> blk s' c = blk s c).
Proof.
  intros F Hx T N Hu Ho. unfold reclaim_blocks. rewrite (bind_step _ _ _ _ _ (get_node_run a x s Hx)). destruct (free_run s (ino x) F Hu) as [Hr F1]. rewrite (bind_step _ _ _ _ _ Hr).
  destruct (roots_run (given (ino x) s) (din x) F1) as (s' & Hr' & F' & Hc & Hb & Er & En); [by apply tree_given|done|].
  exists s'. split; [done|]. split; [done|]. split; [done|]. split; [done|]. split; [|done].
  intros c. rewrite Hc, used_given by done. change (owned (given (ino x) s) (din x) c) with (owned s (din x) c). tauto.
Qed.

Lemma facts_nlinks d d' : facts d' = facts d -> nlinks d' = nlinks d.
Proof. unfold facts. congruence. Qed.

Lemma reclaim_run s a x : fs_ok s -> nodes s !! a = Some x -> file_ok s (din x) -> used s (ino x) -> ~ owned s (din x) (ino x) ->
  reclaim_count x = 1 -> ref_count x = 0 -> open_count x = 0 -> nlinks (din x) = 0 ->
  exists s', sfs_reclaim a s = Ret (0, s') /\ reclaimed s a x s'.
Proof.
  intros F Hx K Hu Ho Hrc Href Hop Hnl. unfold sfs_reclaim. rewrite (bind_step _ _ _ _ _ (get_node_run a x s Hx)), Hrc, Href, Hop, Hnl.
  rewrite assert_true by done. rewrite (bind_step _ _ _ _ _ (set_node_run _ a x s Hx)). change (negb (1 - 1 =? 0)) with false. cbv iota. rewrite assert_true by done. change (1 - 1) with 0.
  set (x0 := set_reclaim 0 x). set (s0 := at_node a x0 s). assert (F0 : fs_ok s0) by (by apply at_node_ok). assert (K0 : file_ok s0 (din x0)) by (by apply info0_at_node).
  pose proof (k_blocks _ _ K) as Hb. destruct (shrink_run (Z.to_nat (blocks (din x))) s0 a x0 F0 (lookup_at_node a x0 s) K0) as (s1 & x1 & _ & Hr & En & Sx & _ & C & Eb); [cbn; lia|].
  change (0 =? 0) with true. cbv iota. erewrite bind_step; [|rewrite (bind_step _ _ _ _ _ Hr); reflexivity]. cbn [negb Z.eqb].
  assert (Eb0 : blocks (din x1) = 0) by (cbn in Eb; lia). destruct Sx as (Er & Eo & Ei & _ & _ & _). cbn in Er, Eo, Ei. unfold sfs_remove_links. rewrite bind_modify.
  set (s2 := upd_lists _ _ s1). assert (Hx2 : nodes s2 !! a = Some x1) by (cbn; rewrite En; apply lookup_insert_eq). rewrite (bind_step _ _ _ _ _ (get_node_run a x1 s2 Hx2)).
  rewrite (facts_nlinks _ _ (c_facts _ _ _ _ C)). cbn [din x0 set_reclaim]. rewrite Hnl. cbn [Z.eqb].
  assert (Hu2 : forall c, used s2 c <-> used s c /\ (owned s (din x) c -> owned s1 (din x1) c)) by apply (c_used _ _ _ _ C).
  assert (N : no_data s2 (din x1)). { intros i Hi. destruct (decide (bmap s1 (din x1) i = 0)) as [|E]; [done|]. apply (k_map _ _ (c_file _ _ _ _ C) i Hi) in E. lia. }
  assert (F2 : fs_ok s2) by (destruct (c_fs _ _ _ _ C); by split).
  assert (T2 : tree_ok s2 (din x1)) by (destruct (k_tree _ _ (c_file _ _ _ _ C)); by split).
  destruct (reclaim_blocks_run s2 a x1 F2 Hx2 T2 N) as (s3 & Hr3 & F3 & Er3 & En3 & Hu3 & Hb3); [rewrite Ei; apply Hu2; by split|rewrite Ei; intros Hx'; by apply Ho, (c_owned _ _ _ _ C)|].
  rewrite (bind_step _ _ _ _ _ Hr3). unfold inode_kill. assert (Hx3 : nodes s3 !! a = Some x1) by (by rewrite En3).
  erewrite bind_step; [|rewrite (bind_step _ _ _ _ _ (get_node_run a x1 s3 Hx3)), Er, Eo, Href, Hop; rewrite !assert_true by done; reflexivity].
  eexists. split; [reflexivity|]. pose proof (c_rest _ _ _ _ C) as Er1. injection Er1 as _ _ El1 Eh1 _. injection Er3 as _ _ El3 Eh3 _.
  assert (Hiff : forall c, used s3 c <-> used s c /\ ~ owned s (din x) c /\ c <> ino x).
  { intros c. rewrite Hu3, Hu2, Ei. change (owned s2 (din x1) c) with (owned s1 (din x1) c). pose proof (c_owned _ _ _ _ C c) as Hc. change (owned s0 (din x0) c) with (owned s (din x) c) in Hc. tauto. }
  split.
  - destruct F3. by split.
  - cbn. rewrite En3. cbn. rewrite En. cbn. by rewrite insert_insert_eq, delete_insert_eq.
  - cbn. rewrite El3. cbn. by rewrite El1.
  - cbn. rewrite Eh3. cbn. by rewrite Eh1.
  - exact Hiff.
  - intros c Hc. change (blk (upd_nodes _ s3) c) with (blk s3 c). change (used (upd_nodes _ s3) c) with (used s3 c) in Hc. rewrite (Hb3 c Hc). apply Hiff in Hc as (Hc & Hno & _).
    by apply (c_blk _ _ _ _ C).
Qed.
End SfsSize.
