(* ===== verification/SfsNode.v ===== *)
(** * The simple file system: inodes on disk

    The 72 bytes of an inode, [sfs_fsync], and [sfs_load_inode] reading them back. *)

From S2P Require Import Prelude Bitmap CString SfsDisk Sfs SfsDir SfsInv SfsBmap SfsMake SfsFile SfsIo.
Import SfsDisk Sfs SfsDir SfsInv SfsBmap SfsGet SfsGrow SfsMake SfsFile SfsIo.
Open Scope Z_scope.

Module SfsNode.

(** ** Bytes of concatenated fields *)

Lemma bytes_at_skip l1 l2 o n : Z.of_nat (length l1) <= o -> bytes_at (l1 ++ l2) o n = bytes_at l2 (o - Z.of_nat (length l1)) n.
Proof. intros H. unfold bytes_at. rewrite drop_app_ge by lia. do 2 f_equal. lia. Qed.

Lemma bytes_at_hit l1 l2 n : Z.of_nat (length l1) = n -> bytes_at (l1 ++ l2) 0 n = l1.
Proof. intros <-. unfold bytes_at. change (Z.to_nat 0) with 0%nat. by rewrite drop_0, Nat2Z.id, take_app_length. Qed.

Lemma word_skip l1 l2 o : Z.of_nat (length l1) <= o -> word_at (l1 ++ l2) o = word_at l2 (o - Z.of_nat (length l1)).
Proof. intros. unfold word_at. by rewrite bytes_at_skip. Qed.

Lemma word_hit v l : is_u32 v -> word_at (le_bytes 4 v ++ l) 0 = v.
Proof. intros Hv. unfold word_at. rewrite bytes_at_hit by (by rewrite length_le). by apply word_roundtrip. Qed.

Definition is_u16 (v : Z) : Prop := 0 <= v < 2 ^ 16.

Lemma half_skip l1 l2 o : Z.of_nat (length l1) <= o -> half_at (l1 ++ l2) o = half_at l2 (o - Z.of_nat (length l1)).
Proof. intros. unfold half_at. by rewrite bytes_at_skip. Qed.

Lemma half_hit v l : is_u16 v -> half_at (le_bytes 2 v ++ l) 0 = v.
Proof. intros Hv. unfold half_at. rewrite bytes_at_hit by (by rewrite length_le). apply le_roundtrip. exact Hv. Qed.

Lemma length_words l : length (concat (le_bytes 4 <$> l)) = (4 * length l)%nat.
Proof. induction l as [|v l IH]; [done|]. cbn [fmap list_fmap concat length]. rewrite length_app, length_le. rewrite IH. lia. Qed.

Lemma words_roundtrip l t : Forall is_u32 l ->
  (fun i => word_at (concat (le_bytes 4 <$> l) ++ t) (4 * Z.of_nat i)) <$> seq 0 (length l) = l.
Proof.
  induction 1 as [|v l Hv Hl IH]; [done|]. cbn [length seq fmap list_fmap]. f_equal.
  - cbn [concat fmap list_fmap]. rewrite <- app_assoc. by apply word_hit.
  - etransitivity; [|exact IH]. rewrite <- fmap_S_seq, <- list_fmap_compose. apply list_fmap_ext. intros i k _. cbn [compose concat fmap list_fmap].
    rewrite <- app_assoc, word_skip by (rewrite length_le; lia). f_equal. rewrite length_le. lia.
Qed.

(** The fields of an inode fit their widths. *)
Record din_fits (d : sfs_disk_inode) : Prop := {
  df_info0 : is_u32 (info0 d);
  df_parent : is_u32 (dir_parent d);
  df_type : is_u16 (type d);
  df_nlinks : is_u16 (nlinks d);
  df_blocks : is_u32 (blocks d);
  df_direct : length (direct d) = Z.to_nat SFS_NDIRECT /\ Forall is_u32 (direct d);
  df_indirect : is_u32 (indirect d);
  df_db : is_u32 (db_indirect d)
}.

Lemma length_din d : length (direct d) = Z.to_nat SFS_NDIRECT -> Z.of_nat (length (din_bytes d)) = sizeof_din.
Proof. intros E. unfold din_bytes. rewrite !length_app, !length_le, length_words, E. done. Qed.

Lemma din_roundtrip d t : din_fits d -> bytes_din (din_bytes d ++ t) = d.
Proof.
  intros [A B C D E [Ld Fd] G H]. unfold bytes_din, din_bytes. rewrite <- !app_assoc. set (ds := concat _).
  assert (Lds : length ds = 48%nat) by (unfold ds; rewrite length_words, Ld; done).
  rewrite word_hit by done. rewrite (word_skip _ _ 4) by (rewrite length_le; lia). rewrite length_le, word_hit by done.
  rewrite !(half_skip (le_bytes 4 _)) by (rewrite ?length_le; lia). rewrite !length_le. change (8 - Z.of_nat 4 - Z.of_nat 4) with 0. rewrite half_hit by done.
  rewrite half_skip by (rewrite length_le; lia). rewrite length_le. change (10 - Z.of_nat 4 - Z.of_nat 4 - Z.of_nat 2) with 0. rewrite half_hit by done.
  destruct d; cbn [info0 dir_parent type nlinks blocks direct indirect db_indirect] in *. f_equal.
  - do 4 rewrite word_skip by (rewrite ?length_le; lia). rewrite !length_le. change (12 - Z.of_nat 4 - Z.of_nat 4 - Z.of_nat 2 - Z.of_nat 2) with 0. by apply word_hit.
  - etransitivity; [|apply (words_roundtrip direct0 (le_bytes 4 indirect0 ++ le_bytes 4 db_indirect0 ++ t) Fd)]. rewrite Ld. apply list_fmap_ext. intros i k _.
    do 5 rewrite word_skip by (rewrite ?length_le; lia). rewrite !length_le. f_equal. lia.
  - do 6 rewrite word_skip by (rewrite ?length_le, ?Lds; lia). rewrite !length_le, Lds. by apply word_hit.
  - do 7 rewrite word_skip by (rewrite ?length_le, ?Lds; lia). rewrite !length_le, Lds. by apply word_hit.
Qed.

(** ** Writing an inode back and loading it *)

Lemma words_byte l : Forall is_byte (concat (le_bytes 4 <$> l)).
Proof. induction l as [|v l IH]; [constructor|]. cbn [fmap list_fmap concat]. apply Forall_app. split; [apply le_bytes_byte|done]. Qed.

Lemma din_byte d : Forall is_byte (din_bytes d).
Proof. unfold din_bytes. rewrite !Forall_app. split_and!; try apply le_bytes_byte. apply words_byte. Qed.

(** The inode that the block [n] holds. *)
Definition din_at (s : sfs_fs) (n : Z) : sfs_disk_inode := bytes_din (bytes_at (blk s n) 0 sizeof_din).

Lemma fsync_run s a x : fs_ok s -> nodes s !! a = Some x -> used s (ino x) -> removed x = false -> nlinks (din x) <> 0 -> dirty x = true -> din_fits (din x) ->
  let s' := written (ino x) (splice (blk s (ino x)) 0 (din_bytes (din x))) (at_node a (set_dirty false x) s) in
  sfs_fsync a s = Ret (0, s') /\ fs_ok s' /\ din_at s' (ino x) = din x.
Proof.
  intros F Hx Hu Hr Hn Hd Hf s'. pose proof (length_din (din x) (proj1 (df_direct _ Hf))) as Ld. pose proof (used_blk s _ F Hu) as Hb. pose proof (block_len _ Hb) as Lb.
  destruct (wbuf_run (at_node a (set_dirty false x) s) (din_bytes (din x)) (ino x) 0) as [Hw F']; [by apply at_node_ok|apply Hu|done|unfold sizeof_din, SFS_BLKSIZE in *; lia|apply din_byte|].
  split; [|split; [done|]].
  - unfold sfs_fsync. rewrite (bind_step _ _ _ _ _ (get_node_run a x s Hx)). rewrite (proj2 (Z.eqb_neq _ 0)), Hd by done. cbn [negb orb].
    rewrite (bind_step _ _ _ _ _ (trylock_run s a x Hx Hr)). change (negb (0 =? 0)) with false. cbv iota. rewrite (bind_step _ _ _ _ _ (set_node_run _ a x s Hx)).
    rewrite (bind_step _ _ _ _ _ Hw). done.
  - unfold din_at, s'. rewrite blk_written, Z.eqb_refl. rewrite <- Ld, bytes_at_splice_same by (unfold sizeof_din, SFS_BLKSIZE in *; lia).
    rewrite <- (app_nil_r (din_bytes (din x))). by apply din_roundtrip.
Qed.

Lemma lookup_none l n s : (forall b, b ∈ l -> exists y, nodes s !! b = Some y /\ ino y <> n) -> lookup_loop l n s = Ret (0, s).
Proof.
  induction l as [|b l IH]; intros H; [done|]. cbn [lookup_loop]. destruct (H b) as (y & Hy & Hn); [by left|]. rewrite (bind_step _ _ _ _ _ (get_node_run b y s Hy)).
  rewrite (proj2 (Z.eqb_neq (ino y) n)) by done. apply IH. intros c Hc. apply H. by right.
Qed.

Lemma new_addr_fresh m : m !! new_addr m = None /\ 0 < new_addr m.
Proof.
  assert (Hb : forall l : list Z, Forall (fun k => k <= foldr Z.max 0 l) l /\ 0 <= foldr Z.max 0 l).
  { induction l as [|k l [IH1 IH2]]; [done|]. cbn. split; [|lia]. constructor; [lia|]. eapply Forall_impl; [exact IH1|]. cbn. intros; lia. }
  unfold new_addr. destruct (Hb (map_to_list m).*1) as [H1 H2]. split; [|lia]. destruct (m !! (foldr Z.max 0 (map_to_list m).*1 + 1)) as [x|] eqn:E; [|done].
  exfalso. apply elem_of_map_to_list in E. rewrite Forall_forall in H1. specialize (H1 _ (list_elem_of_fmap_2 fst _ _ E)). cbn in H1. lia.
Qed.

(** The inode of a block, when memory is to be had and no inode in memory has its number. *)
Lemma load_inode_run s n l : fs_ok s -> mem_results s = [] -> used s n -> nlinks (din_at s n) <> 0 -> type (din_at s n) = SFS_TYPE_FILE \/ type (din_at s n) = SFS_TYPE_DIR ->
  hash_list s !! sin_hashfn n = Some l -> (forall b, b ∈ l -> exists y, nodes s !! b = Some y /\ ino y <> n) ->
  let a := new_addr (nodes s) in
  sfs_load_inode n s = Ret ((0, a), upd_lists (cons a) <[sin_hashfn n := a :: l]> (at_node a (mk_inode 1 0 (din_at s n) n false false 1) s)).
Proof.
  intros F Hm Hu Hn Ht Hl Hb a. unfold sfs_load_inode.
  assert (Hlk : lookup_sfs_nolock n s = Ret (0, s)) by (unfold lookup_sfs_nolock; rewrite bind_get, Hl, (bind_deref _ _ _ _ eq_refl); by apply lookup_none).
  rewrite (bind_step _ _ _ _ _ Hlk). change (negb (0 =? 0)) with false. cbv iota. assert (Hk : kmalloc s = Ret (true, s)) by (unfold kmalloc; by rewrite bind_get, Hm).
  rewrite (bind_step _ _ _ _ _ Hk). cbn [negb]. rewrite (bind_step _ _ _ _ _ (assert_inuse_run s n F Hu)).
  rewrite (bind_step _ _ _ _ _ (rbuf_run s sizeof_din n 0 F (proj1 Hu) ltac:(done) ltac:(done))). cbn [negb Z.eqb]. fold (din_at s n). rewrite assert_true by (by rewrite (proj2 (Z.eqb_neq _ 0))).
  assert (Hc : sfs_create_inode (din_at s n) n s = Ret ((0, a), at_node a (mk_inode 1 0 (din_at s n) n false false 1) s)).
  { unfold sfs_create_inode. rewrite (bind_step _ _ _ _ _ Hk). cbv iota. unfold sfs_get_ops. destruct Ht as [-> | ->]; done. }
  rewrite (bind_step _ _ _ _ _ Hc). cbn [negb Z.eqb]. unfold sfs_set_links. set (x := mk_inode _ _ _ _ _ _ _).
  erewrite bind_step; [|rewrite (bind_step _ _ _ _ _ (get_node_run a x _ (lookup_at_node a x s))), bind_get, (bind_deref _ l) by done; reflexivity]. done.
Qed.
End SfsNode.
