(* ===== verification/SfsEntry.v ===== *)
(** * The simple file system: directories

    The slots of a directory, one per block, as a list of optional pairs of a name and an
    inode number; and the finite map from names to inodes that they stand for. *)

From S2P Require Import Prelude Bitmap CString SfsDisk Sfs SfsDir SfsInv SfsBmap SfsMake SfsFile SfsWrite SfsIo SfsNode.
Import SfsDisk Sfs SfsDir SfsInv SfsBmap SfsGet SfsGrow SfsMake SfsFile SfsWrite SfsRead SfsIo SfsNode.
Open Scope Z_scope.

Module SfsEntry.

(** ** Entries *)

(** A name has no byte 0 and fits the array with a 0 behind it. *)
Definition is_name (name : list Z) : Prop := Forall (fun b => 0 < b < 256) name /\ (length name <= 255)%nat.

Definition close_name (e : sfs_disk_entry) : sfs_disk_entry := mk_entry (ent_ino e) (<[Z.to_nat SFS_MAX_FNAME_LEN := 0]> (ent_name e)).

Definition slot_of (e : sfs_disk_entry) : option (list Z * Z) := if ent_ino e =? 0 then None else Some (cstr (ent_name e), ent_ino e).

Lemma cstr_app l t : Forall (fun b => 0 < b < 256) l -> cstr (l ++ 0 :: t) = l.
Proof. induction 1 as [|b l Hb _ IH]; [done|]. cbn [app cstr]. rewrite (proj2 (Z.eqb_neq b 0)) by lia. by rewrite IH. Qed.

Lemma length_named name : (length name <= 255)%nat -> length (named name) = 256%nat.
Proof. intros H. unfold named, zeros. rewrite length_app, length_replicate. lia. Qed.

Lemma named_end name : (length name <= 255)%nat -> <[Z.to_nat SFS_MAX_FNAME_LEN := 0]> (named name) = named name.
Proof.
  intros H. apply list_insert_id. unfold named, zeros. change (Z.to_nat SFS_MAX_FNAME_LEN) with 255%nat. rewrite lookup_app_r by lia. apply lookup_replicate_2. lia.
Qed.

Lemma cstr_named name : is_name name -> cstr (named name) = name.
Proof.
  intros [Hb Hl]. unfold named, zeros. replace (Z.to_nat (256 - Z.of_nat (length name))) with (S (Z.to_nat (255 - Z.of_nat (length name)))) by lia. by apply cstr_app.
Qed.

Definition entry_for (n : Z) (name : list Z) : sfs_disk_entry := if negb (n =? 0) then mk_entry n (named name) else mk_entry 0 (zeros 256).

(** What the slot written for [n] and [name] reads as. *)
Definition slot_for (n : Z) (name : list Z) : option (list Z * Z) := if n =? 0 then None else Some (name, n).

Lemma entry_length n name : (n <> 0 -> is_name name) -> length (entry_bytes (entry_for n name)) = Z.to_nat sizeof_entry.
Proof.
  intros H. unfold entry_bytes, entry_for. destruct (Z.eqb_spec n 0) as [->|Hn]; cbn [negb ent_ino ent_name].
  - rewrite length_app, length_le. unfold zeros. by rewrite length_replicate.
  - rewrite length_app, length_le, length_named by (apply H; done). done.
Qed.

Lemma entry_byte n name : (n <> 0 -> is_name name) -> Forall is_byte (entry_bytes (entry_for n name)).
Proof.
  intros H. unfold entry_bytes, entry_for, is_byte. assert (Hz : forall k, Forall (fun b => 0 <= b < 256) (zeros k)) by (intros k; apply Forall_replicate; lia).
  destruct (Z.eqb_spec n 0) as [->|Hn]; cbn [negb ent_ino ent_name]; (apply Forall_app; split; [apply le_bytes_byte|]); [apply Hz|].
  apply Forall_app; split; [|apply Hz]. destruct (H Hn) as [Hb _]. eapply Forall_impl; [exact Hb|]. cbn. lia.
Qed.

Lemma entry_roundtrip n name : is_u32 n -> (n <> 0 -> is_name name) -> slot_of (close_name (bytes_entry (entry_bytes (entry_for n name)))) = slot_for n name.
Proof.
  intros Hn H. unfold bytes_entry, entry_bytes, entry_for, slot_for. destruct (Z.eqb_spec n 0) as [->|Hne]; cbn [negb ent_ino ent_name].
  - unfold slot_of. cbn [close_name ent_ino]. by rewrite word_hit.
  - destruct (H Hne) as [Hb Hl]. rewrite word_hit by done. rewrite bytes_at_skip by (rewrite length_le; lia). rewrite length_le. change (4 - Z.of_nat 4) with 0.
    rewrite <- (app_nil_r (named name)), bytes_at_hit by (rewrite length_named by done; done). unfold slot_of, close_name. cbn [ent_ino ent_name].
    rewrite (proj2 (Z.eqb_neq n 0)), named_end, cstr_named by done. done.
Qed.

(** ** Slots *)

Definition entry_at (s : sfs_fs) (d : sfs_disk_inode) (i : Z) : sfs_disk_entry := close_name (bytes_entry (fbytes s d (i * SFS_BLKSIZE) (Z.to_nat sizeof_entry))).

Definition slots (s : sfs_fs) (d : sfs_disk_inode) : list (option (list Z * Z)) := (fun i => slot_of (entry_at s d (Z.of_nat i))) <$> seq 0 (Z.to_nat (blocks d)).

Lemma length_slots s d : length (slots s d) = Z.to_nat (blocks d).
Proof. unfold slots. by rewrite length_fmap, length_seq. Qed.

Lemma lookup_slots s d i : 0 <= i < blocks d -> slots s d !! Z.to_nat i = Some (slot_of (entry_at s d i)).
Proof. intros Hi. unfold slots. rewrite list_lookup_fmap, lookup_seq_lt by lia. cbn. do 3 f_equal. lia. Qed.

Definition set_slot (i : nat) (v : option (list Z * Z)) (l : list (option (list Z * Z))) : list (option (list Z * Z)) :=
  if decide (i < length l)%nat then <[i := v]> l else l ++ [v].

(** Writing the entry of a slot. *)
Lemma wrote_slots s d s' d' i n name : 0 <= i <= blocks d -> is_u32 n -> (n <> 0 -> is_name name) ->
  wrote s d s' d' (i * SFS_BLKSIZE) (entry_bytes (entry_for n name)) -> blocks d' = Z.max (blocks d) (i + 1) -> slots s' d' = set_slot (Z.to_nat i) (slot_for n name) (slots s d).
Proof.
  intros Hi Hn Hnm W Eb. pose proof (entry_length n name Hnm) as Le. set (l := entry_bytes (entry_for n name)) in *. unfold sizeof_entry in Le.
  assert (Hin : slot_of (entry_at s' d' i) = slot_for n name).
  { rewrite <- entry_roundtrip by done. fold l. unfold entry_at. do 3 f_equal. apply list_eq. intros k. destruct (decide (k < Z.to_nat sizeof_entry)%nat) as [Hk|Hk].
    - rewrite lookup_fbytes by done. unfold sizeof_entry in Hk. rewrite (o_bytes _ _ _ _ _ _ W) by (unfold SFS_BLKSIZE; lia).
      rewrite <- (over_in l (i * SFS_BLKSIZE) _ (before s d (i * SFS_BLKSIZE + Z.of_nat k))) by lia. f_equal. lia.
    - rewrite !lookup_ge_None_2; [done|rewrite Le; unfold sizeof_entry in Hk; lia|rewrite length_fbytes; lia]. }
  assert (Hout : forall j, 0 <= j < blocks d -> j <> i -> slot_of (entry_at s' d' j) = slot_of (entry_at s d j)).
  { intros j Hj Hji. unfold entry_at. do 3 f_equal. unfold fbytes. apply list_fmap_ext. intros m k Hk. apply lookup_seq in Hk as [-> Hk]. unfold sizeof_entry in Hk.
    rewrite (o_bytes _ _ _ _ _ _ W) by (unfold SFS_BLKSIZE in *; lia). rewrite over_out by (unfold SFS_BLKSIZE in *; lia). unfold before. by rewrite (proj2 (Z.ltb_lt _ _)) by (unfold SFS_BLKSIZE; lia). }
  apply list_eq. intros k. unfold set_slot. rewrite length_slots. destruct (decide (k < Z.to_nat (blocks d'))%nat) as [Hk|Hk].
  - replace k with (Z.to_nat (Z.of_nat k)) by lia. rewrite lookup_slots by lia. destruct (decide (Z.of_nat k = i)) as [Ek|Ek].
    + rewrite Ek, Hin. case_decide; [rewrite list_lookup_insert_eq by (rewrite length_slots; lia); done|]. rewrite lookup_app_r by (rewrite length_slots; lia). rewrite length_slots.
      by replace (Z.to_nat i - Z.to_nat (blocks d))%nat with 0%nat by lia.
    + rewrite Hout by lia. case_decide; [rewrite list_lookup_insert_ne by lia|rewrite lookup_app_l by (rewrite length_slots; lia)]; by rewrite lookup_slots by lia.
  - rewrite !lookup_ge_None_2; [done| |rewrite length_slots; lia]. case_decide; [rewrite length_insert|rewrite length_app]; rewrite length_slots; cbn; lia.
Qed.

Lemma nil_slots s d s' d' pos : wrote s d s' d' pos [] -> blocks d' = blocks d -> slots s' d' = slots s d.
Proof.
  intros W Eb. unfold slots. rewrite Eb. apply list_fmap_ext. intros j i Hi. apply lookup_seq in Hi as [-> Hi]. f_equal. unfold entry_at. do 2 f_equal. unfold fbytes.
  apply list_fmap_ext. intros m k Hk. apply lookup_seq in Hk as [-> Hk]. unfold sizeof_entry in Hk. rewrite (o_bytes _ _ _ _ _ _ W) by (unfold SFS_BLKSIZE in *; lia).
  rewrite over_out by (cbn; unfold SFS_BLKSIZE in *; lia). unfold before. by rewrite (proj2 (Z.ltb_lt _ _)) by (unfold SFS_BLKSIZE; lia).
Qed.

(** ** The calls on entries *)

(** A directory whose blocks are in order, while memory is to be had. *)
Record dir_ok (s : sfs_fs) (d : sfs_disk_inode) : Prop := {
  do_file : file_ok s d;
  do_type : type d = SFS_TYPE_DIR;
  do_mem : mem_results s = []
}.

Lemma mem_run s : mem_results s = [] -> kmalloc s = Ret (true, s).
Proof. intros H. unfold kmalloc. by rewrite bind_get, H. Qed.

Lemma dirent_read_run s a x i : fs_ok s -> nodes s !! a = Some x -> dir_ok s (din x) -> 0 <= i < blocks (din x) ->
  sfs_dirent_read_nolock a i s = Ret ((0, entry_at s (din x) i), s).
Proof.
  intros F Hx D Hi. pose proof (do_file _ _ D) as K. pose proof (data_used s (din x) i K Hi) as Hu. unfold sfs_dirent_read_nolock, assert_dir_slot.
  erewrite bind_step; [|rewrite (bind_step _ _ _ _ _ (get_node_run a x s Hx)), (do_type _ _ D), (proj2 (Z.leb_le 0 i)), (proj2 (Z.ltb_lt i _)) by lia; reflexivity].
  rewrite (bind_step _ _ _ _ _ (load_there s a x i F Hx K Hi)). cbn [negb Z.eqb]. rewrite (bind_step _ _ _ _ _ (assert_inuse_run s _ F Hu)).
  rewrite (bind_step _ _ _ _ _ (rbuf_run s sizeof_entry _ 0 F (proj1 Hu) ltac:(done) ltac:(done))). cbn [negb Z.eqb].
  rewrite (block_bytes s (din x) i 0 sizeof_entry F K Hi) by done. by rewrite Z.add_0_r.
Qed.

(** The loop from the slot [i] on. *)
Lemma slot_loop_run n : forall s a x name i e, fs_ok s -> nodes s !! a = Some x -> dir_ok s (din x) -> 0 <= i -> i + Z.of_nat n = blocks (din x) ->
  (exists j m e', i <= j < blocks (din x) /\ slots s (din x) !! Z.to_nat j = Some (Some (name, m)) /\ search_loop n a name i e s = Ret ((0, mk_found m j e'), s)) \/
  (exists e', search_loop n a name i e s = Ret ((- E_NOENT, mk_found 0 0 e'), s) /\ (e' = e \/ (i <= e' < blocks (din x) /\ slots s (din x) !! Z.to_nat e' = Some None)) /\
     forall j m, i <= j -> slots s (din x) !! Z.to_nat j <> Some (Some (name, m))).
Proof.
  induction n as [|n IH]; intros s a x name i e F Hx D Hi Hn; cbn [search_loop].
  - right. exists e. split; [done|]. split; [by left|]. intros j m Hj. rewrite lookup_ge_None_2; [done|]. rewrite length_slots. lia.
  - assert (Hib : 0 <= i < blocks (din x)) by lia. rewrite (bind_step _ _ _ _ _ (dirent_read_run s a x i F Hx D Hib)). cbn [negb Z.eqb].
    pose proof (lookup_slots s (din x) i Hib) as Es. unfold slot_of in Es.
    assert (Hnext : forall e0, (exists e', search_loop n a name (i + 1) e0 s = Ret ((- E_NOENT, mk_found 0 0 e'), s) /\ (e' = e0 \/ (i + 1 <= e' < blocks (din x) /\ slots s (din x) !! Z.to_nat e' = Some None)) /\
       forall j m, i + 1 <= j -> slots s (din x) !! Z.to_nat j <> Some (Some (name, m))) -> (forall m, slots s (din x) !! Z.to_nat i <> Some (Some (name, m))) ->
       (e0 = e \/ (e0 = i /\ slots s (din x) !! Z.to_nat i = Some None)) ->
       exists e', search_loop n a name (i + 1) e0 s = Ret ((- E_NOENT, mk_found 0 0 e'), s) /\ (e' = e \/ (i <= e' < blocks (din x) /\ slots s (din x) !! Z.to_nat e' = Some None)) /\
         forall j m, i <= j -> slots s (din x) !! Z.to_nat j <> Some (Some (name, m))).
    { intros e0 (e' & Hr & He & Hno) Hi0 He0. exists e'. split; [done|]. split.
      - destruct He as [->|[? ?]]; [|right; split; [lia|done]]. destruct He0 as [->|[-> ?]]; [by left|right; split; [lia|done]].
      - intros j m Hj. destruct (decide (j = i)) as [->|]; [apply Hi0|apply Hno; lia]. }
    destruct (Z.eqb_spec (ent_ino (entry_at s (din x) i)) 0) as [E0|E0].
    + destruct (IH s a x name (i + 1) i F Hx D) as [(j & m & e' & Hj & Hs & Hr)|H]; [lia|lia|left; exists j, m, e'; split; [lia|done]|]. right. apply Hnext; [done|intros m; congruence|by right].
    + case_bool_decide as En.
      * left. exists i, (ent_ino (entry_at s (din x) i)), e. split; [lia|]. split; [rewrite Es; by rewrite En|done].
      * destruct (IH s a x name (i + 1) e F Hx D) as [(j & m & e' & Hj & Hs & Hr)|H]; [lia|lia|left; exists j, m, e'; split; [lia|done]|].
        right. apply Hnext; [done| |by left]. intros m. rewrite Es. intros [= E _]. by apply En.
Qed.

(** The search: a slot with the name, or none has it and a slot is free or next. *)
Lemma slot_search_run s a x name : fs_ok s -> nodes s !! a = Some x -> dir_ok s (din x) -> is_name name ->
  (exists j m e, 0 <= j < blocks (din x) /\ slots s (din x) !! Z.to_nat j = Some (Some (name, m)) /\ sfs_dirent_search_nolock a name s = Ret ((0, mk_found m j e), s)) \/
  (exists e, sfs_dirent_search_nolock a name s = Ret ((- E_NOENT, mk_found 0 0 e), s) /\ (e = blocks (din x) \/ (0 <= e < blocks (din x) /\ slots s (din x) !! Z.to_nat e = Some None)) /\
     forall m, Some (name, m) ∉ slots s (din x)).
Proof.
  intros F Hx D [_ Hl]. unfold sfs_dirent_search_nolock. rewrite assert_true by (apply Z.leb_le; unfold SFS_MAX_FNAME_LEN; lia). rewrite (bind_step _ _ _ _ _ (mem_run s (do_mem _ _ D))). cbn [negb].
  rewrite (bind_step _ _ _ _ _ (get_node_run a x s Hx)). pose proof (k_blocks _ _ (do_file _ _ D)).
  destruct (slot_loop_run (Z.to_nat (blocks (din x))) s a x name 0 (blocks (din x)) F Hx D) as [?|(e & Hr & He & Hno)]; [lia|lia|by left|right].
  exists e. split; [done|]. split; [done|]. intros m Hm. apply list_elem_of_lookup in Hm as [k Hk]. apply (Hno (Z.of_nat k) m); [lia|]. by rewrite Nat2Z.id.
Qed.

(** The outcome of writing a slot. *)
Record slotted (s : sfs_fs) (a : Z) (x : inode) (s' : sfs_fs) (x' : inode) : Prop := {
  sl_nodes : nodes s' = <[a := x']> (nodes s);
  sl_same : same_node x x';
  sl_step : fstep s (din x) s' (din x');
  sl_info0 : info0 (din x') = info0 (din x)
}.

Lemma fstep_dir s d s' d' : fstep s d s' d' -> dir_ok s d -> dir_ok s' d'.
Proof.
  intros St D. split; [apply St|rewrite (fstep_type _ _ _ _ St); apply D|]. pose proof (w_rest _ _ _ _ St) as E. injection E as _ _ _ _ E. rewrite E. apply D.
Qed.

Lemma dirent_write_run s a x i n name : fs_ok s -> nodes s !! a = Some x -> dir_ok s (din x) -> 0 <= i <= blocks (din x) -> i < MAX_BLOCKS -> is_u32 n -> (n <> 0 -> is_name name) ->
  exists r s' x', sfs_dirent_write_nolock a i n name s = Ret (r, s') /\ slotted s a x s' x' /\
    ((r = 0 /\ slots s' (din x') = set_slot (Z.to_nat i) (slot_for n name) (slots s (din x))) \/ (r = - E_NO_MEM /\ slots s' (din x') = slots s (din x))).
Proof.
  intros F Hx D Hi Hm Hn Hnm. pose proof (do_file _ _ D) as K. unfold sfs_dirent_write_nolock, assert_dir_slot.
  erewrite bind_step; [|rewrite (bind_step _ _ _ _ _ (get_node_run a x s Hx)), (do_type _ _ D), (proj2 (Z.leb_le 0 i)), (proj2 (Z.leb_le i _)) by lia; reflexivity].
  rewrite (bind_step _ _ _ _ _ (mem_run s (do_mem _ _ D))). cbn [negb].
  erewrite bind_step; [|destruct (Z.eqb_spec n 0) as [En|En]; cbn [negb]; [reflexivity|]; rewrite (proj2 (Z.leb_le _ SFS_MAX_FNAME_LEN)) by (destruct (Hnm En) as [_ ?]; unfold SFS_MAX_FNAME_LEN; lia); reflexivity].
  fold (entry_for n name). set (l := entry_bytes (entry_for n name)). pose proof (entry_length n name Hnm) as Le. fold l in Le. unfold sizeof_entry in Le.
  destruct (load_run s a x i (i * SFS_BLKSIZE) F Hx K Hi Hm) as (r & b & s1 & x1 & Hr & En & Sx & W & Hp). rewrite (bind_step _ _ _ _ _ Hr).
  destruct Hp as [(-> & -> & Hlt & Hd1)|(-> & Hbk & Hd1)].
  - cbn [negb Z.eqb]. assert (F1 : fs_ok s1) by apply W. assert (K1 : file_ok s1 (din x1)) by apply W. pose proof (data_used s1 (din x1) i K1 ltac:(lia)) as Hu.
    rewrite (bind_step _ _ _ _ _ (assert_inuse_run s1 _ F1 Hu)). pose proof (entry_byte n name Hnm) as Hby. fold l in Hby.
    destruct (wbuf_run s1 l (bmap s1 (din x1) i) 0 F1 (proj1 Hu)) as [Hw F2]; [done|rewrite Le; done|done|]. fold l. rewrite Hw.
    assert (P : piece s a x (written (bmap s1 (din x1) i) (splice (blk s1 (bmap s1 (din x1) i)) 0 l) s1) x1 (i * SFS_BLKSIZE + 0) l).
    { apply (block_piece s a x s1 x1); rewrite ?Z.add_0_r, ?Le; try done; try lia. }
    rewrite Z.add_0_r in P. eexists 0, _, x1. split; [reflexivity|]. split; [split; apply P|left; split; [done|]].
    apply wrote_slots; try done; [apply P|]. destruct Hd1 as [Ed|[-> Eb]]; [rewrite Ed in Hlt |- *; lia|lia].
  - change (negb (- E_NO_MEM =? 0)) with true. cbv iota. exists (- E_NO_MEM), s1, x1. split; [done|]. split; [split; [done|done|apply W|apply W]|]. right. split; [done|]. by eapply nil_slots.
Qed.

(** A slot that has its block is always written. *)
Lemma write_there s a x i n name s' : fs_ok s -> nodes s !! a = Some x -> dir_ok s (din x) -> 0 <= i < blocks (din x) -> (n <> 0 -> is_name name) ->
  sfs_dirent_write_nolock a i n name s <> Ret (- E_NO_MEM, s').
Proof.
  intros F Hx D Hi Hnm. pose proof (do_file _ _ D) as K. pose proof (data_used s (din x) i K Hi) as Hu. unfold sfs_dirent_write_nolock, assert_dir_slot.
  erewrite bind_step; [|rewrite (bind_step _ _ _ _ _ (get_node_run a x s Hx)), (do_type _ _ D), (proj2 (Z.leb_le 0 i)), (proj2 (Z.leb_le i _)) by lia; reflexivity].
  rewrite (bind_step _ _ _ _ _ (mem_run s (do_mem _ _ D))). cbn [negb].
  erewrite bind_step; [|destruct (Z.eqb_spec n 0) as [En|En]; cbn [negb]; [reflexivity|]; rewrite (proj2 (Z.leb_le _ SFS_MAX_FNAME_LEN)) by (destruct (Hnm En) as [_ ?]; unfold SFS_MAX_FNAME_LEN; lia); reflexivity].
  rewrite (bind_step _ _ _ _ _ (load_there s a x i F Hx K Hi)). cbn [negb Z.eqb]. rewrite (bind_step _ _ _ _ _ (assert_inuse_run s _ F Hu)). fold (entry_for n name).
  destruct (wbuf_run s (entry_bytes (entry_for n name)) (bmap s (din x) i) 0 F (proj1 Hu)) as [Hw _]; [done|rewrite entry_length by done; done|by apply entry_byte|]. rewrite Hw. by intros [= E _].
Qed.
End SfsEntry.
