(* ===== verification/SfsLink.v ===== *)
(** * The simple file system: directories as finite maps

    [sfs_link_nolock], [sfs_rename1_nolock], [sfs_dirent_unlink_nolock] and
    [sfs_lookup_once] against the map from names to inode numbers. *)

From S2P Require Import Prelude Bitmap CString SfsDisk Sfs SfsDir SfsInv SfsBmap SfsMake SfsFile SfsWrite SfsIo SfsNode SfsEntry.
Import SfsDisk Sfs SfsDir SfsInv SfsBmap SfsGet SfsGrow SfsMake SfsFile SfsWrite SfsRead SfsIo SfsNode SfsEntry.
Open Scope Z_scope.

Module SfsLink.

Abbreviation slot_list := (list (option (list Z * Z))).

(** ** Slots and the map *)

Definition pairs (l : slot_list) : list (list Z * Z) := omap id l.
Definition names (l : slot_list) : list (list Z) := (pairs l).*1.
Definition to_map (l : slot_list) : gmap (list Z) Z := list_to_map (pairs l).

Definition opt_list (o : option (list Z * Z)) : list (list Z * Z) := match o with Some p => [p] | None => [] end.

Lemma pairs_app l k : pairs (l ++ k) = pairs l ++ pairs k.
Proof. apply omap_app. Qed.

Lemma pairs_one o : pairs [o] = opt_list o.
Proof. by destruct o. Qed.

(** A slot is replaced, or added at the end. *)
Lemma pairs_insert l i o v : l !! i = Some o -> exists r, pairs l ≡ₚ opt_list o ++ r /\ pairs (set_slot i v l) ≡ₚ opt_list v ++ r.
Proof.
  intros Hi. pose proof (lookup_lt_Some _ _ _ Hi) as Hl. exists (pairs (take i l) ++ pairs (drop (S i) l)). unfold set_slot. rewrite decide_True by done.
  rewrite insert_take_drop by done. rewrite <- (take_drop_middle l i o Hi) at 1. change (?x :: ?k) with ([x] ++ k). rewrite !pairs_app, !pairs_one.
  split; rewrite !app_assoc; apply Permutation_app_tail, Permutation_app_comm.
Qed.

Lemma pairs_append l v : pairs (set_slot (length l) v l) ≡ₚ opt_list v ++ pairs l.
Proof. unfold set_slot. rewrite decide_False by lia. rewrite pairs_app, pairs_one. apply Permutation_app_comm. Qed.

Lemma names_perm l k : pairs l ≡ₚ k -> names l ≡ₚ k.*1.
Proof. intros E. unfold names. by rewrite E. Qed.

Lemma to_map_perm l k : NoDup (names l) -> pairs l ≡ₚ k -> to_map l = list_to_map k.
Proof. intros Hn E. unfold to_map. by apply list_to_map_proper. Qed.

Lemma pairs_elem l p : p ∈ pairs l <-> Some p ∈ l.
Proof. unfold pairs. rewrite list_elem_of_omap. split; [intros (o & Ho & E); by rewrite <- E|intros H; by exists (Some p)]. Qed.

Lemma to_map_lookup l name n : NoDup (names l) -> to_map l !! name = Some n <-> Some (name, n) ∈ l.
Proof. intros Hn. unfold to_map. rewrite <- elem_of_list_to_map by done. apply pairs_elem. Qed.

Lemma to_map_none l name : to_map l !! name = None <-> forall n, Some (name, n) ∉ l.
Proof.
  unfold to_map. rewrite <- not_elem_of_list_to_map. rewrite list_elem_of_fmap. split.
  - intros H n Hn. apply H. exists (name, n). split; [done|]. by apply pairs_elem.
  - intros H ([nm n] & E & Hp). cbn in E. subst nm. apply (H n). by apply pairs_elem.
Qed.

(** A name is added in a free slot or at the end. *)
Lemma slot_add l i name n : NoDup (names l) -> i = length l \/ l !! i = Some None -> (forall m, Some (name, m) ∉ l) ->
  NoDup (names (set_slot i (Some (name, n)) l)) /\ to_map (set_slot i (Some (name, n)) l) = <[name := n]> (to_map l).
Proof.
  intros Hn Hi Hno. assert (E : pairs (set_slot i (Some (name, n)) l) ≡ₚ (name, n) :: pairs l).
  { destruct Hi as [->|Hi]; [apply pairs_append|]. destruct (pairs_insert l i None (Some (name, n)) Hi) as (r & E1 & E2). cbn [opt_list app] in *. by rewrite E2, E1. }
  assert (Hd : NoDup (names (set_slot i (Some (name, n)) l))).
  { rewrite (names_perm _ _ E). cbn. constructor; [|done]. intros H. apply list_elem_of_fmap in H as ([nm m] & Ex & Hp). cbn in Ex. subst nm. apply (Hno m). by apply pairs_elem. }
  split; [done|]. by rewrite (to_map_perm _ _ Hd E).
Qed.

(** A slot is emptied. *)
Lemma slot_del l i name n : NoDup (names l) -> l !! i = Some (Some (name, n)) -> NoDup (names (set_slot i None l)) /\ to_map (set_slot i None l) = delete name (to_map l).
Proof.
  intros Hn Hi. destruct (pairs_insert l i (Some (name, n)) None Hi) as (r & E1 & E2). cbn [opt_list app] in *. pose proof Hn as Hn'. rewrite (names_perm _ _ E1) in Hn'. cbn in Hn'. apply NoDup_cons in Hn' as [Hx Hr].
  assert (Hd : NoDup (names (set_slot i None l))) by (rewrite (names_perm _ _ E2); done). split; [done|].
  rewrite (to_map_perm _ _ Hd E2), (to_map_perm _ _ Hn E1). cbn. rewrite delete_insert_eq, delete_id; [done|]. by apply not_elem_of_list_to_map.
Qed.

(** A slot gets another name. *)
Lemma slot_rename l i name n name' : NoDup (names l) -> l !! i = Some (Some (name, n)) -> (forall m, Some (name', m) ∉ l) ->
  NoDup (names (set_slot i (Some (name', n)) l)) /\ to_map (set_slot i (Some (name', n)) l) = <[name' := n]> (delete name (to_map l)).
Proof.
  intros Hn Hi Hno. destruct (pairs_insert l i (Some (name, n)) (Some (name', n)) Hi) as (r & E1 & E2). cbn [opt_list app] in *.
  pose proof Hn as Hn'. rewrite (names_perm _ _ E1) in Hn'. cbn in Hn'. apply NoDup_cons in Hn' as [Hx Hr].
  assert (Hd : NoDup (names (set_slot i (Some (name', n)) l))).
  { rewrite (names_perm _ _ E2). cbn. constructor; [|done]. intros H. apply list_elem_of_fmap in H as ([nm m] & Ex & Hp). cbn in Ex. subst nm. apply (Hno m). apply pairs_elem. rewrite E1. by right. }
  split; [done|]. rewrite (to_map_perm _ _ Hd E2), (to_map_perm _ _ Hn E1). cbn. rewrite delete_insert_eq, delete_id; [done|]. by apply not_elem_of_list_to_map.
Qed.

(** ** The operations *)

Definition dmap (s : sfs_fs) (d : sfs_disk_inode) : gmap (list Z) Z := to_map (slots s d).

(** A directory where every name stands once. *)
Record directory (s : sfs_fs) (d : sfs_disk_inode) : Prop := { dr_ok : dir_ok s d; dr_names : NoDup (names (slots s d)) }.

(** The search and the map. *)
Lemma search_map s a x name : fs_ok s -> nodes s !! a = Some x -> directory s (din x) -> is_name name ->
  (exists j m e, 0 <= j < blocks (din x) /\ slots s (din x) !! Z.to_nat j = Some (Some (name, m)) /\ dmap s (din x) !! name = Some m /\ sfs_dirent_search_nolock a name s = Ret ((0, mk_found m j e), s)) \/
  (exists e, sfs_dirent_search_nolock a name s = Ret ((- E_NOENT, mk_found 0 0 e), s) /\ 0 <= e <= blocks (din x) /\ (Z.to_nat e = length (slots s (din x)) \/ slots s (din x) !! Z.to_nat e = Some None) /\
     dmap s (din x) !! name = None /\ forall m, Some (name, m) ∉ slots s (din x)).
Proof.
  intros F Hx [D N] Hnm. pose proof (k_blocks _ _ (do_file _ _ D)). destruct (slot_search_run s a x name F Hx D Hnm) as [(j & m & e & Hj & Hs & Hr)|(e & Hr & He & Hno)].
  - left. exists j, m, e. split; [done|]. split; [done|]. split; [|done]. unfold dmap. apply to_map_lookup; [done|]. apply list_elem_of_lookup. by exists (Z.to_nat j).
  - right. exists e. split; [done|]. split; [destruct He as [->|[? _]]; lia|]. split; [rewrite length_slots; destruct He as [->|[_ ?]]; [by left|by right]|]. split; [|done]. by apply to_map_none.
Qed.

(** One count more, or less, in the two inodes. *)
Definition entry_counted (k : Z) (x : inode) : inode := upd_din (fun d => set_info0 (u32 (info0 d + k)) d) (set_dirty true x).
Definition link_counted (k : Z) (y : inode) : inode := upd_din (fun d => set_nlinks (u16 (nlinks d + k)) d) (set_dirty true y).

Lemma count_run s a x l y k : a <> l -> nodes s !! a = Some x -> nodes s !! l = Some y ->
  count_link a l k s = Ret (tt, at_node l (link_counted k y) (at_node a (entry_counted k x) s)).
Proof.
  intros Hal Hx Hy. unfold count_link. rewrite (bind_step _ _ _ _ _ (set_node_run _ a x s Hx)). rewrite (bind_step _ _ _ _ _ (set_node_run _ a _ _ (lookup_at_node a _ s))), at_node_twice.
  set (s1 := at_node a _ s). assert (Hy1 : nodes s1 !! l = Some y) by (cbn; by rewrite lookup_insert_ne).
  rewrite (bind_step _ _ _ _ _ (set_node_run _ l y s1 Hy1)). rewrite (set_node_run _ l _ _ (lookup_at_node l _ s1)), at_node_twice. done.
Qed.

(** The state after a change of one directory entry and of the counts. *)
Record entered (s : sfs_fs) (a : Z) (x : inode) (l : Z) (y : inode) (k : Z) (s' : sfs_fs) (x' : inode) : Prop := {
  en_nodes : nodes s' = <[l := link_counted k y]> (<[a := x']> (nodes s));
  en_dir : directory s' (din x');
  en_step : fstep s (din x) s' (din x');
  en_count : info0 (din x') = u32 (info0 (din x) + k) /\ dirty x' = true
}.

Lemma slots_info0 s d n : slots s (set_info0 n d) = slots s d.
Proof. reflexivity. Qed.

Lemma slots_at_node a x s d : slots (at_node a x s) d = slots s d.
Proof. reflexivity. Qed.

(** The slot is written; then the counts. *)
Lemma entered_run s a x s1 x1 l y k : a <> l -> nodes s !! l = Some y -> slotted s a x s1 x1 -> dir_ok s1 (din x1) -> NoDup (names (slots s1 (din x1))) ->
  exists s' x', count_link a l k s1 = Ret (tt, s') /\ entered s a x l y k s' x' /\ slots s' (din x') = slots s1 (din x1).
Proof.
  intros Hal Hy S1 D1 N1. assert (Hx1 : nodes s1 !! a = Some x1) by (rewrite (sl_nodes _ _ _ _ _ S1); apply lookup_insert_eq).
  assert (Hy1 : nodes s1 !! l = Some y) by (rewrite (sl_nodes _ _ _ _ _ S1); by rewrite lookup_insert_ne). set (x2 := entry_counted k x1).
  exists (at_node l (link_counted k y) (at_node a x2 s1)), x2. split; [by apply count_run|]. split; [|done]. pose proof (sl_step _ _ _ _ _ S1) as St. destruct D1 as [K1 T1 M1]. split.
  - cbn. by rewrite (sl_nodes _ _ _ _ _ S1), insert_insert_eq.
  - split; [|done]. split; [|done|done]. apply info0_at_node, info0_at_node. by apply file_info0.
  - pose proof (size_fstep s (din x) s1 (din x1) a x2 (u32 (info0 (din x1) + k)) St) as S2. pose proof (size_fstep s (din x) _ _ l (link_counted k y) (u32 (info0 (din x1) + k)) S2) as S3. exact S3.
  - cbn. rewrite (sl_info0 _ _ _ _ _ S1). done.
Qed.

Lemma slot_for_name n name : n <> 0 -> slot_for n name = Some (name, n).
Proof. intros H. unfold slot_for. by rewrite (proj2 (Z.eqb_neq n 0)). Qed.

(** [sfs_link_nolock]: a name that is there stays; a new one is added, unless the disk is full. *)
Lemma link_run s a x l y name : fs_ok s -> nodes s !! a = Some x -> nodes s !! l = Some y -> a <> l -> directory s (din x) -> blocks (din x) < MAX_BLOCKS ->
  is_name name -> is_u32 (ino y) -> ino y <> 0 ->
  (exists m, dmap s (din x) !! name = Some m /\ sfs_link_nolock a l name s = Ret (- E_EXISTS, s)) \/
  (dmap s (din x) !! name = None /\ exists s' x',
    (sfs_link_nolock a l name s = Ret (0, s') /\ entered s a x l y 1 s' x' /\ dmap s' (din x') = <[name := ino y]> (dmap s (din x))) \/
    (sfs_link_nolock a l name s = Ret (- E_NO_MEM, s') /\ slotted s a x s' x' /\ dmap s' (din x') = dmap s (din x))).
Proof.
  intros F Hx Hy Hal Dr Hmx Hnm Hu Hn0. unfold sfs_link_nolock. destruct (search_map s a x name F Hx Dr Hnm) as [(j & m & e & _ & _ & Hd & Hr)|(e & Hr & He & Hsl & Hd & Hno)]; rewrite (bind_step _ _ _ _ _ Hr).
  - left. exists m. split; [done|]. reflexivity.
  - right. split; [done|]. change (negb (- E_NOENT =? - E_NOENT)) with false. cbv iota. cbn [f_empty]. unfold sfs_dirent_link_nolock. rewrite (bind_step _ _ _ _ _ (get_node_run l y s Hy)).
    destruct (dirent_write_run s a x e (ino y) name F Hx (dr_ok _ _ Dr) He ltac:(lia) Hu (fun _ => Hnm)) as (r & s1 & x1 & Hw & S1 & Hc). rewrite (bind_step _ _ _ _ _ Hw).
    pose proof (fstep_dir _ _ _ _ (sl_step _ _ _ _ _ S1) (dr_ok _ _ Dr)) as D1. destruct Hc as [[-> Es]|[-> Es]].
    + cbn [negb Z.eqb]. rewrite slot_for_name in Es by done. destruct (slot_add (slots s (din x)) (Z.to_nat e) name (ino y) (dr_names _ _ Dr) Hsl Hno) as [N1 E1]. rewrite <- Es in N1, E1.
      destruct (entered_run s a x s1 x1 l y 1 Hal Hy S1 D1 N1) as (s' & x' & Hcr & En & Esl). rewrite (bind_step _ _ _ _ _ Hcr). exists s', x'. left.
      split; [done|]. split; [done|]. unfold dmap. by rewrite Esl.
    + change (negb (- E_NO_MEM =? 0)) with true. cbv iota. exists s1, x1. right. split; [done|]. split; [done|]. unfold dmap. by rewrite Es.
Qed.

(** [sfs_dirent_unlink_nolock] of a slot that holds a name. *)
Lemma dirent_unlink_run s a x l y j name m : fs_ok s -> nodes s !! a = Some x -> nodes s !! l = Some y -> a <> l -> directory s (din x) ->
  0 <= j < blocks (din x) -> slots s (din x) !! Z.to_nat j = Some (Some (name, m)) -> info0 (din x) <> 0 -> nlinks (din y) <> 0 ->
  exists s' x', sfs_dirent_unlink_nolock a j l s = Ret (0, s') /\ entered s a x l y (-1) s' x' /\ dmap s' (din x') = delete name (dmap s (din x)).
Proof.
  intros F Hx Hy Hal Dr Hj Hs Hi Hl. pose proof (k_blocks _ _ (do_file _ _ (dr_ok _ _ Dr))). unfold sfs_dirent_unlink_nolock.
  destruct (dirent_write_run s a x j 0 [] F Hx (dr_ok _ _ Dr) ltac:(lia) ltac:(lia) ltac:(unfold is_u32; lia) ltac:(done)) as (r & s1 & x1 & Hw & S1 & Hc).
  pose proof (fstep_dir _ _ _ _ (sl_step _ _ _ _ _ S1) (dr_ok _ _ Dr)) as D1.
  assert (Hr : r = 0). { destruct Hc as [[-> _]|[-> _]]; [done|]. by destruct (write_there s a x j 0 [] s1 F Hx (dr_ok _ _ Dr) Hj (fun H => match H eq_refl with end)). }
  subst r. destruct Hc as [[_ Es]|[? _]]; [|done]. rewrite (bind_step _ _ _ _ _ Hw). cbn [negb Z.eqb]. change (slot_for 0 []) with (@None (list Z * Z)) in Es.
  destruct (slot_del (slots s (din x)) (Z.to_nat j) name m (dr_names _ _ Dr) Hs) as [N1 E1]. rewrite <- Es in N1, E1.
  assert (Hx1 : nodes s1 !! a = Some x1) by (rewrite (sl_nodes _ _ _ _ _ S1); apply lookup_insert_eq). assert (Hy1 : nodes s1 !! l = Some y) by (rewrite (sl_nodes _ _ _ _ _ S1); by rewrite lookup_insert_ne).
  rewrite (bind_step _ _ _ _ _ (get_node_run a x1 s1 Hx1)), (bind_step _ _ _ _ _ (get_node_run l y s1 Hy1)), (sl_info0 _ _ _ _ _ S1).
  rewrite assert_true by (by rewrite !(proj2 (Z.eqb_neq _ 0))). destruct (entered_run s a x s1 x1 l y (-1) Hal Hy S1 D1 N1) as (s' & x' & Hcr & En & Esl).
  rewrite (bind_step _ _ _ _ _ Hcr). exists s', x'. split; [done|]. split; [done|]. unfold dmap. by rewrite Esl.
Qed.

(** [sfs_rename1_nolock], within a directory. *)
Lemma rename1_run s a x name name' : fs_ok s -> nodes s !! a = Some x -> directory s (din x) -> is_name name -> is_name name' -> name <> name' ->
  (forall n m, dmap s (din x) !! n = Some m -> is_u32 m /\ m <> 0) ->
  (dmap s (din x) !! name = None /\ sfs_rename1_nolock a name name' s = Ret (- E_NOENT, s)) \/
  (exists m, dmap s (din x) !! name = Some m /\
    ((exists m', dmap s (din x) !! name' = Some m' /\ sfs_rename1_nolock a name name' s = Ret (- E_EXISTS, s)) \/
     (dmap s (din x) !! name' = None /\ exists s' x', sfs_rename1_nolock a name name' s = Ret (0, s') /\ slotted s a x s' x' /\ directory s' (din x') /\
        dmap s' (din x') = <[name' := m]> (delete name (dmap s (din x)))))).
Proof.
  intros F Hx Dr Hnm Hnm' Hne Hino. pose proof (k_blocks _ _ (do_file _ _ (dr_ok _ _ Dr))). unfold sfs_rename1_nolock. rewrite bool_decide_eq_false_2 by done.
  destruct (search_map s a x name F Hx Dr Hnm) as [(j & m & e & Hj & Hs & Hd & Hr)|(e & Hr & He & Hsl & Hd & Hno)]; rewrite (bind_step _ _ _ _ _ Hr); [|by left].
  right. exists m. split; [done|]. cbn [negb Z.eqb]. destruct (search_map s a x name' F Hx Dr Hnm') as [(j' & m' & e' & Hj' & Hs' & Hd' & Hr')|(e' & Hr' & He' & Hsl' & Hd' & Hno')]; rewrite (bind_step _ _ _ _ _ Hr').
  - left. exists m'. split; [done|]. reflexivity.
  - right. split; [done|]. change (negb (- E_NOENT =? - E_NOENT)) with false. cbv iota. cbn [f_slot f_ino]. destruct (Hino name m Hd) as [Hu Hm0].
    destruct (dirent_write_run s a x j m name' F Hx (dr_ok _ _ Dr) ltac:(lia) ltac:(lia) Hu (fun _ => Hnm')) as (r & s1 & x1 & Hw & S1 & Hc).
    assert (Hr0 : r = 0). { destruct Hc as [[-> _]|[-> _]]; [done|]. by destruct (write_there s a x j m name' s1 F Hx (dr_ok _ _ Dr) Hj (fun _ => Hnm')). }
    subst r. destruct Hc as [[_ Es]|[? _]]; [|done]. rewrite slot_for_name in Es by done. destruct (slot_rename (slots s (din x)) (Z.to_nat j) name m name' (dr_names _ _ Dr) Hs Hno') as [N1 E1].
    rewrite <- Es in N1, E1. exists s1, x1. split; [done|]. split; [done|]. split; [split; [eapply fstep_dir; [apply S1|apply Dr]|done]|]. exact E1.
Qed.
End SfsLink.
