(* ===== verification/SfsTotal.v ===== *)
(** * The simple file system: walking a path

    The loops over paths have fuel; each round takes at least one byte off the path, and
    nothing that a round calls has fuel to run out of ([SfsTotal]).  On inodes in memory
    the walk is the one along the directory maps, component by component ([SfsPath]). *)

From S2P Require Import Prelude Bitmap CString SfsDisk Sfs SfsDir SfsInv SfsBmap SfsMake SfsFile SfsWrite SfsIo SfsNode SfsEntry SfsLink.
Import SfsDisk Sfs SfsDir.
Open Scope Z_scope.

Module SfsTotal.

(** [m] returns or stops the machine. *)
Definition ends {S A} (m : M S A) : Prop := forall s, m s <> OutOfFuel.

Create HintDb ends.

Lemma ends_bind {S A B} (m : M S A) (k : A -> M S B) : ends m -> (forall a, ends (k a)) -> ends (bind m k).
Proof. intros Hm Hk s. unfold bind. specialize (Hm s). destruct (m s) as [[a s']| |]; [apply Hk|done|done]. Qed.

Lemma ends_ret {S A} (a : A) : ends (S := S) (ret a).
Proof. done. Qed.

Lemma ends_get {S} : ends (S := S) get.
Proof. done. Qed.

Lemma ends_modify {S} (f : S -> S) : ends (modify f).
Proof. done. Qed.

Lemma ends_panic {S A} : ends (S := S) (A := A) panic.
Proof. done. Qed.

Lemma ends_assert {S} b : ends (S := S) (assert b).
Proof. by destruct b. Qed.

Lemma ends_deref {S A} (o : option A) : ends (S := S) (deref o).
Proof. by destruct o. Qed.

Lemma ends_on_freemap {A} (m : M Bitmap.bitmap A) : ends m -> ends (on_freemap m).
Proof. intros H s. unfold on_freemap. specialize (H (freemap s)). by destruct (m (freemap s)) as [[a b]| |]. Qed.

#[export] Hint Resolve ends_ret ends_get ends_modify ends_panic ends_assert ends_deref ends_on_freemap : ends.

Ltac ends :=
  repeat match goal with
  | |- ends (bind _ _) => apply ends_bind; [|intros ?]
  | |- ends (if ?b then _ else _) => destruct b
  | |- ends (match ?x with _ => _ end) => destruct x
  | |- ends (let _ := _ in _) => cbv zeta
  | |- ends _ => solve [eauto 2 with ends]
  end.

(** Unfold a definition and go through its code. *)
Tactic Notation "ends_in" reference(f) := unfold f; cbv zeta; ends.

(** ** The calls, from the bitmap up *)

Lemma ends_get_word i : ends (Bitmap.get_word i).
Proof. ends_in Bitmap.get_word. Qed.
#[export] Hint Resolve ends_get_word : ends.

Lemma ends_bitmap_translate i : ends (Bitmap.bitmap_translate i).
Proof. ends_in Bitmap.bitmap_translate. Qed.
#[export] Hint Resolve ends_bitmap_translate : ends.

Lemma ends_bitmap_test i : ends (Bitmap.bitmap_test i).
Proof. ends_in Bitmap.bitmap_test. Qed.
#[export] Hint Resolve ends_bitmap_test : ends.

Lemma ends_bitmap_free i : ends (Bitmap.bitmap_free i).
Proof. ends_in Bitmap.bitmap_free. Qed.
#[export] Hint Resolve ends_bitmap_free : ends.

Lemma ends_alloc_loop n : forall i, ends (Bitmap.alloc_loop n i).
Proof. induction n as [|n IH]; intros i; cbn [Bitmap.alloc_loop]; cbv zeta; ends. Qed.
#[export] Hint Resolve ends_alloc_loop : ends.

Lemma ends_bitmap_alloc : ends Bitmap.bitmap_alloc.
Proof. ends_in Bitmap.bitmap_alloc. Qed.
#[export] Hint Resolve ends_bitmap_alloc : ends.

Lemma ends_io_result : ends io_result.
Proof. ends_in io_result. Qed.
#[export] Hint Resolve ends_io_result : ends.

Lemma ends_kmalloc : ends kmalloc.
Proof. ends_in kmalloc. Qed.
#[export] Hint Resolve ends_kmalloc : ends.

Lemma ends_sfs_rwblock_nolock buf b w c : ends (sfs_rwblock_nolock buf b w c).
Proof. ends_in sfs_rwblock_nolock. Qed.
#[export] Hint Resolve ends_sfs_rwblock_nolock : ends.

Lemma ends_sfs_rbuf n b o : ends (sfs_rbuf n b o).
Proof. ends_in sfs_rbuf. Qed.
#[export] Hint Resolve ends_sfs_rbuf : ends.

Lemma ends_sfs_wbuf l b o : ends (sfs_wbuf l b o).
Proof. ends_in sfs_wbuf. Qed.
#[export] Hint Resolve ends_sfs_wbuf : ends.

Lemma ends_clear_loop n : forall b, ends (clear_loop n b).
Proof. induction n as [|n IH]; intros b; cbn [clear_loop]; ends. Qed.
#[export] Hint Resolve ends_clear_loop : ends.

Lemma ends_sfs_clear_block b n : ends (sfs_clear_block b n).
Proof. ends_in sfs_clear_block. Qed.
#[export] Hint Resolve ends_sfs_clear_block : ends.

Lemma ends_get_node a : ends (get_node a).
Proof. ends_in get_node. Qed.
#[export] Hint Resolve ends_get_node : ends.

Lemma ends_set_node f a : ends (set_node f a).
Proof. ends_in set_node. Qed.
#[export] Hint Resolve ends_set_node : ends.

Lemma ends_trylock_sin a : ends (trylock_sin a).
Proof. ends_in trylock_sin. Qed.
#[export] Hint Resolve ends_trylock_sin : ends.

Lemma ends_sfs_get_ops t : ends (sfs_get_ops t).
Proof. ends_in sfs_get_ops. Qed.
#[export] Hint Resolve ends_sfs_get_ops : ends.

Lemma ends_sfs_set_links a : ends (sfs_set_links a).
Proof. ends_in sfs_set_links. Qed.
#[export] Hint Resolve ends_sfs_set_links : ends.

Lemma ends_sfs_remove_links a : ends (sfs_remove_links a).
Proof. ends_in sfs_remove_links. Qed.
#[export] Hint Resolve ends_sfs_remove_links : ends.

Lemma ends_sfs_block_inuse b : ends (sfs_block_inuse b).
Proof. ends_in sfs_block_inuse. Qed.
#[export] Hint Resolve ends_sfs_block_inuse : ends.

Lemma ends_assert_inuse b : ends (assert_inuse b).
Proof. ends_in assert_inuse. Qed.
#[export] Hint Resolve ends_assert_inuse : ends.

Lemma ends_sfs_block_alloc : ends sfs_block_alloc.
Proof. ends_in sfs_block_alloc. Qed.
#[export] Hint Resolve ends_sfs_block_alloc : ends.

Lemma ends_sfs_block_free b : ends (sfs_block_free b).
Proof. ends_in sfs_block_free. Qed.
#[export] Hint Resolve ends_sfs_block_free : ends.

Lemma ends_sfs_create_inode d n : ends (sfs_create_inode d n).
Proof. ends_in sfs_create_inode. Qed.
#[export] Hint Resolve ends_sfs_create_inode : ends.

Lemma ends_lookup_loop l n : ends (lookup_loop l n).
Proof. induction l as [|a l IH]; cbn [lookup_loop]; cbv zeta; ends. Qed.
#[export] Hint Resolve ends_lookup_loop : ends.

Lemma ends_lookup_sfs_nolock n : ends (lookup_sfs_nolock n).
Proof. ends_in lookup_sfs_nolock. Qed.
#[export] Hint Resolve ends_lookup_sfs_nolock : ends.

Lemma ends_sfs_load_inode n : ends (sfs_load_inode n).
Proof. ends_in sfs_load_inode. Qed.
#[export] Hint Resolve ends_sfs_load_inode : ends.

Lemma ends_sfs_bmap_get_sub_nolock e i c : ends (sfs_bmap_get_sub_nolock e i c).
Proof. ends_in sfs_bmap_get_sub_nolock. Qed.
#[export] Hint Resolve ends_sfs_bmap_get_sub_nolock : ends.

Lemma ends_bmap_out b : ends (bmap_out b).
Proof. ends_in bmap_out. Qed.
#[export] Hint Resolve ends_bmap_out : ends.

Lemma ends_sfs_bmap_get_nolock a i c : ends (sfs_bmap_get_nolock a i c).
Proof. ends_in sfs_bmap_get_nolock. Qed.
#[export] Hint Resolve ends_sfs_bmap_get_nolock : ends.

Lemma ends_sfs_bmap_free_sub_nolock e i : ends (sfs_bmap_free_sub_nolock e i).
Proof. ends_in sfs_bmap_free_sub_nolock. Qed.
#[export] Hint Resolve ends_sfs_bmap_free_sub_nolock : ends.

Lemma ends_sfs_bmap_free_nolock a i : ends (sfs_bmap_free_nolock a i).
Proof. ends_in sfs_bmap_free_nolock. Qed.
#[export] Hint Resolve ends_sfs_bmap_free_nolock : ends.

Lemma ends_sfs_bmap_load_nolock a i : ends (sfs_bmap_load_nolock a i).
Proof. ends_in sfs_bmap_load_nolock. Qed.
#[export] Hint Resolve ends_sfs_bmap_load_nolock : ends.

Lemma ends_sfs_bmap_truncate_nolock a : ends (sfs_bmap_truncate_nolock a).
Proof. ends_in sfs_bmap_truncate_nolock. Qed.
#[export] Hint Resolve ends_sfs_bmap_truncate_nolock : ends.

Lemma ends_inode_check a : ends (inode_check a).
Proof. ends_in inode_check. Qed.
#[export] Hint Resolve ends_inode_check : ends.

Lemma ends_sfs_fsync a : ends (sfs_fsync a).
Proof. ends_in sfs_fsync. Qed.
#[export] Hint Resolve ends_sfs_fsync : ends.

Lemma ends_inode_kill a : ends (inode_kill a).
Proof. ends_in inode_kill. Qed.
#[export] Hint Resolve ends_inode_kill : ends.

Lemma ends_truncate_all n a : ends (truncate_all n a).
Proof. induction n as [|n IH]; cbn [truncate_all]; ends. Qed.

Lemma ends_free_subs n e : forall i, ends (free_subs n e i).
Proof. induction n as [|n IH]; intros i; cbn [free_subs]; ends. Qed.
#[export] Hint Resolve ends_truncate_all ends_free_subs : ends.

Lemma ends_reclaim_blocks a : ends (reclaim_blocks a).
Proof. ends_in reclaim_blocks. Qed.
#[export] Hint Resolve ends_reclaim_blocks : ends.

Lemma ends_sfs_reclaim a : ends (sfs_reclaim a).
Proof. ends_in sfs_reclaim. Qed.
#[export] Hint Resolve ends_sfs_reclaim : ends.

Lemma ends_vop_ref_inc a : ends (vop_ref_inc a).
Proof. ends_in vop_ref_inc. Qed.
#[export] Hint Resolve ends_vop_ref_inc : ends.

Lemma ends_vop_ref_dec a : ends (vop_ref_dec a).
Proof. ends_in vop_ref_dec. Qed.
#[export] Hint Resolve ends_vop_ref_dec : ends.

Lemma ends_assert_dir_slot a i f : ends (assert_dir_slot a i f).
Proof. ends_in assert_dir_slot. Qed.
#[export] Hint Resolve ends_assert_dir_slot : ends.

Lemma ends_sfs_dirent_read_nolock a i : ends (sfs_dirent_read_nolock a i).
Proof. ends_in sfs_dirent_read_nolock. Qed.
#[export] Hint Resolve ends_sfs_dirent_read_nolock : ends.

Lemma ends_search_loop n a name : forall i e, ends (search_loop n a name i e).
Proof. induction n as [|n IH]; intros i e; cbn [search_loop]; ends. Qed.
#[export] Hint Resolve ends_search_loop : ends.

Lemma ends_sfs_dirent_search_nolock a name : ends (sfs_dirent_search_nolock a name).
Proof. ends_in sfs_dirent_search_nolock. Qed.
#[export] Hint Resolve ends_sfs_dirent_search_nolock : ends.

Lemma ends_sfs_load_parent a : ends (sfs_load_parent a).
Proof. ends_in sfs_load_parent. Qed.
#[export] Hint Resolve ends_sfs_load_parent : ends.

Lemma ends_sfs_lookup_once a name : ends (sfs_lookup_once a name).
Proof. ends_in sfs_lookup_once. Qed.
#[export] Hint Resolve ends_sfs_lookup_once : ends.

Lemma ends_lookup_step a name : ends (lookup_step a name).
Proof. ends_in lookup_step. Qed.
#[export] Hint Resolve ends_lookup_step : ends.

(** ** Paths *)

(** What is left of a path is shorter, and starts with no slash. *)
Lemma subpath_shorter path d p : sfs_lookup_subpath path = (d, Some p) -> (length p < length path)%nat /\ starts_ok p = true.
Proof.
  revert d. induction path as [|c path IH]; intros d; [done|]. cbn [sfs_lookup_subpath]. destruct (Z.eqb_spec c 47) as [->|Hc].
  - intros [= _ E]. clear IH. cbn [length]. revert E. induction path as [|c' path IH]; [done|]. destruct (Z.eqb_spec c' 47) as [->|Hc]; intros E.
    + destruct (IH E). cbn [length]. split; [lia|done].
    + injection E as <-. cbn. split; [lia|]. by rewrite (proj2 (Z.eqb_neq c' 47)).
  - destruct (sfs_lookup_subpath path) as [d' r] eqn:E. intros [= _ ->]. destruct (IH d' eq_refl). cbn. split; [lia|done].
Qed.

Lemma ends_lookup_path fuel : forall a path, (length path < fuel)%nat -> ends (lookup_path fuel a path).
Proof.
  induction fuel as [|fuel IH]; intros a path Hl; [lia|]. cbn [lookup_path]. apply ends_bind; [ends|]. intros x. destruct (negb _); [ends|].
  destruct (sfs_lookup_subpath path) as [d [p|]] eqn:E; [|ends]. destruct (subpath_shorter path d p E) as [Hp _]. assert (Hn : forall b, ends (lookup_path fuel b p)) by (intros b; apply IH; lia).
  ends.
Qed.

Lemma ends_parent_path fuel : forall a path, (length path < fuel)%nat -> ends (parent_path fuel a path).
Proof.
  induction fuel as [|fuel IH]; intros a path Hl; [lia|]. cbn [parent_path]. apply ends_bind; [ends|]. intros x. destruct (negb _); [ends|].
  destruct (sfs_lookup_subpath path) as [d [p|]] eqn:E; [|ends]. destruct (subpath_shorter path d p E) as [Hp _]. assert (Hn : forall b, ends (parent_path fuel b p)) by (intros b; apply IH; lia).
  ends.
Qed.

Lemma lookup_ends a path : ends (sfs_lookup a path) /\ ends (sfs_lookup_parent a path).
Proof.
  split; [unfold sfs_lookup|unfold sfs_lookup_parent]; (apply ends_bind; [ends|]; intros _; apply ends_bind; [ends|]; intros _); [apply ends_lookup_path|apply ends_parent_path]; lia.
Qed.
End SfsTotal.

Module SfsPath.
Import SfsInv SfsMake SfsIo SfsNode SfsEntry SfsLink SfsTotal.

(** ** Paths as lists of components *)

(** The pieces between slashes. *)
Fixpoint split_slash (path : list Z) : list (list Z) :=
  match path with
  | [] => [[]]
  | c :: p =>
      if c =? 47 then [] :: split_slash p
      else match split_slash p with d :: l => (c :: d) :: l | [] => [[c]] end
  end.

(** The components: the pieces that are not empty. *)
Definition components (path : list Z) : list (list Z) := filter (fun d => d <> []) (split_slash path).

Lemma split_nonempty path : split_slash path <> [].
Proof. destruct path as [|c p]; cbn; [done|]. destruct (c =? 47); [done|]. by destruct (split_slash p). Qed.

(** What follows the slashes, if anything does. *)
Fixpoint skip_slash (p : list Z) : option (list Z) :=
  match p with [] => None | c :: q => if c =? 47 then skip_slash q else Some p end.

Lemma skip_components p : match skip_slash p with Some q => components q | None => [] end = components p.
Proof.
  induction p as [|c p IH]; [done|]. cbn [skip_slash]. unfold components in *. cbn [split_slash].
  destruct (c =? 47) eqn:E; [by rewrite IH|]. cbn [split_slash]. by rewrite E.
Qed.

(** [sfs_lookup_subpath] takes off the first component. *)
Lemma subpath_components path d sub : starts_ok path = true -> sfs_lookup_subpath path = (d, sub) ->
  components path = d :: match sub with Some p => components p | None => [] end.
Proof.
  intros Hs E.
  assert (G : forall path d sub, sfs_lookup_subpath path = (d, sub) ->
    exists l, split_slash path = d :: l /\ filter (fun d => d <> []) l = match sub with Some p => components p | None => [] end).
  { clear. induction path as [|c path IH]; intros d sub; [intros [= <- <-]; by exists []|]. cbn [sfs_lookup_subpath split_slash].
    destruct (c =? 47) eqn:Ec.
    - intros [= <- <-]. exists (split_slash path). split; [done|]. symmetry. apply (skip_components path).
    - destruct (sfs_lookup_subpath path) as [d' r]. intros [= <- <-]. destruct (IH d' r eq_refl) as (l & -> & Hl). by exists l. }
  destruct (G path d sub E) as (l & El & Hl). unfold components at 1. rewrite El, filter_cons_True, Hl; [done|]. intros ->.
  destruct path as [|c path]; [done|]. cbn in Hs, E. destruct (c =? 47); [done|]. by destruct (sfs_lookup_subpath path).
Qed.

Lemma subpath_bytes (P : Z -> Prop) path d sub : Forall P path -> sfs_lookup_subpath path = (d, sub) ->
  Forall P d /\ match sub with Some p => Forall P p | None => True end.
Proof.
  revert d. induction path as [|c path IH]; intros d Hp; [by intros [= <- <-]|]. apply Forall_cons in Hp as [Hc Hp]. cbn [sfs_lookup_subpath].
  destruct (c =? 47).
  - intros [= <- <-]. split; [constructor|]. clear IH. induction path as [|c' path IH]; [done|].
    apply Forall_cons in Hp as [Hc' Hp]. destruct (c' =? 47); [by apply IH|by constructor].
  - destruct (sfs_lookup_subpath path) as [d' r]. intros [= <- <-]. destruct (IH d' Hp eq_refl). split; [by constructor|done].
Qed.

(** ** The walk along the directory maps *)

(** The inode in memory with a number: the first one in its hash chain. *)
Fixpoint find_ino (s : sfs_fs) (l : list Z) (n : Z) : option Z :=
  match l with
  | [] => None
  | a :: l => match nodes s !! a with Some x => if ino x =? n then Some a else find_ino s l n | None => None end
  end.

Definition cached (s : sfs_fs) (n : Z) : option Z :=
  match hash_list s !! sin_hashfn n with Some l => find_ino s l n | None => None end.

(** Where a component leads from a directory: an error code, or the number of an inode. *)
Definition next_ino (s : sfs_fs) (x : inode) (c : list Z) : Z + Z :=
  if bool_decide (c = dotdot) then inr (dir_parent (din x))
  else if too_long c then inl (- E_TOO_BIG)
  else match dmap s (din x) !! c with Some n => inr n | None => inl (- E_NOENT) end.

(** Where the components lead from the inode [a]: a code and, if it is 0, an inode; [None]
    when an inode on the way is not in memory. *)
Fixpoint resolve (s : sfs_fs) (a : Z) (cs : list (list Z)) : option (Z * Z) :=
  match cs with
  | [] => Some (0, a)
  | c :: cs =>
      match nodes s !! a with
      | None => None
      | Some x =>
          if negb (type (din x) =? SFS_TYPE_DIR) then Some (- E_NOTDIR, 0)
          else if bool_decide (c = dot) then resolve s a cs
          else match next_ino s x c with
               | inl r => Some (r, 0)
               | inr n => match cached s n with Some b => resolve s b cs | None => None end
               end
      end
  end.

(** A file system at rest: every inode in memory is referenced, every directory in memory
    is well formed and there. *)
Record settled (s : sfs_fs) : Prop := {
  st_ok : fs_ok s;
  st_refs : forall a x, nodes s !! a = Some x -> a <> 0 /\ 0 < ref_count x < 2 ^ 31 - 2;
  st_dirs : forall a x, nodes s !! a = Some x -> type (din x) = SFS_TYPE_DIR -> directory s (din x) /\ removed x = false
}.

(** One more reference to an inode. *)
Definition bump (a : Z) (s : sfs_fs) : sfs_fs :=
  match nodes s !! a with Some x => at_node a (set_ref (ref_count x + 1) x) s | None => s end.

(** What a walk that arrived at [b] with the code [r] returns: the inode with one more
    reference, or the code and the state as it was. *)
Definition arrived (r b : Z) (s : sfs_fs) : outcome (Z * Z * sfs_fs) :=
  if r =? 0 then Ret ((0, b), bump b s) else Ret ((r, 0), s).

Lemma nodes_bump a x s : nodes s !! a = Some x -> bump a s = at_node a (set_ref (ref_count x + 1) x) s.
Proof. unfold bump. by intros ->. Qed.

Lemma lookup_bump a b s : exists f, nodes (bump a s) !! b = f <$> nodes s !! b /\
  forall x, ino (f x) = ino x /\ din (f x) = din x /\ removed (f x) = removed x /\ ref_count x <= ref_count (f x) <= ref_count x + 1.
Proof.
  unfold bump. destruct (nodes s !! a) as [x|] eqn:Hx.
  - destruct (decide (a = b)) as [<-|Hne].
    + exists (fun x => set_ref (ref_count x + 1) x). cbn. rewrite lookup_insert_eq, Hx. split; [done|]. intros y. cbn. split_and!; (done || lia).
    + exists id. cbn. rewrite lookup_insert_ne by done. split; [by destruct (nodes s !! b)|]. intros y. cbn. split_and!; (done || lia).
  - exists id. split; [by destruct (nodes s !! b)|]. intros y. cbn. split_and!; (done || lia).
Qed.

Lemma bump_frame a s : fs_ok s -> fs_ok (bump a s) /\ hash_list (bump a s) = hash_list s /\
  (forall d, directory s d -> directory (bump a s) d) /\ (forall d, dmap (bump a s) d = dmap s d).
Proof.
  intros F. unfold bump. destruct (nodes s !! a) as [x|]; [|done]. split_and!; [by apply at_node_ok|done| |done].
  intros d [[Hf Ht Hm] Hn]. split; [split|]; [by apply info0_at_node|done..].
Qed.

Lemma cached_bump a s n : cached (bump a s) n = cached s n.
Proof.
  unfold cached. assert (hash_list (bump a s) = hash_list s) as -> by (unfold bump; by destruct (nodes s !! a)).
  destruct (hash_list s !! sin_hashfn n) as [l|]; [|done]. induction l as [|b l IH]; [done|]. cbn [find_ino].
  destruct (lookup_bump a b s) as (f & -> & Hf). destruct (nodes s !! b) as [y|]; [|done]. cbn.
  destruct (Hf y) as (-> & _). by rewrite IH.
Qed.

Lemma cached_node s n b : cached s n = Some b -> exists y, nodes s !! b = Some y /\ ino y = n.
Proof.
  unfold cached. destruct (hash_list s !! sin_hashfn n) as [l|]; [|done]. induction l as [|c l IH]; [done|]. cbn [find_ino].
  destruct (nodes s !! c) as [y|] eqn:Hy; [|done]. destruct (Z.eqb_spec (ino y) n); [intros [= <-]; eauto|done].
Qed.

(** ** The routines *)

Lemma ref_inc_run s a x : settled s -> nodes s !! a = Some x -> vop_ref_inc a s = Ret (ref_count x + 1, bump a s).
Proof.
  intros St Hx. destruct (st_refs _ St a x Hx) as [_ Hr]. unfold vop_ref_inc. rewrite (bind_step _ _ _ _ _ (get_node_run a x s Hx)).
  rewrite (bind_step _ _ _ _ _ (set_node_run _ a x s Hx)), (nodes_bump a x s Hx). by rewrite s32_small by (unfold is_s32; lia).
Qed.

(** The second inode is acquired before the reference to the first is dropped. *)
Lemma ref_dec_run s a x : nodes s !! a = Some x -> 0 < ref_count x -> exists r, vop_ref_dec a (bump a s) = Ret (r, s).
Proof.
  intros Hx Hr. rewrite (nodes_bump a x s Hx). set (x1 := set_ref _ x).
  unfold vop_ref_dec. rewrite (bind_step _ _ _ _ _ (get_node_run a x1 _ (lookup_at_node a x1 s))). cbn [ref_count x1 set_ref].
  rewrite assert_true by (apply Z.ltb_lt; lia). rewrite (bind_step _ _ _ _ _ (set_node_run _ a x1 _ (lookup_at_node a x1 s))).
  rewrite (proj2 (Z.eqb_neq _ 0)) by lia. exists (ref_count x + 1 - 1). unfold ret, bind. do 3 f_equal.
  unfold at_node, upd_nodes. destruct s. cbn in *. f_equal. rewrite insert_insert_eq. apply insert_id. rewrite Hx. f_equal.
  unfold x1, set_ref. destruct x. cbn. f_equal. lia.
Qed.

Lemma bump_comm a b s : bump a (bump b s) = bump b (bump a s).
Proof.
  destruct (decide (a = b)) as [->|Hne]; [done|]. unfold bump.
  destruct (nodes s !! a) as [x|] eqn:Ha; destruct (nodes s !! b) as [y|] eqn:Hb; cbn [nodes at_node upd_nodes];
    rewrite ?lookup_insert_ne by done; rewrite ?Ha, ?Hb; [|done..].
  unfold at_node, upd_nodes. cbn. f_equal. by apply insert_insert_ne.
Qed.

Lemma seek_entry_run s : (forall a x, nodes s !! a = Some x -> a <> 0 /\ 0 < ref_count x < 2 ^ 31 - 1) -> forall l n b,
  find_ino s l n = Some b -> lookup_loop l n s = Ret (b, bump b s).
Proof.
  intros Hr l n b. induction l as [|c l IH]; [done|]. cbn [find_ino lookup_loop].
  destruct (nodes s !! c) as [y|] eqn:Hy; [|done]. rewrite (bind_step _ _ _ _ _ (get_node_run c y s Hy)).
  destruct (Z.eqb_spec (ino y) n); [intros [= <-]|done]. destruct (Hr c y Hy) as [_ Hc].
  rewrite s32_small by (unfold is_s32; lia). rewrite (bind_step _ _ _ _ _ (set_node_run _ c y s Hy)).
  rewrite (proj2 (Z.eqb_neq _ 1)) by lia. by rewrite (nodes_bump c y s Hy).
Qed.

(** Loading an inode that is in memory, while a reference to [a] is held. *)
Lemma load_cached_run s a n b : settled s -> cached s n = Some b -> sfs_load_inode n (bump a s) = Ret ((0, b), bump b (bump a s)).
Proof.
  intros St Hc. destruct (cached_node s n b Hc) as (y & Hy & _). destruct (st_refs _ St b y Hy) as [Hb0 _].
  unfold sfs_load_inode. rewrite <- (cached_bump a) in Hc. unfold cached in Hc.
  destruct (hash_list (bump a s) !! sin_hashfn n) as [l|] eqn:Hl; [|done].
  erewrite bind_step; [|unfold lookup_sfs_nolock; rewrite bind_get, Hl, (bind_deref _ l) by done; apply (seek_entry_run (bump a s)); [|exact Hc]].
  - by rewrite (proj2 (Z.eqb_neq b 0)).
  - intros c x. destruct (lookup_bump a c s) as (f & -> & Hf). intros (x0 & Hx0 & ->)%fmap_Some.
    destruct (st_refs _ St c x0 Hx0) as [? ?]. destruct (Hf x0) as (_ & _ & _ & ?). split; [done|lia].
Qed.

(** One component: the reference moves on, or is dropped. *)
Lemma step_run s a x c : settled s -> nodes s !! a = Some x -> type (din x) = SFS_TYPE_DIR -> Forall (fun b => 0 < b < 256) c ->
  match next_ino s x c with
  | inl r => r <> 0 /\ lookup_step a c (bump a s) = Ret ((r, 0), s)
  | inr n => forall b, cached s n = Some b -> lookup_step a c (bump a s) = Ret ((0, b), bump b s)
  end.
Proof.
  intros St Hx Ht Hc. destruct (st_refs _ St a x Hx) as [_ Hr]. destruct (st_dirs _ St a x Hx Ht) as [Hdir Hrm].
  destruct (ref_dec_run s a x Hx) as (k & Hdec); [lia|].
  assert (Hgo : forall (m : M sfs_fs (Z * Z)) n b, m (bump a s) = sfs_load_inode n (bump a s) -> cached s n = Some b ->
    (r <- m ;; _ <- vop_ref_dec a ;; ret r) (bump a s) = Ret ((0, b), bump b s)).
  { intros m n b Hm Hb. rewrite (load_cached_run s a n b St Hb) in Hm. rewrite (bind_step _ _ _ _ _ Hm), bump_comm.
    destruct (lookup_bump b a s) as (f & Hf & Hfx). rewrite Hx in Hf. destruct (Hfx x) as (_ & _ & _ & Hrf).
    destruct (ref_dec_run (bump b s) a (f x) Hf) as (k' & Hdec'); [lia|]. by rewrite (bind_step _ _ _ _ _ Hdec'). }
  destruct (lookup_bump a a s) as (f & Hf & Hfx). rewrite Hx in Hf. cbn in Hf. destruct (Hfx x) as (_ & Ed & Er & _).
  unfold next_ino, lookup_step. case_bool_decide as Edd.
  - intros b Hb. apply (Hgo _ (dir_parent (din x))); [|done]. unfold sfs_load_parent.
    by rewrite (bind_step _ _ _ _ _ (get_node_run a (f x) _ Hf)), Ed.
  - destruct (too_long c) eqn:El; [split; [done|]; by rewrite (bind_step _ _ _ _ _ Hdec)|].
    destruct (bump_frame a s (st_ok _ St)) as (F & _ & Fd & Fm).
    assert (Hn : is_name c) by (split; [done|]; unfold too_long, SFS_MAX_FNAME_LEN in El; apply Z.ltb_ge in El; lia).
    assert (Hlk : trylock_sin a (bump a s) = Ret (0, bump a s)) by (apply (trylock_run _ a (f x)); [done|by rewrite Er]).
    assert (Hdir' : directory (bump a s) (din (f x))) by (rewrite Ed; by apply Fd).
    pose proof (search_map (bump a s) a (f x) c F Hf Hdir' Hn) as Hsr. rewrite Ed, Fm in Hsr.
    destruct Hsr as [(j & m & e & _ & _ & -> & Hs)|(e & Hs & _ & _ & -> & _)].
    + intros b Hb. apply (Hgo _ m); [|done]. unfold sfs_lookup_once.
      rewrite (bind_step _ _ _ _ _ Hlk). cbn [negb Z.eqb]. by rewrite (bind_step _ _ _ _ _ Hs).
    + split; [done|]. assert (Ho : sfs_lookup_once a c (bump a s) = Ret ((- E_NOENT, 0), bump a s)).
      { unfold sfs_lookup_once. rewrite (bind_step _ _ _ _ _ Hlk). cbn [negb Z.eqb]. by rewrite (bind_step _ _ _ _ _ Hs). }
      rewrite (bind_step _ _ _ _ _ Ho). by rewrite (bind_step _ _ _ _ _ Hdec).
Qed.

(** A directory under the reference that is held. *)
Lemma held_run s a x : settled s -> nodes s !! a = Some x -> exists x', nodes (bump a s) !! a = Some x' /\ din x' = din x /\
  exists r, vop_ref_dec a (bump a s) = Ret (r, s).
Proof.
  intros St Hx. destruct (st_refs _ St a x Hx) as [_ Hr]. destruct (lookup_bump a a s) as (f & Hf & Hfx). rewrite Hx in Hf.
  exists (f x). split; [done|]. split; [apply Hfx|]. apply (ref_dec_run s a x Hx). lia.
Qed.

Lemma lookup_path_run s : settled s -> forall fuel a path r b, (length path < fuel)%nat -> starts_ok path = true ->
  Forall (fun b => 0 < b < 256) path -> resolve s a (components path) = Some (r, b) ->
  lookup_path fuel a path (bump a s) = arrived r b s.
Proof.
  intros St. induction fuel as [|fuel IH]; intros a path r b Hl Hs Hp Hres; [lia|]. cbn [lookup_path].
  destruct (sfs_lookup_subpath path) as [d sub] eqn:E. rewrite (subpath_components path d sub Hs E) in Hres. cbn [resolve] in Hres.
  destruct (nodes s !! a) as [x|] eqn:Hx; [|done]. destruct (held_run s a x St Hx) as (x' & Hx' & Ed & k & Hdec).
  rewrite (bind_step _ _ _ _ _ (get_node_run a x' _ Hx')), Ed.
  destruct (Z.eqb_spec (type (din x)) SFS_TYPE_DIR) as [Ht|Ht]; cbn [negb] in *.
  2:{ injection Hres as <- <-. by rewrite (bind_step _ _ _ _ _ Hdec). }
  destruct (subpath_bytes _ path d sub Hp E) as [Hd Hsub].
  assert (Hnext : forall b', resolve s b' (match sub with Some p => components p | None => [] end) = Some (r, b) ->
    match sub with Some p => lookup_path fuel b' p | None => ret (0, b') end (bump b' s) = arrived r b s).
  { intros b' Hr. destruct sub as [p|]; [|by injection Hr as <- <-].
    destruct (subpath_shorter path d p E) as [Hlt Hps]. apply IH; [lia|done..]. }
  case_bool_decide as Edot; [by apply Hnext|]. pose proof (step_run s a x d St Hx Ht Hd) as Hstep.
  destruct (next_ino s x d) as [r'|n].
  - injection Hres as <- <-. destruct Hstep as [Hr0 Hstep]. rewrite (bind_step _ _ _ _ _ Hstep). unfold arrived.
    by rewrite (proj2 (Z.eqb_neq r' 0)).
  - destruct (cached s n) as [b'|] eqn:Hb'; [|done]. rewrite (bind_step _ _ _ _ _ (Hstep b' eq_refl)). cbn [negb Z.eqb]. by apply Hnext.
Qed.

(** The same for the directory of the last component, which must be one. *)
Definition arrived_at_parent (r b : Z) (name : list Z) (s : sfs_fs) : outcome (Z * Z * list Z * sfs_fs) :=
  if r =? 0 then
    match nodes s !! b with
    | Some y => if type (din y) =? SFS_TYPE_DIR then Ret ((0, b, name), bump b s) else Ret ((- E_NOTDIR, 0, []), s)
    | None => Panic
    end
  else Ret ((r, 0, []), s).

Lemma components_start p : starts_ok p = true -> components p <> [].
Proof. intros Hs. destruct (sfs_lookup_subpath p) as [d sub] eqn:E. by rewrite (subpath_components p d sub Hs E). Qed.

Lemma parent_path_run s : settled s -> forall fuel a path r b, (length path < fuel)%nat -> starts_ok path = true ->
  Forall (fun b => 0 < b < 256) path -> is_Some (nodes s !! a) -> resolve s a (removelast (components path)) = Some (r, b) ->
  parent_path fuel a path (bump a s) = arrived_at_parent r b (List.last (components path) []) s.
Proof.
  intros St. induction fuel as [|fuel IH]; intros a path r b Hl Hs Hp [x Hx] Hres; [lia|]. cbn [parent_path].
  destruct (sfs_lookup_subpath path) as [d sub] eqn:E. rewrite (subpath_components path d sub Hs E) in *.
  destruct (held_run s a x St Hx) as (x' & Hx' & Ed & k & Hdec). rewrite (bind_step _ _ _ _ _ (get_node_run a x' _ Hx')), Ed.
  destruct (subpath_bytes _ path d sub Hp E) as [Hd Hsub]. destruct sub as [p|].
  2:{ injection Hres as <- <-. unfold arrived_at_parent. rewrite Hx. cbn [Z.eqb List.last].
      destruct (type (din x) =? SFS_TYPE_DIR); [done|]. cbn [negb]. by rewrite (bind_step _ _ _ _ _ Hdec). }
  destruct (subpath_shorter path d p E) as [Hlt Hps]. pose proof (components_start p Hps) as Hne.
  assert (El : List.last (d :: components p) [] = List.last (components p) []) by (by destruct (components p)).
  assert (Er : removelast (d :: components p) = d :: removelast (components p)) by (by destruct (components p)).
  rewrite El. rewrite Er in Hres. cbn [resolve] in Hres. rewrite Hx in Hres.
  destruct (Z.eqb_spec (type (din x)) SFS_TYPE_DIR) as [Ht|Ht]; cbn [negb] in *.
  2:{ injection Hres as <- <-. by rewrite (bind_step _ _ _ _ _ Hdec). }
  case_bool_decide as Edot; [apply IH; (done || lia || by exists x)|]. pose proof (step_run s a x d St Hx Ht Hd) as Hstep.
  destruct (next_ino s x d) as [r'|n].
  - injection Hres as <- <-. destruct Hstep as [Hr0 Hstep]. rewrite (bind_step _ _ _ _ _ Hstep). unfold arrived_at_parent.
    by rewrite (proj2 (Z.eqb_neq r' 0)).
  - destruct (cached s n) as [b'|] eqn:Hb'; [|done]. rewrite (bind_step _ _ _ _ _ (Hstep b' eq_refl)). cbn [negb Z.eqb].
    destruct (cached_node s n b' Hb') as (y & Hy & _). apply IH; (done || lia || by exists y).
Qed.

(** [sfs_lookup] and [sfs_lookup_parent]. *)
Lemma lookup_run s a x path : settled s -> nodes s !! a = Some x -> starts_ok path = true -> Forall (fun b => 0 < b < 256) path ->
  (forall r b, resolve s a (components path) = Some (r, b) -> sfs_lookup a path s = arrived r b s) /\
  (forall r b, resolve s a (removelast (components path)) = Some (r, b) ->
     sfs_lookup_parent a path s = arrived_at_parent r b (List.last (components path) []) s).
Proof.
  intros St Hx Hs Hp. split; intros r b Hr; [unfold sfs_lookup|unfold sfs_lookup_parent];
    rewrite assert_true, (bind_step _ _ _ _ _ (ref_inc_run s a x St Hx)) by done.
  - apply lookup_path_run; (done || lia).
  - apply parent_path_run; (done || lia || by exists x).
Qed.
End SfsPath.
