(* ===== verification/SfsSpec.v ===== *)
(** * The simple file system: what it guarantees

    Reading, writing, resizing and the end of files against their contents; directories
    against finite maps; inodes on disk; and the ways the code stops the machine. *)

From S2P Require Import Prelude Bitmap CString SfsDisk Sfs SfsDir SfsInv SfsBmap SfsMake SfsFile SfsWrite SfsIo SfsFree SfsSize SfsNode SfsEntry SfsLink SfsTotal.
Import SfsDisk Sfs SfsDir SfsInv SfsBmap SfsGet SfsGrow SfsMake SfsFile SfsWrite SfsRead SfsIo SfsFree SfsSize SfsNode SfsEntry SfsLink SfsTotal SfsPath.
Open Scope Z_scope.

Module SfsSpec.

(** ** A file system of nine blocks

    Block 1 is the root directory, 2 the free map, 3 and 5 are inodes of files with the
    data blocks 4 and 6; 7 and 8 are free.  The second file has no links left. *)

Definition hello : list Z := [104; 101; 108; 108; 111].

Definition one_block (size links b : Z) : sfs_disk_inode := mk_din size 0 SFS_TYPE_FILE links 1 (b :: replicate 11 0) 0 0.
Definition empty_dir : sfs_disk_inode := mk_din 0 1 SFS_TYPE_DIR 2 0 (zeros SFS_NDIRECT) 0 0.

Definition ex_root : inode := mk_inode 1 0 empty_dir 1 false false 1.
Definition ex_file : inode := mk_inode 1 1 (one_block 5 1 4) 3 false true 1.
Definition ex_gone : inode := mk_inode 0 0 (one_block 2 0 6) 5 false false 1.

Definition ex_disk : gmap Z (list Z) := array 9 (fun b => if b =? 4 then splice (zeros SFS_BLKSIZE) 0 hello else zeros SFS_BLKSIZE).

Definition ex_fs : sfs_fs := mk_sfs 9 2 (zeros 32) false (Bitmap.mk_bitmap 32 1 [384]) [2; 1]
  (array SFS_HLIST_SIZE (fun _ => [])) (list_to_map [(1, ex_root); (2, ex_file); (3, ex_gone)]) ex_disk [] [].

Lemma ex_bit b : 0 <= b -> Bitmap.bit (freemap ex_fs) b = true -> b = 7 \/ b = 8.
Proof.
  intros Hb H. unfold Bitmap.bit, Bitmap.WORD_BITS in H. cbn [freemap ex_fs Bitmap.map] in H. destruct (decide (b < 32)) as [Hl|Hl].
  - rewrite Z.div_small, Z.mod_small in H by lia. change (Z.to_nat 0) with 0%nat in H. cbn [lookup list_lookup] in H.
    destruct (decide (b = 7)) as [->|]; [by left|]. destruct (decide (b = 8)) as [->|]; [by right|]. exfalso.
    change 384 with (Z.shiftl 3 7) in H. rewrite Z.shiftl_spec in H by lia. destruct (decide (b < 7)); [rewrite Z.testbit_neg_r in H by lia; done|].
    change 3 with (Z.ones 2) in H. rewrite Z.ones_spec_high in H by lia. done.
  - rewrite lookup_ge_None_2 in H; [done|]. cbn. dlia.
Qed.

Lemma ex_fs_ok : fs_ok ex_fs.
Proof.
  split; [done| |done| | |vm_compute; reflexivity].
  - split; [done|done|done|repeat constructor; done|]. intros i [Hi Hb]. cbn. destruct (ex_bit i Hi Hb); lia.
  - intros b [Hb Hf]. cbn [super_blocks ex_fs]. destruct (ex_bit b Hb Hf); lia.
  - intros b Hb. eexists. split; [apply array_lookup; split; [exact Hb|reflexivity]|]. destruct (b =? 4); [|apply zeros_block].
    apply splice_block; [apply zeros_block|done|done|]. repeat constructor; unfold is_byte; lia.
Qed.

(** A file with one block. *)
Lemma one_block_place s size links b r : valid r -> place s (one_block size links b) r = if decide (r = Data 0) then b else 0.
Proof.
  intros Hr. destruct r as [i| | |k]; [|done|done|done]. cbn [place]. unfold bmap. destruct (Z.ltb_spec i SFS_NDIRECT) as [Hi|Hi].
  - cbn in Hr. cbn [direct one_block]. destruct (decide (i = 0)) as [->|Hn]; [by rewrite decide_True|]. rewrite decide_False by congruence.
    replace (Z.to_nat i) with (S (Z.to_nat (i - 1))) by lia. change ((b :: ?l) !! S ?k) with (l !! k). rewrite lookup_replicate_2; [done|]. unfold SFS_NDIRECT in Hi. lia.
  - unfold SFS_NDIRECT in Hi. rewrite decide_False by (intros [= ->]; lia). destruct (_ <? _); done.
Qed.

Lemma one_block_file s size links b : used s b -> file_ok s (one_block size links b).
Proof.
  intros Hb. split; [split| |cbn; unfold MAX_BLOCKS, SFS_NDIRECT; rewrite nentry; lia].
  - done.
  - intros r Hr. rewrite one_block_place by done. by case_decide.
  - intros r r' Hr Hr'. rewrite !one_block_place by done. repeat case_decide; try done; subst; try done; intros E; pose proof (used_pos _ _ Hb); congruence.
  - intros i Hi. change (bmap s (one_block size links b) i) with (place s (one_block size links b) (Data i)). rewrite one_block_place by done. cbn [blocks one_block].
    case_decide as E; [injection E as ->; split; [lia|intros _; by apply (used_pos s)]|]. split; [done|]. intros ?. exfalso. apply E. f_equal. lia.
Qed.

Lemma one_block_owned s size links b c : owned s (one_block size links b) c -> c = b.
Proof. intros (r & Hr & E & Hc). rewrite one_block_place in E by done. case_decide; congruence. Qed.

Lemma empty_dir_file s : file_ok s empty_dir.
Proof.
  assert (Hp : forall r, valid r -> place s empty_dir r = 0).
  { intros r Hr. destruct r as [i| | |k]; [|done|done|done]. cbn [place]. unfold bmap. destruct (Z.ltb_spec i SFS_NDIRECT); [|by destruct (_ <? _)].
    cbn in Hr. cbn [direct empty_dir]. unfold zeros. rewrite lookup_replicate_2; [done|]. lia. }
  split; [split| |cbn; unfold MAX_BLOCKS, SFS_NDIRECT; rewrite nentry; lia].
  - done.
  - intros r Hr. by rewrite (Hp r Hr).
  - intros r r' Hr _ _. by rewrite (Hp r Hr).
  - intros i Hi. change (bmap s empty_dir i) with (place s empty_dir (Data i)). rewrite Hp by done. cbn. split; [done|lia].
Qed.

Lemma ex_used b : 1 <= b <= 6 -> used ex_fs b.
Proof. intros Hb. split; [cbn; lia|]. destruct (Bitmap.bit (freemap ex_fs) b) eqn:E; [|done]. destruct (ex_bit b ltac:(lia) E); lia. Qed.

Lemma ex_regular : regular ex_fs (din ex_file).
Proof. split; [apply one_block_file, ex_used; lia|cbn; unfold SFS_BLKSIZE; lia|done|done]. Qed.

(** ** Files *)

(** C23: Reading [n] bytes at [o] of a file gives the part of its contents from [o] on,
    at most [n] bytes and none beyond the end, moves the offset and what is left to
    transfer by their number, and changes nothing. *)
Theorem sfs_read_spec s a x o n :
  fs_ok s -> nodes s !! a = Some x -> removed x = false -> regular s (din x) -> 0 <= o < SFS_MAX_FILE_SIZE -> 0 <= n -> o + n < 2 ^ 31 ->
  let l := bytes_at (contents s (din x)) o n in
  sfs_read a o n s = Ret ((0, o + Z.of_nat (length l), n - Z.of_nat (length l), l), s).
Proof. intros. by apply read_run. Qed.

Lemma sfs_read_spec_witness : sfs_read 2 1 3 ex_fs = Ret ((0, 4, 0, [101; 108; 108]), ex_fs).
Proof.
  pose proof (sfs_read_spec ex_fs 2 ex_file 1 3 ex_fs_ok eq_refl eq_refl ex_regular ltac:(done) ltac:(done) ltac:(done)) as H. rewrite H. vm_compute. reflexivity.
Defined.

(** C3: Writing [data] at an offset [o] within a file stores a prefix of it: the whole,
    cut at the largest file size, or what fitted when the disk is full, with [-E_NO_MEM].
    The contents are the old ones with the stored bytes laid over them at [o]; the file
    stays well formed, keeps no block its size does not need, and its inode is dirty if it
    changed. *)
Theorem sfs_write_spec s a x data o :
  fs_ok s -> nodes s !! a = Some x -> removed x = false -> regular s (din x) -> 0 <= o <= info0 (din x) -> o < SFS_MAX_FILE_SIZE ->
  o + Z.of_nat (length data) < 2 ^ 31 -> Forall is_byte data ->
  exists r k s' x', sfs_write a data o s = Ret ((r, o + Z.of_nat k, Z.of_nat (length data) - Z.of_nat k, []), s') /\
    (let n := Z.to_nat (Z.min (Z.of_nat (length data)) (SFS_MAX_FILE_SIZE - o)) in (r = 0 /\ k = n) \/ (r = - E_NO_MEM /\ (k < n)%nat)) /\
    fs_ok s' /\ nodes s' = <[a := x']> (nodes s) /\ regular s' (din x') /\ (exact (din x) -> exact (din x')) /\
    contents s' (din x') = splice (contents s (din x)) o (take k data) /\ (din x' = din x \/ dirty x' = true).
Proof.
  intros F Hx Hr R Ho Hm Hov Hb. destruct (write_run s a x data o F Hx Hr R Ho Hm Hov Hb) as (r & k & s' & x' & Hw & S' & Hk). exists r, k, s', x'.
  split; [done|]. split; [done|]. split; [apply (st_step _ _ _ _ _ _ _ S')|]. split_and!; apply S'.
Qed.

Lemma sfs_write_spec_witness : exists r k s' x', sfs_write 2 [33; 33] 5 ex_fs = Ret ((r, 5 + Z.of_nat k, 2 - Z.of_nat k, []), s') /\ r = 0 /\
  contents s' (din x') = hello ++ [33; 33].
Proof.
  destruct (sfs_write_spec ex_fs 2 ex_file [33; 33] 5 ex_fs_ok eq_refl eq_refl ex_regular ltac:(done) ltac:(done) ltac:(done)
    ltac:(repeat constructor; done)) as (r & k & s' & x' & Hw & Hk & _ & _ & _ & _ & Hc & _).
  assert (Hr : match sfs_write 2 [33; 33] 5 ex_fs with Ret ((r, _, _, _), _) => r = 0 | _ => False end) by (vm_compute; reflexivity).
  rewrite Hw in Hr. subst r. destruct Hk as [[_ ->]|[? _]]; [|done]. exists 0, 2%nat, s', x'. split; [exact Hw|]. split; [reflexivity|]. rewrite Hc. vm_compute. reflexivity.
Defined.

(** C13: Files without a common block are independent: writing to one of them, or
    changing its size, leaves the other one well formed, with the same contents, and still
    without a common block. *)
Theorem sfs_files_apart s a x e :
  fs_ok s -> nodes s !! a = Some x -> removed x = false -> regular s (din x) -> exact (din x) -> regular s e -> apart s (din x) e ->
  (forall data o, 0 <= o <= info0 (din x) -> o < SFS_MAX_FILE_SIZE -> o + Z.of_nat (length data) < 2 ^ 31 -> Forall is_byte data ->
     exists res s' x', sfs_write a data o s = Ret (res, s') /\ nodes s' !! a = Some x' /\ regular s' e /\ contents s' e = contents s e /\ apart s' (din x') e) /\
  (forall len, 0 <= len <= SFS_MAX_FILE_SIZE ->
     exists res s' x', sfs_truncfile a len s = Ret (res, s') /\ nodes s' !! a = Some x' /\ regular s' e /\ contents s' e = contents s e /\ apart s' (din x') e).
Proof.
  intros F Hx Hr R Hex Re Ha. pose proof (r_file _ _ Re) as Ke.
  assert (H : forall s' x', nodes s' = <[a := x']> (nodes s) -> local s (din x) s' (din x') -> nodes s' !! a = Some x' /\ regular s' e /\ contents s' e = contents s e /\ apart s' (din x') e).
  { intros s' x' En L. destruct (other_regular s (din x) e s' (din x') L Ke Ha Re) as [Re' Ec]. split; [rewrite En; apply lookup_insert_eq|]. split; [done|]. split; [done|].
    by apply (other_apart s (din x) e s' (din x')). }
  split.
  - intros data o Ho Hm Hov Hb. destruct (write_run s a x data o F Hx Hr R Ho Hm Hov Hb) as (r & k & s' & x' & Hw & S' & _). eexists _, s', x'. split; [exact Hw|].
    apply H; [apply S'|apply fstep_local, S'].
  - intros len Hl. destruct (truncfile_run s a x len F Hx Hr R Hex Hl) as (r & s' & x' & Ht & T' & _). eexists _, s', x'. split; [exact Ht|]. apply H; apply T'.
Qed.

Lemma ex_apart : apart ex_fs (din ex_file) (din ex_gone).
Proof. intros c H1 H2. apply one_block_owned in H1, H2. congruence. Qed.

Lemma sfs_files_apart_witness : exists res s' x', sfs_write 2 [33; 33] 5 ex_fs = Ret (res, s') /\ contents s' (din ex_gone) = [0; 0] /\ nodes s' !! 2 = Some x'.
Proof.
  assert (Rg : regular ex_fs (din ex_gone)) by (split; [apply one_block_file, ex_used; lia|cbn; unfold SFS_BLKSIZE; lia|done|done]).
  destruct (sfs_files_apart ex_fs 2 ex_file (din ex_gone) ex_fs_ok eq_refl eq_refl ex_regular ltac:(done) Rg ex_apart) as [H _].
  destruct (H [33; 33] 5 ltac:(done) ltac:(done) ltac:(done) ltac:(repeat constructor; done)) as (res & s' & x' & Hw & Hx & _ & Hc & _).
  exists res, s', x'. split; [exact Hw|]. split; [|exact Hx]. rewrite Hc. vm_compute. reflexivity.
Defined.

(** C15: Setting the size of a file to [len] gives it just the blocks that [len] bytes
    need; its contents are cut, or continued with what its last block holds and with zeros.
    When the disk is full the contents stay as they were, but the file is not promised to
    keep only the blocks it needs. *)
Theorem sfs_truncfile_spec s a x len :
  fs_ok s -> nodes s !! a = Some x -> removed x = false -> regular s (din x) -> exact (din x) -> 0 <= len <= SFS_MAX_FILE_SIZE ->
  exists r s' x', sfs_truncfile a len s = Ret (r, s') /\ fs_ok s' /\ nodes s' = <[a := x']> (nodes s) /\ regular s' (din x') /\
    ((r = 0 /\ exact (din x') /\ contents s' (din x') = (fun k => before s (din x) (Z.of_nat k)) <$> seq 0 (Z.to_nat len)) \/
     (r = - E_NO_MEM /\ contents s' (din x') = contents s (din x))).
Proof.
  intros F Hx Hr R Hex Hl. destruct (truncfile_run s a x len F Hx Hr R Hex Hl) as (r & s' & x' & Ht & T' & Hc). exists r, s', x'. split; [done|]. split; [apply T'|]. split; [apply T'|].
  split; [apply T'|done].
Qed.

Lemma sfs_truncfile_spec_witness : exists s' x', sfs_truncfile 2 2 ex_fs = Ret (0, s') /\ contents s' (din x') = [104; 101] /\ exact (din x').
Proof.
  destruct (sfs_truncfile_spec ex_fs 2 ex_file 2 ex_fs_ok eq_refl eq_refl ex_regular ltac:(done) ltac:(done)) as (r & s' & x' & Ht & _ & _ & _ & Hc).
  assert (Hr : match sfs_truncfile 2 2 ex_fs with Ret (r, _) => r = 0 | _ => False end) by (vm_compute; reflexivity). rewrite Ht in Hr. subst r.
  destruct Hc as [(_ & Hex & Hc)|[? _]]; [|done]. exists s', x'. split; [exact Ht|]. split; [|exact Hex]. rewrite Hc. vm_compute. reflexivity.
Defined.

(** C6: When the last reference to an inode without links goes, its block, the data
    blocks of its file and every index block become free; no other block changes its state
    or its bytes, and the inode is in none of the lists. *)
Theorem sfs_reclaim_spec s a x :
  fs_ok s -> nodes s !! a = Some x -> file_ok s (din x) -> used s (ino x) -> ~ owned s (din x) (ino x) ->
  reclaim_count x = 1 -> ref_count x = 0 -> open_count x = 0 -> nlinks (din x) = 0 ->
  exists s', sfs_reclaim a s = Ret (0, s') /\ fs_ok s' /\ nodes s' = delete a (nodes s) /\ (a ∉ inode_list s') /\
    (forall c, used s' c <-> used s c /\ ~ owned s (din x) c /\ c <> ino x) /\ (forall c, used s' c -> blk s' c = blk s c).
Proof.
  intros F Hx K Hu Ho Hr1 Hr2 Hr3 Hn. destruct (reclaim_run s a x F Hx K Hu Ho Hr1 Hr2 Hr3 Hn) as (s' & Hr & R). exists s'. split; [done|]. split; [apply R|]. split; [apply R|].
  split; [|split; apply R]. rewrite (rc_list _ _ _ _ R). intros H. apply list_elem_of_filter in H as [H _]. done.
Qed.

Lemma sfs_reclaim_spec_witness : exists s', sfs_reclaim 3 ex_fs = Ret (0, s') /\ ~ used s' 5 /\ ~ used s' 6 /\ used s' 4.
Proof.
  assert (Ho : forall c, owned ex_fs (din ex_gone) c -> c = 6) by (intros c Hc; by apply one_block_owned in Hc).
  destruct (sfs_reclaim_spec ex_fs 3 ex_gone ex_fs_ok eq_refl (one_block_file _ _ _ _ (ex_used 6 ltac:(lia))) (ex_used 5 ltac:(lia))) as (s' & Hr & _ & _ & _ & Hu & _);
    [intros H; apply Ho in H; discriminate H|reflexivity|reflexivity|reflexivity|reflexivity|].
  exists s'. split; [exact Hr|]. split; [|split].
  - intros H. apply Hu in H as (_ & _ & H). by apply H.
  - intros H. apply Hu in H as (_ & H & _). apply H. exists (Data 0). split; [cbn; unfold MAX_BLOCKS, SFS_NDIRECT; rewrite nentry; lia|]. split; [reflexivity|lia].
  - apply Hu. split; [apply ex_used; lia|]. split; [|cbn; lia]. intros H. apply Ho in H. discriminate H.
Defined.

(** ** Inodes on disk *)

(** C25: What [sfs_fsync] writes, [sfs_load_inode] reads back: once a dirty inode is
    written, its copy in memory clean, loading its number from the same disk, with no inode
    of that number in memory, gives an inode with the same disk part. *)
Theorem sfs_fsync_load s a x :
  fs_ok s -> nodes s !! a = Some x -> used s (ino x) -> removed x = false -> nlinks (din x) <> 0 -> dirty x = true -> din_fits (din x) ->
  type (din x) = SFS_TYPE_FILE \/ type (din x) = SFS_TYPE_DIR ->
  exists s', sfs_fsync a s = Ret (0, s') /\ fs_ok s' /\ nodes s' = <[a := set_dirty false x]> (nodes s) /\ (forall c, c <> ino x -> blk s' c = blk s c) /\
    forall s2 l, fs_ok s2 -> mem_results s2 = [] -> disk s2 = disk s' -> used s2 (ino x) ->
      hash_list s2 !! sin_hashfn (ino x) = Some l -> (forall b, b ∈ l -> exists y, nodes s2 !! b = Some y /\ ino y <> ino x) ->
      exists b s3, sfs_load_inode (ino x) s2 = Ret ((0, b), s3) /\ nodes s3 !! b = Some (mk_inode 1 0 (din x) (ino x) false false 1).
Proof.
  intros F Hx Hu Hr Hn Hd Hf Ht. destruct (fsync_run s a x F Hx Hu Hr Hn Hd Hf) as (Hs & F' & Ed). set (s' := written _ _ _) in *. exists s'. split; [done|]. split; [done|].
  split; [done|]. split; [intros c Hc; unfold s'; rewrite blk_written; by rewrite (proj2 (Z.eqb_neq c _))|]. intros s2 l F2 Hm E2 Hu2 Hl Hb.
  assert (E : din_at s2 (ino x) = din x) by (rewrite <- Ed; unfold din_at, blk; by rewrite E2). pose proof (load_inode_run s2 (ino x) l F2 Hm Hu2) as L. rewrite E in L.
  specialize (L Hn Ht Hl Hb). eexists _, _. split; [exact L|]. apply lookup_insert_eq.
Qed.

Definition ex_fresh (s : sfs_fs) : sfs_fs := upd_lists (fun _ => []) id (upd_nodes (fun _ => ∅) s).

Lemma ex_fits : din_fits (din ex_file).
Proof.
  split; try (unfold is_u32, is_u16; cbn; unfold SFS_TYPE_FILE; lia). split; [reflexivity|]. repeat constructor; unfold is_u32; lia.
Qed.

Lemma sfs_fsync_load_witness : exists s' b s3, sfs_fsync 2 ex_fs = Ret (0, s') /\ sfs_load_inode 3 (ex_fresh s') = Ret ((0, b), s3) /\
  nodes s3 !! b = Some (mk_inode 1 0 (din ex_file) 3 false false 1).
Proof.
  destruct (sfs_fsync_load ex_fs 2 ex_file ex_fs_ok eq_refl (ex_used 3 ltac:(lia)) eq_refl ltac:(done) eq_refl) as (s' & Hs & F' & En & _ & H);
    [exact ex_fits|left; reflexivity|].
  assert (E : exists d, s' = written 3 d (at_node 2 (set_dirty false ex_file) ex_fs)).
  { destruct (fsync_run ex_fs 2 ex_file ex_fs_ok eq_refl (ex_used 3 ltac:(lia)) eq_refl ltac:(done) eq_refl) as [Hs' _];
      [exact ex_fits|]. rewrite Hs in Hs'. injection Hs' as ->. by eexists. }
  destruct E as [d ->]. destruct (H (ex_fresh (written 3 d (at_node 2 (set_dirty false ex_file) ex_fs))) []) as (b & s3 & Hl & Hb).
  - destruct F'. by split.
  - reflexivity.
  - reflexivity.
  - apply (ex_used 3). lia.
  - cbn [hash_list ex_fresh upd_lists id]. apply array_lookup. split; [vm_compute; split; congruence|reflexivity].
  - intros b Hb. destruct (not_elem_of_nil _ Hb).
  - eexists _, b, s3. split; [exact Hs|]. split; [exact Hl|exact Hb].
Defined.

(** ** Directories *)

(** C16: [sfs_link_nolock] is insertion into the map of a directory: a name that is there
    gives [-E_EXISTS] and nothing changes; otherwise the map gets the name with the number
    of the inode, and the directory and the inode count one more; on a full disk the map
    stays as it was. *)
Theorem sfs_link_spec s a x l y name :
  fs_ok s -> nodes s !! a = Some x -> nodes s !! l = Some y -> a <> l -> directory s (din x) -> blocks (din x) < MAX_BLOCKS ->
  is_name name -> is_u32 (ino y) -> ino y <> 0 ->
  match dmap s (din x) !! name with
  | Some _ => sfs_link_nolock a l name s = Ret (- E_EXISTS, s)
  | None => exists s' x',
      (sfs_link_nolock a l name s = Ret (0, s') /\ directory s' (din x') /\ dmap s' (din x') = <[name := ino y]> (dmap s (din x)) /\ info0 (din x') = u32 (info0 (din x) + 1) /\
       nodes s' = <[l := set_dirty true (upd_din (fun d => set_nlinks (u16 (nlinks d + 1)) d) y)]> (<[a := x']> (nodes s))) \/
      (sfs_link_nolock a l name s = Ret (- E_NO_MEM, s') /\ nodes s' = <[a := x']> (nodes s) /\ dmap s' (din x') = dmap s (din x))
  end.
Proof.
  intros F Hx Hy Hal Dr Hb Hnm Hu Hn. destruct (link_run s a x l y name F Hx Hy Hal Dr Hb Hnm Hu Hn) as [(m & -> & H)|(-> & s' & x' & H)]; [done|]. exists s', x'.
  destruct H as [(Hr & En & Ed)|(Hr & S' & Ed)]; [left|right].
  - split; [done|]. split; [apply En|]. split; [done|]. split; [apply (en_count _ _ _ _ _ _ _ _ En)|]. apply (en_nodes _ _ _ _ _ _ _ _ En).
  - split; [done|]. split; [apply S'|done].
Qed.

Lemma ex_directory : directory ex_fs (din ex_root).
Proof. split; [split; [apply empty_dir_file|done|done]|apply NoDup_nil_2]. Qed.

Lemma sfs_link_spec_witness : exists s' x', sfs_link_nolock 1 2 hello ex_fs = Ret (0, s') /\ dmap s' (din x') !! hello = Some 3.
Proof.
  pose proof (sfs_link_spec ex_fs 1 ex_root 2 ex_file hello ex_fs_ok eq_refl eq_refl ltac:(done) ex_directory ltac:(done)
    ltac:(split; [repeat constructor; lia|cbn; lia]) ltac:(unfold is_u32; cbn; lia) ltac:(done)) as H. change (dmap ex_fs (din ex_root) !! hello) with (@None Z) in H. cbv iota in H.
  destruct H as (s' & x' & [(Hr & _ & Hd & _)|(Hr & _)]).
  - exists s', x'. split; [exact Hr|]. rewrite Hd. apply lookup_insert_eq.
  - exfalso. assert (E : match sfs_link_nolock 1 2 hello ex_fs with Ret (r, _) => r = 0 | _ => False end) by (vm_compute; reflexivity). rewrite Hr in E. discriminate E.
Defined.

(** [sfs_rename1_nolock], a new name within a directory: the old name must be there
    and the new one must not; then the map has the inode under the new name in place of the
    old one.  This never needs a block. *)
Theorem sfs_rename1_spec s a x name name' :
  fs_ok s -> nodes s !! a = Some x -> directory s (din x) -> is_name name -> is_name name' -> name <> name' ->
  (forall n m, dmap s (din x) !! n = Some m -> is_u32 m /\ m <> 0) ->
  match dmap s (din x) !! name, dmap s (din x) !! name' with
  | None, _ => sfs_rename1_nolock a name name' s = Ret (- E_NOENT, s)
  | Some _, Some _ => sfs_rename1_nolock a name name' s = Ret (- E_EXISTS, s)
  | Some m, None => exists s' x', sfs_rename1_nolock a name name' s = Ret (0, s') /\ nodes s' = <[a := x']> (nodes s) /\ directory s' (din x') /\
      dmap s' (din x') = <[name' := m]> (delete name (dmap s (din x)))
  end.
Proof.
  intros F Hx Dr Hn Hn' Hne Hm. destruct (rename1_run s a x name name' F Hx Dr Hn Hn' Hne Hm) as [[-> H]|(m & -> & [(m' & -> & H)|(-> & s' & x' & Hr & S' & D' & Ed)])]; [done|done|].
  exists s', x'. split; [done|]. split; [apply S'|done].
Qed.

Lemma sfs_rename1_spec_witness : sfs_rename1_nolock 1 hello [97] ex_fs = Ret (- E_NOENT, ex_fs).
Proof.
  pose proof (sfs_rename1_spec ex_fs 1 ex_root hello [97] ex_fs_ok eq_refl ex_directory ltac:(split; [repeat constructor; lia|cbn; lia]) ltac:(split; [repeat constructor; lia|cbn; lia]) ltac:(done)) as H.
  change (dmap ex_fs (din ex_root)) with (∅ : gmap (list Z) Z) in H. rewrite !lookup_empty in H. apply H. intros n m Hn. by rewrite lookup_empty in Hn.
Defined.

(** ** Paths *)

(** C29: [sfs_lookup] walks the path along the maps of the directories, component by
    component, when the inodes on the way are in memory: [.] stays, [..] goes to the
    parent, a name goes where the map of the directory says; the first component that does
    not lead on gives the code of its error ([-E_NOTDIR] for what is no directory,
    [-E_TOO_BIG], [-E_NOENT]), whatever comes after it.  The inode at the end has exactly
    one more reference, and no other inode, and nothing else, changes; after an error
    nothing at all does.  [sfs_lookup_parent] does so for all components but the last,
    whose directory and name it returns.  The fuel, of the length of the path, is enough. *)
Theorem sfs_lookup_spec s a x path :
  settled s -> nodes s !! a = Some x -> starts_ok path = true -> Forall (fun b => 0 < b < 256) path ->
  (forall r b, resolve s a (components path) = Some (r, b) -> sfs_lookup a path s = arrived r b s) /\
  (forall r b, resolve s a (removelast (components path)) = Some (r, b) ->
     sfs_lookup_parent a path s = arrived_at_parent r b (List.last (components path) []) s).
Proof. apply lookup_run. Qed.

(** A root with the file [a], both in memory. *)
Definition ex_a : list Z := [97].
Definition one_entry : sfs_disk_inode := mk_din 1 1 SFS_TYPE_DIR 2 1 (4 :: zeros 11) 0 0.
Definition ex_top : inode := mk_inode 1 0 one_entry 1 false false 1.
Definition ex_leaf : inode := mk_inode 1 0 (one_block 2 1 5) 3 false false 1.
Definition ex_tree : sfs_fs := mk_sfs 9 2 (zeros 32) false (Bitmap.mk_bitmap 32 1 [384]) [2; 1]
  (array SFS_HLIST_SIZE (fun h => if h =? sin_hashfn 1 then [1] else if h =? sin_hashfn 3 then [2] else []))
  (list_to_map [(1, ex_top); (2, ex_leaf)])
  (array 9 (fun b => if b =? 4 then splice (zeros SFS_BLKSIZE) 0 (entry_bytes (mk_entry 3 (named ex_a))) else zeros SFS_BLKSIZE)) [] [].

Lemma one_entry_file s : used s 4 -> file_ok s one_entry.
Proof.
  intros Hu. destruct (one_block_file s 1 2 4 Hu) as [[A B C] D E]. split; [split|exact D|exact E]; [exact A|exact B|exact C].
Qed.

Lemma ex_settled : settled ex_tree.
Proof.
  assert (Hn : forall b x, nodes ex_tree !! b = Some x -> b = 1 /\ x = ex_top \/ b = 2 /\ x = ex_leaf).
  { intros b x H. cbn in H. apply lookup_insert_Some in H as [[<- <-]|[_ H]]; [by left|].
    apply lookup_insert_Some in H as [[<- <-]|[_ H]]; [by right|done]. }
  destruct ex_fs_ok as [A B C D E G]. split.
  - split; try done. intros b Hb. eexists. split; [apply array_lookup; split; [exact Hb|reflexivity]|]. destruct (b =? 4); [|apply zeros_block].
    apply splice_block; [apply zeros_block|done|vm_compute; done|]. apply (entry_byte 3 ex_a). intros _. split; [repeat constructor; lia|cbn; lia].
  - intros b x Hx. destruct (Hn b x Hx) as [[-> ->]|[-> ->]]; cbn; lia.
  - intros b x Hx. destruct (Hn b x Hx) as [[-> ->]|[-> ->]]; [|done]. intros _. split; [|done].
    split; [split; [apply one_entry_file; apply (ex_used 4); lia|done|done]|]. vm_compute. repeat constructor; by intros ?%not_elem_of_nil.
Qed.

(** [./a], and the directory of [..//a/]. *)
Lemma sfs_lookup_spec_witness : sfs_lookup 1 [46; 47; 97] ex_tree = Ret ((0, 2), bump 2 ex_tree) /\
  sfs_lookup 1 [97; 47; 97] ex_tree = Ret ((- E_NOTDIR, 0), ex_tree) /\
  sfs_lookup_parent 1 [46; 46; 47; 47; 97; 47] ex_tree = Ret ((0, 1, ex_a), bump 1 ex_tree).
Proof.
  split_and!.
  - apply (proj1 (sfs_lookup_spec ex_tree 1 ex_top [46; 47; 97] ex_settled eq_refl eq_refl ltac:(repeat constructor; lia)) 0 2). vm_compute. reflexivity.
  - apply (proj1 (sfs_lookup_spec ex_tree 1 ex_top [97; 47; 97] ex_settled eq_refl eq_refl ltac:(repeat constructor; lia)) (- E_NOTDIR) 0). vm_compute. reflexivity.
  - apply (proj2 (sfs_lookup_spec ex_tree 1 ex_top [46; 46; 47; 47; 97; 47] ex_settled eq_refl eq_refl ltac:(repeat constructor; lia)) 0 1). vm_compute. reflexivity.
Defined.

(** Walking a path ends whatever the state. *)
Theorem sfs_lookup_terminates a path s : sfs_lookup a path s <> OutOfFuel /\ sfs_lookup_parent a path s <> OutOfFuel.
Proof. destruct (lookup_ends a path) as [H1 H2]. split; [apply H1|apply H2]. Qed.

(** ** How the machine stops *)

(** A fresh file system of 40 blocks, its root directory empty. *)
Definition fresh_fs : sfs_fs := mk_sfs 40 37 (zeros 32) false (Bitmap.mk_bitmap 32768 1024 ((2 ^ 32 - 8) :: 255 :: replicate 1022 0)) []
  (array SFS_HLIST_SIZE (fun _ => [])) ∅ (<[1 := splice (zeros SFS_BLKSIZE) 0 (din_bytes empty_dir)]> (array 40 (fun _ => zeros SFS_BLKSIZE))) [] [].

Definition name_a : list Z := [97].
Definition name_b : list Z := [98].

(** [m] returns the codes [codes], and [k], run after it, stops the machine. *)
Definition stops_after (m : M sfs_fs (list Z)) (codes : list Z) {A} (k : M sfs_fs A) : Prop :=
  match m fresh_fs with Ret (l, s) => l = codes /\ k s = Panic | _ => False end.

(** A directory can be renamed to a name inside itself.  It is then its own parent
    and out of reach of the root; asking for its path, as [getcwd] does, fails the
    assertion of [sfs_namefile] that a directory is not its own parent. *)
Theorem sfs_rename_into_itself :
  stops_after
    (root <- sfs_get_root ;; r1 <- sfs_mkdir root name_a ;; '(r2, a) <- sfs_lookup root name_a ;; r3 <- sfs_rename root name_a a name_b ;; ret [r1; r2; r3; a])
    [0; 0; 0; 2] (sfs_namefile 5 2 100).
Proof. vm_compute. split; reflexivity. Qed.

(** A seek beyond what the disk can hold fails with [-E_NO_MEM] and leaves the file
    with every free block and its old size; truncating the file to that size, as opening
    it with [O_TRUNC] does, fails the assertion of [sfs_truncfile] on its blocks. *)
Theorem sfs_full_disk_truncate :
  stops_after (root <- sfs_get_root ;; '(r1, f) <- sfs_create root name_a false ;; r2 <- sfs_tryseek f 1000000 ;; ret [r1; r2; f])
    [0; - E_NO_MEM; 2] (sfs_truncfile 2 0).
Proof. vm_compute. split; reflexivity. Qed.

(** A directory and then its parent are removed while the directory is in use: [..] of it
    leads to an inode whose block is free. *)
Lemma sfs_parent_of_removed :
  stops_after (root <- sfs_get_root ;; r1 <- sfs_mkdir root name_a ;; '(r2, a) <- sfs_lookup root name_a ;; r3 <- sfs_mkdir a name_b ;;
      '(r4, b) <- sfs_lookup root (name_a ++ 47 :: name_b) ;; r5 <- sfs_unlink a name_b ;; r6 <- sfs_unlink root name_a ;; _ <- vop_ref_dec a ;; ret [r1; r2; r3; r4; r5; r6; b])
    [0; 0; 0; 0; 0; 0; 3] (sfs_lookup 3 dotdot).
Proof. vm_compute. split; reflexivity. Qed.

(** A file is cut while another open file has its offset beyond the new end. *)
Lemma sfs_write_beyond_end :
  stops_after (root <- sfs_get_root ;; '(r1, f) <- sfs_create root name_a false ;; r2 <- sfs_tryseek f 10000 ;; r3 <- sfs_truncfile f 0 ;; ret [r1; r2; r3; f])
    [0; 0; 0; 2] (sfs_write 2 [1; 2; 3] 10000).
Proof. vm_compute. split; reflexivity. Qed.

(** Bytes cut off come back when the file grows again. *)
Lemma sfs_cut_bytes_return :
  match (root <- sfs_get_root ;; '(r1, f) <- sfs_create root name_a false ;; _ <- sfs_write f hello 0 ;; _ <- sfs_truncfile f 1 ;; _ <- sfs_truncfile f 5 ;;
         '(_, _, _, l) <- sfs_read f 0 10 ;; ret l) fresh_fs with Ret (l, _) => l = hello | _ => False end.
Proof. vm_compute. reflexivity. Qed.
End SfsSpec.
