(* ===== verification/Vfs.v ===== *)
(** * The virtual file system (src/code/kern/fs/vfs)

    Named devices (vfsdev.c), the file system of paths that start with a slash (vfs.c),
    the translation of paths (vfslookup.c), the current directory (vfspath.c) and the
    operations on paths (vfsfile.c).  They reach inodes and file systems only through the
    tables of operations of inode.h and vfs.h: the interface [InodeOps].  The semaphores
    around the device list, the boot file system and the current directory are left out:
    each operation is one step. *)

From S2P Require Import Prelude.
Open Scope Z_scope.

Module Vfs.

Definition O_RDONLY : Z := 0.
Definition O_WRONLY : Z := 1.
Definition O_RDWR : Z := 2.
Definition O_CREAT : Z := 0x4.
Definition O_EXCL : Z := 0x8.
Definition O_TRUNC : Z := 0x10.
Definition O_ACCMODE : Z := 3.
Definition S_IFMT : Z := 0x7000.
Definition S_IFDIR : Z := 0x2000.
Definition FS_MAX_DNAME_LEN : Z := 31.
Definition SLASH : Z := 47.
Definition COLON : Z := 58.

Definition S_ISDIR (mode : Z) : bool := Z.land mode S_IFMT =? S_IFDIR.

(** ** What the code below provides

    [W] is the state of the file systems and devices, [N] the pointers to inodes, [F]
    those to file systems.  A routine that stores an inode returns it beside its code.
    Those that write to a descriptor get the bytes it has room for, and return the bytes
    they write and by how many the descriptor moves. *)
Class InodeOps (W N F : Type) := {
  in_fs : N -> W -> option F;
  check_device : N -> W -> bool;
  vop_ref_inc : N -> M W Z;
  vop_ref_dec : N -> M W Z;
  vop_open_inc : N -> M W Z;
  vop_open_dec : N -> M W Z;
  vop_open : N -> Z -> M W Z;
  vop_truncate : N -> Z -> M W Z;
  vop_gettype : N -> M W (Z * Z);
  vop_lookup : N -> list Z -> M W (Z * option N);
  vop_lookup_parent : N -> list Z -> M W (Z * option N * list Z);
  vop_create : N -> list Z -> bool -> M W (Z * option N);
  vop_unlink : N -> list Z -> M W Z;
  vop_mkdir : N -> list Z -> M W Z;
  vop_rename : N -> list Z -> N -> list Z -> M W Z;
  vop_link : N -> list Z -> N -> M W Z;
  vop_symlink : N -> list Z -> list Z -> M W Z;
  vop_readlink : N -> Z -> M W (Z * list Z * Z);
  vop_namefile : N -> Z -> M W (Z * list Z * Z);
  fsop_get_root : F -> M W (option N);
  fsop_sync : F -> M W Z;
  fsop_unmount : F -> M W Z;
  fsop_cleanup : F -> M W unit
}.

Section Ops.
Context {W N F : Type} `{EqDecision N, EqDecision F} {ops : InodeOps W N F}.

(** A device of the list; NULL is [None]. *)
Record vfs_dev_t := mk_vdev { devname : list Z; devnode : option N; fs : option F; mountable : bool }.

Definition set_fs (x : option F) (d : vfs_dev_t) : vfs_dev_t :=
  mk_vdev (devname d) (devnode d) x (mountable d).

(** The device list from its head, the inode paths with a leading slash start from, the
    current directory of the running process, what is below, and the answers of
    [kmalloc]. *)
Record vfs_t := mk_vfs {
  vdev_list : list vfs_dev_t;
  bootfs_node : option N;
  pwd : option N;
  world : W;
  vmem : list bool
}.

Definition put_devs l s := mk_vfs l (bootfs_node s) (pwd s) (world s) (vmem s).
Definition put_bootfs x s := mk_vfs (vdev_list s) x (pwd s) (world s) (vmem s).
Definition put_pwd x s := mk_vfs (vdev_list s) (bootfs_node s) x (world s) (vmem s).
Definition put_world w s := mk_vfs (vdev_list s) (bootfs_node s) (pwd s) w (vmem s).
Definition put_mem l s := mk_vfs (vdev_list s) (bootfs_node s) (pwd s) (world s) l.

(** A call of what is below. *)
Definition below {A} (m : M W A) : M vfs_t A := fun s =>
  match m (world s) with
  | Ret (a, w) => Ret (a, put_world w s)
  | Panic => Panic
  | OutOfFuel => OutOfFuel
  end.

Definition kmalloc : M vfs_t bool :=
  s <- get ;; match vmem s with [] => ret true | b :: l => modify (put_mem l) ;; ret b end.

(** [vop_fs(node)]. *)
Definition node_fs (n : N) : M vfs_t (option F) := gets (fun s => in_fs n (world s)).

(** ** Named devices (vfsdev.c) *)

Definition vfs_devlist_init : M vfs_t unit := modify (put_devs []).

(** The loops of [vfs_cleanup] and [vfs_sync]; the codes of [fsop_sync] are ignored. *)
Fixpoint cleanup_devs (l : list vfs_dev_t) : M vfs_t unit :=
  match l with
  | [] => ret tt
  | d :: l => match fs d with Some f => below (fsop_cleanup f) | None => ret tt end ;; cleanup_devs l
  end.

Definition vfs_cleanup : M vfs_t unit := s <- get ;; cleanup_devs (vdev_list s).

Fixpoint sync_devs (l : list vfs_dev_t) : M vfs_t unit :=
  match l with
  | [] => ret tt
  | d :: l =>
      match fs d with Some f => _ <- below (fsop_sync f) ;; ret tt | None => ret tt end ;; sync_devs l
  end.

Definition vfs_sync : M vfs_t Z := s <- get ;; sync_devs (vdev_list s) ;; ret 0.

Definition find_dev (p : vfs_dev_t -> bool) : list vfs_dev_t -> option vfs_dev_t :=
  fix go l := match l with [] => None | d :: l => if p d then Some d else go l end.

Definition is_named (name : list Z) (d : vfs_dev_t) : bool := bool_decide (devname d = name).

(** The file system's root, the device itself when nothing can be mounted on it, or no
    inode yet. *)
Definition vfs_get_root (name : list Z) : M vfs_t (Z * option N) :=
  s <- get ;;
  match find_dev (is_named name) (vdev_list s) with
  | None => ret (- E_NO_DEV, None)
  | Some d =>
      found <- match fs d with
               | Some f => below (fsop_get_root f)
               | None =>
                   if negb (mountable d) then
                     n <- deref (devnode d) ;; _ <- below (vop_ref_inc n) ;; ret (Some n)
                   else ret None
               end ;;
      match found with Some n => ret (0, Some n) | None => ret (- E_NA_DEV, None) end
  end.

Definition vfs_get_devname (f : F) : M vfs_t (option (list Z)) :=
  s <- get ;; ret (devname <$> find_dev (fun d => bool_decide (fs d = Some f)) (vdev_list s)).

(** True when no device has the name. *)
Definition check_devname_conflict (name : list Z) : M vfs_t bool :=
  s <- get ;; ret (match find_dev (is_named name) (vdev_list s) with Some _ => false | None => true end).

Definition vfs_do_add (name : list Z) (node : option N) (f : option F) (m : bool) : M vfs_t Z :=
  s <- get ;;
  assert (match node with None => negb m | Some n => check_device n (world s) end) ;;
  if FS_MAX_DNAME_LEN <? Z.of_nat (length name) then ret (- E_TOO_BIG)
  else
    ok <- kmalloc ;;
    if negb ok then ret (- E_NO_MEM)
    else
      ok <- kmalloc ;;
      if negb ok then ret (- E_NO_MEM)
      else
        free <- check_devname_conflict name ;;
        if negb free then ret (- E_EXISTS)
        else modify (fun s => put_devs (mk_vdev name node f m :: vdev_list s) s) ;; ret 0.

Definition vfs_add_fs (name : list Z) (f : F) : M vfs_t Z := vfs_do_add name None (Some f) false.
Definition vfs_add_dev (name : list Z) (n : N) (m : bool) : M vfs_t Z := vfs_do_add name (Some n) None m.

(** A [vfs_dev_t *] is a position in the list. *)
Fixpoint find_mount_from (i : nat) (name : list Z) (l : list vfs_dev_t) : Z * option nat :=
  match l with
  | [] => (- E_NO_DEV, None)
  | d :: l => if mountable d && is_named name d then (0, Some i) else find_mount_from (S i) name l
  end.

Definition find_mount (name : list Z) : M vfs_t (Z * option nat) :=
  s <- get ;; ret (find_mount_from 0 name (vdev_list s)).

Definition get_vdev (i : nat) : M vfs_t vfs_dev_t := s <- get ;; deref (vdev_list s !! i).
Definition put_vdev_fs (i : nat) (f : option F) : M vfs_t unit :=
  modify (fun s => put_devs (alter (set_fs f) i (vdev_list s)) s).

(** [mountfunc] gets the device's inode and returns its code and what it leaves in the
    [fs] field, which is NULL before the call. *)
Definition vfs_mount (name : list Z) (mountfunc : N -> M W (Z * option F)) : M vfs_t Z :=
  '(r, i) <- find_mount name ;;
  if negb (r =? 0) then ret r
  else
    i <- deref i ;;
    d <- get_vdev i ;;
    match fs d with
    | Some _ => ret (- E_BUSY)
    | None =>
        assert (mountable d) ;;
        n <- deref (devnode d) ;;
        s <- get ;;
        assert (check_device n (world s)) ;;
        '(r, f) <- below (mountfunc n) ;;
        put_vdev_fs i f ;;
        if r =? 0 then assert (bool_decide (f <> None)) ;; ret r else ret r
    end.

(** The second half of [vfs_unmount]: what is written back, and the file system dropped. *)
Definition drop_fs (i : nat) (f : F) : M vfs_t Z :=
  r <- below (fsop_sync f) ;;
  if negb (r =? 0) then ret r
  else
    r <- below (fsop_unmount f) ;;
    if r =? 0 then put_vdev_fs i None ;; ret r else ret r.

Definition vfs_unmount (name : list Z) : M vfs_t Z :=
  '(r, i) <- find_mount name ;;
  if negb (r =? 0) then ret r
  else
    i <- deref i ;;
    d <- get_vdev i ;;
    match fs d with
    | None => ret (- E_INVAL)
    | Some f => assert (mountable d) ;; drop_fs i f
    end.

(** A failure is only printed. *)
Fixpoint unmount_devs (i : nat) (l : list vfs_dev_t) : M vfs_t unit :=
  match l with
  | [] => ret tt
  | d :: l =>
      match fs d with
      | Some f => if mountable d then _ <- drop_fs i f ;; ret tt else ret tt
      | None => ret tt
      end ;;
      unmount_devs (S i) l
  end.

Definition vfs_unmount_all : M vfs_t Z := s <- get ;; unmount_devs 0 (vdev_list s) ;; ret 0.

(** ** The current directory (vfspath.c), the boot file system (vfs.c) and paths
    (vfslookup.c) *)

Definition vfs_get_curdir : M vfs_t (Z * option N) :=
  s <- get ;;
  match pwd s with
  | Some n => _ <- below (vop_ref_inc n) ;; ret (0, Some n)
  | None => ret (- E_NOENT, None)
  end.

Definition vfs_set_curdir (dir : option N) : M vfs_t Z :=
  s <- get ;;
  if bool_decide (pwd s = dir) then ret 0
  else
    r <- match dir with
         | None => ret 0
         | Some n =>
             '(r, type) <- below (vop_gettype n) ;;
             if negb (r =? 0) then ret r
             else if negb (S_ISDIR type) then ret (- E_NOTDIR)
             else _ <- below (vop_ref_inc n) ;; ret 0
         end ;;
    if negb (r =? 0) then ret r
    else
      modify (put_pwd dir) ;;
      match pwd s with Some old => _ <- below (vop_ref_dec old) ;; ret 0 | None => ret 0 end.

Definition change_bootfs (n : option N) : M vfs_t unit :=
  s <- get ;;
  modify (put_bootfs n) ;;
  match bootfs_node s with Some old => _ <- below (vop_ref_dec old) ;; ret tt | None => ret tt end.

Definition vfs_get_bootfs : M vfs_t (Z * option N) :=
  s <- get ;;
  match bootfs_node s with
  | Some n => _ <- below (vop_ref_inc n) ;; ret (0, Some n)
  | None => ret (- E_NOENT, None)
  end.

(** The first colon or slash: which it is, what is before and what is after. *)
Fixpoint split_path (path : list Z) : option (bool * list Z * list Z) :=
  match path with
  | [] => None
  | c :: p =>
      if c =? COLON then Some (true, [], p)
      else if c =? SLASH then Some (false, [], p)
      else match split_path p with Some (k, d, q) => Some (k, c :: d, q) | None => None end
  end.

Fixpoint skip_slashes (path : list Z) : list Z :=
  match path with c :: p => if c =? SLASH then skip_slashes p else path | [] => [] end.

(** The code, the inode to start from and the path from there. *)
Definition get_device (path : list Z) : M vfs_t (Z * option N * list Z) :=
  match split_path path with
  | Some (true, (_ :: _) as dev, rest) =>
      '(r, n) <- vfs_get_root dev ;; ret (r, n, skip_slashes rest)
  | Some (false, [], rest) =>
      '(r, n) <- vfs_get_bootfs ;; if negb (r =? 0) then ret (r, None, path) else ret (0, n, skip_slashes rest)
  | Some (true, [], rest) =>
      '(r, n) <- vfs_get_curdir ;;
      if negb (r =? 0) then ret (r, None, path)
      else
        n <- deref n ;;
        f <- node_fs n ;;
        f <- deref f ;;
        root <- below (fsop_get_root f) ;;
        _ <- below (vop_ref_dec n) ;;
        ret (0, root, skip_slashes rest)
  | _ => '(r, n) <- vfs_get_curdir ;; ret (r, n, path)
  end.

Definition vfs_lookup (path : list Z) : M vfs_t (Z * option N) :=
  '(r, n, p) <- get_device path ;;
  if negb (r =? 0) then ret (r, None)
  else
    n <- deref n ;;
    match p with
    | [] => ret (0, Some n)
    | _ => x <- below (vop_lookup n p) ;; _ <- below (vop_ref_dec n) ;; ret x
    end.

Definition vfs_lookup_parent (path : list Z) : M vfs_t (Z * option N * list Z) :=
  '(r, n, p) <- get_device path ;;
  if negb (r =? 0) then ret (r, None, [])
  else
    n <- deref n ;;
    x <- match p with [] => ret (- E_INVAL, None, []) | _ => below (vop_lookup_parent n p) end ;;
    _ <- below (vop_ref_dec n) ;;
    ret x.

Definition vfs_chdir (path : list Z) : M vfs_t Z :=
  '(r, n) <- vfs_lookup path ;;
  if negb (r =? 0) then ret r
  else n <- deref n ;; r <- vfs_set_curdir (Some n) ;; _ <- below (vop_ref_dec n) ;; ret r.

(** [iobuf_move] of [l] to a descriptor with room for [resid] bytes: the code, and the
    bytes that fit. *)
Definition iobuf_put (l : list Z) (resid : Z) : Z * list Z :=
  if Z.of_nat (length l) <=? resid then (0, l) else (- E_NO_MEM, take (Z.to_nat resid) l).

(** The code, what is written at the descriptor's base, and by how much it moves. *)
Definition vfs_getcwd (resid : Z) : M vfs_t (Z * list Z * Z) :=
  '(r, n) <- vfs_get_curdir ;;
  if negb (r =? 0) then ret (r, [], 0)
  else
    n <- deref n ;;
    f <- node_fs n ;;
    f <- deref f ;;
    name <- vfs_get_devname f ;;
    name <- deref name ;;
    let '(r, l1) := iobuf_put name resid in
    let k1 := Z.of_nat (length l1) in
    x <- (if negb (r =? 0) then ret (r, l1, k1)
          else
            let '(r, l2) := iobuf_put [COLON] (resid - k1) in
            let k2 := k1 + Z.of_nat (length l2) in
            if negb (r =? 0) then ret (r, l1 ++ l2, k2)
            else
              '(r, l3, k3) <- below (vop_namefile n (resid - k2)) ;;
              ret (r, l1 ++ l2 ++ l3, k2 + k3)) ;;
    _ <- below (vop_ref_dec n) ;;
    ret x.

(** The name must end in its only colon. *)
Definition vfs_set_bootfs (fsname : option (list Z)) : M vfs_t Z :=
  match fsname with
  | None => change_bootfs None ;; ret 0
  | Some name =>
      let fix strchr l := match l with [] => None | c :: q => if c =? COLON then Some q else strchr q end in
      if bool_decide (strchr name = Some []) then
        r <- vfs_chdir name ;;
        if negb (r =? 0) then ret r
        else
          '(r, n) <- vfs_get_curdir ;;
          if negb (r =? 0) then ret r else change_bootfs n ;; ret 0
      else ret (- E_INVAL)
  end.

(** ** Operations on paths (vfsfile.c) *)

(** [open_flags & b]. *)
Definition flag (open_flags b : Z) : bool := negb (Z.land open_flags b =? 0).

Definition vfs_open (path : list Z) (open_flags : Z) : M vfs_t (Z * option N) :=
  let acc := Z.land open_flags O_ACCMODE in
  if negb ((acc =? O_RDONLY) || (acc =? O_WRONLY) || (acc =? O_RDWR)) then ret (- E_INVAL, None)
  else if flag open_flags O_TRUNC && (acc =? O_RDONLY) then ret (- E_INVAL, None)
  else
    '(r, n) <- (if flag open_flags O_CREAT then
                  '(r, dir, name) <- vfs_lookup_parent path ;;
                  if negb (r =? 0) then ret (r, None)
                  else
                    dir <- deref dir ;;
                    x <- below (vop_create dir name (flag open_flags O_EXCL)) ;;
                    _ <- below (vop_ref_dec dir) ;;
                    ret x
                else vfs_lookup path) ;;
    if negb (r =? 0) then ret (r, None)
    else
      n <- deref n ;;
      r <- below (vop_open n open_flags) ;;
      if negb (r =? 0) then _ <- below (vop_ref_dec n) ;; ret (r, None)
      else
        _ <- below (vop_open_inc n) ;;
        if flag open_flags O_TRUNC then
          r <- below (vop_truncate n 0) ;;
          if negb (r =? 0) then
            _ <- below (vop_open_dec n) ;; _ <- below (vop_ref_dec n) ;; ret (r, None)
          else ret (0, Some n)
        else ret (0, Some n).

Definition vfs_close (n : N) : M vfs_t Z :=
  _ <- below (vop_open_dec n) ;; _ <- below (vop_ref_dec n) ;; ret 0.

(** An operation on the last component of a path in its directory. *)
Definition in_parent (path : list Z) (op : N -> list Z -> M vfs_t Z) : M vfs_t Z :=
  '(r, dir, name) <- vfs_lookup_parent path ;;
  if negb (r =? 0) then ret r
  else dir <- deref dir ;; r <- op dir name ;; _ <- below (vop_ref_dec dir) ;; ret r.

Definition vfs_unlink (path : list Z) : M vfs_t Z := in_parent path (fun d name => below (vop_unlink d name)).
Definition vfs_mkdir (path : list Z) : M vfs_t Z := in_parent path (fun d name => below (vop_mkdir d name)).
Definition vfs_symlink (old_path new_path : list Z) : M vfs_t Z :=
  in_parent new_path (fun d name => below (vop_symlink d name old_path)).

(** [a->in_fs == NULL || a->in_fs != b->in_fs]. *)
Definition other_fs (a b : N) : M vfs_t bool :=
  f <- node_fs a ;; g <- node_fs b ;; ret (bool_decide (f = None) || bool_decide (f <> g)).

Definition vfs_rename (old_path new_path : list Z) : M vfs_t Z :=
  '(r, old_dir, old_name) <- vfs_lookup_parent old_path ;;
  if negb (r =? 0) then ret r
  else
    old_dir <- deref old_dir ;;
    '(r, new_dir, new_name) <- vfs_lookup_parent new_path ;;
    if negb (r =? 0) then _ <- below (vop_ref_dec old_dir) ;; ret r
    else
      new_dir <- deref new_dir ;;
      x <- other_fs old_dir new_dir ;;
      r <- (if (x : bool) then ret (- E_XDEV) else below (vop_rename old_dir old_name new_dir new_name)) ;;
      _ <- below (vop_ref_dec old_dir) ;;
      _ <- below (vop_ref_dec new_dir) ;;
      ret r.

Definition vfs_link (old_path new_path : list Z) : M vfs_t Z :=
  '(r, old_node) <- vfs_lookup old_path ;;
  if negb (r =? 0) then ret r
  else
    old_node <- deref old_node ;;
    '(r, new_dir, new_name) <- vfs_lookup_parent new_path ;;
    if negb (r =? 0) then _ <- below (vop_ref_dec old_node) ;; ret r
    else
      new_dir <- deref new_dir ;;
      x <- other_fs old_node new_dir ;;
      r <- (if (x : bool) then ret (- E_XDEV) else below (vop_link new_dir new_name old_node)) ;;
      _ <- below (vop_ref_dec old_node) ;;
      _ <- below (vop_ref_dec new_dir) ;;
      ret r.

Definition vfs_readlink (path : list Z) (resid : Z) : M vfs_t (Z * list Z * Z) :=
  '(r, n) <- vfs_lookup path ;;
  if negb (r =? 0) then ret (r, [], 0)
  else n <- deref n ;; x <- below (vop_readlink n resid) ;; _ <- below (vop_ref_dec n) ;; ret x.

End Ops.

Arguments vfs_dev_t : clear implicits.
Arguments vfs_t : clear implicits.

End Vfs.
