(* ===== verification/Inode.v ===== *)
(** * Counting references

    Reference counts are changed all over the file system, in steps that must cancel out
    on every path through the code, the error paths included.  [moves m d] says that a
    routine changes the counts of a state by exactly [d] of what it returns; the rules
    below go through a routine backwards, subtracting what each call has moved.  Counts
    are compared as 32-bit words, since that is what the code stores. *)

From S2P Require Import Prelude.
Open Scope Z_scope.

(** ** Equality of counts *)

Definition eqm (x y : Z) : Prop := (x - y) mod 2 ^ 32 = 0.

#[export] Instance eqm_equivalence : Equivalence eqm.
Proof.
  unfold eqm. split.
  - intros x. by rewrite Z.sub_diag.
  - intros x y H. apply Z.mod_divide in H as [q H]; [|lia]. apply Z.mod_divide; [lia|]. exists (- q). lia.
  - intros x y z H1 H2. apply Z.mod_divide in H1 as [q1 H1]; [|lia]. apply Z.mod_divide in H2 as [q2 H2]; [|lia].
    apply Z.mod_divide; [lia|]. exists (q1 + q2). lia.
Qed.

#[export] Instance eqm_add : Proper (eqm ==> eqm ==> eqm) Z.add.
Proof.
  intros x x' H1 y y' H2. unfold eqm in *.
  apply Z.mod_divide in H1 as [q1 H1]; [|lia]. apply Z.mod_divide in H2 as [q2 H2]; [|lia].
  apply Z.mod_divide; [lia|]. exists (q1 + q2). lia.
Qed.

Lemma eqm_s32 x : eqm (s32 x) x.
Proof.
  unfold eqm, s32. apply Z.mod_divide; [lia|]. exists (- ((x + 2 ^ 31) / 2 ^ 32)).
  pose proof (Z.div_mod (x + 2 ^ 31) (2 ^ 32)). lia.
Qed.

(** Counts that fit a word and are equal as words are equal. *)
Lemma eqm_small x y : is_u32 x -> is_u32 y -> eqm x y -> x = y.
Proof.
  unfold is_u32, eqm. intros Hx Hy H. apply Z.mod_divide in H as [q H]; [|lia]. nia.
Qed.

(** ** Routines that change counts *)

(** The counts of a state, and what the routines keep true of it. *)
Class Tally (S I : Type) := { tally : S -> I -> Z; sound : S -> Prop }.

Section Moves.
Context {S I : Type} {T : Tally S I}.

Definition moved (s s' : S) (d : I -> Z) : Prop :=
  (sound s -> sound s') /\ (sound s -> forall i, eqm (tally s' i) (tally s i + d i)).

Definition moves {A} (m : M S A) (d : A -> I -> Z) : Prop :=
  forall s a s', m s = Ret (a, s') -> moved s s' (d a).

Definition still {A} : A -> I -> Z := fun _ _ => 0.
Definition quiet {A} (m : M S A) : Prop := moves m still.

Lemma moved_refl s d : (forall i, d i = 0) -> moved s s d.
Proof. intros H. split; [done|]. intros _ i. rewrite H, Z.add_0_r. reflexivity. Qed.

Lemma moved_trans s s' s'' d e : moved s s' d -> moved s' s'' (fun i => e i - d i) -> moved s s'' e.
Proof.
  intros [H1 H2] [H3 H4]. split; [auto|]. intros Hs i.
  rewrite (H4 (H1 Hs) i), (H2 Hs i).
  replace (tally s i + d i + (e i - d i)) with (tally s i + e i) by lia. reflexivity.
Qed.

Lemma moved_ext s s' d e : (forall i, d i = e i) -> moved s s' d -> moved s s' e.
Proof. intros E [H1 H2]. split; [done|]. intros Hs i. rewrite <- E. auto. Qed.

Lemma moved_sound s s' d : (sound s -> moved s s' d) -> moved s s' d.
Proof. intros H. split; intros Hs; apply (H Hs); exact Hs. Qed.

Lemma moves_ext {A} (m : M S A) d e : moves m d -> (forall a i, d a i = e a i) -> moves m e.
Proof. intros H E s a s' Hm. eapply moved_ext; [apply E|eauto]. Qed.

Lemma moves_bind {A B} (m : M S A) (k : A -> M S B) d e :
  moves m d -> (forall a, moves (k a) (fun b i => e b i - d a i)) -> moves (bind m k) e.
Proof.
  intros Hm Hk s b s'' H. apply bind_Ret in H as (a & s' & H1 & H2).
  eapply moved_trans; [exact (Hm _ _ _ H1)|exact (Hk a _ _ _ H2)].
Qed.

Lemma moves_quiet_bind {A B} (m : M S A) (k : A -> M S B) e :
  quiet m -> (forall a, moves (k a) e) -> moves (bind m k) e.
Proof.
  intros Hm Hk. apply (moves_bind _ _ still); [exact Hm|]. intros a.
  eapply moves_ext; [apply Hk|]. intros b i. unfold still. cbv beta. lia.
Qed.

Lemma moves_ret {A} (a : A) e : (forall i, e a i = 0) -> moves (ret a) e.
Proof. intros H s b s' [= <- <-]. by apply moved_refl. Qed.

Lemma moves_panic {A} (e : A -> I -> Z) : moves panic e.
Proof. done. Qed.

Lemma moves_out_of_fuel {A} (e : A -> I -> Z) : moves out_of_fuel e.
Proof. done. Qed.

Lemma moves_assert_bind {B} b (k : unit -> M S B) e :
  (b = true -> moves (k tt) e) -> moves (bind (assert b) k) e.
Proof. intros H s x s'. destruct b; [exact (H eq_refl s x s')|done]. Qed.

Lemma moves_deref_bind {A B} (o : option A) (k : A -> M S B) e :
  (forall a, o = Some a -> moves (k a) e) -> moves (bind (deref o) k) e.
Proof. intros H s x s'. destruct o as [a|]; [exact (H a eq_refl s x s')|done]. Qed.

Lemma quiet_get : quiet get.
Proof. intros s a s' [= <- <-]. by apply moved_refl. Qed.

Lemma quiet_gets {A} (f : S -> A) : quiet (gets f).
Proof. intros s a s' [= <- <-]. by apply moved_refl. Qed.

Lemma quiet_deref {A} (o : option A) : quiet (deref o).
Proof. destruct o; [by apply moves_ret|done]. Qed.

Lemma quiet_assert b : quiet (assert b).
Proof. destruct b; [by apply moves_ret|done]. Qed.

(** A fact about the state read stays in scope for the rest. *)
Lemma moves_get_bind {B} (k : S -> M S B) e :
  (forall s b s', k s s = Ret (b, s') -> moved s s' (e b)) -> moves (bind get k) e.
Proof. intros H s b s' Hk. rewrite bind_get in Hk. eauto. Qed.
End Moves.

Arguments still {I A}.

Create HintDb quiet.
#[export] Hint Resolve quiet_get quiet_gets quiet_deref quiet_assert moves_panic moves_out_of_fuel : quiet.
#[export] Hint Extern 1 (quiet (ret _)) => (apply moves_ret; reflexivity) : quiet.
#[export] Hint Extern 1 (quiet panic) => (apply moves_panic) : quiet.
#[export] Hint Extern 1 (quiet out_of_fuel) => (apply moves_out_of_fuel) : quiet.

(** Go through code that moves no count. *)
Ltac quiet :=
  repeat match goal with
  | |- quiet (bind _ _) => apply moves_quiet_bind; [|intros ?; lazymatch goal with |- moves ?m still => change (quiet m) end]
  | |- quiet (if ?b then _ else _) => destruct b
  | |- quiet (match ?x with _ => _ end) => destruct x
  | |- quiet (let _ := _ in _) => cbv zeta
  | |- quiet _ => solve [eauto 4 with quiet]
  end.

Tactic Notation "quiet_in" reference(f) := unfold f; cbv zeta; quiet.

(** ** Counts of inodes *)

(** The two counts of an inode. *)
Inductive count := Refs | Opens.

#[export] Instance count_eq_dec : EqDecision count.
Proof. solve_decision. Defined.

(** One more at [j]. *)
Definition one {I} `{EqDecision I} (j i : I) : Z := if bool_decide (i = j) then 1 else 0.

Lemma one_eq {I} `{EqDecision I} (j : I) : one j j = 1.
Proof. unfold one. by rewrite bool_decide_true. Qed.

Lemma one_ne {I} `{EqDecision I} (j i : I) : i <> j -> one j i = 0.
Proof. intros H. unfold one. by rewrite bool_decide_false. Qed.

Create HintDb moves.
#[export] Hint Unfold still : moves.

(** Settle the counts where the code returns. *)
Ltac settle :=
  cbv beta iota; autounfold with moves; cbn [fst snd];
  repeat match goal with |- context [match ?x with (_, _) => _ end] => destruct x end;
  repeat match goal with
  | H : negb (?r =? 0) = _ |- _ => destruct (Z.eqb_spec r 0) as [?Hr|?Hr]; cbn [negb] in H; [try discriminate H|try discriminate H]; clear H
  | H : (?r =? 0) = _ |- _ => destruct (Z.eqb_spec r 0) as [?Hr|?Hr]; [try discriminate H|try discriminate H]; clear H
  end; simplify_eq; repeat match goal with |- context [(- ?e) =? 0] => change (- e =? 0) with false end;
  rewrite ?Z.eqb_refl;
  repeat match goal with H : ?r <> 0 |- context [?r =? 0] => rewrite (proj2 (Z.eqb_neq r 0) H) end;
  cbv iota; lia.

(** Go through code that moves counts. *)
Ltac crun :=
  repeat match goal with
  | |- moves (let _ := _ in _) _ => cbv zeta
  | |- moves (bind get (fun s => bind (deref _) _)) _ => apply moves_quiet_bind; [exact quiet_get|intros ?]
  | |- moves (bind (assert _) _) _ => apply moves_assert_bind; intros ?
  | |- moves (bind (deref _) _) _ => apply moves_deref_bind; intros ? ?
  | |- moves (bind get _) _ => fail 1
  | |- moves (bind _ _) _ => apply moves_quiet_bind; [solve [quiet]|intros ?]
  | |- moves (bind _ _) _ => eapply moves_bind; [solve [eauto 4 with moves]|intros ?]
  | |- moves (if ?b then _ else _) _ => destruct b eqn:?
  | |- moves (match ?x with _ => _ end) _ => destruct x eqn:?
  | |- moves (ret _) _ => apply moves_ret; intros ?i; settle
  | |- moves panic _ => apply moves_panic
  | |- moves out_of_fuel _ => apply moves_out_of_fuel
  | |- moves ?m _ => solve [apply (moves_ext m still); [change (quiet m); quiet|intros ? ?; settle]]
  | |- moves _ _ => eapply moves_ext; [solve [eauto 4 with moves]|intros ? ?; settle]
  end.

Tactic Notation "moves_in" reference(f) := unfold f; try unfold quiet at 1; cbv zeta; crun.

(** * The counts of an inode (src/code/kern/fs/vfs/inode.c)

    Every kind of inode has a reference count and an open count, kept by the same code
    whatever its operations are: a section over where the counts are and over the
    operations the code calls when one of them reaches 0. *)


Module Inode.

Definition MAX_INODE_COUNT : Z := 0x10000.

(** [ref_count] and [open_count]. *)
Record counts := mk_counts { ref_count : Z; open_count : Z }.

Definition count_in (k : count) (c : counts) : Z := match k with Refs => ref_count c | Opens => open_count c end.

(** What [inode_init] leaves, its [vop_ref_inc] included. *)
Definition inode_init : counts := mk_counts 1 0.

Section Inode.
Context {S N : Type} `{EqDecision N}.
(** Where the counts of an inode are. *)
Variable counts_of : S -> N -> option counts.
Variable put_counts : N -> counts -> S -> S.
(** The operations of its table that the counts call. *)
Variables vop_reclaim vop_close : N -> M S Z.

Definition get_counts (n : N) : M S counts := s <- get ;; deref (counts_of s n).

Definition inode_check (n : N) : M S unit :=
  c <- get_counts n ;;
  assert ((open_count c <=? ref_count c) && (0 <=? open_count c)) ;;
  assert ((ref_count c <? MAX_INODE_COUNT) && (open_count c <? MAX_INODE_COUNT)).

Definition inode_ref_inc (n : N) : M S Z :=
  c <- get_counts n ;;
  let r := s32 (ref_count c + 1) in
  modify (put_counts n (mk_counts r (open_count c))) ;; ret r.

(** What [vop_reclaim] returns is only printed. *)
Definition inode_ref_dec (n : N) : M S Z :=
  c <- get_counts n ;;
  assert (0 <? ref_count c) ;;
  let r := ref_count c - 1 in
  modify (put_counts n (mk_counts r (open_count c))) ;;
  (if r =? 0 then inode_check n ;; _ <- vop_reclaim n ;; ret tt else ret tt) ;;
  ret r.

Definition inode_open_inc (n : N) : M S Z :=
  c <- get_counts n ;;
  let r := s32 (open_count c + 1) in
  modify (put_counts n (mk_counts (ref_count c) r)) ;; ret r.

Definition inode_open_dec (n : N) : M S Z :=
  c <- get_counts n ;;
  assert (0 <? open_count c) ;;
  let r := open_count c - 1 in
  modify (put_counts n (mk_counts (ref_count c) r)) ;;
  (if r =? 0 then inode_check n ;; _ <- vop_close n ;; ret tt else ret tt) ;;
  ret r.

(** The routines with an empty table entry. *)
Definition null_vop_pass : M S Z := ret 0.
Definition null_vop_inval : M S Z := ret (- E_INVAL).
Definition null_vop_unimp : M S Z := ret (- E_UNIMP).
Definition null_vop_isdir : M S Z := ret (- E_ISDIR).
Definition null_vop_notdir : M S Z := ret (- E_NOTDIR).

(** ** What they move *)

Context {T : Tally S (count * N)}.

(** The counts are those of the tally, and storing them keeps what the state promises. *)
Class CountsIn : Prop := {
  tally_counts s k n : tally s (k, n) = match counts_of s n with Some c => count_in k c | None => 0 end;
  counts_put s n c m : counts_of s n <> None ->
    counts_of (put_counts n c s) m = if bool_decide (m = n) then Some c else counts_of s m;
  sound_put s n c : counts_of s n <> None -> sound s -> sound (put_counts n c s)
}.
Context {L : CountsIn}.

Lemma get_counts_Ret n s c s' : get_counts n s = Ret (c, s') -> counts_of s n = Some c /\ s' = s.
Proof using. unfold get_counts. rewrite bind_get. destruct (counts_of s n); [|done]. by intros [= -> ->]. Qed.

Lemma quiet_get_counts n : quiet (get_counts n).
Proof using. quiet_in get_counts. Qed.

Lemma quiet_check n : quiet (inode_check n).
Proof using. pose proof quiet_get_counts. quiet_in inode_check. Qed.

Lemma moved_put s n c c' d :
  counts_of s n = Some c -> (forall k, eqm (count_in k c') (count_in k c + d k)) ->
  moved s (put_counts n c' s) (fun i => if bool_decide (snd i = n) then d (fst i) else 0).
Proof using L.
  intros Hc Hd. assert (Hn : counts_of s n <> None) by (rewrite Hc; discriminate). split; [by apply sound_put|].
  intros _ [k m]. rewrite !tally_counts, counts_put by done. cbn. case_bool_decide as E.
  - subst m. rewrite Hc. apply Hd.
  - rewrite Z.add_0_r. reflexivity.
Qed.

Lemma moves_set {B} n (g : counts -> bool) (f : counts -> counts) (m : counts -> M S B) d (e : B -> count * N -> Z) :
  (forall c k, g c = true -> eqm (count_in k (f c)) (count_in k c + d k)) ->
  (forall c, moves (m c) (fun b i => e b i - if bool_decide (snd i = n) then d (fst i) else 0)) ->
  moves (c <- get_counts n ;; assert (g c) ;; modify (put_counts n (f c)) ;; m c) e.
Proof using L.
  intros Hf Hm s b s'' H. apply bind_Ret in H as (c & ? & [Hc ->]%get_counts_Ret & H).
  destruct (g c) eqn:Hg; [|done]. cbn [assert] in H. rewrite bind_ret, bind_modify in H.
  eapply moved_trans; [exact (moved_put s n c (f c) d Hc (fun k => Hf c k Hg))|exact (Hm c _ _ _ H)].
Qed.

Lemma one_at (k : count) (n : N) i : one (k, n) i = if bool_decide (snd i = n) then one k (fst i) else 0.
Proof using.
  destruct i as [k' m]. unfold one. cbn. repeat case_bool_decide; (reflexivity || congruence).
Qed.

Lemma moves_inode_ref_inc n : moves (inode_ref_inc n) (fun _ => one (Refs, n)).
Proof using L.
  apply (moves_set n (fun _ => true) (fun c => mk_counts (s32 (ref_count c + 1)) (open_count c)) _ (one Refs)).
  - intros c [] _; cbn; [apply eqm_s32|by rewrite Z.add_0_r].
  - intros c. apply moves_ret. intros i. rewrite one_at. lia.
Qed.

Lemma moves_inode_open_inc n : moves (inode_open_inc n) (fun _ => one (Opens, n)).
Proof using L.
  apply (moves_set n (fun _ => true) (fun c => mk_counts (ref_count c) (s32 (open_count c + 1))) _ (one Opens)).
  - intros c [] _; cbn; [by rewrite Z.add_0_r|apply eqm_s32].
  - intros c. apply moves_ret. intros i. rewrite one_at. lia.
Qed.

Lemma moves_inode_ref_dec n : quiet (vop_reclaim n) -> moves (inode_ref_dec n) (fun _ i => - one (Refs, n) i).
Proof using L.
  intros Hr. apply (moves_set n (fun c => 0 <? ref_count c) (fun c => mk_counts (ref_count c - 1) (open_count c)) _ (fun k => - one Refs k)).
  - intros c [] _; cbn; [reflexivity|by rewrite Z.add_0_r].
  - intros c. apply moves_quiet_bind.
    + destruct (_ =? 0); [|by apply moves_ret]. apply moves_quiet_bind; [apply quiet_check|intros _].
      apply moves_quiet_bind; [done|intros _]. by apply moves_ret.
    + intros _. apply moves_ret. intros i. rewrite one_at. case_bool_decide; lia.
Qed.

Lemma moves_inode_open_dec n : quiet (vop_close n) -> moves (inode_open_dec n) (fun _ i => - one (Opens, n) i).
Proof using L.
  intros Hr. apply (moves_set n (fun c => 0 <? open_count c) (fun c => mk_counts (ref_count c) (open_count c - 1)) _ (fun k => - one Opens k)).
  - intros c [] _; cbn; [by rewrite Z.add_0_r|reflexivity].
  - intros c. apply moves_quiet_bind.
    + destruct (_ =? 0); [|by apply moves_ret]. apply moves_quiet_bind; [apply quiet_check|intros _].
      apply moves_quiet_bind; [done|intros _]. by apply moves_ret.
    + intros _. apply moves_ret. intros i. rewrite one_at. case_bool_decide; lia.
Qed.
End Inode.

End Inode.
