(* ===== verification/SfsRef.v ===== *)
(** * The simple file system: every reference taken is given back

    The counts of the inodes in memory, through all of sfs_inode.c.  Most routines leave
    every count as it is ([quiet]); loading, creating and looking up give exactly one
    reference to the inode they return, and none when they fail; the operations on
    directories balance on every path.  Uses the rules of [Tally]. *)

From S2P Require Import Prelude Bitmap CString SfsDisk Sfs SfsDir SfsNode Inode.
Import SfsDisk Sfs SfsDir.
Open Scope Z_scope.

Module SfsRef.

Definition count_of (k : count) (x : inode) : Z := match k with Refs => ref_count x | Opens => open_count x end.

(** An address that holds no inode counts 0; NULL never holds one. *)
#[export] Instance sfs_tally : Tally sfs_fs (count * Z) := {
  tally s i := match nodes s !! snd i with Some x => count_of (fst i) x | None => 0 end;
  sound s := nodes s !! 0 = None
}.

(** A routine that returns a code and, when it is 0, an inode it holds a reference to. *)
Definition got (r a : Z) (i : count * Z) : Z := if r =? 0 then one (Refs, a) i else 0.

#[export] Hint Unfold got : moves.

(** ** Routines that move no count *)

(** Changes of an inode that keep its counts. *)
Definition keeps (f : inode -> inode) : Prop := forall k x, count_of k (f x) = count_of k x.

Lemma nodes_moved s s' : nodes s' = nodes s -> moved s s' (fun _ : count * Z => 0).
Proof. intros E. split; cbn; rewrite E; [done|]. intros _ i. rewrite Z.add_0_r. reflexivity. Qed.

Lemma quiet_modify f : (forall s, nodes (f s) = nodes s) -> quiet (I := count * Z) (modify f).
Proof. intros H s a s' [= <- <-]. apply nodes_moved, H. Qed.

Lemma quiet_on_freemap {A} (m : M Bitmap.bitmap A) : quiet (I := count * Z) (on_freemap m).
Proof.
  intros s a s'. unfold on_freemap. destruct (m (freemap s)) as [[x b]| |]; [|done|done].
  intros [= <- <-]. by apply nodes_moved.
Qed.

Lemma quiet_set_node f a : keeps f -> quiet (I := count * Z) (set_node f a).
Proof.
  intros Hf s u s'. unfold set_node, get_node. rewrite bind_Ret. intros (x & t & H & [= <- <-]).
  rewrite bind_get in H. destruct (nodes s !! a) as [y|] eqn:E; [|done]. injection H as -> <-. split; cbn.
  - intros Hs. destruct (decide (a = 0)) as [->|Ha]; [congruence|]. by rewrite lookup_alter_ne.
  - intros _ [k n]. cbn. rewrite Z.add_0_r. destruct (decide (a = n)) as [->|Ha].
    + rewrite lookup_alter_eq, E. cbn. by rewrite Hf.
    + by rewrite lookup_alter_ne.
Qed.

#[export] Hint Resolve quiet_on_freemap : quiet.
#[export] Hint Extern 1 (quiet (modify _)) => (apply quiet_modify; reflexivity) : quiet.
#[export] Hint Extern 1 (quiet (set_node _ _)) => (apply quiet_set_node; intros [] ?; reflexivity) : quiet.

Lemma quiet_get_node a : quiet (I := count * Z) (get_node a).
Proof. quiet_in get_node. Qed.
#[export] Hint Resolve quiet_get_node : quiet.

Lemma quiet_io_result : quiet (I := count * Z) io_result.
Proof. quiet_in io_result. Qed.
#[export] Hint Resolve quiet_io_result : quiet.

Lemma quiet_kmalloc : quiet (I := count * Z) kmalloc.
Proof. quiet_in kmalloc. Qed.
#[export] Hint Resolve quiet_kmalloc : quiet.

Lemma quiet_sfs_rwblock_nolock buf b w c : quiet (I := count * Z) (sfs_rwblock_nolock buf b w c).
Proof. quiet_in sfs_rwblock_nolock. Qed.
#[export] Hint Resolve quiet_sfs_rwblock_nolock : quiet.

Lemma quiet_sfs_rbuf n b o : quiet (I := count * Z) (sfs_rbuf n b o).
Proof. quiet_in sfs_rbuf. Qed.
#[export] Hint Resolve quiet_sfs_rbuf : quiet.

Lemma quiet_sfs_wbuf l b o : quiet (I := count * Z) (sfs_wbuf l b o).
Proof. quiet_in sfs_wbuf. Qed.
#[export] Hint Resolve quiet_sfs_wbuf : quiet.

Lemma quiet_clear_loop n : forall b, quiet (I := count * Z) (clear_loop n b).
Proof. induction n as [|n IH]; intros b; cbn [clear_loop]; cbv zeta; quiet. Qed.
#[export] Hint Resolve quiet_clear_loop : quiet.

Lemma quiet_sfs_clear_block b n : quiet (I := count * Z) (sfs_clear_block b n).
Proof. quiet_in sfs_clear_block. Qed.
#[export] Hint Resolve quiet_sfs_clear_block : quiet.

Lemma quiet_trylock_sin a : quiet (I := count * Z) (trylock_sin a).
Proof. quiet_in trylock_sin. Qed.
#[export] Hint Resolve quiet_trylock_sin : quiet.

Lemma quiet_sfs_get_ops t : quiet (I := count * Z) (sfs_get_ops t).
Proof. quiet_in sfs_get_ops. Qed.
#[export] Hint Resolve quiet_sfs_get_ops : quiet.

Lemma quiet_sfs_set_links a : quiet (I := count * Z) (sfs_set_links a).
Proof. quiet_in sfs_set_links. Qed.
#[export] Hint Resolve quiet_sfs_set_links : quiet.

Lemma quiet_sfs_remove_links a : quiet (I := count * Z) (sfs_remove_links a).
Proof. quiet_in sfs_remove_links. Qed.
#[export] Hint Resolve quiet_sfs_remove_links : quiet.

Lemma quiet_sfs_block_inuse b : quiet (I := count * Z) (sfs_block_inuse b).
Proof. quiet_in sfs_block_inuse. Qed.
#[export] Hint Resolve quiet_sfs_block_inuse : quiet.

Lemma quiet_assert_inuse b : quiet (I := count * Z) (assert_inuse b).
Proof. quiet_in assert_inuse. Qed.
#[export] Hint Resolve quiet_assert_inuse : quiet.

Lemma quiet_sfs_block_alloc : quiet (I := count * Z) sfs_block_alloc.
Proof. quiet_in sfs_block_alloc. Qed.
#[export] Hint Resolve quiet_sfs_block_alloc : quiet.

Lemma quiet_sfs_block_free b : quiet (I := count * Z) (sfs_block_free b).
Proof. quiet_in sfs_block_free. Qed.
#[export] Hint Resolve quiet_sfs_block_free : quiet.

Lemma quiet_sfs_bmap_get_sub_nolock e i c : quiet (I := count * Z) (sfs_bmap_get_sub_nolock e i c).
Proof. quiet_in sfs_bmap_get_sub_nolock. Qed.
#[export] Hint Resolve quiet_sfs_bmap_get_sub_nolock : quiet.

Lemma quiet_bmap_out b : quiet (I := count * Z) (bmap_out b).
Proof. quiet_in bmap_out. Qed.
#[export] Hint Resolve quiet_bmap_out : quiet.

Lemma quiet_sfs_bmap_get_nolock a i c : quiet (I := count * Z) (sfs_bmap_get_nolock a i c).
Proof. quiet_in sfs_bmap_get_nolock. Qed.
#[export] Hint Resolve quiet_sfs_bmap_get_nolock : quiet.

Lemma quiet_sfs_bmap_free_sub_nolock e i : quiet (I := count * Z) (sfs_bmap_free_sub_nolock e i).
Proof. quiet_in sfs_bmap_free_sub_nolock. Qed.
#[export] Hint Resolve quiet_sfs_bmap_free_sub_nolock : quiet.

Lemma quiet_sfs_bmap_free_nolock a i : quiet (I := count * Z) (sfs_bmap_free_nolock a i).
Proof. quiet_in sfs_bmap_free_nolock. Qed.
#[export] Hint Resolve quiet_sfs_bmap_free_nolock : quiet.

Lemma quiet_sfs_bmap_load_nolock a i : quiet (I := count * Z) (sfs_bmap_load_nolock a i).
Proof. quiet_in sfs_bmap_load_nolock. Qed.
#[export] Hint Resolve quiet_sfs_bmap_load_nolock : quiet.

Lemma quiet_sfs_bmap_truncate_nolock a : quiet (I := count * Z) (sfs_bmap_truncate_nolock a).
Proof. quiet_in sfs_bmap_truncate_nolock. Qed.
#[export] Hint Resolve quiet_sfs_bmap_truncate_nolock : quiet.

Lemma quiet_inode_check a : quiet (I := count * Z) (inode_check a).
Proof. quiet_in inode_check. Qed.
#[export] Hint Resolve quiet_inode_check : quiet.

Lemma quiet_sfs_fsync a : quiet (I := count * Z) (sfs_fsync a).
Proof. quiet_in sfs_fsync. Qed.
#[export] Hint Resolve quiet_sfs_fsync : quiet.

Lemma quiet_truncate_all n a : quiet (I := count * Z) (truncate_all n a).
Proof. induction n as [|n IH]; cbn [truncate_all]; cbv zeta; quiet. Qed.
#[export] Hint Resolve quiet_truncate_all : quiet.

Lemma quiet_free_subs n e : forall i, quiet (I := count * Z) (free_subs n e i).
Proof. induction n as [|n IH]; intros i; cbn [free_subs]; cbv zeta; quiet. Qed.
#[export] Hint Resolve quiet_free_subs : quiet.

Lemma quiet_reclaim_blocks a : quiet (I := count * Z) (reclaim_blocks a).
Proof. quiet_in reclaim_blocks. Qed.
#[export] Hint Resolve quiet_reclaim_blocks : quiet.

(** An inode goes only when both its counts are 0. *)
Lemma quiet_inode_kill a : quiet (I := count * Z) (inode_kill a).
Proof.
  intros s u s'. unfold inode_kill, get_node. rewrite bind_Ret. intros (x & t & H & Hk).
  rewrite bind_get in H. destruct (nodes s !! a) as [y|] eqn:E; [|done]. injection H as -> <-.
  destruct (Z.eqb_spec (ref_count x) 0) as [E1|]; [|done]. destruct (Z.eqb_spec (open_count x) 0) as [E2|]; [|done].
  injection Hk as <- <-. split; cbn.
  - intros Hs. destruct (decide (a = 0)) as [->|Ha]; [apply lookup_delete_eq|by rewrite lookup_delete_ne].
  - intros _ [k n]. cbn. rewrite Z.add_0_r. destruct (decide (a = n)) as [->|Ha].
    + rewrite lookup_delete_eq, E. by destruct k; cbn; rewrite ?E1, ?E2.
    + by rewrite lookup_delete_ne.
Qed.
#[export] Hint Resolve quiet_inode_kill : quiet.

Lemma quiet_sfs_reclaim a : quiet (I := count * Z) (sfs_reclaim a).
Proof. quiet_in sfs_reclaim. Qed.
#[export] Hint Resolve quiet_sfs_reclaim : quiet.

Lemma quiet_sfs_close a : quiet (I := count * Z) (sfs_close a).
Proof. quiet_in sfs_close. Qed.
#[export] Hint Resolve quiet_sfs_close : quiet.

Lemma quiet_assert_dir_slot a i f : quiet (I := count * Z) (assert_dir_slot a i f).
Proof. quiet_in assert_dir_slot. Qed.
#[export] Hint Resolve quiet_assert_dir_slot : quiet.

Lemma quiet_sfs_dirent_read_nolock a i : quiet (I := count * Z) (sfs_dirent_read_nolock a i).
Proof. quiet_in sfs_dirent_read_nolock. Qed.
#[export] Hint Resolve quiet_sfs_dirent_read_nolock : quiet.

Lemma quiet_sfs_dirent_write_nolock a i n name : quiet (I := count * Z) (sfs_dirent_write_nolock a i n name).
Proof. quiet_in sfs_dirent_write_nolock. Qed.
#[export] Hint Resolve quiet_sfs_dirent_write_nolock : quiet.

Lemma quiet_count_link a l d : quiet (I := count * Z) (count_link a l d).
Proof. quiet_in count_link. Qed.
#[export] Hint Resolve quiet_count_link : quiet.

Lemma quiet_sfs_dirent_link_nolock a i l name : quiet (I := count * Z) (sfs_dirent_link_nolock a i l name).
Proof. quiet_in sfs_dirent_link_nolock. Qed.
#[export] Hint Resolve quiet_sfs_dirent_link_nolock : quiet.

Lemma quiet_sfs_dirent_unlink_nolock a i l : quiet (I := count * Z) (sfs_dirent_unlink_nolock a i l).
Proof. quiet_in sfs_dirent_unlink_nolock. Qed.
#[export] Hint Resolve quiet_sfs_dirent_unlink_nolock : quiet.

Lemma quiet_search_loop n a name : forall i e, quiet (I := count * Z) (search_loop n a name i e).
Proof. induction n as [|n IH]; intros i e; cbn [search_loop]; cbv zeta; quiet. Qed.
#[export] Hint Resolve quiet_search_loop : quiet.

Lemma quiet_sfs_dirent_search_nolock a name : quiet (I := count * Z) (sfs_dirent_search_nolock a name).
Proof. quiet_in sfs_dirent_search_nolock. Qed.
#[export] Hint Resolve quiet_sfs_dirent_search_nolock : quiet.

Lemma quiet_findino_loop n a w : forall i, quiet (I := count * Z) (findino_loop n a w i).
Proof. induction n as [|n IH]; intros i; cbn [findino_loop]; cbv zeta; quiet. Qed.
#[export] Hint Resolve quiet_findino_loop : quiet.

Lemma quiet_sfs_dirent_findino_nolock a w : quiet (I := count * Z) (sfs_dirent_findino_nolock a w).
Proof. quiet_in sfs_dirent_findino_nolock. Qed.
#[export] Hint Resolve quiet_sfs_dirent_findino_nolock : quiet.

Lemma quiet_sfs_nlinks_inc_nolock a : quiet (I := count * Z) (sfs_nlinks_inc_nolock a).
Proof. quiet_in sfs_nlinks_inc_nolock. Qed.
#[export] Hint Resolve quiet_sfs_nlinks_inc_nolock : quiet.

Lemma quiet_sfs_nlinks_dec_nolock a : quiet (I := count * Z) (sfs_nlinks_dec_nolock a).
Proof. quiet_in sfs_nlinks_dec_nolock. Qed.
#[export] Hint Resolve quiet_sfs_nlinks_dec_nolock : quiet.

Lemma quiet_sfs_dirinfo_set_parent a p : quiet (I := count * Z) (sfs_dirinfo_set_parent a p).
Proof. quiet_in sfs_dirinfo_set_parent. Qed.
#[export] Hint Resolve quiet_sfs_dirinfo_set_parent : quiet.

Lemma quiet_sfs_gettype a : quiet (I := count * Z) (sfs_gettype a).
Proof. quiet_in sfs_gettype. Qed.
#[export] Hint Resolve quiet_sfs_gettype : quiet.

Lemma quiet_grow_loop n a : forall b, quiet (I := count * Z) (grow_loop n a b).
Proof. induction n as [|n IH]; intros b; cbn [grow_loop]; cbv zeta; quiet. Qed.
#[export] Hint Resolve quiet_grow_loop : quiet.

Lemma quiet_shrink_loop n a : quiet (I := count * Z) (shrink_loop n a).
Proof. induction n as [|n IH]; cbn [shrink_loop]; cbv zeta; quiet. Qed.
#[export] Hint Resolve quiet_shrink_loop : quiet.

Lemma quiet_locked a m : quiet m -> quiet (I := count * Z) (locked a m).
Proof. intros H. quiet_in locked. Qed.
#[export] Hint Extern 1 (quiet (locked _ _)) => (apply quiet_locked; quiet) : quiet.

Lemma quiet_sfs_truncfile a len : quiet (I := count * Z) (sfs_truncfile a len).
Proof. quiet_in sfs_truncfile. Qed.
#[export] Hint Resolve quiet_sfs_truncfile : quiet.

Lemma quiet_sfs_link_nolock a l name : quiet (I := count * Z) (sfs_link_nolock a l name).
Proof. quiet_in sfs_link_nolock. Qed.
#[export] Hint Resolve quiet_sfs_link_nolock : quiet.

Lemma quiet_sfs_link a name l : quiet (I := count * Z) (sfs_link a name l).
Proof. quiet_in sfs_link. Qed.
#[export] Hint Resolve quiet_sfs_link : quiet.

Lemma quiet_sfs_rename1_nolock a name name2 : quiet (I := count * Z) (sfs_rename1_nolock a name name2).
Proof. quiet_in sfs_rename1_nolock. Qed.
#[export] Hint Resolve quiet_sfs_rename1_nolock : quiet.

Lemma quiet_sync_loop l : quiet (I := count * Z) (sync_loop l).
Proof. induction l as [|a l IH]; cbn [sync_loop]; cbv zeta; quiet. Qed.
#[export] Hint Resolve quiet_sync_loop : quiet.

Lemma quiet_sfs_sync_super : quiet (I := count * Z) sfs_sync_super.
Proof. quiet_in sfs_sync_super. Qed.
#[export] Hint Resolve quiet_sfs_sync_super : quiet.

Lemma quiet_wblock_loop n : forall b buf, quiet (I := count * Z) (wblock_loop n b buf).
Proof. induction n as [|n IH]; intros b buf; cbn [wblock_loop]; cbv zeta; quiet. Qed.
#[export] Hint Resolve quiet_wblock_loop : quiet.

Lemma quiet_sfs_wblock buf b n : quiet (I := count * Z) (sfs_wblock buf b n).
Proof. quiet_in sfs_wblock. Qed.
#[export] Hint Resolve quiet_sfs_wblock : quiet.

Lemma quiet_sfs_sync_freemap : quiet (I := count * Z) sfs_sync_freemap.
Proof. quiet_in sfs_sync_freemap. Qed.
#[export] Hint Resolve quiet_sfs_sync_freemap : quiet.

Lemma quiet_sfs_sync : quiet (I := count * Z) sfs_sync.
Proof. quiet_in sfs_sync. Qed.
#[export] Hint Resolve quiet_sfs_sync : quiet.

Lemma quiet_sfs_unmount : quiet (I := count * Z) sfs_unmount.
Proof. quiet_in sfs_unmount. Qed.
#[export] Hint Resolve quiet_sfs_unmount : quiet.

Lemma quiet_cleanup_loop n : quiet (I := count * Z) (cleanup_loop n).
Proof. induction n as [|n IH]; cbn [cleanup_loop]; cbv zeta; quiet. Qed.
#[export] Hint Resolve quiet_cleanup_loop : quiet.

Lemma quiet_sfs_cleanup : quiet (I := count * Z) sfs_cleanup.
Proof. quiet_in sfs_cleanup. Qed.
#[export] Hint Resolve quiet_sfs_cleanup : quiet.

(** Mounting. *)
Lemma quiet_sfs_init_read b : quiet (I := count * Z) (sfs_init_read b).
Proof. quiet_in sfs_init_read. Qed.
#[export] Hint Resolve quiet_sfs_init_read : quiet.

Lemma quiet_init_freemap_loop n : forall b acc, quiet (I := count * Z) (init_freemap_loop n b acc).
Proof. induction n as [|n IH]; intros b acc; cbn [init_freemap_loop]; quiet. Qed.
#[export] Hint Resolve quiet_init_freemap_loop : quiet.

Lemma quiet_sfs_init_freemap b n : quiet (I := count * Z) (sfs_init_freemap b n).
Proof. quiet_in sfs_init_freemap. Qed.

Lemma quiet_count_free n : forall i u, quiet (I := count * Z) (count_free n i u).
Proof. induction n as [|n IH]; intros i u; cbn [count_free]; quiet. Qed.
#[export] Hint Resolve quiet_sfs_init_freemap quiet_count_free : quiet.

Lemma quiet_sfs_do_mount bs n : quiet (I := count * Z) (sfs_do_mount bs n).
Proof. quiet_in sfs_do_mount. Qed.

(** ** Routines that move references *)

(** Setting one count of an inode. *)
Lemma moved_alter s a x k v d :
  nodes s !! a = Some x -> eqm v (count_of k x + d) ->
  moved s (upd_nodes (alter (match k with Refs => set_ref v | Opens => set_open v end) a) s) (fun i => d * one (k, a) i).
Proof.
  intros Hx Hv. split; cbn.
  - intros Hs. destruct (decide (a = 0)) as [->|Ha]; [congruence|by rewrite lookup_alter_ne].
  - intros _ [k' n]. cbn. destruct (decide (a = n)) as [->|Ha].
    + rewrite lookup_alter_eq, Hx. cbn. destruct (decide (k' = k)) as [->|Hk].
      * rewrite one_eq, Z.mul_1_r, <- Hv. by destruct k.
      * rewrite one_ne by congruence. rewrite Z.mul_0_r, Z.add_0_r. by destruct k, k'.
    + rewrite lookup_alter_ne by done. rewrite one_ne by congruence. by rewrite Z.mul_0_r, Z.add_0_r.
Qed.

Lemma get_node_Ret a s x s' : get_node a s = Ret (x, s') -> nodes s !! a = Some x /\ s' = s.
Proof. unfold get_node. rewrite bind_get. destruct (nodes s !! a); [|done]. by intros [= -> ->]. Qed.

(** Set one count of an inode that has been read. *)
Lemma set_count_step {B} s a x k v d (m : M sfs_fs B) (e : B -> count * Z -> Z) b s'' :
  nodes s !! a = Some x -> eqm v (count_of k x + d) -> moves m (fun b i => e b i - d * one (k, a) i) ->
  (set_node (match k with Refs => set_ref v | Opens => set_open v end) a ;; m) s = Ret (b, s'') -> moved s s'' (e b).
Proof.
  intros Hx Hv Hm H. apply bind_Ret in H as (u & s' & H1 & H2). unfold set_node in H1.
  apply bind_Ret in H1 as (y & ? & [Hy ->]%get_node_Ret & [= <- <-]).
  eapply moved_trans; [exact (moved_alter s a x k v d Hx Hv)|exact (Hm _ _ _ H2)].
Qed.

(** Read an inode, then set one of its counts. *)
Lemma moves_set_count {B} k a v (d : Z) (m : inode -> M sfs_fs B) (e : B -> count * Z -> Z) (g : inode -> bool) :
  (forall x, g x = true -> eqm (v x) (count_of k x + d)) ->
  (forall x, moves (m x) (fun b i => e b i - d * one (k, a) i)) ->
  moves (x <- get_node a ;; assert (g x) ;;
         set_node (match k with Refs => set_ref (v x) | Opens => set_open (v x) end) a ;; m x) e.
Proof.
  intros Hv Hm s b s'' H. apply bind_Ret in H as (x & ? & [Hx ->]%get_node_Ret & H).
  destruct (g x) eqn:Hg; [|done]. exact (set_count_step s a x k (v x) d (m x) e b s'' Hx (Hv x Hg) (Hm x) H).
Qed.

Lemma moves_vop_ref_inc a : moves (vop_ref_inc a) (fun _ => one (Refs, a)).
Proof.
  eapply moves_ext; [apply (moves_set_count Refs a (fun x => s32 (ref_count x + 1)) 1 (fun x => ret (s32 (ref_count x + 1))) (fun _ i => 1 * one (Refs, a) i) (fun _ => true))|].
  - intros x _. apply eqm_s32.
  - intros x. apply moves_ret. intros i. cbv beta. lia.
  - intros b i. cbv beta. lia.
Qed.

Lemma moves_vop_open_inc a : moves (vop_open_inc a) (fun _ => one (Opens, a)).
Proof.
  eapply moves_ext; [apply (moves_set_count Opens a (fun x => s32 (open_count x + 1)) 1 (fun x => ret (s32 (open_count x + 1))) (fun _ i => 1 * one (Opens, a) i) (fun _ => true))|].
  - intros x _. apply eqm_s32.
  - intros x. apply moves_ret. intros i. cbv beta. lia.
  - intros b i. cbv beta. lia.
Qed.

Lemma moves_vop_ref_dec a : moves (vop_ref_dec a) (fun _ i => - one (Refs, a) i).
Proof.
  apply (moves_set_count Refs a (fun x => ref_count x - 1) (-1) (fun x => (if ref_count x - 1 =? 0 then inode_check a ;; _ <- sfs_reclaim a ;; ret tt else ret tt) ;; ret (ref_count x - 1)) _ (fun x => 0 <? ref_count x)).
  - intros x _. reflexivity.
  - intros x. apply moves_quiet_bind; [quiet|intros _]. apply moves_ret. intros i. cbv beta. lia.
Qed.

Lemma moves_vop_open_dec a : moves (vop_open_dec a) (fun _ i => - one (Opens, a) i).
Proof.
  apply (moves_set_count Opens a (fun x => open_count x - 1) (-1) (fun x => (if open_count x - 1 =? 0 then inode_check a ;; _ <- sfs_close a ;; ret tt else ret tt) ;; ret (open_count x - 1)) _ (fun x => 0 <? open_count x)).
  - intros x _. reflexivity.
  - intros x. apply moves_quiet_bind; [quiet|intros _]. apply moves_ret. intros i. cbv beta. lia.
Qed.

#[export] Hint Resolve moves_vop_ref_inc moves_vop_ref_dec moves_vop_open_inc moves_vop_open_dec : moves.

Lemma moves_sfs_create_inode d n : moves (sfs_create_inode d n) (fun '(r, a) => got r a).
Proof.
  unfold sfs_create_inode. crun. apply moves_get_bind. intros s b s' [= <- <-]. destruct (SfsNode.new_addr_fresh (nodes s)) as [Hf Hp]. split; cbn.
  - intros Hs. by rewrite lookup_insert_ne by lia.
  - intros _ [k m]. cbn. destruct (decide (new_addr (nodes s) = m)) as [<-|Hm].
    + rewrite lookup_insert_eq, Hf. destruct k; cbn; [by rewrite one_eq|by rewrite one_ne].
    + rewrite lookup_insert_ne by done. rewrite one_ne by congruence. rewrite Z.sub_diag || rewrite Z.add_0_r. reflexivity.
Qed.
#[export] Hint Resolve moves_sfs_create_inode : moves.

(** NULL when no inode of the list has the number. *)
Lemma moves_lookup_loop l n : moves (lookup_loop l n) (fun a i => if a =? 0 then 0 else one (Refs, a) i).
Proof.
  induction l as [|a l IH]; cbn [lookup_loop]; [crun|].
  intros s b s'' H. apply bind_Ret in H as (x & ? & [Hx ->]%get_node_Ret & H).
  destruct (ino x =? n); [|exact (IH _ _ _ H)].
  destruct (Z.eqb_spec a 0) as [->|Ha].
  - split; intros Hs; cbn in Hs; congruence.
  - refine (set_count_step s a x Refs (s32 (ref_count x + 1)) 1 _ (fun a i => if a =? 0 then 0 else one (Refs, a) i) b s'' Hx (eqm_s32 _) _ H).
    apply moves_quiet_bind; [quiet|intros _]. apply moves_ret. intros i. rewrite (proj2 (Z.eqb_neq a 0) Ha). lia.
Qed.
#[export] Hint Resolve moves_lookup_loop : moves.

Lemma moves_lookup_sfs_nolock n : moves (lookup_sfs_nolock n) (fun a i => if a =? 0 then 0 else one (Refs, a) i).
Proof. moves_in lookup_sfs_nolock. Qed.
#[export] Hint Resolve moves_lookup_sfs_nolock : moves.

Lemma moves_sfs_load_inode n : moves (sfs_load_inode n) (fun '(r, a) => got r a).
Proof. moves_in sfs_load_inode. Qed.
#[export] Hint Resolve moves_sfs_load_inode : moves.

Lemma moves_sfs_dirent_create_inode t : moves (sfs_dirent_create_inode t) (fun '(r, a) => got r a).
Proof. moves_in sfs_dirent_create_inode. Qed.
#[export] Hint Resolve moves_sfs_dirent_create_inode : moves.

Lemma moves_sfs_load_parent a : moves (sfs_load_parent a) (fun '(r, p) => got r p).
Proof. moves_in sfs_load_parent. Qed.
#[export] Hint Resolve moves_sfs_load_parent : moves.

Lemma moves_sfs_lookup_once a name : moves (sfs_lookup_once a name) (fun '(r, n) => got r n).
Proof. moves_in sfs_lookup_once. Qed.
#[export] Hint Resolve moves_sfs_lookup_once : moves.

(** A step along a path swaps the reference it has for one to the next inode. *)
Lemma moves_lookup_step a d : moves (lookup_step a d) (fun '(r, n) i => got r n i - one (Refs, a) i).
Proof. moves_in lookup_step. Qed.
#[export] Hint Resolve moves_lookup_step : moves.

Lemma moves_lookup_path fuel : forall a path, moves (lookup_path fuel a path) (fun '(r, n) i => got r n i - one (Refs, a) i).
Proof. induction fuel as [|fuel IH]; intros a path; cbn [lookup_path]; crun. Qed.

Lemma moves_parent_path fuel : forall a path, moves (parent_path fuel a path) (fun '(r, n, _) i => got r n i - one (Refs, a) i).
Proof. induction fuel as [|fuel IH]; intros a path; cbn [parent_path]; crun. Qed.
#[export] Hint Resolve moves_lookup_path moves_parent_path : moves.

Lemma moves_sfs_lookup a path : moves (sfs_lookup a path) (fun '(r, n) => got r n).
Proof. moves_in sfs_lookup. Qed.

Lemma moves_sfs_lookup_parent a path : moves (sfs_lookup_parent a path) (fun '(r, n, _) => got r n).
Proof. moves_in sfs_lookup_parent. Qed.

Lemma moves_sfs_create_nolock a name excl : moves (sfs_create_nolock a name excl) (fun '(r, n) => got r n).
Proof. moves_in sfs_create_nolock. Qed.
#[export] Hint Resolve moves_sfs_create_nolock : moves.

Lemma moves_sfs_create a name excl : moves (sfs_create a name excl) (fun '(r, n) => got r n).
Proof. moves_in sfs_create. Qed.

Lemma quiet_sfs_mkdir_nolock a name : quiet (I := count * Z) (sfs_mkdir_nolock a name).
Proof. moves_in sfs_mkdir_nolock. Qed.
#[export] Hint Resolve quiet_sfs_mkdir_nolock : quiet.

Lemma quiet_sfs_mkdir a name : quiet (I := count * Z) (sfs_mkdir a name).
Proof. quiet_in sfs_mkdir. Qed.

Lemma quiet_sfs_unlink_nolock a name : quiet (I := count * Z) (sfs_unlink_nolock a name).
Proof. moves_in sfs_unlink_nolock. Qed.
#[export] Hint Resolve quiet_sfs_unlink_nolock : quiet.

Lemma quiet_sfs_unlink a name : quiet (I := count * Z) (sfs_unlink a name).
Proof. quiet_in sfs_unlink. Qed.

Lemma quiet_sfs_rename2_nolock a name a' name' : quiet (I := count * Z) (sfs_rename2_nolock a name a' name').
Proof. moves_in sfs_rename2_nolock. Qed.
#[export] Hint Resolve quiet_sfs_rename2_nolock : quiet.

Lemma quiet_sfs_rename a name a' name' : quiet (I := count * Z) (sfs_rename a name a' name').
Proof. quiet_in sfs_rename. Qed.

Lemma moves_namefile_loop fuel : forall a acc resid, moves (namefile_loop fuel a acc resid) (fun _ i => - one (Refs, a) i).
Proof. induction fuel as [|fuel IH]; intros a acc resid; cbn [namefile_loop]; crun. Qed.
#[export] Hint Resolve moves_namefile_loop : moves.

Lemma quiet_sfs_namefile fuel a resid : quiet (I := count * Z) (sfs_namefile fuel a resid).
Proof. moves_in sfs_namefile. Qed.

Lemma moves_sfs_get_root : moves sfs_get_root (fun a => one (Refs, a)).
Proof. moves_in sfs_get_root. Qed.

End SfsRef.
