(* ===== verification/PipeFs.v ===== *)
(** * Pipes as inodes (src/code/kern/fs/pipe/pipe_inode.c, pipe_root.c, pipe.c)

    An inode for each end of a pipe, and a root that finds the ends of named pipes: the
    end ["r_x"] reads and ["w_x"] writes the pipe named ["x"].  The ring buffers are those
    of [Pipe].  The lock of the list is left out: each operation is one step. *)

From S2P Require Import Prelude Kern Sched SchedInv Pipe Inode.
Open Scope Z_scope.

Module PipeFs.
Import Kern Sched.

Definition O_RDONLY : Z := 0.
Definition O_WRONLY : Z := 1.
Definition O_ACCMODE : Z := 3.
Definition O_TRUNC : Z := 0x10.
Definition O_APPEND : Z := 0x20.
Definition S_IFCHR : Z := 0x4000.

Inductive pin_type_t := PIN_RDONLY | PIN_WRONLY.

#[export] Instance pin_type_eq_dec : EqDecision pin_type_t.
Proof. solve_decision. Defined.

(** [struct pipe_inode] with the counts of its inode. *)
Record pipe_inode := mk_pin {
  pin_counts : Inode.counts;
  pin_type : pin_type_t;
  name : option (list Z);
  reclaim_count : Z;
  state : Z
}.

Definition set_counts c p := mk_pin c (pin_type p) (name p) (reclaim_count p) (state p).
Definition set_reclaim v p := mk_pin (pin_counts p) (pin_type p) (name p) v (state p).

(** The ring buffers, the counts of the root, the inodes of the ends, the named ones from
    the head of the list, and the answers of [kmalloc] to this code. *)
Record pipe_fs := mk_pfs {
  ps : Pipe.pstate_t;
  root : Inode.counts;
  pins : gmap Z pipe_inode;
  pipe_list : list Z;
  pmem : list bool
}.

Definition put_ps v s := mk_pfs v (root s) (pins s) (pipe_list s) (pmem s).
Definition put_root v s := mk_pfs (ps s) v (pins s) (pipe_list s) (pmem s).
Definition upd_pins f s := mk_pfs (ps s) (root s) (f (pins s)) (pipe_list s) (pmem s).
Definition upd_list f s := mk_pfs (ps s) (root s) (pins s) (f (pipe_list s)) (pmem s).
Definition put_pmem v s := mk_pfs (ps s) (root s) (pins s) (pipe_list s) v.

(** An inode of this file system. *)
Inductive pnode := Root | Pin (a : Z).

#[export] Instance pnode_eq_dec : EqDecision pnode.
Proof. solve_decision. Defined.

Definition buffers {A} (m : M Pipe.pstate_t A) : M pipe_fs A := fun s =>
  match m (ps s) with Ret (a, p) => Ret (a, put_ps p s) | Panic => Panic | OutOfFuel => OutOfFuel end.

Definition kmalloc : M pipe_fs bool :=
  s <- get ;; match pmem s with [] => ret true | b :: l => modify (put_pmem l) ;; ret b end.

Definition get_pin (a : Z) : M pipe_fs pipe_inode := s <- get ;; deref (pins s !! a).
Definition set_pin (f : pipe_inode -> pipe_inode) (a : Z) : M pipe_fs unit :=
  _ <- get_pin a ;; modify (upd_pins (alter f a)).

Definition pcounts (s : pipe_fs) (n : pnode) : option Inode.counts :=
  match n with Root => Some (root s) | Pin a => pin_counts <$> pins s !! a end.
Definition put_pcounts (n : pnode) (c : Inode.counts) (s : pipe_fs) : pipe_fs :=
  match n with Root => put_root c s | Pin a => upd_pins (alter (set_counts c) a) s end.

Section Ops.
Variable sc : sched_class.

(** ** The end of an inode *)

Definition inode_kill (a : Z) : M pipe_fs unit :=
  p <- get_pin a ;;
  assert (Inode.ref_count (pin_counts p) =? 0) ;;
  assert (Inode.open_count (pin_counts p) =? 0) ;;
  modify (upd_pins (delete a)).

Definition pipe_inode_reclaim (a : Z) : M pipe_fs Z :=
  p <- get_pin a ;;
  busy <- match name p with
          | None => ret false
          | Some _ =>
              assert (0 <? reclaim_count p) ;;
              set_pin (set_reclaim (reclaim_count p - 1)) a ;;
              if negb (reclaim_count p - 1 =? 0) || negb (Inode.ref_count (pin_counts p) =? 0) then ret true
              else modify (upd_list (base.filter (fun x => x <> a))) ;; ret false
          end ;;
  if (busy : bool) then ret (- E_BUSY)
  else buffers (Pipe.pipe_state_release (state p)) ;; inode_kill a ;; ret 0.

Definition pipe_inode_close (a : Z) : M pipe_fs Z :=
  p <- get_pin a ;; buffers (Pipe.pipe_state_close sc (state p)) ;; ret 0.

(** The root has no operations but those on names. *)
Definition preclaim (n : pnode) : M pipe_fs Z :=
  match n with Root => Inode.null_vop_inval | Pin a => pipe_inode_reclaim a end.
Definition pclose (n : pnode) : M pipe_fs Z :=
  match n with Root => Inode.null_vop_inval | Pin a => pipe_inode_close a end.

Definition ref_inc : pnode -> M pipe_fs Z := Inode.inode_ref_inc pcounts put_pcounts.
Definition ref_dec : pnode -> M pipe_fs Z := Inode.inode_ref_dec pcounts put_pcounts preclaim.
Definition open_inc : pnode -> M pipe_fs Z := Inode.inode_open_inc pcounts put_pcounts.
Definition open_dec : pnode -> M pipe_fs Z := Inode.inode_open_dec pcounts put_pcounts pclose.

(** ** Ends of pipes (pipe_inode.c) *)

Definition pipe_inode_open (a open_flags : Z) : M pipe_fs Z :=
  if negb (Z.land open_flags (Z.lor O_TRUNC O_APPEND) =? 0) then ret (- E_INVAL)
  else
    p <- get_pin a ;;
    let acc := Z.land open_flags O_ACCMODE in
    ret (if acc =? O_RDONLY then if bool_decide (pin_type p = PIN_RDONLY) then 0 else - E_INVAL
         else if acc =? O_WRONLY then if bool_decide (pin_type p = PIN_WRONLY) then 0 else - E_INVAL
         else - E_INVAL).

Definition pipe_inode_gettype (a : Z) : M pipe_fs (Z * Z) := ret (0, S_IFCHR).

(** Mode, links, blocks and size. *)
Definition pipe_inode_fstat (a : Z) : M pipe_fs (Z * (Z * Z * Z * Z)) :=
  Inode.inode_check pcounts (Pin a) ;;
  '(r, mode) <- pipe_inode_gettype a ;;
  if negb (r =? 0) then ret (r, (0, 0, 0, 0))
  else
    p <- get_pin a ;;
    size <- buffers (Pipe.pipe_state_size (state p) (bool_decide (pin_type p = PIN_WRONLY))) ;;
    ret (0, (mode, 1, 0, size)).

(** The code, the bytes written and by how much the descriptor moves. *)
Definition pipe_inode_namefile (a resid : Z) : M pipe_fs (Z * list Z * Z) :=
  p <- get_pin a ;;
  let l := default [] (name p) in
  let len := Z.of_nat (length l) in
  if resid <? len + 1 then ret (- E_NO_MEM, [], 0) else ret (0, l ++ [0], len + 1).

(** Reading and writing sleep; [fuel] and the waits are those of [Pipe]. *)
Fixpoint buffers_res {A} (r : res Pipe.pstate_t A) (s : pipe_fs) : res pipe_fs A :=
  match r with
  | Ok a p => Ok a (put_ps p s)
  | Stop => Stop
  | NoFuel => NoFuel
  | Sleep p f => Sleep (put_ps p s) (fun s' => buffers_res (f (ps s')) s')
  end.
Definition buffersR {A} (m : R Pipe.pstate_t A) : R pipe_fs A := fun s => buffers_res (m (ps s)) s.

(** The code and the bytes read. *)
Definition pipe_inode_read (fuel : nat) (a resid wl w : Z) : R pipe_fs (Z * list Z) :=
  p <~ lift (get_pin a) ;;
  if bool_decide (pin_type p = PIN_RDONLY) then
    l <~ buffersR (Pipe.pipe_state_read sc fuel (state p) resid wl w) ;; rret (0, l)
  else rret (- E_INVAL, []).

(** The code and the number of bytes written. *)
Definition pipe_inode_write (fuel : nat) (a : Z) (data : list Z) (wl w : Z) : R pipe_fs (Z * Z) :=
  p <~ lift (get_pin a) ;;
  if bool_decide (pin_type p = PIN_WRONLY) then
    left <~ buffersR (Pipe.pipe_state_write sc fuel (state p) data wl w) ;;
    rret (0, Z.of_nat (length data) - Z.of_nat (length left))
  else rret (- E_INVAL, 0).

(** An address that holds no inode. *)
Definition new_addr (m : gmap Z pipe_inode) : Z := foldr Z.max 0 (fst <$> map_to_list m) + 1.

(** The copy of the name, when there is one, and the inode. *)
Definition pipe_create_inode (nm : option (list Z)) (st : Z) (readonly : bool) : M pipe_fs (option Z) :=
  ok <- match nm with None => ret true | Some _ => kmalloc end ;;
  if negb ok then ret None
  else
    ok <- kmalloc ;;
    if negb ok then ret None
    else
      s <- get ;;
      let a := new_addr (pins s) in
      modify (upd_pins <[a := mk_pin Inode.inode_init (if readonly then PIN_RDONLY else PIN_WRONLY) nm 1 st]>) ;;
      ret (Some a).

(** ** Named pipes (pipe_root.c) *)

(** The reading and the writing end found so far. *)
Fixpoint lookup_loop (l : list Z) (nm : list Z) (r w : option Z) : M pipe_fs (option Z * option Z) :=
  match l with
  | [] => ret (r, w)
  | a :: l =>
      p <- get_pin a ;;
      if bool_decide (name p = Some nm) then
        match pin_type p with
        | PIN_RDONLY => assert (bool_decide (r = None))
        | PIN_WRONLY => assert (bool_decide (w = None))
        end ;;
        c <- ref_inc (Pin a) ;;
        (if c =? 1 then set_pin (set_reclaim (s32 (reclaim_count p + 1))) a else ret tt) ;;
        match pin_type p with
        | PIN_RDONLY => lookup_loop l nm (Some a) w
        | PIN_WRONLY => lookup_loop l nm r (Some a)
        end
      else lookup_loop l nm r w
  end.

(** The names of the list's inodes are never NULL: [strcmp] reads them. *)
Definition lookup_pipe_nolock (nm : list Z) : M pipe_fs (option Z * option Z) :=
  s <- get ;; lookup_loop (pipe_list s) nm None None.

(** [assert((name[0] == 'r' || name[0] == 'w') && name[1] == '_')]: the end and the name. *)
Definition end_of (path : list Z) : M pipe_fs (bool * list Z) :=
  match path with
  | c :: u :: nm => assert (((c =? 114) || (c =? 119)) && (u =? 95)) ;; ret (c =? 114, nm)
  | _ => panic
  end.

Definition drop (o : option Z) : M pipe_fs unit :=
  match o with Some a => _ <- ref_dec (Pin a) ;; ret tt | None => ret tt end.

(** The end that is wanted first, then the other one. *)
Definition swap_ends (readonly : bool) (x : option Z * option Z) : option Z * option Z :=
  if readonly then x else (snd x, fst x).

Definition create_end (nm : list Z) (readonly : bool) (other : option Z) : M pipe_fs (Z * option Z) :=
  st <- match other with
        | None => buffers Pipe.pipe_state_create
        | Some b => p <- get_pin b ;; buffers (Pipe.pipe_state_acquire (state p)) ;; ret (Some (state p))
        end ;;
  match st with
  | None => ret (- E_NO_MEM, None)
  | Some st =>
      n <- pipe_create_inode (Some nm) st readonly ;;
      match n with
      | None => buffers (Pipe.pipe_state_release st) ;; ret (- E_NO_MEM, None)
      | Some a => modify (upd_list (cons a)) ;; ret (0, Some a)
      end
  end.

Definition pipe_root_create (path : list Z) (excl : bool) : M pipe_fs (Z * option Z) :=
  '(readonly, nm) <- end_of path ;;
  x <- lookup_pipe_nolock nm ;;
  let '(mine, other) := swap_ends readonly x in
  x <- match mine with
       | Some a => if excl then _ <- ref_dec (Pin a) ;; ret (- E_EXISTS, None) else ret (0, Some a)
       | None => create_end nm readonly other
       end ;;
  drop other ;;
  ret x.

Definition pipe_root_lookup (path : list Z) : M pipe_fs (Z * option Z) :=
  '(readonly, nm) <- end_of path ;;
  x <- lookup_pipe_nolock nm ;;
  let '(mine, other) := swap_ends readonly x in
  drop other ;;
  match mine with None => ret (- E_NOENT, None) | Some a => ret (0, Some a) end.

Definition pipe_root_lookup_parent (path : list Z) : M pipe_fs (Z * option pnode * list Z) :=
  _ <- end_of path ;; _ <- ref_inc Root ;; ret (0, Some Root, path).

(** ** The file system (pipe.c) *)

Definition pipe_sync : M pipe_fs Z := ret 0.
Definition pipe_get_root : M pipe_fs pnode := _ <- ref_inc Root ;; ret Root.
Definition pipe_unmount : M pipe_fs Z := ret (- E_INVAL).
Definition pipe_cleanup : M pipe_fs unit := ret tt.

(** [pipe_open] once it has the root: a pipe without a name, its two ends open.  The
    first error is cleaned up by the second part of the code. *)
Definition open_ends : M pipe_fs (Z * option (Z * Z)) :=
  st <- buffers Pipe.pipe_state_create ;;
  match st with
  | None => ret (- E_NO_MEM, None)
  | Some st =>
      r <- pipe_create_inode None st true ;;
      match r with
      | None => buffers (Pipe.pipe_state_release st) ;; ret (- E_NO_MEM, None)
      | Some r =>
          buffers (Pipe.pipe_state_acquire st) ;;
          w <- pipe_create_inode None st false ;;
          match w with
          | None =>
              _ <- ref_dec (Pin r) ;;
              buffers (Pipe.pipe_state_release st) ;;
              ret (- E_NO_MEM, None)
          | Some w => _ <- open_inc (Pin r) ;; _ <- open_inc (Pin w) ;; ret (0, Some (r, w))
          end
      end
  end.
End Ops.

End PipeFs.

(** * Pipes as inodes: names, ends and references

    A named pipe has at most one inode for each end, and both ends are of one ring buffer:
    an invariant of the list of named ends that every operation keeps.  The same proofs
    count references ([Tally]): finding or creating an end gives one reference to it, and
    every other reference taken on the way is given back. *)

Import PipeFs.

Module PipeFsInv.

(** ** The list of named ends *)

(** What the list and the lookups depend on: not the counts. *)
Definition tag (p : pipe_inode) : pin_type_t * option (list Z) * Z := (pin_type p, name p, state p).
Definition tags (s : pipe_fs) : gmap Z (pin_type_t * option (list Z) * Z) := tag <$> pins s.

Record names_ok (l : list Z) (m : gmap Z (pin_type_t * option (list Z) * Z)) : Prop := {
  ok_nodup : NoDup l;
  ok_listed a : a ∈ l -> exists t nm st, m !! a = Some (t, Some nm, st);
  ok_unique a b t nm st st' : a ∈ l -> b ∈ l -> m !! a = Some (t, Some nm, st) -> m !! b = Some (t, Some nm, st') -> a = b;
  ok_share a b t t' nm st st' : a ∈ l -> b ∈ l -> m !! a = Some (t, Some nm, st) -> m !! b = Some (t', Some nm, st') -> st = st'
}.

Definition pfs_ok (s : pipe_fs) : Prop := names_ok (pipe_list s) (tags s).

#[export] Instance pipe_tally : Tally pipe_fs (count * pnode) := {
  tally s i := match pcounts s (snd i) with Some c => Inode.count_in (fst i) c | None => 0 end;
  sound := pfs_ok
}.

(** Two states with the same names and lists. *)
Definition same (s s' : pipe_fs) : Prop := pipe_list s' = pipe_list s /\ tags s' = tags s.

Lemma same_refl s : same s s.
Proof. done. Qed.

Lemma same_trans s s' s'' : same s s' -> same s' s'' -> same s s''.
Proof. unfold same. intros [-> ->]. done. Qed.

Lemma same_ok s s' : same s s' -> pfs_ok s -> pfs_ok s'.
Proof. unfold pfs_ok. by intros [-> ->]. Qed.

Lemma tags_alter f a s : (forall p, tag (f p) = tag p) -> tags (upd_pins (alter f a) s) = tags s.
Proof.
  intros Hf. unfold tags. cbn. apply map_eq. intros b. rewrite !lookup_fmap.
  destruct (decide (a = b)) as [->|Hb]; [|by rewrite lookup_alter_ne].
  rewrite lookup_alter_eq. destruct (pins s !! b); [cbn; by rewrite Hf|done].
Qed.

Lemma lookup_tags s a p : pins s !! a = Some p -> tags s !! a = Some (tag p).
Proof. intros H. unfold tags. by rewrite lookup_fmap, H. Qed.

Lemma names_ok_nil m : names_ok [] m.
Proof. split; [apply NoDup_nil_2|intros a Ha|intros a b t nm st st' Ha|intros a b t t' nm st st' Ha]; by apply not_elem_of_nil in Ha. Qed.

(** Fewer ends listed. *)
Lemma names_ok_filter l m (P : Z -> Prop) `{!forall x, Decision (P x)} : names_ok l m -> names_ok (base.filter P l) m.
Proof.
  intros [H1 H2 H3 H4]. split.
  - by apply NoDup_filter.
  - intros a [_ Ha]%list_elem_of_filter. eauto.
  - intros a b t nm st st' [_ Ha]%list_elem_of_filter [_ Hb]%list_elem_of_filter. eauto.
  - intros a b t t' nm st st' [_ Ha]%list_elem_of_filter [_ Hb]%list_elem_of_filter. eauto.
Qed.

(** The inode of an end that is not listed goes. *)
Lemma names_ok_delete l m a : (a ∉ l) -> names_ok l m -> names_ok l (delete a m).
Proof.
  intros Ha [H1 H2 H3 H4]. split; [done| | |].
  - intros b Hb. destruct (H2 b Hb) as (t & nm & st & E). exists t, nm, st. rewrite lookup_delete_ne by congruence. done.
  - intros b c t nm st st' Hb Hc. rewrite !lookup_delete_ne by congruence. eauto.
  - intros b c t t' nm st st' Hb Hc. rewrite !lookup_delete_ne by congruence. eauto.
Qed.

(** An inode is made that is not listed. *)
Lemma names_ok_insert l m a x : m !! a = None -> names_ok l m -> names_ok l (<[a := x]> m).
Proof.
  intros Ha [H1 H2 H3 H4]. assert (Hn : a ∉ l) by (intros (t & nm & st & E)%H2; congruence). split; [done| | |].
  - intros b Hb. destruct (H2 b Hb) as (t & nm & st & E). exists t, nm, st. rewrite lookup_insert_ne by congruence. done.
  - intros b c t nm st st' Hb Hc. rewrite !lookup_insert_ne by congruence. eauto.
  - intros b c t t' nm st st' Hb Hc. rewrite !lookup_insert_ne by congruence. eauto.
Qed.

(** A new end is listed: no listed end is the same, and one of the same name has the same
    buffer. *)
Lemma names_ok_cons l m a t nm st :
  (a ∉ l) -> m !! a = Some (t, Some nm, st) ->
  (forall b t' st', b ∈ l -> m !! b = Some (t', Some nm, st') -> t' <> t /\ st' = st) ->
  names_ok l m -> names_ok (a :: l) m.
Proof.
  intros Ha Hm Ho [H1 H2 H3 H4]. split.
  - by constructor.
  - intros b [->|Hb]%elem_of_cons; eauto.
  - intros b c t1 nm1 st1 st2 Hb Hc Eb Ec.
    apply elem_of_cons in Hb as [->|Hb]; apply elem_of_cons in Hc as [->|Hc]; [done| | |eauto].
    + rewrite Hm in Eb. injection Eb as <- <- <-. by destruct (Ho c t st2 Hc Ec).
    + rewrite Hm in Ec. injection Ec as <- <- <-. by destruct (Ho b t st1 Hb Eb).
  - intros b c t1 t2 nm1 st1 st2 Hb Hc Eb Ec.
    apply elem_of_cons in Hb as [->|Hb]; apply elem_of_cons in Hc as [->|Hc]; [congruence| | |eauto].
    + rewrite Hm in Eb. injection Eb as <- <- <-. by destruct (Ho c t2 st2 Hc Ec) as [_ ->].
    + rewrite Hm in Ec. injection Ec as <- <- <-. by destruct (Ho b t1 st1 Hb Eb) as [_ ->].
Qed.

Lemma new_pipe_fresh m : m !! new_addr m = None.
Proof.
  assert (Hb : forall l : list Z, Forall (fun k => k <= foldr Z.max 0 l) l).
  { induction l as [|k l IH]; [done|]. cbn. constructor; [lia|]. eapply Forall_impl; [exact IH|]. cbn. intros; lia. }
  destruct (m !! new_addr m) as [x|] eqn:E; [exfalso|done]. apply elem_of_map_to_list in E.
  specialize (Hb (map_to_list m).*1). rewrite Forall_forall in Hb. specialize (Hb _ (list_elem_of_fmap_2 fst _ _ E)).
  unfold new_addr in Hb. cbn in Hb. lia.
Qed.

(** ** References *)

#[export] Instance pipe_counts : Inode.CountsIn pcounts put_pcounts.
Proof.
  split.
  - done.
  - intros s [|a] c [|b] Hn; cbn in *; try done. case_bool_decide as E.
    + injection E as ->. rewrite lookup_alter_eq. destruct (pins s !! a); [done|by destruct Hn].
    + by rewrite lookup_alter_ne by congruence.
  - intros s [|a] c _; cbn; [by apply same_ok|]. apply same_ok. split; [done|]. by apply tags_alter.
Qed.

Lemma same_moved s s' : same s s' -> (forall n, pcounts s' n = pcounts s n) -> moved s s' (fun _ : count * pnode => 0).
Proof.
  intros Hs Hc. split; [by apply same_ok|]. intros _ i. cbn. rewrite Hc, Z.add_0_r. reflexivity.
Qed.

Lemma quiet_buffers {A} (m : M Pipe.pstate_t A) : quiet (I := count * pnode) (buffers m).
Proof.
  intros s a s'. unfold buffers. destruct (m (ps s)) as [[x p]| |]; [|done|done]. intros [= <- <-]. by apply same_moved.
Qed.

Lemma quiet_pipe_kmalloc : quiet (I := count * pnode) kmalloc.
Proof.
  intros s a s'. unfold kmalloc. rewrite bind_get. destruct (pmem s); intros [= <- <-]; [by apply moved_refl|by apply same_moved].
Qed.

Lemma quiet_get_pin a : quiet (I := count * pnode) (get_pin a).
Proof. quiet_in get_pin. Qed.
#[export] Hint Resolve quiet_buffers quiet_pipe_kmalloc quiet_get_pin : quiet.

Lemma quiet_set_reclaim v a : quiet (I := count * pnode) (set_pin (set_reclaim v) a).
Proof.
  unfold set_pin. apply moves_quiet_bind; [quiet|intros _]. intros s u s' [= <- <-]. apply same_moved.
  - split; [done|]. by apply tags_alter.
  - intros [|b]; cbn; [done|]. destruct (decide (a = b)) as [->|Hb]; [|by rewrite lookup_alter_ne].
    rewrite lookup_alter_eq. by destruct (pins s !! b).
Qed.
#[export] Hint Resolve quiet_set_reclaim : quiet.

Lemma quiet_unlist a : quiet (I := count * pnode) (modify (upd_list (base.filter (fun x => x <> a)))).
Proof.
  intros s u s' [= <- <-]. split; cbn; [by apply names_ok_filter|]. intros _ i. rewrite Z.add_0_r. reflexivity.
Qed.
#[export] Hint Resolve quiet_unlist : quiet.

Lemma get_pin_Ret a s p s' : get_pin a s = Ret (p, s') -> pins s !! a = Some p /\ s' = s.
Proof. unfold get_pin. rewrite bind_get. destruct (pins s !! a); [|done]. by intros [= -> ->]. Qed.

Lemma kill_moved s a u s' : (a ∉ pipe_list s) -> inode_kill a s = Ret (u, s') -> moved s s' (fun _ : count * pnode => 0).
Proof.
  intros Ha H. unfold inode_kill in H. apply bind_Ret in H as (p & ? & [Hp ->]%get_pin_Ret & H).
  destruct (Z.eqb_spec (Inode.ref_count (pin_counts p)) 0) as [E1|]; [|done].
  destruct (Z.eqb_spec (Inode.open_count (pin_counts p)) 0) as [E2|]; [|done]. injection H as <- <-. split; cbn.
  - unfold pfs_ok, tags. cbn. rewrite fmap_delete. by apply names_ok_delete.
  - intros _ [k [|b]]; cbn; rewrite Z.add_0_r; [done|]. destruct (decide (a = b)) as [->|Hb].
    + rewrite lookup_delete_eq, Hp. by destruct k; cbn; rewrite ?E1, ?E2.
    + by rewrite lookup_delete_ne.
Qed.

Lemma moved_0_trans s s' s'' d : moved s s' (fun _ : count * pnode => 0) -> moved s' s'' d -> moved s s'' d.
Proof. intros H1 H2. eapply moved_trans; [exact H1|]. eapply moved_ext; [|exact H2]. intros i. cbv beta. lia. Qed.

(** The last part of the reclaim, when the inode is not listed (any more). *)
Lemma release_kill s a st r s' : (a ∉ pipe_list s) ->
  (buffers (Pipe.pipe_state_release st) ;; inode_kill a ;; ret 0) s = Ret (r, s') -> moved s s' (fun _ : count * pnode => 0).
Proof.
  intros Ha H. apply bind_Ret in H as (u & t & H1 & H2). apply bind_Ret in H2 as (u' & t' & H2 & [= <- <-]).
  assert (Ht : pipe_list t = pipe_list s) by (unfold buffers in H1; destruct (Pipe.pipe_state_release st (ps s)) as [[x q]| |]; [by injection H1 as _ <-|done|done]).
  eapply moved_0_trans; [exact (quiet_buffers _ _ _ _ H1)|]. apply (kill_moved t a u'); [by rewrite Ht|done].
Qed.

Lemma quiet_pipe_inode_reclaim a : quiet (I := count * pnode) (pipe_inode_reclaim a).
Proof.
  intros s r s' H. apply moved_sound. intros Hs. unfold pipe_inode_reclaim in H. apply bind_Ret in H as (p & ? & [Hp ->]%get_pin_Ret & H).
  destruct (name p) as [nm|] eqn:En.
  - apply bind_Ret in H as (busy & s1 & H1 & H2). apply bind_Ret in H1 as (u & ? & [_ [= -> ->]]%assert_Ret & H1).
    apply bind_Ret in H1 as (u' & t & Hr & H1). eapply moved_0_trans; [exact (quiet_set_reclaim _ _ _ _ _ Hr)|].
    destruct (_ || _); [injection H1 as <- <-; injection H2 as <- <-; by apply moved_refl|].
    rewrite bind_modify in H1. injection H1 as <- <-.
    eapply moved_0_trans; [exact (quiet_unlist a t tt _ eq_refl)|]. apply (release_kill _ a (state p) r s'); [|done].
    cbn. intros [? _]%list_elem_of_filter. done.
  - apply (release_kill s a (state p) r s'); [|done]. intros (t & nm & st & E)%(ok_listed _ _ Hs).
    rewrite (lookup_tags _ _ _ Hp) in E. unfold tag in E. congruence.
Qed.
#[export] Hint Resolve quiet_pipe_inode_reclaim : quiet.

Section Moves.
Variable sc : Sched.sched_class.

Lemma quiet_pipe_inode_close a : quiet (I := count * pnode) (pipe_inode_close sc a).
Proof. quiet_in pipe_inode_close. Qed.

Lemma moves_pipe_ref_inc n : moves (ref_inc n) (fun _ => one (Refs, n)).
Proof. exact (Inode.moves_inode_ref_inc pcounts put_pcounts n). Qed.

Lemma moves_pipe_ref_dec n : moves (ref_dec n) (fun _ i => - one (Refs, n) i).
Proof. refine (Inode.moves_inode_ref_dec pcounts put_pcounts preclaim n _). destruct n; cbn; [by apply moves_ret|apply quiet_pipe_inode_reclaim]. Qed.

Lemma moves_pipe_open_inc n : moves (open_inc n) (fun _ => one (Opens, n)).
Proof. exact (Inode.moves_inode_open_inc pcounts put_pcounts n). Qed.

Lemma moves_pipe_open_dec n : moves (open_dec sc n) (fun _ i => - one (Opens, n) i).
Proof. refine (Inode.moves_inode_open_dec pcounts put_pcounts (pclose sc) n _). destruct n; cbn; [by apply moves_ret|apply quiet_pipe_inode_close]. Qed.
End Moves.
#[export] Hint Resolve moves_pipe_ref_inc moves_pipe_ref_dec moves_pipe_open_inc moves_pipe_open_dec : moves.

(** The reference a routine returns with an end, if it returns one. *)
Definition held (o : option Z) (i : count * pnode) : Z := match o with Some a => one (Refs, Pin a) i | None => 0 end.
#[export] Hint Unfold held : moves.

Lemma moves_drop o : moves (drop o) (fun _ i => - held o i).
Proof. destruct o; cbn [drop held]; crun. Qed.
#[export] Hint Resolve moves_drop : moves.

(** *** Looking for the ends of a name *)

Lemma moves_pipe_lookup_loop l nm : forall r w, moves (lookup_loop l nm r w) (fun x i => held (fst x) i + held (snd x) i - held r i - held w i).
Proof.
  induction l as [|a l IH]; intros r w; cbn [lookup_loop]; [apply moves_ret; intros i; cbn; lia|].
  apply moves_quiet_bind; [quiet|intros p]. case_bool_decide; [|apply IH].
  destruct (pin_type p); apply moves_assert_bind; intros ->%bool_decide_eq_true;
    (eapply moves_bind; [apply moves_pipe_ref_inc|intros c]);
    (apply moves_quiet_bind; [quiet|intros _]);
    (eapply moves_ext; [apply IH|]); intros [r' w'] i; cbn [fst snd held]; lia.
Qed.

Lemma quiet_end_of path : quiet (I := count * pnode) (end_of path).
Proof. quiet_in end_of. Qed.
#[export] Hint Resolve quiet_end_of : quiet.

(** Neither the names nor the list change. *)
Lemma set_reclaim_same v a s u s' : set_pin (set_reclaim v) a s = Ret (u, s') -> same s s'.
Proof.
  unfold set_pin. intros (p & ? & [_ ->]%get_pin_Ret & [= <- <-])%bind_Ret. split; [done|]. by apply tags_alter.
Qed.

Lemma ref_inc_same a s c s' : ref_inc (Pin a) s = Ret (c, s') -> same s s'.
Proof.
  unfold ref_inc, Inode.inode_ref_inc. intros (x & ? & [_ ->]%Inode.get_counts_Ret & [= <- <-])%bind_Ret.
  split; [done|]. by apply tags_alter.
Qed.

(** What a search among [l] for ends of type [t] knows when it ends with [o'], having had
    [o]. *)
Definition found (s : pipe_fs) (l : list Z) (nm : list Z) (t : pin_type_t) (o o' : option Z) : Prop :=
  match o' with
  | Some a => o = Some a \/ (a ∈ l /\ exists st, tags s !! a = Some (t, Some nm, st))
  | None => o = None /\ forall a st, a ∈ l -> tags s !! a <> Some (t, Some nm, st)
  end.

Lemma found_same s s' l nm t o o' : same s s' -> found s' l nm t o o' -> found s l nm t o o'.
Proof. intros [_ E]. unfold found. by rewrite E. Qed.

Lemma found_skip s a l nm t o o' : (forall st, tags s !! a <> Some (t, Some nm, st)) -> found s l nm t o o' -> found s (a :: l) nm t o o'.
Proof.
  unfold found. destruct o' as [b|]; intros Hn H.
  - destruct H as [H|[H1 H2]]; [by left|right]. split; [by right|done].
  - destruct H as [H1 H2]. split; [done|]. intros c st [->|Hc]%elem_of_cons; [apply Hn|by apply H2].
Qed.

Lemma found_here s a l nm t st o' : tags s !! a = Some (t, Some nm, st) -> found s l nm t (Some a) o' -> found s (a :: l) nm t None o'.
Proof.
  unfold found. destruct o' as [b|]; intros Hn H; [|by destruct H].
  destruct H as [[= <-]|[H1 H2]]; right; split; [by left|eauto|by right|done].
Qed.

Lemma lookup_loop_found l nm : forall r w s x s', lookup_loop l nm r w s = Ret (x, s') ->
  same s s' /\ found s l nm PIN_RDONLY r (fst x) /\ found s l nm PIN_WRONLY w (snd x).
Proof.
  induction l as [|a l IH]; intros r w s x s' H; cbn [lookup_loop] in H.
  - injection H as <- <-. split; [done|]. split; unfold found; cbn; [destruct r|destruct w]; try (by left); (split; [done|]); intros a st Ha; by apply not_elem_of_nil in Ha.
  - apply bind_Ret in H as (p & ? & [Hp ->]%get_pin_Ret & H). pose proof (lookup_tags _ _ _ Hp) as Ht. unfold tag in Ht.
    case_bool_decide as En.
    + rewrite En in Ht. destruct (pin_type p) eqn:Et;
        (apply bind_Ret in H as (u & ? & [E%bool_decide_eq_true [= -> ->]]%assert_Ret & H));
        (apply bind_Ret in H as (c & s1 & H1%ref_inc_same & H)); (apply bind_Ret in H as (u' & s2 & H2 & H));
        (assert (H12 : same s s2) by (eapply same_trans; [exact H1|]; destruct (c =? 1); [by eapply set_reclaim_same|by injection H2 as _ <-]));
        destruct (IH _ _ _ _ _ H) as (Hs & Hr & Hw); (split; [by eapply same_trans|]);
        apply (found_same _ _ _ _ _ _ _ H12) in Hr; apply (found_same _ _ _ _ _ _ _ H12) in Hw; subst; split;
        first [by eapply found_here|apply found_skip; [intros st; congruence|done]].
    + destruct (IH _ _ _ _ _ H) as (Hs & Hr & Hw). split; [done|]. split; (apply found_skip; [intros st; congruence|done]).
Qed.

(** *** Making an end *)

Definition type_of (readonly : bool) : pin_type_t := if readonly then PIN_RDONLY else PIN_WRONLY.

(** Nothing but the answers of [kmalloc] and the buffers. *)
Definition untouched (s s' : pipe_fs) : Prop := root s' = root s /\ pins s' = pins s /\ pipe_list s' = pipe_list s.

Lemma untouched_same s s' : untouched s s' -> same s s'.
Proof. intros (_ & H1 & H2). unfold same, tags. by rewrite H1, H2. Qed.

Lemma untouched_trans s s' s'' : untouched s s' -> untouched s' s'' -> untouched s s''.
Proof. unfold untouched. intros (-> & -> & ->). done. Qed.

Lemma kmalloc_untouched s b s' : kmalloc s = Ret (b, s') -> untouched s s'.
Proof. unfold kmalloc. rewrite bind_get. destruct (pmem s); intros [= <- <-]; done. Qed.

Lemma buffers_untouched {A} (m : M Pipe.pstate_t A) s a s' : buffers m s = Ret (a, s') -> untouched s s'.
Proof. unfold buffers. destruct (m (ps s)) as [[x q]| |]; [|done|done]. by intros [= <- <-]. Qed.

Lemma create_inode_Ret nm st ro s o s' : pipe_create_inode nm st ro s = Ret (o, s') ->
  match o with
  | None => untouched s s'
  | Some a => pins s !! a = None /\ pins s' = <[a := mk_pin Inode.inode_init (type_of ro) nm 1 st]> (pins s) /\
              root s' = root s /\ pipe_list s' = pipe_list s
  end.
Proof.
  unfold pipe_create_inode. intros H. apply bind_Ret in H as (ok & s1 & H1 & H).
  assert (U1 : untouched s s1) by (destruct nm; [by eapply kmalloc_untouched|by injection H1 as _ <-]).
  destruct ok; cbn [negb] in H; [|by injection H as <- <-].
  apply bind_Ret in H as (ok & s2 & H2%kmalloc_untouched & H). pose proof (untouched_trans _ _ _ U1 H2) as (E1 & E2 & E3).
  destruct ok; cbn [negb] in H; [|by injection H as <- <-]. rewrite bind_get, bind_modify in H. injection H as <- <-.
  rewrite E2. split; [apply new_pipe_fresh|]. by cbn; rewrite E1, E2, E3.
Qed.

(** A new inode has one reference and is not open. *)
Lemma moves_pipe_create_inode nm st ro : moves (pipe_create_inode nm st ro) held.
Proof.
  intros s o s' H%create_inode_Ret. destruct o as [a|]; cbn [held].
  - destruct H as (Hf & Hp & Hr & Hl). split; cbn.
    + unfold pfs_ok, tags. rewrite Hl, Hp, fmap_insert. apply names_ok_insert. by rewrite lookup_fmap, Hf.
    + intros _ [k [|b]]; cbn; rewrite ?Hr; [rewrite one_ne by congruence; by rewrite Z.add_0_r|]. rewrite Hp.
      destruct (decide (a = b)) as [->|Hb].
      * rewrite lookup_insert_eq, Hf. destruct k; cbn; [by rewrite one_eq|by rewrite one_ne].
      * rewrite lookup_insert_ne by done. rewrite one_ne by congruence. by rewrite Z.add_0_r.
  - apply same_moved; [by apply untouched_same|]. destruct H as (H1 & H2 & _). intros [|b]; cbn; by rewrite ?H1, ?H2.
Qed.
#[export] Hint Resolve moves_pipe_create_inode : moves.

Lemma quiet_pipe_state {A} (m : M Pipe.pstate_t A) s a s' : buffers m s = Ret (a, s') -> moved s s' (fun _ : count * pnode => 0).
Proof. apply quiet_buffers. Qed.

(** Listing a new end. *)
Lemma moved_cons s a t nm st :
  pins s !! a <> None -> (a ∉ pipe_list s) -> tags s !! a = Some (t, Some nm, st) ->
  (forall b t' st', b ∈ pipe_list s -> tags s !! b = Some (t', Some nm, st') -> t' <> t /\ st' = st) ->
  moved s (upd_list (cons a) s) (fun _ : count * pnode => 0).
Proof.
  intros _ Ha Ht Ho. split; [|intros _ i; rewrite Z.add_0_r; reflexivity]. cbn. by apply (names_ok_cons _ _ a t nm st).
Qed.

Lemma state_of_other s other o s' :
  match other with
  | None => buffers Pipe.pipe_state_create
  | Some b => p <- get_pin b ;; buffers (Pipe.pipe_state_acquire (state p)) ;; ret (Some (state p))
  end s = Ret (o, s') ->
  untouched s s' /\ match other, o with Some b, Some st => exists t nm, tags s !! b = Some (t, nm, st) | _, _ => True end.
Proof.
  destruct other as [b|]; intros H.
  - apply bind_Ret in H as (p & ? & [Hp ->]%get_pin_Ret & H). apply bind_Ret in H as (u & s1 & H%buffers_untouched & [= <- <-]).
    split; [done|]. exists (pin_type p), (name p). by apply lookup_tags.
  - apply buffers_untouched in H. by destruct o.
Qed.

Lemma create_end_moved nm ro other s x s' :
  (forall b st', b ∈ pipe_list s -> tags s !! b <> Some (type_of ro, Some nm, st')) ->
  match other with
  | Some b => b ∈ pipe_list s /\ exists st, tags s !! b = Some (type_of (negb ro), Some nm, st)
  | None => forall b st', b ∈ pipe_list s -> tags s !! b <> Some (type_of (negb ro), Some nm, st')
  end ->
  create_end nm ro other s = Ret (x, s') -> moved s s' (fun i => held (snd x) i).
Proof.
  intros Hmine Hother H. apply moved_sound. intros Hs. unfold create_end in H. apply bind_Ret in H as (o & s1 & Ho & H).
  apply state_of_other in Ho as [U1 Hst]. pose proof (untouched_same _ _ U1) as [El Et].
  assert (M1 : moved s s1 (fun _ : count * pnode => 0)) by (apply same_moved; [done|]; destruct U1 as (H1 & H2 & _); intros [|b]; cbn; by rewrite ?H1, ?H2).
  eapply moved_0_trans; [exact M1|]. destruct o as [st|]; [|injection H as <- <-; by apply moved_refl].
  apply bind_Ret in H as (n & s2 & Hn & H). pose proof (moves_pipe_create_inode _ _ _ _ _ _ Hn) as M2. apply create_inode_Ret in Hn.
  destruct n as [a|]; cbn [held] in M2.
  - destruct Hn as (Hf & Hp & _ & Hl). rewrite bind_modify in H. injection H as <- <-. cbn [snd held].
    eapply moved_trans; [exact M2|]. eapply moved_ext; [|apply (moved_cons s2 a (type_of ro) nm st)].
    + intros i. cbn [held]. lia.
    + rewrite Hp, lookup_insert_eq. discriminate.
    + rewrite Hl, El. intros (t & nm' & st' & E)%(ok_listed _ _ Hs). rewrite <- Et in E. unfold tags in E. rewrite lookup_fmap, Hf in E. discriminate.
    + unfold tags. by rewrite Hp, fmap_insert, lookup_insert_eq.
    + intros b t' st' Hb E. rewrite Hl, El in Hb. destruct (decide (b = a)) as [->|Hba].
      { apply (ok_listed _ _ Hs) in Hb as (? & ? & ? & E'). rewrite <- Et in E'. unfold tags in E'. rewrite lookup_fmap, Hf in E'. discriminate. }
      unfold tags in E. rewrite Hp, fmap_insert, lookup_insert_ne in E by done. fold (tags s1) in E. rewrite Et in E.
      assert (Hne : t' <> type_of ro) by (intros ->; exact (Hmine b st' Hb E)). split; [done|].
      assert (Ht' : t' = type_of (negb ro)) by (destruct ro, t'; try done; by destruct Hne). subst t'.
      destruct other as [c|]; [|by destruct (Hother b st' Hb)]. destruct Hother as [Hc [st2 Ec]]. destruct Hst as (t2 & nm2 & Ec').
      rewrite Ec in Ec'. injection Ec' as <- <- <-. by apply (ok_share _ _ Hs b c _ _ nm st' st2 Hb Hc E Ec).
  - apply bind_Ret in H as (u & s3 & H3 & [= <- <-]). cbn [snd held]. eapply moved_0_trans; [exact M2|]. exact (quiet_pipe_state _ _ _ _ H3).
Qed.

(** ** The operations of the root *)

(** A code, and an end with a reference when it is 0. *)
Definition got_end (x : Z * option Z) (i : count * pnode) : Z := if fst x =? 0 then held (snd x) i else 0.
#[export] Hint Unfold got_end : moves.

(** The two ends found, the wanted one first. *)
Lemma lookup_pipe_Ret nm s x s' : lookup_pipe_nolock nm s = Ret (x, s') ->
  same s s' /\ moved s s' (fun i => held (fst x) i + held (snd x) i) /\
  found s (pipe_list s) nm PIN_RDONLY None (fst x) /\ found s (pipe_list s) nm PIN_WRONLY None (snd x).
Proof.
  unfold lookup_pipe_nolock. rewrite bind_get. intros H. destruct (lookup_loop_found _ _ _ _ _ _ _ H) as (H1 & H2 & H3).
  split; [done|]. split; [|done]. eapply moved_ext; [|exact (moves_pipe_lookup_loop _ _ _ _ _ _ _ H)]. intros i. cbn. lia.
Qed.

Lemma swap_found nm ro s x s' mine other : lookup_pipe_nolock nm s = Ret (x, s') -> swap_ends ro x = (mine, other) ->
  same s s' /\ moved s s' (fun i => held mine i + held other i) /\
  found s (pipe_list s) nm (type_of ro) None mine /\ found s (pipe_list s) nm (type_of (negb ro)) None other.
Proof.
  intros (H1 & H2 & H3 & H4)%lookup_pipe_Ret E. destruct x as [r w]. destruct ro; injection E as <- <-; cbn in *; split_and!; try done.
  eapply moved_ext; [|exact H2]. intros i. cbn. lia.
Qed.

Lemma end_of_Ret path s e s' : end_of path s = Ret (e, s') ->
  s' = s /\ path = (if fst e then 114 else 119) :: 95 :: snd e.
Proof.
  destruct path as [|c [|u nm]]; [done|done|]. cbn [end_of]. intros (t & ? & [Hb [= -> ->]]%assert_Ret & [= <- <-])%bind_Ret.
  split; [done|]. cbn. apply andb_prop in Hb as [Hb Hu%Z.eqb_eq]. subst u. destruct (Z.eqb_spec c 114) as [->|Hc]; [done|].
  destruct (Z.eqb_spec c 119) as [->|]; [done|]. discriminate.
Qed.

Lemma moves_pipe_root_lookup path : moves (pipe_root_lookup path) got_end.
Proof.
  intros s x s'' H. unfold pipe_root_lookup in H. apply bind_Ret in H as ([ro nm] & ? & [-> _]%end_of_Ret & H).
  apply bind_Ret in H as (y & s1 & Hl & H). destruct (swap_ends ro y) as [mine other] eqn:E.
  destruct (swap_found _ _ _ _ _ _ _ Hl E) as (_ & M1 & _ & _). eapply moved_trans; [exact M1|].
  apply bind_Ret in H as (u & s2 & Hd%moves_drop & H). eapply moved_trans; [exact Hd|].
  destruct mine as [a|]; injection H as <- <-; apply moved_refl; intros i; settle.
Qed.

Lemma moves_pipe_root_create path excl : moves (pipe_root_create path excl) got_end.
Proof.
  intros s x s'' H. unfold pipe_root_create in H. apply bind_Ret in H as ([ro nm] & ? & [-> _]%end_of_Ret & H).
  apply bind_Ret in H as (y & s1 & Hl & H). destruct (swap_ends ro y) as [mine other] eqn:E.
  destruct (swap_found _ _ _ _ _ _ _ Hl E) as ([El Et] & M1 & F1 & F2). eapply moved_trans; [exact M1|].
  apply bind_Ret in H as (z & s2 & Hz & H). apply bind_Ret in H as (u & s3 & Hd%moves_drop & [= <- <-]).
  assert (M2 : moved s1 s2 (fun i => got_end z i - held mine i)).
  { destruct mine as [a|]; [destruct excl|].
    - apply bind_Ret in Hz as (c & s4 & Hc%moves_pipe_ref_dec & [= <- <-]). eapply moved_ext; [|exact Hc]. intros i. settle.
    - injection Hz as <- <-. apply moved_refl. intros i. settle.
    - assert (Hg : forall i, got_end z i = held (snd z) i).
      { intros i. unfold got_end. destruct (Z.eqb_spec (fst z) 0) as [|Hne]; [done|]. clear -Hz Hne. unfold create_end in Hz.
        apply bind_Ret in Hz as ([st|] & t & _ & Hz); [|by injection Hz as <- _]. apply bind_Ret in Hz as ([a|] & t2 & _ & Hz).
        - rewrite bind_modify in Hz. injection Hz as <- _. by destruct Hne.
        - by apply bind_Ret in Hz as (? & ? & _ & [= <- _]). }
      eapply moved_ext; [|apply (create_end_moved nm ro other s1 z s2)]; rewrite ?El, ?Et.
      + intros i. cbn [held]. rewrite Hg. cbv beta. lia.
      + exact (proj2 F1).
      + destruct other as [b|]; [by destruct F2|exact (proj2 F2)].
      + exact Hz. }
  eapply moved_trans; [exact M2|]. eapply moved_ext; [|exact Hd]. intros i. cbv beta. lia.
Qed.

Lemma moves_pipe_root_lookup_parent path :
  moves (pipe_root_lookup_parent path) (fun _ => one (Refs, Root)).
Proof. moves_in pipe_root_lookup_parent. Qed.

Lemma moves_pipe_get_root : moves pipe_get_root (fun _ => one (Refs, Root)).
Proof. moves_in pipe_get_root. Qed.

Lemma quiet_pipe_inode_open a fl : quiet (I := count * pnode) (pipe_inode_open a fl).
Proof. quiet_in pipe_inode_open. Qed.

Lemma quiet_pipe_inode_namefile a n : quiet (I := count * pnode) (pipe_inode_namefile a n).
Proof. quiet_in pipe_inode_namefile. Qed.

(** An unnamed pipe: a reference to each end, and both open. *)
Definition both_ends (x : Z * option (Z * Z)) (i : count * pnode) : Z :=
  match snd x with
  | Some (r, w) => one (Refs, Pin r) i + one (Refs, Pin w) i + one (Opens, Pin r) i + one (Opens, Pin w) i
  | None => 0
  end.

Lemma moves_open_ends : moves open_ends both_ends.
Proof. moves_in open_ends; apply moves_ret; intros i; cbn; lia. Qed.

(** ** Named pipes *)

(** What is listed beside [b] stays listed, with its name and its buffer. *)
Definition stays (b : Z) (s s' : pipe_fs) : Prop :=
  forall a, a <> b -> a ∈ pipe_list s -> a ∈ pipe_list s' /\ tags s' !! a = tags s !! a.

Lemma stays_trans b s s' s'' : stays b s s' -> stays b s' s'' -> stays b s s''.
Proof. intros H1 H2 a Ha Hl. destruct (H1 a Ha Hl) as [Hl1 E1]. destruct (H2 a Ha Hl1) as [Hl2 E2]. split; [done|congruence]. Qed.

Lemma same_stays b s s' : same s s' -> stays b s s'.
Proof. intros [E1 E2] a _ Hl. by rewrite E1, E2. Qed.

Lemma kill_stays b s u s' : inode_kill b s = Ret (u, s') -> stays b s s'.
Proof.
  unfold inode_kill. intros (p & ? & [_ ->]%get_pin_Ret & H)%bind_Ret. apply bind_Ret in H as (? & ? & [_ [= -> ->]]%assert_Ret & H).
  apply bind_Ret in H as (? & ? & [_ [= -> ->]]%assert_Ret & [= <- <-]). intros a Ha Hl. split; [done|].
  unfold tags. cbn. by rewrite fmap_delete, lookup_delete_ne by done.
Qed.

Lemma reclaim_stays b s r s' : pipe_inode_reclaim b s = Ret (r, s') -> stays b s s'.
Proof.
  unfold pipe_inode_reclaim. intros (p & ? & [_ ->]%get_pin_Ret & H)%bind_Ret. apply bind_Ret in H as (busy & s1 & H1 & H).
  assert (S1 : stays b s s1).
  { destruct (name p); [|injection H1 as _ <-; by apply same_stays]. apply bind_Ret in H1 as (? & ? & [_ [= -> ->]]%assert_Ret & H1).
    apply bind_Ret in H1 as (? & t & Hr%set_reclaim_same & H1). eapply stays_trans; [by apply same_stays|].
    destruct (_ || _); [injection H1 as _ <-; by apply same_stays|]. rewrite bind_modify in H1. injection H1 as _ <-.
    intros a Ha Hl. cbn. split; [by apply list_elem_of_filter|done]. }
  destruct busy; [by injection H as _ <-|]. apply bind_Ret in H as (? & s2 & H2%buffers_untouched & H). apply bind_Ret in H as (? & s3 & H3 & [= _ <-]).
  eapply stays_trans; [exact S1|]. eapply stays_trans; [apply same_stays, untouched_same, H2|]. exact (kill_stays _ _ _ _ H3).
Qed.

Lemma ref_dec_stays b s r s' : ref_dec (Pin b) s = Ret (r, s') -> stays b s s'.
Proof.
  unfold ref_dec, Inode.inode_ref_dec. intros (c & ? & [_ ->]%Inode.get_counts_Ret & H)%bind_Ret. apply bind_Ret in H as (? & ? & [_ [= -> ->]]%assert_Ret & H).
  rewrite bind_modify in H. apply bind_Ret in H as (? & s1 & H1 & [= _ <-]).
  eapply stays_trans; [apply (same_stays _ _ (put_pcounts (Pin b) (Inode.mk_counts (Inode.ref_count c - 1) (Inode.open_count c)) s)); split; [done|by apply tags_alter]|].
  destruct (_ =? 0); [|injection H1 as _ <-; by apply same_stays]. unfold Inode.inode_check in H1.
  apply bind_Ret in H1 as (? & s2 & H2 & H1). apply bind_Ret in H1 as (? & s3 & H3%reclaim_stays & [= _ <-]).
  apply bind_Ret in H2 as (? & ? & [_ ->]%Inode.get_counts_Ret & H2). apply bind_Ret in H2 as (? & ? & [_ [= -> ->]]%assert_Ret & H2).
  apply assert_Ret in H2 as [_ [= -> ->]]. exact H3.
Qed.

Lemma drop_stays o s u s' a : drop o s = Ret (u, s') -> o <> Some a -> a ∈ pipe_list s -> a ∈ pipe_list s' /\ tags s' !! a = tags s !! a.
Proof.
  destruct o as [b|]; intros H Ho Hl; [|by injection H as _ <-]. apply bind_Ret in H as (c & s1 & H1%ref_dec_stays & [= _ <-]).
  apply (H1 a); [congruence|done].
Qed.

Lemma create_end_tags nm ro other s a s' : create_end nm ro other s = Ret ((0, Some a), s') ->
  a ∈ pipe_list s' /\ tags s !! a = None /\
  exists st, tags s' !! a = Some (type_of ro, Some nm, st) /\
    match other with Some b => exists t nm', tags s !! b = Some (t, nm', st) | None => True end.
Proof.
  unfold create_end. intros H. apply bind_Ret in H as (o & s1 & [U1 Ho]%state_of_other & H). destruct o as [st|]; [|done].
  apply bind_Ret in H as (n & s2 & Hn%create_inode_Ret & H). destruct n as [b|]; [|by apply bind_Ret in H as (? & ? & _ & [=])].
  destruct Hn as (Hf & Hp & _ & Hl). rewrite bind_modify in H. injection H as <- <-. cbn. destruct U1 as (_ & Ep & El). rewrite Hl, El.
  split; [by left|]. split; [unfold tags; by rewrite lookup_fmap, <- Ep, Hf|]. exists st. split; [unfold tags; cbn; by rewrite Hp, fmap_insert, lookup_insert_eq|]. by destruct other.
Qed.

Lemma named_end_run path excl s a s' : pfs_ok s -> pipe_root_create path excl s = Ret ((0, Some a), s') ->
  exists (ro : bool) (nm : list Z) (st : Z), path = (if ro then 114 else 119) :: 95 :: nm /\ a ∈ pipe_list s' /\ tags s' !! a = Some (type_of ro, Some nm, st) /\
    (forall b t st', b ∈ pipe_list s -> tags s !! b = Some (t, Some nm, st') -> st' = st /\ (t = type_of ro -> b = a /\ excl = false)).
Proof.
  intros Hs H. unfold pipe_root_create in H. apply bind_Ret in H as ([ro nm] & ? & [-> Hp]%end_of_Ret & H). cbn [fst snd] in Hp.
  apply bind_Ret in H as (y & s1 & Hl & H). destruct (swap_ends ro y) as [mine other] eqn:E.
  destruct (swap_found _ _ _ _ _ _ _ Hl E) as ([El Et] & _ & F1 & F2). cbv beta iota in H.
  apply bind_Ret in H as (z & s2 & Hz & H). apply bind_Ret in H as (u & s3 & Hd & [= -> ->]).
  assert (Hne : forall b, other = Some b -> exists st, b ∈ pipe_list s /\ tags s !! b = Some (type_of (negb ro), Some nm, st)).
  { intros b ->. destruct F2 as [?|[? [st ?]]]; [done|]. by exists st. }
  destruct mine as [b|].
  - destruct excl; [by apply bind_Ret in Hz as (? & ? & _ & [=])|]. injection Hz as -> <-. destruct F1 as [?|[Hb [st Hst]]]; [done|].
    assert (Hoa : other <> Some a) by (intros Eo; destruct (Hne a Eo) as (st' & _ & Hst'); rewrite Hst in Hst'; by destruct ro).
    destruct (drop_stays other s1 u s' a Hd Hoa ltac:(by rewrite El)) as [Hin Htag]. exists ro, nm, st. split; [done|]. split; [done|]. split; [by rewrite Htag, Et|].
    intros c t st' Hc Hct. split; [exact (ok_share _ _ Hs c a _ _ nm st' st Hc Hb Hct Hst)|]. intros ->. split; [exact (ok_unique _ _ Hs c a _ nm st' st Hc Hb Hct Hst)|done].
  - destruct F1 as [_ F1]. destruct (create_end_tags _ _ _ _ _ _ Hz) as (Ha & Hfresh & st & Hst & Ho).
    assert (Hoa : other <> Some a).
    { intros Eo. destruct (Hne a Eo) as (st' & _ & Hst'). rewrite <- Et, Hfresh in Hst'. discriminate. }
    destruct (drop_stays other s2 u s' a Hd Hoa Ha) as [Hin Htag]. exists ro, nm, st. split; [done|]. split; [done|]. split; [by rewrite Htag|].
    intros c t st' Hc Hct. assert (Ht : t <> type_of ro) by (intros ->; exact (F1 c st' Hc Hct)). split; [|done].
    destruct other as [b|].
    + destruct (Hne b eq_refl) as (st2 & Hb & Hst2). destruct Ho as (t2 & nm2 & Ho). rewrite Et, Hst2 in Ho. injection Ho as _ _ <-.
      exact (ok_share _ _ Hs c b _ _ nm st' st2 Hc Hb Hct Hst2).
    + destruct F2 as [_ F2]. exfalso. apply (F2 c st' Hc). rewrite Hct. destruct ro, t; done.
Qed.

(** C17: Opening an end of a named pipe with [O_CREAT] connects it: the inode returned is
    the only one listed for that end of that name, it is on the ring buffer that every
    listed end of the name was on before and is on after, and it is a new one when
    [O_EXCL] asks for it.  The invariant of the list is kept. *)
Theorem pipe_named_ends path excl s a s' : pfs_ok s -> pipe_root_create path excl s = Ret ((0, Some a), s') ->
  pfs_ok s' /\ exists (readonly : bool) (nm : list Z) (st : Z),
    path = (if readonly then 114 else 119) :: 95 :: nm /\
    a ∈ pipe_list s' /\ tags s' !! a = Some (type_of readonly, Some nm, st) /\
    (forall b t st', b ∈ pipe_list s -> tags s !! b = Some (t, Some nm, st') -> st' = st /\ (t = type_of readonly -> b = a /\ excl = false)) /\
    (forall b t st', b ∈ pipe_list s' -> tags s' !! b = Some (t, Some nm, st') -> st' = st /\ (t = type_of readonly -> b = a)).
Proof.
  intros Hs H. assert (Hs' : pfs_ok s') by exact (proj1 (moves_pipe_root_create _ _ _ _ _ H) Hs). split; [done|].
  destruct (named_end_run path excl s a s' Hs H) as (ro & nm & st & H1 & H2 & H3 & H4). exists ro, nm, st. split_and!; try done.
  intros b t st' Hb Ht. split; [exact (ok_share _ _ Hs' b a _ _ nm st' st Hb H2 Ht H3)|]. intros ->. exact (ok_unique _ _ Hs' b a _ nm st' st Hb H2 Ht H3).
Qed.

(** *** The two ends of ["p"] *)

Definition no_pipes : pipe_fs :=
  mk_pfs (Pipe.mk_pst (Kern.mk_kstate ∅ 0 0 ∅ [] ∅ [] ∅ ∅ 0 (Kern.mk_ipc ∅ ∅ ∅ [Some 4096])) ∅) Inode.inode_init ∅ [] [].
Definition made {A} (r : outcome (A * pipe_fs)) : pipe_fs := match r with Ret (_, s) => s | _ => no_pipes end.
Definition with_reader : pipe_fs := Eval vm_compute in made (pipe_root_create [114; 95; 112] false no_pipes).
Definition with_both : pipe_fs := Eval vm_compute in made (pipe_root_create [119; 95; 112] true with_reader).

Lemma pipe_named_ends_witness : pipe_root_create [119; 95; 112] true with_reader = Ret ((0, Some 2), with_both) /\
  pfs_ok with_both /\ tags with_both !! 1 = Some (PIN_RDONLY, Some [112], 4096) /\ tags with_both !! 2 = Some (PIN_WRONLY, Some [112], 4096).
Proof.
  assert (H0 : pfs_ok with_reader).
  { apply (proj1 (moves_pipe_root_create [114; 95; 112] false no_pipes (0, Some 1) with_reader ltac:(vm_compute; reflexivity))). apply names_ok_nil. }
  assert (H : pipe_root_create [119; 95; 112] true with_reader = Ret ((0, Some 2), with_both)) by (vm_compute; reflexivity).
  split; [exact H|]. destruct (pipe_named_ends _ _ _ _ _ H0 H) as [Hok _]. split; [exact Hok|]. split; vm_compute; reflexivity.
Defined.

End PipeFsInv.
