(* ===== verification/Devs.v ===== *)
(** * Devices as files (src/code/kern/fs/devs)

    The inodes of devices (dev.c) with what each device does on [open], [close] and
    [ioctl]; the transfers of the null device, the console and the disk.  The keyboard is
    in [Stdin].  Of the disk driver (kern/driver/ide.c) the transfers of sectors are kept,
    with the codes the controller answers as part of the state.
    The module [DevsSpec] below is about the transfers of the disk. *)

From S2P Require Import Prelude Inode.
Open Scope Z_scope.

Module Devs.

Definition O_RDONLY : Z := 0.
Definition O_WRONLY : Z := 1.
Definition O_CREAT : Z := 0x4.
Definition O_EXCL : Z := 0x8.
Definition O_TRUNC : Z := 0x10.
Definition O_APPEND : Z := 0x20.
Definition S_IFCHR : Z := 0x4000.
Definition S_IFBLK : Z := 0x5000.

(** The function pointers of [struct device] as the device they belong to. *)
Inductive dev_kind := Null | Stdin | Stdout | Disk0.

Record device := mk_dev { d_counts : Inode.counts; d_kind : dev_kind; d_blocks : Z; d_blocksize : Z }.

Definition set_counts c d := mk_dev c (d_kind d) (d_blocks d) (d_blocksize d).

(** The inodes of devices, and the answers of [kmalloc]. *)
Record devs := mk_devs { dnodes : gmap Z device; dmem : list bool }.

Definition upd_dnodes f s := mk_devs (f (dnodes s)) (dmem s).

Definition get_dev (a : Z) : M devs device := s <- get ;; deref (dnodes s !! a).

Definition dcounts (s : devs) (a : Z) : option Inode.counts := d_counts <$> dnodes s !! a.
Definition put_dcounts (a : Z) (c : Inode.counts) : devs -> devs := upd_dnodes (alter (set_counts c) a).

(** ** What the devices do *)

Definition dop_open (k : dev_kind) (open_flags : Z) : Z :=
  match k with
  | Null | Disk0 => 0
  | Stdin => if negb (open_flags =? O_RDONLY) then - E_INVAL else 0
  | Stdout => if negb (open_flags =? O_WRONLY) then - E_INVAL else 0
  end.

Definition dop_close (k : dev_kind) : Z := 0.

Definition dop_ioctl (k : dev_kind) (op : Z) : Z := match k with Disk0 => - E_UNIMP | _ => - E_INVAL end.

(** What [x_device_init] sets; [size] is the number of sectors of the disk. *)
Definition device_init (k : dev_kind) (size : Z) : device :=
  match k with
  | Disk0 => mk_dev Inode.inode_init k (size / 8) 4096
  | _ => mk_dev Inode.inode_init k 0 1
  end.

(** ** Inodes of devices (dev.c) *)

Definition dev_open (a open_flags : Z) : M devs Z :=
  if negb (Z.land open_flags (Z.lor (Z.lor O_CREAT O_TRUNC) (Z.lor O_EXCL O_APPEND)) =? 0) then ret (- E_INVAL)
  else d <- get_dev a ;; ret (dop_open (d_kind d) open_flags).

Definition dev_close (a : Z) : M devs Z := d <- get_dev a ;; ret (dop_close (d_kind d)).

Definition dev_ioctl (a op : Z) : M devs Z := d <- get_dev a ;; ret (dop_ioctl (d_kind d) op).

Definition dev_gettype (a : Z) : M devs (Z * Z) :=
  d <- get_dev a ;; ret (0, if 0 <? d_blocks d then S_IFBLK else S_IFCHR).

(** Mode, links, blocks and size. *)
Definition dev_fstat (a : Z) : M devs (Z * (Z * Z * Z * Z)) :=
  Inode.inode_check dcounts a ;;
  '(r, mode) <- dev_gettype a ;;
  if negb (r =? 0) then ret (r, (0, 0, 0, 0))
  else d <- get_dev a ;; ret (0, (mode, 1, d_blocks d, u32 (d_blocks d * d_blocksize d))).

(** [pos] is signed; the comparisons with sizes are unsigned. *)
Definition dev_tryseek (a pos : Z) : M devs Z :=
  d <- get_dev a ;;
  if 0 <? d_blocks d then
    if u32 pos mod d_blocksize d =? 0 then
      if (0 <=? pos) && (u32 pos <? u32 (d_blocks d * d_blocksize d)) then ret 0 else ret (- E_INVAL)
    else ret (- E_INVAL)
  else ret (- E_INVAL).

Definition ref_inc : Z -> M devs Z := Inode.inode_ref_inc dcounts put_dcounts.
(** [vop_reclaim] of a device does nothing. *)
Definition ref_dec : Z -> M devs Z := Inode.inode_ref_dec dcounts put_dcounts (fun _ => Inode.null_vop_pass).
Definition open_inc : Z -> M devs Z := Inode.inode_open_inc dcounts put_dcounts.
Definition open_dec : Z -> M devs Z := Inode.inode_open_dec dcounts put_dcounts dev_close.

Definition dev_lookup (a : Z) (path : list Z) : M devs (Z * option Z) :=
  match path with
  | _ :: _ => ret (- E_NOENT, None)
  | [] => _ <- ref_inc a ;; ret (0, Some a)
  end.

Definition new_addr (m : gmap Z device) : Z := foldr Z.max 0 (fst <$> map_to_list m) + 1.

(** The inode of a new device, once its initialisation has filled it in. *)
Definition dev_create_inode (k : dev_kind) (size : Z) : M devs (option Z) :=
  s <- get ;;
  let a := new_addr (dnodes s) in
  let made := modify (upd_dnodes <[a := device_init k size]>) ;; ret (Some a) in
  match dmem s with
  | [] => made
  | ok :: l => modify (fun s => mk_devs (dnodes s) l) ;; if (ok : bool) then made else ret None
  end.

(** ** Transfers: the null device and the console

    A transfer gets the bytes at the descriptor's base, as many as it has left, and
    returns its code, the bytes it stores there and how many the descriptor has left. *)

Definition null_io (data : list Z) (write : bool) : Z * list Z * Z :=
  (0, [], if write then 0 else Z.of_nat (length data)).

(** Beside that, what is printed. *)
Definition stdout_io (data : list Z) (write : bool) : Z * Z * list Z :=
  if write then (0, 0, data) else (- E_INVAL, Z.of_nat (length data), []).

(** ** Transfers: the disk (dev_disk0.c, and the sectors of ide.c) *)

Definition SECTSIZE : Z := 512.
Definition DISK0_BLKSIZE : Z := 4096.
Definition DISK0_BUFSIZE : Z := 4 * DISK0_BLKSIZE.
Definition DISK0_BLK_NSECT : Z := DISK0_BLKSIZE / SECTSIZE.
Definition MAX_NSECS : Z := 128.
Definition MAX_DISK_NSECS : Z := 0x10000000.

(** The sectors, and the codes of the next transfers. *)
Record disk := mk_disk { sectors : gmap Z (list Z); ide_results : list Z }.

Definition ide_result : M disk Z :=
  s <- get ;;
  match ide_results s with [] => ret 0 | r :: l => modify (fun s => mk_disk (sectors s) l) ;; ret r end.

Definition assert_secs (secno nsecs : Z) : M disk unit :=
  assert (nsecs <=? MAX_NSECS) ;;
  assert ((secno <? MAX_DISK_NSECS) && (u32 (secno + nsecs) <=? MAX_DISK_NSECS)).

Fixpoint read_secs (n : nat) (secno : Z) : M disk (list Z) :=
  match n with
  | O => ret []
  | S n => s <- get ;; b <- deref (sectors s !! secno) ;; l <- read_secs n (secno + 1) ;; ret (b ++ l)
  end.

Fixpoint write_secs (n : nat) (secno : Z) (data : list Z) : M disk unit :=
  match n with
  | O => ret tt
  | S n =>
      s <- get ;;
      _ <- deref (sectors s !! secno) ;;
      modify (fun s => mk_disk (<[secno := take (Z.to_nat SECTSIZE) data]> (sectors s)) (ide_results s)) ;;
      write_secs n (secno + 1) (drop (Z.to_nat SECTSIZE) data)
  end.

Definition ide_read_secs (secno nsecs : Z) : M disk (Z * list Z) :=
  assert_secs secno nsecs ;;
  r <- ide_result ;;
  if negb (r =? 0) then ret (r, []) else l <- read_secs (Z.to_nat nsecs) secno ;; ret (0, l).

Definition ide_write_secs (secno : Z) (data : list Z) (nsecs : Z) : M disk Z :=
  assert_secs secno nsecs ;;
  r <- ide_result ;;
  if negb (r =? 0) then ret r else write_secs (Z.to_nat nsecs) secno data ;; ret 0.

Definition disk0_read_blks_nolock (blkno nblks : Z) : M disk (list Z) :=
  '(r, l) <- ide_read_secs (u32 (blkno * DISK0_BLK_NSECT)) (u32 (nblks * DISK0_BLK_NSECT)) ;;
  if negb (r =? 0) then panic else ret l.

Definition disk0_write_blks_nolock (blkno : Z) (buffer : list Z) (nblks : Z) : M disk unit :=
  r <- ide_write_secs (u32 (blkno * DISK0_BLK_NSECT)) buffer (u32 (nblks * DISK0_BLK_NSECT)) ;;
  if negb (r =? 0) then panic else ret tt.

(** The loop: [data] is what is left to write, [resid] what is left of the transfer; the
    bytes read.  The buffer holds four blocks, so [fuel] of the number of blocks is
    enough. *)
Fixpoint disk0_loop (fuel : nat) (write : bool) (data : list Z) (resid blkno : Z) : M disk (list Z) :=
  if resid =? 0 then ret []
  else
    match fuel with
    | O => out_of_fuel
    | S fuel =>
        let copied := Z.min resid DISK0_BUFSIZE in
        let nblks := copied / DISK0_BLKSIZE in
        if write then
          assert (negb (copied =? 0) && (copied <=? resid) && (copied mod DISK0_BLKSIZE =? 0)) ;;
          disk0_write_blks_nolock blkno (take (Z.to_nat copied) data) nblks ;;
          disk0_loop fuel write (drop (Z.to_nat copied) data) (resid - copied) (u32 (blkno + nblks))
        else
          l <- disk0_read_blks_nolock blkno nblks ;;
          assert (copied mod DISK0_BLKSIZE =? 0) ;;
          rest <- disk0_loop fuel write data (resid - copied) (u32 (blkno + nblks)) ;;
          ret (l ++ rest)
    end.

(** [offset] is signed and [resid] unsigned; [/] and [%] on the offset are C's.  Neither
    is reduced to its 32 bits: offsets of 2^31 and more are not ones the code can get. *)
Definition disk0_io (d : device) (offset resid : Z) (write : bool) (data : list Z) : M disk (Z * list Z) :=
  let blkno := u32 (Z.quot offset DISK0_BLKSIZE) in
  let nblks := resid / DISK0_BLKSIZE in
  if negb (Z.rem offset DISK0_BLKSIZE =? 0) || negb (resid mod DISK0_BLKSIZE =? 0) then ret (- E_INVAL, [])
  else if d_blocks d <? u32 (blkno + nblks) then ret (- E_INVAL, [])
  else if nblks =? 0 then ret (0, [])
  else l <- disk0_loop (Z.to_nat nblks) write data resid blkno ;; ret (0, l).

(** ** References *)

#[export] Instance dev_tally : Tally devs (count * Z) := {
  tally s i := match dcounts s (snd i) with Some c => Inode.count_in (fst i) c | None => 0 end;
  sound _ := True
}.

#[export] Instance dev_counts : Inode.CountsIn dcounts put_dcounts.
Proof.
  split; [done| |done]. intros s a c b Hn. unfold dcounts, put_dcounts in *. cbn. case_bool_decide as E.
  - subst b. rewrite lookup_alter_eq. destruct (dnodes s !! a); [done|by destruct Hn].
  - by rewrite lookup_alter_ne by congruence.
Qed.

Lemma quiet_get_dev a : quiet (I := count * Z) (get_dev a).
Proof. quiet_in get_dev. Qed.
#[export] Hint Resolve quiet_get_dev : quiet.

Lemma quiet_dev_open a fl : quiet (I := count * Z) (dev_open a fl).
Proof. quiet_in dev_open. Qed.

Lemma quiet_dev_close a : quiet (I := count * Z) (dev_close a).
Proof. quiet_in dev_close. Qed.

Lemma quiet_dev_gettype a : quiet (I := count * Z) (dev_gettype a).
Proof. quiet_in dev_gettype. Qed.

Lemma moves_dev_ref_inc a : moves (ref_inc a) (fun _ => one (Refs, a)).
Proof. exact (Inode.moves_inode_ref_inc dcounts put_dcounts a). Qed.

Lemma moves_dev_ref_dec a : moves (ref_dec a) (fun _ i => - one (Refs, a) i).
Proof. refine (Inode.moves_inode_ref_dec dcounts put_dcounts _ a _). by apply moves_ret. Qed.

Lemma moves_dev_open_inc a : moves (open_inc a) (fun _ => one (Opens, a)).
Proof. exact (Inode.moves_inode_open_inc dcounts put_dcounts a). Qed.

Lemma moves_dev_open_dec a : moves (open_dec a) (fun _ i => - one (Opens, a) i).
Proof. exact (Inode.moves_inode_open_dec dcounts put_dcounts dev_close a (quiet_dev_close a)). Qed.

#[export] Hint Resolve quiet_dev_open quiet_dev_gettype : quiet.
#[export] Hint Resolve moves_dev_ref_inc moves_dev_ref_dec moves_dev_open_inc moves_dev_open_dec : moves.

Lemma moves_dev_lookup a path : moves (dev_lookup a path) (fun '(r, o) i => if r =? 0 then match o with Some n => one (Refs, n) i | None => 0 end else 0).
Proof. moves_in dev_lookup. Qed.

End Devs.

(** * Transfers of the disk device

    The loop of [disk0_io] moves four blocks at a time through its buffer; seen from
    outside it reads and writes the bytes of a range of blocks, and nothing else. *)

Import Devs.

Module DevsSpec.

(** The bytes of [n] sectors from [a]. *)
Definition bytes_of (s : disk) (a n : Z) : list Z := concat ((fun i => default [] (sectors s !! i)) <$> seqZ a n).

(** Sector [i] is there, and is one. *)
Definition sector_ok (s : disk) (i : Z) : Prop := exists b, sectors s !! i = Some b /\ Z.of_nat (length b) = SECTSIZE.

(** The device has its sectors, fits the driver, and the controller reports no error. *)
Record disk_ok (d : device) (s : disk) : Prop := {
  ok_sectors i : 0 <= i < d_blocks d * DISK0_BLK_NSECT -> sector_ok s i;
  ok_size : 0 <= d_blocks d /\ d_blocks d * DISK0_BLK_NSECT <= MAX_DISK_NSECS;
  ok_quiet : ide_results s = []
}.

(** Arithmetic on sectors, blocks and bytes. *)
Ltac sect := unfold MAX_NSECS, MAX_DISK_NSECS, DISK0_BUFSIZE, DISK0_BLK_NSECT, DISK0_BLKSIZE, SECTSIZE in *; change (4096 / 512) with 8 in *; lia.

Definition in_disk (d : device) (b n : Z) : Prop := 0 <= b /\ 0 <= n /\ b + n <= d_blocks d.

Lemma bytes_of_app s a n m : 0 <= n -> 0 <= m -> bytes_of s a (n + m) = bytes_of s a n ++ bytes_of s (a + n) m.
Proof. intros. unfold bytes_of. by rewrite seqZ_app, fmap_app, concat_app. Qed.

Lemma bytes_of_same s s' a n : (forall i, a <= i < a + n -> sectors s' !! i = sectors s !! i) -> bytes_of s' a n = bytes_of s a n.
Proof. intros H. unfold bytes_of. f_equal. apply list_fmap_ext. intros k i Hi. apply lookup_seqZ in Hi as [-> Hi]. by rewrite H by lia. Qed.

Lemma bytes_of_cons s a n b : 0 < n -> sectors s !! a = Some b -> bytes_of s a n = b ++ bytes_of s (a + 1) (n - 1).
Proof. intros Hn Hb. unfold bytes_of. rewrite seqZ_cons by done. cbn. by rewrite Hb. Qed.

Lemma read_secs_run n : forall a s, (forall i, a <= i < a + Z.of_nat n -> sector_ok s i) -> read_secs n a s = Ret (bytes_of s a (Z.of_nat n), s).
Proof.
  induction n as [|n IH]; intros a s H; [done|]. cbn [read_secs]. destruct (H a ltac:(lia)) as (b & Hb & _). rewrite bind_get, (bind_deref _ _ _ _ Hb).
  rewrite (bind_step _ _ _ _ _ (IH (a + 1) s ltac:(intros i Hi; apply H; lia))). rewrite (bytes_of_cons s a (Z.of_nat (S n)) b ltac:(lia) Hb).
  by replace (Z.of_nat (S n) - 1) with (Z.of_nat n) by lia.
Qed.

(** What a write of [n] sectors from [a] leaves: [data] there, the rest as it was. *)
Definition stored (s s' : disk) (a n : Z) (data : list Z) : Prop :=
  bytes_of s' a n = data /\ ide_results s' = ide_results s /\
  (forall i, i < a \/ a + n <= i -> sectors s' !! i = sectors s !! i) /\ (forall i, a <= i < a + n -> sector_ok s' i).

Lemma stored_app s s' s'' a n m l1 l2 : 0 <= n -> 0 <= m -> stored s s' a n l1 -> stored s' s'' (a + n) m l2 -> stored s s'' a (n + m) (l1 ++ l2).
Proof.
  intros Hn Hm (A1 & A2 & A3 & A4) (B1 & B2 & B3 & B4). split_and!.
  - rewrite bytes_of_app by done. f_equal; [|done]. rewrite <- A1. apply bytes_of_same. intros i Hi. apply B3. lia.
  - congruence.
  - intros i Hi. rewrite B3 by lia. apply A3. lia.
  - intros i Hi. destruct (decide (i < a + n)); [|apply B4; lia]. destruct (A4 i ltac:(lia)) as (b & Hb & Hl). exists b. rewrite B3 by lia. done.
Qed.

Lemma write_secs_run n : forall a data s, (forall i, a <= i < a + Z.of_nat n -> sector_ok s i) -> Z.of_nat (length data) = SECTSIZE * Z.of_nat n ->
  exists s', write_secs n a data s = Ret (tt, s') /\ stored s s' a (Z.of_nat n) data.
Proof.
  induction n as [|n IH]; intros a data s H Hl.
  - destruct data; [|cbn in Hl; lia]. exists s. split; [done|]. split_and!; (done || (intros i Hi; lia)).
  - cbn [write_secs]. destruct (H a ltac:(lia)) as (b & Hb & _). rewrite bind_get, (bind_deref _ _ _ _ Hb), bind_modify.
    set (s1 := mk_disk (<[a := take (Z.to_nat SECTSIZE) data]> (sectors s)) (ide_results s)).
    assert (H1 : stored s s1 a 1 (take (Z.to_nat SECTSIZE) data)).
    { unfold s1. split_and!; cbn [sectors ide_results]; [|done| |].
      - unfold bytes_of. rewrite seqZ_cons by lia. cbn. by rewrite lookup_insert_eq, app_nil_r.
      - intros i Hi. by rewrite lookup_insert_ne by lia.
      - intros i Hi. replace i with a by lia. exists (take (Z.to_nat SECTSIZE) data). cbn. rewrite lookup_insert_eq. split; [done|].
        rewrite length_take. unfold SECTSIZE in *. lia. }
    destruct (IH (a + 1) (drop (Z.to_nat SECTSIZE) data) s1) as (s' & E & H2).
    + intros i Hi. destruct (H i ltac:(lia)) as (b' & Hb' & Hl'). exists b'. split; [|done]. rewrite (proj1 (proj2 (proj2 H1))) by lia. done.
    + rewrite length_drop. unfold SECTSIZE in *. lia.
    + exists s'. split; [exact E|]. replace (Z.of_nat (S n)) with (1 + Z.of_nat n) by lia. rewrite <- (take_drop (Z.to_nat SECTSIZE) data).
      by eapply stored_app; [lia|lia| |].
Qed.

(** One transfer of at most four blocks. *)
Lemma assert_secs_run d s b n : disk_ok d s -> in_disk d b n -> n <= 4 -> 0 < n ->
  assert_secs (b * DISK0_BLK_NSECT) (n * DISK0_BLK_NSECT) s = Ret (tt, s).
Proof.
  intros [_ [_ Hs] _] (H1 & H2 & H3) Hn Hp. unfold assert_secs. rewrite assert_true by (apply Z.leb_le; sect). apply assert_Ret. split; [|done].
  rewrite u32_small by (unfold is_u32; sect). apply andb_true_intro. split; [apply Z.ltb_lt|apply Z.leb_le]; sect.
Qed.

Lemma nsect_u32 d s x : disk_ok d s -> 0 <= x <= d_blocks d -> u32 (x * DISK0_BLK_NSECT) = x * DISK0_BLK_NSECT.
Proof.
  intros [_ [_ Hs] _] Hx. apply u32_small. unfold is_u32. sect.
Qed.

Lemma read_blks_run d s b n : disk_ok d s -> in_disk d b n -> n <= 4 -> 0 < n ->
  disk0_read_blks_nolock b n s = Ret (bytes_of s (b * DISK0_BLK_NSECT) (n * DISK0_BLK_NSECT), s).
Proof.
  intros Ok Hi Hn Hp. pose proof Hi as (H1 & H2 & H3). unfold disk0_read_blks_nolock, ide_read_secs. rewrite !(nsect_u32 d s) by (done || lia).
  assert (E : (assert_secs (b * DISK0_BLK_NSECT) (n * DISK0_BLK_NSECT) ;; r <- ide_result ;; if negb (r =? 0) then ret (r, []) else l <- read_secs (Z.to_nat (n * DISK0_BLK_NSECT)) (b * DISK0_BLK_NSECT) ;; ret (0, l)) s =
              Ret ((0, bytes_of s (b * DISK0_BLK_NSECT) (n * DISK0_BLK_NSECT)), s)); [|by rewrite (bind_step _ _ _ _ _ E)].
  rewrite (bind_step _ _ _ _ _ (assert_secs_run d s b n Ok Hi Hn Hp)). unfold ide_result. rewrite (bind_step _ _ s 0 s) by (by rewrite bind_get, (ok_quiet _ _ Ok)).
  cbn [negb Z.eqb]. assert (Hr : forall i, b * DISK0_BLK_NSECT <= i < b * DISK0_BLK_NSECT + Z.of_nat (Z.to_nat (n * DISK0_BLK_NSECT)) -> sector_ok s i).
  { intros i Hj. apply (ok_sectors _ _ Ok). sect. }
  rewrite (bind_step _ _ _ _ _ (read_secs_run _ _ s Hr)).
  by rewrite Z2Nat.id by sect.
Qed.

Lemma write_blks_run d s b n data : disk_ok d s -> in_disk d b n -> n <= 4 -> 0 < n -> Z.of_nat (length data) = n * DISK0_BLKSIZE ->
  exists s', disk0_write_blks_nolock b data n s = Ret (tt, s') /\ stored s s' (b * DISK0_BLK_NSECT) (n * DISK0_BLK_NSECT) data.
Proof.
  intros Ok Hi Hn Hp Hl. pose proof Hi as (H1 & H2 & H3). unfold disk0_write_blks_nolock, ide_write_secs. rewrite !(nsect_u32 d s) by (done || lia).
  destruct (write_secs_run (Z.to_nat (n * DISK0_BLK_NSECT)) (b * DISK0_BLK_NSECT) data s) as (s' & E & Hs').
  - intros i Hj. apply (ok_sectors _ _ Ok). sect.
  - sect.
  - exists s'. rewrite Z2Nat.id in Hs' by sect. split; [|done].
    unfold bind at 1. rewrite (bind_step _ _ _ _ _ (assert_secs_run d s b n Ok Hi Hn Hp)). unfold ide_result.
    rewrite (bind_step _ _ s 0 s) by (by rewrite bind_get, (ok_quiet _ _ Ok)). cbn [negb Z.eqb]. by rewrite (bind_step _ _ _ _ _ E).
Qed.

Lemma stored_ok d s s' a n l : disk_ok d s -> stored s s' a n l -> disk_ok d s'.
Proof.
  intros [O1 O2 O3] (S1 & S2 & S3 & S4). split; [|done|congruence]. intros i Hi.
  destruct (decide (a <= i < a + n)) as [Hin|Hout]; [by apply S4|]. destruct (O1 i Hi) as (b & Hb & Hl). exists b. by rewrite S3 by lia.
Qed.

(** ** The loop *)

Lemma chunk n : 0 < n -> Z.min (n * DISK0_BLKSIZE) DISK0_BUFSIZE = Z.min n 4 * DISK0_BLKSIZE /\ Z.min n 4 * DISK0_BLKSIZE / DISK0_BLKSIZE = Z.min n 4 /\
  Z.min n 4 * DISK0_BLKSIZE mod DISK0_BLKSIZE = 0.
Proof. intros H. split; [sect|]. split; [by apply Z.div_mul|by apply Z.mod_mul]. Qed.

Lemma disk0_loop_read d fuel : forall s b n, disk_ok d s -> in_disk d b n -> n <= Z.of_nat fuel -> d_blocks d < 2 ^ 32 ->
  disk0_loop fuel false [] (n * DISK0_BLKSIZE) b s = Ret (bytes_of s (b * DISK0_BLK_NSECT) (n * DISK0_BLK_NSECT), s).
Proof.
  induction fuel as [|fuel IH]; intros s b n Ok Hi Hf Hd; pose proof Hi as (H1 & H2 & H3); cbn [disk0_loop].
  - replace n with 0 by lia. done.
  - destruct (Z.eqb_spec (n * DISK0_BLKSIZE) 0) as [E|E]; [replace n with 0 by sect; done|].
    destruct (chunk n ltac:(sect)) as (C1 & C2 & C3). rewrite C1, C2, C3.
    rewrite (bind_step _ _ _ _ _ (read_blks_run d s b (Z.min n 4) Ok ltac:(unfold in_disk; sect) ltac:(lia) ltac:(sect))).
    rewrite assert_true by done. rewrite u32_small by (unfold is_u32; lia).
    replace (n * DISK0_BLKSIZE - Z.min n 4 * DISK0_BLKSIZE) with ((n - Z.min n 4) * DISK0_BLKSIZE) by lia.
    rewrite (bind_step _ _ _ _ _ (IH s (b + Z.min n 4) (n - Z.min n 4) Ok ltac:(unfold in_disk; lia) ltac:(sect) Hd)). unfold ret. f_equal. f_equal.
    replace (n * DISK0_BLK_NSECT) with (Z.min n 4 * DISK0_BLK_NSECT + (n - Z.min n 4) * DISK0_BLK_NSECT) by lia.
    rewrite bytes_of_app by sect. by rewrite Z.mul_add_distr_r.
Qed.

Lemma disk0_loop_write d fuel : forall s b n data, disk_ok d s -> in_disk d b n -> n <= Z.of_nat fuel -> d_blocks d < 2 ^ 32 -> Z.of_nat (length data) = n * DISK0_BLKSIZE ->
  exists s', disk0_loop fuel true data (n * DISK0_BLKSIZE) b s = Ret ([], s') /\ stored s s' (b * DISK0_BLK_NSECT) (n * DISK0_BLK_NSECT) data.
Proof.
  assert (H0 : forall s b data, Z.of_nat (length data) = 0 -> stored s s (b * DISK0_BLK_NSECT) (0 * DISK0_BLK_NSECT) data).
  { intros s b [|x data] Hl; [|cbn in Hl; lia]. split_and!; (done || (intros i Hi; lia)). }
  induction fuel as [|fuel IH]; intros s b n data Ok Hi Hf Hd Hl; pose proof Hi as (H1 & H2 & H3); cbn [disk0_loop].
  - replace n with 0 in * by lia. exists s. split; [done|]. apply H0. lia.
  - destruct (Z.eqb_spec (n * DISK0_BLKSIZE) 0) as [E|E]; [replace n with 0 in * by sect; exists s; split; [done|]; apply H0; lia|].
    destruct (chunk n ltac:(sect)) as (C1 & C2 & C3). rewrite C1, C2, C3.
    rewrite assert_true by (rewrite (proj2 (Z.eqb_neq (Z.min n 4 * DISK0_BLKSIZE) 0)) by sect; rewrite (proj2 (Z.leb_le (Z.min n 4 * DISK0_BLKSIZE) (n * DISK0_BLKSIZE))) by sect; done).
    destruct (write_blks_run d s b (Z.min n 4) (take (Z.to_nat (Z.min n 4 * DISK0_BLKSIZE)) data) Ok) as (s1 & E1 & S1); [unfold in_disk; sect|lia|sect|rewrite length_take; sect|].
    rewrite (bind_step _ _ _ _ _ E1). rewrite u32_small by (unfold is_u32; lia).
    replace (n * DISK0_BLKSIZE - Z.min n 4 * DISK0_BLKSIZE) with ((n - Z.min n 4) * DISK0_BLKSIZE) by lia.
    destruct (IH s1 (b + Z.min n 4) (n - Z.min n 4) (drop (Z.to_nat (Z.min n 4 * DISK0_BLKSIZE)) data)) as (s2 & E2 & S2);
      [by eapply stored_ok|unfold in_disk; lia|sect|done|rewrite length_drop; sect|].
    exists s2. split; [exact E2|]. replace (n * DISK0_BLK_NSECT) with (Z.min n 4 * DISK0_BLK_NSECT + (n - Z.min n 4) * DISK0_BLK_NSECT) by lia.
    rewrite <- (take_drop (Z.to_nat (Z.min n 4 * DISK0_BLKSIZE)) data). rewrite Z.mul_add_distr_r in S2. eapply stored_app; [sect|sect|exact S1|exact S2].
Qed.

(** ** The transfer *)

Lemma io_guards d s b n : disk_ok d s -> in_disk d b n ->
  u32 (Z.quot (b * DISK0_BLKSIZE) DISK0_BLKSIZE) = b /\ Z.rem (b * DISK0_BLKSIZE) DISK0_BLKSIZE = 0 /\ n * DISK0_BLKSIZE / DISK0_BLKSIZE = n /\
  n * DISK0_BLKSIZE mod DISK0_BLKSIZE = 0 /\ u32 (b + n) = b + n /\ d_blocks d < 2 ^ 32.
Proof.
  intros [_ [_ Hs] _] (H1 & H2 & H3). rewrite Z.quot_mul, Z.rem_mul, Z.div_mul, Z.mod_mul by done. rewrite !u32_small by (unfold is_u32; sect). split_and!; try done. sect.
Qed.

Lemma disk0_io_run d s b n write data : disk_ok d s -> in_disk d b n ->
  disk0_io d (b * DISK0_BLKSIZE) (n * DISK0_BLKSIZE) write data s = (l <- disk0_loop (Z.to_nat n) write data (n * DISK0_BLKSIZE) b ;; ret (0, l)) s.
Proof.
  intros Ok Hi. destruct (io_guards d s b n Ok Hi) as (G1 & G2 & G3 & G4 & G5 & _). pose proof Hi as (H1 & H2 & H3). unfold disk0_io. rewrite G1, G2, G3, G4, G5.
  cbn [negb Z.eqb orb]. rewrite (proj2 (Z.ltb_ge _ _)) by lia. destruct (Z.eqb_spec n 0) as [->|Hn]; [|done]. by destruct write.
Qed.

(** C28: A write to the disk device of whole blocks inside the disk succeeds, however many
    rounds of its four-block buffer it takes; reading the blocks again gives the bytes
    written, and no other sector has changed.  The controller reports no error. *)
Theorem disk0_roundtrip d s b n data : disk_ok d s -> in_disk d b n -> Z.of_nat (length data) = n * DISK0_BLKSIZE ->
  exists s', disk0_io d (b * DISK0_BLKSIZE) (n * DISK0_BLKSIZE) true data s = Ret ((0, []), s') /\ disk_ok d s' /\
    disk0_io d (b * DISK0_BLKSIZE) (n * DISK0_BLKSIZE) false [] s' = Ret ((0, data), s') /\
    forall i, i < b * DISK0_BLK_NSECT \/ (b + n) * DISK0_BLK_NSECT <= i -> sectors s' !! i = sectors s !! i.
Proof.
  intros Ok Hi Hl. destruct (io_guards d s b n Ok Hi) as (_ & _ & _ & _ & _ & Hd). pose proof Hi as (H1 & H2 & H3).
  destruct (disk0_loop_write d (Z.to_nat n) s b n data Ok Hi ltac:(lia) Hd Hl) as (s' & E & S). pose proof (stored_ok _ _ _ _ _ _ Ok S) as Ok'. exists s'.
  rewrite (disk0_io_run d s b n true data Ok Hi), (bind_step _ _ _ _ _ E). split; [done|]. split; [done|].
  rewrite (disk0_io_run d s' b n false [] Ok' Hi), (bind_step _ _ _ _ _ (disk0_loop_read d (Z.to_nat n) s' b n Ok' Hi ltac:(lia) Hd)).
  destruct S as (S1 & _ & S3 & _). rewrite S1. split; [done|]. intros i Hj. apply S3. lia.
Qed.

(** *** Nine blocks of a small disk *)

Definition small_dev : device := device_init Disk0 80.
Definition small_disk : disk := mk_disk (array 80 (fun _ => replicate 512 0)) [].

Lemma small_ok : disk_ok small_dev small_disk.
Proof.
  split; [|split; reflexivity || discriminate|reflexivity]. intros i Hi. exists (replicate 512 0). split; [|by rewrite length_replicate].
  apply array_lookup. split; [exact Hi|done].
Qed.

Lemma disk0_roundtrip_witness : exists s', disk0_io small_dev (1 * DISK0_BLKSIZE) (9 * DISK0_BLKSIZE) true (replicate (9 * 4096) 7) small_disk = Ret ((0, []), s') /\
  disk0_io small_dev (1 * DISK0_BLKSIZE) (9 * DISK0_BLKSIZE) false [] s' = Ret ((0, replicate (9 * 4096) 7), s').
Proof.
  destruct (disk0_roundtrip small_dev small_disk 1 9 (replicate (9 * 4096) 7) small_ok) as (s' & H1 & _ & H2 & _).
  - unfold in_disk, small_dev. cbn. change (80 / 8) with 10. lia.
  - rewrite length_replicate. reflexivity.
  - exists s'. split; [exact H1|exact H2].
Defined.

(** A transfer that begins one block before the disk passes the check of its end, which
    wraps around, and stops at the driver's assertion. *)
Example disk0_negative_offset : disk0_io small_dev (- DISK0_BLKSIZE) (2 * DISK0_BLKSIZE) false [] small_disk = Panic.
Proof. reflexivity. Qed.

End DevsSpec.
