(* ===== verification/Stdin.v ===== *)
(** * The keyboard as a device (src/code/kern/fs/devs/dev_stdin.c)

    The interrupt handler stores characters in a ring buffer that readers empty, sleeping
    when there is nothing to read.  What the buffer holds is a queue of at most 4096
    characters ([queue]); [stdin_queue_spec] says what the operations do to it. *)

From S2P Require Import Prelude Kern Sched Wait.
Import Kern Sched Wait.
Open Scope Z_scope.

Module Stdin.

Definition STDIN_BUFSIZE : Z := 4096.
Definition wait_queue : wq := (6, 0).

(** The kernel, [stdin_buffer] and the two positions, which are signed. *)
Record stdin := mk_stdin { sk : kstate; stdin_buffer : gmap Z Z; p_rpos : Z; p_wpos : Z }.

Definition put_sk k s := mk_stdin k (stdin_buffer s) (p_rpos s) (p_wpos s).
Definition put_buf b s := mk_stdin (sk s) b (p_rpos s) (p_wpos s).
Definition put_rpos v s := mk_stdin (sk s) (stdin_buffer s) v (p_wpos s).
Definition put_wpos v s := mk_stdin (sk s) (stdin_buffer s) (p_rpos s) v.

Definition kern {A} (m : M kstate A) : M stdin A := fun s =>
  match m (sk s) with Ret (a, k) => Ret (a, put_sk k s) | Panic => Panic | OutOfFuel => OutOfFuel end.

Section Ops.
Variable sc : sched_class.

(** [stdin_buffer[pos % STDIN_BUFSIZE]] must be an element of the array. *)
Definition slot (pos : Z) : M stdin Z :=
  let i := Z.rem pos STDIN_BUFSIZE in assert (0 <=? i) ;; ret i.

Definition dev_stdin_write (c : Z) : M stdin unit :=
  if c =? 0 then ret tt
  else
    s <- get ;;
    i <- slot (p_wpos s) ;;
    modify (fun s => put_buf (<[i := c]> (stdin_buffer s)) s) ;;
    (if s32 (p_wpos s - p_rpos s) <? STDIN_BUFSIZE then modify (put_wpos (s32 (p_wpos s + 1))) else ret tt) ;;
    e <- kern (wait_queue_empty wait_queue) ;;
    if negb e then kern (wakeup_queue sc wait_queue WT_KBD true) else ret tt.

(** A reader that finds the buffer empty sleeps; [w] is the address of its wait. *)
Definition stdin_wait (w : Z) : R stdin bool :=
  lift (kern (wait_current_set wait_queue w WT_KBD)) ;;~
  sleep ;;~
  lift (kern (wait_current_del wait_queue w)) ;;~
  wt <~ lift (kern (get_wait w)) ;;
  rret (wakeup_flags wt =? WT_KBD).

(** The next character, when the wait for it is not interrupted; [fuel] bounds the number
    of times the reader goes back to sleep. *)
Fixpoint next_char (fuel : nat) (w : Z) : R stdin (option Z) :=
  s <~ lift get ;;
  if p_rpos s <? p_wpos s then
    i <~ lift (slot (p_rpos s)) ;;
    lift (modify (put_rpos (s32 (p_rpos s + 1)))) ;;~
    rret (Some (default 0 (stdin_buffer s !! i)))
  else
    ok <~ stdin_wait w ;;
    if (ok : bool) then match fuel with O => lift out_of_fuel | S fuel => next_char fuel w end
    else rret None.

Fixpoint dev_stdin_read (len : nat) (fuel : nat) (w : Z) : R stdin (list Z) :=
  match len with
  | O => rret []
  | S n =>
      o <~ next_char fuel w ;;
      match o with
      | Some c => l <~ dev_stdin_read n fuel w ;; rret (c :: l)
      | None => rret []
      end
  end.

(** The result, the bytes stored and what the descriptor has left. *)
Definition stdin_io (resid : Z) (write : bool) (fuel : nat) (w : Z) : R stdin (Z * list Z * Z) :=
  if negb write then
    l <~ dev_stdin_read (Z.to_nat resid) fuel w ;;
    let n := Z.of_nat (length l) in
    rret (n, l, if 0 <? n then resid - n else resid)
  else rret (- E_INVAL, [], resid).
End Ops.

(** ** The queue *)

(** The characters from the reading position on. *)
Definition queue (s : stdin) : list Z :=
  (fun p => default 0 (stdin_buffer s !! (p mod STDIN_BUFSIZE))) <$> seqZ (p_rpos s) (p_wpos s - p_rpos s).

(** The positions, as long as fewer than [2 ^ 31] characters have been typed. *)
Definition in_range (s : stdin) : Prop := 0 <= p_rpos s <= p_wpos s /\ p_wpos s - p_rpos s <= STDIN_BUFSIZE /\ p_wpos s < 2 ^ 31 - 1.

Lemma queue_length s : in_range s -> Z.of_nat (length (queue s)) = p_wpos s - p_rpos s.
Proof. intros [H _]. unfold queue. rewrite length_fmap, length_seqZ. lia. Qed.

Lemma slot_run pos s : 0 <= pos -> slot pos s = Ret (pos mod STDIN_BUFSIZE, s).
Proof.
  intros H. unfold slot. rewrite Z.rem_mod_nonneg by (unfold STDIN_BUFSIZE; lia).
  rewrite assert_true; [done|]. apply Z.leb_le. apply Z.mod_pos_bound. done.
Qed.

(** What a full buffer holds after one more character: it takes the place of the oldest. *)
Definition typed (q : list Z) (c : Z) : list Z :=
  if Z.of_nat (length q) <? STDIN_BUFSIZE then q ++ [c] else match q with [] => [] | _ :: q => c :: q end.

(** A store at the writing position, seen from the queue. *)
Lemma seq_store (b : gmap Z Z) c r w n : 0 <= n -> (forall p, r <= p < r + n -> p mod STDIN_BUFSIZE <> w mod STDIN_BUFSIZE) ->
  (fun p => default 0 (<[w mod STDIN_BUFSIZE := c]> b !! (p mod STDIN_BUFSIZE))) <$> seqZ r n =
  (fun p => default 0 (b !! (p mod STDIN_BUFSIZE))) <$> seqZ r n.
Proof.
  intros Hn H. apply list_fmap_ext. intros i p Hp. apply lookup_seqZ in Hp as [-> Hi]. rewrite lookup_insert_ne; [done|]. intros E. apply (H (r + Z.of_nat i)); [lia|done].
Qed.

Lemma store_queue s c : in_range s ->
  let b := <[p_wpos s mod STDIN_BUFSIZE := c]> (stdin_buffer s) in
  let full := STDIN_BUFSIZE <=? p_wpos s - p_rpos s in
  queue (mk_stdin (sk s) b (p_rpos s) (if full then p_wpos s else p_wpos s + 1)) = typed (queue s) c.
Proof.
  intros R b full. unfold typed. rewrite (queue_length s R). destruct R as (H1 & H2 & H3). unfold full, queue. cbn [stdin_buffer p_rpos p_wpos]. unfold b.
  destruct (Z.leb_spec STDIN_BUFSIZE (p_wpos s - p_rpos s)) as [Hf|Hf].
  - rewrite (proj2 (Z.ltb_ge _ _)) by lia. assert (Hw : p_wpos s = p_rpos s + STDIN_BUFSIZE) by lia.
    rewrite (seqZ_cons (p_rpos s)) by (unfold STDIN_BUFSIZE in *; lia). cbn [fmap list_fmap]. rewrite seq_store by (unfold STDIN_BUFSIZE in *; intros; dlia).
    f_equal. rewrite Hw. replace ((p_rpos s + STDIN_BUFSIZE) mod STDIN_BUFSIZE) with (p_rpos s mod STDIN_BUFSIZE) by (unfold STDIN_BUFSIZE; dlia).
    by rewrite lookup_insert_eq.
  - rewrite (proj2 (Z.ltb_lt _ _)) by lia. replace (p_wpos s + 1 - p_rpos s) with ((p_wpos s - p_rpos s) + 1) by lia.
    rewrite seqZ_app, fmap_app by lia. f_equal; [apply seq_store; unfold STDIN_BUFSIZE in *; intros; dlia|].
    replace (p_rpos s + (p_wpos s - p_rpos s)) with (p_wpos s) by lia. by rewrite seqZ_cons by lia; cbn; rewrite lookup_insert_eq.
Qed.

Lemma kern_keeps {A} (m : M kstate A) s a s' : kern m s = Ret (a, s') -> exists k, s' = put_sk k s.
Proof. unfold kern. destruct (m (sk s)) as [[x k]| |]; [|done|done]. intros [= _ <-]. by exists k. Qed.

Lemma queue_put_sk k s : queue (put_sk k s) = queue s.
Proof. done. Qed.

Lemma stdin_write_run sc c s u s' : in_range s -> c <> 0 -> dev_stdin_write sc c s = Ret (u, s') ->
  queue s' = typed (queue s) c /\ p_rpos s' = p_rpos s /\ p_wpos s' = (if STDIN_BUFSIZE <=? p_wpos s - p_rpos s then p_wpos s else p_wpos s + 1).
Proof.
  intros R Hc H. pose proof (store_queue s c R) as Q. cbv zeta in Q. pose proof R as (H1 & H2 & H3). unfold dev_stdin_write in H.
  rewrite (proj2 (Z.eqb_neq c 0) Hc), bind_get in H. rewrite (bind_step _ _ _ _ _ (slot_run (p_wpos s) s (Z.le_trans _ _ _ (proj1 H1) (proj2 H1)))), bind_modify in H.
  rewrite s32_small in H by (unfold is_s32, STDIN_BUFSIZE in *; lia). apply bind_Ret in H as (u1 & s1 & E1 & H). apply bind_Ret in H as (e & s2 & [k2 ->]%kern_keeps & H).
  assert (E3 : exists k, s' = put_sk k s1) by (destruct e; [injection H as _ <-; by exists k2|]; apply kern_keeps in H as [k ->]; by exists k).
  destruct E3 as [k ->]. rewrite queue_put_sk, <- Q. cbn [put_sk p_rpos p_wpos]. rewrite Z.ltb_antisym in E1.
  destruct (STDIN_BUFSIZE <=? p_wpos s - p_rpos s); cbn [negb] in E1; injection E1 as _ <-; [done|]. rewrite s32_small by (unfold is_s32; lia). done.
Qed.

(** Reading what is there takes it from the front. *)
Lemma next_char_run fuel w s : in_range s -> p_rpos s < p_wpos s ->
  exists c q, queue s = c :: q /\ next_char fuel w s = Ok (Some c) (put_rpos (p_rpos s + 1) s) /\ queue (put_rpos (p_rpos s + 1) s) = q.
Proof.
  intros (H1 & H2 & H3) Hlt. unfold queue at 1. rewrite (seqZ_cons (p_rpos s)) by lia. eexists _, _. split; [reflexivity|].
  split; [|unfold queue; cbn [put_rpos stdin_buffer p_rpos p_wpos]; f_equal; f_equal; lia].
  destruct fuel; cbn [next_char]; unfold rbind, lift, get, rthen; rewrite (proj2 (Z.ltb_lt _ _) Hlt), slot_run, s32_small by (unfold is_s32; lia); done.
Qed.

Lemma stdin_read_run w fuel n : forall s, in_range s -> Z.of_nat n <= p_wpos s - p_rpos s ->
  dev_stdin_read n fuel w s = Ok (take n (queue s)) (put_rpos (p_rpos s + Z.of_nat n) s) /\
  queue (put_rpos (p_rpos s + Z.of_nat n) s) = drop n (queue s).
Proof.
  induction n as [|n IH]; intros s R Hn.
  - cbn [dev_stdin_read take drop]. rewrite Z.add_0_r. by destruct s.
  - destruct (next_char_run fuel w s R ltac:(lia)) as (c & q & Eq & Er & Eq'). cbn [dev_stdin_read]. unfold rbind at 1. rewrite Er. cbn [rthen].
    assert (R' : in_range (put_rpos (p_rpos s + 1) s)) by (destruct R as (R1 & R2 & R3); unfold in_range; cbn; lia).
    destruct (IH (put_rpos (p_rpos s + 1) s) R') as [E1 E2]; [cbn; lia|]. unfold rbind. rewrite E1. cbn [rthen]. rewrite Eq', Eq in *. cbn [take drop put_rpos p_rpos] in *.
    replace (p_rpos s + Z.of_nat (S n)) with (p_rpos s + 1 + Z.of_nat n) by lia. split; [done|exact E2].
Qed.

(** C38: The keyboard's ring buffer is a queue of at most 4096 characters: a character typed
    goes to its end, a read that finds enough characters takes them from its front in
    order, without sleeping.  But a character typed when the buffer is full is not
    dropped: it takes the place of the oldest one. *)
Theorem stdin_queue_spec s : in_range s ->
  (forall sc c u s', c <> 0 -> dev_stdin_write sc c s = Ret (u, s') -> queue s' = typed (queue s) c) /\
  (forall n fuel w, Z.of_nat n <= Z.of_nat (length (queue s)) ->
     exists s', dev_stdin_read n fuel w s = Ok (take n (queue s)) s' /\ queue s' = drop n (queue s)).
Proof.
  intros R. split.
  - intros sc c u s' Hc H. exact (proj1 (stdin_write_run sc c s u s' R Hc H)).
  - intros n fuel w Hn. rewrite (queue_length s R) in Hn. destruct (stdin_read_run w fuel n s R Hn) as [E1 E2]. eexists. split; [exact E1|exact E2].
Qed.

(** A full buffer of 4096 [a]s and no sleeper; the character typed is [b]. *)
Definition idle : kstate := mk_kstate ∅ 0 0 ∅ [] ∅ [] ∅ {[ wait_queue := [] ]} 0 (mk_ipc ∅ ∅ ∅ []).
Definition full_buffer : stdin := mk_stdin idle (array STDIN_BUFSIZE (fun _ => 97)) 0 STDIN_BUFSIZE.

Lemma stdin_queue_spec_witness : exists s', dev_stdin_write MLFQ_sched_class 98 full_buffer = Ret (tt, s') /\
  queue s' = typed (queue full_buffer) 98 /\ take 2 (queue s') = [98; 97].
Proof.
  assert (R : in_range full_buffer) by (unfold in_range, full_buffer, STDIN_BUFSIZE; cbn; lia).
  destruct (stdin_queue_spec full_buffer R) as [H _].
  assert (E : dev_stdin_write MLFQ_sched_class 98 full_buffer = Ret (tt, mk_stdin idle (<[0 := 98]> (stdin_buffer full_buffer)) 0 STDIN_BUFSIZE)) by reflexivity.
  eexists. split; [exact E|]. rewrite (H MLFQ_sched_class 98 tt _ ltac:(discriminate) E). split; [reflexivity|]. vm_compute. reflexivity.
Defined.

End Stdin.
