(* ===== verification/VfsRef.v ===== *)
(** * The virtual file system: the device list as a finite map

    Names in the device list are unique, so that the list stands for a map from names to
    devices ([table]): the loops over it find the binding of a name, and the operations
    insert a binding or change the file system of one. *)

From stdpp Require Import relations.
From S2P Require Import Prelude Vfs Inode.
Import Vfs.
Open Scope Z_scope.

Module VfsDev.
Section Table.
Context {W N F : Type} `{EqDecision N, EqDecision F} {ops : InodeOps W N F}.

Definition names (l : list (vfs_dev_t N F)) : list (list Z) := devname <$> l.
Definition table (l : list (vfs_dev_t N F)) : gmap (list Z) (vfs_dev_t N F) := list_to_map ((fun d => (devname d, d)) <$> l).

Lemma table_fst l : (((fun d => (devname d, d)) <$> l) : list (list Z * vfs_dev_t N F)).*1 = names l.
Proof using. unfold names. rewrite <- list_fmap_compose. by apply list_fmap_ext. Qed.

Lemma table_cons d l : table (d :: l) = <[devname d := d]> (table l).
Proof using. done. Qed.

(** The first device with a name is the binding of the name. *)
Lemma find_table name l : find_dev (is_named name) l = table l !! name.
Proof using.
  induction l as [|d l IH]; [done|]. rewrite table_cons. cbn. unfold is_named at 1. case_bool_decide as E.
  - by rewrite E, lookup_insert_eq.
  - by rewrite lookup_insert_ne.
Qed.

Lemma table_None name l : table l !! name = None <-> name ∉ names l.
Proof using. unfold table. rewrite <- not_elem_of_list_to_map. by rewrite table_fst. Qed.

Lemma table_name l name d : table l !! name = Some d -> devname d = name.
Proof using.
  intros H. apply elem_of_list_to_map_2 in H. apply list_elem_of_fmap in H as (x & [= -> ->] & _). done.
Qed.

(** A position of the list and its binding. *)
Lemma table_at l i d : NoDup (names l) -> l !! i = Some d -> table l !! devname d = Some d.
Proof using.
  intros Hn Hi. apply elem_of_list_to_map_1; [by rewrite table_fst|]. apply list_elem_of_fmap. exists d. split; [done|]. by eapply list_elem_of_lookup_2.
Qed.

Lemma names_alter f i (l : list (vfs_dev_t N F)) : names (alter (set_fs f) i l) = names l.
Proof using.
  revert i. induction l as [|d l IH]; intros [|i]; [done..|]. cbn. f_equal. apply IH.
Qed.

Lemma table_alter f l i d : NoDup (names l) -> l !! i = Some d -> table (alter (set_fs f) i l) = <[devname d := set_fs f d]> (table l).
Proof using.
  revert i. induction l as [|x l IH]; intros i Hn Hi; [done|]. apply NoDup_cons in Hn as [Hx Hn]. destruct i as [|i].
  - injection Hi as ->. change (alter (set_fs f) 0%nat (d :: l)) with (set_fs f d :: l). rewrite !table_cons. cbn. by rewrite insert_insert_eq.
  - change (alter (set_fs f) (S i) (x :: l)) with (x :: alter (set_fs f) i l). rewrite !table_cons, (IH i Hn Hi). apply insert_insert_ne.
    intros E. apply Hx. rewrite E. apply list_elem_of_fmap. exists d. split; [done|]. by eapply list_elem_of_lookup_2.
Qed.

(** [find_mount] finds the binding of the name when it can be mounted on. *)
Lemma find_mount_from_spec k name (l : list (vfs_dev_t N F)) :
  match find_mount_from k name l with
  | (r, Some i) => r = 0 /\ exists d, (k <= i)%nat /\ l !! (i - k)%nat = Some d /\ devname d = name /\ mountable d = true
  | (r, None) => r = - E_NO_DEV /\ forall d, d ∈ l -> devname d = name -> mountable d = false
  end.
Proof using.
  revert k. induction l as [|x l IH]; intros k; cbn [find_mount_from].
  - split; [done|]. intros d Hd. by apply not_elem_of_nil in Hd.
  - destruct (mountable x && is_named name x) eqn:E.
    + apply andb_prop in E as [E1 E2%bool_decide_eq_true]. split; [done|]. exists x. rewrite Nat.sub_diag. split_and!; done || lia.
    + specialize (IH (S k)). destruct (find_mount_from (S k) name l) as [r [i|]].
      * destruct IH as (-> & d & Hk & Hl & H1 & H2). split; [done|]. exists d. replace (i - k)%nat with (S (i - S k)) by lia. split_and!; [lia|done..].
      * destruct IH as [-> IH]. split; [done|]. intros d [->|Hd]%elem_of_cons Hn; [|by apply IH].
        apply andb_false_iff in E as [E|E%bool_decide_eq_false]; done.
Qed.

(** What it returns, by the map. *)
Lemma find_mount_table name (s : vfs_t W N F) : NoDup (names (vdev_list s)) ->
  (exists i d, find_mount name s = Ret ((0, Some i), s) /\ vdev_list s !! i = Some d /\ table (vdev_list s) !! name = Some d /\ mountable d = true) \/
  (find_mount name s = Ret ((- E_NO_DEV, None), s) /\ forall d, table (vdev_list s) !! name = Some d -> mountable d = false).
Proof using.
  intros Hn. unfold find_mount. rewrite bind_get. unfold ret. pose proof (find_mount_from_spec 0 name (vdev_list s)) as H.
  destruct (find_mount_from 0 name (vdev_list s)) as [r [i|]].
  - destruct H as (-> & d & _ & Hl & H1 & H2). left. exists i, d. rewrite Nat.sub_0_r in Hl. split_and!; [done..| |done].
    rewrite <- H1. by eapply table_at.
  - destruct H as [-> H]. right. split; [done|]. intros d Hd. apply H; [|by eapply table_name].
    apply elem_of_list_to_map_2 in Hd. apply list_elem_of_fmap in Hd as (x & [= _ ->] & Hx). done.
Qed.

(** ** What the operations do to the map *)

Definition devs_of (s : vfs_t W N F) : gmap (list Z) (vfs_dev_t N F) := table (vdev_list s).
Definition unique (s : vfs_t W N F) : Prop := NoDup (names (vdev_list s)).

(** The answers to adding a device. *)
Inductive added (t : gmap (list Z) (vfs_dev_t N F)) (d : vfs_dev_t N F) : Z -> gmap (list Z) (vfs_dev_t N F) -> Prop :=
| AddTooLong : FS_MAX_DNAME_LEN < Z.of_nat (length (devname d)) -> added t d (- E_TOO_BIG) t
| AddNoMem : added t d (- E_NO_MEM) t
| AddExists x : t !! devname d = Some x -> added t d (- E_EXISTS) t
| AddOk : t !! devname d = None -> Z.of_nat (length (devname d)) <= FS_MAX_DNAME_LEN -> added t d 0 (<[devname d := d]> t).

(** To mounting, with the codes that the device's file system may refuse with. *)
Inductive mounted (t : gmap (list Z) (vfs_dev_t N F)) (name : list Z) : Z -> gmap (list Z) (vfs_dev_t N F) -> Prop :=
| MountNoDev : (forall d, t !! name = Some d -> mountable d = false) -> mounted t name (- E_NO_DEV) t
| MountBusy d f : t !! name = Some d -> mountable d = true -> fs d = Some f -> mounted t name (- E_BUSY) t
| MountFails d r : t !! name = Some d -> mountable d = true -> fs d = None -> r <> 0 -> mounted t name r t
| MountOk d f : t !! name = Some d -> mountable d = true -> fs d = None -> mounted t name 0 (<[name := set_fs (Some f) d]> t).

(** And to unmounting: the file system may refuse too. *)
Inductive unmounted (t : gmap (list Z) (vfs_dev_t N F)) (name : list Z) : Z -> gmap (list Z) (vfs_dev_t N F) -> Prop :=
| UmountNoDev : (forall d, t !! name = Some d -> mountable d = false) -> unmounted t name (- E_NO_DEV) t
| UmountNone d : t !! name = Some d -> mountable d = true -> fs d = None -> unmounted t name (- E_INVAL) t
| UmountFails d f r : t !! name = Some d -> mountable d = true -> fs d = Some f -> r <> 0 -> unmounted t name r t
| UmountOk d f : t !! name = Some d -> mountable d = true -> fs d = Some f -> unmounted t name 0 (<[name := set_fs None d]> t).

Lemma kmalloc_devs (s : vfs_t W N F) b s' : kmalloc s = Ret (b, s') -> vdev_list s' = vdev_list s.
Proof using. unfold kmalloc. rewrite bind_get. destruct (vmem s); intros [= _ <-]; done. Qed.

Lemma below_devs {A} (m : M W A) (s : vfs_t W N F) a s' : below m s = Ret (a, s') -> vdev_list s' = vdev_list s.
Proof using. unfold below. destruct (m (world s)) as [[x w]| |]; [|done|done]. by intros [= _ <-]. Qed.

Lemma do_add_run name node f m s r s' : unique s -> vfs_do_add name node f m s = Ret (r, s') ->
  unique s' /\ added (devs_of s) (mk_vdev name node f m) r (devs_of s').
Proof using.
  intros Hu H. unfold vfs_do_add in H. rewrite bind_get in H. apply bind_Ret in H as (u & ? & [_ [= -> ->]]%assert_Ret & H).
  destruct (Z.ltb_spec FS_MAX_DNAME_LEN (Z.of_nat (length name))) as [Hl|Hl]; [injection H as <- <-; split; [done|by constructor]|].
  apply bind_Ret in H as (ok & s1 & H1%kmalloc_devs & H). unfold unique, devs_of in *.
  destruct ok; cbn [negb] in H; [|injection H as <- <-; rewrite H1; split; [done|constructor]].
  apply bind_Ret in H as (ok & s2 & H2%kmalloc_devs & H). rewrite H1 in H2.
  destruct ok; cbn [negb] in H; [|injection H as <- <-; rewrite H2; split; [done|constructor]].
  unfold check_devname_conflict in H. apply bind_Ret in H as (free & s3 & Hf & H). rewrite bind_get in Hf. injection Hf as <- <-.
  rewrite find_table, H2 in H. destruct (table (vdev_list s) !! name) as [x|] eqn:E; cbn [negb] in H.
  - injection H as <- <-. rewrite H2. split; [done|]. by eapply AddExists.
  - rewrite bind_modify in H. injection H as <- <-. cbn [vdev_list put_devs]. rewrite H2. split; [apply NoDup_cons; split; [by apply table_None|done]|].
    rewrite table_cons. by apply (AddOk _ (mk_vdev name node f m)).
Qed.

Lemma put_vdev_run i f d (s : vfs_t W N F) : unique s -> vdev_list s !! i = Some d ->
  exists s', put_vdev_fs i f s = Ret (tt, s') /\ unique s' /\ devs_of s' = <[devname d := set_fs f d]> (devs_of s) /\ world s' = world s.
Proof using.
  intros Hu Hi. eexists. split; [reflexivity|]. unfold unique, devs_of. cbn [vdev_list put_devs world]. rewrite names_alter. split; [done|].
  split; [by apply table_alter|done].
Qed.

(** Mounting, when a [mountfunc] that fails leaves no file system. *)
Lemma mount_run name mountfunc s r s' : unique s ->
  (forall n w q f w', mountfunc n w = Ret ((q, f), w') -> q <> 0 -> f = None) ->
  vfs_mount name mountfunc s = Ret (r, s') -> unique s' /\ mounted (devs_of s) name r (devs_of s').
Proof using.
  intros Hu Hm H. unfold vfs_mount in H. destruct (find_mount_table name s Hu) as [(i & d & E & Hi & Ht & Hd)|[E Hd]]; rewrite (bind_step _ _ _ _ _ E) in H.
  - cbn [negb Z.eqb] in H. rewrite (bind_deref _ _ _ _ eq_refl) in H. unfold get_vdev in H. rewrite (bind_step _ _ s d s) in H by (rewrite bind_get, Hi; done).
    destruct (fs d) as [f|] eqn:Ef; [injection H as <- <-; split; [done|by eapply MountBusy]|].
    rewrite assert_true in H by done. apply bind_Ret in H as (n & ? & Hn & H).
    destruct (devnode d); [injection Hn as -> <-|done]. rewrite bind_get in H. apply bind_Ret in H as (u & ? & [_ [= -> ->]]%assert_Ret & H).
    apply bind_Ret in H as ([q f] & s1 & Hb & H). pose proof (below_devs _ _ _ _ Hb) as El.
    assert (Hq : q <> 0 -> f = None).
    { unfold below in Hb. destruct (mountfunc n (world s)) as [[[q' f'] w]| |] eqn:Eq; [|done|done]. injection Hb as <- <- _. by eapply Hm. }
    assert (Hu1 : unique s1) by (unfold unique; by rewrite El). assert (Ed : devs_of s1 = devs_of s) by (unfold devs_of; by rewrite El).
    destruct (put_vdev_run i f d s1 Hu1 ltac:(by rewrite El)) as (s2 & E2 & Hu2 & Et & _). rewrite (bind_step _ _ _ _ _ E2) in H.
    rewrite (table_name _ _ _ Ht), Ed in Et. destruct (Z.eqb_spec q 0) as [->|Hne].
    + apply bind_Ret in H as (u' & ? & [Hf%bool_decide_eq_true [= -> ->]]%assert_Ret & [= <- <-]). split; [done|]. rewrite Et.
      destruct f as [f|]; [|done]. by apply (MountOk _ name d f).
    + injection H as <- <-. split; [done|]. rewrite Et, (Hq Hne). rewrite insert_id; [by apply (MountFails _ name d q)|].
      unfold devs_of. rewrite Ht. f_equal. destruct d. cbn in *. by subst.
  - cbn [negb] in H. injection H as <- <-. split; [done|]. by apply MountNoDev.
Qed.

Lemma unmount_run name s r s' : unique s -> vfs_unmount name s = Ret (r, s') -> unique s' /\ unmounted (devs_of s) name r (devs_of s').
Proof using.
  intros Hu H. unfold vfs_unmount in H. destruct (find_mount_table name s Hu) as [(i & d & E & Hi & Ht & Hd)|[E Hd]]; rewrite (bind_step _ _ _ _ _ E) in H.
  - cbn [negb Z.eqb] in H. rewrite (bind_deref _ _ _ _ eq_refl) in H. unfold get_vdev in H. rewrite (bind_step _ _ s d s) in H by (rewrite bind_get, Hi; done).
    destruct (fs d) as [f|] eqn:Ef; [|injection H as <- <-; split; [done|by eapply UmountNone]].
    rewrite assert_true in H by done. unfold drop_fs in H. apply bind_Ret in H as (q & s1 & E1%below_devs & H).
    assert (Hu1 : unique s1) by (unfold unique; by rewrite E1). assert (Ed1 : devs_of s1 = devs_of s) by (unfold devs_of; by rewrite E1).
    destruct (Z.eqb_spec q 0) as [->|Hne]; cbn [negb] in H; [|injection H as <- <-; split; [done|]; rewrite Ed1; by eapply UmountFails].
    apply bind_Ret in H as (q & s2 & E2%below_devs & H). rewrite E1 in E2.
    assert (Hu2 : unique s2) by (unfold unique; by rewrite E2). assert (Ed2 : devs_of s2 = devs_of s) by (unfold devs_of; by rewrite E2).
    destruct (Z.eqb_spec q 0) as [->|Hne]; [|injection H as <- <-; split; [done|]; rewrite Ed2; by eapply UmountFails].
    destruct (put_vdev_run i None d s2 Hu2 ltac:(by rewrite E2)) as (s3 & E3 & Hu3 & Et & _). rewrite (bind_step _ _ _ _ _ E3) in H.
    injection H as <- <-. split; [done|]. rewrite Et, (table_name _ _ _ Ht), Ed2. by apply (UmountOk _ name d f).
  - cbn [negb] in H. injection H as <- <-. split; [done|]. by apply UmountNoDev.
Qed.

(** The root of a name, by the map. *)
Lemma get_root_table name s : vfs_get_root name s =
  match devs_of s !! name with
  | None => Ret ((- E_NO_DEV, None), s)
  | Some d =>
      (found <- match fs d with
                | Some f => below (fsop_get_root f)
                | None => if mountable d then ret None else n <- deref (devnode d) ;; _ <- below (vop_ref_inc n) ;; ret (Some n)
                end ;;
       match found with Some n => ret (0, Some n) | None => ret (- E_NA_DEV, None) end) s
  end.
Proof using.
  unfold vfs_get_root. rewrite bind_get, find_table. fold (devs_of s). destruct (devs_of s !! name) as [d|]; [|done].
  destruct (fs d); [done|]. by destruct (mountable d).
Qed.

End Table.
End VfsDev.

(** * The virtual file system: references through every operation

    What the operations below promise about reference counts ([InodeLaws]), and that the
    operations on paths then keep every count: what a path operation takes it gives back,
    whatever fails on the way, except the inode that [vfs_open] returns and the ones the
    current directory and the boot file system hold. *)

Import Vfs.

Module VfsRef.

(** ** What is promised below *)

Definition held {N} `{EqDecision N} (o : option N) (i : count * N) : Z :=
  match o with Some n => one (Refs, n) i | None => 0 end.
#[export] Hint Unfold held : moves.

(** A code, and an inode with a reference when it is 0. *)
Definition got {N} `{EqDecision N} (r : Z) (o : option N) (i : count * N) : Z := if r =? 0 then held o i else 0.
#[export] Hint Unfold got : moves.

Class InodeLaws (W N F : Type) `{EqDecision N} {ops : InodeOps W N F} {T : Tally W (count * N)} : Prop := {
  law_ref_inc n : moves (vop_ref_inc n) (fun _ => one (Refs, n));
  law_ref_dec n : moves (vop_ref_dec n) (fun _ i => - one (Refs, n) i);
  law_open_inc n : moves (vop_open_inc n) (fun _ => one (Opens, n));
  law_open_dec n : moves (vop_open_dec n) (fun _ i => - one (Opens, n) i);
  law_open n fl : quiet (vop_open n fl);
  law_truncate n len : quiet (vop_truncate n len);
  law_gettype n : quiet (vop_gettype n);
  law_lookup n p : moves (vop_lookup n p) (fun '(r, o) => got r o);
  law_lookup_parent n p : moves (vop_lookup_parent n p) (fun '(r, o, _) => got r o);
  law_create n name excl : moves (vop_create n name excl) (fun '(r, o) => got r o);
  law_unlink n name : quiet (vop_unlink n name);
  law_mkdir n name : quiet (vop_mkdir n name);
  law_rename n name n' name' : quiet (vop_rename n name n' name');
  law_link n name l : quiet (vop_link n name l);
  law_symlink n name path : quiet (vop_symlink n name path);
  law_readlink n resid : quiet (vop_readlink n resid);
  law_namefile n resid : quiet (vop_namefile n resid);
  law_get_root f : moves (fsop_get_root f) held;
  law_sync f : quiet (fsop_sync f);
  law_unmount f : quiet (fsop_unmount f);
  law_cleanup f : quiet (fsop_cleanup f)
}.

#[export] Hint Resolve law_ref_inc law_ref_dec law_open_inc law_open_dec law_lookup law_lookup_parent law_create law_get_root : moves.
#[export] Hint Resolve law_open law_truncate law_gettype law_unlink law_mkdir law_rename law_link law_symlink law_readlink
  law_namefile law_sync law_unmount law_cleanup : quiet.

Section Refs.
Context {W N F : Type} `{EqDecision N, EqDecision F} {ops : InodeOps W N F} {T : Tally W (count * N)} {L : InodeLaws W N F}.

(** The references that the state of this layer stands for. *)
Definition owned (s : vfs_t W N F) (i : count * N) : Z := held (pwd s) i + held (bootfs_node s) i.

(** The counts less those: what others hold. *)
#[export] Instance vfs_tally : Tally (vfs_t W N F) (count * N) := {
  tally s i := tally (world s) i - owned s i;
  sound s := sound (world s)
}.

Lemma moves_below {A} (m : M W A) d : moves m d -> moves (below m) d.
Proof.
  intros H s a s'. unfold below. destruct (m (world s)) as [[x w]| |] eqn:E; [|done|done]. intros [= <- <-].
  destruct (H _ _ _ E) as [H1 H2]. split; [exact H1|]. intros Hs i. cbn. unfold owned. cbn.
  rewrite <- !Z.add_opp_r, (H2 Hs i). replace (tally (world s) i + d x i + _) with (tally (world s) i + - (held (pwd s) i + held (bootfs_node s) i) + d x i) by lia. reflexivity.
Qed.

Lemma quiet_below {A} (m : M W A) : quiet m -> quiet (below m).
Proof. apply moves_below. Qed.

Lemma quiet_same s s' : world s' = world s -> pwd s' = pwd s -> bootfs_node s' = bootfs_node s -> moved s s' (fun _ : count * N => 0).
Proof.
  intros E1 E2 E3. split; cbn; rewrite E1; [done|]. intros _ i. unfold owned. rewrite E2, E3, Z.add_0_r. reflexivity.
Qed.

Lemma quiet_modify_devs f : quiet (I := count * N) (modify (fun s : vfs_t W N F => put_devs (f s) s)).
Proof. intros s a s' [= <- <-]. by apply quiet_same. Qed.

Lemma quiet_vfs_kmalloc : quiet (I := count * N) (Vfs.kmalloc (W := W) (F := F)).
Proof. intros s a s'. unfold kmalloc. rewrite bind_get. destruct (vmem s); intros [= <- <-]; by apply quiet_same. Qed.

Lemma quiet_node_fs n : quiet (node_fs (ops := ops) n).
Proof. quiet_in node_fs. Qed.
End Refs.

#[export] Hint Resolve quiet_below quiet_modify_devs quiet_vfs_kmalloc quiet_node_fs : quiet.
#[export] Hint Resolve moves_below : moves.

Section Calls.
Context {W N F : Type} `{EqDecision N, EqDecision F} {ops : InodeOps W N F} {T : Tally W (count * N)} {L : InodeLaws W N F}.
Abbreviation still_ m := (quiet (I := count * N) (S := vfs_t W N F) m).

(** ** Devices *)

Lemma quiet_vfs_devlist_init : still_ vfs_devlist_init.
Proof using. exact (quiet_modify_devs (fun _ => [])). Qed.

Lemma quiet_cleanup_devs l : still_ (cleanup_devs l).
Proof using L. induction l as [|d l IH]; cbn [cleanup_devs]; quiet. Qed.

Lemma quiet_sync_devs l : still_ (sync_devs l).
Proof using L. induction l as [|d l IH]; cbn [sync_devs]; quiet. Qed.

Lemma quiet_vfs_sync : still_ vfs_sync.
Proof using L. pose proof quiet_sync_devs. quiet_in vfs_sync. Qed.

Lemma quiet_vfs_cleanup : still_ vfs_cleanup.
Proof using L. pose proof quiet_cleanup_devs. quiet_in vfs_cleanup. Qed.

Lemma quiet_vfs_get_devname f : still_ (vfs_get_devname f).
Proof using. quiet_in vfs_get_devname. Qed.

Lemma quiet_vfs_do_add name node f m : still_ (vfs_do_add name node f m).
Proof using. unfold vfs_do_add, check_devname_conflict. quiet. Qed.

Lemma quiet_find_mount name : still_ (find_mount name).
Proof using. quiet_in find_mount. Qed.

Lemma quiet_get_vdev i : still_ (get_vdev i).
Proof using. quiet_in get_vdev. Qed.

Lemma quiet_put_vdev_fs i f : still_ (put_vdev_fs i f).
Proof using. exact (quiet_modify_devs (fun s => alter (set_fs f) i (vdev_list s))). Qed.
#[local] Hint Resolve quiet_find_mount quiet_get_vdev quiet_put_vdev_fs quiet_vfs_get_devname : quiet.

Lemma quiet_vfs_mount name mountfunc : (forall n, quiet (mountfunc n)) -> still_ (vfs_mount name mountfunc).
Proof using. intros Hm. quiet_in vfs_mount. Qed.

Lemma quiet_drop_fs i f : still_ (drop_fs i f).
Proof using L. quiet_in drop_fs. Qed.
#[local] Hint Resolve quiet_drop_fs : quiet.

Lemma quiet_vfs_unmount name : still_ (vfs_unmount name).
Proof using L. quiet_in vfs_unmount. Qed.

Lemma quiet_unmount_devs l : forall i, still_ (unmount_devs i l).
Proof using L. induction l as [|d l IH]; intros i; cbn [unmount_devs]; quiet. Qed.

Lemma quiet_vfs_unmount_all : still_ vfs_unmount_all.
Proof using L. pose proof quiet_unmount_devs. quiet_in vfs_unmount_all. Qed.

(** ** Starting points of paths *)

Lemma moves_vfs_get_root name : moves (S := vfs_t W N F) (vfs_get_root name) (fun '(r, o) => got r o).
Proof using L.
  unfold vfs_get_root. apply moves_quiet_bind; [quiet|intros s]. destruct (find_dev _ _) as [d|]; [|crun].
  apply (moves_bind _ _ (fun o => held o)).
  - destruct (fs d); [crun|]. destruct (negb _); crun.
  - intros [n|]; crun.
Qed.

Lemma moves_vfs_get_curdir : moves (S := vfs_t W N F) vfs_get_curdir (fun '(r, o) => got r o).
Proof using L. unfold vfs_get_curdir. apply moves_quiet_bind; [quiet|intros s]. crun. Qed.

Lemma moves_vfs_get_bootfs : moves (S := vfs_t W N F) vfs_get_bootfs (fun '(r, o) => got r o).
Proof using L. unfold vfs_get_bootfs. apply moves_quiet_bind; [quiet|intros s]. crun. Qed.
#[local] Hint Resolve moves_vfs_get_root moves_vfs_get_curdir moves_vfs_get_bootfs : moves.

Lemma moves_get_device path : moves (S := vfs_t W N F) (get_device path) (fun '(r, o, _) => got r o).
Proof using L. moves_in get_device. Qed.
#[local] Hint Resolve moves_get_device : moves.

Lemma moves_vfs_lookup path : moves (S := vfs_t W N F) (vfs_lookup path) (fun '(r, o) => got r o).
Proof using L. moves_in vfs_lookup. Qed.

Lemma moves_vfs_lookup_parent path : moves (S := vfs_t W N F) (vfs_lookup_parent path) (fun '(r, o, _) => got r o).
Proof using L.
  unfold vfs_lookup_parent. eapply moves_bind; [apply moves_get_device|intros [[r n] p]]. destruct (negb _) eqn:E; [crun|].
  apply moves_deref_bind. intros m ->. eapply (moves_bind _ _ (fun '(r, o, _) => got r o)); [destruct p; crun|].
  intros [[r' o] q]. crun.
Qed.
#[local] Hint Resolve moves_vfs_lookup moves_vfs_lookup_parent : moves.

(** ** The current directory and the boot file system *)

Lemma moved_put_pwd (s : vfs_t W N F) x : moved s (put_pwd x s) (fun i : count * N => held (pwd s) i - held x i).
Proof using.
  split; [done|]. intros _ i. cbn. unfold owned. cbn.
  replace (tally (world s) i - (held (pwd s) i + held (bootfs_node s) i) + (held (pwd s) i - held x i))
    with (tally (world s) i - (held x i + held (bootfs_node s) i)) by lia. reflexivity.
Qed.

Lemma moved_put_bootfs (s : vfs_t W N F) x : moved s (put_bootfs x s) (fun i : count * N => held (bootfs_node s) i - held x i).
Proof using.
  split; [done|]. intros _ i. cbn. unfold owned. cbn.
  replace (tally (world s) i - (held (pwd s) i + held (bootfs_node s) i) + (held (bootfs_node s) i - held x i))
    with (tally (world s) i - (held (pwd s) i + held x i)) by lia. reflexivity.
Qed.

Lemma below_pwd {A} (m : M W A) (s : vfs_t W N F) a s' : below m s = Ret (a, s') -> pwd s' = pwd s.
Proof using. unfold below. destruct (m (world s)) as [[x w]| |]; [|done|done]. by intros [= _ <-]. Qed.

(** The new directory is checked and gets its reference before anything changes. *)
Lemma curdir_checked (dir : option N) (s : vfs_t W N F) r s' :
  match dir with
  | None => ret 0
  | Some n =>
      '(r, type) <- below (vop_gettype n) ;;
      if negb (r =? 0) then ret r else if negb (S_ISDIR type) then ret (- E_NOTDIR) else _ <- below (vop_ref_inc n) ;; ret 0
  end s = Ret (r, s') -> pwd s' = pwd s /\ moved s s' (fun i => got r dir i).
Proof using L.
  intros H. split.
  - destruct dir as [n|]; [|by injection H as _ <-]. apply bind_Ret in H as ([r1 t] & s1 & H1%below_pwd & H).
    destruct (negb (r1 =? 0)); [by injection H as _ <-|]. destruct (negb (S_ISDIR t)); [by injection H as _ <-|].
    apply bind_Ret in H as (c & s2 & H2%below_pwd & [= _ <-]). congruence.
  - revert r s' H. revert s. lazymatch goal with |- forall s r s', ?m s = _ -> _ => change (moves m (fun r i => got r dir i)) end.
    destruct dir as [n|]; crun.
Qed.

Lemma quiet_vfs_set_curdir dir : still_ (vfs_set_curdir dir).
Proof using L.
  intros s r s'' H. unfold vfs_set_curdir in H. rewrite bind_get in H. case_bool_decide; [injection H as <- <-; by apply moved_refl|].
  apply bind_Ret in H as (r1 & s1 & [Hp M1]%curdir_checked & H). eapply moved_trans; [exact M1|].
  destruct (Z.eqb_spec r1 0) as [->|Hr]; cbn [negb] in H.
  - rewrite bind_modify in H. eapply moved_trans; [apply moved_put_pwd|]. rewrite Hp. destruct (pwd s) as [old|].
    + apply bind_Ret in H as (c & s2 & H2 & [= <- <-]). eapply moved_ext; [|exact (moves_below _ _ (law_ref_dec old) _ _ _ H2)].
      intros i. settle.
    + injection H as <- <-. apply moved_refl. intros i. settle.
  - injection H as <- <-. apply moved_refl. intros i. settle.
Qed.

(** The reference of the new inode becomes the boot file system's. *)
Lemma moves_change_bootfs n : moves (S := vfs_t W N F) (change_bootfs n) (fun _ i => - held n i).
Proof using L.
  intros s u s'' H. unfold change_bootfs in H. rewrite bind_get, bind_modify in H. eapply moved_trans; [apply moved_put_bootfs|].
  destruct (bootfs_node s) as [old|].
  - apply bind_Ret in H as (c & s2 & H2 & [= <- <-]). eapply moved_ext; [|exact (moves_below _ _ (law_ref_dec old) _ _ _ H2)]. intros i. settle.
  - injection H as <- <-. apply moved_refl. intros i. settle.
Qed.
#[local] Hint Resolve quiet_vfs_set_curdir : quiet.
#[local] Hint Resolve moves_change_bootfs : moves.

Lemma quiet_vfs_chdir path : still_ (vfs_chdir path).
Proof using L. moves_in vfs_chdir. Qed.
#[local] Hint Resolve quiet_vfs_chdir : quiet.

Lemma quiet_vfs_getcwd resid : still_ (vfs_getcwd resid).
Proof using L. moves_in vfs_getcwd. Qed.

Lemma quiet_vfs_set_bootfs fsname : still_ (vfs_set_bootfs fsname).
Proof using L. moves_in vfs_set_bootfs. Qed.

(** ** Operations on paths *)

(** The inode opened has one reference and one opening more. *)
Definition opened (o : option N) (i : count * N) : Z :=
  match o with Some n => one (Refs, n) i + one (Opens, n) i | None => 0 end.
#[local] Hint Unfold opened : moves.

Lemma moves_open_node path open_flags : moves (S := vfs_t W N F)
  (if flag open_flags O_CREAT then
     '(r, dir, name) <- vfs_lookup_parent path ;;
     if negb (r =? 0) then ret (r, None)
     else
       dir <- deref dir ;;
       x <- below (vop_create dir name (flag open_flags O_EXCL)) ;;
       _ <- below (vop_ref_dec dir) ;;
       ret x
   else vfs_lookup path) (fun '(r, o) => got r o).
Proof using L. crun. Qed.

Lemma moves_vfs_open path open_flags : moves (S := vfs_t W N F) (vfs_open path open_flags) (fun x => opened (snd x)).
Proof using L.
  unfold vfs_open. cbv zeta. destruct (negb _); [crun|]. destruct (_ && _); [crun|].
  eapply moves_bind; [apply moves_open_node|intros [r o]]. crun.
Qed.

Lemma moves_vfs_close n : moves (S := vfs_t W N F) (vfs_close n) (fun _ i => - opened (Some n) i).
Proof using L. moves_in vfs_close. Qed.

Lemma quiet_in_parent path op : (forall d name, still_ (op d name)) -> still_ (in_parent path op).
Proof using L. intros Ho. moves_in in_parent. Qed.

Lemma quiet_other_fs a b : still_ (other_fs a b).
Proof using. quiet_in other_fs. Qed.
#[local] Hint Resolve quiet_other_fs : quiet.

Lemma quiet_vfs_unlink path : still_ (vfs_unlink path).
Proof using L. apply quiet_in_parent. intros d name. quiet. Qed.

Lemma quiet_vfs_mkdir path : still_ (vfs_mkdir path).
Proof using L. apply quiet_in_parent. intros d name. quiet. Qed.

Lemma quiet_vfs_symlink old new : still_ (vfs_symlink old new).
Proof using L. apply quiet_in_parent. intros d name. quiet. Qed.

Lemma quiet_vfs_rename old new : still_ (vfs_rename old new).
Proof using L. moves_in vfs_rename. Qed.

Lemma quiet_vfs_link old new : still_ (vfs_link old new).
Proof using L. moves_in vfs_link. Qed.

Lemma quiet_vfs_readlink path resid : still_ (vfs_readlink path resid).
Proof using L. moves_in vfs_readlink. Qed.

End Calls.

End VfsRef.
