(* ===== verification/VfsKern.v ===== *)
(** * The file systems and devices of the kernel behind the virtual file system

    The inodes of the kernel are those of devices, of the pipe file system and of the
    simple file system mounted on the disk; the operation of an inode is that of its table
    ([dev_node_ops], [pipe_root_ops], [pipe_node_ops], [sfs_node_dirops],
    [sfs_node_fileops]) after the checks of [inode_check].  The instance [kern_ops] of
    [InodeOps] puts the components together, and [kern_laws] discharges what the virtual
    file system relies on. *)

From S2P Require Import Prelude Sched Pipe SfsDisk Sfs SfsDir Vfs Inode SfsRef PipeFs Devs VfsRef.
Open Scope Z_scope.

Module VfsKern.

(** A [struct inode *] and a [struct fs *]. *)
Inductive knode := NDev (d : Z) | NPipe (p : PipeFs.pnode) | NSfs (a : Z).
Inductive kfs := FPipe | FSfs.

#[export] Existing Instance PipeFs.pnode_eq_dec.

#[export] Instance knode_eq_dec : EqDecision knode.
Proof. solve_decision. Defined.
#[export] Instance kfs_eq_dec : EqDecision kfs.
Proof. solve_decision. Defined.

Record kworld := mk_world { w_devs : Devs.devs; w_pipe : PipeFs.pipe_fs; w_sfs : SfsDisk.sfs_fs }.

Definition put_devs x w := mk_world x (w_pipe w) (w_sfs w).
Definition put_pipe x w := mk_world (w_devs w) x (w_sfs w).
Definition put_sfs x w := mk_world (w_devs w) (w_pipe w) x.

(** A routine of one of them. *)
Definition lens {S A} (g : kworld -> S) (p : S -> kworld -> kworld) (m : M S A) : M kworld A := fun w =>
  match m (g w) with Ret (a, x) => Ret (a, p x w) | Panic => Panic | OutOfFuel => OutOfFuel end.
Definition on_devs {A} : M Devs.devs A -> M kworld A := lens w_devs put_devs.
Definition on_pipe {A} : M PipeFs.pipe_fs A -> M kworld A := lens w_pipe put_pipe.
Definition on_sfs {A} : M SfsDisk.sfs_fs A -> M kworld A := lens w_sfs put_sfs.

(** The scheduling class of the kernel. *)
Abbreviation sc := Sched.MLFQ_sched_class.

(** ** The tables of operations *)

Definition kin_fs (n : knode) (w : kworld) : option kfs :=
  match n with NDev _ => None | NPipe _ => Some FPipe | NSfs _ => Some FSfs end.

Definition kcheck_device (n : knode) (w : kworld) : bool := match n with NDev _ => true | _ => false end.

Definition kcheck (n : knode) : M kworld unit :=
  match n with
  | NDev d => on_devs (Inode.inode_check Devs.dcounts d)
  | NPipe p => on_pipe (Inode.inode_check PipeFs.pcounts p)
  | NSfs a => on_sfs (SfsDir.inode_check a)
  end.

(** The operations of a directory of the simple file system, or those of a file. *)
Definition sfs_table {A} (a : Z) (dir file : M SfsDisk.sfs_fs A) : M kworld A :=
  on_sfs (x <- Sfs.get_node a ;; if SfsDisk.type (SfsDisk.din x) =? SfsDisk.SFS_TYPE_DIR then dir else file).

(** An entry of each of the five tables. *)
Definition table {A} (n : knode) (dev : Z -> M Devs.devs A) (proot : M PipeFs.pipe_fs A) (pin : Z -> M PipeFs.pipe_fs A)
  (dir file : Z -> M SfsDisk.sfs_fs A) : M kworld A :=
  kcheck n ;;
  match n with
  | NDev d => on_devs (dev d)
  | NPipe PipeFs.Root => on_pipe proot
  | NPipe (PipeFs.Pin a) => on_pipe (pin a)
  | NSfs a => sfs_table a (dir a) (file a)
  end.

(** Null entries that return a code only, or one beside what the caller reads. *)
Definition inval {S} : M S Z := Inode.null_vop_inval.
Definition notdir {S} : M S Z := Inode.null_vop_notdir.
Definition isdir {S} : M S Z := Inode.null_vop_isdir.
Definition unimp {S} : M S Z := Inode.null_vop_unimp.
Definition pass {S} : M S Z := Inode.null_vop_pass.
Definition no_node {S A} (m : M S Z) : M S (Z * option A) := r <- m ;; ret (r, None).
Definition no_parent {S A} (m : M S Z) : M S (Z * option A * list Z) := r <- m ;; ret (r, None, []).
Definition no_bytes {S} (m : M S Z) : M S (Z * list Z * Z) := r <- m ;; ret (r, [], 0).
Definition no_value {S} (m : M S Z) : M S (Z * Z) := r <- m ;; ret (r, 0).

(** The inode that a routine of a file system stores. *)
Definition sfs_node (x : Z * Z) : Z * option knode := (fst x, if fst x =? 0 then Some (NSfs (snd x)) else None).
Definition with_node {S A B} (f : A -> B) (m : M S A) : M S B := x <- m ;; ret (f x).

Definition kref_inc (n : knode) : M kworld Z :=
  match n with NDev d => on_devs (Devs.ref_inc d) | NPipe p => on_pipe (PipeFs.ref_inc p) | NSfs a => on_sfs (SfsDir.vop_ref_inc a) end.
Definition kref_dec (n : knode) : M kworld Z :=
  match n with NDev d => on_devs (Devs.ref_dec d) | NPipe p => on_pipe (PipeFs.ref_dec p) | NSfs a => on_sfs (SfsDir.vop_ref_dec a) end.
Definition kopen_inc (n : knode) : M kworld Z :=
  match n with NDev d => on_devs (Devs.open_inc d) | NPipe p => on_pipe (PipeFs.open_inc p) | NSfs a => on_sfs (SfsDir.vop_open_inc a) end.
Definition kopen_dec (n : knode) : M kworld Z :=
  match n with NDev d => on_devs (Devs.open_dec d) | NPipe p => on_pipe (PipeFs.open_dec sc p) | NSfs a => on_sfs (SfsDir.vop_open_dec a) end.

Definition kopen (n : knode) (fl : Z) : M kworld Z :=
  table n (fun d => Devs.dev_open d fl) inval (fun a => PipeFs.pipe_inode_open a fl)
    (fun _ => ret (SfsDir.sfs_opendir fl)) (fun _ => ret (SfsDir.sfs_openfile fl)).

Definition ktruncate (n : knode) (len : Z) : M kworld Z :=
  table n (fun _ => inval) inval (fun _ => inval) (fun _ => isdir) (fun a => SfsDir.sfs_truncfile a len).

Definition kgettype (n : knode) : M kworld (Z * Z) :=
  table n Devs.dev_gettype (no_value inval) PipeFs.pipe_inode_gettype SfsDir.sfs_gettype SfsDir.sfs_gettype.

Definition klookup (n : knode) (path : list Z) : M kworld (Z * option knode) :=
  table n (fun d => with_node (fun '(r, o) => (r, NDev <$> o)) (Devs.dev_lookup d path))
    (with_node (fun '(r, o) => (r, (fun a => NPipe (PipeFs.Pin a)) <$> o)) (PipeFs.pipe_root_lookup path))
    (fun _ => no_node notdir) (fun a => with_node sfs_node (SfsDir.sfs_lookup a path)) (fun _ => no_node notdir).

Definition klookup_parent (n : knode) (path : list Z) : M kworld (Z * option knode * list Z) :=
  table n (fun _ => no_parent notdir)
    (with_node (fun '(r, o, p) => (r, NPipe <$> o, p)) (PipeFs.pipe_root_lookup_parent path))
    (fun _ => no_parent notdir)
    (fun a => with_node (fun '(r, b, p) => (sfs_node (r, b), p)) (SfsDir.sfs_lookup_parent a path)) (fun _ => no_parent notdir).

Definition kcreate (n : knode) (name : list Z) (excl : bool) : M kworld (Z * option knode) :=
  table n (fun _ => no_node notdir)
    (with_node (fun '(r, o) => (r, (fun a => NPipe (PipeFs.Pin a)) <$> o)) (PipeFs.pipe_root_create name excl))
    (fun _ => no_node notdir) (fun a => with_node sfs_node (SfsDir.sfs_create a name excl)) (fun _ => no_node notdir).

Definition kunlink (n : knode) (name : list Z) : M kworld Z :=
  table n (fun _ => notdir) inval (fun _ => notdir) (fun a => SfsDir.sfs_unlink a name) (fun _ => notdir).

Definition kmkdir (n : knode) (name : list Z) : M kworld Z :=
  table n (fun _ => notdir) inval (fun _ => notdir) (fun a => SfsDir.sfs_mkdir a name) (fun _ => notdir).

(** The second inode must be of the simple file system too: [vop_info] checks its type. *)
Definition krename (n : knode) (name : list Z) (n' : knode) (name' : list Z) : M kworld Z :=
  table n (fun _ => notdir) inval (fun _ => notdir)
    (fun a => match n' with NSfs a' => SfsDir.sfs_rename a name a' name' | _ => panic end) (fun _ => notdir).

Definition klink (n : knode) (name : list Z) (l : knode) : M kworld Z :=
  table n (fun _ => notdir) inval (fun _ => notdir)
    (fun a => match l with NSfs b => SfsDir.sfs_link a name b | _ => panic end) (fun _ => notdir).

Definition ksymlink (n : knode) (name path : list Z) : M kworld Z :=
  table n (fun _ => notdir) inval (fun _ => notdir) (fun _ => unimp) (fun _ => notdir).

Definition kreadlink (n : knode) (resid : Z) : M kworld (Z * list Z * Z) :=
  table n (fun _ => no_bytes inval) (no_bytes inval) (fun _ => no_bytes inval) (fun _ => no_bytes isdir) (fun _ => no_bytes notdir).

(** A path to the root visits each directory once, unless directories form a circle: as
    many rounds as the disk has blocks are enough. *)
Definition knamefile (n : knode) (resid : Z) : M kworld (Z * list Z * Z) :=
  table n (fun _ => no_bytes pass) (no_bytes inval) (fun a => PipeFs.pipe_inode_namefile a resid)
    (fun a => s <- get ;; SfsDir.sfs_namefile (S (Z.to_nat (SfsDisk.super_blocks s))) a resid) (fun _ => no_bytes notdir).

Definition kget_root (f : kfs) : M kworld (option knode) :=
  match f with
  | FPipe => on_pipe (with_node (fun p => Some (NPipe p)) PipeFs.pipe_get_root)
  | FSfs => on_sfs (with_node (fun a => Some (NSfs a)) SfsDir.sfs_get_root)
  end.

Definition ksync (f : kfs) : M kworld Z :=
  match f with FPipe => on_pipe PipeFs.pipe_sync | FSfs => on_sfs SfsDir.sfs_sync end.
Definition kunmount (f : kfs) : M kworld Z :=
  match f with FPipe => on_pipe PipeFs.pipe_unmount | FSfs => on_sfs SfsDir.sfs_unmount end.
Definition kcleanup (f : kfs) : M kworld unit :=
  match f with FPipe => on_pipe PipeFs.pipe_cleanup | FSfs => on_sfs (_ <- SfsDir.sfs_cleanup ;; ret tt) end.

#[export] Instance kern_ops : Vfs.InodeOps kworld knode kfs := {
  Vfs.in_fs := kin_fs; Vfs.check_device := kcheck_device;
  Vfs.vop_ref_inc := kref_inc; Vfs.vop_ref_dec := kref_dec; Vfs.vop_open_inc := kopen_inc; Vfs.vop_open_dec := kopen_dec;
  Vfs.vop_open := kopen; Vfs.vop_truncate := ktruncate; Vfs.vop_gettype := kgettype;
  Vfs.vop_lookup := klookup; Vfs.vop_lookup_parent := klookup_parent; Vfs.vop_create := kcreate;
  Vfs.vop_unlink := kunlink; Vfs.vop_mkdir := kmkdir; Vfs.vop_rename := krename; Vfs.vop_link := klink;
  Vfs.vop_symlink := ksymlink; Vfs.vop_readlink := kreadlink; Vfs.vop_namefile := knamefile;
  Vfs.fsop_get_root := kget_root; Vfs.fsop_sync := ksync; Vfs.fsop_unmount := kunmount; Vfs.fsop_cleanup := kcleanup
}.

Abbreviation kvfs := (Vfs.vfs_t kworld knode kfs).

(** ** Mounting, start-up, and pipes without names *)

(** ["null"], ["stdin"], ["stdout"], ["disk0"] and ["pipe"]. *)
Definition dev_name (k : Devs.dev_kind) : list Z :=
  match k with
  | Devs.Null => [110; 117; 108; 108]
  | Devs.Stdin => [115; 116; 100; 105; 110]
  | Devs.Stdout => [115; 116; 100; 111; 117; 116]
  | Devs.Disk0 => [100; 105; 115; 107; 48]
  end.
Definition pipe_name : list Z := [112; 105; 112; 101].

(** [sfs_do_mount] on the device of an inode. *)
Definition kdo_mount (n : knode) : M kworld (Z * option kfs) :=
  match n with
  | NDev d =>
      x <- on_devs (Devs.get_dev d) ;;
      r <- on_sfs (SfsDir.sfs_do_mount (Devs.d_blocksize x) (Devs.d_blocks x)) ;;
      ret (r, if r =? 0 then Some FSfs else None)
  | _ => panic
  end.

Definition sfs_mount (name : list Z) : M kvfs Z := Vfs.vfs_mount name kdo_mount.
Definition sfs_init : M kvfs unit := r <- sfs_mount (dev_name Devs.Disk0) ;; if negb (r =? 0) then panic else ret tt.

(** [dev_init_x] for the device [k]; only the disk can be mounted on. *)
Definition dev_init_one (size : Z) (k : Devs.dev_kind) : M kvfs unit :=
  n <- Vfs.below (on_devs (Devs.dev_create_inode k size)) ;;
  n <- deref n ;;
  r <- Vfs.vfs_add_dev (dev_name k) (NDev n) (match k with Devs.Disk0 => true | _ => false end) ;;
  if negb (r =? 0) then panic else ret tt.

Definition dev_init (size : Z) : M kvfs unit :=
  dev_init_one size Devs.Null ;; dev_init_one size Devs.Stdin ;;
  dev_init_one size Devs.Stdout ;; dev_init_one size Devs.Disk0.

(** [pipe_fs_init] makes the root; [vfs_add_fs] names the file system. *)
Definition pipe_init : M kvfs unit :=
  Vfs.below (on_pipe (modify (fun s => PipeFs.upd_list (fun _ => []) (PipeFs.put_root Inode.inode_init s)))) ;;
  r <- Vfs.vfs_add_fs pipe_name FPipe ;;
  if negb (r =? 0) then panic else ret tt.

Definition fs_init (size : Z) : M kvfs unit :=
  Vfs.vfs_devlist_init ;; dev_init size ;; pipe_init ;; sfs_init.

Definition pipe_open : M kvfs (Z * option (knode * knode)) :=
  '(r, root) <- Vfs.vfs_get_root pipe_name ;;
  if negb (r =? 0) then ret (r, None)
  else
    root <- deref root ;;
    '(r, x) <- Vfs.below (on_pipe PipeFs.open_ends) ;;
    _ <- Vfs.below (kref_dec root) ;;
    ret (r, (fun '(a, b) => (NPipe (PipeFs.Pin a), NPipe (PipeFs.Pin b))) <$> x).

(** ** What the tables promise *)

#[local] Existing Instances Devs.dev_tally PipeFsInv.pipe_tally SfsRef.sfs_tally.
Import VfsRef.

Definition world_tally (w : kworld) (i : count * knode) : Z :=
  match snd i with
  | NDev d => tally (w_devs w) (fst i, d)
  | NPipe p => tally (w_pipe w) (fst i, p)
  | NSfs a => tally (w_sfs w) (fst i, a)
  end.

#[export] Instance kern_tally : Tally kworld (count * knode) := {
  tally := world_tally;
  sound w := sound (w_devs w) /\ sound (w_pipe w) /\ sound (w_sfs w)
}.

(** The counts of one kind of inode among all. *)
Definition dev_part (d : count * Z -> Z) (i : count * knode) : Z := match snd i with NDev n => d (fst i, n) | _ => 0 end.
Definition pipe_part (d : count * PipeFs.pnode -> Z) (i : count * knode) : Z := match snd i with NPipe n => d (fst i, n) | _ => 0 end.
Definition sfs_part (d : count * Z -> Z) (i : count * knode) : Z := match snd i with NSfs n => d (fst i, n) | _ => 0 end.

Lemma moves_on_devs {A} (m : M Devs.devs A) d : moves m d -> moves (on_devs m) (fun a => dev_part (d a)).
Proof.
  intros H w a w'. unfold on_devs, lens. destruct (m (w_devs w)) as [[x t]| |] eqn:E; [|done|done]. intros [= <- <-].
  destruct (H _ _ _ E) as [H1 H2]. split; [intros (S1 & S2 & S3); split; [by apply H1|done]|].
  intros (S1 & _ & _) [k [n|n|n]]; cbn; [exact (H2 S1 (k, n))|by rewrite Z.add_0_r|by rewrite Z.add_0_r].
Qed.

Lemma moves_on_pipe {A} (m : M PipeFs.pipe_fs A) d : moves m d -> moves (on_pipe m) (fun a => pipe_part (d a)).
Proof.
  intros H w a w'. unfold on_pipe, lens. destruct (m (w_pipe w)) as [[x t]| |] eqn:E; [|done|done]. intros [= <- <-].
  destruct (H _ _ _ E) as [H1 H2]. split; [intros (S1 & S2 & S3); split_and!; [done|by apply H1|done]|].
  intros (_ & S2 & _) [k [n|n|n]]; cbn; [by rewrite Z.add_0_r|exact (H2 S2 (k, n))|by rewrite Z.add_0_r].
Qed.

Lemma moves_on_sfs {A} (m : M SfsDisk.sfs_fs A) d : moves m d -> moves (on_sfs m) (fun a => sfs_part (d a)).
Proof.
  intros H w a w'. unfold on_sfs, lens. destruct (m (w_sfs w)) as [[x t]| |] eqn:E; [|done|done]. intros [= <- <-].
  destruct (H _ _ _ E) as [H1 H2]. split; [intros (S1 & S2 & S3); split_and!; [done|done|by apply H1]|].
  intros (_ & _ & S3) [k [n|n|n]]; cbn; [by rewrite Z.add_0_r|by rewrite Z.add_0_r|exact (H2 S3 (k, n))].
Qed.

Lemma quiet_on_devs {A} (m : M Devs.devs A) : quiet (I := count * Z) m -> quiet (on_devs m).
Proof. intros H. eapply moves_ext; [exact (moves_on_devs _ _ H)|]. by intros a [k []]. Qed.
Lemma quiet_on_pipe {A} (m : M PipeFs.pipe_fs A) : quiet (I := count * PipeFs.pnode) m -> quiet (on_pipe m).
Proof. intros H. eapply moves_ext; [exact (moves_on_pipe _ _ H)|]. by intros a [k []]. Qed.
Lemma quiet_on_sfs {A} (m : M SfsDisk.sfs_fs A) : quiet (I := count * Z) m -> quiet (on_sfs m).
Proof. intros H. eapply moves_ext; [exact (moves_on_sfs _ _ H)|]. by intros a [k []]. Qed.

Lemma one_part (k : count) (n : knode) i :
  one (k, n) i = match n with NDev d => dev_part (one (k, d)) i | NPipe p => pipe_part (one (k, p)) i | NSfs a => sfs_part (one (k, a)) i end.
Proof.
  destruct i as [k' n']. unfold one, dev_part, pipe_part, sfs_part. destruct n, n'; cbn; repeat case_bool_decide; (reflexivity || congruence).
Qed.

Lemma quiet_kcheck n : quiet (kcheck n).
Proof.
  destruct n; cbn [kcheck]; [apply quiet_on_devs|apply quiet_on_pipe|apply quiet_on_sfs]; [apply Inode.quiet_check..|apply SfsRef.quiet_inode_check].
Qed.

Lemma moves_sfs_table {A} a (dir file : M SfsDisk.sfs_fs A) (e : A -> count * knode -> Z) :
  moves (on_sfs dir) e -> moves (on_sfs file) e -> moves (sfs_table a dir file) e.
Proof.
  intros H1 H2 w b w' H. unfold sfs_table, on_sfs, lens, bind, Sfs.get_node in H. cbn in H.
  destruct (SfsDisk.nodes (w_sfs w) !! a) as [x|]; [|done]. cbn in H. destruct (_ =? _); [exact (H1 w b w' H)|exact (H2 w b w' H)].
Qed.

Lemma moves_table {A} n (dev : Z -> M Devs.devs A) proot pin dir file (e : A -> count * knode -> Z) :
  (forall d, n = NDev d -> moves (on_devs (dev d)) e) ->
  (n = NPipe PipeFs.Root -> moves (on_pipe proot) e) ->
  (forall a, n = NPipe (PipeFs.Pin a) -> moves (on_pipe (pin a)) e) ->
  (forall a, n = NSfs a -> moves (on_sfs (dir a)) e) ->
  (forall a, n = NSfs a -> moves (on_sfs (file a)) e) ->
  moves (table n dev proot pin dir file) e.
Proof.
  intros H1 H2 H3 H4 H5. unfold table. apply moves_quiet_bind; [apply quiet_kcheck|intros _]. destruct n as [d|[|a]|a]; [by apply H1|by apply H2|by apply H3|].
  apply moves_sfs_table; [by apply H4|by apply H5].
Qed.

Lemma quiet_table {A} n (dev : Z -> M Devs.devs A) proot pin dir file :
  (forall d, quiet (I := count * Z) (dev d)) -> quiet (I := count * PipeFs.pnode) proot -> (forall a, quiet (I := count * PipeFs.pnode) (pin a)) ->
  (forall a, quiet (I := count * Z) (dir a)) -> (forall a, quiet (I := count * Z) (file a)) ->
  quiet (table n dev proot pin dir file).
Proof. intros H1 H2 H3 H4 H5. apply moves_table; [intros d _; apply quiet_on_devs, H1|intros _; apply quiet_on_pipe, H2|intros a _; apply quiet_on_pipe, H3|intros a _; apply quiet_on_sfs, H4|intros a _; apply quiet_on_sfs, H5]. Qed.

(** A null entry. *)
Lemma quiet_null {S I} {T : Tally S I} : quiet (S := S) inval /\ quiet (S := S) notdir /\ quiet (S := S) isdir /\ quiet (S := S) unimp /\ quiet (S := S) pass.
Proof. split_and!; by apply moves_ret. Qed.

Lemma on_devs_with {A B} (f : A -> B) (m : M Devs.devs A) d (e : B -> count * knode -> Z) :
  moves m d -> (forall a i, dev_part (d a) i = e (f a) i) -> moves (on_devs (with_node f m)) e.
Proof.
  intros Hm He w b w' H. unfold on_devs, lens, with_node, bind in H. destruct (m (w_devs w)) as [[a t]| |] eqn:E; [|done|done]. injection H as <- <-.
  eapply moved_ext; [apply He|]. apply (moves_on_devs m d Hm w a). unfold on_devs, lens. by rewrite E.
Qed.

Lemma on_pipe_with {A B} (f : A -> B) (m : M PipeFs.pipe_fs A) d (e : B -> count * knode -> Z) :
  moves m d -> (forall a i, pipe_part (d a) i = e (f a) i) -> moves (on_pipe (with_node f m)) e.
Proof.
  intros Hm He w b w' H. unfold on_pipe, lens, with_node, bind in H. destruct (m (w_pipe w)) as [[a t]| |] eqn:E; [|done|done]. injection H as <- <-.
  eapply moved_ext; [apply He|]. apply (moves_on_pipe m d Hm w a). unfold on_pipe, lens. by rewrite E.
Qed.

Lemma on_sfs_with {A B} (f : A -> B) (m : M SfsDisk.sfs_fs A) d (e : B -> count * knode -> Z) :
  moves m d -> (forall a i, sfs_part (d a) i = e (f a) i) -> moves (on_sfs (with_node f m)) e.
Proof.
  intros Hm He w b w' H. unfold on_sfs, lens, with_node, bind in H. destruct (m (w_sfs w)) as [[a t]| |] eqn:E; [|done|done]. injection H as <- <-.
  eapply moved_ext; [apply He|]. apply (moves_on_sfs m d Hm w a). unfold on_sfs, lens. by rewrite E.
Qed.

(** The inode of a lookup among all inodes. *)
Definition sfs_got (x : Z * Z) (i : count * Z) : Z := SfsRef.got (fst x) (snd x) i.

Lemma got_sfs x i : VfsRef.got (fst (sfs_node x)) (snd (sfs_node x)) i = sfs_part (sfs_got x) i.
Proof.
  unfold VfsRef.got, sfs_node, sfs_part, sfs_got, SfsRef.got. cbn. destruct (_ =? 0); cbn; [rewrite one_part; reflexivity|by destruct (snd i)].
Qed.

Lemma got_pin x i : VfsRef.got (fst x) ((fun a => NPipe (PipeFs.Pin a)) <$> snd x) i = pipe_part (PipeFsInv.got_end x) i.
Proof.
  unfold VfsRef.got, pipe_part, PipeFsInv.got_end. destruct (_ =? 0); [|by destruct (snd i)].
  destruct (snd x); cbn; [rewrite one_part; reflexivity|by destruct (snd i)].
Qed.

Lemma got_dev r o i : VfsRef.got r (NDev <$> o) i = dev_part (fun i => if r =? 0 then match o with Some n => one (Refs, n) i | None => 0 end else 0) i.
Proof.
  unfold VfsRef.got, dev_part. destruct (r =? 0); [|by destruct (snd i)]. destruct o; cbn; [rewrite one_part; reflexivity|by destruct (snd i)].
Qed.

(** An entry with a fixed answer. *)
Ltac fixed_entry :=
  intros [] ? ? [= <- <-]; apply moved_refl; intros ?; reflexivity.

Lemma law_klookup n p : moves (klookup n p) (fun '(r, o) => VfsRef.got r o).
Proof.
  apply moves_table; intros; [| |fixed_entry| |fixed_entry].
  - eapply on_devs_with; [apply Devs.moves_dev_lookup|]. intros [r o] i. by rewrite got_dev.
  - eapply on_pipe_with; [apply PipeFsInv.moves_pipe_root_lookup|]. intros x i. rewrite <- (got_pin x i). by destruct x.
  - eapply on_sfs_with; [apply SfsRef.moves_sfs_lookup|]. intros [r b] i. exact (eq_sym (got_sfs (r, b) i)).
Qed.

Lemma law_kcreate n name excl : moves (kcreate n name excl) (fun '(r, o) => VfsRef.got r o).
Proof.
  apply moves_table; intros; [fixed_entry| |fixed_entry| |fixed_entry].
  - eapply on_pipe_with; [apply PipeFsInv.moves_pipe_root_create|]. intros x i. rewrite <- (got_pin x i). by destruct x.
  - eapply on_sfs_with; [apply SfsRef.moves_sfs_create|]. intros [r b] i. exact (eq_sym (got_sfs (r, b) i)).
Qed.

Lemma law_klookup_parent n p : moves (klookup_parent n p) (fun '(r, o, _) => VfsRef.got r o).
Proof.
  apply moves_table; intros; [fixed_entry| |fixed_entry| |fixed_entry].
  - intros w x w' Hx. unfold on_pipe, lens, with_node, bind in Hx. destruct (PipeFs.pipe_root_lookup_parent p (w_pipe w)) as [[[[r o] q] t]| |] eqn:E; [|done|done].
    injection Hx as <- <-. eapply moved_ext; [|apply (moves_on_pipe _ _ (PipeFsInv.moves_pipe_root_lookup_parent p) w (r, o, q)); unfold on_pipe, lens; by rewrite E].
    unfold PipeFs.pipe_root_lookup_parent in E. apply bind_Ret in E as (? & ? & _ & E). apply bind_Ret in E as (? & ? & _ & [= <- <- _ _]).
    intros i. cbn. unfold VfsRef.got. cbn. by rewrite one_part.
  - eapply on_sfs_with; [apply SfsRef.moves_sfs_lookup_parent|]. intros [[r b] q] i. exact (eq_sym (got_sfs (r, b) i)).
Qed.

Lemma law_kget_root f : moves (kget_root f) VfsRef.held.
Proof.
  destruct f; cbn [kget_root].
  - intros w x w' H. unfold on_pipe, lens, with_node, bind in H. destruct (PipeFs.pipe_get_root (w_pipe w)) as [[q t]| |] eqn:E; [|done|done].
    injection H as <- <-. eapply moved_ext; [|apply (moves_on_pipe _ _ PipeFsInv.moves_pipe_get_root w q); unfold on_pipe, lens; by rewrite E].
    apply bind_Ret in E as (? & ? & _ & [= <- _]). intros i. cbn. by rewrite one_part.
  - eapply on_sfs_with; [apply SfsRef.moves_sfs_get_root|]. intros a i. cbn. by rewrite one_part.
Qed.

Create HintDb kern_moves.
#[local] Hint Resolve Devs.moves_dev_ref_inc Devs.moves_dev_ref_dec Devs.moves_dev_open_inc Devs.moves_dev_open_dec
  PipeFsInv.moves_pipe_ref_inc PipeFsInv.moves_pipe_ref_dec PipeFsInv.moves_pipe_open_inc PipeFsInv.moves_pipe_open_dec
  SfsRef.moves_vop_ref_inc SfsRef.moves_vop_ref_dec SfsRef.moves_vop_open_inc SfsRef.moves_vop_open_dec : kern_moves.

(** The counts of the three kinds of inode. *)
Lemma moves_counts (n : knode) (dv : Z -> M Devs.devs Z) (pp : PipeFs.pnode -> M PipeFs.pipe_fs Z) (sf : Z -> M SfsDisk.sfs_fs Z) (c : Z) k :
  (forall d, moves (dv d) (fun _ i => c * one (k, d) i)) -> (forall p, moves (pp p) (fun _ i => c * one (k, p) i)) -> (forall a, moves (sf a) (fun _ i => c * one (k, a) i)) ->
  moves (match n with NDev d => on_devs (dv d) | NPipe p => on_pipe (pp p) | NSfs a => on_sfs (sf a) end) (fun _ i => c * one (k, n) i).
Proof.
  intros H1 H2 H3. destruct n as [d|p|a]; (eapply moves_ext; [first [exact (moves_on_devs _ _ (H1 d))|exact (moves_on_pipe _ _ (H2 p))|exact (moves_on_sfs _ _ (H3 a))]|]);
    intros ? i; rewrite one_part; unfold dev_part, pipe_part, sfs_part; destruct (snd i); lia.
Qed.

Lemma moves_one {S I A} {T : Tally S I} (m : M S A) (f : I -> Z) : moves m (fun _ => f) <-> moves m (fun _ i => 1 * f i).
Proof. split; intros H; (eapply moves_ext; [exact H|]); intros a i; cbv beta; lia. Qed.

Lemma moves_minus {S I A} {T : Tally S I} (m : M S A) (f : I -> Z) : moves m (fun _ i => - f i) <-> moves m (fun _ i => -1 * f i).
Proof. split; intros H; (eapply moves_ext; [exact H|]); intros a i; cbv beta; lia. Qed.

Lemma quiet_no_bytes {S I} {T : Tally S I} (m : M S Z) : quiet m -> quiet (no_bytes m).
Proof. intros H. apply moves_quiet_bind; [done|intros r]. by apply moves_ret. Qed.

Lemma quiet_no_value {S I} {T : Tally S I} (m : M S Z) : quiet m -> quiet (no_value m).
Proof. intros H. apply moves_quiet_bind; [done|intros r]. by apply moves_ret. Qed.

(** An entry of a quiet table. *)
Ltac quiet_entry :=
  intros; try solve [by apply moves_ret | apply quiet_no_bytes; by apply moves_ret | apply quiet_no_value; by apply moves_ret].

Lemma law_knamefile n resid : quiet (knamefile n resid).
Proof.
  apply quiet_table; quiet_entry.
  - apply PipeFsInv.quiet_pipe_inode_namefile.
  - apply moves_quiet_bind; [apply quiet_get|intros s]. apply SfsRef.quiet_sfs_namefile.
Qed.

#[export] Instance kern_laws : VfsRef.InodeLaws kworld knode kfs.
Proof.
  split; cbn [Vfs.vop_ref_inc Vfs.vop_ref_dec Vfs.vop_open_inc Vfs.vop_open_dec Vfs.vop_open Vfs.vop_truncate Vfs.vop_gettype
    Vfs.vop_lookup Vfs.vop_lookup_parent Vfs.vop_create Vfs.vop_unlink Vfs.vop_mkdir Vfs.vop_rename Vfs.vop_link Vfs.vop_symlink
    Vfs.vop_readlink Vfs.vop_namefile Vfs.fsop_get_root Vfs.fsop_sync Vfs.fsop_unmount Vfs.fsop_cleanup kern_ops].
  - intros n. apply (proj2 (moves_one _ _)). apply moves_counts; intros; apply (proj1 (moves_one _ _)); eauto with kern_moves.
  - intros n. apply (proj2 (moves_minus _ _)). apply moves_counts; intros; apply (proj1 (moves_minus _ _)); eauto with kern_moves.
  - intros n. apply (proj2 (moves_one _ _)). apply moves_counts; intros; apply (proj1 (moves_one _ _)); eauto with kern_moves.
  - intros n. apply (proj2 (moves_minus _ _)). apply moves_counts; intros; apply (proj1 (moves_minus _ _)); eauto with kern_moves.
  - intros n fl. apply quiet_table; quiet_entry; [apply Devs.quiet_dev_open|apply PipeFsInv.quiet_pipe_inode_open].
  - intros n len. apply quiet_table; quiet_entry. apply SfsRef.quiet_sfs_truncfile.
  - intros n. apply quiet_table; quiet_entry; [apply Devs.quiet_dev_gettype|apply SfsRef.quiet_sfs_gettype..].
  - exact law_klookup.
  - exact law_klookup_parent.
  - exact law_kcreate.
  - intros n name. apply quiet_table; quiet_entry. apply SfsRef.quiet_sfs_unlink.
  - intros n name. apply quiet_table; quiet_entry. apply SfsRef.quiet_sfs_mkdir.
  - intros n name n' name'. apply quiet_table; quiet_entry. destruct n'; [done|done|apply SfsRef.quiet_sfs_rename].
  - intros n name l. apply quiet_table; quiet_entry. destruct l; [done|done|apply SfsRef.quiet_sfs_link].
  - intros n name path. apply quiet_table; quiet_entry.
  - intros n resid. apply quiet_table; quiet_entry.
  - exact law_knamefile.
  - exact law_kget_root.
  - intros []; [apply quiet_on_pipe; by apply moves_ret|apply quiet_on_sfs, SfsRef.quiet_sfs_sync].
  - intros []; [apply quiet_on_pipe; by apply moves_ret|apply quiet_on_sfs, SfsRef.quiet_sfs_unmount].
  - intros []; [apply quiet_on_pipe; by apply moves_ret|apply quiet_on_sfs]. apply moves_quiet_bind; [apply SfsRef.quiet_sfs_cleanup|intros r]. by apply moves_ret.
Qed.

Lemma quiet_kdo_mount n : quiet (kdo_mount n).
Proof.
  destruct n as [d|p|a]; [|done|done]. cbn [kdo_mount]. apply moves_quiet_bind; [apply quiet_on_devs, Devs.quiet_get_dev|intros x].
  apply moves_quiet_bind; [apply quiet_on_sfs, SfsRef.quiet_sfs_do_mount|intros r]. by apply moves_ret.
Qed.

(** Both ends of the pipe are opened. *)
Lemma moves_pipe_open : moves (S := kvfs) pipe_open (fun x i =>
  match snd x with Some (a, b) => VfsRef.opened (Some a) i + VfsRef.opened (Some b) i | None => 0 end).
Proof.
  unfold pipe_open. eapply moves_bind; [apply VfsRef.moves_vfs_get_root|intros [r root]]. destruct (negb (r =? 0)) eqn:E; [crun|].
  apply moves_deref_bind. intros n ->. eapply moves_bind; [apply VfsRef.moves_below, moves_on_pipe, PipeFsInv.moves_open_ends|intros [r' x]].
  eapply moves_bind; [exact (VfsRef.moves_below _ _ (VfsRef.law_ref_dec (W := kworld) (F := kfs) n))|intros c]. apply moves_ret. intros i.
  destruct x as [[a b]|]; cbn [snd fmap option_fmap option_map]; unfold VfsRef.opened, PipeFsInv.both_ends; rewrite ?(one_part _ (NPipe _)); unfold pipe_part; destruct (snd i); settle.
Qed.

End VfsKern.
