(* ===== verification/VfsSpec.v ===== *)
(** * The virtual file system: what is proved of it

    References ([vfs_references]) over any sequence of calls of the kernel's file systems
    and devices together; the device list as a finite map ([vfs_devices_spec]); where the
    four forms of a path lead ([vfs_path_spec]). *)

From stdpp Require Import relations.
From S2P Require Import Prelude Kern Pipe SfsDisk Sfs SfsDir SfsSpec Vfs Inode SfsRef PipeFs Devs VfsRef VfsKern.
Import Vfs VfsRef VfsKern.
Open Scope Z_scope.

Module VfsSpec.

(** ** Calls of the layer above *)

(** The operations that hold nothing when they return. *)
Inductive vcall :=
| CUnlink (p : list Z) | CMkdir (p : list Z) | CRename (p q : list Z) | CLink (p q : list Z) | CSymlink (p q : list Z)
| CReadlink (p : list Z) (n : Z) | CChdir (p : list Z) | CGetcwd (n : Z) | CSetBootfs (o : option (list Z))
| CSync | CMount (d : list Z) | CUnmount (d : list Z) | CUnmountAll | CCleanup.

(** Their code. *)
Definition run_call (c : vcall) : M kvfs Z :=
  match c with
  | CUnlink p => vfs_unlink p
  | CMkdir p => vfs_mkdir p
  | CRename p q => vfs_rename p q
  | CLink p q => vfs_link p q
  | CSymlink p q => vfs_symlink p q
  | CReadlink p n => '(r, _, _) <- vfs_readlink p n ;; ret r
  | CChdir p => vfs_chdir p
  | CGetcwd n => '(r, _, _) <- vfs_getcwd n ;; ret r
  | CSetBootfs o => vfs_set_bootfs o
  | CSync => vfs_sync
  | CMount d => sfs_mount d
  | CUnmount d => vfs_unmount d
  | CUnmountAll => vfs_unmount_all
  | CCleanup => vfs_cleanup ;; ret 0
  end.

(** A state, and the inodes that the layer above has open, one entry for each opening. *)
Definition config : Type := kvfs * list knode.

Inductive vstep : config -> config -> Prop :=
| VOpen s p fl r o s' hs : vfs_open p fl s = Ret ((r, o), s') -> vstep (s, hs) (s', option_list o ++ hs)
| VPipe s r o s' hs : pipe_open s = Ret ((r, o), s') ->
    vstep (s, hs) (s', match o with Some (a, b) => a :: b :: hs | None => hs end)
| VClose s n r s' hs hs' : vfs_close n s = Ret (r, s') -> vstep (s, hs ++ n :: hs') (s', hs ++ hs')
| VCall s c r s' hs : run_call c s = Ret (r, s') -> vstep (s, hs) (s', hs).

(** ** References *)

(** How many of the open inodes [n] is. *)
Definition times (n : knode) (hs : list knode) : Z := Z.of_nat (length (base.filter (fun m => m = n) hs)).

(** The references to [n] that someone has: one for each opening, one for the current
    directory, one for the boot file system. *)
Definition holders (s : kvfs) (hs : list knode) (n : knode) : Z :=
  times n hs + (if bool_decide (pwd s = Some n) then 1 else 0) + (if bool_decide (bootfs_node s = Some n) then 1 else 0).

Definition refs_of (s : kvfs) (n : knode) : Z := tally (world s) (Refs, n).
Definition opens_of (s : kvfs) (n : knode) : Z := tally (world s) (Opens, n).

(** The changes that an opening makes. *)
Fixpoint openings (hs : list knode) (i : count * knode) : Z :=
  match hs with [] => 0 | n :: hs => opened (Some n) i + openings hs i end.

Lemma openings_app hs hs' i : openings (hs ++ hs') i = openings hs i + openings hs' i.
Proof. induction hs as [|n hs IH]; cbn [app openings]; lia. Qed.

Lemma openings_times hs k n : openings hs (k, n) = times n hs.
Proof.
  unfold times. induction hs as [|m hs IH]; [done|]. cbn [openings]. rewrite IH, filter_cons. unfold opened, one.
  destruct (decide (m = n)) as [->|Hm].
  - cbn [length]. destruct k; repeat case_bool_decide; try congruence; lia.
  - destruct k; repeat case_bool_decide; try congruence; lia.
Qed.

Lemma quiet_run_call c : quiet (S := kvfs) (run_call c).
Proof.
  destruct c; cbn [run_call].
  - apply quiet_vfs_unlink.
  - apply quiet_vfs_mkdir.
  - apply quiet_vfs_rename.
  - apply quiet_vfs_link.
  - apply quiet_vfs_symlink.
  - apply moves_quiet_bind; [apply quiet_vfs_readlink|intros [[r l] m]; by apply moves_ret].
  - apply quiet_vfs_chdir.
  - apply moves_quiet_bind; [apply quiet_vfs_getcwd|intros [[r l] m]; by apply moves_ret].
  - apply quiet_vfs_set_bootfs.
  - apply quiet_vfs_sync.
  - apply quiet_vfs_mount, quiet_kdo_mount.
  - apply quiet_vfs_unmount.
  - apply quiet_vfs_unmount_all.
  - apply moves_quiet_bind; [apply quiet_vfs_cleanup|intros ?; by apply moves_ret].
Qed.

(** What a step moves is what the openings change by. *)
Lemma vstep_moved s hs s' hs' : vstep (s, hs) (s', hs') -> moved s s' (fun i => openings hs' i - openings hs i).
Proof.
  inversion 1 as [? p fl r o ? ? Ho|? r o ? ? Ho|? n r ? l l' Hc|? c r ? ? Hc]; subst.
  - eapply moved_ext; [|exact (moves_vfs_open _ _ _ _ _ Ho)]. intros i. rewrite openings_app. destruct o; cbn; lia.
  - eapply moved_ext; [|exact (moves_pipe_open _ _ _ Ho)]. intros i. destruct o as [[a b]|]; cbn [snd openings]; lia.
  - eapply moved_ext; [|exact (moves_vfs_close _ _ _ _ Hc)]. intros i. rewrite !openings_app. cbn [openings]. lia.
  - eapply moved_ext; [|exact (quiet_run_call _ _ _ _ Hc)]. intros i. unfold still. lia.
Qed.

Lemma vsteps_moved c c' : rtc vstep c c' -> moved (fst c) (fst c') (fun i => openings (snd c') i - openings (snd c) i).
Proof.
  induction 1 as [[s hs]|[s hs] [s1 hs1] [s2 hs2] H1 _ IH]; cbn [fst snd] in *; [apply moved_refl; intros i; lia|].
  eapply moved_trans; [exact (vstep_moved _ _ _ _ H1)|]. eapply moved_ext; [|exact IH]. intros i. cbv beta. lia.
Qed.

Lemma tally_vfs (s : kvfs) k n : tally s (k, n) = tally (world s) (k, n) - match k with Refs =>
  (if bool_decide (pwd s = Some n) then 1 else 0) + (if bool_decide (bootfs_node s = Some n) then 1 else 0) | Opens => 0 end.
Proof.
  cbn. unfold owned, held, one. destruct k, (pwd s), (bootfs_node s); repeat case_bool_decide; try congruence; try lia; simplify_eq.
Qed.

(** C2: Whatever sequence of calls is made of the virtual file system, over the kernel's
    devices, pipes and simple file system, and whatever fails in it: the reference count
    of every inode changes by exactly as much as the number of its holders (openings,
    current directory, boot file system), and its open count by as much as the number of
    its openings.  No path through the code leaks a reference or gives back one it does
    not hold.  Counts are compared as the 32-bit words that hold them. *)
Theorem vfs_references s hs s' hs' : rtc vstep (s, hs) (s', hs') -> sound (world s) ->
  sound (world s') /\ forall n,
    eqm (refs_of s' n - holders s' hs' n) (refs_of s n - holders s hs n) /\
    eqm (opens_of s' n - times n hs') (opens_of s n - times n hs).
Proof.
  intros H Hs. apply vsteps_moved in H as [H1 H2]. cbn [fst snd] in *. split; [exact (H1 Hs)|]. intros n. split.
  - specialize (H2 Hs (Refs, n)). rewrite !tally_vfs, !openings_times in H2. unfold refs_of, holders, eqm in *. etrans; [|exact H2]. f_equal. lia.
  - specialize (H2 Hs (Opens, n)). rewrite !tally_vfs, !openings_times in H2. unfold opens_of, eqm in *. etrans; [|exact H2]. f_equal. lia.
Qed.

(** *** A run of it *)

(** No process, no queue: nothing here sleeps; [kmalloc] for a ring buffer gives 4096. *)
Definition boot_pipes : Pipe.pstate_t :=
  Pipe.mk_pst (Kern.mk_kstate ∅ 0 0 ∅ [] ∅ [] ∅ ∅ 0 (Kern.mk_ipc ∅ ∅ ∅ [Some 4096])) ∅.

(** Before [fs_init]: the disk holds an empty file system of 40 blocks. *)
Definition boot_disk : SfsDisk.sfs_fs :=
  SfsDisk.upd_disk (fun d => <[0 := SfsDisk.splice (SfsDisk.zeros SfsDisk.SFS_BLKSIZE) 0 (SfsDisk.super_bytes SfsSpec.fresh_fs)]>
    (<[2 := SfsDisk.splice (SfsDisk.zeros SfsDisk.SFS_BLKSIZE) 0 (take 4096 (SfsDisk.freemap_bytes (SfsDisk.freemap SfsSpec.fresh_fs)))]> d)) SfsSpec.fresh_fs.
Definition power_on : kvfs :=
  mk_vfs [] None None (mk_world (Devs.mk_devs ∅ []) (PipeFs.mk_pfs boot_pipes (Inode.mk_counts 0 0) ∅ [] []) boot_disk) [].

(** The state after a call that returns. *)
Definition after {A} (m : M kvfs A) (s : kvfs) : kvfs := match m s with Ret (_, s') => s' | _ => s end.

Definition returns {A} `{EqDecision A} (m : M kvfs A) (s : kvfs) (a : A) : bool :=
  match m s with Ret (x, _) => bool_decide (x = a) | _ => false end.

Lemma returns_Ret {A} `{EqDecision A} (m : M kvfs A) s a : returns m s a = true -> m s = Ret (a, after m s).
Proof. unfold returns, after. destruct (m s) as [[x s']| |]; [|done|done]. intros ->%bool_decide_eq_true. done. Qed.

Lemma returns_below {A} `{EqDecision A} (m : M kworld A) s a : returns (below m) s a = true -> exists w, m (world s) = Ret (a, w).
Proof. unfold returns, below. destruct (m (world s)) as [[x w]| |]; [|done|done]. intros ->%bool_decide_eq_true. by exists w. Qed.

Definition booted : kvfs := after (fs_init 320) power_on.

(** Start-up names the devices and mounts the disk. *)
Example boot_devices : returns (fs_init 320 ;; s <- get ;; ret ((fun d => (devname d, fs d)) <$> vdev_list s)) power_on
  [(pipe_name, Some FPipe); (dev_name Devs.Disk0, Some FSfs); (dev_name Devs.Stdout, None); (dev_name Devs.Stdin, None); (dev_name Devs.Null, None)] = true.
Proof. vm_compute. reflexivity. Qed.

Lemma booted_sound : sound (world booted).
Proof.
  split; [done|]. split.
  - cbn. unfold PipeFsInv.pfs_ok. replace (PipeFs.pipe_list (w_pipe (world booted))) with (@nil Z) by (vm_compute; reflexivity).
    apply PipeFsInv.names_ok_nil.
  - cbn. vm_compute. reflexivity.
Qed.

(** ["disk0:"], ["disk0:/a"], ["disk0:d"], ["x/y"] and ["pipe:r_p"]. *)
Definition p_root : list Z := dev_name Devs.Disk0 ++ [COLON].
Definition p_a : list Z := p_root ++ [SLASH; 97].
Definition p_d : list Z := p_root ++ [100].
Definition p_xy : list Z := [120; SLASH; 121].
Definition p_pipe : list Z := pipe_name ++ [COLON; 114; 95; 112].

(** Going to the disk, making and opening a file, a lookup that fails half way, a rename
    of an open directory's parent that fails, and an end of a named pipe. *)
Lemma rtc_call c r s hs x : returns (run_call c) s r = true -> rtc vstep (after (run_call c) s, hs) x -> rtc vstep (s, hs) x.
Proof. intros H%returns_Ret R. eapply rtc_l; [exact (VCall s c r _ hs H)|exact R]. Qed.

Lemma rtc_open p fl r o s hs x : returns (vfs_open p fl) s (r, o) = true -> rtc vstep (after (vfs_open p fl) s, option_list o ++ hs) x -> rtc vstep (s, hs) x.
Proof. intros H%returns_Ret R. eapply rtc_l; [exact (VOpen s p fl r o _ hs H)|exact R]. Qed.

Lemma vfs_references_witness : exists s hs, rtc vstep (booted, []) (s, hs) /\ hs = [NPipe (PipeFs.Pin 1); NSfs 2] /\
  forall n, eqm (refs_of s n - holders s hs n) (refs_of booted n - holders booted [] n) /\ eqm (opens_of s n - times n hs) (opens_of booted n - times n []).
Proof.
  eassert (R : rtc vstep (booted, []) (_, [NPipe (PipeFs.Pin 1); NSfs 2])).
  { apply (rtc_call (CChdir p_root) 0); [vm_compute; reflexivity|].
    apply (rtc_open p_a (O_RDWR + O_CREAT) 0 (Some (NSfs 2))); [vm_compute; reflexivity|].
    apply (rtc_open p_xy O_RDONLY (- E_NOENT) None); [vm_compute; reflexivity|].
    apply (rtc_call (CRename p_d p_xy) (- E_NOENT)); [vm_compute; reflexivity|].
    apply (rtc_open p_pipe (O_RDONLY + O_CREAT) 0 (Some (NPipe (PipeFs.Pin 1)))); [vm_compute; reflexivity|].
    apply rtc_refl. }
  eexists _, _. split; [exact R|]. split; [reflexivity|]. exact (proj2 (vfs_references _ _ _ _ R booted_sound)).
Defined.

(** ** The device list *)

Inductive dcall := DAddFs (name : list Z) (f : kfs) | DAddDev (name : list Z) (n : knode) (m : bool) | DMount (name : list Z) | DUnmount (name : list Z).

Definition run_dcall (c : dcall) : M kvfs Z :=
  match c with
  | DAddFs name f => vfs_add_fs name f
  | DAddDev name n m => vfs_add_dev name n m
  | DMount name => sfs_mount name
  | DUnmount name => vfs_unmount name
  end.

(** The same calls of a finite map from names to devices. *)
Definition dspec (c : dcall) (t : gmap (list Z) (vfs_dev_t knode kfs)) (r : Z) (t' : gmap (list Z) (vfs_dev_t knode kfs)) : Prop :=
  match c with
  | DAddFs name f => VfsDev.added t (mk_vdev name None (Some f) false) r t'
  | DAddDev name n m => VfsDev.added t (mk_vdev name (Some n) None m) r t'
  | DMount name => VfsDev.mounted t name r t'
  | DUnmount name => VfsDev.unmounted t name r t'
  end.

Lemma kdo_mount_fails n w q f w' : kdo_mount n w = Ret ((q, f), w') -> q <> 0 -> f = None.
Proof.
  destruct n as [d|p|a]; [|done|done]. cbn [kdo_mount]. intros (x & w1 & _ & H)%bind_Ret Hq. apply bind_Ret in H as (r & w2 & _ & [= <- <- _]).
  by rewrite (proj2 (Z.eqb_neq r 0) Hq).
Qed.

(** C18: The device list implements a finite map from names to devices: names stay unique;
    a device is added when its name is free and short enough, and nothing else changes; a
    file system is mounted only on a device that is meant for it and free, and what the
    mount or the unmount refuses leaves every device as it was. *)
Theorem vfs_devices_spec c s r s' : VfsDev.unique s -> run_dcall c s = Ret (r, s') ->
  VfsDev.unique s' /\ dspec c (VfsDev.devs_of s) r (VfsDev.devs_of s').
Proof.
  destruct c; cbn [run_dcall dspec]; intros Hu H.
  - exact (VfsDev.do_add_run name None (Some f) false s r s' Hu H).
  - exact (VfsDev.do_add_run name (Some n) None m s r s' Hu H).
  - exact (VfsDev.mount_run name kdo_mount s r s' Hu kdo_mount_fails H).
  - exact (VfsDev.unmount_run _ _ _ _ Hu H).
Qed.

Lemma booted_unique : VfsDev.unique booted.
Proof.
  apply (bool_decide_eq_true_1 (NoDup (VfsDev.names (vdev_list booted)))). vm_compute. reflexivity.
Qed.

(** Unmounting the disk, which nothing uses. *)
Lemma vfs_devices_spec_witness : exists s', run_dcall (DUnmount (dev_name Devs.Disk0)) booted = Ret (0, s') /\
  VfsDev.unique s' /\ dspec (DUnmount (dev_name Devs.Disk0)) (VfsDev.devs_of booted) 0 (VfsDev.devs_of s').
Proof.
  assert (H : returns (run_dcall (DUnmount (dev_name Devs.Disk0))) booted 0 = true) by (vm_compute; reflexivity).
  apply returns_Ret in H. eexists. split; [exact H|]. exact (vfs_devices_spec _ _ _ _ booted_unique H).
Defined.

(** ** Paths *)

(** The four forms of a path; [rest] is what is left to walk. *)
Inductive path_form := OnDevice (dev rest : list Z) | OnBoot (rest : list Z) | OnSameFs (rest : list Z) | OnCwd (path : list Z).

Definition slashes (k : nat) : list Z := replicate k SLASH.

Definition render (k : nat) (p : path_form) : list Z :=
  match p with
  | OnDevice dev rest => dev ++ COLON :: slashes k ++ rest
  | OnBoot rest => SLASH :: slashes k ++ rest
  | OnSameFs rest => COLON :: slashes k ++ rest
  | OnCwd path => path
  end.

Definition plain (l : list Z) : Prop := (COLON ∉ l) /\ (SLASH ∉ l).
Definition no_slash_first (l : list Z) : Prop := match l with c :: _ => c <> SLASH | [] => True end.

(** A device name is not empty and has no colon or slash; a path from the current
    directory has no colon before its first slash, and does not begin with one. *)
Definition well_formed (p : path_form) : Prop :=
  match p with
  | OnDevice dev rest => dev <> [] /\ plain dev /\ no_slash_first rest
  | OnBoot rest | OnSameFs rest => no_slash_first rest
  | OnCwd path => plain path \/ exists d rest, d <> [] /\ plain d /\ path = d ++ SLASH :: rest
  end.

(** Where the walk begins. *)
Definition start (p : path_form) : M kvfs (Z * option knode) :=
  match p with
  | OnDevice dev _ => vfs_get_root dev
  | OnBoot _ => vfs_get_bootfs
  | OnSameFs _ =>
      '(r, n) <- vfs_get_curdir ;;
      if negb (r =? 0) then ret (r, None)
      else n <- deref n ;; f <- node_fs n ;; f <- deref f ;; root <- below (fsop_get_root f) ;; _ <- below (vop_ref_dec n) ;; ret (0, root)
  | OnCwd _ => vfs_get_curdir
  end.

Definition walked (p : path_form) : list Z := match p with OnDevice _ r | OnBoot r | OnSameFs r | OnCwd r => r end.

Definition walk (p : path_form) : M kvfs (Z * option knode) :=
  '(r, n) <- start p ;;
  if negb (r =? 0) then ret (r, None)
  else
    n <- deref n ;;
    match walked p with [] => ret (0, Some n) | rest => x <- below (vop_lookup n rest) ;; _ <- below (vop_ref_dec n) ;; ret x end.

Lemma split_plain d c rest : plain d -> c = COLON \/ c = SLASH -> split_path (d ++ c :: rest) = Some (c =? COLON, d, rest).
Proof.
  intros [H1 H2] Hc. induction d as [|x d IH]; cbn [app split_path].
  - destruct Hc as [-> | ->]; done.
  - apply not_elem_of_cons in H1 as [N1 H1], H2 as [N2 H2].
    rewrite (proj2 (Z.eqb_neq x COLON)), (proj2 (Z.eqb_neq x SLASH)) by congruence. by rewrite IH.
Qed.

Lemma split_none l : plain l -> split_path l = None.
Proof.
  intros [H1 H2]. induction l as [|x l IH]; [done|]. cbn [split_path]. apply not_elem_of_cons in H1 as [N1 H1], H2 as [N2 H2].
  rewrite (proj2 (Z.eqb_neq x COLON)), (proj2 (Z.eqb_neq x SLASH)) by congruence. by rewrite IH.
Qed.

Lemma skip_slashes_render k rest : no_slash_first rest -> skip_slashes (slashes k ++ rest) = rest.
Proof.
  intros H. induction k as [|k IH]; cbn; [|done]. destruct rest as [|c rest]; [done|]. cbn. by rewrite (proj2 (Z.eqb_neq c SLASH)).
Qed.

(** The forms cover every path, and a path has one of them only: what the code splits
    off. *)
Lemma path_forms path : exists k p, well_formed p /\ render k p = path.
Proof.
  assert (Hs : forall l, exists k rest, no_slash_first rest /\ l = slashes k ++ rest).
  { induction l as [|c l (k & rest & Hr & ->)]; [by exists 0%nat, []|]. destruct (decide (c = SLASH)) as [->|Hc]; [by exists (S k), rest|].
    by exists 0%nat, (c :: slashes k ++ rest). }
  assert (Hp : plain path \/ exists d c rest, plain d /\ (c = COLON \/ c = SLASH) /\ path = d ++ c :: rest).
  { induction path as [|x l IH]; [left; split; apply not_elem_of_nil|].
    destruct (decide (x = COLON)) as [->|H1]; [right; exists [], COLON, l; split_and!; [split; apply not_elem_of_nil|by left|done]|].
    destruct (decide (x = SLASH)) as [->|H2]; [right; exists [], SLASH, l; split_and!; [split; apply not_elem_of_nil|by right|done]|].
    destruct IH as [[Ha Hb]|(d & c & rest & [Ha Hb] & Hc & ->)]; [left|right; exists (x :: d), c, rest; split_and!; [|done|done]];
      split; apply not_elem_of_cons; split; done || congruence. }
  destruct Hp as [Hp|(d & c & rest & Hd & Hc & ->)]; [exists 0%nat, (OnCwd path); split; [by left|done]|].
  destruct (Hs rest) as (k & rest' & Hr & ->). destruct Hc as [-> | ->]; destruct d as [|x d].
  - by exists k, (OnSameFs rest').
  - by exists k, (OnDevice (x :: d) rest').
  - by exists k, (OnBoot rest').
  - exists 0%nat, (OnCwd ((x :: d) ++ SLASH :: slashes k ++ rest')). split; [right|done]. by exists (x :: d), (slashes k ++ rest').
Qed.

(** C24: A path has one of four forms: on a named device, on the boot file system, on the
    file system of the current directory, or relative to that directory.  [vfs_lookup]
    walks the rest of the path, without its leading slashes, from the inode the form
    stands for, and gives back the reference to that inode; a path that ends there is
    that inode. *)
Theorem vfs_path_spec path : exists k p, well_formed p /\ render k p = path /\ forall s, vfs_lookup path s = walk p s.
Proof.
  destruct (path_forms path) as (k & p & Hp & Hr). exists k, p. split; [done|]. split; [done|]. subst path. intros s.
  unfold vfs_lookup, walk, get_device. destruct p as [dev rest|rest|rest|path]; cbn [render well_formed start walked] in *.
  - destruct Hp as (Hd & Hp & Hr). rewrite split_plain by (done || by left). change (COLON =? COLON) with true.
    destruct dev as [|c dev]; [done|]. rewrite skip_slashes_render by done. unfold bind.
    destruct (vfs_get_root (c :: dev) s) as [[[r n] s1]| |]; [|done..]. cbn. by destruct rest.
  - change (split_path (SLASH :: slashes k ++ rest)) with (Some (false, @nil Z, slashes k ++ rest)). cbv beta iota.
    rewrite skip_slashes_render by done. unfold bind. destruct (vfs_get_bootfs s) as [[[r n] s1]| |]; [|done..].
    destruct (negb (r =? 0)) eqn:E; cbn; rewrite ?E; [done|]. by destruct rest.
  - change (split_path (COLON :: slashes k ++ rest)) with (Some (true, @nil Z, slashes k ++ rest)). cbv beta iota.
    rewrite skip_slashes_render by done. unfold bind. destruct (vfs_get_curdir s) as [[[r n] s1]| |]; [|done..].
    destruct (negb (r =? 0)) eqn:E; cbn [ret]; [by rewrite E|]. destruct n as [n|]; [|done]. cbn [deref ret]. unfold node_fs, gets.
    destruct (in_fs n (world s1)) as [f|]; [|done]. cbn [deref ret]. destruct (below (fsop_get_root f) s1) as [[root s2]| |]; [|done..].
    destruct (below (vop_ref_dec n) s2) as [[c s3]| |]; [|done..]. cbn. by destruct rest.
  - assert (E : match split_path path with Some (true, _ :: _, _) | Some (_, [], _) => False | _ => True end).
    { destruct Hp as [Hp|(d & rest & Hd & Hp & ->)]; [by rewrite split_none|]. rewrite split_plain by (done || by right). by destruct d. }
    destruct (split_path path) as [[[[] [|c d]] rest]|]; try done; unfold bind; (destruct (vfs_get_curdir s) as [[[r n] s1]| |]; [|done..]); cbn; by destruct path.
Qed.

(** ** A path that stops the kernel *)

(** [r_] and [w_] begin the names of ends of pipes. *)
Definition names_end (nm : list Z) : bool :=
  match nm with c :: u :: _ => ((c =? 114) || (c =? 119)) && (u =? 95) | _ => false end.

Lemma lookup_panics nm s : names_end nm = false -> PipeFs.pipe_root_lookup nm s = Panic.
Proof.
  intros H. unfold PipeFs.pipe_root_lookup, bind. assert (E : PipeFs.end_of nm s = Panic); [|by rewrite E].
  destruct nm as [|c [|u nm]]; [done..|]. cbn [PipeFs.end_of names_end] in *. unfold bind. by rewrite H.
Qed.

Lemma table_panics nm (w w1 : kworld) : names_end nm = false -> kcheck (NPipe PipeFs.Root) w = Ret (tt, w1) -> klookup (NPipe PipeFs.Root) nm w = Panic.
Proof.
  intros H E. unfold klookup, table. rewrite (bind_step _ _ _ _ _ E). cbv beta iota. unfold on_pipe, lens, with_node, bind. by rewrite lookup_panics.
Qed.

Lemma vfs_lookup_panics nm s t w1 : names_end nm = false -> nm <> [] -> no_slash_first nm ->
  vfs_get_root pipe_name s = Ret ((0, Some (NPipe PipeFs.Root)), t) -> kcheck (NPipe PipeFs.Root) (world t) = Ret (tt, w1) ->
  vfs_lookup (pipe_name ++ COLON :: nm) s = Panic.
Proof.
  intros Hn Hne Hs R K. unfold vfs_lookup, get_device. rewrite split_plain by ((split; by apply (bool_decide_eq_true_1 _)) || by left).
  change (COLON =? COLON) with true. cbn [pipe_name]. fold pipe_name. pose proof (skip_slashes_render 0 nm Hs) as Sk. change (slashes 0 ++ nm) with nm in Sk. rewrite Sk.
  rewrite (bind_step _ _ s (0, Some (NPipe PipeFs.Root), nm) t) by (by rewrite (bind_step _ _ _ _ _ R)).
  cbn [negb Z.eqb]. rewrite (bind_deref _ _ _ _ eq_refl). destruct nm as [|c nm]; [done|].
  unfold bind at 1, below at 1. change (vop_lookup (NPipe PipeFs.Root) (c :: nm)) with (klookup (NPipe PipeFs.Root) (c :: nm)). by rewrite (table_panics _ _ w1 Hn K).
Qed.

Lemma vfs_open_panics path fl s : fl = O_RDONLY \/ fl = O_WRONLY \/ fl = O_RDWR -> vfs_lookup path s = Panic -> vfs_open path fl s = Panic.
Proof.
  intros Hf E. unfold vfs_open. cbv zeta.
  destruct Hf as [-> |[-> | ->]]; do 2 (match goal with |- (if ?b then _ else _) s = _ => replace b with false by reflexivity end; cbv iota);
    unfold bind at 1; (match goal with |- context [if ?b then _ else vfs_lookup path] => replace b with false by reflexivity end); cbv iota; by rewrite E.
Qed.

(** C39: Opening a path on the pipe file system that does not name an end of a pipe, such
    as ["pipe:x"], stops the kernel, in the state that start-up leaves: the path comes from
    a user program, and [pipe_root_lookup] asserts its form. *)
Theorem open_pipe_stops nm fl : names_end nm = false -> nm <> [] -> no_slash_first nm ->
  fl = O_RDONLY \/ fl = O_WRONLY \/ fl = O_RDWR -> vfs_open (pipe_name ++ COLON :: nm) fl booted = Panic.
Proof.
  intros Hn Hne Hs Hf. apply vfs_open_panics; [exact Hf|].
  assert (R : returns (vfs_get_root pipe_name) booted (0, Some (NPipe PipeFs.Root)) = true) by (vm_compute; reflexivity).
  assert (K : returns (below (kcheck (NPipe PipeFs.Root))) (after (vfs_get_root pipe_name) booted) tt = true) by (vm_compute; reflexivity).
  apply returns_Ret in R. destruct (returns_below _ _ _ K) as [w1 Ek]. exact (vfs_lookup_panics nm booted _ w1 Hn Hne Hs R Ek).
Qed.

Lemma open_pipe_stops_witness : vfs_open (pipe_name ++ COLON :: [120]) O_RDONLY booted = Panic.
Proof. apply open_pipe_stops; [reflexivity|discriminate|discriminate|left; reflexivity]. Defined.

End VfsSpec.
