(* ===== verification/UMalloc.v ===== *)
(** * The allocator of user programs (src/code/user/libs/malloc.c)

    Free blocks form a ring of headers in the order of their addresses, which a static
    header of size 0 keeps from being empty; [malloc_locked] takes the first block that
    fits, [free_locked] puts one back and joins it with its neighbours, and the two
    [morecore] routines get more memory from the kernel.

    A header is a record at its address in the program's memory.  The kernel's side is
    [do_brk] (kern/process/proc.c) on the two bounds of the address space, with the answer
    of the areas below it (modelled in [Vmm]) as part of the state, and the addresses that
    [do_shmem] finds.  A program that touches memory it does not have stops.  The lock
    around the calls is left out: the routines run one at a time. *)

From S2P Require Import Prelude Vmm.
Open Scope Z_scope.

Module UMalloc.

(** [sizeof(header_t)] *)
Definition UNIT : Z := 64.

Record header := mk_header { ptr : Z; size : Z; type : Z }.

Definition set_ptr v h := mk_header v (size h) (type h).
Definition set_size v h := mk_header (ptr h) v (type h).
Definition set_type v h := mk_header (ptr h) (size h) v.

(** [brk] is the static of [morecore_brk_locked], [mm_brk_start] and [mm_brk] are the
    bounds that the kernel keeps.  [grants] says, call by call, whether the areas of the
    process let the kernel move its bound (always, when the list has ended); [areas] are
    the addresses [do_shmem] will find (none, when it has ended), [shared] what it has
    given. *)
Record ustate := mk_ust {
  mem : gmap Z header;
  freep : Z;
  brk : Z;
  mm_brk_start : Z;
  mm_brk : Z;
  grants : list bool;
  areas : list Z;
  shared : list (Z * Z)
}.

Definition put_mem m s := mk_ust m (freep s) (brk s) (mm_brk_start s) (mm_brk s) (grants s) (areas s) (shared s).
Definition put_freep p s := mk_ust (mem s) p (brk s) (mm_brk_start s) (mm_brk s) (grants s) (areas s) (shared s).
Definition put_brk b s := mk_ust (mem s) (freep s) b (mm_brk_start s) (mm_brk s) (grants s) (areas s) (shared s).
Definition put_mm_brk b s := mk_ust (mem s) (freep s) (brk s) (mm_brk_start s) b (grants s) (areas s) (shared s).
Definition put_grants g s := mk_ust (mem s) (freep s) (brk s) (mm_brk_start s) (mm_brk s) g (areas s) (shared s).
Definition put_areas l a s := mk_ust (mem s) (freep s) (brk s) (mm_brk_start s) (mm_brk s) (grants s) l a.

Section Code.

(** The address of [base]. *)
Context (base : Z).

Definition mapped (s : ustate) (a : Z) : bool :=
  (a =? base) || ((mm_brk_start s <=? a) && (a + UNIT <=? mm_brk s)) ||
  existsb (fun '(b, n) => (b <=? a) && (a + UNIT <=? b + n)) (shared s).

Definition rd (a : Z) : M ustate header := s <- get ;; assert (mapped s a) ;; deref (mem s !! a).

(** A store to one member of the header at [a]. *)
Definition wr (f : header -> header) (a : Z) : M ustate unit :=
  s <- get ;; assert (mapped s a) ;;
  modify (put_mem (<[a := f (default (mk_header 0 0 0) (mem s !! a))]> (mem s))).

(** [p + n] *)
Definition plus (p n : Z) : Z := u32 (p + UNIT * n).

(** ** The kernel's side *)

Definition grant : M ustate bool :=
  s <- get ;; match grants s with [] => ret true | g :: l => modify (put_grants l) ;; ret g end.

(** [find_vma_intersection] on the shared areas. *)
Definition intersects (start end_ : Z) : list (Z * Z) -> bool :=
  existsb (fun '(b, n) => (b <? end_) && (start <? b + n)).

(** The pages from [newbrk] on are unmapped. *)
Definition shrink (newbrk : Z) (s : ustate) : ustate :=
  put_mm_brk newbrk (put_mem (filter (fun x => ~ (newbrk < fst x + UNIT /\ fst x < mm_brk s)) (mem s)) s).

(** The value that the call leaves in the program's variable; its code is 0. *)
Definition do_brk (want : Z) : M ustate Z :=
  s <- get ;;
  (if want <? mm_brk_start s then ret tt
   else
     let newbrk := Vmm.ROUNDUP want Vmm.PGSIZE in
     let oldbrk := mm_brk s in
     assert (oldbrk mod Vmm.PGSIZE =? 0) ;;
     if newbrk =? oldbrk then ret tt
     else if newbrk <? oldbrk then
       ok <- grant ;; if (ok : bool) then modify (shrink newbrk) else ret tt
     else
       if intersects oldbrk (newbrk + Vmm.PGSIZE) (shared s) then ret tt
       else
         ok <- grant ;;
         if (ok : bool) && Vmm.USER_ACCESS oldbrk newbrk then modify (put_mm_brk newbrk) else ret tt) ;;
  gets mm_brk.

(** The address of a new shared area of [len] bytes, 0 when there is none. *)
Definition do_shmem (len : Z) : M ustate Z :=
  s <- get ;;
  match areas s with
  | [] => ret 0
  | a :: l =>
      if len =? 0 then ret 0
      else if a =? 0 then modify (put_areas l (shared s)) ;; ret 0
      else modify (put_areas l ((a, len) :: shared s)) ;; ret a
  end.

(** ** Giving back *)

(** The place for [bp]: the header before it in the ring.  The ring is walked at most
    once, so [fuel] of its length is enough. *)
Fixpoint find_gap (fuel : nat) (bp p : Z) : M ustate Z :=
  match fuel with
  | O => out_of_fuel
  | S fuel =>
      h <- rd p ;;
      if (p <? bp) && (bp <? ptr h) then ret p
      else if (ptr h <=? p) && ((p <? bp) || (bp <? ptr h)) then ret p
      else find_gap fuel bp (ptr h)
  end.

Definition join_next (bp p : Z) : M ustate unit :=
  b <- rd bp ;; h <- rd p ;; n <- rd (ptr h) ;;
  if (type b =? type n) && (plus bp (size b) =? ptr h)
  then wr (set_size (u32 (size b + size n))) bp ;; h <- rd p ;; n <- rd (ptr h) ;; wr (set_ptr (ptr n)) bp
  else wr (set_ptr (ptr h)) bp.

Definition join_prev (bp p : Z) : M ustate unit :=
  h <- rd p ;; b <- rd bp ;;
  if (type h =? type b) && (plus p (size h) =? bp)
  then wr (set_size (u32 (size h + size b))) p ;; b <- rd bp ;; wr (set_ptr (ptr b)) p
  else wr (set_ptr bp) p.

Definition free_locked (fuel : nat) (ap : Z) : M ustate unit :=
  let bp := u32 (ap - UNIT) in
  s <- get ;;
  p <- find_gap fuel bp (freep s) ;;
  join_next bp p ;;
  join_prev bp p ;;
  modify (put_freep p).

(** ** More memory *)

Definition morecore_brk_locked (fuel : nat) (nu : Z) : M ustate bool :=
  s <- get ;;
  ok <- (if brk s =? 0 then b <- do_brk 0 ;; modify (put_brk b) ;; ret (negb (b =? 0)) else ret true) ;;
  if negb ok then ret false
  else
    s <- get ;;
    newbrk <- do_brk (u32 (brk s + nu * UNIT)) ;;
    if newbrk <=? brk s then ret false
    else
      let p := brk s in
      wr (set_size (u32 (newbrk - p) / UNIT)) p ;;
      wr (set_type 0) p ;;
      free_locked fuel (plus p 1) ;;
      modify (put_brk newbrk) ;;
      ret true.

Definition morecore_shmem_locked (fuel : nat) (nu : Z) : M ustate bool :=
  let len := Z.land (u32 (nu * UNIT + 0xfff)) (Z.lnot 0xfff) in
  p <- do_shmem len ;;
  if p =? 0 then ret false
  else
    wr (set_size (len / UNIT)) p ;;
    wr (set_type 1) p ;;
    free_locked fuel (plus p 1) ;;
    ret true.

(** ** Taking *)

(** What is cut from the block [p] that fits, after [prevp] in the ring. *)
Definition take_block (nunits ty prevp p : Z) : M ustate Z :=
  h <- rd p ;;
  (if size h =? nunits then wr (set_ptr (ptr h)) prevp
   else
     let np := plus p nunits in
     wr (set_ptr np) prevp ;;
     h <- rd p ;;
     wr (set_ptr (ptr h)) np ;;
     h <- rd p ;;
     wr (set_size (u32 (size h - nunits))) np ;;
     wr (set_type ty) np ;;
     wr (set_size nunits) p) ;;
  modify (put_freep prevp) ;;
  ret (plus p 1).

Fixpoint malloc_loop (fuel : nat) (nunits ty prevp p : Z) : M ustate Z :=
  match fuel with
  | O => out_of_fuel
  | S n =>
      h <- rd p ;;
      if (type h =? ty) && (nunits <=? size h) then take_block nunits ty prevp p
      else
        s <- get ;;
        ok <- (if p =? freep s
               then (if ty =? 0 then morecore_brk_locked n nunits else morecore_shmem_locked n nunits)
               else ret true) ;;
        if negb ok then ret 0
        else h <- rd p ;; malloc_loop n nunits ty p (ptr h)
  end.

Definition units_of (sz : Z) : Z := u32 (u32 (sz + UNIT - 1) / UNIT + 1).

Definition malloc_locked (fuel : nat) (sz ty : Z) : M ustate Z :=
  let ty := if ty =? 0 then 0 else 1 in
  s <- get ;;
  (if freep s =? 0
   then modify (put_freep base) ;; wr (set_ptr base) base ;; wr (set_size 0) base
   else ret tt) ;;
  s <- get ;;
  h <- rd (freep s) ;;
  malloc_loop fuel (units_of sz) ty (freep s) (ptr h).

(** [malloc], [shmem_malloc] and [free] *)
Definition malloc (fuel : nat) (sz : Z) : M ustate Z := malloc_locked fuel sz 0.
Definition shmem_malloc (fuel : nat) (sz : Z) : M ustate Z := malloc_locked fuel sz 1.
Definition free (fuel : nat) (ap : Z) : M ustate unit := free_locked fuel ap.

End Code.

End UMalloc.
