(* ===== verification/UMallocInv.v ===== *)
(** * The ring of free blocks of user programs' allocator

    Free blocks as a list in the order of their addresses, the ring that links them in
    memory, and what [free_locked] does to both. *)

From Stdlib Require Import Sorted.
From S2P Require Import Prelude Vmm UMalloc.
Open Scope Z_scope.

Module UMallocInv.
Import UMalloc.

(** ** Blocks *)

(** A block: its header's address, its size in units with the header, its type. *)
Record blk := mk_blk { at_ : Z; units : Z; kind : Z }.

#[export] Instance blk_eq_dec : EqDecision blk.
Proof. solve_decision. Defined.

Definition fin (b : blk) : Z := at_ b + UNIT * units b.

(** Where the next block may begin: the static header has size 0 but takes a unit. *)
Definition room (b : blk) : Z := at_ b + UNIT * Z.max 1 (units b).

Definition touch (x y : blk) : bool := (kind x =? kind y) && (fin x =? at_ y).

(** [x] lies before [y], and they are not one block in two pieces. *)
Definition gap (x y : blk) : Prop := room x <= at_ y /\ touch x y = false.

Definition apart (x y : blk) : Prop := room x <= at_ y \/ room y <= at_ x.

Definition merge (x y : blk) : blk := mk_blk (at_ x) (units x + units y) (kind x).

(** [b] before the blocks [l], joined with the first if it touches it. *)
Definition join (b : blk) (l : list blk) : list blk :=
  match l with n :: l' => if touch b n then merge b n :: l' else b :: l | [] => [b] end.

(** The blocks [a] before the blocks [l], the last joined with the first. *)
Fixpoint paste (a l : list blk) : list blk :=
  match a with
  | [] => l
  | [p] => join p l
  | x :: a => x :: paste a l
  end.

(** The units of the blocks of one type. *)
Fixpoint total (k : Z) (l : list blk) : Z :=
  match l with [] => 0 | b :: l => (if kind b =? k then units b else 0) + total k l end.

Lemma paste_snoc u p l : paste (u ++ [p]) l = u ++ join p l.
Proof. induction u as [|x u IH]; [done|]. cbn [app paste]. rewrite IH. destruct u; done. Qed.

Lemma total_app k l1 l2 : total k (l1 ++ l2) = total k l1 + total k l2.
Proof. induction l1 as [|x l IH]; [done|]. cbn [app total]. lia. Qed.

Lemma total_join k b l : total k (join b l) = (if kind b =? k then units b else 0) + total k l.
Proof.
  destruct l as [|n l]; [done|]. unfold join, touch. destruct (Z.eqb_spec (kind b) (kind n)) as [E|E]; cbn [andb]; [|done].
  destruct (_ =? _); [|done]. cbn. rewrite <- E. destruct (kind b =? k); lia.
Qed.

Lemma total_paste k a l : total k (paste a l) = total k a + total k l.
Proof.
  destruct a as [|p u _] using rev_ind; [done|]. rewrite paste_snoc, !total_app, total_join. cbn. lia.
Qed.

(** ** Sorted lists *)

Abbreviation sorted := (StronglySorted gap).

Lemma room_at b : at_ b < room b.
Proof. unfold room, UNIT. lia. Qed.

Lemma fin_room b : fin b <= room b.
Proof. unfold fin, room, UNIT. lia. Qed.

Lemma blocks_app (R : blk -> blk -> Prop) l1 l2 : StronglySorted R (l1 ++ l2) <-> StronglySorted R l1 /\ StronglySorted R l2 /\ forall x y, x ∈ l1 -> y ∈ l2 -> R x y.
Proof.
  induction l1 as [|x l IH]; cbn [app].
  - split; [intros H; split_and!; [constructor|done|by intros ? ? ?%not_elem_of_nil]|by intros (_ & H & _)].
  - split.
    + intros [Hs Hx]%StronglySorted_inv. apply IH in Hs as (H1 & H2 & H3). rewrite Forall_app, !Forall_forall in Hx. destruct Hx as [Hx1 Hx2].
      split_and!; [constructor; [done|by apply Forall_forall]|done|]. intros z y [-> |Hz]%elem_of_cons Hy; auto.
    + intros ([H1 Hx]%StronglySorted_inv & H2 & H3). constructor; [apply IH; split_and!; [done..|]; intros z y Hz; apply H3; by right|].
      rewrite Forall_app. split; [done|]. apply Forall_forall. intros y Hy. apply H3; [by left|done].
Qed.

(** Blocks that are not neighbours do not touch. *)
Lemma gap_far x y z : room x <= at_ y -> at_ y < at_ z -> gap x z.
Proof. intros H1 H2. unfold gap, touch. pose proof (fin_room x). split; [lia|]. apply andb_false_iff. right. apply Z.eqb_neq. lia. Qed.

Lemma sorted_at l x y : sorted l -> x ∈ l -> y ∈ l -> at_ x = at_ y -> x = y.
Proof.
  induction l as [|z l IH]; [by intros _ ?%not_elem_of_nil|]. intros [Hs Hz]%StronglySorted_inv. rewrite Forall_forall in Hz. pose proof (room_at z).
  intros [-> |Hx]%elem_of_cons [-> |Hy]%elem_of_cons E; [done|apply Hz in Hy as [? _]; lia|apply Hz in Hx as [? _]; lia|auto].
Qed.

Lemma blocks_nodup l : sorted l -> NoDup l.
Proof.
  induction 1 as [|x l Hs IH Hx]; constructor; [|done]. intros Hin. rewrite Forall_forall in Hx. apply Hx in Hin as [? _]. pose proof (room_at x). lia.
Qed.

(** The place of a block among those it is apart from. *)
Lemma place l b : sorted l -> Forall (apart b) l ->
  exists a c, l = a ++ c /\ Forall (fun x => room x <= at_ b) a /\ Forall (fun y => room b <= at_ y) c.
Proof.
  induction 1 as [|x l Hs IH Hx]; intros H; [by exists [], []|]. apply Forall_cons in H as [Hb H]. destruct (IH H) as (a & c & -> & Ha & Hc).
  destruct Hb as [Hb|Hb]; [|exists (x :: a), c; split_and!; [done|by constructor|done]].
  exists [], (x :: a ++ c). split_and!; [done|done|]. constructor; [done|]. eapply Forall_impl; [exact Hx|]. intros y [Hy _]. pose proof (room_at x). lia.
Qed.

Lemma in_join y b l : y ∈ join b l -> at_ y = at_ b /\ kind y = kind b \/ y ∈ l.
Proof.
  destruct l as [|n l]; cbn [join]; [intros ->%list_elem_of_singleton; by left|]. destruct (touch b n); intros [-> |Hy]%elem_of_cons; [by left|right; by right|by left|by right].
Qed.

Lemma in_paste y a l : y ∈ paste a l -> (exists x, x ∈ a /\ at_ y = at_ x /\ kind y = kind x) \/ y ∈ l.
Proof.
  destruct a as [|p u _] using rev_ind; [by right|]. rewrite paste_snoc, elem_of_app. intros [Hy|[Hy|Hy]%in_join]; [left; exists y; split; [set_solver|done]|left; exists p; split; [set_solver|done]|by right].
Qed.

Lemma touch_units x y : room x <= at_ y -> touch x y = true -> 1 <= units x.
Proof. intros H [_ E%Z.eqb_eq]%andb_prop. unfold room, fin, UNIT in *. lia. Qed.

Lemma merge_ends x y : touch x y = true -> 1 <= units x -> 1 <= units y -> room (merge x y) = room y /\ fin (merge x y) = fin y.
Proof. intros [_ E%Z.eqb_eq]%andb_prop. unfold room, merge, fin, UNIT in *. cbn [at_ units kind]. lia. Qed.

(** The first block of the list is no static header that the block touches. *)
Definition solid (b : blk) (l : list blk) : Prop := match l with n :: _ => touch b n = true -> 1 <= units n | [] => True end.

Lemma join_sorted b l : sorted l -> Forall (fun y => room b <= at_ y) l -> solid b l -> sorted (join b l).
Proof.
  intros Hs Hb Ht. destruct Hs as [|n l Hs Hn]; cbn [join solid] in *; [repeat constructor|].
  apply Forall_cons in Hb as [Hbn Hb]. rewrite Forall_forall in Hn. destruct (touch b n) eqn:E.
  - destruct (merge_ends b n E (touch_units b n Hbn E) (Ht eq_refl)) as [Hr Hf]. constructor; [done|]. apply Forall_forall. intros y Hy. destruct (Hn y Hy) as [G1 G2].
    split; [by rewrite Hr|]. unfold touch in *. rewrite Hf. cbn [merge kind]. apply andb_prop in E as [E%Z.eqb_eq _]. by rewrite E.
  - constructor; [constructor; [done|by apply Forall_forall]|]. constructor; [done|]. apply Forall_forall. intros y Hy. destruct (Hn y Hy) as [G1 _]. pose proof (room_at n). eapply gap_far; [exact Hbn|lia].
Qed.

Lemma paste_sorted a l : sorted a -> sorted l -> (forall x y, x ∈ a -> y ∈ l -> room x <= at_ y) -> (forall x, x ∈ a -> solid x l) -> sorted (paste a l).
Proof.
  destruct a as [|p u _] using rev_ind; [done|]. rewrite paste_snoc. intros (Hu & _ & Hup)%blocks_app Hl Hal Hs. apply blocks_app. split_and!; [done| |].
  - apply join_sorted; [done| |apply Hs; set_solver]. apply Forall_forall. intros y Hy. apply Hal; set_solver.
  - intros x y Hx [[E1 E2]|Hy]%in_join.
    + destruct (Hup x p Hx ltac:(set_solver)) as [G1 G2]. unfold gap, touch in *. by rewrite E1, E2.
    + destruct (Hup x p Hx ltac:(set_solver)) as [G1 _]. eapply gap_far; [exact G1|]. specialize (Hal p y ltac:(set_solver) Hy). pose proof (room_at p). lia.
Qed.

(** A block put back at its place keeps the order. *)
Lemma insert_sorted a b c : sorted (a ++ c) -> 1 <= units b -> Forall (fun x => room x <= at_ b) a -> Forall (fun y => room b <= at_ y) c -> solid b c ->
  sorted (paste a (join b c)).
Proof.
  intros (Ha & Hc & _)%blocks_app Hu Hab Hbc Hs. rewrite Forall_forall in Hab. apply paste_sorted; [done|by apply join_sorted| |].
  - intros x y Hx [[E _]|Hy]%in_join; [rewrite E; by apply Hab|]. rewrite Forall_forall in Hbc. apply Hbc in Hy. apply Hab in Hx. pose proof (room_at b). lia.
  - intros x _. destruct c as [|n c]; cbn [join]; [by cbn [solid]|]. cbn [solid] in Hs. destruct (touch b n) eqn:E; cbn [solid]; intros _; [|done]. specialize (Hs eq_refl). cbn [merge units]. lia.
Qed.

(** ** The ring *)

Section Ring.
Context (m : gmap Z header).

(** [l] is linked from the address [x] on; its last header points to [y]. *)
Fixpoint linked (x : Z) (l : list blk) (y : Z) : Prop :=
  match l with
  | [] => x = y
  | b :: l => x = at_ b /\ exists nx, m !! x = Some (mk_header nx (units b) (kind b)) /\ linked nx l y
  end.

Definition ring (l : list blk) : Prop := match l with [] => False | b :: _ => linked (at_ b) l (at_ b) end.

Lemma linked_app x l1 l2 y : linked x (l1 ++ l2) y <-> exists z, linked x l1 z /\ linked z l2 y.
Proof.
  revert x. induction l1 as [|b l IH]; intros x; cbn [app linked]; [naive_solver|]. split.
  - intros (-> & nx & H1 & (z & H2 & H3)%IH). exists z. eauto 6.
  - intros (z & (-> & nx & H1 & H2) & H3). split; [done|]. exists nx. split; [done|]. apply IH. eauto.
Qed.

Lemma linked_hd x b l y : linked x (b :: l) y -> x = at_ b.
Proof. by intros [H _]. Qed.

(** [l] begins anywhere in the ring. *)
Definition rot (l s : list blk) : Prop := exists u v, l = v ++ u /\ s = u ++ v.

Lemma ring_rotate u v : ring (u ++ v) -> ring (v ++ u).
Proof.
  destruct u as [|b u]; [by rewrite app_nil_r|]. destruct v as [|c v]; [by rewrite app_nil_r|]. unfold ring. cbn [app].
  change (b :: u ++ c :: v) with ((b :: u) ++ c :: v). change (c :: v ++ b :: u) with ((c :: v) ++ b :: u). rewrite !linked_app.
  intros (z & H1 & H2). assert (z = at_ c) as -> by (by apply linked_hd in H2). eauto.
Qed.

Lemma ring_rot l s : rot l s -> ring s <-> ring l.
Proof. intros (u & v & -> & ->). split; apply ring_rotate. Qed.

End Ring.

Lemma linked_frame m m' x l y : linked m x l y -> (forall b, b ∈ l -> m' !! at_ b = m !! at_ b) -> linked m' x l y.
Proof.
  revert x. induction l as [|b l IH]; intros x; [done|]. intros (-> & nx & H1 & H2) H. split; [done|]. exists nx. split; [by rewrite H by (by left)|].
  apply IH; [done|]. intros c Hc. apply H. by right.
Qed.

Lemma ring_frame m m' l : ring m l -> (forall b, b ∈ l -> m' !! at_ b = m !! at_ b) -> ring m' l.
Proof. destruct l; [done|]. apply linked_frame. Qed.

Lemma sorted_lt l x y : sorted (x :: l) -> y ∈ l -> at_ x < at_ y.
Proof. intros [_ H]%StronglySorted_inv Hy. rewrite Forall_forall in H. apply H in Hy as [? _]. pose proof (room_at x). lia. Qed.

Lemma sorted_hd l x y : sorted (x :: l) -> y ∈ x :: l -> at_ x <= at_ y.
Proof. intros Hs [-> |Hy]%elem_of_cons; [done|]. pose proof (sorted_lt _ _ _ Hs Hy). lia. Qed.

(** What follows a block in the ring: the next one, or the first after the last. *)
Lemma ring_succ m s x : sorted s -> ring m s -> x ∈ s -> exists z, z ∈ s /\ m !! at_ x = Some (mk_header (at_ z) (units x) (kind x)) /\
  ((at_ x < at_ z /\ forall y, y ∈ s -> at_ y <= at_ x \/ at_ z <= at_ y) \/
   ((forall y, y ∈ s -> at_ y <= at_ x) /\ forall y, y ∈ s -> at_ z <= at_ y)).
Proof.
  intros Hs Hr (w & v & ->)%list_elem_of_split. pose proof Hs as (_ & Hx & Hw)%blocks_app.
  assert (Hwx : forall y, y ∈ w -> at_ y < at_ x) by (intros y Hy; destruct (Hw y x Hy ltac:(by left)) as [? _]; pose proof (room_at y); lia).
  destruct v as [|z v].
  - assert (Hmax : forall y, y ∈ w ++ [x] -> at_ y <= at_ x) by (intros y [Hy| ->%list_elem_of_singleton]%elem_of_app; [apply Hwx in Hy; lia|done]).
    destruct (w ++ [x]) as [|h s] eqn:E; [done|]. exists h. split; [by left|]. unfold ring in Hr. rewrite <- E in Hr. apply linked_app in Hr as (y & _ & -> & nx & H1 & ->).
    split; [done|]. right. split; [done|]. intros y. by apply sorted_hd.
  - exists z. split; [set_solver|]. assert (Hr' := Hr). apply ring_rotate in Hr'. cbn [app ring linked] in Hr'. destruct Hr' as (_ & nx & H1 & -> & _). split; [done|]. left.
    pose proof (sorted_lt _ _ z Hx ltac:(by left)). split; [done|]. intros y [Hy|[-> |Hy]%elem_of_cons]%elem_of_app; [apply Hwx in Hy; lia|lia|right]. eapply sorted_hd; [|exact Hy].
    by apply StronglySorted_inv in Hx as [? _].
Qed.

Lemma rot_in l s x : rot l s -> x ∈ l <-> x ∈ s.
Proof. intros (u & v & -> & ->). set_solver. Qed.

Lemma rot_nodup l s : rot l s -> NoDup s -> NoDup l.
Proof. intros (u & v & -> & ->). by rewrite (Permutation_app_comm v u). Qed.

(** A block of the ring replaced by others. *)
Lemma rot_replace p x y r s : rot (p ++ x :: y) s -> exists u v, s = u ++ x :: v /\ rot (p ++ r ++ y) (u ++ r ++ v).
Proof.
  intros (u & v & E & ->). symmetry in E. apply app_eq_inv in E as [(t & E1 & E2)|(t & E1 & E2)].
  - destruct t as [|z t].
    + rewrite app_nil_r in E1. subst v. cbn in E2. subst u. exists [], (y ++ p). split; [done|]. exists (r ++ y), p. split; [done|]. cbn. by rewrite <- app_assoc.
    + cbn in E2. injection E2 as <- ->. subst v. exists (u ++ p), t. split; [by rewrite <- app_assoc|]. exists u, (p ++ r ++ t). split; by rewrite <- !app_assoc.
  - subst p u. exists t, (y ++ v). split; [by rewrite <- app_assoc|]. exists (t ++ r ++ y), v. split; by rewrite <- !app_assoc.
Qed.

(** ** The invariant *)

Section Heap.
Context (base : Z).

Definition base_blk : blk := mk_blk base 0 0.

(** The unit at [a] is memory of the type's kind that the program has. *)
Definition unit_ok (s : ustate) (k a : Z) : Prop :=
  if k =? 0 then mm_brk_start s <= a /\ a + UNIT <= mm_brk s
  else exists p n, (p, n) ∈ shared s /\ p <= a /\ a + UNIT <= p + n.

Definition valid (s : ustate) (b : blk) : Prop :=
  1 <= units b /\ forall k, 0 <= k < units b -> unit_ok s (kind b) (at_ b + UNIT * k).

(** The bounds of the address space. *)
Record space_ok (s : ustate) : Prop := {
  sp_base : 0 < base /\ base + UNIT <= mm_brk_start s;
  sp_brk : Vmm.USERBASE <= mm_brk_start s <= mm_brk s /\ mm_brk s <= Vmm.USERTOP;
  sp_align : mm_brk s mod Vmm.PGSIZE = 0;
  sp_shared : forall p n, (p, n) ∈ shared s -> 0 < p /\ p + n <= Vmm.USERTOP
}.

Definition header_of (m : gmap Z header) (b : blk) : Prop := exists nx, m !! at_ b = Some (mk_header nx (units b) (kind b)).

(** [free] are the free blocks in order, [live] those the program holds. *)
Record ring_ok (s : ustate) (free live : list blk) : Prop := {
  h_space : space_ok s;
  h_ring : ring (mem s) free;
  h_sorted : sorted free;
  h_base : base_blk ∈ free;
  h_freep : exists f, f ∈ free /\ freep s = at_ f;
  h_free : forall b, b ∈ free -> b = base_blk \/ valid s b;
  h_live : forall b, b ∈ live -> valid s b /\ header_of (mem s) b /\ Forall (apart b) free;
  h_disjoint : StronglySorted apart live
}.

(** All memory that the kernel gave below its bound is in just one block, and the static
    of [morecore_brk_locked] is that bound once it is set. *)
Definition heap_ok (s : ustate) (free live : list blk) : Prop :=
  ring_ok s free live /\ UNIT * (total 0 free + total 0 live) = mm_brk s - mm_brk_start s /\ (brk s = 0 \/ brk s = mm_brk s).

Lemma valid_bounds s b : space_ok s -> valid s b -> 0 < at_ b /\ fin b <= Vmm.USERTOP /\ (kind b = 0 -> mm_brk_start s <= at_ b /\ fin b <= mm_brk s).
Proof.
  intros Hs [Hu Hv]. pose proof (Hv 0 ltac:(lia)) as H0. pose proof (Hv (units b - 1) ltac:(lia)) as H1. unfold unit_ok in *. destruct Hs as [_ H _ Hsh].
  unfold fin, Vmm.USERBASE, Vmm.USERTOP, UNIT in *. destruct (Z.eqb_spec (kind b) 0); [lia|].
  destruct H0 as (p & n' & Hp & H0), H1 as (q & k & Hq & H1). apply Hsh in Hp, Hq. lia.
Qed.

Lemma unit_mapped s k a : unit_ok s k a -> mapped base s a = true.
Proof.
  unfold unit_ok, mapped. destruct (k =? 0).
  - intros [H1 H2]. apply Z.leb_le in H1, H2. by rewrite H1, H2, orb_true_r.
  - intros (p & n & Hp & H1 & H2). apply orb_true_iff. right. apply existsb_exists. exists (p, n). split; [by apply list_elem_of_In|]. apply Z.leb_le in H1, H2. by rewrite H1, H2.
Qed.

Lemma valid_mapped s b : valid s b -> mapped base s (at_ b) = true.
Proof. intros [Hu Hv]. apply (unit_mapped s (kind b)). replace (at_ b) with (at_ b + UNIT * 0) by lia. apply Hv. lia. Qed.

Lemma base_mapped s : mapped base s base = true.
Proof. unfold mapped. by rewrite Z.eqb_refl. Qed.

Lemma free_mapped s free live b : ring_ok s free live -> b ∈ free -> mapped base s (at_ b) = true.
Proof. intros H [-> |Hb]%(h_free _ _ _ H); [apply base_mapped|by apply valid_mapped]. Qed.

Lemma rd_header s a h : mapped base s a = true -> mem s !! a = Some h -> rd base a s = Ret (h, s).
Proof. intros H E. unfold rd. rewrite bind_get, assert_true by done. by rewrite E. Qed.

Lemma wr_header s f a h : mapped base s a = true -> mem s !! a = Some h -> wr base f a s = Ret (tt, put_mem (<[a := f h]> (mem s)) s).
Proof. intros H E. unfold wr. rewrite bind_get, assert_true by done. by rewrite E. Qed.

Lemma wr_new s f a : mapped base s a = true -> exists h, wr base f a s = Ret (tt, put_mem (<[a := f h]> (mem s)) s).
Proof. intros H. unfold wr. rewrite bind_get, assert_true by done. by eexists. Qed.

(** ** Finding the place *)

Definition stop (bp p nx : Z) : bool := (p <? bp) && (bp <? nx) || (nx <=? p) && ((p <? bp) || (bp <? nx)).

(** [p] is the block before the address [bp]: the last below it, or the last of all. *)
Definition before (free : list blk) (bp : Z) (p : blk) : Prop :=
  p ∈ free /\ (at_ p < bp /\ (forall y, y ∈ free -> at_ y <= at_ p \/ bp < at_ y) \/
               (forall y, y ∈ free -> bp < at_ y) /\ forall y, y ∈ free -> at_ y <= at_ p).

Lemma stop_before m free bp p x : sorted free -> ring m free -> before free bp p -> x ∈ free ->
  exists z, m !! at_ x = Some (mk_header (at_ z) (units x) (kind x)) /\ stop bp (at_ x) (at_ z) = (at_ x =? at_ p).
Proof.
  intros Hs Hr [Hp Hb] Hx. destruct (ring_succ m free x Hs Hr Hx) as (z & Hz & E & Ho). exists z. split; [done|]. unfold stop.
  destruct Hb as [[Hb1 Hb2]|[Hb1 Hb2]]; [pose proof (Hb2 x Hx); pose proof (Hb2 z Hz)|pose proof (Hb1 x Hx); pose proof (Hb1 z Hz); pose proof (Hb2 x Hx); pose proof (Hb2 z Hz)];
    (destruct Ho as [[Ho1 Ho2]|[Ho1 Ho2]]; [pose proof (Ho2 p Hp)|pose proof (Ho1 p Hp); pose proof (Ho2 p Hp)]); repeat case_bool; cbn; lia.
Qed.

Lemma find_gap_walk s bp p l : forall fuel x y, linked (mem s) x (l ++ [p]) y -> (length l < fuel)%nat ->
  (forall b, b ∈ l ++ [p] -> mapped base s (at_ b) = true /\ exists nx, mem s !! at_ b = Some (mk_header nx (units b) (kind b)) /\ stop bp (at_ b) nx = (at_ b =? at_ p)) ->
  (forall b, b ∈ l -> at_ b <> at_ p) -> find_gap base fuel bp x s = Ret (at_ p, s).
Proof.
  induction l as [|b l IH]; intros [|fuel] x y Hl Hf Hb Hp; cbn [length] in Hf; try lia; cbn [app find_gap linked] in *.
  - destruct Hl as (-> & nx & E & _). destruct (Hb p ltac:(by left)) as (Hm & nx' & E' & Hs). rewrite E in E'. injection E' as <-. rewrite (bind_step _ _ _ _ _ (rd_header _ _ _ Hm E)). cbn [ptr].
    rewrite Z.eqb_refl in Hs. unfold stop in Hs. destruct ((at_ p <? bp) && _); [done|]. cbn [orb] in Hs. by rewrite Hs.
  - destruct Hl as (-> & nx & E & Hl). destruct (Hb b ltac:(by left)) as (Hm & nx' & E' & Hs). rewrite E in E'. injection E' as <-. rewrite (bind_step _ _ _ _ _ (rd_header _ _ _ Hm E)). cbn [ptr].
    rewrite (proj2 (Z.eqb_neq (at_ b) (at_ p))) in Hs by (apply Hp; by left). unfold stop in Hs. apply orb_false_iff in Hs as [-> ->].
    apply (IH fuel nx y Hl ltac:(lia)); [intros c Hc; apply Hb; by right|intros c Hc; apply Hp; by right].
Qed.

Lemma rot_to free f : f ∈ free -> exists r, rot (f :: r) free.
Proof. intros (u & v & ->)%list_elem_of_split. exists (v ++ u), u, (f :: v). done. Qed.

Lemma find_gap_run s free live bp p fuel : ring_ok s free live -> before free bp p -> (length free <= fuel)%nat -> find_gap base fuel bp (freep s) s = Ret (at_ p, s).
Proof.
  intros H Hp Hf. destruct (h_freep _ _ _ H) as (f & Hin & ->). destruct (rot_to _ _ Hin) as [r Hr]. pose proof (proj1 (ring_rot _ _ _ Hr) (h_ring _ _ _ H)) as Hring.
  assert (Hpl : p ∈ f :: r) by (rewrite (rot_in _ _ _ Hr); by destruct Hp). assert (Hlen : length (f :: r) = length free).
  { destruct Hr as (u & v & -> & ->). rewrite !length_app. lia. }
  apply list_elem_of_split_l in Hpl as (l & k & E & Hnl). pose proof (blocks_nodup _ (h_sorted _ _ _ H)) as Hnd.
  assert (Hsub : forall b, b ∈ l ++ [p] -> b ∈ free). { intros b Hb. rewrite <- (rot_in _ _ _ Hr), E. set_solver. }
  unfold ring in Hring. rewrite E in Hring, Hlen. replace (l ++ p :: k) with ((l ++ [p]) ++ k) in Hring, Hlen by (by rewrite <- app_assoc). apply linked_app in Hring as (y & Hl & _).
  rewrite !length_app in Hlen. cbn [length] in Hlen. eapply find_gap_walk; [exact Hl|lia| |].
  - intros b Hb. split; [eapply free_mapped; [exact H|auto]|]. destruct (stop_before _ _ bp p b (h_sorted _ _ _ H) (h_ring _ _ _ H) Hp ltac:(auto)) as (z & E1 & E2). eauto.
  - intros b Hb Eb. assert (b = p); [|subst; done]. apply (sorted_at free); [apply H|apply Hsub; set_solver|apply Hp|done].
Qed.

(** ** Joining with the neighbours *)

Lemma join_cons b l : exists b1 l1, join b l = b1 :: l1 /\ at_ b1 = at_ b /\ kind b1 = kind b.
Proof. destruct l as [|n l]; cbn [join]; [by exists b, []|]. destruct (touch b n); [by exists (merge b n), l|by exists b, (n :: l)]. Qed.

Definition loose (b : blk) (l : list blk) : Prop := match l with n :: _ => touch b n = false | [] => True end.

Lemma join_app b l l' : l <> [] \/ loose b l' -> join b (l ++ l') = join b l ++ l'.
Proof. destruct l as [|n l]; cbn [app join]; [|by destruct (touch b n)]. intros [|H]; [done|]. destruct l' as [|n l']; [done|]. cbn [join loose app] in *. by rewrite H. Qed.

Lemma plus_fin b : 0 <= at_ b -> 0 <= units b -> fin b <= Vmm.USERTOP -> plus (at_ b) (units b) = fin b.
Proof. intros H0 Hu H. unfold plus, fin, UNIT, Vmm.USERTOP in *. apply u32_small. unfold is_u32. lia. Qed.

Lemma linked_insert m x l y a h : (forall b, b ∈ l -> at_ b <> a) -> linked m x l y -> linked (<[a := h]> m) x l y.
Proof. intros H Hl. eapply linked_frame; [exact Hl|]. intros b Hb. apply lookup_insert_ne. intros E. by apply (H b Hb). Qed.

Lemma put_mem_same s m m' : put_mem m' (put_mem m s) = put_mem m' s.
Proof. done. Qed.

Section Join.
Context (s : ustate) (b p : blk) (nb nx : Z) (r : list blk).
Context (Hmb : mapped base s (at_ b) = true) (Hmp : mapped base s (at_ p) = true).
Context (Hmr : forall n, n ∈ r -> mapped base s (at_ n) = true).
Context (Hb : mem s !! at_ b = Some (mk_header nb (units b) (kind b))) (Hp : mem s !! at_ p = Some (mk_header nx (units p) (kind p))).
Context (Hr : linked (mem s) nx r (at_ p)) (Hne : forall n, n ∈ p :: r -> at_ n <> at_ b).
Context (Hfb : 0 <= at_ b /\ 0 <= units b /\ fin b <= Vmm.USERTOP) (Hnp : r = [] -> touch b p = false).
Context (Hsum : forall n, n ∈ r -> touch b n = true -> 0 <= units b + units n < 2 ^ 32).

Lemma join_next_run : exists m, join_next base (at_ b) (at_ p) s = Ret (tt, put_mem m s) /\
  (forall a, a <> at_ b -> m !! a = mem s !! a) /\ linked m (at_ b) (join b r) (at_ p).
Proof using Hmb Hmp Hmr Hb Hp Hr Hne Hfb Hnp Hsum.
  assert (Hpb : at_ p <> at_ b) by (apply Hne; by left).
  assert (exists n nn, mapped base s nx = true /\ mem s !! nx = Some (mk_header nn (units n) (kind n)) /\ nx = at_ n /\
    (r = [] /\ n = p \/ exists r', r = n :: r' /\ linked (mem s) nn r' (at_ p))) as (n & nn & Hmn & En & -> & Hn).
  { destruct r as [|n r']; cbn [linked] in Hr; [subst nx; exists p, (at_ p); eauto 6|]. destruct Hr as (-> & nn & En & Hr'). exists n, nn. split; [apply Hmr; by left|]. eauto 7. }
  assert (Hnb : at_ n <> at_ b) by (destruct Hn as [[_ ->]|(r' & -> & _)]; apply Hne; [by left|right; by left]).
  unfold join_next. rewrite (bind_step _ _ _ _ _ (rd_header _ _ _ Hmb Hb)), (bind_step _ _ _ _ _ (rd_header _ _ _ Hmp Hp)). cbn [ptr].
  rewrite (bind_step _ _ _ _ _ (rd_header _ _ _ Hmn En)). cbn [type size]. rewrite plus_fin by (destruct Hfb; tauto). change ((kind b =? kind n) && (fin b =? at_ n)) with (touch b n).
  destruct (touch b n) eqn:Et.
  - destruct Hn as [[-> ->]|(r' & -> & Hr')]; [by rewrite Hnp in Et|]. cbn [join]. rewrite Et.
    rewrite (bind_step _ _ _ _ _ (wr_header s _ _ _ Hmb Hb)).
    rewrite (bind_step _ _ _ _ _ (rd_header (put_mem _ s) _ _ Hmp (eq_trans (lookup_insert_ne _ _ _ _ (not_eq_sym Hpb)) Hp))). cbn [ptr].
    rewrite (bind_step _ _ _ _ _ (rd_header (put_mem _ s) _ _ Hmn (eq_trans (lookup_insert_ne _ _ _ _ (not_eq_sym Hnb)) En))). cbn [ptr].
    rewrite (wr_header (put_mem _ s) _ _ _ Hmb (lookup_insert_eq _ _ _)), put_mem_same. eexists. split; [done|]. cbn [mem put_mem]. rewrite insert_insert_eq. split; [intros a Ha; by rewrite lookup_insert_ne|].
    split; [done|]. exists nn. split; [|apply linked_insert; [intros c Hc; apply Hne; right; by right|done]].
    rewrite lookup_insert_eq. unfold set_ptr, set_size, merge. cbn [ptr size type at_ units kind]. rewrite u32_small; [done|]. apply Hsum; [by left|done].
  - rewrite (wr_header s _ _ _ Hmb Hb). eexists. split; [done|]. split; [intros a Ha; by rewrite lookup_insert_ne|].
    assert (join b r = b :: r) as ->. { destruct Hn as [[-> ->]|(r' & -> & Hr')]; [done|]. cbn [join]. by rewrite Et. }
    split; [done|]. exists (at_ n). split; [by rewrite lookup_insert_eq|]. apply linked_insert; [intros c Hc; apply Hne; by right|done].
Qed.

End Join.

Lemma join_prev_run s b p nx l : mapped base s (at_ b) = true -> mapped base s (at_ p) = true -> mem s !! at_ p = Some (mk_header nx (units p) (kind p)) ->
  linked (mem s) (at_ b) (b :: l) (at_ p) -> (forall n, n ∈ b :: l -> at_ n <> at_ p) -> 0 <= at_ p -> 0 <= units p -> fin p <= Vmm.USERTOP ->
  (touch p b = true -> 0 <= units p + units b < 2 ^ 32) ->
  exists m, join_prev base (at_ b) (at_ p) s = Ret (tt, put_mem m s) /\ (forall a, a <> at_ p -> m !! a = mem s !! a) /\ linked m (at_ p) (join p (b :: l)) (at_ p).
Proof.
  intros Hmb Hmp Hp (_ & nb & Hb & Hl) Hne Ha Hu Hf Hs. assert (Hbp : at_ b <> at_ p) by (apply Hne; by left). unfold join_prev.
  rewrite (bind_step _ _ _ _ _ (rd_header _ _ _ Hmp Hp)), (bind_step _ _ _ _ _ (rd_header _ _ _ Hmb Hb)). cbn [type size]. rewrite plus_fin by done.
  change ((kind p =? kind b) && (fin p =? at_ b)) with (touch p b). cbn [join]. destruct (touch p b) eqn:Et.
  - rewrite (bind_step _ _ _ _ _ (wr_header s _ _ _ Hmp Hp)). rewrite (bind_step _ _ _ _ _ (rd_header (put_mem _ s) _ _ Hmb (eq_trans (lookup_insert_ne _ _ _ _ (not_eq_sym Hbp)) Hb))). cbn [ptr].
    rewrite (wr_header (put_mem _ s) _ _ _ Hmp (lookup_insert_eq _ _ _)), put_mem_same. eexists. split; [done|]. cbn [mem put_mem]. rewrite insert_insert_eq. split; [intros a Hna; by rewrite lookup_insert_ne|].
    split; [done|]. exists nb. split; [|apply linked_insert; [intros c Hc; apply Hne; by right|done]]. rewrite lookup_insert_eq. unfold set_ptr, set_size, merge. cbn. rewrite u32_small; [done|]. by apply Hs.
  - rewrite (wr_header s _ _ _ Hmp Hp). eexists. split; [done|]. split; [intros a Hna; by rewrite lookup_insert_ne|]. split; [done|]. exists (at_ b). split; [by rewrite lookup_insert_eq|].
    apply linked_insert; [done|]. split; [done|]. by exists nb.
Qed.

(** ** What holds of every block after a join *)

Lemma join_all (P : blk -> Prop) b l : P b -> (forall y, y ∈ l -> P y) -> (forall n, n ∈ l -> touch b n = true -> P (merge b n)) -> forall y, y ∈ join b l -> P y.
Proof.
  intros Hb Hl Hm y. destruct l as [|n l]; cbn [join]; [by intros ->%list_elem_of_singleton|]. destruct (touch b n) eqn:E; intros [-> |Hy]%elem_of_cons; [apply Hm; [by left|done]|apply Hl; by right|done|by apply Hl].
Qed.

Lemma paste_all (P : blk -> Prop) a l : (forall y, y ∈ a -> P y) -> (forall y, y ∈ l -> P y) -> (forall p n, p ∈ a -> n ∈ l -> touch p n = true -> P (merge p n)) ->
  forall y, y ∈ paste a l -> P y.
Proof.
  intros Ha Hl Hm y. destruct a as [|p u _] using rev_ind; [apply Hl|]. rewrite paste_snoc. intros [Hy|Hy]%elem_of_app; [apply Ha; set_solver|].
  revert y Hy. apply join_all; [apply Ha; set_solver|done|]. intros n Hn. apply Hm; [set_solver|done].
Qed.

Lemma join_keep x b l : x ∈ l -> touch b x = false -> x ∈ join b l.
Proof. destruct l as [|n l]; [by intros ?%not_elem_of_nil|]. cbn [join]. intros Hx Ht. destruct (touch b n) eqn:E; [|by right]. apply elem_of_cons in Hx as [-> |Hx]; [by rewrite Ht in E|by right]. Qed.

Lemma paste_keep_l x a l : x ∈ a -> (forall n, n ∈ l -> touch x n = false) -> x ∈ paste a l.
Proof.
  intros Hx Ht. destruct a as [|p u _] using rev_ind; [by apply not_elem_of_nil in Hx|]. rewrite paste_snoc. apply elem_of_app. apply elem_of_app in Hx as [Hx| ->%list_elem_of_singleton]; [by left|right].
  destruct l as [|n l]; cbn [join]; [by left|]. rewrite Ht by (by left). by left.
Qed.

Lemma paste_keep_r x a l : x ∈ l -> (forall p, p ∈ a -> touch p x = false) -> x ∈ paste a l.
Proof. intros Hx Ht. destruct a as [|p u _] using rev_ind; [done|]. rewrite paste_snoc. apply elem_of_app. right. apply join_keep; [done|]. apply Ht. set_solver. Qed.

Lemma valid_merge s x y : valid s x -> valid s y -> touch x y = true -> valid s (merge x y).
Proof.
  intros [Hx1 Hx2] [Hy1 Hy2] [Ek%Z.eqb_eq Ef%Z.eqb_eq]%andb_prop. unfold merge, valid, fin in *. cbn [units at_ kind]. split; [lia|]. intros k Hk.
  destruct (decide (k < units x)); [apply Hx2; lia|]. rewrite Ek. replace (at_ x + UNIT * k) with (at_ y + UNIT * (k - units x)) by lia. apply Hy2. lia.
Qed.

Lemma apart_merge x b n : apart x b -> apart x n -> touch b n = true -> 1 <= units b -> 1 <= units n -> apart x (merge b n).
Proof.
  intros H1 H2 Ht Hb Hn. destruct (merge_ends b n Ht Hb Hn) as [Hr _]. unfold apart. rewrite Hr. cbn [merge at_]. apply andb_prop in Ht as [_ Ef%Z.eqb_eq].
  pose proof (room_at x). unfold apart, room, fin, UNIT in *. lia.
Qed.

Lemma base_loose s b : space_ok s -> valid s b -> touch b base_blk = false.
Proof.
  intros Hs Hv. destruct (valid_bounds s b Hs Hv) as (_ & _ & H). destruct (sp_base _ Hs). destruct Hv as [Hu _]. unfold touch. destruct (Z.eqb_spec (kind b) 0) as [E|E]; cbn [base_blk kind at_]; [|by rewrite (proj2 (Z.eqb_neq _ _) E)].
  apply andb_false_iff. right. apply Z.eqb_neq. specialize (H E). unfold fin, UNIT in *. lia.
Qed.

Lemma base_touches_none b : room base_blk <= at_ b -> touch base_blk b = false.
Proof. intros H. unfold touch. apply andb_false_iff. right. apply Z.eqb_neq. unfold room, fin, base_blk, UNIT in *. cbn [at_ units] in *. lia. Qed.

(** ** Giving back a block *)

Lemma free_bounds s free live y : ring_ok s free live -> y ∈ free -> 0 < at_ y /\ 0 <= units y /\ fin y <= Vmm.USERTOP.
Proof.
  intros H Hy. pose proof (h_space _ _ _ H) as Hs. destruct (h_free _ _ _ H y Hy) as [-> |Hv].
  - destruct Hs as [Hb Hk _ _]. unfold fin, base_blk, UNIT in *. cbn [at_ units]. lia.
  - destruct (valid_bounds _ _ Hs Hv) as (H1 & H2 & _). destruct Hv as [Hu _]. lia.
Qed.

Section Free.
Context (s : ustate) (free live a c : list blk) (b : blk).
Context (H : ring_ok s free live) (Hv : valid s b) (Hh : header_of (mem s) b) (E : free = a ++ c).
Context (Ha : Forall (fun x => room x <= at_ b) a) (Hc : Forall (fun y => room b <= at_ y) c).

Lemma touched_valid y : y ∈ free -> touch b y = true -> valid s y.
Proof using H Hv. intros Hy Ht. destruct (h_free _ _ _ H y Hy) as [-> |Hy']; [|done]. by rewrite (base_loose s b (h_space _ _ _ H) Hv) in Ht. Qed.

Lemma free_not_at y : y ∈ free -> at_ y <> at_ b.
Proof using E Ha Hc. rewrite E. rewrite Forall_forall in Ha, Hc. intros [Hy|Hy]%elem_of_app; [apply Ha in Hy|apply Hc in Hy]; pose proof (room_at y); pose proof (room_at b); lia. Qed.

Lemma free_place : exists p r, before free (at_ b) p /\ rot (p :: r) free /\ rot (join p (join b r)) (paste a (join b c)) /\ (r = [] -> touch b p = false).
Proof using H Hv Hh E Ha Hc.
  pose proof (h_sorted _ _ _ H) as Hs. pose proof (h_base _ _ _ H) as Hbase. pose proof (base_loose s b (h_space _ _ _ H) Hv) as Hbl. rewrite Forall_forall in Ha, Hc. pose proof (room_at b) as Hrb.
  subst free. destruct a as [|p u _] using rev_ind; cbn [app] in *.
  - destruct c as [|p u _] using rev_ind; [by apply not_elem_of_nil in Hbase|]. exists p, u. apply blocks_app in Hs as (_ & _ & Hup).
    assert (Hu : forall y, y ∈ u -> at_ y <= at_ p) by (intros y Hy; destruct (Hup y p Hy ltac:(by left)); pose proof (room_at y); lia).
    assert (Hp : u = [] -> touch b p = false) by (intros ->; apply list_elem_of_singleton in Hbase as <-; done).
    split_and!; [|exists u, [p]; done| |done].
    + split; [set_solver|]. right. split; [intros y Hy; apply Hc in Hy; lia|]. intros y [Hy| ->%list_elem_of_singleton]%elem_of_app; [auto|done].
    + cbn [paste]. rewrite join_app by (destruct u; [right; by apply Hp|by left]). destruct (join_cons b u) as (b1 & l1 & -> & E1 & _).
      assert (Ht : touch p b1 = false). { unfold touch. apply andb_false_iff. right. apply Z.eqb_neq. rewrite E1. pose proof (Hc p ltac:(set_solver)). destruct (free_bounds _ _ _ p H ltac:(set_solver)). unfold fin, UNIT. lia. }
      cbn [join]. rewrite Ht. by exists (b1 :: l1), [p].
  - exists p, (c ++ u). rewrite <- app_assoc in *. cbn [app] in *. apply blocks_app in Hs as (_ & Hpc & Hup). pose proof (Ha p ltac:(set_solver)). pose proof (room_at p).
    assert (Hu : forall y, y ∈ u -> at_ y < at_ p) by (intros y Hy; destruct (Hup y p Hy ltac:(by left)); pose proof (room_at y); lia).
    split_and!; [|exists u, (p :: c); done| |].
    + split; [set_solver|]. left. split; [lia|]. intros y [Hy|[-> |Hy]%elem_of_cons]%elem_of_app; [apply Hu in Hy; lia|by left|apply Hc in Hy; lia].
    + rewrite paste_snoc, (join_app b c u).
      * destruct (join_cons b c) as (b1 & l1 & Ej & _). rewrite join_app by (left; by rewrite Ej). by exists u, (join p (join b c)).
      * destruct c as [|n c']; [right|by left]. destruct u as [|x u']; [done|]. cbn [loose]. unfold touch. apply andb_false_iff. right. apply Z.eqb_neq.
        pose proof (Hu x ltac:(by left)). destruct Hv as [Hu1 _]. unfold fin, UNIT. lia.
    + intros [-> ->]%app_nil. apply list_elem_of_singleton in Hbase as <-. done.
Qed.

Lemma free_locked_run fuel : (length free <= fuel)%nat -> exists p m, free_locked base fuel (at_ b + UNIT) s = Ret (tt, put_freep (at_ p) (put_mem m s)) /\
  before free (at_ b) p /\ ring m (paste a (join b c)) /\ (exists f, f ∈ paste a (join b c) /\ at_ p = at_ f) /\
  forall x, x <> at_ b -> x <> at_ p -> m !! x = mem s !! x.
Proof using H Hv Hh E Ha Hc.
  intros Hf. destruct free_place as (p & r & Hp & Hrot & Hnew & Hnp). pose proof (h_space _ _ _ H) as Hs. destruct (valid_bounds s b Hs Hv) as (Hb0 & Hbf & _). destruct Hh as [nb Eb].
  assert (Hin : forall n, n ∈ p :: r -> n ∈ free) by (intros n; by rewrite (rot_in _ _ _ Hrot)).
  assert (Hpin : p ∈ free) by (apply Hin; by left). pose proof (valid_mapped s b Hv) as Hmb. pose proof (free_mapped s free live p H Hpin) as Hmp.
  destruct (proj1 (ring_rot _ _ _ Hrot) (h_ring _ _ _ H)) as (_ & nx & Ep & Hl).
  destruct (join_next_run s b p nb nx r) as (m1 & R1 & F1 & L1); try done.
  { intros n Hn. apply (free_mapped s free live); [done|]. apply Hin. by right. }
  { intros n Hn. by apply free_not_at, Hin. }
  { destruct Hv as [Hu _]. lia. }
  { intros n Hn Ht. pose proof (touched_valid n (Hin n ltac:(by right)) Ht) as Hvn. destruct (valid_bounds s n Hs Hvn) as (_ & Hnf & _). apply andb_prop in Ht as [_ Et%Z.eqb_eq].
    destruct Hv as [Hu _], Hvn as [Hun _]. unfold fin, UNIT, Vmm.USERTOP in *. lia. }
  destruct (join_cons b r) as (b1 & l1 & Ej & E1 & _). destruct (free_bounds _ _ _ p H Hpin) as (Hp0 & Hpu & Hpf).
  assert (Hb1 : valid s b1 /\ forall n, n ∈ l1 -> at_ n <> at_ p).
  { assert (Hall : forall y, y ∈ join b r -> y = base_blk \/ valid s y).
    { apply join_all; [by right|intros y Hy; apply (h_free _ _ _ H), Hin; by right|]. intros n Hn Ht. right. apply valid_merge; [done| |done]. apply touched_valid; [apply Hin; by right|done]. }
    assert (Hl1 : forall n, n ∈ l1 -> n ∈ r). { intros n Hn. destruct r as [|x r']; cbn [join] in Ej; [by injection Ej as <- <-|]. destruct (touch b x); injection Ej as <- <-; [by right|done]. }
    split; [destruct (Hall b1) as [-> |]; [rewrite Ej; by left| |done]|].
    - exfalso. apply (free_not_at base_blk); [apply H|by rewrite <- E1].
    - intros n Hn En. pose proof (blocks_nodup _ (h_sorted _ _ _ H)) as Hnd. assert (n = p) as -> by (apply (sorted_at free); [apply H|apply Hin; right; auto|done|done]).
      apply (rot_nodup _ _ Hrot), NoDup_cons in Hnd as [Hnp' _]. apply Hnp'. auto. }
  destruct Hb1 as [Hvb1 Hl1]. rewrite Ej in L1.
  destruct (join_prev_run (put_mem m1 s) b1 p nx l1) as (m2 & R2 & F2 & L2).
  { by rewrite E1. }
  { done. }
  { cbn [mem put_mem]. rewrite F1; [done|]. by apply free_not_at. }
  { by rewrite E1. }
  { intros n [-> |Hn]%elem_of_cons; [rewrite E1; intros En; by apply (free_not_at p)|auto]. }
  1-3: lia.
  { intros Ht. destruct (valid_bounds s b1 Hs Hvb1) as (_ & Hf1 & _). destruct Hvb1 as [Hu1 _]. apply andb_prop in Ht as [_ Et%Z.eqb_eq]. unfold fin, UNIT, Vmm.USERTOP in *. lia. }
  exists p, m2. split; [|split; [done|split; [|split]]].
  - unfold free_locked. rewrite u32_small by (unfold is_u32, fin, Vmm.USERTOP, UNIT in *; destruct Hv as [Hu _]; lia). replace (at_ b + UNIT - UNIT) with (at_ b) by lia. rewrite bind_get.
    rewrite (bind_step _ _ _ _ _ (find_gap_run s free live (at_ b) p fuel H Hp Hf)), (bind_step _ _ _ _ _ R1). rewrite E1 in R2. by rewrite (bind_step _ _ _ _ _ R2).
  - rewrite (ring_rot _ _ _ Hnew), Ej. destruct (join_cons p (b1 :: l1)) as (p1 & k & Ek & E2 & _). unfold ring. rewrite Ek in L2 |- *. by rewrite E2.
  - destruct (join_cons p (join b r)) as (p1 & k & Ek & E2 & _). exists p1. split; [|done]. rewrite <- (rot_in _ _ _ Hnew), Ek. by left.
  - intros x Hxb Hxp. rewrite F2 by done. cbn. by apply F1.
Qed.

(** The invariant after it, when no block in use overlaps the one given back. *)
Lemma free_insert_ok p m : (forall x, x ∈ live -> apart x b) -> before free (at_ b) p -> ring m (paste a (join b c)) -> (exists f, f ∈ paste a (join b c) /\ at_ p = at_ f) ->
  (forall x, x <> at_ b -> x <> at_ p -> m !! x = mem s !! x) -> ring_ok (put_freep (at_ p) (put_mem m s)) (paste a (join b c)) live.
Proof using H Hv Hh E Ha Hc.
  intros Hl Hp Hr Hf Hm. pose proof (h_space _ _ _ H) as Hs. pose proof (h_sorted _ _ _ H) as Hso. pose proof Hv as [Hu _]. rewrite Forall_forall in Ha, Hc.
  assert (Hca : forall y, y ∈ c -> y ∈ free) by (subst free; set_solver). assert (Haa : forall y, y ∈ a -> y ∈ free) by (subst free; set_solver).
  assert (Hat : forall x y, x ∈ a -> y ∈ join b c -> room x <= at_ y).
  { intros x y Hx [[Ey _]|Hy]%in_join; [rewrite Ey; auto|]. apply Hc in Hy. apply Ha in Hx. pose proof (room_at b). lia. }
  assert (Hjv : forall y, y ∈ join b c -> y = base_blk \/ valid s y).
  { apply join_all; [by right|intros y Hy; apply (h_free _ _ _ H); auto|]. intros n Hn Ht. right. apply valid_merge; [done|apply touched_valid; auto|done]. }
  assert (Hnb : forall x n, x ∈ a -> n ∈ join b c -> touch x n = true -> valid s x /\ valid s n).
  { intros x n Hx Hn Ht. assert (Hx' : valid s x). { destruct (h_free _ _ _ H x) as [-> |]; [auto| |done]. by rewrite base_touches_none in Ht by auto. }
    split; [done|]. destruct (Hjv n Hn) as [-> |]; [|done]. by rewrite (base_loose s x Hs Hx') in Ht. }
  split; cbn [mem freep put_freep put_mem]; try done.
  - by destruct Hs.
  - rewrite E in Hso. apply insert_sorted; [done|done|by apply Forall_forall|by apply Forall_forall|]. destruct c as [|n c']; [done|]. cbn [solid]. intros Ht. apply (touched_valid n); [apply Hca; by left|done].
  - pose proof (h_base _ _ _ H) as Hb. rewrite E in Hb, Hso. apply blocks_app in Hso as (_ & _ & Hac). apply elem_of_app in Hb as [Hb|Hb].
    + apply paste_keep_l; [done|]. intros n Hn. apply base_touches_none. auto.
    + apply paste_keep_r; [|intros x Hx; by apply Hac]. apply join_keep; [done|]. by apply (base_loose s).
  - apply paste_all; [intros y Hy; apply (h_free _ _ _ H); auto|done|]. intros x n Hx Hn Ht. destruct (Hnb x n Hx Hn Ht). right. by apply valid_merge.
  - intros x Hx. destruct (h_live _ _ _ H x Hx) as (Hxv & [nx Ex] & Hxa). rewrite Forall_forall in Hxa. split_and!; [done| |].
    + exists nx. rewrite Hm; [done| |].
      * pose proof (Hl x Hx). unfold apart in *. pose proof (room_at x). pose proof (room_at b). lia.
      * destruct Hp as [Hp _]. pose proof (Hxa p Hp). unfold apart in *. pose proof (room_at x). pose proof (room_at p). lia.
    + assert (Hja : forall y, y ∈ join b c -> apart x y).
      { apply join_all; [auto|auto|]. intros n Hn Ht. apply apart_merge; auto. by apply touched_valid; auto. }
      apply Forall_forall. apply paste_all; [auto|auto|]. intros y n Hy Hn Ht. destruct (Hnb y n Hy Hn Ht) as [[Hy1 _] [Hn1 _]]. apply apart_merge; auto.
  - by destruct H.
Qed.

End Free.

(** [free_locked] of a block that the program holds. *)
Lemma free_live_run s free l1 b l2 fuel : heap_ok s free (l1 ++ b :: l2) -> (length free <= fuel)%nat ->
  exists s' free', free_locked base fuel (at_ b + UNIT) s = Ret (tt, s') /\ heap_ok s' free' (l1 ++ l2) /\
    exists a c, free = a ++ c /\ free' = paste a (join b c) /\ Forall (fun x => room x <= at_ b) a /\ Forall (fun y => room b <= at_ y) c.
Proof.
  intros (H & Ht & Hk) Hf. destruct (h_live _ _ _ H b ltac:(set_solver)) as (Hv & Hh & Hap). destruct (place free b (h_sorted _ _ _ H) Hap) as (a & c & E & Ha & Hc).
  pose proof (h_disjoint _ _ _ H) as (Hd1 & [Hd2 Hdb]%StronglySorted_inv & Hd)%blocks_app. rewrite Forall_forall in Hdb.
  assert (H' : ring_ok s free (l1 ++ l2)).
  { destruct H as [? ? ? ? ? ? Hl _]. split; try done; [intros x Hx; apply Hl; set_solver|]. apply blocks_app. split_and!; [done..|]. intros x y Hx Hy. apply Hd; [done|by right]. }
  destruct (free_locked_run s free (l1 ++ l2) a c b H' Hv Hh E Ha Hc fuel Hf) as (p & m & R & Hp & Hr & Hfp & Hm).
  eexists _, _. split; [exact R|]. split; [|by exists a, c]. split_and!; [| |done].
  - apply free_insert_ok with free; try done. intros x [Hx|Hx]%elem_of_app; [apply Hd; [done|by left]|]. apply Hdb in Hx. unfold apart in *. lia.
  - rewrite total_paste, total_join. rewrite E, !total_app in Ht. rewrite total_app. cbn [total mm_brk mm_brk_start put_freep put_mem] in *. lia.
Qed.

End Heap.
End UMallocInv.

(** * Taking blocks: the loop of user programs' [malloc]

    What [take_block] cuts off, the walk around the ring, and the memory that
    [morecore_brk_locked] adds to it. *)


Module UMallocTake.
Import UMalloc UMallocInv.

Section Take.
Context (base : Z).
Abbreviation ring_ok := (ring_ok base).
Abbreviation heap_ok := (heap_ok base).

(** ** What is cut off a block *)

(** The part of [x] that goes to the program, and what stays free. *)
Definition cut (nu : Z) (x : blk) : blk := mk_blk (at_ x) nu (kind x).
Definition rest (nu : Z) (x : blk) : list blk :=
  if units x =? nu then [] else [mk_blk (at_ x + UNIT * nu) (units x - nu) (kind x)].

Lemma rest_in nu x y : 1 <= nu <= units x -> y ∈ rest nu x -> at_ y = at_ x + UNIT * nu /\ kind y = kind x /\ fin y = fin x /\ room y = room x /\ 1 <= units y < units x.
Proof.
  intros Hn. unfold rest. destruct (Z.eqb_spec (units x) nu); [by intros ?%not_elem_of_nil|]. intros ->%list_elem_of_singleton. unfold fin, room, UNIT. cbn [at_ units kind]. lia.
Qed.

Lemma rest_valid s nu x y : valid s x -> 1 <= nu <= units x -> y ∈ rest nu x -> valid s y.
Proof.
  intros [Hu Hv] Hn Hy. destruct (rest_in nu x y Hn Hy) as (E1 & E2 & E3 & _ & E4). split; [lia|]. intros k Hk. rewrite E1, E2. replace (at_ x + UNIT * nu + UNIT * k) with (at_ x + UNIT * (nu + k)) by lia.
  apply Hv. unfold fin, UNIT in *. lia.
Qed.

Lemma cut_valid s nu x : valid s x -> 1 <= nu <= units x -> valid s (cut nu x).
Proof. intros [Hu Hv] Hn. split; cbn [cut units at_ kind]; [lia|]. intros k Hk. apply Hv. lia. Qed.

Lemma apart_sub x y z : apart x y -> at_ y <= at_ z -> room z <= room y -> apart x z.
Proof. unfold apart. lia. Qed.

Lemma cut_room nu x : 1 <= nu <= units x -> room (cut nu x) = at_ x + UNIT * nu /\ room (cut nu x) <= room x.
Proof. unfold room, cut, UNIT. cbn [at_ units]. lia. Qed.

Lemma total_rest k nu x : total k (rest nu x) = if kind x =? k then units x - nu else 0.
Proof. unfold rest. destruct (Z.eqb_spec (units x) nu); cbn [total kind units]; destruct (kind x =? k); lia. Qed.

(** The order after [x] has been replaced by what is left of it. *)
Lemma rest_sorted nu u x v : 1 <= nu <= units x -> sorted (u ++ x :: v) -> sorted (u ++ rest nu x ++ v).
Proof.
  intros Hn (Hu & [Hv Hx]%StronglySorted_inv & Huv)%blocks_app. rewrite Forall_forall in Hx. apply blocks_app. split_and!; [done| |].
  - apply blocks_app. split_and!; [unfold rest; destruct (_ =? _); repeat constructor|done|]. intros y z Hy Hz. destruct (rest_in nu x y Hn Hy) as (_ & E2 & E3 & E4 & _).
    destruct (Hx z Hz) as [G1 G2]. unfold gap, touch in *. by rewrite E2, E3, E4.
  - intros y z Hy [Hz|Hz]%elem_of_app; [|apply Huv; [done|by right]]. destruct (rest_in nu x z Hn Hz) as (E1 & _). destruct (Huv y x Hy ltac:(by left)) as [G _].
    eapply gap_far; [exact G|]. unfold UNIT in *. lia.
Qed.

(** ** [take_block] *)

Section Block.
Context (s : ustate) (free live w : list blk) (q x : blk) (nu : Z).
Context (H : ring_ok s free live) (Hrot : rot (q :: x :: w) free) (Hv : valid s x) (Hn : 1 <= nu <= units x).

Lemma ring_nodup : NoDup (q :: x :: w).
Proof using H Hrot Hv Hn. apply (rot_nodup _ _ Hrot), blocks_nodup, H. Qed.

Lemma ring_at y z : y ∈ q :: x :: w -> z ∈ q :: x :: w -> at_ y = at_ z -> y = z.
Proof using H Hrot Hv Hn. rewrite !(rot_in _ _ _ Hrot). apply (sorted_at free). apply H. Qed.

(** No block of the ring begins inside [x]. *)
Lemma ring_apart y : y ∈ q :: w -> apart y x.
Proof using H Hrot Hv Hn.
  intros Hy. assert (Hyf : y ∈ free) by (rewrite <- (rot_in _ _ _ Hrot); set_solver). assert (Hxf : x ∈ free) by (rewrite <- (rot_in _ _ _ Hrot); set_solver).
  assert (Hne : y <> x). { pose proof ring_nodup as [Hq [Hx _]%NoDup_cons]%NoDup_cons. intros ->. apply elem_of_cons in Hy as [-> |]; [apply Hq; by left|done]. }
  apply list_elem_of_split in Hyf as (u & v & E). pose proof (h_sorted _ _ _ _ H) as Hs. rewrite E in Hxf, Hs. apply blocks_app in Hs as (_ & [_ Hy']%StronglySorted_inv & Hs). rewrite Forall_forall in Hy'.
  apply elem_of_app in Hxf as [Hx|[-> |Hx]%elem_of_cons]; [right; by destruct (Hs x y Hx ltac:(by left))|done|left; by destruct (Hy' x Hx)].
Qed.

Lemma take_block_run : exists m, take_block base nu (kind x) (at_ q) (at_ x) s = Ret (at_ x + UNIT, put_freep (at_ q) (put_mem m s)) /\
  linked m (at_ q) (q :: rest nu x ++ w) (at_ q) /\ header_of m (cut nu x) /\
  forall a, a <> at_ q -> a <= at_ x \/ room x <= a -> a <> at_ x -> m !! a = mem s !! a.
Proof using H Hrot Hv Hn.
  pose proof (proj1 (ring_rot _ _ _ Hrot) (h_ring _ _ _ _ H)) as (_ & nq & Eq & -> & nx & Ex & Hw). pose proof (h_space _ _ _ _ H) as Hs.
  destruct (valid_bounds base s x Hs Hv) as (Hx0 & Hxf & _). pose proof (valid_mapped base s x Hv) as Hmx.
  assert (Hqf : q ∈ free) by (rewrite <- (rot_in _ _ _ Hrot); by left). pose proof (free_mapped base s free live q H Hqf) as Hmq.
  pose proof (ring_apart q ltac:(by left)) as Hqx. assert (Hne : at_ q <> at_ x) by (pose proof (room_at q); pose proof (room_at x); unfold apart in *; lia).
  assert (Hww : forall y, y ∈ w -> apart y x /\ at_ y <> at_ q).
  { intros y Hy. split; [apply ring_apart; by right|]. intros Ey. pose proof ring_nodup as [Hq _]%NoDup_cons. apply Hq. rewrite <- (ring_at y q) by (set_solver || done). by right. }
  assert (Hwx : forall y, y ∈ w -> at_ y <> at_ x) by (intros y [Hy _]%Hww; pose proof (room_at y); pose proof (room_at x); unfold apart in *; lia).
  assert (Hlast : plus (at_ x) 1 = at_ x + UNIT) by (unfold plus; rewrite Z.mul_1_r; apply u32_small; unfold is_u32, fin, UNIT, Vmm.USERTOP in *; lia).
  unfold take_block, rest. rewrite (bind_step _ _ _ _ _ (rd_header base _ _ _ Hmx Ex)). cbn [size ptr]. destruct (Z.eqb_spec (units x) nu) as [En|En].
  - rewrite (bind_step _ _ _ _ _ (wr_header base s _ _ _ Hmq Eq)), bind_modify, Hlast. eexists. split; [done|]. split_and!.
    + split; [done|]. exists nx. split; [by rewrite lookup_insert_eq|]. apply linked_insert; [|done]. intros y Hy. by apply Hww.
    + exists nx. cbn [cut at_ units kind]. by rewrite lookup_insert_ne, <- En.
    + intros a Ha _ _. by rewrite lookup_insert_ne.
  - set (np := plus (at_ x) nu). assert (Hnp : np = at_ x + UNIT * nu) by (apply u32_small; unfold is_u32, fin, UNIT, Vmm.USERTOP in *; lia).
    assert (Hmn : mapped base s np = true). { rewrite Hnp. apply (unit_mapped base s (kind x)). apply Hv. lia. }
    assert (Hin : at_ x < np < room x) by (rewrite Hnp; unfold room, UNIT in *; lia).
    assert (Hnq : at_ q <> np) by (pose proof (room_at q); unfold apart in *; lia).
    destruct (wr_new base (put_mem (<[at_ q := set_ptr np (mk_header (at_ x) (units q) (kind q))]> (mem s)) s) (set_ptr nx) np Hmn) as [h W].
    assert (exists m, (wr base (set_ptr np) (at_ q) ;; h <- rd base (at_ x) ;; wr base (set_ptr (ptr h)) np ;; h <- rd base (at_ x) ;;
        wr base (set_size (u32 (size h - nu))) np ;; wr base (set_type (kind x)) np ;; wr base (set_size nu) (at_ x)) s = Ret (tt, put_mem m s) /\
        m = <[at_ x := mk_header nx nu (kind x)]> (<[np := mk_header nx (units x - nu) (kind x)]> (<[at_ q := mk_header np (units q) (kind q)]> (mem s)))) as (m & R & Hm).
    { eexists. split; [|reflexivity]. rewrite (bind_step _ _ _ _ _ (wr_header base s _ _ _ Hmq Eq)).
      rewrite (bind_step _ _ _ _ _ (rd_header base (put_mem _ s) _ _ Hmx (eq_trans (lookup_insert_ne _ _ _ _ Hne) Ex))). cbn [ptr]. rewrite (bind_step _ _ _ _ _ W), put_mem_same.
      assert (Ex' : <[np := set_ptr nx h]> (<[at_ q := set_ptr np (mk_header (at_ x) (units q) (kind q))]> (mem s)) !! at_ x = Some (mk_header nx (units x) (kind x))).
      { rewrite lookup_insert_ne by lia. by rewrite lookup_insert_ne. }
      rewrite (bind_step _ _ _ _ _ (rd_header base (put_mem _ s) _ _ Hmx Ex')). cbn [size].
      rewrite (bind_step _ _ _ _ _ (wr_header base (put_mem _ s) _ _ _ Hmn (lookup_insert_eq _ _ _))), put_mem_same. cbn [mem put_mem]. rewrite insert_insert_eq.
      rewrite (bind_step _ _ _ _ _ (wr_header base (put_mem _ s) _ _ _ Hmn (lookup_insert_eq _ _ _))), put_mem_same. cbn [mem put_mem]. rewrite insert_insert_eq.
      rewrite u32_small by (unfold is_u32, fin, UNIT, Vmm.USERTOP in *; lia).
      rewrite (wr_header base (put_mem _ s) _ _ (mk_header nx (units x) (kind x)) Hmx), put_mem_same; [done|]. cbn [mem put_mem]. rewrite lookup_insert_ne by lia. by rewrite lookup_insert_ne. }
    cbv zeta. rewrite (bind_step _ _ _ _ _ R), bind_modify, Hlast. exists m. split; [done|]. subst m. cbn [app]. split_and!.
    + split; [done|]. exists np. split; [by rewrite lookup_insert_ne, lookup_insert_ne, lookup_insert_eq by done|].
      cbn [linked at_ units kind]. split; [done|]. exists nx. split; [rewrite lookup_insert_ne by lia; by rewrite lookup_insert_eq|].
      do 3 (apply linked_insert; [intros y Hy; first [by apply Hww|by apply Hwx|destruct (Hww y Hy) as [Hyx _]; pose proof (room_at y); unfold apart in *; lia]|]). done.
    + exists nx. cbn [cut at_ units kind]. by rewrite lookup_insert_eq.
    + intros a Ha Ha' Hax. rewrite !lookup_insert_ne by lia. done.
Qed.

Lemma take_ok : exists m u v, take_block base nu (kind x) (at_ q) (at_ x) s = Ret (at_ x + UNIT, put_freep (at_ q) (put_mem m s)) /\
  free = u ++ x :: v /\ ring_ok (put_freep (at_ q) (put_mem m s)) (u ++ rest nu x ++ v) (cut nu x :: live).
Proof using H Hrot Hv Hn.
  destruct take_block_run as (m & R & Hl & Hh & Hm). destruct (rot_replace [q] x w (rest nu x) free Hrot) as (u & v & E & Hrot'). exists m, u, v. split; [done|]. split; [done|].
  destruct (cut_room nu x Hn) as [Hr1 Hr2]. assert (Hxf : x ∈ free) by (subst free; set_solver).
  assert (Hap : forall y, y ∈ u ++ v -> apart y x).
  { intros y Hy. apply ring_apart. assert (Hy' : y ∈ q :: x :: w) by (rewrite (rot_in _ _ _ Hrot), E; set_solver).
    pose proof (blocks_nodup _ (h_sorted _ _ _ _ H)) as Hnd. rewrite E in Hnd. apply NoDup_app in Hnd as (_ & Hnd & [Hnd' _]%NoDup_cons). assert (y <> x) by (intros ->; apply elem_of_app in Hy as [Hy|Hy]; [apply (Hnd x Hy); by left|done]). set_solver. }
  assert (Hsub : forall y, y ∈ rest nu x -> apart y (cut nu x)) by (intros y Hy; destruct (rest_in nu x y Hn Hy) as (E1 & _); right; rewrite Hr1, E1; done).
  assert (Hqx : apart q x) by (apply ring_apart; by left). assert (Hq : q ∈ u ++ v).
  { assert (Hq : q ∈ free) by (rewrite <- (rot_in _ _ _ Hrot); by left). rewrite E in Hq. assert (q <> x) by (intros ->; pose proof (room_at x); unfold apart in *; lia). set_solver. }
  pose proof Hv as [Hu _]. pose proof (room_at x) as Hrx. pose proof (room_at (cut nu x)) as Hrc. cbn [cut at_] in Hrc. split; cbn [mem freep put_freep put_mem].
  - by destruct (h_space _ _ _ _ H).
  - rewrite (ring_rot _ _ _ Hrot'). cbn [app ring]. done.
  - apply rest_sorted; [done|]. rewrite <- E. apply H.
  - pose proof (h_base _ _ _ _ H) as Hb. rewrite E in Hb. apply elem_of_app in Hb as [Hb|[Hb|Hb]%elem_of_cons]; [set_solver| |set_solver]. subst x. cbn in Hu. lia.
  - exists q. split; [set_solver|done].
  - intros y [Hy|[Hy|Hy]%elem_of_app]%elem_of_app; [apply (h_free _ _ _ _ H); subst free; set_solver|right; by apply (rest_valid s nu x)|apply (h_free _ _ _ _ H); subst free; set_solver].
  - intros y [-> |Hy]%elem_of_cons.
    + split_and!; [by apply cut_valid|done|]. apply Forall_forall. intros z Hz. assert (Hz' : z ∈ u ++ v \/ z ∈ rest nu x) by set_solver.
      destruct Hz' as [Hz'|Hz']; [destruct (Hap z Hz'); [right|left]; cbn [cut at_]; lia|]. destruct (Hsub z Hz'); [by right|by left].
    + destruct (h_live _ _ _ _ H y Hy) as (Hyv & [ny Ey] & Hya). rewrite Forall_forall in Hya. pose proof (Hya x Hxf) as Hyx. split_and!; [done| |].
      * exists ny. pose proof (room_at y). pose proof (Hya q ltac:(subst free; set_solver)) as Hyq. pose proof (room_at q). rewrite Hm; [done|unfold apart in *; lia..].
      * apply Forall_forall. intros z [Hz|[Hz|Hz]%elem_of_app]%elem_of_app; [apply Hya; subst free; set_solver| |apply Hya; subst free; set_solver].
        destruct (rest_in nu x z Hn Hz) as (E1 & _ & _ & E4 & _). eapply apart_sub; [exact Hyx|unfold UNIT in *; lia|lia].
  - constructor; [apply H|]. apply Forall_forall. intros y Hy. destruct (h_live _ _ _ _ H y Hy) as (_ & _ & Hya). rewrite Forall_forall in Hya.
    destruct (Hya x Hxf); [right|left]; cbn [cut at_]; lia.
Qed.

End Block.

(** ** The walk around the ring *)

Definition fit (nu : Z) (y : blk) : bool := (kind y =? 0) && (nu <=? units y).

Fixpoint last_at (q : Z) (l : list blk) : Z := match l with [] => q | y :: l => last_at (at_ y) l end.

Lemma last_at_snoc q l y : last_at q (l ++ [y]) = at_ y.
Proof. revert q. induction l as [|z l IH]; intros q; [done|]. cbn [app last_at]. apply IH. Qed.

(** Blocks that do not fit are passed. *)
Lemma scan s nu l : forall fuel q p p', linked (mem s) p l p' ->
  (forall y, y ∈ l -> mapped base s (at_ y) = true /\ fit nu y = false /\ at_ y <> freep s) ->
  malloc_loop base (length l + fuel) nu 0 q p s = malloc_loop base fuel nu 0 (last_at q l) p' s.
Proof.
  induction l as [|y l IH]; intros fuel q p p'; [by intros -> _|]. intros (-> & nx & E & Hl) Hy. destruct (Hy y ltac:(by left)) as (Hm & Hf & Hp).
  cbn [length Nat.add malloc_loop last_at]. rewrite (bind_step _ _ _ _ _ (rd_header base _ _ _ Hm E)). cbn [type size]. unfold fit in Hf. rewrite Hf, bind_get, (proj2 (Z.eqb_neq _ _) Hp), bind_ret. cbn [negb].
  rewrite (bind_step _ _ _ _ _ (rd_header base _ _ _ Hm E)). cbn [ptr]. apply IH; [done|]. intros z Hz. apply Hy. by right.
Qed.

Lemma rot_swap u v s : rot (u ++ v) s -> rot (v ++ u) s.
Proof.
  intros (a & b & E & ->). apply app_eq_inv in E as [(t & -> & ->)|(t & -> & ->)].
  - exists t, (v ++ b). split; by rewrite <- !app_assoc.
  - exists (a ++ u), t. split; by rewrite <- !app_assoc.
Qed.

(** The first block that fits is taken. *)
Lemma search s free live l x k h q nu fuel : ring_ok s free live -> rot (l ++ x :: k) free -> head (l ++ x :: k) = Some h -> last (l ++ x :: k) = Some q -> 1 <= nu ->
  (forall y, y ∈ l -> fit nu y = false /\ at_ y <> freep s) -> fit nu x = true ->
  exists m f u v, malloc_loop base (length l + S fuel) nu 0 (at_ q) (at_ h) s = Ret (at_ x + UNIT, put_freep f (put_mem m s)) /\
    free = u ++ x :: v /\ ring_ok (put_freep f (put_mem m s)) (u ++ rest nu x ++ v) (cut nu x :: live).
Proof.
  intros H Hrot Hh Hq Hn Hl Hx. assert (Hk := Hx). unfold fit in Hk. apply andb_prop in Hk as [Hk%Z.eqb_eq Hu%Z.leb_le].
  assert (Hin : forall y, y ∈ l ++ x :: k -> y ∈ free) by (intros y; by rewrite (rot_in _ _ _ Hrot)).
  assert (Hv : valid s x). { destruct (h_free _ _ _ _ H x) as [-> |]; [apply Hin; set_solver| |done]. cbn in Hu. lia. }
  pose proof (proj1 (ring_rot _ _ _ Hrot) (h_ring _ _ _ _ H)) as Hr. assert (Hr' : linked (mem s) (at_ h) (l ++ x :: k) (at_ h)) by (destruct (l ++ x :: k) as [|h' t]; [done|by injection Hh as ->]).
  apply linked_app in Hr' as (p' & L1 & L2). assert (p' = at_ x) as -> by (by apply linked_hd in L2).
  rewrite (scan s nu l (S fuel) (at_ q) (at_ h) (at_ x) L1); [|intros y Hy; split; [apply (free_mapped base s free live y H), Hin; set_solver|by apply Hl]].
  assert (exists q' w, last_at (at_ q) l = at_ q' /\ rot (q' :: x :: w) free) as (q' & w & -> & Hrot').
  { destruct l as [|q' l' _] using rev_ind.
    - destruct k as [|q' k' _] using rev_ind.
      + exfalso. assert (Hb : base_blk base ∈ [x]) by (change [x] with ([] ++ [x]); rewrite (rot_in _ _ _ Hrot); apply H). apply list_elem_of_singleton in Hb. subst x. cbn in Hu. lia.
      + exists q', k'. cbn [app last_at]. split; [|by apply (rot_swap (x :: k') [q'])]. cbn [app] in Hq. change (x :: k' ++ [q']) with ((x :: k') ++ [q']) in Hq. rewrite last_snoc in Hq. by injection Hq as ->.
    - exists q', (k ++ l'). split; [by rewrite last_at_snoc|]. rewrite <- app_assoc in Hrot. cbn [app] in Hrot. by apply (rot_swap l' (q' :: x :: k)). }
  destruct L2 as (_ & nx & Ex & _). cbn [malloc_loop]. rewrite (bind_step _ _ _ _ _ (rd_header base _ _ _ (valid_mapped base s x Hv) Ex)). cbn [type size]. unfold fit in Hx. rewrite Hx.
  destruct (take_ok s free live w q' x nu H Hrot' Hv ltac:(lia)) as (m & u & v & R & E & Ok). rewrite Hk in R. exists m, (at_ q'), u, v. done.
Qed.


(** ** More memory *)

(** Whether the kernel moves its bound up to [w]. *)
Definition can_grow (s : ustate) (w : Z) : bool :=
  negb (intersects (mm_brk s) (Vmm.ROUNDUP w Vmm.PGSIZE + Vmm.PGSIZE) (shared s)) && (Vmm.ROUNDUP w Vmm.PGSIZE <=? Vmm.USERTOP) &&
  default true (head (grants s)).

Lemma roundup w : 0 <= w -> w + Vmm.PGSIZE <= 2 ^ 32 -> w <= Vmm.ROUNDUP w Vmm.PGSIZE < w + Vmm.PGSIZE /\ Vmm.ROUNDUP w Vmm.PGSIZE mod Vmm.PGSIZE = 0.
Proof. intros H1 H2. unfold Vmm.ROUNDUP, Vmm.ROUNDDOWN, Vmm.PGSIZE in *. rewrite u32_small by (unfold is_u32; lia). dlia. Qed.

Lemma put_grants_same s : put_grants (grants s) s = s.
Proof. by destruct s. Qed.

Lemma grant_run s : grant s = Ret (default true (head (grants s)), put_grants (tail (grants s)) s).
Proof. unfold grant. rewrite bind_get. destruct (grants s) as [|x l] eqn:E; [destruct s; cbn in *; by subst|done]. Qed.

Lemma do_brk_grow s w : space_ok base s -> mm_brk s < w -> w + Vmm.PGSIZE <= 2 ^ 32 ->
  exists g, do_brk w s = if can_grow s w then Ret (Vmm.ROUNDUP w Vmm.PGSIZE, put_mm_brk (Vmm.ROUNDUP w Vmm.PGSIZE) (put_grants (tail (grants s)) s)) else Ret (mm_brk s, put_grants g s).
Proof.
  intros Hs Hw Hw'. destruct (sp_brk _ _ Hs) as [H1 H2]. destruct (roundup w ltac:(unfold Vmm.USERBASE in *; lia) Hw') as [R1 R2]. unfold do_brk, can_grow. rewrite bind_get.
  set (nb := Vmm.ROUNDUP w Vmm.PGSIZE) in *. rewrite (proj2 (Z.ltb_ge _ _)) by lia. rewrite (proj2 (Z.eqb_eq _ _) (sp_align _ _ Hs)).
  rewrite (proj2 (Z.eqb_neq nb _)), (proj2 (Z.ltb_ge nb _)) by lia. destruct (intersects _ _ _); cbn [negb andb].
  { exists (grants s). by rewrite put_grants_same. }
  pose proof (grant_run s) as G. exists (tail (grants s)). unfold bind. cbn [assert]. unfold ret at 1. rewrite G. unfold Vmm.USER_ACCESS. rewrite (proj2 (Z.leb_le _ _)), (proj2 (Z.ltb_lt (mm_brk s) nb)) by lia. cbn [andb].
  rewrite andb_comm. by destruct (_ && _).
Qed.

Lemma do_brk_zero s : space_ok base s -> do_brk 0 s = Ret (mm_brk s, s).
Proof. intros Hs. destruct (sp_base _ _ Hs). unfold do_brk. rewrite bind_get, (proj2 (Z.ltb_lt _ _)) by (unfold UNIT in *; lia). done. Qed.

(** The invariant in a state with more memory. *)
Lemma ring_ok_grow s s' free live : ring_ok s free live -> space_ok base s' -> freep s' = freep s -> mm_brk_start s' = mm_brk_start s -> mm_brk s <= mm_brk s' -> shared s' = shared s ->
  (forall b, b ∈ free \/ b ∈ live -> mem s' !! at_ b = mem s !! at_ b) -> ring_ok s' free live.
Proof.
  intros H Hs Ef E1 E2 E3 Hm. assert (Hv : forall b, valid s b -> valid s' b).
  { intros b [Hu Hv]. split; [done|]. intros k Hk. specialize (Hv k Hk). unfold unit_ok in *. rewrite E1, E3. destruct (_ =? _); [lia|done]. }
  destruct H as [_ H1 H2 H3 H4 H5 H6 H7]. split; try done.
  - eapply ring_frame; [exact H1|]. intros b Hb. apply Hm. by left.
  - by rewrite Ef.
  - intros b [|]%H5; [by left|right; auto].
  - intros b Hb. destruct (H6 b Hb) as (G1 & [nx G2] & G3). split_and!; [auto| |done]. exists nx. rewrite Hm by (by right). done.
Qed.

(** A block of shared memory does not reach into memory the kernel has just added. *)
Lemma grown_apart s b y : space_ok base s -> valid s y -> kind b = 0 -> at_ b = mm_brk s -> 1 <= units b -> intersects (at_ b) (fin b + Vmm.PGSIZE) (shared s) = false -> apart b y.
Proof.
  intros Hs Hy Hk Hb Hu Hi. destruct (Z.eqb_spec (kind y) 0) as [E|E].
  { destruct (valid_bounds base s y Hs Hy) as (_ & _ & Hy'). destruct (Hy' E). destruct Hy as [Hyu _]. right. unfold room, fin, UNIT in *. lia. }
  destruct (decide (room b <= at_ y)); [by left|]. destruct (decide (room y <= at_ b)); [by right|]. exfalso. destruct Hy as [Hyu Hy].
  assert (Hk' : unit_ok s (kind y) (at_ y + UNIT * Z.max 0 ((at_ b - at_ y) / UNIT))) by (apply Hy; unfold room, UNIT in *; dlia). unfold unit_ok in Hk'. rewrite (proj2 (Z.eqb_neq _ _) E) in Hk'. destruct Hk' as (p & k & Hin & Hp1 & Hp2).
  apply not_true_iff_false in Hi. apply Hi. apply existsb_exists. exists (p, k). split; [by apply list_elem_of_In|]. apply andb_true_iff. rewrite !Z.ltb_lt.
  unfold room, fin, UNIT, Vmm.PGSIZE in *. dlia.
Qed.


Lemma place_unique (b : blk) a c a' c' : a ++ c = a' ++ c' -> Forall (fun x => room x <= at_ b) a -> Forall (fun y => room b <= at_ y) c ->
  Forall (fun x => room x <= at_ b) a' -> Forall (fun y => room b <= at_ y) c' -> a = a' /\ c = c'.
Proof.
  pose proof (room_at b) as Hb. assert (Hno : forall z t, Forall (fun x => room x <= at_ b) (z :: t) -> Forall (fun y => room b <= at_ y) (z :: t) -> False).
  { intros z t [H1 _]%Forall_cons [H2 _]%Forall_cons. pose proof (room_at z). lia. }
  intros [(t & -> & ->)|(t & -> & ->)]%app_eq_inv H1 H2 H3 H4; destruct t as [|z t]; rewrite ?app_nil_r; try done; exfalso.
  - apply Forall_app in H1 as [_ H1], H4 as [H4 _]. by apply (Hno z t).
  - apply Forall_app in H3 as [_ H3], H2 as [H2 _]. by apply (Hno z t).
Qed.

(** The block before the new one is the last below it. *)
Lemma before_last free a c b p q : sorted free -> free = a ++ c -> Forall (fun x => room x <= at_ b) a -> Forall (fun y => room b <= at_ y) c ->
  before free (at_ b) p -> last a = Some q -> at_ p = at_ q.
Proof.
  intros Hs -> Ha Hc [Hp Hb] (u & ->)%last_Some. pose proof (room_at b). apply blocks_app in Hs as ((_ & _ & Hu)%blocks_app & _ & _). rewrite Forall_forall in Ha, Hc.
  assert (Hq : q ∈ u ++ [q]) by set_solver. pose proof (Ha q Hq). pose proof (room_at q).
  destruct Hb as [[Hb1 Hb2]|[Hb1 _]]; [|specialize (Hb1 q ltac:(set_solver)); lia]. destruct (Hb2 q ltac:(set_solver)); [|lia].
  apply elem_of_app in Hp as [[Hp| ->%list_elem_of_singleton]%elem_of_app|Hp]; [|done|apply Hc in Hp; lia]. destruct (Hu p q Hp ltac:(by left)) as [? _]. pose proof (room_at p). lia.
Qed.

Lemma static_run s : space_ok base s -> brk s = 0 \/ brk s = mm_brk s ->
  (if brk s =? 0 then b <- do_brk 0 ;; modify (put_brk b) ;; ret (negb (b =? 0)) else ret true) s = Ret (true, put_brk (mm_brk s) s).
Proof.
  intros Hs Hk. destruct (sp_brk _ _ Hs) as [H1 _]. unfold Vmm.USERBASE in H1. destruct (Z.eqb_spec (brk s) 0) as [E|E].
  - rewrite (bind_step _ _ _ _ _ (do_brk_zero s Hs)), bind_modify, (proj2 (Z.eqb_neq (mm_brk s) 0)) by lia. done.
  - destruct Hk as [|Hk]; [done|]. rewrite <- Hk. by destruct s.
Qed.

(** ** [morecore_brk_locked] *)

Section More.
Context (s : ustate) (free live : list blk) (nu : Z) (fuel : nat).
Context (H : heap_ok s free live) (Hn : 1 <= nu) (Hw : mm_brk s + UNIT * nu + Vmm.PGSIZE <= 2 ^ 32) (Hf : (length free <= fuel)%nat).

Lemma morecore_refused : can_grow s (mm_brk s + UNIT * nu) = false ->
  exists s', morecore_brk_locked base fuel nu s = Ret (false, s') /\ heap_ok s' free live /\ freep s' = freep s.
Proof using H Hn Hw Hf.
  intros Hg. destruct H as (Hr & Ht & Hk). pose proof (h_space _ _ _ _ Hr) as Hs. unfold morecore_brk_locked. rewrite bind_get, (bind_step _ _ _ _ _ (static_run s Hs Hk)). cbn [negb]. rewrite bind_get.
  cbn [brk put_brk]. rewrite u32_small by (destruct (sp_brk _ _ Hs); unfold is_u32, UNIT, Vmm.PGSIZE, Vmm.USERBASE in *; lia).
  replace (mm_brk s + nu * UNIT) with (mm_brk s + UNIT * nu) by lia.
  destruct (do_brk_grow (put_brk (mm_brk s) s) (mm_brk s + UNIT * nu)) as [g G]; [by destruct Hs|cbn; unfold UNIT; lia|done|].
  change (can_grow (put_brk (mm_brk s) s)) with (can_grow s) in G. rewrite Hg in G. rewrite (bind_step _ _ _ _ _ G), (proj2 (Z.leb_le _ _)) by done.
  eexists. split; [done|]. split; [|done]. split; [|by split; [|right]]. eapply ring_ok_grow; [exact Hr|by destruct Hs|done..].
Qed.

Lemma morecore_grows : can_grow s (mm_brk s + UNIT * nu) = true ->
  exists s' b a c p, morecore_brk_locked base fuel nu s = Ret (true, s') /\ heap_ok s' (paste a (b :: c)) live /\
    at_ b = mm_brk s /\ kind b = 0 /\ nu <= units b /\ fin b = mm_brk s' /\ fin b < mm_brk s + UNIT * nu + Vmm.PGSIZE /\
    free = a ++ c /\ Forall (fun x => room x <= at_ b) a /\ Forall (fun y => room b <= at_ y) c /\ last a = Some p /\ freep s' = at_ p /\
    grants s' = tail (grants s) /\ shared s' = shared s.
Proof using H Hn Hw Hf.
  intros Hg. destruct H as (Hr & Ht & Hk). pose proof (h_space _ _ _ _ Hr) as Hs. pose proof (sp_brk _ _ Hs) as [Hsb1 Hsb2]. pose proof (sp_align _ _ Hs) as Hal.
  destruct (roundup (mm_brk s + UNIT * nu)) as [Hnb1 Hnb2]; [unfold UNIT, Vmm.USERBASE in *; lia|lia|].
  destruct (do_brk_grow (put_brk (mm_brk s) s) (mm_brk s + UNIT * nu)) as [g G]; [by destruct Hs|cbn; unfold UNIT; lia|done|].
  change (can_grow (put_brk (mm_brk s) s)) with (can_grow s) in G. rewrite Hg in G. unfold can_grow in Hg. apply andb_prop in Hg as [[Hi%negb_true_iff Hnb3%Z.leb_le]%andb_prop _].
  set (nb := Vmm.ROUNDUP (mm_brk s + UNIT * nu) Vmm.PGSIZE) in *. set (s1 := put_mm_brk nb (put_grants (tail (grants s)) (put_brk (mm_brk s) s))) in *.
  set (b := mk_blk (mm_brk s) ((nb - mm_brk s) / UNIT) 0).
  assert (Hfin : fin b = nb /\ nu <= units b) by (unfold b, fin; cbn [at_ units]; unfold UNIT, Vmm.PGSIZE in *; clear - Hnb1 Hnb2 Hal Hn; dlia). destruct Hfin as [Hfin Hub].
  assert (Hs1 : space_ok base s1) by (destruct Hs; split; cbn [mm_brk_start mm_brk shared s1 put_mm_brk put_grants put_brk]; try done; unfold UNIT in *; lia).
  assert (Hvb : valid s1 b). { split; [lia|]. intros k Hk'. unfold unit_ok, b. cbn [kind at_ mm_brk_start mm_brk s1 put_mm_brk put_grants put_brk Z.eqb]. unfold b, fin in Hfin, Hk'. cbn [at_ units] in Hfin, Hk'. unfold UNIT in *. lia. }
  pose proof (valid_mapped base s1 b Hvb) as Hm. cbn [b at_] in Hm.
  assert (Hap : forall y, y = base_blk base \/ valid s y -> apart b y).
  { intros y [-> |Hy]; [right; destruct (sp_base _ _ Hs); cbn [b at_ room base_blk]; unfold room, UNIT in *; cbn; lia|]. apply (grown_apart s); try done; [lia|]. by rewrite Hfin. }
  destruct (wr_new base s1 (set_size (u32 (nb - mm_brk s) / UNIT)) (mm_brk s) Hm) as [h0 W].
  set (s2 := put_mem (<[mm_brk s := mk_header (ptr h0) ((nb - mm_brk s) / UNIT) 0]> (mem s)) s1).
  assert (W2 : wr base (set_type 0) (mm_brk s) (put_mem (<[mm_brk s := set_size (u32 (nb - mm_brk s) / UNIT) h0]> (mem s1)) s1) = Ret (tt, s2)).
  { rewrite (wr_header base (put_mem _ s1) _ _ (set_size (u32 (nb - mm_brk s) / UNIT) h0)) by (done || apply lookup_insert_eq). cbn [mem put_mem]. rewrite insert_insert_eq.
    unfold set_type, set_size. cbn [ptr size]. by rewrite (u32_small (nb - mm_brk s)) by (unfold is_u32, Vmm.USERTOP, UNIT, Vmm.USERBASE in *; lia). }
  assert (Hne : forall y, y ∈ free \/ y ∈ live -> at_ y <> mm_brk s).
  { intros y Hy Ey. assert (Hab : apart b y). { apply Hap. destruct Hy as [Hy|Hy]; [by apply (h_free _ _ _ _ Hr)|right; by apply (h_live _ _ _ _ Hr)]. } pose proof (room_at b). pose proof (room_at y). unfold apart in Hab. cbn [b at_] in *. lia. }
  assert (Hr2 : ring_ok s2 free live).
  { eapply ring_ok_grow; [exact Hr|by destruct Hs1|done|done|change (mm_brk s <= nb); unfold UNIT in *; lia|done|]. intros y Hy. cbn [s2 mem put_mem]. apply lookup_insert_ne. intros E. by apply (Hne y Hy). }
  assert (Hapf : Forall (apart b) free) by (apply Forall_forall; intros y Hy; apply Hap; by apply (h_free _ _ _ _ Hr)).
  destruct (place free b (h_sorted _ _ _ _ Hr) Hapf) as (a & c & E & Ha & Hc).
  assert (Hba : base_blk base ∈ a).
  { pose proof (h_base _ _ _ _ Hr) as Hb. rewrite E in Hb. apply elem_of_app in Hb as [|Hb]; [done|]. rewrite Forall_forall in Hc. apply Hc in Hb. pose proof (room_at b). destruct (sp_base _ _ Hs). cbn [b at_ base_blk] in *. unfold UNIT in *. lia. }
  assert (exists q, last a = Some q) as [q Hq]. { destruct a as [|q u _] using rev_ind; [by apply not_elem_of_nil in Hba|]. exists q. apply last_snoc. }
  assert (Hj : join b c = b :: c).
  { destruct c as [|n c']; [done|]. cbn [join]. destruct (touch b n) eqn:Et; [|done]. exfalso. apply Forall_cons in Hc as [Hc _]. apply andb_prop in Et as [Ek%Z.eqb_eq _].
    pose proof (room_at b). assert (Hnf : n ∈ free) by (rewrite E; set_solver). destruct (h_free _ _ _ _ Hr n Hnf) as [-> |Hvn].
    - destruct (sp_base _ _ Hs). cbn [b at_ base_blk] in *. unfold UNIT in *. lia.
    - destruct (valid_bounds base s n Hs Hvn) as (_ & _ & Hb). destruct (Hb (eq_sym Ek)). destruct Hvn. unfold fin, UNIT in *. cbn [b at_] in *. lia. }
  assert (Hh2 : header_of (mem s2) b) by (exists (ptr h0); apply lookup_insert_eq).
  destruct (free_locked_run base s2 free live a c b Hr2 Hvb Hh2 E Ha Hc fuel Hf) as (p & m & R & Hp & Hri & Hfp & Hm').
  pose proof (before_last free a c b p q (h_sorted _ _ _ _ Hr) E Ha Hc Hp Hq) as Epq. exists (put_brk nb (put_freep (at_ p) (put_mem m s2))), b, a, c, q. split.
  - unfold morecore_brk_locked. rewrite bind_get, (bind_step _ _ _ _ _ (static_run s Hs Hk)). cbn [negb]. rewrite bind_get. cbn [brk put_brk].
    rewrite u32_small by (unfold is_u32, UNIT, Vmm.PGSIZE, Vmm.USERBASE in *; lia). replace (mm_brk s + nu * UNIT) with (mm_brk s + UNIT * nu) by lia.
    rewrite (bind_step _ _ _ _ _ G), (proj2 (Z.leb_gt nb _)) by (unfold UNIT in *; lia). cbv zeta. rewrite (bind_step _ _ _ _ _ W).
    rewrite (bind_step _ _ _ _ _ W2). assert (Hp1 : plus (mm_brk s) 1 = mm_brk s + UNIT) by (unfold plus; rewrite Z.mul_1_r; apply u32_small; unfold is_u32, UNIT, Vmm.USERTOP, Vmm.USERBASE in *; lia).
    rewrite Hp1. change (mm_brk s + UNIT) with (at_ b + UNIT).
    by rewrite (bind_step _ _ _ _ _ R).
  - split; [|split_and!; try done; cbn [b at_]; lia]. rewrite <- Hj. split; [|split; [|by right]].
    + apply (ring_ok_grow (put_freep (at_ p) (put_mem m s2))); [|by destruct Hs1|done..]. apply (free_insert_ok base s2 free live a c b Hr2 Hvb Hh2 E Ha Hc p m); try done.
      intros x Hx. assert (Hbx : apart b x) by (apply Hap; right; by apply (h_live _ _ _ _ Hr)). destruct Hbx; [by right|by left].
    + rewrite total_paste, total_join. rewrite E, total_app in Ht. change (mm_brk (put_brk nb (put_freep (at_ p) (put_mem m s2)))) with nb. change (mm_brk_start (put_brk nb (put_freep (at_ p) (put_mem m s2)))) with (mm_brk_start s).
      change (kind b =? 0) with true. cbv iota. unfold fin in Hfin. change (at_ b) with (mm_brk s) in Hfin. lia.
Qed.

End More.

End Take.
End UMallocTake.
