(* ===== verification/UMallocSpec.v ===== *)
(** * What user programs' [malloc] and [free] promise

    On a heap in good order [malloc] ends and returns a block that nothing else uses, or
    NULL when the kernel refuses memory; [free] joins a block with its neighbours.  And
    four requests on which the code goes wrong. *)

From Stdlib Require Import Sorted.
From S2P Require Import Prelude Vmm UMalloc UMallocInv.
Open Scope Z_scope.

Module UMallocSpec.
Import UMalloc UMallocInv UMallocTake.

Section Malloc.
Context (base : Z).
Abbreviation ring_ok := (ring_ok base).
Abbreviation heap_ok := (heap_ok base).

Lemma cut_total nu u x v live : UNIT * (total 0 (u ++ rest nu x ++ v) + total 0 (cut nu x :: live)) = UNIT * (total 0 (u ++ x :: v) + total 0 live).
Proof. rewrite !total_app, total_rest. cbn [total cut kind units]. destruct (kind x =? 0); lia. Qed.

(** The last block of the ring points to the first. *)
Lemma last_points s free live h t f : ring_ok s free live -> rot (h :: t) free -> last (h :: t) = Some f ->
  rd base (at_ f) s = Ret (mk_header (at_ h) (units f) (kind f), s).
Proof.
  intros H Hrot Hf. pose proof (proj1 (ring_rot _ _ _ Hrot) (h_ring _ _ _ _ H)) as Hr. unfold ring in Hr. apply last_Some in Hf as [z Ez].
  apply rd_header; [apply (free_mapped base s free live f H); rewrite <- (rot_in _ _ _ Hrot), Ez; set_solver|]. rewrite Ez in Hr. apply linked_app in Hr as (y & _ & -> & nx & En & <-). done.
Qed.

(** The walk goes on after the block [f], and finds [x] after the blocks [l]. *)
Lemma resume s free live l x k f nu fuel : heap_ok s free live -> rot (l ++ x :: k) free -> last (l ++ x :: k) = Some f -> 1 <= nu ->
  (forall y, y ∈ l -> fit nu y = false /\ at_ y <> freep s) -> fit nu x = true -> (length l < fuel)%nat ->
  exists s' free', (h <- rd base (at_ f) ;; malloc_loop base fuel nu 0 (at_ f) (ptr h)) s = Ret (at_ x + UNIT, s') /\ heap_ok s' free' (cut nu x :: live).
Proof.
  intros (H & Ht & Hk) Hrot Hf Hn Hl Hx Hfu. destruct (l ++ x :: k) as [|h t] eqn:E; [by destruct l|].
  rewrite (bind_step _ _ _ _ _ (last_points s free live h t f H Hrot Hf)). cbn [ptr]. rewrite <- E in Hrot, Hf.
  destruct (search base s free live l x k h f nu (fuel - length l - 1) H Hrot ltac:(by rewrite E) Hf Hn Hl Hx) as (m & q & u & v & R & Eu & Ok).
  replace (length l + S (fuel - length l - 1))%nat with fuel in R by lia. eexists _, _. split; [exact R|]. split; [exact Ok|]. split; [|done]. rewrite cut_total. by rewrite <- Eu.
Qed.

(** The walk comes to the block [f] the search began at, and asks for memory. *)
Lemma ask s free live l f k q nu fuel : heap_ok s free live -> rot (l ++ f :: k) free -> freep s = at_ f ->
  (forall y, y ∈ l -> fit nu y = false) -> fit nu f = false -> forall h, head (l ++ f :: k) = Some h ->
  malloc_loop base (length l + S fuel) nu 0 q (at_ h) s =
  (ok <- morecore_brk_locked base fuel nu ;; if negb ok then ret 0 else h <- rd base (at_ f) ;; malloc_loop base fuel nu 0 (at_ f) (ptr h)) s.
Proof.
  intros (H & _) Hrot Hf Hl Hfit h Hh. pose proof (proj1 (ring_rot _ _ _ Hrot) (h_ring _ _ _ _ H)) as Hr. assert (Hin : forall y, y ∈ l ++ f :: k -> y ∈ free) by (intros y; by rewrite (rot_in _ _ _ Hrot)).
  pose proof (rot_nodup _ _ Hrot (blocks_nodup _ (h_sorted _ _ _ _ H))) as Hnd.
  assert (Hr' : linked (mem s) (at_ h) (l ++ f :: k) (at_ h)) by (destruct (l ++ f :: k) as [|h' t]; [done|by injection Hh as ->]).
  apply linked_app in Hr' as (p' & L1 & -> & nx & Ef & _).
  rewrite (scan base s nu l (S fuel) q (at_ h) (at_ f) L1).
  - cbn [malloc_loop]. rewrite (bind_step _ _ _ _ _ (rd_header base _ _ _ (free_mapped base s free live f H (Hin f ltac:(set_solver))) Ef)). cbn [type size]. unfold fit in Hfit. rewrite Hfit, bind_get, Hf, Z.eqb_refl. done.
  - intros y Hy. split_and!; [apply (free_mapped base s free live y H), Hin; set_solver|auto|]. rewrite Hf. intros Ey. assert (y = f) as -> by (apply (sorted_at free); [apply H|apply Hin; set_solver..|done]).
    apply NoDup_app in Hnd as (_ & Hnd & _). apply (Hnd f Hy). by left.
Qed.


(** What a call leaves: NULL and the same blocks in use, or one more block in use. *)
Definition served (nu : Z) (live : list blk) (r : Z) (s' : ustate) : Prop :=
  r = 0 /\ (exists free', heap_ok s' free' live) \/
  exists x free', r = at_ x + UNIT /\ units x = nu /\ kind x = 0 /\ heap_ok s' free' (x :: live).

(** The kernel has two times the memory that is asked for. *)
Definition plenty (s : ustate) (n : Z) : Prop := grants s = [] /\ shared s = [] /\ mm_brk s + n <= Vmm.USERTOP.

Lemma plenty_grow s w : space_ok base s -> plenty s (w + Vmm.PGSIZE) -> 0 <= w -> can_grow s (mm_brk s + w) = true.
Proof.
  intros Hs (Hg & Hsh & Hu) Hw. destruct (sp_brk _ _ Hs) as [H1 H2]. unfold can_grow. rewrite Hg, Hsh. cbn [intersects existsb negb head default andb]. rewrite andb_true_r. apply Z.leb_le.
  destruct (roundup (mm_brk s + w)) as [R _]; unfold Vmm.USERBASE, Vmm.USERTOP, Vmm.PGSIZE in *; lia.
Qed.

Lemma served_fit nu live r s' x free' : fit nu x = true -> r = at_ x + UNIT -> heap_ok s' free' (cut nu x :: live) -> served nu live r s'.
Proof. intros [Hk%Z.eqb_eq _]%andb_prop -> H. right. by exists (cut nu x), free'. Qed.

(** The new memory is a block of its own, right after [p], where the walk stands. *)
Lemma take_next s u p x c live nu fuel : heap_ok s (u ++ p :: x :: c) live -> fit nu x = true -> 1 <= nu -> (0 < fuel)%nat ->
  exists s' free', (h <- rd base (at_ p) ;; malloc_loop base fuel nu 0 (at_ p) (ptr h)) s = Ret (at_ x + UNIT, s') /\ heap_ok s' free' (cut nu x :: live).
Proof.
  intros H Hx Hn Hf. apply (resume s (u ++ p :: x :: c) live [] x (c ++ u ++ [p]) p nu fuel); try done.
  - exists (u ++ [p]), (x :: c). split; [done|by rewrite <- app_assoc].
  - cbn [app]. rewrite app_assoc. change (x :: (c ++ u) ++ [p]) with ((x :: c ++ u) ++ [p]). apply last_snoc.
  - by intros y ?%not_elem_of_nil.
Qed.

Lemma taken_nonzero s free live x : heap_ok s free live -> x ∈ free -> at_ x + UNIT <> 0.
Proof. intros (H & _) Hx. destruct (free_bounds base s free live x H Hx) as (? & _). unfold UNIT. lia. Qed.

(** The second request, when the first block lies after the free block [p] and the search
    has come to [p] without having seen it: the new memory joins the first block. *)
Lemma ask_again s u p b c live nu fuel : heap_ok s (u ++ p :: b :: c) live -> 1 <= nu -> mm_brk s + UNIT * nu + Vmm.PGSIZE <= 2 ^ 32 ->
  kind b = 0 -> fin b = mm_brk s -> nu <= units b -> (length u + length c + 2 <= fuel)%nat ->
  exists r s', (ok <- morecore_brk_locked base fuel nu ;; if negb ok then ret 0 else h <- rd base (at_ p) ;; malloc_loop base fuel nu 0 (at_ p) (ptr h)) s = Ret (r, s') /\
    served nu live r s' /\ (can_grow s (mm_brk s + UNIT * nu) = true -> r <> 0).
Proof.
  intros H Hn Hw Hkb Hfb Hub Hfu. assert (Hf : (length (u ++ p :: b :: c) <= fuel)%nat) by (rewrite length_app; cbn [length]; lia).
  destruct (can_grow s (mm_brk s + UNIT * nu)) eqn:Eg.
  - destruct (morecore_grows base s _ live nu fuel H Hn Hw Hf Eg) as (s3 & b2 & a2 & c2 & p2 & R & H3 & Hat & Hk2 & Hu2 & _ & _ & E & Ha & Hc & _).
    pose proof (room_at b2) as Hrb2. assert (Hrb : room b = at_ b2) by (rewrite Hat, <- Hfb; unfold room, fin, UNIT; lia). pose proof (room_at b) as Hrb'.
    destruct H as (Hr & _). pose proof (h_sorted _ _ _ _ Hr) as Hs. change (u ++ p :: b :: c) with (u ++ [p; b] ++ c) in Hs, E. rewrite app_assoc in Hs, E. apply blocks_app in Hs as (Hs1 & Hs2 & Hs3).
    assert (Hin : forall y, y ∈ c -> room b2 <= at_ y).
    { intros y Hy. destruct (Hs3 b y ltac:(set_solver) Hy) as [G _]. assert (Hy' : y ∈ a2 ++ c2) by (rewrite <- E; set_solver). rewrite Forall_forall in Ha, Hc.
      apply elem_of_app in Hy' as [Hy'|Hy']; [apply Ha in Hy'; pose proof (room_at y); lia|auto]. }
    destruct (place_unique b2 (u ++ [p; b]) c a2 c2 E) as [<- <-]; [|by apply Forall_forall|done|done|].
    { replace (u ++ [p; b]) with ((u ++ [p]) ++ [b]) in * by (by rewrite <- app_assoc). apply blocks_app in Hs1 as (_ & _ & Hs1). apply Forall_app. split; [|apply Forall_singleton; lia].
      apply Forall_forall. intros y Hy. destruct (Hs1 y b Hy ltac:(by left)) as [G _]. lia. }
    replace (u ++ [p; b]) with ((u ++ [p]) ++ [b]) in H3 by (by rewrite <- app_assoc). rewrite paste_snoc in H3. cbn [join] in H3.
    assert (Ht : touch b b2 = true) by (unfold touch; rewrite Hkb, Hk2, Hfb, Hat, !Z.eqb_refl; done). rewrite Ht in H3. rewrite <- app_assoc in H3. cbn [app] in H3.
    assert (Hx : fit nu (merge b b2) = true). { unfold fit. cbn [merge kind units]. rewrite Hkb. cbn [Z.eqb andb]. apply Z.leb_le. lia. }
    rewrite (bind_step _ _ _ _ _ R). cbn [negb].
    destruct (take_next s3 u p (merge b b2) c live nu fuel H3 Hx Hn ltac:(lia)) as (s' & free' & R' & H').
    eexists _, s'. split; [exact R'|]. split; [by eapply served_fit|]. intros _. eapply taken_nonzero; [exact H3|set_solver].
  - destruct (morecore_refused base s _ live nu fuel H Hn Hw Hf Eg) as (s3 & R & H3 & _). rewrite (bind_step _ _ _ _ _ R). exists 0, s3. split; [done|]. split; [left; eauto|done].
Qed.


(** The ring from behind [f] on passes [p] and then [b]. *)
Lemma rot_after (u c : list blk) p b f : f ∈ u \/ f ∈ c -> exists l k, rot (l ++ p :: b :: k) (u ++ p :: b :: c) /\ last (l ++ p :: b :: k) = Some f /\
  (forall y, y ∈ l -> y ∈ u \/ y ∈ c) /\ (length l <= length u + length c)%nat.
Proof.
  intros [(u1 & u2 & ->)%list_elem_of_split|(c1 & c2 & ->)%list_elem_of_split].
  - exists u2, (c ++ u1 ++ [f]). split_and!; [exists (u1 ++ [f]), (u2 ++ p :: b :: c); split; by rewrite <- !app_assoc| |set_solver|rewrite length_app; cbn [length]; lia].
    replace (u2 ++ p :: b :: c ++ u1 ++ [f]) with ((u2 ++ p :: b :: c ++ u1) ++ [f]) by (rewrite <- !app_assoc; cbn; by rewrite <- app_assoc). apply last_snoc.
  - exists (c2 ++ u), (c1 ++ [f]). split_and!; [exists (u ++ p :: b :: c1 ++ [f]), c2; split; [by rewrite <- !app_assoc|rewrite <- !app_assoc; cbn; by rewrite <- app_assoc]| |set_solver|rewrite !length_app; cbn [length]; lia].
    replace ((c2 ++ u) ++ p :: b :: c1 ++ [f]) with (((c2 ++ u) ++ p :: b :: c1) ++ [f]) by (rewrite <- !app_assoc; cbn; done). apply last_snoc.
Qed.

(** The new memory has been joined to the block before it, which the walk comes to. *)
Lemma take_joined s u x c live f nu fuel : heap_ok s (u ++ x :: c) live -> f ∈ u ++ x :: c -> freep s = at_ x -> (forall y, y ∈ u \/ y ∈ c -> fit nu y = false) -> fit nu x = true -> 1 <= nu ->
  (length u + length c + 1 <= fuel)%nat ->
  exists s' free', (h <- rd base (at_ f) ;; malloc_loop base fuel nu 0 (at_ f) (ptr h)) s = Ret (at_ x + UNIT, s') /\ heap_ok s' free' (cut nu x :: live).
Proof.
  intros H Hf Hfp Hold Hx Hn Hfu. pose proof (h_sorted _ _ _ _ (proj1 H)) as Hs. destruct (rot_to _ _ Hf) as [r Hr]. apply (rot_swap [f] r) in Hr.
  assert (Hxr : x ∈ r ++ [f]) by (rewrite (rot_in _ _ _ Hr); set_solver). apply list_elem_of_split_l in Hxr as (l & k & El & Hl). rewrite El in Hr.
  assert (Hlr : (length l < length (u ++ x :: c))%nat). { destruct Hr as (u' & v' & E1 & E2). rewrite E2. apply (f_equal length) in E1. rewrite !length_app in *. cbn [length] in *. lia. }
  apply (resume s (u ++ x :: c) live l x k f nu fuel); try done.
  - rewrite <- El. apply last_snoc.
  - intros y Hy. assert (Hyi : y ∈ u ++ x :: c) by (rewrite <- (rot_in _ _ _ Hr); set_solver). assert (Hyx : y <> x) by (by intros ->). split; [apply Hold; set_solver|].
    rewrite Hfp. intros Ey. apply Hyx. apply (sorted_at (u ++ x :: c)); [done|done|set_solver|done].
  - rewrite length_app in Hlr. cbn [length] in Hlr. lia.
Qed.

(** The search has seen every block, none fits: [f] is where it began. *)
Lemma ask_first s free live f nu fuel : heap_ok s free live -> f ∈ free -> freep s = at_ f -> (forall y, y ∈ free -> fit nu y = false) -> 1 <= nu ->
  UNIT * nu + Vmm.PGSIZE <= 2 ^ 32 - Vmm.USERTOP -> (2 * length free + 4 <= fuel)%nat ->
  exists r s', (ok <- morecore_brk_locked base fuel nu ;; if negb ok then ret 0 else h <- rd base (at_ f) ;; malloc_loop base fuel nu 0 (at_ f) (ptr h)) s = Ret (r, s') /\
    served nu live r s' /\ (plenty s (2 * (UNIT * nu + Vmm.PGSIZE)) -> r <> 0).
Proof.
  intros H Hf Hfp Hno Hn Hw Hfu. pose proof (sp_brk _ _ (h_space _ _ _ _ (proj1 H))) as [_ Hbk]. assert (Hpl : plenty s (2 * (UNIT * nu + Vmm.PGSIZE)) -> can_grow s (mm_brk s + UNIT * nu) = true).
  { intros (P1 & P2 & P3). apply plenty_grow; [apply H|split_and!; [done|done|unfold Vmm.PGSIZE, UNIT in *; lia]|unfold UNIT; lia]. }
  destruct (can_grow s (mm_brk s + UNIT * nu)) eqn:Eg; cycle 1.
  { destruct (morecore_refused base s free live nu fuel H Hn) as (s3 & R & H3 & _); [unfold Vmm.PGSIZE, UNIT in *; lia|lia|done|]. rewrite (bind_step _ _ _ _ _ R). exists 0, s3. split; [done|]. split; [left; eauto|]. intros Hp. by apply Hpl in Hp. }
  destruct (morecore_grows base s free live nu fuel H Hn) as (s2 & b & a & c & p & R & H2 & Hat & Hkb & Hub & Hfb & Hfb' & E & Ha & Hc & (u & ->)%last_Some & Hfp2 & Hg2 & Hsh2); [unfold Vmm.PGSIZE, UNIT in *; lia|lia|done|].
  rewrite (bind_step _ _ _ _ _ R). cbn [negb]. clear R. assert (Hlen : length free = (length u + length c + 1)%nat) by (rewrite E, !length_app; cbn [length]; lia).
  assert (Hold : forall y, y ∈ u \/ y = p \/ y ∈ c -> fit nu y = false) by (intros y Hy; apply Hno; rewrite E; set_solver). rewrite paste_snoc in H2. cbn [join] in H2.
  pose proof (h_sorted _ _ _ _ (proj1 H2)) as Hs2. pose proof (blocks_nodup _ Hs2) as Hnd.
  destruct (touch p b) eqn:Et.
  - set (x := merge p b) in *. assert (Hx : fit nu x = true).
    { unfold fit. apply andb_prop in Et as [Ek%Z.eqb_eq _]. cbn [x merge kind units]. rewrite Ek, Hkb. cbn [Z.eqb andb]. apply Z.leb_le. destruct (free_bounds base s free live p (proj1 H)) as (_ & ? & _); [rewrite E; set_solver|lia]. }
    assert (exists f2, f2 ∈ u ++ x :: c /\ at_ f2 = at_ f) as (f2 & Hf2 & <-).
    { rewrite E, <- app_assoc in Hf. apply elem_of_app in Hf as [Hf|[-> |Hf]%elem_of_cons]; [exists f; split; [set_solver|done]|exists x; split; [set_solver|done]|exists f; split; [set_solver|done]]. }
    destruct (take_joined s2 u x c live f2 nu fuel H2 Hf2 Hfp2) as (s' & free' & R' & H'); [naive_solver|done|done|lia|].
    eexists _, s'. split; [exact R'|]. split; [by eapply served_fit|]. intros _. eapply taken_nonzero; [exact H2|set_solver].
  - assert (Hx : fit nu b = true) by (unfold fit; rewrite Hkb; apply Z.leb_le; done).
    destruct (decide (f = p)) as [-> |Hfp'].
    + destruct (take_next s2 u p b c live nu fuel H2 Hx Hn ltac:(lia)) as (s' & free' & R' & H').
      eexists _, s'. split; [exact R'|]. split; [by eapply served_fit|]. intros _. eapply taken_nonzero; [exact H2|set_solver].
    + destruct (rot_after u c p b f) as (l & k & Hrot & Hlast & Hl & Hll); [rewrite E, <- app_assoc in Hf; set_solver|]. destruct (l ++ p :: b :: k) as [|h t] eqn:El; [by destruct l|].
      rewrite (bind_step _ _ _ _ _ (last_points s2 _ live h t f (proj1 H2) Hrot Hlast)). cbn [ptr]. rewrite <- El in Hrot.
      replace fuel with (length l + S (fuel - length l - 1))%nat by lia.
      rewrite (ask s2 _ live l p (b :: k) (at_ f) nu _ H2 Hrot Hfp2 ltac:(intros y Hy; apply Hold; destruct (Hl y Hy); auto) ltac:(apply Hold; auto) h ltac:(by rewrite El)).
      destruct (ask_again s2 u p b c live nu (fuel - length l - 1) H2 Hn) as (r' & s' & R' & Hs' & Hg'); [pose proof (sp_brk _ _ (h_space _ _ _ _ (proj1 H2))) as [_ Hbk2]; unfold Vmm.PGSIZE, UNIT in *; lia|done|done|done|lia|].
      exists r', s'. split; [exact R'|]. split; [done|]. intros (P1 & P2 & P3). apply Hg'. apply plenty_grow; [apply H2|split_and!; [by rewrite Hg2, P1|by rewrite Hsh2|unfold Vmm.PGSIZE, UNIT in *; lia]|unfold UNIT; lia].
Qed.


(** ** The whole call *)

Lemma first_fit nu l : (forall y, y ∈ l -> fit nu y = false) \/ exists l1 x l2, l = l1 ++ x :: l2 /\ (forall y, y ∈ l1 -> fit nu y = false) /\ fit nu x = true.
Proof.
  induction l as [|z l IH]; [left; by intros y ?%not_elem_of_nil|]. destruct (fit nu z) eqn:E; [right; exists [], z, l; split_and!; [done|by intros y ?%not_elem_of_nil|done]|].
  destruct IH as [IH|(l1 & x & l2 & -> & H1 & H2)]; [left|right; exists (z :: l1), x, l2; split_and!; [done| |done]]; intros y [-> |Hy]%elem_of_cons; auto.
Qed.

(** The state when the ring has been set up, which the first call does. *)
Definition opened (s : ustate) : ustate :=
  if freep s =? 0 then put_freep base (put_mem (<[base := set_size 0 (set_ptr base (default (mk_header 0 0 0) (mem s !! base)))]> (mem s)) s) else s.

Lemma opened_run s : (if freep s =? 0 then modify (put_freep base) ;; wr base (set_ptr base) base ;; wr base (set_size 0) base else ret tt) s = Ret (tt, opened s).
Proof.
  unfold opened. destruct (freep s =? 0); [|done]. rewrite bind_modify. unfold wr. pose proof (base_mapped base) as Hm.
  unfold bind, get, modify, assert. rewrite Hm. unfold ret. rewrite Hm. cbn [mem put_mem put_freep]. rewrite lookup_insert_eq. cbn [default]. unfold put_mem, put_freep. cbn. by rewrite insert_insert_eq.
Qed.

Lemma units_of_small sz : 0 <= sz <= 2 ^ 30 -> units_of sz = (sz + 63) / 64 + 1.
Proof. intros H. unfold units_of, UNIT. rewrite (u32_small (sz + 64 - 1)) by (unfold is_u32; lia). rewrite u32_small; [f_equal; f_equal; lia|]. unfold is_u32. dlia. Qed.

Lemma malloc_run s free live sz fuel : heap_ok (opened s) free live -> 0 <= sz <= 2 ^ 30 -> (3 * length free + 5 <= fuel)%nat ->
  exists r s', malloc base fuel sz s = Ret (r, s') /\ served (units_of sz) live r s' /\ (plenty (opened s) (2 * (UNIT * units_of sz + Vmm.PGSIZE)) -> r <> 0).
Proof.
  intros H Hsz Hfu. assert (Hn : 1 <= units_of sz /\ UNIT * units_of sz + Vmm.PGSIZE <= 2 ^ 32 - Vmm.USERTOP) by (rewrite units_of_small by done; unfold UNIT, Vmm.PGSIZE, Vmm.USERTOP; dlia).
  destruct Hn as [Hn Hw]. unfold malloc, malloc_locked. cbn [Z.eqb]. rewrite bind_get, (bind_step _ _ _ _ _ (opened_run s)). rewrite bind_get. set (s1 := opened s) in *. set (nu := units_of sz) in *. clearbody nu.
  pose proof (proj1 H) as Hr. destruct (h_freep _ _ _ _ Hr) as (f & Hf & Hfp). rewrite Hfp. destruct (rot_to _ _ Hf) as [r Hrot]. apply (rot_swap [f] r) in Hrot.
  pose proof (rot_nodup _ _ Hrot (blocks_nodup _ (h_sorted _ _ _ _ Hr))) as Hnd. assert (Hlen : length free = S (length r)). { destruct Hrot as (u & v & E1 & ->). apply (f_equal length) in E1. rewrite !length_app in *. cbn [length] in E1. lia. }
  assert (Hlast : last (r ++ [f]) = Some f) by apply last_snoc. apply NoDup_app in Hnd as (_ & Hnd & _).
  destruct (first_fit nu (r ++ [f])) as [Hno|(l & x & k & E & Hl & Hx)].
  - destruct (r ++ [f]) as [|h t] eqn:E; [by destruct r|]. rewrite (bind_step _ _ _ _ _ (last_points s1 free live h t f Hr Hrot Hlast)). cbn [ptr]. rewrite <- E in Hrot, Hno.
    replace fuel with (length r + S (fuel - length r - 1))%nat by lia.
    rewrite (ask s1 free live r f [] (at_ f) nu _ H Hrot Hfp ltac:(intros y Hy; apply Hno; set_solver) ltac:(apply Hno; set_solver) h ltac:(by rewrite E)).
    apply (ask_first s1 free live f nu); try done; [|lia]. intros y Hy. apply Hno. by rewrite (rot_in _ _ _ Hrot).
  - rewrite E in Hrot, Hlast. destruct (resume s1 free live l x k f nu fuel H Hrot Hlast Hn) as (s' & free' & R & H'); [|done|apply (f_equal length) in E; rewrite !length_app in E; cbn [length] in E; lia|].
    + intros y Hy. split; [auto|]. rewrite Hfp. intros Ey. assert (Hyf : y ∈ free) by (rewrite <- (rot_in _ _ _ Hrot); set_solver). assert (y = f) as -> by (by apply (sorted_at free); [apply Hr|..]).
      pose proof (rot_nodup _ _ Hrot (blocks_nodup _ (h_sorted _ _ _ _ Hr))) as Hnd'. apply last_Some in Hlast as [w Ew]. assert (Hk : f ∈ x :: k).
      { destruct (x :: k) as [|z k'] eqn:Ek using rev_ind; [done|]. rewrite app_assoc in Ew. apply app_inj_tail in Ew as [_ <-]. set_solver. }
      apply NoDup_app in Hnd' as (_ & Hnd' & _). by apply (Hnd' f Hy).
    + eexists _, s'. split; [exact R|]. split; [by eapply served_fit|]. intros _. eapply taken_nonzero; [exact H|]. rewrite <- (rot_in _ _ _ Hrot). set_solver.
Qed.


(** C4: On a heap in good order, [malloc] of up to a gigabyte ends: it returns NULL, with
    every block in use untouched, or a block of just the units that the size needs, which
    overlaps no other block in use and no free one.  All memory the kernel has given is
    still in one block, free or in use, free neighbours are joined, and with memory for two
    requests left in the kernel the call does not fail. *)
Theorem umalloc_spec s free live sz fuel : heap_ok (opened s) free live -> 0 <= sz <= 2 ^ 30 -> (3 * length free + 5 <= fuel)%nat ->
  exists r s' free', malloc base fuel sz s = Ret (r, s') /\
    (r = 0 /\ heap_ok s' free' live \/
     exists x, r = at_ x + UNIT /\ kind x = 0 /\ sz <= UNIT * (units x - 1) < sz + UNIT /\ heap_ok s' free' (x :: live)) /\
    (plenty (opened s) (2 * (sz + 2 * UNIT + Vmm.PGSIZE)) -> r <> 0).
Proof.
  intros H Hsz Hf. destruct (malloc_run s free live sz fuel H Hsz Hf) as (r & s' & R & Hs & Hp). pose proof (units_of_small sz Hsz) as Hu.
  assert (Hp' : plenty (opened s) (2 * (sz + 2 * UNIT + Vmm.PGSIZE)) -> r <> 0).
  { intros (P1 & P2 & P3). apply Hp. split_and!; [done|done|]. etrans; [|exact P3]. rewrite Hu. unfold UNIT, Vmm.PGSIZE. dlia. }
  destruct Hs as [(-> & free' & H')|(x & free' & -> & Hx & Hk & H')].
  - exists 0, s', free'. split; [done|]. split; [by left|done].
  - exists (at_ x + UNIT), s', free'. split; [done|]. split; [right|done]. exists x. split; [done|]. split; [done|]. split; [|done]. rewrite Hx, Hu. unfold UNIT. dlia.
Qed.

(** ** Giving back *)

Definition covered (l : list blk) (a : Z) : Prop := exists y, y ∈ l /\ at_ y <= a < fin y.

Lemma covered_cons y l a : covered (y :: l) a <-> at_ y <= a < fin y \/ covered l a.
Proof. unfold covered. set_solver. Qed.

Lemma covered_app l1 l2 a : covered (l1 ++ l2) a <-> covered l1 a \/ covered l2 a.
Proof. unfold covered. set_solver. Qed.

Lemma covered_join b l a : 0 <= units b -> (forall y, y ∈ l -> 0 <= units y) -> covered (join b l) a <-> at_ b <= a < fin b \/ covered l a.
Proof.
  intros Hb Hl. destruct l as [|n l]; cbn [join]; [by rewrite covered_cons|]. pose proof (Hl n ltac:(by left)). destruct (touch b n) eqn:E; rewrite !covered_cons; [|done].
  apply andb_prop in E as [_ E%Z.eqb_eq]. unfold merge, fin, UNIT in *. cbn [at_ units] in *. split; [intros [|]|intros [|[|]]]; auto; lia.
Qed.

Lemma join_units b l y : 0 <= units b -> (forall y, y ∈ l -> 0 <= units y) -> y ∈ join b l -> 0 <= units y.
Proof. intros Hb Hl. apply (join_all (fun y => 0 <= units y)); [done|done|]. intros n Hn _. pose proof (Hl n Hn). cbn [merge units]. lia. Qed.

Lemma covered_paste a l z : (forall y, y ∈ a -> 0 <= units y) -> (forall y, y ∈ l -> 0 <= units y) -> covered (paste a l) z <-> covered a z \/ covered l z.
Proof.
  intros Ha Hl. destruct a as [|p u _] using rev_ind; cbn [paste]; [split; [auto|intros [(y & ?%not_elem_of_nil & _)|]; done]|].
  rewrite paste_snoc, !covered_app, covered_join, covered_cons by (auto || apply Ha; set_solver). split; [tauto|]. intros [[H|[H|(y & ?%not_elem_of_nil & _)]]|H]; tauto.
Qed.

(** C14: [free] of a block in use ends; the block is not in use any more, the free memory is
    what was free before and the block, and every other block in use is untouched.  The
    block has been joined with the free ones next to it. *)
Theorem ufree_spec s free_ l1 b l2 fuel : heap_ok s free_ (l1 ++ b :: l2) -> (length free_ <= fuel)%nat ->
  exists s' free', free base fuel (at_ b + UNIT) s = Ret (tt, s') /\ heap_ok s' free' (l1 ++ l2) /\
    forall a, covered free' a <-> covered free_ a \/ at_ b <= a < fin b.
Proof.
  intros H Hf. destruct (free_live_run base s free_ l1 b l2 fuel H Hf) as (s' & free' & R & H' & a & c & E & -> & _). exists s', (paste a (join b c)). split; [done|]. split; [done|].
  pose proof (proj1 H) as Hr. assert (Hu : forall y, y ∈ free_ -> 0 <= units y) by (intros y Hy; by apply (free_bounds base s _ _ y Hr)).
  assert (Hb : 0 <= units b) by (destruct (h_live _ _ _ _ Hr b ltac:(set_solver)) as ([? _] & _); lia). subst free_. intros z.
  assert (Hc : forall y, y ∈ c -> 0 <= units y) by (intros y Hy; apply Hu; set_solver).
  rewrite covered_paste, covered_join, covered_app by (done || (intros y Hy; apply Hu; set_solver) || (intros y; by apply join_units)). tauto.
Qed.

End Malloc.

(** ** A program's start *)

Definition BASE : Z := 0x801000.

(** The state of a program that has just been loaded. *)
Definition start : ustate := mk_ust {[ BASE := mk_header 0 0 0 ]} 0 0 0x802000 0x802000 [] [] [].

Definition returned {A} (d : A) (r : outcome (A * ustate)) : A := match r with Ret (a, _) => a | _ => d end.
Definition state_of {A} (r : outcome (A * ustate)) : ustate := match r with Ret (_, s) => s | _ => start end.

Lemma start_ok : heap_ok BASE (opened BASE start) [base_blk BASE] [].
Proof.
  split; [|split; [reflexivity|by left]]. split.
  - split; cbn; try done; try (unfold UNIT, Vmm.USERBASE, Vmm.USERTOP, BASE; lia). intros p n Hp. by apply not_elem_of_nil in Hp.
  - split; [done|]. exists BASE. split; [vm_compute; reflexivity|done].
  - repeat constructor.
  - by left.
  - exists (base_blk BASE). split; [by left|done].
  - intros b ->%list_elem_of_singleton. by left.
  - by intros b ?%not_elem_of_nil.
  - constructor.
Qed.

(** A hundred bytes take three units. *)
Lemma umalloc_spec_witness : exists s' free', malloc BASE 20 100 start = Ret (0x802040, s') /\ heap_ok BASE s' free' [mk_blk 0x802000 3 0].
Proof.
  destruct (umalloc_spec BASE start [base_blk BASE] [] 100 20 start_ok ltac:(lia) ltac:(cbn; lia)) as (r & s' & free' & E & H & Hp).
  assert (Hr : returned 0 (malloc BASE 20 100 start) = 0x802040) by (vm_compute; reflexivity). rewrite E in Hr. cbn [returned] in Hr. subst r.
  exists s', free'. split; [exact E|]. destruct H as [[H _]|(x & Ex & Hk & Hu & H)]; [discriminate|]. unfold UNIT in *.
  replace (mk_blk 0x802000 3 0) with x; [exact H|]. destruct x as [xa xu xk]. cbn in *. f_equal; lia.
Defined.

Definition in_use : ustate := Eval vm_compute in state_of (malloc BASE 20 100 start).

Lemma in_use_ok : heap_ok BASE in_use [base_blk BASE; mk_blk 0x8020c0 61 0] [mk_blk 0x802000 3 0].
Proof.
  assert (V1 : valid in_use (mk_blk 0x8020c0 61 0)) by (split; [cbn; lia|]; intros k Hk; unfold unit_ok; cbn in *; unfold UNIT; lia).
  assert (V2 : valid in_use (mk_blk 0x802000 3 0)) by (split; [cbn; lia|]; intros k Hk; unfold unit_ok; cbn in *; unfold UNIT; lia).
  split; [|split; [reflexivity|by right]]. split.
  - split; cbn; try done; try (unfold UNIT, Vmm.USERBASE, Vmm.USERTOP, BASE; lia). intros p n Hp. by apply not_elem_of_nil in Hp.
  - split; [done|]. eexists. split; [vm_compute; reflexivity|]. split; [done|]. eexists. split; [vm_compute; reflexivity|]. done.
  - constructor; [repeat constructor|]. apply Forall_singleton. split; [unfold room, UNIT, BASE; cbn; lia|reflexivity].
  - by left.
  - exists (base_blk BASE). split; [by left|done].
  - intros b [-> |[-> |?%not_elem_of_nil]%elem_of_cons]%elem_of_cons; [by left|by right|done].
  - intros b ->%list_elem_of_singleton. split_and!; [done|eexists; vm_compute; reflexivity|]. apply Forall_cons. split; [|apply Forall_singleton]; unfold apart, room, UNIT, BASE; cbn; lia.
  - repeat constructor.
Qed.

Lemma ufree_spec_witness : exists s' free', free BASE 20 0x802040 in_use = Ret (tt, s') /\ heap_ok BASE s' free' [] /\
  forall a, covered free' a <-> covered [base_blk BASE; mk_blk 0x8020c0 61 0] a \/ 0x802000 <= a < 0x8020c0.
Proof. exact (ufree_spec BASE in_use _ [] (mk_blk 0x802000 3 0) [] 20 in_use_ok ltac:(cbn; lia)). Defined.

(** ** Where the code goes wrong *)

(** Three blocks use up a page of shared memory; the first is given back and is too small
    for the next request.  The kernel gives an area above it, then, to the request that
    the walk repeats, the one right below it. *)
Definition shared_start : ustate := mk_ust {[ BASE := mk_header 0 0 0 ]} 0 0 0x802000 0x802000 [] [0xA0000000; 0xA0002000; 0x9FFFF000] [].

Definition shared_run : M ustate (Z * Z) :=
  a <- shmem_malloc BASE 20 1000 ;; _ <- shmem_malloc BASE 20 1000 ;; _ <- shmem_malloc BASE 20 1800 ;;
  free BASE 20 a ;;
  d <- shmem_malloc BASE 20 3000 ;; _ <- shmem_malloc BASE 20 3000 ;; f <- shmem_malloc BASE 20 3000 ;;
  ret (d, f).

(** [shmem_malloc] can hand out one block twice.  When the area that the second
    [morecore] gets lies right below the free block the walk stands at, that block is
    joined to it and leaves the ring, but the walk goes on from its old header: the block
    found next is not taken out of the ring. *)
Theorem shmem_double_allocation : exists s', shared_run shared_start = Ret ((0xA0002040, 0xA0002040), s').
Proof. eexists. vm_compute. reflexivity. Qed.

(** The size in units wraps around: the block has no room for a single byte. *)
Example malloc_wraps : let x := malloc BASE 20 (2 ^ 32 - 10) start in returned 0 x = 0x802040 /\ mem (state_of x) !! 0x802000 = Some (mk_header BASE 1 0).
Proof. split; vm_compute; reflexivity. Qed.

(** A huge size makes the new bound smaller than the old: the kernel takes the last page
    of the heap away, the free blocks in it too, and the next call runs into it. *)
Example malloc_shrinks : let x := (_ <- malloc BASE 20 5000 ;; malloc BASE 20 (2 ^ 32 - 4096 - 64 - 64)) start in
  returned 1 x = 0 /\ mm_brk (state_of x) = 0x803000 /\ malloc BASE 20 100 (state_of x) = Panic.
Proof. split_and!; vm_compute; reflexivity. Qed.

(** The kernel gives memory once, but the walk asks twice: NULL, though the new block of
    64 units is free. *)
Example malloc_fails_with_memory : let x := (a <- malloc BASE 20 1000 ;; _ <- malloc BASE 20 1000 ;; _ <- malloc BASE 20 1800 ;;
    free BASE 20 a ;; malloc BASE 20 3000) (put_grants [true; true; false] start) in
  returned 1 x = 0 /\ mem (state_of x) !! 0x802000 = Some (mk_header 0x803000 17 0) /\ mem (state_of x) !! 0x803000 = Some (mk_header BASE 64 0).
Proof. split_and!; vm_compute; reflexivity. Qed.

End UMallocSpec.
